(* ===== verification/_CoqProject ===== *)
-Q . S2P
Prelude.v
LayoutCell.v
LayoutAdjust.v
LayoutOffsets.v
Panes.v
LayoutTree.v
LayoutPaths.v
LayoutSplit.v
LayoutRemove.v
LayoutResize.v
LayoutSpread.v
LayoutNamed.v
Text.v
Errors.v
Names.v
LayoutText.v
LayoutShape.v
Window.v
WindowInv.v
WindowOps.v
WindowMove.v
PaneTransfer.v
WindowRun.v
Session.v
SessionInv.v
SessionOps.v
SessionTransfer.v
SessionRun.v
SessionGroups.v
SessionStore.v
Utf8.v
InputCell.v
Passthrough.v
OutputRing.v
Coalescer.v
IndexMap.v
Subscriptions.v
Waits.v
Varint.v
Frames.v
CommandQueue.v
Buffers.v
InputStates.v
ScreenWriter.v
InputTables.v
InputParser.v
InputRendition.v
InputEquiv.v
InputInv.v
InputReplay.v
InputText.v
GridCell.v
GridLine.v
GridLineInv.v
GridReflow.v
GridReflowText.v
Grid.v
GridInv.v
GridResize.v
GridText.v
Utf8Width.v
Vis.v
Hyperlinks.v
Screen.v
ScreenInv.v
ScreenSafe.v
Terminal.v
ScreenAlternate.v
TerminalText.v
Divergences.v
GridRender.v
RenderReplay.v
Capture.v
