(* ===== verification/Prelude.v ===== *)
(** * A verification development of rmux

    rmux is a terminal multiplexer: a server process owns sessions of windows of
    panes, clients attach to it over a framed protocol, and every pane runs a
    program on a pseudo-terminal whose output is parsed onto a screen, kept,
    broadcast to subscribers and drawn.  This library models the parts of
    [crates/rmux-core] and [crates/rmux-proto] that carry that logic as Rocq
    functions and proves what makes them correct.

    ** How the code is modelled

    A Rust function is a [Definition] or [Fixpoint] of the same name, a struct a
    [Record], an enum an [Inductive] type.  A method that changes [self] returns
    the new value.  [Option] is [option], [Result] is [result] of this file, and
    where the code can panic ([expect], [assert!], an index out of range) the
    outer [option] is [None] for the panic.  [debug_assert!]s, which the release
    profile compiles away, are left out.  Integers are [Z] with the width of the
    Rust type written out in the operations of this file, counts and indexes of
    vectors are [nat], bytes are [Z]; text is a list of [ascii] ([Text.v]) where
    the code reads characters of a small grammar and a list of UTF-8 bytes
    ([Utf8.v]) where it handles arbitrary strings.  Maps are stdpp's [gmap] where
    only lookups matter and association lists where the order does.  The clock
    is an argument of the functions that read it; within one call that feeds a
    terminal it is constant.

    Traits are classes: [ScreenWriter] is what the parser asks of a screen, with
    the methods that change it as the constructors of [WriterCall].  The theorems
    on the parser hold for every instance.  Where one depends on how a screen
    takes a run of ASCII characters it says so: [by_characters] is a screen with
    the trait's own body of [collect_add_ascii_run], which adds the characters one
    by one.  [Screen] overrides that body and takes another path for a run than
    for single characters when widths are overridden ([Divergences.v]).

    Loops and recursion that are not structural carry fuel, and the fuel given at
    the call is enough:
    - [resize_adjust]: the depth of the cell for the recursion and the size of
      the change for the loop ([LayoutAdjust.resize_adjust_terminates]);
      [resize_layout]: the size of the change;
    - the layout parser: the length of its input
      ([LayoutText.parse_children_fuel]); the decimal, hexadecimal and varint
      printers: the number of digits of the largest value;
    - [allocate_pane_loop], [allocate_session_loop] and [automatic_loop]: one
      more than the ids or names taken, of which each round passes one;
    - [parse_loop], [utf8_parts_loop], [plain_rows], [plain_run_loop], [unvis]:
      the length of the bytes left, of which each round takes one at least;
      [sgr_loop], [winops_loop]: the number of parameters;
    - [repair_loop], [clear_padding_loop], [select_loop]: the columns of a row;
      [enforce_limit_loop]: the length of the queue.

    ** The parts and their files

    Layout trees, [crates/rmux-core/src/layout.rs] and [layout/]:
    - [LayoutCell.v]: cells, [check], [fix_offsets], [resize_check],
      [resize_adjust], [spread]; [LayoutAdjust.v]: resizing a cell changes it by
      exactly what was asked and ends; [LayoutOffsets.v]: after [fix_offsets] the
      panes tile the window.
    - [LayoutTree.v]: the operations on trees; [LayoutPaths.v]: paths to leaves;
      [LayoutSplit.v], [LayoutRemove.v], [LayoutResize.v], [LayoutSpread.v]: what
      splitting, removing, resizing and spreading do.
    - [LayoutNamed.v]: the seven named layouts; [LayoutText.v]: layout strings,
      their checksum and the parser; [LayoutShape.v]: what every operation keeps
      of the number of leaves and the window's size.

    Windows, [window.rs] and [window/]:
    - [Panes.v], [Window.v]: the data and the operations; [WindowInv.v]: the
      invariant [window_ok] and the operations that keep the panes;
      [WindowOps.v]: the ones that add, remove and reorder panes; [WindowMove.v]:
      panes that arrive from elsewhere, directional selection, alerts and
      activity.
    - [PaneTransfer.v], [session/pane_transfer.rs] and
      [pane_transfer_shared.rs]: joins and swaps.
    - [WindowRun.v]: all of them as a step relation, and the theorems over runs.
    The invariants come in two strengths.  [window_ok_at stale] and
    [session_ok_at stale] with [stale = true] hold over all runs; they allow for
    two things the code leaves behind and nothing prevents: a zoomed window that
    was laid out anew shows its active pane tiled, and a join that empties the
    active window may keep the new active window as the last one.  With
    [stale = false], written [window_ok] and [session_ok], they exclude both and
    hold over runs that do neither ([relayouts_zoomed], [leaves_stale]).

    Sessions, [session.rs] and [session/]:
    - [Names.v]: session names ([rmux-proto/src/identity.rs]); [Session.v]: the
      window map, the selection and the alert flags; [SessionInv.v],
      [SessionOps.v]: the invariant and the operations that keep it;
      [SessionTransfer.v]: panes moved between windows and sessions;
      [SessionRun.v]: runs of a session; [SessionGroups.v]: sessions that share
      windows; [SessionStore.v]: all sessions of the server, their ids, groups
      and runtime owners.

    The terminal of a pane:
    - [Utf8.v]: UTF-8; [InputCell.v], [InputStates.v], [InputTables.v],
      [InputParser.v], [input/]: parameters and SGR, the seventeen states, the
      command tables and the parser; [Passthrough.v]: what a pane asks of the
      outer terminal; [ScreenWriter.v]: the interface to the screen.
    - [InputRendition.v], [InputInv.v]: the invariant of the parser;
      [InputEquiv.v]: the fast path and the tables; [InputReplay.v]:
      output cut into reads, pending bytes; [InputText.v]: text, control sequences and colours.
    - [GridCell.v], [GridLine.v], [Grid.v], [GridReflow.v], [grid.rs] and
      [grid/cell.rs]: cells, lines in compact and expanded form, the rows on the
      screen and in the history, and laying them out at another width;
      [GridLineInv.v], [GridInv.v], [GridResize.v]: their invariant;
      [GridReflowText.v], [GridText.v]: what they read before and after.
    - [Utf8Width.v] ([utf8.rs]), [Vis.v] ([vis.rs]), [Hyperlinks.v]
      ([hyperlinks.rs]): widths, escapes and links.
    - [Screen.v], [screen.rs] and [screen/writer.rs]: the screen as an instance
      of [ScreenWriter]; [ScreenInv.v], [ScreenSafe.v]: its invariant and that
      every method keeps it; [ScreenAlternate.v]: the alternate screen;
      [Terminal.v], [terminal/] and [terminal_screen.rs]: parser and screen
      together; [TerminalText.v]: what printed text shows; [Divergences.v]:
      examples where the screen contradicts its own rules.
    - [GridRender.v], [grid/render.rs] and the rendering half of [grid/cell.rs]
      and [grid.rs]: rows as text with control sequences; [RenderReplay.v]: such a
      row read by the parser draws the row again; [Capture.v], [transcript.rs] and
      [screen/capture.rs]: captures, rows for recovery and the transcript.

    Pane output and notifications, [events/]:
    - [OutputRing.v]: the bounded ring of output events and the cursors that read
      it; [Coalescer.v]: rate-limited snapshot notifications; [IndexMap.v],
      [Subscriptions.v], [Waits.v]: the registries of subscriptions and waits.

    The protocol, [crates/rmux-proto]:
    - [Errors.v]: [RmuxError]; [Varint.v], [Frames.v]: the version varint and the
      framing of detached requests, with the payload codec as a parameter.

    Commands and buffers: [CommandQueue.v] ([command_queue.rs]) and [Buffers.v]
    ([buffers.rs]).

    This file holds machine integers, [result], the tactics [machine] and
    [case_Zbool] and the hint database [rmux] the other files extend.

    ** What the theorems show

    - Layout: splitting, removing, resizing and the named layouts keep a tree
      well formed, and a well-formed tree tiles its window; a layout string
      parses back to its tree.
    - Windows: in every window that operations reach from a new one the panes are
      numbered by position, the selection exists and the rectangles are those of
      the tree (zoom included, unless a layout was forced on a zoomed window), and
      no operation panics; splits, removals,
      rotations, swaps and joins change exactly the panes they name; zooming
      twice is the identity.
    - Sessions: in every session that operations reach from a new one the windows
      are consistent, the active and last window exist and the alert flags are
      those of the windows; joins and breaks move exactly one pane; grouped
      sessions follow their group; the store keeps names, ids and owners unique.
    - Terminal: whatever bytes a new terminal is fed and whatever the server does
      to it in between, nothing is indexed out of range and every buffer stays
      within its bound; how the output is cut into reads does not matter to the
      parser, nor to a screen that takes ASCII runs one character at a time; text
      and control sequences mean what they spell, printed text is what the screen
      shows, a change of width keeps the text, the alternate screen gives back
      the rows it covered, and a row written out with its styles draws the same
      cells again.
    - Output: whatever the order of pushes, clears and polls, a subscriber gets
      each event once and in order or is told how many it missed; notifications
      are rate limited and a pending one is delivered when its interval is over.
    - Protocol: a stream of frames cut anywhere decodes to the values sent; the
      varint is a bijection.
    - Registries, queue and buffers refine plain maps and lists.
    - Where the code does something else than it means to, a theorem states what
      it does ([spread_overflows_exact_multiple],
      [split_root_overflows_crowded_window], [custom_layout_breaks_zoom],
      [directional_resize_forgotten], [insert_before_divides_previous],
      [join_leaves_last_active], [saved_cursor_shared], [overline_is_lost],
      [compaction_changes_rendering], [Divergences.v]).

    ** Hypotheses

    [Frames.v] takes the payload codec (bincode, a third-party package) as two
    functions with the hypothesis that decoding an encoding returns the value;
    the files from [Utf8Width.v] on take [unicode_width], the column count of the
    [unicode-width] package, and only [TerminalText.v] and the shortcuts of
    [Utf8Width.v] assume something of it: a printable ASCII character has one
    column.  Witnesses instantiate both.  Bounds on sizes and counts are stated
    where they are needed: sizes fit [u16] as the wire format makes them, a
    window has at most 65535 panes.

    ** Not modelled

    Of the terminal, the high half of a line's [revision] (an identity drawn from
    a process-wide counter that this code never reads), views and bounded
    copies of a screen ([screen/view.rs]), and the style of a pane laid over its
    cells ([screen/style_overlay.rs] and the captures that use it).
    Of [rmux-core] also key tables, formats, options, hooks, the
    environment, target resolution, the command parser and styles; and the server,
    client, SDK, PTY, IPC, operating-system, rendering and web crates, which are
    I/O, system calls, asynchronous dispatch and third-party cryptography around
    the parts above. *)

From stdpp Require Export base tactics list numbers option sets fin_sets gmap strings.
From Stdlib Require Export ZArith Lia.

#[global] Open Scope Z_scope.

(** ** Machine integers

    Every integer of the code is a [Z] in the range of its Rust type; the
    operations below write the width out.  [usize] values that only count or
    index a vector are [nat].  Plain [+] on unsigned integers is [uN_add]: the
    release profile of the repository does not enable overflow checks, so it
    wraps. *)

Definition u8_max : Z := 255.
Definition u16_max : Z := 65535.
Definition u32_max : Z := 4294967295.
Definition i32_max : Z := 2147483647.
Definition u64_max : Z := 18446744073709551615.

Definition wrap_u16 (z : Z) : Z := z mod 65536.
Definition wrap_u32 (z : Z) : Z := z mod 4294967296.
Definition wrap_u64 (z : Z) : Z := z mod 18446744073709551616.

(** Two's complement reading of the low 32 bits: Rust's [as i32]. *)
Definition as_i32 (z : Z) : Z :=
  let r := wrap_u32 z in
  if r <? 2147483648 then r else r - 4294967296.

Definition u32_add (a b : Z) : Z := wrap_u32 (a + b).
Definition u32_mul (a b : Z) : Z := wrap_u32 (a * b).

(** [saturating_sub] of any unsigned type; [saturating_add] at a maximum. *)
Definition sat_sub (a b : Z) : Z := Z.max 0 (a - b).
Definition sat_add (maximum a b : Z) : Z := Z.min maximum (a + b).
Definition u32_sat_add (a b : Z) : Z := sat_add u32_max a b.
Definition u32_sat_mul (a b : Z) : Z := Z.min u32_max (a * b).
Definition u64_sat_add (a b : Z) : Z := sat_add u64_max a b.

(** [u32::saturating_add_signed]. *)
Definition u32_sat_add_signed (a d : Z) : Z := Z.max 0 (Z.min u32_max (a + d)).

(** [Ord::clamp], which requires [lo <= hi]. *)
Definition clamp (v lo hi : Z) : Z :=
  if v <? lo then lo else if hi <? v then hi else v.

(** [Iterator::sum] at [u32]. *)
Definition u32_sum (l : list Z) : Z := fold_left u32_add l 0.

Definition in_u8 (z : Z) : Prop := 0 <= z <= u8_max.
Definition in_u16 (z : Z) : Prop := 0 <= z <= u16_max.
Definition in_u32 (z : Z) : Prop := 0 <= z <= u32_max.
Definition in_u64 (z : Z) : Prop := 0 <= z <= u64_max.

(** ** Automation *)

Create HintDb rmux.
Create Rewrite HintDb rmux.

(** Unfold the machine-integer operations and close linear goals. *)
Ltac unfold_machine :=
  unfold u32_sat_add_signed, u32_sat_add, u64_sat_add, u32_sat_mul, sat_add,
    sat_sub, clamp, in_u8, in_u16, in_u32, in_u64, u8_max, u16_max, u32_max,
    u64_max, i32_max in *.

Ltac machine := unfold_machine; lia.

(** Case analysis on every boolean integer test in sight. *)
Ltac case_Zbool :=
  repeat match goal with
  | |- context [Z.eqb ?a ?b] => destruct (Z.eqb_spec a b)
  | |- context [Z.ltb ?a ?b] => destruct (Z.ltb_spec a b)
  | |- context [Z.leb ?a ?b] => destruct (Z.leb_spec a b)
  | H : context [Z.eqb ?a ?b] |- _ => destruct (Z.eqb_spec a b)
  | H : context [Z.ltb ?a ?b] |- _ => destruct (Z.ltb_spec a b)
  | H : context [Z.leb ?a ?b] |- _ => destruct (Z.leb_spec a b)
  end.

(** ** Wrapping arithmetic that does not wrap *)

Lemma wrap_u32_small z : in_u32 z -> wrap_u32 z = z.
Proof. intros H. apply Z.mod_small. machine. Qed.

Lemma wrap_u32_range z : in_u32 (wrap_u32 z).
Proof. unfold wrap_u32. pose proof (Z.mod_pos_bound z 4294967296). machine. Qed.

Lemma u32_add_small a b : in_u32 (a + b) -> u32_add a b = a + b.
Proof. apply wrap_u32_small. Qed.

Lemma as_i32_small z : 0 <= z <= i32_max -> as_i32 z = z.
Proof.
  intros H. unfold as_i32. rewrite wrap_u32_small by machine.
  destruct (Z.ltb_spec z 2147483648); machine.
Qed.

Lemma as_i32_signed z : - 2147483648 <= z <= i32_max -> as_i32 z = z.
Proof.
  intros H. destruct (decide (0 <= z)); [apply as_i32_small; machine|].
  unfold as_i32, wrap_u32. rewrite <- (Z_mod_plus_full z 1), Z.mod_small by machine.
  destruct (Z.ltb_spec (z + 1 * 4294967296) 2147483648); lia.
Qed.

Lemma clamp_range v lo hi : lo <= hi -> lo <= clamp v lo hi <= hi.
Proof. unfold clamp. case_Zbool; lia. Qed.

Lemma clamp_id v lo hi : lo <= v <= hi -> clamp v lo hi = v.
Proof. unfold clamp. case_Zbool; lia. Qed.

(** ** Sums of integer lists *)

Definition sumZ (l : list Z) : Z := fold_right Z.add 0 l.
#[global] Arguments sumZ : simpl never.

Lemma sumZ_app l1 l2 : sumZ (l1 ++ l2) = sumZ l1 + sumZ l2.
Proof. induction l1 as [|a l1 IH]; simpl; [done|]. unfold sumZ in *. simpl. lia. Qed.

Lemma sumZ_cons a l : sumZ (a :: l) = a + sumZ l.
Proof. done. Qed.

Lemma sumZ_nonneg l : Forall (Z.le 0) l -> 0 <= sumZ l.
Proof. induction 1; rewrite ?sumZ_cons; [done|lia]. Qed.

Lemma sumZ_elem_le l a : Forall (Z.le 0) l -> a ∈ l -> a <= sumZ l.
Proof.
  induction 1 as [|b l Hb Hl IH]; intros Hin; [by apply elem_of_nil in Hin|].
  rewrite sumZ_cons. pose proof (sumZ_nonneg l Hl).
  apply elem_of_cons in Hin as [->|Hin]; [lia|]. specialize (IH Hin). lia.
Qed.

Lemma u32_sum_fold l a : fold_left u32_add l (wrap_u32 a) = wrap_u32 (a + sumZ l).
Proof.
  revert a. induction l as [|b l IH]; intros a; cbn [fold_left].
  - f_equal. unfold sumZ. simpl. lia.
  - unfold u32_add at 2, wrap_u32 at 2.
    replace (wrap_u32 (a mod 4294967296 + b)) with (wrap_u32 (a + b)).
    + rewrite IH. f_equal. rewrite sumZ_cons. lia.
    + unfold wrap_u32. by rewrite Zplus_mod_idemp_l.
Qed.

Lemma u32_sum_small l : in_u32 (sumZ l) -> u32_sum l = sumZ l.
Proof.
  intros H. unfold u32_sum. rewrite <- (wrap_u32_small 0) by machine.
  rewrite u32_sum_fold. by apply wrap_u32_small.
Qed.

(** ** Deleting a list of keys *)

Lemma lookup_foldr_delete `{Countable K} {A} (m : gmap K A) (ids : list K) (id : K) :
  foldr delete m ids !! id = if decide (id ∈ ids) then None else m !! id.
Proof.
  induction ids as [|i ids IH]; cbn [foldr]; [by rewrite decide_False by set_solver|].
  destruct (decide (id = i)) as [->|Hne].
  - rewrite lookup_delete_eq. by rewrite decide_True by set_solver.
  - rewrite lookup_delete_ne, IH by done. destruct (decide (id ∈ ids)).
    + by rewrite decide_True by set_solver.
    + by rewrite decide_False by set_solver.
Qed.

Lemma lookup_reverse_delete `{Countable K} {A} (m : gmap K A) (ids : list K) (id : K) :
  foldr delete m (reverse ids) !! id = if decide (id ∈ ids) then None else m !! id.
Proof.
  rewrite lookup_foldr_delete. destruct (decide (id ∈ ids)) as [Hin|Hin].
  - by rewrite decide_True by (by rewrite elem_of_reverse).
  - by rewrite decide_False by (by rewrite elem_of_reverse).
Qed.

(** ** Results

    The [Result] of the code.  [let?] is the [?] operator. *)

Inductive result (A E : Type) : Type :=
| Ok (a : A)
| Err (e : E).
Arguments Ok {A E} a.
Arguments Err {A E} e.

Declare Scope result_scope.
Delimit Scope result_scope with result.
Notation "'let?' x := e 'in' k" :=
  (match e with Ok x => k | Err err => Err err end)
  (at level 10, x pattern, k at level 200) : result_scope.
#[global] Open Scope result_scope.

Definition is_Ok {A E} (r : result A E) : bool :=
  match r with Ok _ => true | Err _ => false end.

Lemma bind_Ok {A B E} (r : result A E) (k : A -> result B E) b :
  (let? x := r in k x) = Ok b <-> exists a, r = Ok a /\ k a = Ok b.
Proof. destruct r; split; [eauto|by intros (? & [= ->] & ?)|done|by intros (? & ? & ?)]. Qed.
