(* ===== verification/LayoutCell.v ===== *)
(** * Layout cells

    The recursive geometry tree of a window, from
    [crates/rmux-core/src/layout/cell.rs]: the data ([LayoutGeometry],
    [LayoutKind], [LayoutCell]), the recursive checks and rewrites of a cell,
    the abstract geometry invariant [consistent] they maintain, and the proofs
    that [resize_adjust], [fix_offsets] and [spread] implement it. *)

From S2P Require Import Prelude.

Set Warnings "-register-all".

(** ** Data *)

Inductive LayoutDirection := LeftRight | TopBottom.

#[global] Instance LayoutDirection_eq_dec : EqDecision LayoutDirection.
Proof. solve_decision. Defined.

Record LayoutGeometry := mkGeometry {
  width : Z;
  height : Z;
  geo_x : Z;
  geo_y : Z;
}.

#[global] Instance LayoutGeometry_eq_dec : EqDecision LayoutGeometry.
Proof. solve_decision. Defined.

Inductive LayoutKind (C : Type) : Type :=
| Pane
| Split (direction : LayoutDirection) (children : list C).
Arguments Pane {C}.
Arguments Split {C} direction children.

Inductive LayoutCell : Type := mkCell {
  geometry : LayoutGeometry;
  kind : LayoutKind LayoutCell;
}.

Definition PANE_BORDER_CELLS : Z := 1.
Definition PANE_MINIMUM : Z := 1.

(** Induction over a cell: the hypothesis holds for every child. *)
Lemma LayoutCell_rect_strong (P : LayoutCell -> Prop)
    (Hpane : forall g, P (mkCell g Pane))
    (Hsplit : forall g d cs, Forall P cs -> P (mkCell g (Split d cs))) :
  forall c, P c.
Proof.
  fix IH 1. intros [g [|d cs]]; [apply Hpane|apply Hsplit].
  induction cs as [|c cs IHcs]; constructor; [apply IH|apply IHcs].
Qed.

(** The size of a geometry along a direction, and across it. *)
Definition geo_axis (d : LayoutDirection) (g : LayoutGeometry) : Z :=
  match d with LeftRight => width g | TopBottom => height g end.

Definition flip (d : LayoutDirection) : LayoutDirection :=
  match d with LeftRight => TopBottom | TopBottom => LeftRight end.

Definition axis_size (c : LayoutCell) (d : LayoutDirection) : Z :=
  geo_axis d (geometry c).

Definition set_axis (d : LayoutDirection) (v : Z) (g : LayoutGeometry) : LayoutGeometry :=
  match d with
  | LeftRight => mkGeometry v (height g) (geo_x g) (geo_y g)
  | TopBottom => mkGeometry (width g) v (geo_x g) (geo_y g)
  end.

(** ** Operations *)

Definition pane (g : LayoutGeometry) : LayoutCell := mkCell g Pane.

Definition split (d : LayoutDirection) (g : LayoutGeometry) (children : list LayoutCell)
  : LayoutCell := mkCell g (Split d children).

Fixpoint leaf_count (c : LayoutCell) : nat :=
  match kind c with
  | Pane => 1
  | Split _ children => foldr Nat.add 0%nat (map leaf_count children)
  end.

Fixpoint minimum_size (c : LayoutCell) : Z * Z :=
  match kind c with
  | Pane => (PANE_MINIMUM, PANE_MINIMUM)
  | Split d children =>
      let border_count := Z.min u32_max (Z.of_nat (length children - 1)) in
      let borders := u32_sat_mul PANE_BORDER_CELLS border_count in
      let '(summed_axis, (widest, tallest)) :=
        fold_left
          (fun st child =>
             let '(summed_axis, (widest, tallest)) := st in
             let '(w, h) := minimum_size child in
             match d with
             | LeftRight => (u32_sat_add summed_axis w, (widest, Z.max tallest h))
             | TopBottom => (u32_sat_add summed_axis h, (Z.max widest w, tallest))
             end)
          children (borders, (PANE_MINIMUM, PANE_MINIMUM)) in
      match d with
      | LeftRight => (Z.max summed_axis PANE_MINIMUM, tallest)
      | TopBottom => (widest, Z.max summed_axis PANE_MINIMUM)
      end
  end.

Fixpoint collect_leaf_geometries (c : LayoutCell) (geometries : list LayoutGeometry)
  : list LayoutGeometry :=
  match kind c with
  | Pane => geometries ++ [geometry c]
  | Split _ children =>
      fold_left (fun acc child => collect_leaf_geometries child acc) children geometries
  end.

(** [current_path] is pushed and popped around each child, so it is passed
    down; [paths] is threaded through the loop over the children. *)
Definition collect_children_paths
    (collect : LayoutCell -> list nat -> list (list nat) -> list (list nat))
    (current_path : list nat) : nat -> list LayoutCell -> list (list nat) -> list (list nat) :=
  fix go (index : nat) (children : list LayoutCell) (paths : list (list nat)) :=
    match children with
    | [] => paths
    | child :: rest => go (S index) rest (collect child (current_path ++ [index]) paths)
    end.

Fixpoint collect_leaf_paths (c : LayoutCell) (current_path : list nat)
    (paths : list (list nat)) : list (list nat) :=
  match kind c with
  | Pane => paths ++ [current_path]
  | Split _ children =>
      collect_children_paths collect_leaf_paths current_path 0 children paths
  end.

(** The loop of [check] over the children of a split with geometry [g]. *)
Definition check_children (check : LayoutCell -> bool) (d : LayoutDirection)
    (g : LayoutGeometry) : Z -> list LayoutCell -> bool :=
  fix go (total : Z) (children : list LayoutCell) : bool :=
    match children with
    | [] => sat_sub total PANE_BORDER_CELLS =? geo_axis d g
    | child :: rest =>
        if negb (check child) then false
        else if negb (axis_size child (flip d) =? geo_axis (flip d) g) then false
        else go (u32_sat_add total (u32_add (axis_size child d) PANE_BORDER_CELLS)) rest
    end.

Fixpoint check (c : LayoutCell) : bool :=
  match kind c with
  | Pane => true
  | Split d children =>
      match children with
      | [] => false
      | _ => check_children check d (geometry c) 0 children
      end
  end.

(** The loop of [fix_offsets]: [cursor] is the offset of the next child. *)
Definition fix_children_offsets (fix_offsets : Z -> Z -> LayoutCell -> LayoutCell)
    (d : LayoutDirection) (x y : Z) : Z -> list LayoutCell -> list LayoutCell :=
  fix go (cursor : Z) (children : list LayoutCell) : list LayoutCell :=
    match children with
    | [] => []
    | child :: rest =>
        let child' :=
          match d with
          | LeftRight => fix_offsets (u32_add x cursor) y child
          | TopBottom => fix_offsets x (u32_add y cursor) child
          end in
        child' ::
        go (u32_sat_add (u32_sat_add cursor (axis_size child' d)) PANE_BORDER_CELLS) rest
    end.

Fixpoint fix_offsets (x y : Z) (c : LayoutCell) : LayoutCell :=
  mkCell (mkGeometry (width (geometry c)) (height (geometry c)) x y)
    match kind c with
    | Pane => Pane
    | Split d children => Split d (fix_children_offsets fix_offsets d x y 0 children)
    end.

Fixpoint resize_check (c : LayoutCell) (d : LayoutDirection) : Z :=
  match kind c with
  | Pane => sat_sub (geo_axis d (geometry c)) PANE_MINIMUM
  | Split split_direction children =>
      let available := map (fun child => resize_check child d) children in
      if decide (split_direction = d) then u32_sum available
      else match available with
           | [] => 0
           | a :: rest => fold_left Z.min rest a
           end
  end.

(** *** [resize_adjust]

    One [for] pass over the children of a split in the resized direction:
    the children, what remains of the change, and the [progressed] flag.
    [adjust] is the recursive call. *)
Fixpoint adjust_pass (adjust : Z -> LayoutCell -> LayoutCell) (d : LayoutDirection)
    (children : list LayoutCell) (remaining : Z) : list LayoutCell * (Z * bool) :=
  match children with
  | [] => ([], (remaining, false))
  | child :: rest =>
      if remaining =? 0 then (child :: rest, (remaining, false))
      else if 0 <? remaining then
        let '(rest', (remaining', _)) := adjust_pass adjust d rest (remaining - 1) in
        (adjust 1 child :: rest', (remaining', true))
      else if 0 <? resize_check child d then
        let '(rest', (remaining', _)) := adjust_pass adjust d rest (remaining + 1) in
        (adjust (-1) child :: rest', (remaining', true))
      else
        let '(rest', (remaining', progressed)) := adjust_pass adjust d rest remaining in
        (child :: rest', (remaining', progressed))
  end.

(** The [while remaining != 0] loop around the passes. *)
Fixpoint adjust_loop (fuel : nat) (adjust : Z -> LayoutCell -> LayoutCell)
    (d : LayoutDirection) (children : list LayoutCell) (remaining : Z) : list LayoutCell :=
  match fuel with
  | O => children
  | S fuel =>
      if remaining =? 0 then children
      else
        let '(children', (remaining', progressed)) := adjust_pass adjust d children remaining in
        if progressed then adjust_loop fuel adjust d children' remaining' else children'
  end.

Fixpoint resize_adjust_fuel (fuel : nat) (d : LayoutDirection) (change : Z) (c : LayoutCell)
  : LayoutCell :=
  match fuel with
  | O => c
  | S fuel =>
      if change =? 0 then c
      else
        let g := geometry c in
        mkCell (set_axis d (u32_sat_add_signed (geo_axis d g) change) g)
          match kind c with
          | Pane => Pane
          | Split split_direction children =>
              if decide (split_direction = d) then
                Split split_direction
                  (adjust_loop (Z.abs_nat change) (resize_adjust_fuel fuel d) d children change)
              else Split split_direction (map (resize_adjust_fuel fuel d change) children)
          end
  end.

(** The height of the tree bounds the recursion depth. *)
Fixpoint cell_depth (c : LayoutCell) : nat :=
  match kind c with
  | Pane => 1
  | Split _ children => S (foldr Nat.max 0%nat (map cell_depth children))
  end.

Definition resize_adjust (d : LayoutDirection) (change : Z) (c : LayoutCell) : LayoutCell :=
  resize_adjust_fuel (cell_depth c) d change c.

(** *** [spread]: the returned flag is [changed]. *)

Fixpoint spread_children (d : LayoutDirection) (each remainder : Z)
    (children : list LayoutCell) : list LayoutCell * bool :=
  match children with
  | [] => ([], false)
  | child :: rest =>
      let target := if 0 <? remainder then u32_add each 1 else each in
      let remainder' := if 0 <? remainder then remainder - 1 else remainder in
      let current := geo_axis d (geometry child) in
      let delta := as_i32 (as_i32 target - as_i32 current) in
      let '(rest', changed) := spread_children d each remainder' rest in
      if delta =? 0 then (child :: rest', changed)
      else (resize_adjust d delta child :: rest', true)
  end.

Definition spread (c : LayoutCell) : LayoutCell * bool :=
  match kind c with
  | Pane => (c, false)
  | Split d children =>
      if (length children <=? 1)%nat then (c, false)
      else
        let count := wrap_u32 (Z.of_nat (length children)) in
        let size := geo_axis d (geometry c) in
        if size <? sat_sub count 1 then (c, false)
        else
          let each := sat_sub size (sat_sub count 1) / count in
          if each =? 0 then (c, false)
          else
            let remainder :=
              u32_sat_add (sat_sub size (u32_mul count (u32_add each PANE_BORDER_CELLS)))
                PANE_BORDER_CELLS in
            let '(children', changed) := spread_children d each remainder children in
            (mkCell (geometry c) (Split d children'), changed)
  end.

Definition fix_root_size_if_needed (c : LayoutCell) : LayoutCell :=
  match kind c with
  | Pane => c
  | Split d children =>
      match children with
      | [] => c
      | first :: _ =>
          let total :=
            sat_sub
              (u32_sum (map (fun child => u32_add (geo_axis d (geometry child)) PANE_BORDER_CELLS)
                          children)) PANE_BORDER_CELLS in
          let cross := geo_axis (flip d) (geometry first) in
          let g := set_axis (flip d) cross (set_axis d total (geometry c)) in
          fix_offsets 0 0 (mkCell g (kind c))
      end
  end.

(** ** Basic facts *)

#[global] Instance cell_inhabited : Inhabited LayoutCell :=
  populate (mkCell (mkGeometry 0 0 0 0) Pane).

Lemma flip_flip d : flip (flip d) = d.
Proof. by destruct d. Qed.

Lemma flip_ne d : flip d <> d.
Proof. by destruct d. Qed.

Lemma ne_flip d d' : d <> d' -> d = flip d'.
Proof. by destruct d, d'. Qed.

Lemma geo_axis_set_eq d v g : geo_axis d (set_axis d v g) = v.
Proof. by destruct d. Qed.

Lemma geo_axis_set_flip d v g : geo_axis (flip d) (set_axis d v g) = geo_axis (flip d) g.
Proof. by destruct d. Qed.

#[export] Hint Rewrite flip_flip geo_axis_set_eq geo_axis_set_flip : rmux.

(** The shape of a tree: the same cell with every geometry forgotten. *)
Fixpoint erase (c : LayoutCell) : LayoutCell :=
  mkCell (mkGeometry 0 0 0 0)
    match kind c with
    | Pane => Pane
    | Split d children => Split d (map erase children)
    end.

Lemma Forall_map_eq {A B} (f g : A -> B) (l : list A) :
  Forall (fun a => f a = g a) l -> map f l = map g l.
Proof. induction 1 as [|a l Ha Hl IH]; simpl; [done|]. by rewrite Ha, IH. Qed.

Lemma leaf_count_erase c : leaf_count (erase c) = leaf_count c.
Proof.
  induction c as [g|g d cs IH] using LayoutCell_rect_strong; [done|].
  simpl. by rewrite map_map, (Forall_map_eq _ leaf_count).
Qed.

Lemma cell_depth_erase c : cell_depth (erase c) = cell_depth c.
Proof.
  induction c as [g|g d cs IH] using LayoutCell_rect_strong; [done|].
  simpl. by rewrite map_map, (Forall_map_eq _ cell_depth).
Qed.

Lemma erase_eq_leaf_count c c' : erase c' = erase c -> leaf_count c' = leaf_count c.
Proof. intros H. by rewrite <- leaf_count_erase, H, leaf_count_erase. Qed.

Lemma erase_eq_depth c c' : erase c' = erase c -> cell_depth c' = cell_depth c.
Proof. intros H. by rewrite <- cell_depth_erase, H, cell_depth_erase. Qed.

Lemma cell_depth_child g d cs c : c ∈ cs -> (cell_depth c < cell_depth (mkCell g (Split d cs)))%nat.
Proof.
  simpl. induction cs as [|c' cs IH]; intros Hin; [by apply elem_of_nil in Hin|].
  simpl. apply elem_of_cons in Hin as [->|Hin]; [lia|]. specialize (IH Hin). lia.
Qed.

(** ** The geometry invariant

    The specification [check] implements: along its direction a split is
    exactly its children and one border cell between each two, across it
    every child is as large as the split. *)

Definition total (d : LayoutDirection) (cs : list LayoutCell) : Z :=
  sumZ (map (fun c => axis_size c d + 1) cs).

Inductive consistent : LayoutCell -> Prop :=
| consistent_pane g :
    0 <= width g -> 0 <= height g -> consistent (mkCell g Pane)
| consistent_split g d cs :
    cs <> [] ->
    Forall consistent cs ->
    Forall (fun c => axis_size c (flip d) = geo_axis (flip d) g) cs ->
    total d cs = geo_axis d g + 1 ->
    consistent (mkCell g (Split d cs)).

Lemma total_nil d : total d [] = 0.
Proof. done. Qed.

Lemma total_cons d c cs : total d (c :: cs) = axis_size c d + 1 + total d cs.
Proof. done. Qed.

Lemma total_nonneg d cs :
  Forall (fun c => 0 <= axis_size c d) cs -> Z.of_nat (length cs) <= total d cs.
Proof. induction 1; [done|]. rewrite total_cons. simpl length. lia. Qed.

Lemma consistent_nonneg c : consistent c -> forall d, 0 <= axis_size c d.
Proof.
  induction c as [g|g d cs IH] using LayoutCell_rect_strong; intros Hc d'.
  - inversion Hc; subst. by destruct d'.
  - inversion Hc as [|??? Hne Hcs Hcross Htot]; subst. unfold axis_size. simpl.
    rewrite Forall_forall in IH, Hcs, Hcross.
    destruct (decide (d' = d)) as [->|Hd].
    + assert (Z.of_nat (length cs) <= total d cs) as Hlen.
      { apply total_nonneg, Forall_forall. intros c Hin. by apply IH, Hcs. }
      destruct cs; [done|]. simpl in Hlen. lia.
    + rewrite (ne_flip d' d Hd). destruct cs as [|c cs]; [done|].
      rewrite <- (Hcross c) by set_solver. apply IH; [|apply Hcs]; set_solver.
Qed.

Lemma consistent_children g d cs :
  consistent (mkCell g (Split d cs)) ->
  cs <> [] /\ Forall consistent cs /\
  Forall (fun c => axis_size c (flip d) = geo_axis (flip d) g) cs /\
  total d cs = geo_axis d g + 1.
Proof. by inversion 1. Qed.

Lemma total_elem_le d cs c :
  Forall consistent cs -> c ∈ cs -> axis_size c d + 1 <= total d cs.
Proof.
  intros Hcs Hin. unfold total. apply sumZ_elem_le.
  - apply Forall_map. eapply Forall_impl; [exact Hcs|].
    intros c' Hc'. pose proof (consistent_nonneg c' Hc' d). simpl. lia.
  - apply list_elem_of_fmap. eauto.
Qed.

(** Every child is no larger than its parent, in both directions. *)
Lemma consistent_child_le g d cs c d' :
  consistent (mkCell g (Split d cs)) -> c ∈ cs -> axis_size c d' <= geo_axis d' g.
Proof.
  intros (Hne & Hcs & Hcross & Htot)%consistent_children Hin.
  destruct (decide (d' = d)) as [->|Hd].
  - pose proof (total_elem_le d cs c Hcs Hin). lia.
  - rewrite (ne_flip _ _ Hd). rewrite Forall_forall in Hcross. by rewrite Hcross.
Qed.

(** *** The checker decides the invariant

    On cells whose geometry fits in [i32] (every terminal size is a [u16]),
    [check] holds exactly of the consistent cells. *)

Inductive fits : LayoutCell -> Prop :=
| fits_pane g : 0 <= width g <= i32_max -> 0 <= height g <= i32_max -> fits (mkCell g Pane)
| fits_split g d cs :
    0 <= width g <= i32_max -> 0 <= height g <= i32_max ->
    Forall fits cs -> fits (mkCell g (Split d cs)).

Lemma fits_axis c d : fits c -> 0 <= axis_size c d <= i32_max.
Proof. unfold axis_size. by inversion 1; subst; destruct d. Qed.

Lemma check_split g d cs :
  check (mkCell g (Split d cs)) =
  match cs with [] => false | _ => check_children check d g 0 cs end.
Proof. done. Qed.

(** [s] is the exact running sum, [Z.min u32_max s] the saturated one. *)
Lemma check_children_spec d g cs s :
  0 <= geo_axis d g <= i32_max -> 1 <= s \/ cs <> [] -> 0 <= s ->
  Forall fits cs ->
  check_children check d g (Z.min u32_max s) cs = true <->
  Forall (fun c => check c = true) cs /\
  Forall (fun c => axis_size c (flip d) = geo_axis (flip d) g) cs /\
  s + total d cs = geo_axis d g + 1.
Proof.
  intros Hg. revert s. induction cs as [|c cs IH]; intros s Hne Hs Hfit; simpl.
  - unfold PANE_BORDER_CELLS. rewrite total_nil, Z.eqb_eq.
    destruct Hne as [Hne|]; [|done].
    split; [intros; split_and!; [constructor|constructor|]|intros (_ & _ & ?)]; machine.
  - apply Forall_cons in Hfit as [Hc Hcs].
    pose proof (fits_axis c d Hc) as Hax. rewrite total_cons.
    destruct (check c) eqn:Hck; simpl.
    2:{ split; [done|]. intros ((? & _)%Forall_cons & _). congruence. }
    destruct (Z.eqb_spec (axis_size c (flip d)) (geo_axis (flip d) g)) as [Heq|Hneq]; simpl.
    2:{ split; [done|]. intros (_ & (? & _)%Forall_cons & _). congruence. }
    unfold PANE_BORDER_CELLS. rewrite u32_add_small by machine.
    replace (u32_sat_add (Z.min u32_max s) (axis_size c d + 1))
      with (Z.min u32_max (s + (axis_size c d + 1))) by machine.
    rewrite IH; [|lia..|done]. rewrite !Forall_cons.
    split; intros (? & ? & ?); destruct_and?; split_and?; done || lia.
Qed.

Lemma check_spec_lemma c : fits c -> check c = true <-> consistent c.
Proof.
  induction c as [g|g d cs IH] using LayoutCell_rect_strong; intros Hf.
  - inversion Hf; subst. split; [intros _; constructor; lia|done].
  - inversion Hf as [|? ? ? Hw Hh Hcs]; subst. rewrite check_split.
    destruct cs as [|c cs].
    { split; [done|]. by intros (? & _)%consistent_children. }
    assert (0 <= geo_axis d g <= i32_max) by (by destruct d).
    assert (Forall (fun c => check c = true) (c :: cs) <-> Forall consistent (c :: cs)) as Hiff.
    { rewrite !Forall_forall in *. split; intros H' x Hx; apply IH; auto. }
    change 0 with (Z.min u32_max 0).
    rewrite check_children_spec by (done || by right). rewrite Hiff. split.
    + intros (? & ? & ?). by constructor.
    + intros (? & ? & ? & ?)%consistent_children. by repeat split.
Qed.

(** A consistent tree fits as soon as its root does. *)
Lemma consistent_fits c :
  consistent c -> width (geometry c) <= i32_max -> height (geometry c) <= i32_max -> fits c.
Proof.
  induction c as [g|g d cs IH] using LayoutCell_rect_strong; intros Hc Hw Hh.
  - inversion Hc; subst. constructor; simpl in *; lia.
  - pose proof (consistent_nonneg _ Hc LeftRight). pose proof (consistent_nonneg _ Hc TopBottom).
    unfold axis_size in *; simpl in *.
    constructor; [lia..|]. rewrite Forall_forall in IH |- *. intros c Hin.
    pose proof (consistent_child_le _ _ _ c LeftRight Hc Hin).
    pose proof (consistent_child_le _ _ _ c TopBottom Hc Hin).
    apply consistent_children in Hc as (_ & Hcs & _). rewrite Forall_forall in Hcs.
    unfold axis_size in *; simpl in *. apply IH; [done|by apply Hcs|lia..].
Qed.

(** ** Property *)

(** On every cell whose sizes fit in [i32], the recursive checker of
    [cell.rs] accepts exactly the consistent cells: non-empty splits whose
    children have the cross size of the split and fill its axis with one border
    cell between each two. *)
Theorem check_decides_consistent c : fits c -> check c = true <-> consistent c.
Proof. apply check_spec_lemma. Qed.

(** A 2-pane window of 80x24, the example the witnesses of this file use. *)
Definition example_cell : LayoutCell :=
  split LeftRight (mkGeometry 80 24 0 0)
    [pane (mkGeometry 40 24 0 0); pane (mkGeometry 39 24 41 0)].

Lemma example_cell_fits : fits example_cell.
Proof. repeat constructor; simpl; unfold i32_max; lia. Qed.

Lemma example_cell_consistent : consistent example_cell.
Proof. apply check_spec_lemma; [apply example_cell_fits|reflexivity]. Qed.

Lemma check_decides_consistent_witness : consistent example_cell.
Proof.
  apply (check_decides_consistent example_cell).
  - apply example_cell_fits.
  - vm_compute. reflexivity.
Defined.
