(* ===== verification/LayoutAdjust.v ===== *)
(** * Resizing a layout cell

    [resize_check] and [resize_adjust] of
    [crates/rmux-core/src/layout/cell.rs]: how much a cell can shrink, that a
    resize within that bound keeps the tree consistent and changes exactly the
    requested axis, and that the two nested loops of [resize_adjust] stop. *)

From S2P Require Import Prelude LayoutCell.

(** ** How far a cell can shrink *)

(** Minimum of a non-empty list, as [resize_check] folds it. *)
Lemma fold_min_le l a : fold_left Z.min l a <= a.
Proof. revert a. induction l as [|b l IH]; intros a; simpl; [lia|]. specialize (IH (Z.min a b)). lia. Qed.

Lemma fold_min_elem_le l a b : b ∈ l -> fold_left Z.min l a <= b.
Proof.
  revert a. induction l as [|c l IH]; intros a Hin; [by apply elem_of_nil in Hin|].
  simpl. apply elem_of_cons in Hin as [->|Hin]; [|auto].
  pose proof (fold_min_le l (Z.min a c)). lia.
Qed.

Lemma fold_min_glb l a k : k <= a -> Forall (Z.le k) l -> k <= fold_left Z.min l a.
Proof. intros Ha Hl. revert a Ha. induction Hl; intros a Ha; simpl; [done|]. apply IHHl. lia. Qed.

Lemma fold_min_shift l a k :
  fold_left Z.min (map (fun b => b + k) l) (a + k) = fold_left Z.min l a + k.
Proof.
  revert a. induction l as [|b l IH]; intros a; simpl; [done|].
  replace (Z.min (a + k) (b + k)) with (Z.min a b + k) by lia. apply IH.
Qed.

Definition shrinkable (d : LayoutDirection) (cs : list LayoutCell) : Z :=
  sumZ (map (fun c => resize_check c d) cs).

Lemma shrinkable_cons d c cs : shrinkable d (c :: cs) = resize_check c d + shrinkable d cs.
Proof. done. Qed.

Lemma shrinkable_total d cs :
  Forall (fun c => 0 <= resize_check c d <= axis_size c d) cs ->
  0 <= shrinkable d cs /\ shrinkable d cs + Z.of_nat (length cs) <= total d cs.
Proof.
  induction 1; [done|]. rewrite shrinkable_cons, total_cons. simpl length. lia.
Qed.

Lemma resize_check_split_same g d cs :
  resize_check (mkCell g (Split d cs)) d = u32_sum (map (fun c => resize_check c d) cs).
Proof. simpl. by rewrite decide_True. Qed.

Lemma resize_check_split_flip g d c cs :
  resize_check (mkCell g (Split (flip d) (c :: cs))) d =
  fold_left Z.min (map (fun c => resize_check c d) cs) (resize_check c d).
Proof. simpl. rewrite decide_False by apply flip_ne. done. Qed.

(** A cell never promises to shrink below nothing. *)
Lemma resize_check_range c d :
  consistent c -> axis_size c d <= u32_max -> 0 <= resize_check c d <= axis_size c d.
Proof.
  induction c as [g|g d' cs IH] using LayoutCell_rect_strong; intros Hc Hb.
  - pose proof (consistent_nonneg _ Hc d). unfold axis_size in *. simpl in *. unfold PANE_MINIMUM. machine.
  - pose proof Hc as (Hne & Hcs & Hcross & Htot)%consistent_children.
    assert (Forall (fun c => 0 <= resize_check c d <= axis_size c d) cs) as Hall.
    { rewrite Forall_forall in IH, Hcs |- *. intros c Hin. apply IH; [done|auto|].
      pose proof (consistent_child_le _ _ _ c d Hc Hin). unfold axis_size in *. simpl in *. lia. }
    unfold axis_size in *. simpl geometry in *.
    destruct (decide (d' = d)) as [->|Hd].
    + pose proof (shrinkable_total d cs Hall) as [Hs0 Hs]. unfold shrinkable in *.
      assert (1 <= Z.of_nat (length cs)) by (destruct cs; [done|simpl; lia]).
      rewrite resize_check_split_same, u32_sum_small by machine. lia.
    + rewrite (ne_flip _ _ Hd) in *. destruct cs as [|c cs]; [done|].
      rewrite resize_check_split_flip, flip_flip in *.
      apply Forall_cons in Hall as [Hc0 Hcs0]. apply Forall_cons in Hcross as [Hx _].
      split; [|pose proof (fold_min_le (map (fun c => resize_check c d) cs) (resize_check c d)); lia].
      apply fold_min_glb; [lia|]. apply Forall_map. eapply Forall_impl; [exact Hcs0|]. simpl; lia.
Qed.

Lemma resize_check_same_sum g d cs :
  consistent (mkCell g (Split d cs)) -> geo_axis d g <= u32_max ->
  resize_check (mkCell g (Split d cs)) d = shrinkable d cs.
Proof.
  intros Hc Hb. pose proof Hc as (Hne & Hcs & _ & Htot)%consistent_children.
  rewrite resize_check_split_same. apply u32_sum_small.
  assert (0 <= shrinkable d cs /\ shrinkable d cs + Z.of_nat (length cs) <= total d cs) as [H1 H2].
  { apply shrinkable_total. rewrite Forall_forall in Hcs |- *. intros c Hin.
    apply resize_check_range; [auto|].
    pose proof (consistent_child_le _ _ _ c d Hc Hin). lia. }
  destruct cs; [done|]. simpl length in H2. unfold shrinkable in *. machine.
Qed.

(** ** [resize_adjust] meets its specification *)

(** What a resize by [change] along [d] must deliver. *)
Record adjusted (d : LayoutDirection) (change : Z) (c c' : LayoutCell) : Prop := {
  adj_consistent : consistent c';
  adj_shape : erase c' = erase c;
  adj_axis : axis_size c' d = axis_size c d + change;
  adj_cross : axis_size c' (flip d) = axis_size c (flip d);
  adj_check : change <= 0 -> resize_check c' d = resize_check c d + change;
  adj_cross_check : resize_check c' (flip d) = resize_check c (flip d);
}.

Lemma adjusted_refl d c : consistent c -> adjusted d 0 c c.
Proof. intros Hc. split; try done; lia. Qed.

(** When a resize can be carried out in full. *)
Definition adjustable (d : LayoutDirection) (change : Z) (c : LayoutCell) : Prop :=
  consistent c /\ - resize_check c d <= change /\
  axis_size c d <= u32_max /\ axis_size c d + change <= u32_max.

Section AdjustLoop.
Context (adjust : Z -> LayoutCell -> LayoutCell) (d : LayoutDirection) (bound : nat).
Context (Hadjust : forall c change,
  (cell_depth c <= bound)%nat -> adjustable d change c -> adjusted d change c (adjust change c)).

(** Children the recursive call can handle. *)
Definition child_ok (c : LayoutCell) : Prop := (cell_depth c <= bound)%nat /\ consistent c.

(** A child list and its rewrite: same shape, same cross size. *)
Definition sibling (c c' : LayoutCell) : Prop :=
  erase c' = erase c /\ axis_size c' (flip d) = axis_size c (flip d) /\
  resize_check c' (flip d) = resize_check c (flip d).

Lemma sibling_refl cs : Forall2 sibling cs cs.
Proof. induction cs; constructor; [by split_and!|done]. Qed.

Lemma child_ok_adjusted change c c' :
  child_ok c -> adjusted d change c c' -> child_ok c' /\ sibling c c'.
Proof.
  intros [Hd Hc] [Hc' Hs _ Hx _ Hxc]. split; [|by split_and!]. split; [|done].
  by rewrite (erase_eq_depth c).
Qed.

Lemma adjust_pass_spec cs remaining :
  Forall child_ok cs -> total d cs <= u32_max + 1 -> total d cs + remaining <= u32_max + 1 ->
  let '(cs', (remaining', progressed)) := adjust_pass adjust d cs remaining in
  Forall child_ok cs' /\ Forall2 sibling cs cs' /\
  total d cs' + remaining' = total d cs + remaining /\
  (0 <= remaining -> 0 <= remaining' <= remaining) /\
  (remaining <= 0 -> remaining <= remaining' <= 0 /\
    shrinkable d cs' + remaining' = shrinkable d cs + remaining) /\
  (progressed = true -> Z.abs remaining' < Z.abs remaining) /\
  (progressed = false -> remaining' = remaining /\
    (0 < remaining -> cs = []) /\ (remaining < 0 -> shrinkable d cs <= 0)).
Proof.
  revert remaining. induction cs as [|c cs IH]; intros remaining Hok Ht Hb; simpl.
  { split_and!; try done; lia. }
  apply Forall_cons in Hok as [Hc Hcs]. rewrite total_cons in *.
  assert (0 <= total d cs) as Hnn.
  { etrans; [|apply total_nonneg]; [lia|]. eapply Forall_impl; [exact Hcs|].
    intros c' [_ Hc']. by apply consistent_nonneg. }
  pose proof (consistent_nonneg c (proj2 Hc) d) as Hax.
  assert (0 <= resize_check c d <= axis_size c d) as Hrc
    by (apply resize_check_range; [apply Hc|machine]).
  destruct (Z.eqb_spec remaining 0) as [->|Hr0].
  { split_and!; try lia; try done; [by constructor|apply sibling_refl]. }
  destruct (Z.ltb_spec 0 remaining) as [Hpos|Hneg].
  - specialize (IH (remaining - 1) Hcs ltac:(machine) ltac:(lia)).
    destruct (adjust_pass adjust d cs (remaining - 1)) as [cs' [r' p]].
    destruct IH as (H1 & H2 & H3 & H4 & _ & _ & _).
    assert (adjusted d 1 c (adjust 1 c)) as Ha.
    { apply Hadjust; [apply Hc|]. split_and!; [apply Hc|lia|machine|machine]. }
    destruct (child_ok_adjusted _ _ _ Hc Ha) as [Hok' Hsib].
    rewrite total_cons, (adj_axis _ _ _ _ Ha).
    split_and!; first [lia|done|by constructor].
  - destruct (Z.ltb_spec 0 (resize_check c d)) as [Hsh|Hsh].
    + specialize (IH (remaining + 1) Hcs ltac:(machine) ltac:(lia)).
      destruct (adjust_pass adjust d cs (remaining + 1)) as [cs' [r' p]].
      destruct IH as (H1 & H2 & H3 & _ & H5 & _ & _).
      assert (adjusted d (-1) c (adjust (-1) c)) as Ha.
      { apply Hadjust; [apply Hc|]. split_and!; [apply Hc|lia|machine|machine]. }
      destruct (child_ok_adjusted _ _ _ Hc Ha) as [Hok' Hsib].
      rewrite total_cons, !shrinkable_cons, (adj_axis _ _ _ _ Ha), (adj_check _ _ _ _ Ha) by lia.
      split_and!; first [lia|done|by constructor].
    + specialize (IH remaining Hcs ltac:(machine) ltac:(lia)).
      destruct (adjust_pass adjust d cs remaining) as [cs' [r' p]].
      destruct IH as (H1 & H2 & H3 & _ & H5 & H6 & H7).
      rewrite total_cons, !shrinkable_cons.
      split_and!; try lia; [by constructor|constructor; [by split_and!|done]|done|].
      intros Hp. destruct (H7 Hp) as (? & ? & ?). split_and!; [done|lia|lia].
Qed.

Lemma Forall2_sibling_trans cs1 cs2 cs3 :
  Forall2 sibling cs1 cs2 -> Forall2 sibling cs2 cs3 -> Forall2 sibling cs1 cs3.
Proof.
  intros H12. revert cs3. induction H12 as [|a b l l' (? & ? & ?) H IH]; intros cs3 H23;
    inversion H23 as [|? ? ? ? (? & ? & ?)]; subst; constructor; [|auto].
  split_and!; congruence.
Qed.

Lemma adjust_loop_spec fuel cs remaining :
  Forall child_ok cs -> total d cs <= u32_max + 1 -> total d cs + remaining <= u32_max + 1 ->
  cs <> [] -> - remaining <= shrinkable d cs -> (Z.abs_nat remaining <= fuel)%nat ->
  let cs' := adjust_loop fuel adjust d cs remaining in
  Forall child_ok cs' /\ Forall2 sibling cs cs' /\ total d cs' = total d cs + remaining /\
  (remaining <= 0 -> shrinkable d cs' = shrinkable d cs + remaining).
Proof.
  revert cs remaining. induction fuel as [|fuel IH]; intros cs r Hok Ht Hb Hne Hsh Hf; simpl.
  { assert (r = 0) as -> by lia. split_and!; [done|apply sibling_refl|lia|lia]. }
  destruct (Z.eqb_spec r 0) as [->|Hr0].
  { split_and!; [done|apply sibling_refl|lia|lia]. }
  pose proof (adjust_pass_spec cs r Hok Ht Hb) as Hpass.
  destruct (adjust_pass adjust d cs r) as [cs' [r' p]].
  destruct Hpass as (H1 & H2 & H3 & H4 & H5 & H6 & H7).
  destruct p.
  2:{ destruct (H7 eq_refl) as (-> & Hgrow & Hshr).
      destruct (decide (0 < r)); [by destruct Hne; apply Hgrow|]. specialize (Hshr ltac:(lia)). lia. }
  specialize (H6 eq_refl).
  assert (cs' <> []) as Hne' by (by destruct H2).
  assert (shrinkable d cs' + r' = shrinkable d cs + r \/ 0 <= r') as Hor.
  { destruct (decide (r <= 0)); [left; by apply H5|right; apply H4; lia]. }
  assert (0 <= shrinkable d cs').
  { apply sumZ_nonneg, Forall_map. rewrite Forall_forall in H1 |- *. intros c Hc.
    apply resize_check_range; [by apply H1|].
    assert (axis_size c d + 1 <= total d cs'); [|machine].
    apply total_elem_le; [|done]. apply Forall_forall. intros x Hx. by apply H1. }
  destruct (IH cs' r' H1 ltac:(lia) ltac:(lia) Hne' ltac:(lia) ltac:(lia)) as (I1 & I2 & I3 & I4).
  split_and!; [done|by eapply Forall2_sibling_trans|lia|].
  intros Hr. specialize (H5 Hr). lia.
Qed.
End AdjustLoop.

Lemma sibling_map_erase d cs cs' : Forall2 (sibling d) cs cs' -> map erase cs' = map erase cs.
Proof. induction 1 as [|? ? ? ? (? & ? & ?)]; simpl; congruence. Qed.

Lemma sibling_cross d cs cs' v :
  Forall2 (sibling d) cs cs' -> Forall (fun c => axis_size c (flip d) = v) cs ->
  Forall (fun c => axis_size c (flip d) = v) cs'.
Proof.
  induction 1 as [|? ? ? ? (? & ? & ?)]; intros Hf; inversion Hf; constructor; auto; congruence.
Qed.

Lemma sibling_cross_check d cs cs' :
  Forall2 (sibling d) cs cs' ->
  map (fun c => resize_check c (flip d)) cs' = map (fun c => resize_check c (flip d)) cs.
Proof. induction 1 as [|? ? ? ? (? & ? & ?)]; simpl; congruence. Qed.

(** Across its direction a split only looks at its children's own slack. *)
Lemma resize_check_children g g' sd cs cs' d :
  map (fun c => resize_check c d) cs' = map (fun c => resize_check c d) cs ->
  resize_check (mkCell g' (Split sd cs')) d = resize_check (mkCell g (Split sd cs)) d.
Proof. intros H. simpl. by rewrite H. Qed.

(** The three shapes of cell, for any recursive call [adjust] that meets the
    specification on the children. *)
Section AdjustCell.
Context (d : LayoutDirection) (change : Z) (g : LayoutGeometry).

Let g' := set_axis d (u32_sat_add_signed (geo_axis d g) change) g.

Lemma adjust_geometry k :
  adjustable d change (mkCell g k) ->
  0 <= geo_axis d g + change /\ g' = set_axis d (geo_axis d g + change) g.
Proof.
  intros (Hc & Hsh & Hb & Hb'). pose proof (resize_check_range _ d Hc Hb) as Hr.
  unfold axis_size in *. cbn [geometry] in *. split; [lia|].
  unfold g'. f_equal. machine.
Qed.

Lemma adjust_pane_spec :
  adjustable d change (mkCell g Pane) -> adjusted d change (mkCell g Pane) (mkCell g' Pane).
Proof.
  intros Ha. destruct (adjust_geometry _ Ha) as [Hnn ->]. destruct Ha as (Hc & Hsh & _).
  pose proof (consistent_nonneg _ Hc LeftRight). pose proof (consistent_nonneg _ Hc TopBottom).
  unfold axis_size in *. cbn [geometry resize_check kind] in *. unfold PANE_MINIMUM in *.
  split; unfold axis_size; cbn [geometry resize_check kind];
    rewrite ?geo_axis_set_eq, ?geo_axis_set_flip; try done.
  - destruct d; constructor; simpl in *; machine.
  - unfold PANE_MINIMUM. machine.
Qed.

Context (adjust : Z -> LayoutCell -> LayoutCell) (bound : nat).
Context (Hadjust : forall c change,
  (cell_depth c <= bound)%nat -> adjustable d change c -> adjusted d change c (adjust change c)).

Lemma adjust_same_spec cs :
  Forall (fun c => (cell_depth c <= bound)%nat) cs ->
  adjustable d change (mkCell g (Split d cs)) ->
  adjusted d change (mkCell g (Split d cs))
    (mkCell g' (Split d (adjust_loop (Z.abs_nat change) adjust d cs change))).
Proof.
  intros Hdep Ha. destruct (adjust_geometry _ Ha) as [Hnn ->]. destruct Ha as (Hc & Hsh & Hb & Hb').
  unfold axis_size in Hb, Hb'. cbn [geometry] in *. rewrite resize_check_same_sum in Hsh by done.
  pose proof Hc as (Hne & Hcs & Hcross & Htot)%consistent_children.
  destruct (adjust_loop_spec adjust d bound Hadjust (Z.abs_nat change) cs change)
    as (I1 & I2 & I3 & I4); [|machine|machine|done|lia|lia|].
  { rewrite Forall_forall in *. split; auto. }
  set (cs' := adjust_loop _ _ _ _ _) in *.
  assert (consistent (mkCell (set_axis d (geo_axis d g + change) g) (Split d cs'))) as Hc'.
  { constructor.
    - by destruct I2.
    - eapply Forall_impl; [exact I1|]. by intros ? [].
    - rewrite geo_axis_set_flip. by eapply sibling_cross.
    - rewrite geo_axis_set_eq. lia. }
  split; unfold axis_size; cbn [geometry]; rewrite ?geo_axis_set_eq, ?geo_axis_set_flip; try done.
  - simpl. by rewrite (sibling_map_erase _ _ _ I2).
  - intros Hle. rewrite !resize_check_same_sum; [by apply I4|done|done|done|].
    rewrite geo_axis_set_eq. lia.
  - by apply resize_check_children, sibling_cross_check.
Qed.

(** Each child of a cross split takes the whole change. *)
Lemma adjust_cross_children cs :
  Forall (fun c => (cell_depth c <= bound)%nat) cs ->
  adjustable d change (mkCell g (Split (flip d) cs)) ->
  Forall (fun c => adjusted d change c (adjust change c)) cs.
Proof.
  intros Hdep (Hc & Hsh & Hb & Hb'). unfold axis_size in Hb, Hb'. cbn [geometry] in *.
  pose proof Hc as (Hne & Hcs & Hcross & _)%consistent_children. rewrite flip_flip in Hcross.
  rewrite Forall_forall in *. intros c Hin. apply Hadjust; [auto|].
  specialize (Hcross c Hin). split_and!; [auto| |lia|lia].
  destruct cs as [|c0 cs]; [done|]. rewrite resize_check_split_flip in Hsh.
  assert (fold_left Z.min (map (fun c => resize_check c d) cs) (resize_check c0 d)
            <= resize_check c d); [|lia].
  apply elem_of_cons in Hin as [->|Hin]; [apply fold_min_le|].
  apply fold_min_elem_le. apply list_elem_of_fmap. eauto.
Qed.

Lemma adjust_cross_spec cs :
  Forall (fun c => (cell_depth c <= bound)%nat) cs ->
  adjustable d change (mkCell g (Split (flip d) cs)) ->
  adjusted d change (mkCell g (Split (flip d) cs))
    (mkCell g' (Split (flip d) (map (adjust change) cs))).
Proof.
  intros Hdep Ha. pose proof (adjust_cross_children cs Hdep Ha) as Hall.
  destruct (adjust_geometry _ Ha) as [Hnn ->]. destruct Ha as (Hc & _).
  pose proof Hc as (Hne & Hcs & Hcross & Htot)%consistent_children. rewrite flip_flip in *.
  split; unfold axis_size; cbn [geometry]; rewrite ?geo_axis_set_eq, ?geo_axis_set_flip; try done.
  - constructor.
    + by destruct cs.
    + apply Forall_map. eapply Forall_impl; [exact Hall|]. intros c Hadj. apply Hadj.
    + rewrite flip_flip, geo_axis_set_eq. apply Forall_map. rewrite Forall_forall in *.
      intros c Hin. rewrite (adj_axis _ _ _ _ (Hall c Hin)), Hcross by done. done.
    + rewrite geo_axis_set_flip, <- Htot. unfold total. rewrite map_map. f_equal.
      apply Forall_map_eq. eapply Forall_impl; [exact Hall|]. intros c Hadj. simpl.
      by rewrite (adj_cross _ _ _ _ Hadj).
  - simpl. rewrite map_map. do 2 f_equal. apply Forall_map_eq.
    eapply Forall_impl; [exact Hall|]. intros c Hadj. apply Hadj.
  - intros Hle. destruct cs as [|c cs]; [done|]. cbn [map]. rewrite !resize_check_split_flip.
    apply Forall_cons in Hall as [H1 H2]. rewrite (adj_check _ _ _ _ H1 Hle), map_map.
    rewrite <- fold_min_shift, map_map. f_equal. apply Forall_map_eq.
    eapply Forall_impl; [exact H2|]. intros c' Hadj. simpl. by rewrite (adj_check _ _ _ _ Hadj Hle).
  - apply resize_check_children. rewrite map_map. apply Forall_map_eq.
    eapply Forall_impl; [exact Hall|]. intros c' Hadj. apply Hadj.
Qed.
End AdjustCell.

Lemma resize_adjust_fuel_spec fuel d change c :
  (cell_depth c <= fuel)%nat -> adjustable d change c ->
  adjusted d change c (resize_adjust_fuel fuel d change c).
Proof.
  revert change c. induction fuel as [|fuel IH]; intros change c Hdep Ha.
  { destruct c as [g [|]]; simpl in Hdep; lia. }
  cbn [resize_adjust_fuel]. destruct (Z.eqb_spec change 0) as [->|H0].
  { apply adjusted_refl, Ha. }
  destruct c as [g [|sd cs]]; cbn [kind geometry]; [by apply adjust_pane_spec|].
  assert (Forall (fun c => (cell_depth c <= fuel)%nat) cs) as Hdeps.
  { apply Forall_forall. intros c Hin. pose proof (cell_depth_child g sd cs c Hin). lia. }
  destruct (decide (sd = d)) as [->|Hd]; [by eapply adjust_same_spec; eauto|].
  pose proof (ne_flip _ _ Hd) as ->. by eapply adjust_cross_spec; eauto.
Qed.

Lemma resize_adjust_adjusted d change c :
  adjustable d change c -> adjusted d change c (resize_adjust d change c).
Proof. by apply resize_adjust_fuel_spec. Qed.

(** ** The fuel of [resize_adjust] is never the limit *)

Section AdjustFuel.
Context (d : LayoutDirection).
Implicit Types (f g : Z -> LayoutCell -> LayoutCell).

Lemma adjust_pass_erase f cs remaining :
  (forall change c, erase (f change c) = erase c) ->
  map erase (adjust_pass f d cs remaining).1 = map erase cs.
Proof.
  intros Hf. revert remaining. induction cs as [|c cs IH]; intros r; simpl; [done|].
  destruct (r =? 0); [done|].
  destruct (0 <? r).
  { specialize (IH (r - 1)). destruct (adjust_pass f d cs (r - 1)) as [? [??]].
    simpl in *. by rewrite Hf, IH. }
  destruct (0 <? resize_check c d).
  { specialize (IH (r + 1)). destruct (adjust_pass f d cs (r + 1)) as [? [??]].
    simpl in *. by rewrite Hf, IH. }
  specialize (IH r). destruct (adjust_pass f d cs r) as [? [??]]. simpl in *. by rewrite IH.
Qed.

Lemma adjust_loop_erase f fuel cs remaining :
  (forall change c, erase (f change c) = erase c) ->
  map erase (adjust_loop fuel f d cs remaining) = map erase cs.
Proof.
  intros Hf. revert cs remaining. induction fuel as [|fuel IH]; intros cs r; simpl; [done|].
  destruct (r =? 0); [done|]. pose proof (adjust_pass_erase f cs r Hf) as Hp.
  destruct (adjust_pass f d cs r) as [cs' [r' []]]; simpl in *; [|done]. by rewrite IH.
Qed.

(** A pass never overshoots, and one that progresses gets strictly closer. *)
Lemma adjust_pass_remaining f cs remaining :
  let '(_, (remaining', progressed)) := adjust_pass f d cs remaining in
  (0 <= remaining -> 0 <= remaining' <= remaining) /\
  (remaining <= 0 -> remaining <= remaining' <= 0) /\
  (progressed = true -> Z.abs remaining' < Z.abs remaining).
Proof.
  revert remaining. induction cs as [|c cs IH]; intros r; simpl; [split_and!; [lia..|done]|].
  destruct (Z.eqb_spec r 0) as [->|H0]; [split_and!; [lia..|done]|].
  destruct (Z.ltb_spec 0 r).
  { specialize (IH (r - 1)). destruct (adjust_pass f d cs (r - 1)) as [? [? p]]. lia. }
  destruct (0 <? resize_check c d).
  { specialize (IH (r + 1)). destruct (adjust_pass f d cs (r + 1)) as [? [? p]]. lia. }
  specialize (IH r). by destruct (adjust_pass f d cs r) as [? [? p]].
Qed.

Lemma adjust_loop_fuel f n m cs remaining :
  (Z.abs_nat remaining <= n)%nat -> (Z.abs_nat remaining <= m)%nat ->
  adjust_loop n f d cs remaining = adjust_loop m f d cs remaining.
Proof.
  revert m cs remaining. induction n as [|n IH]; intros m cs r Hn Hm.
  { assert (r = 0) as -> by lia. by destruct m. }
  destruct m as [|m]; [assert (r = 0) as -> by lia; done|]. simpl.
  destruct (Z.eqb_spec r 0); [done|]. pose proof (adjust_pass_remaining f cs r) as Hp.
  destruct (adjust_pass f d cs r) as [cs' [r' []]]; [|done]. apply IH; lia.
Qed.

Context (f g : Z -> LayoutCell -> LayoutCell) (bound : nat).
Context (Hfg : forall change c, (cell_depth c <= bound)%nat -> f change c = g change c).

Lemma adjust_pass_ext cs remaining :
  Forall (fun c => (cell_depth c <= bound)%nat) cs ->
  adjust_pass f d cs remaining = adjust_pass g d cs remaining.
Proof.
  intros Hcs. revert remaining. induction Hcs as [|c cs Hc Hcs IH]; intros r; simpl; [done|].
  by rewrite !IH, !Hfg.
Qed.

Context (Hg : forall change c, erase (g change c) = erase c).

Lemma adjust_loop_ext fuel cs remaining :
  Forall (fun c => (cell_depth c <= bound)%nat) cs ->
  adjust_loop fuel f d cs remaining = adjust_loop fuel g d cs remaining.
Proof.
  revert cs remaining. induction fuel as [|fuel IH]; intros cs r Hcs; simpl; [done|].
  destruct (r =? 0); [done|]. rewrite adjust_pass_ext by done.
  pose proof (adjust_pass_erase g cs r Hg) as He.
  destruct (adjust_pass g d cs r) as [cs' [r' []]]; [|done]. apply IH. simpl in He.
  revert cs' He. induction Hcs as [|c cs Hc Hcs IHcs]; intros [|c' cs'] He; try done.
  simpl in He. injection He as He1 He2. constructor; [by rewrite (erase_eq_depth c)|auto].
Qed.
End AdjustFuel.

Lemma resize_adjust_fuel_erase fuel d change c :
  erase (resize_adjust_fuel fuel d change c) = erase c.
Proof.
  revert change c. induction fuel as [|fuel IH]; intros change c; [done|]. simpl.
  destruct (change =? 0); [done|]. destruct c as [g [|sd cs]]; simpl; [done|].
  destruct (decide (sd = d)); simpl; do 2 f_equal.
  - by apply adjust_loop_erase.
  - rewrite map_map. by apply map_ext.
Qed.

Lemma resize_adjust_fuel_enough n m d change c :
  (cell_depth c <= n)%nat -> (cell_depth c <= m)%nat ->
  resize_adjust_fuel n d change c = resize_adjust_fuel m d change c.
Proof.
  revert m change c. induction n as [|n IH]; intros m change [g [|sd cs]] Hn Hm;
    try (simpl in *; lia); destruct m as [|m]; try (simpl in *; lia); [done|].
  simpl. destruct (change =? 0); [done|]. do 2 f_equal.
  assert (Forall (fun c => (cell_depth c <= n `min` m)%nat) cs) as Hcs.
  { apply Forall_forall. intros c Hin. pose proof (cell_depth_child g sd cs c Hin). lia. }
  destruct (decide (sd = d)); f_equal.
  - eapply adjust_loop_ext; [|apply resize_adjust_fuel_erase|exact Hcs].
    intros ch c Hc. apply IH; lia.
  - apply Forall_map_eq. eapply Forall_impl; [exact Hcs|]. simpl. intros c Hc. apply IH; lia.
Qed.

(** ** Properties *)

(** Resizing exactness: on a consistent cell, a change along [d] that the
    cell can absorb ([resize_check] bounds the shrinking) yields a consistent
    cell of the same shape whose size along [d] changed by exactly that amount
    and whose cross size did not move; after shrinking, [resize_check] has
    dropped by the same amount. *)
Theorem resize_adjust_exact d change c :
  consistent c -> - resize_check c d <= change ->
  axis_size c d <= u32_max -> axis_size c d + change <= u32_max ->
  let c' := resize_adjust d change c in
  consistent c' /\ erase c' = erase c /\
  axis_size c' d = axis_size c d + change /\
  axis_size c' (flip d) = axis_size c (flip d) /\
  (change <= 0 -> resize_check c' d = resize_check c d + change).
Proof.
  intros Hc Hs Hb Hb'. destruct (resize_adjust_adjusted d change c) as [? ? ? ? ? ?]; done.
Qed.

(** Shrinking the 80-column example by all it can give up, 77 columns. *)
Lemma resize_adjust_exact_witness :
  consistent (resize_adjust LeftRight (-77) example_cell) /\
  axis_size (resize_adjust LeftRight (-77) example_cell) LeftRight = 3.
Proof.
  destruct (resize_adjust_exact LeftRight (-77) example_cell) as (H1 & _ & H2 & _).
  - apply example_cell_consistent.
  - vm_compute. discriminate.
  - vm_compute. discriminate.
  - vm_compute. discriminate.
  - split; [exact H1|]. vm_compute. reflexivity.
Defined.

(** The [while remaining != 0] loop with its own fuel. *)
Definition adjust_while (adjust : Z -> LayoutCell -> LayoutCell) (d : LayoutDirection)
    (children : list LayoutCell) (remaining : Z) : list LayoutCell :=
  adjust_loop (Z.abs_nat remaining) adjust d children remaining.

(** Termination of [resize_adjust]: without any hypothesis on the cell, the
    fuel-bounded definitions satisfy the recursion equations of the source, the
    recursive call on the children and the [while] loop around the passes, so
    neither the recursion nor the loop is ever cut short. *)
Theorem resize_adjust_terminates d change c :
  resize_adjust d change c =
    (if change =? 0 then c
     else mkCell
       (set_axis d (u32_sat_add_signed (geo_axis d (geometry c)) change) (geometry c))
       match kind c with
       | Pane => Pane
       | Split sd cs =>
           if decide (sd = d) then Split sd (adjust_while (resize_adjust d) d cs change)
           else Split sd (map (resize_adjust d change) cs)
       end) /\
  forall adjust cs remaining,
    adjust_while adjust d cs remaining =
      if remaining =? 0 then cs
      else
        let '(cs', (remaining', progressed)) := adjust_pass adjust d cs remaining in
        if progressed then adjust_while adjust d cs' remaining' else cs'.
Proof.
  split.
  - destruct c as [g [|sd cs]]; [done|]. unfold resize_adjust at 1. cbn [cell_depth].
    cbn [resize_adjust_fuel kind geometry]. destruct (change =? 0); [done|]. do 2 f_equal.
    set (depth := foldr Nat.max 0%nat (map cell_depth cs)).
    assert (Forall (fun c => (cell_depth c <= depth)%nat) cs) as Hcs.
    { apply Forall_forall. intros c Hin. pose proof (cell_depth_child g sd cs c Hin) as Hlt.
      simpl in Hlt. unfold depth. lia. }
    destruct (decide (sd = d)); f_equal.
    + eapply adjust_loop_ext; [|intros; apply resize_adjust_fuel_erase|exact Hcs].
      intros ch c Hc. by apply resize_adjust_fuel_enough.
    + apply Forall_map_eq. eapply Forall_impl; [exact Hcs|]. intros c Hc.
      by apply resize_adjust_fuel_enough.
  - intros adjust cs r. unfold adjust_while.
    destruct (Z.eqb_spec r 0) as [->|Hr]; [done|].
    destruct (Z.abs_nat r) as [|n] eqn:Hn; [lia|]. cbn [adjust_loop].
    rewrite (proj2 (Z.eqb_neq r 0) Hr). pose proof (adjust_pass_remaining d adjust cs r) as Hp.
    destruct (adjust_pass adjust d cs r) as [cs' [r' []]]; [|done]. apply adjust_loop_fuel; lia.
Qed.
