(* ===== verification/LayoutOffsets.v ===== *)
(** * Offsets and tiling

    [fix_offsets] and [collect_leaf_geometries] of
    [crates/rmux-core/src/layout/cell.rs]: positioning a consistent cell makes
    its leaves tile its rectangle, pairwise separated by a border cell. *)

From S2P Require Import Prelude LayoutCell.
From Stdlib Require List.

(** ** Rectangles *)

Definition geo_pos (d : LayoutDirection) (g : LayoutGeometry) : Z :=
  match d with LeftRight => geo_x g | TopBottom => geo_y g end.

(** [g] lies within the rectangle [b]. *)
Definition inside (b g : LayoutGeometry) : Prop :=
  forall d, geo_pos d b <= geo_pos d g /\ geo_pos d g + geo_axis d g <= geo_pos d b + geo_axis d b.

(** At least one full column or row lies between the two rectangles. *)
Definition separated (g1 g2 : LayoutGeometry) : Prop :=
  exists d, geo_pos d g1 + geo_axis d g1 < geo_pos d g2
         \/ geo_pos d g2 + geo_axis d g2 < geo_pos d g1.

(** The area of a rectangle with its right and bottom border. *)
Definition framed_area (g : LayoutGeometry) : Z := (width g + 1) * (height g + 1).

Lemma inside_trans a b c : inside a b -> inside b c -> inside a c.
Proof. intros H1 H2 d. specialize (H1 d). specialize (H2 d). lia. Qed.

Lemma inside_refl g : inside g g.
Proof. intros d. lia. Qed.

(** ** The leaves of a cell, in order *)

Fixpoint leaves (c : LayoutCell) : list LayoutGeometry :=
  match kind c with
  | Pane => [geometry c]
  | Split _ cs => concat (map leaves cs)
  end.

Lemma collect_leaf_geometries_leaves c acc : collect_leaf_geometries c acc = acc ++ leaves c.
Proof.
  revert acc. induction c as [g|g d cs IH] using LayoutCell_rect_strong; intros acc; [done|].
  simpl. revert acc. induction IH as [|c cs Hc Hcs IHcs]; intros acc; simpl; [by rewrite app_nil_r|].
  by rewrite IHcs, Hc, app_assoc.
Qed.

Lemma length_leaves c : length (leaves c) = leaf_count c.
Proof.
  induction c as [g|g d cs IH] using LayoutCell_rect_strong; [done|].
  simpl. induction IH as [|c cs Hc Hcs IHcs]; simpl; [done|]. by rewrite length_app, Hc, IHcs.
Qed.

(** ** [fix_offsets] only moves *)

(** The position of a child at [cursor] in a split at [(x, y)]. *)
Definition child_x (d : LayoutDirection) (x cursor : Z) : Z :=
  match d with LeftRight => u32_add x cursor | TopBottom => x end.

Definition child_y (d : LayoutDirection) (y cursor : Z) : Z :=
  match d with LeftRight => y | TopBottom => u32_add y cursor end.

#[global] Arguments fix_children_offsets : simpl never.

Lemma fix_children_offsets_cons f d x y cursor c cs :
  fix_children_offsets f d x y cursor (c :: cs) =
  f (child_x d x cursor) (child_y d y cursor) c ::
  fix_children_offsets f d x y
    (u32_sat_add (u32_sat_add cursor
       (axis_size (f (child_x d x cursor) (child_y d y cursor) c) d)) PANE_BORDER_CELLS) cs.
Proof. by destruct d. Qed.

Lemma fix_offsets_geometry x y c :
  geometry (fix_offsets x y c) =
  mkGeometry (width (geometry c)) (height (geometry c)) x y.
Proof. by destruct c. Qed.

Lemma fix_offsets_axis x y c d : axis_size (fix_offsets x y c) d = axis_size c d.
Proof. unfold axis_size. rewrite fix_offsets_geometry. by destruct d. Qed.

Lemma fix_children_offsets_map {B} (h : LayoutCell -> B) d x y cursor cs :
  Forall (fun c => forall x y, h (fix_offsets x y c) = h c) cs ->
  map h (fix_children_offsets fix_offsets d x y cursor cs) = map h cs.
Proof.
  intros Hcs. revert cursor. induction Hcs as [|c cs Hc Hcs IH]; intros cursor; [done|].
  rewrite fix_children_offsets_cons. cbn [map]. by rewrite Hc, IH.
Qed.

Lemma fix_offsets_erase x y c : erase (fix_offsets x y c) = erase c.
Proof.
  revert x y. induction c as [g|g d cs IH] using LayoutCell_rect_strong; intros x y; [done|].
  simpl. do 2 f_equal. by apply fix_children_offsets_map.
Qed.

Lemma fix_offsets_leaf_count x y c : leaf_count (fix_offsets x y c) = leaf_count c.
Proof. apply erase_eq_leaf_count, fix_offsets_erase. Qed.

Lemma Forall_map_ext {A B} (f g : A -> B) (P : B -> Prop) (l l' : list A) :
  map f l = map g l' -> Forall (fun a => P (g a)) l' -> Forall (fun a => P (f a)) l.
Proof. intros Heq H. apply Forall_map. rewrite Heq. by apply Forall_map. Qed.

Lemma fix_offsets_consistent x y c : consistent c -> consistent (fix_offsets x y c).
Proof.
  revert x y. induction c as [g|g d cs IH] using LayoutCell_rect_strong; intros x y Hc.
  - inversion Hc; subst. by constructor.
  - pose proof Hc as (Hne & Hcs & Hcross & Htot)%consistent_children.
    assert (forall dd, map (fun c => axis_size c dd)
        (fix_children_offsets fix_offsets d x y 0 cs) = map (fun c => axis_size c dd) cs) as Hmap.
    { intros dd. apply fix_children_offsets_map, Forall_forall. intros. apply fix_offsets_axis. }
    simpl. constructor.
    + destruct cs; [done|]. by rewrite fix_children_offsets_cons.
    + clear -IH Hcs. generalize 0. induction Hcs as [|c cs Hc Hcs IHcs]; intros cursor; [constructor|].
      apply Forall_cons in IH as [IHc IHcs']. rewrite fix_children_offsets_cons.
      constructor; [by apply IHc|by apply IHcs].
    + apply (Forall_map_ext (fun c => axis_size c (flip d)) (fun c => axis_size c (flip d))
        (fun v => v = _) _ cs); [apply Hmap|]. by destruct d.
    + transitivity (total d cs); [|by rewrite Htot; destruct d].
      unfold total. f_equal. rewrite <- !(map_map (fun c => axis_size c d) (fun z => z + 1)).
      by rewrite Hmap.
Qed.

#[export] Hint Resolve fix_offsets_consistent : rmux.
#[export] Hint Rewrite fix_offsets_axis fix_offsets_erase fix_offsets_leaf_count : rmux.

(** ** Tiling *)

Abbreviation pairwise := List.ForallOrdPairs.

Lemma pairwise_app {A} (R : A -> A -> Prop) l1 l2 :
  pairwise R l1 -> pairwise R l2 -> (forall a b, a ∈ l1 -> b ∈ l2 -> R a b) ->
  pairwise R (l1 ++ l2).
Proof.
  induction 1 as [|a l Ha Hl IH]; intros H2 H12; simpl; [done|]. constructor.
  - rewrite !Forall_forall in *. intros b [Hb|Hb]%elem_of_app; [by apply Ha|].
    apply H12; set_solver.
  - apply IH; [done|]. intros; apply H12; set_solver.
Qed.

Lemma pairwise_lookup {A} (R : A -> A -> Prop) l i j a b :
  pairwise R l -> (i < j)%nat -> l !! i = Some a -> l !! j = Some b -> R a b.
Proof.
  intros H. revert i j. induction H as [|c l Hc Hl IH]; intros i j Hij Hi Hj; [done|].
  destruct j as [|j]; [lia|]. destruct i as [|i]; simpl in *.
  - simplify_eq. rewrite Forall_forall in Hc. apply Hc. by eapply list_elem_of_lookup_2.
  - eapply IH; [|done|done]. lia.
Qed.

(** The rectangle [r] of a positioned cell is tiled by its leaves. *)
Definition tiled_by (r : LayoutGeometry) (gs : list LayoutGeometry) : Prop :=
  Forall (inside r) gs /\ pairwise separated gs /\ sumZ (map framed_area gs) = framed_area r.

(** The rectangle at [(x, y)] with the size of [c]. *)
Definition rect (x y : Z) (c : LayoutCell) : LayoutGeometry :=
  mkGeometry (width (geometry c)) (height (geometry c)) x y.

Lemma framed_area_split d g :
  framed_area g = (geo_axis d g + 1) * (geo_axis (flip d) g + 1).
Proof. unfold framed_area. destruct d; simpl; lia. Qed.

Lemma inside_flip d b g :
  geo_pos d b <= geo_pos d g -> geo_pos d g + geo_axis d g <= geo_pos d b + geo_axis d b ->
  geo_pos (flip d) b <= geo_pos (flip d) g ->
  geo_pos (flip d) g + geo_axis (flip d) g <= geo_pos (flip d) b + geo_axis (flip d) b ->
  inside b g.
Proof. intros ???? d'. destruct d, d'; simpl in *; lia. Qed.

Section TileSplit.
Context (d : LayoutDirection) (g : LayoutGeometry) (x y : Z).

(** The origin of the split along a direction. *)
Definition origin (d' : LayoutDirection) : Z := match d' with LeftRight => x | TopBottom => y end.

Context (Hx : 0 <= x) (Hy : 0 <= y).
Context (Hfits : forall d', origin d' + geo_axis d' g < u32_max).

(** The rectangles from offset [lo] to offset [hi] along the split. *)
Definition in_band (lo hi : Z) (r : LayoutGeometry) : Prop :=
  origin d + lo <= geo_pos d r /\ geo_pos d r + geo_axis d r <= origin d + hi /\
  origin (flip d) <= geo_pos (flip d) r /\
  geo_pos (flip d) r + geo_axis (flip d) r <= origin (flip d) + geo_axis (flip d) g.

Lemma child_pos cursor c :
  0 <= cursor <= geo_axis d g ->
  geo_pos d (rect (child_x d x cursor) (child_y d y cursor) c) = origin d + cursor /\
  geo_pos (flip d) (rect (child_x d x cursor) (child_y d y cursor) c) = origin (flip d).
Proof.
  intros Hc. specialize (Hfits d).
  destruct d; simpl in *; rewrite u32_add_small by machine; done.
Qed.

(** What is known of the leaves of one child. *)
Definition tiles_itself (c : LayoutCell) : Prop :=
  forall x' y', 0 <= x' -> 0 <= y' ->
    x' + width (geometry c) < u32_max -> y' + height (geometry c) < u32_max ->
    tiled_by (rect x' y' c) (leaves (fix_offsets x' y' c)).

Lemma tile_child cursor c :
  tiles_itself c -> 0 <= axis_size c d -> axis_size c (flip d) = geo_axis (flip d) g ->
  0 <= cursor -> cursor + axis_size c d <= geo_axis d g ->
  let gs := leaves (fix_offsets (child_x d x cursor) (child_y d y cursor) c) in
  Forall (in_band cursor (cursor + axis_size c d)) gs /\ pairwise separated gs /\
  sumZ (map framed_area gs) = (axis_size c d + 1) * (geo_axis (flip d) g + 1).
Proof.
  intros Ht Hax Hcross H0 Hle gs.
  destruct (child_pos cursor c ltac:(lia)) as [P1 P2].
  pose proof (Hfits d) as Hf1. pose proof (Hfits (flip d)) as Hf2.
  assert (forall d', geo_axis d' (rect (child_x d x cursor) (child_y d y cursor) c)
    = axis_size c d') as Hra by (intros []; done).
  destruct (Ht (child_x d x cursor) (child_y d y cursor)) as (T1 & T2 & T3);
    [destruct d; simpl in *; unfold axis_size in *; simpl in *; lia..|].
  split_and!; [|done|].
  - eapply Forall_impl; [exact T1|]. intros r Hr.
    pose proof (Hr d) as R1. pose proof (Hr (flip d)) as R2. rewrite !Hra in *. unfold in_band. lia.
  - unfold gs. rewrite T3, (framed_area_split d), !Hra. by rewrite Hcross.
Qed.

(** The children from [cursor] on tile the rest of the split. *)
Lemma tile_children cs cursor :
  Forall consistent cs ->
  Forall (fun c => axis_size c (flip d) = geo_axis (flip d) g) cs ->
  Forall tiles_itself cs ->
  0 <= cursor -> cursor + total d cs = geo_axis d g + 1 ->
  let gs := concat (map leaves (fix_children_offsets fix_offsets d x y cursor cs)) in
  Forall (in_band cursor (geo_axis d g)) gs /\ pairwise separated gs /\
  sumZ (map framed_area gs) = total d cs * (geo_axis (flip d) g + 1).
Proof.
  intros Hcs Hcross Hrec. revert cursor Hcross Hrec.
  induction Hcs as [|c cs Hc Hcs IH]; intros cursor Hcross Hrec H0 Htot.
  { split_and!; [constructor|constructor|done]. }
  apply Forall_cons in Hcross as [Hx1 Hxs]. apply Forall_cons in Hrec as [Hr1 Hrs].
  rewrite total_cons in *. pose proof (consistent_nonneg c Hc d) as Hax.
  assert (0 <= total d cs) as Hnn.
  { etrans; [|apply total_nonneg]; [lia|]. eapply Forall_impl; [exact Hcs|].
    intros c' Hc'. by apply consistent_nonneg. }
  pose proof (Hfits d) as Hf.
  assert (0 <= origin d) as Horg by (destruct d; done).
  rewrite fix_children_offsets_cons, fix_offsets_axis.
  replace (u32_sat_add (u32_sat_add cursor (axis_size c d)) PANE_BORDER_CELLS)
    with (cursor + (axis_size c d + 1)) by (unfold PANE_BORDER_CELLS; machine).
  destruct (tile_child cursor c Hr1 Hax Hx1 H0 ltac:(lia)) as (T1 & T2 & T3).
  destruct (IH (cursor + (axis_size c d + 1)) Hxs Hrs ltac:(lia) ltac:(lia)) as (I1 & I2 & I3).
  cbn [map concat]. split_and!.
  - apply Forall_app; split.
    + eapply Forall_impl; [exact T1|]. unfold in_band. intros r Hr. lia.
    + eapply Forall_impl; [exact I1|]. unfold in_band. intros r Hr. lia.
  - apply pairwise_app; [done|done|]. intros a b Ha Hb.
    rewrite Forall_forall in T1, I1. specialize (T1 a Ha). specialize (I1 b Hb).
    exists d. unfold in_band in *. left. lia.
  - rewrite map_app, sumZ_app, T3, I3. lia.
Qed.
End TileSplit.

Lemma fix_offsets_tiled c : consistent c -> tiles_itself c.
Proof.
  induction c as [g|g d cs IH] using LayoutCell_rect_strong; intros Hc x y Hx Hy Hw Hh.
  { unfold rect, tiled_by. cbn. split_and!; [|repeat constructor|unfold sumZ; simpl; lia].
    constructor; [apply inside_refl|constructor]. }
  pose proof Hc as (Hne & Hcs & Hcross & Htot)%consistent_children. cbn [geometry] in *.
  assert (Forall tiles_itself cs) as Hrec.
  { rewrite Forall_forall in IH, Hcs |- *. intros c Hin. by apply IH, Hcs. }
  destruct (tile_children d g x y Hx Hy ltac:(by intros []) cs 0 Hcs Hcross Hrec ltac:(lia) ltac:(lia))
    as (T1 & T2 & T3).
  split_and!; [|exact T2|].
  - eapply Forall_impl; [exact T1|]. intros r (R1 & R2 & R3 & R4).
    unfold rect. cbn [geometry]. apply (inside_flip d); destruct d; simpl in *; lia.
  - cbn [leaves fix_offsets kind]. rewrite T3, (framed_area_split d), Htot. by destruct d.
Qed.

(** ** Properties *)

(** C23. Tiling: positioning a consistent cell with [fix_offsets] gives every
    pane a rectangle inside the window, any two panes are separated by at
    least one full border row or column, and the panes with their borders
    cover the whole window: the framed areas add up to the window's. *)
Theorem fix_offsets_tiles_window c x y :
  consistent c -> 0 <= x -> 0 <= y ->
  x + width (geometry c) < u32_max -> y + height (geometry c) < u32_max ->
  let window := mkGeometry (width (geometry c)) (height (geometry c)) x y in
  let panes := collect_leaf_geometries (fix_offsets x y c) [] in
  Forall (inside window) panes /\
  (forall i j g1 g2, (i < j)%nat -> panes !! i = Some g1 -> panes !! j = Some g2 ->
     separated g1 g2) /\
  sumZ (map framed_area panes) = framed_area window /\
  length panes = leaf_count c.
Proof.
  intros Hc Hx Hy Hw Hh window panes. unfold panes.
  rewrite collect_leaf_geometries_leaves. simpl.
  destruct (fix_offsets_tiled c Hc x y Hx Hy Hw Hh) as (T1 & T2 & T3).
  split_and!; [done| |done|by rewrite length_leaves, fix_offsets_leaf_count].
  intros i j g1 g2. by apply pairwise_lookup.
Qed.

Lemma fix_offsets_tiles_window_witness :
  Forall (inside (mkGeometry 80 24 0 0))
    (collect_leaf_geometries (fix_offsets 0 0 example_cell) []).
Proof.
  apply (fix_offsets_tiles_window example_cell 0 0);
    [apply example_cell_consistent|vm_compute; discriminate..|vm_compute; reflexivity
    |vm_compute; reflexivity].
Defined.

(** [fix_offsets] only moves a tree: it is idempotent whatever the first
    position was, keeps the shape and both sizes of the cell, and keeps
    consistency. *)
Theorem fix_offsets_only_moves c x y x' y' :
  fix_offsets x y (fix_offsets x' y' c) = fix_offsets x y c /\
  erase (fix_offsets x y c) = erase c /\
  (forall d, axis_size (fix_offsets x y c) d = axis_size c d) /\
  (consistent c -> consistent (fix_offsets x y c)).
Proof.
  split_and!; [|apply fix_offsets_erase|apply fix_offsets_axis|apply fix_offsets_consistent].
  revert x y x' y'. induction c as [g|g d cs IH] using LayoutCell_rect_strong; intros x y x' y'; [done|].
  cbn [fix_offsets kind geometry]. do 2 f_equal. generalize 0 at 1 3. generalize 0.
  induction IH as [|c cs Hc Hcs IHcs]; intros k k'; [done|].
  rewrite !fix_children_offsets_cons, !Hc, !fix_offsets_axis. f_equal. apply IHcs.
Qed.
