(* ===== verification/Panes.v ===== *)
(** * Panes and terminal sizes

    [crates/rmux-types/src/lib.rs] ([TerminalSize]) and
    [crates/rmux-core/src/pane.rs] ([PaneGeometry], [Pane]): the data a layout
    tree is applied to. *)

From S2P Require Import Prelude.

Record TerminalSize := mkTerminalSize { cols : Z; rows : Z }.

Definition size_ok (size : TerminalSize) : Prop := in_u16 (cols size) /\ in_u16 (rows size).

Record PaneGeometry := mkPaneGeometry {
  pane_x : Z;
  pane_y : Z;
  pane_cols : Z;
  pane_rows : Z;
}.

(** The pane record of [pane.rs]; the two timestamps come from the clock. *)
Record PaneState := mkPane {
  pane_id : Z;
  pane_index : Z;
  pane_geometry : PaneGeometry;
  active_point : Z;
  created_at : Z;
  activity_at : Z;
}.

#[global] Instance PaneGeometry_eq_dec : EqDecision PaneGeometry.
Proof. solve_decision. Defined.

#[global] Instance PaneState_eq_dec : EqDecision PaneState.
Proof. solve_decision. Defined.

(** [Pane::new_with_id] at the time [now]. *)
Definition new_with_id (now id index : Z) (geometry : PaneGeometry) : PaneState :=
  mkPane id index geometry 0 now now.

Definition set_geometry (geometry : PaneGeometry) (p : PaneState) : PaneState :=
  mkPane (pane_id p) (pane_index p) geometry (active_point p) (created_at p) (activity_at p).

Definition set_index (index : Z) (p : PaneState) : PaneState :=
  mkPane (pane_id p) index (pane_geometry p) (active_point p) (created_at p) (activity_at p).

Definition set_active_point (point : Z) (p : PaneState) : PaneState :=
  mkPane (pane_id p) (pane_index p) (pane_geometry p) point (created_at p) (activity_at p).

Definition set_activity_at (at_ : Z) (p : PaneState) : PaneState :=
  mkPane (pane_id p) (pane_index p) (pane_geometry p) (active_point p) (created_at p) at_.

(** [touch_activity] at the time [now]. *)
Definition touch_activity (now : Z) (p : PaneState) : PaneState := set_activity_at now p.
