(* ===== verification/LayoutTree.v ===== *)
(** * Layout trees and their mutations

    [LayoutTree] of [crates/rmux-core/src/layout.rs] and the operations of
    [layout/mutation.rs] and [layout/resize.rs].  An operation that takes
    [&mut self] and returns a flag is a function from the tree to the flag and
    the tree it leaves behind; a [&mut LayoutCell] found by a path is the pair of
    [cell_at_path] (the value) and [update_at_path] (writing it back). *)

From S2P Require Import Prelude Panes LayoutCell LayoutAdjust LayoutOffsets.

(** ** Data *)

Record LayoutTree := mkTree {
  root : LayoutCell;
  leaf_map : option (list nat);
}.

Definition single (size : TerminalSize) : LayoutTree :=
  mkTree (pane (mkGeometry (cols size) (rows size) 0 0)) None.

Definition tree_leaf_count (t : LayoutTree) : nat := leaf_count (root t).

(** The rectangles of the leaves, in order. *)
Definition rects (t : LayoutTree) : list LayoutGeometry := collect_leaf_geometries (root t) [].

Definition tree_size (t : LayoutTree) : TerminalSize :=
  mkTerminalSize (Z.min (width (geometry (root t))) u16_max)
                 (Z.min (height (geometry (root t))) u16_max).

Definition geometry_to_pane (g : LayoutGeometry) : PaneGeometry :=
  mkPaneGeometry (Z.min (geo_x g) u16_max) (Z.min (geo_y g) u16_max)
                 (Z.min (width g) u16_max) (Z.min (height g) u16_max).

(** The rectangle of the pane at [pane_index]; [None] is the panic of an
    out-of-range index. *)
Definition pane_leaf (t : LayoutTree) (pane_index : nat) : option nat :=
  match leaf_map t with
  | None => Some pane_index
  | Some map => map !! pane_index
  end.

Definition apply_to_pane (t : LayoutTree) (pane_index : nat) (p : PaneState) : option PaneState :=
  leaf_index ← pane_leaf t pane_index;
  g ← rects t !! leaf_index;
  Some (set_geometry (geometry_to_pane g) p).

(** [None] is a panic. *)
Definition apply_to_panes (t : LayoutTree) (panes : list PaneState) : option (list PaneState) :=
  mapM (fun '(pane_index, p) => apply_to_pane t pane_index p) (zip (seq 0 (length panes)) panes).

(** ** Paths *)

Definition leaf_paths (t : LayoutTree) : list (list nat) := collect_leaf_paths (root t) [] [].

Fixpoint cell_at_path (c : LayoutCell) (path : list nat) : option LayoutCell :=
  match path with
  | [] => Some c
  | head :: tail =>
      match kind c with
      | Pane => None
      | Split _ children => child ← children !! head; cell_at_path child tail
      end
  end.

(** Writing through [cell_mut_at_path]. *)
Fixpoint update_at_path (path : list nat) (f : LayoutCell -> LayoutCell) (c : LayoutCell)
  : LayoutCell :=
  match path with
  | [] => f c
  | head :: tail =>
      match kind c with
      | Pane => c
      | Split d children => mkCell (geometry c) (Split d (alter (update_at_path tail f) head children))
      end
  end.

(** [Vec::insert]. *)
Definition vec_insert {A} (i : nat) (a : A) (l : list A) : list A := take i l ++ a :: drop i l.

(** ** Splitting a leaf *)

Definition split_leaf_into_children (g : LayoutGeometry) (d : LayoutDirection)
    (insert_before_target : bool) : option (LayoutCell * LayoutCell) :=
  let saved := geo_axis d g in
  if saved <? u32_add (u32_mul PANE_MINIMUM 2) PANE_BORDER_CELLS then None
  else
    let second_size := sat_sub (u32_add saved PANE_BORDER_CELLS / 2) PANE_BORDER_CELLS in
    let second_size :=
      clamp second_size PANE_MINIMUM (sat_sub saved (u32_add PANE_MINIMUM PANE_BORDER_CELLS)) in
    let first_size := sat_sub (sat_sub saved PANE_BORDER_CELLS) second_size in
    let '(target_geometry, inserted_geometry) :=
      match d with
      | LeftRight =>
          (mkGeometry first_size (height g) (geo_x g) (geo_y g),
           mkGeometry second_size (height g)
             (u32_add (u32_add (geo_x g) first_size) PANE_BORDER_CELLS) (geo_y g))
      | TopBottom =>
          (mkGeometry (width g) first_size (geo_x g) (geo_y g),
           mkGeometry (width g) second_size (geo_x g)
             (u32_add (u32_add (geo_y g) first_size) PANE_BORDER_CELLS))
      end in
    Some (pane target_geometry, pane inserted_geometry).

Definition split_leaf_cell (original : LayoutCell) (d : LayoutDirection)
    (insert_before_target : bool) : option LayoutCell :=
  '(first, second) ← split_leaf_into_children (geometry original) d insert_before_target;
  Some (split d (geometry original) [first; second]).

(** The children of a split in the same direction, after its child
    [child_index] was replaced by its two halves. *)
Definition split_in_parent (children : list LayoutCell) (child_index : nat)
    (first second : LayoutCell) (insert_before_target : bool) : list LayoutCell :=
  let removed := delete child_index children in
  if insert_before_target then
    vec_insert child_index first (vec_insert child_index second removed)
  else vec_insert (child_index + 1) second (vec_insert child_index first removed).

Definition split_leaf (t : LayoutTree) (leaf_index : nat) (d : LayoutDirection)
    (insert_before_target : bool) : bool * LayoutTree :=
  match leaf_paths t !! leaf_index with
  | None => (false, t)
  | Some path =>
      match last path with
      | None =>
          match split_leaf_cell (root t) d insert_before_target with
          | None => (false, t)
          | Some split_root => (true, mkTree (fix_offsets 0 0 split_root) (leaf_map t))
          end
      | Some child_index =>
          let parent_path := List.removelast path in
          match cell_at_path (root t) parent_path with
          | None => (false, t)
          | Some parent =>
              let in_place :=
                match kind parent with
                | Split parent_direction children =>
                    if decide (parent_direction = d) then Some children else None
                | Pane => None
                end in
              match in_place with
              | Some children =>
                  match children !! child_index with
                  | None => (false, t)
                  | Some original =>
                      match split_leaf_into_children (geometry original) d
                              insert_before_target with
                      | None => (false, t)
                      | Some (first, second) =>
                          let children' :=
                            split_in_parent children child_index first second
                              insert_before_target in
                          (true, mkTree
                             (fix_offsets 0 0
                                (update_at_path parent_path
                                   (fun p => mkCell (geometry p) (Split d children')) (root t)))
                             None)
                      end
                  end
              | None =>
                  match cell_at_path (root t) path with
                  | None => (false, t)
                  | Some original =>
                      match split_leaf_cell original d insert_before_target with
                      | None => (false, t)
                      | Some split_cell =>
                          (true, mkTree
                             (fix_offsets 0 0
                                (update_at_path path (fun _ => split_cell) (root t)))
                             None)
                      end
                  end
              end
          end
      end
  end.

(** ** Splitting the whole window *)

Definition split_root (t : LayoutTree) (d : LayoutDirection) (insert_before_target : bool)
  : bool * LayoutTree :=
  let g := geometry (root t) in
  let saved := geo_axis d g in
  if saved <? u32_add (u32_mul PANE_MINIMUM 2) PANE_BORDER_CELLS then (false, t)
  else
    let second_size := sat_sub (u32_add saved PANE_BORDER_CELLS / 2) PANE_BORDER_CELLS in
    let second_size :=
      clamp second_size PANE_MINIMUM (sat_sub saved (u32_add PANE_MINIMUM PANE_BORDER_CELLS)) in
    let first_size := sat_sub (sat_sub saved PANE_BORDER_CELLS) second_size in
    let existing_size := if insert_before_target then second_size else first_size in
    let current_size := axis_size (root t) d in
    let existing :=
      resize_adjust d (as_i32 (as_i32 existing_size - as_i32 current_size)) (root t) in
    let '(new_geometry, existing_offset) :=
      match d with
      | LeftRight =>
          if insert_before_target then
            (mkGeometry first_size (height g) 0 0, (u32_add first_size PANE_BORDER_CELLS, 0))
          else
            (mkGeometry second_size (height g) (u32_add first_size PANE_BORDER_CELLS) 0, (0, 0))
      | TopBottom =>
          if insert_before_target then
            (mkGeometry (width g) first_size 0 0, (0, u32_add first_size PANE_BORDER_CELLS))
          else
            (mkGeometry (width g) second_size 0 (u32_add first_size PANE_BORDER_CELLS), (0, 0))
      end in
    let existing := fix_offsets existing_offset.1 existing_offset.2 existing in
    let new_leaf := pane new_geometry in
    let root' :=
      if insert_before_target then split d g [new_leaf; existing]
      else split d g [existing; new_leaf] in
    (true, mkTree (fix_offsets 0 0 root') None).

(** ** Removing a leaf *)

Fixpoint collapse_single_child (c : LayoutCell) : LayoutCell :=
  match kind c with
  | Pane => c
  | Split d children =>
      match map collapse_single_child children with
      | [only_child] =>
          fix_offsets (geo_x (geometry c)) (geo_y (geometry c))
            (mkCell (geometry c) (kind only_child))
      | children' => mkCell (geometry c) (Split d children')
      end
  end.

(** The children of a split after its child [child_index] is gone and its
    neighbour took its space. *)
Definition remove_child (d : LayoutDirection) (children : list LayoutCell) (child_index : nat)
    (removed : LayoutCell) : list LayoutCell :=
  let children' := delete child_index children in
  let growth := as_i32 (u32_add (axis_size removed d) PANE_BORDER_CELLS) in
  let other := if decide (child_index = 0%nat) then 0%nat else (child_index - 1)%nat in
  alter (resize_adjust d growth) other children'.

Definition remove_leaf (t : LayoutTree) (leaf_index : nat) : bool * LayoutTree :=
  match leaf_paths t !! leaf_index with
  | None => (false, t)
  | Some path =>
      match last path with
      | None => (false, t)
      | Some child_index =>
          let parent_path := List.removelast path in
          match cell_at_path (root t) parent_path with
          | None => (false, t)
          | Some parent =>
              match kind parent with
              | Pane => (false, t)
              | Split d children =>
                  match children !! child_index with
                  | None => (false, t)
                  | Some removed =>
                      let children' := remove_child d children child_index removed in
                      let root' :=
                        update_at_path parent_path
                          (fun p => mkCell (geometry p) (Split d children')) (root t) in
                      (true, mkTree (fix_offsets 0 0 (collapse_single_child root')) None)
                  end
              end
          end
      end
  end.

(** ** Spreading *)

(** The loop over the prefixes of the path, from the deepest: [depth] is the
    number of prefixes still to try. *)
Fixpoint spread_prefixes (t : LayoutTree) (path : list nat) (depth : nat) : bool * LayoutTree :=
  match depth with
  | O => (false, t)
  | S depth =>
      let prefix := take depth path in
      match cell_at_path (root t) prefix with
      | None => spread_prefixes t path depth
      | Some c =>
          let '(c', changed) := spread c in
          if changed then
            (true, mkTree (fix_offsets 0 0 (update_at_path prefix (fun _ => c') (root t)))
                     (leaf_map t))
          else spread_prefixes t path depth
      end
  end.

Definition spread_from_leaf (t : LayoutTree) (leaf_index : nat) : bool * LayoutTree :=
  match leaf_paths t !! leaf_index with
  | None => (false, t)
  | Some path => spread_prefixes t path (length path)
  end.

(** ** Resizing the window *)

Definition resize_axis (d : LayoutDirection) (change : Z) (t : LayoutTree) : LayoutTree :=
  let limit := as_i32 (resize_check (root t) d) in
  let change := if (change <? 0) && (change <? - limit) then - limit else change in
  let change := if (limit =? 0) && (change <? 0) then 0 else change in
  if change =? 0 then t else mkTree (resize_adjust d change (root t)) (leaf_map t).

Definition resize (size : TerminalSize) (t : LayoutTree) : LayoutTree :=
  let t1 := resize_axis LeftRight
              (as_i32 (cols size - as_i32 (width (geometry (root t))))) t in
  let t2 := resize_axis TopBottom
              (as_i32 (rows size - as_i32 (height (geometry (root t1))))) t1 in
  mkTree (fix_offsets 0 0 (root t2)) (leaf_map t2).

(** ** Resizing a pane *)

(** The first child that can shrink, from [index] on, and by how much. *)
Fixpoint first_shrinkable (d : LayoutDirection) (index : nat) (cs : list LayoutCell)
  : option (nat * Z) :=
  match cs with
  | [] => None
  | c :: rest =>
      let available := resize_check c d in
      if 0 <? available then Some (index, available) else first_shrinkable d (S index) rest
  end.

(** The last child that can shrink: the first of the reversed iteration. *)
Fixpoint last_shrinkable (d : LayoutDirection) (index : nat) (cs : list LayoutCell)
  : option (nat * Z) :=
  match cs with
  | [] => None
  | c :: rest =>
      match last_shrinkable d (S index) rest with
      | Some found => Some found
      | None =>
          let available := resize_check c d in
          if 0 <? available then Some (index, available) else None
      end
  end.

Definition resize_children (children : list LayoutCell) (add_index remove_index : nat)
    (d : LayoutDirection) (size : Z) : list LayoutCell :=
  if (add_index =? remove_index)%nat || (size =? 0) then children
  else alter (resize_adjust d (- as_i32 size)) remove_index
         (alter (resize_adjust d (as_i32 size)) add_index children).

(** The children after growing [child_index] by at most [needed], and by how
    much it grew. *)
Definition grow_in_parent (children : list LayoutCell) (child_index : nat)
    (d : LayoutDirection) (needed : Z) (opposite : bool) : Z * list LayoutCell :=
  let after := first_shrinkable d (child_index + 1) (drop (child_index + 1) children) in
  let found :=
    match after with
    | Some found => Some found
    | None => if opposite then last_shrinkable d 0 (take child_index children) else None
    end in
  match found with
  | None => (0, children)
  | Some (remove_index, available) =>
      let size := Z.min available needed in
      (size, resize_children children child_index remove_index d size)
  end.

Definition shrink_in_parent (children : list LayoutCell) (child_index : nat)
    (d : LayoutDirection) (needed : Z) : Z * list LayoutCell :=
  match last_shrinkable d 0 (take (child_index + 1) children) with
  | None => (0, children)
  | Some (remove_index, available) =>
      let size := Z.min available needed in
      (size, resize_children children (child_index + 1) remove_index d size)
  end.

(** Run [step] on the children of the split found at [parent_path]. *)
Definition resize_at (t : LayoutTree) (parent_path : list nat) (d : LayoutDirection)
    (limit : nat) (step : list LayoutCell -> Z * list LayoutCell) : Z * LayoutTree :=
  match cell_at_path (root t) parent_path with
  | Some (mkCell _ (Split parent_direction children)) =>
      if decide (parent_direction = d) then
        if (length children <=? limit)%nat then (0, t)
        else
          let '(size, children') := step children in
          (size, mkTree (update_at_path parent_path
                           (fun p => mkCell (geometry p) (Split parent_direction children'))
                           (root t)) (leaf_map t))
      else (0, t)
  | _ => (0, t)
  end.

Definition resize_pane_grow (t : LayoutTree) (parent_path : list nat) (child_index : nat)
    (d : LayoutDirection) (needed : Z) (opposite : bool) : Z * LayoutTree :=
  resize_at t parent_path d child_index
    (fun children => grow_in_parent children child_index d needed opposite).

Definition resize_pane_shrink (t : LayoutTree) (parent_path : list nat) (child_index : nat)
    (d : LayoutDirection) (needed : Z) : Z * LayoutTree :=
  resize_at t parent_path d (child_index + 1)
    (fun children => shrink_in_parent children child_index d needed).

(** The [while needed != 0] loop of [resize_layout]. *)
Fixpoint resize_layout_loop (fuel : nat) (t : LayoutTree) (parent_path : list nat)
    (child_index : nat) (d : LayoutDirection) (change needed : Z) (opposite changed : bool)
  : bool * LayoutTree :=
  match fuel with
  | O => (changed, t)
  | S fuel =>
      if needed =? 0 then (changed, t)
      else
        let '(size, t') :=
          if 0 <? change then resize_pane_grow t parent_path child_index d needed opposite
          else resize_pane_shrink t parent_path child_index d (- needed) in
        if size =? 0 then (changed, t')
        else
          let needed' := if 0 <? change then needed - as_i32 size else needed + as_i32 size in
          resize_layout_loop fuel t' parent_path child_index d change needed' opposite true
  end.

Definition resize_layout (t : LayoutTree) (parent_path : list nat) (child_index : nat)
    (d : LayoutDirection) (change : Z) (opposite : bool) : bool * LayoutTree :=
  let '(changed, t') :=
    resize_layout_loop (S (Z.abs_nat change)) t parent_path child_index d change change
      opposite false in
  if changed then (true, mkTree (fix_offsets 0 0 (root t')) (leaf_map t')) else (false, t').

(** The loop over the path, from its end: [rpath] is the path reversed. *)
Fixpoint resize_leaf_to_loop (t : LayoutTree) (rpath : list nat) (d : LayoutDirection)
    (new_size : Z) : bool * LayoutTree :=
  match rpath with
  | [] => (false, t)
  | child_index :: rest =>
      let parent_path := reverse rest in
      match cell_at_path (root t) parent_path with
      | Some (mkCell _ (Split parent_direction children)) =>
          if decide (parent_direction = d) then
            match children !! child_index with
            | None => (false, t)
            | Some child =>
                let current_size := axis_size child d in
                let requested := as_i32 (Z.min new_size i32_max) in
                if (child_index + 1 =? length children)%nat then
                  if (child_index =? 0)%nat then (false, t)
                  else resize_layout t parent_path (child_index - 1) d
                         (as_i32 (as_i32 current_size - requested)) true
                else resize_layout t parent_path child_index d
                       (as_i32 (requested - as_i32 current_size)) true
            end
          else resize_leaf_to_loop t rest d new_size
      | _ => (false, t)
      end
  end.

Definition resize_leaf_to (t : LayoutTree) (leaf_index : nat) (d : LayoutDirection)
    (new_size : Z) : bool * LayoutTree :=
  match leaf_paths t !! leaf_index with
  | None => (false, t)
  | Some path => resize_leaf_to_loop t (reverse path) d new_size
  end.

Definition resize_pane_to (t : LayoutTree) (pane_position : nat) (d : LayoutDirection)
    (new_size : Z) : bool * LayoutTree :=
  match pane_leaf t pane_position with
  | None => (false, t)
  | Some leaf_index => resize_leaf_to t leaf_index d new_size
  end.

Fixpoint find_resize_handle_loop (t : LayoutTree) (rpath : list nat) (d : LayoutDirection)
  : option (list nat * nat) :=
  match rpath with
  | [] => None
  | child_index :: rest =>
      let parent_path := reverse rest in
      parent ← cell_at_path (root t) parent_path;
      let handle :=
        match kind parent with
        | Split parent_direction children =>
            if decide (parent_direction = d) then
              if (child_index + 1 =? length children)%nat then
                if (child_index =? 0)%nat then None else Some (child_index - 1)%nat
              else Some child_index
            else None
        | Pane => None
        end in
      match handle with
      | Some handle_index => Some (parent_path, handle_index)
      | None => find_resize_handle_loop t rest d
      end
  end.

Definition find_resize_handle (t : LayoutTree) (leaf_index : nat) (d : LayoutDirection)
  : option (list nat * nat) :=
  path ← leaf_paths t !! leaf_index; find_resize_handle_loop t (reverse path) d.

Definition resize_leaf_by (t : LayoutTree) (leaf_index : nat) (d : LayoutDirection)
    (change : Z) : bool * LayoutTree :=
  match find_resize_handle t leaf_index d with
  | None => (false, t)
  | Some (parent_path, handle_index) => resize_layout t parent_path handle_index d change true
  end.

Definition resize_pane_by (t : LayoutTree) (pane_position : nat) (d : LayoutDirection)
    (change : Z) : bool * LayoutTree :=
  if change =? 0 then (true, t)
  else
    match pane_leaf t pane_position with
    | None => (false, t)
    | Some leaf_index => resize_leaf_by t leaf_index d change
    end.
