(* ===== verification/LayoutPaths.v ===== *)
(** * Paths into a layout tree

    Facts about [leaf_paths], [cell_at_path] and [update_at_path] of
    [LayoutTree]: which leaf a path leads to, and what writing through a path
    does to the leaves, the geometry invariant and the offsets. *)

From S2P Require Import Prelude LayoutCell LayoutAdjust LayoutOffsets LayoutTree.

(** ** Sums under [alter] *)

Lemma sumZ_alter {A} (h : A -> Z) (f : A -> A) i l a :
  l !! i = Some a -> sumZ (map h (alter f i l)) = sumZ (map h l) + (h (f a) - h a).
Proof.
  revert i. induction l as [|b l IH]; intros [|i] Hi; simplify_eq/=.
  - rewrite !sumZ_cons. lia.
  - rewrite !sumZ_cons, (IH i) by done. lia.
Qed.

Lemma total_alter d f i cs c :
  cs !! i = Some c ->
  total d (alter f i cs) = total d cs + (axis_size (f c) d - axis_size c d).
Proof. intros Hi. unfold total. rewrite (sumZ_alter _ _ _ _ c) by done. lia. Qed.

Lemma Forall_axis_alter d v f i cs c :
  cs !! i = Some c -> axis_size (f c) d = axis_size c d ->
  Forall (fun c => axis_size c d = v) cs -> Forall (fun c => axis_size c d = v) (alter f i cs).
Proof.
  intros Hi Hf Hcs. apply Forall_alter; [done|]. intros c' Hc' Hv. simplify_eq. congruence.
Qed.

(** ** Lookup through a path *)

Lemma cell_at_path_app c p q cell :
  cell_at_path c p = Some cell -> cell_at_path c (p ++ q) = cell_at_path cell q.
Proof.
  revert c. induction p as [|h p IH]; intros c Hc; simplify_eq/=; [done|].
  destruct (kind c) as [|d cs]; [done|]. apply bind_Some in Hc as (child & Hch & Hc).
  rewrite Hch. simpl. by apply IH.
Qed.

Lemma cell_at_path_snoc c p k cell :
  cell_at_path c (p ++ [k]) = Some cell ->
  exists g d cs, cell_at_path c p = Some (mkCell g (Split d cs)) /\ cs !! k = Some cell.
Proof.
  revert c. induction p as [|h p IH]; intros c Hc; simpl in *.
  - destruct c as [g [|d cs]]; [done|]. cbn [kind] in Hc.
    apply bind_Some in Hc as (child & Hch & [=->]). by exists g, d, cs.
  - destruct (kind c) as [|d cs]; [done|]. apply bind_Some in Hc as (child & Hch & Hc).
    rewrite Hch. simpl. by apply IH.
Qed.

(** [Vec::pop] on a path. *)
Lemma pop_path (path : list nat) :
  match last path with
  | None => path = []
  | Some k => path = List.removelast path ++ [k]
  end.
Proof.
  destruct (last path) as [k|] eqn:Hl.
  - apply last_Some in Hl as [p ->]. by rewrite List.removelast_last.
  - by apply last_None in Hl.
Qed.

Lemma cell_at_path_consistent c p cell :
  consistent c -> cell_at_path c p = Some cell ->
  consistent cell /\ forall d, axis_size cell d <= axis_size c d.
Proof.
  revert c. induction p as [|h p IH]; intros c Hc Hp; simplify_eq/=; [split; [done|lia]|].
  destruct c as [g [|d cs]]; [done|]. cbn [kind] in Hp.
  apply bind_Some in Hp as (child & Hch & Hp).
  pose proof Hc as (_ & Hcs & _)%consistent_children.
  assert (child ∈ cs) as Hin by (by eapply list_elem_of_lookup_2).
  rewrite Forall_forall in Hcs. destruct (IH child (Hcs _ Hin) Hp) as [H1 H2].
  split; [done|]. intros d'. specialize (H2 d').
  pose proof (consistent_child_le _ _ _ _ d' Hc Hin). unfold axis_size at 2. simpl. lia.
Qed.

(** ** Writing through a path *)

Lemma update_at_path_consistent c p f cell :
  consistent c -> cell_at_path c p = Some cell ->
  consistent (f cell) -> (forall d, axis_size (f cell) d = axis_size cell d) ->
  consistent (update_at_path p f c) /\
  forall d, axis_size (update_at_path p f c) d = axis_size c d.
Proof.
  revert c. induction p as [|h p IH]; intros c Hc Hp Hf Hax; simplify_eq/=; [done|].
  destruct c as [g [|d cs]]; [done|]. cbn [kind] in *.
  apply bind_Some in Hp as (child & Hch & Hp).
  pose proof Hc as (Hne & Hcs & Hcross & Htot)%consistent_children.
  rewrite Forall_forall in Hcs. pose proof (Hcs child ltac:(by eapply list_elem_of_lookup_2)) as Hcc.
  destruct (IH child Hcc Hp Hf Hax) as [I1 I2]. split; [|done].
  constructor.
  - intros Hnil. apply (f_equal length) in Hnil. rewrite length_alter in Hnil. by destruct cs.
  - apply Forall_alter; [by apply Forall_forall|]. intros c' Hc' _. by simplify_eq.
  - eapply Forall_axis_alter; [exact Hch|apply I2|done].
  - rewrite (total_alter _ _ _ _ child), I2 by done. cbn [geometry]. lia.
Qed.

(** The number of leaves before the cell at a path. *)
Fixpoint leaves_before (c : LayoutCell) (p : list nat) : nat :=
  match p with
  | [] => 0
  | h :: p =>
      match kind c with
      | Pane => 0
      | Split _ cs =>
          length (concat (map leaves (take h cs))) +
          match cs !! h with None => 0 | Some child => leaves_before child p end
      end
  end.

Lemma leaves_before_app c p q cell :
  cell_at_path c p = Some cell ->
  leaves_before c (p ++ q) = (leaves_before c p + leaves_before cell q)%nat.
Proof.
  revert c. induction p as [|h p IH]; intros c Hc; simplify_eq/=; [done|].
  destruct (kind c) as [|d cs]; [done|]. apply bind_Some in Hc as (child & Hch & Hc).
  rewrite Hch, (IH child) by done. lia.
Qed.

Lemma concat_leaves_split cs h child :
  cs !! h = Some child ->
  concat (map leaves cs) =
  concat (map leaves (take h cs)) ++ leaves child ++ concat (map leaves (drop (S h) cs)).
Proof.
  intros Hch. rewrite <- (take_drop_middle cs h child) at 1 by done.
  by rewrite map_app, concat_app.
Qed.

Lemma concat_leaves_alter cs h child f :
  cs !! h = Some child ->
  concat (map leaves (alter f h cs)) =
  concat (map leaves (take h cs)) ++ leaves (f child) ++ concat (map leaves (drop (S h) cs)).
Proof.
  intros Hch. rewrite (concat_leaves_split _ h (f child)) by (by rewrite list_lookup_alter_eq, Hch).
  by rewrite take_alter, drop_alter, !decide_False by lia.
Qed.

(** The leaves of a subtree are a segment of the leaves of the tree, and a
    write through the path replaces exactly that segment. *)
Lemma leaves_at_path c p cell :
  cell_at_path c p = Some cell ->
  exists pre post,
    length pre = leaves_before c p /\ leaves c = pre ++ leaves cell ++ post /\
    forall f, leaves (update_at_path p f c) = pre ++ leaves (f cell) ++ post.
Proof.
  revert c. induction p as [|h p IH]; intros c Hc; simplify_eq/=.
  { exists [], []. split_and!; [done|by rewrite app_nil_r|intros f; by rewrite app_nil_r]. }
  destruct c as [g [|d cs]]; [done|]. cbn [kind] in *.
  apply bind_Some in Hc as (child & Hch & Hc). rewrite Hch.
  destruct (IH child Hc) as (pre & post & Hlen & Hl & Hu).
  exists (concat (map leaves (take h cs)) ++ pre), (post ++ concat (map leaves (drop (S h) cs))).
  split_and!.
  - by rewrite length_app, Hlen.
  - cbn [leaves kind]. rewrite (concat_leaves_split cs h child) by done. rewrite Hl.
    by rewrite <- !app_assoc.
  - intros f. cbn [leaves kind]. rewrite (concat_leaves_alter cs h child) by done. rewrite Hu.
    by rewrite <- !app_assoc.
Qed.

(** ** Leaf paths *)

(** The paths of the leaves below a cell, relative to it. *)
Definition child_paths (paths_of : LayoutCell -> list (list nat))
  : nat -> list LayoutCell -> list (list nat) :=
  fix go (k : nat) (cs : list LayoutCell) :=
    match cs with
    | [] => []
    | c :: rest => map (cons k) (paths_of c) ++ go (S k) rest
    end.

Fixpoint paths_of (c : LayoutCell) : list (list nat) :=
  match kind c with
  | Pane => [[]]
  | Split _ cs => child_paths paths_of 0 cs
  end.

Lemma collect_leaf_paths_paths_of c current acc :
  collect_leaf_paths c current acc = acc ++ map (app current) (paths_of c).
Proof.
  revert current acc. induction c as [g|g d cs IH] using LayoutCell_rect_strong; intros current acc.
  { simpl. by rewrite app_nil_r. }
  cbn [collect_leaf_paths kind paths_of]. revert acc. generalize 0%nat.
  induction IH as [|c cs Hc Hcs IHcs]; intros k acc; simpl; [by rewrite app_nil_r|].
  rewrite IHcs, Hc, map_app, app_assoc, map_map. do 2 f_equal.
  apply map_ext. intros p. by rewrite <- app_assoc.
Qed.

Lemma leaf_paths_paths_of t : leaf_paths t = paths_of (root t).
Proof. unfold leaf_paths. rewrite collect_leaf_paths_paths_of. apply map_id. Qed.

Lemma length_paths_of c : length (paths_of c) = length (leaves c).
Proof.
  induction c as [g|g d cs IH] using LayoutCell_rect_strong; [done|]. cbn [paths_of leaves kind].
  generalize 0%nat. induction IH as [|c cs Hc Hcs IHcs]; intros k; simpl; [done|].
  by rewrite !length_app, length_map, Hc, IHcs.
Qed.

Lemma child_paths_lookup cs k i p :
  child_paths paths_of k cs !! i = Some p ->
  exists h q child j,
    p = (k + h)%nat :: q /\ cs !! h = Some child /\ paths_of child !! j = Some q /\
    i = (length (concat (map leaves (take h cs))) + j)%nat.
Proof.
  revert k i. induction cs as [|c cs IH]; intros k i Hp; [done|]. simpl in Hp.
  apply lookup_app_Some in Hp as [Hp|[Hlen Hp]].
  - apply list_lookup_fmap_Some in Hp as (q & -> & Hq).
    exists 0%nat, q, c, i. by rewrite Nat.add_0_r.
  - rewrite length_map in *.
    destruct (IH (S k) _ Hp) as (h & q & child & j & -> & H1 & H2 & H3).
    exists (S h), q, child, j. simpl. rewrite length_app, <- length_paths_of.
    split_and!; [f_equal; lia|done|done|lia].
Qed.

(** A path found at index [i] leads to leaf number [i]. *)
Lemma paths_of_lookup c i p :
  paths_of c !! i = Some p ->
  exists g, cell_at_path c p = Some (mkCell g Pane) /\ leaves_before c p = i /\
            leaves c !! i = Some g.
Proof.
  revert i p. induction c as [g|g d cs IH] using LayoutCell_rect_strong; intros i p Hp.
  { destruct i; simplify_eq/=. by exists g. }
  cbn [paths_of kind] in Hp.
  apply child_paths_lookup in Hp as (h & q & child & j & -> & Hch & Hq & ->).
  rewrite Forall_forall in IH.
  destruct (IH child ltac:(by eapply list_elem_of_lookup_2) j q Hq) as (g' & H1 & H2 & H3).
  exists g'. cbn. rewrite Hch. simpl. split_and!; [done|by rewrite H2|].
  rewrite (concat_leaves_split cs h child) by done.
  rewrite lookup_app_r by lia.
  replace (_ + j - _)%nat with j by lia. by apply lookup_app_l_Some.
Qed.

(** Every leaf has a path. *)
Lemma leaf_has_path t i g :
  leaves (root t) !! i = Some g -> exists p, leaf_paths t !! i = Some p.
Proof.
  intros Hi. rewrite leaf_paths_paths_of. apply lookup_lt_is_Some_2.
  rewrite length_paths_of. by eapply lookup_lt_Some.
Qed.

Lemma leaf_path_spec t i p :
  leaf_paths t !! i = Some p ->
  exists g, cell_at_path (root t) p = Some (mkCell g Pane) /\ leaves_before (root t) p = i /\
            leaves (root t) !! i = Some g.
Proof. rewrite leaf_paths_paths_of. apply paths_of_lookup. Qed.

(** ** Offsets under a write

    [positioned x y c]: the tree is already laid out from [(x, y)]. *)
Definition positioned (x y : Z) (c : LayoutCell) : Prop := fix_offsets x y c = c.

Lemma fix_offsets_positioned x y c : positioned x y (fix_offsets x y c).
Proof.
  unfold positioned. revert x y.
  induction c as [g|g d cs IH] using LayoutCell_rect_strong; intros x y; [done|].
  cbn [fix_offsets kind geometry]. do 2 f_equal. generalize 0.
  induction IH as [|c cs Hc Hcs IHcs]; intros k; [done|].
  rewrite !fix_children_offsets_cons, !Hc, !fix_offsets_axis. f_equal. apply IHcs.
Qed.

Lemma positioned_geometry x y c :
  positioned x y c -> geo_x (geometry c) = x /\ geo_y (geometry c) = y.
Proof. unfold positioned. intros Hp. rewrite <- Hp. by rewrite fix_offsets_geometry. Qed.

Lemma positioned_split x y g d cs :
  positioned x y (mkCell g (Split d cs)) <->
  geo_x g = x /\ geo_y g = y /\ fix_children_offsets fix_offsets d x y 0 cs = cs.
Proof.
  unfold positioned. cbn [fix_offsets kind geometry]. destruct g as [w h gx gy]. simpl. split.
  - intros [=-> -> H]. done.
  - by intros (-> & -> & ->).
Qed.

(** A cell laid out from its own position. *)
Definition laid_out (c : LayoutCell) : Prop :=
  positioned (geo_x (geometry c)) (geo_y (geometry c)) c.

Lemma positioned_laid_out x y c : positioned x y c -> laid_out c.
Proof. intros Hp. unfold laid_out. by destruct (positioned_geometry _ _ _ Hp) as [-> ->]. Qed.

Lemma positioned_alter d x y f cs k h child :
  fix_children_offsets fix_offsets d x y k cs = cs -> cs !! h = Some child ->
  laid_out (f child) -> geometry (f child) = geometry child ->
  fix_children_offsets fix_offsets d x y k (alter f h cs) = alter f h cs.
Proof.
  intros Hfix Hch Hf Hg. revert k h Hfix Hch.
  induction cs as [|c cs IH]; intros k h Hfix Hch; [done|].
  rewrite fix_children_offsets_cons, fix_offsets_axis in Hfix. injection Hfix as Hc Hcs.
  destruct h as [|h]; simplify_eq/=; rewrite fix_children_offsets_cons, fix_offsets_axis.
  - unfold axis_size. rewrite Hg. fold (axis_size child d). rewrite Hcs. f_equal.
    destruct (positioned_geometry _ _ _ Hc) as [Hx Hy]. unfold laid_out in Hf.
    rewrite Hg, Hx, Hy in Hf. exact Hf.
  - rewrite Hc. f_equal. by apply IH.
Qed.

Lemma update_at_path_laid_out c p f cell :
  laid_out c -> cell_at_path c p = Some cell -> laid_out (f cell) ->
  geometry (f cell) = geometry cell ->
  laid_out (update_at_path p f c) /\ geometry (update_at_path p f c) = geometry c.
Proof.
  intros Hpos Hp Hf Hg. revert c Hpos Hp.
  induction p as [|h p IH]; intros c Hpos Hp; simplify_eq/=; [done|].
  destruct c as [g [|d cs]]; [done|]. cbn [kind] in *. split; [|done].
  apply bind_Some in Hp as (child & Hch & Hp).
  apply positioned_split in Hpos as (Hx & Hy & Hfix). apply positioned_split. split_and!; [done..|].
  assert (laid_out child) as Hlc.
  { clear -Hfix Hch. cbn [geometry] in Hfix. revert h Hch Hfix. generalize 0.
    induction cs as [|c cs IH]; intros k h Hch Hfix; [done|].
    rewrite fix_children_offsets_cons in Hfix. injection Hfix as Hc Hcs.
    destruct h as [|h]; simplify_eq/=; [by eapply positioned_laid_out|by eapply IH]. }
  destruct (IH child Hlc Hp) as [I1 I2]. by eapply positioned_alter.
Qed.

(** The subtree at a path lies inside the tree. *)
Lemma child_inside g d cs h child :
  laid_out (mkCell g (Split d cs)) -> consistent (mkCell g (Split d cs)) ->
  (forall d', 0 <= geo_pos d' g /\ geo_pos d' g + geo_axis d' g < u32_max) ->
  cs !! h = Some child -> laid_out child /\ inside g (geometry child).
Proof.
  intros Hpos Hc Hb Hch. apply positioned_split in Hpos as (_ & _ & Hfix). cbn [geometry] in Hfix.
  apply consistent_children in Hc as (_ & Hcs & Hcross & Htot).
  assert (forall k, 0 <= k -> k + total d cs = geo_axis d g + 1 ->
    fix_children_offsets fix_offsets d (geo_x g) (geo_y g) k cs = cs ->
    exists k', 0 <= k' /\ k' + axis_size child d <= geo_axis d g /\
      positioned (child_x d (geo_x g) k') (child_y d (geo_y g) k') child) as Hgen.
  { clear Hfix Htot Hcross. revert h Hch. induction Hcs as [|c cs Hc Hcs IH]; intros h Hch k Hk Htot Hfix;
      [done|].
    rewrite fix_children_offsets_cons, fix_offsets_axis in Hfix. injection Hfix as Hc0 Hfix.
    rewrite total_cons in Htot. pose proof (consistent_nonneg c Hc d).
    assert (0 <= total d cs).
    { etrans; [|apply total_nonneg]; [lia|]. eapply Forall_impl; [exact Hcs|].
      intros c' Hc'. by apply consistent_nonneg. }
    destruct h as [|h]; simplify_eq/=.
    - exists k. split_and!; [lia|lia|done].
    - eapply (IH h Hch); [|..|exact Hfix]; specialize (Hb d); unfold PANE_BORDER_CELLS; machine. }
  destruct (Hgen 0 ltac:(lia) ltac:(lia) Hfix) as (k & Hk & Hle & Hp).
  split; [by eapply positioned_laid_out|].
  destruct (positioned_geometry _ _ _ Hp) as [Hgx Hgy].
  rewrite Forall_forall in Hcs, Hcross.
  assert (child ∈ cs) as Hin by (by eapply list_elem_of_lookup_2).
  pose proof (Hcross _ Hin) as Hx. pose proof (consistent_nonneg _ (Hcs _ Hin)) as Hnn.
  intros d'. pose proof (Hb d') as Hb'. pose proof (Hnn d').
  destruct d, d'; unfold axis_size in *; simpl in *; rewrite ?Hgx, ?Hgy;
    rewrite ?u32_add_small by machine; lia.
Qed.

Lemma cell_at_path_inside c p cell :
  laid_out c -> consistent c ->
  (forall d, 0 <= geo_pos d (geometry c) /\
             geo_pos d (geometry c) + geo_axis d (geometry c) < u32_max) ->
  cell_at_path c p = Some cell -> laid_out cell /\ inside (geometry c) (geometry cell).
Proof.
  revert c. induction p as [|h p IH]; intros c Hl Hc Hb Hp; simplify_eq/=.
  { split; [done|apply inside_refl]. }
  destruct c as [g [|d cs]]; [done|]. cbn [kind geometry] in *.
  apply bind_Some in Hp as (child & Hch & Hp).
  destruct (child_inside g d cs h child Hl Hc Hb Hch) as [Hlc Hin].
  pose proof Hc as (_ & Hcs & _)%consistent_children. rewrite Forall_forall in Hcs.
  destruct (IH child Hlc) as [H1 H2]; [apply Hcs; by eapply list_elem_of_lookup_2| |done|].
  - intros d'. specialize (Hb d'). specialize (Hin d'). lia.
  - split; [done|]. by eapply inside_trans.
Qed.
