(* ===== verification/LayoutSplit.v ===== *)
(** * Splitting and removing panes

    Correctness of [split_leaf], [split_root] and [remove_leaf] of
    [crates/rmux-core/src/layout/mutation.rs] (modelled in [LayoutTree]). *)

From S2P Require Import Prelude Panes LayoutCell LayoutAdjust LayoutOffsets LayoutTree LayoutPaths.

(** ** Well-formed trees

    The state every operation starts from: consistent geometry, laid out from
    the origin, of a size that [i32] holds with room to spare (terminal sizes
    are [u16]). *)
Record well_formed (t : LayoutTree) : Prop := {
  wf_consistent : consistent (root t);
  wf_positioned : positioned 0 0 (root t);
  wf_bounds : forall d, axis_size (root t) d < i32_max;
}.


Lemma leaves_nonneg c g : consistent c -> g ∈ leaves c -> forall d, 0 <= geo_axis d g.
Proof.
  induction c as [g'|g' d cs IH] using LayoutCell_rect_strong; intros Hc Hin d'.
  - apply list_elem_of_singleton in Hin as ->. by apply (consistent_nonneg _ Hc).
  - apply consistent_children in Hc as (_ & Hcs & _). cbn [leaves kind] in Hin.
    apply list_elem_of_In, List.in_concat in Hin as (l & Hl & Hg).
    apply List.in_map_iff in Hl as (c & <- & Hl). apply list_elem_of_In in Hg, Hl.
    rewrite Forall_forall in IH, Hcs. by apply (IH c Hl (Hcs c Hl)).
Qed.

(** A leaf of a well-formed tree has non-negative coordinates within [i32]. *)
Lemma wf_leaf t i g :
  well_formed t -> leaves (root t) !! i = Some g ->
  forall d, 0 <= geo_pos d g /\ 0 <= geo_axis d g /\ geo_pos d g + geo_axis d g < i32_max.
Proof.
  intros [Hc Hp Hb] Hi d.
  assert (g ∈ leaves (root t)) as Hin by (by eapply list_elem_of_lookup_2).
  pose proof (Hb LeftRight) as B1. pose proof (Hb TopBottom) as B2. unfold axis_size in *; simpl in *.
  destruct (fix_offsets_tiled (root t) Hc 0 0) as (T & _ & _); [lia|lia|machine|machine|].
  rewrite Hp in T. rewrite Forall_forall in T. specialize (T g Hin d).
  pose proof (leaves_nonneg _ _ Hc Hin d). destruct d; simpl in *; lia.
Qed.

(** ** The two halves of a rectangle *)

Definition set_pos (d : LayoutDirection) (v : Z) (g : LayoutGeometry) : LayoutGeometry :=
  match d with
  | LeftRight => mkGeometry (width g) (height g) v (geo_y g)
  | TopBottom => mkGeometry (width g) (height g) (geo_x g) v
  end.

(** One border cell goes between the halves; the first gets the odd cell. *)
Definition second_size (d : LayoutDirection) (g : LayoutGeometry) : Z := (geo_axis d g - 1) / 2.
Definition first_size (d : LayoutDirection) (g : LayoutGeometry) : Z :=
  geo_axis d g - 1 - second_size d g.
Definition first_half (d : LayoutDirection) (g : LayoutGeometry) : LayoutGeometry :=
  set_axis d (first_size d g) g.
Definition second_half (d : LayoutDirection) (g : LayoutGeometry) : LayoutGeometry :=
  set_pos d (geo_pos d g + first_size d g + 1) (set_axis d (second_size d g) g).

Lemma halves_sizes d g :
  3 <= geo_axis d g ->
  1 <= second_size d g <= first_size d g /\ first_size d g <= second_size d g + 1 /\
  first_size d g + 1 + second_size d g = geo_axis d g.
Proof.
  intros H. unfold first_size. pose proof (Z.div_mod (geo_axis d g - 1) 2 ltac:(lia)) as Hdm.
  pose proof (Z.mod_pos_bound (geo_axis d g - 1) 2 ltac:(lia)). fold (second_size d g) in Hdm. lia.
Qed.

Lemma clamped_sizes saved :
  3 <= saved < i32_max ->
  clamp (sat_sub (u32_add saved PANE_BORDER_CELLS / 2) PANE_BORDER_CELLS) PANE_MINIMUM
    (sat_sub saved (u32_add PANE_MINIMUM PANE_BORDER_CELLS)) = (saved - 1) / 2 /\
  sat_sub (sat_sub saved PANE_BORDER_CELLS) ((saved - 1) / 2) = saved - 1 - (saved - 1) / 2.
Proof.
  intros H. unfold PANE_BORDER_CELLS, PANE_MINIMUM. rewrite !u32_add_small by machine.
  replace (saved + 1) with (saved - 1 + 1 * 2) by lia. rewrite Z.div_add by lia.
  pose proof (Z.div_mod (saved - 1) 2 ltac:(lia)) as Hdm.
  pose proof (Z.mod_pos_bound (saved - 1) 2 ltac:(lia)).
  rewrite clamp_id by machine. machine.
Qed.

Lemma split_leaf_into_children_eq g d before :
  (forall d, 0 <= geo_pos d g /\ 0 <= geo_axis d g /\ geo_pos d g + geo_axis d g < i32_max) ->
  split_leaf_into_children g d before =
  if geo_axis d g <? 3 then None else Some (pane (first_half d g), pane (second_half d g)).
Proof.
  intros Hg. specialize (Hg d). unfold split_leaf_into_children.
  change (u32_add (u32_mul PANE_MINIMUM 2) PANE_BORDER_CELLS) with 3.
  destruct (Z.ltb_spec (geo_axis d g) 3) as [|H3]; [done|].
  destruct (clamped_sizes (geo_axis d g)) as [E1 E2]; [lia|].
  pose proof (halves_sizes d g H3) as (S1 & S2 & S3). cbv zeta. rewrite E1, E2.
  fold (second_size d g). change (geo_axis d g - 1 - second_size d g) with (first_size d g).
  unfold PANE_BORDER_CELLS. unfold first_half, second_half.
  destruct d; simpl in *; rewrite !u32_add_small by (rewrite ?u32_add_small by machine; machine); done.
Qed.


(** ** The split cell, and the split children of a parent *)

Lemma set_pos_axis d d' v g : geo_axis d' (set_pos d v g) = geo_axis d' g.
Proof. by destruct d, d'. Qed.

Lemma halves_consistent d g :
  3 <= geo_axis d g -> 0 <= geo_axis (flip d) g ->
  consistent (pane (first_half d g)) /\ consistent (pane (second_half d g)).
Proof.
  intros H3 Hf. pose proof (halves_sizes d g H3).
  split; constructor; destruct d; simpl in *; lia.
Qed.

Lemma halves_axis d g :
  geo_axis d (first_half d g) = first_size d g /\
  geo_axis d (second_half d g) = second_size d g /\
  geo_axis (flip d) (first_half d g) = geo_axis (flip d) g /\
  geo_axis (flip d) (second_half d g) = geo_axis (flip d) g.
Proof. by destruct d. Qed.

(** The children of a parent, with the child at [h] replaced by its halves. *)
Definition halved (d : LayoutDirection) (cs : list LayoutCell) (h : nat) (g : LayoutGeometry)
  : list LayoutCell :=
  take h cs ++ pane (first_half d g) :: pane (second_half d g) :: drop (S h) cs.

Lemma split_in_parent_halved d cs h g before :
  cs !! h = Some (mkCell g Pane) ->
  split_in_parent cs h (pane (first_half d g)) (pane (second_half d g)) before = halved d cs h g.
Proof.
  intros Hch. pose proof (lookup_lt_Some _ _ _ Hch) as Hlt.
  assert (length (take h cs) = h) as Hlen by (rewrite length_take; lia).
  unfold split_in_parent, vec_insert, halved. rewrite delete_take_drop.
  assert (take h (take h cs ++ drop (S h) cs) = take h cs) as Et
    by (by rewrite take_app_length' by done).
  assert (drop h (take h cs ++ drop (S h) cs) = drop (S h) cs) as Ed
    by (by rewrite drop_app_length' by done).
  rewrite Et, Ed. destruct before.
  - rewrite take_app_length', drop_app_length' by done. done.
  - rewrite take_app_add' by done. rewrite drop_app_add' by done. simpl. by rewrite <- app_assoc.
Qed.

Lemma total_app d l1 l2 : total d (l1 ++ l2) = total d l1 + total d l2.
Proof. unfold total. by rewrite map_app, sumZ_app. Qed.

Lemma halved_consistent d gp cs h g :
  consistent (mkCell gp (Split d cs)) -> cs !! h = Some (mkCell g Pane) -> 3 <= geo_axis d g ->
  consistent (mkCell gp (Split d (halved d cs h g))).
Proof.
  intros Hc Hch H3. pose proof Hc as (_ & Hcs & Hcross & Htot)%consistent_children.
  pose proof (halves_axis d g) as (A1 & A2 & A3 & A4). pose proof (halves_sizes d g H3) as (_ & _ & A5).
  rewrite <- (take_drop_middle cs h _ Hch) in Hcs, Hcross, Htot.
  apply Forall_app in Hcs as [Hc1 [Hcg Hc2]%Forall_cons].
  apply Forall_app in Hcross as [Hx1 [Hxg Hx2]%Forall_cons].
  rewrite total_app, total_cons in Htot. unfold axis_size in Hxg, Htot. cbn [geometry] in *.
  pose proof (consistent_nonneg _ Hcg (flip d)) as Hnn. unfold axis_size in Hnn. cbn in Hnn.
  destruct (halves_consistent d g H3 Hnn) as [HA HB].
  unfold halved. constructor.
  - intros Hnil. by apply app_eq_nil in Hnil as [_ ?].
  - apply Forall_app; split; [done|]. by rewrite !Forall_cons.
  - apply Forall_app; split; [done|]. rewrite !Forall_cons. unfold axis_size. simpl.
    split_and!; [congruence..|done].
  - rewrite total_app, !total_cons. unfold axis_size. cbn [pane geometry]. rewrite A1, A2. lia.
Qed.

Lemma halved_leaves d gp cs h g :
  cs !! h = Some (mkCell g Pane) ->
  leaves (mkCell gp (Split d cs)) =
    concat (map leaves (take h cs)) ++ [g] ++ concat (map leaves (drop (S h) cs)) /\
  leaves (mkCell gp (Split d (halved d cs h g))) =
    concat (map leaves (take h cs)) ++ [first_half d g; second_half d g] ++
    concat (map leaves (drop (S h) cs)).
Proof.
  intros Hch. cbn [leaves kind]. split; [by rewrite (concat_leaves_split cs h _ Hch)|].
  unfold halved. by rewrite map_app, concat_app.
Qed.

(** The single-cell variant: a leaf becomes a split of its halves. *)
Lemma split_cell_consistent d g :
  3 <= geo_axis d g -> 0 <= geo_axis (flip d) g ->
  consistent (split d g [pane (first_half d g); pane (second_half d g)]).
Proof.
  intros H3 Hnn. destruct (halves_consistent d g H3 Hnn) as [HA HB].
  pose proof (halves_axis d g) as (A1 & A2 & A3 & A4). pose proof (halves_sizes d g H3) as (_ & _ & A5).
  constructor; [done|by rewrite !Forall_cons|by rewrite !Forall_cons|].
  rewrite !total_cons, total_nil. unfold axis_size. cbn [pane geometry]. rewrite A1, A2. lia.
Qed.

Section HalvesPositioned.
Context (d : LayoutDirection) (x y : Z).
Context (Hx : 0 <= origin x y d).

Lemma halves_positioned k g rest :
  geo_x g = child_x d x k -> geo_y g = child_y d y k -> 0 <= k -> 3 <= geo_axis d g ->
  origin x y d + k + geo_axis d g + 1 <= u32_max ->
  fix_children_offsets fix_offsets d x y k
    (pane (first_half d g) :: pane (second_half d g) :: rest) =
  pane (first_half d g) :: pane (second_half d g) ::
  fix_children_offsets fix_offsets d x y (k + geo_axis d g + 1) rest.
Proof.
  intros Hgx Hgy Hk H3 Hb. pose proof (halves_sizes d g H3) as (S1 & S2 & S3).
  pose proof (halves_axis d g) as (A1 & A2 & A3 & A4).
  rewrite !fix_children_offsets_cons, !fix_offsets_axis. unfold axis_size, PANE_BORDER_CELLS.
  cbn [pane geometry]. rewrite A1, A2.
  replace (u32_sat_add (u32_sat_add k (first_size d g)) 1) with (k + first_size d g + 1) by machine.
  replace (u32_sat_add (u32_sat_add (k + first_size d g + 1) (second_size d g)) 1)
    with (k + geo_axis d g + 1) by machine.
  f_equal; [|f_equal].
  - unfold pane, first_half. destruct d; simpl in *; by rewrite Hgx, Hgy.
  - unfold pane, second_half. destruct d; simpl in *; rewrite Hgx, Hgy;
      rewrite !u32_add_small by machine; do 2 f_equal; lia.
Qed.

Lemma halved_positioned cs h g k :
  fix_children_offsets fix_offsets d x y k cs = cs -> cs !! h = Some (mkCell g Pane) ->
  Forall consistent cs -> 0 <= k -> 3 <= geo_axis d g ->
  origin x y d + k + total d cs <= u32_max ->
  fix_children_offsets fix_offsets d x y k (halved d cs h g) = halved d cs h g.
Proof.
  intros Hfix Hch Hcs Hk H3 Hb. revert k h Hfix Hch Hk Hb.
  induction Hcs as [|c cs Hc Hcs IH]; intros k h Hfix Hch Hk Hb; [done|].
  rewrite fix_children_offsets_cons, fix_offsets_axis in Hfix. injection Hfix as Hpos Hfix.
  rewrite total_cons in Hb. pose proof (consistent_nonneg c Hc d) as Hnn.
  assert (0 <= total d cs) as Htn.
  { etrans; [|apply total_nonneg]; [lia|]. eapply Forall_impl; [exact Hcs|].
    intros c' Hc'. by apply consistent_nonneg. }
  replace (u32_sat_add (u32_sat_add k (axis_size c d)) PANE_BORDER_CELLS)
    with (k + axis_size c d + 1) in Hfix by (unfold PANE_BORDER_CELLS; machine).
  destruct h as [|h]; cbn [lookup list_lookup] in Hch.
  - injection Hch as ->. unfold halved. cbn [firstn skipn app].
    apply positioned_geometry in Hpos as [Hgx Hgy]. cbn [geometry] in *.
    unfold axis_size in *. cbn [geometry] in *.
    rewrite halves_positioned by (done || lia). by rewrite drop_0, Hfix.
  - unfold halved. cbn [firstn skipn app]. rewrite fix_children_offsets_cons, fix_offsets_axis, Hpos.
    replace (u32_sat_add (u32_sat_add k (axis_size c d)) PANE_BORDER_CELLS)
      with (k + axis_size c d + 1) by (unfold PANE_BORDER_CELLS; machine).
    f_equal. apply IH; [done|done|lia|lia].
Qed.

End HalvesPositioned.

Lemma split_cell_positioned d g x y :
  3 <= geo_axis d g -> 0 <= geo_pos d g -> geo_pos d g + geo_axis d g + 1 <= u32_max ->
  positioned x y (pane g) ->
  positioned x y (split d g [pane (first_half d g); pane (second_half d g)]).
Proof.
  intros H3 H0 Hb Hp. apply positioned_geometry in Hp as [Hgx Hgy]. cbn [pane geometry] in *.
  apply positioned_split. split_and!; [done|done|].
  rewrite halves_positioned; [done|..|lia|done|]; destruct d; simpl in *; subst;
    rewrite ?u32_add_small by machine; lia.
Qed.

(** ** [split_leaf] *)

Lemma rects_leaves t : rects t = leaves (root t).
Proof. apply collect_leaf_geometries_leaves. Qed.

(** What a successful split of leaf [i], of rectangle [g], leaves behind. *)
Definition split_done (t : LayoutTree) (i : nat) (d : LayoutDirection) (g : LayoutGeometry)
    (t' : LayoutTree) : Prop :=
  well_formed t' /\ geometry (root t') = geometry (root t) /\
  rects t' = take i (rects t) ++ [first_half d g; second_half d g] ++ drop (S i) (rects t).

Lemma wf_laid_out t : well_formed t -> laid_out (root t).
Proof. intros [_ Hp _]. by eapply positioned_laid_out. Qed.

Lemma wf_root_box t d :
  well_formed t ->
  0 <= geo_pos d (geometry (root t)) /\
  geo_pos d (geometry (root t)) + geo_axis d (geometry (root t)) < i32_max.
Proof.
  intros [_ Hp Hb]. specialize (Hb d). destruct (positioned_geometry _ _ _ Hp) as [Hx Hy].
  unfold axis_size in Hb. destruct d; simpl in *; lia.
Qed.

Lemma wf_cell t p cell :
  well_formed t -> cell_at_path (root t) p = Some cell ->
  consistent cell /\ laid_out cell /\
  forall d, 0 <= geo_pos d (geometry cell) /\
            geo_pos d (geometry cell) + geo_axis d (geometry cell) < i32_max.
Proof.
  intros Hwf Hp. destruct (cell_at_path_consistent _ _ _ (wf_consistent _ Hwf) Hp) as [Hc _].
  destruct (cell_at_path_inside (root t) p cell) as [Hl Hin];
    [by apply wf_laid_out|apply Hwf| |done|].
  { intros d. pose proof (wf_root_box t d Hwf). machine. }
  split_and!; [done|done|]. intros d. pose proof (wf_root_box t d Hwf). specialize (Hin d). lia.
Qed.

(** Rewriting the cell at a path by one of the same geometry keeps a tree
    well-formed, and the final [fix_offsets] has nothing to move. *)
Lemma wf_update t p cell f m :
  well_formed t -> cell_at_path (root t) p = Some cell ->
  consistent (f cell) -> laid_out (f cell) -> geometry (f cell) = geometry cell ->
  let root' := update_at_path p f (root t) in
  fix_offsets 0 0 root' = root' /\ geometry root' = geometry (root t) /\
  well_formed (mkTree root' m).
Proof.
  intros Hwf Hp Hc Hl Hg root'.
  destruct (update_at_path_laid_out (root t) p f cell) as [U1 U2];
    [by apply wf_laid_out|done..|].
  destruct (update_at_path_consistent (root t) p f cell) as [V1 V2];
    [apply Hwf|done|done|intros d; unfold axis_size; by rewrite Hg|].
  assert (positioned 0 0 root') as Hpos.
  { unfold laid_out in U1. rewrite U2 in U1.
    destruct (positioned_geometry _ _ _ (wf_positioned _ Hwf)) as [Hx Hy]. by rewrite Hx, Hy in U1. }
  split_and!; [done|done|]. split; [done|done|]. intros d. cbn [root]. unfold root'. rewrite V2.
  apply Hwf.
Qed.

(** A write through a path that turns the segment holding leaf [i] into one
    with its halves. *)
Lemma split_done_update t i d g p cell f pre post m :
  well_formed t -> cell_at_path (root t) p = Some cell ->
  leaves cell = pre ++ [g] ++ post ->
  leaves (f cell) = pre ++ [first_half d g; second_half d g] ++ post ->
  i = (leaves_before (root t) p + length pre)%nat ->
  consistent (f cell) -> laid_out (f cell) -> geometry (f cell) = geometry cell ->
  split_done t i d g (mkTree (fix_offsets 0 0 (update_at_path p f (root t))) m).
Proof.
  intros Hwf Hp Hl Hlf Hi Hc Hlo Hg.
  destruct (wf_update t p cell f m Hwf Hp Hc Hlo Hg) as (E & G & W).
  rewrite E. split_and!; [done|done|]. rewrite !rects_leaves. cbn [root].
  destruct (leaves_at_path _ _ _ Hp) as (pre0 & post0 & Hlen & Hl0 & Hu).
  rewrite Hu, Hlf, Hl0, Hl. subst i. rewrite <- Hlen, <- (length_app pre0 pre), <- !app_assoc.
  rewrite (app_assoc pre0 pre ([g] ++ _)), take_app_length.
  replace (S (length (pre0 ++ pre))) with (length (pre0 ++ pre) + 1)%nat by lia.
  rewrite drop_app_add. simpl. by rewrite <- app_assoc.
Qed.

Lemma split_leaf_cell_eq g d before :
  (forall d, 0 <= geo_pos d g /\ 0 <= geo_axis d g /\ geo_pos d g + geo_axis d g < i32_max) ->
  split_leaf_cell (mkCell g Pane) d before =
  if geo_axis d g <? 3 then None
  else Some (split d g [pane (first_half d g); pane (second_half d g)]).
Proof.
  intros Hg. unfold split_leaf_cell. cbn [geometry].
  rewrite split_leaf_into_children_eq by done. by destruct (_ <? _).
Qed.

(** Replacing the leaf itself by a split of its halves. *)
Lemma split_done_leaf t i d g p m :
  well_formed t -> leaf_paths t !! i = Some p -> cell_at_path (root t) p = Some (mkCell g Pane) ->
  leaves_before (root t) p = i -> 3 <= geo_axis d g ->
  split_done t i d g
    (mkTree (fix_offsets 0 0
       (update_at_path p
          (fun _ => split d g [pane (first_half d g); pane (second_half d g)]) (root t))) m).
Proof.
  intros Hwf Hpath Hp Hi H3. destruct (wf_cell t p _ Hwf Hp) as (Hc & Hl & Hb). cbn [geometry] in *.
  pose proof (consistent_nonneg _ Hc (flip d)) as Hnn. unfold axis_size in Hnn. cbn [geometry] in Hnn.
  eapply split_done_update with (pre := []) (post := []); [done|exact Hp|done|done|simpl; lia| | |done].
  - by apply split_cell_consistent.
  - specialize (Hb d). apply split_cell_positioned; [done|lia|machine|exact Hl].
Qed.

(** Replacing the leaf by its halves among the children of its parent. *)
Lemma split_done_in_parent t i d g p k gp cs before m :
  well_formed t -> cell_at_path (root t) p = Some (mkCell gp (Split d cs)) ->
  cs !! k = Some (mkCell g Pane) -> leaves_before (root t) (p ++ [k]) = i -> 3 <= geo_axis d g ->
  split_done t i d g
    (mkTree (fix_offsets 0 0
       (update_at_path p
          (fun q => mkCell (geometry q) (Split d
             (split_in_parent cs k (pane (first_half d g)) (pane (second_half d g)) before)))
          (root t))) m).
Proof.
  intros Hwf Hp Hk Hi H3. destruct (wf_cell t p _ Hwf Hp) as (Hc & Hl & Hb). cbn [geometry] in *.
  rewrite split_in_parent_halved by done. destruct (halved_leaves d gp cs k g Hk) as [L1 L2].
  eapply split_done_update; [done|exact Hp|exact L1|exact L2| | | |done].
  - rewrite <- Hi, (leaves_before_app _ _ _ _ Hp). simpl. rewrite Hk. lia.
  - by apply halved_consistent.
  - apply positioned_split in Hl as (_ & _ & Hfix). apply positioned_split. split_and!; [done|done|].
    cbn [geometry] in *. apply consistent_children in Hc as (_ & Hcs & _ & Htot).
    specialize (Hb d). apply halved_positioned; try done; destruct d; simpl in *; machine.
Qed.

(** The shared body of the correctness of [split_leaf]: the outcome for a leaf
    that exists. *)
Lemma split_leaf_found t i d before p g :
  well_formed t -> leaf_paths t !! i = Some p -> cell_at_path (root t) p = Some (mkCell g Pane) ->
  leaves_before (root t) p = i -> leaves (root t) !! i = Some g ->
  if geo_axis d g <? 3 then split_leaf t i d before = (false, t)
  else exists t', split_leaf t i d before = (true, t') /\ split_done t i d g t'.
Proof.
  intros Hwf Hpath Hp Hi Hg. pose proof (wf_leaf t i g Hwf Hg) as Hbox.
  unfold split_leaf. rewrite Hpath. pose proof (pop_path p) as Hpop.
  destruct (last p) as [k|].
  - set (pp := List.removelast p) in *. rewrite Hpop in Hp.
    destruct (cell_at_path_snoc _ _ _ _ Hp) as (gp & pd & cs & Hpp & Hk). rewrite Hpp. cbn [kind].
    destruct (decide (pd = d)) as [->|Hd].
    + rewrite Hk. cbn [geometry]. rewrite split_leaf_into_children_eq by done.
      destruct (Z.ltb_spec (geo_axis d g) 3) as [|H3]; [done|].
      eexists; split; [done|]. eapply split_done_in_parent; try done. by rewrite <- Hpop.
    + rewrite <- Hpop in Hp. rewrite Hp, split_leaf_cell_eq by done.
      destruct (Z.ltb_spec (geo_axis d g) 3) as [|H3]; [done|].
      eexists; split; [done|]. by eapply split_done_leaf.
  - subst p. injection Hp as Hroot. rewrite Hroot, split_leaf_cell_eq by done.
    destruct (Z.ltb_spec (geo_axis d g) 3) as [|H3]; [done|].
    eexists; split; [done|]. pose proof (split_done_leaf t i d g [] (leaf_map t)) as Hd.
    cbn [update_at_path] in Hd. apply Hd; try done. simpl. by rewrite Hroot.
Qed.

(** ** Properties *)

(** C6. Splitting a pane: on a well-formed tree, [split_leaf] succeeds exactly
    when the leaf exists and is at least three cells long in the split
    direction; a failed split leaves the tree as it was; a successful one keeps
    the window size, keeps the tree well-formed, leaves every other pane's
    rectangle untouched and replaces the target's by its two halves, which with
    the border between them cover it and differ by at most one cell. *)
Theorem split_leaf_correct t i d before :
  well_formed t ->
  match rects t !! i with
  | Some g =>
      if geo_axis d g <? 3 then split_leaf t i d before = (false, t)
      else exists t',
        split_leaf t i d before = (true, t') /\ well_formed t' /\
        geometry (root t') = geometry (root t) /\
        rects t' = take i (rects t) ++ [first_half d g; second_half d g] ++ drop (S i) (rects t) /\
        first_size d g + 1 + second_size d g = geo_axis d g /\
        1 <= second_size d g <= first_size d g /\ first_size d g <= second_size d g + 1
  | None => split_leaf t i d before = (false, t)
  end.
Proof.
  intros Hwf. rewrite rects_leaves. destruct (leaves (root t) !! i) as [g|] eqn:Hg.
  - destruct (leaf_has_path t i g Hg) as [p Hpath].
    destruct (leaf_path_spec t i p Hpath) as (g' & Hp & Hi & Hg').
    assert (g' = g) as -> by congruence.
    pose proof (split_leaf_found t i d before p g Hwf Hpath Hp Hi Hg) as Hs.
    destruct (Z.ltb_spec (geo_axis d g) 3) as [|H3]; [done|].
    destruct Hs as (t' & Ht & W & G & R). exists t'. rewrite <- rects_leaves.
    pose proof (halves_sizes d g H3). split_and!; done || lia.
  - unfold split_leaf. rewrite leaf_paths_paths_of.
    assert (paths_of (root t) !! i = None) as ->; [|done].
    apply lookup_ge_None. rewrite length_paths_of. by apply lookup_ge_None.
Qed.

(** The tree of a freshly created 80x24 window. *)
Definition example_tree : LayoutTree := single (mkTerminalSize 80 24).

Lemma example_tree_wf : well_formed example_tree.
Proof.
  split; [constructor; simpl; lia|reflexivity|]. intros []; vm_compute; reflexivity.
Qed.

Lemma split_leaf_correct_witness :
  exists t', split_leaf example_tree 0 LeftRight false = (true, t') /\
    rects t' = [mkGeometry 40 24 0 0; mkGeometry 39 24 41 0].
Proof.
  destruct (split_leaf_correct example_tree 0 LeftRight false example_tree_wf)
    as (t' & H1 & _ & _ & H2 & _).
  exists t'. split; [exact H1|]. rewrite H2. vm_compute. reflexivity.
Defined.
