(* ===== verification/LayoutRemove.v ===== *)
(** * Removing a pane and splitting the whole window

    Correctness of [remove_leaf] (with [collapse_single_child]) and of
    [split_root] of [crates/rmux-core/src/layout/mutation.rs], and the case in
    which [split_root] breaks the geometry. *)

From S2P Require Import Prelude Panes LayoutCell LayoutAdjust LayoutOffsets LayoutTree LayoutPaths.
From S2P Require Import LayoutSplit.

(** Every split of the tree has at least two children. *)
Fixpoint branching (c : LayoutCell) : bool :=
  match kind c with
  | Pane => true
  | Split _ cs => (2 <=? length cs)%nat && forallb branching cs
  end.

Lemma branching_split g d cs :
  branching (mkCell g (Split d cs)) = true <->
  (2 <= length cs)%nat /\ Forall (fun c => branching c = true) cs.
Proof.
  cbn [branching kind]. rewrite andb_true_iff, Nat.leb_le, List.forallb_forall, Forall_forall.
  by setoid_rewrite list_elem_of_In.
Qed.

Lemma branching_erase c : branching (erase c) = branching c.
Proof.
  induction c as [g|g d cs IH] using LayoutCell_rect_strong; [done|].
  simpl. rewrite length_map. f_equal.
  induction IH as [|c cs Hc Hcs IHcs]; simpl; [done|]. by rewrite Hc, IHcs.
Qed.

Lemma erase_eq_branching c c' : erase c' = erase c -> branching c' = branching c.
Proof. intros H. by rewrite <- branching_erase, H, branching_erase. Qed.

Lemma leaf_count_leaves c : leaf_count c = length (leaves c).
Proof. by rewrite length_leaves. Qed.

(** ** [collapse_single_child] *)

(** Consistency only depends on the sizes of the geometry. *)
Lemma consistent_same_size g g' k :
  consistent (mkCell g k) -> width g' = width g -> height g' = height g ->
  consistent (mkCell g' k).
Proof.
  intros Hc Hw Hh. destruct k as [|d cs].
  - inversion Hc; subst. constructor; lia.
  - apply consistent_children in Hc as (? & ? & ? & ?).
    constructor; try done; destruct d; simpl in *; rewrite ?Hw, ?Hh; done.
Qed.

(** What [collapse_single_child] guarantees of a cell. *)
Definition collapsed (c c' : LayoutCell) : Prop :=
  consistent c' /\ geometry c' = geometry c /\ length (leaves c') = length (leaves c) /\
  branching c' = true.

Lemma collapse_geometry c : geometry (collapse_single_child c) = geometry c.
Proof.
  destruct c as [g [|d cs]]; [done|]. cbn [collapse_single_child kind geometry].
  destruct (map collapse_single_child cs) as [|c1 [|c2 l]]; try done. simpl. by destruct g.
Qed.

Lemma collapsed_children cs :
  Forall (fun c => consistent c -> collapsed c (collapse_single_child c)) cs ->
  Forall consistent cs ->
  Forall consistent (map collapse_single_child cs) /\
  Forall (fun c => branching c = true) (map collapse_single_child cs) /\
  (forall d, map (fun c => axis_size c d) (map collapse_single_child cs)
             = map (fun c => axis_size c d) cs) /\
  length (concat (map leaves (map collapse_single_child cs))) = length (concat (map leaves cs)).
Proof.
  intros HF Hcs. induction Hcs as [|c cs Hc Hcs IH]; [by split_and!|].
  apply Forall_cons in HF as [Hc' HF]. destruct (Hc' Hc) as (A & B & C & D).
  destruct (IH HF) as (I1 & I2 & I3 & I4). cbn [map concat].
  split_and!; [by constructor|by constructor| |rewrite !length_app; lia].
  intros d. f_equal; [|apply I3]. unfold axis_size. by rewrite B.
Qed.

Lemma collapse_spec c : consistent c -> collapsed c (collapse_single_child c).
Proof.
  induction c as [g|g d cs IH] using LayoutCell_rect_strong; intros Hc.
  { by split_and!. }
  pose proof Hc as (Hne & Hcs & Hcross & Htot)%consistent_children.
  destruct (collapsed_children cs IH Hcs) as (K1 & K2 & K3 & K4).
  set (cs' := map collapse_single_child cs) in *.
  assert (Forall (fun c => axis_size c (flip d) = geo_axis (flip d) g) cs') as Hcross'.
  { by apply (Forall_map_ext (fun c => axis_size c (flip d)) (fun c => axis_size c (flip d))
      (fun v => v = _) cs' cs). }
  assert (total d cs' = geo_axis d g + 1) as Htot'.
  { rewrite <- Htot. unfold total. f_equal.
    rewrite <- !(map_map (fun c => axis_size c d) (fun z => z + 1)). by rewrite K3. }
  assert (length cs' = length cs) as Hlen by apply length_map.
  unfold collapsed. rewrite collapse_geometry. cbn [collapse_single_child kind geometry leaves].
  fold cs'. rewrite <- K4. destruct cs' as [|c1 [|c2 l]].
  - by destruct cs.
  - apply Forall_cons in K1 as [K1 _]. apply Forall_cons in K2 as [K2 _].
    apply Forall_cons in Hcross' as [X1 _]. rewrite total_cons, total_nil in Htot'.
    destruct c1 as [g1 k1]. cbn [map concat]. rewrite app_nil_r.
    assert (width g = width g1 /\ height g = height g1) as [Hw Hh].
    { unfold axis_size in *. cbn [geometry] in *. destruct d; simpl in *; lia. }
    split_and!.
    + apply fix_offsets_consistent. by apply (consistent_same_size g1).
    + done.
    + rewrite !length_leaves, fix_offsets_leaf_count. by destruct k1.
    + rewrite (erase_eq_branching (mkCell g k1)) by apply fix_offsets_erase. by destruct k1.
  - split_and!; [by constructor|done|done|]. apply branching_split. simpl. split; [lia|done].
Qed.

(** ** [remove_leaf] *)

Lemma branching_at_path c p cell :
  branching c = true -> cell_at_path c p = Some cell -> branching cell = true.
Proof.
  revert c. induction p as [|h p IH]; intros c Hb Hp; simplify_eq/=; [done|].
  destruct c as [g [|d cs]]; [done|]. cbn [kind] in Hp.
  apply bind_Some in Hp as (child & Hch & Hp). apply branching_split in Hb as [_ Hb].
  rewrite Forall_forall in Hb. eapply IH; [|exact Hp]. apply Hb. by eapply list_elem_of_lookup_2.
Qed.

(** The neighbour that takes the space of child [k] exists. *)
Lemma remove_neighbour (cs : list LayoutCell) k c :
  (2 <= length cs)%nat -> cs !! k = Some c ->
  exists o, delete k cs !! (if decide (k = 0%nat) then 0%nat else (k - 1)%nat) = Some o /\ o ∈ cs.
Proof.
  intros H2 Hk. pose proof (lookup_lt_Some _ _ _ Hk) as Hlt.
  destruct (decide (k = 0%nat)) as [->|Hk0].
  - rewrite list_lookup_delete_ge by lia. destruct (lookup_lt_is_Some_2 cs 1) as [o Ho]; [lia|].
    exists o. split; [done|]. by eapply list_elem_of_lookup_2.
  - rewrite list_lookup_delete_lt by lia.
    destruct (lookup_lt_is_Some_2 cs (k - 1)) as [o Ho]; [lia|].
    exists o. split; [done|]. by eapply list_elem_of_lookup_2.
Qed.

Lemma total_delete d cs k c :
  cs !! k = Some c -> total d (delete k cs) = total d cs - (axis_size c d + 1).
Proof.
  intros Hk. rewrite delete_take_drop. rewrite <- (take_drop_middle cs k c Hk) at 3.
  rewrite !total_app, total_cons. lia.
Qed.

Lemma Forall_delete {A} (P : A -> Prop) k l : Forall P l -> Forall P (delete k l).
Proof.
  intros H. rewrite delete_take_drop. apply Forall_app; split; [by apply Forall_take|by apply Forall_drop].
Qed.

Lemma remove_child_consistent g d cs k removed :
  consistent (mkCell g (Split d cs)) -> (2 <= length cs)%nat -> geo_axis d g < i32_max ->
  cs !! k = Some removed ->
  let cs' := remove_child d cs k removed in
  consistent (mkCell g (Split d cs')) /\
  (length (concat (map leaves cs')) + length (leaves removed))%nat = length (concat (map leaves cs)).
Proof.
  intros Hc H2 Hb Hk. unfold remove_child.
  pose proof Hc as (Hne & Hcs & Hcross & Htot)%consistent_children.
  destruct (remove_neighbour cs k removed H2 Hk) as (o & Ho & Hin).
  set (j := if decide (k = 0%nat) then 0%nat else (k - 1)%nat) in *.
  pose proof (consistent_child_le _ _ _ removed d Hc ltac:(by eapply list_elem_of_lookup_2)) as Hle.
  pose proof (total_delete d cs k removed Hk) as Htd.
  assert (Forall consistent (delete k cs)) as Hcd by (by apply Forall_delete).
  pose proof (total_elem_le d _ o Hcd ltac:(by eapply list_elem_of_lookup_2)) as Hto.
  assert (consistent o) as Hco by (rewrite Forall_forall in Hcs; auto).
  assert (consistent removed) as Hcr
    by (rewrite Forall_forall in Hcs; apply Hcs; by eapply list_elem_of_lookup_2).
  pose proof (consistent_nonneg _ Hcr d) as Hr0.
  unfold PANE_BORDER_CELLS. rewrite u32_add_small, as_i32_small by machine.
  set (growth := axis_size removed d + 1).
  pose proof (resize_check_range o d Hco ltac:(machine)) as Hrc.
  destruct (resize_adjust_adjusted d growth o) as [A1 A2 A3 A4 _ _].
  { split_and!; [done|lia|machine|unfold growth; machine]. }
  split.
  - constructor.
    + intros Hnil. apply (f_equal length) in Hnil. rewrite length_alter in Hnil.
      apply lookup_lt_Some in Ho. simpl in Hnil. lia.
    + apply Forall_alter; [done|]. intros c' Hc' _. by simplify_eq.
    + eapply Forall_axis_alter; [exact Ho|done|by apply Forall_delete].
    + rewrite (total_alter _ _ _ _ o), A3, Htd by done. unfold growth. lia.
  - rewrite (concat_leaves_alter _ _ o), !length_app by done.
    rewrite (length_leaves (resize_adjust _ _ _)), (erase_eq_leaf_count o), <- length_leaves by done.
    rewrite (concat_leaves_split cs k removed Hk), !length_app.
    assert (length (concat (map leaves (delete k cs))) =
      (length (concat (map leaves (take k cs))) + length (concat (map leaves (drop (S k) cs))))%nat)
      as Hd by (by rewrite delete_take_drop, map_app, concat_app, length_app).
    rewrite (concat_leaves_split (delete k cs) j o Ho), !length_app in Hd. lia.
Qed.

Lemma leaf_count_pos c : branching c = true -> (1 <= leaf_count c)%nat.
Proof.
  induction c as [g|g d cs IH] using LayoutCell_rect_strong; [simpl; lia|].
  intros [H2 Hb]%branching_split. destruct cs as [|c cs]; [simpl in H2; lia|].
  apply Forall_cons in IH as [IH _]. apply Forall_cons in Hb as [Hb _]. specialize (IH Hb).
  simpl. lia.
Qed.

Lemma leaf_count_split g d cs :
  branching (mkCell g (Split d cs)) = true -> (2 <= leaf_count (mkCell g (Split d cs)))%nat.
Proof.
  intros [H2 Hb]%branching_split. destruct cs as [|c1 [|c2 cs]]; [simpl in H2; lia..|].
  apply Forall_cons in Hb as [Hb1 [Hb2 _]%Forall_cons].
  pose proof (leaf_count_pos _ Hb1). pose proof (leaf_count_pos _ Hb2). simpl. lia.
Qed.

(** The rewritten tree, for a leaf that is child [k] of the split at [p]. *)
Lemma remove_leaf_rewrites t p gp d cs k g :
  well_formed t -> branching (root t) = true ->
  cell_at_path (root t) p = Some (mkCell gp (Split d cs)) -> cs !! k = Some (mkCell g Pane) ->
  let children' := remove_child d cs k (mkCell g Pane) in
  let root' := update_at_path p (fun q => mkCell (geometry q) (Split d children')) (root t) in
  let t' := mkTree (fix_offsets 0 0 (collapse_single_child root')) None in
  well_formed t' /\ branching (root t') = true /\ geometry (root t') = geometry (root t) /\
  S (length (leaves (root t'))) = length (leaves (root t)).
Proof.
  intros Hwf Hb Hp Hk children' root' t'.
  destruct (wf_cell t p _ Hwf Hp) as (Hc & _ & Hbox). cbn [geometry] in Hbox.
  pose proof (branching_at_path _ _ _ Hb Hp) as [H2 _]%branching_split.
  destruct (remove_child_consistent gp d cs k _ Hc H2 ltac:(specialize (Hbox d); lia) Hk) as [Hc' Hl].
  destruct (update_at_path_consistent (root t) p
    (fun q => mkCell (geometry q) (Split d children')) _ (wf_consistent _ Hwf) Hp Hc' ltac:(done))
    as [U1 U2]. fold root' in U1, U2.
  destruct (leaves_at_path _ _ _ Hp) as (pre & post & _ & L1 & L2).
  specialize (L2 (fun q => mkCell (geometry q) (Split d children'))). fold root' in L2.
  destruct (collapse_spec root' U1) as (C1 & C2 & C3 & C4).
  assert (forall d', axis_size (root t') d' = axis_size (root t) d') as Hax.
  { intros d'. cbn [t' root]. rewrite fix_offsets_axis, <- U2. unfold axis_size. by rewrite C2. }
  split_and!.
  - split; cbn [t' root]; [by apply fix_offsets_consistent|apply fix_offsets_positioned|].
    intros d'. fold (root t'). rewrite Hax. apply Hwf.
  - cbn [t' root]. by rewrite (erase_eq_branching (collapse_single_child root')) by apply fix_offsets_erase.
  - cbn [t' root]. destruct (positioned_geometry _ _ _ (wf_positioned _ Hwf)) as [Hx Hy].
    pose proof (Hax LeftRight) as A1. pose proof (Hax TopBottom) as A2. unfold axis_size in A1, A2.
    cbn [t' root geo_axis] in A1, A2. rewrite fix_offsets_geometry in *. simpl in A1, A2.
    destruct (geometry (root t)). simpl in *. congruence.
  - cbn [t' root]. rewrite (length_leaves (fix_offsets _ _ _)), fix_offsets_leaf_count.
    rewrite <- length_leaves, C3, L2, L1, !length_app. cbn [leaves kind]. fold children' in Hl.
    simpl length in Hl at 2. lia.
Qed.

(** ** Properties *)

(** C12. Removing a pane: on a well-formed tree whose splits all branch,
    [remove_leaf] succeeds exactly for the existing leaves of a window with
    more than one; it then leaves a well-formed tree of the same window size,
    still branching, with one leaf less. *)
Theorem remove_leaf_correct t i :
  well_formed t -> branching (root t) = true ->
  if (i <? tree_leaf_count t)%nat && (2 <=? tree_leaf_count t)%nat then
    exists t', remove_leaf t i = (true, t') /\ well_formed t' /\ branching (root t') = true /\
      geometry (root t') = geometry (root t) /\ S (tree_leaf_count t') = tree_leaf_count t
  else remove_leaf t i = (false, t).
Proof.
  intros Hwf Hb. unfold tree_leaf_count. rewrite leaf_count_leaves.
  destruct (leaves (root t) !! i) as [g|] eqn:Hg.
  - pose proof (lookup_lt_Some _ _ _ Hg) as Hlt. rewrite (proj2 (Nat.ltb_lt _ _) Hlt), andb_true_l.
    destruct (leaf_has_path t i g Hg) as [p Hpath].
    destruct (leaf_path_spec t i p Hpath) as (g' & Hp & _ & _).
    pose proof (pop_path p) as Hpop. destruct (last p) as [k|] eqn:Hlast.
    + set (pp := List.removelast p) in *. rewrite Hpop in Hp.
      destruct (cell_at_path_snoc _ _ _ _ Hp) as (gp & d & cs & Hpp & Hk).
      pose proof (remove_leaf_rewrites t pp gp d cs k g' Hwf Hb Hpp Hk) as (W & B & G & C).
      assert (2 <= length (leaves (root t)))%nat as H2.
      { pose proof (branching_at_path _ _ _ Hb Hpp) as Hbp.
        destruct (leaves_at_path _ _ _ Hpp) as (pre & post & _ & -> & _).
        rewrite !length_app, length_leaves. pose proof (leaf_count_split gp d cs Hbp). lia. }
      rewrite (proj2 (Nat.leb_le _ _) H2). eexists. split; [|split_and!; [exact W|exact B|exact G|]].
      * unfold remove_leaf. rewrite Hpath, Hlast. fold pp. rewrite Hpp. cbn [kind]. by rewrite Hk.
      * cbn [root]. rewrite leaf_count_leaves. exact C.
    + subst p. simpl in Hp. injection Hp as Hroot. rewrite Hroot. simpl.
      unfold remove_leaf. by rewrite Hpath.
  - pose proof (proj1 (lookup_ge_None _ _) Hg) as Hge.
    rewrite (proj2 (Nat.ltb_ge _ _) Hge). simpl. unfold remove_leaf. rewrite leaf_paths_paths_of.
    assert (paths_of (root t) !! i = None) as ->; [|done].
    apply lookup_ge_None. by rewrite length_paths_of.
Qed.

(** A window split twice: three panes, two of them in the right column. *)
Definition example_tree3 : LayoutTree :=
  (split_leaf (split_leaf example_tree 0 LeftRight false).2 1 TopBottom false).2.

Lemma example_tree3_wf : well_formed example_tree3.
Proof.
  split.
  - apply check_spec_lemma; [|vm_compute; reflexivity].
    vm_compute. repeat constructor; discriminate.
  - vm_compute. reflexivity.
  - intros []; vm_compute; reflexivity.
Qed.

Lemma remove_leaf_correct_witness :
  exists t', remove_leaf example_tree3 0 = (true, t') /\ tree_leaf_count t' = 2%nat /\
    rects t' = [mkGeometry 80 12 0 0; mkGeometry 80 11 0 13].
Proof.
  destruct (remove_leaf_correct example_tree3 0 example_tree3_wf eq_refl) as (t' & H1 & _).
  exists t'. split; [exact H1|]. vm_compute in H1. injection H1 as <-. vm_compute. split; reflexivity.
Defined.

(** ** [split_root] *)

(** The size the existing tree is squeezed to. *)
Definition squeezed_size (d : LayoutDirection) (before : bool) (g : LayoutGeometry) : Z :=
  if before then second_size d g else first_size d g.

Lemma split_root_pair_consistent d g a b :
  consistent a -> consistent b ->
  axis_size a (flip d) = geo_axis (flip d) g -> axis_size b (flip d) = geo_axis (flip d) g ->
  axis_size a d + 1 + axis_size b d = geo_axis d g ->
  consistent (split d g [a; b]).
Proof.
  intros Ha Hb Xa Xb Ht. constructor; [done|by rewrite !Forall_cons|by rewrite !Forall_cons|].
  rewrite !total_cons, total_nil. lia.
Qed.

(** The two halves of the window, whatever the existing tree [e] became. *)
Definition split_root_cell (d : LayoutDirection) (before : bool) (g : LayoutGeometry)
    (e : LayoutCell) : LayoutCell :=
  let fresh := pane (if before then first_half d (set_pos LeftRight 0 (set_pos TopBottom 0 g))
                     else set_pos d (first_size d g + 1)
                            (set_axis d (second_size d g)
                               (set_pos LeftRight 0 (set_pos TopBottom 0 g)))) in
  let shift := if before then first_size d g + 1 else 0 in
  let e' := match d with
            | LeftRight => fix_offsets shift 0 e
            | TopBottom => fix_offsets 0 shift e
            end in
  if before then split d g [fresh; e'] else split d g [e'; fresh].

Lemma split_root_eq t d before :
  3 <= geo_axis d (geometry (root t)) < i32_max ->
  let g := geometry (root t) in
  split_root t d before =
  (true, mkTree (fix_offsets 0 0
     (split_root_cell d before g
        (resize_adjust d (squeezed_size d before g - geo_axis d g) (root t)))) None).
Proof.
  intros H3 g. fold g in H3. unfold split_root. change (u32_add (u32_mul PANE_MINIMUM 2) PANE_BORDER_CELLS) with 3.
  fold g. destruct (Z.ltb_spec (geo_axis d g) 3) as [|_]; [lia|].
  destruct (clamped_sizes (geo_axis d g) ltac:(done)) as [E1 E2]. cbv zeta. rewrite E1, E2.
  change ((geo_axis d g - 1) / 2) with (second_size d g).
  change (geo_axis d g - 1 - second_size d g) with (first_size d g).
  pose proof (halves_sizes d g ltac:(lia)) as (S1 & S2 & S3).
  fold (squeezed_size d before g). unfold axis_size. fold g.
  assert (as_i32 (as_i32 (squeezed_size d before g) - as_i32 (geo_axis d g)) =
          squeezed_size d before g - geo_axis d g) as ->.
  { unfold squeezed_size. rewrite (as_i32_small (if before then _ else _)) by (destruct before; machine).
    rewrite (as_i32_small (geo_axis d g)) by machine. apply as_i32_signed. destruct before; machine. }
  unfold split_root_cell, first_half, PANE_BORDER_CELLS. rewrite u32_add_small by machine.
  destruct d, before; done.
Qed.

Lemma split_root_cell_consistent d before g e :
  consistent e -> 3 <= geo_axis d g -> 0 <= geo_axis (flip d) g ->
  axis_size e d = squeezed_size d before g -> axis_size e (flip d) = geo_axis (flip d) g ->
  consistent (split_root_cell d before g e) /\
  leaf_count (split_root_cell d before g e) = S (leaf_count e) /\
  geometry (split_root_cell d before g e) = g.
Proof.
  intros He H3 Hf Ha Hx. pose proof (halves_sizes d g H3) as (S1 & S2 & S3).
  unfold split_root_cell, squeezed_size in *. destruct before.
  - split_and!; [|by destruct d; simpl; rewrite fix_offsets_leaf_count; lia|done].
    apply split_root_pair_consistent.
    + apply consistent_pane; destruct d; unfold first_half, first_size, second_size in *;
        simpl in *; lia.
    + destruct d; by apply fix_offsets_consistent.
    + by destruct d.
    + destruct d; by rewrite fix_offsets_axis.
    + destruct d; rewrite fix_offsets_axis, Ha; unfold axis_size, first_half, first_size, second_size in *;
        simpl in *; lia.
  - split_and!; [|by destruct d; simpl; rewrite fix_offsets_leaf_count; lia|done].
    apply split_root_pair_consistent.
    + destruct d; by apply fix_offsets_consistent.
    + apply consistent_pane; destruct d; unfold first_half, first_size, second_size in *;
        simpl in *; lia.
    + destruct d; by rewrite fix_offsets_axis.
    + by destruct d.
    + destruct d; rewrite fix_offsets_axis, Ha; unfold axis_size, first_half, first_size, second_size in *;
        simpl in *; lia.
Qed.

(** Splitting the whole window: a window too short to be split is left
    alone; otherwise, if the existing tree can shrink to its half, [split_root]
    succeeds with a well-formed tree of the same window size and one leaf
    more. *)
Theorem split_root_correct t d before :
  well_formed t ->
  let g := geometry (root t) in
  geo_axis d g - squeezed_size d before g <= resize_check (root t) d ->
  if geo_axis d g <? 3 then split_root t d before = (false, t)
  else exists t', split_root t d before = (true, t') /\ well_formed t' /\
    geometry (root t') = g /\ tree_leaf_count t' = S (tree_leaf_count t).
Proof.
  intros Hwf g Hsh. pose proof (wf_bounds _ Hwf d) as Hb. unfold axis_size in Hb. fold g in Hb.
  destruct (Z.ltb_spec (geo_axis d g) 3) as [Hlt|H3].
  { unfold split_root. change (u32_add (u32_mul PANE_MINIMUM 2) PANE_BORDER_CELLS) with 3.
    fold g. by rewrite (proj2 (Z.ltb_lt _ _) Hlt). }
  rewrite split_root_eq by done. fold g. eexists. split; [done|].
  pose proof (halves_sizes d g H3) as (S1 & S2 & S3).
  destruct (resize_adjust_adjusted d (squeezed_size d before g - geo_axis d g) (root t))
    as [A1 A2 A3 A4 _ _].
  { split_and!; [apply Hwf|lia|unfold axis_size; fold g; machine|unfold axis_size; fold g].
    unfold squeezed_size. destruct before; machine. }
  unfold axis_size in A3, A4. fold g in A3, A4.
  pose proof (consistent_nonneg _ (wf_consistent _ Hwf) (flip d)) as Hnn.
  destruct (split_root_cell_consistent d before g _ A1 H3 Hnn ltac:(unfold axis_size; lia) A4)
    as (C1 & C2 & C3).
  set (e := resize_adjust _ _ _) in *.
  destruct (positioned_geometry _ _ _ (wf_positioned _ Hwf)) as [Hx Hy]. fold g in Hx, Hy.
  split_and!.
  - split; cbn [root]; [by apply fix_offsets_consistent|apply fix_offsets_positioned|].
    intros d'. rewrite fix_offsets_axis. unfold axis_size. rewrite C3. apply (wf_bounds _ Hwf d').
  - cbn [root]. rewrite fix_offsets_geometry, C3. destruct g; simpl in *; congruence.
  - unfold tree_leaf_count. cbn [root]. rewrite fix_offsets_leaf_count, C2.
    by rewrite (erase_eq_leaf_count (root t)).
Qed.

Lemma split_root_correct_witness :
  exists t', split_root example_tree3 TopBottom true = (true, t') /\ tree_leaf_count t' = 4%nat.
Proof.
  destruct (split_root_correct example_tree3 TopBottom true example_tree3_wf) as (t' & H1 & _ & _ & H2).
  - vm_compute. discriminate.
  - exists t'. split; [exact H1|]. rewrite H2. vm_compute. reflexivity.
Defined.

(** Three one-column panes in a five-column window. *)
Definition crowded_tree : LayoutTree :=
  mkTree (split LeftRight (mkGeometry 5 4 0 0)
    [pane (mkGeometry 1 4 0 0); pane (mkGeometry 1 4 2 0); pane (mkGeometry 1 4 4 0)]) None.

Lemma crowded_tree_wf : well_formed crowded_tree.
Proof.
  split.
  - apply check_spec_lemma; [|vm_compute; reflexivity]. vm_compute. repeat constructor; discriminate.
  - vm_compute. reflexivity.
  - intros []; vm_compute; reflexivity.
Qed.

(** [split_root] only looks at the window: with three one-column panes in
    five columns it reports success although the panes cannot shrink, and the
    tree it leaves fails [check]: the panes of the existing half still span
    five columns inside a cell of two. *)
Theorem split_root_overflows_crowded_window :
  well_formed crowded_tree /\ check (root crowded_tree) = true /\
  exists t', split_root crowded_tree LeftRight false = (true, t') /\ check (root t') = false /\
    rects t' = [mkGeometry 1 4 0 0; mkGeometry 1 4 2 0; mkGeometry 1 4 4 0; mkGeometry 2 4 3 0].
Proof.
  split; [apply crowded_tree_wf|]. split; [reflexivity|].
  eexists. split; [reflexivity|]. split; vm_compute; reflexivity.
Qed.
