(* ===== verification/LayoutResize.v ===== *)
(** * Resizing the window and moving borders

    Correctness of [crates/rmux-core/src/layout/resize.rs]: resizing the whole
    window, and the [resize-pane] family, which moves cells from the children of
    a split that can give some up to the child next to the moved border. *)

From S2P Require Import Prelude Panes LayoutCell LayoutAdjust LayoutOffsets LayoutTree LayoutPaths.
From S2P Require Import LayoutSplit.

(** ** Resizing the window *)

(** What a window axis of size [current] becomes when [target] is asked for. *)
Definition resized_axis (c : LayoutCell) (d : LayoutDirection) (target : Z) : Z :=
  Z.max target (axis_size c d - resize_check c d).

Lemma resize_axis_spec d target t :
  consistent (root t) -> axis_size (root t) d < i32_max -> 0 <= target <= u16_max ->
  let change := as_i32 (target - as_i32 (axis_size (root t) d)) in
  let t' := resize_axis d change t in
  leaf_map t' = leaf_map t /\ consistent (root t') /\ erase (root t') = erase (root t) /\
  axis_size (root t') d = resized_axis (root t) d target /\
  axis_size (root t') (flip d) = axis_size (root t) (flip d) /\
  resize_check (root t') (flip d) = resize_check (root t) (flip d).
Proof.
  intros Hc Hb Ht change. pose proof (consistent_nonneg _ Hc d) as H0.
  pose proof (resize_check_range (root t) d Hc ltac:(machine)) as Hr.
  unfold change. rewrite (as_i32_small (axis_size (root t) d)) by machine.
  rewrite as_i32_signed by machine. unfold resize_axis, resized_axis.
  rewrite as_i32_small by machine. set (a := axis_size (root t) d) in *.
  set (limit := resize_check (root t) d) in *.
  set (ch := if (limit =? 0) && _ then 0 else _).
  assert (ch = Z.max (target - a) (- limit)) as -> by (unfold ch; clear ch; case_Zbool; cbn [andb] in *; lia).
  destruct (Z.eqb_spec (Z.max (target - a) (- limit)) 0) as [E|E].
  { split_and!; try done. unfold a in *; lia. }
  destruct (resize_adjust_adjusted d (Z.max (target - a) (- limit)) (root t)) as [A1 A2 A3 A4 _ A6].
  { fold a limit. split_and!; [done|unfold limit; lia|machine|machine]. }
  cbn [root leaf_map]. split_and!; try done. rewrite A3. fold a. lia.
Qed.

(** Resizing a window: each axis becomes the requested size, or, when the
    panes cannot shrink that far, the smallest size they allow; the tree stays
    well-formed with the same shape and the same pane assignment.  In particular
    growing, or shrinking within what [resize_check] promises, is exact. *)
Theorem resize_window_correct t size :
  well_formed t -> 0 <= cols size <= u16_max -> 0 <= rows size <= u16_max ->
  let t' := resize size t in
  well_formed t' /\ erase (root t') = erase (root t) /\ leaf_map t' = leaf_map t /\
  width (geometry (root t')) = resized_axis (root t) LeftRight (cols size) /\
  height (geometry (root t')) = resized_axis (root t) TopBottom (rows size).
Proof.
  intros Hwf Hco Hro. pose proof (wf_bounds _ Hwf LeftRight) as B1.
  pose proof (wf_bounds _ Hwf TopBottom) as B2.
  destruct (resize_axis_spec LeftRight (cols size) t (wf_consistent _ Hwf) B1 Hco)
    as (M1 & C1 & E1 & A1 & X1 & R1).
  unfold resize. change (width (geometry (root t))) with (axis_size (root t) LeftRight).
  cbv zeta in *. set (t1 := resize_axis LeftRight _ t) in *. simpl flip in *.
  change (height (geometry (root t1))) with (axis_size (root t1) TopBottom).
  destruct (resize_axis_spec TopBottom (rows size) t1 C1 ltac:(lia) Hro)
    as (M2 & C2 & E2 & A2 & X2 & R2).
  cbv zeta in *. set (t2 := resize_axis TopBottom _ t1) in *. simpl flip in *.
  pose proof (resize_check_range (root t) LeftRight (wf_consistent _ Hwf) ltac:(machine)).
  pose proof (resize_check_range (root t1) TopBottom C1 ltac:(machine)).
  cbn [root leaf_map]. split_and!.
  - split; cbn [root]; [by apply fix_offsets_consistent|apply fix_offsets_positioned|].
    intros d. rewrite fix_offsets_axis. unfold resized_axis in *. destruct d; machine.
  - by rewrite fix_offsets_erase, E2.
  - congruence.
  - rewrite fix_offsets_geometry. cbn [width]. unfold axis_size in *. cbn [geo_axis] in *. congruence.
  - rewrite fix_offsets_geometry. cbn [height]. unfold resized_axis in *. rewrite X1, R1 in A2.
    unfold axis_size in *. cbn [geo_axis] in *. congruence.
Qed.

Lemma resize_window_correct_witness :
  well_formed (resize (mkTerminalSize 2 50) (mkTree example_cell None)) /\
  geometry (root (resize (mkTerminalSize 2 50) (mkTree example_cell None))) = mkGeometry 3 50 0 0.
Proof.
  destruct (resize_window_correct (mkTree example_cell None) (mkTerminalSize 2 50)) as (H & _).
  - split; [apply example_cell_consistent|reflexivity|intros []; vm_compute; reflexivity].
  - vm_compute. split; discriminate.
  - vm_compute. split; discriminate.
  - split; [exact H|]. vm_compute. reflexivity.
Defined.

(** ** Finding the child that gives cells up *)

Lemma shrinkable_app d l1 l2 : shrinkable d (l1 ++ l2) = shrinkable d l1 + shrinkable d l2.
Proof. unfold shrinkable. by rewrite map_app, sumZ_app. Qed.

Lemma shrinkable_alter d f i cs c :
  cs !! i = Some c ->
  shrinkable d (alter f i cs) = shrinkable d cs + (resize_check (f c) d - resize_check c d).
Proof. intros Hi. unfold shrinkable. by rewrite (sumZ_alter _ _ _ _ c). Qed.

(** The result of a search among [cs], whose first index is [k]: a child with
    slack, or nothing when there is none. *)
Definition found_in (d : LayoutDirection) (k : nat) (cs : list LayoutCell)
    (r : option (nat * Z)) : Prop :=
  match r with
  | Some (j, a) => exists h c, j = (k + h)%nat /\ cs !! h = Some c /\ a = resize_check c d /\ 0 < a
  | None => Forall (fun c => resize_check c d <= 0) cs
  end.

Lemma first_shrinkable_found d k cs : found_in d k cs (first_shrinkable d k cs).
Proof.
  revert k. induction cs as [|c cs IH]; intros k; [constructor|]. simpl.
  destruct (Z.ltb_spec 0 (resize_check c d)).
  - exists 0%nat, c. split_and!; [lia|done..].
  - specialize (IH (S k)). destruct (first_shrinkable d (S k) cs) as [[j a]|]; [|by constructor].
    destruct IH as (h & c' & -> & ? & ? & ?). exists (S h), c'. split_and!; [lia|done..].
Qed.

Lemma last_shrinkable_found d k cs : found_in d k cs (last_shrinkable d k cs).
Proof.
  revert k. induction cs as [|c cs IH]; intros k; [constructor|]. simpl. specialize (IH (S k)).
  destruct (last_shrinkable d (S k) cs) as [[j a]|].
  - destruct IH as (h & c' & -> & ? & ? & ?). exists (S h), c'. split_and!; [lia|done..].
  - destruct (Z.ltb_spec 0 (resize_check c d)); [|by constructor].
    exists 0%nat, c. split_and!; [lia|done..].
Qed.

(** ** Moving cells between two children *)

(** [cs'] is [cs] after child [add] got [s] cells from its siblings. *)
Record transferred (g : LayoutGeometry) (d : LayoutDirection) (add : nat) (s : Z)
    (cs cs' : list LayoutCell) : Prop := {
  tr_consistent : consistent (mkCell g (Split d cs'));
  tr_shape : map erase cs' = map erase cs;
  tr_grown : forall c, cs !! add = Some c ->
    exists c', cs' !! add = Some c' /\ axis_size c' d = axis_size c d + s;
  tr_others : forall j c, j <> add -> cs !! j = Some c ->
    exists c', cs' !! j = Some c' /\ axis_size c' d <= axis_size c d;
}.

Lemma transferred_refl g d add cs :
  consistent (mkCell g (Split d cs)) -> transferred g d add 0 cs cs.
Proof. intros H. split; [done..| |]; intros; eexists; split; done || lia. Qed.

Lemma transferred_trans g d add s1 s2 cs1 cs2 cs3 :
  transferred g d add s1 cs1 cs2 -> transferred g d add s2 cs2 cs3 ->
  transferred g d add (s1 + s2) cs1 cs3.
Proof.
  intros [A1 A2 A3 A4] [B1 B2 B3 B4]. split; [done|congruence|..].
  - intros c Hc. destruct (A3 c Hc) as (c' & H1 & H2). destruct (B3 c' H1) as (c'' & H3 & H4).
    exists c''. split; [done|lia].
  - intros j c Hj Hc. destruct (A4 j c Hj Hc) as (c' & H1 & H2).
    destruct (B4 j c' Hj H1) as (c'' & H3 & H4). exists c''. split; [done|lia].
Qed.

Section Transfer.
Context (g : LayoutGeometry) (d : LayoutDirection) (cs : list LayoutCell).
Context (Hcs : consistent (mkCell g (Split d cs))) (Hb : geo_axis d g < i32_max).

(** What the section's cells promise. *)
Lemma child_slack i c :
  cs !! i = Some c -> consistent c /\ 0 <= resize_check c d <= axis_size c d /\ axis_size c d < i32_max.
Proof.
  intros Hi. assert (c ∈ cs) as Hin by (by eapply list_elem_of_lookup_2).
  pose proof Hcs as (_ & Hall & _)%consistent_children. rewrite Forall_forall in Hall.
  pose proof (consistent_child_le _ _ _ c d Hcs Hin).
  split_and!; [auto|apply resize_check_range; [auto|machine]..|lia].
Qed.

Lemma slack_nonneg : Forall (fun c => 0 <= resize_check c d) cs.
Proof.
  apply Forall_forall. intros c [i Hi]%list_elem_of_lookup_1.
  destruct (child_slack i c Hi) as (_ & [? _] & _). done.
Qed.

Context (add rem : nat) (a r : LayoutCell) (s : Z).
Context (Hne : add <> rem) (Ha : cs !! add = Some a) (Hr : cs !! rem = Some r).
Context (Hs : 0 < s <= resize_check r d).

Let cs' := resize_children cs add rem d s.

Lemma resize_children_eq :
  cs' = alter (resize_adjust d (- s)) rem (alter (resize_adjust d s) add cs).
Proof.
  unfold cs', resize_children. rewrite (proj2 (Nat.eqb_neq _ _) Hne), (proj2 (Z.eqb_neq s 0)) by lia.
  destruct (child_slack rem r Hr) as (_ & ? & ?). by rewrite as_i32_small by machine.
Qed.

Lemma transfer_adjusted :
  adjusted d s a (resize_adjust d s a) /\ adjusted d (- s) r (resize_adjust d (- s) r).
Proof.
  destruct (child_slack add a Ha) as (Hca & ? & ?). destruct (child_slack rem r Hr) as (Hcr & ? & ?).
  split; apply resize_adjust_adjusted; split_and!; try done; machine.
Qed.

Lemma resize_children_transferred : transferred g d add s cs cs'.
Proof.
  rewrite resize_children_eq. destruct transfer_adjusted as [[A1 A2 A3 A4 _ _] [R1 R2 R3 R4 _ _]].
  pose proof Hcs as (Hnil & Hall & Hcross & Htot)%consistent_children.
  set (cs1 := alter _ add cs).
  assert (cs1 !! rem = Some r) as Hr1 by (unfold cs1; by rewrite list_lookup_alter_ne).
  split.
  - constructor.
    + intros E. apply (f_equal length) in E. unfold cs1 in E. rewrite !length_alter in E. by destruct cs.
    + apply Forall_alter; [apply Forall_alter; [done|]|]; intros c Hc _; by simplify_eq.
    + eapply Forall_axis_alter; [exact Hr1|done|]. by eapply Forall_axis_alter.
    + rewrite (total_alter _ _ _ _ r), R3 by done. unfold cs1.
      rewrite (total_alter _ _ _ _ a), A3 by done. lia.
  - unfold cs1. apply list_eq. intros j. rewrite !list_lookup_fmap.
    destruct (decide (j = rem)) as [->|Hj].
    + rewrite list_lookup_alter_eq, list_lookup_alter_ne, Hr by done. simpl. by rewrite R2.
    + rewrite (list_lookup_alter_ne _ _ rem) by done.
      destruct (decide (j = add)) as [->|Hj2]; [|by rewrite list_lookup_alter_ne].
      rewrite list_lookup_alter_eq, Ha. simpl. by rewrite A2.
  - intros c Hc. assert (c = a) as -> by congruence. exists (resize_adjust d s a). split; [|done].
    unfold cs1. by rewrite list_lookup_alter_ne, list_lookup_alter_eq, Ha.
  - intros j c Hj Hc. destruct (decide (j = rem)) as [->|Hj2].
    + assert (c = r) as -> by congruence. exists (resize_adjust d (- s) r). split; [|lia].
      by rewrite list_lookup_alter_eq, Hr1.
    + exists c. split; [|lia]. unfold cs1. by rewrite !list_lookup_alter_ne.
Qed.

(** The slack of a segment of the children, which does not hold [add]. *)
Lemma transfer_slack_take n :
  (n <= add)%nat ->
  shrinkable d (take n cs') = shrinkable d (take n cs) - (if decide (rem < n)%nat then s else 0).
Proof.
  intros Hn. rewrite resize_children_eq. destruct transfer_adjusted as [_ [_ _ _ _ R5 _]].
  rewrite !take_alter. rewrite (decide_False (P := (add < n)%nat)) by lia.
  destruct (decide (rem < n)%nat); [|lia].
  rewrite (shrinkable_alter _ _ _ _ r), R5 by (rewrite ?lookup_take_lt by lia; done || lia). lia.
Qed.

Lemma transfer_slack_drop n :
  (add < n)%nat ->
  shrinkable d (drop n cs') = shrinkable d (drop n cs) - (if decide (n <= rem)%nat then s else 0).
Proof.
  intros Hn. rewrite resize_children_eq. destruct transfer_adjusted as [_ [_ _ _ _ R5 _]].
  rewrite !drop_alter. rewrite (decide_False (P := (n <= add)%nat)) by lia.
  destruct (decide (n <= rem)%nat); [|lia].
  rewrite (shrinkable_alter _ _ _ _ r), R5; [lia|lia|].
  rewrite lookup_drop. by replace (n + (rem - n))%nat with rem by lia.
Qed.
End Transfer.

(** ** One round of the loop *)

(** The child a change of the handle's sign makes larger. *)
Definition receiver (i : nat) (change : Z) : nat := if 0 <? change then i else (i + 1)%nat.

(** How many cells the siblings can give the receiver. *)
Definition capacity (d : LayoutDirection) (i : nat) (change : Z) (opposite : bool)
    (cs : list LayoutCell) : Z :=
  if 0 <? change then
    shrinkable d (drop (i + 1) cs) + (if opposite then shrinkable d (take i cs) else 0)
  else shrinkable d (take (i + 1) cs).

Definition resize_round (d : LayoutDirection) (i : nat) (change : Z) (opposite : bool) (needed : Z)
    (cs : list LayoutCell) : Z * list LayoutCell :=
  if 0 <? change then grow_in_parent cs i d needed opposite
  else shrink_in_parent cs i d (- needed).

(** The outcome of a round that may move up to [n] cells. *)
Definition round_ok (g : LayoutGeometry) (d : LayoutDirection) (i : nat) (change : Z)
    (opposite : bool) (n : Z) (cs : list LayoutCell) (out : Z * list LayoutCell) : Prop :=
  let '(s, cs') := out in
  transferred g d (receiver i change) s cs cs' /\ 0 <= s <= n /\
  capacity d i change opposite cs' = capacity d i change opposite cs - s /\
  (s = 0 -> cs' = cs /\ capacity d i change opposite cs = 0).

Lemma shrinkable_none d cs :
  Forall (fun c => 0 <= resize_check c d) cs -> Forall (fun c => resize_check c d <= 0) cs ->
  shrinkable d cs = 0.
Proof.
  induction 1 as [|c cs Hc Hcs IH]; intros Hz; [done|]. apply Forall_cons in Hz as [Hz1 Hz2].
  rewrite shrinkable_cons, IH by done. lia.
Qed.

Lemma shrinkable_nonneg d cs : Forall (fun c => 0 <= resize_check c d) cs -> 0 <= shrinkable d cs.
Proof. induction 1; [done|]. rewrite shrinkable_cons. lia. Qed.

Section Round.
Context (g : LayoutGeometry) (d : LayoutDirection) (cs : list LayoutCell) (i : nat).
Context (Hcs : consistent (mkCell g (Split d cs))) (Hb : geo_axis d g < i32_max).
Context (change : Z) (opposite : bool) (n : Z).
Context (Hi : (i + 1 < length cs)%nat) (Hn : 0 < n).

(** A round that found child [rem]. *)
Lemma round_transfer rem r :
  receiver i change <> rem -> cs !! rem = Some r -> 0 < resize_check r d ->
  (if 0 <? change then (i + 1 <= rem)%nat \/ (opposite = true /\ (rem < i)%nat)
   else (rem < i + 1)%nat) ->
  round_ok g d i change opposite n cs
    (Z.min (resize_check r d) n,
     resize_children cs (receiver i change) rem d (Z.min (resize_check r d) n)).
Proof.
  intros Hne Hr Hpos Hside. set (s := Z.min (resize_check r d) n).
  destruct (lookup_lt_is_Some_2 cs (receiver i change)) as [a Ha];
    [unfold receiver; destruct (0 <? change); lia|].
  assert (0 < s <= resize_check r d) as Hs by lia.
  split_and!; [by eapply resize_children_transferred|lia|lia| |lia].
  unfold capacity, receiver in *. destruct (0 <? change).
  - rewrite (transfer_slack_drop g d cs Hcs Hb i rem a r s) by (done || lia).
    rewrite (transfer_slack_take g d cs Hcs Hb i rem a r s) by (done || lia).
    destruct (decide (i + 1 <= rem)%nat), (decide (rem < i)%nat), opposite;
      destruct Hside as [|[??]]; try done; lia.
  - rewrite (transfer_slack_take g d cs Hcs Hb (i + 1) rem a r s) by (done || lia).
    destruct (decide (rem < i + 1)%nat); lia.
Qed.

(** A round that found nothing. *)
Lemma round_none :
  capacity d i change opposite cs = 0 -> round_ok g d i change opposite n cs (0, cs).
Proof. intros H. split_and!; [by apply transferred_refl|lia..|done]. Qed.

Lemma resize_round_ok needed :
  n = (if 0 <? change then needed else - needed) ->
  round_ok g d i change opposite n cs (resize_round d i change opposite needed cs).
Proof.
  intros En. pose proof (slack_nonneg g d cs Hcs Hb) as Hnn.
  pose proof round_transfer as Htr. pose proof round_none as Hno.
  unfold resize_round, receiver, capacity in *. destruct (0 <? change) eqn:Hsign.
  - subst n. unfold grow_in_parent.
    pose proof (first_shrinkable_found d (i + 1) (drop (i + 1) cs)) as Hf.
    destruct (first_shrinkable d (i + 1) _) as [[j a]|]; simpl in Hf.
    { destruct Hf as (h & r & -> & Hr & -> & Hpos). rewrite lookup_drop in Hr.
      apply Htr; [lia|done|done|left; lia]. }
    apply shrinkable_none in Hf; [|by apply Forall_drop]. destruct opposite; [|apply Hno; lia].
    pose proof (last_shrinkable_found d 0 (take i cs)) as Hl.
    destruct (last_shrinkable d 0 _) as [[j a]|]; simpl in Hl.
    { destruct Hl as (h & r & -> & Hr & -> & Hpos).
      apply lookup_take_Some in Hr as [Hr Hlt]. apply Htr; [lia|done|done|right; lia]. }
    apply shrinkable_none in Hl; [|by apply Forall_take]. apply Hno. lia.
  - subst n. unfold shrink_in_parent.
    pose proof (last_shrinkable_found d 0 (take (i + 1) cs)) as Hl.
    destruct (last_shrinkable d 0 _) as [[j a]|]; simpl in Hl.
    { destruct Hl as (h & r & -> & Hr & -> & Hpos).
      apply lookup_take_Some in Hr as [Hr Hlt]. apply Htr; [lia|done|done|lia]. }
    apply shrinkable_none in Hl; [|by apply Forall_take]. apply Hno. lia.
Qed.

Lemma capacity_nonneg : 0 <= capacity d i change opposite cs.
Proof.
  pose proof (slack_nonneg g d cs Hcs Hb) as Hnn. unfold capacity.
  pose proof (shrinkable_nonneg d _ (Forall_drop _ (i + 1) _ Hnn)).
  pose proof (shrinkable_nonneg d _ (Forall_take _ (i + 1) _ Hnn)).
  pose proof (shrinkable_nonneg d _ (Forall_take _ i _ Hnn)).
  destruct (0 <? change), opposite; lia.
Qed.
End Round.

(** ** The loop *)

Lemma list_alter_alter {A} (f h : A -> A) i (l : list A) :
  alter f i (alter h i l) = alter (fun a => f (h a)) i l.
Proof. revert i. induction l as [|a l IH]; intros [|i]; simpl; [done..|]. f_equal. apply IH. Qed.

Lemma list_alter_same {A} (f : A -> A) i (l : list A) :
  (forall a, l !! i = Some a -> f a = a) -> alter f i l = l.
Proof. intros H. rewrite (list_alter_ext f id l l i H eq_refl). by apply list_alter_id. Qed.

Lemma update_at_path_twice p f h c :
  update_at_path p f (update_at_path p h c) = update_at_path p (fun q => f (h q)) c.
Proof.
  revert c. induction p as [|k p IH]; intros c; [done|]. simpl.
  destruct c as [g [|d cs]]; [done|]. cbn [kind geometry]. do 2 f_equal.
  rewrite list_alter_alter. apply list_alter_ext; [|done]. intros. apply IH.
Qed.

Lemma update_at_path_id p f c cell :
  cell_at_path c p = Some cell -> f cell = cell -> update_at_path p f c = c.
Proof.
  revert c. induction p as [|k p IH]; intros c Hp Hf; simplify_eq/=; [done|].
  destruct c as [g [|d cs]]; [done|]. cbn [kind geometry] in *.
  apply bind_Some in Hp as (child & Hch & Hp). do 2 f_equal.
  apply list_alter_same. intros x Hx. simplify_eq. by apply IH.
Qed.

Lemma cell_at_path_update p f c cell :
  cell_at_path c p = Some cell -> cell_at_path (update_at_path p f c) p = Some (f cell).
Proof.
  revert c. induction p as [|k p IH]; intros c Hp; simplify_eq/=; [done|].
  destruct c as [g [|d cs]]; [done|]. cbn [kind geometry] in *.
  apply bind_Some in Hp as (child & Hch & Hp). rewrite list_lookup_alter_eq, Hch. simpl. by apply IH.
Qed.

(** Replace the children of the split at [p]. *)
Definition with_children (t : LayoutTree) (p : list nat) (d : LayoutDirection)
    (cs : list LayoutCell) : LayoutTree :=
  mkTree (update_at_path p (fun q => mkCell (geometry q) (Split d cs)) (root t)) (leaf_map t).

Lemma with_children_twice t p d cs cs' :
  with_children (with_children t p d cs) p d cs' = with_children t p d cs'.
Proof. unfold with_children. cbn [root leaf_map]. by rewrite update_at_path_twice. Qed.

Lemma with_children_id t p g d cs :
  cell_at_path (root t) p = Some (mkCell g (Split d cs)) -> with_children t p d cs = t.
Proof.
  intros Hp. unfold with_children. rewrite (update_at_path_id _ _ _ _ Hp) by done. by destruct t.
Qed.

Lemma with_children_at t p g d cs cs' :
  cell_at_path (root t) p = Some (mkCell g (Split d cs)) ->
  cell_at_path (root (with_children t p d cs')) p = Some (mkCell g (Split d cs')).
Proof. intros Hp. by apply (cell_at_path_update _ (fun q => mkCell (geometry q) (Split d cs'))) in Hp. Qed.

Lemma resize_at_eq t p d limit step g cs :
  cell_at_path (root t) p = Some (mkCell g (Split d cs)) -> (limit < length cs)%nat ->
  resize_at t p d limit step = ((step cs).1, with_children t p d (step cs).2).
Proof.
  intros Hp Hl. unfold resize_at. rewrite Hp, decide_True by done.
  rewrite (proj2 (Nat.leb_gt _ _) Hl). by destruct (step cs).
Qed.

Lemma transferred_bound g d add s cs cs' a :
  transferred g d add s cs cs' -> consistent (mkCell g (Split d cs)) -> cs !! add = Some a ->
  s <= geo_axis d g.
Proof.
  intros [T1 _ T3 _] Hc Ha. destruct (T3 a Ha) as (a' & Ha' & E).
  pose proof (consistent_child_le _ _ _ a' d T1 ltac:(by eapply list_elem_of_lookup_2)).
  apply consistent_children in Hc as (_ & Hcs & _). rewrite Forall_forall in Hcs.
  pose proof (consistent_nonneg a (Hcs a ltac:(by eapply list_elem_of_lookup_2)) d). lia.
Qed.

Lemma resize_layout_loop_spec fuel t p g d cs i change needed opposite changed :
  cell_at_path (root t) p = Some (mkCell g (Split d cs)) ->
  consistent (mkCell g (Split d cs)) -> geo_axis d g < i32_max -> (i + 1 < length cs)%nat ->
  let n := if 0 <? change then needed else - needed in
  0 <= n -> (Z.to_nat n < fuel)%nat ->
  exists cs',
    transferred g d (receiver i change) (Z.min n (capacity d i change opposite cs)) cs cs' /\
    (Z.min n (capacity d i change opposite cs) = 0 -> cs' = cs) /\
    resize_layout_loop fuel t p i d change needed opposite changed =
    (changed || (0 <? Z.min n (capacity d i change opposite cs)), with_children t p d cs').
Proof.
  intros Hp Hc Hb Hi. revert t cs needed changed Hp Hc Hi.
  induction fuel as [|fuel IH]; intros t cs needed changed Hp Hc Hi n Hn Hf; [lia|].
  pose proof (capacity_nonneg g d cs i Hc Hb change opposite Hi) as Hcap. simpl.
  destruct (Z.eqb_spec needed 0) as [E|Hne].
  { assert (n = 0) as En by (unfold n; destruct (0 <? change); lia). rewrite En.
    exists cs. rewrite (Z.min_l 0) by done. rewrite orb_false_r, (with_children_id _ _ _ _ _ Hp).
    split; [by apply transferred_refl|done]. }
  assert (0 < n) as Hpos by (unfold n in *; destruct (0 <? change); lia).
  pose proof (resize_round_ok g d cs i Hc Hb change opposite n Hi Hpos needed eq_refl) as Hround.
  set (e := if 0 <? change then resize_pane_grow _ _ _ _ _ _ else _).
  assert (e = ((resize_round d i change opposite needed cs).1,
               with_children t p d (resize_round d i change opposite needed cs).2)) as ->.
  { unfold e, resize_round, resize_pane_grow, resize_pane_shrink.
    destruct (0 <? change); by rewrite (resize_at_eq _ _ _ _ _ _ _ Hp) by lia. }
  destruct (resize_round d i change opposite needed cs) as [s cs1].
  destruct Hround as (T & Hs & Hcap1 & H0). cbn [fst snd].
  destruct (Z.eqb_spec s 0) as [->|Hs0].
  { destruct (H0 eq_refl) as [-> E]. exists cs. rewrite E, Z.min_r, orb_false_r by lia.
    split; [by apply transferred_refl|done]. }
  destruct (lookup_lt_is_Some_2 cs (receiver i change)) as [a Ha];
    [unfold receiver; destruct (0 <? change); lia|].
  pose proof (transferred_bound _ _ _ _ _ _ _ T Hc Ha) as Hsb. rewrite as_i32_small by machine.
  assert (length cs1 = length cs) as Hlen.
  { pose proof (tr_shape _ _ _ _ _ _ T) as E. apply (f_equal length) in E. by rewrite !length_map in E. }
  destruct (IH (with_children t p d cs1) cs1 (if 0 <? change then needed - s else needed + s) true)
    as (cs2 & T2 & _ & R); [by eapply with_children_at|apply T|lia| | |].
  { unfold n in *. destruct (0 <? change); lia. }
  { unfold n in *. destruct (0 <? change); lia. }
  replace (if 0 <? change then if 0 <? change then needed - s else needed + s
           else - (if 0 <? change then needed - s else needed + s)) with (n - s) in T2, R
    by (unfold n; destruct (0 <? change); lia).
  exists cs2. rewrite R, with_children_twice. rewrite Hcap1 in T2.
  pose proof (capacity_nonneg g d cs1 i (tr_consistent _ _ _ _ _ _ T) Hb change opposite ltac:(lia)) as Hcap2.
  split_and!; [|lia|].
  - pose proof (transferred_trans _ _ _ _ _ _ _ _ T T2) as TT.
    by replace (s + _) with (Z.min n (capacity d i change opposite cs)) in TT by lia.
  - f_equal. simpl. symmetry. apply orb_true_iff. right. apply Z.ltb_lt. lia.
Qed.

(** ** What a pane resize leaves behind *)

Lemma map_erase_alter cs k child f :
  cs !! k = Some child -> erase (f child) = erase child -> map erase (alter f k cs) = map erase cs.
Proof.
  intros Hk Hf. apply list_eq. intros j. rewrite !list_lookup_fmap.
  destruct (decide (j = k)) as [->|Hj]; [|by rewrite list_lookup_alter_ne].
  rewrite list_lookup_alter_eq, Hk. simpl. by rewrite Hf.
Qed.

Lemma update_at_path_erase p f c cell :
  cell_at_path c p = Some cell -> erase (f cell) = erase cell ->
  erase (update_at_path p f c) = erase c.
Proof.
  revert c. induction p as [|k p IH]; intros c Hp Hf; simplify_eq/=; [done|].
  destruct c as [g [|d cs]]; [done|]. cbn [kind] in *.
  apply bind_Some in Hp as (child & Hch & Hp). simpl. do 2 f_equal.
  eapply map_erase_alter; [exact Hch|]. by apply IH.
Qed.

Lemma length_fix_children_offsets d x y k cs :
  length (fix_children_offsets fix_offsets d x y k cs) = length cs.
Proof.
  revert k. induction cs as [|c cs IH]; intros k; [done|]. rewrite fix_children_offsets_cons.
  simpl. by rewrite IH.
Qed.

(** [fix_offsets] moves the cell at a path but keeps its sizes. *)
Lemma fix_children_offsets_lookup d x y k cs j c :
  cs !! j = Some c ->
  exists x' y', fix_children_offsets fix_offsets d x y k cs !! j = Some (fix_offsets x' y' c).
Proof.
  revert k j. induction cs as [|c0 cs IH]; intros k j Hj; [done|].
  rewrite fix_children_offsets_cons. destruct j as [|j]; simplify_eq/=; [eauto|]. by apply IH.
Qed.

Lemma cell_at_path_fix_offsets c p cell x y :
  cell_at_path c p = Some cell ->
  exists x' y', cell_at_path (fix_offsets x y c) p = Some (fix_offsets x' y' cell).
Proof.
  revert c x y. induction p as [|k p IH]; intros c x y Hp; simplify_eq/=; [eauto|].
  destruct c as [g [|d cs]]; [done|]. cbn [kind fix_offsets geometry] in *.
  apply bind_Some in Hp as (child & Hch & Hp).
  destruct (fix_children_offsets_lookup d x y 0 cs k child Hch) as (x' & y' & ->).
  simpl. by apply IH.
Qed.

(** The size of the cell at a path, if there is one. *)
Definition axis_at (t : LayoutTree) (p : list nat) (d : LayoutDirection) : option Z :=
  (fun c => axis_size c d) <$> cell_at_path (root t) p.

Lemma axis_at_fixed t p d cs j :
  cell_at_path (root t) p <> None ->
  axis_at (mkTree (fix_offsets 0 0 (root (with_children t p d cs))) (leaf_map t)) (p ++ [j]) d =
  (fun c => axis_size c d) <$> cs !! j.
Proof.
  intros Hp. destruct (cell_at_path (root t) p) as [cell|] eqn:Hcell; [|done]. clear Hp.
  apply (cell_at_path_update p (fun q => mkCell (geometry q) (Split d cs))) in Hcell.
  unfold axis_at, with_children. cbn [root].
  destruct (cell_at_path_fix_offsets _ _ _ 0 0 Hcell) as (x' & y' & Hfix).
  rewrite (cell_at_path_app _ _ [j] _ Hfix). cbn [cell_at_path fix_offsets kind geometry].
  destruct (cs !! j) as [c|] eqn:Hj.
  - destruct (fix_children_offsets_lookup d x' y' 0 cs j c Hj) as (? & ? & ->). simpl.
    by rewrite fix_offsets_axis.
  - assert (fix_children_offsets fix_offsets d x' y' 0 cs !! j = None) as ->; [|done].
    apply lookup_ge_None. rewrite length_fix_children_offsets. by apply lookup_ge_None.
Qed.

(** A tree with the same window, shape and pane assignment. *)
Record rearranged (t t' : LayoutTree) : Prop := {
  ra_wf : well_formed t';
  ra_window : geometry (root t') = geometry (root t);
  ra_shape : erase (root t') = erase (root t);
  ra_map : leaf_map t' = leaf_map t;
}.

Lemma rearranged_refl t : well_formed t -> rearranged t t.
Proof. by split. Qed.

Lemma with_children_rearranged t p g d add s cs cs' :
  well_formed t -> cell_at_path (root t) p = Some (mkCell g (Split d cs)) ->
  transferred g d add s cs cs' ->
  rearranged t (mkTree (fix_offsets 0 0 (root (with_children t p d cs'))) (leaf_map t)).
Proof.
  intros Hwf Hp [T1 T2 _ _]. unfold with_children. cbn [root].
  destruct (update_at_path_consistent (root t) p (fun q => mkCell (geometry q) (Split d cs')) _
    (wf_consistent _ Hwf) Hp T1 ltac:(done)) as [U1 U2].
  split; cbn [root]; [|..|done].
  - split; cbn [root]; [by apply fix_offsets_consistent|apply fix_offsets_positioned|].
    intros d'. rewrite fix_offsets_axis, U2. apply Hwf.
  - rewrite fix_offsets_geometry. pose proof (U2 LeftRight) as V1. pose proof (U2 TopBottom) as V2.
    destruct (positioned_geometry _ _ _ (wf_positioned _ Hwf)) as [Hx Hy]. unfold axis_size in *.
    cbn [geo_axis] in *. rewrite V1, V2. by destruct (geometry (root t)); simpl in *; subst.
  - rewrite fix_offsets_erase. eapply update_at_path_erase; [exact Hp|]. simpl. by rewrite T2.
Qed.

Lemma resize_layout_spec t p g d cs i change opposite :
  well_formed t -> cell_at_path (root t) p = Some (mkCell g (Split d cs)) -> (i + 1 < length cs)%nat ->
  let moved := Z.min (Z.abs change) (capacity d i change opposite cs) in
  exists t', resize_layout t p i d change opposite = (0 <? moved, t') /\ rearranged t t' /\
    (moved = 0 -> t' = t) /\
    (forall j c, cs !! j = Some c -> exists s, axis_at t' (p ++ [j]) d = Some s /\
       if decide (j = receiver i change) then s = axis_size c d + moved else s <= axis_size c d).
Proof.
  intros Hwf Hp Hi moved. destruct (wf_cell t p _ Hwf Hp) as (Hc & _ & Hbox). cbn [geometry] in Hbox.
  assert (geo_axis d g < i32_max) as Hb by (specialize (Hbox d); lia).
  assert ((if 0 <? change then change else - change) = Z.abs change) as En by (case_Zbool; lia).
  destruct (resize_layout_loop_spec (S (Z.abs_nat change)) t p g d cs i change change opposite false
    Hp Hc Hb Hi) as (cs' & T & T0 & R); [lia|lia|]. rewrite En in *. fold moved in T, T0, R.
  pose proof (capacity_nonneg g d cs i Hc Hb change opposite Hi) as Hcap.
  unfold resize_layout. rewrite R. cbn [orb]. destruct (Z.ltb_spec 0 moved) as [Hm|Hm].
  - eexists. split; [done|]. change (leaf_map (with_children t p d cs')) with (leaf_map t).
    split_and!; [by eapply with_children_rearranged|lia|]. intros j c Hj.
    rewrite axis_at_fixed by (by rewrite Hp). destruct (decide (j = receiver i change)) as [->|Hne].
    + destruct (tr_grown _ _ _ _ _ _ T c Hj) as (c' & -> & <-). by eexists.
    + destruct (tr_others _ _ _ _ _ _ T j c Hne Hj) as (c' & -> & Hle). by eexists.
  - assert (moved = 0) as Hz by lia. rewrite (T0 Hz), (with_children_id _ _ _ _ _ Hp), Hz.
    exists t. split_and!; [done|by apply rearranged_refl|done|]. intros j c Hj.
    exists (axis_size c d). split; [|case_decide; lia]. unfold axis_at.
    rewrite (cell_at_path_app _ _ _ _ Hp). simpl. by rewrite Hj.
Qed.

(** The part of it every caller relies on. *)
Lemma resize_layout_safe t p g d cs i change opposite b t' :
  well_formed t -> cell_at_path (root t) p = Some (mkCell g (Split d cs)) -> (i + 1 < length cs)%nat ->
  resize_layout t p i d change opposite = (b, t') -> rearranged t t' /\ (b = false -> t' = t).
Proof.
  intros Hwf Hp Hi Heq.
  destruct (resize_layout_spec t p g d cs i change opposite Hwf Hp Hi) as (t'' & E & Hra & H0 & _).
  rewrite E in Heq. injection Heq as <- <-. split; [done|]. intros Hm%Z.ltb_ge. apply H0.
  destruct (wf_cell t _ _ Hwf Hp) as (Hc & _ & Hbox). cbn [geometry] in Hbox.
  pose proof (capacity_nonneg g d cs i Hc ltac:(specialize (Hbox d); lia) change opposite Hi). lia.
Qed.

(** ** From a pane to the border it moves *)

Lemma reverse_snoc_path (k : nat) rest : reverse (k :: rest) = reverse rest ++ [k].
Proof. apply reverse_cons. Qed.

(** The handle found for a pane is a border between two children of a split in
    the wanted direction. *)
Lemma find_resize_handle_loop_spec t rpath d p i :
  is_Some (cell_at_path (root t) (reverse rpath)) ->
  find_resize_handle_loop t rpath d = Some (p, i) ->
  exists g cs, cell_at_path (root t) p = Some (mkCell g (Split d cs)) /\ (i + 1 < length cs)%nat.
Proof.
  induction rpath as [|k rest IH]; intros [cell Hcell] Hf; [done|].
  rewrite reverse_snoc_path in Hcell.
  destruct (cell_at_path_snoc _ _ _ _ Hcell) as (g & d' & cs & Hp & Hk). cbn in Hf. rewrite Hp in Hf.
  simpl in Hf. pose proof (lookup_lt_Some _ _ _ Hk) as Hlt.
  destruct (decide (d' = d)) as [->|Hd]; [|by apply IH; [rewrite Hp|]].
  destruct (Nat.eqb_spec (k + 1) (length cs)) as [He|He].
  - destruct (Nat.eqb_spec k 0) as [->|Hk0]; [by apply IH; [rewrite Hp|]|].
    simplify_eq. exists g, cs. split; [done|lia].
  - simplify_eq. exists g, cs. split; [done|lia].
Qed.

Lemma leaf_path_valid t leaf path :
  leaf_paths t !! leaf = Some path -> is_Some (cell_at_path (root t) (reverse (reverse path))).
Proof.
  intros Hl. rewrite reverse_involutive. by destruct (leaf_path_spec t leaf path Hl) as (g & -> & _).
Qed.

Lemma resize_leaf_to_loop_spec t rpath d new_size b t' :
  well_formed t -> is_Some (cell_at_path (root t) (reverse rpath)) ->
  resize_leaf_to_loop t rpath d new_size = (b, t') ->
  rearranged t t' /\ (b = false -> t' = t).
Proof.
  intros Hwf. induction rpath as [|k rest IH]; intros [cell Hcell] Hr.
  { injection Hr as <- <-. split; [by apply rearranged_refl|done]. }
  rewrite reverse_snoc_path in Hcell.
  destruct (cell_at_path_snoc _ _ _ _ Hcell) as (g & d' & cs & Hp & Hk). cbn in Hr. rewrite Hp in Hr.
  destruct (decide (d' = d)) as [->|Hd]; [|by apply IH; [rewrite Hp|]]. rewrite Hk in Hr.
  pose proof (lookup_lt_Some _ _ _ Hk) as Hlt.
  destruct (Nat.eqb_spec (k + 1) (length cs)) as [He|He];
    [|eapply resize_layout_safe; [done|exact Hp| |exact Hr]; lia].
  destruct (Nat.eqb_spec k 0) as [->|Hk0];
    [|eapply resize_layout_safe; [done|exact Hp| |exact Hr]; lia].
  injection Hr as <- <-. split; [by apply rearranged_refl|done].
Qed.

(** ** Properties of pane resizing *)

(** C17. Moving the border after child [i] of a split: the receiving child (the
    child before the border for a positive change, the one after it for a
    negative change) grows by exactly the requested amount, or by all its
    siblings on the giving side can give up; no other child grows; the flag says
    whether anything moved, and nothing changes when nothing moved.  The window
    size, the shape, the pane assignment and well-formedness are kept, and the
    [while] loop of the source always ends. *)
Theorem resize_layout_moves_border t p g d cs i change opposite :
  well_formed t -> cell_at_path (root t) p = Some (mkCell g (Split d cs)) -> (i + 1 < length cs)%nat ->
  let moved := Z.min (Z.abs change) (capacity d i change opposite cs) in
  exists t', resize_layout t p i d change opposite = (0 <? moved, t') /\ rearranged t t' /\
    (moved = 0 -> t' = t) /\
    (forall j c, cs !! j = Some c -> exists s, axis_at t' (p ++ [j]) d = Some s /\
       if decide (j = receiver i change) then s = axis_size c d + moved else s <= axis_size c d).
Proof. apply resize_layout_spec. Qed.

Lemma resize_layout_moves_border_witness :
  exists t', resize_layout (mkTree example_cell None) [] 0 LeftRight 50 true = (true, t') /\
    axis_at t' [0%nat] LeftRight = Some 78.
Proof.
  destruct (resize_layout_moves_border (mkTree example_cell None) [] (mkGeometry 80 24 0 0) LeftRight
    [pane (mkGeometry 40 24 0 0); pane (mkGeometry 39 24 41 0)] 0 50 true) as (t' & H1 & _ & _ & H2).
  - split; [apply example_cell_consistent|reflexivity|intros []; vm_compute; reflexivity].
  - reflexivity.
  - simpl. lia.
  - exists t'. split; [exact H1|].
    destruct (H2 0%nat _ eq_refl) as (s & Es & Hs). vm_compute in Hs. rewrite <- Hs. exact Es.
Defined.

(** [resize-pane], by a relative change or to a size: whatever the pane
    position, the direction and the amount, the window keeps its size, the tree
    stays well-formed with the same shape and the same pane assignment, and a
    call that reports [false] left it untouched. *)
Theorem resize_pane_safe t pane_position d change new_size :
  well_formed t ->
  (let '(b, t') := resize_pane_by t pane_position d change in
   rearranged t t' /\ (b = false -> t' = t)) /\
  (let '(b, t') := resize_pane_to t pane_position d new_size in
   rearranged t t' /\ (b = false -> t' = t)).
Proof.
  intros Hwf. pose proof (rearranged_refl t Hwf) as Hrefl. split.
  - unfold resize_pane_by. destruct (change =? 0); [done|].
    destruct (pane_leaf t pane_position) as [leaf|]; [|done].
    unfold resize_leaf_by, find_resize_handle.
    destruct (leaf_paths t !! leaf) as [path|] eqn:Hl; [|done]. simpl.
    destruct (find_resize_handle_loop t (reverse path) d) as [[p i]|] eqn:Hh; [|done].
    destruct (find_resize_handle_loop_spec _ _ _ _ _ (leaf_path_valid t leaf path Hl) Hh)
      as (g & cs & Hp & Hi).
    destruct (resize_layout t p i d change true) as [b t'] eqn:Hr. by eapply resize_layout_safe.
  - unfold resize_pane_to. destruct (pane_leaf t pane_position) as [leaf|]; [|done].
    unfold resize_leaf_to. destruct (leaf_paths t !! leaf) as [path|] eqn:Hl; [|done].
    destruct (resize_leaf_to_loop t (reverse path) d new_size) as [b t'] eqn:Hr.
    by eapply resize_leaf_to_loop_spec; [|by eapply leaf_path_valid|].
Qed.

Lemma resize_pane_safe_witness :
  let '(b, t') := resize_pane_to (mkTree example_cell None) 1 LeftRight 10 in
  rearranged (mkTree example_cell None) t' /\ b = true.
Proof.
  pose proof (resize_pane_safe (mkTree example_cell None) 1 LeftRight 0 10) as H.
  destruct H as [_ H].
  - split; [apply example_cell_consistent|reflexivity|intros []; vm_compute; reflexivity].
  - destruct (resize_pane_to (mkTree example_cell None) 1 LeftRight 10) as [b t'] eqn:E.
    destruct H as [H _]. split; [exact H|]. vm_compute in E. injection E as <- _. reflexivity.
Defined.
