(* ===== verification/LayoutSpread.v ===== *)
(** * Spreading panes evenly

    [spread] of [crates/rmux-core/src/layout/cell.rs] (the [select-layout -E]
    command): when it distributes a split evenly and when its remainder is one
    cell too large. *)

From S2P Require Import Prelude Panes LayoutCell LayoutAdjust LayoutOffsets LayoutTree LayoutPaths.
From S2P Require Import LayoutSplit.

(** The [n] even sizes that, with a border after each, fill [size + 1] cells. *)
Definition even_share (size n : Z) : Z := (size + 1) / n - 1.
Definition even_extra (size n : Z) : Z := (size + 1) mod n.

(** The sizes [spread] gives to [k] children, the first [extra] one larger. *)
Fixpoint targets (each extra : Z) (k : nat) : list Z :=
  match k with
  | O => []
  | S k => (if 0 <? extra then each + 1 else each)
           :: targets each (if 0 <? extra then extra - 1 else extra) k
  end.

Lemma sumZ_targets each extra k :
  0 <= extra <= Z.of_nat k ->
  sumZ (map (fun v => v + 1) (targets each extra k)) = Z.of_nat k * (each + 1) + extra.
Proof.
  revert extra. induction k as [|k IH]; intros extra H; cbn [targets map].
  { unfold sumZ. simpl. lia. }
  rewrite sumZ_cons. destruct (Z.ltb_spec 0 extra); rewrite IH; lia.
Qed.

Lemma share_bounds size n :
  2 <= n -> 2 * n - 1 <= size ->
  1 <= even_share size n /\ 0 <= even_extra size n < n /\
  n * (even_share size n + 1) + even_extra size n = size + 1.
Proof.
  intros Hn Hs. unfold even_share, even_extra.
  pose proof (Z.div_mod (size + 1) n ltac:(lia)). pose proof (Z.mod_pos_bound (size + 1) n ltac:(lia)).
  assert (2 <= (size + 1) / n) by (apply Z.div_le_lower_bound; lia). lia.
Qed.

(** The source's [each] and [remainder]. *)
Lemma spread_each size n :
  2 <= n -> n <= u16_max -> 2 * n - 1 <= size < i32_max ->
  sat_sub size (sat_sub n 1) / n = even_share size n /\
  u32_sat_add (sat_sub size (u32_mul n (u32_add (even_share size n) PANE_BORDER_CELLS)))
    PANE_BORDER_CELLS
  = if even_extra size n =? 0 then 1 else even_extra size n.
Proof.
  intros Hn Hn' Hs. destruct (share_bounds size n Hn ltac:(lia)) as (S1 & S2 & S3). split.
  - unfold even_share. replace (sat_sub size (sat_sub n 1)) with (size + 1 + (-1) * n) by machine.
    by rewrite Z.div_add by lia.
  - unfold PANE_BORDER_CELLS.
    assert (n * (even_share size n + 1) <= size + 1) as Hb by lia.
    rewrite u32_add_small by machine.
    replace (u32_mul n (even_share size n + 1)) with (n * (even_share size n + 1))
      by (unfold u32_mul; rewrite wrap_u32_small; [done|machine]).
    destruct (Z.eqb_spec (even_extra size n) 0); machine.
Qed.

(** Each child is brought to its target. *)
Definition can_spread (d : LayoutDirection) (v : Z) (c : LayoutCell) : Prop :=
  axis_size c d - resize_check c d <= v.

Lemma spread_children_spec d each extra cs :
  Forall consistent cs -> Forall (fun c => axis_size c d < i32_max) cs ->
  Forall2 (can_spread d) (targets each extra (length cs)) cs ->
  0 <= each < i32_max - 1 ->
  let '(cs', changed) := spread_children d each extra cs in
  Forall consistent cs' /\ map (fun c => axis_size c d) cs' = targets each extra (length cs) /\
  map (fun c => axis_size c (flip d)) cs' = map (fun c => axis_size c (flip d)) cs /\
  map erase cs' = map erase cs /\ (changed = false -> cs' = cs).
Proof.
  intros Hc Hb. revert extra. induction Hc as [|c cs Hc Hcs IH]; intros extra Ht He; [by split_and!|].
  apply Forall_cons in Hb as [Hb Hbs]. cbn [targets length] in Ht.
  apply Forall2_cons in Ht as [Ht Hts]. pose proof (consistent_nonneg c Hc d) as Hnn.
  unfold spread_children; fold spread_children.
  set (v := if 0 <? extra then u32_add each 1 else each).
  assert (v = (if 0 <? extra then each + 1 else each)) as Ev
    by (unfold v; rewrite u32_add_small by machine; done).
  specialize (IH Hbs _ Hts He). rewrite <- Ev in Ht.
  assert (0 <= v < i32_max) as Hv by (rewrite Ev; destruct (0 <? extra); lia).
  fold (axis_size c d).
  assert (as_i32 (as_i32 v - as_i32 (axis_size c d)) = v - axis_size c d) as ->.
  { rewrite (as_i32_small v), (as_i32_small (axis_size c d)) by machine. apply as_i32_signed. machine. }
  destruct (spread_children d each _ cs) as [cs' changed]. destruct IH as (I1 & I2 & I3 & I4 & I5).
  destruct (Z.eqb_spec (v - axis_size c d) 0) as [E|E].
  - split_and!; [by constructor| |simpl; congruence|simpl; congruence|intros H; by rewrite I5].
    cbn [map targets length]. rewrite I2, <- Ev. f_equal. lia.
  - unfold can_spread in Ht.
    destruct (resize_adjust_adjusted d (v - axis_size c d) c) as [A1 A2 A3 A4 _ _];
      [split_and!; [done|lia|machine|machine]|].
    split_and!; [by constructor| |cbn [map]; congruence|cbn [map]; congruence|done].
    cbn [map targets length]. rewrite I2, <- Ev, A3. f_equal. lia.
Qed.

(** ** Properties *)

(** Even spreading: if the split has room for its children, every child can
    be brought to its share and [size + 1] is not a multiple of the number of
    children, [spread] gives the children sizes that differ by at most one
    (the larger ones first), keeps the split's own geometry, its shape and its
    consistency, and changes nothing when it reports no change. *)
Theorem spread_even g d cs :
  let n := Z.of_nat (length cs) in
  let size := geo_axis d g in
  let shares := targets (even_share size n) (even_extra size n) (length cs) in
  consistent (mkCell g (Split d cs)) -> 2 <= n <= u16_max -> 2 * n - 1 <= size < i32_max ->
  even_extra size n <> 0 -> Forall2 (can_spread d) shares cs ->
  exists cs' changed, spread (mkCell g (Split d cs)) = (mkCell g (Split d cs'), changed) /\
    consistent (mkCell g (Split d cs')) /\ map (fun c => axis_size c d) cs' = shares /\
    map erase cs' = map erase cs /\ (changed = false -> cs' = cs).
Proof.
  intros n size shares Hc Hn Hs Hx Hsp. pose proof Hc as (Hne & Hcs & Hcross & Htot)%consistent_children.
  destruct (share_bounds size n ltac:(lia) ltac:(lia)) as (S1 & S2 & S3).
  destruct (spread_each size n ltac:(lia) ltac:(lia) Hs) as [E1 E2].
  pose proof (spread_children_spec d (even_share size n) (even_extra size n) cs Hcs) as Hspec.
  assert (even_share size n < i32_max - 1) as Hsb by nia.
  assert (Forall (fun c => axis_size c d < i32_max) cs) as Hb.
  { apply Forall_forall. intros c Hin. pose proof (consistent_child_le _ _ _ c d Hc Hin). lia. }
  specialize (Hspec Hb Hsp ltac:(lia)).
  unfold spread. cbn [kind geometry]. rewrite (proj2 (Nat.leb_gt _ _)) by lia. cbv zeta. fold n.
  rewrite (wrap_u32_small n) by machine. fold size.
  rewrite (proj2 (Z.ltb_ge size _)) by machine. rewrite E1, E2.
  rewrite (proj2 (Z.eqb_neq _ 0)) by lia. rewrite (proj2 (Z.eqb_neq _ 0) Hx).
  destruct (spread_children d _ _ cs) as [cs' changed]. destruct Hspec as (I1 & I2 & I3 & I4 & I5).
  exists cs', changed. split_and!; [done| |done|done|done].
  assert (length cs' = length cs) as Hlen
    by (apply (f_equal length) in I4; by rewrite !length_map in I4).
  constructor.
  - intros ->. by destruct cs.
  - done.
  - by apply (Forall_map_ext (fun c => axis_size c (flip d)) (fun c => axis_size c (flip d))
      (fun v => v = _) cs' cs).
  - unfold total. rewrite <- (map_map (fun c => axis_size c d) (fun z => z + 1)), I2.
    rewrite sumZ_targets by lia. fold n size. lia.
Qed.

(** Two panes of unequal width. *)
Definition uneven_cell (total first : Z) : LayoutCell :=
  split LeftRight (mkGeometry total 4 0 0)
    [pane (mkGeometry first 4 0 0); pane (mkGeometry (total - 1 - first) 4 (first + 1) 0)].

Lemma spread_even_witness :
  exists cs' changed,
    spread (uneven_cell 80 10) = (mkCell (mkGeometry 80 4 0 0) (Split LeftRight cs'), changed) /\
    map (fun c => axis_size c LeftRight) cs' = [40; 39].
Proof.
  destruct (spread_even (mkGeometry 80 4 0 0) LeftRight
    [pane (mkGeometry 10 4 0 0); pane (mkGeometry 69 4 11 0)]) as (cs' & changed & H1 & _ & H2 & _).
  - apply check_spec_lemma; [|vm_compute; reflexivity]. vm_compute. repeat constructor; discriminate.
  - vm_compute. split; discriminate.
  - vm_compute. split; [discriminate|reflexivity].
  - vm_compute. discriminate.
  - apply Forall2_cons. split; [|apply Forall2_cons; split; [|constructor]]; vm_compute; discriminate.
  - exists cs', changed. split; [exact H1|]. rewrite H2. vm_compute. reflexivity.
Defined.

(** When [size + 1] is a multiple of the number of children the saturating
    subtraction leaves a remainder of one instead of none: spreading panes of
    three and one columns in a five-column window gives three and two columns,
    which with the border need six, and the result fails [check]. *)
Theorem spread_overflows_exact_multiple :
  check (uneven_cell 5 3) = true /\
  exists c, spread (uneven_cell 5 3) = (c, true) /\ check c = false /\
    collect_leaf_geometries c [] = [mkGeometry 3 4 0 0; mkGeometry 2 4 4 0].
Proof.
  split; [reflexivity|]. eexists. split; [vm_compute; reflexivity|]. split; vm_compute; reflexivity.
Qed.
