(* ===== verification/LayoutNamed.v ===== *)
(** * Named layouts

    [crates/rmux-core/src/layout/named.rs], with [split_axis], [LayoutOptions]
    and [minimum_axis_size_for_panes] of [layout.rs]: the geometry of
    [select-layout even-horizontal], [main-vertical], [tiled] and the others.
    [rows] and [columns] of the tiled grid are the source's [usize]; pane counts
    are [nat]. *)

From S2P Require Import Prelude Panes LayoutCell LayoutAdjust LayoutOffsets LayoutTree LayoutPaths.
From S2P Require Import LayoutSplit LayoutRemove LayoutSpread.

(** ** Data *)

Inductive LayoutName :=
| MainVertical | MainHorizontal | EvenHorizontal | EvenVertical | Tiled
| MainHorizontalMirrored | MainVerticalMirrored.

Record LayoutOptions := mkOptions {
  requested_main_width : option Z;
  requested_main_height : option Z;
  tiled_max_columns : option Z;
}.

Definition default_options : LayoutOptions := mkOptions None None None.

Definition with_requested_main_width (w : option Z) (o : LayoutOptions) : LayoutOptions :=
  mkOptions w (requested_main_height o) (tiled_max_columns o).

Definition with_requested_main_height (h : option Z) (o : LayoutOptions) : LayoutOptions :=
  mkOptions (requested_main_width o) h (tiled_max_columns o).

Definition with_tiled_max_columns (c : option Z) (o : LayoutOptions) : LayoutOptions :=
  mkOptions (requested_main_width o) (requested_main_height o) c.

Definition DEFAULT_MAIN_PANE_WIDTH : Z := 80.
Definition DEFAULT_MAIN_PANE_HEIGHT : Z := 24.

Definition minimum_axis_size_for_panes (pane_count : nat) : Z :=
  if (pane_count =? 0)%nat then 0
  else u32_add (u32_mul PANE_MINIMUM (wrap_u32 (Z.of_nat pane_count)))
         (u32_mul PANE_BORDER_CELLS (wrap_u32 (Z.of_nat (pane_count - 1)))).

(** ** Operations *)

Definition split_axis (total : Z) (count : nat) : list Z :=
  if (count =? 0)%nat then []
  else
    let n := wrap_u32 (Z.of_nat count) in
    let usable := sat_sub total (u32_mul (sat_sub n 1) PANE_BORDER_CELLS) in
    let each := usable / n in
    let remainder := usable - each * n in
    let can_satisfy_minimums := n <=? usable in
    map (fun index : nat =>
           if can_satisfy_minimums && (wrap_u32 (Z.of_nat index) <? remainder) then u32_add each 1
           else if negb can_satisfy_minimums && (index + 1 =? count)%nat
                then u32_add each remainder
                else each) (seq 0 count).

(** The [scan] over the sizes of a row or column: [at_offset] builds a child
    from its offset and its size. *)
Fixpoint scan_children (at_offset : Z -> Z -> LayoutGeometry) (offset : Z) (sizes : list Z)
  : list LayoutCell :=
  match sizes with
  | [] => []
  | size :: rest =>
      pane (at_offset offset size)
      :: scan_children at_offset (u32_sat_add (u32_sat_add offset size) PANE_BORDER_CELLS) rest
  end.

Definition build_even (d : LayoutDirection) (pane_count : nat) (g : LayoutGeometry) : LayoutTree :=
  let children :=
    match d with
    | LeftRight =>
        scan_children (fun x w => mkGeometry w (height g) x (geo_y g)) 0
          (split_axis (width g) pane_count)
    | TopBottom =>
        scan_children (fun y h => mkGeometry (width g) h (geo_x g) y) 0
          (split_axis (height g) pane_count)
    end in
  mkTree (split d g children) None.

(** Tree order is [secondary..., main], pane order is [main, secondary...]. *)
Definition mirrored_leaf_map (pane_count : nat) : list nat :=
  if (2 <=? pane_count)%nat then (pane_count - 1)%nat :: map (fun k => (k - 1)%nat) (seq 1 (pane_count - 1))
  else seq 0 pane_count.

Definition resolve_main_pane_size (total : Z) (requested : option Z) (default : Z) : Z :=
  let available := sat_sub total PANE_BORDER_CELLS in
  let candidate := Z.min (match requested with Some r => r | None => default end) available in
  if available <=? u32_sat_add candidate PANE_MINIMUM then
    if available <=? u32_sat_mul PANE_MINIMUM 2 then Z.min PANE_MINIMUM available
    else sat_sub available PANE_MINIMUM
  else candidate.

Definition shift_cell (c : LayoutCell) (x y : Z) : LayoutCell := fix_offsets x y c.

Definition build_main_vertical (pane_count : nat) (g : LayoutGeometry) (o : LayoutOptions)
    (mirrored : bool) : LayoutTree :=
  let main_width := resolve_main_pane_size (width g) (requested_main_width o) DEFAULT_MAIN_PANE_WIDTH in
  let secondary_width := sat_sub (sat_sub (width g) main_width) PANE_BORDER_CELLS in
  let main := pane (mkGeometry main_width (height g) 0 0) in
  let secondary_geometry :=
    mkGeometry secondary_width (height g) (u32_add main_width PANE_BORDER_CELLS) 0 in
  let secondary :=
    if (pane_count =? 2)%nat then pane secondary_geometry
    else split TopBottom secondary_geometry
           (scan_children (fun y h => mkGeometry secondary_width h (geo_x secondary_geometry) y) 0
              (split_axis (height g) (pane_count - 1))) in
  let '(children, map) :=
    if mirrored then
      ([shift_cell secondary 0 0;
        shift_cell main (u32_add secondary_width PANE_BORDER_CELLS) 0],
       Some (mirrored_leaf_map pane_count))
    else ([main; secondary], None) in
  mkTree (fix_offsets 0 0 (split LeftRight g children)) map.

Definition build_main_horizontal (pane_count : nat) (g : LayoutGeometry) (o : LayoutOptions)
    (mirrored : bool) : LayoutTree :=
  let main_height :=
    resolve_main_pane_size (height g) (requested_main_height o) DEFAULT_MAIN_PANE_HEIGHT in
  let secondary_height := sat_sub (sat_sub (height g) main_height) PANE_BORDER_CELLS in
  let main := pane (mkGeometry (width g) main_height 0 0) in
  let secondary_geometry :=
    mkGeometry (width g) secondary_height 0 (u32_add main_height PANE_BORDER_CELLS) in
  let secondary :=
    if (pane_count =? 2)%nat then pane secondary_geometry
    else split LeftRight secondary_geometry
           (scan_children (fun x w => mkGeometry w secondary_height x (geo_y secondary_geometry)) 0
              (split_axis (width g) (pane_count - 1))) in
  let '(children, map) :=
    if mirrored then
      ([shift_cell secondary 0 0;
        shift_cell main 0 (u32_add secondary_height PANE_BORDER_CELLS)],
       Some (mirrored_leaf_map pane_count))
    else ([main; secondary], None) in
  mkTree (fix_offsets 0 0 (split TopBottom g children)) map.

(** *** The tiled grid *)

Definition below_limit (max_columns : option nat) (columns : nat) : bool :=
  match max_columns with Some limit => (columns <? limit)%nat | None => true end.

(** The [while rows * columns < pane_count] loop; each round adds a row, so
    [pane_count] rounds suffice. *)
Fixpoint grid_loop (fuel pane_count rows columns : nat) (max_columns : option nat) : nat * nat :=
  match fuel with
  | O => (rows, columns)
  | S fuel =>
      if (rows * columns <? pane_count)%nat then
        let rows := (rows + 1)%nat in
        let columns :=
          if (rows * columns <? pane_count)%nat && below_limit max_columns columns
          then (columns + 1)%nat else columns in
        grid_loop fuel pane_count rows columns max_columns
      else (rows, columns)
  end.

Definition div_ceil (a b : nat) : nat := ((a + b - 1) / b)%nat.

Definition tiled_grid_size (pane_count : nat) (max_columns : option nat) : nat * nat :=
  let '(rows, columns) := grid_loop pane_count pane_count 1 1 max_columns in
  let '(rows, columns) :=
    match max_columns with
    | Some limit =>
        let columns := (columns `min` (limit `max` 1))%nat in
        (div_ceil pane_count (columns `max` 1), columns)
    | None => (rows, columns)
    end in
  ((rows `max` 1)%nat, (columns `max` 1)%nat).

(** The children of a full row: [panes_in_row] panes of the cell width. *)
Fixpoint row_children (width height row_x row_y : Z) (panes_in_row : nat) : list LayoutCell :=
  match panes_in_row with
  | O => []
  | S k =>
      pane (mkGeometry width height row_x row_y)
      :: row_children width height (u32_sat_add (u32_sat_add row_x width) PANE_BORDER_CELLS) row_y k
  end.

(** [last_mut] followed by [resize_adjust] when there is something to add. *)
Definition stretch_last (d : LayoutDirection) (extra : Z) (cs : list LayoutCell) : list LayoutCell :=
  if 0 <? extra then alter (resize_adjust d (as_i32 extra)) (length cs - 1)%nat cs else cs.

Definition set_width (w : Z) (c : LayoutCell) : LayoutCell :=
  mkCell (set_axis LeftRight w (geometry c)) (kind c).

Definition tiled_row (g : LayoutGeometry) (root_width width height row_y : Z)
    (panes_in_row columns : nat) : LayoutCell :=
  let row :=
    if (panes_in_row =? 1)%nat || (columns =? 1)%nat then
      pane (mkGeometry (LayoutCell.width g) height 0 row_y)
    else
      let children := row_children width height 0 row_y panes_in_row in
      let used :=
        Z.min (sat_sub (u32_mul (wrap_u32 (Z.of_nat panes_in_row)) (u32_add width PANE_BORDER_CELLS))
                 PANE_BORDER_CELLS) root_width in
      let extra := sat_sub (LayoutCell.width g) used in
      split LeftRight (mkGeometry (LayoutCell.width g) height 0 row_y)
        (stretch_last LeftRight extra children) in
  if LayoutCell.width (geometry row) =? LayoutCell.width g then row
  else set_width (LayoutCell.width g) row.

(** The [for _ in 0..rows] loop. *)
Fixpoint tiled_rows (g : LayoutGeometry) (root_width width height : Z) (columns : nat)
    (rows remaining : nat) (row_y : Z) : list LayoutCell :=
  match rows with
  | O => []
  | S rows =>
      if (remaining =? 0)%nat then []
      else
        let panes_in_row := (remaining `min` columns)%nat in
        tiled_row g root_width width height row_y panes_in_row columns
        :: tiled_rows g root_width width height columns rows (remaining - panes_in_row)
             (u32_sat_add (u32_sat_add row_y height) PANE_BORDER_CELLS)
  end.

(** The size of a grid cell along one axis, for [n] cells in [total]. *)
Definition tiled_cell (total n : Z) : Z := Z.max (sat_sub total (sat_sub n 1) / n) PANE_MINIMUM.

(** The size the grid needs along one axis. *)
Definition tiled_root (total cell n : Z) : Z :=
  Z.max (sat_sub (u32_mul (u32_add cell PANE_BORDER_CELLS) n) PANE_BORDER_CELLS) total.

Definition tiled_columns (o : LayoutOptions) : option nat :=
  match tiled_max_columns o with
  | Some c => if 0 <? c then Some (Z.to_nat c) else None
  | None => None
  end.

Definition build_tiled (pane_count : nat) (g : LayoutGeometry) (o : LayoutOptions) : LayoutTree :=
  let '(rows, columns) := tiled_grid_size pane_count (tiled_columns o) in
  let r := wrap_u32 (Z.of_nat rows) in
  let c := wrap_u32 (Z.of_nat columns) in
  let width := tiled_cell (LayoutCell.width g) c in
  let height := tiled_cell (LayoutCell.height g) r in
  let root_width := tiled_root (LayoutCell.width g) width c in
  let root_height := tiled_root (LayoutCell.height g) height r in
  let rows_cells := tiled_rows g root_width width height columns rows pane_count 0 in
  let used := Z.min (u32_sat_add (u32_mul r height) (sat_sub r 1)) root_height in
  let extra := sat_sub (LayoutCell.height g) used in
  mkTree (fix_offsets 0 0 (split TopBottom g (stretch_last TopBottom extra rows_cells))) None.

(** *** The named layouts *)

Definition build_named (layout : LayoutName) (pane_count : nat) (g : LayoutGeometry)
    (o : LayoutOptions) : LayoutTree :=
  match layout with
  | EvenHorizontal => build_even LeftRight pane_count g
  | EvenVertical => build_even TopBottom pane_count g
  | MainHorizontal => build_main_horizontal pane_count g o false
  | MainHorizontalMirrored => build_main_horizontal pane_count g o true
  | MainVertical => build_main_vertical pane_count g o false
  | MainVerticalMirrored => build_main_vertical pane_count g o true
  | Tiled => build_tiled pane_count g o
  end.

Definition named (layout : LayoutName) (pane_count : nat) (size : TerminalSize)
    (o : LayoutOptions) : LayoutTree :=
  if (pane_count <=? 1)%nat then single size
  else
    let g := mkGeometry (cols size) (rows size) 0 0 in
    let tree := build_named layout pane_count g o in
    let '(minimum_width, minimum_height) := minimum_size (root tree) in
    let tree :=
      if (width g <? minimum_width) || (height g <? minimum_height) then
        build_named layout pane_count
          (mkGeometry (Z.max (width g) minimum_width) (Z.max (height g) minimum_height) 0 0) o
      else tree in
    mkTree (fix_offsets 0 0 (root tree)) (leaf_map tree).

(** [apply_layout]. *)
Definition apply_layout (panes : list PaneState) (layout : LayoutName) (size : TerminalSize)
    (requested_main_width : option Z) : option (list PaneState * LayoutTree) :=
  let tree := named layout (length panes) size
                (with_requested_main_width requested_main_width default_options) in
  panes' ← apply_to_panes tree panes; Some (panes', tree).

(** ** Sizes along an axis *)

Lemma targets_seq each extra k start :
  targets each extra k =
  map (fun i => if Z.of_nat i <? Z.of_nat start + extra then each + 1 else each) (seq start k).
Proof.
  revert extra start. induction k as [|k IH]; intros extra start; [done|]. cbn [targets seq map]. f_equal.
  - case_Zbool; lia.
  - rewrite (IH _ (S start)). apply map_ext_in. intros i Hi%List.in_seq. case_Zbool; lia.
Qed.

Lemma length_targets each extra k : length (targets each extra k) = k.
Proof. revert extra. induction k as [|k IH]; intros extra; simpl; [done|]. by rewrite IH. Qed.

Lemma targets_ge each extra k : Forall (fun v => each <= v) (targets each extra k).
Proof.
  revert extra. induction k as [|k IH]; intros extra; [constructor|]. cbn [targets].
  constructor; [case_Zbool; lia|apply IH].
Qed.

(** With room for every pane, [split_axis] is the even distribution. *)
Lemma split_axis_even total count :
  (1 <= count)%nat -> Z.of_nat count <= u16_max -> 2 * Z.of_nat count - 1 <= total < i32_max ->
  split_axis total count =
  targets (even_share total (Z.of_nat count)) (even_extra total (Z.of_nat count)) count.
Proof.
  intros H1 Hn Ht. unfold split_axis. rewrite (proj2 (Nat.eqb_neq _ _)) by lia. cbv zeta.
  set (n := Z.of_nat count) in *. rewrite (wrap_u32_small n) by machine.
  assert (sat_sub total (u32_mul (sat_sub n 1) PANE_BORDER_CELLS) = total + 1 + (-1) * n) as ->.
  { unfold u32_mul, PANE_BORDER_CELLS. rewrite wrap_u32_small; machine. }
  rewrite Z.div_add by lia. change ((total + 1) / n + -1) with (even_share total n).
  assert (total + 1 + -1 * n - even_share total n * n = even_extra total n) as ->.
  { unfold even_share, even_extra. pose proof (Z.div_mod (total + 1) n ltac:(lia)). lia. }
  rewrite (proj2 (Z.leb_le n _)) by lia. rewrite (targets_seq _ _ _ 0).
  apply map_ext_in. intros i Hi%List.in_seq. simpl. rewrite wrap_u32_small by machine.
  assert (1 <= n) by lia.
  assert (0 <= even_share total n < i32_max) as He.
  { unfold even_share. assert (1 <= (total + 1) / n) by (apply Z.div_le_lower_bound; lia).
    assert ((total + 1) / n <= total + 1) by (apply Z.div_le_upper_bound; nia). lia. }
  rewrite u32_add_small by machine. done.
Qed.

(** A list of sizes that fill [total] with a border between each two. *)
Definition fills (total : Z) (sizes : list Z) : Prop :=
  sizes <> [] /\ Forall (fun v => 0 <= v) sizes /\ sumZ (map (fun v => v + 1) sizes) = total + 1.

Lemma split_axis_fills total count :
  (1 <= count)%nat -> Z.of_nat count <= u16_max -> 2 * Z.of_nat count - 1 <= total < i32_max ->
  fills total (split_axis total count) /\ length (split_axis total count) = count.
Proof.
  intros H1 Hn Ht. rewrite split_axis_even by done. rewrite length_targets. split; [|done].
  set (n := Z.of_nat count). unfold fills.
  pose proof (Z.div_mod (total + 1) n ltac:(lia)). pose proof (Z.mod_pos_bound (total + 1) n ltac:(lia)).
  assert (2 <= (total + 1) / n) by (apply Z.div_le_lower_bound; lia). split_and!.
  - intros E. apply (f_equal length) in E. rewrite length_targets in E. simpl in E. lia.
  - eapply Forall_impl; [apply targets_ge|]. intros v Hv. unfold even_share in Hv. lia.
  - rewrite sumZ_targets by (unfold even_extra; lia). unfold even_share, even_extra. fold n. lia.
Qed.

(** ** A split filled with panes *)

Lemma scan_children_lengths at_offset k sizes : length (scan_children at_offset k sizes) = length sizes.
Proof. revert k. induction sizes as [|s l IH]; intros k; simpl; [done|]. by rewrite IH. Qed.

Lemma scan_children_panes at_offset k sizes :
  Forall (fun c => kind c = Pane) (scan_children at_offset k sizes).
Proof. revert k. induction sizes; intros k; constructor; [done|]. auto. Qed.

Lemma panes_leaf_count g d cs :
  Forall (fun c => kind c = Pane) cs -> leaf_count (mkCell g (Split d cs)) = length cs.
Proof.
  intros H. simpl. induction H as [|c cs Hc Hcs IH]; simpl; [done|].
  rewrite IH. destruct c as [g' k]. simpl in Hc. by subst k.
Qed.

Lemma scan_split_consistent d g at_offset sizes :
  (forall o s, geo_axis d (at_offset o s) = s /\
               geo_axis (flip d) (at_offset o s) = geo_axis (flip d) g) ->
  0 <= geo_axis (flip d) g -> fills (geo_axis d g) sizes ->
  consistent (split d g (scan_children at_offset 0 sizes)).
Proof.
  intros Hat Hx (Hne & Hnn & Hsum). generalize 0. intros k0.
  assert (forall k, Forall consistent (scan_children at_offset k sizes) /\
    Forall (fun c => axis_size c (flip d) = geo_axis (flip d) g) (scan_children at_offset k sizes) /\
    total d (scan_children at_offset k sizes) = sumZ (map (fun v => v + 1) sizes)) as Hgen.
  { clear Hne Hsum. induction Hnn as [|s l Hs Hl IH]; intros k; simpl; [by split_and!|].
    destruct (IH (u32_sat_add (u32_sat_add k s) PANE_BORDER_CELLS)) as (I1 & I2 & I3).
    destruct (Hat k s) as [A1 A2]. rewrite sumZ_cons, total_cons, I3.
    split_and!; [constructor; [|done]|constructor; done|unfold axis_size; simpl; lia].
    apply consistent_pane; destruct d; simpl in *; lia. }
  destruct (Hgen k0) as (I1 & I2 & I3). constructor; [|done|done|lia].
  destruct sizes; [done|]. by simpl.
Qed.

(** ** Minimum sizes *)

Definition min_axis (d : LayoutDirection) (c : LayoutCell) : Z :=
  match d with LeftRight => (minimum_size c).1 | TopBottom => (minimum_size c).2 end.

(** Children that need one cell along the split, and [m] across it at most. *)
Definition thin (d : LayoutDirection) (m : Z) (c : LayoutCell) : Prop :=
  min_axis d c = 1 /\ 1 <= min_axis (flip d) c <= m.

Lemma minimum_split g d cs m :
  cs <> [] -> Z.of_nat (length cs) <= u16_max -> Forall (thin d m) cs ->
  m = 1 \/ Exists (fun c => min_axis (flip d) c = m) cs ->
  min_axis d (mkCell g (Split d cs)) = 2 * Z.of_nat (length cs) - 1 /\
  min_axis (flip d) (mkCell g (Split d cs)) = m.
Proof.
  intros Hne Hlen Hthin Hm.
  set (step := fun (st : Z * (Z * Z)) child =>
     let '(summed_axis, (widest, tallest)) := st in
     let '(w, h) := minimum_size child in
     match d with
     | LeftRight => (u32_sat_add summed_axis w, (widest, Z.max tallest h))
     | TopBottom => (u32_sat_add summed_axis h, (Z.max widest w, tallest))
     end).
  assert (1 <= m) as Hm1.
  { destruct cs as [|c cs]; [done|]. apply Forall_cons in Hthin as [[_ ?] _]. lia. }
  assert (forall a w h, 0 <= a -> a + Z.of_nat (length cs) <= u32_max ->
    1 <= (match d with LeftRight => h | TopBottom => w end) <= m ->
    let '(s, (w', h')) := fold_left step cs (a, (w, h)) in
    s = a + Z.of_nat (length cs) /\
    (match d with LeftRight => w' = w | TopBottom => h' = h end) /\
    (match d with LeftRight => h <= h' | TopBottom => w <= w' end) /\
    (match d with LeftRight => h' | TopBottom => w' end) <= m /\
    (Exists (fun c => min_axis (flip d) c = m) cs ->
     (match d with LeftRight => h' | TopBottom => w' end) = m)) as Hfold.
  { clear Hne Hlen Hm. induction Hthin as [|c cs [T1 T2] Hcs IH]; intros a w h Ha Hb Hw; simpl.
    { destruct d; split_and!; try lia; intros E; by inversion E. }
    unfold min_axis in T1, T2. destruct (minimum_size c) as [cw ch] eqn:Hmin. simpl length in Hb.
    destruct d; cbn [flip fst snd] in *.
    - specialize (IH (u32_sat_add a cw) w (Z.max h ch)).
      destruct (fold_left step cs _) as [s [w' h']]. destruct IH as (I1 & I2 & I3 & I4 & I5);
        [machine|machine|lia|].
      split_and!; [machine|done|lia|lia|]. intros [E|E]%Exists_cons; [|auto].
      unfold min_axis in E. rewrite Hmin in E. simpl in E. lia.
    - specialize (IH (u32_sat_add a ch) (Z.max w cw) h).
      destruct (fold_left step cs _) as [s [w' h']]. destruct IH as (I1 & I2 & I3 & I4 & I5);
        [machine|machine|lia|].
      split_and!; [machine|done|lia|lia|]. intros [E|E]%Exists_cons; [|auto].
      unfold min_axis in E. rewrite Hmin in E. simpl in E. lia. }
  assert (1 <= Z.of_nat (length cs)) as Hl1 by (destruct cs; [done|simpl; lia]).
  specialize (Hfold (Z.of_nat (length cs - 1)) PANE_MINIMUM PANE_MINIMUM). unfold min_axis.
  cbn [minimum_size kind].
  replace (u32_sat_mul PANE_BORDER_CELLS (Z.min u32_max (Z.of_nat (length cs - 1))))
    with (Z.of_nat (length cs - 1)) by (unfold PANE_BORDER_CELLS; machine).
  fold step. destruct (fold_left step cs _) as [s [w' h']].
  destruct Hfold as (F1 & F2 & F3 & F4 & F5); [lia|machine|destruct d; simpl; unfold PANE_MINIMUM; lia|].
  unfold PANE_MINIMUM in *.
  destruct d; cbn [flip fst snd] in *; (split; [lia|destruct Hm as [->|Hm]; [lia|auto]]).
Qed.

Lemma min_axis_pane d g : min_axis d (pane g) = 1.
Proof. by destruct d. Qed.

Lemma pane_cells_thin d cs : Forall (fun c => kind c = Pane) cs -> Forall (thin d 1) cs.
Proof.
  intros H. eapply Forall_impl; [exact H|]. intros [g k] Hk. simpl in Hk. subst k.
  unfold thin, min_axis. destruct d; cbn; unfold PANE_MINIMUM; lia.
Qed.

Lemma minimum_panes g d cs :
  cs <> [] -> Z.of_nat (length cs) <= u16_max -> Forall (fun c => kind c = Pane) cs ->
  min_axis d (mkCell g (Split d cs)) = 2 * Z.of_nat (length cs) - 1 /\
  min_axis (flip d) (mkCell g (Split d cs)) = 1.
Proof. intros Hne Hl Hp. apply minimum_split; [done|done|by apply pane_cells_thin|by left]. Qed.

(** The minimum size only depends on the shape. *)
Lemma minimum_size_erase c : minimum_size (erase c) = minimum_size c.
Proof.
  induction c as [g|g d cs IH] using LayoutCell_rect_strong; [done|].
  cbn [erase kind minimum_size]. rewrite length_map. do 2 f_equal.
  set (z := (_, (PANE_MINIMUM, PANE_MINIMUM))). clearbody z. revert z.
  induction IH as [|c cs Hc Hcs IHcs]; intros z; [done|]. cbn [map fold_left].
  by rewrite Hc, IHcs.
Qed.

Lemma min_axis_erase d c c' : erase c' = erase c -> min_axis d c' = min_axis d c.
Proof.
  intros H. unfold min_axis. rewrite <- (minimum_size_erase c'), H, (minimum_size_erase c). done.
Qed.

Lemma min_axis_fix_offsets d x y c : min_axis d (fix_offsets x y c) = min_axis d c.
Proof. apply min_axis_erase, fix_offsets_erase. Qed.

(** What a builder delivers for the geometry [g] with room for its panes, and
    the room it needs. *)
Record built (n : nat) (g : LayoutGeometry) (t : LayoutTree) : Prop := {
  built_consistent : consistent (root t);
  built_width : width (geometry (root t)) = width g;
  built_height : height (geometry (root t)) = height g;
  built_leaves : tree_leaf_count t = n;
}.

Definition needs (w h : Z) (t : LayoutTree) : Prop := minimum_size (root t) = (w, h).

Lemma needs_axis w h t :
  min_axis LeftRight (root t) = w -> min_axis TopBottom (root t) = h -> needs w h t.
Proof. unfold needs, min_axis. intros <- <-. by destruct (minimum_size (root t)). Qed.

(** *** Even layouts *)

Definition along (d : LayoutDirection) (a b : Z) : Z * Z :=
  match d with LeftRight => (a, b) | TopBottom => (b, a) end.

Lemma build_even_built d n g :
  (1 <= n)%nat -> Z.of_nat n <= u16_max -> 2 * Z.of_nat n - 1 <= geo_axis d g < i32_max ->
  0 <= geo_axis (flip d) g -> built n g (build_even d n g).
Proof.
  intros H1 Hn Hg Hx. destruct (split_axis_fills (geo_axis d g) n H1 Hn Hg) as [Hf Hl].
  destruct d; (split; [by apply scan_split_consistent| done..| ]);
    unfold tree_leaf_count, build_even, split; cbn [root];
    (rewrite panes_leaf_count by apply scan_children_panes); by rewrite scan_children_lengths.
Qed.

Lemma split_axis_length total n : length (split_axis total n) = n.
Proof.
  unfold split_axis. destruct (Nat.eqb_spec n 0) as [->|]; [done|]. by rewrite length_map, length_seq.
Qed.

Lemma build_even_needs d n g :
  (1 <= n)%nat -> Z.of_nat n <= u16_max ->
  let '(w, h) := along d (2 * Z.of_nat n - 1) 1 in needs w h (build_even d n g).
Proof.
  intros H1 Hn.
  assert (forall d at_offset total,
    min_axis d (split d g (scan_children at_offset 0 (split_axis total n))) = 2 * Z.of_nat n - 1 /\
    min_axis (flip d) (split d g (scan_children at_offset 0 (split_axis total n))) = 1) as H.
  { intros d' at_offset total.
    assert (length (scan_children at_offset 0 (split_axis total n)) = n) as Hl
      by (by rewrite scan_children_lengths, split_axis_length).
    destruct (minimum_panes g d' (scan_children at_offset 0 (split_axis total n))) as [A1 A2].
    - intros E. rewrite E in Hl. simpl in Hl. lia.
    - by rewrite Hl.
    - apply scan_children_panes.
    - rewrite Hl in A1. done. }
  destruct d; apply needs_axis; apply (H LeftRight) || apply (H TopBottom).
Qed.

(** *** Main layouts *)

Lemma resolve_main_pane_size_range total requested default :
  3 <= total < i32_max -> (forall r, requested = Some r -> 0 <= r) -> 0 <= default ->
  let main := resolve_main_pane_size total requested default in
  0 <= main /\ 1 <= total - main - 1 /\ sat_sub (sat_sub total main) PANE_BORDER_CELLS = total - main - 1.
Proof.
  intros Ht Hr Hd. unfold resolve_main_pane_size, PANE_BORDER_CELLS, PANE_MINIMUM. cbv zeta.
  set (req := match requested with Some r => r | None => default end).
  assert (0 <= req) by (unfold req; destruct requested as [r|]; [by apply Hr|done]).
  case_Zbool; machine.
Qed.

(** The cell that holds the secondary panes. *)
Definition secondary (d : LayoutDirection) (n : nat) (sg : LayoutGeometry)
    (at_offset : Z -> Z -> LayoutGeometry) (total : Z) : LayoutCell :=
  if (n =? 2)%nat then pane sg
  else split (flip d) sg (scan_children at_offset 0 (split_axis total (n - 1))).

Lemma secondary_needs d n sg at_offset total :
  (2 <= n)%nat -> Z.of_nat n <= u16_max ->
  leaf_count (secondary d n sg at_offset total) = (n - 1)%nat /\
  min_axis d (secondary d n sg at_offset total) = 1 /\
  min_axis (flip d) (secondary d n sg at_offset total) = 2 * (Z.of_nat n - 1) - 1.
Proof.
  intros H2 Hn. unfold secondary. destruct (Nat.eqb_spec n 2) as [->|Hne].
  { rewrite !min_axis_pane. done. }
  set (cs := scan_children at_offset 0 (split_axis total (n - 1))).
  assert (length cs = (n - 1)%nat) as Hl by (unfold cs; by rewrite scan_children_lengths, split_axis_length).
  assert (Forall (fun c => kind c = Pane) cs) as Hp by apply scan_children_panes.
  destruct (minimum_panes sg (flip d) cs) as [A1 A2]; [|lia|done|].
  { intros E. rewrite E in Hl. simpl in Hl. lia. }
  rewrite flip_flip in A2. unfold split. rewrite panes_leaf_count by done. split_and!; [done|done|].
  rewrite A1, Hl. lia.
Qed.

Lemma secondary_consistent d n sg at_offset :
  (2 <= n)%nat -> Z.of_nat n <= u16_max ->
  (forall o s, geo_axis (flip d) (at_offset o s) = s /\ geo_axis d (at_offset o s) = geo_axis d sg) ->
  2 * (Z.of_nat n - 1) - 1 <= geo_axis (flip d) sg < i32_max -> 0 <= geo_axis d sg ->
  consistent (secondary d n sg at_offset (geo_axis (flip d) sg)).
Proof.
  intros H2 Hn Hat Hb Hx. unfold secondary. destruct (Nat.eqb_spec n 2) as [->|Hne].
  { apply consistent_pane; destruct d; simpl in *; lia. }
  apply scan_split_consistent; rewrite ?flip_flip; [done|done|].
  apply split_axis_fills; lia.
Qed.

(** The main pane and the secondary cell, in either order. *)
Definition main_cells (mirrored : bool) (a b : LayoutCell) (x y : Z) : list LayoutCell :=
  if mirrored then [shift_cell b 0 0; shift_cell a x y] else [a; b].

Lemma main_cells_consistent d g mirrored a b x y :
  consistent a -> consistent b ->
  axis_size a (flip d) = geo_axis (flip d) g -> axis_size b (flip d) = geo_axis (flip d) g ->
  axis_size a d + 1 + axis_size b d = geo_axis d g ->
  consistent (split d g (main_cells mirrored a b x y)).
Proof.
  intros Ha Hb Xa Xb Ht. unfold main_cells, shift_cell. destruct mirrored;
    apply split_root_pair_consistent; rewrite ?fix_offsets_axis; try done; try lia;
    by apply fix_offsets_consistent.
Qed.

Lemma main_cells_needs d g mirrored a b x y m :
  min_axis d a = 1 -> min_axis d b = 1 -> min_axis (flip d) a = 1 -> min_axis (flip d) b = m -> 1 <= m ->
  min_axis d (split d g (main_cells mirrored a b x y)) = 3 /\
  min_axis (flip d) (split d g (main_cells mirrored a b x y)) = m /\
  leaf_count (split d g (main_cells mirrored a b x y)) = (leaf_count a + leaf_count b)%nat.
Proof.
  intros A1 B1 A2 B2 Hm.
  destruct (minimum_split g d (main_cells mirrored a b x y) m) as [M1 M2].
  - by destruct mirrored.
  - by destruct mirrored.
  - unfold main_cells, shift_cell. destruct mirrored; rewrite !Forall_cons; unfold thin;
      rewrite ?min_axis_fix_offsets; split_and!; (done || lia).
  - right. unfold main_cells, shift_cell.
    destruct mirrored; rewrite !Exists_cons, ?min_axis_fix_offsets; auto.
  - split_and!; [|done|].
    + unfold split. rewrite M1. by destruct mirrored.
    + unfold main_cells, shift_cell. destruct mirrored; simpl; rewrite ?fix_offsets_leaf_count; lia.
Qed.

Definition main_size (d : LayoutDirection) (g : LayoutGeometry) (o : LayoutOptions) : Z :=
  match d with
  | LeftRight => resolve_main_pane_size (width g) (requested_main_width o) DEFAULT_MAIN_PANE_WIDTH
  | TopBottom => resolve_main_pane_size (height g) (requested_main_height o) DEFAULT_MAIN_PANE_HEIGHT
  end.

Definition build_main (d : LayoutDirection) : nat -> LayoutGeometry -> LayoutOptions -> bool -> LayoutTree :=
  match d with LeftRight => build_main_vertical | TopBottom => build_main_horizontal end.

Definition rest_size (d : LayoutDirection) (g : LayoutGeometry) (o : LayoutOptions) : Z :=
  sat_sub (sat_sub (geo_axis d g) (main_size d g o)) PANE_BORDER_CELLS.

(** Both builders are the same construction, along and across. *)
Lemma build_main_eq d n g o mirrored :
  exists sg at_offset x y,
    geo_axis d sg = rest_size d g o /\ geo_axis (flip d) sg = geo_axis (flip d) g /\
    (forall off s, geo_axis (flip d) (at_offset off s) = s /\
                   geo_axis d (at_offset off s) = geo_axis d sg) /\
    build_main d n g o mirrored =
    mkTree (fix_offsets 0 0
              (split d g
                 (main_cells mirrored
                    (pane (mkGeometry (match d with LeftRight => main_size d g o | _ => width g end)
                                      (match d with TopBottom => main_size d g o | _ => height g end)
                                      0 0))
                    (secondary d n sg at_offset (geo_axis (flip d) sg)) x y)))
      (if mirrored then Some (mirrored_leaf_map n) else None).
Proof.
  destruct d.
  - exists (mkGeometry (rest_size LeftRight g o) (height g)
              (u32_add (main_size LeftRight g o) PANE_BORDER_CELLS) 0).
    exists (fun y h => mkGeometry (rest_size LeftRight g o) h
              (u32_add (main_size LeftRight g o) PANE_BORDER_CELLS) y).
    exists (u32_add (rest_size LeftRight g o) PANE_BORDER_CELLS), 0.
    split_and!; [done|done|done|]. by destruct mirrored.
  - exists (mkGeometry (width g) (rest_size TopBottom g o) 0
              (u32_add (main_size TopBottom g o) PANE_BORDER_CELLS)).
    exists (fun x w => mkGeometry w (rest_size TopBottom g o) x
              (u32_add (main_size TopBottom g o) PANE_BORDER_CELLS)).
    exists 0, (u32_add (rest_size TopBottom g o) PANE_BORDER_CELLS).
    split_and!; [done|done|done|]. by destruct mirrored.
Qed.

(** Requested sizes are unsigned. *)
Definition options_ok (o : LayoutOptions) : Prop :=
  (forall w, requested_main_width o = Some w -> in_u16 w) /\
  (forall h, requested_main_height o = Some h -> in_u16 h) /\
  (forall c, tiled_max_columns o = Some c -> in_u16 c).

Lemma main_size_range d g o :
  options_ok o -> 3 <= geo_axis d g < i32_max ->
  0 <= main_size d g o /\ 0 <= rest_size d g o /\
  main_size d g o + 1 + rest_size d g o = geo_axis d g.
Proof.
  intros (Hw & Hh & _) Hg. unfold rest_size.
  destruct d; cbn [geo_axis main_size] in *.
  - destruct (resolve_main_pane_size_range (width g) (requested_main_width o) DEFAULT_MAIN_PANE_WIDTH)
      as (R1 & R2 & ->); [done|intros r Hr; apply Hw in Hr; unfold in_u16 in Hr; lia|done|lia].
  - destruct (resolve_main_pane_size_range (height g) (requested_main_height o) DEFAULT_MAIN_PANE_HEIGHT)
      as (R1 & R2 & ->); [done|intros r Hr; apply Hh in Hr; unfold in_u16 in Hr; lia|done|lia].
Qed.

Lemma build_main_built d n g o mirrored :
  (2 <= n)%nat -> Z.of_nat n <= u16_max -> options_ok o ->
  3 <= geo_axis d g < i32_max -> 2 * (Z.of_nat n - 1) - 1 <= geo_axis (flip d) g < i32_max ->
  built n g (build_main d n g o mirrored).
Proof.
  intros H2 Hn Ho Hg Hx. destruct (main_size_range d g o Ho Hg) as (M1 & M2 & M3).
  destruct (build_main_eq d n g o mirrored) as (sg & at_offset & x & y & E1 & E2 & E3 & ->).
  set (main := pane _). set (sec := secondary _ _ _ _ _).
  destruct (secondary_needs d n sg at_offset (geo_axis (flip d) sg) H2 Hn) as (L & N1 & N2).
  fold sec in L, N1, N2.
  assert (axis_size sec d = geo_axis d sg /\ axis_size sec (flip d) = geo_axis (flip d) sg) as [S1 S2].
  { unfold sec, secondary, axis_size. by destruct (n =? 2)%nat. }
  assert (axis_size main d = main_size d g o /\ axis_size main (flip d) = geo_axis (flip d) g) as [A1 A2].
  { by destruct d. }
  split; cbn [root].
  - apply fix_offsets_consistent, main_cells_consistent; [| |congruence..|lia].
    + apply consistent_pane; destruct d; simpl in *; lia.
    + apply secondary_consistent; [done|done|done|lia|lia].
  - by rewrite fix_offsets_geometry.
  - by rewrite fix_offsets_geometry.
  - unfold tree_leaf_count. cbn [root]. rewrite fix_offsets_leaf_count.
    destruct (main_cells_needs d g mirrored main sec x y (2 * (Z.of_nat n - 1) - 1)) as (_ & _ & ->);
      [by destruct d|done|by destruct d|done|lia|]. rewrite L. simpl. lia.
Qed.

Lemma build_main_needs d n g o mirrored :
  (2 <= n)%nat -> Z.of_nat n <= u16_max ->
  let '(w, h) := along d 3 (2 * (Z.of_nat n - 1) - 1) in needs w h (build_main d n g o mirrored).
Proof.
  intros H2 Hn. destruct (build_main_eq d n g o mirrored) as (sg & at_offset & x & y & _ & _ & _ & ->).
  destruct (secondary_needs d n sg at_offset (geo_axis (flip d) sg) H2 Hn) as (_ & N1 & N2).
  destruct (main_cells_needs d g mirrored
    (pane (mkGeometry (match d with LeftRight => main_size d g o | _ => width g end)
                      (match d with TopBottom => main_size d g o | _ => height g end) 0 0))
    (secondary d n sg at_offset (geo_axis (flip d) sg)) x y (2 * (Z.of_nat n - 1) - 1))
    as (K1 & K2 & _); [by destruct d|done|by destruct d|done|lia|].
  destruct d; cbn [flip] in *; apply needs_axis; cbn [root]; rewrite min_axis_fix_offsets; done.
Qed.

(** *** The tiled grid *)

(** An [r] by [c] grid for [n] panes with no empty row. *)
Definition grid_ok (n r c : nat) : Prop :=
  (1 <= r /\ 1 <= c /\ c < n /\ (r - 1) * c < n /\ n <= r * c)%nat.

Lemma grid_loop_free n fuel r c :
  (1 <= r -> 1 <= c -> c < n -> (r - 1) * c < n -> (r <= c \/ n <= r * c) -> n - r <= fuel ->
   let '(r', c') := grid_loop fuel n r c None in grid_ok n r' c')%nat.
Proof.
  revert r c. induction fuel as [|fuel IH]; intros r c Hr Hc Hcn Hlast Hside Hf; simpl.
  { unfold grid_ok. split_and!; nia. }
  destruct (Nat.ltb_spec (r * c) n) as [Hlt|Hge]; [|unfold grid_ok; split_and!; lia].
  destruct (Nat.ltb_spec ((r + 1) * c) n) as [Hlt2|Hge2]; simpl; apply IH; nia.
Qed.

Lemma grid_loop_columns n fuel r c max_columns :
  (1 <= r -> 1 <= c -> c < n -> c <= r ->
   1 <= (grid_loop fuel n r c max_columns).2 < n)%nat.
Proof.
  revert r c. induction fuel as [|fuel IH]; intros r c Hr Hc Hcn Hcr; simpl; [lia|].
  destruct (Nat.ltb_spec (r * c) n) as [Hlt|Hge]; [|simpl; lia].
  destruct (Nat.ltb_spec ((r + 1) * c) n) as [Hlt2|Hge2]; simpl; [|apply IH; lia].
  destruct (below_limit max_columns c); apply IH; nia.
Qed.

Lemma div_ceil_spec n c : (1 <= c -> 1 <= n -> (div_ceil n c - 1) * c < n <= div_ceil n c * c)%nat.
Proof.
  intros Hc Hn. unfold div_ceil.
  pose proof (Nat.div_mod_eq (n + c - 1) c). pose proof (Nat.mod_upper_bound (n + c - 1) c ltac:(lia)).
  nia.
Qed.

Lemma tiled_grid_ok n max_columns :
  (2 <= n)%nat -> (forall l, max_columns = Some l -> (1 <= l)%nat) ->
  let '(r, c) := tiled_grid_size n max_columns in
  grid_ok n r c /\ forall l, max_columns = Some l -> (c <= l)%nat.
Proof.
  intros Hn Hlim. unfold tiled_grid_size.
  pose proof (grid_loop_columns n n 1 1 max_columns ltac:(lia) ltac:(lia) ltac:(lia) ltac:(lia)) as Hc.
  destruct max_columns as [limit|].
  - destruct (grid_loop n n 1 1 (Some limit)) as [r c]. simpl in Hc. specialize (Hlim limit eq_refl).
    set (c' := (c `min` (limit `max` 1))%nat).
    pose proof (div_ceil_spec n (c' `max` 1) ltac:(lia) ltac:(lia)) as Hd.
    replace (c' `max` 1)%nat with c' in * by (unfold c'; lia).
    assert (div_ceil n c' <> 0)%nat by (intros E; rewrite E in Hd; simpl in Hd; lia).
    replace (div_ceil n c' `max` 1)%nat with (div_ceil n c') by lia.
    split; [unfold grid_ok, c'; split_and!; unfold c' in *; lia|]. intros l [=<-]. unfold c'. lia.
  - pose proof (grid_loop_free n n 1 1) as Hg. destruct (grid_loop n n 1 1 None) as [r c].
    specialize (Hg ltac:(lia) ltac:(lia) ltac:(lia) ltac:(lia) ltac:(lia) ltac:(lia)).
    unfold grid_ok in *. replace (r `max` 1)%nat with r by lia. replace (c `max` 1)%nat with c by lia.
    split; [lia|done].
Qed.

(** Stretching the last child. *)
Lemma stretch_last_shape d extra cs : map erase (stretch_last d extra cs) = map erase cs.
Proof.
  unfold stretch_last. destruct (0 <? extra); [|done]. apply list_eq. intros j.
  rewrite !list_lookup_fmap. destruct (decide (j = length cs - 1)%nat) as [->|Hj].
  - rewrite list_lookup_alter_eq. destruct (cs !! _); simpl; [|done].
    f_equal. apply resize_adjust_fuel_erase.
  - by rewrite list_lookup_alter_ne.
Qed.

Lemma stretch_last_spec d extra cs v :
  cs <> [] -> Forall consistent cs -> 0 <= extra -> total d cs + extra <= i32_max ->
  Forall (fun c => axis_size c (flip d) = v) cs ->
  Forall consistent (stretch_last d extra cs) /\
  Forall (fun c => axis_size c (flip d) = v) (stretch_last d extra cs) /\
  total d (stretch_last d extra cs) = total d cs + extra.
Proof.
  intros Hne Hcs Hx Hb Hcross. unfold stretch_last. destruct (Z.ltb_spec 0 extra); [|split_and!; done || lia].
  destruct (lookup_lt_is_Some_2 cs (length cs - 1)) as [c Hc]; [destruct cs; [done|simpl; lia]|].
  assert (c ∈ cs) as Hin by (by eapply list_elem_of_lookup_2).
  pose proof (total_elem_le d cs c Hcs Hin) as Hle. rewrite Forall_forall in Hcs.
  pose proof (Hcs c Hin) as Hcc. pose proof (consistent_nonneg c Hcc d) as Hnn.
  pose proof (resize_check_range c d Hcc ltac:(machine)) as Hrc.
  rewrite as_i32_small by machine.
  destruct (resize_adjust_adjusted d extra c) as [A1 A2 A3 A4 _ _];
    [split_and!; [done|lia|machine|machine]|].
  split_and!.
  - apply Forall_alter; [by apply Forall_forall|]. intros c' Hc' _. by simplify_eq.
  - by eapply Forall_axis_alter.
  - rewrite (total_alter _ _ _ _ c), A3 by done. lia.
Qed.

Lemma length_stretch_last d extra cs : length (stretch_last d extra cs) = length cs.
Proof. unfold stretch_last. destruct (0 <? extra); [|done]. by rewrite length_alter. Qed.

(** *** Rows of the grid *)

Lemma row_children_spec w h x y k :
  0 <= w -> 0 <= h ->
  length (row_children w h x y k) = k /\ Forall consistent (row_children w h x y k) /\
  Forall (fun c => axis_size c TopBottom = h) (row_children w h x y k) /\
  total LeftRight (row_children w h x y k) = Z.of_nat k * (w + 1) /\
  Forall (fun c => kind c = Pane) (row_children w h x y k).
Proof.
  intros Hw Hh. revert x. induction k as [|k IH]; intros x; [by split_and!|]. cbn [row_children].
  destruct (IH (u32_sat_add (u32_sat_add x w) PANE_BORDER_CELLS)) as (I1 & I2 & I3 & I4 & I5).
  rewrite total_cons, I4. cbn [length]. rewrite I1. unfold axis_size at 2. cbn [pane geometry geo_axis width].
  split_and!; [done|constructor; [by apply consistent_pane|done]|by constructor|lia|by constructor].
Qed.

Lemma erase_panes cs cs' :
  map erase cs' = map erase cs -> Forall (fun c => kind c = Pane) cs ->
  Forall (fun c => kind c = Pane) cs'.
Proof.
  revert cs'. induction cs as [|c cs IH]; intros [|c' cs'] He Hp; try done.
  injection He as Hg He. apply Forall_cons in Hp as [Hp Hps]. constructor; [|by apply IH].
  destruct c as [g k], c' as [g' [|d' l']]; [done|]. simpl in *. by subst k.
Qed.

(** Whatever the geometry, a row has its panes and needs two cells per pane
    but one. *)
Lemma tiled_row_needs g rw w h y k c :
  (1 <= k <= c)%nat -> Z.of_nat c <= u16_max -> 0 <= w -> 0 <= h ->
  leaf_count (tiled_row g rw w h y k c) = k /\
  min_axis TopBottom (tiled_row g rw w h y k c) = 1 /\
  min_axis LeftRight (tiled_row g rw w h y k c) = 2 * Z.of_nat k - 1.
Proof.
  intros Hk Hc Hw Hh. unfold tiled_row. destruct (Nat.eqb_spec k 1) as [->|Hk1]; simpl orb.
  { cbn [pane geometry width]. rewrite Z.eqb_refl. done. }
  rewrite (proj2 (Nat.eqb_neq c 1)) by lia. unfold split. cbn [geometry width]. rewrite Z.eqb_refl. cbv iota.
  destruct (row_children_spec w h 0 y k Hw Hh) as (R1 & _ & _ & _ & R5).
  set (cs := stretch_last _ _ _). set (rg := mkGeometry _ _ _ _).
  assert (length cs = k) as Hl by (unfold cs; by rewrite length_stretch_last).
  assert (Forall (fun c => kind c = Pane) cs) as Hp
    by (eapply erase_panes; [apply stretch_last_shape|done]).
  destruct (minimum_panes rg LeftRight cs) as [M1 M2]; [|lia|done|].
  { intros E. rewrite E in Hl. simpl in Hl. lia. }
  rewrite panes_leaf_count by done. cbn [flip] in M2. split_and!; [done|exact M2|rewrite M1; lia].
Qed.

Lemma tiled_row_consistent g rw w h y k c :
  (1 <= k <= c)%nat -> Z.of_nat c <= u16_max -> 0 <= w -> 0 <= h ->
  Z.of_nat c * (w + 1) <= width g + 1 -> width g < i32_max -> width g <= rw ->
  0 <= width g ->
  consistent (tiled_row g rw w h y k c) /\
  axis_size (tiled_row g rw w h y k c) LeftRight = width g /\
  axis_size (tiled_row g rw w h y k c) TopBottom = h.
Proof.
  intros Hk Hc Hw Hh Hfit Hb Hrw HW. unfold tiled_row.
  destruct (Nat.eqb_spec k 1) as [->|Hk1]; simpl orb.
  { cbn [pane geometry width]. rewrite Z.eqb_refl. split_and!; [by apply consistent_pane|done|done]. }
  rewrite (proj2 (Nat.eqb_neq c 1)) by lia. unfold split. cbn [geometry width]. rewrite Z.eqb_refl. cbv iota.
  split_and!; [|done|done].
  destruct (row_children_spec w h 0 y k Hw Hh) as (R1 & R2 & R3 & R4 & _).
  assert (Z.of_nat k * (w + 1) <= width g + 1) as Hfit' by nia.
  set (used := Z.min _ rw).
  assert (used = Z.of_nat k * (w + 1) - 1) as Hu.
  { assert (w < i32_max) by nia. unfold used, PANE_BORDER_CELLS. rewrite u32_add_small by machine.
    unfold u32_mul. rewrite (wrap_u32_small (Z.of_nat k)) by machine.
    rewrite wrap_u32_small by (machine || nia). unfold sat_sub. nia. }
  set (cs := row_children w h 0 y k) in *.
  assert (cs <> []) as Hne by (intros E; rewrite E in R1; simpl in R1; lia).
  assert (sat_sub (width g) used = width g - used) as -> by (rewrite Hu; machine).
  destruct (stretch_last_spec LeftRight (width g - used) cs h Hne R2 ltac:(lia)) as (S1 & S2 & S3);
    [machine|done|].
  constructor; [|done|done|cbn [geo_axis width]; lia].
  intros E. apply (f_equal length) in E. rewrite length_stretch_last, R1 in E. simpl in E. lia.
Qed.

Section TiledRows.
Context (g : LayoutGeometry) (rw w h : Z) (c : nat).
Context (Hc : (1 <= c)%nat) (Hcb : Z.of_nat c <= u16_max) (Hw : 0 <= w) (Hh : 0 <= h).

Lemma tiled_rows_needs r n y :
  (1 <= r)%nat -> ((r - 1) * c < n <= r * c)%nat ->
  length (tiled_rows g rw w h c r n y) = r /\
  foldr Nat.add 0%nat (map leaf_count (tiled_rows g rw w h c r n y)) = n /\
  Forall (thin TopBottom (2 * Z.of_nat c - 1)) (tiled_rows g rw w h c r n y) /\
  ((2 <= r)%nat -> Exists (fun row => min_axis LeftRight row = 2 * Z.of_nat c - 1)
                     (tiled_rows g rw w h c r n y)).
Proof.
  revert n y. induction r as [|r IH]; intros n y Hr Hn; [lia|]. cbn [tiled_rows].
  rewrite (proj2 (Nat.eqb_neq n 0)) by lia. set (k := (n `min` c)%nat).
  destruct (tiled_row_needs g rw w h y k c ltac:(lia) Hcb Hw Hh) as (L & N1 & N2).
  destruct (decide (r = 0)%nat) as [->|Hr0].
  - cbn [tiled_rows map length foldr]. rewrite L. split_and!; [done|lia| |lia].
    apply Forall_cons. split; [|constructor]. unfold thin. cbn [flip]. lia.
  - assert (k = c) as Hkc by (unfold k; nia).
    destruct (IH (n - k)%nat (u32_sat_add (u32_sat_add y h) PANE_BORDER_CELLS)) as (I1 & I2 & I3 & _);
      [lia|rewrite Hkc; nia|].
    cbn [map length foldr]. rewrite I1, I2, L. split_and!; [done|lia| |].
    + apply Forall_cons. split; [|done]. unfold thin. cbn [flip]. lia.
    + intros _. apply Exists_cons. left. lia.
Qed.

Context (Hfit : Z.of_nat c * (w + 1) <= width g + 1).
Context (Hb : width g < i32_max) (Hrw : width g <= rw) (HW : 0 <= width g).

Lemma tiled_rows_consistent r n y :
  (1 <= r)%nat -> ((r - 1) * c < n <= r * c)%nat ->
  Forall consistent (tiled_rows g rw w h c r n y) /\
  Forall (fun row => axis_size row LeftRight = width g) (tiled_rows g rw w h c r n y) /\
  total TopBottom (tiled_rows g rw w h c r n y) = Z.of_nat r * (h + 1).
Proof.
  revert n y. induction r as [|r IH]; intros n y Hr Hn; [lia|]. cbn [tiled_rows].
  rewrite (proj2 (Nat.eqb_neq n 0)) by lia. set (k := (n `min` c)%nat).
  destruct (tiled_row_consistent g rw w h y k c ltac:(lia) Hcb Hw Hh Hfit Hb Hrw HW) as (C1 & C2 & C3).
  destruct (decide (r = 0)%nat) as [->|Hr0].
  - cbn [tiled_rows]. rewrite total_cons, C3, total_nil. split_and!; [by constructor|by constructor|lia].
  - assert (k = c) as Hkc by (unfold k; nia).
    destruct (IH (n - k)%nat (u32_sat_add (u32_sat_add y h) PANE_BORDER_CELLS)) as (I1 & I2 & I3);
      [lia|rewrite Hkc; nia|].
    rewrite total_cons, I3, C3. split_and!; [by constructor|by constructor|lia].
Qed.
End TiledRows.

Lemma tiled_cell_fits total n :
  1 <= n -> 2 * n - 1 <= total ->
  1 <= tiled_cell total n /\ n * (tiled_cell total n + 1) <= total + 1.
Proof.
  intros Hn Ht. unfold tiled_cell, PANE_MINIMUM.
  replace (sat_sub total (sat_sub n 1)) with (total + 1 + (-1) * n) by machine. rewrite Z.div_add by lia.
  assert (2 <= (total + 1) / n) by (apply Z.div_le_lower_bound; lia).
  pose proof (Z.mul_div_le (total + 1) n ltac:(lia)). split; lia.
Qed.

Lemma tiled_cell_pos total n : 1 <= tiled_cell total n.
Proof. unfold tiled_cell, PANE_MINIMUM. lia. Qed.

Lemma build_tiled_eq n g o :
  let '(r, c) := tiled_grid_size n (tiled_columns o) in
  Z.of_nat r <= u32_max -> Z.of_nat c <= u32_max ->
  exists rw extra,
    rw = tiled_root (width g) (tiled_cell (width g) (Z.of_nat c)) (Z.of_nat c) /\
    extra = sat_sub (height g)
              (Z.min (u32_sat_add (u32_mul (Z.of_nat r) (tiled_cell (height g) (Z.of_nat r)))
                        (sat_sub (Z.of_nat r) 1))
                 (tiled_root (height g) (tiled_cell (height g) (Z.of_nat r)) (Z.of_nat r))) /\
    root (build_tiled n g o) =
    fix_offsets 0 0
      (split TopBottom g
         (stretch_last TopBottom extra
            (tiled_rows g rw (tiled_cell (width g) (Z.of_nat c)) (tiled_cell (height g) (Z.of_nat r))
               c r n 0))) /\
    leaf_map (build_tiled n g o) = None.
Proof.
  unfold build_tiled. destruct (tiled_grid_size n (tiled_columns o)) as [r c]. intros Hr Hc.
  rewrite !wrap_u32_small by machine. by do 2 eexists.
Qed.

Lemma tiled_columns_ok o l : options_ok o -> tiled_columns o = Some l -> (1 <= l)%nat.
Proof.
  intros (_ & _ & Ho). unfold tiled_columns. destruct (tiled_max_columns o) as [c|]; [|done].
  destruct (Z.ltb_spec 0 c); [|done]. intros [=<-]. lia.
Qed.

Lemma grid_bounds n r c :
  grid_ok n r c -> Z.of_nat n <= u16_max ->
  (2 <= r)%nat /\ Z.of_nat r <= u16_max /\ Z.of_nat c <= u16_max /\ ((r - 1) * c < n <= r * c)%nat.
Proof. unfold grid_ok. intros H Hn. assert (r <= n)%nat by nia. split_and!; nia. Qed.

Lemma leaf_count_shape g d cs cs' :
  map erase cs' = map erase cs ->
  leaf_count (mkCell g (Split d cs')) = foldr Nat.add 0%nat (map leaf_count cs).
Proof.
  intros He. rewrite <- (leaf_count_erase (mkCell g (Split d cs'))). simpl. rewrite He, map_map.
  f_equal. apply map_ext. apply leaf_count_erase.
Qed.

Lemma build_tiled_needs n g o :
  (2 <= n)%nat -> Z.of_nat n <= u16_max -> options_ok o ->
  let '(r, c) := tiled_grid_size n (tiled_columns o) in
  needs (2 * Z.of_nat c - 1) (2 * Z.of_nat r - 1) (build_tiled n g o) /\
  tree_leaf_count (build_tiled n g o) = n.
Proof.
  intros H2 Hn Ho. pose proof (tiled_grid_ok n (tiled_columns o) H2) as Hgrid.
  pose proof (build_tiled_eq n g o) as Heq.
  destruct (tiled_grid_size n (tiled_columns o)) as [r c].
  destruct Hgrid as [Hok _]; [intros l; by apply tiled_columns_ok|].
  destruct (grid_bounds n r c Hok Hn) as (B1 & B2 & B3 & B4). destruct Hok as (_ & O2 & _).
  destruct Heq as (rw & extra & _ & _ & Hroot & _); [machine|machine|].
  unfold needs, tree_leaf_count. rewrite Hroot, fix_offsets_leaf_count.
  set (w := tiled_cell (width g) _). set (h := tiled_cell (height g) _).
  destruct (tiled_rows_needs g rw w h c O2 B3) with (r := r) (n := n) (y := 0)
    as (N1 & N2 & N3 & N4); [pose proof (tiled_cell_pos (width g) (Z.of_nat c)); unfold w; lia
    |pose proof (tiled_cell_pos (height g) (Z.of_nat r)); unfold h; lia|lia|done|].
  set (rs := tiled_rows _ _ _ _ _ _ _ _) in *.
  pose proof (stretch_last_shape TopBottom extra rs) as Hs. split.
  - apply (needs_axis _ _ (mkTree (fix_offsets 0 0 (split TopBottom g (stretch_last TopBottom extra rs))) None));
      cbn [root]; rewrite min_axis_fix_offsets;
      rewrite (min_axis_erase _ (split TopBottom g rs)) by (simpl; by rewrite Hs).
    + destruct (minimum_split g TopBottom rs (2 * Z.of_nat c - 1)) as [_ M];
        [intros E; rewrite E in N1; simpl in N1; lia|lia|done|right; by apply N4|exact M].
    + destruct (minimum_split g TopBottom rs (2 * Z.of_nat c - 1)) as [M _];
        [intros E; rewrite E in N1; simpl in N1; lia|lia|done|right; by apply N4|].
      unfold split. rewrite M, N1. done.
  - unfold split. by rewrite (leaf_count_shape _ _ rs).
Qed.

Lemma build_tiled_built n g o :
  (2 <= n)%nat -> Z.of_nat n <= u16_max -> options_ok o ->
  let '(r, c) := tiled_grid_size n (tiled_columns o) in
  2 * Z.of_nat c - 1 <= width g < i32_max -> 2 * Z.of_nat r - 1 <= height g < i32_max ->
  built n g (build_tiled n g o).
Proof.
  intros H2 Hn Ho. pose proof (tiled_grid_ok n (tiled_columns o) H2) as Hgrid.
  pose proof (build_tiled_needs n g o H2 Hn Ho) as Hneeds. pose proof (build_tiled_eq n g o) as Heq.
  destruct (tiled_grid_size n (tiled_columns o)) as [r c]. destruct Hneeds as [_ Hleaves].
  destruct Hgrid as [Hok _]; [intros l; by apply tiled_columns_ok|].
  destruct (grid_bounds n r c Hok Hn) as (B1 & B2 & B3 & B4). destruct Hok as (_ & O2 & _).
  destruct Heq as (rw & extra & Hrw & Hextra & Hroot & _); [machine|machine|]. intros Hw Hh.
  destruct (tiled_cell_fits (width g) (Z.of_nat c)) as [W1 W2]; [lia|lia|].
  destruct (tiled_cell_fits (height g) (Z.of_nat r)) as [V1 V2]; [lia|lia|].
  set (w := tiled_cell (width g) (Z.of_nat c)) in *. set (h := tiled_cell (height g) (Z.of_nat r)) in *.
  assert (width g <= rw) as Hrw1 by (rewrite Hrw; unfold tiled_root; lia).
  destruct (tiled_rows_needs g rw w h c O2 B3) with (r := r) (n := n) (y := 0)
    as (N1 & _); [lia|lia|lia|done|].
  destruct (tiled_rows_consistent g rw w h c O2 B3) with (r := r) (n := n) (y := 0)
    as (C1 & C2 & C3); [lia|lia|done|lia|done|lia|lia|done|].
  set (rs := tiled_rows _ _ _ _ _ _ _ _) in *.
  assert (extra = height g + 1 - Z.of_nat r * (h + 1)) as Hx.
  { rewrite Hextra. unfold u32_mul. rewrite wrap_u32_small by (machine || nia).
    unfold u32_sat_add, sat_sub, tiled_root. assert (Z.of_nat r * h <= height g + 1) by nia. machine. }
  destruct (stretch_last_spec TopBottom extra rs (width g)) as (S1 & S2 & S3);
    [intros E; rewrite E in N1; simpl in N1; lia|done|lia|rewrite C3, Hx; machine|done|].
  split; [|by rewrite Hroot, fix_offsets_geometry..|done]. rewrite Hroot. apply fix_offsets_consistent.
  constructor; [|done|done|cbn [geo_axis]; lia].
  intros E. apply (f_equal length) in E. rewrite length_stretch_last, N1 in E. simpl in E. lia.
Qed.

(** ** Every named layout *)

(** The smallest window the layout fits in. *)
Definition layout_minimum (layout : LayoutName) (n : nat) (o : LayoutOptions) : Z * Z :=
  let k := Z.of_nat n in
  match layout with
  | EvenHorizontal => (2 * k - 1, 1)
  | EvenVertical => (1, 2 * k - 1)
  | MainVertical | MainVerticalMirrored => (3, 2 * (k - 1) - 1)
  | MainHorizontal | MainHorizontalMirrored => (2 * (k - 1) - 1, 3)
  | Tiled =>
      let '(r, c) := tiled_grid_size n (tiled_columns o) in
      (2 * Z.of_nat c - 1, 2 * Z.of_nat r - 1)
  end.

Section Named.
Context (layout : LayoutName) (n : nat) (o : LayoutOptions).
Context (H2 : (2 <= n)%nat) (Hn : Z.of_nat n <= u16_max) (Ho : options_ok o).

Lemma layout_minimum_range :
  1 <= (layout_minimum layout n o).1 <= 2 * u16_max /\ 1 <= (layout_minimum layout n o).2 <= 2 * u16_max.
Proof.
  unfold layout_minimum. destruct layout; try (cbn [fst snd]; machine).
  pose proof (tiled_grid_ok n (tiled_columns o) H2) as Hgrid.
  destruct (tiled_grid_size n (tiled_columns o)) as [r c].
  destruct Hgrid as [Hok _]; [intros l; by apply tiled_columns_ok|].
  destruct (grid_bounds n r c Hok Hn) as (B1 & B2 & B3 & B4). destruct Hok as (_ & O2 & _).
  cbn [fst snd]. lia.
Qed.

Lemma build_named_needs g :
  minimum_size (root (build_named layout n g o)) = layout_minimum layout n o.
Proof.
  pose proof (build_tiled_needs n g o H2 Hn Ho) as Ht.
  pose proof (fun d => build_even_needs d n g ltac:(lia) Hn) as He.
  pose proof (fun d m => build_main_needs d n g o m H2 Hn) as Hm.
  unfold layout_minimum. destruct layout; cbn [build_named].
  - exact (Hm LeftRight false).
  - exact (Hm TopBottom false).
  - exact (He LeftRight).
  - exact (He TopBottom).
  - destruct (tiled_grid_size n (tiled_columns o)) as [r c]. apply Ht.
  - exact (Hm TopBottom true).
  - exact (Hm LeftRight true).
Qed.

Lemma build_named_built g :
  (layout_minimum layout n o).1 <= width g < i32_max ->
  (layout_minimum layout n o).2 <= height g < i32_max ->
  built n g (build_named layout n g o).
Proof.
  pose proof (build_tiled_built n g o H2 Hn Ho) as Ht.
  unfold layout_minimum. destruct layout; cbn [build_named]; intros Hw Hh.
  - apply (build_main_built LeftRight); (done || cbn [fst snd geo_axis flip] in *; lia).
  - apply (build_main_built TopBottom); (done || cbn [fst snd geo_axis flip] in *; lia).
  - apply (build_even_built LeftRight); (done || cbn [fst snd geo_axis flip] in *; lia).
  - apply (build_even_built TopBottom); (done || cbn [fst snd geo_axis flip] in *; lia).
  - destruct (tiled_grid_size n (tiled_columns o)) as [r c]. by apply Ht.
  - apply (build_main_built TopBottom); (done || cbn [fst snd geo_axis flip] in *; lia).
  - apply (build_main_built LeftRight); (done || cbn [fst snd geo_axis flip] in *; lia).
Qed.
End Named.

Lemma mirrored_leaf_map_eq n :
  (2 <= n)%nat -> mirrored_leaf_map n = (n - 1)%nat :: seq 0 (n - 1).
Proof.
  intros H2. unfold mirrored_leaf_map. rewrite (proj2 (Nat.leb_le _ _) H2). f_equal.
  rewrite <- (List.seq_shift (n - 1) 0), map_map. erewrite map_ext_in; [apply map_id|]. intros a _. cbn. lia.
Qed.

Lemma seq_head n : (1 <= n)%nat -> seq 0 n = 0%nat :: seq 1 (n - 1).
Proof. intros H. destruct n as [|n]; [lia|]. simpl. by rewrite Nat.sub_0_r. Qed.

Lemma seq_tail n : (1 <= n)%nat -> seq 0 n = seq 0 (n - 1) ++ [(n - 1)%nat].
Proof. intros H. destruct n as [|n]; [lia|]. rewrite List.seq_S. simpl. by rewrite Nat.sub_0_r. Qed.

Lemma build_named_map layout n g o :
  leaf_map (build_named layout n g o) =
  match layout with
  | MainVerticalMirrored | MainHorizontalMirrored => Some (mirrored_leaf_map n)
  | _ => None
  end.
Proof.
  destruct layout; try done. cbn [build_named]. unfold build_tiled.
  by destruct (tiled_grid_size n (tiled_columns o)).
Qed.

Lemma named_leaf_map layout n size o :
  (2 <= n)%nat ->
  leaf_map (named layout n size o) =
  match layout with
  | MainVerticalMirrored | MainHorizontalMirrored => Some (mirrored_leaf_map n)
  | _ => None
  end.
Proof.
  intros H2. unfold named. rewrite (proj2 (Nat.leb_gt _ _)) by lia.
  destruct (minimum_size _) as [mw mh]. cbn [leaf_map]. case_match; apply build_named_map.
Qed.

Lemma named_sound layout n size o :
  (2 <= n)%nat -> Z.of_nat n <= u16_max -> options_ok o -> in_u16 (cols size) -> in_u16 (rows size) ->
  let t := named layout n size o in
  let '(w, h) := layout_minimum layout n o in
  well_formed t /\ check (root t) = true /\ tree_leaf_count t = n /\
  width (geometry (root t)) = Z.max (cols size) w /\ height (geometry (root t)) = Z.max (rows size) h.
Proof.
  intros H2 Hn Ho Hc Hr t. pose proof (layout_minimum_range layout n o H2 Hn Ho) as [R1 R2].
  pose proof (build_named_built layout n o H2 Hn Ho) as Hbuilt.
  pose proof (build_named_needs layout n o H2 Hn Ho) as Hneeds.
  destruct (layout_minimum layout n o) as [w h]. cbn [fst snd] in *.
  assert (exists t0, built n (mkGeometry (Z.max (cols size) w) (Z.max (rows size) h) 0 0) t0 /\
                     t = mkTree (fix_offsets 0 0 (root t0)) (leaf_map t0)) as (t0 & [B1 B2 B3 B4] & Et).
  { unfold t, named. rewrite (proj2 (Nat.leb_gt _ _)) by lia. rewrite Hneeds. cbn [width height].
    eexists. split; [|done]. destruct (Z.ltb_spec (cols size) w), (Z.ltb_spec (rows size) h); cbn [orb];
      try (apply Hbuilt; cbn [width height]; machine).
    rewrite !Z.max_l by lia. apply Hbuilt; cbn [width height]; machine. }
  cbn [width height] in *. assert (consistent (root t)) as Hcons.
  { rewrite Et. by apply fix_offsets_consistent. }
  assert (width (geometry (root t)) = Z.max (cols size) w) as Hw
    by (rewrite Et; cbn [root]; by rewrite fix_offsets_geometry).
  assert (height (geometry (root t)) = Z.max (rows size) h) as Hh
    by (rewrite Et; cbn [root]; by rewrite fix_offsets_geometry).
  split_and!; [|..|done|done].
  - split; [done|rewrite Et; apply fix_offsets_positioned|].
    intros []; unfold axis_size; cbn [geo_axis]; machine.
  - apply check_spec_lemma; [|done]. apply consistent_fits; [done|machine|machine].
  - rewrite Et. unfold tree_leaf_count. cbn [root]. rewrite fix_offsets_leaf_count. done.
Qed.

(** ** Properties *)

(** C19. Every named layout is sound: for any layout, any pane count from two to
    65535, any terminal size and any options, [named] returns a tree that passes
    [check] (the source's [debug_assert]), is laid out from the origin, has
    exactly one leaf per pane, and whose window is the terminal, enlarged only
    where the panes with their borders need more. *)
Theorem named_correct layout n size o :
  (2 <= n)%nat -> Z.of_nat n <= u16_max -> options_ok o -> in_u16 (cols size) -> in_u16 (rows size) ->
  let t := named layout n size o in
  let '(w, h) := layout_minimum layout n o in
  well_formed t /\ check (root t) = true /\ tree_leaf_count t = n /\
  width (geometry (root t)) = Z.max (cols size) w /\ height (geometry (root t)) = Z.max (rows size) h.
Proof. apply named_sound. Qed.

(** Seven tiled panes in a window of 4 by 3 cells, which is too small. *)
Lemma named_correct_witness :
  let t := named Tiled 7 (mkTerminalSize 4 3) default_options in
  check (root t) = true /\ tree_leaf_count t = 7%nat /\ geometry (root t) = mkGeometry 5 5 0 0.
Proof.
  destruct (named_correct Tiled 7 (mkTerminalSize 4 3) default_options) as (_ & H1 & H2 & _).
  - lia.
  - vm_compute. discriminate.
  - split_and!; intros ? [=].
  - vm_compute. split; discriminate.
  - vm_compute. split; discriminate.
  - split; [exact H1|]. split; [exact H2|]. vm_compute. reflexivity.
Defined.

(** The tiled grid: for two or more panes the search ends with a grid that
    holds every pane and has no empty row, narrower than the number of panes and
    within the configured number of columns. *)
Theorem tiled_grid_size_correct n max_columns :
  (2 <= n)%nat -> (forall limit, max_columns = Some limit -> (1 <= limit)%nat) ->
  let '(r, c) := tiled_grid_size n max_columns in
  (1 <= r /\ 1 <= c < n /\ (r - 1) * c < n <= r * c)%nat /\
  forall limit, max_columns = Some limit -> (c <= limit)%nat.
Proof.
  intros H2 Hl. pose proof (tiled_grid_ok n max_columns H2 Hl) as H.
  destruct (tiled_grid_size n max_columns) as [r c]. destruct H as [(? & ? & ? & ? & ?) ?].
  split; [lia|done].
Qed.

Lemma tiled_grid_size_correct_witness :
  let '(r, c) := tiled_grid_size 7 (Some 2%nat) in (7 <= r * c)%nat /\ (c <= 2)%nat.
Proof.
  pose proof (tiled_grid_size_correct 7 (Some 2%nat)) as H.
  destruct (tiled_grid_size 7 (Some 2%nat)) as [r c]. destruct H as [H1 H2].
  - lia.
  - intros limit [=<-]. lia.
  - split; [lia|]. apply H2. reflexivity.
Defined.

(** The mirrored layouts assign every leaf to exactly one pane: the pane
    order is a permutation of the leaves, the first pane gets the last leaf (the
    main cell) and pane [i] the leaf before it; the other layouts assign pane
    [i] to leaf [i]. *)
Theorem named_assigns_every_leaf layout n size o :
  (2 <= n)%nat ->
  let t := named layout n size o in
  let assigned := map (pane_leaf t) (seq 0 n) in
  Permutation assigned (map Some (seq 0 n)) /\
  assigned = match layout with
             | MainVerticalMirrored | MainHorizontalMirrored =>
                 Some (n - 1)%nat :: map Some (seq 0 (n - 1))
             | _ => map Some (seq 0 n)
             end.
Proof.
  intros H2 t assigned.
  pose proof (named_leaf_map layout n size o H2 : leaf_map t = _) as Hmap.
  assert (assigned = match layout with
          | MainVerticalMirrored | MainHorizontalMirrored =>
              Some (n - 1)%nat :: map Some (seq 0 (n - 1))
          | _ => map Some (seq 0 n) end) as ->.
  { unfold assigned, pane_leaf. rewrite Hmap.
    destruct layout; try done; rewrite mirrored_leaf_map_eq by done;
      rewrite (seq_head n) by lia; cbn [map]; f_equal; rewrite <- (List.seq_shift (n - 1) 0), map_map;
      apply map_ext_in; intros i Hi%List.in_seq; change (seq 0 (n - 1) !! i = Some i); rewrite lookup_seq_lt by lia; done. }
  split; [|done]. destruct layout; try done;
    rewrite (seq_tail n), map_app by lia; simpl; by rewrite Permutation_cons_append.
Qed.

Lemma named_assigns_every_leaf_witness :
  map (pane_leaf (named MainVerticalMirrored 3 (mkTerminalSize 80 24) default_options)) (seq 0 3)
  = [Some 2; Some 0; Some 1]%nat.
Proof.
  destruct (named_assigns_every_leaf MainVerticalMirrored 3 (mkTerminalSize 80 24) default_options)
    as [_ H]; [lia|]. rewrite H. reflexivity.
Defined.
