(* ===== verification/Text.v ===== *)
(** * Text

    Rust strings as the list of their bytes, and the number formatting and
    parsing of the standard library the code uses: ["{}"] and ["{:04x}"],
    [str::parse::<u32>], [u16::from_str_radix] and [str::split_once].  Every
    character the code compares with is ASCII, and in UTF-8 an ASCII byte is
    never part of another character, so looking at the next byte is looking at
    the next character. *)

From S2P Require Import Prelude.
From Stdlib Require Import Ascii.
From Stdlib Require String.

Abbreviation text := (list ascii).

Definition text_of (s : string) : text := String.list_ascii_of_string s.
Definition string_of (t : text) : string := String.string_of_list_ascii t.

Definition byte_of (c : ascii) : Z := Z.of_N (N_of_ascii c).

Definition ascii_at (z : Z) : ascii := ascii_of_N (Z.to_N z).

Lemma byte_of_range c : 0 <= byte_of c <= 255.
Proof. unfold byte_of. pose proof (N_ascii_bounded c). lia. Qed.

Lemma byte_of_ascii_at z : 0 <= z <= 255 -> byte_of (ascii_at z) = z.
Proof. intros H. unfold byte_of, ascii_at. rewrite N_ascii_embedding by lia. lia. Qed.

Lemma byte_of_inj c c' : byte_of c = byte_of c' -> c = c'.
Proof.
  intros H. unfold byte_of in H. apply N2Z.inj in H.
  by rewrite <- (ascii_N_embedding c), H, ascii_N_embedding.
Qed.

(** ** Decimal numbers *)

Definition is_ascii_digit (c : ascii) : bool := (48 <=? byte_of c) && (byte_of c <=? 57).

Definition digit_value (c : ascii) : Z := byte_of c - 48.

Definition dec_digit (d : Z) : ascii := ascii_at (48 + d).

(** ["{}"] of an unsigned integer; twenty digits hold every [u64]. *)
Fixpoint dec_loop (fuel : nat) (n : Z) (acc : text) : text :=
  match fuel with
  | O => acc
  | S fuel =>
      let acc := dec_digit (n mod 10) :: acc in
      if n / 10 =? 0 then acc else dec_loop fuel (n / 10) acc
  end.

Definition dec (n : Z) : text := dec_loop 20 n [].

Definition decimal_value (ds : text) : Z := fold_left (fun v c => v * 10 + digit_value c) ds 0.

(** [str::parse::<u32>] on a non-empty run of digits. *)
Definition parse_u32 (ds : text) : option Z :=
  if decimal_value ds <=? u32_max then Some (decimal_value ds) else None.

(** The leading digits of a text, and the rest. *)
Fixpoint span_digits (t : text) : text * text :=
  match t with
  | c :: rest =>
      if is_ascii_digit c then let '(ds, rest') := span_digits rest in (c :: ds, rest') else ([], t)
  | [] => ([], [])
  end.

Definition starts_with_digit (t : text) : bool :=
  match t with c :: _ => is_ascii_digit c | [] => false end.

Lemma dec_digit_spec d :
  0 <= d <= 9 -> is_ascii_digit (dec_digit d) = true /\ digit_value (dec_digit d) = d.
Proof.
  intros H. unfold is_ascii_digit, digit_value, dec_digit. rewrite byte_of_ascii_at by lia.
  split; [|lia]. apply andb_true_iff. rewrite !Z.leb_le. lia.
Qed.

Lemma dec_loop_app fuel n acc : dec_loop fuel n acc = dec_loop fuel n [] ++ acc.
Proof.
  revert n acc. induction fuel as [|fuel IH]; intros n acc; simpl; [done|].
  destruct (n / 10 =? 0); [done|]. rewrite (IH _ (_ :: acc)), (IH _ [_]), <- app_assoc. done.
Qed.

Lemma decimal_value_snoc ds c : decimal_value (ds ++ [c]) = decimal_value ds * 10 + digit_value c.
Proof. unfold decimal_value. by rewrite fold_left_app. Qed.

Lemma dec_loop_spec fuel n :
  0 <= n < 10 ^ Z.of_nat fuel -> (1 <= fuel)%nat ->
  dec_loop fuel n [] <> [] /\ Forall (fun c => is_ascii_digit c = true) (dec_loop fuel n []) /\
  decimal_value (dec_loop fuel n []) = n.
Proof.
  revert n. induction fuel as [|fuel IH]; intros n Hn Hf; [lia|]. simpl.
  pose proof (Z.mod_pos_bound n 10 ltac:(lia)) as Hm. pose proof (Z.div_mod n 10 ltac:(lia)) as Hdm.
  destruct (dec_digit_spec (n mod 10) ltac:(lia)) as [D1 D2].
  destruct (Z.eqb_spec (n / 10) 0) as [E|E].
  - split_and!; [done|by repeat constructor|]. unfold decimal_value. simpl. lia.
  - rewrite dec_loop_app. rewrite Nat2Z.inj_succ, Z.pow_succ_r in Hn by lia.
    assert (0 <= n / 10) by (apply Z.div_pos; lia).
    assert (n / 10 < 10 ^ Z.of_nat fuel) by (apply Z.div_lt_upper_bound; lia).
    destruct fuel as [|fuel].
    { simpl in *. lia. }
    destruct (IH (n / 10)) as (I1 & I2 & I3); [lia|lia|].
    split_and!; [by intros [? ?]%app_eq_nil|apply Forall_app; split; [done|by repeat constructor]|].
    rewrite decimal_value_snoc, I3, D2. lia.
Qed.

Lemma dec_spec n :
  0 <= n <= u64_max ->
  dec n <> [] /\ Forall (fun c => is_ascii_digit c = true) (dec n) /\ decimal_value (dec n) = n.
Proof. intros H. apply dec_loop_spec; [|lia]. unfold u64_max in H. simpl. lia. Qed.

Lemma span_digits_app ds t :
  Forall (fun c => is_ascii_digit c = true) ds -> starts_with_digit t = false ->
  span_digits (ds ++ t) = (ds, t).
Proof.
  induction 1 as [|c ds Hc Hds IH]; intros Ht; simpl.
  - destruct t as [|c t]; [done|]. simpl in *. by rewrite Ht.
  - by rewrite Hc, IH.
Qed.

Lemma span_digits_length t : (length (span_digits t).1 + length (span_digits t).2 = length t)%nat.
Proof.
  induction t as [|c t IH]; [done|]. simpl. destruct (is_ascii_digit c); [|done].
  destruct (span_digits t) as [ds rest]. simpl in *. lia.
Qed.

(** ** Hexadecimal numbers *)

Definition hex_digit (d : Z) : ascii := if d <? 10 then ascii_at (48 + d) else ascii_at (87 + d).

(** ["{:04x}"] of a [u16]. *)
Definition hex4 (n : Z) : text :=
  [hex_digit (n / 4096 mod 16); hex_digit (n / 256 mod 16); hex_digit (n / 16 mod 16);
   hex_digit (n mod 16)].

(** [char::to_digit(16)]. *)
Definition to_digit16 (c : ascii) : option Z :=
  let b := byte_of c in
  if (48 <=? b) && (b <=? 57) then Some (b - 48)
  else if (97 <=? b) && (b <=? 102) then Some (b - 87)
  else if (65 <=? b) && (b <=? 70) then Some (b - 55)
  else None.

Fixpoint hex_value (acc : Z) (ds : text) : option Z :=
  match ds with
  | [] => Some acc
  | c :: rest => d ← to_digit16 c; hex_value (acc * 16 + d) rest
  end.

(** [u16::from_str_radix(_, 16)]: one leading [+] is accepted, an empty number
    and a number above [u16::MAX] are not. *)
Definition from_str_radix16 (t : text) : option Z :=
  let digits := match t with
                | c :: rest => if decide (c = "+"%char) then rest else t
                | [] => []
                end in
  match digits with
  | [] => None
  | _ => v ← hex_value 0 digits; if v <=? u16_max then Some v else None
  end.

Lemma to_digit16_hex_digit d :
  0 <= d <= 15 -> to_digit16 (hex_digit d) = Some d /\ hex_digit d <> "+"%char.
Proof.
  intros H. assert (exists k, (k < 16)%nat /\ d = Z.of_nat k) as (k & Hk & ->)
    by (exists (Z.to_nat d); lia).
  do 16 (destruct k as [|k]; [split; [reflexivity|discriminate]|]). lia.
Qed.

Lemma from_str_radix16_hex4 n : in_u16 n -> from_str_radix16 (hex4 n) = Some n.
Proof.
  intros Hn. unfold from_str_radix16, hex4.
  assert (forall z, 0 <= z mod 16 <= 15) as Hm
    by (intros z; pose proof (Z.mod_pos_bound z 16 ltac:(lia)); lia).
  pose proof (fun z => to_digit16_hex_digit (z mod 16) (Hm z)) as Hd.
  destruct (Hd (n / 4096)) as [D3 N3]. rewrite decide_False by done. cbn [hex_value].
  rewrite D3. destruct (Hd (n / 256)) as [-> _]. destruct (Hd (n / 16)) as [-> _].
  destruct (Hd n) as [-> _]. unfold mbind, option_bind.
  assert ((((0 * 16 + n / 4096 mod 16) * 16 + n / 256 mod 16) * 16 + n / 16 mod 16) * 16 + n mod 16 = n) as ->.
  { unfold in_u16, u16_max in Hn.
    pose proof (Z.div_mod n 16 ltac:(lia)). pose proof (Z.div_mod (n / 16) 16 ltac:(lia)).
    pose proof (Z.div_mod (n / 256) 16 ltac:(lia)).
    replace (n / 256) with (n / 16 / 16) in * by (rewrite Z.div_div by lia; done).
    replace (n / 4096) with (n / 16 / 16 / 16) in * by (rewrite !Z.div_div by lia; done).
    rewrite (Z.mod_small (n / 16 / 16 / 16)); [lia|].
    rewrite !Z.div_div by lia. simpl. split; [apply Z.div_pos; lia|apply Z.div_lt_upper_bound; lia]. }
  rewrite (proj2 (Z.leb_le n u16_max)); [done|]. unfold in_u16 in Hn. lia.
Qed.

(** ** Splitting *)

Fixpoint split_once (sep : ascii) (t : text) : option (text * text) :=
  match t with
  | [] => None
  | c :: rest =>
      if decide (c = sep) then Some ([], rest)
      else '(before, after) ← split_once sep rest; Some (c :: before, after)
  end.

Lemma split_once_app sep pre post :
  sep ∉ pre -> split_once sep (pre ++ sep :: post) = Some (pre, post).
Proof.
  induction pre as [|c pre IH]; intros Hn; simpl; [by rewrite decide_True|].
  apply not_elem_of_cons in Hn as [H1 H2]. rewrite decide_False by done. by rewrite IH.
Qed.
