(* ===== verification/Errors.v ===== *)
(** * Protocol errors

    [RmuxError] of [crates/rmux-proto/src/error.rs].  A [SessionName] is its
    string and a [PaneId] its number. *)

From S2P Require Import Prelude.

Inductive RmuxError :=
| EmptySessionName
| InvalidSessionNameCharacter
| InvalidTarget (value reason : string)
| UnknownCommand (name : string)
| DuplicateSession (name : string)
| SessionNotFound (name : string)
| Server (message : string)
| Message (message : string)
| InvalidSetOption (message : string)
| FrameTooLarge (length maximum : Z)
| EmptyFrame
| BadFrameMagic (got : Z)
| UnsupportedWireVersion (got minimum maximum : Z)
| UnsupportedCapability (feature : string) (supported : list string)
| IncompleteFrame (expected received : Z)
| Encode (message : string)
| Decode (message : string)
| PaneNotFound (session_name : string) (pane_id : Z)
| ProcessStillRunning
| SpawnFailed (message : string)
| OwnedSessionLeaseLost (session_name : string).

#[global] Instance RmuxError_eq_dec : EqDecision RmuxError.
Proof. solve_decision. Defined.
