(* ===== verification/Names.v ===== *)
(** * Session names

    [SessionName] of [crates/rmux-proto/src/identity.rs]: what [SessionName::new]
    and the decoder of the wire format make of a text.  A name is the list of its
    UTF-8 bytes.  The characters the code rewrites are one ASCII byte, or the
    two- and three-byte sequences of the C1 controls and of the invisible
    formatting marks, so looking at the next bytes is looking at the next
    character. *)

From Stdlib Require Import Ascii.
From S2P Require Import Prelude Text Errors.

(** ** Escaping *)

Definition backslash : ascii := ascii_at 92.

Definition octal (b : Z) : text :=
  [backslash; ascii_at (48 + Z.land (Z.shiftr b 6) 7); ascii_at (48 + Z.land (Z.shiftr b 3) 7); ascii_at (48 + Z.land b 7)].

Definition letter (b : Z) : text := [backslash; ascii_at b].

(** One ASCII character, [None] when it stays as it is. *)
Definition escape_ascii (escape_backslash : bool) (b : Z) : option text :=
  if (b =? 58) || (b =? 46) then Some [ascii_at 95]
  else if b =? 0 then Some (octal 0)
  else if b =? 7 then Some (letter 97)
  else if b =? 8 then Some (letter 98)
  else if b =? 9 then Some (letter 116)
  else if b =? 10 then Some (letter 110)
  else if b =? 11 then Some (letter 118)
  else if b =? 12 then Some (letter 102)
  else if b =? 13 then Some (letter 114)
  else if b =? 92 then if escape_backslash then Some (letter 92) else None
  else if (b <? 32) || (b =? 127) then Some (octal b)
  else None.

(** U+0080 to U+009F: the code point is the second byte. *)
Definition is_c1_control (b1 b2 : Z) : bool := (b1 =? 194) && (128 <=? b2) && (b2 <=? 159).

(** U+00AD and U+061C. *)
Definition is_unsafe_pair (b1 b2 : Z) : bool := (b1 =? 194) && (b2 =? 173) || (b1 =? 216) && (b2 =? 156).

(** U+200B to U+200F, U+2028 to U+202E, U+2066 to U+2069 and U+FEFF. *)
Definition is_unsafe_triple (b1 b2 b3 : Z) : bool :=
  (b1 =? 226) && (b2 =? 128) && ((139 <=? b3) && (b3 <=? 143) || (168 <=? b3) && (b3 <=? 174))
  || (b1 =? 226) && (b2 =? 129) && (166 <=? b3) && (b3 <=? 169)
  || (b1 =? 239) && (b2 =? 187) && (b3 =? 191).

(** What replaces the next character and how many further bytes it has. *)
Definition rewritten (escape_backslash : bool) (b : Z) (rest : text) : option (text * nat) :=
  match escape_ascii escape_backslash b with
  | Some out => Some (out, 0%nat)
  | None =>
      match rest with
      | [] => None
      | c2 :: rest2 =>
          let b2 := byte_of c2 in
          if is_c1_control b b2 then Some (octal b2, 1%nat)
          else if is_unsafe_pair b b2 then Some (octal b ++ octal b2, 1%nat)
          else
            match rest2 with
            | [] => None
            | c3 :: _ =>
                let b3 := byte_of c3 in
                if is_unsafe_triple b b2 b3 then Some (octal b ++ octal b2 ++ octal b3, 2%nat) else None
            end
      end
  end.

Fixpoint sanitize (escape_backslash : bool) (skip : nat) (t : text) : text :=
  match t with
  | [] => []
  | c :: rest =>
      match skip with
      | S skip => sanitize escape_backslash skip rest
      | O =>
          match rewritten escape_backslash (byte_of c) rest with
          | Some (out, skip) => out ++ sanitize escape_backslash skip rest
          | None => c :: sanitize escape_backslash 0 rest
          end
      end
  end.

Definition sanitize_session_name (t : text) : text := sanitize true 0 t.

Definition sanitize_deserialized_session_name (t : text) : text := sanitize false 0 t.

(** [SessionName::new] and [SessionName::deserialize]. *)
Definition session_name_new (value : string) : result string RmuxError :=
  if bool_decide (text_of value = []) then Err EmptySessionName else Ok (string_of (sanitize_session_name (text_of value))).

Definition session_name_deserialize (value : string) : result string RmuxError :=
  if bool_decide (text_of value = []) then Err EmptySessionName
  else Ok (string_of (sanitize_deserialized_session_name (text_of value))).

(** ** What a name contains *)

(** A byte that is neither an ASCII control nor one of the two separators. *)
Definition plain_byte (c : ascii) : Prop := 32 <= byte_of c /\ byte_of c <> 127 /\ byte_of c <> 58 /\ byte_of c <> 46.

Definition printable_ascii (c : ascii) : Prop := plain_byte c /\ byte_of c < 128.

Lemma octal_digit b k : 48 <= 48 + Z.land (Z.shiftr b k) 7 <= 55.
Proof. assert (0 <= Z.land (Z.shiftr b k) 7 < 8); [|lia]. change 7 with (Z.ones 3). rewrite Z.land_ones by lia. apply Z.mod_pos_bound. lia. Qed.

Lemma printable_at z : 32 <= z < 127 -> z <> 58 -> z <> 46 -> printable_ascii (ascii_at z).
Proof. intros H1 H2 H3. unfold printable_ascii, plain_byte. rewrite byte_of_ascii_at by lia. lia. Qed.

Lemma octal_printable b : Forall printable_ascii (octal b).
Proof.
  unfold octal. pose proof (octal_digit b 6) as D6. pose proof (octal_digit b 3) as D3. pose proof (octal_digit b 0) as D0. rewrite Z.shiftr_0_r in D0.
  repeat apply Forall_cons_2; [apply printable_at; lia|apply printable_at; lia|apply printable_at; lia|apply printable_at; lia|constructor].
Qed.

Lemma letter_printable b : 65 <= b < 127 -> Forall printable_ascii (letter b).
Proof. intros H. repeat constructor; apply printable_at; lia. Qed.

#[local] Hint Resolve octal_printable : names.

Lemma escape_ascii_printable e b out : escape_ascii e b = Some out -> Forall printable_ascii out /\ out <> [].
Proof.
  unfold escape_ascii. intros H. repeat (case_match; simplify_eq); (split; [|done]); auto with names; try (apply letter_printable; lia).
  repeat constructor; apply printable_at; lia.
Qed.

Lemma escape_ascii_None e b : 0 <= b -> escape_ascii e b = None -> 32 <= b /\ b <> 127 /\ b <> 58 /\ b <> 46.
Proof.
  unfold escape_ascii. intros H0 H.
  repeat match type of H with (if ?c then _ else _) = _ => destruct c eqn:?; try discriminate H end;
  repeat match goal with E : (_ || _) = false |- _ => apply orb_false_iff in E as [? ?] end; lia.
Qed.

Lemma rewritten_printable e b rest out n : rewritten e b rest = Some (out, n) -> Forall printable_ascii out /\ out <> [].
Proof.
  unfold rewritten. destruct (escape_ascii e b) eqn:E; [intros [= <- _]; by eapply escape_ascii_printable|].
  destruct rest as [|c2 rest2]; [done|]. cbv zeta. destruct (is_c1_control _ _); [intros [= <- _]; split; [auto with names|done]|].
  destruct (is_unsafe_pair _ _); [intros [= <- _]; split; [exact (Forall_app_2 _ _ _ (octal_printable b) (octal_printable _))|done]|].
  destruct rest2 as [|c3 rest3]; [done|]. destruct (is_unsafe_triple _ _ _); [|done]. intros [= <- _]. split; [|done].
  exact (Forall_app_2 _ _ _ (octal_printable b) (Forall_app_2 _ _ _ (octal_printable _) (octal_printable _))).
Qed.

Lemma sanitize_nonempty e t : t <> [] -> sanitize e 0 t <> [].
Proof.
  destruct t as [|c t]; [done|]. intros _. cbn [sanitize]. destruct (rewritten e (byte_of c) t) as [[out k]|] eqn:E; [|done].
  apply rewritten_printable in E as [_ E]. by destruct out.
Qed.

(** ** Decoding leaves a name alone *)

(** The head of a sanitized text is the head of the text or an ASCII character. *)
Lemma sanitize_head e t c u :
  sanitize e 0 t = c :: u -> byte_of c < 128 \/ exists t', t = c :: t' /\ u = sanitize e 0 t'.
Proof.
  destruct t as [|x t]; [done|]. cbn [sanitize]. destruct (rewritten e (byte_of x) t) as [[out k]|] eqn:E.
  - apply rewritten_printable in E as [E Hne]. destruct out as [|y out]; [done|]. intros [= <- _]. apply Forall_cons in E as [[_ E] _]. by left.
  - intros [= <- <-]. right. by exists t.
Qed.

Lemma escape_ascii_weaker b : escape_ascii true b = None -> escape_ascii false b = None.
Proof. unfold escape_ascii. by repeat case_match. Qed.

Lemma pair_high b1 b2 : is_c1_control b1 b2 = true \/ is_unsafe_pair b1 b2 = true -> 128 <= b2.
Proof.
  unfold is_c1_control, is_unsafe_pair. intros [H|H].
  - apply andb_true_iff in H as [[_ H%Z.leb_le]%andb_true_iff _]. done.
  - apply orb_true_iff in H as [[_ H%Z.eqb_eq]%andb_true_iff|[_ H%Z.eqb_eq]%andb_true_iff]; lia.
Qed.

Lemma triple_high b1 b2 b3 : is_unsafe_triple b1 b2 b3 = true -> 128 <= b2 /\ 128 <= b3.
Proof. unfold is_unsafe_triple. rewrite !orb_true_iff, !andb_true_iff, !orb_true_iff, !andb_true_iff, !Z.leb_le, !Z.eqb_eq. lia. Qed.

(** A character that is kept is kept for what follows it after sanitizing too. *)
Lemma rewritten_stays_with e e' c t :
  (escape_ascii e (byte_of c) = None -> escape_ascii e' (byte_of c) = None) ->
  rewritten e (byte_of c) t = None -> rewritten e' (byte_of c) (sanitize e 0 t) = None.
Proof.
  intros Hw. unfold rewritten. destruct (escape_ascii e (byte_of c)) eqn:Ea; [done|]. rewrite (Hw eq_refl). intros H.
  destruct (sanitize e 0 t) as [|c2 u2] eqn:E2; [done|]. cbv zeta.
  destruct (sanitize_head _ _ _ _ E2) as [Hlow|(t2 & -> & Eu2)].
  - destruct (is_c1_control (byte_of c) (byte_of c2)) eqn:P1; [pose proof (pair_high _ _ (or_introl P1)); lia|].
    destruct (is_unsafe_pair (byte_of c) (byte_of c2)) eqn:P2; [pose proof (pair_high _ _ (or_intror P2)); lia|].
    destruct u2 as [|c3 u3]; [done|]. destruct (is_unsafe_triple _ _ _) eqn:P3; [|done]. apply triple_high in P3. lia.
  - cbv zeta in H. destruct (is_c1_control _ _); [done|]. destruct (is_unsafe_pair _ _); [done|]. destruct u2 as [|c3 u3]; [done|].
    destruct (sanitize_head e t2 c3 u3) as [Hlow|(t3 & -> & _)]; [congruence| |].
    + destruct (is_unsafe_triple _ _ _) eqn:P3; [|done]. apply triple_high in P3. lia.
    + by destruct (is_unsafe_triple _ _ _).
Qed.

Lemma rewritten_stays c t :
  rewritten true (byte_of c) t = None -> rewritten false (byte_of c) (sanitize true 0 t) = None.
Proof. apply rewritten_stays_with, escape_ascii_weaker. Qed.

(** Printable characters in front are copied. *)
Lemma rewritten_printable_None c rest : printable_ascii c -> rewritten false (byte_of c) rest = None.
Proof.
  intros [[H1 [H2 [H3 H4]]] H5]. unfold rewritten.
  assert (escape_ascii false (byte_of c) = None) as ->.
  { unfold escape_ascii. rewrite (proj2 (Z.ltb_ge _ 32)) by lia.
    repeat (rewrite (proj2 (Z.eqb_neq (byte_of c) _)) by lia). destruct (byte_of c =? 92); [done|].
    repeat (rewrite (proj2 (Z.eqb_neq (byte_of c) _)) by lia). done. }
  destruct rest as [|c2 rest2]; [done|]. cbv zeta. unfold is_c1_control, is_unsafe_pair, is_unsafe_triple.
  rewrite !(proj2 (Z.eqb_neq (byte_of c) _)) by lia. cbn [andb orb]. by destruct rest2.
Qed.

Lemma sanitize_copies out rest : Forall printable_ascii out -> sanitize false 0 (out ++ rest) = out ++ sanitize false 0 rest.
Proof. induction 1 as [|c out Hc Hout IH]; [done|]. cbn [app sanitize]. by rewrite rewritten_printable_None, IH. Qed.

Lemma sanitize_again n t : sanitize false 0 (sanitize true n t) = sanitize true n t.
Proof.
  revert n. induction t as [|c t IH]; intros n; [done|]. cbn [sanitize]. destruct n as [|n]; [|done].
  destruct (rewritten true (byte_of c) t) as [[out k]|] eqn:E.
  - apply rewritten_printable in E as [E _]. by rewrite sanitize_copies, IH.
  - cbn [sanitize]. by rewrite (rewritten_stays _ _ E), IH.
Qed.

(** ** Appending plain text *)

(** Characters that are never rewritten, whatever is around them. *)
Definition inert (c : ascii) : Prop := printable_ascii c /\ byte_of c <> 92.

Lemma inert_None e c rest : inert c -> rewritten e (byte_of c) rest = None.
Proof.
  intros [Hp Hb]. pose proof (rewritten_printable_None c rest Hp) as H. unfold rewritten in *.
  assert (escape_ascii e (byte_of c) = escape_ascii false (byte_of c)) as ->; [|done].
  unfold escape_ascii. rewrite (proj2 (Z.eqb_neq (byte_of c) 92)) by done. done.
Qed.

Lemma sanitize_inert e d : Forall inert d -> sanitize e 0 d = d.
Proof. induction 1 as [|c d Hc Hd IH]; [done|]. cbn [sanitize]. by rewrite inert_None, IH. Qed.

Lemma rewritten_app e b t d : Forall inert d -> rewritten e b (t ++ d) = rewritten e b t.
Proof.
  intros Hd. assert (forall c, c ∈ d -> byte_of c < 128) as Hlow by (intros c Hc; rewrite Forall_forall in Hd; by destruct (Hd c Hc) as [[_ ?] _]).
  unfold rewritten. destruct (escape_ascii e b); [done|]. destruct t as [|c2 t]; cbn [app].
  - destruct d as [|c2 d]; [done|]. cbv zeta. pose proof (Hlow c2 (list_elem_of_here _ _)) as H2.
    destruct (is_c1_control b (byte_of c2)) eqn:P1; [pose proof (pair_high _ _ (or_introl P1)); lia|].
    destruct (is_unsafe_pair b (byte_of c2)) eqn:P2; [pose proof (pair_high _ _ (or_intror P2)); lia|].
    destruct d as [|c3 d]; [done|]. destruct (is_unsafe_triple _ _ _) eqn:P3; [|done]. apply triple_high in P3. lia.
  - cbv zeta. destruct (is_c1_control _ _); [done|]. destruct (is_unsafe_pair _ _); [done|]. destruct t as [|c3 t]; [|done]. cbn [app].
    destruct d as [|c3 d]; [done|]. destruct (is_unsafe_triple _ _ _) eqn:P3; [|done]. apply triple_high in P3. pose proof (Hlow c3 (list_elem_of_here _ _)). lia.
Qed.

Lemma rewritten_skip e b t out k : rewritten e b t = Some (out, k) -> (k <= length t)%nat.
Proof.
  unfold rewritten. destruct (escape_ascii e b); [intros [= _ <-]; lia|]. destruct t as [|c2 t]; [done|]. cbv zeta.
  destruct (is_c1_control _ _); [intros [= _ <-]; cbn; lia|]. destruct (is_unsafe_pair _ _); [intros [= _ <-]; cbn; lia|].
  destruct t as [|c3 t]; [done|]. destruct (is_unsafe_triple _ _ _); [|done]. intros [= _ <-]. cbn. lia.
Qed.

Lemma sanitize_app e n t d : Forall inert d -> (n <= length t)%nat -> sanitize e n (t ++ d) = sanitize e n t ++ d.
Proof.
  intros Hd. revert n. induction t as [|c t IH]; intros n Hn; cbn [app sanitize].
  - replace n with 0%nat by (cbn in Hn; lia). by apply sanitize_inert.
  - destruct n as [|n]; [|apply IH; cbn in Hn; lia]. rewrite rewritten_app by done. destruct (rewritten e (byte_of c) t) as [[out k]|] eqn:E.
    + rewrite IH by (by eapply rewritten_skip). by rewrite app_assoc.
    + by rewrite IH by lia.
Qed.

Lemma digit_inert c : is_ascii_digit c = true -> inert c.
Proof. unfold is_ascii_digit. intros [H1%Z.leb_le H2%Z.leb_le]%andb_true_iff. unfold inert, printable_ascii, plain_byte. lia. Qed.

(** ** The characters of a name *)

Definition continues (b : Z) : bool := (128 <=? b) && (b <=? 191).

(** The character a text starts with, as far as the characters of up to three
    bytes go: [None] inside a character or at a longer one. *)
Definition char_at (t : text) : option Z :=
  match map byte_of t with
  | b1 :: rest =>
      if b1 <? 128 then Some b1
      else if (194 <=? b1) && (b1 <=? 223) then
        match rest with
        | b2 :: _ => if continues b2 then Some (64 * (b1 - 192) + (b2 - 128)) else None
        | _ => None
        end
      else if (224 <=? b1) && (b1 <=? 239) then
        match rest with
        | b2 :: b3 :: _ =>
            let code := 4096 * (b1 - 224) + 64 * (b2 - 128) + (b3 - 128) in
            if continues b2 && continues b3 && (2048 <=? code) then Some code else None
        | _ => None
        end
      else None
  | [] => None
  end.

(** Control characters (C0, DEL and C1), the separators of target addresses, and
    the invisible marks: soft hyphen, Arabic letter mark, zero-width and
    directional marks, line and paragraph separators, embeddings, overrides and
    isolates, and the byte order mark. *)
Definition unwanted (x : Z) : Prop :=
  x < 32 \/ x = 58 \/ x = 46 \/ 127 <= x <= 159 \/ x = 173 \/ x = 1564 \/ 8203 <= x <= 8207 \/ 8232 <= x <= 8238 \/
  8294 <= x <= 8297 \/ x = 65279.

(** No character of the text is unwanted. *)
Definition clean (t : text) : Prop := forall k x, char_at (drop k t) = Some x -> ~ unwanted x.

Lemma continues_true b : continues b = true <-> 128 <= b <= 191.
Proof. unfold continues. rewrite andb_true_iff, !Z.leb_le. done. Qed.

Lemma c1_true b1 b2 : is_c1_control b1 b2 = true <-> b1 = 194 /\ 128 <= b2 <= 159.
Proof. unfold is_c1_control. rewrite !andb_true_iff, !Z.leb_le, Z.eqb_eq. lia. Qed.

Lemma pair_true b1 b2 : is_unsafe_pair b1 b2 = true <-> (b1 = 194 /\ b2 = 173) \/ (b1 = 216 /\ b2 = 156).
Proof. unfold is_unsafe_pair. rewrite orb_true_iff, !andb_true_iff, !Z.eqb_eq. lia. Qed.

Lemma triple_true b1 b2 b3 : is_unsafe_triple b1 b2 b3 = true <->
  (b1 = 226 /\ b2 = 128 /\ (139 <= b3 <= 143 \/ 168 <= b3 <= 174)) \/ (b1 = 226 /\ b2 = 129 /\ 166 <= b3 <= 169) \/
  (b1 = 239 /\ b2 = 187 /\ b3 = 191).
Proof. unfold is_unsafe_triple. rewrite !orb_true_iff, !andb_true_iff, !orb_true_iff, !andb_true_iff, !Z.leb_le, !Z.eqb_eq. lia. Qed.

Lemma escape_ascii_low b : escape_ascii false b <> None -> b < 32 \/ b = 58 \/ b = 46 \/ b = 127.
Proof.
  unfold escape_ascii. intros H.
  repeat match type of H with (if ?c then _ else _) <> _ => destruct c eqn:? end;
  repeat match goal with E : (_ || _) = true |- _ => apply orb_true_iff in E as [?|?] end; try done; lia.
Qed.

(** Exactly the unwanted characters are rewritten. *)
Lemma kept_is_wanted e c t x : rewritten e (byte_of c) t = None -> char_at (c :: t) = Some x -> ~ unwanted x.
Proof.
  pose proof (byte_of_range c) as Hc. unfold rewritten, char_at. destruct (escape_ascii e (byte_of c)) eqn:Ea; [done|].
  apply escape_ascii_None in Ea; [|lia]. cbn [map]. intros H Hx. destruct (Z.ltb_spec (byte_of c) 128); [simplify_eq; unfold unwanted; lia|].
  destruct ((194 <=? byte_of c) && (byte_of c <=? 223)) eqn:E2.
  - destruct t as [|c2 t]; [done|]. cbn [map] in Hx. cbv zeta in H. destruct (continues _) eqn:Ec; [|done]. injection Hx as <-.
    destruct (is_c1_control _ _) eqn:P1; [done|]. destruct (is_unsafe_pair _ _) eqn:P2; [done|].
    apply not_true_iff_false in P1, P2. rewrite c1_true in P1. rewrite pair_true in P2. apply continues_true in Ec.
    apply andb_true_iff in E2 as [L1%Z.leb_le L2%Z.leb_le]. unfold unwanted. lia.
  - destruct (_ && _) eqn:E3 in Hx; [|done]. destruct t as [|c2 [|c3 t]]; try done. cbn [map] in Hx. cbv zeta in H, Hx.
    destruct (_ && _) eqn:Ec in Hx; [|done]. injection Hx as <-. destruct (is_c1_control _ _); [done|]. destruct (is_unsafe_pair _ _); [done|].
    destruct (is_unsafe_triple _ _ _) eqn:P3; [done|]. apply not_true_iff_false in P3. rewrite triple_true in P3.
    apply andb_true_iff in Ec as [[C2%continues_true C3%continues_true]%andb_true_iff L%Z.leb_le].
    apply andb_true_iff in E3 as [L1%Z.leb_le L2%Z.leb_le]. unfold unwanted. lia.
Qed.

Lemma char_at_pair c c2 t :
  194 <= byte_of c <= 223 -> 128 <= byte_of c2 <= 191 -> char_at (c :: c2 :: t) = Some (64 * (byte_of c - 192) + (byte_of c2 - 128)).
Proof.
  intros H1 H2%continues_true. unfold char_at. cbn [map]. rewrite H2, (proj2 (Z.ltb_ge _ 128)), (proj2 (Z.leb_le 194 _)), (proj2 (Z.leb_le _ 223)) by lia. done.
Qed.

Lemma char_at_triple c c2 c3 t :
  224 <= byte_of c <= 239 -> 128 <= byte_of c2 <= 191 -> 128 <= byte_of c3 <= 191 ->
  let code := 4096 * (byte_of c - 224) + 64 * (byte_of c2 - 128) + (byte_of c3 - 128) in
  2048 <= code -> char_at (c :: c2 :: c3 :: t) = Some code.
Proof.
  intros H1 H2%continues_true H3%continues_true code Hc%Z.leb_le. unfold char_at. cbn [map]. fold code. cbv zeta. rewrite H2, H3, Hc.
  rewrite (proj2 (Z.ltb_ge _ 128)), (proj2 (Z.leb_gt _ 223)), (proj2 (Z.leb_le 224 _)), (proj2 (Z.leb_le _ 239)) by lia. by rewrite andb_false_r.
Qed.

Lemma rewritten_is_unwanted c t : rewritten false (byte_of c) t <> None -> exists x, char_at (c :: t) = Some x /\ unwanted x.
Proof.
  unfold rewritten. destruct (escape_ascii false (byte_of c)) eqn:Ea.
  - intros _. assert (escape_ascii false (byte_of c) <> None) as H%escape_ascii_low by congruence.
    exists (byte_of c). unfold char_at. cbn [map]. rewrite (proj2 (Z.ltb_lt _ 128)) by lia. split; [done|]. unfold unwanted. lia.
  - clear Ea. destruct t as [|c2 t]; [done|]. cbv zeta. destruct (is_c1_control _ _) eqn:P1; [|destruct (is_unsafe_pair _ _) eqn:P2].
    + intros _. apply c1_true in P1. eexists. split; [apply char_at_pair; lia|]. unfold unwanted. lia.
    + intros _. apply pair_true in P2. eexists. split; [apply char_at_pair; lia|]. unfold unwanted. lia.
    + destruct t as [|c3 t]; [done|]. destruct (is_unsafe_triple _ _ _) eqn:P3; [|done]. intros _. apply triple_true in P3.
      eexists. split; [apply char_at_triple; lia|]. unfold unwanted. lia.
Qed.

Lemma clean_cons c t : clean (c :: t) <-> (forall x, char_at (c :: t) = Some x -> ~ unwanted x) /\ clean t.
Proof.
  split.
  - intros H. split; [exact (H 0%nat)|]. intros k. exact (H (S k)).
  - intros [H1 H2] [|k]; [exact H1|exact (H2 k)].
Qed.

Lemma printable_wanted c t x : printable_ascii c -> char_at (c :: t) = Some x -> ~ unwanted x.
Proof.
  intros [[H1 [H2 [H3 H4]]] H5]. unfold char_at. cbn [map]. rewrite (proj2 (Z.ltb_lt _ _)) by lia. intros [= <-]. unfold unwanted. lia.
Qed.

Lemma clean_printable out t : Forall printable_ascii out -> clean t -> clean (out ++ t).
Proof. intros H Ht. induction H as [|c out Hc Hout IH]; [done|]. cbn [app]. apply clean_cons. split; [|done]. intros x. by apply printable_wanted. Qed.

Lemma sanitize_clean e n t : clean (sanitize e n t).
Proof.
  revert n. induction t as [|c t IH]; intros n; cbn [sanitize]; [intros k x; by rewrite drop_nil|]. destruct n as [|n]; [|done].
  destruct (rewritten e (byte_of c) t) as [[out k]|] eqn:E.
  - apply rewritten_printable in E as [E _]. by apply clean_printable.
  - apply clean_cons. split; [|done]. intros x. apply (kept_is_wanted e). by apply (rewritten_stays_with e e).
Qed.

Lemma sanitize_keeps t : clean t -> sanitize false 0 t = t.
Proof.
  induction t as [|c t IH]; [done|]. intros [H1 H2]%clean_cons. cbn [sanitize]. destruct (rewritten false (byte_of c) t) as [[out k]|] eqn:E; [|by rewrite IH].
  destruct (rewritten_is_unwanted c t) as (x & Hx & Hu); [congruence|]. by destruct (H1 x Hx).
Qed.

(** ** Properties *)

Lemma text_of_string_of t : text_of (string_of t) = t.
Proof. apply String.list_ascii_of_string_of_list_ascii. Qed.

Lemma string_of_text_of s : string_of (text_of s) = s.
Proof. apply String.string_of_list_ascii_of_string. Qed.

(** C34. Every [SessionName] is a non-empty text, and no character in it is a control
    character (C0, DEL or C1), an invisible formatting mark or one of the separators
    [':'] and ['.'] of target addresses, whether the name comes from a command or
    from the wire; only the empty text is refused.  Decoding changes nothing else: a
    text without such characters is kept as it is. *)
Theorem session_name_well_typed value r :
  session_name_new value = r \/ session_name_deserialize value = r ->
  match r with
  | Err e => e = EmptySessionName /\ value = EmptyString
  | Ok name => text_of name <> [] /\ clean (text_of name)
  end /\
  (clean (text_of value) -> value <> EmptyString -> session_name_deserialize value = Ok value).
Proof.
  unfold session_name_new, session_name_deserialize. case_bool_decide as E.
  - intros H. assert (value = EmptyString) as -> by (rewrite <- (string_of_text_of value), E; done). destruct H as [<-|<-]; by split.
  - intros H. split; [|intros Hc _; unfold sanitize_deserialized_session_name; by rewrite sanitize_keeps, string_of_text_of].
    destruct H as [<-|<-]; rewrite text_of_string_of; (split; [by apply sanitize_nonempty|apply sanitize_clean]).
Qed.

(** A name with a separator and the C1 control U+0085. *)
Definition name_with_control : string := String.append "a:b" (string_of [ascii_at 194; ascii_at 133]).

Lemma session_name_well_typed_witness :
  session_name_new name_with_control = Ok "a_b\205"%string /\ clean (text_of "a_b\205") /\ ~ clean (text_of name_with_control).
Proof.
  assert (session_name_new name_with_control = Ok "a_b\205"%string) as E by (vm_compute; reflexivity).
  split; [exact E|]. split; [exact (proj2 (proj1 (session_name_well_typed name_with_control _ (or_introl E))))|].
  intros H. apply (H 3%nat 133); [vm_compute; reflexivity|]. unfold unwanted. lia.
Defined.

(** A session name survives the wire: decoding the name [SessionName::new]
    returned gives the same name. *)
Theorem session_name_wire_roundtrip value name : session_name_new value = Ok name -> session_name_deserialize name = Ok name.
Proof.
  unfold session_name_new, session_name_deserialize. case_bool_decide as E; [done|]. intros [= <-].
  rewrite text_of_string_of, bool_decide_false by by apply sanitize_nonempty. do 2 f_equal. apply sanitize_again.
Qed.

Lemma session_name_wire_roundtrip_witness : exists name, session_name_new "dev\1:x" = Ok name /\ session_name_deserialize name = Ok name.
Proof.
  destruct (session_name_new "dev\1:x") as [name|e] eqn:E; [|exfalso; vm_compute in E; discriminate].
  exists name. split; [reflexivity|]. exact (session_name_wire_roundtrip "dev\1:x" name E).
Defined.

(** [SessionName::new] is not idempotent: it escapes the backslashes of a
    name again.  Building a name from another one, as the automatic names of
    grouped sessions are, doubles them. *)
Theorem session_name_rewritten_twice :
  session_name_new "a\b" = Ok "a\\b"%string /\ session_name_new "a\\b" = Ok "a\\\\b"%string.
Proof. split; vm_compute; reflexivity. Qed.
