(* ===== verification/LayoutText.v ===== *)
(** * Layout strings

    The textual form of a layout tree ([list-windows], [select-layout <string>]):
    [layout_checksum], [LayoutTree::dump] and [LayoutTree::parse] of
    [crates/rmux-core/src/layout.rs], [dump_body] of [layout/cell.rs] and the
    recursive-descent [LayoutParser] of [layout/parser.rs].

    The parser's [offset] into its input is the remaining input.  Nesting is
    bounded by the source itself; the loop over the children of a split has the
    length of its input as fuel ([parse_children_fuel] shows that is enough). *)

From S2P Require Import Prelude Text Errors Panes LayoutCell LayoutAdjust LayoutOffsets LayoutTree.
From S2P Require Import LayoutPaths LayoutSplit LayoutRemove.
From Stdlib Require Import Ascii.

(** ** The checksum *)

Definition checksum_step (checksum byte : Z) : Z :=
  wrap_u16 (Z.shiftr checksum 1 + Z.shiftl (Z.land checksum 1) 15 + byte).

Definition layout_checksum (layout : text) : Z :=
  fold_left (fun checksum c => checksum_step checksum (byte_of c)) layout 0.

(** ** Printing *)

(** The loop over the children of a split, with the separating commas. *)
Definition dump_children (dump_body : LayoutCell -> list Z -> text * list Z)
  : list LayoutCell -> list Z -> text * list Z :=
  fix go (children : list LayoutCell) (ids : list Z) :=
    match children with
    | [] => ([], ids)
    | [child] => dump_body child ids
    | child :: rest =>
        let '(body, ids) := dump_body child ids in
        let '(bodies, ids) := go rest ids in
        (body ++ ","%char :: bodies, ids)
    end.

Definition open_bracket (d : LayoutDirection) : ascii :=
  match d with LeftRight => "{"%char | TopBottom => "["%char end.
Definition close_bracket (d : LayoutDirection) : ascii :=
  match d with LeftRight => "}"%char | TopBottom => "]"%char end.

Definition dump_geometry (g : LayoutGeometry) : text :=
  dec (width g) ++ "x"%char :: dec (height g) ++ ","%char :: dec (geo_x g) ++ ","%char :: dec (geo_y g).

(** The text of a cell, and the pane ids that are left. *)
Fixpoint dump_body (c : LayoutCell) (ids : list Z) : text * list Z :=
  match kind c with
  | Pane =>
      match ids with
      | pane_id :: ids => (dump_geometry (geometry c) ++ ","%char :: dec pane_id, ids)
      | [] => (dump_geometry (geometry c), [])
      end
  | Split d children =>
      let '(bodies, ids) := dump_children dump_body children ids in
      (dump_geometry (geometry c) ++ open_bracket d :: bodies ++ [close_bracket d], ids)
  end.

(** The pane ids in leaf order. *)
Definition reordered_ids (t : LayoutTree) (pane_ids : list Z) : list Z :=
  match leaf_map t with
  | Some map =>
      fold_left
        (fun ids '(pane_pos, leaf_idx) =>
           match pane_ids !! pane_pos with
           | Some pane_id => <[leaf_idx := pane_id]> ids
           | None => ids
           end) (zip (seq 0 (length map)) map) (replicate (length pane_ids) 0)
  | None => pane_ids
  end.

Definition dump (t : LayoutTree) (panes : list PaneState) : text :=
  let ids := reordered_ids t (map pane_id panes) in
  let body := (dump_body (root t) ids).1 in
  hex4 (layout_checksum body) ++ ","%char :: body.

(** ** Parsing *)

Definition MAX_LAYOUT_PARSE_DEPTH : nat := 128.

Definition invalid_layout : RmuxError := Server "invalid layout".

Definition parse_number (input : text) : result (Z * text) RmuxError :=
  let '(digits, rest) := span_digits input in
  match digits with
  | [] => Err invalid_layout
  | _ => match parse_u32 digits with Some n => Ok (n, rest) | None => Err invalid_layout end
  end.

Definition expect (expected : ascii) (input : text) : result text RmuxError :=
  match input with
  | c :: rest => if decide (c = expected) then Ok rest else Err invalid_layout
  | [] => Err invalid_layout
  end.

(** [width]x[height],[x],[y], and the pane id that may follow: a number that
    turns out to be the width of the next cell is given back. *)
Definition parse_geometry (input : text) : result (LayoutGeometry * text) RmuxError :=
  let? (w, input) := parse_number input in
  let? input := expect "x" input in
  let? (h, input) := parse_number input in
  let? input := expect "," input in
  let? (x, input) := parse_number input in
  let? input := expect "," input in
  let? (y, input) := parse_number input in
  match input with
  | ","%char :: after =>
      let? (_, rest) := parse_number after in
      match rest with
      | "x"%char :: _ => Ok (mkGeometry w h x y, input)
      | _ => Ok (mkGeometry w h x y, rest)
      end
  | _ => Ok (mkGeometry w h x y, input)
  end.

Section Children.
Context (parse_cell : text -> result (LayoutCell * text) RmuxError) (close : ascii).

Fixpoint parse_children (fuel : nat) (input : text) : result (list LayoutCell * text) RmuxError :=
  match fuel with
  | O => Err invalid_layout
  | S fuel =>
      let? (child, input) := parse_cell input in
      match input with
      | c :: rest =>
          if decide (c = ","%char) then
            let? (children, rest) := parse_children fuel rest in Ok (child :: children, rest)
          else if decide (c = close) then Ok ([child], rest)
          else Err invalid_layout
      | [] => Err invalid_layout
      end
  end.
End Children.

(** [budget] is [MAX_LAYOUT_PARSE_DEPTH + 1 - depth]. *)
Fixpoint parse_cell_at_depth (budget : nat) (input : text) : result (LayoutCell * text) RmuxError :=
  match budget with
  | O => Err (Server "layout is too deeply nested")
  | S budget =>
      let? (g, input) := parse_geometry input in
      match input with
      | "{"%char :: rest =>
          let? (children, rest) :=
            parse_children (parse_cell_at_depth budget) "}" (S (length rest)) rest in
          Ok (split LeftRight g children, rest)
      | "["%char :: rest =>
          let? (children, rest) :=
            parse_children (parse_cell_at_depth budget) "]" (S (length rest)) rest in
          Ok (split TopBottom g children, rest)
      | ","%char :: _ | "}"%char :: _ | "]"%char :: _ | [] => Ok (pane g, input)
      | _ => Err invalid_layout
      end
  end.

Definition parse_cell (input : text) : result (LayoutCell * text) RmuxError :=
  parse_cell_at_depth (S MAX_LAYOUT_PARSE_DEPTH) input.

(** The [while leaf_count > pane_count] loop; every round removes one leaf. *)
Fixpoint drop_extra_leaves (fuel pane_count : nat) (t : LayoutTree) : result LayoutTree RmuxError :=
  match fuel with
  | O => Ok t
  | S fuel =>
      if (pane_count <? tree_leaf_count t)%nat then
        let '(removed, t') := remove_leaf t (tree_leaf_count t - 1) in
        if removed then drop_extra_leaves fuel pane_count t' else Err invalid_layout
      else Ok t
  end.

Definition too_few_leaves (pane_count : nat) (t : LayoutTree) : RmuxError :=
  Server (string_of (text_of "have " ++ dec (Z.of_nat pane_count) ++ text_of " panes but need " ++
                     dec (Z.of_nat (tree_leaf_count t)))).

Definition tree_parse (layout : text) (pane_count : nat) : result LayoutTree RmuxError :=
  match split_once "," layout with
  | None => Err invalid_layout
  | Some (checksum, body) =>
      if negb (length checksum =? 4)%nat then Err invalid_layout
      else
        match from_str_radix16 checksum with
        | None => Err invalid_layout
        | Some expected_checksum =>
            if negb (expected_checksum =? layout_checksum body) then Err invalid_layout
            else
              let? (root, rest) := parse_cell body in
              if negb (length rest =? 0)%nat then Err invalid_layout
              else
                let tree := mkTree root None in
                let? tree := drop_extra_leaves (tree_leaf_count tree) pane_count tree in
                if (tree_leaf_count tree <? pane_count)%nat then Err (too_few_leaves pane_count tree)
                else
                  let root := fix_root_size_if_needed (LayoutTree.root tree) in
                  if negb (check root) then Err (Server "size mismatch after applying layout")
                  else Ok (mkTree (fix_offsets 0 0 root) (leaf_map tree))
        end
  end.

(** ** The checksum *)

Definition rotate (c : Z) : Z := c / 2 + (c mod 2) * 32768.

Lemma checksum_step_rotate c b : checksum_step c b = wrap_u16 (rotate c + b).
Proof.
  unfold checksum_step, rotate. rewrite Z.shiftr_div_pow2, Z.shiftl_mul_pow2 by lia.
  change 1 with (Z.ones 1) at 2. rewrite Z.land_ones by lia. done.
Qed.

Lemma rotate_range c : in_u16 c -> in_u16 (rotate c).
Proof. unfold rotate, in_u16, u16_max. intros H. pose proof (Z.div_mod c 2 ltac:(lia)).
  pose proof (Z.mod_pos_bound c 2 ltac:(lia)). lia. Qed.

Lemma rotate_inj c c' : in_u16 c -> in_u16 c' -> rotate c = rotate c' -> c = c'.
Proof.
  unfold rotate, in_u16, u16_max. intros H H' E.
  pose proof (Z.div_mod c 2 ltac:(lia)). pose proof (Z.mod_pos_bound c 2 ltac:(lia)).
  pose proof (Z.div_mod c' 2 ltac:(lia)). pose proof (Z.mod_pos_bound c' 2 ltac:(lia)). lia.
Qed.

Lemma wrap_u16_range z : in_u16 (wrap_u16 z).
Proof. unfold in_u16, wrap_u16, u16_max. pose proof (Z.mod_pos_bound z 65536 ltac:(lia)). lia. Qed.

Lemma wrap_u16_cancel a a' b :
  in_u16 a -> in_u16 a' -> wrap_u16 (a + b) = wrap_u16 (a' + b) -> a = a'.
Proof.
  unfold in_u16, wrap_u16, u16_max. intros H H' E.
  pose proof (Z.div_mod (a + b) 65536 ltac:(lia)). pose proof (Z.div_mod (a' + b) 65536 ltac:(lia)). nia.
Qed.

Definition checksum_from (c : Z) (layout : text) : Z :=
  fold_left (fun checksum ch => checksum_step checksum (byte_of ch)) layout c.

Lemma checksum_from_range c layout : in_u16 c -> in_u16 (checksum_from c layout).
Proof.
  revert c. induction layout as [|ch l IH]; intros c H; simpl; [done|]. apply IH.
  rewrite checksum_step_rotate. apply wrap_u16_range.
Qed.

Lemma layout_checksum_range layout : in_u16 (layout_checksum layout).
Proof. apply (checksum_from_range 0). by unfold in_u16, u16_max. Qed.

Lemma checksum_from_inj c c' layout :
  in_u16 c -> in_u16 c' -> checksum_from c layout = checksum_from c' layout -> c = c'.
Proof.
  revert c c'. induction layout as [|ch l IH]; intros c c' H H' E; [done|]. simpl in E.
  rewrite !checksum_step_rotate in E. apply IH in E; [|apply wrap_u16_range..].
  apply wrap_u16_cancel in E; [|by apply rotate_range..]. by apply rotate_inj in E.
Qed.

(** ** Numbers and geometries *)

Definition terminated (t : text) : bool :=
  match t with
  | [] => true
  | c :: _ => bool_decide (c ∈ [","%char; "}"%char; "]"%char])
  end.

Lemma terminated_cases t :
  terminated t = true ->
  t = [] \/ exists t', t = ","%char :: t' \/ t = "}"%char :: t' \/ t = "]"%char :: t'.
Proof.
  destruct t as [|c t]; [auto|]. simpl. rewrite bool_decide_eq_true. intros H. right. exists t.
  rewrite !elem_of_cons, elem_of_nil in H. destruct H as [->|[->|[->|[]]]]; auto.
Qed.

Lemma parse_number_dec n t :
  in_u32 n -> starts_with_digit t = false -> parse_number (dec n ++ t) = Ok (n, t).
Proof.
  intros Hn Ht. destruct (dec_spec n) as (D1 & D2 & D3); [unfold in_u32 in Hn; machine|].
  unfold parse_number. rewrite span_digits_app by done. unfold parse_u32. rewrite D3.
  rewrite (proj2 (Z.leb_le n u32_max)) by (unfold in_u32 in Hn; lia). by destruct (dec n).
Qed.

Lemma parse_number_shorter input n rest :
  parse_number input = Ok (n, rest) -> (length rest < length input)%nat.
Proof.
  unfold parse_number. pose proof (span_digits_length input) as Hl.
  destruct (span_digits input) as [[|d ds] r]; [done|]. simpl in Hl.
  destruct (parse_u32 (d :: ds)); [|done]. intros [=-> ->]. lia.
Qed.

Lemma expect_same c t : expect c (c :: t) = Ok t.
Proof. simpl. by rewrite decide_True. Qed.

Definition geometry_u32 (g : LayoutGeometry) : Prop :=
  in_u32 (width g) /\ in_u32 (height g) /\ in_u32 (geo_x g) /\ in_u32 (geo_y g).

Lemma parse_geometry_dump g t :
  geometry_u32 g -> starts_with_digit t = false ->
  parse_geometry (dump_geometry g ++ t) =
  match t with
  | ","%char :: after =>
      let? (_, rest) := parse_number after in
      match rest with "x"%char :: _ => Ok (g, t) | _ => Ok (g, rest) end
  | _ => Ok (g, t)
  end.
Proof.
  intros (H1 & H2 & H3 & H4) Ht. unfold parse_geometry, dump_geometry. destruct g as [w h x y].
  cbn [width height geo_x geo_y] in *. repeat (rewrite <- app_assoc || rewrite <- app_comm_cons).
  rewrite parse_number_dec, expect_same by done. rewrite parse_number_dec, expect_same by done.
  rewrite parse_number_dec, expect_same by done. by rewrite parse_number_dec.
Qed.

Lemma parse_geometry_pane g id t :
  geometry_u32 g -> in_u32 id -> terminated t = true ->
  parse_geometry (dump_geometry g ++ ","%char :: dec id ++ t) = Ok (g, t).
Proof.
  intros Hg Hid Ht. rewrite parse_geometry_dump by done.
  assert (starts_with_digit t = false) as Hd.
  { by destruct (terminated_cases t Ht) as [->|(t' & [->|[->| ->]])]. }
  rewrite parse_number_dec by done. by destruct (terminated_cases t Ht) as [->|(t' & [->|[->| ->]])].
Qed.

Lemma parse_geometry_split g d t :
  geometry_u32 g -> parse_geometry (dump_geometry g ++ open_bracket d :: t) = Ok (g, open_bracket d :: t).
Proof. intros Hg. rewrite parse_geometry_dump by (by destruct d). by destruct d. Qed.

(** ** Printable cells *)

Inductive printable : LayoutCell -> Prop :=
| printable_pane g : geometry_u32 g -> printable (mkCell g Pane)
| printable_split g d cs :
    geometry_u32 g -> cs <> [] -> Forall printable cs -> printable (mkCell g (Split d cs)).

Lemma laid_out_printable c :
  consistent c -> laid_out c ->
  (forall d, 0 <= geo_pos d (geometry c) /\ geo_pos d (geometry c) + geo_axis d (geometry c) < i32_max) ->
  printable c.
Proof.
  induction c as [g|g d cs IH] using LayoutCell_rect_strong; intros Hc Hl Hb; cbn [geometry] in Hb.
  - pose proof (consistent_nonneg _ Hc LeftRight). pose proof (consistent_nonneg _ Hc TopBottom).
    pose proof (Hb LeftRight). pose proof (Hb TopBottom). unfold axis_size in *. simpl in *.
    constructor. unfold geometry_u32, in_u32. machine.
  - pose proof (consistent_nonneg _ Hc LeftRight). pose proof (consistent_nonneg _ Hc TopBottom).
    pose proof (Hb LeftRight). pose proof (Hb TopBottom). unfold axis_size in *. simpl in *.
    pose proof Hc as (Hne & Hcs & _)%consistent_children.
    constructor; [unfold geometry_u32, in_u32; machine|done|].
    rewrite Forall_forall in IH, Hcs |- *. intros c Hin. apply list_elem_of_lookup_1 in Hin as [h Hh].
    destruct (child_inside g d cs h c Hl Hc) as [Hlc Hins]; [|done|].
    { intros d'. specialize (Hb d'). machine. }
    assert (c ∈ cs) as Hin by (by eapply list_elem_of_lookup_2).
    apply IH; [done|auto|done|]. intros d'. specialize (Hb d'). specialize (Hins d').
    pose proof (consistent_nonneg c (Hcs c Hin) d'). unfold axis_size in *. lia.
Qed.

(** ** Parsing back what was printed *)

Lemma dump_geometry_nonempty g : dump_geometry g <> [].
Proof. unfold dump_geometry. by intros [_ ?]%app_eq_nil. Qed.

Lemma dump_body_nonempty c ids : (dump_body c ids).1 <> [].
Proof.
  destruct c as [g [|d cs]]; cbn [dump_body kind geometry].
  - destruct ids; simpl; [apply dump_geometry_nonempty|]. by intros [? ?]%app_eq_nil.
  - destruct (dump_children _ _ _). simpl. by intros [? ?]%app_eq_nil.
Qed.

(** One equation for the children loop of the printer. *)
Lemma dump_children_cons c cs ids :
  dump_children dump_body (c :: cs) ids =
  match cs with
  | [] => dump_body c ids
  | _ => let '(body, ids1) := dump_body c ids in
         let '(bodies, ids2) := dump_children dump_body cs ids1 in
         (body ++ ","%char :: bodies, ids2)
  end.
Proof. by destruct cs. Qed.

Lemma dump_children_length cs ids : (length cs <= length (dump_children dump_body cs ids).1)%nat.
Proof.
  revert ids. induction cs as [|c cs IH]; intros ids; [done|]. rewrite dump_children_cons.
  pose proof (dump_body_nonempty c ids) as Hne. destruct (dump_body c ids) as [body ids1] eqn:Hb.
  destruct cs as [|c2 cs]; [simpl in *; destruct body; [done|simpl; lia]|].
  specialize (IH ids1). destruct (dump_children dump_body (c2 :: cs) ids1) as [bodies ids2].
  simpl in *. rewrite length_app. simpl. lia.
Qed.

(** The ids a cell uses up. *)
Lemma dump_body_ids c ids :
  (leaf_count c <= length ids)%nat -> (dump_body c ids).2 = drop (leaf_count c) ids.
Proof.
  revert ids. induction c as [g|g d cs IH] using LayoutCell_rect_strong; intros ids Hl.
  { destruct ids; [simpl in Hl; lia|]. simpl. by rewrite drop_0. }
  cbn [dump_body kind leaf_count] in *.
  assert (forall ids, (foldr Nat.add 0 (map leaf_count cs) <= length ids)%nat ->
    (dump_children dump_body cs ids).2 = drop (foldr Nat.add 0%nat (map leaf_count cs)) ids) as Hgo.
  { clear ids Hl. induction IH as [|c cs Hc Hcs IHcs]; intros ids Hl; [by rewrite drop_0|].
    rewrite dump_children_cons. cbn [map foldr] in *. specialize (Hc ids ltac:(lia)).
    destruct (dump_body c ids) as [body ids1] eqn:Hb. simpl in Hc. subst ids1.
    destruct cs as [|c2 cs]; [simpl; by rewrite Nat.add_0_r|].
    specialize (IHcs (drop (leaf_count c) ids)). rewrite length_drop in IHcs.
    destruct (dump_children dump_body (c2 :: cs) _) as [bodies ids2]. simpl in *.
    rewrite IHcs by lia. by rewrite drop_drop. }
  specialize (Hgo ids Hl). by destruct (dump_children dump_body cs ids).
Qed.

Section RoundTrip.
Context (budget : nat) (d : LayoutDirection).

Lemma parse_children_dump cs ids t fuel :
  cs <> [] -> (length cs <= fuel)%nat ->
  (foldr Nat.add 0 (map leaf_count cs) <= length ids)%nat -> Forall in_u32 ids ->
  Forall (fun c => forall ids t, (leaf_count c <= length ids)%nat -> Forall in_u32 ids ->
            terminated t = true ->
            parse_cell_at_depth budget ((dump_body c ids).1 ++ t) = Ok (c, t)) cs ->
  parse_children (parse_cell_at_depth budget) (close_bracket d) fuel
    ((dump_children dump_body cs ids).1 ++ close_bracket d :: t) = Ok (cs, t).
Proof.
  intros Hne Hf Hl Hids Hcs. revert ids fuel Hne Hf Hl Hids.
  induction Hcs as [|c cs Hc Hcs IH]; intros ids fuel Hne Hf Hl Hids; [done|].
  destruct fuel as [|fuel]; [simpl in Hf; lia|]. rewrite dump_children_cons. cbn [map foldr] in Hl.
  pose proof (dump_body_ids c ids ltac:(lia)) as Hb2. specialize (Hc ids).
  destruct (dump_body c ids) as [body ids1] eqn:Hb. cbn [fst snd] in *.
  destruct cs as [|c2 cs].
  - cbn [parse_children fst]. rewrite Hc; [|lia|done|by destruct d]. by destruct d.
  - specialize (IH ids1 fuel). subst ids1. rewrite length_drop in IH.
    destruct (dump_children dump_body (c2 :: cs) _) as [bodies ids2]. cbn [fst] in *.
    cbn [parse_children]. rewrite <- app_assoc. cbn [app].
    rewrite Hc; [|lia|done|done]. cbn [decide]. rewrite decide_True by done.
    rewrite IH; [done|done|simpl in *; lia|simpl in *; lia|by apply Forall_drop].
Qed.
End RoundTrip.

Lemma parse_cell_dump budget c ids t :
  printable c -> (cell_depth c <= budget)%nat -> (leaf_count c <= length ids)%nat ->
  Forall in_u32 ids -> terminated t = true ->
  parse_cell_at_depth budget ((dump_body c ids).1 ++ t) = Ok (c, t).
Proof.
  revert budget ids t. induction c as [g|g d cs IH] using LayoutCell_rect_strong;
    intros budget ids t Hp Hd Hl Hids Ht; (destruct budget as [|budget]; [simpl in Hd; lia|]).
  - destruct ids as [|id ids]; [simpl in Hl; lia|]. inversion Hp; subst.
    apply Forall_cons in Hids as [Hid _]. cbn [dump_body kind geometry fst parse_cell_at_depth].
    rewrite <- app_assoc. cbn [app]. rewrite parse_geometry_pane by done.
    by destruct (terminated_cases t Ht) as [->|(t' & [->|[->| ->]])].
  - inversion Hp as [|? ? ? Hg Hne Hcs]; subst. cbn [dump_body kind geometry parse_cell_at_depth].
    pose proof (parse_children_dump budget d cs ids t
      (S (length ((dump_children dump_body cs ids).1 ++ close_bracket d :: t))) Hne) as Hgo.
    pose proof (dump_children_length cs ids) as Hlen.
    destruct (dump_children dump_body cs ids) as [bodies ids'] eqn:Hb. cbn [fst] in *.
    rewrite <- app_assoc. cbn [app]. rewrite <- app_assoc. cbn [app].
    rewrite parse_geometry_split by done. rewrite Forall_forall in IH, Hcs.
    assert (parse_children (parse_cell_at_depth budget) (close_bracket d)
      (S (length (bodies ++ close_bracket d :: t))) (bodies ++ close_bracket d :: t) = Ok (cs, t)) as Hpc.
    { apply Hgo; [rewrite length_app; simpl; lia|simpl in Hl; exact Hl|done|].
      apply Forall_forall. intros c Hin ids0 t0 H1 H2 H3. apply IH; try done; [by apply Hcs|].
      pose proof (cell_depth_child g d cs c Hin). lia. }
    destruct d; cbn [open_bracket close_bracket] in *; rewrite Hpc; done.
Qed.

(** ** The loop that drops leaves *)

Lemma leaf_count_kind g c : leaf_count (mkCell g (kind c)) = leaf_count c.
Proof. by destruct c as [g' [|d cs]]. Qed.

Lemma collapse_leaf_count c : leaf_count (collapse_single_child c) = leaf_count c.
Proof.
  induction c as [g|g d cs IH] using LayoutCell_rect_strong; [done|].
  cbn [collapse_single_child kind geometry leaf_count].
  assert (foldr Nat.add 0%nat (map leaf_count (map collapse_single_child cs)) =
          foldr Nat.add 0%nat (map leaf_count cs)) as <-.
  { f_equal. rewrite map_map. by apply Forall_map_eq. }
  destruct (map collapse_single_child cs) as [|c1 [|c2 l]]; [done| |done].
  rewrite fix_offsets_leaf_count, leaf_count_kind. simpl. lia.
Qed.

Lemma alter_leaves_length f o cs :
  (forall c, erase (f c) = erase c) ->
  length (concat (map leaves (alter f o cs))) = length (concat (map leaves cs)).
Proof.
  intros Hf. revert o. induction cs as [|c cs IH]; intros [|o]; cbn [map concat]; [done..| |];
    cbn; rewrite !length_app.
  - rewrite !length_leaves. by rewrite (erase_eq_leaf_count c) by done.
  - f_equal. apply IH.
Qed.

(** Removing a leaf takes one leaf away, whatever the geometry. *)
Lemma remove_leaf_count t i t' :
  remove_leaf t i = (true, t') ->
  S (tree_leaf_count t') = tree_leaf_count t /\ leaf_map t' = None.
Proof.
  unfold remove_leaf. destruct (leaf_paths t !! i) as [p|] eqn:Hpath; [|done].
  destruct (leaf_path_spec t i p Hpath) as (g & Hp & _). pose proof (pop_path p) as Hpop.
  destruct (last p) as [k|]; [|done]. set (pp := List.removelast p) in *. rewrite Hpop in Hp.
  destruct (cell_at_path_snoc _ _ _ _ Hp) as (gp & d & cs & Hpp & Hk). rewrite Hpp. cbn [kind].
  rewrite Hk. intros [=<-]. split; [|done]. unfold tree_leaf_count. cbn [root].
  rewrite fix_offsets_leaf_count, collapse_leaf_count, !leaf_count_leaves.
  destruct (leaves_at_path _ _ _ Hpp) as (pre & post & _ & L1 & L2). rewrite L1, L2, !length_app.
  cbn [geometry leaves kind]. unfold remove_child.
  rewrite alter_leaves_length by (intros; apply resize_adjust_fuel_erase).
  rewrite (concat_leaves_split cs k _ Hk), delete_take_drop, map_app, concat_app, !length_app.
  simpl. lia.
Qed.

Lemma drop_extra_leaves_count fuel n t t' :
  (tree_leaf_count t <= fuel)%nat -> leaf_map t = None -> drop_extra_leaves fuel n t = Ok t' ->
  (tree_leaf_count t' <= n)%nat /\ leaf_map t' = None.
Proof.
  revert t. induction fuel as [|fuel IH]; intros t Hf Hm Hd; simpl in Hd.
  { simplify_eq. split; [lia|done]. }
  destruct (Nat.ltb_spec n (tree_leaf_count t)) as [Hlt|Hge]; [|simplify_eq; split; [lia|done]].
  destruct (remove_leaf t (tree_leaf_count t - 1)) as [[] t1] eqn:Hr; [|done].
  destruct (remove_leaf_count _ _ _ Hr) as [Hc Hm1]. apply (IH t1); [lia|done|done].
Qed.

(** ** What parsing guarantees *)

Lemma check_fix_offsets x y c : check (fix_offsets x y c) = check c.
Proof.
  revert x y. induction c as [g|g d cs IH] using LayoutCell_rect_strong; intros x y; [done|].
  cbn [fix_offsets kind geometry]. rewrite !check_split. destruct cs as [|c0 cs]; [done|].
  rewrite fix_children_offsets_cons.
  assert (forall g' k s l, width g' = width g -> height g' = height g ->
    Forall (fun c => forall x y, check (fix_offsets x y c) = check c) l ->
    check_children check d g' s (fix_children_offsets fix_offsets d x y k l) =
    check_children check d g s l) as Hgo.
  { intros g' k s l Hw Hh Hl. revert k s.
    induction Hl as [|c l Hc Hl IHl]; intros k s.
    - cbn. by destruct d; simpl; rewrite ?Hw, ?Hh.
    - rewrite fix_children_offsets_cons. cbn [check_children]. rewrite Hc, !fix_offsets_axis.
      assert (geo_axis (flip d) g' = geo_axis (flip d) g) as -> by (by destruct d).
      destruct (check c); simpl; [|done]. destruct (_ =? _); simpl; [|done]. apply IHl. }
  rewrite <- (Hgo (mkGeometry (width g) (height g) x y) 0 0 (c0 :: cs)) by done.
  by rewrite fix_children_offsets_cons.
Qed.

Lemma fix_root_size_leaf_count c : leaf_count (fix_root_size_if_needed c) = leaf_count c.
Proof.
  unfold fix_root_size_if_needed. destruct c as [g [|d cs]]; [done|]. cbn [kind].
  destruct cs as [|c0 cs]; [done|]. cbn zeta. by rewrite fix_offsets_leaf_count.
Qed.

(** On a consistent tree laid out from the origin there is nothing to fix. *)
Lemma fix_root_size_id c :
  consistent c -> positioned 0 0 c -> (forall d, axis_size c d < i32_max) -> fix_root_size_if_needed c = c.
Proof.
  intros Hc Hp Hb. unfold fix_root_size_if_needed. destruct c as [g [|d cs]]; [done|]. cbn [kind].
  destruct cs as [|c0 cs]; [done|]. cbn [geometry]. set (l := c0 :: cs) in *.
  pose proof Hc as (_ & Hcs & Hcross & Htot)%consistent_children.
  specialize (Hb d). unfold axis_size in Hb. cbn [geometry] in Hb.
  pose proof (consistent_nonneg _ Hc d) as Hnn. unfold axis_size in Hnn. cbn [geometry] in Hnn.
  assert (map (fun c => u32_add (geo_axis d (geometry c)) PANE_BORDER_CELLS) l =
          map (fun c => axis_size c d + 1) l) as ->.
  { apply map_ext_in. intros c Hin%list_elem_of_In. rewrite Forall_forall in Hcs.
    pose proof (consistent_nonneg c (Hcs c Hin) d). pose proof (consistent_child_le _ _ _ c d Hc Hin).
    fold (axis_size c d). unfold PANE_BORDER_CELLS. apply u32_add_small. machine. }
  fold (total d l). rewrite u32_sum_small by (fold (total d l); rewrite Htot; unfold in_u32; machine).
  change (sumZ (map (fun c => axis_size c d + 1) l)) with (total d l). rewrite Htot.
  apply Forall_cons in Hcross as [Hx _]. fold (axis_size c0 (flip d)). rewrite Hx.
  replace (sat_sub (geo_axis d g + 1) PANE_BORDER_CELLS) with (geo_axis d g)
    by (unfold PANE_BORDER_CELLS; machine).
  assert (set_axis (flip d) (geo_axis (flip d) g) (set_axis d (geo_axis d g) g) = g) as ->
    by (by destruct d, g). exact Hp.
Qed.

(** ** Fuel of the children loop *)

Section Fuel.
Context (parse : text -> result (LayoutCell * text) RmuxError) (close : ascii).
Context (Hparse : forall input c rest, parse input = Ok (c, rest) -> (length rest < length input)%nat).

Lemma parse_children_shorter fuel input cs rest :
  parse_children parse close fuel input = Ok (cs, rest) -> (length rest < length input)%nat.
Proof.
  revert input cs rest. induction fuel as [|fuel IH]; intros input cs rest H; [done|]. simpl in H.
  destruct (parse input) as [[c r]|] eqn:Hp; [|done]. apply Hparse in Hp.
  destruct r as [|ch r]; [done|]. destruct (decide (ch = ","%char)).
  - destruct (parse_children parse close fuel r) as [[cs' r']|] eqn:Hr; [|done]. simplify_eq.
    apply IH in Hr. simpl in Hp. lia.
  - destruct (decide (ch = close)); [|done]. simplify_eq. simpl in Hp. lia.
Qed.

Lemma parse_children_enough n m input :
  (length input < n)%nat -> (length input < m)%nat ->
  parse_children parse close n input = parse_children parse close m input.
Proof.
  revert m input. induction n as [|n IH]; intros m input Hn Hm; [lia|]. destruct m as [|m]; [lia|].
  simpl. destruct (parse input) as [[c r]|] eqn:Hp; [|done]. apply Hparse in Hp.
  destruct r as [|ch r]; [done|]. simpl in Hp. by rewrite (IH m r) by lia.
Qed.
End Fuel.

Lemma parse_geometry_shorter input g rest :
  parse_geometry input = Ok (g, rest) -> (length rest < length input)%nat.
Proof.
  unfold parse_geometry. intros H.
  destruct (parse_number input) as [[w r1]|] eqn:H1; [|done]. apply parse_number_shorter in H1.
  destruct r1 as [|c1 r1]; [done|]. simpl in H. destruct (decide (c1 = "x"%char)); [|done].
  destruct (parse_number r1) as [[h r2]|] eqn:H2; [|done]. apply parse_number_shorter in H2.
  destruct r2 as [|c2 r2]; [done|]. simpl in H. destruct (decide (c2 = ","%char)); [|done].
  destruct (parse_number r2) as [[x r3]|] eqn:H3; [|done]. apply parse_number_shorter in H3.
  destruct r3 as [|c3 r3]; [done|]. simpl in H. destruct (decide (c3 = ","%char)); [|done].
  destruct (parse_number r3) as [[y r4]|] eqn:H4; [|done]. apply parse_number_shorter in H4.
  assert (rest = r4 \/ exists after id, r4 = ","%char :: after /\ parse_number after = Ok (id, rest)) as Hr.
  { destruct r4 as [|c4 r4]; [simplify_eq; auto|]. destruct (decide (c4 = ","%char)) as [->|Hne].
    - destruct (parse_number r4) as [[id r5]|] eqn:H5; [|done].
      assert (rest = ","%char :: r4 \/ rest = r5) as [->| ->]; [|auto|right; by exists r4, id].
      clear -H. destruct r5 as [|c5 r5]; [simplify_eq; auto|].
      destruct (decide (c5 = "x"%char)) as [->|Hx]; [simplify_eq; auto|].
      right. destruct c5 as [[] [] [] [] [] [] [] []]; simplify_eq; done.
    - left. destruct c4 as [[] [] [] [] [] [] [] []]; simplify_eq; done. }
  simpl in *. destruct Hr as [->|(after & id & -> & H5)]; [lia|].
  apply parse_number_shorter in H5. simpl in *. lia.
Qed.

Lemma parse_cell_shorter budget input c rest :
  parse_cell_at_depth budget input = Ok (c, rest) -> (length rest < length input)%nat.
Proof.
  revert input c rest. induction budget as [|budget IH]; intros input c rest H; [done|].
  cbn [parse_cell_at_depth] in H.
  destruct (parse_geometry input) as [[g r]|] eqn:Hg; [|done]. apply parse_geometry_shorter in Hg.
  assert (r = rest \/ exists ch r' close cs, r = ch :: r' /\
    parse_children (parse_cell_at_depth budget) close (S (length r')) r' = Ok (cs, rest)) as Hr.
  { destruct r as [|ch r]; [simplify_eq; auto|].
    destruct ch as [[] [] [] [] [] [] [] []]; try done; try (simplify_eq; by left); right.
    all: destruct (parse_children _ _ _ _) as [[cs r']|] eqn:Hp; [|done]; simplify_eq;
      by do 4 eexists. }
  destruct Hr as [<-|(ch & r' & close & cs & -> & Hp)]; [done|].
  apply parse_children_shorter in Hp; [|exact IH]. simpl in Hg. lia.
Qed.

Lemma reordered_ids_spec t ids :
  length (reordered_ids t ids) = length ids /\
  (Forall in_u32 ids -> Forall in_u32 (reordered_ids t ids)).
Proof.
  unfold reordered_ids. destruct (leaf_map t) as [map|]; [|done].
  assert (forall l acc, length acc = length ids -> (Forall in_u32 ids -> Forall in_u32 acc) ->
    let r := fold_left (fun acc '(pane_pos, leaf_idx) =>
      match ids !! pane_pos with Some id => <[leaf_idx := id]> acc | None => acc end) l acc in
    length r = length ids /\ (Forall in_u32 ids -> Forall in_u32 r)) as Hgo.
  { induction l as [|[p i] l IH]; intros acc Hl Hf; simpl; [done|]. apply IH.
    - destruct (ids !! p); [by rewrite length_insert|done].
    - intros Hids. destruct (ids !! p) as [id|] eqn:Hp; [|auto]. apply Forall_insert; [auto|].
      rewrite Forall_forall in Hids. apply Hids. by eapply list_elem_of_lookup_2. }
  apply Hgo; [by rewrite length_replicate|]. intros _. apply Forall_replicate. by unfold in_u32, u32_max.
Qed.

Lemma wf_check t : well_formed t -> check (root t) = true.
Proof.
  intros Hwf. apply check_spec_lemma; [|apply Hwf]. pose proof (wf_bounds _ Hwf LeftRight).
  pose proof (wf_bounds _ Hwf TopBottom). unfold axis_size in *. cbn [geo_axis] in *.
  apply consistent_fits; [apply Hwf|lia|lia].
Qed.

Lemma comma_not_in_hex4 n : in_u16 n -> ","%char ∉ hex4 n.
Proof.
  intros _. unfold hex4.
  assert (forall d, 0 <= d <= 15 -> ","%char <> hex_digit d) as Hd.
  { intros d Hd E. destruct (to_digit16_hex_digit d Hd) as [E1 _]. by rewrite <- E in E1. }
  assert (forall z, 0 <= z mod 16 <= 15) as Hm
    by (intros z; pose proof (Z.mod_pos_bound z 16 ltac:(lia)); lia).
  rewrite !elem_of_cons, elem_of_nil.
  intros [E|[E|[E|[E|[]]]]]; revert E; apply Hd, Hm.
Qed.

Lemma tree_parse_facts layout n t :
  tree_parse layout n = Ok t ->
  (exists sum body, split_once "," layout = Some (sum, body) /\ length sum = 4%nat /\
     from_str_radix16 sum = Some (layout_checksum body)) /\
  tree_leaf_count t = n /\ check (root t) = true /\ positioned 0 0 (root t) /\ leaf_map t = None.
Proof.
  unfold tree_parse. destruct (split_once "," layout) as [[sum body]|]; [|done].
  destruct (Nat.eqb_spec (length sum) 4) as [H4|]; [|done]. cbn [negb].
  destruct (from_str_radix16 sum) as [expected|] eqn:Hsum; [|done].
  destruct (Z.eqb_spec expected (layout_checksum body)) as [->|]; [|done]. cbn [negb].
  destruct (parse_cell body) as [[r rest]|]; [|done]. destruct (Nat.eqb_spec (length rest) 0); [|done].
  cbn [negb]. destruct (drop_extra_leaves _ n (mkTree r None)) as [t1|] eqn:Hdrop; [|done].
  apply drop_extra_leaves_count in Hdrop as [Hc Hm]; [|lia|done].
  destruct (Nat.ltb_spec (tree_leaf_count t1) n) as [|Hge]; [done|].
  destruct (check (fix_root_size_if_needed (root t1))) eqn:Hck; [|done]. cbn [negb]. intros [=<-].
  split; [by exists sum, body|]. unfold tree_leaf_count in *. cbn [root leaf_map].
  rewrite fix_offsets_leaf_count, fix_root_size_leaf_count, check_fix_offsets.
  split_and!; [lia|done|apply fix_offsets_positioned|done].
Qed.

(** ** Properties *)

(** C24. Dump and parse round trip: a well-formed tree of nesting depth at most
    129 (the parser's own limit), printed with the ids of its panes in any pane
    assignment, parses back to the same tree with the default assignment. *)
Theorem layout_text_roundtrip t panes :
  well_formed t -> (cell_depth (root t) <= S MAX_LAYOUT_PARSE_DEPTH)%nat ->
  length panes = tree_leaf_count t -> Forall (fun p => in_u32 (pane_id p)) panes ->
  tree_parse (dump t panes) (length panes) = Ok (mkTree (root t) None).
Proof.
  intros Hwf Hd Hl Hids. pose proof (wf_root_box t) as Hbox.
  assert (printable (root t)) as Hp.
  { apply laid_out_printable; [apply Hwf|by apply wf_laid_out|intros d; by apply Hbox]. }
  unfold dump. set (ids := reordered_ids t (map pane_id panes)).
  destruct (reordered_ids_spec t (map pane_id panes)) as [R1 R2]. fold ids in R1, R2.
  rewrite length_map in R1.
  pose proof (parse_cell_dump (S MAX_LAYOUT_PARSE_DEPTH) (root t) ids [] Hp Hd) as Hparse.
  rewrite app_nil_r in Hparse. set (body := (dump_body (root t) ids).1) in *.
  assert (in_u16 (layout_checksum body)) as Hsum by apply layout_checksum_range.
  unfold tree_parse. rewrite split_once_app by (by apply comma_not_in_hex4). cbn [length hex4 Nat.eqb negb].
  rewrite from_str_radix16_hex4, Z.eqb_refl by done. cbn [negb]. unfold parse_cell.
  rewrite Hparse; [|unfold tree_leaf_count in Hl; lia|apply R2, Forall_map; exact Hids|done].
  cbn [length Nat.eqb negb].
  assert (drop_extra_leaves (tree_leaf_count (mkTree (root t) None)) (length panes)
            (mkTree (root t) None) = Ok (mkTree (root t) None)) as ->.
  { rewrite Hl. unfold tree_leaf_count. cbn [root]. destruct (leaf_count (root t)) eqn:Hc; [done|].
    simpl. unfold tree_leaf_count. cbn [root]. rewrite Hc. by rewrite Nat.ltb_irrefl. }
  rewrite (proj2 (Nat.ltb_ge _ _)) by (unfold tree_leaf_count in Hl |- *; cbn [root]; lia). cbn [root leaf_map].
  rewrite fix_root_size_id by apply Hwf.
  rewrite (wf_check t Hwf). cbn [negb]. do 2 f_equal. apply (wf_positioned _ Hwf).
Qed.

Lemma layout_text_roundtrip_witness :
  tree_parse (text_of "9d87,80x24,0,0{40x24,0,0,7,39x24,41,0[39x12,41,0,8,39x11,41,13,9]}") 3 =
  Ok example_tree3.
Proof.
  pose proof (layout_text_roundtrip example_tree3
    (map (fun id => new_with_id 0 id 0 (mkPaneGeometry 0 0 0 0)) [7; 8; 9])) as H.
  vm_compute (dump _ _) in H. vm_compute (text_of _). apply H.
  - apply example_tree3_wf.
  - vm_compute. repeat constructor.
  - reflexivity.
  - repeat constructor; vm_compute; discriminate.
Defined.

(** What [parse] accepts: the checksum field matched the body, and the tree
    it returns has exactly the requested number of panes, passes [check], is laid
    out from the origin and has the default pane assignment. *)
Theorem tree_parse_sound layout n t :
  tree_parse layout n = Ok t ->
  (exists sum body, split_once "," layout = Some (sum, body) /\ length sum = 4%nat /\
     from_str_radix16 sum = Some (layout_checksum body)) /\
  tree_leaf_count t = n /\ check (root t) = true /\ positioned 0 0 (root t) /\ leaf_map t = None.
Proof. apply tree_parse_facts. Qed.

Lemma tree_parse_sound_witness :
  exists t, tree_parse (text_of "9d87,80x24,0,0{40x24,0,0,7,39x24,41,0[39x12,41,0,8,39x11,41,13,9]}") 2
            = Ok t /\ tree_leaf_count t = 2%nat /\ check (root t) = true.
Proof.
  pose proof (tree_parse_sound
    (text_of "9d87,80x24,0,0{40x24,0,0,7,39x24,41,0[39x12,41,0,8,39x11,41,13,9]}") 2) as H.
  destruct (tree_parse _ 2) as [t|e] eqn:E; [|vm_compute in E; discriminate E].
  exists t. destruct (H t eq_refl) as (_ & H1 & H2 & _). split; [reflexivity|]. split; [exact H1|exact H2].
Defined.

(** The checksum detects every single-byte change: two bodies that differ in
    one byte have different checksums, so [parse] rejects one under the other's
    checksum. *)
Theorem layout_checksum_detects_byte pre c c' post :
  layout_checksum (pre ++ c :: post) = layout_checksum (pre ++ c' :: post) -> c = c'.
Proof.
  intros E. change (layout_checksum ?l) with (checksum_from 0 l) in E.
  unfold checksum_from in E. rewrite !fold_left_app in E. cbn [fold_left] in E.
  fold (checksum_from 0 pre) in E. set (s := checksum_from 0 pre) in *.
  assert (in_u16 s) as Hs by (apply checksum_from_range; by unfold in_u16, u16_max).
  apply (checksum_from_inj _ _ post) in E; [|rewrite checksum_step_rotate; apply wrap_u16_range..].
  rewrite !checksum_step_rotate, !(Z.add_comm (rotate s)) in E. apply byte_of_inj.
  pose proof (byte_of_range c). pose proof (byte_of_range c').
  apply wrap_u16_cancel in E; [done|unfold in_u16, u16_max; lia..].
Qed.

Lemma layout_checksum_detects_byte_witness :
  layout_checksum (text_of "80x24,0,0,1") <> layout_checksum (text_of "80x24,0,0,2").
Proof.
  intros E.
  pose proof (layout_checksum_detects_byte (text_of "80x24,0,0,") "1" "2" [] E) as H. discriminate H.
Defined.

(** Termination of the parser: the fuel of the loop over the children is
    never the limit, any larger amount gives the same result, at every nesting
    depth and for every input. *)
Theorem parse_children_fuel budget close n input :
  (length input < n)%nat ->
  parse_children (parse_cell_at_depth budget) close n input =
  parse_children (parse_cell_at_depth budget) close (S (length input)) input.
Proof. intros Hn. apply parse_children_enough; [apply parse_cell_shorter|done|lia]. Qed.

Lemma parse_children_fuel_witness :
  parse_children (parse_cell_at_depth 3) "}" 1000 (text_of "1x1,0,0,1x1,2,0}") =
  Ok ([pane (mkGeometry 1 1 0 0); pane (mkGeometry 1 1 2 0)], []).
Proof.
  rewrite (parse_children_fuel 3 "}" 1000); [vm_compute; reflexivity|]. vm_compute. lia.
Defined.
