(* ===== verification/LayoutShape.v ===== *)
(** * Shapes of layout trees

    What the operations of [crates/rmux-core/src/layout] do to the number of
    leaves and to the pane assignment of a tree, whatever its geometry: a window
    relies on this for every tree it can hold, also for one that does not pass
    [check]. *)

From S2P Require Import Prelude Panes LayoutCell LayoutAdjust LayoutOffsets LayoutTree LayoutPaths.
From S2P Require Import LayoutSplit LayoutRemove LayoutResize LayoutNamed Text Errors LayoutText.

(** ** Trees that fit a number of panes *)

(** One leaf per pane; a pane assignment, if there is one, names a leaf for each
    of two or more panes. *)
Record tree_fits (n : nat) (t : LayoutTree) : Prop := {
  fits_leaves : tree_leaf_count t = n;
  fits_map : forall m, leaf_map t = Some m -> (2 <= n)%nat /\ length m = n /\ Forall (fun i => (i < n)%nat) m;
}.

Record same_shape (t t' : LayoutTree) : Prop := {
  shape_root : erase (root t') = erase (root t);
  shape_map : leaf_map t' = leaf_map t;
}.

Lemma same_shape_refl t : same_shape t t.
Proof. done. Qed.

Lemma same_shape_trans t1 t2 t3 : same_shape t1 t2 -> same_shape t2 t3 -> same_shape t1 t3.
Proof. intros [E1 M1] [E2 M2]. split; congruence. Qed.

Lemma same_shape_fits n t t' : same_shape t t' -> tree_fits n t -> tree_fits n t'.
Proof.
  intros [E M] [L F]. split; [|by rewrite M]. unfold tree_leaf_count in *.
  by rewrite (erase_eq_leaf_count (root t)).
Qed.

Lemma same_shape_offsets t x y m : same_shape t (mkTree (fix_offsets x y (root t)) m) <-> m = leaf_map t.
Proof. split; [by intros [_ ?]|intros ->; split; cbn [root leaf_map]; [apply fix_offsets_erase|done]]. Qed.

Lemma same_shape_moved t t' : same_shape t t' -> same_shape t (mkTree (fix_offsets 0 0 (root t')) (leaf_map t')).
Proof. intros H. eapply same_shape_trans; [exact H|]. by apply same_shape_offsets. Qed.

(** ** Operations that keep the shape *)

Lemma resize_axis_shape d change t : same_shape t (resize_axis d change t).
Proof.
  unfold resize_axis. cbv zeta. case_match; [done|]. split; [|done]. cbn [root]. apply resize_adjust_fuel_erase.
Qed.

Lemma resize_shape size t : same_shape t (resize size t).
Proof.
  unfold resize. cbv zeta. eapply same_shape_trans; [apply resize_axis_shape|].
  apply same_shape_moved, resize_axis_shape.
Qed.

Lemma alter_adjust_erase d z k cs : map erase (alter (resize_adjust d z) k cs) = map erase cs.
Proof.
  destruct (cs !! k) as [c|] eqn:E.
  - eapply map_erase_alter; [exact E|]. apply resize_adjust_fuel_erase.
  - f_equal. apply list_eq. intros j. destruct (decide (j = k)) as [->|].
    + by rewrite list_lookup_alter_eq, E.
    + by rewrite list_lookup_alter_ne.
Qed.

Lemma resize_children_erase cs a r d z : map erase (resize_children cs a r d z) = map erase cs.
Proof. unfold resize_children. case_match; [done|]. by rewrite !alter_adjust_erase. Qed.

Lemma grow_in_parent_erase cs k d n opp : map erase (grow_in_parent cs k d n opp).2 = map erase cs.
Proof. unfold grow_in_parent. repeat case_match; cbn [snd]; try done; apply resize_children_erase. Qed.

Lemma shrink_in_parent_erase cs k d n : map erase (shrink_in_parent cs k d n).2 = map erase cs.
Proof. unfold shrink_in_parent. repeat case_match; cbn [snd]; try done; apply resize_children_erase. Qed.

Lemma resize_at_shape t p d limit step :
  (forall cs, map erase (step cs).2 = map erase cs) -> same_shape t (resize_at t p d limit step).2.
Proof.
  intros Hstep. unfold resize_at. destruct (cell_at_path (root t) p) as [[g [|pd cs]]|] eqn:Hp; [done| |done].
  destruct (decide (pd = d)); [|done]. destruct (_ <=? _)%nat; [done|].
  specialize (Hstep cs). destruct (step cs) as [size cs']. cbn [snd] in *. split; [|done]. cbn [root].
  eapply update_at_path_erase; [exact Hp|]. cbn. by rewrite Hstep.
Qed.

Lemma resize_layout_loop_shape fuel t p k d change needed opp changed :
  same_shape t (resize_layout_loop fuel t p k d change needed opp changed).2.
Proof.
  revert t needed changed. induction fuel as [|fuel IH]; intros t needed changed; [done|].
  cbn [resize_layout_loop]. destruct (needed =? 0); [done|].
  set (res := if 0 <? change then _ else _). assert (same_shape t res.2) as Hres.
  { unfold res. destruct (0 <? change); apply resize_at_shape; intros cs;
      [apply grow_in_parent_erase|apply shrink_in_parent_erase]. }
  destruct res as [size t']. cbn [snd] in Hres. destruct (size =? 0); [done|].
  eapply same_shape_trans; [exact Hres|apply IH].
Qed.

Lemma resize_layout_shape t p k d change opp : same_shape t (resize_layout t p k d change opp).2.
Proof.
  unfold resize_layout. pose proof (resize_layout_loop_shape (S (Z.abs_nat change)) t p k d change change opp false) as H.
  destruct (resize_layout_loop _ _ _ _ _ _ _ _ _) as [changed t']. cbn [snd] in H.
  destruct changed; cbn [snd]; [by apply same_shape_moved|done].
Qed.

Lemma resize_pane_to_shape t pos d size : same_shape t (resize_pane_to t pos d size).2.
Proof.
  unfold resize_pane_to, resize_leaf_to. destruct (pane_leaf t pos) as [i|]; [|done].
  destruct (leaf_paths t !! i) as [path|]; [|done]. induction (reverse path) as [|k rest IH]; [done|].
  cbn [resize_leaf_to_loop]. destruct (cell_at_path _ _) as [[g [|pd cs]]|]; [done| |done].
  destruct (decide (pd = d)); [|exact IH]. destruct (cs !! k); [|done].
  repeat case_match; try done; apply resize_layout_shape.
Qed.

Lemma resize_pane_by_shape t pos d change : same_shape t (resize_pane_by t pos d change).2.
Proof.
  unfold resize_pane_by, resize_leaf_by. destruct (change =? 0); [done|]. destruct (pane_leaf t pos) as [i|]; [|done].
  destruct (find_resize_handle t i d) as [[p k]|]; [apply resize_layout_shape|done].
Qed.

Lemma spread_children_erase d each rem cs : map erase (spread_children d each rem cs).1 = map erase cs.
Proof.
  revert rem. induction cs as [|c cs IH]; intros rem; [done|]. cbn [spread_children]. cbv zeta.
  specialize (IH (if 0 <? rem then rem - 1 else rem)). destruct (spread_children _ _ _ cs) as [cs' ch]. cbn [fst] in IH.
  case_match; cbn [fst map]; rewrite IH; [done|]. f_equal. apply resize_adjust_fuel_erase.
Qed.

Lemma spread_erase c : erase (spread c).1 = erase c.
Proof.
  unfold spread. destruct c as [g [|d cs]]; [done|]. cbn [kind geometry].
  destruct (length cs <=? 1)%nat; [done|]. cbv zeta. destruct (_ <? _); [done|]. destruct (_ =? 0); [done|].
  match goal with |- context [spread_children d ?e ?r cs] => pose proof (spread_children_erase d e r cs) as H end.
  destruct (spread_children _ _ _ cs) as [cs' ch]. cbn [fst] in *. cbn. by rewrite H.
Qed.

Lemma spread_from_leaf_shape t i : same_shape t (spread_from_leaf t i).2.
Proof.
  unfold spread_from_leaf. destruct (leaf_paths t !! i) as [path|]; [|done].
  induction (length path) as [|depth IH]; [done|]. cbn [spread_prefixes].
  destruct (cell_at_path (root t) (take depth path)) as [c|] eqn:Hc; [|exact IH].
  pose proof (spread_erase c) as He. destruct (spread c) as [c' changed]. cbn [fst] in He.
  destruct changed; [|exact IH]. cbn [snd]. split; [|done]. cbn [root]. rewrite fix_offsets_erase.
  by eapply update_at_path_erase; [exact Hc|].
Qed.

(** ** Operations that change the number of leaves *)

Lemma split_leaf_into_children_leaves g d before first second :
  split_leaf_into_children g d before = Some (first, second) -> leaf_count first = 1%nat /\ leaf_count second = 1%nat.
Proof. unfold split_leaf_into_children. case_match; [done|]. by destruct d; intros [=<- <-]. Qed.

Lemma split_leaf_cell_leaves c d before c' : split_leaf_cell c d before = Some c' -> length (leaves c') = 2%nat.
Proof.
  unfold split_leaf_cell. destruct (split_leaf_into_children _ _ _) as [[first second]|] eqn:E; [|done].
  apply split_leaf_into_children_leaves in E as [E1 E2]. intros [=<-]. cbn.
  rewrite app_nil_r, length_app, !length_leaves. lia.
Qed.

Lemma split_in_parent_leaves cs k first second before c :
  cs !! k = Some c -> leaf_count c = 1%nat -> leaf_count first = 1%nat -> leaf_count second = 1%nat ->
  length (concat (map leaves (split_in_parent cs k first second before))) = S (length (concat (map leaves cs))).
Proof.
  intros Hk Hc H1 H2. pose proof (lookup_lt_Some _ _ _ Hk) as Hlt.
  assert (forall i (x : LayoutCell) l, length (concat (map leaves (vec_insert i x l))) =
            (leaf_count x + length (concat (map leaves l)))%nat) as Hins.
  { intros i x l. unfold vec_insert. rewrite map_app, concat_app, length_app. cbn [map concat].
    rewrite length_app, length_leaves. rewrite <- (take_drop i l) at 3. rewrite map_app, concat_app, length_app. lia. }
  assert (length (concat (map leaves cs)) = S (length (concat (map leaves (delete k cs))))) as Hdel.
  { rewrite (concat_leaves_split cs k c Hk), delete_take_drop, map_app, concat_app, !length_app, length_leaves. lia. }
  unfold split_in_parent. cbv zeta. destruct before; rewrite !Hins; lia.
Qed.

Lemma split_leaf_fits n t i d before :
  tree_fits n t ->
  match split_leaf t i d before with
  | (true, t') => tree_fits (S n) t'
  | (false, t') => t' = t
  end.
Proof.
  intros [L F]. unfold tree_leaf_count in L. unfold split_leaf. destruct (leaf_paths t !! i) as [p|] eqn:Hpath; [|done].
  destruct (leaf_path_spec t i p Hpath) as (g & Hp & _). pose proof (pop_path p) as Hpop.
  destruct (last p) as [k|].
  - set (pp := List.removelast p) in *. rewrite Hpop in Hp.
    destruct (cell_at_path_snoc _ _ _ _ Hp) as (gp & pd & cs & Hpp & Hk). rewrite Hpp. cbn [kind].
    destruct (decide (pd = d)) as [->|Hd].
    + rewrite Hk. cbn [geometry]. destruct (split_leaf_into_children g d before) as [[first second]|] eqn:E; [|done].
      apply split_leaf_into_children_leaves in E as [E1 E2]. split; [|done]. unfold tree_leaf_count. cbn [root].
      rewrite fix_offsets_leaf_count, <- L, <- !length_leaves.
      destruct (leaves_at_path _ _ _ Hpp) as (pre & post & _ & L1 & L2). rewrite L1, L2, !length_app.
      cbn [geometry leaves kind]. rewrite (split_in_parent_leaves cs k first second before _ Hk) by done. lia.
    + rewrite <- Hpop in Hp. rewrite Hp. destruct (split_leaf_cell _ d before) as [c'|] eqn:E; [|done].
      apply split_leaf_cell_leaves in E. split; [|done]. unfold tree_leaf_count. cbn [root].
      rewrite fix_offsets_leaf_count, <- L, <- !length_leaves.
      destruct (leaves_at_path _ _ _ Hp) as (pre & post & _ & L1 & L2). rewrite L1, L2, !length_app, E. cbn [leaves kind length]. lia.
  - subst p. injection Hp as Hroot. destruct (split_leaf_cell (root t) d before) as [c'|] eqn:E; [|done].
    apply split_leaf_cell_leaves in E. rewrite Hroot in L. cbn in L. subst n.
    assert (leaf_map t = None) as Hm.
    { destruct (leaf_map t) as [m|]; [|done]. destruct (F m eq_refl). lia. }
    split; [|by rewrite Hm]. unfold tree_leaf_count. cbn [root]. by rewrite fix_offsets_leaf_count, <- length_leaves, E.
Qed.

Lemma remove_leaf_fits n t i :
  tree_fits (S n) t ->
  match remove_leaf t i with
  | (true, t') => tree_fits n t'
  | (false, t') => t' = t
  end.
Proof.
  intros [L F]. destruct (remove_leaf t i) as [[] t'] eqn:E.
  - apply remove_leaf_count in E as [E M].
    split; [lia|]. by rewrite M.
  - revert E. unfold remove_leaf. repeat case_match; congruence.
Qed.

Lemma single_fits size : tree_fits 1 (single size).
Proof. by split. Qed.

Lemma tree_parse_fits layout n t : tree_parse layout n = Ok t -> tree_fits n t.
Proof. intros H. apply tree_parse_facts in H as (_ & L & _ & _ & M). split; [done|]. by rewrite M. Qed.

(** *** Named layouts *)

Lemma split_axis_count total n : length (split_axis total n) = n.
Proof. unfold split_axis. destruct (Nat.eqb_spec n 0) as [->|]; [done|]. by rewrite length_map, length_seq. Qed.

Lemma scan_leaf_count g d at_offset k sizes :
  leaf_count (split d g (scan_children at_offset k sizes)) = length sizes.
Proof.
  unfold split. rewrite panes_leaf_count by apply scan_children_panes.
  revert k. induction sizes as [|s l IH]; intros k; cbn; [done|]. by rewrite IH.
Qed.

Lemma build_named_leaf_count layout n g o :
  (2 <= n)%nat -> Z.of_nat n <= u16_max -> tiled_max_columns o = None ->
  tree_leaf_count (build_named layout n g o) = n.
Proof.
  intros H2 Hn Ho. unfold tree_leaf_count.
  assert (forall mirrored, leaf_count (root (build_main_vertical n g o mirrored)) = n) as Hv.
  { intros mirrored. unfold build_main_vertical. cbv zeta. destruct mirrored; cbn [root];
      rewrite fix_offsets_leaf_count; cbn [split leaf_count kind foldr map]; unfold shift_cell;
      rewrite ?fix_offsets_leaf_count; (destruct (Nat.eqb_spec n 2) as [->|];
        [done|rewrite scan_leaf_count, split_axis_count; cbn; lia]). }
  assert (forall mirrored, leaf_count (root (build_main_horizontal n g o mirrored)) = n) as Hh.
  { intros mirrored. unfold build_main_horizontal. cbv zeta. destruct mirrored; cbn [root];
      rewrite fix_offsets_leaf_count; cbn [split leaf_count kind foldr map]; unfold shift_cell;
      rewrite ?fix_offsets_leaf_count; (destruct (Nat.eqb_spec n 2) as [->|];
        [done|rewrite scan_leaf_count, split_axis_count; cbn; lia]). }
  destruct layout; cbn [build_named]; try done.
  - unfold build_even. cbn [root]. by rewrite scan_leaf_count, split_axis_count.
  - unfold build_even. cbn [root]. by rewrite scan_leaf_count, split_axis_count.
  - pose proof (build_tiled_needs n g default_options H2 Hn) as Ht.
    assert (build_tiled n g o = build_tiled n g default_options) as ->
      by (unfold build_tiled, tiled_columns; by rewrite Ho).
    destruct (tiled_grid_size n (tiled_columns default_options)) as [r c].
    apply Ht. split_and!; intros ? [=].
Qed.

Lemma named_fits layout n size o :
  (1 <= n)%nat -> Z.of_nat n <= u16_max -> tiled_max_columns o = None -> tree_fits n (named layout n size o).
Proof.
  intros H1 Hn Ho. destruct (decide (n = 1%nat)) as [->|Hne]; [apply single_fits|]. split.
  - unfold named. rewrite (proj2 (Nat.leb_gt _ _)) by lia. destruct (minimum_size _) as [mw mh].
    unfold tree_leaf_count. cbn [root]. rewrite fix_offsets_leaf_count.
    case_match; apply build_named_leaf_count; try done; lia.
  - intros m. rewrite named_leaf_map by lia. destruct layout; intros [=<-];
      (split; [lia|]; rewrite mirrored_leaf_map_eq by lia; cbn [length]; rewrite length_seq; split; [lia|];
       constructor; [lia|]; apply Forall_forall; intros i Hi%list_elem_of_In%List.in_seq; lia).
Qed.

(** ** Applying a tree to the panes *)

Lemma apply_to_panes_total n t l :
  tree_fits n t -> length l = n -> is_Some (apply_to_panes t l).
Proof.
  intros [L F] Hl. unfold apply_to_panes. apply mapM_is_Some. apply Forall_forall. intros [i p] Hin.
  apply elem_of_zip_l in Hin as Hi. apply list_elem_of_In, List.in_seq in Hi.
  change (is_Some (apply_to_pane t i p)). unfold apply_to_pane.
  assert (exists leaf, pane_leaf t i = Some leaf /\ (leaf < n)%nat) as (leaf & Hleaf & Hlt).
  { unfold pane_leaf. destruct (leaf_map t) as [m|] eqn:Em; [|exists i; split; [done|lia]].
    destruct (F m eq_refl) as (_ & Hm & Hall). destruct (lookup_lt_is_Some_2 m i) as [x Hx]; [lia|].
    exists x. split; [done|]. by eapply (proj1 (Forall_lookup _ _) Hall). }
  rewrite Hleaf. cbn. destruct (lookup_lt_is_Some_2 (rects t) leaf) as [g Hg].
  - rewrite rects_leaves, length_leaves. unfold tree_leaf_count in L. lia.
  - rewrite Hg. cbn. eauto.
Qed.

(** ** The size of the root *)

Definition dims (c : LayoutCell) : Z * Z := (width (geometry c), height (geometry c)).

Lemma tree_size_dims t t' : dims (root t') = dims (root t) -> tree_size t' = tree_size t.
Proof. unfold dims, tree_size. by intros [= -> ->]. Qed.

Lemma fix_offsets_dims x y c : dims (fix_offsets x y c) = dims c.
Proof. unfold dims. by rewrite fix_offsets_geometry. Qed.

Lemma update_at_path_dims p f c cell :
  cell_at_path c p = Some cell -> dims (f cell) = dims cell -> dims (update_at_path p f c) = dims c.
Proof.
  destruct p as [|k p]; cbn [cell_at_path update_at_path]; [by intros [=->]|].
  destruct (kind c) as [|d cs] eqn:E; [done|]. done.
Qed.

Lemma resize_at_dims t p d limit step : dims (root (resize_at t p d limit step).2) = dims (root t).
Proof.
  unfold resize_at. destruct (cell_at_path (root t) p) as [[g [|pd cs]]|] eqn:Hp; [done| |done].
  destruct (decide (pd = d)); [|done]. destruct (_ <=? _)%nat; [done|]. destruct (step cs) as [size cs'].
  cbn [snd root]. by eapply update_at_path_dims.
Qed.

Lemma resize_layout_dims t p k d change opp : dims (root (resize_layout t p k d change opp).2) = dims (root t).
Proof.
  assert (forall fuel t needed changed,
    dims (root (resize_layout_loop fuel t p k d change needed opp changed).2) = dims (root t)) as Hloop.
  { clear t. induction fuel as [|fuel IH]; intros t needed changed; [done|].
    cbn [resize_layout_loop]. destruct (needed =? 0); [done|]. set (res := if 0 <? change then _ else _).
    assert (dims (root res.2) = dims (root t)) as Hres by (unfold res; destruct (0 <? change); apply resize_at_dims).
    destruct res as [size t']. cbn [snd] in Hres. destruct (size =? 0); [done|]. by rewrite IH. }
  unfold resize_layout. specialize (Hloop (S (Z.abs_nat change)) t change false).
  destruct (resize_layout_loop _ _ _ _ _ _ _ _ _) as [changed t']. cbn [snd] in *.
  destruct changed; cbn [snd root]; [by rewrite fix_offsets_dims|done].
Qed.

Lemma resize_pane_to_dims t pos d size : dims (root (resize_pane_to t pos d size).2) = dims (root t).
Proof.
  unfold resize_pane_to, resize_leaf_to. destruct (pane_leaf t pos) as [i|]; [|done].
  destruct (leaf_paths t !! i) as [path|]; [|done]. induction (reverse path) as [|k rest IH]; [done|].
  cbn [resize_leaf_to_loop]. destruct (cell_at_path _ _) as [[g [|pd cs]]|]; [done| |done].
  destruct (decide (pd = d)); [|exact IH]. destruct (cs !! k); [|done].
  repeat case_match; try done; apply resize_layout_dims.
Qed.

Lemma resize_pane_by_dims t pos d change : dims (root (resize_pane_by t pos d change).2) = dims (root t).
Proof.
  unfold resize_pane_by, resize_leaf_by. destruct (change =? 0); [done|]. destruct (pane_leaf t pos) as [i|]; [|done].
  destruct (find_resize_handle t i d) as [[p k]|]; [apply resize_layout_dims|done].
Qed.

Lemma spread_from_leaf_dims t i : dims (root (spread_from_leaf t i).2) = dims (root t).
Proof.
  unfold spread_from_leaf. destruct (leaf_paths t !! i) as [path|]; [|done].
  induction (length path) as [|depth IH]; [done|]. cbn [spread_prefixes].
  destruct (cell_at_path (root t) (take depth path)) as [c|] eqn:Hc; [|exact IH].
  assert (dims (spread c).1 = dims c) as He.
  { unfold spread. destruct (kind c); [done|]. cbv zeta. repeat case_match; done. }
  destruct (spread c) as [c' changed]. cbn [fst] in He.
  destruct changed; [|exact IH]. cbn [snd root]. rewrite fix_offsets_dims. by eapply update_at_path_dims.
Qed.

Lemma split_leaf_dims t i d before : dims (root (split_leaf t i d before).2) = dims (root t).
Proof.
  assert (forall c c', split_leaf_cell c d before = Some c' -> dims c' = dims c) as Hcell.
  { intros c c'. unfold split_leaf_cell. destruct (split_leaf_into_children _ _ _) as [[f s]|]; [|done]. by intros [=<-]. }
  unfold split_leaf. destruct (leaf_paths t !! i) as [p|]; [|done]. destruct (last p) as [k|].
  - destruct (cell_at_path (root t) (List.removelast p)) as [parent|] eqn:Hpp; [|done]. cbv zeta.
    destruct (match kind parent with Pane => None | Split _ _ => _ end) as [cs|].
    + destruct (cs !! k); [|done]. destruct (split_leaf_into_children _ _ _) as [[f s]|]; [|done].
      cbn [snd root]. rewrite fix_offsets_dims. by eapply update_at_path_dims.
    + destruct (cell_at_path (root t) p) as [c|] eqn:Hp; [|done].
      destruct (split_leaf_cell c d before) as [c'|] eqn:E; [|done]. cbn [snd root].
      rewrite fix_offsets_dims. eapply update_at_path_dims; [exact Hp|]. by apply Hcell.
  - destruct (split_leaf_cell (root t) d before) as [c'|] eqn:E; [|done]. cbn [snd root].
    rewrite fix_offsets_dims. by apply Hcell.
Qed.

Lemma collapse_dims c : dims (collapse_single_child c) = dims c.
Proof.
  destruct c as [g [|d cs]]; [done|]. cbn [collapse_single_child kind geometry].
  destruct (map collapse_single_child cs) as [|x [|y l]]; done.
Qed.

Lemma remove_leaf_dims t i : dims (root (remove_leaf t i).2) = dims (root t).
Proof.
  unfold remove_leaf. destruct (leaf_paths t !! i) as [p|]; [|done]. destruct (last p) as [k|]; [|done].
  destruct (cell_at_path (root t) (List.removelast p)) as [[g [|d cs]]|] eqn:Hpp; [done| |done]. cbn [kind].
  destruct (cs !! k); [|done]. cbn [snd root]. rewrite fix_offsets_dims, collapse_dims. by eapply update_at_path_dims.
Qed.

(** ** What applying a tree changes *)

Lemma apply_to_panes_geometry t l l' :
  apply_to_panes t l = Some l' -> Forall2 (fun p p' => exists g, p' = set_geometry g p) l l'.
Proof.
  unfold apply_to_panes. intros H. apply mapM_Some in H. generalize dependent l'. generalize 0%nat.
  induction l as [|p l IH]; intros k l' H; cbn [length seq zip zip_with] in H; inversion H as [|? ? ? ? H1 H2]; subst; constructor.
  - unfold apply_to_pane in H1. apply bind_Some in H1 as (i & _ & H1). apply bind_Some in H1 as (g & _ & [=<-]). eauto.
  - by apply (IH (S k)).
Qed.

(** Which panes are placed where depends on their positions only. *)
Lemma apply_to_panes_same t l1 l2 l' :
  Forall2 (fun p q => forall g, set_geometry g p = set_geometry g q) l1 l2 ->
  apply_to_panes t l1 = Some l' -> apply_to_panes t l2 = Some l'.
Proof.
  unfold apply_to_panes. rewrite !mapM_Some. generalize 0%nat. intros k Hl. revert k l'.
  induction Hl as [|p q l1 l2 Hpq Hl IH]; intros k l' H; cbn [length seq zip zip_with] in *; inversion H as [|? ? ? ? H1 H2]; subst; constructor.
  - unfold apply_to_pane in *. apply bind_Some in H1 as (i & Hi & H1). apply bind_Some in H1 as (g & Hg & [=<-]).
    rewrite Hi. cbn. rewrite Hg. cbn. by rewrite Hpq.
  - by apply (IH (S k)).
Qed.

(** ** A call that reports no change made none *)

Lemma update_at_path_same p f c cell : cell_at_path c p = Some cell -> f cell = cell -> update_at_path p f c = c.
Proof.
  revert c. induction p as [|k p IH]; intros c Hp Hf; cbn [cell_at_path update_at_path] in *; [by simplify_eq|].
  destruct c as [g [|d cs]]; cbn [kind] in *; [done|]. apply bind_Some in Hp as (child & Hch & Hp). cbn [geometry].
  f_equal. f_equal. apply list_eq. intros j. destruct (decide (j = k)) as [->|Hj].
  - rewrite list_lookup_alter_eq, Hch. cbn. f_equal. by apply IH.
  - by rewrite list_lookup_alter_ne.
Qed.

Lemma resize_children_zero cs a r d : resize_children cs a r d 0 = cs.
Proof. unfold resize_children. by rewrite orb_true_r. Qed.

Lemma resize_at_zero t p d limit step t' :
  (forall cs cs', step cs = (0, cs') -> cs' = cs) -> resize_at t p d limit step = (0, t') -> t' = t.
Proof.
  intros Hstep. unfold resize_at. destruct (cell_at_path (root t) p) as [[g [|pd cs]]|] eqn:Hp; try (by intros [=<-]).
  destruct (decide (pd = d)); [|by intros [=<-]]. destruct (_ <=? _)%nat; [by intros [=<-]|].
  destruct (step cs) as [size cs'] eqn:Es. intros [=-> <-]. apply Hstep in Es as ->. destruct t as [r m]. f_equal.
  by eapply update_at_path_same.
Qed.

Lemma resize_layout_false t p k d change opp t' : resize_layout t p k d change opp = (false, t') -> t' = t.
Proof.
  assert (forall fuel t needed changed t', resize_layout_loop fuel t p k d change needed opp changed = (false, t') -> t' = t) as Hloop.
  { assert (forall fuel t needed t', resize_layout_loop fuel t p k d change needed opp true <> (false, t')) as Htrue.
    { induction fuel as [|fuel IH]; intros u needed u'; cbn [resize_layout_loop]; [done|].
      destruct (needed =? 0); [done|]. destruct (if 0 <? change then _ else _) as [size u1]. destruct (size =? 0); [done|apply IH]. }
    induction fuel as [|fuel IH]; intros u needed changed u'; cbn [resize_layout_loop]; [by intros [=_ <-]|].
    destruct (needed =? 0); [by intros [=_ <-]|]. destruct (if 0 <? change then _ else _) as [size u1] eqn:E.
    destruct (Z.eqb_spec size 0) as [->|]; [|by intros ?%Htrue]. intros [=-> <-].
    destruct (0 <? change); (eapply resize_at_zero; [|exact E]); intros cs cs'.
    - unfold grow_in_parent. cbv zeta. repeat case_match; intros Hz; simplify_eq; try done;
        (match goal with H : Z.min _ _ = 0 |- _ => rewrite H end); apply resize_children_zero.
    - unfold shrink_in_parent. cbv zeta. repeat case_match; intros Hz; simplify_eq; try done;
        (match goal with H : Z.min _ _ = 0 |- _ => rewrite H end); apply resize_children_zero. }
  unfold resize_layout. destruct (resize_layout_loop _ _ _ _ _ _ _ _ _) as [changed u] eqn:E.
  destruct changed; [done|]. intros [=<-]. by eapply Hloop.
Qed.

Lemma resize_pane_to_false t pos d size t' : resize_pane_to t pos d size = (false, t') -> t' = t.
Proof.
  unfold resize_pane_to, resize_leaf_to. destruct (pane_leaf t pos) as [i|]; [|by intros [=<-]].
  destruct (leaf_paths t !! i) as [path|]; [|by intros [=<-]]. induction (reverse path) as [|k rest IH]; [by intros [=<-]|].
  cbn [resize_leaf_to_loop]. destruct (cell_at_path _ _) as [[g [|pd cs]]|]; try (by intros [=<-]).
  destruct (decide (pd = d)); [|exact IH]. destruct (cs !! k); [|by intros [=<-]]. cbv zeta.
  destruct (_ =? _)%nat; [destruct (k =? 0)%nat; [by intros [=<-]|]|]; apply resize_layout_false.
Qed.

Lemma resize_pane_by_false t pos d change t' : resize_pane_by t pos d change = (false, t') -> t' = t.
Proof.
  unfold resize_pane_by, resize_leaf_by. destruct (change =? 0); [done|]. destruct (pane_leaf t pos) as [i|]; [|by intros [=<-]].
  destruct (find_resize_handle t i d) as [[p k]|]; [apply resize_layout_false|by intros [=<-]].
Qed.

Lemma spread_from_leaf_false t i t' : spread_from_leaf t i = (false, t') -> t' = t.
Proof.
  unfold spread_from_leaf. destruct (leaf_paths t !! i) as [path|]; [|by intros [=<-]].
  induction (length path) as [|depth IH]; [by intros [=<-]|]. cbn [spread_prefixes].
  destruct (cell_at_path (root t) (take depth path)) as [c|]; [|exact IH].
  destruct (spread c) as [c' []]; [done|exact IH].
Qed.

(** A tree change that keeps shape and window size. *)
Record tame (f : LayoutTree -> bool * LayoutTree) : Prop := {
  tame_shape : forall t, same_shape t (f t).2;
  tame_size : forall t, tree_size (f t).2 = tree_size t;
  tame_false : forall t t', f t = (false, t') -> t' = t;
}.

Lemma tame_resize_pane_to pos d size : tame (fun t => resize_pane_to t pos d size).
Proof.
  split; [intros; apply resize_pane_to_shape|intros; apply tree_size_dims, resize_pane_to_dims|].
  intros t t'. apply resize_pane_to_false.
Qed.

Lemma tame_resize_pane_by pos d change : tame (fun t => resize_pane_by t pos d change).
Proof.
  split; [intros; apply resize_pane_by_shape|intros; apply tree_size_dims, resize_pane_by_dims|].
  intros t t'. apply resize_pane_by_false.
Qed.

Lemma tame_spread pos : tame (fun t => spread_from_leaf t pos).
Proof.
  split; [intros; apply spread_from_leaf_shape|intros; apply tree_size_dims, spread_from_leaf_dims|].
  intros t t'. apply spread_from_leaf_false.
Qed.
