(* ===== verification/Window.v ===== *)
(** * Windows

    [Window] of [crates/rmux-core/src/window.rs] with its [window/panes.rs],
    [window/zoom.rs], [window/layout_ops.rs] and [window/layout_cycle.rs]: the
    ordered panes of a window, the active and last pane, the layout tree the
    panes' rectangles come from, zoom and the layout cycle.

    A panic ([expect], [assert!], an index out of range) is [None].  The wall
    clock is the argument [now] of the operations that read it.  Alert flags are
    the integer of the bit set. *)

From S2P Require Import Prelude Panes Text Errors LayoutCell LayoutTree LayoutNamed LayoutText.

(** ** Data *)

Inductive SplitDirection := Vertical | Horizontal.

Definition from_split_direction (d : SplitDirection) : LayoutDirection :=
  match d with Vertical => LeftRight | Horizontal => TopBottom end.

Inductive RotateWindowDirection := RotateUp | RotateDown.

Inductive ResizePaneRelativeDirection := RelUp | RelDown | RelLeft | RelRight.

Inductive ResizePaneAdjustment :=
| AbsoluteWidth (columns : Z)
| AbsoluteHeight (rows : Z)
| AdjustZoom
| AdjustUp (cells : Z)
| AdjustDown (cells : Z)
| AdjustLeft (cells : Z)
| AdjustRight (cells : Z)
| AdjustNoOp
| AbsoluteSize (columns rows : Z)
| TrimBelow
| Composite (columns rows : option Z) (relative : option ResizePaneRelativeDirection) (cells : Z).

Definition to_adjustment (d : ResizePaneRelativeDirection) (cells : Z) : ResizePaneAdjustment :=
  match d with
  | RelUp => AdjustUp cells
  | RelDown => AdjustDown cells
  | RelLeft => AdjustLeft cells
  | RelRight => AdjustRight cells
  end.

Record Window := mkWindow {
  win_id : Z;
  panes : list PaneState;
  next_pane_index : Z;
  active_pane : Z;
  last_pane : option Z;
  layout : LayoutName;
  last_layout : option LayoutName;
  layout_tree : option LayoutTree;
  custom_layout : bool;
  old_layout : option text;
  win_size : TerminalSize;
  win_name : option string;
  automatic_rename : bool;
  zoomed : bool;
  zoom_restore_pending : bool;
  alert_flags : Z;
  alerts_queued : bool;
  win_created : Z;
  win_activity : Z;
  requested_main_width : option Z;
  requested_main_height : option Z;
}.

(** Assignment to one field. *)
Definition with_panes (v : list PaneState) (w : Window) : Window :=
  mkWindow (win_id w) v (next_pane_index w) (active_pane w) (last_pane w) (layout w)
    (last_layout w) (layout_tree w) (custom_layout w) (old_layout w) (win_size w) (win_name
    w) (automatic_rename w) (zoomed w) (zoom_restore_pending w) (alert_flags w)
    (alerts_queued w) (win_created w) (win_activity w) (requested_main_width w)
    (requested_main_height w).

Definition with_next_pane_index (v : Z) (w : Window) : Window :=
  mkWindow (win_id w) (panes w) v (active_pane w) (last_pane w) (layout w) (last_layout w)
    (layout_tree w) (custom_layout w) (old_layout w) (win_size w) (win_name w)
    (automatic_rename w) (zoomed w) (zoom_restore_pending w) (alert_flags w) (alerts_queued
    w) (win_created w) (win_activity w) (requested_main_width w) (requested_main_height w).

Definition with_active_pane (v : Z) (w : Window) : Window :=
  mkWindow (win_id w) (panes w) (next_pane_index w) v (last_pane w) (layout w) (last_layout
    w) (layout_tree w) (custom_layout w) (old_layout w) (win_size w) (win_name w)
    (automatic_rename w) (zoomed w) (zoom_restore_pending w) (alert_flags w) (alerts_queued
    w) (win_created w) (win_activity w) (requested_main_width w) (requested_main_height w).

Definition with_last_pane (v : option Z) (w : Window) : Window :=
  mkWindow (win_id w) (panes w) (next_pane_index w) (active_pane w) v (layout w)
    (last_layout w) (layout_tree w) (custom_layout w) (old_layout w) (win_size w) (win_name
    w) (automatic_rename w) (zoomed w) (zoom_restore_pending w) (alert_flags w)
    (alerts_queued w) (win_created w) (win_activity w) (requested_main_width w)
    (requested_main_height w).

Definition with_layout (v : LayoutName) (w : Window) : Window :=
  mkWindow (win_id w) (panes w) (next_pane_index w) (active_pane w) (last_pane w) v
    (last_layout w) (layout_tree w) (custom_layout w) (old_layout w) (win_size w) (win_name
    w) (automatic_rename w) (zoomed w) (zoom_restore_pending w) (alert_flags w)
    (alerts_queued w) (win_created w) (win_activity w) (requested_main_width w)
    (requested_main_height w).

Definition with_last_layout (v : option LayoutName) (w : Window) : Window :=
  mkWindow (win_id w) (panes w) (next_pane_index w) (active_pane w) (last_pane w) (layout w)
    v (layout_tree w) (custom_layout w) (old_layout w) (win_size w) (win_name w)
    (automatic_rename w) (zoomed w) (zoom_restore_pending w) (alert_flags w) (alerts_queued
    w) (win_created w) (win_activity w) (requested_main_width w) (requested_main_height w).

Definition with_layout_tree (v : option LayoutTree) (w : Window) : Window :=
  mkWindow (win_id w) (panes w) (next_pane_index w) (active_pane w) (last_pane w) (layout w)
    (last_layout w) v (custom_layout w) (old_layout w) (win_size w) (win_name w)
    (automatic_rename w) (zoomed w) (zoom_restore_pending w) (alert_flags w) (alerts_queued
    w) (win_created w) (win_activity w) (requested_main_width w) (requested_main_height w).

Definition with_custom_layout (v : bool) (w : Window) : Window :=
  mkWindow (win_id w) (panes w) (next_pane_index w) (active_pane w) (last_pane w) (layout w)
    (last_layout w) (layout_tree w) v (old_layout w) (win_size w) (win_name w)
    (automatic_rename w) (zoomed w) (zoom_restore_pending w) (alert_flags w) (alerts_queued
    w) (win_created w) (win_activity w) (requested_main_width w) (requested_main_height w).

Definition with_old_layout (v : option text) (w : Window) : Window :=
  mkWindow (win_id w) (panes w) (next_pane_index w) (active_pane w) (last_pane w) (layout w)
    (last_layout w) (layout_tree w) (custom_layout w) v (win_size w) (win_name w)
    (automatic_rename w) (zoomed w) (zoom_restore_pending w) (alert_flags w) (alerts_queued
    w) (win_created w) (win_activity w) (requested_main_width w) (requested_main_height w).

Definition with_win_size (v : TerminalSize) (w : Window) : Window :=
  mkWindow (win_id w) (panes w) (next_pane_index w) (active_pane w) (last_pane w) (layout w)
    (last_layout w) (layout_tree w) (custom_layout w) (old_layout w) v (win_name w)
    (automatic_rename w) (zoomed w) (zoom_restore_pending w) (alert_flags w) (alerts_queued
    w) (win_created w) (win_activity w) (requested_main_width w) (requested_main_height w).

Definition with_zoomed (v : bool) (w : Window) : Window :=
  mkWindow (win_id w) (panes w) (next_pane_index w) (active_pane w) (last_pane w) (layout w)
    (last_layout w) (layout_tree w) (custom_layout w) (old_layout w) (win_size w) (win_name
    w) (automatic_rename w) v (zoom_restore_pending w) (alert_flags w) (alerts_queued w)
    (win_created w) (win_activity w) (requested_main_width w) (requested_main_height w).

Definition with_zoom_restore_pending (v : bool) (w : Window) : Window :=
  mkWindow (win_id w) (panes w) (next_pane_index w) (active_pane w) (last_pane w) (layout w)
    (last_layout w) (layout_tree w) (custom_layout w) (old_layout w) (win_size w) (win_name
    w) (automatic_rename w) (zoomed w) v (alert_flags w) (alerts_queued w) (win_created w)
    (win_activity w) (requested_main_width w) (requested_main_height w).

Definition with_win_activity (v : Z) (w : Window) : Window :=
  mkWindow (win_id w) (panes w) (next_pane_index w) (active_pane w) (last_pane w) (layout w)
    (last_layout w) (layout_tree w) (custom_layout w) (old_layout w) (win_size w) (win_name
    w) (automatic_rename w) (zoomed w) (zoom_restore_pending w) (alert_flags w)
    (alerts_queued w) (win_created w) v (requested_main_width w) (requested_main_height w).

Definition with_main_width (v : option Z) (w : Window) : Window :=
  mkWindow (win_id w) (panes w) (next_pane_index w) (active_pane w) (last_pane w) (layout w)
    (last_layout w) (layout_tree w) (custom_layout w) (old_layout w) (win_size w) (win_name
    w) (automatic_rename w) (zoomed w) (zoom_restore_pending w) (alert_flags w)
    (alerts_queued w) (win_created w) (win_activity w) v (requested_main_height w).

Definition with_main_height (v : option Z) (w : Window) : Window :=
  mkWindow (win_id w) (panes w) (next_pane_index w) (active_pane w) (last_pane w) (layout w)
    (last_layout w) (layout_tree w) (custom_layout w) (old_layout w) (win_size w) (win_name
    w) (automatic_rename w) (zoomed w) (zoom_restore_pending w) (alert_flags w)
    (alerts_queued w) (win_created w) (win_activity w) (requested_main_width w) v.

Definition with_win_name (v : option string) (w : Window) : Window :=
  mkWindow (win_id w) (panes w) (next_pane_index w) (active_pane w) (last_pane w) (layout w)
    (last_layout w) (layout_tree w) (custom_layout w) (old_layout w) (win_size w) v
    (automatic_rename w) (zoomed w) (zoom_restore_pending w) (alert_flags w) (alerts_queued
    w) (win_created w) (win_activity w) (requested_main_width w) (requested_main_height w).

Definition with_automatic_rename (v : bool) (w : Window) : Window :=
  mkWindow (win_id w) (panes w) (next_pane_index w) (active_pane w) (last_pane w) (layout w)
    (last_layout w) (layout_tree w) (custom_layout w) (old_layout w) (win_size w) (win_name
    w) v (zoomed w) (zoom_restore_pending w) (alert_flags w) (alerts_queued w) (win_created
    w) (win_activity w) (requested_main_width w) (requested_main_height w).

Definition with_alert_flags (v : Z) (w : Window) : Window :=
  mkWindow (win_id w) (panes w) (next_pane_index w) (active_pane w) (last_pane w) (layout w)
    (last_layout w) (layout_tree w) (custom_layout w) (old_layout w) (win_size w) (win_name
    w) (automatic_rename w) (zoomed w) (zoom_restore_pending w) v (alerts_queued w)
    (win_created w) (win_activity w) (requested_main_width w) (requested_main_height w).

Definition with_alerts_queued (v : bool) (w : Window) : Window :=
  mkWindow (win_id w) (panes w) (next_pane_index w) (active_pane w) (last_pane w) (layout w)
    (last_layout w) (layout_tree w) (custom_layout w) (old_layout w) (win_size w) (win_name
    w) (automatic_rename w) (zoomed w) (zoom_restore_pending w) (alert_flags w) v
    (win_created w) (win_activity w) (requested_main_width w) (requested_main_height w).

(** ** Looking panes up *)

Definition pane (i : Z) (w : Window) : option PaneState := List.find (fun p => pane_index p =? i) (panes w).

(** [Iterator::position]. *)
Fixpoint position {A} (f : A -> bool) (l : list A) : option nat :=
  match l with
  | [] => None
  | x :: rest => if f x then Some 0%nat else S <$> position f rest
  end.

Definition pane_position (i : Z) (w : Window) : option nat := position (fun p => pane_index p =? i) (panes w).

Definition pane_index_for_id (id : Z) (w : Window) : option Z :=
  pane_index <$> List.find (fun p => pane_id p =? id) (panes w).

Definition active (w : Window) : option PaneState := pane (active_pane w) w.

(** Mutation through [pane_mut]. *)
Definition update_pane (i : Z) (f : PaneState -> PaneState) (w : Window) : Window :=
  match pane_position i w with
  | Some k => with_panes (alter f k (panes w)) w
  | None => w
  end.

Definition layout_dump (w : Window) : text :=
  match layout_tree w with Some t => dump t (panes w) | None => [] end.

(** ** Applying the layout tree *)

Definition apply_layout_tree (w : Window) : option Window :=
  match layout_tree w with
  | None => Some w
  | Some t => l ← apply_to_panes t (panes w); Some (with_panes l w)
  end.

Definition layout_options (w : Window) : LayoutOptions :=
  with_tiled_max_columns None
    (with_requested_main_height (requested_main_height w)
       (with_requested_main_width (requested_main_width w) default_options)).

Definition rebuild_named_layout_tree (name : LayoutName) (w : Window) : option Window :=
  match panes w with
  | [] => Some (with_custom_layout false (with_layout_tree None w))
  | _ =>
      let t := named name (length (panes w)) (win_size w) (layout_options w) in
      apply_layout_tree (with_custom_layout false (with_layout_tree (Some t) (with_win_size (tree_size t) w)))
  end.

Definition recalculate_geometry (w : Window) : option Window :=
  match layout_tree w with
  | None => Some w
  | Some t =>
      let t := resize (win_size w) t in
      apply_layout_tree (with_win_size (tree_size t) (with_layout_tree (Some t) w))
  end.

(** ** Zoom *)

Definition full_geometry (size : TerminalSize) : PaneGeometry := mkPaneGeometry 0 0 (cols size) (rows size).

Definition apply_zoom_geometry (w : Window) : Window :=
  update_pane (active_pane w) (set_geometry (full_geometry (win_size w))) w.

Definition auto_unzoom (w : Window) : option (bool * Window) :=
  if zoomed w then w ← recalculate_geometry (with_zoomed false w); Some (true, w)
  else Some (false, w).

Definition unzoomed (w : Window) : option Window := snd <$> auto_unzoom w.

Definition push_zoom (restore : bool) (w : Window) : option (bool * Window) :=
  let was_zoomed := zoomed w in
  w ← (if was_zoomed then unzoomed w else Some w);
  Some (was_zoomed, with_zoom_restore_pending (was_zoomed && restore) w).

Definition pop_zoom (w : Window) : Window :=
  if zoom_restore_pending w then
    let w := with_zoom_restore_pending false w in
    if (1 <? length (panes w))%nat then apply_zoom_geometry (with_zoomed true w) else w
  else w.

(** ** Selecting *)

Definition max_active_point (l : list PaneState) : Z := fold_left Z.max (map active_point l) 0.

Definition mark_pane_active (i now : Z) (w : Window) : Window :=
  let next := u64_sat_add (max_active_point (panes w)) 1 in
  update_pane i (fun p => touch_activity now (set_active_point next p)) w.

Definition select_pane (i now : Z) (w : Window) : option (bool * Window) :=
  match pane i w with
  | None => Some (false, w)
  | Some _ =>
      if active_pane w =? i then Some (true, update_pane i (touch_activity now) w)
      else
        w ← unzoomed w;
        let w := with_active_pane i (with_last_pane (Some (active_pane w)) w) in
        Some (true, mark_pane_active i now w)
  end.

Definition select_pane_by_id (id now : Z) (w : Window) : option (bool * Window) :=
  match pane_index_for_id id w with
  | None => Some (false, w)
  | Some i => select_pane i now w
  end.

Definition toggle_zoom (i now : Z) (w : Window) : option (bool * Window) :=
  match pane i w with
  | None => Some (zoomed w, w)
  | Some _ =>
      if zoomed w then w ← unzoomed w; Some (false, w)
      else if (length (panes w) <=? 1)%nat then Some (false, w)
      else
        '(_, w) ← select_pane i now w;
        Some (true, apply_zoom_geometry (with_zoomed true w))
  end.

(** ** Renumbering *)

Definition renumbered (l : list PaneState) : list PaneState :=
  imap (fun i p => set_index (wrap_u32 (Z.of_nat i)) p) l.

Definition renumber_panes_by_position (active_id : Z) (last_id : option Z) (w : Window) : option Window :=
  let w := with_panes (renumbered (panes w)) w in
  let w := with_next_pane_index (wrap_u32 (Z.of_nat (length (panes w)))) w in
  a ← pane_index_for_id active_id w;
  let w := with_active_pane a w in
  let last := id ← last_id; i ← pane_index_for_id id w; if i =? a then None else Some i in
  Some (with_last_pane last w).

Definition renumber_single_pane_to_zero (w : Window) : option Window :=
  match panes w with
  | [p] =>
      let p := set_geometry (full_geometry (win_size w)) (set_index 0 p) in
      recalculate_geometry
        (mkWindow (win_id w) [p] 1 0 None MainVertical None (Some (single (win_size w))) false None
           (win_size w) (win_name w) (automatic_rename w) false false (alert_flags w) (alerts_queued w)
           (win_created w) (win_activity w) None None)
  | _ => Some w
  end.

(** ** Creation *)

Definition window_new_with_initial_pane (size : TerminalSize) (id wid now : Z) : option Window :=
  recalculate_geometry
    (mkWindow wid [new_with_id now id 0 (full_geometry size)] 1 0 None MainVertical None
       (Some (single size)) false None size None true false false 0 false now now None None).

Definition respawn (id now : Z) (w : Window) : Window :=
  let size := win_size w in
  mkWindow (win_id w) [new_with_id now id 0 (full_geometry size)] 1 0 None MainVertical None
    (Some (single size)) false None size (win_name w) true false false 0 false
    (win_created w) (win_activity w) None None.

Definition set_size (size : TerminalSize) (w : Window) : option Window :=
  w ← recalculate_geometry (with_win_size size w);
  Some (if zoomed w then apply_zoom_geometry w else w).

(** ** Splitting *)

Definition layout_for_split (d : SplitDirection) : LayoutName :=
  match d with Vertical => MainVertical | Horizontal => MainHorizontal end.

Definition allocate_pane_index (w : Window) : option (Z * Window) :=
  let next := next_pane_index w in
  if next =? u32_max then None else Some (next, with_next_pane_index (next + 1) w).

Definition commit_split_renumber (new_id : Z) (previous_active previous_last : option Z) (detached : bool)
    (now : Z) (w : Window) : option Window :=
  if detached then
    a ← previous_active;
    renumber_panes_by_position a previous_last w
  else
    w ← renumber_panes_by_position new_id previous_active w;
    Some (if decide (pane_id <$> active w = previous_active) then w
          else mark_pane_active (active_pane w) now w).

(** [Vec::insert]; out of range is a panic. *)
Definition vec_insert_checked {A} (i : nat) (x : A) (l : list A) : option (list A) :=
  if (i <=? length l)%nat then Some (take i l ++ x :: drop i l) else None.

Definition split_at_position (pos : nat) (id : Z) (d : SplitDirection) (before detached : bool) (now : Z)
    (w : Window) : option (Z * Window) :=
  if negb (pos <? length (panes w))%nat then None
  else if existsb (fun p => pane_id p =? id) (panes w) then None
  else
    w ← unzoomed w;
    let w := with_layout (layout_for_split d) w in
    let previous_active := pane_id <$> active w in
    let previous_last := i ← last_pane w; pane_id <$> pane i w in
    '(index, w) ← allocate_pane_index w;
    let insert_at := if before then pos else S pos in
    l ← vec_insert_checked insert_at (new_with_id now id index (mkPaneGeometry 0 0 0 0)) (panes w);
    let w := with_panes l w in
    w ←
      match layout_tree w with
      | Some t =>
          let '(ok, t) := split_leaf t pos (from_split_direction d) before in
          let w := with_layout_tree (Some t) w in
          if ok : bool then apply_layout_tree w else rebuild_named_layout_tree (layout w) w
      | None => rebuild_named_layout_tree (layout w) w
      end;
    w ← commit_split_renumber id previous_active previous_last detached now w;
    i ← pane_index_for_id id w;
    Some (i, w).

(** ** Removing *)

Definition next_active_pane_after_removal (pos : nat) (removed_index : Z) (w : Window) : option Z :=
  let from_last :=
    last ← last_pane w;
    if last =? removed_index then None else pane_id <$> pane last w in
  match from_last with
  | Some id => Some id
  | None =>
      if (0 <? pos)%nat then pane_id <$> panes w !! (pos - 1)%nat
      else if (pos + 1 <? length (panes w))%nat then pane_id <$> panes w !! (pos + 1)%nat
      else None
  end.

(** [extract_pane]: [None] is a panic, [Some (None, w)] the [?] returns. *)
Definition extract_pane (i : Z) (w : Window) : option (option PaneState * Window) :=
  match pane_position i w with
  | None => Some (None, w)
  | Some pos =>
      w ← unzoomed w;
      match pane_id <$> active w with
      | None => Some (None, w)
      | Some previous_active =>
          let previous_last := l ← last_pane w; pane_id <$> pane l w in
          next_active ←
            (if (active_pane w =? i) && (1 <? length (panes w))%nat
             then next_active_pane_after_removal pos i w else Some previous_active);
          removed ← panes w !! pos;
          let w := with_panes (delete pos (panes w)) w in
          let next_last :=
            if pane_index removed =? active_pane w then None
            else l ← previous_last; if l =? pane_id removed then None else Some l in
          w ←
            match panes w with
            | [] => Some (with_custom_layout false (with_layout_tree None w))
            | _ =>
                match layout_tree w with
                | Some t =>
                    let '(ok, t) := remove_leaf t pos in
                    let w := with_layout_tree (Some t) w in
                    if ok : bool then apply_layout_tree w else rebuild_named_layout_tree (layout w) w
                | None => rebuild_named_layout_tree (layout w) w
                end
            end;
          w ←
            match length (panes w) with
            | 1%nat => renumber_single_pane_to_zero w
            | 0%nat => Some (with_last_pane None (with_active_pane (pane_index removed) w))
            | _ => renumber_panes_by_position next_active next_last w
            end;
          Some (Some removed, w)
      end
  end.

Definition remove_pane (i : Z) (w : Window) : option (option PaneState * Window) :=
  if (length (panes w) <=? 1)%nat then Some (None, w) else extract_pane i w.

Definition remove_other_panes (i now : Z) (w : Window) : option (option (list Z) * Window) :=
  match pane_id <$> pane i w with
  | None => Some (None, w)
  | Some keep =>
      let removed := map pane_id (filter (fun p => pane_id p <> keep) (panes w)) in
      match removed with
      | [] => '(_, w) ← select_pane i now w; Some (Some removed, w)
      | _ =>
          w ← unzoomed w;
          w ← renumber_single_pane_to_zero (with_panes (filter (fun p => pane_id p = keep) (panes w)) w);
          Some (Some removed, w)
      end
  end.

(** ** Rotating and swapping *)

Definition rotate_right1 {A} (l : list A) : list A :=
  match last l with Some x => x :: List.removelast l | None => [] end.

Definition rotate_left1 {A} (l : list A) : list A :=
  match l with x :: rest => rest ++ [x] | [] => [] end.

Definition rotate_panes_with_zoom (d : RotateWindowDirection) (restore : bool) (now : Z) (w : Window)
  : option Window :=
  if (length (panes w) <=? 1)%nat then Some w
  else
    '(_, w) ← push_zoom restore w;
    previous_active ← pane_id <$> active w;
    pos ← pane_position (active_pane w) w;
    let w :=
      with_panes
        (renumbered (match d with RotateDown => rotate_right1 (panes w) | RotateUp => rotate_left1 (panes w) end)) w in
    w ← apply_layout_tree w;
    let w := with_active_pane (wrap_u32 (Z.of_nat pos)) w in
    let last := i ← pane_index_for_id previous_active w; if i =? active_pane w then None else Some i in
    let w := mark_pane_active (active_pane w) now (with_last_pane last w) in
    Some (pop_zoom w).

(** [slice::swap] of two positions in range. *)
Definition swap_positions {A} (i j : nat) (l : list A) : list A :=
  match l !! i, l !! j with
  | Some x, Some y => <[i := y]> (<[j := x]> l)
  | _, _ => l
  end.

Definition swap_panes (source target : Z) (w : Window) : option (bool * Window) :=
  match pane_position source w, pane_position target w with
  | Some s, Some t =>
      if (s =? t)%nat then Some (true, w)
      else
        w ← unzoomed w;
        active_id ← pane_id <$> active w;
        let last_id := i ← last_pane w; pane_id <$> pane i w in
        w ← apply_layout_tree (with_panes (swap_positions s t (panes w)) w);
        w ← renumber_panes_by_position active_id last_id w;
        Some (true, w)
  | _, _ => Some (false, w)
  end.

(** ** Layouts *)

Definition set_layout_with_main_pane_size (name : LayoutName) (main_width main_height : option Z) (w : Window)
  : option Window :=
  w ← unzoomed w;
  let w := with_last_layout (Some name) (with_layout name w) in
  rebuild_named_layout_tree name (with_main_height main_height (with_main_width main_width w)).

Definition LAYOUT_CYCLE : list LayoutName :=
  [EvenHorizontal; EvenVertical; MainHorizontal; MainVertical; Tiled].

#[global] Instance LayoutName_eq_dec : EqDecision LayoutName.
Proof. solve_decision. Defined.

Definition cycle_position (name : LayoutName) : option nat :=
  let name :=
    match name with
    | MainHorizontalMirrored => MainHorizontal
    | MainVerticalMirrored => MainVertical
    | _ => name
    end in
  position (fun c => bool_decide (c = name)) LAYOUT_CYCLE.

Definition next_cycle_layout (last_layout : option LayoutName) : option LayoutName :=
  match last_layout with
  | None => LAYOUT_CYCLE !! 0%nat
  | Some name => pos ← cycle_position name; LAYOUT_CYCLE !! ((pos + 1) mod length LAYOUT_CYCLE)%nat
  end.

Definition previous_cycle_layout (last_layout : option LayoutName) : option LayoutName :=
  match last_layout with
  | None => last LAYOUT_CYCLE
  | Some name =>
      pos ← cycle_position name;
      LAYOUT_CYCLE !! ((pos + length LAYOUT_CYCLE - 1) mod length LAYOUT_CYCLE)%nat
  end.

Definition next_layout (main_width main_height : option Z) (w : Window) : option (LayoutName * Window) :=
  name ← next_cycle_layout (last_layout w);
  w ← set_layout_with_main_pane_size name main_width main_height w;
  Some (name, w).

Definition previous_layout (main_width main_height : option Z) (w : Window) : option (LayoutName * Window) :=
  name ← previous_cycle_layout (last_layout w);
  w ← set_layout_with_main_pane_size name main_width main_height w;
  Some (name, w).

(** [size] is the length of the pane list, which is what [parse] is given. *)
Definition apply_custom_layout (text : text) (w : Window) : option (result unit RmuxError * Window) :=
  match panes w with
  | [] => Some (Err (Server "invalid layout"), w)
  | _ =>
      match tree_parse text (length (panes w)) with
      | Err e => Some (Err e, w)
      | Ok t =>
          w ← apply_layout_tree (with_custom_layout true (with_layout_tree (Some t) (with_win_size (tree_size t) w)));
          Some (Ok tt, w)
      end
  end.

Definition save_old_layout (w : Window) : Window := with_old_layout (Some (layout_dump w)) w.

Definition reapply_old_layout (w : Window) : option (result bool RmuxError * Window) :=
  let previous := old_layout w in
  let w := with_old_layout (Some (layout_dump w)) w in
  match previous with
  | None => Some (Ok false, w)
  | Some text =>
      '(res, w) ← apply_custom_layout text w;
      Some (match res with Ok _ => Ok true | Err e => Err e end, w)
  end.

(** A tree operation that reports a change, then the panes follow. *)
Definition change_tree (f : LayoutTree -> bool * LayoutTree) (after : Window -> Window) (w : Window)
  : option (bool * Window) :=
  match layout_tree w with
  | None => Some (false, w)
  | Some t =>
      let '(changed, t) := f t in
      let w := with_layout_tree (Some t) w in
      if changed : bool then w ← apply_layout_tree (after w); Some (true, w) else Some (false, w)
  end.

Definition spread_layout (i : Z) (w : Window) : option (bool * Window) :=
  match pane_position i w with
  | None => Some (false, w)
  | Some pos => change_tree (fun t => spread_from_leaf t pos) id w
  end.

(** ** Resizing panes *)

(** The two [Absolute] branches of [resize_main_pane]. *)
Definition resize_main_absolute (d : LayoutDirection) (size : Z) (w : Window) : option Window :=
  w ← unzoomed w;
  if custom_layout w then snd <$> change_tree (fun t => resize_pane_to t 0 d size) id w
  else
    let w := match d with LeftRight => with_main_width (Some size) w | TopBottom => with_main_height (Some size) w end in
    rebuild_named_layout_tree (layout w) w.

(** The size of pane 0, changed: the relative branches. *)
Definition main_axis (d : LayoutDirection) (f : Z -> Z) (w : Window) : Z :=
  match pane 0 w with
  | None => 1
  | Some p =>
      Z.max (f (match d with LeftRight => pane_cols (pane_geometry p) | TopBottom => pane_rows (pane_geometry p) end)) 1
  end.

Definition resize_main_relative (rel : ResizePaneRelativeDirection) (cells : Z) (w : Window) : option Window :=
  match rel with
  | RelUp => resize_main_absolute TopBottom (main_axis TopBottom (fun n => sat_sub n cells) w) w
  | RelDown => resize_main_absolute TopBottom (main_axis TopBottom (fun n => sat_add u16_max n cells) w) w
  | RelLeft => resize_main_absolute LeftRight (main_axis LeftRight (fun n => sat_sub n cells) w) w
  | RelRight => resize_main_absolute LeftRight (main_axis LeftRight (fun n => sat_add u16_max n cells) w) w
  end.

Definition resize_main_pane (adj : ResizePaneAdjustment) (now : Z) (w : Window) : option Window :=
  match adj with
  | AdjustNoOp | TrimBelow => Some w
  | AbsoluteWidth columns => resize_main_absolute LeftRight columns w
  | AbsoluteHeight rows => resize_main_absolute TopBottom rows w
  | AbsoluteSize columns rows =>
      w ← resize_main_absolute LeftRight columns w;
      resize_main_absolute TopBottom rows w
  | Composite columns rows relative cells =>
      w ← match columns with Some columns => resize_main_absolute LeftRight columns w | None => Some w end;
      w ← match rows with Some rows => resize_main_absolute TopBottom rows w | None => Some w end;
      match relative with Some rel => resize_main_relative rel cells w | None => Some w end
  | AdjustZoom => snd <$> toggle_zoom (active_pane w) now w
  | AdjustUp cells => resize_main_relative RelUp cells w
  | AdjustDown cells => resize_main_relative RelDown cells w
  | AdjustLeft cells => resize_main_relative RelLeft cells w
  | AdjustRight cells => resize_main_relative RelRight cells w
  end.

(** [resize_pane_width] and [resize_pane_height]. *)
Definition resize_pane_axis (d : LayoutDirection) (i size : Z) (w : Window) : option (bool * Window) :=
  match pane_position i w with
  | None => Some (false, w)
  | Some pos =>
      if (length (panes w) =? 1)%nat then w ← resize_main_absolute d size w; Some (true, w)
      else
        w ← unzoomed w;
        change_tree (fun t => resize_pane_to t pos d size)
          (match d with LeftRight => with_main_width None | TopBottom => with_main_height None end) w
  end.

Definition window_resize_pane_to (i : Z) (d : SplitDirection) (size : Z) (w : Window) : option (bool * Window) :=
  match pane_position i w with
  | None => Some (false, w)
  | Some pos => w ← unzoomed w; change_tree (fun t => resize_pane_to t pos (from_split_direction d) size) id w
  end.

Definition sync_requested_main_size (w : Window) : Window :=
  if custom_layout w then w
  else
    match layout w with
    | MainVertical | MainVerticalMirrored =>
        with_main_width ((fun p => pane_cols (pane_geometry p)) <$> pane 0 w) w
    | MainHorizontal | MainHorizontalMirrored =>
        with_main_height ((fun p => pane_rows (pane_geometry p)) <$> pane 0 w) w
    | _ => w
    end.

Definition window_resize_pane_by (i : Z) (adj : ResizePaneAdjustment) (w : Window) : option (bool * Window) :=
  match pane_position i w with
  | None => Some (false, w)
  | Some pos =>
      let change :=
        match adj with
        | AdjustUp cells => Some (TopBottom, - cells)
        | AdjustDown cells => Some (TopBottom, cells)
        | AdjustLeft cells => Some (LeftRight, - cells)
        | AdjustRight cells => Some (LeftRight, cells)
        | _ => None
        end in
      match change with
      | None => Some (false, w)
      | Some (d, change) =>
          w ← unzoomed w;
          change_tree (fun t => resize_pane_by t pos d change) sync_requested_main_size w
      end
  end.
