(* ===== verification/WindowInv.v ===== *)
(** * The window invariant

    What every operation of [Window.v] keeps: panes have distinct ids and are
    numbered by position, the active and the last pane exist, and the panes'
    rectangles are the ones the layout tree gives them, except that a zoomed
    window shows its active pane at the window's size.  A parameter [stale] allows
    for the zoomed windows that some layout operations leave tiled.  None of the
    operations panics. *)

From S2P Require Import Prelude Panes Text Errors LayoutCell LayoutTree LayoutNamed LayoutText.
From S2P Require Import LayoutShape Window.

(** ** The rectangles a tree gives *)

Definition placement (t : LayoutTree) (n : nat) : option (list PaneGeometry) :=
  mapM (fun i => leaf ← pane_leaf t i; g ← rects t !! leaf; Some (geometry_to_pane g)) (seq 0 n).

Lemma apply_to_panes_eq t l :
  apply_to_panes t l = (gs ← placement t (length l); Some (zip_with set_geometry gs l)).
Proof.
  unfold apply_to_panes, placement. generalize 0%nat as k. induction l as [|p l IH]; intros k; [done|].
  cbn [length seq zip zip_with mapM]. rewrite IH. unfold apply_to_pane.
  destruct (pane_leaf t k) as [leaf|]; [|done]. cbn. destruct (rects t !! leaf) as [g|]; [|done]. cbn.
  by destruct (mapM _ _) as [gs|].
Qed.

Lemma placement_length t n gs : placement t n = Some gs -> length gs = n.
Proof. intros H. apply mapM_Some, Forall2_length in H. by rewrite length_seq in H. Qed.

Lemma placement_total n t : tree_fits n t -> is_Some (placement t n).
Proof.
  intros Hf. set (l := replicate n (mkPane 0 0 (mkPaneGeometry 0 0 0 0) 0 0 0)).
  assert (length l = n) as Hl by apply length_replicate.
  destruct (apply_to_panes_total n t l Hf Hl) as [l' E]. rewrite apply_to_panes_eq, Hl in E.
  destruct (placement t n); [done|done].
Qed.

(** The three views of the panes the invariant speaks about. *)
Definition ids (w : Window) : list Z := map pane_id (panes w).
Definition indexes_of (w : Window) : list Z := map pane_index (panes w).
Definition geometries (w : Window) : list PaneGeometry := map pane_geometry (panes w).
Definition count (w : Window) : nat := length (panes w).

Lemma zip_set_geometry gs l :
  length gs = length l ->
  map pane_id (zip_with set_geometry gs l) = map pane_id l /\
  map pane_index (zip_with set_geometry gs l) = map pane_index l /\
  map pane_geometry (zip_with set_geometry gs l) = gs /\ length (zip_with set_geometry gs l) = length l.
Proof.
  revert gs. induction l as [|p l IH]; intros [|g gs]; cbn; try done. intros [=E].
  destruct (IH gs E) as (-> & -> & -> & ->). done.
Qed.

(** ** The invariant *)

Record order_ok (w : Window) : Prop := {
  ok_count : (1 <= count w)%nat /\ Z.of_nat (count w) <= u16_max;
  ok_ids : NoDup (ids w);
  ok_indexes : indexes_of w = map Z.of_nat (seq 0 (count w));
  ok_next : next_pane_index w = Z.of_nat (count w);
  ok_active : 0 <= active_pane w < Z.of_nat (count w);
  ok_last : forall l, last_pane w = Some l -> 0 <= l < Z.of_nat (count w) /\ l <> active_pane w;
}.

(** The rectangles of the panes: where the tree puts them, but a zoomed window
    shows its active pane at the window's size.  Three layout operations do not
    unzoom; they leave a window that is marked as zoomed and shows every pane
    where the tree puts it.  [stale] says whether that may have happened. *)
Definition shown (stale : bool) (w : Window) (gs : list PaneGeometry) : Prop :=
  geometries w = (if zoomed w then <[Z.to_nat (active_pane w) := full_geometry (win_size w)]> gs else gs) \/
  (stale = true /\ zoomed w = true /\ geometries w = gs).

Record layout_ok_at (stale : bool) (w : Window) : Prop := {
  ok_tree : exists t gs,
    layout_tree w = Some t /\ tree_fits (count w) t /\ win_size w = tree_size t /\
    placement t (count w) = Some gs /\ shown stale w gs;
  ok_zoom : zoomed w = true -> (2 <= count w)%nat;
}.

Record window_ok_at (stale : bool) (w : Window) : Prop := {
  win_order : order_ok w;
  win_layout : layout_ok_at stale w;
  win_pending : zoom_restore_pending w = false;
}.

Arguments ok_tree {_} _ _.
Arguments ok_zoom {_} _ _ _.
Arguments win_order {_} _ _.
Arguments win_layout {_} _ _.
Arguments win_pending {_} _ _.

(** The invariant without stale zooms. *)
Notation layout_ok := (layout_ok_at false).
Notation window_ok := (window_ok_at false).

Lemma shown_exact w gs :
  shown false w gs -> geometries w = if zoomed w then <[Z.to_nat (active_pane w) := full_geometry (win_size w)]> gs else gs.
Proof. by intros [|[]]. Qed.

Lemma layout_ok_weaken w : layout_ok w -> layout_ok_at true w.
Proof. intros [(t & gs & T1 & T2 & T3 & T4 & T5%shown_exact) Hz]. split; [|done]. exists t, gs. split_and!; try done. by left. Qed.

(** A consistent window is consistent in the weaker sense too. *)
Lemma window_ok_weaken w : window_ok w -> window_ok_at true w.
Proof. intros [Ho Hl Hp]. split; [done|by apply layout_ok_weaken|done]. Qed.

(** The fields that say which panes there are and which are selected. *)
Record same_order (w w' : Window) : Prop := {
  same_ids : ids w' = ids w;
  same_indexes : indexes_of w' = indexes_of w;
  same_next : next_pane_index w' = next_pane_index w;
  same_active : active_pane w' = active_pane w;
  same_last : last_pane w' = last_pane w;
}.

Lemma same_order_refl w : same_order w w.
Proof. done. Qed.

Lemma same_order_trans w1 w2 w3 : same_order w1 w2 -> same_order w2 w3 -> same_order w1 w3.
Proof. intros [] []. split; congruence. Qed.

Lemma same_order_count w w' : same_order w w' -> count w' = count w.
Proof. intros [E _ _ _ _]. apply (f_equal length) in E. unfold ids in E. by rewrite !length_map in E. Qed.

Lemma same_order_ok w w' : same_order w w' -> order_ok w -> order_ok w'.
Proof.
  intros Hs [H1 H2 H3 H4 H5 H6]. pose proof (same_order_count _ _ Hs) as Hc. destruct Hs as [S1 S2 S3 S4 S5].
  split; rewrite ?Hc, ?S1, ?S2, ?S3, ?S4, ?S5; done.
Qed.

(** ** Finding panes *)

Lemma position_seq (i : Z) (k n : nat) :
  Z.of_nat k <= i ->
  position (fun x => x =? i) (map Z.of_nat (seq k n)) =
  if i <? Z.of_nat (k + n) then Some (Z.to_nat i - k)%nat else None.
Proof.
  revert k. induction n as [|n IH]; intros k Hk; cbn [seq map position].
  - destruct (Z.ltb_spec i (Z.of_nat (k + 0))); [lia|done].
  - destruct (Z.eqb_spec (Z.of_nat k) i) as [<-|Hne].
    + rewrite Nat2Z.id, Nat.sub_diag. destruct (Z.ltb_spec (Z.of_nat k) (Z.of_nat (k + S n))); [done|lia].
    + rewrite IH by lia. replace (S k + n)%nat with (k + S n)%nat by lia.
      destruct (Z.ltb_spec i (Z.of_nat (k + S n))); [|done]. cbn. f_equal. lia.
Qed.

Lemma position_map {A B} (f : B -> bool) (g : A -> B) l : position (fun x => f (g x)) l = position f (map g l).
Proof. induction l as [|x l IH]; cbn; [done|]. by rewrite IH. Qed.

Lemma find_position {A} (f : A -> bool) l : List.find f l = (k ← position f l; l !! k).
Proof. induction l as [|x l IH]; cbn; [done|]. destruct (f x); [done|]. rewrite IH. by destruct (position f l). Qed.

Lemma position_negative (i : Z) (k n : nat) : i < Z.of_nat k -> position (fun x => x =? i) (map Z.of_nat (seq k n)) = None.
Proof.
  revert k. induction n as [|n IH]; intros k Hk; [done|]. cbn. destruct (Z.eqb_spec (Z.of_nat k) i); [lia|].
  by rewrite IH by lia.
Qed.

Lemma pane_position_ok i w :
  order_ok w ->
  pane_position i w = if (0 <=? i) && (i <? Z.of_nat (count w)) then Some (Z.to_nat i) else None.
Proof.
  intros Hok. unfold pane_position. rewrite (position_map (fun x => x =? i) pane_index).
  change (map pane_index (panes w)) with (indexes_of w). rewrite (ok_indexes w Hok).
  destruct (Z.leb_spec 0 i) as [H0|H0]; cbn [andb]; [|by apply position_negative].
  rewrite position_seq by lia. cbn [Nat.add]. by rewrite Nat.sub_0_r.
Qed.

Lemma pane_ok i w :
  order_ok w -> pane i w = if (0 <=? i) && (i <? Z.of_nat (count w)) then panes w !! Z.to_nat i else None.
Proof.
  intros Hok. unfold pane. rewrite find_position. change (position _ (panes w)) with (pane_position i w).
  rewrite pane_position_ok by done. by destruct (_ && _).
Qed.

Lemma pane_id_at i w : order_ok w -> 0 <= i < Z.of_nat (count w) -> exists p, pane i w = Some p /\ ids w !! Z.to_nat i = Some (pane_id p).
Proof.
  intros Hok Hi. rewrite pane_ok by done. rewrite (proj2 (Z.leb_le 0 i)), (proj2 (Z.ltb_lt _ _)) by lia. cbn [andb].
  destruct (lookup_lt_is_Some_2 (panes w) (Z.to_nat i)) as [p Hp]; [unfold count in Hi; lia|].
  exists p. split; [done|]. unfold ids. by rewrite list_lookup_fmap, Hp.
Qed.

Lemma active_id_ok w : order_ok w -> exists p, active w = Some p /\ ids w !! Z.to_nat (active_pane w) = Some (pane_id p).
Proof. intros Hok. apply pane_id_at; [done|apply Hok]. Qed.

(** ** Placing the panes *)

(** The panes are where the tree says, zoom aside. *)
Definition placed (w : Window) : Prop :=
  exists t gs, layout_tree w = Some t /\ tree_fits (count w) t /\ win_size w = tree_size t /\
    placement t (count w) = Some gs /\ geometries w = gs.

(** The zoom flags. *)
Definition same_zoom (w w' : Window) : Prop :=
  zoomed w' = zoomed w /\ zoom_restore_pending w' = zoom_restore_pending w.

(** A step that places the panes and keeps order and zoom flags. *)
Definition places (w : Window) (r : option Window) : Prop :=
  exists w', r = Some w' /\ same_order w w' /\ same_zoom w w' /\ placed w'.

Section Kept.
Context {stale : bool}.
Local Notation layout_ok := (layout_ok_at stale).
Local Notation window_ok := (window_ok_at stale).

Lemma placed_layout_ok w : placed w -> zoomed w = false -> layout_ok w.
Proof. intros (t & gs & H1 & H2 & H3 & H4 & H5) Hz. split; [|congruence]. exists t, gs. split_and!; try done. left. by rewrite Hz. Qed.

(** Placing every pane of a window that stays marked as zoomed. *)
Lemma placed_shown w : placed w -> (zoomed w = true -> stale = true /\ (2 <= count w)%nat) -> layout_ok w.
Proof.
  intros (t & gs & H1 & H2 & H3 & H4 & H5) Hz. split; [|by intros []%Hz]. exists t, gs. split_and!; try done.
  unfold shown. destruct (zoomed w); [right; destruct (Hz eq_refl)|left]; done.
Qed.

Lemma layout_ok_placed w : layout_ok w -> zoomed w = false -> placed w.
Proof.
  intros [(t & gs & H1 & H2 & H3 & H4 & H5) _] Hz. exists t, gs. split_and!; try done.
  destruct H5 as [H5|(_ & H5 & _)]; [by rewrite Hz in H5|congruence].
Qed.

Lemma apply_layout_tree_ok w t :
  layout_tree w = Some t -> tree_fits (count w) t -> win_size w = tree_size t -> places w (apply_layout_tree w).
Proof.
  intros Ht Hf Hs. unfold apply_layout_tree. rewrite Ht, apply_to_panes_eq.
  destruct (placement_total _ _ Hf) as [gs Hgs]. change (length (panes w)) with (count w). rewrite Hgs. cbn.
  destruct (zip_set_geometry gs (panes w)) as (Z1 & Z2 & Z3 & Z4); [exact (placement_length _ _ _ Hgs)|].
  eexists. split; [done|]. split_and!; [split; done|done|]. exists t, gs.
  unfold count, geometries in *. cbn. rewrite Z3, Z4. done.
Qed.

Lemma places_from w0 w r : same_order w0 w -> same_zoom w0 w -> places w r -> places w0 r.
Proof.
  intros Ho [Z1 Z2] (w' & E & Ho' & [Z1' Z2'] & Hp). exists w'. split_and!; [done| |split; congruence|done].
  by eapply same_order_trans.
Qed.

Lemma rebuild_ok name w :
  (1 <= count w)%nat -> Z.of_nat (count w) <= u16_max -> places w (rebuild_named_layout_tree name w).
Proof.
  intros H1 Hn. unfold rebuild_named_layout_tree. destruct (panes w) as [|p l] eqn:E.
  { unfold count in H1. rewrite E in H1. cbn in H1. lia. }
  rewrite <- E. set (t := named _ _ _ _). eapply places_from; [| |eapply apply_layout_tree_ok]; try done.
  apply named_fits; done.
Qed.

Lemma recalculate_ok w t :
  layout_tree w = Some t -> tree_fits (count w) t -> places w (recalculate_geometry w).
Proof.
  intros Ht Hf. unfold recalculate_geometry. rewrite Ht. eapply places_from; [| |eapply apply_layout_tree_ok]; try done.
  eapply same_shape_fits; [apply resize_shape|done].
Qed.

(** ** Unzooming *)

Lemma unzoomed_ok w :
  layout_ok w ->
  exists w', unzoomed w = Some w' /\ same_order w w' /\ zoomed w' = false /\
    zoom_restore_pending w' = zoom_restore_pending w /\ placed w'.
Proof.
  intros Hl. unfold unzoomed, auto_unzoom. destruct (zoomed w) eqn:Hz.
  - destruct Hl as [(t & gs & H1 & H2 & _) _].
    destruct (recalculate_ok (with_zoomed false w) t H1 H2) as (w' & E & Ho & [Z1 Z2] & Hp).
    rewrite E. cbn. exists w'. split_and!; try done. by destruct Ho.
  - cbn. exists w. split_and!; try done. by eapply layout_ok_placed.
Qed.

(** ** Changing one pane *)

(** A change that keeps a pane's id and index. *)
Definition keeps_name (f : PaneState -> PaneState) : Prop :=
  forall p, pane_id (f p) = pane_id p /\ pane_index (f p) = pane_index p.

Lemma alter_map {A B} (g : A -> B) (f : A -> A) k (l : list A) :
  (forall x, g (f x) = g x) -> map g (alter f k l) = map g l.
Proof.
  intros H. apply list_eq. intros i. rewrite !list_lookup_fmap. destruct (decide (i = k)) as [->|Hne].
  - rewrite list_lookup_alter_eq. destruct (l !! k); cbn; [by rewrite H|done].
  - by rewrite list_lookup_alter_ne.
Qed.

Lemma update_pane_order i f w : keeps_name f -> same_order w (update_pane i f w).
Proof.
  intros Hf. unfold update_pane. destruct (pane_position i w) as [k|]; [|done].
  split; try done; unfold ids, indexes_of; cbn; apply alter_map; intros p; apply Hf.
Qed.

Lemma update_pane_geometries i f w :
  (forall p, pane_geometry (f p) = pane_geometry p) -> geometries (update_pane i f w) = geometries w.
Proof.
  intros Hf. unfold update_pane. destruct (pane_position i w); [|done]. unfold geometries. cbn. by apply alter_map.
Qed.

Lemma update_pane_rest i f w :
  layout_tree (update_pane i f w) = layout_tree w /\ win_size (update_pane i f w) = win_size w /\
  zoomed (update_pane i f w) = zoomed w /\ zoom_restore_pending (update_pane i f w) = zoom_restore_pending w /\
  active_pane (update_pane i f w) = active_pane w.
Proof. unfold update_pane. by destruct (pane_position i w). Qed.

(** Layout facts survive when tree, size, zoom, active pane and rectangles do. *)
Lemma layout_ok_same w w' :
  layout_tree w' = layout_tree w -> win_size w' = win_size w -> zoomed w' = zoomed w ->
  active_pane w' = active_pane w -> geometries w' = geometries w -> layout_ok w -> layout_ok w'.
Proof.
  intros H1 H2 H3 H4 H5 [(t & gs & T1 & T2 & T3 & T4 & T5) Hz].
  assert (count w' = count w) as Hc.
  { apply (f_equal length) in H5. unfold geometries in H5. by rewrite !length_map in H5. }
  split; [|rewrite H3, Hc; done]. exists t, gs. unfold shown. rewrite H1, H2, H3, H4, H5, Hc. done.
Qed.

Lemma placed_same w w' :
  layout_tree w' = layout_tree w -> win_size w' = win_size w -> geometries w' = geometries w -> placed w -> placed w'.
Proof.
  intros H1 H2 H5 (t & gs & T1 & T2 & T3 & T4 & T5).
  assert (count w' = count w) as Hc.
  { apply (f_equal length) in H5. unfold geometries in H5. by rewrite !length_map in H5. }
  exists t, gs. rewrite H1, H2, H5, Hc. done.
Qed.

Lemma update_activity_ok i now w : window_ok w -> window_ok (update_pane i (touch_activity now) w).
Proof.
  intros [Ho Hl Hp]. destruct (update_pane_rest i (touch_activity now) w) as (R1 & R2 & R3 & R4 & R5). split.
  - eapply same_order_ok; [by apply update_pane_order|done].
  - eapply layout_ok_same; try done. by apply update_pane_geometries.
  - by rewrite R4.
Qed.

Lemma mark_pane_active_ok i now w :
  order_ok w -> placed w ->
  let w' := mark_pane_active i now w in
  same_order w w' /\ placed w' /\ zoomed w' = zoomed w /\ zoom_restore_pending w' = zoom_restore_pending w.
Proof.
  intros Ho Hp w'. unfold w', mark_pane_active. set (f := fun p => touch_activity _ _).
  destruct (update_pane_rest i f w) as (R1 & R2 & R3 & R4 & R5). split_and!; [by apply update_pane_order| |done|done].
  eapply placed_same; try done. by apply update_pane_geometries.
Qed.

Lemma placed_window_ok w : order_ok w -> placed w -> zoomed w = false -> zoom_restore_pending w = false -> window_ok w.
Proof. intros Ho Hp Hz Hr. split; [done|by apply placed_layout_ok|done]. Qed.

(** Showing the active pane at full size. *)
Lemma zoom_in_ok w :
  order_ok w -> placed w -> (2 <= count w)%nat -> zoom_restore_pending w = false ->
  window_ok (apply_zoom_geometry (with_zoomed true w)).
Proof.
  intros Ho (t & gs & T1 & T2 & T3 & T4 & T5) H2 Hp. unfold apply_zoom_geometry. set (w1 := with_zoomed true w).
  assert (order_ok w1) as Ho1 by (apply (same_order_ok w); [by split|done]). set (f := set_geometry _).
  destruct (update_pane_rest (active_pane w1) f w1) as (R1 & R2 & R3 & R4 & R5).
  assert (same_order w1 (update_pane (active_pane w1) f w1)) as Hs by (by apply update_pane_order).
  pose proof (same_order_count _ _ Hs) as Hc.
  split; [by eapply same_order_ok| |by rewrite R4]. split; [|intros _; by rewrite Hc].
  exists t, gs. unfold shown. rewrite R1, R2, R3, R5, Hc. split_and!; try done. left. cbn [zoomed w1 with_zoomed].
  unfold update_pane. rewrite pane_position_ok by done. destruct (ok_active w1 Ho1) as [A1 A2].
  rewrite (proj2 (Z.leb_le _ _)), (proj2 (Z.ltb_lt _ _)) by lia. cbn [andb].
  unfold geometries. cbn [panes with_panes]. rewrite <- T5. unfold geometries. cbn [panes with_zoomed w1].
  apply list_eq. intros k. rewrite list_lookup_fmap. destruct (decide (k = Z.to_nat (active_pane w1))) as [->|Hne].
  - rewrite list_lookup_alter_eq. change (active_pane w1) with (active_pane w) in *.
    assert (Z.to_nat (active_pane w) < length (panes w))%nat as Hlt by (unfold count in *; cbn in *; lia).
    destruct (lookup_lt_is_Some_2 (panes w) _ Hlt) as [p Hpk]. rewrite Hpk. cbn.
    rewrite list_lookup_insert_eq; [done|by rewrite length_map].
  - rewrite list_lookup_alter_ne, list_lookup_insert_ne by done. by rewrite list_lookup_fmap.
Qed.

(** ** Selecting and zooming *)

Definition in_window (i : Z) (w : Window) : bool := (0 <=? i) && (i <? Z.of_nat (count w)).

Lemma pane_is_Some i w : order_ok w -> if in_window i w then exists p, pane i w = Some p else pane i w = None.
Proof.
  intros Ho. unfold in_window. destruct ((0 <=? i) && (i <? Z.of_nat (count w))) eqn:E.
  - apply andb_true_iff in E as [E1 E2]. destruct (pane_id_at i w Ho) as (p & Hp & _); [lia|]. eauto.
  - by rewrite pane_ok, E.
Qed.

Lemma select_pane_ok i now w :
  window_ok w ->
  exists w', select_pane i now w = Some (in_window i w, w') /\ window_ok w' /\ ids w' = ids w /\
    (zoomed w = false -> zoomed w' = false) /\ (in_window i w = true -> active_pane w' = i).
Proof.
  intros Hok. pose proof Hok as [Ho Hl Hp]. unfold select_pane. pose proof (pane_is_Some i w Ho) as Hi.
  destruct (in_window i w) eqn:E; [destruct Hi as [p ->]|rewrite Hi; by exists w].
  destruct (Z.eqb_spec (active_pane w) i) as [<-|Hne].
  { eexists. split; [done|]. destruct (update_pane_rest (active_pane w) (touch_activity now) w) as (_ & _ & R & _ & A).
    split_and!; [by apply update_activity_ok|by apply update_pane_order|by rewrite R|done]. }
  destruct (unzoomed_ok w Hl) as (w1 & -> & Hs & Hz & Hr & Hpl). cbn. set (w2 := with_active_pane _ _).
  pose proof (same_order_ok _ _ Hs Ho) as Ho1. pose proof (same_order_count _ _ Hs) as Hc.
  unfold in_window in E. apply andb_true_iff in E as [E1 E2].
  assert (order_ok w2) as Ho2.
  { destruct Ho1 as [O1 O2 O3 O4 O5 O6]. split; try done; cbn.
    - unfold count in *. cbn. lia.
    - intros l [=<-]. rewrite (same_active _ _ Hs) in *. done. }
  destruct (mark_pane_active_ok i now w2 Ho2) as (M1 & M2 & M3 & M4); [by apply (placed_same w1)|].
  eexists. split; [done|]. split_and!.
  - apply placed_window_ok; [by eapply same_order_ok|done|by rewrite M3|]. rewrite M4. cbn. congruence.
  - rewrite (same_ids _ _ M1). exact (same_ids _ _ Hs).
  - intros _. by rewrite M3.
  - intros _. by rewrite (same_active _ _ M1).
Qed.

Lemma toggle_zoom_ok i now w :
  window_ok w ->
  exists b w', toggle_zoom i now w = Some (b, w') /\ window_ok w' /\ ids w' = ids w /\ b = zoomed w'.
Proof.
  intros Hok. pose proof Hok as [Ho Hl Hp]. unfold toggle_zoom. pose proof (pane_is_Some i w Ho) as Hi.
  destruct (in_window i w) eqn:E; [destruct Hi as [p ->]|rewrite Hi; by exists (zoomed w), w].
  destruct (zoomed w) eqn:Hz.
  - destruct (unzoomed_ok w Hl) as (w1 & -> & Hs & Hz1 & Hr & Hpl). cbn. exists false, w1. split_and!; try done.
    + apply placed_window_ok; [by eapply same_order_ok|done|done|congruence].
    + apply Hs.
  - destruct (Nat.leb_spec (length (panes w)) 1) as [|Hn].
    { exists false, w. by split_and!. }
    destruct (select_pane_ok i now w Hok) as (w1 & E1 & Hok1 & Hids & Hz1 & _). rewrite E1. cbn.
    eexists _, _. split; [done|]. assert (count w1 = count w) as Hc.
    { apply (f_equal length) in Hids. unfold ids in Hids. by rewrite !length_map in Hids. }
    pose proof Hok1 as [Ho1 Hl1 Hp1]. specialize (Hz1 Hz).
    assert (window_ok (apply_zoom_geometry (with_zoomed true w1))) as Hzw.
    { apply zoom_in_ok; [done|by eapply layout_ok_placed|rewrite Hc; unfold count; lia|done]. }
    split_and!; [done| |].
    + unfold apply_zoom_geometry. etransitivity; [apply update_pane_order; done|]. exact Hids.
    + unfold apply_zoom_geometry. symmetry. apply update_pane_rest.
Qed.

Lemma select_pane_by_id_ok id now w :
  window_ok w ->
  exists b w', select_pane_by_id id now w = Some (b, w') /\ window_ok w' /\ ids w' = ids w.
Proof.
  intros Hok. unfold select_pane_by_id. destruct (pane_index_for_id id w) as [i|]; [|by exists false, w].
  destruct (select_pane_ok i now w Hok) as (w' & E & ? & ? & _). eauto.
Qed.

(** ** Sizes and layouts *)

Lemma set_size_ok size w :
  window_ok w -> exists w', set_size size w = Some w' /\ window_ok w' /\ same_order w w' /\ zoomed w' = zoomed w.
Proof.
  intros [Ho Hl Hp]. pose proof Hl as [(t & gs & T1 & T2 & T3 & T4 & T5) H2]. unfold set_size.
  destruct (recalculate_ok (with_win_size size w) t T1 T2) as (w1 & E & Hs & [Z1 Z2] & Hpl). rewrite E. cbn.
  assert (same_order w w1) as Hs' by (by destruct Hs). pose proof (same_order_ok _ _ Hs' Ho) as Ho1.
  cbn in Z1, Z2. eexists. split; [done|]. destruct (zoomed w1) eqn:Hz.
  - assert (apply_zoom_geometry w1 = apply_zoom_geometry (with_zoomed true w1)) as ->.
    { by destruct w1; cbn in Hz; subst. }
    split_and!.
    + apply zoom_in_ok; [done|done| |congruence]. rewrite (same_order_count _ _ Hs'). apply H2. congruence.
    + eapply same_order_trans; [exact Hs'|]. eapply same_order_trans; [|by apply update_pane_order]. by split.
    + unfold apply_zoom_geometry. destruct (update_pane_rest (active_pane (with_zoomed true w1))
        (set_geometry (full_geometry (win_size (with_zoomed true w1)))) (with_zoomed true w1)) as (_ & _ & R & _).
      rewrite R. cbn. congruence.
  - split_and!; [apply placed_window_ok; [done|done|done|congruence]|done|congruence].
Qed.

(** An operation that unzooms and then places the panes again. *)
Lemma unzoom_then_places w f :
  window_ok w -> (forall w1, order_ok w1 -> placed w1 -> zoomed w1 = false -> places w1 (f w1)) ->
  exists w', (w1 ← unzoomed w; f w1) = Some w' /\ window_ok w' /\ same_order w w'.
Proof.
  intros [Ho Hl Hp] Hf. destruct (unzoomed_ok w Hl) as (w1 & -> & Hs & Hz & Hr & Hpl). cbn.
  pose proof (same_order_ok _ _ Hs Ho) as Ho1. destruct (Hf w1 Ho1 Hpl Hz) as (w2 & -> & Hs2 & [Z1 Z2] & Hpl2).
  exists w2. split_and!; [done| |by eapply same_order_trans].
  apply placed_window_ok; [by eapply same_order_ok|done|congruence|congruence].
Qed.

Lemma set_layout_ok name mw mh w :
  window_ok w ->
  exists w', set_layout_with_main_pane_size name mw mh w = Some w' /\ window_ok w' /\ same_order w w'.
Proof.
  intros Hok. apply (unzoom_then_places w (fun w => rebuild_named_layout_tree name
    (with_main_height mh (with_main_width mw (with_last_layout (Some name) (with_layout name w)))))); [done|].
  intros w1 Ho _ _. eapply places_from; [| |apply rebuild_ok; apply (ok_count w1 Ho)]; by split.
Qed.

(** ** Changing the tree *)

(** A field update that touches neither panes nor tree, size or zoom. *)
Record harmless (after : Window -> Window) : Prop := {
  harmless_panes : forall w, panes (after w) = panes w;
  harmless_tree : forall w, layout_tree (after w) = layout_tree w;
  harmless_size : forall w, win_size (after w) = win_size w;
  harmless_order : forall w, same_order w (after w);
  harmless_zoom : forall w, same_zoom w (after w);
}.

Lemma harmless_id : harmless id.
Proof. by split. Qed.

Lemma harmless_main d :
  harmless (match d with LeftRight => with_main_width None | TopBottom => with_main_height None end).
Proof. by destruct d. Qed.

Lemma harmless_sync : harmless sync_requested_main_size.
Proof. split; intros w; unfold sync_requested_main_size; destruct (custom_layout w), (layout w); by split || done. Qed.

Lemma change_tree_tree f after w t :
  tame f -> harmless after -> layout_tree w = Some t -> tree_fits (count w) t -> win_size w = tree_size t ->
  exists b w', change_tree f after w = Some (b, w') /\ same_order w w' /\ same_zoom w w' /\
    (placed w' \/ w' = with_layout_tree (Some t) w).
Proof.
  intros [F1 F2 F3] [A1 A2 A3 A4 A5] T1 T2 T3. unfold change_tree. rewrite T1.
  specialize (F1 t). specialize (F2 t). specialize (F3 t). destruct (f t) as [b t']. cbn [snd] in *. destruct b.
  - set (w1 := with_layout_tree (Some t') w).
    assert (count (after w1) = count w) as Hc by (unfold count; by rewrite A1).
    destruct (apply_layout_tree_ok (after w1) t') as (w' & E & Hs & Hzm & Hp).
    + by rewrite A2.
    + rewrite Hc. by eapply same_shape_fits.
    + rewrite A3. cbn. congruence.
    + rewrite E. cbn. exists true, w'. specialize (A4 w1). specialize (A5 w1) as [Z1 Z2]. destruct Hzm as [Z3 Z4].
      split_and!; [done| |split; [rewrite Z3, Z1|rewrite Z4, Z2]; done|by left].
      eapply same_order_trans; [|exact Hs]. eapply same_order_trans; [|exact A4]. by split.
  - specialize (F3 t' eq_refl) as ->. exists false, (with_layout_tree (Some t) w). split_and!; [done|by split|by split|by right].
Qed.

Lemma change_tree_ok f after w :
  tame f -> harmless after -> order_ok w -> placed w -> zoomed w = false ->
  exists b w', change_tree f after w = Some (b, w') /\ same_order w w' /\ same_zoom w w' /\ placed w'.
Proof.
  intros Hf Ha Ho (t & gs & T1 & T2 & T3 & T4 & T5) Hz.
  destruct (change_tree_tree f after w t Hf Ha T1 T2 T3) as (b & w' & E & Hs & Hzm & Hp). exists b, w'. split_and!; try done.
  destruct Hp as [Hp| ->]; [done|]. by exists t, gs.
Qed.

(** Changing the tree of a window that may be zoomed, when stale zooms are
    accounted for. *)
Lemma change_tree_shown f after w :
  tame f -> harmless after -> window_ok w -> (stale = false -> zoomed w = false) ->
  exists b w', change_tree f after w = Some (b, w') /\ window_ok w' /\ same_order w w' /\ zoomed w' = zoomed w.
Proof.
  intros Hf Ha [Ho Hl Hp] Hz. pose proof Hl as [(t & gs & T1 & T2 & T3 & _) H2].
  destruct (change_tree_tree f after w t Hf Ha T1 T2 T3) as (b & w' & E & Hs & [Z1 Z2] & Hpl). exists b, w'.
  split_and!; [done| |done|done]. split; [by eapply same_order_ok| |congruence]. destruct Hpl as [Hpl| ->].
  - apply placed_shown; [done|]. rewrite Z1, (same_order_count _ _ Hs). intros Hzm. split; [|by apply H2].
    destruct stale; [done|]. rewrite Hz in Hzm; done.
  - by apply (layout_ok_same w).
Qed.

(** The common end of the operations that unzoom and change the tree. *)
Lemma unzoom_change_ok f after w :
  tame f -> harmless after -> window_ok w ->
  exists b w', (w1 ← unzoomed w; change_tree f after w1) = Some (b, w') /\ window_ok w' /\ same_order w w'.
Proof.
  intros Hf Ha [Ho Hl Hp]. destruct (unzoomed_ok w Hl) as (w1 & -> & Hs & Hz & Hr & Hpl). cbn.
  pose proof (same_order_ok _ _ Hs Ho) as Ho1.
  destruct (change_tree_ok f after w1 Hf Ha Ho1 Hpl Hz) as (b & w2 & E & Hs2 & [Z1 Z2] & Hpl2). exists b, w2.
  split_and!; [done| |by eapply same_order_trans].
  apply placed_window_ok; [by eapply same_order_ok|done|congruence|congruence].
Qed.

Lemma resize_main_absolute_ok d size w :
  window_ok w -> exists w', resize_main_absolute d size w = Some w' /\ window_ok w' /\ same_order w w'.
Proof.
  intros Hok. unfold resize_main_absolute. apply (unzoom_then_places w (fun w => if custom_layout w then _ else _)); [done|].
  intros w1 Ho Hp Hz. destruct (custom_layout w1).
  - destruct (change_tree_ok (fun t => resize_pane_to t 0 d size) id w1 (tame_resize_pane_to _ _ _) harmless_id Ho Hp Hz)
      as (b & w2 & E & Hs & Hzm & Hpl). exists w2. by rewrite E.
  - eapply places_from; [| |apply rebuild_ok; destruct d; apply (ok_count w1 Ho)]; by destruct d; split.
Qed.

Lemma resize_main_pane_ok adj now w :
  window_ok w -> exists w', resize_main_pane adj now w = Some w' /\ window_ok w' /\ ids w' = ids w.
Proof.
  assert (forall d size w, window_ok w -> exists w', resize_main_absolute d size w = Some w' /\ window_ok w' /\ ids w' = ids w) as Habs.
  { intros d size u Hu. destruct (resize_main_absolute_ok d size u Hu) as (w' & E & H & Hs). exists w'. split_and!; [done|done|apply Hs]. }
  assert (forall rel cells w, window_ok w -> exists w', resize_main_relative rel cells w = Some w' /\ window_ok w' /\ ids w' = ids w) as Hrel.
  { intros rel cells u Hu. destruct rel; by apply Habs. }
  intros Hok. destruct adj; cbn [resize_main_pane]; try (by apply Habs); try (by apply Hrel); try (by exists w).
  - destruct (toggle_zoom_ok (active_pane w) now w Hok) as (b & w' & E & H & Hi & _). rewrite E. cbn. eauto.
  - destruct (Habs LeftRight columns w Hok) as (w1 & -> & H1 & I1). cbn.
    destruct (Habs TopBottom rows w1 H1) as (w2 & -> & H2 & I2). exists w2. split_and!; congruence || done.
  - assert (exists w1, match columns with Some c => resize_main_absolute LeftRight c w | None => Some w end = Some w1 /\
      window_ok w1 /\ ids w1 = ids w) as (w1 & -> & H1 & I1) by (destruct columns; [by apply Habs|by exists w]). cbn.
    assert (exists w2, match rows with Some r => resize_main_absolute TopBottom r w1 | None => Some w1 end = Some w2 /\
      window_ok w2 /\ ids w2 = ids w1) as (w2 & -> & H2 & I2) by (destruct rows; [by apply Habs|by exists w1]). cbn.
    assert (exists w3, match relative with Some rel => resize_main_relative rel cells w2 | None => Some w2 end = Some w3 /\
      window_ok w3 /\ ids w3 = ids w2) as (w3 & E & H3 & I3) by (destruct relative; [by apply Hrel|by exists w2]).
    exists w3. split_and!; [done|done|congruence].
Qed.

Lemma resize_pane_axis_ok d i size w :
  window_ok w -> exists b w', resize_pane_axis d i size w = Some (b, w') /\ window_ok w' /\ ids w' = ids w.
Proof.
  intros Hok. unfold resize_pane_axis. destruct (pane_position i w) as [pos|]; [|by exists false, w].
  destruct (length (panes w) =? 1)%nat.
  - destruct (resize_main_absolute_ok d size w Hok) as (w' & E & H & Hs). rewrite E. cbn. exists true, w'.
    split_and!; [done|done|apply Hs].
  - destruct (unzoom_change_ok (fun t => resize_pane_to t pos d size)
      (match d with LeftRight => with_main_width None | TopBottom => with_main_height None end) w
      (tame_resize_pane_to _ _ _) (harmless_main d) Hok) as (b & w' & E & H & Hs).
    exists b, w'. split_and!; [exact E|done|apply Hs].
Qed.

Lemma window_resize_pane_to_ok i d size w :
  window_ok w -> exists b w', window_resize_pane_to i d size w = Some (b, w') /\ window_ok w' /\ ids w' = ids w.
Proof.
  intros Hok. unfold window_resize_pane_to. destruct (pane_position i w) as [pos|]; [|by exists false, w].
  destruct (unzoom_change_ok (fun t => resize_pane_to t pos (from_split_direction d) size) id w
    (tame_resize_pane_to _ _ _) harmless_id Hok) as (b & w' & E & H & Hs). exists b, w'. split_and!; [exact E|done|apply Hs].
Qed.

Lemma window_resize_pane_by_ok i adj w :
  window_ok w -> exists b w', window_resize_pane_by i adj w = Some (b, w') /\ window_ok w' /\ ids w' = ids w.
Proof.
  intros Hok. unfold window_resize_pane_by. destruct (pane_position i w) as [pos|]; [|by exists false, w]. cbv zeta.
  destruct (match adj with AdjustUp c => _ | _ => _ end) as [[d change]|]; [|by exists false, w].
  destruct (unzoom_change_ok (fun t => resize_pane_by t pos d change) sync_requested_main_size w
    (tame_resize_pane_by _ _ _) harmless_sync Hok) as (b & w' & E & H & Hs). exists b, w'. split_and!; [exact E|done|apply Hs].
Qed.

End Kept.
