(* ===== verification/WindowOps.v ===== *)
(** * Splitting, removing, rotating and swapping panes

    The operations of [Window.v] that change which panes a window has or their
    order keep [window_ok]: they renumber the panes by position, move the active
    and the last pane with their identities, and lay the panes out again. *)

From S2P Require Import Prelude Panes Text Errors LayoutCell LayoutTree LayoutNamed LayoutText.
From S2P Require Import LayoutShape Window WindowInv.

Lemma count_ids w : count w = length (ids w).
Proof. unfold ids. by rewrite length_map. Qed.

(** ** Renumbering *)

Lemma wrap_u32_count n : Z.of_nat n <= u16_max -> wrap_u32 (Z.of_nat n) = Z.of_nat n.
Proof. intros H. unfold wrap_u32. apply Z.mod_small. unfold u16_max in H. lia. Qed.

Lemma renumbered_views l :
  map pane_id (renumbered l) = map pane_id l /\ map pane_geometry (renumbered l) = map pane_geometry l /\
  length (renumbered l) = length l.
Proof.
  unfold renumbered. split_and!; [| |apply length_imap]; apply list_eq; intros i;
    rewrite !list_lookup_fmap, list_lookup_imap; by destruct (l !! i).
Qed.

Lemma renumbered_indexes l :
  Z.of_nat (length l) <= u16_max -> map pane_index (renumbered l) = map Z.of_nat (seq 0 (length l)).
Proof.
  intros Hl. unfold renumbered. apply list_eq. intros i. rewrite !list_lookup_fmap, list_lookup_imap.
  destruct (l !! i) as [p|] eqn:E; cbn.
  - pose proof (lookup_lt_Some _ _ _ E). rewrite lookup_seq_lt by lia. cbn. rewrite wrap_u32_count by lia. done.
  - apply lookup_ge_None in E. by rewrite lookup_seq_ge by lia.
Qed.

(** Where the pane with a given id is. *)
Definition id_position (id : Z) (l : list Z) : option nat := position (fun x => x =? id) l.

Lemma id_position_Some id l k : id_position id l = Some k -> l !! k = Some id.
Proof.
  unfold id_position. revert k. induction l as [|x l IH]; intros k; cbn; [done|].
  destruct (Z.eqb_spec x id) as [->|]; [by intros [=<-]|]. destruct (position _ l) as [j|]; [|done].
  intros [=<-]. by apply IH.
Qed.

Lemma id_position_None id l : id_position id l = None <-> id ∉ l.
Proof.
  unfold id_position. induction l as [|x l IH]; cbn; [split; [intros _ H; inversion H|done]|].
  rewrite not_elem_of_cons. destruct (Z.eqb_spec x id) as [->|Hne]; [split; [done|by intros []]|].
  destruct (position _ l) as [j|]; cbn; [|naive_solver]. split; [done|]. intros [_ H]. by apply IH in H.
Qed.

Lemma id_position_lookup id l k : NoDup l -> l !! k = Some id -> id_position id l = Some k.
Proof.
  intros Hn Hk. destruct (id_position id l) as [j|] eqn:E.
  - f_equal. apply id_position_Some in E. eapply NoDup_lookup; eauto.
  - apply id_position_None in E. destruct E. by eapply list_elem_of_lookup_2.
Qed.

Lemma pane_index_for_id_ok id w :
  indexes_of w = map Z.of_nat (seq 0 (count w)) -> pane_index_for_id id w = Z.of_nat <$> id_position id (ids w).
Proof.
  intros Hx. unfold pane_index_for_id. rewrite find_position, (position_map (fun x => x =? id) pane_id).
  change (position _ (map pane_id (panes w))) with (id_position id (ids w)).
  destruct (id_position id (ids w)) as [k|] eqn:E; [|done]. cbn. apply id_position_Some in E.
  assert (indexes_of w !! k = Some (Z.of_nat k)) as Hk.
  { rewrite Hx, list_lookup_fmap, lookup_seq_lt; [done|]. apply lookup_lt_Some in E. unfold ids in E. by rewrite length_map in E. }
  unfold indexes_of in Hk. rewrite list_lookup_fmap in Hk. destruct (panes w !! k); [|done]. cbn in *. congruence.
Qed.

(** The last pane a renumbering records. *)
Definition last_for (last_id : option Z) (a : nat) (l : list Z) : option Z :=
  id ← last_id; k ← id_position id l; if (k =? a)%nat then None else Some (Z.of_nat k).

(** Everything but the numbering and the selection. *)
Record same_layout (w w' : Window) : Prop := {
  same_geometries : geometries w' = geometries w;
  same_tree : layout_tree w' = layout_tree w;
  same_size : win_size w' = win_size w;
  same_zooms : same_zoom w w';
}.

Lemma same_layout_placed w w' : same_layout w w' -> placed w -> placed w'.
Proof. intros [G T S _]. by apply placed_same. Qed.

Lemma renumber_ok a last_id w k :
  Z.of_nat (count w) <= u16_max -> NoDup (ids w) -> ids w !! k = Some a ->
  exists w', renumber_panes_by_position a last_id w = Some w' /\ order_ok w' /\ ids w' = ids w /\
    same_layout w w' /\ active_pane w' = Z.of_nat k /\ last_pane w' = last_for last_id k (ids w) /\
    layout w' = layout w.
Proof.
  intros Hc Hn Hk. destruct (renumbered_views (panes w)) as (V1 & V2 & V3). pose proof (renumbered_indexes (panes w) Hc) as V4.
  unfold renumber_panes_by_position. set (w1 := with_next_pane_index _ _).
  assert (indexes_of w1 = map Z.of_nat (seq 0 (count w1))) as Hx.
  { unfold indexes_of, count. cbn. by rewrite V4, V3. }
  assert (ids w1 = ids w) as Hi by exact V1. assert (count w1 = count w) as Hc1 by exact V3.
  rewrite (pane_index_for_id_ok a w1 Hx), Hi, (id_position_lookup a _ k Hn Hk). cbn [fmap option_fmap option_map mbind option_bind].
  eexists. split; [done|]. set (la := (id ← last_id; _)).
  assert (la = last_for last_id k (ids w)) as Hla.
  { unfold la, last_for. destruct last_id as [l|]; [|done]. cbn [mbind option_bind].
    rewrite (pane_index_for_id_ok l (with_active_pane (Z.of_nat k) w1) Hx). change (ids (with_active_pane (Z.of_nat k) w1)) with (ids w1). rewrite Hi.
    destruct (id_position l (ids w)) as [j|]; [|done]. cbn.
    destruct (Nat.eqb_spec j k), (Z.eqb_spec (Z.of_nat j) (Z.of_nat k)); try done; lia. }
  rewrite Hla. assert (k < count w)%nat as Hlt by (apply lookup_lt_Some in Hk; unfold ids in Hk; by rewrite length_map in Hk).
  assert (wrap_u32 (Z.of_nat (length (renumbered (panes w)))) = Z.of_nat (count w)) as Hnx.
  { rewrite V3. by apply wrap_u32_count. }
  split_and!; try done. split; unfold count, ids, indexes_of in *; cbn in *; rewrite ?V1, ?V3 in *; try done; try lia.
  intros l. unfold last_for. destruct last_id as [id|]; [|done]. cbn.
  destruct (id_position id _) as [j|] eqn:Ej; [|done]. cbn. apply id_position_Some, lookup_lt_Some in Ej.
  rewrite length_map in Ej. destruct (Nat.eqb_spec j k); [done|]. intros [=<-]. lia.
Qed.

(** ** Laying the panes out again *)

(** The tail of [split_at_position] and [extract_pane]: apply the changed tree,
    or build the named layout when the tree refused the change. *)
Definition relayout (r : bool * LayoutTree) (w : Window) : option Window :=
  let '(ok, t) := r in
  let w := with_layout_tree (Some t) w in
  if ok : bool then apply_layout_tree w else rebuild_named_layout_tree (layout w) w.

Lemma relayout_ok r w :
  (1 <= count w)%nat -> Z.of_nat (count w) <= u16_max ->
  match r with (true, t) => tree_fits (count w) t /\ win_size w = tree_size t | (false, _) => True end ->
  places w (relayout r w).
Proof.
  intros H1 H2 Hr. destruct r as [[] t]; unfold relayout; cbv zeta.
  - destruct Hr as [Hf Hs]. eapply places_from; [| |eapply apply_layout_tree_ok]; try done; by split.
  - eapply places_from; [| |by apply rebuild_ok]; by split.
Qed.

(** The id of the active pane, and of the last one. *)
Definition active_id (w : Window) : option Z := pane_id <$> active w.
Definition last_id (w : Window) : option Z := i ← last_pane w; pane_id <$> pane i w.

Lemma active_id_lookup w : order_ok w -> active_id w = ids w !! Z.to_nat (active_pane w) /\ is_Some (active_id w).
Proof. intros Ho. destruct (active_id_ok w Ho) as (p & E & K). unfold active_id. rewrite E, K. cbn. split; [done|by eexists]. Qed.

Lemma active_id_same w w' : order_ok w -> same_order w w' -> active_id w' = active_id w.
Proof.
  intros Ho Hs. pose proof (same_order_ok _ _ Hs Ho) as Ho'. rewrite (proj1 (active_id_lookup w Ho)), (proj1 (active_id_lookup w' Ho')).
  destruct Hs. congruence.
Qed.

Lemma last_id_lookup w : order_ok w -> last_id w = (l ← last_pane w; ids w !! Z.to_nat l).
Proof.
  intros Ho. unfold last_id. destruct (last_pane w) as [l|] eqn:E; [|done]. cbn.
  destruct (ok_last w Ho l E) as [Hl _]. destruct (pane_id_at l w Ho Hl) as (p & -> & ->). done.
Qed.

Lemma last_id_same w w' : order_ok w -> same_order w w' -> last_id w' = last_id w.
Proof.
  intros Ho Hs. pose proof (same_order_ok _ _ Hs Ho) as Ho'. rewrite (last_id_lookup w Ho), (last_id_lookup w' Ho').
  destruct Hs as [S1 S2 S3 S4 S5]. by rewrite S1, S5.
Qed.

Section Kept.
Context {stale : bool}.
Local Notation window_ok := (window_ok_at stale).

(** Panes placed by [places], then renumbered. *)
Lemma renumber_placed a last_id w k :
  Z.of_nat (count w) <= u16_max -> NoDup (ids w) -> ids w !! k = Some a -> placed w -> zoomed w = false ->
  zoom_restore_pending w = false ->
  exists w', renumber_panes_by_position a last_id w = Some w' /\ window_ok w' /\ ids w' = ids w /\
    active_pane w' = Z.of_nat k /\ last_pane w' = last_for last_id k (ids w) /\ zoomed w' = false /\ layout w' = layout w.
Proof.
  intros H1 H2 H3 Hp Hz Hr. destruct (renumber_ok a last_id w k H1 H2 H3) as (w' & E & Ho & Hi & Hs & Ha & Hl & Hy).
  pose proof (same_layout_placed _ _ Hs Hp) as Hp'. destruct Hs as [_ _ _ [Z1 Z2]].
  exists w'. split_and!; try done; [|congruence]. apply placed_window_ok; congruence || done.
Qed.

(** The identity [last_for] records. *)
Lemma last_id_for L a j w :
  order_ok w -> ids w !! j = Some a -> last_pane w = last_for L j (ids w) ->
  last_id w = (l ← L; if decide (l ∈ ids w /\ l <> a) then Some l else None).
Proof.
  intros Ho Hj Hl. rewrite (last_id_lookup w Ho), Hl. unfold last_for. destruct L as [l|]; [|done]. cbn.
  destruct (id_position l (ids w)) as [k|] eqn:E; cbn.
  - apply id_position_Some in E. pose proof (list_elem_of_lookup_2 _ _ _ E) as Hin.
    destruct (Nat.eqb_spec k j) as [->|Hne]; cbn.
    + rewrite decide_False; [done|]. intros [_ H]. congruence.
    + rewrite Nat2Z.id, E, decide_True; [done|]. split; [done|]. intros ->. apply Hne. eapply NoDup_lookup; [apply Ho|done|done].
  - apply id_position_None in E. rewrite decide_False; [done|]. by intros [].
Qed.

(** The last pane is one of the window's, and not the active one. *)
Lemma last_id_facts w l : order_ok w -> last_id w = Some l -> l ∈ ids w /\ Some l <> active_id w.
Proof.
  intros Ho. rewrite (last_id_lookup w Ho), (proj1 (active_id_lookup w Ho)).
  destruct (last_pane w) as [k|] eqn:E; [|done]. cbn. intros Hk. split; [by eapply list_elem_of_lookup_2|].
  intros Ha. destruct (ok_last w Ho k E) as [Hk2 Hne]. symmetry in Ha.
  pose proof (NoDup_lookup _ _ _ _ (ok_ids w Ho) Hk Ha). pose proof (ok_active w Ho). lia.
Qed.

Lemma mark_window_ok i now w :
  window_ok w -> zoomed w = false -> let w' := mark_pane_active i now w in
  window_ok w' /\ same_order w w' /\ zoomed w' = false.
Proof.
  intros [Ho Hl Hp] Hz w'. destruct (mark_pane_active_ok i now w Ho) as (M1 & M2 & M3 & M4); [by eapply layout_ok_placed|].
  fold w' in M1, M2, M3, M4. split_and!; [|done|congruence].
  apply placed_window_ok; [by eapply same_order_ok|done|congruence|congruence].
Qed.

(** ** Splitting *)

Lemma existsb_ids id w : existsb (fun p => pane_id p =? id) (panes w) = bool_decide (id ∈ ids w).
Proof.
  unfold ids. induction (panes w) as [|p l IH]; cbn; [by rewrite bool_decide_eq_false_2 by (intros H; inversion H)|].
  rewrite IH. destruct (Z.eqb_spec (pane_id p) id) as [->|Hne]; cbn; [by rewrite bool_decide_eq_true_2 by left|].
  apply bool_decide_ext. set_solver.
Qed.

Lemma insert_perm {A} i (x : A) l : take i l ++ x :: drop i l ≡ₚ x :: l.
Proof. rewrite <- Permutation_middle. by rewrite take_drop. Qed.

(** The window once the new pane is in the list and in the tree. *)
Lemma split_tree_ok pos id d (before : bool) now w n :
  order_ok w -> placed w -> (pos < count w)%nat -> Z.of_nat (S (count w)) <= u16_max ->
  let at_ := if before then pos else S pos in
  let new := new_with_id now id n (mkPaneGeometry 0 0 0 0) in
  let w1 := with_panes (take at_ (panes w) ++ new :: drop at_ (panes w)) (with_next_pane_index (n + 1) w) in
  ids w1 = take at_ (ids w) ++ id :: drop at_ (ids w) /\
  places w1
    (match layout_tree w1 with
     | Some t => relayout (split_leaf t pos (from_split_direction d) before) w1
     | None => rebuild_named_layout_tree (layout w1) w1
     end).
Proof.
  intros Ho (t & gs & T1 & T2 & T3 & T4 & T5) Hpos Hn at_ new w1.
  assert (ids w1 = take at_ (ids w) ++ id :: drop at_ (ids w)) as Hids.
  { unfold ids. cbn. by rewrite map_app, firstn_map, skipn_map. }
  assert (count w1 = S (count w)) as Hc.
  { unfold count. cbn. change (length (take at_ (panes w) ++ new :: drop at_ (panes w)) = S (length (panes w))).
    by rewrite (Permutation_length (insert_perm at_ new (panes w))). }
  split; [done|]. cbn [layout_tree w1 with_panes with_next_pane_index]. rewrite T1.
  pose proof (split_leaf_fits (count w) t pos (from_split_direction d) before T2) as Hf.
  pose proof (tree_size_dims _ _ (split_leaf_dims t pos (from_split_direction d) before)) as Hd.
  apply relayout_ok; rewrite ?Hc; [lia|done|]. destruct (split_leaf _ _ _ _) as [[] t']; [|done].
  cbn [snd] in Hd. split; [done|]. cbn. congruence.
Qed.

Lemma commit_split_ok id now w pa pl detached k j :
  Z.of_nat (count w) <= u16_max -> NoDup (ids w) -> ids w !! k = Some id -> ids w !! j = Some pa -> pa <> id ->
  placed w -> zoomed w = false -> zoom_restore_pending w = false ->
  exists w', commit_split_renumber id (Some pa) pl detached now w = Some w' /\ window_ok w' /\ ids w' = ids w /\
    zoomed w' = false /\
    if detached then active_pane w' = Z.of_nat j /\ last_pane w' = last_for pl j (ids w)
    else active_pane w' = Z.of_nat k /\ last_pane w' = Some (Z.of_nat j).
Proof.
  intros H1 H2 Hk Hj Hne Hpl Hz Hp. unfold commit_split_renumber. destruct detached.
  - cbn [mbind option_bind]. destruct (renumber_placed pa pl w j) as (w' & E & ? & ? & ? & ? & ? & ?); try done.
    exists w'. by split_and!.
  - destruct (renumber_placed id (Some pa) w k) as (w' & E & Hw & Hi & Ha & Hl & Hz' & _); try done.
    rewrite E. cbn [mbind option_bind]. pose proof (win_order _ Hw) as Ho'.
    assert (last_for (Some pa) k (ids w) = Some (Z.of_nat j)) as Hlast.
    { unfold last_for. cbn. rewrite (id_position_lookup pa _ j) by done. cbn. destruct (Nat.eqb_spec j k); [|done]. congruence. }
    assert (active_id w' = Some id) as Hid.
    { rewrite (proj1 (active_id_lookup w' Ho')), Ha, Hi, Nat2Z.id. done. }
    rewrite decide_False by (change (active_id w' <> Some pa); congruence).
    destruct (mark_window_ok (active_pane w') now w' Hw Hz') as (M1 & M2 & M3). destruct M2 as [S1 S2 S3 S4 S5].
    eexists. split_and!; [done|done|congruence|done|congruence|congruence].
Qed.

(** Which pane is selected after a split. *)
Definition split_selects (detached : bool) (w w' : Window) (i : Z) : Prop :=
  if detached then active_id w' = active_id w /\ last_id w' = last_id w
  else active_pane w' = i /\ last_id w' = active_id w.

Lemma split_at_position_ok pos id d (before detached : bool) now w :
  window_ok w -> (pos < count w)%nat -> id ∉ ids w -> Z.of_nat (S (count w)) <= u16_max ->
  let at_ := if before then pos else S pos in
  exists w', split_at_position pos id d before detached now w = Some (Z.of_nat at_, w') /\ window_ok w' /\
    ids w' = take at_ (ids w) ++ id :: drop at_ (ids w) /\ zoomed w' = false /\
    split_selects detached w w' (Z.of_nat at_).
Proof.
  intros [Ho Hl Hp] Hpos Hid Hn at_. unfold split_at_position. change (length (panes w)) with (count w).
  rewrite (proj2 (Nat.ltb_lt _ _)) by done. rewrite existsb_ids, bool_decide_eq_false_2 by done. cbn [negb].
  destruct (unzoomed_ok w Hl) as (w1 & -> & Hs & Hz & Hr & Hpl). cbn [mbind option_bind]. cbv zeta.
  pose proof (same_order_ok _ _ Hs Ho) as Ho1. pose proof (same_order_count _ _ Hs) as Hc.
  set (w2 := with_layout _ w1). assert (order_ok w2) as Ho2 by (apply (same_order_ok w1); [by split|done]).
  change (pane_id <$> active w2) with (active_id w2). set (pl := (i ← last_pane w2; _)).
  assert (active_id w2 = active_id w) as Hai by (apply (active_id_same w); [done|by destruct Hs]).
  unfold allocate_pane_index. rewrite (proj2 (Z.eqb_neq _ _))
    by (rewrite (ok_next w2 Ho2); change (count w2) with (count w1); rewrite Hc; unfold u16_max, u32_max in *; lia).
  unfold vec_insert_checked. cbn [mbind option_bind panes with_next_pane_index].
  rewrite (proj2 (Nat.leb_le (if before then pos else S pos) _)) by (unfold count in *; cbn; destruct before; lia).
  cbn [mbind option_bind].
  destruct (split_tree_ok pos id d before now w2 (next_pane_index w2) Ho2) as [Hids Hplaces];
    [by apply (placed_same w1)|unfold count in *; cbn; lia|unfold count in *; cbn; lia|].
  fold at_ in Hids, Hplaces |- *. set (w3 := with_panes _ _) in *. unfold relayout in Hplaces.
  destruct Hplaces as (w4 & E & Hs4 & [Z3 Z4] & Hp4). rewrite E. cbn [mbind option_bind]. clear E.
  destruct (proj2 (active_id_lookup w Ho)) as [pa Hpa]. rewrite Hai, Hpa.
  assert (ids w2 = ids w) as Hi2 by apply Hs. rewrite Hi2 in Hids. pose proof (same_ids _ _ Hs4) as Hi4. rewrite Hids in Hi4.
  assert (ids w4 ≡ₚ id :: ids w) as Hperm by (rewrite Hi4; apply insert_perm).
  assert (ids w !! Z.to_nat (active_pane w) = Some pa) as Hpal by (by rewrite <- (proj1 (active_id_lookup w Ho))).
  assert (ids w4 !! at_ = Some id) as Hat.
  { rewrite Hi4. assert (length (take at_ (ids w)) = at_) as Hlen.
    { apply length_take_le. unfold ids. rewrite length_map. change (at_ <= count w)%nat. unfold at_. destruct before; lia. }
    by rewrite lookup_app_r, Hlen, Nat.sub_diag by lia. }
  assert (exists j, ids w4 !! j = Some pa) as [j Hj].
  { apply list_elem_of_lookup_1. rewrite Hperm. right. by eapply list_elem_of_lookup_2. }
  assert (pa <> id) as Hne by (intros ->; apply Hid; by eapply list_elem_of_lookup_2).
  assert (NoDup (ids w4)) as Hnd by (rewrite Hperm; constructor; [done|apply Ho]).
  assert (count w4 = S (count w)) as Hc4.
  { apply Permutation_length in Hperm. unfold ids in Hperm. cbn in Hperm. by rewrite !length_map in Hperm. }
  destruct (commit_split_ok id now w4 pa pl detached at_ j) as (w5 & -> & Hw5 & Hi5 & Hz5 & Hsel); try done;
    [lia|by rewrite Z3|by rewrite Z4; cbn; congruence|]. cbn [mbind option_bind].
  pose proof (win_order _ Hw5) as Ho5.
  rewrite (pane_index_for_id_ok id w5 (ok_indexes _ Ho5)), Hi5, (id_position_lookup id _ at_) by done.
  exists w5. split_and!; [done|done|congruence|done|]. unfold split_selects. destruct detached.
  - destruct Hsel as [Ha Hla]. rewrite (proj1 (active_id_lookup w5 Ho5)), Ha, Hi5, Nat2Z.id. split; [congruence|].
    rewrite <- Hi5 in Hla, Hj. rewrite (last_id_for pl pa j w5 Ho5 Hj Hla). change pl with (last_id w2).
    rewrite (last_id_same w) by (done || by destruct Hs). destruct (last_id w) as [l|] eqn:El; [|done]. cbn.
    destruct (last_id_facts w l Ho El) as [L1 L2]. rewrite decide_True; [done|]. rewrite Hi5, Hperm. split; [by right|congruence].
  - destruct Hsel as [Ha Hla]. split; [done|]. rewrite (last_id_lookup w5 Ho5), Hla. cbn. by rewrite Nat2Z.id, Hi5, Hj.
Qed.

(** ** Removing *)

Lemma renumber_single_ok w :
  count w = 1%nat ->
  exists w', renumber_single_pane_to_zero w = Some w' /\ window_ok w' /\ ids w' = ids w /\ zoomed w' = false.
Proof.
  intros Hc. unfold renumber_single_pane_to_zero. unfold count in Hc. destruct (panes w) as [|p [|]] eqn:E; try done.
  set (w1 := mkWindow _ _ _ _ _ _ _ _ _ _ _ _ _ _ _ _ _ _ _ _ _).
  destruct (recalculate_ok w1 (single (win_size w)) eq_refl (single_fits _)) as (w' & E' & Hs & [Z1 Z2] & Hp).
  exists w'. split_and!; [done| | |done].
  - apply placed_window_ok; [|done|done|done]. apply (same_order_ok w1); [done|]. split; cbn; try done.
    + repeat constructor. intros H; inversion H.
  - rewrite (same_ids _ _ Hs). unfold ids. by rewrite E.
Qed.

(** The pane selected when the pane at [pos] goes: the last one, else the
    neighbour before it, else the one after it. *)
Definition survivor (pos : nat) (w : Window) : option Z :=
  if (active_pane w =? Z.of_nat pos) then
    match last_id w with Some l => Some l | None => ids w !! (if (0 <? pos)%nat then pos - 1 else 1)%nat end
  else active_id w.

Lemma survivor_in pos w :
  order_ok w -> (pos < count w)%nat -> (2 <= count w)%nat ->
  exists a k, survivor pos w = Some a /\ ids w !! k = Some a /\ k <> pos.
Proof.
  intros Ho Hpos H2. unfold survivor. destruct (Z.eqb_spec (active_pane w) (Z.of_nat pos)) as [Ha|Ha].
  - rewrite (last_id_lookup w Ho). destruct (last_pane w) as [l|] eqn:E; cbn.
    + destruct (ok_last w Ho l E) as [Hl Hne]. destruct (pane_id_at l w Ho Hl) as (p & _ & Hk). rewrite Hk.
      exists (pane_id p), (Z.to_nat l). split_and!; try done. lia.
    + set (k := (if 0 <? pos then pos - 1 else 1)%nat). assert (k < count w /\ k <> pos)%nat as [K1 K2].
      { unfold k. destruct (Nat.ltb_spec 0 pos); lia. }
      destruct (lookup_lt_is_Some_2 (ids w) k) as [a Hk]; [unfold ids; by rewrite length_map|]. exists a, k. by rewrite Hk.
  - destruct (active_id_lookup w Ho) as [E [a Hs]]. rewrite Hs. exists a, (Z.to_nat (active_pane w)).
    split_and!; [done|congruence|]. pose proof (ok_active w Ho). lia.
Qed.

Lemma next_active_ok pos w :
  order_ok w -> (pos < count w)%nat -> (2 <= count w)%nat -> active_pane w = Z.of_nat pos ->
  next_active_pane_after_removal pos (Z.of_nat pos) w = survivor pos w.
Proof.
  intros Ho Hpos H2 Ha. unfold next_active_pane_after_removal, survivor. rewrite Ha, Z.eqb_refl.
  assert ((last ← last_pane w; if last =? Z.of_nat pos then None else pane_id <$> pane last w) = last_id w) as ->.
  { unfold last_id. destruct (last_pane w) as [l|] eqn:E; [|done]. cbn. destruct (ok_last w Ho l E) as [_ Hne].
    rewrite (proj2 (Z.eqb_neq _ _)) by congruence. done. }
  destruct (last_id w); [done|]. unfold ids. destruct (Nat.ltb_spec 0 pos); [by rewrite list_lookup_fmap|].
  replace pos with 0%nat by lia. cbn [Nat.add]. rewrite (proj2 (Nat.ltb_lt _ _)) by (unfold count in H2; lia).
  by rewrite list_lookup_fmap.
Qed.

Lemma delete_lookup_ne {A} (l : list A) i k x :
  l !! k = Some x -> k <> i -> exists k', delete i l !! k' = Some x.
Proof.
  intros Hk Hne. destruct (decide (k < i)%nat).
  - exists k. by rewrite list_lookup_delete_lt.
  - exists (k - 1)%nat. rewrite list_lookup_delete_ge by lia. by replace (S (k - 1)) with k by lia.
Qed.

(** The window once the pane is out of the list and out of the tree. *)
Lemma remove_tree_ok pos w :
  order_ok w -> placed w -> (pos < count w)%nat -> (2 <= count w)%nat ->
  let w1 := with_panes (delete pos (panes w)) w in
  ids w1 = delete pos (ids w) /\ count w1 = (count w - 1)%nat /\
  places w1
    (match layout_tree w1 with
     | Some t => relayout (remove_leaf t pos) w1
     | None => rebuild_named_layout_tree (layout w1) w1
     end).
Proof.
  intros Ho (t & gs & T1 & T2 & T3 & T4 & T5) Hpos H2 w1.
  assert (ids w1 = delete pos (ids w)) as Hids by (apply list_fmap_delete).
  assert (count w1 = (count w - 1)%nat) as Hc.
  { unfold count. cbn. rewrite length_delete; [|by apply lookup_lt_is_Some_2]. done. }
  split_and!; [done|done|]. cbn [layout_tree w1 with_panes]. rewrite T1.
  replace (count w) with (S (count w - 1)) in T2 by lia. pose proof (remove_leaf_fits (count w - 1) t pos T2) as Hf.
  pose proof (tree_size_dims _ _ (remove_leaf_dims t pos)) as Hd. destruct (ok_count w Ho) as [_ Hn].
  apply relayout_ok; [lia|lia|]. destruct (remove_leaf t pos) as [[] t']; [|done].
  rewrite Hc. split; [done|]. cbn in *. congruence.
Qed.

(** The last pane after a removal: none when the active pane goes. *)
Definition last_after_removal (pos : nat) (w : Window) : option Z :=
  if active_pane w =? Z.of_nat pos then None
  else l ← last_id w; if decide (ids w !! pos = Some l) then None else Some l.

(** The end of [extract_pane] for a window that still has panes. *)
Lemma finish_removal_ok a k L w :
  (1 <= count w)%nat -> Z.of_nat (count w) <= u16_max -> NoDup (ids w) -> ids w !! k = Some a -> placed w ->
  zoomed w = false -> zoom_restore_pending w = false ->
  (forall l, L = Some l -> l ∈ ids w /\ l <> a) ->
  exists w',
    match length (panes w) with
    | 1%nat => renumber_single_pane_to_zero w
    | 0%nat => Some (with_last_pane None (with_active_pane 0 w))
    | _ => renumber_panes_by_position a L w
    end = Some w' /\
    window_ok w' /\ ids w' = ids w /\ zoomed w' = false /\ active_id w' = Some a /\ last_id w' = L.
Proof.
  intros H1 Hn Hd Hk Hp Hz Hr HL. change (length (panes w)) with (count w).
  destruct (count w) as [|[|n]] eqn:Hc; [lia| |].
  - destruct (renumber_single_ok w Hc) as (w' & E & Hw & Hi & Hz'). exists w'. pose proof (win_order _ Hw) as Ho.
    assert (count w' = 1%nat) as Hc'. { unfold ids in Hi. apply (f_equal length) in Hi. rewrite !length_map in Hi. by rewrite <- Hc. }
    assert (ids w = [a]) as Ha.
    { unfold count in Hc. unfold ids in *. destruct (panes w) as [|p [|]]; try done. destruct k; cbn in *; [congruence|done]. }
    assert (last_pane w' = None) as Hl.
    { destruct (last_pane w') as [l|] eqn:El; [|done]. destruct (ok_last w' Ho l El). pose proof (ok_active w' Ho). lia. }
    split_and!; try done.
    + rewrite (proj1 (active_id_lookup w' Ho)), Hi, Ha. pose proof (ok_active w' Ho). by replace (Z.to_nat (active_pane w')) with 0%nat by lia.
    + unfold last_id. rewrite Hl. destruct L as [l|]; [|done]. destruct (HL l eq_refl) as [Hin Hne]. rewrite Ha in Hin. set_solver.
  - destruct (renumber_placed a L w k) as (w' & E & Hw & Hi & Ha & Hl & Hz' & _); rewrite ?Hc; try done. exists w'.
    pose proof (win_order _ Hw) as Ho. rewrite <- Hi in Hl. split_and!; try done.
    + by rewrite (proj1 (active_id_lookup w' Ho)), Ha, Nat2Z.id, Hi.
    + rewrite (last_id_for L a k w' Ho) by (congruence || done). destruct L as [l|]; [|done]. cbn.
      rewrite decide_True; [done|]. rewrite Hi. by apply HL.
Qed.

Lemma elem_of_delete {A} (l : list A) pos x : x ∈ l -> l !! pos <> Some x -> x ∈ delete pos l.
Proof.
  intros Hin Hne. apply list_elem_of_lookup_1 in Hin as [k Hk].
  destruct (delete_lookup_ne l pos k x Hk) as [k' Hk']; [congruence|]. by eapply list_elem_of_lookup_2.
Qed.

Lemma last_after_removal_facts pos a w l :
  order_ok w -> survivor pos w = Some a -> last_after_removal pos w = Some l -> l ∈ delete pos (ids w) /\ l <> a.
Proof.
  intros Ho Ha. unfold last_after_removal. unfold survivor in Ha. destruct (active_pane w =? Z.of_nat pos); [done|].
  destruct (last_id w) as [l'|] eqn:El; [|done]. cbn. destruct (decide _) as [|Hne]; [done|]. intros [=<-].
  destruct (last_id_facts w l' Ho El) as [L1 L2]. split; [by apply elem_of_delete|]. congruence.
Qed.

(** [extract_pane] once the window is unzoomed. *)
Lemma extract_unzoomed_ok pos w :
  order_ok w -> placed w -> zoomed w = false -> zoom_restore_pending w = false -> (pos < count w)%nat -> (2 <= count w)%nat ->
  exists p w', extract_pane (Z.of_nat pos) w = Some (Some p, w') /\ window_ok w' /\ ids w !! pos = Some (pane_id p) /\
    ids w' = delete pos (ids w) /\ zoomed w' = false /\ active_id w' = survivor pos w /\
    last_id w' = last_after_removal pos w.
Proof.
  intros Ho Hpl Hz Hr Hpos H2. unfold extract_pane. rewrite pane_position_ok by done.
  rewrite (proj2 (Z.leb_le _ _)), (proj2 (Z.ltb_lt _ _)), Nat2Z.id by lia. cbn [andb].
  unfold unzoomed, auto_unzoom. rewrite Hz. cbn [fmap option_fmap option_map snd mbind option_bind].
  change (pane_id <$> active w) with (active_id w). destruct (proj2 (active_id_lookup w Ho)) as [ai Hai]. rewrite Hai.
  change (l ← last_pane w; pane_id <$> pane l w) with (last_id w).
  destruct (survivor_in pos w Ho Hpos H2) as (a & k & Hsv & Hk & Hkp).
  assert ((if (active_pane w =? Z.of_nat pos) && (1 <? length (panes w))%nat
           then next_active_pane_after_removal pos (Z.of_nat pos) w else Some ai) = Some a) as ->.
  { rewrite (proj2 (Nat.ltb_lt _ _)) by (unfold count in H2; lia). rewrite andb_true_r.
    destruct (Z.eqb_spec (active_pane w) (Z.of_nat pos)) as [E|E]; [by rewrite next_active_ok|].
    unfold survivor in Hsv. rewrite (proj2 (Z.eqb_neq _ _)) in Hsv by done. congruence. }
  cbn [mbind option_bind]. destruct (lookup_lt_is_Some_2 (panes w) pos Hpos) as [p Hpp]. rewrite Hpp. cbn [mbind option_bind].
  assert (pane_index p = Z.of_nat pos) as Hpi.
  { pose proof (ok_indexes w Ho) as Hx. apply (f_equal (fun l => l !! pos)) in Hx. unfold indexes_of in Hx.
    rewrite !list_lookup_fmap, Hpp, lookup_seq_lt in Hx by done. by injection Hx. }
  assert (ids w !! pos = Some (pane_id p)) as Hpid by (unfold ids; by rewrite list_lookup_fmap, Hpp).
  destruct (remove_tree_ok pos w Ho Hpl Hpos H2) as (Hids & Hc1 & Hplaces). set (w1 := with_panes _ w) in *.
  assert ((if pane_index p =? active_pane w1 then None else l ← last_id w; if l =? pane_id p then None else Some l)
          = last_after_removal pos w) as ->.
  { unfold last_after_removal. rewrite Hpi, Z.eqb_sym. change (active_pane w1) with (active_pane w). destruct (_ =? _); [done|].
    destruct (last_id w) as [l|]; [|done]. cbn. rewrite Hpid.
    destruct (Z.eqb_spec l (pane_id p)) as [->|]; [by rewrite decide_True|]. by rewrite decide_False by congruence. }
  destruct (panes w1) as [|p1 l1] eqn:E1; [unfold count in Hc1; rewrite E1 in Hc1; cbn in Hc1; unfold count in H2; lia|].
  clear E1. unfold relayout in Hplaces. destruct Hplaces as (w2 & E2 & Hs2 & [Z1 Z2] & Hp2). rewrite E2. cbn [mbind option_bind].
  pose proof (same_order_count _ _ Hs2) as Hc2. pose proof (same_ids _ _ Hs2) as Hi2. rewrite Hids in Hi2.
  destruct (delete_lookup_ne _ pos _ _ Hk Hkp) as [k' Hk']. destruct (ok_count w Ho).
  destruct (finish_removal_ok a k' (last_after_removal pos w) w2) as (w3 & E3 & Hw3 & Hi3 & Hz3 & Ha3 & Hl3);
    rewrite ?Hi2; try done; try (rewrite Hc2, Hc1; lia); try (by rewrite Z1); try (by rewrite Z2).
  { eapply sublist_NoDup; [apply Ho|apply sublist_delete]. }
  { intros l. by apply last_after_removal_facts. }
  exists p, w3. assert (length (panes w2) <> 0%nat) as Hne by (change (count w2 <> 0%nat); lia).
  destruct (length (panes w2)) as [|[|n]]; [done| |]; rewrite E3; cbn [mbind option_bind]; split_and!; congruence.
Qed.

Lemma extract_pane_ok i w :
  window_ok w -> in_window i w = true -> (2 <= count w)%nat ->
  let pos := Z.to_nat i in
  exists p w', extract_pane i w = Some (Some p, w') /\ window_ok w' /\ ids w !! pos = Some (pane_id p) /\
    ids w' = delete pos (ids w) /\ zoomed w' = false /\ active_id w' = survivor pos w /\
    last_id w' = last_after_removal pos w.
Proof.
  intros [Ho Hl Hp] Hi H2 pos. unfold in_window in Hi. apply andb_true_iff in Hi as [Hi1 Hi2].
  assert (pos < count w)%nat as Hpos by (unfold pos; lia). assert (i = Z.of_nat pos) as Ei by (unfold pos; lia).
  clearbody pos. subst i. destruct (unzoomed_ok w Hl) as (w1 & E & Hs & Hz & Hr & Hpl).
  pose proof (same_order_ok _ _ Hs Ho) as Ho1. pose proof (same_order_count _ _ Hs) as Hc.
  pose proof (active_id_same _ _ Ho Hs) as Hai. pose proof (last_id_same _ _ Ho Hs) as Hli.
  destruct Hs as [S1 S2 S3 S4 S5].
  destruct (extract_unzoomed_ok pos w1) as (p & w' & E' & H); rewrite ?Hc; try done; try congruence. exists p, w'.
  unfold survivor, last_after_removal in *. rewrite S1, S4, Hai, Hli in H. split; [|done].
  revert E'. unfold extract_pane. rewrite !pane_position_ok by done. rewrite Hc, E.
  destruct (_ && _); [|done]. unfold unzoomed at 1, auto_unzoom. by rewrite Hz.
Qed.

Lemma window_remove_ok i w :
  window_ok w ->
  exists r w', remove_pane i w = Some (r, w') /\ window_ok w' /\
    (r = None /\ w' = w \/ exists p, r = Some p /\ ids w' = delete (Z.to_nat i) (ids w)).
Proof.
  intros Hok. unfold remove_pane. destruct (Nat.leb_spec (length (panes w)) 1) as [|H2].
  { exists None, w. split_and!; [done|done|by left]. }
  destruct (in_window i w) eqn:Hi.
  - destruct (extract_pane_ok i w Hok Hi) as (p & w' & E & Hw & _ & Hd & _); [unfold count; lia|].
    exists (Some p), w'. split_and!; [done|done|]. right. eauto.
  - unfold extract_pane. rewrite pane_position_ok by apply Hok. unfold in_window in Hi. rewrite Hi.
    exists None, w. split_and!; [done|done|by left].
Qed.

(** Two panes with different ids have different positions, so one stays. *)
Lemma filter_keep_one (id : Z) l : NoDup l -> id ∈ l -> filter (fun x => x = id) l = [id].
Proof.
  induction l as [|x l IH]; intros Hn Hin; [inversion Hin|]. apply NoDup_cons in Hn as [Hx Hn]. rewrite filter_cons.
  destruct (decide (x = id)) as [->|Hne].
  - f_equal. assert (forall y, y ∈ l -> y <> id) as Hno by (intros y Hy ->; done). clear -Hno.
    induction l as [|y l IH]; [done|]. rewrite filter_cons, decide_False by (apply Hno; left).
    apply IH. intros z Hz. apply Hno. by right.
  - apply IH; [done|]. set_solver.
Qed.

Lemma map_filter_ids (P : Z -> Prop) `{!forall x, Decision (P x)} l :
  map pane_id (filter (fun p => P (pane_id p)) l) = filter P (map pane_id l).
Proof. induction l as [|p l IH]; [done|]. cbn [map]. rewrite !filter_cons. destruct (decide _); cbn; by rewrite IH. Qed.

Lemma remove_other_panes_ok i now w :
  window_ok w ->
  exists r w', remove_other_panes i now w = Some (r, w') /\ window_ok w' /\
    match pane_id <$> pane i w with
    | None => r = None /\ w' = w
    | Some keep => r = Some (filter (fun x => x <> keep) (ids w)) /\ ids w' = [keep]
    end.
Proof.
  intros Hok. pose proof Hok as [Ho Hl Hp]. unfold remove_other_panes. pose proof (pane_is_Some i w Ho) as Hi.
  destruct (in_window i w) eqn:Ei; [|rewrite Hi; by exists None, w].
  apply andb_true_iff in Ei as [Ei1 Ei2]. destruct (pane_id_at i w Ho) as (p & -> & Hpid); [lia|]. cbn [fmap option_fmap option_map].
  cbv zeta. pose proof (map_filter_ids (fun x => x <> pane_id p) (panes w)) as Hf. cbv beta in Hf. rewrite Hf. clear Hf. change (map pane_id (panes w)) with (ids w).
  assert (pane_id p ∈ ids w) as Hin by (by eapply list_elem_of_lookup_2).
  pose proof (filter_keep_one _ _ (ok_ids w Ho) Hin) as Hone. destruct (filter (fun x => x <> pane_id p) (ids w)) as [|r rs] eqn:Er.
  - destruct (select_pane_ok i now w Hok) as (w' & E & Hw & Hids & _). rewrite E. cbn [mbind option_bind].
    eexists _, w'. split_and!; [done|done|done|]. rewrite Hids, <- Hone. clear -Er.
    induction (ids w) as [|x l IH]; [done|]. rewrite filter_cons in Er |- *. destruct (decide (x <> pane_id p)); [done|].
    rewrite decide_True by (by apply dec_stable). f_equal. by apply IH.
  - destruct (unzoomed_ok w Hl) as (w1 & -> & Hs & Hz & Hr & Hpl). cbn [mbind option_bind].
    set (w2 := with_panes _ w1). assert (ids w2 = [pane_id p]) as Hi2.
    { unfold ids. cbn. pose proof (map_filter_ids (fun x => x = pane_id p) (panes w1)) as Hf. cbv beta in Hf. rewrite Hf. change (map pane_id (panes w1)) with (ids w1).
      by rewrite (same_ids _ _ Hs). }
    destruct (renumber_single_ok w2) as (w3 & E & Hw & Hi3 & _).
    { unfold count. apply (f_equal length) in Hi2. unfold ids in Hi2. by rewrite length_map in Hi2. }
    rewrite E. cbn [mbind option_bind]. eexists _, w3. split_and!; [done|done|done|congruence].
Qed.

(** ** Rotating *)

Lemma rotate_right1_perm {A} (l : list A) : rotate_right1 l ≡ₚ l.
Proof.
  unfold rotate_right1. destruct (last l) as [x|] eqn:E; [|by apply last_None in E as ->].
  apply last_Some in E as [l' ->]. rewrite List.removelast_last. by rewrite Permutation_app_comm.
Qed.

Lemma rotate_left1_perm {A} (l : list A) : rotate_left1 l ≡ₚ l.
Proof. destruct l as [|x l]; [done|]. cbn. by rewrite Permutation_app_comm. Qed.

Lemma rotate_map {A B} (f : A -> B) l : map f (rotate_right1 l) = rotate_right1 (map f l) /\ map f (rotate_left1 l) = rotate_left1 (map f l).
Proof.
  split.
  - unfold rotate_right1. destruct (last l) as [x|] eqn:E; [|by apply last_None in E as ->].
    apply last_Some in E as [l' ->]. rewrite List.removelast_last, map_app. cbn. by rewrite last_snoc, List.removelast_last.
  - destruct l as [|x l]; [done|]. cbn. by rewrite map_app.
Qed.

Definition rotate (d : RotateWindowDirection) {A} (l : list A) : list A :=
  match d with RotateDown => rotate_right1 l | RotateUp => rotate_left1 l end.

Lemma rotate_perm d {A} (l : list A) : rotate d l ≡ₚ l.
Proof. destruct d; [apply rotate_left1_perm|apply rotate_right1_perm]. Qed.

Lemma rotate_fmap d {A B} (f : A -> B) l : map f (rotate d l) = rotate d (map f l).
Proof. destruct d; apply rotate_map. Qed.

(** The active slot stays, the last pane is the one that was active. *)
Lemma rotate_unzoomed_ok d w :
  order_ok w -> placed w -> zoomed w = false -> (2 <= count w)%nat ->
  exists w1, apply_layout_tree (with_panes (renumbered (rotate d (panes w))) w) = Some w1 /\
    order_ok (with_last_pane None w1) /\ placed w1 /\ ids w1 = rotate d (ids w) /\ same_zoom w w1 /\
    active_pane w1 = active_pane w /\ indexes_of w1 = map Z.of_nat (seq 0 (count w1)).
Proof.
  intros Ho (t & gs & T1 & T2 & T3 & T4 & T5) Hz H2. set (w0 := with_panes _ w).
  destruct (renumbered_views (rotate d (panes w))) as (V1 & V2 & V3). destruct (ok_count w Ho) as [_ Hn].
  assert (length (rotate d (panes w)) = count w) as Hlen by apply (Permutation_length (rotate_perm d (panes w))).
  assert (count w0 = count w) as Hc by (unfold count; cbn; by rewrite V3).
  assert (ids w0 = rotate d (ids w)) as Hids by (unfold ids; cbn; by rewrite V1, rotate_fmap).
  assert (indexes_of w0 = map Z.of_nat (seq 0 (count w0))) as Hx.
  { rewrite Hc, <- Hlen. apply renumbered_indexes. lia. }
  destruct (apply_layout_tree_ok w0 t) as (w1 & E & Hs & Hzm & Hp); [done|by rewrite Hc|done|].
  exists w1. pose proof (same_order_count _ _ Hs) as Hc1. destruct Hs as [S1 S2 S3 S4 S5].
  split_and!; try done; try congruence. destruct Ho as [O1 O2 O3 O4 O5 O6].
  assert (count w1 = count w) as Hcw by congruence.
  split; change (count (with_last_pane None w1)) with (count w1); rewrite ?Hcw; try done.
  - change (NoDup (ids w1)). rewrite S1, Hids, rotate_perm. done.
  - change (indexes_of w1 = map Z.of_nat (seq 0 (count w))). congruence.
  - change (next_pane_index w1 = Z.of_nat (count w)). by rewrite S3.
  - change (0 <= active_pane w1 < Z.of_nat (count w)). by rewrite S4.
Qed.

Lemma pop_zoom_ok w :
  order_ok w -> placed w -> zoomed w = false -> (2 <= count w)%nat ->
  window_ok (pop_zoom w) /\ ids (pop_zoom w) = ids w /\ zoomed (pop_zoom w) = zoom_restore_pending w /\
  active_pane (pop_zoom w) = active_pane w /\ last_pane (pop_zoom w) = last_pane w.
Proof.
  intros Ho Hp Hz H2. unfold pop_zoom. destruct (zoom_restore_pending w) eqn:Hr; [|split_and!; try done; by apply placed_window_ok].
  cbv zeta. cbn [panes with_zoom_restore_pending]. rewrite (proj2 (Nat.ltb_lt _ _)) by (unfold count in H2; lia).
  set (w1 := with_zoom_restore_pending false w). assert (order_ok w1) as Ho1 by (apply (same_order_ok w); [by split|done]).
  assert (same_order w (apply_zoom_geometry (with_zoomed true w1))) as Hs.
  { eapply same_order_trans; [|by apply update_pane_order]. by split. }
  split_and!; [by apply zoom_in_ok; [|apply (placed_same w)| |]|apply Hs| |apply Hs|apply Hs].
  unfold apply_zoom_geometry. match goal with |- context [update_pane ?i ?f ?u] => apply (update_pane_rest i f u) end.
Qed.

(** Recording the pane [a] as the last one. *)
Lemma relast_ok a w k :
  order_ok (with_last_pane None w) -> indexes_of w = map Z.of_nat (seq 0 (count w)) -> k = active_pane w ->
  let w1 := with_active_pane k w in
  let l := i ← Z.of_nat <$> id_position a (ids w1); if i =? active_pane w1 then None else Some i in
  order_ok (with_last_pane l w1) /\ l = last_for (Some a) (Z.to_nat k) (ids w).
Proof.
  intros Ho Hx -> w1 l. pose proof (ok_active _ Ho) as Ha. change (active_pane (with_last_pane None w)) with (active_pane w) in Ha.
  assert (l = last_for (Some a) (Z.to_nat (active_pane w)) (ids w)) as Hl.
  { unfold l, last_for. change (ids w1) with (ids w). change (active_pane w1) with (active_pane w). cbn [mbind option_bind].
    destruct (id_position a (ids w)) as [j|]; [|done]. cbn.
    destruct (Nat.eqb_spec j (Z.to_nat (active_pane w))), (Z.eqb_spec (Z.of_nat j) (active_pane w)); try done; lia. }
  split; [|done]. destruct Ho as [O1 O2 O3 O4 O5 O6]. split; try done. intros x. change (last_pane _) with l. unfold l.
  change (ids w1) with (ids w). destruct (id_position a (ids w)) as [j|] eqn:E; [|done]. cbn.
  apply id_position_Some, lookup_lt_Some in E. unfold ids in E. rewrite length_map in E.
  destruct (Z.eqb_spec (Z.of_nat j) (active_pane w)); [done|]. intros [=<-]. split; [|done]. change (count _) with (length (panes w)). lia.
Qed.

Lemma rotate_ok d restore now w :
  window_ok w ->
  exists w', rotate_panes_with_zoom d restore now w = Some w' /\ window_ok w' /\
    (if (count w <=? 1)%nat then w' = w
     else ids w' = rotate d (ids w) /\ active_pane w' = active_pane w /\ zoomed w' = (zoomed w && restore) /\
          last_id w' = (a ← active_id w; if decide (active_id w' = Some a) then None else Some a)).
Proof.
  intros Hok. pose proof Hok as [Ho Hl Hp]. unfold rotate_panes_with_zoom. change (length (panes w)) with (count w).
  destruct (Nat.leb_spec (count w) 1) as [|H2]; [by exists w|]. unfold push_zoom.
  destruct (unzoomed_ok w Hl) as (w1 & E & Hs & Hz & Hr & Hpl).
  assert ((if zoomed w then unzoomed w else Some w) = Some w1) as ->.
  { destruct (zoomed w) eqn:Hzw; [done|]. revert E. unfold unzoomed, auto_unzoom. by rewrite Hzw. }
  cbn [mbind option_bind]. set (b := zoomed w && restore). set (w2 := with_zoom_restore_pending b w1).
  assert (same_order w w2) as Hs2 by (destruct Hs; by split). pose proof (same_order_ok _ _ Hs2 Ho) as Ho2.
  change (pane_id <$> active w2) with (active_id w2). rewrite (active_id_same _ _ Ho Hs2).
  destruct (proj2 (active_id_lookup w Ho)) as [a Ha]. rewrite Ha. cbn [mbind option_bind].
  pose proof (ok_active w2 Ho2) as Hact. rewrite pane_position_ok by done.
  rewrite (proj2 (Z.leb_le _ _)), (proj2 (Z.ltb_lt _ _)) by lia. cbn [andb mbind option_bind].
  pose proof (same_order_count _ _ Hs2) as Hc2.
  change (match d with RotateUp => rotate_left1 (panes w2) | RotateDown => rotate_right1 (panes w2) end) with (rotate d (panes w2)).
  destruct (rotate_unzoomed_ok d w2) as (w3 & -> & Ho3 & Hp3 & Hi3 & [Z1 Z2] & Ha3 & Hx3); [done|by apply (placed_same w1)|done|lia|].
  cbn [mbind option_bind]. destruct (ok_count w2 Ho2) as [_ Hn].
  rewrite wrap_u32_count, Z2Nat.id by lia. set (w4 := with_active_pane (active_pane w2) w3).
  rewrite (pane_index_for_id_ok a w4 Hx3). set (l := (i ← _; _)). set (w5 := with_last_pane l w4).
  destruct (relast_ok a w3 (active_pane w2)) as [Ho5 Hl5]; try done.
  fold w4 in Ho5, Hl5. fold l in Ho5, Hl5. fold w5 in Ho5, Hl5.
  destruct (mark_pane_active_ok (active_pane w4) now w5 Ho5) as (M1 & M2 & M3 & M4); [by apply (placed_same w3)|].
  set (w6 := mark_pane_active (active_pane w4) now w5) in *. pose proof (same_order_ok _ _ M1 Ho5) as Ho6.
  assert (count w6 = count w) as Hc6.
  { rewrite (same_order_count _ _ M1). change (count w5) with (count w3). rewrite <- Hc2.
    rewrite !count_ids, Hi3. apply Permutation_length, rotate_perm. }
  destruct (pop_zoom_ok w6) as (P1 & P2 & P3 & P4 & P5); [done|done|rewrite M3; change (zoomed w3 = false); by rewrite Z1|lia|].
  eexists. split_and!; [done|done|..].
  - rewrite P2, (same_ids _ _ M1). change (ids w5) with (ids w3). by rewrite Hi3, (same_ids _ _ Hs2).
  - rewrite P4, (same_active _ _ M1). apply Hs2.
  - rewrite P3, M4. change (zoom_restore_pending w3 = b). by rewrite Z2.
  - set (w7 := pop_zoom w6) in *. pose proof (win_order _ P1) as Ho7.
    assert (ids w7 = ids w3) as Hi7 by (rewrite P2, (same_ids _ _ M1); done).
    assert (active_pane w7 = active_pane w2) as Ha7 by (rewrite P4, (same_active _ _ M1); done).
    destruct (active_id_lookup w7 Ho7) as [Hl7 [a7 Ha7']]. rewrite Ha7' in Hl7. rewrite Ha7'.
    rewrite (last_id_for (Some a) a7 (Z.to_nat (active_pane w7)) w7 Ho7); [|done|rewrite P5, (same_last _ _ M1), Hi7, Ha7; exact Hl5].
    cbn [mbind option_bind]. assert (a ∈ ids w7).
    { rewrite Hi7, Hi3, (same_ids _ _ Hs2), rotate_perm. eapply list_elem_of_lookup_2. by rewrite <- (proj1 (active_id_lookup w Ho)). }
    destruct (decide (a = a7)) as [->|Hne].
    + rewrite decide_False by (by intros []). by rewrite decide_True.
    + rewrite decide_True by done. by rewrite decide_False by congruence.
Qed.

(** ** Swapping *)

Lemma swap_positions_perm {A} i j (l : list A) : swap_positions i j l ≡ₚ l.
Proof.
  unfold swap_positions. destruct (l !! i) as [x|] eqn:Ei; [|done]. destruct (l !! j) as [y|] eqn:Ej; [|done].
  by apply (Permutation_insert_swap l j i y x).
Qed.

Lemma swap_positions_map {A B} (f : A -> B) i j l : map f (swap_positions i j l) = swap_positions i j (map f l).
Proof.
  unfold swap_positions. rewrite !list_lookup_fmap. destruct (l !! i) as [x|]; [|done]. destruct (l !! j) as [y|]; [|done].
  cbn. change (map f) with (fmap f : list A -> list B). by rewrite !list_fmap_insert.
Qed.

Lemma swap_ok source target w :
  window_ok w ->
  exists b w', swap_panes source target w = Some (b, w') /\ window_ok w' /\ b = in_window source w && in_window target w /\
    (if b && negb (source =? target) then
       ids w' = swap_positions (Z.to_nat source) (Z.to_nat target) (ids w) /\ zoomed w' = false
     else w' = w) /\
    active_id w' = active_id w /\ last_id w' = last_id w.
Proof.
  intros Hok. pose proof Hok as [Ho Hl Hp]. unfold swap_panes. rewrite !pane_position_ok by done.
  fold (in_window source w) (in_window target w).
  destruct (in_window source w) eqn:Es; [|by exists false, w]. destruct (in_window target w) eqn:Et; [|by exists false, w].
  apply andb_true_iff in Es as [Es1 Es2], Et as [Et1 Et2]. cbn [andb].
  destruct (Nat.eqb_spec (Z.to_nat source) (Z.to_nat target)) as [Heq|Hne].
  { exists true, w. split_and!; try done. by rewrite (proj2 (Z.eqb_eq _ _)) by lia. }
  destruct (unzoomed_ok w Hl) as (w1 & -> & Hs & Hz & Hr & Hpl). cbn [mbind option_bind].
  pose proof (same_order_ok _ _ Hs Ho) as Ho1. pose proof (same_order_count _ _ Hs) as Hc.
  change (pane_id <$> active w1) with (active_id w1). change (i ← last_pane w1; pane_id <$> pane i w1) with (last_id w1).
  rewrite (active_id_same _ _ Ho Hs), (last_id_same _ _ Ho Hs).
  destruct (active_id_lookup w Ho) as [Hal [a Ha]]. rewrite Ha. cbn [mbind option_bind].
  destruct Hpl as (t & gs & T1 & T2 & T3 & T4 & T5). set (w2 := with_panes _ w1).
  assert (ids w2 = swap_positions (Z.to_nat source) (Z.to_nat target) (ids w)) as Hi2.
  { unfold ids. cbn. rewrite swap_positions_map. f_equal. apply Hs. }
  assert (ids w2 ≡ₚ ids w) as Hperm by (rewrite Hi2; apply swap_positions_perm).
  assert (count w2 = count w) as Hc2 by (rewrite !count_ids; by apply Permutation_length).
  destruct (apply_layout_tree_ok w2 t) as (w3 & -> & Hs3 & [Z1 Z2] & Hp3); [done|by rewrite Hc2, <- Hc|done|]. cbn [mbind option_bind].
  pose proof (same_ids _ _ Hs3) as Hi3. destruct (ok_count w Ho).
  assert (exists k, ids w3 !! k = Some a) as [k Hk].
  { apply list_elem_of_lookup_1. rewrite Hi3, Hperm. eapply list_elem_of_lookup_2. by rewrite <- Hal. }
  destruct (renumber_placed a (last_id w) w3 k) as (w4 & -> & Hw & Hi4 & Ha4 & Hl4 & Hz4 & _); try done.
  { rewrite (same_order_count _ _ Hs3). lia. }
  { rewrite Hi3, Hperm. apply Ho. }
  { rewrite Z1. done. }
  { rewrite Z2. cbn. congruence. }
  cbn [mbind option_bind]. exists true, w4. pose proof (win_order _ Hw) as Ho4. rewrite <- Hi4 in Hk, Hl4.
  rewrite (proj2 (Z.eqb_neq source target)) by (intros ->; done). cbn [negb andb]. split_and!; try done; try congruence.
  - rewrite (proj1 (active_id_lookup w4 Ho4)), Ha4, Nat2Z.id. done.
  - rewrite (last_id_for _ a k w4 Ho4 Hk Hl4). destruct (last_id w) as [l|] eqn:El; [|done]. cbn.
    destruct (last_id_facts w l Ho El) as [L1 L2]. rewrite decide_True; [done|]. rewrite Hi4, Hi3, Hperm. split; congruence.
Qed.

(** ** Layouts *)

Lemma cycle_total l : is_Some (next_cycle_layout l) /\ is_Some (previous_cycle_layout l).
Proof. destruct l as [[]|]; by vm_compute; split; eexists. Qed.

Lemma next_layout_ok mw mh w :
  window_ok w -> exists n w', next_layout mw mh w = Some (n, w') /\ window_ok w' /\ same_order w w'.
Proof.
  intros Hok. unfold next_layout. destruct (proj1 (cycle_total (last_layout w))) as [n ->].
  destruct (set_layout_ok n mw mh w Hok) as (w' & E & H). cbn [mbind option_bind]. rewrite E. eauto.
Qed.

Lemma previous_layout_ok mw mh w :
  window_ok w -> exists n w', previous_layout mw mh w = Some (n, w') /\ window_ok w' /\ same_order w w'.
Proof.
  intros Hok. unfold previous_layout. destruct (proj2 (cycle_total (last_layout w))) as [n ->].
  destruct (set_layout_ok n mw mh w Hok) as (w' & E & H). cbn [mbind option_bind]. rewrite E. eauto.
Qed.

(** The three operations that do not unzoom keep the strict invariant of a
    window that is not zoomed, and the one for stale zooms of every window. *)
Lemma apply_custom_layout_ok text w :
  window_ok w -> (stale = false -> zoomed w = false) ->
  exists r w', apply_custom_layout text w = Some (r, w') /\ window_ok w' /\ same_order w w' /\ zoomed w' = zoomed w /\
    (forall e, r = Err e -> w' = w).
Proof.
  intros [Ho Hl Hp] Hz. unfold apply_custom_layout. destruct (panes w) as [|p l] eqn:E; [by exists (Err (Server "invalid layout")), w|].
  rewrite <- E. destruct (tree_parse text (length (panes w))) as [t|e] eqn:Et; [|eexists _, w; split_and!; done].
  apply tree_parse_fits in Et. set (w1 := with_custom_layout _ _).
  destruct (apply_layout_tree_ok w1 t) as (w' & -> & Hs & [Z1 Z2] & Hpl); [done|done|done|].
  assert (same_order w w') as Hs' by (eapply same_order_trans; [|exact Hs]; by split).
  exists (Ok tt), w'. cbn [mbind option_bind]. split_and!; [done| |done|by rewrite Z1|done].
  split; [by eapply same_order_ok| |by rewrite Z2]. apply placed_shown; [done|]. rewrite Z1, (same_order_count _ _ Hs').
  intros Hzm. split; [|by apply Hl]. destruct stale; [done|]. change (zoomed w = true) in Hzm. rewrite Hz in Hzm; done.
Qed.

Lemma window_ok_old_layout o w : window_ok w -> window_ok (with_old_layout o w).
Proof. intros [Ho Hl Hp]. split; [apply (same_order_ok w); [by split|done]|by apply (layout_ok_same w)|done]. Qed.

Lemma reapply_old_layout_ok w :
  window_ok w -> (stale = false -> zoomed w = false) ->
  exists r w', reapply_old_layout w = Some (r, w') /\ window_ok w' /\ same_order w w' /\ zoomed w' = zoomed w.
Proof.
  intros Hok Hz. unfold reapply_old_layout. cbv zeta. set (w1 := with_old_layout _ w).
  assert (window_ok w1) as Hok1 by (by apply window_ok_old_layout).
  destruct (old_layout w) as [text|]; [|by exists (Ok false), w1].
  destruct (apply_custom_layout_ok text w1 Hok1 Hz) as (r & w' & -> & Hw & Hs & Hz' & _). cbn [mbind option_bind].
  eexists _, w'. split_and!; [done|done| |done]. eapply same_order_trans; [|exact Hs]. by split.
Qed.

Lemma spread_layout_ok i w :
  window_ok w -> (stale = false -> zoomed w = false) ->
  exists b w', spread_layout i w = Some (b, w') /\ window_ok w' /\ same_order w w' /\ zoomed w' = zoomed w.
Proof.
  intros Hok Hz. unfold spread_layout. destruct (pane_position i w) as [pos|]; [|exists false, w; by split_and!].
  exact (change_tree_shown (fun t => spread_from_leaf t pos) id w (tame_spread pos) harmless_id Hok Hz).
Qed.

(** ** Creation *)

Lemma single_window_ok w p :
  panes w = [p] -> pane_index p = 0 -> next_pane_index w = 1 -> active_pane w = 0 -> last_pane w = None ->
  order_ok w.
Proof.
  intros E Hi Hn Ha Hl. split; unfold count, ids, indexes_of; rewrite ?E, ?Hn, ?Ha, ?Hl; cbn; try done.
  - repeat constructor. intros H; inversion H.
  - by rewrite Hi.
Qed.

Lemma window_new_ok size id wid now :
  exists w, window_new_with_initial_pane size id wid now = Some w /\ window_ok w /\ ids w = [id] /\ zoomed w = false.
Proof.
  unfold window_new_with_initial_pane. set (w0 := mkWindow _ _ _ _ _ _ _ _ _ _ _ _ _ _ _ _ _ _ _ _ _).
  assert (order_ok w0) as Ho by (by eapply single_window_ok).
  destruct (recalculate_ok w0 (single size) eq_refl (single_fits _)) as (w & E & Hs & [Z1 Z2] & Hp).
  exists w. split_and!; [done| |by rewrite (same_ids _ _ Hs)|done]. by apply placed_window_ok; [eapply same_order_ok|..].
Qed.

Lemma window_size_bounds w : window_ok w -> cols (win_size w) <= u16_max /\ rows (win_size w) <= u16_max.
Proof. intros [_ [(t & gs & _ & _ & -> & _) _] _]. unfold tree_size. cbn. lia. Qed.

Lemma respawn_ok id now w :
  window_ok w -> window_ok (respawn id now w) /\ ids (respawn id now w) = [id] /\ zoomed (respawn id now w) = false.
Proof.
  intros Hok. destruct (window_size_bounds w Hok) as [B1 B2].
  split_and!; [|done|done]. apply placed_window_ok; [by eapply single_window_ok| |done|done].
  assert (forall z, z <= u16_max -> Z.min z u16_max = z) as Hmin by (intros; lia).
  exists (single (win_size w)), [full_geometry (win_size w)]. unfold placement, tree_size, full_geometry, geometry_to_pane.
  split_and!; try done; cbn; unfold geometry_to_pane; cbn; rewrite ?Hmin by done; by destruct (win_size w).
Qed.

End Kept.
