(* ===== verification/WindowMove.v ===== *)
(** * Moving panes between positions and windows

    The rest of [crates/rmux-core/src/window.rs], [window/panes.rs],
    [window/zoom.rs] and [window/activity.rs]: panes that arrive from another
    window ([insert_pane_at_position], [insert_pane_full_size],
    [replace_pane_for_swap]) or move within one
    ([move_pane_by_splitting_target]), the directional selection, names, alerts
    and activity.  A panic is [None] and an error a value of [result]. *)

From S2P Require Import Prelude Panes Text Errors LayoutCell LayoutTree LayoutNamed LayoutText.
From S2P Require Import LayoutAdjust LayoutOffsets LayoutPaths LayoutSplit LayoutRemove LayoutShape Window WindowInv WindowOps.

(** ** Names and alerts *)

Definition WINDOW_BELL : Z := 1.
Definition WINDOW_ACTIVITY : Z := 2.
Definition WINDOW_SILENCE : Z := 4.
Definition WINDOW_ALERTFLAGS : Z := Z.lor WINDOW_BELL (Z.lor WINDOW_ACTIVITY WINDOW_SILENCE).

Definition flags_contains (self other : Z) : bool := Z.land self other =? other.
Definition flags_intersects (self other : Z) : bool := negb (Z.land self other =? 0).

Definition queue_alerts (flags : Z) (w : Window) : Window := with_alert_flags (Z.lor (alert_flags w) flags) w.

Definition take_alert_flags (w : Window) : Z * Window := (alert_flags w, with_alert_flags 0 w).

(** [self.0 &= !other.0] on the eight bits of the set. *)
Definition clear_alert_flags (flags : Z) (w : Window) : Window :=
  with_alert_flags (Z.land (alert_flags w) (Z.lxor 255 flags)) w.

Definition set_name (name : string) (w : Window) : Window := with_automatic_rename false (with_win_name (Some name) w).

Definition set_automatic_name (name : string) (w : Window) : Window :=
  with_automatic_rename true (with_win_name (Some name) w).

(** ** Activity *)

Record WindowPaneActivity := mkWindowPaneActivity {
  snapshot_pane : Z;
  snapshot_window_activity : Z;
  snapshot_pane_activity : Z;
}.

Definition touch_activity_for_pane (i now : Z) (w : Window) : bool * Window :=
  match pane_position i w with
  | None => (false, w)
  | Some k => (true, with_panes (alter (set_activity_at now) k (panes w)) (with_win_activity now w))
  end.

Definition pane_activity_snapshot (id : Z) (w : Window) : option WindowPaneActivity :=
  p ← List.find (fun p => pane_id p =? id) (panes w);
  Some (mkWindowPaneActivity id (win_activity w) (activity_at p)).

Definition apply_pane_activity_snapshot (a : WindowPaneActivity) (w : Window) : bool * Window :=
  match position (fun p => pane_id p =? snapshot_pane a) (panes w) with
  | None => (false, w)
  | Some k =>
      (true, with_panes (alter (set_activity_at (snapshot_pane_activity a)) k (panes w))
               (with_win_activity (snapshot_window_activity a) w))
  end.

(** ** Directional selection *)

Inductive SelectPaneDirection := SelectUp | SelectDown | SelectLeft | SelectRight.

Definition tmux_axis_overlap (source_start source_size candidate_start candidate_size : Z) : bool :=
  let source_end := source_start + source_size in
  let candidate_end := candidate_start + sat_sub candidate_size 1 in
  ((candidate_start <? source_start) && (source_end <? candidate_end))
  || ((source_start <=? candidate_start) && (candidate_start <=? source_end))
  || ((source_start <=? candidate_end) && (candidate_end <=? source_end)).

(** [adjacent_pane_score(...).is_some()]: the only use of the score. *)
Definition adjacent_pane (source candidate : PaneGeometry) (d : SelectPaneDirection) (size : TerminalSize) : bool :=
  match d with
  | SelectRight =>
      let edge := pane_x source + pane_cols source + 1 in
      let edge := if cols size <=? edge then 0 else edge in
      (pane_x candidate =? edge) && tmux_axis_overlap (pane_y source) (pane_rows source) (pane_y candidate) (pane_rows candidate)
  | SelectLeft =>
      let edge := pane_x source in
      let edge := if edge =? 0 then cols size + 1 else edge in
      (pane_x candidate + pane_cols candidate + 1 =? edge)
      && tmux_axis_overlap (pane_y source) (pane_rows source) (pane_y candidate) (pane_rows candidate)
  | SelectDown =>
      let edge := pane_y source + pane_rows source + 1 in
      let edge := if rows size <=? edge then 0 else edge in
      (pane_y candidate =? edge) && tmux_axis_overlap (pane_x source) (pane_cols source) (pane_x candidate) (pane_cols candidate)
  | SelectUp =>
      let edge := pane_y source in
      let edge := if edge =? 0 then rows size + 1 else edge in
      (pane_y candidate + pane_rows candidate + 1 =? edge)
      && tmux_axis_overlap (pane_x source) (pane_cols source) (pane_x candidate) (pane_cols candidate)
  end.

(** The loop of [select_adjacent_pane]: the most recently active candidate. *)
Fixpoint best_adjacent (source : PaneGeometry) (d : SelectPaneDirection) (size : TerminalSize) (i : Z)
    (l : list PaneState) (candidate : option (Z * Z)) : option (Z * Z) :=
  match l with
  | [] => candidate
  | p :: rest =>
      let candidate :=
        if pane_index p =? i then candidate
        else if negb (adjacent_pane source (pane_geometry p) d size) then candidate
        else
          match candidate with
          | Some (best, _) => if active_point p <=? best then candidate else Some (active_point p, pane_index p)
          | None => Some (active_point p, pane_index p)
          end in
      best_adjacent source d size i rest candidate
  end.

Definition select_adjacent_pane (i : Z) (d : SelectPaneDirection) (now : Z) (w : Window) : option (option Z * Window) :=
  match pane i w with
  | None => Some (None, w)
  | Some p =>
      match best_adjacent (pane_geometry p) d (win_size w) i (panes w) None with
      | Some (_, c) => '(_, w) ← select_pane c now w; Some (Some c, w)
      | None => Some (Some (active_pane w), w)
      end
  end.

(** ** What a client sees of a zoomed window *)

Definition visible_layout_dump (w : Window) : text :=
  if negb (zoomed w) then layout_dump w
  else match active w with Some p => dump (single (win_size w)) [p] | None => [] end.

(** ** Accepting a pane *)

Definition can_split_pane (i : Z) (d : SplitDirection) (w : Window) : bool :=
  match pane i w with
  | None => false
  | Some p =>
      minimum_axis_size_for_panes 2
      <=? match d with Vertical => pane_cols (pane_geometry p) | Horizontal => pane_rows (pane_geometry p) end
  end.

Definition window_name (w : Window) : text := text_of "@" ++ dec (win_id w).

Definition duplicate_pane_id (id : Z) (w : Window) : RmuxError :=
  Server (string_of (text_of "pane id " ++ dec id ++ text_of " already exists in window " ++ window_name w)).

Definition duplicate_pane_index (i : Z) (w : Window) : RmuxError :=
  Server (string_of (text_of "pane index " ++ dec i ++ text_of " already exists in window " ++ window_name w)).

Fixpoint accepts_loop (p : PaneState) (ignored : option nat) (k : nat) (l : list PaneState) (w : Window)
  : result unit RmuxError :=
  match l with
  | [] => Ok tt
  | existing :: rest =>
      if decide (Some k = ignored) then accepts_loop p ignored (S k) rest w
      else if pane_id existing =? pane_id p then Err (duplicate_pane_id (pane_id p) w)
      else if pane_index existing =? pane_index p then Err (duplicate_pane_index (pane_index p) w)
      else accepts_loop p ignored (S k) rest w
  end.

Definition ensure_accepts_pane (p : PaneState) (ignored : option nat) (w : Window) : result unit RmuxError :=
  accepts_loop p ignored 0 (panes w) w.

Definition bump_next_pane_index (i : Z) (w : Window) : Window :=
  with_next_pane_index (Z.max (next_pane_index w) (u32_sat_add i 1)) w.

Definition next_generated_pane_id (w : Window) : Z :=
  match panes w with
  | [] => 0
  | p :: rest => u32_sat_add (fold_left Z.max (map pane_id rest) (pane_id p)) 1
  end.

(** ** Inserting, moving and replacing *)

Definition insert_out_of_range (pos : nat) (w : Window) : RmuxError :=
  Server (string_of (text_of "cannot insert pane at position " ++ dec (Z.of_nat pos) ++ text_of " in a " ++
    dec (Z.of_nat (length (panes w))) ++ text_of "-pane window")).

Definition insert_pane_at_position (pos : nat) (p : PaneState) (d : SplitDirection) (w : Window)
  : option (result unit RmuxError * Window) :=
  if (length (panes w) <? pos)%nat then Some (Err (insert_out_of_range pos w), w)
  else
    match ensure_accepts_pane p None w with
    | Err e => Some (Err e, w)
    | Ok _ =>
        w ← unzoomed w;
        let w := bump_next_pane_index (pane_index p) (with_layout (layout_for_split d) w) in
        l ← vec_insert_checked pos p (panes w);
        let w := with_panes l w in
        if (length (panes w) =? 1)%nat then
          let w := with_last_pane None (with_active_pane (pane_index p) w) in
          w ← apply_layout_tree (with_layout_tree (Some (single (win_size w))) w);
          Some (Ok tt, w)
        else
          let '(target, before) := match pos with 0%nat => (0%nat, true) | S k => (k, false) end in
          w ← match layout_tree w with
              | Some t => relayout (split_leaf t target (from_split_direction d) before) w
              | None => rebuild_named_layout_tree (layout w) w
              end;
          Some (Ok tt, w)
    end.

Definition insert_pane_full_size (p : PaneState) (d : SplitDirection) (before : bool) (w : Window)
  : option (result unit RmuxError * Window) :=
  match ensure_accepts_pane p None w with
  | Err e => Some (Err e, w)
  | Ok _ =>
      w ← unzoomed w;
      let w := bump_next_pane_index (pane_index p) (with_layout (layout_for_split d) w) in
      let w := with_panes (if before then p :: panes w else panes w ++ [p]) w in
      w ← match layout_tree w with
          | Some t => relayout (split_root t (from_split_direction d) before) w
          | None => rebuild_named_layout_tree (layout w) w
          end;
      Some (Ok tt, w)
  end.

Definition move_missing (pos : nat) : RmuxError :=
  Server (string_of (text_of "cannot move missing pane at position " ++ dec (Z.of_nat pos))).

Definition split_missing (pos : nat) : RmuxError :=
  Server (string_of (text_of "cannot split missing target pane at position " ++ dec (Z.of_nat pos))).

Definition move_out_of_range (pos n : nat) : RmuxError :=
  Server (string_of (text_of "cannot insert moved pane at position " ++ dec (Z.of_nat pos) ++ text_of " in a " ++
    dec (Z.of_nat n) ++ text_of "-pane window")).

Definition no_layout_tree : RmuxError := Server "cannot move pane without a layout tree".

Definition cannot_split_target (pos : nat) : RmuxError :=
  Server (string_of (text_of "cannot split target pane at position " ++ dec (Z.of_nat pos))).

Definition cannot_remove_source (pos : nat) : RmuxError :=
  Server (string_of (text_of "cannot remove source pane leaf at position " ++ dec (Z.of_nat pos))).

Definition move_pane_by_splitting_target (source target final : nat) (d : SplitDirection) (before : bool) (w : Window)
  : option (result Z RmuxError * Window) :=
  let n := length (panes w) in
  if negb (source <? n)%nat then Some (Err (move_missing source), w)
  else if negb (target <? n)%nat then Some (Err (split_missing target), w)
  else if (n - 1 <? final)%nat then Some (Err (move_out_of_range final (n - 1)), w)
  else
    w ← unzoomed w;
    let w := with_layout (layout_for_split d) w in
    let split_insert := if before then target else S target in
    let source_leaf := if (split_insert <=? source)%nat then S source else source in
    match layout_tree w with
    | None => Some (Err no_layout_tree, w)
    | Some t =>
        let '(ok, t) := split_leaf t target (from_split_direction d) before in
        let w := with_layout_tree (Some t) w in
        if negb ok then Some (Err (cannot_split_target target), w)
        else
          let '(ok, t) := remove_leaf t source_leaf in
          let w := with_layout_tree (Some t) w in
          if negb ok then Some (Err (cannot_remove_source source_leaf), w)
          else
            moved ← panes w !! source;
            l ← vec_insert_checked final moved (delete source (panes w));
            w ← apply_layout_tree (with_panes l w);
            Some (Ok (pane_id moved), w)
    end.

Definition replace_missing (i : Z) (w : Window) : RmuxError :=
  Server (string_of (text_of "cannot replace missing pane index " ++ dec i ++ text_of " in window " ++ window_name w)).

Definition replace_pane_for_swap (i : Z) (p : PaneState) (w : Window) : option (result unit RmuxError * Window) :=
  match pane_position i w with
  | None => Some (Err (replace_missing i w), w)
  | Some pos =>
      if existsb (fun q => pane_id q =? pane_id p) (delete pos (panes w)) then Some (Err (duplicate_pane_id (pane_id p) w), w)
      else
        w ← apply_layout_tree (with_panes (<[pos := p]> (panes w)) (bump_next_pane_index (pane_index p) w));
        Some (Ok tt, w)
  end.

Definition renumber_panes_by_position_stamping (active_id : Z) (last_id previous_active : option Z) (now : Z) (w : Window)
  : option Window :=
  w ← renumber_panes_by_position active_id last_id w;
  Some (if decide (previous_active = Some active_id) then w else mark_pane_active (active_pane w) now w).

(** ** Moving keeps the layout *)

Lemma remove_leaf_succeeds n t i :
  tree_fits (S n) t -> (1 <= n)%nat -> (i <= n)%nat -> exists t', remove_leaf t i = (true, t') /\ tree_fits n t'.
Proof.
  intros Hf H1 Hi. pose proof (remove_leaf_fits n t i Hf) as Hr. pose proof (fits_leaves _ _ Hf) as HL.
  unfold tree_leaf_count in HL. rewrite <- length_leaves in HL.
  destruct (lookup_lt_is_Some_2 (leaves (root t)) i) as [g Hg]; [lia|].
  destruct (leaf_has_path t i g Hg) as [p Hp]. destruct (leaf_path_spec t i p Hp) as (g' & Hc & _ & _).
  revert Hr. unfold remove_leaf. rewrite Hp. pose proof (pop_path p) as Hpop. destruct (last p) as [k|] eqn:Hlast.
  - rewrite Hpop in Hc. destruct (cell_at_path_snoc _ _ _ _ Hc) as (gp & d & cs & Hpp & Hk). rewrite Hpp. cbn [kind]. rewrite Hk. eauto.
  - apply last_None in Hlast as ->. cbn in Hc. injection Hc as Hc. rewrite Hc in HL. cbn in HL. lia.
Qed.

Section Kept.
Context {stale : bool}.
Local Notation window_ok := (window_ok_at stale).

(** A window whose panes are in a new order and placed: renumbering it gives a
    window that satisfies the invariant again. *)
Definition renumberable (w : Window) : Prop :=
  forall a last_id, a ∈ ids w ->
    exists w', renumber_panes_by_position a last_id w = Some w' /\ window_ok w' /\ ids w' = ids w /\ active_id w' = Some a.

Lemma renumberable_ok w :
  Z.of_nat (count w) <= u16_max -> NoDup (ids w) -> placed w -> zoomed w = false -> zoom_restore_pending w = false ->
  renumberable w.
Proof.
  intros H1 H2 Hp Hz Hr a last_id Ha. apply list_elem_of_lookup_1 in Ha as [k Hk].
  destruct (renumber_placed (stale := stale) a last_id w k) as (w' & E & Hw & Hi & Ha' & _); try done.
  exists w'. split_and!; try done. by rewrite (proj1 (active_id_lookup w' (win_order _ Hw))), Ha', Nat2Z.id, Hi.
Qed.

Definition moved_ids (source final : nat) (id : Z) (l : list Z) : list Z :=
  take final (delete source l) ++ id :: drop final (delete source l).

Lemma moved_ids_perm source final id l : l !! source = Some id -> moved_ids source final id l ≡ₚ l.
Proof. intros H. unfold moved_ids. rewrite insert_perm. symmetry. by apply delete_Permutation. Qed.

(** The tree after a move: one leaf more, then one less. *)
Lemma move_tree_ok n t source target d before :
  tree_fits n t -> (source < n)%nat -> (1 <= n)%nat ->
  let leaf := if ((if before : bool then target else S target) <=? source)%nat then S source else source in
  match split_leaf t target d before with
  | (false, t1) => t1 = t
  | (true, t1) => exists t2, remove_leaf t1 leaf = (true, t2) /\ tree_fits n t2 /\ tree_size t2 = tree_size t
  end.
Proof.
  intros Hf Hs H1 leaf. pose proof (split_leaf_fits n t target d before Hf) as Hsp.
  pose proof (tree_size_dims _ _ (split_leaf_dims t target d before)) as Hd.
  destruct (split_leaf t target d before) as [[] t1]; [|done]. cbn [snd] in Hd.
  destruct (remove_leaf_succeeds n t1 leaf Hsp H1) as (t2 & E & Hf2); [unfold leaf; destruct (_ <=? _)%nat; lia|].
  exists t2. split_and!; [done|done|]. pose proof (tree_size_dims _ _ (remove_leaf_dims t1 leaf)) as Hd2. rewrite E in Hd2.
  cbn [snd] in Hd2. congruence.
Qed.

Lemma move_pane_ok source target final d before w :
  window_ok w -> (source < count w)%nat -> (target < count w)%nat -> (final < count w)%nat ->
  exists r w', move_pane_by_splitting_target source target final d before w = Some (r, w') /\
    match r with
    | Err e => e = cannot_split_target target /\ window_ok w' /\ same_order w w'
    | Ok id => ids w !! source = Some id /\ ids w' = moved_ids source final id (ids w) /\ zoomed w' = false /\ renumberable w'
    end.
Proof.
  intros [Ho Hl Hp] Hs Ht Hfin. unfold move_pane_by_splitting_target. change (length (panes w)) with (count w).
  rewrite !(proj2 (Nat.ltb_lt _ _)) by done. rewrite (proj2 (Nat.ltb_ge _ _)) by lia. cbn [negb].
  destruct (unzoomed_ok w Hl) as (w1 & -> & Hs1 & Hz & Hr & (t & gs & T1 & T2 & T3 & T4 & T5)). cbn [mbind option_bind]. cbv zeta.
  pose proof (same_order_count _ _ Hs1) as Hc. cbn [layout_tree with_layout]. rewrite T1. rewrite Hc in T2.
  pose proof (move_tree_ok (count w) t source target (from_split_direction d) before T2 Hs ltac:(lia)) as Hm. cbv zeta in Hm.
  destruct (split_leaf t target _ before) as [[] t1]; cbn [negb].
  2: { subst t1. eexists _, _. split; [done|]. cbn beta iota. split_and!; [done| |destruct Hs1; by split].
       apply placed_window_ok; [apply (same_order_ok w); [destruct Hs1; by split|done]| |done|cbn; congruence].
       apply (placed_same w1); [by cbn|done|done|]. exists t, gs. split_and!; try done. by rewrite Hc. }
  destruct Hm as (t2 & -> & Hf2 & Hsz). cbn [negb panes with_layout_tree with_layout].
  destruct (lookup_lt_is_Some_2 (panes w1) source) as [p Hpp]; [change (source < count w1)%nat; lia|]. rewrite Hpp. cbn [mbind option_bind].
  assert (length (delete source (panes w1)) = (count w - 1)%nat) as Hdl.
  { rewrite length_delete by (by eexists). change (length (panes w1)) with (count w1). lia. }
  unfold vec_insert_checked. rewrite (proj2 (Nat.leb_le _ _)) by lia. cbn [mbind option_bind].
  set (w2 := with_panes _ _). assert (ids w !! source = Some (pane_id p)) as Hid.
  { rewrite <- (same_ids _ _ Hs1). unfold ids. by rewrite list_lookup_fmap, Hpp. }
  assert (ids w2 = moved_ids source final (pane_id p) (ids w)) as Hi2.
  { rewrite <- (same_ids _ _ Hs1). unfold ids, moved_ids. cbn [panes w2 with_panes].
    change (map pane_id) with (fmap pane_id : list PaneState -> list Z).
    rewrite fmap_app, fmap_cons, !fmap_take, !fmap_drop. by rewrite !list_fmap_delete. }
  pose proof (moved_ids_perm source final _ _ Hid) as Hperm. rewrite <- Hi2 in Hperm.
  assert (count w2 = count w) as Hc2 by (rewrite !count_ids; by apply Permutation_length).
  destruct (apply_layout_tree_ok w2 t2) as (w3 & -> & Hs3 & [Z1 Z2] & Hp3); [done|by rewrite Hc2|cbn; congruence|].
  cbn [mbind option_bind]. exists (Ok (pane_id p)), w3. pose proof (same_ids _ _ Hs3) as Hi3.
  split_and!; [done|done|congruence|by rewrite Z1|]. apply renumberable_ok.
  - rewrite (same_order_count _ _ Hs3), Hc2. apply Ho.
  - rewrite Hi3, Hperm. apply Ho.
  - done.
  - by rewrite Z1.
  - rewrite Z2. cbn. congruence.
Qed.

(** ** Panes that arrive *)

Lemma accepts_loop_spec p k l w :
  accepts_loop p None k l w = Ok tt <-> pane_id p ∉ map pane_id l /\ pane_index p ∉ map pane_index l.
Proof.
  revert k. induction l as [|q l IH]; intros k; cbn [accepts_loop map].
  - split; [intros _; split; intros H; inversion H|done].
  - rewrite decide_False by done. rewrite !not_elem_of_cons.
    destruct (Z.eqb_spec (pane_id q) (pane_id p)) as [E|E]; [split; [done|intros [[] _]; congruence]|].
    destruct (Z.eqb_spec (pane_index q) (pane_index p)) as [E2|E2]; [split; [done|intros [_ []]; congruence]|].
    rewrite IH. naive_solver.
Qed.

(** A tree operation that adds a leaf or leaves the tree as it was. *)
Definition adds_leaf (f : LayoutTree -> bool * LayoutTree) : Prop :=
  forall n t, tree_fits n t -> let '(ok, t') := f t in (if ok : bool then tree_fits (S n) t' else t' = t) /\ tree_size t' = tree_size t.

Lemma adds_leaf_split k d before : adds_leaf (fun t => split_leaf t k d before).
Proof.
  intros n t Hf. pose proof (split_leaf_fits n t k d before Hf) as H.
  pose proof (tree_size_dims _ _ (split_leaf_dims t k d before)) as Hd. destruct (split_leaf t k d before) as [[] t']; done.
Qed.

Lemma adds_leaf_root d before : adds_leaf (fun t => split_root t d before).
Proof.
  intros n t Hf. unfold split_root. cbv zeta. destruct (_ <? _); [done|].
  set (existing := resize_adjust d _ (root t)). assert (leaf_count existing = n) as He.
  { rewrite <- (fits_leaves _ _ Hf). unfold tree_leaf_count. apply erase_eq_leaf_count, resize_adjust_fuel_erase. }
  match goal with |- context [match d with LeftRight => ?a | TopBottom => ?b end] =>
    destruct (match d with LeftRight => a | TopBottom => b end) as [ng off] end.
  split; [|by destruct before]. split; [|done]. unfold tree_leaf_count. cbn [root]. rewrite fix_offsets_leaf_count.
  destruct before; cbn; rewrite fix_offsets_leaf_count, He; lia.
Qed.

Lemma grow_tree_ok f w w1 :
  adds_leaf f -> placed w -> Z.of_nat (S (count w)) <= u16_max -> count w1 = S (count w) ->
  layout_tree w1 = layout_tree w -> win_size w1 = win_size w ->
  places w1 (match layout_tree w1 with Some t => relayout (f t) w1 | None => rebuild_named_layout_tree (layout w1) w1 end).
Proof.
  intros Hf (t & gs & T1 & T2 & T3 & T4 & T5) Hn Hc Ht Hs. rewrite Ht, T1. specialize (Hf _ _ T2).
  apply relayout_ok; [lia|by rewrite Hc|]. destruct (f t) as [[] t']; [|done]. destruct Hf as [Hf Hd]. rewrite Hc. split; [done|]. congruence.
Qed.

(** A pane arrives: what both insertions establish. *)
Record arrived (p : PaneState) (l : list Z) (w' : Window) : Prop := {
  arrived_ids : ids w' = l;
  arrived_zoom : zoomed w' = false;
  arrived_ok : renumberable w';
}.

Lemma arrive_ok f p l w w1 :
  adds_leaf f -> window_ok w -> pane_id p ∉ ids w -> Z.of_nat (S (count w)) <= u16_max ->
  unzoomed w = Some w1 -> map pane_id l ≡ₚ pane_id p :: ids w -> forall w2,
  panes w2 = l -> layout_tree w2 = layout_tree w1 -> win_size w2 = win_size w1 -> same_zoom w1 w2 ->
  exists w', match layout_tree w2 with Some t => relayout (f t) w2 | None => rebuild_named_layout_tree (layout w2) w2 end = Some w' /\
    arrived p (map pane_id l) w'.
Proof.
  intros Hf [Ho Hl Hp] Hid Hn Hu Hperm w2 E1 E2 E3 [E4 E5].
  destruct (unzoomed_ok w Hl) as (w1' & Hu' & Hs & Hz & Hr & Hpl). rewrite Hu in Hu'. injection Hu' as <-.
  pose proof (same_order_count _ _ Hs) as Hc. assert (ids w2 = map pane_id l) as Hi2 by (unfold ids; by rewrite E1).
  assert (count w2 = S (count w1)) as Hc2.
  { rewrite !count_ids, Hi2, (Permutation_length Hperm), (same_ids _ _ Hs). done. }
  destruct (grow_tree_ok f w1 w2 Hf Hpl) as (w' & E & Hs' & [Z1 Z2] & Hp'); try done; [by rewrite Hc|].
  exists w'. split; [done|]. pose proof (same_ids _ _ Hs') as Hi'. split; [congruence|congruence|]. apply renumberable_ok; try congruence.
  - rewrite (same_order_count _ _ Hs'), Hc2, Hc. done.
  - rewrite Hi', Hi2, Hperm. constructor; [done|apply Ho].
Qed.

Lemma insert_at_position_ok pos p d w :
  window_ok w -> Z.of_nat (S (count w)) <= u16_max ->
  exists r w', insert_pane_at_position pos p d w = Some (r, w') /\
    if ((pos <=? count w)%nat && bool_decide (pane_id p ∉ ids w /\ pane_index p ∉ indexes_of w)) then
      r = Ok tt /\ arrived p (take pos (ids w) ++ pane_id p :: drop pos (ids w)) w'
    else (exists e, r = Err e) /\ w' = w.
Proof.
  intros Hok Hn. unfold insert_pane_at_position. change (length (panes w)) with (count w).
  destruct (Nat.ltb_spec (count w) pos) as [Hlt|Hle].
  { rewrite (proj2 (Nat.leb_gt _ _)) by done. eexists _, w. split; [done|]. split; [by eexists|done]. }
  rewrite (proj2 (Nat.leb_le _ _)) by done. cbn [andb]. unfold ensure_accepts_pane.
  pose proof (accepts_loop_spec p 0 (panes w) w) as Ha. change (map pane_id (panes w)) with (ids w) in Ha.
  change (map pane_index (panes w)) with (indexes_of w) in Ha. destruct (accepts_loop p None 0 (panes w) w) as [[]|e].
  2: { rewrite bool_decide_eq_false_2 by (intros H; by apply Ha in H). eexists _, w. split; [done|]. split; [by eexists|done]. }
  destruct (proj1 Ha eq_refl) as [Hid Hix]. rewrite bool_decide_eq_true_2 by done.
  destruct (unzoomed_ok w (win_layout _ Hok)) as (w1 & Hu & Hs & Hz & Hr & Hpl). rewrite Hu. cbn [mbind option_bind]. cbv zeta.
  pose proof (same_order_count _ _ Hs) as Hc. unfold vec_insert_checked. cbn [panes bump_next_pane_index with_next_pane_index with_layout].
  rewrite (proj2 (Nat.leb_le _ _)) by (change (length (panes w1)) with (count w1); lia). cbn [mbind option_bind].
  set (l := take pos (panes w1) ++ p :: drop pos (panes w1)). set (w2 := with_panes l _).
  assert (map pane_id l = take pos (ids w) ++ pane_id p :: drop pos (ids w)) as Hl.
  { rewrite <- (same_ids _ _ Hs). unfold l, ids. by rewrite map_app, firstn_map, skipn_map. }
  assert (length (panes w2) = S (count w)) as Hl2.
  { change (panes w2) with l. rewrite <- (length_map pane_id l), Hl, (Permutation_length (insert_perm pos _ _)). cbn. by rewrite count_ids. }
  destruct (ok_count w (win_order _ Hok)) as [H1 _]. rewrite Hl2, (proj2 (Nat.eqb_neq _ _)) by lia.
  destruct (match pos with 0%nat => (0%nat, true) | S k => (k, false) end) as [target before].
  destruct (arrive_ok (fun t => split_leaf t target (from_split_direction d) before) p l w w1) with (w2 := w2) as (w' & E & Hw');
    try done; [apply adds_leaf_split|rewrite Hl; apply insert_perm|].
  rewrite E. cbn [mbind option_bind]. rewrite Hl in Hw'. by exists (Ok tt), w'.
Qed.

Lemma insert_full_size_ok p d (before : bool) w :
  window_ok w -> Z.of_nat (S (count w)) <= u16_max ->
  exists r w', insert_pane_full_size p d before w = Some (r, w') /\
    if bool_decide (pane_id p ∉ ids w /\ pane_index p ∉ indexes_of w) then
      r = Ok tt /\ arrived p (if before then pane_id p :: ids w else ids w ++ [pane_id p]) w'
    else (exists e, r = Err e) /\ w' = w.
Proof.
  intros Hok Hn. unfold insert_pane_full_size, ensure_accepts_pane.
  pose proof (accepts_loop_spec p 0 (panes w) w) as Ha. change (map pane_id (panes w)) with (ids w) in Ha.
  change (map pane_index (panes w)) with (indexes_of w) in Ha. destruct (accepts_loop p None 0 (panes w) w) as [[]|e].
  2: { rewrite bool_decide_eq_false_2 by (intros H; by apply Ha in H). eexists _, w. split; [done|]. split; [by eexists|done]. }
  destruct (proj1 Ha eq_refl) as [Hid Hix]. rewrite bool_decide_eq_true_2 by done.
  destruct (unzoomed_ok w (win_layout _ Hok)) as (w1 & Hu & Hs & Hz & Hr & Hpl). rewrite Hu. cbn [mbind option_bind]. cbv zeta.
  cbn [panes bump_next_pane_index with_next_pane_index with_layout]. set (l := if before then _ else _). set (w2 := with_panes l _).
  assert (map pane_id l = if before then pane_id p :: ids w else ids w ++ [pane_id p]) as Hl.
  { rewrite <- (same_ids _ _ Hs). unfold l, ids. destruct before; cbn; [done|]. by rewrite map_app. }
  destruct (arrive_ok (fun t => split_root t (from_split_direction d) before) p l w w1) with (w2 := w2) as (w' & E & Hw');
    try done; [apply adds_leaf_root|rewrite Hl; destruct before; [done|]; by rewrite Permutation_app_comm|].
  rewrite E. cbn [mbind option_bind]. rewrite Hl in Hw'. by exists (Ok tt), w'.
Qed.

Lemma delete_insert_same {A} (i : nat) (x : A) (l : list A) : delete i (<[i := x]> l) = delete i l.
Proof. revert i. induction l as [|y l IH]; intros [|i]; cbn; [done..|]. f_equal. apply IH. Qed.

Lemma replace_for_swap_ok i p w :
  window_ok w -> zoomed w = false ->
  exists r w', replace_pane_for_swap i p w = Some (r, w') /\
    if in_window i w && bool_decide (pane_id p ∉ delete (Z.to_nat i) (ids w)) then
      r = Ok tt /\ arrived p (<[Z.to_nat i := pane_id p]> (ids w)) w'
    else (exists e, r = Err e) /\ w' = w.
Proof.
  intros [Ho Hl Hp] Hz. unfold replace_pane_for_swap. rewrite pane_position_ok by done. fold (in_window i w).
  destruct (in_window i w) eqn:Hi; [|by eexists _, w; split; [done|]; split; [eexists|]].
  apply andb_true_iff in Hi as [Hi1 Hi2]. set (pos := Z.to_nat i). assert (pos < count w)%nat as Hpos by (unfold pos; lia). clearbody pos.
  assert (existsb (fun q => pane_id q =? pane_id p) (delete pos (panes w)) = bool_decide (pane_id p ∈ delete pos (ids w))) as ->.
  { etransitivity; [exact (existsb_ids (pane_id p) (with_panes (delete pos (panes w)) w))|].
    apply bool_decide_ext. unfold ids. cbn [panes with_panes].
    change (map pane_id) with (fmap pane_id : list PaneState -> list Z). by rewrite list_fmap_delete. }
  cbn [andb]. destruct (decide (pane_id p ∈ delete pos (ids w))) as [Hin|Hin].
  { rewrite bool_decide_eq_true_2, bool_decide_eq_false_2 by (done || intros H; done).
    by eexists _, w; split; [done|]; split; [eexists|]. }
  rewrite bool_decide_eq_false_2, bool_decide_eq_true_2 by done.
  destruct (layout_ok_placed w Hl Hz) as (t & gs & T1 & T2 & T3 & T4 & T5). set (w1 := with_panes _ _).
  assert (ids w1 = <[pos := pane_id p]> (ids w)) as Hi1'.
  { unfold ids. cbn. change (map pane_id) with (fmap pane_id : list PaneState -> list Z). by rewrite list_fmap_insert. }
  assert (count w1 = count w) as Hc1 by (unfold count; cbn; apply length_insert).
  destruct (apply_layout_tree_ok w1 t) as (w' & -> & Hs & [Z1 Z2] & Hp'); [done|by rewrite Hc1|done|]. cbn [mbind option_bind].
  exists (Ok tt), w'. split_and!; [done|done|]. pose proof (same_ids _ _ Hs) as Hi'.
  split; [congruence|by rewrite Z1|]. apply renumberable_ok; try done; [|rewrite Hi', Hi1'|by rewrite Z1|by rewrite Z2].
  - rewrite (same_order_count _ _ Hs), Hc1. apply Ho.
  - destruct (lookup_lt_is_Some_2 (ids w) pos) as [x Hx]; [by rewrite <- count_ids|].
    rewrite (delete_Permutation _ pos (pane_id p)) by (apply list_lookup_insert_eq; by rewrite <- count_ids).
    rewrite delete_insert_same. constructor; [done|]. eapply sublist_NoDup; [apply Ho|apply sublist_delete].
Qed.

(** ** Directional selection *)

(** [q] can be reached from the pane [i] in the direction [d]. *)
Definition reachable_from (source : PaneGeometry) (d : SelectPaneDirection) (size : TerminalSize) (i : Z) (q : PaneState) : bool :=
  negb (pane_index q =? i) && adjacent_pane source (pane_geometry q) d size.

(** What the loop has found in the panes [seen]. *)
Definition best_of (reach : PaneState -> bool) (seen : list PaneState) (candidate : option (Z * Z)) : Prop :=
  match candidate with
  | None => forall q, q ∈ seen -> reach q = false
  | Some (point, i) =>
      exists q, q ∈ seen /\ reach q = true /\ point = active_point q /\ i = pane_index q /\
        forall r, r ∈ seen -> reach r = true -> active_point r <= point
  end.

Lemma best_of_more reach seen p candidate :
  best_of reach seen candidate -> reach p = false \/ (exists point i, candidate = Some (point, i) /\ active_point p <= point) ->
  best_of reach (seen ++ [p]) candidate.
Proof.
  intros H Hp. destruct candidate as [[point i]|]; cbn in *.
  - destruct H as (q & H1 & H2 & H3 & H4 & H5). exists q. split_and!; try done; [set_solver|].
    intros r Hr Hr'. apply elem_of_app in Hr as [Hr|Hr]; [by apply H5|]. apply list_elem_of_singleton in Hr as ->.
    destruct Hp as [Hp|(point' & i' & [= <- <-] & Hp)]; [congruence|done].
  - intros q Hq. apply elem_of_app in Hq as [Hq|Hq]; [by apply H|]. apply list_elem_of_singleton in Hq as ->.
    destruct Hp as [Hp|(? & ? & [=] & _)]. done.
Qed.

Lemma best_of_new reach seen p candidate :
  best_of reach seen candidate -> reach p = true -> (forall point i, candidate = Some (point, i) -> point < active_point p) ->
  best_of reach (seen ++ [p]) (Some (active_point p, pane_index p)).
Proof.
  intros H Hp Hlt. exists p. split_and!; try done; [set_solver|]. intros r Hr Hr'.
  apply elem_of_app in Hr as [Hr|Hr]; [|apply list_elem_of_singleton in Hr as ->; done]. destruct candidate as [[point i]|]; cbn in H.
  - destruct H as (q & _ & _ & _ & _ & H5). specialize (Hlt point i eq_refl). specialize (H5 r Hr Hr'). lia.
  - rewrite H in Hr' by done. done.
Qed.

Lemma best_adjacent_spec source d size i l seen candidate :
  best_of (reachable_from source d size i) seen candidate ->
  best_of (reachable_from source d size i) (seen ++ l) (best_adjacent source d size i l candidate).
Proof.
  revert seen candidate. induction l as [|p l IH]; intros seen candidate H; cbn [best_adjacent]; [by rewrite app_nil_r|].
  rewrite (cons_middle p seen l), (assoc app). apply IH. destruct (pane_index p =? i) eqn:Ei.
  { apply best_of_more; [done|]. left. unfold reachable_from. by rewrite Ei. }
  destruct (adjacent_pane source (pane_geometry p) d size) eqn:Ea; cbn [negb].
  2: { apply best_of_more; [done|]. left. unfold reachable_from. by rewrite Ea, andb_false_r. }
  assert (reachable_from source d size i p = true) as Hr by (unfold reachable_from; by rewrite Ei, Ea).
  destruct candidate as [[point j]|]; [|by apply best_of_new with (candidate := None)].
  destruct (Z.leb_spec (active_point p) point); [apply best_of_more; [done|]; right; eauto|].
  apply best_of_new with (candidate := Some (point, j)); [done|done|]. by intros ? ? [= <- <-].
Qed.

Lemma select_adjacent_ok i d now w p :
  window_ok w -> pane i w = Some p ->
  let reach := reachable_from (pane_geometry p) d (win_size w) i in
  exists c w', select_adjacent_pane i d now w = Some (Some c, w') /\ window_ok w' /\ ids w' = ids w /\ active_pane w' = c /\
    ((exists q, q ∈ panes w /\ pane_index q = c /\ reach q = true /\
        forall r, r ∈ panes w -> reach r = true -> active_point r <= active_point q) \/
     (w' = w /\ forall q, q ∈ panes w -> reach q = false)).
Proof.
  intros Hok Hp reach. unfold select_adjacent_pane. rewrite Hp.
  pose proof (best_adjacent_spec (pane_geometry p) d (win_size w) i (panes w) [] None) as H. cbn [app] in H.
  specialize (H ltac:(intros q Hq; inversion Hq)). fold reach in H.
  destruct (best_adjacent _ _ _ _ _ _) as [[point c]|]; cbn in H.
  - destruct H as (q & Hq & Hr & -> & -> & Hmax). set (c := pane_index q).
    assert (in_window c w = true) as Hc.
    { assert (c ∈ indexes_of w) as Hin by (unfold indexes_of; by apply list_elem_of_fmap_2).
      rewrite (ok_indexes w (win_order _ Hok)) in Hin. apply list_elem_of_fmap in Hin as (k & -> & Hk).
      apply list_elem_of_In, List.in_seq in Hk. unfold in_window. apply andb_true_iff. split; [apply Z.leb_le|apply Z.ltb_lt]; lia. }
    destruct (select_pane_ok c now w Hok) as (w' & E & Hw & Hi & _ & Ha). rewrite E. cbn [mbind option_bind].
    exists c, w'. split_and!; try done; [by apply Ha|]. left. exists q. by split_and!.
  - exists (active_pane w), w. split_and!; try done. by right.
Qed.

End Kept.
