(* ===== verification/PaneTransfer.v ===== *)
(** * Pane transfers

    [crates/rmux-core/src/session/pane_transfer.rs] and
    [session/pane_transfer_shared.rs], with [resize_new_split_pane_to] of
    [window/layout_ops.rs] and the errors of [session/target_error.rs]: joining
    and swapping panes within one window or between two, and selecting the last
    pane.  The windows are the ones the session looked up; the session's own
    bookkeeping is in [Session.v].  A panic is [None], an error a value of
    [result]. *)

From S2P Require Import Prelude Panes Text Errors LayoutCell LayoutTree LayoutNamed LayoutText.
From S2P Require Import LayoutShape Window WindowInv WindowOps WindowMove.

(** ** Options and errors *)

Inductive PaneSplitSize := SplitAbsolute (cells : Z) | SplitPercentage (percent : Z).

Record PaneSwapOptions := mkSwapOptions { swap_detached : bool; swap_preserve_zoom : bool }.

Record PaneJoinOptions := mkJoinOptions {
  join_direction : SplitDirection;
  join_detached : bool;
  join_before : bool;
  join_full_size : bool;
  join_size : option PaneSplitSize;
}.

Definition invalid_window_target_with_reason (session : string) (window_index : Z) (reason : string) : RmuxError :=
  InvalidTarget (string_of (text_of session ++ text_of ":" ++ dec window_index)) reason.

Definition invalid_window_target (session : string) (window_index : Z) : RmuxError :=
  invalid_window_target_with_reason session window_index "window index does not exist in session".

Definition invalid_pane_target (session : string) (window_index pane_index : Z) (reason : string) : RmuxError :=
  InvalidTarget (string_of (text_of session ++ text_of ":" ++ dec window_index ++ text_of "." ++ dec pane_index)) reason.

Definition missing_pane (session : string) (window_index pane_index : Z) : RmuxError :=
  invalid_pane_target session window_index pane_index "pane index does not exist in session".

(** ** Sizes *)

Definition axis_of_geometry (d : SplitDirection) (g : PaneGeometry) : Z :=
  match d with Vertical => pane_cols g | Horizontal => pane_rows g end.

Definition join_axis_for_size (size : TerminalSize) (d : SplitDirection) : Z :=
  match d with Vertical => cols size | Horizontal => rows size end.

Definition size_of_geometry (g : PaneGeometry) : TerminalSize := mkTerminalSize (pane_cols g) (pane_rows g).

Definition join_requested_size (target_window : Window) (target : Z) (d : SplitDirection) (full_size : bool)
    (size : option PaneSplitSize) : result (option Z) RmuxError :=
  match size with
  | None => Ok None
  | Some size =>
      let base :=
        if full_size then Ok (join_axis_for_size (win_size target_window) d)
        else
          match pane target target_window with
          | None => Err (Server (string_of (text_of "cannot size missing target pane index " ++ dec target)))
          | Some p => Ok (join_axis_for_size (size_of_geometry (pane_geometry p)) d)
          end in
      match base with
      | Err e => Err e
      | Ok base =>
          Ok (Some (match size with
                    | SplitAbsolute value => Z.max value 1
                    | SplitPercentage value => Z.max (u32_sat_mul base value / 100) 1
                    end))
      end
  end.

Definition same_axis_source_after_target (source target : PaneGeometry) (d : SplitDirection) : bool :=
  match d with
  | Vertical => (pane_y source =? pane_y target) && (pane_rows source =? pane_rows target) && (pane_x target <? pane_x source)
  | Horizontal => (pane_x source =? pane_x target) && (pane_cols source =? pane_cols target) && (pane_y target <? pane_y source)
  end.

Definition resize_new_split_pane_to (i : Z) (d : SplitDirection) (new_size : Z) (inserted_before : bool) (w : Window)
  : option (bool * Window) :=
  let new_size := Z.max new_size 1 in
  if inserted_before then window_resize_pane_to i d new_size w
  else
    match pane_position i w with
    | None => Some (false, w)
    | Some 0%nat => window_resize_pane_to i d new_size w
    | Some (S k as pos) =>
        target ← panes w !! k;
        new ← panes w !! pos;
        let combined :=
          u32_sat_add (u32_sat_add (axis_of_geometry d (pane_geometry target)) (axis_of_geometry d (pane_geometry new))) 1 in
        let target_size := Z.max (sat_sub (sat_sub combined 1) new_size) 1 in
        window_resize_pane_to (pane_index target) d target_size w
    end.

(** ** The last pane *)

Definition last_pane_with_zoom (preserve_zoom : bool) (now : Z) (w : Window) : option (result Z RmuxError * Window) :=
  match last_pane w with
  | None => Some (Err (Server "no last pane"), w)
  | Some l =>
      w ← (if preserve_zoom then snd <$> push_zoom true w else Some w);
      '(_, w) ← select_pane l now w;
      Some (Ok l, if preserve_zoom then pop_zoom w else w)
  end.

(** ** Swapping *)

Definition swap_panes_within_window (session : string) (window_index source target : Z) (o : PaneSwapOptions) (now : Z)
    (w : Window) : option (result unit RmuxError * Window) :=
  if source =? target then
    match pane source w with
    | None => Some (Err (missing_pane session window_index source), w)
    | Some _ => Some (Ok tt, w)
    end
  else
    match pane source w, pane target w with
    | None, _ => Some (Err (missing_pane session window_index source), w)
    | _, None => Some (Err (missing_pane session window_index target), w)
    | Some _, Some _ =>
        '(_, w) ← push_zoom (swap_preserve_zoom o) w;
        active_before ← pane_id <$> active w;
        source_id ← pane_id <$> pane source w;
        target_id ← pane_id <$> pane target w;
        '(_, w) ← swap_panes source target w;
        let selected :=
          if swap_detached o then
            if (active_before =? source_id) || (active_before =? target_id) then source_id else active_before
          else target_id in
        '(_, w) ← select_pane_by_id selected now w;
        Some (Ok tt, pop_zoom w)
    end.

Definition validate_swap_destination (p : PaneState) (replaced : Z) (w : Window) : option (result unit RmuxError) :=
  pos ← pane_position replaced w;
  Some (if existsb (fun q => pane_id q =? pane_id p) (delete pos (panes w)) then Err (duplicate_pane_id (pane_id p) w) else Ok tt).

Definition swapped_window_last_pane_id (active_before : Z) (last_before : option Z) (outgoing : Z) (selects_incoming : bool)
  : option Z :=
  if selects_incoming then
    if active_before =? outgoing then l ← last_before; if l =? outgoing then None else Some l
    else Some active_before
  else
    match last_before with
    | Some l => if l =? outgoing then None else Some l
    | None => None
    end.

(** The renumbering of one side of a swap between windows. *)
Definition swap_renumber (selects : bool) (incoming outgoing active_before : Z) (last_before : option Z) (now : Z) (w : Window)
  : option Window :=
  let active_after := if selects then incoming else active_before in
  let last_after := swapped_window_last_pane_id active_before last_before outgoing selects in
  if selects then renumber_panes_by_position_stamping active_after last_after (Some active_before) now w
  else renumber_panes_by_position active_after last_after w.

Definition apply_swap_between_windows (source_window : Window) (source_index : Z) (source : PaneState)
    (target_window : Window) (target_index : Z) (target : PaneState) (o : PaneSwapOptions) (now : Z)
  : option (result unit RmuxError * Window * Window) :=
  let source_active_before := active_pane source_window in
  let target_active_before := active_pane target_window in
  source_active_id ← pane_id <$> active source_window;
  target_active_id ← pane_id <$> active target_window;
  let source_last_id := i ← last_pane source_window; pane_id <$> pane i source_window in
  let target_last_id := i ← last_pane target_window; pane_id <$> pane i target_window in
  let select_target_in_source := negb (swap_detached o) || (source_active_before =? source_index) in
  let select_source_in_target := negb (swap_detached o) || (target_active_before =? target_index) in
  '(_, source_window) ← push_zoom (swap_preserve_zoom o) source_window;
  '(_, target_window) ← push_zoom (swap_preserve_zoom o) target_window;
  '(res, source_window) ← replace_pane_for_swap source_index target source_window;
  match res with
  | Err e => Some (Err e, source_window, target_window)
  | Ok _ =>
      '(res, target_window) ← replace_pane_for_swap target_index source target_window;
      match res with
      | Err e => Some (Err e, source_window, target_window)
      | Ok _ =>
          source_window ← swap_renumber select_target_in_source (pane_id target) (pane_id source) source_active_id source_last_id now source_window;
          target_window ← swap_renumber select_source_in_target (pane_id source) (pane_id target) target_active_id target_last_id now target_window;
          source_window ← recalculate_geometry source_window;
          target_window ← recalculate_geometry target_window;
          Some (Ok tt, pop_zoom source_window, pop_zoom target_window)
      end
  end.

(** ** Joining *)

Definition adjusted_insert_position (source target : nat) : nat := if (source <? target)%nat then target else S target.

Definition adjusted_insert_position_before (source target : nat) : nat :=
  if (source <? target)%nat then (target - 1)%nat else target.

(** The index a pane gets until the window is renumbered. *)
Definition transient_index (w : Window) : Z := u32_sat_add (fold_left Z.max (map pane_index (panes w)) 0) 1.

(** The panes selected by a detached move: the active and the last id. *)
Definition detached_selection (source : nat) (source_id target_id active_before : Z) (last_before : option Z) (w : Window)
  : option Z * option Z :=
  let a :=
    if active_before =? source_id then
      match (l ← last_before; if l =? source_id then None else Some l) with
      | Some l => Some l
      | None => pane_id <$> panes w !! (if (0 <? source)%nat then (source - 1)%nat else (source + 1)%nat)
      end
    else Some active_before in
  let l :=
    if active_before =? source_id then
      match a with Some a => if a =? target_id then None else Some target_id | None => None end
    else l ← last_before; if l =? source_id then None else Some l in
  (a, l).

Definition join_move (source target : Z) (source_pos target_pos : nat) (o : PaneJoinOptions) (w : Window)
  : option (result Z RmuxError * Window) :=
  if join_full_size o then
    w ← unzoomed w;
    '(extracted, w) ← extract_pane source w;
    moved ← extracted;
    let moved := set_index (transient_index w) moved in
    '(res, w) ← insert_pane_full_size moved (join_direction o) (join_before o) w;
    Some (match res with Err e => Err e | Ok _ => Ok (pane_id moved) end, w)
  else
    move_pane_by_splitting_target source_pos target_pos
      (if join_before o then adjusted_insert_position_before source_pos target_pos
       else adjusted_insert_position source_pos target_pos)
      (join_direction o) (join_before o) w.

Definition join_pane_within_window (session : string) (window_index source target : Z) (o : PaneJoinOptions) (now : Z)
    (w : Window) : option (result unit RmuxError * Window) :=
  if source =? target then Some (Err (Server "source and target panes must be different"), w)
  else
    match pane_position source w, pane_position target w with
    | None, _ => Some (Err (missing_pane session window_index source), w)
    | _, None => Some (Err (missing_pane session window_index target), w)
    | Some source_pos, Some target_pos =>
        source_pane ← pane source w;
        target_pane ← pane target w;
        match ensure_accepts_pane source_pane (Some source_pos) w with
        | Err e => Some (Err e, w)
        | Ok _ =>
            let source_axis := join_axis_for_size (size_of_geometry (pane_geometry source_pane)) (join_direction o) in
            match join_requested_size w target (join_direction o) (join_full_size o) (join_size o) with
            | Err e => Some (Err e, w)
            | Ok requested =>
                active_before ← pane_id <$> active w;
                let last_before := i ← last_pane w; pane_id <$> pane i w in
                let '(detached_active, detached_last) :=
                  detached_selection source_pos (pane_id source_pane) (pane_id target_pane) active_before last_before w in
                '(res, w) ← join_move source target source_pos target_pos o w;
                match res with
                | Err e => Some (Err e, w)
                | Ok moved =>
                    w ←
                      (if join_detached o then
                         a ← detached_active; renumber_panes_by_position a detached_last w
                       else
                         renumber_panes_by_position_stamping moved
                           (if active_before =? moved then last_before else Some active_before) (Some active_before) now w);
                    moved_index ← pane_index_for_id moved w;
                    match requested with
                    | None => Some (Ok tt, w)
                    | Some requested =>
                        '(i, size) ←
                          (if negb (join_full_size o) && negb (join_before o)
                              && same_axis_source_after_target (pane_geometry source_pane) (pane_geometry target_pane) (join_direction o)
                           then i ← pane_index_for_id (pane_id target_pane) w; Some (i, Z.max (sat_sub source_axis requested) 1)
                           else Some (moved_index, requested));
                        '(_, w) ← window_resize_pane_to i (join_direction o) size w;
                        Some (Ok tt, w)
                    end
                end
            end
        end
    end.

(** ** Operations under a pending zoom

    None of the operations that run between [push_zoom] and [pop_zoom] reads or
    writes the pending flag. *)

Section pending.
Context (b : bool).

Notation pend := (with_zoom_restore_pending b).

Lemma apply_layout_tree_pend w : apply_layout_tree (pend w) = pend <$> apply_layout_tree w.
Proof. unfold apply_layout_tree. cbn [layout_tree with_zoom_restore_pending]. destruct (layout_tree w) as [t|]; [|done].
  change (panes (pend w)) with (panes w). by destruct (apply_to_panes t (panes w)). Qed.

Lemma recalculate_pend w : recalculate_geometry (pend w) = pend <$> recalculate_geometry w.
Proof.
  unfold recalculate_geometry. cbn [layout_tree with_zoom_restore_pending]. destruct (layout_tree w) as [t|]; [|done].
  exact (apply_layout_tree_pend (with_win_size (tree_size (resize (win_size w) t)) (with_layout_tree (Some (resize (win_size w) t)) w))).
Qed.

Lemma unzoomed_pend w : unzoomed (pend w) = pend <$> unzoomed w.
Proof.
  unfold unzoomed, auto_unzoom. cbn [zoomed with_zoom_restore_pending]. destruct (zoomed w); [|done].
  change (with_zoomed false (pend w)) with (pend (with_zoomed false w)). rewrite recalculate_pend. by destruct (recalculate_geometry _).
Qed.

Lemma update_pane_pend i f w : update_pane i f (pend w) = pend (update_pane i f w).
Proof. unfold update_pane, pane_position. cbn [panes with_zoom_restore_pending]. by destruct (position _ _). Qed.

Lemma select_pane_pend i now w : select_pane i now (pend w) = (fun r => (r.1, pend r.2)) <$> select_pane i now w.
Proof.
  unfold select_pane. change (pane i (pend w)) with (pane i w). destruct (pane i w); [|done].
  change (active_pane (pend w)) with (active_pane w). destruct (_ =? _); [cbn; by rewrite update_pane_pend|].
  rewrite unzoomed_pend. destruct (unzoomed w) as [w1|]; [|done]. cbn [fmap option_fmap option_map mbind option_bind].
  unfold mark_pane_active. cbn [fst snd]. by rewrite <- update_pane_pend.
Qed.

Lemma select_pane_by_id_pend id now w :
  select_pane_by_id id now (pend w) = (fun r => (r.1, pend r.2)) <$> select_pane_by_id id now w.
Proof.
  unfold select_pane_by_id. change (pane_index_for_id id (pend w)) with (pane_index_for_id id w).
  destruct (pane_index_for_id id w); [apply select_pane_pend|done].
Qed.

Lemma renumber_pend a l w : renumber_panes_by_position a l (pend w) = pend <$> renumber_panes_by_position a l w.
Proof. unfold renumber_panes_by_position. cbv zeta. unfold pane_index_for_id. cbn [panes with_panes with_next_pane_index with_active_pane with_zoom_restore_pending]. by destruct (List.find _ _). Qed.

Lemma swap_panes_pend s t w : swap_panes s t (pend w) = (fun r => (r.1, pend r.2)) <$> swap_panes s t w.
Proof.
  unfold swap_panes. change (pane_position s (pend w)) with (pane_position s w). change (pane_position t (pend w)) with (pane_position t w).
  destruct (pane_position s w) as [i|]; [|done]. destruct (pane_position t w) as [j|]; [|done]. destruct (_ =? _)%nat; [done|].
  rewrite unzoomed_pend. destruct (unzoomed w) as [w1|]; [|done]. cbn [fmap option_fmap option_map mbind option_bind].
  change (active (pend w1)) with (active w1). destruct (active w1) as [p|]; [|done]. cbn [fmap option_fmap option_map mbind option_bind].
  change (with_panes (swap_positions i j (panes (pend w1))) (pend w1)) with (pend (with_panes (swap_positions i j (panes w1)) w1)).
  rewrite apply_layout_tree_pend. destruct (apply_layout_tree _) as [w2|]; [|done]. cbn [fmap option_fmap option_map mbind option_bind].
  rewrite renumber_pend. by destruct (renumber_panes_by_position _ _ w2).
Qed.
End pending.

Section Kept.
Context {stale : bool}.
Local Notation window_ok := (window_ok_at stale).
Local Notation renumberable := (@renumberable stale).
Local Notation arrived := (@arrived stale).

Lemma push_zoom_ok restore w :
  window_ok w ->
  exists w1, push_zoom restore w = Some (zoomed w, with_zoom_restore_pending (zoomed w && restore) w1) /\
    window_ok w1 /\ zoomed w1 = false /\ same_order w w1.
Proof.
  intros [Ho Hl Hp]. destruct (unzoomed_ok w Hl) as (w1 & E & Hs & Hz & Hr & Hpl). exists w1. unfold push_zoom. split_and!; try done.
  - assert ((if zoomed w then unzoomed w else Some w) = Some w1) as ->; [|done].
    destruct (zoomed w) eqn:Hzw; [done|]. revert E. unfold unzoomed, auto_unzoom. by rewrite Hzw.
  - apply placed_window_ok; [by eapply same_order_ok|done|done|congruence].
Qed.

Lemma pop_pend_ok b w :
  window_ok w -> zoomed w = false -> (b = true -> (2 <= count w)%nat) ->
  let w' := pop_zoom (with_zoom_restore_pending b w) in
  window_ok w' /\ ids w' = ids w /\ zoomed w' = b /\ active_pane w' = active_pane w /\ last_pane w' = last_pane w.
Proof.
  intros [Ho Hl Hp] Hz H2 w'. destruct b.
  - assert (order_ok (with_zoom_restore_pending true w)) as Ho1 by (apply (same_order_ok w); [by split|done]).
    apply (pop_zoom_ok (with_zoom_restore_pending true w) Ho1); [|done|by apply H2].
    by apply (placed_same w); [..|apply (layout_ok_placed (stale := stale))].
  - unfold w', pop_zoom. cbn [zoom_restore_pending with_zoom_restore_pending].
    split_and!; try done. apply placed_window_ok; [apply (same_order_ok w); [by split|done]| |done|done].
    by apply (placed_same w); [..|apply (layout_ok_placed (stale := stale))].
Qed.

Lemma select_by_id_ok id now w :
  window_ok w -> zoomed w = false -> id ∈ ids w ->
  exists w', select_pane_by_id id now w = Some (true, w') /\ window_ok w' /\ ids w' = ids w /\ zoomed w' = false /\
    active_id w' = Some id.
Proof.
  intros Hok Hz Hin. pose proof (win_order _ Hok) as Ho. unfold select_pane_by_id.
  rewrite (pane_index_for_id_ok id w (ok_indexes _ Ho)). destruct (id_position id (ids w)) as [k|] eqn:E; [|by apply id_position_None in E].
  cbn [fmap option_fmap option_map]. apply id_position_Some in E. pose proof (lookup_lt_Some _ _ _ E) as Hk. rewrite <- count_ids in Hk.
  destruct (select_pane_ok (Z.of_nat k) now w Hok) as (w' & Es & Hw & Hi & Hz' & Ha).
  assert (in_window (Z.of_nat k) w = true) as Hin'.
  { unfold in_window. apply andb_true_iff. split; [apply Z.leb_le|apply Z.ltb_lt]; lia. }
  rewrite Hin' in Es. exists w'. split_and!; [done|done|done|by apply Hz'|].
  rewrite (proj1 (active_id_lookup w' (win_order _ Hw))), Ha, Nat2Z.id, Hi by done. done.
Qed.

Lemma last_pane_with_zoom_ok preserve now w :
  window_ok w ->
  exists r w', last_pane_with_zoom preserve now w = Some (r, w') /\ window_ok w' /\ ids w' = ids w /\
    match last_pane w with
    | None => r = Err (Server "no last pane") /\ w' = w
    | Some l => r = Ok l /\ active_pane w' = l /\ zoomed w' = zoomed w && preserve
    end.
Proof.
  intros Hok. unfold last_pane_with_zoom. destruct (last_pane w) as [l|] eqn:El; [|by eexists _, w].
  pose proof (ok_last w (win_order _ Hok) l El) as [Hl Hne].
  assert (in_window l w = true) as Hin by (unfold in_window; apply andb_true_iff; split; [apply Z.leb_le|apply Z.ltb_lt]; lia).
  destruct preserve; cbn [mbind option_bind].
  - destruct (push_zoom_ok true w Hok) as (w1 & -> & Hw1 & Hz1 & Hs1). cbn [fmap option_fmap option_map snd mbind option_bind].
    rewrite select_pane_pend. destruct (select_pane_ok l now w1 Hw1) as (w2 & -> & Hw2 & Hi2 & Hz2 & Ha2).
    assert (in_window l w1 = true) as Hin1 by (unfold in_window in *; by rewrite (same_order_count _ _ Hs1)).
    cbn [fmap option_fmap option_map snd fst mbind option_bind]. rewrite andb_true_r. eexists _, _. split; [done|].
    destruct (pop_pend_ok (zoomed w) w2) as (P1 & P2 & P3 & P4 & P5); [done|by apply Hz2| |].
    { intros Hz. rewrite count_ids, Hi2, (same_ids _ _ Hs1), <- count_ids. by apply (win_layout _ Hok). }
    split_and!; [done|rewrite P2, Hi2; apply Hs1|done|rewrite P4; by apply Ha2|done].
  - destruct (select_pane_ok l now w Hok) as (w2 & E & Hw2 & Hi2 & Hz2 & Ha2). rewrite E. cbn [mbind option_bind].
    eexists _, w2. split_and!; try done; [by apply Ha2|]. rewrite andb_false_r.
    revert E. unfold select_pane. destruct (pane l w); [|by rewrite Hin].
    rewrite (proj2 (Z.eqb_neq _ _)) by congruence. destruct (unzoomed_ok w (win_layout _ Hok)) as (w3 & -> & _ & Hz3 & _). cbn.
    intros [= _ <-]. unfold mark_pane_active. match goal with |- context [update_pane ?i ?f ?u] => destruct (update_pane_rest i f u) as (_ & _ & -> & _) end. done.
Qed.

(** ** Swapping is safe *)

Lemma in_window_pane i w : order_ok w -> in_window i w = true -> exists p, pane i w = Some p /\ ids w !! Z.to_nat i = Some (pane_id p).
Proof. intros Ho Hi. apply andb_true_iff in Hi as [H1 H2]. apply pane_id_at; [done|lia]. Qed.

Lemma pane_in_window i w p : order_ok w -> pane i w = Some p -> in_window i w = true.
Proof. intros Ho Hp. rewrite pane_ok in Hp by done. fold (in_window i w) in Hp. by destruct (in_window i w). Qed.

Lemma two_panes i j w : in_window i w = true -> in_window j w = true -> i <> j -> (2 <= count w)%nat.
Proof. intros [H1 H2]%andb_true_iff [H3 H4]%andb_true_iff Hne. lia. Qed.

Lemma swap_within_ok session wi source target o now w :
  window_ok w ->
  exists r w', swap_panes_within_window session wi source target o now w = Some (r, w') /\ window_ok w' /\
    if in_window source w && in_window target w then
      r = Ok tt /\
      if source =? target then w' = w
      else ids w' = swap_positions (Z.to_nat source) (Z.to_nat target) (ids w) /\ zoomed w' = zoomed w && swap_preserve_zoom o
    else (exists e, r = Err e) /\ w' = w.
Proof.
  intros Hok. pose proof (win_order _ Hok) as Ho. unfold swap_panes_within_window.
  pose proof (pane_is_Some source w Ho) as Hs. pose proof (pane_is_Some target w Ho) as Ht.
  destruct (Z.eqb_spec source target) as [->|Hne].
  { destruct (in_window target w); [destruct Hs as [p ->]; by exists (Ok tt), w|rewrite Hs].
    eexists (Err _), w. split; [done|]. split; [done|]. by split; [eexists|]. }
  destruct (in_window source w) eqn:Es; [destruct Hs as [ps ->]|rewrite Hs; eexists (Err _), w; split; [done|]; split; [done|]; by split; [eexists|]].
  destruct (in_window target w) eqn:Et; [destruct Ht as [pt ->]|rewrite Ht; eexists (Err _), w; split; [done|]; split; [done|]; by split; [eexists|]]. cbn [andb].
  destruct (push_zoom_ok (swap_preserve_zoom o) w Hok) as (w1 & -> & Hw1 & Hz1 & Hs1). cbn [mbind option_bind].
  set (b := zoomed w && _). pose proof (same_order_count _ _ Hs1) as Hc1. pose proof (win_order _ Hw1) as Ho1.
  change (active (with_zoom_restore_pending b w1)) with (active w1). change (pane source (with_zoom_restore_pending b w1)) with (pane source w1).
  change (pane target (with_zoom_restore_pending b w1)) with (pane target w1).
  assert (in_window source w1 = true /\ in_window target w1 = true) as [Es1 Et1] by (unfold in_window in *; by rewrite Hc1).
  destruct (active_id_lookup w1 Ho1) as [Hal [a Ha]]. change (pane_id <$> active w1) with (active_id w1). rewrite Ha.
  destruct (in_window_pane source w1 Ho1 Es1) as (p1 & -> & Hp1). destruct (in_window_pane target w1 Ho1 Et1) as (p2 & -> & Hp2).
  cbn [fmap option_fmap option_map mbind option_bind]. rewrite swap_panes_pend.
  destruct (swap_ok source target w1 Hw1) as (b2 & w2 & -> & Hw2 & Hb2 & Hids2 & _). rewrite Es1, Et1 in Hb2. cbn in Hb2. subst b2.
  rewrite (proj2 (Z.eqb_neq _ _) Hne) in Hids2. cbn [andb negb] in Hids2. destruct Hids2 as [Hids2 Hz2].
  cbn [fmap option_fmap option_map mbind option_bind fst snd]. set (sel := if swap_detached o then _ else _).
  assert (ids w2 ≡ₚ ids w1) as Hperm by (rewrite Hids2; apply swap_positions_perm).
  assert (sel ∈ ids w2) as Hsel.
  { rewrite Hperm. unfold sel. rewrite Ha in Hal. repeat case_match; eapply list_elem_of_lookup_2; eauto. }
  rewrite select_pane_by_id_pend. destruct (select_by_id_ok sel now w2 Hw2 Hz2 Hsel) as (w3 & -> & Hw3 & Hi3 & Hz3 & _).
  cbn [fmap option_fmap option_map mbind option_bind fst snd]. eexists _, _. split; [done|].
  destruct (pop_pend_ok b w3 Hw3 Hz3) as (P1 & P2 & P3 & _).
  { intros _. rewrite count_ids, Hi3, (Permutation_length Hperm), <- count_ids. by apply (two_panes source target w1). }
  split_and!; [done|done| |done]. rewrite P2, Hi3, Hids2. by rewrite (same_ids _ _ Hs1).
Qed.

Lemma replace_pend b i p w :
  replace_pane_for_swap i p (with_zoom_restore_pending b w) =
  (fun r => (r.1, with_zoom_restore_pending b r.2)) <$> replace_pane_for_swap i p w.
Proof.
  unfold replace_pane_for_swap. change (pane_position i (with_zoom_restore_pending b w)) with (pane_position i w).
  destruct (pane_position i w) as [pos|]; [|done]. change (panes (with_zoom_restore_pending b w)) with (panes w).
  destruct (existsb _ _); [done|].
  change (with_panes (<[pos:=p]> (panes w)) (bump_next_pane_index (pane_index p) (with_zoom_restore_pending b w)))
    with (with_zoom_restore_pending b (with_panes (<[pos:=p]> (panes w)) (bump_next_pane_index (pane_index p) w))).
  rewrite apply_layout_tree_pend. by destruct (apply_layout_tree _).
Qed.

Lemma stamping_pend b a l prev now w :
  renumber_panes_by_position_stamping a l prev now (with_zoom_restore_pending b w) =
  with_zoom_restore_pending b <$> renumber_panes_by_position_stamping a l prev now w.
Proof.
  unfold renumber_panes_by_position_stamping. rewrite renumber_pend. destruct (renumber_panes_by_position a l w) as [w1|]; [|done].
  cbn [fmap option_fmap option_map mbind option_bind]. destruct (decide _); [done|]. unfold mark_pane_active. by rewrite <- update_pane_pend.
Qed.

(** Renumbering a placed window, with or without the stamp. *)
Lemma stamping_ok a l prev now w :
  renumberable w -> zoomed w = false -> a ∈ ids w ->
  exists w', renumber_panes_by_position_stamping a l prev now w = Some w' /\ window_ok w' /\ ids w' = ids w /\ zoomed w' = false /\
    active_id w' = Some a.
Proof.
  intros Hren Hz Ha. unfold renumber_panes_by_position_stamping. destruct (Hren a l Ha) as (w1 & E & Hw & Hi & Hact).
  rewrite E. cbn [mbind option_bind].
  assert (zoomed w1 = false) as Hz1.
  { revert E. unfold renumber_panes_by_position. destruct (pane_index_for_id a _); [|done]. cbn. intros [=<-]. done. }
  destruct (decide _); [exists w1; by split_and!|]. destruct (mark_window_ok (active_pane w1) now w1 Hw Hz1) as (M1 & M2 & M3).
  eexists. split_and!; [done|done|rewrite (same_ids _ _ M2); done|done|]. by rewrite (active_id_same _ _ (win_order _ Hw) M2).
Qed.

Lemma renumber_unzoomed a l w :
  renumberable w -> zoomed w = false -> a ∈ ids w ->
  exists w', renumber_panes_by_position a l w = Some w' /\ window_ok w' /\ ids w' = ids w /\ zoomed w' = false /\ active_id w' = Some a.
Proof.
  intros Hren Hz Ha. destruct (stamping_ok a l (Some a) 0 w Hren Hz Ha) as (w' & E & H). exists w'. split; [|done].
  revert E. unfold renumber_panes_by_position_stamping. destruct (renumber_panes_by_position a l w); [|done]. cbn. by rewrite decide_True.
Qed.

Lemma recalculate_window_ok w :
  window_ok w -> zoomed w = false -> exists w', recalculate_geometry w = Some w' /\ window_ok w' /\ same_order w w' /\ zoomed w' = false.
Proof.
  intros [Ho Hl Hp] Hz. pose proof Hl as [(t & gs & T1 & T2 & _) _].
  destruct (recalculate_ok w t T1 T2) as (w' & E & Hs & [Z1 Z2] & Hpl). exists w'. split_and!; try done; [|congruence].
  apply placed_window_ok; [by eapply same_order_ok|done|congruence|congruence].
Qed.

(** One window of a swap between two. *)
Lemma swap_side_ok index incoming outgoing detached restore now w a :
  window_ok w -> in_window index w = true -> pane_id incoming ∉ delete (Z.to_nat index) (ids w) -> active_id w = Some a ->
  let selects := negb detached || (active_pane w =? index) in
  exists b w1 w2,
    push_zoom restore w = Some (zoomed w, with_zoom_restore_pending b w1) /\
    replace_pane_for_swap index incoming (with_zoom_restore_pending b w1) = Some (Ok tt, with_zoom_restore_pending b w2) /\
    (forall L, exists w3 w4,
       swap_renumber selects (pane_id incoming) outgoing a L now (with_zoom_restore_pending b w2) = Some (with_zoom_restore_pending b w3) /\
       recalculate_geometry (with_zoom_restore_pending b w3) = Some (with_zoom_restore_pending b w4) /\
       window_ok (pop_zoom (with_zoom_restore_pending b w4)) /\
       ids (pop_zoom (with_zoom_restore_pending b w4)) = <[Z.to_nat index := pane_id incoming]> (ids w)).
Proof.
  intros Hok Hin Hid Ha selects. destruct (push_zoom_ok restore w Hok) as (w1 & E1 & Hw1 & Hz1 & Hs1).
  set (b := zoomed w && restore) in *. exists b, w1. pose proof (same_order_count _ _ Hs1) as Hc1.
  destruct (replace_for_swap_ok index incoming w1 Hw1 Hz1) as (r & w2 & E2 & H2).
  assert (in_window index w1 = true) as Hin1 by (unfold in_window in *; by rewrite Hc1).
  rewrite Hin1, (same_ids _ _ Hs1), bool_decide_eq_true_2 in H2 by done. destruct H2 as [-> [Hi2 Hz2 Hr2]]. exists w2.
  assert (Z.to_nat index < length (ids w))%nat as Hlt by (rewrite <- count_ids; apply andb_true_iff in Hin as [? ?]; lia).
  assert ((if selects then pane_id incoming else a) ∈ ids w2) as Hact.
  { rewrite Hi2. destruct selects eqn:Hsel.
    - eapply list_elem_of_lookup_2. by apply list_lookup_insert_eq.
    - apply orb_false_iff in Hsel as [_ Hne%Z.eqb_neq]. apply (list_elem_of_lookup_2 _ (Z.to_nat (active_pane w))).
      pose proof (ok_active w (win_order _ Hok)). apply andb_true_iff in Hin as [? ?].
      rewrite list_lookup_insert_ne by lia. by rewrite <- (proj1 (active_id_lookup w (win_order _ Hok))). }
  split; [exact E1|]. split; [rewrite replace_pend, E2; done|].
  intros L. unfold swap_renumber.
    assert (exists w3, (if selects then renumber_panes_by_position_stamping (if selects then pane_id incoming else a)
        (swapped_window_last_pane_id a L outgoing selects) (Some a) now (with_zoom_restore_pending b w2)
      else renumber_panes_by_position (if selects then pane_id incoming else a)
        (swapped_window_last_pane_id a L outgoing selects) (with_zoom_restore_pending b w2)) = Some (with_zoom_restore_pending b w3) /\
      window_ok w3 /\ ids w3 = ids w2 /\ zoomed w3 = false) as (w3 & E3 & Hw3 & Hi3 & Hz3).
    { destruct selects.
      - rewrite stamping_pend. destruct (stamping_ok (pane_id incoming) (swapped_window_last_pane_id a L outgoing true) (Some a) now w2
          Hr2 Hz2 Hact) as (w3 & -> & ? & ? & ? & _). by exists w3.
      - rewrite renumber_pend. destruct (renumber_unzoomed a (swapped_window_last_pane_id a L outgoing false) w2
          Hr2 Hz2 Hact) as (w3 & -> & ? & ? & ? & _). by exists w3. }
    destruct (recalculate_window_ok w3 Hw3 Hz3) as (w4 & E4 & Hw4 & Hs4 & Hz4). exists w3, w4.
    assert (ids w4 = <[Z.to_nat index := pane_id incoming]> (ids w)) as Hi4 by (rewrite (same_ids _ _ Hs4); congruence).
    destruct (pop_pend_ok b w4 Hw4 Hz4) as (P1 & P2 & _).
    { intros Hb. apply andb_true_iff in Hb as [Hb _]. rewrite count_ids, Hi4, length_insert, <- count_ids. by apply (win_layout _ Hok). }
    split_and!; [done|by rewrite recalculate_pend, E4|done|congruence].
Qed.

Lemma apply_swap_ok sw si source tw ti target o now :
  window_ok sw -> window_ok tw -> pane si sw = Some source -> pane ti tw = Some target ->
  pane_id target ∉ delete (Z.to_nat si) (ids sw) -> pane_id source ∉ delete (Z.to_nat ti) (ids tw) ->
  exists sw' tw', apply_swap_between_windows sw si source tw ti target o now = Some (Ok tt, sw', tw') /\
    window_ok sw' /\ window_ok tw' /\ ids sw' = <[Z.to_nat si := pane_id target]> (ids sw) /\
    ids tw' = <[Z.to_nat ti := pane_id source]> (ids tw).
Proof.
  intros Hs Ht Ps Pt Is It. pose proof (pane_in_window _ _ _ (win_order _ Hs) Ps) as Ws. pose proof (pane_in_window _ _ _ (win_order _ Ht) Pt) as Wt.
  destruct (proj2 (active_id_lookup sw (win_order _ Hs))) as [sa Hsa]. destruct (proj2 (active_id_lookup tw (win_order _ Ht))) as [ta Hta].
  destruct (swap_side_ok si target (pane_id source) (swap_detached o) (swap_preserve_zoom o) now sw sa Hs Ws Is Hsa)
    as (b & s1 & s2 & E1 & E2 & E3).
  destruct (swap_side_ok ti source (pane_id target) (swap_detached o) (swap_preserve_zoom o) now tw ta Ht Wt It Hta)
    as (b' & t1 & t2 & F1 & F2 & F3).
  unfold apply_swap_between_windows. change (pane_id <$> active sw) with (active_id sw). change (pane_id <$> active tw) with (active_id tw).
  rewrite Hsa, Hta. cbn [mbind option_bind]. cbv zeta. rewrite E1, F1. cbn [mbind option_bind]. rewrite E2. cbn [mbind option_bind].
  rewrite F2. cbn [mbind option_bind].
  destruct (E3 (i ← last_pane sw; pane_id <$> pane i sw)) as (s3 & s4 & -> & E4 & Hok1 & Hi1).
  destruct (F3 (i ← last_pane tw; pane_id <$> pane i tw)) as (t3 & t4 & -> & F4 & Hok2 & Hi2). cbn [mbind option_bind].
  rewrite E4, F4. cbn [mbind option_bind]. eexists _, _. by split_and!.
Qed.

(** ** Joining is safe *)

Lemma fold_max_ge l x : x <= fold_left Z.max l x /\ forall y, y ∈ l -> y <= fold_left Z.max l x.
Proof.
  revert x. induction l as [|z l IH]; intros x; cbn; [split; [lia|intros y H; inversion H]|].
  destruct (IH (Z.max x z)) as [H1 H2]. split; [lia|]. intros y Hy. apply elem_of_cons in Hy as [->|Hy]; [lia|by apply H2].
Qed.

Lemma transient_fresh w : window_ok w -> transient_index w ∉ indexes_of w.
Proof.
  intros Hok Hin. destruct (fold_max_ge (indexes_of w) 0) as [_ Hmax]. pose proof (Hmax _ Hin) as Hle.
  assert (forall y, y ∈ indexes_of w -> y < u32_max) as Hb.
  { intros y Hy. rewrite (ok_indexes w (win_order _ Hok)) in Hy. apply list_elem_of_fmap in Hy as (k & -> & Hk).
    apply list_elem_of_In, List.in_seq in Hk. destruct (ok_count w (win_order _ Hok)). unfold u16_max, u32_max in *. lia. }
  assert (fold_left Z.max (indexes_of w) 0 < u32_max) as Hlt.
  { assert (forall l x, x < u32_max -> (forall y, y ∈ l -> y < u32_max) -> fold_left Z.max l x < u32_max) as Hf.
    { clear. induction l as [|y l IH]; intros x Hx Hl; cbn; [done|]. apply IH; [|intros z Hz; apply Hl; by right].
      specialize (Hl y (list_elem_of_here _ _)). lia. }
    apply Hf; [done|exact Hb]. }
  unfold transient_index, u32_sat_add, sat_add in Hle. change (map pane_index (panes w)) with (indexes_of w) in Hle.
  unfold u32_max in *. lia.
Qed.

Lemma unzoomed_window_ok w :
  window_ok w -> exists w1, unzoomed w = Some w1 /\ window_ok w1 /\ zoomed w1 = false /\ same_order w w1.
Proof.
  intros [Ho Hl Hp]. destruct (unzoomed_ok w Hl) as (w1 & E & Hs & Hz & Hr & Hpl). exists w1. split_and!; try done.
  apply placed_window_ok; [by eapply same_order_ok|done|done|congruence].
Qed.

(** The window after the pane has moved, before it is renumbered. *)
Definition moved_window (source_id : Z) (w w' : Window) (r : result Z RmuxError) : Prop :=
  match r with
  | Err _ => window_ok w'
  | Ok id => id = source_id /\ ids w' ≡ₚ ids w /\ renumberable w' /\ zoomed w' = false
  end.

Lemma join_move_ok source target o w p :
  window_ok w -> pane source w = Some p -> in_window target w = true -> source <> target ->
  exists r w', join_move source target (Z.to_nat source) (Z.to_nat target) o w = Some (r, w') /\ moved_window (pane_id p) w w' r.
Proof.
  intros Hok Hp Ht Hne. pose proof (pane_in_window _ _ _ (win_order _ Hok) Hp) as Hs. pose proof (two_panes _ _ w Hs Ht Hne) as H2.
  destruct (in_window_pane source w (win_order _ Hok) Hs) as (p' & Hp' & Hid). rewrite Hp in Hp'. injection Hp' as <-.
  unfold join_move. destruct (join_full_size o).
  - destruct (unzoomed_window_ok w Hok) as (w1 & -> & Hw1 & Hz1 & Hs1). cbn [mbind option_bind].
    pose proof (same_order_count _ _ Hs1) as Hc1. assert (in_window source w1 = true) as Hs' by (unfold in_window in *; by rewrite Hc1).
    destruct (extract_pane_ok source w1 Hw1 Hs' ltac:(lia)) as (q & w2 & -> & Hw2 & Hq & Hd & _). cbn [mbind option_bind].
    rewrite (same_ids _ _ Hs1) in Hq, Hd. assert (pane_id q = pane_id p) as Eq by congruence. set (moved := set_index _ q).
    assert (count w2 = (count w - 1)%nat) as Hc2.
    { rewrite !count_ids, Hd, length_delete by (by eexists). done. }
    destruct (ok_count w (win_order _ Hok)) as [_ Hn].
    destruct (insert_full_size_ok moved (join_direction o) (join_before o) w2 Hw2) as (r & w3 & -> & H3); [rewrite Hc2; lia|].
    cbn [mbind option_bind]. rewrite bool_decide_eq_true_2 in H3.
    + destruct H3 as [-> [Hi3 Hz3 Hr3]]. eexists _, w3. split; [done|]. cbn. split_and!; [done| |done|done].
      rewrite Hi3, Hd. cbn. rewrite Eq. rewrite (delete_Permutation (ids w) (Z.to_nat source) _ Hid) at 3.
      destruct (join_before o); [done|]. by rewrite Permutation_app_comm.
    + cbn. split; [|by apply transient_fresh]. rewrite Hd, Eq. pose proof (ok_ids w (win_order _ Hok)) as Hnd.
      rewrite (delete_Permutation _ _ _ Hid) in Hnd. by apply NoDup_cons in Hnd as [? _].
  - apply andb_true_iff in Hs as [? ?], Ht as [? ?].
    destruct (move_pane_ok (Z.to_nat source) (Z.to_nat target)
      (if join_before o then adjusted_insert_position_before (Z.to_nat source) (Z.to_nat target)
       else adjusted_insert_position (Z.to_nat source) (Z.to_nat target)) (join_direction o) (join_before o) w Hok) as (r & w' & E & Hr);
      [lia|lia|unfold adjusted_insert_position, adjusted_insert_position_before; destruct (join_before o), (Nat.ltb_spec (Z.to_nat source) (Z.to_nat target)); lia|].
    exists r, w'. split; [done|]. destruct r as [id|e]; [|by destruct Hr as (_ & ? & _)]. destruct Hr as (Hid' & Hids & Hz & Hren).
    rewrite Hid in Hid'. injection Hid' as <-. cbn. split_and!; try done. rewrite Hids. by apply moved_ids_perm.
Qed.

Lemma detached_active_in source target_id a L w p :
  window_ok w -> pane source w = Some p -> (2 <= count w)%nat -> active_id w = Some a -> last_id w = L ->
  exists x, (detached_selection (Z.to_nat source) (pane_id p) target_id a L w).1 = Some x /\ x ∈ ids w.
Proof.
  intros Hok Hp H2 Ha HL. pose proof (win_order _ Hok) as Ho. unfold detached_selection. cbn [fst].
  assert (a ∈ ids w) as Hain by (eapply list_elem_of_lookup_2; rewrite <- (proj1 (active_id_lookup w Ho)); done).
  destruct (a =? pane_id p); [|by exists a].
  assert (forall l, L = Some l -> l ∈ ids w) as HLin by (intros l ->; by apply (last_id_facts w l Ho)).
  destruct (l ← L; if l =? pane_id p then None else Some l) as [x|] eqn:E.
  - exists x. split; [done|]. destruct L as [l|]; [|done]. cbn in E. destruct (l =? pane_id p); [done|]. injection E as <-. by apply HLin.
  - pose proof (pane_in_window _ _ _ Ho Hp) as [? ?]%andb_true_iff. set (k := if (0 <? Z.to_nat source)%nat then _ else _).
    assert (k < count w)%nat as Hk by (unfold k; destruct (Nat.ltb_spec 0 (Z.to_nat source)); lia).
    destruct (lookup_lt_is_Some_2 (panes w) k Hk) as [q Hq]. rewrite Hq. exists (pane_id q). split; [done|].
    apply (list_elem_of_lookup_2 _ k). unfold ids. by rewrite list_lookup_fmap, Hq.
Qed.

Lemma accepts_own_pane w k p l :
  NoDup (map pane_id l) -> NoDup (map pane_index l) -> forall j, l !! k = Some p -> accepts_loop p (Some (j + k)%nat) j l w = Ok tt.
Proof.
  revert k. induction l as [|q l IH]; intros k Hn1 Hn2 j Hk; [done|]. cbn [map] in Hn1, Hn2.
  apply NoDup_cons in Hn1 as [N1 Hn1], Hn2 as [N2 Hn2]. cbn [accepts_loop]. destruct k as [|k]; cbn in Hk.
  - injection Hk as ->. rewrite decide_True by (f_equal; lia). rewrite Nat.add_0_r.
    assert (forall l i, (j < i)%nat -> pane_id p ∉ map pane_id l -> pane_index p ∉ map pane_index l -> accepts_loop p (Some j) i l w = Ok tt) as Hall.
    { clear. induction l as [|q l IH]; intros i Hi H1 H2; [done|]. cbn [map] in H1, H2. apply not_elem_of_cons in H1 as [? H1], H2 as [? H2].
      cbn [accepts_loop]. rewrite decide_False by (intros [=]; lia). rewrite !(proj2 (Z.eqb_neq _ _)) by congruence. apply IH; [lia|done|done]. }
    apply Hall; [lia|done|done].
  - rewrite decide_False by (intros [=]; lia).
    assert (pane_id p ∈ map pane_id l) as M1 by (apply list_elem_of_fmap_2; by eapply list_elem_of_lookup_2).
    assert (pane_index p ∈ map pane_index l) as M2 by (apply list_elem_of_fmap_2; by eapply list_elem_of_lookup_2).
    rewrite !(proj2 (Z.eqb_neq _ _)) by congruence. replace (j + S k)%nat with (S j + k)%nat by lia. by apply IH.
Qed.

Lemma indexes_NoDup w : order_ok w -> NoDup (indexes_of w).
Proof. intros Ho. rewrite (ok_indexes w Ho). apply NoDup_fmap_2; [apply _|apply NoDup_seq]. Qed.

(** The part of a join that selects the moved pane, or keeps the selection. *)
Definition join_renumber (detached : bool) (moved : Z) (detached_active detached_last : option Z) (active_before : Z)
    (last_before : option Z) (now : Z) (w : Window) : option Window :=
  if detached then a ← detached_active; renumber_panes_by_position a detached_last w
  else renumber_panes_by_position_stamping moved (if active_before =? moved then last_before else Some active_before)
         (Some active_before) now w.

Lemma join_renumber_ok detached moved da dl a L now w x :
  renumberable w -> zoomed w = false -> moved ∈ ids w -> da = Some x -> x ∈ ids w ->
  exists w', join_renumber detached moved da dl a L now w = Some w' /\ window_ok w' /\ ids w' = ids w /\
    active_id w' = Some (if detached then x else moved).
Proof.
  intros Hr Hz Hm -> Hx. unfold join_renumber. destruct detached; cbn [mbind option_bind].
  - destruct (renumber_unzoomed x dl w Hr Hz Hx) as (w' & ? & ? & ? & _ & ?). eauto.
  - destruct (stamping_ok moved (if a =? moved then L else Some a) (Some a) now w Hr Hz Hm) as (w' & ? & ? & ? & _ & ?). eauto.
Qed.

Lemma join_within_ok session wi source target o now w :
  window_ok w ->
  exists r w', join_pane_within_window session wi source target o now w = Some (r, w') /\ window_ok w' /\
    (r = Ok tt -> ids w' ≡ₚ ids w).
Proof.
  intros Hok. pose proof (win_order _ Hok) as Ho. unfold join_pane_within_window.
  destruct (Z.eqb_spec source target) as [->|Hne]; [by eexists (Err _), w|].
  rewrite !pane_position_ok by done. fold (in_window source w) (in_window target w).
  destruct (in_window source w) eqn:Hs; [|by eexists (Err _), w]. destruct (in_window target w) eqn:Ht; [|by eexists (Err _), w].
  pose proof (two_panes _ _ _ Hs Ht Hne) as H2.
  destruct (in_window_pane source w Ho Hs) as (p & Hp & Hpid). destruct (in_window_pane target w Ho Ht) as (q & Hq & Hqid).
  rewrite Hp, Hq. cbn [mbind option_bind].
  assert (ensure_accepts_pane p (Some (Z.to_nat source)) w = Ok tt) as ->.
  { apply (accepts_own_pane w (Z.to_nat source) p (panes w) (ok_ids w Ho) (indexes_NoDup w Ho) 0).
    rewrite pane_ok in Hp by done. fold (in_window source w) in Hp. by rewrite Hs in Hp. }
  destruct (join_requested_size _ _ _ _ _) as [requested|e] eqn:Er; [|by eexists (Err _), w].
  change (pane_id <$> active w) with (active_id w). destruct (proj2 (active_id_lookup w Ho)) as [a Ha]. rewrite Ha.
  cbn [mbind option_bind]. change (i ← last_pane w; pane_id <$> pane i w) with (last_id w).
  destruct (detached_active_in source (pane_id q) a (last_id w) w p Hok Hp H2 Ha eq_refl) as (x & Hx & Hxin).
  destruct (detached_selection _ _ _ _ _ _) as [da dl]. cbn [fst] in Hx.
  destruct (join_move_ok source target o w p Hok Hp Ht Hne) as (r & w1 & -> & Hmv). cbn [mbind option_bind].
  destruct r as [moved|e]; [|by eexists (Err _), w1]. destruct Hmv as (-> & Hperm & Hren & Hz).
  destruct (join_renumber_ok (join_detached o) (pane_id p) da dl a (last_id w) now w1 x Hren Hz) as (w2 & E2 & Hw2 & Hi2 & _); [|done|by rewrite Hperm|].
  { rewrite Hperm. by eapply list_elem_of_lookup_2. }
  unfold join_renumber in E2. rewrite E2. cbn [mbind option_bind].
  assert (forall y, y ∈ ids w -> exists i, pane_index_for_id y w2 = Some i) as Hidx.
  { intros y Hy. rewrite (pane_index_for_id_ok y w2 (ok_indexes _ (win_order _ Hw2))), Hi2.
    destruct (id_position y (ids w1)) as [k|] eqn:E; [by eexists|]. apply id_position_None in E. by rewrite Hperm in E. }
  destruct (Hidx (pane_id p)) as [mi ->]; [by eapply list_elem_of_lookup_2|]. cbn [mbind option_bind].
  destruct requested as [n|]; [|eexists _, w2; split_and!; [done|done|intros _; by rewrite Hi2]].
  destruct (Hidx (pane_id q)) as [qi Hqi]; [by eapply list_elem_of_lookup_2|]. rewrite Hqi.
  match goal with |- context [if ?c then _ else _] => destruct c end; cbn [mbind option_bind].
  - destruct (window_resize_pane_to_ok qi (join_direction o) (Z.max (sat_sub (join_axis_for_size (size_of_geometry (pane_geometry p)) (join_direction o)) n) 1) w2 Hw2)
      as (b & w3 & -> & Hw3 & Hi3). cbn [mbind option_bind]. eexists _, w3. split_and!; [done|done|intros _; by rewrite Hi3, Hi2].
  - destruct (window_resize_pane_to_ok mi (join_direction o) n w2 Hw2) as (b & w3 & -> & Hw3 & Hi3).
    cbn [mbind option_bind]. eexists _, w3. split_and!; [done|done|intros _; by rewrite Hi3, Hi2].
Qed.

Lemma resize_new_split_ok i d n before w :
  window_ok w -> exists b w', resize_new_split_pane_to i d n before w = Some (b, w') /\ window_ok w' /\ ids w' = ids w.
Proof.
  intros Hok. unfold resize_new_split_pane_to. destruct before; [by apply window_resize_pane_to_ok|].
  rewrite pane_position_ok by apply Hok. destruct ((0 <=? i) && (i <? Z.of_nat (count w))) eqn:E; [|by exists false, w].
  apply andb_true_iff in E as [E1 E2]. destruct (Z.to_nat i) as [|k] eqn:Ek; [by apply window_resize_pane_to_ok|].
  destruct (lookup_lt_is_Some_2 (panes w) k) as [p ->]; [change (k < count w)%nat; lia|].
  destruct (lookup_lt_is_Some_2 (panes w) (S k)) as [q ->]; [change (S k < count w)%nat; lia|].
  by apply window_resize_pane_to_ok.
Qed.

End Kept.
