(* ===== verification/WindowRun.v ===== *)
(** * Windows, over whole runs

    The operations a session calls on a window as one step function, the
    windows that sequences of them reach from a new window, and what holds of
    all of those: no operation panics and the window invariant is kept, with the
    exact rectangles of a zoomed window as long as no layout is forced on one.  Also
    the functional behaviour of the operations, the zoom round trip, and two
    places where the code leaves a window inconsistent. *)

From S2P Require Import Prelude Panes Text Errors LayoutCell LayoutTree LayoutNamed LayoutText.
From S2P Require Import LayoutOffsets LayoutShape Window WindowInv WindowOps WindowMove PaneTransfer.

(** ** Operations *)

Inductive WindowOp :=
| SelectPane (i : Z)
| SelectPaneById (id : Z)
| SelectAdjacent (i : Z) (d : SelectPaneDirection)
| ToggleZoom (i : Z)
| SetSize (size : TerminalSize)
| SplitAt (pos : nat) (id : Z) (d : SplitDirection) (before detached : bool)
| RemovePane (i : Z)
| RemoveOthers (i : Z)
| Rotate (d : RotateWindowDirection) (restore : bool)
| SwapPanes (source target : Z)
| SwapWithin (session : string) (window_index source target : Z) (o : PaneSwapOptions)
| JoinWithin (session : string) (window_index source target : Z) (o : PaneJoinOptions)
| LastPane (preserve_zoom : bool)
| SetLayout (name : LayoutName) (main_width main_height : option Z)
| NextLayout (main_width main_height : option Z)
| PreviousLayout (main_width main_height : option Z)
| CustomLayout (layout : text)
| SaveOldLayout
| OldLayout
| SpreadLayout (i : Z)
| ResizeMain (adjustment : ResizePaneAdjustment)
| ResizeAxis (axis : LayoutDirection) (i size : Z)
| ResizeTo (i : Z) (d : SplitDirection) (size : Z)
| ResizeBy (i : Z) (adjustment : ResizePaneAdjustment)
| ResizeNewSplit (i : Z) (d : SplitDirection) (size : Z) (before : bool)
| Respawn (id : Z)
| QueueAlerts (flags : Z)
| TouchActivity (i : Z).

Definition run_op (now : Z) (op : WindowOp) (w : Window) : option Window :=
  match op with
  | SelectPane i => snd <$> select_pane i now w
  | SelectPaneById id => snd <$> select_pane_by_id id now w
  | SelectAdjacent i d => snd <$> select_adjacent_pane i d now w
  | ToggleZoom i => snd <$> toggle_zoom i now w
  | SetSize size => set_size size w
  | SplitAt pos id d before detached => snd <$> split_at_position pos id d before detached now w
  | RemovePane i => snd <$> remove_pane i w
  | RemoveOthers i => snd <$> remove_other_panes i now w
  | Rotate d restore => rotate_panes_with_zoom d restore now w
  | SwapPanes source target => snd <$> swap_panes source target w
  | SwapWithin session wi source target o => snd <$> swap_panes_within_window session wi source target o now w
  | JoinWithin session wi source target o => snd <$> join_pane_within_window session wi source target o now w
  | LastPane preserve_zoom => snd <$> last_pane_with_zoom preserve_zoom now w
  | SetLayout name mw mh => set_layout_with_main_pane_size name mw mh w
  | NextLayout mw mh => snd <$> next_layout mw mh w
  | PreviousLayout mw mh => snd <$> previous_layout mw mh w
  | CustomLayout layout => snd <$> apply_custom_layout layout w
  | SaveOldLayout => Some (save_old_layout w)
  | OldLayout => snd <$> reapply_old_layout w
  | SpreadLayout i => snd <$> spread_layout i w
  | ResizeMain adj => resize_main_pane adj now w
  | ResizeAxis axis i size => snd <$> resize_pane_axis axis i size w
  | ResizeTo i d size => snd <$> window_resize_pane_to i d size w
  | ResizeBy i adj => snd <$> window_resize_pane_by i adj w
  | ResizeNewSplit i d size before => snd <$> resize_new_split_pane_to i d size before w
  | Respawn id => Some (respawn id now w)
  | QueueAlerts flags => Some (queue_alerts flags w)
  | TouchActivity i => Some (snd (touch_activity_for_pane i now w))
  end.

(** What the callers guarantee: a split names an existing position and a fresh
    pane id in a window that has room for one more pane. *)
Definition op_allowed (op : WindowOp) (w : Window) : bool :=
  match op with
  | SplitAt pos id _ _ _ => (pos <? count w)%nat && bool_decide (id ∉ ids w) && (Z.of_nat (S (count w)) <=? u16_max)
  | _ => true
  end.

(** The three layout operations that place the panes of a zoomed window without
    unzooming it.  Nothing prevents them: they are the one way to a stale zoom. *)
Definition relayouts_zoomed (op : WindowOp) (w : Window) : bool :=
  match op with
  | CustomLayout _ | OldLayout | SpreadLayout _ => zoomed w
  | _ => false
  end.

(** Steps between windows, and the windows runs reach: all of them when [stale],
    and otherwise those on whose way no zoomed window was laid out anew. *)
Inductive window_step (stale : bool) : Window -> Window -> Prop :=
| step_op now op w w' :
    op_allowed op w = true -> (stale = false -> relayouts_zoomed op w = false) -> run_op now op w = Some w' ->
    window_step stale w w'.

Inductive window_reachable (stale : bool) : Window -> Prop :=
| reach_new size id wid now w : window_new_with_initial_pane size id wid now = Some w -> window_reachable stale w
| reach_step w w' : window_reachable stale w -> window_step stale w w' -> window_reachable stale w'.

(** ** Every operation keeps the invariant *)

Lemma snd_ok {A} (r : option (A * Window)) a w : r = Some (a, w) -> snd <$> r = Some w.
Proof. by intros ->. Qed.

Section Kept.
Context {stale : bool}.
Local Notation window_ok := (window_ok_at stale).

Lemma queue_alerts_ok flags w : window_ok w -> window_ok (queue_alerts flags w).
Proof. intros [Ho Hl Hp]. split; [apply (same_order_ok w); [by split|done]|by apply (layout_ok_same w)|done]. Qed.

Lemma touch_activity_ok i now w : window_ok w -> window_ok (touch_activity_for_pane i now w).2.
Proof.
  intros [Ho Hl Hp]. unfold touch_activity_for_pane. destruct (pane_position i w) as [k|]; [|done]. cbn [snd].
  split; [|apply (layout_ok_same w); try done; by apply alter_map|done].
  apply (same_order_ok w); [|done]. by split; try done; apply alter_map.
Qed.

Ltac use_ok H := let E := fresh in let Hw := fresh in destruct H as (? & ? & E & Hw & _); rewrite (snd_ok _ _ _ E); by eauto.

Lemma window_op_ok now op w :
  window_ok w -> op_allowed op w = true -> (stale = false -> relayouts_zoomed op w = false) ->
  exists w', run_op now op w = Some w' /\ window_ok w'.
Proof.
  intros Hok Hpre Hz. destruct op; cbn [run_op op_allowed relayouts_zoomed] in *.
  - destruct (select_pane_ok i now w Hok) as (w' & E & Hw & _). rewrite (snd_ok _ _ _ E). eauto.
  - use_ok (select_pane_by_id_ok id now w Hok).
  - destruct (pane i w) as [p|] eqn:Hp; [|unfold select_adjacent_pane; rewrite Hp; by eauto].
    use_ok (select_adjacent_ok i d now w p Hok Hp).
  - use_ok (toggle_zoom_ok i now w Hok).
  - destruct (set_size_ok size w Hok) as (w' & E & Hw & _). eauto.
  - apply andb_true_iff in Hpre as [[H1 H2]%andb_true_iff H3]. apply Nat.ltb_lt in H1. apply bool_decide_eq_true in H2. apply Z.leb_le in H3.
    destruct (split_at_position_ok pos id d before detached now w Hok H1 H2 H3) as (w' & E & Hw & _). rewrite (snd_ok _ _ _ E). eauto.
  - use_ok (window_remove_ok i w Hok).
  - use_ok (remove_other_panes_ok i now w Hok).
  - destruct (rotate_ok d restore now w Hok) as (w' & E & Hw & _). eauto.
  - use_ok (swap_ok source target w Hok).
  - use_ok (swap_within_ok session window_index source target o now w Hok).
  - use_ok (join_within_ok session window_index source target o now w Hok).
  - use_ok (last_pane_with_zoom_ok preserve_zoom now w Hok).
  - destruct (set_layout_ok name main_width main_height w Hok) as (w' & E & Hw & _). eauto.
  - use_ok (next_layout_ok main_width main_height w Hok).
  - use_ok (previous_layout_ok main_width main_height w Hok).
  - use_ok (apply_custom_layout_ok layout w Hok Hz).
  - eexists. split; [done|]. by apply window_ok_old_layout.
  - use_ok (reapply_old_layout_ok w Hok Hz).
  - use_ok (spread_layout_ok i w Hok Hz).
  - destruct (resize_main_pane_ok adjustment now w Hok) as (w' & E & Hw & _). eauto.
  - use_ok (resize_pane_axis_ok axis i size w Hok).
  - use_ok (window_resize_pane_to_ok i d size w Hok).
  - use_ok (window_resize_pane_by_ok i adjustment w Hok).
  - use_ok (resize_new_split_ok i d size before w Hok).
  - eexists. split; [done|]. by apply respawn_ok.
  - eexists. split; [done|]. by apply queue_alerts_ok.
  - eexists. split; [done|]. by apply touch_activity_ok.
Qed.

Lemma reachable_ok w : window_reachable stale w -> window_ok w.
Proof.
  induction 1 as [size id wid now w E|w w' _ IH Hstep].
  - destruct (window_new_ok (stale := stale) size id wid now) as (w0 & E0 & Hw & _). congruence.
  - destruct Hstep as [now op w w' Hpre Hz E]. destruct (window_op_ok now op w IH Hpre Hz) as (w0 & E0 & Hw). congruence.
Qed.

End Kept.

(** ** Zooming and unzooming *)

Lemma fix_children_again d x y cursor x0 y0 cursor0 cs :
  Forall (fun c => forall x y x0 y0, fix_offsets x y (fix_offsets x0 y0 c) = fix_offsets x y c) cs ->
  fix_children_offsets fix_offsets d x y cursor (fix_children_offsets fix_offsets d x0 y0 cursor0 cs) =
  fix_children_offsets fix_offsets d x y cursor cs.
Proof.
  intros H. revert cursor cursor0. induction H as [|c cs Hc Hcs IH]; intros cursor cursor0; [done|].
  rewrite !fix_children_offsets_cons, Hc, IH. done.
Qed.

Lemma fix_offsets_again x y x0 y0 c : fix_offsets x y (fix_offsets x0 y0 c) = fix_offsets x y c.
Proof.
  revert x y x0 y0. induction c as [g|g d cs IH] using LayoutCell_rect_strong; intros x y x0 y0; [done|].
  simpl. do 2 f_equal. by apply fix_children_again.
Qed.

(** A tree whose offsets follow from its sizes, in a window of at most 65535
    columns and rows: what every layout operation leaves. *)
Record settled (t : LayoutTree) : Prop := {
  settled_offsets : fix_offsets 0 0 (root t) = root t;
  settled_width : in_u16 (width (geometry (root t)));
  settled_height : in_u16 (height (geometry (root t)));
}.

Lemma resize_axis_zero d t : resize_axis d 0 t = t.
Proof. unfold resize_axis. cbv zeta. rewrite !(andb_comm _ (0 <? 0)). by cbn. Qed.

Lemma resize_settled t : settled t -> resize (tree_size t) t = t.
Proof.
  intros [Ho [W1 W2] [H1 H2]]. unfold resize, tree_size. cbn [cols rows].
  rewrite !Z.min_l by done. rewrite (as_i32_small (width _)) by machine. rewrite Z.sub_diag.
  change (as_i32 0) with 0. rewrite resize_axis_zero. rewrite (as_i32_small (height _)) by machine. rewrite Z.sub_diag.
  change (as_i32 0) with 0. rewrite resize_axis_zero, Ho. by destruct t.
Qed.

(** Selecting in a window that is not zoomed leaves the layout alone. *)
Lemma select_pane_layout i now w b w' :
  zoomed w = false -> select_pane i now w = Some (b, w') ->
  layout_tree w' = layout_tree w /\ win_size w' = win_size w /\ geometries w' = geometries w /\ count w' = count w /\ zoomed w' = false.
Proof.
  intros Hz. unfold select_pane. destruct (pane i w); [|by intros [= _ <-]]. destruct (_ =? _).
  - intros [= _ <-]. destruct (update_pane_rest i (touch_activity now) w) as (R1 & R2 & R3 & _).
    rewrite R1, R2, R3, update_pane_geometries by done. split_and!; try done.
    apply same_order_count, update_pane_order. done.
  - unfold unzoomed, auto_unzoom. rewrite Hz. cbn. intros [= _ <-]. unfold mark_pane_active.
    match goal with |- context [update_pane ?i ?f ?u] => destruct (update_pane_rest i f u) as (R1 & R2 & R3 & _);
      rewrite R1, R2, R3, update_pane_geometries by done; pose proof (same_order_count _ _ (update_pane_order i f u ltac:(done))) as Hc end.
    done.
Qed.

Lemma zoom_then_unzoom i j now now' w t :
  window_ok w -> zoomed w = false -> (2 <= count w)%nat -> in_window i w = true -> in_window j w = true ->
  layout_tree w = Some t -> settled t ->
  exists w1 w2, toggle_zoom i now w = Some (true, w1) /\ toggle_zoom j now' w1 = Some (false, w2) /\
    zoomed w1 = true /\ active_pane w1 = i /\ geometries w1 = <[Z.to_nat i := full_geometry (win_size w)]> (geometries w) /\
    zoomed w2 = false /\ active_pane w2 = i /\ geometries w2 = geometries w /\ layout_tree w2 = Some t /\ win_size w2 = win_size w.
Proof.
  intros Hok Hz H2 Hi Hj Ht Hst. destruct (toggle_zoom_ok i now w Hok) as (b & w1 & E1 & Hw1 & Hids1 & Hb).
  revert E1. unfold toggle_zoom. pose proof (pane_is_Some i w (win_order _ Hok)) as Hp. rewrite Hi in Hp. destruct Hp as [p ->]. rewrite Hz.
  rewrite (proj2 (Nat.leb_gt _ _)) by exact H2. destruct (select_pane_ok i now w Hok) as (w0 & E0 & Hw0 & Hi0 & _ & Ha0).
  specialize (Ha0 Hi). destruct (select_pane_layout _ _ _ _ _ Hz E0) as (L1 & L2 & L3 & L4 & L5). rewrite E0. cbn [mbind option_bind].
  intros [= <- <-]. clear Hb. set (w1 := apply_zoom_geometry _) in *.
  destruct (update_pane_rest (active_pane (with_zoomed true w0)) (set_geometry (full_geometry (win_size (with_zoomed true w0)))) (with_zoomed true w0))
    as (R1 & R2 & R3 & R4 & R5). fold w1 in R1, R2, R3, R4, R5 || idtac.
  change (layout_tree w1 = layout_tree w0) in R1. change (win_size w1 = win_size w0) in R2. change (zoomed w1 = true) in R3.
  change (active_pane w1 = active_pane w0) in R5.
  assert (count w1 = count w) as Hc1 by (rewrite !count_ids; congruence).
  destruct (win_layout _ Hw1) as [(t1 & gs & T1 & T2 & T3 & T4 & T5%shown_exact) _]. assert (t1 = t) as -> by congruence. rewrite R3 in T5.
  destruct (layout_ok_placed w (win_layout _ Hok) Hz) as (t0 & gs0 & T1' & _ & _ & T4' & T5'). assert (t0 = t) as -> by congruence.
  rewrite Hc1 in T4. assert (gs0 = gs) as -> by congruence.
  assert (recalculate_geometry (with_zoomed false w1) = apply_layout_tree (with_win_size (win_size w1) (with_layout_tree (Some t) (with_zoomed false w1)))) as Hrec.
  { unfold recalculate_geometry. cbn [layout_tree win_size with_zoomed]. rewrite T1, T3, resize_settled by done. done. }
  destruct (apply_layout_tree_ok (with_win_size (win_size w1) (with_layout_tree (Some t) (with_zoomed false w1))) t) as (w2 & E2 & Hs2 & [Z1 Z2] & Hp2);
    [done|exact T2|exact T3|].
  exists w1, w2. destruct Hp2 as (t2 & gs2 & U1 & U2 & U3 & U4 & U5).
  assert (layout_tree w2 = Some t /\ win_size w2 = win_size w1) as [V1 V2].
  { revert E2. unfold apply_layout_tree. cbn [layout_tree with_win_size with_layout_tree]. destruct (apply_to_panes _ _); [|done].
    cbn. by intros [= <-]. }
  assert (t2 = t) as -> by congruence. pose proof (same_order_count _ _ Hs2) as Hc2. change (count w2 = count w1) in Hc2.
  rewrite Hc2, Hc1 in U4. assert (gs2 = gs) as -> by congruence.
  split_and!; try done; try congruence.
  - pose proof (pane_is_Some j w1 (win_order _ Hw1)) as Hpj. unfold in_window in Hpj, Hj. rewrite Hc1 in Hpj. rewrite Hj in Hpj.
    destruct Hpj as [q ->]. rewrite R3. unfold unzoomed, auto_unzoom. rewrite R3, Hrec, E2. done.
  - rewrite (same_active _ _ Hs2). change (active_pane w1 = i). congruence.
Qed.

(** ** Properties *)

(** C7. No operation on a window panics, in whatever order operations are applied
    to a new window: in every window they reach pane ids are distinct, panes are
    numbered by position, the active pane and the last pane exist and differ, the
    layout tree has one leaf per pane and the window's size, and the panes'
    rectangles are the ones the tree gives, with the active pane at full size when
    the window is zoomed.  That last clause has an exception that the code does
    not rule out: a custom, old or spread layout applied to a zoomed window leaves
    it zoomed with every pane where the tree puts it.  With [stale = true] runs may
    do so and the invariant allows for exactly that; with [stale = false] they do
    not and it does not.  A split names an existing position and a new pane id in
    a window of fewer than 65535 panes. *)
Theorem window_operations_safe stale now op w :
  window_reachable stale w -> op_allowed op w = true -> (stale = false -> relayouts_zoomed op w = false) ->
  window_ok_at stale w /\ exists w', run_op now op w = Some w' /\ window_ok_at stale w' /\ window_reachable stale w'.
Proof.
  intros Hr Hpre Hz. pose proof (reachable_ok w Hr) as Hok. split; [done|].
  destruct (window_op_ok now op w Hok Hpre Hz) as (w' & E & Hw). exists w'. split_and!; [done|done|].
  eapply reach_step; [exact Hr|]. by econstructor.
Qed.

Definition demo_size : TerminalSize := mkTerminalSize 80 24.

(** A window run from its creation through the given operations. *)
Definition demo (ops : list WindowOp) : option Window :=
  fold_left (fun w op => w ← w; run_op 5 op w) ops (window_new_with_initial_pane demo_size 10 1 0).

Lemma demo_reachable stale ops w :
  demo ops = Some w ->
  (forall k w0, demo (take k ops) = Some w0 -> forall op, ops !! k = Some op ->
     op_allowed op w0 && (stale || negb (relayouts_zoomed op w0)) = true) -> window_reachable stale w.
Proof.
  revert w. induction ops as [|op ops IH] using rev_ind; intros w E Hpre.
  - by eapply reach_new.
  - unfold demo in E. rewrite fold_left_app in E. change ((u ← demo ops; run_op 5 op u) = Some w) in E.
    destruct (demo ops) as [w0|] eqn:E0; [|done]. cbn [mbind option_bind] in E.
    eapply reach_step.
    + apply IH; [done|]. intros k w1 E1 op1 Hk. apply (Hpre k w1); [|by apply lookup_app_l_Some].
      rewrite take_app_le; [done|]. apply lookup_lt_Some in Hk. lia.
    + assert (op_allowed op w0 && (stale || negb (relayouts_zoomed op w0)) = true) as [H1 H2]%andb_true_iff.
      { apply (Hpre (length ops) w0); [by rewrite take_app_length|]. by rewrite lookup_app_r, Nat.sub_diag. }
      econstructor; [exact H1| |exact E]. intros ->. by apply negb_true_iff in H2.
Qed.

Definition one_pane : Window :=
  Eval vm_compute in default (respawn 0 0 (mkWindow 0 [] 0 0 None MainVertical None None false None demo_size None true false false 0 false 0 0 None None)) (demo []).

Definition two_panes_window : Window := Eval vm_compute in default one_pane (demo [SplitAt 0 11 Vertical false false]).

Lemma one_pane_eq : demo [] = Some one_pane.
Proof. vm_compute. reflexivity. Qed.

Lemma two_panes_eq : demo [SplitAt 0 11 Vertical false false] = Some two_panes_window.
Proof. vm_compute. reflexivity. Qed.

Lemma two_panes_reachable stale : window_reachable stale two_panes_window.
Proof.
  apply (demo_reachable _ _ _ two_panes_eq). intros [|[|k]] w0 E0 op Hk; [|done|done]. injection Hk as <-.
  change (take 0 [SplitAt 0 11 Vertical false false]) with (@nil WindowOp) in E0. rewrite one_pane_eq in E0. injection E0 as <-.
  by destruct stale; vm_compute.
Qed.

Definition zoomed_window : Window :=
  Eval vm_compute in default one_pane (demo [SplitAt 0 11 Vertical false false; ToggleZoom 1]).

Lemma zoomed_reachable stale : window_reachable stale zoomed_window.
Proof.
  eapply reach_step; [apply two_panes_reachable|]. apply (step_op _ 5 (ToggleZoom 1)); [reflexivity|done|]. vm_compute. reflexivity.
Qed.

Lemma window_operations_safe_witness :
  (exists w', run_op 7 (ToggleZoom 0) two_panes_window = Some w' /\ window_ok w') /\
  (exists w', run_op 7 (SpreadLayout 0) zoomed_window = Some w' /\ zoomed w' = true /\ window_ok_at true w').
Proof.
  split.
  - destruct (proj2 (window_operations_safe false 7 (ToggleZoom 0) two_panes_window (two_panes_reachable false) eq_refl (fun _ => eq_refl))) as (w' & E' & Hw & _).
    exists w'. split; [exact E'|exact Hw].
  - destruct (proj2 (window_operations_safe true 7 (SpreadLayout 0) zoomed_window (zoomed_reachable true) eq_refl ltac:(discriminate))) as (w' & E' & Hw & _).
    exists w'. split; [exact E'|]. split; [|exact Hw].
    assert (zoomed <$> run_op 7 (SpreadLayout 0) zoomed_window = Some true) as Hz by (vm_compute; reflexivity).
    rewrite E' in Hz. cbn in Hz. by injection Hz.
Defined.

(** C14. A split puts the new pane's id into the list of panes at the position
    after the one it was given, or at that position itself with [-b], keeps every
    other pane in its order and leaves the window consistent and unzoomed.  The
    panes are numbered by position again, so the index it returns is the new
    pane's position and the panes behind it move up by one.  The new pane becomes
    active and the pane that was active becomes the last one; a detached split
    changes neither.  The theorem is about the list of panes: which rectangle is
    divided is decided by the layout tree, and in a mirrored layout it is not the
    rectangle of the pane at that position. *)
Theorem split_inserts_pane pos id d (before detached : bool) now w :
  window_ok w -> (pos < count w)%nat -> id ∉ ids w -> Z.of_nat (S (count w)) <= u16_max ->
  let at_ := if before then pos else S pos in
  exists w', split_at_position pos id d before detached now w = Some (Z.of_nat at_, w') /\ window_ok w' /\
    ids w' = take at_ (ids w) ++ id :: drop at_ (ids w) /\ zoomed w' = false /\
    if detached then active_id w' = active_id w /\ last_id w' = last_id w
    else active_pane w' = Z.of_nat at_ /\ last_id w' = active_id w.
Proof. apply split_at_position_ok. Qed.

Lemma split_inserts_pane_witness :
  exists w', split_at_position 0 12 Horizontal true true 9 two_panes_window = Some (0, w') /\
    ids w' = [12; 10; 11] /\ active_id w' = Some 11.
Proof.
  destruct (split_inserts_pane 0 12 Horizontal true true 9 two_panes_window (reachable_ok _ (two_panes_reachable false))) as (w' & E' & _ & Hi & _ & Ha & _).
  - vm_compute. lia.
  - vm_compute. set_solver.
  - vm_compute. discriminate.
  - exists w'. split_and!; [exact E'|exact Hi|exact Ha].
Defined.

(** C15. Removing a pane takes exactly that pane out.  When it was the active one
    the last pane becomes active, or without a last pane the neighbour before it
    (after it for the first pane), and no pane is last any more; otherwise the
    active pane stays and so does the last one unless it is the pane removed. *)
Theorem remove_selects_survivor i w :
  window_ok w -> in_window i w = true -> (2 <= count w)%nat ->
  exists p w', remove_pane i w = Some (Some p, w') /\ window_ok w' /\ ids w !! Z.to_nat i = Some (pane_id p) /\
    ids w' = delete (Z.to_nat i) (ids w) /\ active_id w' = survivor (Z.to_nat i) w /\
    last_id w' = last_after_removal (Z.to_nat i) w.
Proof.
  intros Hok Hi H2. destruct (extract_pane_ok i w Hok Hi H2) as (p & w' & E & ? & ? & ? & _ & ? & ?).
  exists p, w'. unfold remove_pane. rewrite (proj2 (Nat.leb_gt _ _)) by exact H2. by split_and!.
Qed.

Lemma remove_selects_survivor_witness :
  exists p w', remove_pane 1 two_panes_window = Some (Some p, w') /\ ids w' = [10] /\ active_id w' = Some 10.
Proof.
  destruct (remove_selects_survivor 1 two_panes_window (reachable_ok _ (two_panes_reachable false))) as (p & w' & E' & _ & _ & Hi & Ha & _).
  - reflexivity.
  - vm_compute. lia.
  - exists p, w'. split_and!; [exact E'|exact Hi|exact Ha].
Defined.

(** C18. Zooming a pane and zooming again restores the window exactly: the same
    tree, size and rectangles, with the zoomed pane active.  While zoomed that
    pane has the window's size and no other rectangle has changed. *)
Theorem zoom_roundtrip i j now now' w t :
  window_ok w -> zoomed w = false -> (2 <= count w)%nat -> in_window i w = true -> in_window j w = true ->
  layout_tree w = Some t -> settled t ->
  exists w1 w2, toggle_zoom i now w = Some (true, w1) /\ toggle_zoom j now' w1 = Some (false, w2) /\
    zoomed w1 = true /\ active_pane w1 = i /\ geometries w1 = <[Z.to_nat i := full_geometry (win_size w)]> (geometries w) /\
    zoomed w2 = false /\ active_pane w2 = i /\ geometries w2 = geometries w /\ layout_tree w2 = Some t /\ win_size w2 = win_size w.
Proof. apply zoom_then_unzoom. Qed.

Definition two_panes_tree : LayoutTree := Eval vm_compute in default (single demo_size) (layout_tree two_panes_window).

Lemma zoom_roundtrip_witness :
  exists w1 w2, toggle_zoom 0 7 two_panes_window = Some (true, w1) /\ toggle_zoom 1 8 w1 = Some (false, w2) /\
    geometries w1 = [mkPaneGeometry 0 0 80 24; mkPaneGeometry 41 0 39 24] /\
    geometries w2 = [mkPaneGeometry 0 0 40 24; mkPaneGeometry 41 0 39 24].
Proof.
  destruct (zoom_roundtrip 0 1 7 8 two_panes_window two_panes_tree (reachable_ok _ (two_panes_reachable false)))
    as (w1 & w2 & E1 & E2 & _ & _ & G1 & _ & _ & G2 & _).
  - reflexivity.
  - vm_compute. lia.
  - reflexivity.
  - reflexivity.
  - reflexivity.
  - split; vm_compute; (reflexivity || (split; discriminate)).
  - exists w1, w2. split_and!; [exact E1|exact E2|exact G1|exact G2].
Defined.

(** Rotating moves every pane one place and keeps the selected slot: the pane
    that arrives there is active, the pane that was active is the last one, and
    a zoomed window is zoomed again exactly when that was asked for. *)
Theorem rotate_keeps_slot d restore now w :
  window_ok w -> (2 <= count w)%nat ->
  exists w', rotate_panes_with_zoom d restore now w = Some w' /\ window_ok w' /\ ids w' = rotate d (ids w) /\
    active_pane w' = active_pane w /\ zoomed w' = zoomed w && restore /\
    last_id w' = (a ← active_id w; if decide (active_id w' = Some a) then None else Some a).
Proof.
  intros Hok H2. destruct (rotate_ok d restore now w Hok) as (w' & E & Hw & H). exists w'.
  rewrite (proj2 (Nat.leb_gt _ _)) in H by lia. destruct H as (? & ? & ? & ?). by split_and!.
Qed.

Lemma rotate_keeps_slot_witness :
  exists w', rotate_panes_with_zoom RotateUp false 9 two_panes_window = Some w' /\ ids w' = [11; 10] /\ active_pane w' = 1.
Proof.
  destruct (rotate_keeps_slot RotateUp false 9 two_panes_window (reachable_ok _ (two_panes_reachable false))) as (w' & E & _ & Hi & Ha & _).
  - vm_compute. lia.
  - exists w'. split_and!; [exact E|exact Hi|exact Ha].
Defined.

(** Swapping panes between two windows exchanges their ids at their places,
    without an error or a panic, and leaves both windows consistent. *)
Theorem swap_between_windows_exchanges sw si source tw ti target o now :
  window_ok sw -> window_ok tw -> pane si sw = Some source -> pane ti tw = Some target ->
  pane_id target ∉ delete (Z.to_nat si) (ids sw) -> pane_id source ∉ delete (Z.to_nat ti) (ids tw) ->
  exists sw' tw', apply_swap_between_windows sw si source tw ti target o now = Some (Ok tt, sw', tw') /\
    window_ok sw' /\ window_ok tw' /\ ids sw' = <[Z.to_nat si := pane_id target]> (ids sw) /\
    ids tw' = <[Z.to_nat ti := pane_id source]> (ids tw).
Proof. apply apply_swap_ok. Qed.

Definition other_window : Window := respawn 20 3 two_panes_window.

Lemma swap_between_windows_exchanges_witness :
  exists p q sw' tw', pane 1 two_panes_window = Some p /\ pane 0 other_window = Some q /\
    apply_swap_between_windows two_panes_window 1 p other_window 0 q (mkSwapOptions false false) 9 = Some (Ok tt, sw', tw') /\
    ids sw' = [10; 20] /\ ids tw' = [11].
Proof.
  eexists _, _. destruct (swap_between_windows_exchanges two_panes_window 1 _ other_window 0 _ (mkSwapOptions false false) 9
    (reachable_ok _ (two_panes_reachable false)) (proj1 (respawn_ok 20 3 two_panes_window (reachable_ok _ (two_panes_reachable false)))) eq_refl eq_refl)
    as (sw' & tw' & E & _ & _ & H1 & H2).
  - vm_compute. set_solver.
  - vm_compute. intros H. inversion H.
  - exists sw', tw'. split_and!; [reflexivity|reflexivity|exact E|exact H1|exact H2].
Defined.

(** Moving the selection in a direction picks, among the panes that border the
    given pane on that side (wrapping around the window), the one most recently
    active, and makes it active; without such a pane nothing changes. *)
Theorem adjacent_selection_most_recent i d now w p :
  window_ok w -> pane i w = Some p ->
  let reach := reachable_from (pane_geometry p) d (win_size w) i in
  exists c w', select_adjacent_pane i d now w = Some (Some c, w') /\ window_ok w' /\ ids w' = ids w /\ active_pane w' = c /\
    ((exists q, q ∈ panes w /\ pane_index q = c /\ reach q = true /\
        forall r, r ∈ panes w -> reach r = true -> active_point r <= active_point q) \/
     (w' = w /\ forall q, q ∈ panes w -> reach q = false)).
Proof. apply select_adjacent_ok. Qed.

Lemma adjacent_selection_most_recent_witness :
  exists w', select_adjacent_pane 0 SelectLeft 9 two_panes_window = Some (Some 1, w') /\ active_pane w' = 1.
Proof.
  destruct (adjacent_selection_most_recent 0 SelectLeft 9 two_panes_window _ (reachable_ok _ (two_panes_reachable false)) eq_refl) as (c & w' & E & _ & _ & A & _).
  assert (c = 1) as ->.
  { assert (Some (Some c) = fst <$> select_adjacent_pane 0 SelectLeft 9 two_panes_window) as H by (by rewrite E).
    vm_compute in H. by injection H. }
  exists w'. split; [exact E|exact A].
Defined.

(** ** Where the code leaves a window inconsistent *)

(** [apply_custom_layout] does not unzoom: given a zoomed window, even its own
    layout string, it gives the zoomed pane its tiled rectangle while the window
    stays marked as zoomed. *)
Theorem custom_layout_breaks_zoom :
  window_ok zoomed_window /\
  exists w', apply_custom_layout (layout_dump zoomed_window) zoomed_window = Some (Ok tt, w') /\
    zoomed w' = true /\ pane_geometry <$> active w' = Some (mkPaneGeometry 41 0 39 24) /\
    full_geometry (win_size w') = mkPaneGeometry 0 0 80 24 /\ ~ window_ok w'.
Proof.
  split.
  { destruct (toggle_zoom_ok 1 5 two_panes_window (reachable_ok _ (two_panes_reachable false))) as (b & w & E & Hw & _).
    assert (toggle_zoom 1 5 two_panes_window = Some (true, zoomed_window)) as E' by (vm_compute; reflexivity). congruence. }
  eexists. split; [vm_compute; reflexivity|]. split_and!; [reflexivity..|]. intros [_ [(t & gs & T1 & _ & _ & T4 & T5%shown_exact) _] _].
  injection T1 as <-. vm_compute in T4. injection T4 as <-. vm_compute in T5. discriminate.
Qed.

(** A directional resize records the main pane's size from before the resize,
    so the next rebuild of the named layout undoes it: the main pane grows from
    40 to 45 columns, and a later height change puts it back at 40. *)
Theorem directional_resize_forgotten :
  exists w1 w2, window_resize_pane_by 0 (AdjustRight 5) two_panes_window = Some (true, w1) /\
    pane_cols <$> (pane_geometry <$> pane 0 w1) = Some 45 /\ requested_main_width w1 = Some 40 /\
    resize_main_pane (AbsoluteHeight 24) 9 w1 = Some w2 /\ pane_cols <$> (pane_geometry <$> pane 0 w2) = Some 40.
Proof. eexists _, _. split; [vm_compute; reflexivity|]. split_and!; vm_compute; reflexivity. Qed.

Definition stacked_window : Window :=
  Eval vm_compute in default one_pane (demo [SplitAt 0 11 Horizontal false false]).

(** [insert_pane_at_position] before the second pane divides the first one:
    of two stacked panes of 12 and 11 rows the upper one loses half its rows and
    the lower one, next to which the pane was to be put, keeps all of its own,
    while a split before that pane divides it. *)
Theorem insert_before_divides_previous :
  exists w1 w2, insert_pane_at_position 1 (new_with_id 0 30 9 (mkPaneGeometry 0 0 0 0)) Horizontal stacked_window = Some (Ok tt, w1) /\
    map (fun p => (pane_id p, pane_rows (pane_geometry p))) (panes w1) = [(10, 6); (30, 5); (11, 11)] /\
    split_at_position 1 30 Horizontal true false 0 stacked_window = Some (1, w2) /\
    map (fun p => (pane_id p, pane_rows (pane_geometry p))) (panes w2) = [(10, 12); (30, 5); (11, 5)].
Proof. eexists _, _. split; [vm_compute; reflexivity|]. split_and!; vm_compute; reflexivity. Qed.
