(* ===== verification/Session.v ===== *)
(** * Sessions

    [Session] of [crates/rmux-core/src/session.rs] with [session/window_ops.rs],
    [session/window_ops/navigation.rs], [session/accessors.rs],
    [session/layout_cycle.rs] and [session/resize.rs]: the windows of a session
    by index, which of them is active and which was, their alert flags, and the
    operations on them and on their panes.

    A [BTreeMap] is a [gmap] whose iteration order is the sorted list of its keys.
    The window-id allocator is an atomic counter that all sessions of a store
    share, so it is not a field: operations that allocate take its value and
    return the new one.  The clock and the recency token are arguments.  A panic
    is [None]. *)

From stdpp Require Import sorting.
From S2P Require Import Prelude Panes Text Errors LayoutCell LayoutTree LayoutNamed LayoutText.
From S2P Require Import LayoutShape Window WindowInv WindowOps WindowMove PaneTransfer.

(** ** Ordered maps *)

(** The keys in iteration order. *)
Definition sorted_keys {A} (m : gmap Z A) : list Z := merge_sort Z.le (map fst (map_to_list m)).

(** [range(..bound).next_back()] and [range((Excluded(bound), Unbounded)).next_back()]. *)
Definition last_below {A} (bound : Z) (m : gmap Z A) : option Z := last (filter (fun k => k < bound) (sorted_keys m)).

Definition last_above {A} (bound : Z) (m : gmap Z A) : option Z := last (filter (fun k => bound < k) (sorted_keys m)).

(** ** Data *)

Record Session := mkSession {
  ses_id : Z;
  ses_name : string;
  group_name : option string;
  terminal_size : TerminalSize;
  windows : gmap Z Window;
  winlink_alert_flags : gmap Z Z;
  active_window : Z;
  last_window : option Z;
  group_initial_window_id : option Z;
  next_pane_id : Z;
  ses_created : Z;
  ses_activity : Z;
  last_attached_at : option Z;
  recency : Z;
  cwd : option string;
}.

Definition with_windows (v : gmap Z Window) (s : Session) : Session :=
  mkSession (ses_id s) (ses_name s) (group_name s) (terminal_size s) v (winlink_alert_flags s) (active_window s)
    (last_window s) (group_initial_window_id s) (next_pane_id s) (ses_created s) (ses_activity s)
    (last_attached_at s) (recency s) (cwd s).

Definition with_flags (v : gmap Z Z) (s : Session) : Session :=
  mkSession (ses_id s) (ses_name s) (group_name s) (terminal_size s) (windows s) v (active_window s)
    (last_window s) (group_initial_window_id s) (next_pane_id s) (ses_created s) (ses_activity s)
    (last_attached_at s) (recency s) (cwd s).

Definition with_active_window (v : Z) (s : Session) : Session :=
  mkSession (ses_id s) (ses_name s) (group_name s) (terminal_size s) (windows s) (winlink_alert_flags s) v
    (last_window s) (group_initial_window_id s) (next_pane_id s) (ses_created s) (ses_activity s)
    (last_attached_at s) (recency s) (cwd s).

Definition with_last_window (v : option Z) (s : Session) : Session :=
  mkSession (ses_id s) (ses_name s) (group_name s) (terminal_size s) (windows s) (winlink_alert_flags s)
    (active_window s) v (group_initial_window_id s) (next_pane_id s) (ses_created s) (ses_activity s)
    (last_attached_at s) (recency s) (cwd s).

Definition with_group_initial (v : option Z) (s : Session) : Session :=
  mkSession (ses_id s) (ses_name s) (group_name s) (terminal_size s) (windows s) (winlink_alert_flags s)
    (active_window s) (last_window s) v (next_pane_id s) (ses_created s) (ses_activity s) (last_attached_at s)
    (recency s) (cwd s).

Definition with_next_pane_id (v : Z) (s : Session) : Session :=
  mkSession (ses_id s) (ses_name s) (group_name s) (terminal_size s) (windows s) (winlink_alert_flags s)
    (active_window s) (last_window s) (group_initial_window_id s) v (ses_created s) (ses_activity s)
    (last_attached_at s) (recency s) (cwd s).

Definition set_terminal_size (v : TerminalSize) (s : Session) : Session :=
  mkSession (ses_id s) (ses_name s) (group_name s) v (windows s) (winlink_alert_flags s) (active_window s)
    (last_window s) (group_initial_window_id s) (next_pane_id s) (ses_created s) (ses_activity s)
    (last_attached_at s) (recency s) (cwd s).

Definition touch_attached (now token : Z) (s : Session) : Session :=
  mkSession (ses_id s) (ses_name s) (group_name s) (terminal_size s) (windows s) (winlink_alert_flags s)
    (active_window s) (last_window s) (group_initial_window_id s) (next_pane_id s) (ses_created s) now (Some now)
    token (cwd s).

Definition touch_session_activity (now token : Z) (s : Session) : Session :=
  mkSession (ses_id s) (ses_name s) (group_name s) (terminal_size s) (windows s) (winlink_alert_flags s)
    (active_window s) (last_window s) (group_initial_window_id s) (next_pane_id s) (ses_created s) now
    (last_attached_at s) token (cwd s).

Definition new_with_initial_window (name : string) (size : TerminalSize) (window_index pane_id window_id now token : Z)
  : option Session :=
  w ← window_new_with_initial_pane size pane_id window_id now;
  Some (mkSession 0 name None size {[ window_index := w ]} {[ window_index := 0 ]} window_index None None
          (u32_sat_add pane_id 1) now now None token None).

(** ** Identities *)

Definition window_contains (id : Z) (w : Window) : bool := existsb (fun p => pane_id p =? id) (panes w).

Definition contains_pane_id (id : Z) (s : Session) : bool :=
  existsb (fun kw => window_contains id kw.2) (map_to_list (windows s)).

Definition window_index_for_pane_id (id : Z) (s : Session) : option Z :=
  List.find (fun k => match windows s !! k with Some w => window_contains id w | None => false end)
    (sorted_keys (windows s)).

(** The loop of [allocate_pane_id]; one round more than there are panes is
    enough to find a free id. *)
Fixpoint allocate_pane_loop (fuel : nat) (next : Z) (s : Session) : option Z :=
  match fuel with
  | O => None
  | S fuel =>
      if negb (contains_pane_id next s) then Some next
      else if next =? u32_max then None
      else allocate_pane_loop fuel (next + 1) s
  end.

Definition pane_total (s : Session) : nat := sum_list_with (fun kw => length (panes kw.2)) (map_to_list (windows s)).

Definition allocate_pane_id (s : Session) : option (Z * Session) :=
  id ← allocate_pane_loop (S (pane_total s)) (next_pane_id s) s;
  Some (id, with_next_pane_id (u32_sat_add id 1) s).

(** [WindowIdAllocator::allocate] and [bump_to] on the shared counter. *)
Definition allocate_window_id (next : Z) : option (Z * Z) := if next =? u32_max then None else Some (next, next + 1).

Definition bump_window_ids (id next : Z) : Z := Z.max next id.

Definition space_exhausted (s : Session) : RmuxError :=
  Server (string_of (text_of "window index space exhausted for session " ++ text_of (ses_name s))).

Fixpoint lowest_loop (keys : list Z) (next : Z) (s : Session) : result Z RmuxError :=
  match keys with
  | [] => Ok next
  | k :: rest =>
      if k <? next then lowest_loop rest next s
      else if next <? k then Ok next
      else if next =? u32_max then Err (space_exhausted s)
      else lowest_loop rest (next + 1) s
  end.

Definition lowest_available_window_index_at_or_above (minimum : Z) (s : Session) : result Z RmuxError :=
  lowest_loop (sorted_keys (windows s)) minimum s.

Definition bump_allocators_for_window (w : Window) (next : Z) (s : Session) : Z * Session :=
  let bumped :=
    match panes w with
    | [] => next_pane_id s
    | p :: rest => fold_left Z.max (map (fun p => u32_sat_add (pane_id p) 1) rest) (u32_sat_add (pane_id p) 1)
    end in
  (bump_window_ids (u32_sat_add (win_id w) 1) next, with_next_pane_id (Z.max (next_pane_id s) bumped) s).

(** ** Alert flags *)

Definition WINLINK_ALERTFLAGS : Z := 7.

Definition winlink_flags (i : Z) (s : Session) : Z := default 0 (winlink_alert_flags s !! i).

Definition add_winlink_alert_flags (i flags : Z) (s : Session) : bool * Session :=
  match windows s !! i with
  | None => (false, s)
  | Some _ =>
      let entry := winlink_flags i s in
      (negb (flags_contains entry flags), with_flags (<[i := Z.lor entry flags]> (winlink_alert_flags s)) s)
  end.

Definition clear_winlink_alert_flags (i flags : Z) (s : Session) : bool * Session :=
  match winlink_alert_flags s !! i with
  | None => (false, s)
  | Some entry =>
      if negb (flags_intersects entry flags) then (false, s)
      else (true, with_flags (<[i := Z.land entry (Z.lxor 255 flags)]> (winlink_alert_flags s)) s)
  end.

Definition clear_all_winlink_alert_flags (i : Z) (s : Session) : bool * Session :=
  clear_winlink_alert_flags i WINLINK_ALERTFLAGS s.

Definition session_alert_flags (s : Session) : Z :=
  fold_left (fun acc kf => Z.lor acc kf.2) (map_to_list (winlink_alert_flags s)) 0.

Definition alerted_window_indexes (s : Session) : list Z :=
  filter (fun k => flags_intersects (winlink_flags k s) WINLINK_ALERTFLAGS = true) (sorted_keys (winlink_alert_flags s)).

(** ** Choosing a window *)

Definition cyclic_previous_window_index (m : gmap Z Window) (removed : Z) : option Z :=
  match last_below removed m with Some k => Some k | None => last_above removed m end.

Definition next_active_window_after_removal (removed : Z) (s : Session) : option Z :=
  match (l ← last_window s; if negb (l =? removed) && bool_decide (is_Some (windows s !! l)) then Some l else None) with
  | Some l => Some l
  | None =>
      match (g ← group_initial_window_id s;
             List.find (fun k => negb (k =? removed) && bool_decide (win_id <$> windows s !! k = Some g))
               (sorted_keys (windows s))) with
      | Some k => Some k
      | None => cyclic_previous_window_index (windows s) removed
      end
  end.

Definition synchronized_active_window (m : gmap Z Window) (previous_active : Z) (previous_last : option Z) : option Z :=
  if bool_decide (is_Some (m !! previous_active)) then Some previous_active
  else
    match (l ← previous_last; if negb (l =? previous_active) && bool_decide (is_Some (m !! l)) then Some l else None) with
    | Some l => Some l
    | None => cyclic_previous_window_index m previous_active
    end.

Definition select_window (i : Z) (s : Session) : result unit RmuxError * Session :=
  match windows s !! i with
  | None => (Err (invalid_window_target (ses_name s) i), s)
  | Some _ =>
      if active_window s =? i then (Ok tt, s)
      else
        let s := with_group_initial None (with_active_window i (with_last_window (Some (active_window s)) s)) in
        (Ok tt, snd (clear_all_winlink_alert_flags i s))
  end.

(** The other windows in cyclic order from [start]. *)
Definition ordered_window_indexes_after (start : Z) (forward : bool) (s : Session) : list Z :=
  let ordered := sorted_keys (windows s) in
  match position (fun k => k =? start) ordered with
  | None => []
  | Some k =>
      let n := length ordered in
      omap (fun offset => ordered !! (if forward then (k + offset) mod n else (k + n - offset) mod n)%nat) (seq 1 (n - 1))
  end.

(** [next_window_alert_mode] and [previous_window_alert_mode]. *)
Definition step_window (forward alerts_only : bool) (s : Session) : result Z RmuxError * Session :=
  let none := Err (Message (if forward then "no next window" else "no previous window")) in
  if (size (windows s) <=? 1)%nat then (none, s)
  else
    match
      List.find (fun k => negb alerts_only || flags_intersects (winlink_flags k s) WINLINK_ALERTFLAGS)
        (ordered_window_indexes_after (active_window s) forward s)
    with
    | None => (none, s)
    | Some k =>
        match select_window k s with
        | (Err e, s) => (Err e, s)
        | (Ok _, s) => (Ok k, s)
        end
    end.

Definition select_last_window (s : Session) : result Z RmuxError * Session :=
  match last_window s with
  | None => (Err (Message "no last window"), s)
  | Some l =>
      match select_window l s with
      | (Err e, s) => (Err e, s)
      | (Ok _, s) => (Ok l, s)
      end
  end.

Definition restore_last_window_after_active_unlink (s : Session) : Session :=
  match last_window s with
  | Some _ => s
  | None => with_last_window (head (ordered_window_indexes_after (active_window s) true s)) s
  end.

(** ** Adding, removing and moving windows *)

Definition index_exists (i : Z) (s : Session) : RmuxError :=
  invalid_window_target_with_reason (ses_name s) i "window index already exists in session".

Definition insert_slot (i : Z) (w : Window) (s : Session) : Session :=
  with_flags (<[i := 0]> (winlink_alert_flags s)) (with_windows (<[i := w]> (windows s)) s).

Definition create_window_at_or_above_with_pane_id (size : TerminalSize) (minimum pane_id next now : Z) (s : Session)
  : option (result (Z * Z) RmuxError * Z * Session) :=
  match lowest_available_window_index_at_or_above minimum s with
  | Err e => Some (Err e, next, s)
  | Ok i =>
      '(wid, next) ← allocate_window_id next;
      w ← window_new_with_initial_pane size pane_id wid now;
      Some (Ok (i, pane_id), next, insert_slot i w s)
  end.

Definition insert_window_with_initial_pane_with_id (i : Z) (size : TerminalSize) (pane_id next now : Z) (s : Session)
  : option (result unit RmuxError * Z * Session) :=
  match windows s !! i with
  | Some _ => Some (Err (index_exists i s), next, s)
  | None =>
      '(wid, next) ← allocate_window_id next;
      w ← window_new_with_initial_pane size pane_id wid now;
      Some (Ok tt, next, insert_slot i w s)
  end.

Definition create_window_at_or_above (size : TerminalSize) (minimum next now : Z) (s : Session)
  : option (result (Z * Z) RmuxError * Z * Session) :=
  '(id, s) ← allocate_pane_id s;
  create_window_at_or_above_with_pane_id size minimum id next now s.

Definition insert_window_with_initial_pane (i : Z) (size : TerminalSize) (next now : Z) (s : Session)
  : option (result unit RmuxError * Z * Session) :=
  '(id, s) ← allocate_pane_id s;
  insert_window_with_initial_pane_with_id i size id next now s.

Definition insert_existing_window (i : Z) (w : Window) (next : Z) (s : Session) : result unit RmuxError * Z * Session :=
  match windows s !! i with
  | Some _ => (Err (index_exists i s), next, s)
  | None =>
      let '(next, s) := bump_allocators_for_window w next s in
      (Ok tt, next, insert_slot i w s)
  end.

Definition replace_window (i : Z) (w : Window) (next : Z) (s : Session) : result Window RmuxError * Z * Session :=
  match windows s !! i with
  | None => (Err (invalid_window_target (ses_name s) i), next, s)
  | Some old =>
      let '(next, s) := bump_allocators_for_window w next s in
      (Ok old, next, with_windows (<[i := w]> (windows s)) s)
  end.

Definition remove_window_allowing_empty (i : Z) (s : Session) : option (result Window RmuxError * Session) :=
  match windows s !! i with
  | None => Some (Err (invalid_window_target (ses_name s) i), s)
  | Some removed =>
      next_active ←
        (if (active_window s =? i) && (1 <? size (windows s))%nat
         then Some <$> next_active_window_after_removal i s else Some None);
      let s := with_flags (delete i (winlink_alert_flags s)) (with_windows (delete i (windows s)) s) in
      s ← match next_active with
          | None => Some s
          | Some k => match select_window k s with (Ok _, s) => Some s | (Err _, _) => None end
          end;
      Some (Ok removed, if decide (last_window s = Some i) then with_last_window None s else s)
  end.

Definition remove_window (i : Z) (s : Session) : option (result Window RmuxError * Session) :=
  match windows s !! i with
  | None => Some (Err (invalid_window_target (ses_name s) i), s)
  | Some _ =>
      if (size (windows s) =? 1)%nat then
        Some (Err (Server (string_of (text_of "cannot kill the only window in session " ++ text_of (ses_name s)))), s)
      else remove_window_allowing_empty i s
  end.

Definition link_window (i : Z) (w : Window) (kill select : bool) (next : Z) (s : Session)
  : result (option Window) RmuxError * Z * Session :=
  let selecting (removed : option Window) (next : Z) (s : Session) : result (option Window) RmuxError * Z * Session :=
    if select then
      match select_window i s with
      | (Err e, s) => (Err e, next, s)
      | (Ok _, s) => (Ok removed, next, s)
      end
    else (Ok removed, next, s) in
  if bool_decide (is_Some (windows s !! i)) && negb kill then (Err (index_exists i s), next, s)
  else if kill then
    match replace_window i w next s with
    | (Err e, next, s) => (Err e, next, s)
    | (Ok removed, next, s) => selecting (Some removed) next (snd (clear_all_winlink_alert_flags i s))
    end
  else
    match insert_existing_window i w next s with
    | (Err e, next, s) => (Err e, next, s)
    | (Ok _, next, s) => selecting None next s
    end.

Definition next_active_window_after_detach (removed : Z) (previous_last : option Z) (s : Session) : option Z :=
  match (l ← previous_last; if negb (l =? removed) && bool_decide (is_Some (windows s !! l)) then Some l else None) with
  | Some l => Some l
  | None => cyclic_previous_window_index (windows s) removed
  end.

Definition preserved_last_after_selecting_destination (source destination : Z) (previous_last : option Z) (s : Session)
  : option Z :=
  l ← previous_last;
  if negb (l =? source) && negb (l =? destination) && bool_decide (is_Some (windows s !! l)) then Some l else None.

Definition apply_move_tracking (source destination previous_active : Z) (previous_last : option Z) (select : bool) (s : Session)
  : option Session :=
  let source_was_active := previous_active =? source in
  let destination_was_active := previous_active =? destination in
  a ←
    (if source_was_active then
       if select then Some destination else next_active_window_after_detach source previous_last s
     else if select then Some destination else Some previous_active);
  let s := with_active_window a s in
  let l :=
    if source_was_active then
      if select then preserved_last_after_selecting_destination source destination previous_last s else None
    else if select then
      if destination_was_active then preserved_last_after_selecting_destination source destination previous_last s
      else Some previous_active
    else if bool_decide (previous_last = Some source) then None
    else l ← previous_last; if bool_decide (is_Some (windows s !! l)) then Some l else None in
  Some (with_last_window (if bool_decide (l = Some a) then None else l) s).

Definition move_window (source destination : Z) (kill select : bool) (s : Session)
  : option (result (option Window) RmuxError * Session) :=
  match windows s !! source with
  | None => Some (Err (invalid_window_target (ses_name s) source), s)
  | Some moved =>
      if source =? destination then Some (Ok None, s)
      else if bool_decide (is_Some (windows s !! destination)) && negb kill then Some (Err (index_exists destination s), s)
      else
        let previous_active := active_window s in
        let previous_last := last_window s in
        let flags := winlink_flags source s in
        let s := with_flags (delete source (winlink_alert_flags s)) (with_windows (delete source (windows s)) s) in
        let removed := if kill then windows s !! destination else None in
        let s :=
          if kill then
            with_windows (delete destination (windows s)) (with_flags (delete destination (winlink_alert_flags s)) s)
          else s in
        let s := with_windows (<[destination := moved]> (windows s)) s in
        let s := with_flags (<[destination := flags]> (winlink_alert_flags s)) s in
        s ← apply_move_tracking source destination previous_active previous_last select s;
        Some (Ok removed, s)
  end.

Fixpoint make_room_loop (sources : list Z) (s : Session) : option (result (list (Z * Z)) RmuxError * Session) :=
  match sources with
  | [] => Some (Ok [], s)
  | i :: rest =>
      if i =? u32_max then Some (Err (space_exhausted s), s)
      else
        '(res, s) ← move_window i (i + 1) false false s;
        match res with
        | Err e => Some (Err e, s)
        | Ok _ =>
            '(res, s) ← make_room_loop rest s;
            Some (match res with Err e => Err e | Ok m => Ok (m ++ [(i, i + 1)]) end, s)
        end
  end.

(** [window_index..first_gap] in descending order. *)
Definition shifted_range (lo hi : Z) : list Z := reverse (map (fun k => lo + Z.of_nat k) (seq 0 (Z.to_nat (hi - lo)))).

(** The map is listed by increasing source index. *)
Definition make_room_for_window (i : Z) (s : Session) : option (result (list (Z * Z)) RmuxError * Session) :=
  match lowest_available_window_index_at_or_above i s with
  | Err e => Some (Err e, s)
  | Ok first_gap => if first_gap =? i then Some (Ok [], s) else make_room_loop (shifted_range i first_gap) s
  end.

Definition swap_windows (source destination : Z) (s : Session) : result unit RmuxError * Session :=
  match windows s !! source, windows s !! destination with
  | None, _ => (Err (invalid_window_target (ses_name s) source), s)
  | _, None => (Err (invalid_window_target (ses_name s) destination), s)
  | Some a, Some b =>
      if source =? destination then (Ok tt, s)
      else
        let fa := winlink_flags source s in
        let fb := winlink_flags destination s in
        (Ok tt,
         with_flags (<[destination := fa]> (<[source := fb]> (delete destination (delete source (winlink_alert_flags s)))))
           (with_windows (<[destination := a]> (<[source := b]> (delete destination (delete source (windows s))))) s))
  end.

(** Old and new index of each window. *)
Definition index_map (first : Z) (keys : list Z) : list (Z * Z) := imap (fun k i => (i, first + Z.of_nat k)) keys.

Definition map_index (m : list (Z * Z)) (i : Z) : option Z := snd <$> List.find (fun kv => kv.1 =? i) m.

Definition reindexed {A} (m : list (Z * Z)) (t : gmap Z A) : gmap Z A :=
  list_to_map (omap (fun kv => v ← t !! kv.1; Some (kv.2, v)) m).

Definition reindex_windows_from (first : Z) (s : Session) : option (result (list (Z * Z)) RmuxError * Session) :=
  let keys := sorted_keys (windows s) in
  if negb (length keys =? 0)%nat && (u32_max <? first + Z.of_nat (length keys - 1)) then Some (Err (space_exhausted s), s)
  else
    let m := index_map first keys in
    let s1 := with_flags (reindexed m (winlink_alert_flags s)) (with_windows (reindexed m (windows s)) s) in
    a ← map_index m (active_window s);
    Some (Ok m, with_last_window (l ← last_window s; map_index m l) (with_active_window a s1)).

(** ** Operations on one window *)

(** [resolve_window_target_mut] and the method called on it. *)
Definition on_window {A} (i : Z) (f : Window -> option (A * Window)) (s : Session) : option (result A RmuxError * Session) :=
  match windows s !! i with
  | None => Some (Err (invalid_window_target (ses_name s) i), s)
  | Some w => '(a, w) ← f w; Some (Ok a, with_windows (<[i := w]> (windows s)) s)
  end.

(** The same after checking that the pane exists. *)
Definition on_pane {A} (i p : Z) (f : Window -> option (result A RmuxError * Window)) (s : Session)
  : option (result A RmuxError * Session) :=
  match windows s !! i with
  | None => Some (Err (invalid_window_target (ses_name s) i), s)
  | Some w =>
      match pane p w with
      | None => Some (Err (missing_pane (ses_name s) i p), s)
      | Some _ => '(a, w) ← f w; Some (a, with_windows (<[i := w]> (windows s)) s)
      end
  end.

Definition ok_of {A} (r : option (A * Window)) : option (result A RmuxError * Window) := '(a, w) ← r; Some (Ok a, w).

Definition done_with {A} (r : option (A * Window)) : option (result unit RmuxError * Window) := '(_, w) ← r; Some (Ok tt, w).

Definition unit_of (r : option Window) : option (unit * Window) := w ← r; Some (tt, w).

Definition rename_window (i : Z) (name : string) : Session -> option (result unit RmuxError * Session) :=
  on_window i (fun w => Some (tt, set_name name w)).

Definition set_automatic_window_name (i : Z) (name : string) : Session -> option (result unit RmuxError * Session) :=
  on_window i (fun w => Some (tt, if automatic_rename w then set_automatic_name name w else w)).

Definition rotate_window_with_zoom (i : Z) (d : RotateWindowDirection) (restore : bool) (now : Z)
  : Session -> option (result unit RmuxError * Session) :=
  on_window i (fun w => unit_of (rotate_panes_with_zoom d restore now w)).

Definition resize_window (i : Z) (size : TerminalSize) : Session -> option (result unit RmuxError * Session) :=
  on_window i (fun w => unit_of (set_size size w)).

Definition respawn_window_with_pane_id (i id now : Z) : Session -> option (result Z RmuxError * Session) :=
  on_window i (fun w => Some (id, respawn id now w)).

Definition respawn_window (i now : Z) (s : Session) : option (result Z RmuxError * Session) :=
  match windows s !! i with
  | None => Some (Err (invalid_window_target (ses_name s) i), s)
  | Some w =>
      match head (panes w) with
      | None => Some (Err (Server "window has no panes"), s)
      | Some p => respawn_window_with_pane_id i (pane_id p) now s
      end
  end.

Definition select_layout_in_window_with_main_pane_size (i : Z) (name : LayoutName) (mw mh : option Z)
  : Session -> option (result unit RmuxError * Session) :=
  on_window i (fun w => unit_of (set_layout_with_main_pane_size name mw mh w)).

Definition next_layout_in_window (i : Z) (mw mh : option Z) : Session -> option (result LayoutName RmuxError * Session) :=
  on_window i (next_layout mw mh).

Definition previous_layout_in_window (i : Z) (mw mh : option Z) : Session -> option (result LayoutName RmuxError * Session) :=
  on_window i (previous_layout mw mh).

Definition flatten {A} (r : option (result (result A RmuxError) RmuxError * Session)) : option (result A RmuxError * Session) :=
  '(r, s) ← r; Some (match r with Ok r => r | Err e => Err e end, s).

Definition select_custom_layout_in_window (i : Z) (layout : text) (s : Session) : option (result unit RmuxError * Session) :=
  flatten (on_window i (apply_custom_layout layout) s).

Definition reapply_old_layout_in_window (i : Z) (s : Session) : option (result bool RmuxError * Session) :=
  flatten (on_window i reapply_old_layout s).

Definition save_old_layout_in_window (i : Z) : Session -> option (result unit RmuxError * Session) :=
  on_window i (fun w => Some (tt, save_old_layout w)).

Definition spread_layout_in_window (i : Z) : Session -> option (result bool RmuxError * Session) :=
  on_window i (fun w => spread_layout (active_pane w) w).

(** ** Operations on one pane *)

Definition split_pane_in_window (i p id : Z) (d : SplitDirection) (before detached : bool) (now : Z) (s : Session)
  : option (result Z RmuxError * Session) :=
  on_pane i p
    (fun w =>
       pos ← pane_position p w;
       if negb (can_split_pane p d w) then Some (Err (Message "no space for new pane"), w)
       else ok_of (split_at_position pos id d before detached now w)) s.

Definition split_pane_in_window_with_direction_before (i p : Z) (d : SplitDirection) (before : bool) (now : Z) (s : Session)
  : option (result Z RmuxError * Session) :=
  '(id, s) ← allocate_pane_id s;
  split_pane_in_window i p id d before false now s.

Definition split_pane_full_size (i p id : Z) (d : SplitDirection) (before detached : bool) (now : Z) (s : Session)
  : option (result Z RmuxError * Session) :=
  on_pane i p
    (fun w =>
       let previous_active := pane_id <$> active w in
       let previous_last := l ← last_pane w; pane_id <$> pane l w in
       '(res, w) ← insert_pane_full_size (new_with_id now id (transient_index w) (mkPaneGeometry 0 0 0 0)) d before w;
       match res with
       | Err e => Some (Err e, w)
       | Ok _ =>
           w ← commit_split_renumber id previous_active previous_last detached now w;
           Some (match pane_index_for_id id w with
                 | Some k => Ok k
                 | None => Err (Server (string_of (text_of "pane id " ++ dec id ++ text_of " disappeared after full-size split")))
                 end, w)
       end) s.

(** What [kill_pane] removed, and whether the window went with it. *)
Record KillPaneOutcome := mkKillOutcome { removed_pane_ids : list Z; window_destroyed : bool }.

Definition kill_pane_in_window (i p : Z) (s : Session) : option (result KillPaneOutcome RmuxError * Session) :=
  match windows s !! i with
  | None => Some (Err (invalid_window_target (ses_name s) i), s)
  | Some w =>
      match pane p w with
      | None => Some (Err (missing_pane (ses_name s) i p), s)
      | Some _ =>
          if (length (panes w) =? 1)%nat then
            '(res, s) ← remove_window i s;
            Some (match res with Err e => Err e | Ok w => Ok (mkKillOutcome (map pane_id (panes w)) true) end, s)
          else
            '(removed, w) ← remove_pane p w;
            q ← removed;
            Some (Ok (mkKillOutcome [pane_id q] false), with_windows (<[i := w]> (windows s)) s)
      end
  end.

Definition kill_other_panes_in_window (i p now : Z) (s : Session) : option (result KillPaneOutcome RmuxError * Session) :=
  on_pane i p
    (fun w => '(removed, w) ← remove_other_panes p now w; l ← removed; Some (Ok (mkKillOutcome l false), w)) s.

Definition select_pane_with_zoom (p : Z) (preserve : bool) (now : Z) (w : Window) : option (unit * Window) :=
  w ← (if preserve then snd <$> push_zoom true w else Some w);
  '(_, w) ← select_pane p now w;
  Some (tt, if preserve then pop_zoom w else w).

Definition select_pane_in_window_with_zoom (i p : Z) (preserve : bool) (now : Z) : Session -> option (result unit RmuxError * Session) :=
  on_pane i p (fun w => ok_of (select_pane_with_zoom p preserve now w)).

Definition select_adjacent_with_zoom (p : Z) (d : SelectPaneDirection) (preserve : bool) (now : Z) (w : Window)
  : option (Z * Window) :=
  let was_zoomed := zoomed w in
  let original := active_pane w in
  w ← (if was_zoomed then snd <$> push_zoom false w else Some w);
  '(selected, w) ← select_adjacent_pane p d now w;
  k ← selected;
  let moved := negb (k =? original) in
  w ← (if was_zoomed && (preserve || negb moved) then snd <$> toggle_zoom (active_pane w) now w else Some w);
  Some (k, w).

Definition select_adjacent_pane_in_window_with_zoom (i p : Z) (d : SelectPaneDirection) (preserve : bool) (now : Z)
  : Session -> option (result Z RmuxError * Session) :=
  on_pane i p (fun w => ok_of (select_adjacent_with_zoom p d preserve now w)).

Definition last_pane_in_window_with_zoom (i : Z) (preserve : bool) (now : Z) (s : Session) : option (result Z RmuxError * Session) :=
  flatten (on_window i (last_pane_with_zoom preserve now) s).

Definition resize_composite (p : Z) (columns rows : option Z) (relative : option ResizePaneRelativeDirection) (cells : Z) (w : Window)
  : option Window :=
  w ← match columns with Some n => snd <$> resize_pane_axis LeftRight p n w | None => Some w end;
  w ← match rows with Some n => snd <$> resize_pane_axis TopBottom p n w | None => Some w end;
  match relative with Some rel => snd <$> window_resize_pane_by p (to_adjustment rel cells) w | None => Some w end.

Definition resize_adjustment (p : Z) (adj : ResizePaneAdjustment) (now : Z) (w : Window) : option Window :=
  match adj with
  | AdjustZoom => snd <$> toggle_zoom p now w
  | AdjustNoOp | TrimBelow => Some w
  | AbsoluteWidth n => snd <$> resize_pane_axis LeftRight p n w
  | AbsoluteHeight n => snd <$> resize_pane_axis TopBottom p n w
  | AbsoluteSize c r => resize_composite p (Some c) (Some r) None 0 w
  | Composite c r rel cells => resize_composite p c r rel cells w
  | AdjustUp _ | AdjustDown _ | AdjustLeft _ | AdjustRight _ => snd <$> window_resize_pane_by p adj w
  end.

Definition resize_pane_in_window (i p : Z) (adj : ResizePaneAdjustment) (now : Z) : Session -> option (result unit RmuxError * Session) :=
  on_pane i p (fun w => ok_of (unit_of (resize_adjustment p adj now w))).

Definition resize_pane_to_in_window (i p : Z) (d : SplitDirection) (n : Z) : Session -> option (result unit RmuxError * Session) :=
  on_pane i p (fun w => done_with (window_resize_pane_to p d (Z.max n 1) w)).

Definition resize_new_split_pane_to_in_window (i p : Z) (d : SplitDirection) (n : Z) (before : bool)
  : Session -> option (result unit RmuxError * Session) :=
  on_pane i p (fun w => done_with (resize_new_split_pane_to p d n before w)).

Definition toggle_zoom_in_window (i p now : Z) : Session -> option (result unit RmuxError * Session) :=
  on_pane i p (fun w => done_with (toggle_zoom p now w)).

(** ** Sizes *)

Definition resize_terminal (size : TerminalSize) (s : Session) : option Session :=
  l ← mapM (fun kw => w ← set_size size kw.2; Some (kw.1, w)) (map_to_list (windows s));
  Some (with_windows (list_to_map l) (set_terminal_size size s)).

Definition resize_active_window_geometry (terminal content : TerminalSize) (s : Session) : option Session :=
  w ← windows s !! active_window s;
  w ← set_size content w;
  Some (with_windows (<[active_window s := w]> (windows s)) (set_terminal_size terminal s)).
