(* ===== verification/SessionInv.v ===== *)
(** * The session invariant

    What holds of a session between operations, and that every operation on its
    window map keeps it: all windows are consistent, the active window exists,
    the last window exists and is another one (or may be the active one, when
    [stale] allows for what a join can leave), and exactly the windows have alert
    flags. *)

From stdpp Require Import sorting.
From S2P Require Import Prelude Panes Text Errors LayoutCell LayoutTree LayoutNamed LayoutText.
From S2P Require Import LayoutShape Window WindowInv WindowOps WindowMove PaneTransfer Session.

(** ** Keys in order *)

Section Keys.
Context {A : Type}.
Implicit Types m : gmap Z A.

Lemma elem_of_sorted_keys k m : k ∈ sorted_keys m <-> is_Some (m !! k).
Proof.
  unfold sorted_keys. rewrite (merge_sort_Permutation Z.le), list_elem_of_fmap. split.
  - intros ([i x] & -> & H%elem_of_map_to_list). by eauto.
  - intros [x H%elem_of_map_to_list]. by exists (k, x).
Qed.

Lemma sorted_keys_sorted m : StronglySorted Z.le (sorted_keys m).
Proof. apply (StronglySorted_merge_sort Z.le). Qed.

Lemma NoDup_sorted_keys m : NoDup (sorted_keys m).
Proof. unfold sorted_keys. rewrite (merge_sort_Permutation Z.le). apply NoDup_fst_map_to_list. Qed.

Lemma length_sorted_keys m : length (sorted_keys m) = size m.
Proof.
  unfold sorted_keys. rewrite (Permutation_length (merge_sort_Permutation Z.le _)), length_map. apply length_map_to_list.
Qed.

(** A strictly increasing list. *)
Lemma sorted_keys_strict m : StronglySorted Z.lt (sorted_keys m).
Proof.
  pose proof (sorted_keys_sorted m) as Hs. pose proof (NoDup_sorted_keys m) as Hn. revert Hs Hn.
  induction (sorted_keys m) as [|k l IH]; intros Hs Hn; [constructor|].
  apply StronglySorted_inv in Hs as [Hs Hk]. apply NoDup_cons in Hn as [Hn1 Hn]. constructor; [by apply IH|].
  rewrite Forall_forall in Hk |- *. intros x Hx. specialize (Hk x Hx). assert (k <> x) by (intros ->; done). lia.
Qed.

Lemma last_filter_Some (P : Z -> Prop) `{!forall k, Decision (P k)} l k : last (filter P l) = Some k -> P k /\ k ∈ l.
Proof. intros Hk%last_Some_elem_of. by apply list_elem_of_filter in Hk. Qed.

Lemma last_filter_exists (P : Z -> Prop) `{!forall k, Decision (P k)} l k : k ∈ l -> P k -> is_Some (last (filter P l)).
Proof.
  intros Hl HP. destruct (last (filter P l)) eqn:E; [by eauto|]. apply last_None in E.
  assert (k ∈ filter P l) as Hin by by apply list_elem_of_filter. rewrite E in Hin. set_solver.
Qed.

End Keys.

(** ** The invariant *)

Definition has_window (i : Z) (s : Session) : Prop := is_Some (windows s !! i).

(** [stale] allows for what two operations leave behind: windows whose zoom is
    stale (see [shown]), and a last window that a join has made the active one
    without forgetting that it was the last one. *)
Record session_ok_at (stale : bool) (s : Session) : Prop := {
  ses_windows : forall i w, windows s !! i = Some w -> window_ok_at stale w;
  ses_indexes : forall i, has_window i s -> in_u32 i;
  ses_flags : forall i, is_Some (winlink_alert_flags s !! i) <-> has_window i s;
  ses_active : has_window (active_window s) s;
  ses_last : forall l, last_window s = Some l -> has_window l s /\ (stale = false -> l <> active_window s);
}.

Arguments ses_windows {_} _ _ _ _ _.
Arguments ses_indexes {_} _ _ _ _.
Arguments ses_flags {_} _ _ _.
Arguments ses_active {_} _ _.
Arguments ses_last {_} _ _ _ _.

(** The invariant without either. *)
Notation session_ok := (session_ok_at false).

(** A consistent session is consistent in the weaker sense too. *)
Lemma session_ok_weaken s : session_ok s -> session_ok_at true s.
Proof.
  intros [H1 H2 H3 H4 H5]. split; try done.
  - intros i w Hw. apply window_ok_weaken. by eapply H1.
  - intros l Hl. by destruct (H5 l Hl).
Qed.

(** ** Choosing a window *)

Lemma cyclic_previous_ok m removed k :
  is_Some (m !! k) -> k <> removed ->
  exists j, cyclic_previous_window_index m removed = Some j /\ is_Some (m !! j) /\ j <> removed.
Proof.
  intros Hk Hne. apply elem_of_sorted_keys in Hk. unfold cyclic_previous_window_index, last_below, last_above.
  destruct (last (filter _ (sorted_keys m))) as [j|] eqn:E.
  - apply last_filter_Some in E as [Hj He]. exists j. apply elem_of_sorted_keys in He. split_and!; [done|done|lia].
  - assert (~ k < removed) as Hlt.
    { intros Hlt. destruct (last_filter_exists (fun k => k < removed) _ k Hk Hlt) as [j Ej]. congruence. }
    destruct (last_filter_exists (fun k => removed < k) _ k Hk) as [j Ej]; [lia|]. rewrite Ej.
    apply last_filter_Some in Ej as [Hj He]. exists j. apply elem_of_sorted_keys in He. split_and!; [done|done|lia].
Qed.

(** The last window when it is usable. *)
Definition usable_last (removed : Z) (m : gmap Z Window) (l : option Z) : option Z :=
  l ← l; if negb (l =? removed) && bool_decide (is_Some (m !! l)) then Some l else None.

Lemma usable_last_Some removed m l j : usable_last removed m l = Some j -> is_Some (m !! j) /\ j <> removed.
Proof.
  unfold usable_last. destruct l as [l|]; [|done]. cbn. destruct (Z.eqb_spec l removed); [done|].
  cbn. case_bool_decide; [|done]. by intros [= ->].
Qed.

Lemma next_active_after_removal_ok removed s k :
  has_window k s -> k <> removed ->
  exists j, next_active_window_after_removal removed s = Some j /\ has_window j s /\ j <> removed.
Proof.
  intros Hk Hne. unfold next_active_window_after_removal. fold (usable_last removed (windows s) (last_window s)).
  destruct (usable_last _ _ _) as [l|] eqn:El; [apply usable_last_Some in El; by eauto|].
  destruct (group_initial_window_id s) as [g|]; [|by eapply cyclic_previous_ok]. cbn.
  destruct (List.find _ _) as [j|] eqn:Ef; [|by eapply cyclic_previous_ok].
  apply List.find_some in Ef as [Hj%list_elem_of_In Hc]. apply elem_of_sorted_keys in Hj.
  apply andb_true_iff in Hc as [Hc _]. exists j. split_and!; [done|done|]. by apply negb_true_iff, Z.eqb_neq in Hc.
Qed.

Lemma next_active_after_detach_ok removed l s k :
  has_window k s -> k <> removed ->
  exists j, next_active_window_after_detach removed l s = Some j /\ has_window j s /\ j <> removed.
Proof.
  intros Hk Hne. unfold next_active_window_after_detach. fold (usable_last removed (windows s) l).
  destruct (usable_last _ _ _) as [j|] eqn:El; [apply usable_last_Some in El; by eauto|]. by eapply cyclic_previous_ok.
Qed.

(** ** Alert flags and selection *)

(** States that differ in alert flags and bookkeeping only. *)
Record same_windows (s s' : Session) : Prop := {
  sw_windows : windows s' = windows s;
  sw_flags : forall i, is_Some (winlink_alert_flags s' !! i) <-> is_Some (winlink_alert_flags s !! i);
}.

#[export] Instance same_windows_preorder : PreOrder same_windows.
Proof. split; [by split|]. intros s1 s2 s3 [] []. split; [congruence|]. naive_solver. Qed.

Lemma is_Some_insert_present {A} (m : gmap Z A) i x k : is_Some (m !! i) -> is_Some (<[i := x]> m !! k) <-> is_Some (m !! k).
Proof. intros Hi. destruct (decide (i = k)) as [->|]; [rewrite lookup_insert_eq|rewrite lookup_insert_ne by done; done]. by split; eauto. Qed.

Lemma clear_flags_same i flags s :
  let s' := (clear_winlink_alert_flags i flags s).2 in
  same_windows s s' /\ active_window s' = active_window s /\ last_window s' = last_window s.
Proof.
  unfold clear_winlink_alert_flags. destruct (winlink_alert_flags s !! i) eqn:E; [|done].
  destruct (negb _); [done|]. split; [|done]. split; [done|]. intros k. cbn. apply is_Some_insert_present. by eauto.
Qed.

Section Kept.
Context {stale : bool}.
Local Notation window_ok := (window_ok_at stale).
Local Notation session_ok := (session_ok_at stale).

Lemma same_windows_ok s s' :
  same_windows s s' -> active_window s' = active_window s -> last_window s' = last_window s -> session_ok s -> session_ok s'.
Proof.
  intros [W F] Ha Hl [H1 H2 H3 H4 H5]. unfold has_window in *. split; unfold has_window; rewrite ?W, ?Ha, ?Hl; try done.
  intros i. by rewrite F.
Qed.

Lemma select_window_spec i s :
  has_window i s ->
  exists s', select_window i s = (Ok tt, s') /\ same_windows s s' /\ active_window s' = i /\
    last_window s' = (if active_window s =? i then last_window s else Some (active_window s)).
Proof.
  intros [w Hw]. unfold select_window. rewrite Hw. destruct (Z.eqb_spec (active_window s) i) as [E|E]; [by exists s|].
  eexists. split; [done|]. set (s1 := with_group_initial _ _).
  destruct (clear_flags_same i WINLINK_ALERTFLAGS s1) as ([W F] & Ha & Hl). unfold clear_all_winlink_alert_flags.
  rewrite Ha, Hl. done.
Qed.

Lemma select_window_ok i s :
  session_ok s -> has_window i s ->
  exists s', select_window i s = (Ok tt, s') /\ session_ok s' /\ windows s' = windows s /\ active_window s' = i /\
    last_window s' = (if active_window s =? i then last_window s else Some (active_window s)).
Proof.
  intros [H1 H2 H3 H4 H5] Hi. destruct (select_window_spec i s Hi) as (s' & E & [W F] & Ha & Hl). exists s'.
  split_and!; try done. unfold has_window in *. split; unfold has_window; rewrite ?W, ?Ha; try done.
  - intros k. by rewrite F.
  - intros l. rewrite Hl. destruct (Z.eqb_spec (active_window s) i) as [<-|]; [by apply H5|]. by intros [= <-].
Qed.

(** A failing or no-op call returns the state it got. *)
Lemma select_missing i s : ~ has_window i s -> select_window i s = (Err (invalid_window_target (ses_name s) i), s).
Proof. intros H. unfold select_window. apply eq_None_not_Some in H. by rewrite H. Qed.

Lemma select_window_keeps i s r s' : session_ok s -> select_window i s = (r, s') -> session_ok s'.
Proof.
  intros Hok. destruct (decide (has_window i s)) as [Hi|Hi].
  - destruct (select_window_ok i s Hok Hi) as (s1 & -> & H & _). by intros [= _ <-].
  - rewrite select_missing by done. by intros [= _ <-].
Qed.

Lemma add_flags_keeps i flags s : session_ok s -> session_ok (add_winlink_alert_flags i flags s).2.
Proof.
  intros Hok. unfold add_winlink_alert_flags. destruct (windows s !! i) eqn:E; [|done].
  apply (same_windows_ok s); [|done|done|done]. split; [done|]. intros k. cbn. apply is_Some_insert_present.
  apply (ses_flags s Hok). by exists w.
Qed.

Lemma clear_flags_keeps i flags s : session_ok s -> session_ok (clear_winlink_alert_flags i flags s).2.
Proof. intros Hok. destruct (clear_flags_same i flags s) as (? & ? & ?). by apply (same_windows_ok s). Qed.

(** ** Adding and replacing windows *)

Lemma has_insert i w k s : is_Some (<[i := w]> (windows s) !! k) <-> i = k \/ has_window k s.
Proof. rewrite lookup_insert_is_Some'. done. Qed.

Lemma insert_slot_ok i w s : session_ok s -> in_u32 i -> window_ok w -> session_ok (insert_slot i w s).
Proof.
  intros [H1 H2 H3 H4 H5] Hi Hw. unfold has_window in *. split; unfold has_window; cbn.
  - intros k v [[<- <-]|[_ Hv]]%lookup_insert_Some; [done|by eapply H1].
  - intros k. rewrite lookup_insert_is_Some'. intros [<-|Hk]; [done|by apply H2].
  - intros k. by rewrite !lookup_insert_is_Some', H3.
  - rewrite lookup_insert_is_Some'. by right.
  - intros l Hl. rewrite lookup_insert_is_Some'. destruct (H5 l Hl). by split; [right|].
Qed.

Lemma update_window_ok i w s :
  session_ok s -> has_window i s -> window_ok w -> session_ok (with_windows (<[i := w]> (windows s)) s).
Proof.
  intros [H1 H2 H3 H4 H5] Hi Hw. unfold has_window in *. split; unfold has_window; cbn.
  - intros k v [[<- <-]|[_ Hv]]%lookup_insert_Some; [done|by eapply H1].
  - intros k. rewrite is_Some_insert_present by done. apply H2.
  - intros k. by rewrite is_Some_insert_present, H3 by done.
  - by rewrite is_Some_insert_present by done.
  - intros l Hl. rewrite is_Some_insert_present by done. by apply H5.
Qed.

Lemma with_next_pane_id_ok n s : session_ok s -> session_ok (with_next_pane_id n s).
Proof. apply same_windows_ok; done. Qed.

Lemma with_last_ok l s :
  session_ok s -> (forall k, l = Some k -> has_window k s /\ (stale = false -> k <> active_window s)) -> session_ok (with_last_window l s).
Proof. intros [H1 H2 H3 H4 H5] Hl. split; done. Qed.

(** ** Removing a window *)

Lemma size_two {A} (m : gmap Z A) i : is_Some (m !! i) -> size m <> 1%nat -> exists k, is_Some (m !! k) /\ k <> i.
Proof.
  intros [x Hx] Hn. destruct (map_choose (delete i m)) as (k & y & Hk).
  - intros He. apply Hn. rewrite <- (insert_delete_id m i x Hx), He. by rewrite insert_empty, map_size_singleton.
  - apply lookup_delete_Some in Hk as [Hne Hk]. exists k. split; [by exists y|done].
Qed.

Lemma size_pos {A} (m : gmap Z A) i : is_Some (m !! i) -> (0 < size m)%nat.
Proof. intros [x Hx]. destruct (size m) eqn:E; [|lia]. apply map_size_empty_inv in E. subst. by rewrite lookup_empty in Hx. Qed.

(** The state right after the window and its flags left the maps. *)
Definition unlinked (i : Z) (s : Session) : Session :=
  with_flags (delete i (winlink_alert_flags s)) (with_windows (delete i (windows s)) s).

Lemma has_unlinked i k s : has_window k (unlinked i s) <-> k <> i /\ has_window k s.
Proof. unfold has_window. cbn. rewrite lookup_delete_is_Some. naive_solver. Qed.

(** The invariant but for what is inside window [i]. *)
Record ok_but (i : Z) (s : Session) : Prop := {
  but_windows : forall k w, k <> i -> windows s !! k = Some w -> window_ok w;
  but_indexes : forall k, has_window k s -> in_u32 k;
  but_flags : forall k, is_Some (winlink_alert_flags s !! k) <-> has_window k s;
  but_active : has_window (active_window s) s;
  but_last : forall l, last_window s = Some l -> has_window l s /\ (stale = false -> l <> active_window s);
}.

Lemma session_ok_but i s : session_ok s -> ok_but i s.
Proof. intros [H1 H2 H3 H4 H5]. split; try done. intros k w _. apply H1. Qed.

(** Removing keeps the rest: the next active window is the last one if there is
    one. *)
Lemma remove_but_ok i s w :
  ok_but i s -> windows s !! i = Some w -> size (windows s) <> 1%nat ->
  exists s', remove_window_allowing_empty i s = Some (Ok w, s') /\ session_ok s' /\ windows s' = delete i (windows s) /\
    last_window s' = (if bool_decide (active_window s = i \/ last_window s = Some i) then None else last_window s) /\
    if active_window s =? i then Some (active_window s') = next_active_window_after_removal i s
    else active_window s' = active_window s.
Proof.
  intros Hok Hw Hsz. pose proof Hok as [H1 H2 H3 H4 H5]. unfold remove_window_allowing_empty. rewrite Hw. fold (unlinked i s).
  destruct (size_two _ i (mk_is_Some _ _ Hw) Hsz) as (k & Hk & Hki).
  pose proof (size_pos _ _ Hk) as Hpos. rewrite (proj2 (Nat.ltb_lt 1 _)) by lia. rewrite andb_true_r.
  destruct (Z.eqb_spec (active_window s) i) as [Ea|Ea].
  - destruct (next_active_after_removal_ok i s k Hk Hki) as (j & Ej & Hj & Hji). rewrite Ej. cbn [mbind option_bind fmap option_fmap option_map].
    destruct (select_window_spec j (unlinked i s)) as (s' & -> & [W F] & Ha & Hl); [by apply has_unlinked|].
    change (active_window (unlinked i s)) with (active_window s) in Hl. rewrite Ea in Hl.
    rewrite (proj2 (Z.eqb_neq i j)) in Hl by done. cbn [mbind option_bind]. rewrite decide_True by done.
    eexists. split; [done|]. rewrite bool_decide_true by (by left). cbn. split_and!; [|done|done|by rewrite Ha].
    unfold has_window in *. split; unfold has_window; cbn; rewrite ?W, ?Ha; cbn.
    + intros x v [Hx Hv]%lookup_delete_Some. by apply (H1 x v (not_eq_sym Hx) Hv).
    + intros x [_ Hx]%lookup_delete_is_Some. by apply H2.
    + intros x. rewrite F. cbn. by rewrite !lookup_delete_is_Some, H3.
    + apply lookup_delete_is_Some. naive_solver.
    + done.
  - cbn [mbind option_bind]. eexists. split; [done|]. change (last_window (unlinked i s)) with (last_window s).
    assert (session_ok (with_last_window None (unlinked i s))) as Hn.
    { unfold has_window in *. split; unfold has_window; cbn.
      - intros x v [Hx Hv]%lookup_delete_Some. by apply (H1 x v (not_eq_sym Hx) Hv).
      - intros x [_ Hx]%lookup_delete_is_Some. by apply H2.
      - intros x. by rewrite !lookup_delete_is_Some, H3.
      - apply lookup_delete_is_Some. naive_solver.
      - done. }
    destruct (decide (last_window s = Some i)) as [El|El].
    + rewrite bool_decide_true by (by right). done.
    + rewrite bool_decide_false by naive_solver. split_and!; try done.
      destruct Hn as [N1 N2 N3 N4 N5]. split; try done. intros l Hl. change (last_window s = Some l) in Hl. destruct (H5 l Hl).
      split; [|done]. apply has_unlinked. split; [|done]. intros ->. done.
Qed.

Lemma remove_allowing_empty_ok i s w :
  session_ok s -> windows s !! i = Some w -> size (windows s) <> 1%nat ->
  exists s', remove_window_allowing_empty i s = Some (Ok w, s') /\ session_ok s' /\ windows s' = delete i (windows s) /\
    last_window s' = (if bool_decide (active_window s = i \/ last_window s = Some i) then None else last_window s) /\
    if active_window s =? i then Some (active_window s') = next_active_window_after_removal i s
    else active_window s' = active_window s.
Proof. intros Hok. by apply remove_but_ok, session_ok_but. Qed.

(** Removing the only window leaves none. *)
Lemma remove_only_ok i s w :
  windows s !! i = Some w -> size (windows s) = 1%nat ->
  exists s', remove_window_allowing_empty i s = Some (Ok w, s') /\ windows s' = ∅.
Proof.
  intros Hw Hsz. unfold remove_window_allowing_empty. rewrite Hw, Hsz. change (1 <? 1)%nat with false. rewrite andb_false_r.
  cbn [mbind option_bind]. eexists. split; [done|].
  assert (delete i (windows s) = ∅) as He.
  { pose proof (map_size_delete_Some i (windows s) (mk_is_Some _ _ Hw)) as Hd. rewrite Hsz in Hd. by apply map_size_empty_inv in Hd. }
  by destruct (decide _).
Qed.

Lemma remove_window_ok i s :
  session_ok s -> exists r s', remove_window i s = Some (r, s') /\ session_ok s'.
Proof.
  intros Hok. unfold remove_window. destruct (windows s !! i) as [w|] eqn:Hw; [|by eauto].
  destruct (Nat.eqb_spec (size (windows s)) 1) as [E|E]; [by eauto|].
  destruct (remove_allowing_empty_ok i s w Hok Hw E) as (s' & E' & H & _). by eauto.
Qed.

(** ** Moving windows *)

(** The state of a move before the selection is repaired. *)
Definition relinked (source destination : Z) (w : Window) (f : Z) (s : Session) : Session :=
  with_flags (<[destination := f]> (delete source (winlink_alert_flags s)))
    (with_windows (<[destination := w]> (delete source (windows s))) s).

Lemma has_relinked i j w f k s : i <> j -> has_window k (relinked i j w f s) <-> k = j \/ (k <> i /\ has_window k s).
Proof. intros Hij. unfold has_window. cbn. rewrite lookup_insert_is_Some', lookup_delete_is_Some. naive_solver. Qed.

(** Selecting after a move: the result is one of the windows and the last window
    is another one. *)
Lemma apply_move_tracking_ok source destination sel s s1 :
  session_ok s -> source <> destination -> has_window destination s1 -> ~ has_window source s1 ->
  (forall k, k <> source -> has_window k s -> has_window k s1) ->
  exists a l, apply_move_tracking source destination (active_window s) (last_window s) sel s1 =
      Some (with_last_window l (with_active_window a s1)) /\ has_window a s1 /\
    (forall k, l = Some k -> has_window k s1 /\ k <> a) /\
    (sel = true -> a = destination) /\
    (sel = false -> active_window s <> source -> a = active_window s).
Proof.
  intros [H1 H2 H3 H4 H5] Hne Hd Hs Hk. unfold apply_move_tracking.
  assert (exists a, (if active_window s =? source
      then if sel then Some destination else next_active_window_after_detach source (last_window s) s1
      else if sel then Some destination else Some (active_window s)) = Some a /\ has_window a s1 /\
      (sel = true -> a = destination) /\ (sel = false -> active_window s <> source -> a = active_window s)) as (a & -> & Ha & Hsel & Hun).
  { destruct sel; [exists destination; by destruct (_ =? _)|].
    destruct (Z.eqb_spec (active_window s) source) as [E|E].
    - destruct (next_active_after_detach_ok source (last_window s) s1 destination Hd) as (j & -> & Hj & _); [done|]. exists j. by naive_solver.
    - exists (active_window s). split_and!; try done. by apply Hk. }
  cbn [mbind option_bind].
  change (windows (with_active_window a s1)) with (windows s1).
  match goal with |- context [bool_decide (?x = Some a)] => set (l := x) end.
  exists a, (if bool_decide (l = Some a) then None else l). split_and!; [done|done| |done|done].
  intros k Hl. case_bool_decide as Hla; [done|]. split; [|congruence]. clear Hla Hsel Hun Ha.
  assert (forall b, preserved_last_after_selecting_destination source destination b (with_active_window a s1) = Some k -> has_window k s1) as Hpres.
  { intros [b|]; [|done]. unfold preserved_last_after_selecting_destination. cbn. destruct (_ && _) eqn:Eb; [|done].
    intros [= <-]. apply andb_true_iff in Eb as [_ Eb]. by apply bool_decide_eq_true in Eb. }
  revert Hl. unfold l. clear l. destruct (Z.eqb_spec (active_window s) source) as [E|E].
  - destruct sel; [by apply Hpres|done].
  - destruct sel; [destruct (_ =? destination); [by apply Hpres|]; intros [= <-]; by apply Hk|].
    case_bool_decide; [done|]. destruct (last_window s) as [b|]; [|done]. cbn. case_bool_decide; [|done]. by intros [= <-].
Qed.

Lemma move_window_ok source destination (kill sel : bool) s :
  session_ok s -> in_u32 destination ->
  exists r s', move_window source destination kill sel s = Some (r, s') /\ session_ok s' /\
    match r with
    | Err _ => s' = s
    | Ok removed =>
        exists w, windows s !! source = Some w /\
        windows s' = <[destination := w]> (if source =? destination then windows s else delete source (windows s)) /\
        (source <> destination -> removed = windows s !! destination /\
          (sel = true -> active_window s' = destination) /\
          (sel = false -> active_window s <> source -> active_window s' = active_window s))
    end.
Proof.
  intros Hok Hi. pose proof Hok as [H1 H2 H3 H4 H5]. unfold move_window. destruct (windows s !! source) as [w|] eqn:Hw; [|by eauto].
  destruct (Z.eqb_spec source destination) as [<-|Hne].
  { eexists _, _. split; [done|]. split; [done|]. exists w. by rewrite insert_id. }
  case_bool_decide as Hd; cbn [andb]; [destruct kill; cbn [negb]; [|by eauto]|].
  all: cbv zeta; match goal with |- context [apply_move_tracking _ _ _ _ _ ?x] => set (s1 := x) end.
  all: assert (windows s1 = <[destination := w]> (delete source (windows s)) /\
    forall k, is_Some (winlink_alert_flags s1 !! k) <-> has_window k (relinked source destination w 0 s)) as [W F].
  1,3: unfold s1; try destruct kill; cbn; rewrite ?insert_delete_eq; (split; [done|]); intros k; rewrite has_relinked by done;
    rewrite lookup_insert_is_Some', ?lookup_delete_is_Some, H3; naive_solver.
  all: assert (forall k, has_window k s1 <-> k = destination \/ (k <> source /\ has_window k s)) as Hh
    by (intros k; rewrite <- (has_relinked source destination w 0 k s Hne); unfold has_window; by rewrite W).
  all: destruct (apply_move_tracking_ok source destination sel s s1 Hok Hne) as (a & l & -> & Ha & Hl & Hsel & Hun);
    [rewrite Hh; by left|rewrite Hh; naive_solver|intros k ? ?; rewrite Hh; by right|].
  all: cbn [mbind option_bind]; eexists _, _; (split; [done|]); (split; [|exists w; split; [done|]; split; [exact W|]]).
  1,3: split; try done; [|intros k [->|[_ Hk]]%Hh; [done|by apply H2]|
      intros k; change (is_Some (winlink_alert_flags s1 !! k) <-> has_window k s1); rewrite F, has_relinked, Hh by done; done|
      intros k Hk; by destruct (Hl k Hk)];
    intros k v; change (windows s1 !! k = Some v -> window_ok v); rewrite W;
    intros [[<- <-]|[_ [_ Hv]%lookup_delete_Some]]%lookup_insert_Some; [by eapply H1|by eapply H1].
  all: intros _; split_and!; [|done|done].
  - cbn. by rewrite lookup_delete_ne.
  - destruct kill; cbn; [by rewrite lookup_delete_ne|]. symmetry. by apply eq_None_not_Some.
Qed.

Lemma make_room_loop_ok sources s :
  session_ok s -> Forall in_u32 sources -> exists r s', make_room_loop sources s = Some (r, s') /\ session_ok s'.
Proof.
  revert s. induction sources as [|i rest IH]; intros s Hok Hr; [by eauto|]. apply Forall_cons in Hr as [Hi Hr]. cbn [make_room_loop].
  destruct (Z.eqb_spec i u32_max) as [E|E]; [by eauto|].
  destruct (move_window_ok i (i + 1) false false s Hok) as (r & s1 & -> & Hok1 & _).
  { unfold in_u32, u32_max in *. lia. }
  cbn [mbind option_bind]. destruct r as [removed|e]; [|by eauto].
  destruct (IH s1 Hok1 Hr) as (r2 & s2 & -> & Hok2). cbn [mbind option_bind]. by eauto.
Qed.

(** ** The lowest free index *)

(** What a search for a free index from [next] on returns. *)
Definition lowest_free (keys : list Z) (next : Z) (r : result Z RmuxError) : Prop :=
  match r with
  | Ok j => next <= j <= u32_max /\ j ∉ keys /\ forall k, next <= k < j -> k ∈ keys
  | Err _ => forall k, next <= k <= u32_max -> k ∈ keys
  end.

Lemma lowest_loop_spec keys next s :
  StronglySorted Z.lt keys -> next <= u32_max -> lowest_free keys next (lowest_loop keys next s).
Proof.
  revert next. induction keys as [|k rest IH]; intros next Hs Hn; cbn [lowest_loop].
  { cbn. split_and!; [lia|done|set_solver|lia]. }
  apply StronglySorted_inv in Hs as [Hs Hk]. rewrite Forall_forall in Hk.
  destruct (Z.ltb_spec k next) as [H1|H1].
  { specialize (IH next Hs Hn). destruct (lowest_loop rest next s) as [j|e]; cbn in *.
    - destruct IH as (? & Hj & Ha). split_and!; [lia|lia| |intros x Hx; apply elem_of_cons; right; by apply Ha].
      apply not_elem_of_cons. split; [lia|done].
    - intros x Hx. apply elem_of_cons. right. by apply IH. }
  destruct (Z.ltb_spec next k) as [H2|H2].
  { cbn. split_and!; [lia|done| |lia]. apply not_elem_of_cons. split; [lia|]. intros H. specialize (Hk next H). lia. }
  assert (k = next) as -> by lia. destruct (Z.eqb_spec next u32_max) as [->|H3].
  { cbn. intros x Hx. apply elem_of_cons. left. lia. }
  specialize (IH (next + 1) Hs ltac:(lia)). destruct (lowest_loop rest (next + 1) s) as [j|e]; cbn in *.
  - destruct IH as (? & Hj & Ha). split_and!; [lia|lia|apply not_elem_of_cons; split; [lia|done]|].
    intros x Hx. apply elem_of_cons. destruct (decide (x = next)); [by left|right; apply Ha; lia].
  - intros x Hx. apply elem_of_cons. destruct (decide (x = next)); [by left|right; apply IH; lia].
Qed.

Lemma lowest_available_spec minimum s :
  minimum <= u32_max -> lowest_free (sorted_keys (windows s)) minimum (lowest_available_window_index_at_or_above minimum s).
Proof. intros H. apply lowest_loop_spec; [apply sorted_keys_strict|done]. Qed.

Lemma elem_of_shifted_range lo hi k : k ∈ shifted_range lo hi <-> lo <= k < hi.
Proof.
  unfold shifted_range. rewrite elem_of_reverse, list_elem_of_fmap. setoid_rewrite elem_of_seq. split.
  - intros (n & -> & Hn). lia.
  - intros Hk. exists (Z.to_nat (k - lo)). lia.
Qed.

Lemma make_room_ok i s :
  session_ok s -> in_u32 i -> exists r s', make_room_for_window i s = Some (r, s') /\ session_ok s'.
Proof.
  intros Hok Hi. unfold make_room_for_window. pose proof (lowest_available_spec i s (proj2 Hi)) as Hl.
  destruct (lowest_available_window_index_at_or_above i s) as [gap|e]; [|by eauto].
  destruct (gap =? i); [by eauto|]. apply make_room_loop_ok; [done|]. apply Forall_forall.
  intros k Hk%elem_of_shifted_range. destruct Hl as ([? ?] & _). unfold in_u32 in *. lia.
Qed.

(** ** Swapping windows *)

Lemma swap_windows_ok source destination s :
  session_ok s ->
  exists r s', swap_windows source destination s = (r, s') /\ session_ok s' /\ active_window s' = active_window s /\
    last_window s' = last_window s /\
    match r with
    | Err _ => s' = s
    | Ok _ => forall k, windows s' !! k = windows s !! (if k =? source then destination else if k =? destination then source else k)
    end.
Proof.
  intros Hok. pose proof Hok as [H1 H2 H3 H4 H5]. unfold swap_windows.
  destruct (windows s !! source) as [a|] eqn:Ea; [|by eexists _, s].
  destruct (windows s !! destination) as [b|] eqn:Eb; [|by eexists _, s].
  destruct (Z.eqb_spec source destination) as [<-|Hne].
  { eexists _, s. split_and!; try done. intros k. by destruct (Z.eqb_spec k source) as [->|]. }
  eexists _, _. split; [done|]. set (s' := with_flags _ _).
  assert (forall k, windows s' !! k = windows s !! (if k =? source then destination else if k =? destination then source else k)) as W.
  { intros k. cbn. destruct (Z.eqb_spec k source) as [->|Hs]; [by rewrite lookup_insert_ne, lookup_insert_eq|].
    destruct (Z.eqb_spec k destination) as [->|Hd]; [by rewrite lookup_insert_eq|]. by rewrite !lookup_insert_ne, !lookup_delete_ne by done. }
  assert (forall k, has_window k s' <-> has_window k s) as Hh.
  { intros k. unfold has_window. rewrite W. destruct (Z.eqb_spec k source) as [->|]; [rewrite Ea, Eb; by split; eauto|].
    destruct (Z.eqb_spec k destination) as [->|]; [rewrite Ea, Eb; by split; eauto|done]. }
  split_and!; try done. split.
  - intros i w. rewrite W. apply H1.
  - intros i. rewrite Hh. apply H2.
  - intros i. rewrite Hh, <- H3. cbn. rewrite !lookup_insert_is_Some', !lookup_delete_is_Some, !H3. unfold has_window.
    destruct (decide (i = source)) as [->|]; [rewrite Ea; split; eauto|]. destruct (decide (i = destination)) as [->|]; [rewrite Eb; split; eauto|].
    naive_solver.
  - by apply Hh.
  - intros l Hl. rewrite Hh. by apply H5.
Qed.

(** ** Renumbering windows *)

Lemma index_map_cons first k keys : index_map first (k :: keys) = (k, first) :: index_map (first + 1) keys.
Proof.
  unfold index_map. rewrite imap_cons. f_equal; [f_equal; lia|]. apply imap_ext. intros j x _. cbn. f_equal. lia.
Qed.

Lemma elem_of_index_map first keys i j : (i, j) ∈ index_map first keys <-> exists k, keys !! k = Some i /\ j = first + Z.of_nat k.
Proof.
  revert first. induction keys as [|x keys IH]; intros first.
  - split; [intros H; by apply not_elem_of_nil in H|]. by intros (k & Hk & _).
  - rewrite index_map_cons, elem_of_cons, IH. split.
    + intros [[= -> ->]|(k & Hk & ->)]; [exists 0%nat; split; [done|lia]|exists (S k); split; [done|lia]].
    + intros ([|k] & Hk & ->); [injection Hk as ->; left; f_equal; lia|]. right. exists k. split; [done|lia].
Qed.

Lemma map_index_spec first keys k i : NoDup keys -> keys !! k = Some i -> map_index (index_map first keys) i = Some (first + Z.of_nat k).
Proof.
  revert first k. induction keys as [|x keys IH]; intros first k Hn Hk; [done|]. apply NoDup_cons in Hn as [Hx Hn].
  rewrite index_map_cons. unfold map_index. cbn. destruct k as [|k].
  - injection Hk as ->. rewrite Z.eqb_refl. cbn. f_equal. lia.
  - cbn in Hk. destruct (Z.eqb_spec x i) as [->|_]; [by apply list_elem_of_lookup_2 in Hk|].
    change (map_index (index_map (first + 1) keys) i = Some (first + Z.of_nat (S k))). rewrite (IH _ k) by done. f_equal. lia.
Qed.

Lemma NoDup_index_map first keys : NoDup (map snd (index_map first keys)).
Proof.
  revert first. induction keys as [|x keys IH]; intros first; [constructor|]. rewrite index_map_cons. cbn. constructor; [|apply IH].
  intros ([i j] & -> & Hj)%list_elem_of_fmap. apply elem_of_index_map in Hj as (k & _ & Hj). cbn in Hj. lia.
Qed.

Lemma reindexed_lookup {A} first keys (t : gmap Z A) j v :
  reindexed (index_map first keys) t !! j = Some v <-> exists k i, keys !! k = Some i /\ j = first + Z.of_nat k /\ t !! i = Some v.
Proof.
  unfold reindexed. set (g := fun kv : Z * Z => v ← t !! kv.1; Some (kv.2, v)).
  rewrite <- elem_of_list_to_map.
  - rewrite list_elem_of_omap. split.
    + intros ([i j'] & Hm & Hg). unfold g in Hg. cbn in Hg. destruct (t !! i) as [x|] eqn:Et; [|done]. cbn in Hg.
      injection Hg as -> ->. apply elem_of_index_map in Hm as (k & Hk & ->). by exists k, i.
    + intros (k & i & Hk & -> & Ht). exists (i, first + Z.of_nat k). split; [apply elem_of_index_map; by eauto|].
      unfold g. cbn. by rewrite Ht.
  - pose proof (NoDup_index_map first keys) as Hn. revert Hn. induction (index_map first keys) as [|[i j'] m IH]; intros Hn; [constructor|].
    cbn in Hn. apply NoDup_cons in Hn as [Hj Hn]. cbn [omap list_omap]. destruct (g (i, j')) as [[b' x]|] eqn:Eg; [|by apply IH].
    unfold g in Eg. cbn in Eg. destruct (t !! i); [|done]. injection Eg as <- _. cbn. constructor; [|by apply IH]. contradict Hj. apply list_elem_of_fmap in Hj as ([a1 y] & -> & Hy).
    apply list_elem_of_omap in Hy as ([b c] & Hm & Hg). unfold g in Hg. cbn in Hg. destruct (t !! b); [|done]. injection Hg as <- <-.
    apply list_elem_of_fmap. by exists (b, c).
Qed.

Lemma sorted_key_position {A} (t : gmap Z A) i : is_Some (t !! i) -> exists k, sorted_keys t !! k = Some i.
Proof. intros H%elem_of_sorted_keys. by apply list_elem_of_lookup_1. Qed.

(** Renumbering from [first] succeeds when there are enough indexes above it and
    keeps the order of the windows, the active one and the last one. *)
Lemma reindex_ok first s :
  session_ok s -> 0 <= first ->
  exists r s', reindex_windows_from first s = Some (r, s') /\ session_ok s' /\
    match r with
    | Err _ => s' = s /\ u32_max < first + Z.of_nat (size (windows s)) - 1
    | Ok _ =>
        (forall j v, windows s' !! j = Some v <->
           exists k i, sorted_keys (windows s) !! k = Some i /\ j = first + Z.of_nat k /\ windows s !! i = Some v) /\
        (exists k, sorted_keys (windows s) !! k = Some (active_window s) /\ active_window s' = first + Z.of_nat k) /\
        match last_window s with
        | None => last_window s' = None
        | Some l => exists k, sorted_keys (windows s) !! k = Some l /\ last_window s' = Some (first + Z.of_nat k)
        end
    end.
Proof.
  intros Hok Hf. pose proof Hok as [H1 H2 H3 H4 H5]. unfold reindex_windows_from. cbv zeta. set (keys := sorted_keys (windows s)).
  pose proof (length_sorted_keys (windows s)) as Hlen. fold keys in Hlen. pose proof (size_pos _ _ H4) as Hpos.
  pose proof (NoDup_sorted_keys (windows s)) as Hn. fold keys in Hn.
  rewrite (proj2 (Nat.eqb_neq _ 0)) by lia. cbn [negb andb]. destruct (Z.ltb_spec u32_max (first + Z.of_nat (length keys - 1))) as [Hb|Hb].
  { eexists _, s. split; [done|]. split; [done|]. split; [done|lia]. }
  destruct (sorted_key_position _ _ H4) as (ka & Hka). fold keys in Hka. rewrite (map_index_spec _ _ ka) by done. cbn [mbind option_bind].
  assert (exists l', (l ← last_window s; map_index (index_map first keys) l) = l' /\
    match last_window s with None => l' = None | Some l => exists k, keys !! k = Some l /\ l' = Some (first + Z.of_nat k) /\ (stale = false -> k <> ka) end) as (l' & -> & Hl').
  { destruct (last_window s) as [l|]; [|by eexists]. destruct (H5 l eq_refl) as [Hl Hla].
    destruct (sorted_key_position _ _ Hl) as (kl & Hkl). fold keys in Hkl. cbn. rewrite (map_index_spec _ _ kl) by done.
    eexists. split; [done|]. exists kl. split_and!; try done. intros Hst ->. specialize (Hla Hst). congruence. }
  eexists _, _. split; [done|]. split; [|split_and!; [apply reindexed_lookup|by exists ka|destruct (last_window s); [destruct Hl' as (k & ? & -> & _); by eauto|done]]].
  assert (forall k i, keys !! k = Some i -> is_Some (reindexed (index_map first keys) (windows s) !! (first + Z.of_nat k))) as Hin.
  { intros k i Hk. assert (has_window i s) as [v Hv] by (apply elem_of_sorted_keys; by eapply list_elem_of_lookup_2).
    exists v. apply reindexed_lookup. by eauto. }
  split; unfold has_window; cbn.
  - intros j v (k & i & _ & _ & Hv)%reindexed_lookup. by eapply H1.
  - intros j [v (k & i & Hk & -> & _)%reindexed_lookup]. apply lookup_lt_Some in Hk. unfold in_u32. lia.
  - intros j. split; intros [v (k & i & Hk & -> & Hv)%reindexed_lookup]; [by eapply Hin|].
    destruct (proj2 (H3 i) (mk_is_Some _ _ Hv)) as [f Hfl]. exists f. apply reindexed_lookup. by eauto.
  - by eapply Hin.
  - intros l. destruct (last_window s); [|by rewrite Hl']. destruct Hl' as (k & Hk & -> & Hka'). intros [= <-].
    split; [by eapply Hin|]. intros Hst. specialize (Hka' Hst). lia.
Qed.

End Kept.
