(* ===== verification/SessionOps.v ===== *)
(** * Sessions: navigation, allocation and the operations on one window

    The operations of a session that work inside one of its windows keep the
    session invariant, moving between windows visits them in order, and
    allocated pane ids are fresh. *)

From stdpp Require Import sorting.
From S2P Require Import Prelude Panes Text Errors LayoutCell LayoutTree LayoutNamed LayoutText.
From S2P Require Import LayoutShape Window WindowInv WindowOps WindowMove PaneTransfer Session SessionInv.

Section Kept.
Context {stale : bool}.
Local Notation window_ok := (window_ok_at stale).
Local Notation session_ok := (session_ok_at stale).
Local Notation renumberable := (@renumberable stale).

(** An operation neither panics nor breaks the session. *)
Definition safe {A} (r : option (A * Session)) : Prop := exists a s, r = Some (a, s) /\ session_ok s.

Lemma safe_here {A} (a : A) s : session_ok s -> safe (Some (a, s)).
Proof. by exists a, s. Qed.

(** ** Through a window *)

Lemma on_window_safe {A} i (f : Window -> option (A * Window)) s :
  session_ok s -> (forall w, windows s !! i = Some w -> window_ok w -> exists a w', f w = Some (a, w') /\ window_ok w') ->
  safe (on_window i f s).
Proof.
  intros Hok Hf. unfold on_window. destruct (windows s !! i) as [w|] eqn:Hw; [|by apply safe_here].
  destruct (Hf w eq_refl (ses_windows s Hok i w Hw)) as (a & w' & -> & Hw'). cbn [mbind option_bind]. apply safe_here.
  apply update_window_ok; [done|by exists w|done].
Qed.

Lemma on_pane_safe {A} i p (f : Window -> option (result A RmuxError * Window)) s :
  session_ok s ->
  (forall w q, windows s !! i = Some w -> window_ok w -> pane p w = Some q -> exists a w', f w = Some (a, w') /\ window_ok w') ->
  safe (on_pane i p f s).
Proof.
  intros Hok Hf. unfold on_pane. destruct (windows s !! i) as [w|] eqn:Hw; [|by apply safe_here].
  destruct (pane p w) as [q|] eqn:Hq; [|by apply safe_here].
  destruct (Hf w q eq_refl (ses_windows s Hok i w Hw) Hq) as (a & w' & -> & Hw'). cbn [mbind option_bind]. apply safe_here.
  apply update_window_ok; [done|by exists w|done].
Qed.

Lemma flatten_safe {A} (r : option (result (result A RmuxError) RmuxError * Session)) : safe r -> safe (flatten r).
Proof. intros (a & s & -> & Hok). by apply safe_here. Qed.

Lemma ok_of_ok {A} (r : option (A * Window)) :
  (exists a w', r = Some (a, w') /\ window_ok w') -> exists a w', ok_of r = Some (a, w') /\ window_ok w'.
Proof. intros (a & w' & -> & H). by eexists _, w'. Qed.

Lemma done_with_ok {A} (r : option (A * Window)) :
  (exists a w', r = Some (a, w') /\ window_ok w') -> exists a w', done_with r = Some (a, w') /\ window_ok w'.
Proof. intros (a & w' & -> & H). by eexists _, w'. Qed.

Lemma unit_of_ok r : (exists w', r = Some w' /\ window_ok w') -> exists a w', unit_of r = Some (a, w') /\ window_ok w'.
Proof. intros (w' & -> & H). by eexists _, w'. Qed.

Lemma snd_of_ok {A} (r : option (A * Window)) :
  (exists a w', r = Some (a, w') /\ window_ok w') -> exists w', snd <$> r = Some w' /\ window_ok w'.
Proof. intros (a & w' & -> & H). by exists w'. Qed.

(** ** Selecting panes and zooming *)

Lemma select_pane_with_zoom_ok p (preserve : bool) now w :
  window_ok w -> exists a w', select_pane_with_zoom p preserve now w = Some (a, w') /\ window_ok w' /\ ids w' = ids w.
Proof.
  intros Hok. unfold select_pane_with_zoom. destruct preserve; cbn [mbind option_bind].
  - destruct (push_zoom_ok true w Hok) as (w1 & -> & Hw1 & Hz1 & Hs1). cbn [fmap option_fmap option_map snd mbind option_bind].
    rewrite select_pane_pend. destruct (select_pane_ok p now w1 Hw1) as (w2 & -> & Hw2 & Hi2 & Hz2 & _).
    cbn [fmap option_fmap option_map snd fst mbind option_bind]. rewrite andb_true_r. eexists _, _. split; [done|].
    destruct (pop_pend_ok (stale := stale) (zoomed w) w2) as (P1 & P2 & _); [done|by apply Hz2| |].
    { intros Hz. rewrite count_ids, Hi2, (same_ids _ _ Hs1), <- count_ids. by apply (win_layout _ Hok). }
    split; [done|]. rewrite P2, Hi2. apply Hs1.
  - destruct (select_pane_ok p now w Hok) as (w2 & -> & Hw2 & Hi2 & _). by eexists _, w2.
Qed.

Lemma push_zoom_plain w : window_ok w -> exists b w1, push_zoom false w = Some (b, w1) /\ window_ok w1 /\ zoomed w1 = false /\ same_order w w1.
Proof.
  intros Hok. destruct (push_zoom_ok false w Hok) as (w1 & E & Hw1 & Hz1 & Hs1). rewrite andb_false_r in E.
  eexists _, _. split; [exact E|]. assert (with_zoom_restore_pending false w1 = w1) as ->; [|done].
  pose proof (win_pending _ Hw1) as Hp. destruct w1. cbn in Hp. by subst.
Qed.

Lemma pane_same_order p w w1 q : order_ok w -> order_ok w1 -> same_order w w1 -> pane p w = Some q -> is_Some (pane p w1).
Proof.
  intros Ho Ho1 Hs Hq. pose proof (pane_is_Some p w1 Ho1) as H. pose proof (pane_in_window p w q Ho Hq) as Hi.
  unfold in_window in *. rewrite (same_order_count _ _ Hs), Hi in H. done.
Qed.

Lemma select_adjacent_with_zoom_ok p d preserve now w q :
  window_ok w -> pane p w = Some q ->
  exists a w', select_adjacent_with_zoom p d preserve now w = Some (a, w') /\ window_ok w'.
Proof.
  intros Hok Hq. unfold select_adjacent_with_zoom. cbv zeta.
  assert (exists w1, (if zoomed w then snd <$> push_zoom false w else Some w) = Some w1 /\ window_ok w1 /\ is_Some (pane p w1)) as (w1 & -> & Hw1 & [q1 Hq1]).
  { destruct (zoomed w); [|by eauto]. destruct (push_zoom_plain w Hok) as (b & w1 & -> & Hw1 & _ & Hs1). exists w1. split_and!; [done|done|].
    eapply pane_same_order; [apply (win_order _ Hok)|apply (win_order _ Hw1)|done|done]. }
  cbn [mbind option_bind]. destruct (select_adjacent_ok p d now w1 q1 Hw1 Hq1) as (c & w2 & -> & Hw2 & _). cbn [mbind option_bind].
  destruct (_ && _).
  - destruct (toggle_zoom_ok (active_pane w2) now w2 Hw2) as (b & w3 & -> & Hw3 & _). by eexists _, w3.
  - by eexists _, w2.
Qed.

(** ** Resizing panes *)

Lemma option_axis_ok d p n w :
  window_ok w -> exists w', match n with Some n => snd <$> resize_pane_axis d p n w | None => Some w end = Some w' /\ window_ok w'.
Proof.
  intros Hok. destruct n as [n|]; [|by exists w]. destruct (resize_pane_axis_ok d p n w Hok) as (b & w' & -> & H & _). by exists w'.
Qed.

Lemma resize_composite_ok p c r rel cells w : window_ok w -> exists w', resize_composite p c r rel cells w = Some w' /\ window_ok w'.
Proof.
  intros Hok. unfold resize_composite. destruct (option_axis_ok LeftRight p c w Hok) as (w1 & -> & H1). cbn [mbind option_bind].
  destruct (option_axis_ok TopBottom p r w1 H1) as (w2 & -> & H2). cbn [mbind option_bind]. destruct rel as [rel|]; [|by exists w2].
  apply snd_of_ok. destruct (window_resize_pane_by_ok p (to_adjustment rel cells) w2 H2) as (b & w3 & -> & H3 & _). by eexists _, w3.
Qed.

Lemma resize_adjustment_ok p adj now w : window_ok w -> exists w', resize_adjustment p adj now w = Some w' /\ window_ok w'.
Proof.
  intros Hok. assert (exists w', snd <$> window_resize_pane_by p adj w = Some w' /\ window_ok w') as Hby.
  { apply snd_of_ok. destruct (window_resize_pane_by_ok p adj w Hok) as (b & w3 & -> & H3 & _). by eexists _, w3. }
  destruct adj; cbn [resize_adjustment]; try done; try (by exists w); try (by apply resize_composite_ok).
  - by apply (option_axis_ok LeftRight p (Some columns)).
  - by apply (option_axis_ok TopBottom p (Some rows)).
  - apply snd_of_ok. destruct (toggle_zoom_ok p now w Hok) as (b & w' & -> & H & _). by eexists _, w'.
Qed.

(** ** Splitting panes *)

Lemma commit_arrived_ok id pa pl (detached : bool) now w :
  renumberable w -> zoomed w = false -> id ∈ ids w -> pa ∈ ids w ->
  exists w', commit_split_renumber id (Some pa) pl detached now w = Some w' /\ window_ok w' /\ ids w' = ids w.
Proof.
  intros Hr Hz Hi Hp. unfold commit_split_renumber. destruct detached; cbn [mbind option_bind].
  - destruct (renumber_unzoomed pa pl w Hr Hz Hp) as (w' & E & Hw & Hids & _). by exists w'.
  - destruct (renumber_unzoomed id (Some pa) w Hr Hz Hi) as (w1 & -> & Hw & Hids & Hz1 & _). cbn [mbind option_bind]. destruct (decide _); [by eauto|].
    destruct (mark_window_ok (active_pane w1) now w1 Hw Hz1) as (M1 & M2 & _). eexists. split_and!; [done|done|].
    by rewrite (same_ids _ _ M2).
Qed.

(** A window has room for a pane with a new id. *)
Definition room_for (id : Z) (w : Window) : bool := bool_decide (id ∉ ids w) && (Z.of_nat (S (count w)) <=? u16_max).

Lemma room_for_true id w : room_for id w = true -> id ∉ ids w /\ Z.of_nat (S (count w)) <= u16_max.
Proof. unfold room_for. intros [H1 H2]%andb_true_iff. split; [by apply bool_decide_eq_true in H1|by apply Z.leb_le]. Qed.

Lemma split_full_size_ok p id d (before detached : bool) now i s w :
  session_ok s -> windows s !! i = Some w -> room_for id w = true -> safe (split_pane_full_size i p id d before detached now s).
Proof.
  intros Hok Hw [Hid Hroom]%room_for_true. unfold split_pane_full_size. apply on_pane_safe; [done|]. intros w0 q Hw0 Hwin _.
  assert (w0 = w) as -> by congruence. destruct (active_id_ok w (win_order _ Hwin)) as (pa & Ea & Hpa). rewrite Ea.
  cbn [fmap option_fmap option_map].
  set (np := new_with_id now id (transient_index w) (mkPaneGeometry 0 0 0 0)).
  destruct (insert_full_size_ok np d before w Hwin Hroom) as (r & w1 & -> & Hr). rewrite bool_decide_true in Hr by (split; [done|by eapply transient_fresh]).
  destruct Hr as (-> & [Hi Hz Hren]). cbn [mbind option_bind]. change (pane_id np) with id in Hi.
  destruct (commit_arrived_ok id (pane_id pa) (l ← last_pane w; pane_id <$> pane l w) detached now w1 Hren Hz) as (w2 & -> & Hw2 & _).
  - rewrite Hi. destruct before; set_solver.
  - rewrite Hi. apply list_elem_of_lookup_2 in Hpa. destruct before; set_solver.
  - cbn [mbind option_bind]. by eexists _, w2.
Qed.

Lemma split_pane_in_window_ok p id d (before detached : bool) now i s w :
  session_ok s -> windows s !! i = Some w -> room_for id w = true -> safe (split_pane_in_window i p id d before detached now s).
Proof.
  intros Hok Hw [Hid Hroom]%room_for_true. unfold split_pane_in_window. apply on_pane_safe; [done|]. intros w0 q Hw0 Hwin Hq.
  assert (w0 = w) as -> by congruence. pose proof (pane_in_window p w q (win_order _ Hwin) Hq) as Hin.
  rewrite pane_position_ok by apply (win_order _ Hwin). fold (in_window p w). rewrite Hin. cbn [mbind option_bind].
  destruct (negb _); [by eexists _, w|]. apply ok_of_ok. apply andb_true_iff in Hin as [Hp1%Z.leb_le Hp2%Z.ltb_lt].
  destruct (split_at_position_ok (Z.to_nat p) id d before detached now w Hwin) as (w' & -> & Hw' & _); [lia|done|done|]. by eexists _, w'.
Qed.

(** ** Killing panes *)

Lemma kill_pane_ok i p s : session_ok s -> safe (kill_pane_in_window i p s).
Proof.
  intros Hok. unfold kill_pane_in_window. destruct (windows s !! i) as [w|] eqn:Hw; [|by apply safe_here].
  destruct (pane p w) as [q|] eqn:Hq; [|by apply safe_here]. pose proof (ses_windows s Hok i w Hw) as Hwin.
  destruct (Nat.eqb_spec (length (panes w)) 1) as [E|E].
  - destruct (remove_window_ok i s Hok) as (r & s' & -> & Hs'). cbn [mbind option_bind]. by apply safe_here.
  - pose proof (proj1 (ok_count w (win_order _ Hwin))) as Hc. assert (2 <= count w)%nat as H2 by (unfold count in *; lia).
    destruct (extract_pane_ok p w Hwin (pane_in_window p w q (win_order _ Hwin) Hq) H2) as (x & w' & Er & Hw' & _).
    unfold remove_pane. rewrite (proj2 (Nat.leb_gt _ 1)) by (unfold count in H2; lia). rewrite Er. cbn [mbind option_bind].
    apply safe_here. apply update_window_ok; [done|by exists w|done].
Qed.

Lemma kill_others_ok i p now s : session_ok s -> safe (kill_other_panes_in_window i p now s).
Proof.
  intros Hok. apply on_pane_safe; [done|]. intros w q Hw Hwin Hq.
  destruct (remove_other_panes_ok p now w Hwin) as (r & w' & -> & Hw' & Hr). rewrite Hq in Hr. cbn in Hr. destruct Hr as [-> _].
  cbn [mbind option_bind]. by eexists _, w'.
Qed.

(** ** Moving between windows *)

Lemma mod_twice x n : (0 < n)%nat -> (x < 2 * n)%nat -> (x mod n = if x <? n then x else x - n)%nat.
Proof.
  intros Hn Hx. destruct (Nat.ltb_spec x n) as [H|H]; [by apply Nat.mod_small|].
  replace x with ((x - n) + 1 * n)%nat at 1 by lia. rewrite Nat.Div0.mod_add. apply Nat.mod_small. lia.
Qed.

Ltac wrap_cases := rewrite mod_twice by lia; match goal with |- context [(?x <? ?y)%nat] => destruct (Nat.ltb_spec x y) end; lia.

(** The index [offset] steps on from position [k] of [n]. *)
Definition steps_on (forward : bool) (k n offset : nat) : nat := if forward then (k + offset) mod n else (k + n - offset) mod n.

Lemma steps_on_spec forward k n offset :
  (k < n)%nat -> (1 <= offset < n)%nat -> (steps_on forward k n offset < n)%nat /\ steps_on forward k n offset <> k.
Proof. intros Hk Ho. unfold steps_on. destruct forward; wrap_cases. Qed.

Lemma steps_on_back forward k n : (k < n)%nat -> (2 <= n)%nat -> steps_on (negb forward) (steps_on forward k n 1) n 1 = k.
Proof.
  intros Hk Hn. destruct (steps_on_spec forward k n 1 Hk ltac:(lia)) as [Hs _]. unfold steps_on in *. destruct forward; cbn [negb].
  - rewrite (mod_twice (k + 1)) in * by lia. destruct (Nat.ltb_spec (k + 1) n); wrap_cases.
  - rewrite (mod_twice (k + n - 1)) in * by lia. destruct (Nat.ltb_spec (k + n - 1) n); wrap_cases.
Qed.

Section Navigation.
Context (s : Session).
Let keys := sorted_keys (windows s).

Lemma ordered_after_spec start k forward :
  keys !! k = Some start ->
  ordered_window_indexes_after start forward s = omap (fun offset => keys !! steps_on forward k (length keys) offset) (seq 1 (length keys - 1)).
Proof.
  intros Hk. unfold ordered_window_indexes_after. fold keys. change (position (fun k => k =? start) keys) with (id_position start keys).
  rewrite (id_position_lookup start keys k) by (done || apply NoDup_sorted_keys). done.
Qed.

Lemma elem_of_ordered_after start forward i : i ∈ ordered_window_indexes_after start forward s -> has_window i s /\ i <> start.
Proof.
  intros Hi. unfold ordered_window_indexes_after in Hi. fold keys in Hi. change (position (fun k => k =? start) keys) with (id_position start keys) in Hi.
  destruct (id_position start keys) as [k|] eqn:Ek; [|by apply not_elem_of_nil in Hi]. apply id_position_Some in Ek.
  apply list_elem_of_omap in Hi as (o & Ho & Hi). apply elem_of_seq in Ho. change (keys !! steps_on forward k (length keys) o = Some i) in Hi.
  pose proof (lookup_lt_Some _ _ _ Ek) as Hk. destruct (steps_on_spec forward k (length keys) o) as [Hlt Hne]; [done|lia|]. split.
  - apply elem_of_sorted_keys. by eapply list_elem_of_lookup_2.
  - intros ->. apply Hne. eapply NoDup_lookup; [apply (NoDup_sorted_keys (windows s))|done|done].
Qed.

Lemma head_ordered_after start k forward :
  keys !! k = Some start -> (2 <= length keys)%nat ->
  exists i rest, ordered_window_indexes_after start forward s = i :: rest /\ keys !! steps_on forward k (length keys) 1 = Some i.
Proof.
  intros Hk H2. rewrite (ordered_after_spec _ k) by done. pose proof (lookup_lt_Some _ _ _ Hk) as Hlt.
  destruct (steps_on_spec forward k (length keys) 1) as [Hs _]; [done|lia|]. apply lookup_lt_is_Some in Hs as [i Hi].
  destruct (length keys) as [|[|n]] eqn:El; [lia|lia|]. change (S (S n) - 1)%nat with (S n). cbn [seq omap list_omap]. rewrite Hi. by eexists _, _.
Qed.

End Navigation.

Lemma step_window_ok forward alerts s : session_ok s -> session_ok (step_window forward alerts s).2.
Proof.
  intros Hok. unfold step_window. cbv zeta. destruct (_ <=? 1)%nat; [done|]. destruct (List.find _ _) as [k|]; [|done].
  destruct (select_window k s) as [[]] eqn:E; by apply (select_window_keeps k s _ _ Hok E).
Qed.

Lemma select_last_ok s : session_ok s -> session_ok (select_last_window s).2.
Proof.
  intros Hok. unfold select_last_window. destruct (last_window s) as [l|]; [|done].
  destruct (select_window l s) as [[]] eqn:E; by apply (select_window_keeps l s _ _ Hok E).
Qed.

Lemma restore_last_ok s : session_ok s -> session_ok (restore_last_window_after_active_unlink s).
Proof.
  intros Hok. unfold restore_last_window_after_active_unlink. destruct (last_window s) eqn:El; [done|]. apply with_last_ok; [done|].
  intros k Hk. apply head_Some_elem_of in Hk. by apply elem_of_ordered_after in Hk as [? ?].
Qed.

End Kept.
