(* ===== verification/SessionTransfer.v ===== *)
(** * Moving panes between windows and sessions

    [Session::swap_panes], [join_pane] and [break_pane] of
    [crates/rmux-core/src/session/pane_transfer.rs] and
    [session/pane_transfer/break_window.rs], and the same operations between two
    sessions of [session/pane_transfer_cross.rs].

    Every pair of functions that the code writes twice, once for one session and
    once for two, is one definition here, used by both. *)

From stdpp Require Import sorting.
From S2P Require Import Prelude Panes Text Errors LayoutCell LayoutTree LayoutNamed LayoutText.
From S2P Require Import LayoutShape Window WindowInv WindowOps WindowMove PaneTransfer Session SessionInv SessionOps.

(** ** Data *)

Record SessionPaneTarget := mkPaneTarget { window_index : Z; target_pane : Z }.

Record BreakPaneOptions := mkBreakOptions {
  target_window_index : option Z;
  break_name : option string;
  break_detached : bool;
  break_after : bool;
  break_before : bool;
}.

(** ** Looking up the two ends *)

Definition pane_at (t : SessionPaneTarget) (s : Session) : result (Window * PaneState) RmuxError :=
  match windows s !! window_index t with
  | None => Err (invalid_window_target (ses_name s) (window_index t))
  | Some w =>
      match pane (target_pane t) w with
      | None => Err (missing_pane (ses_name s) (window_index t) (target_pane t))
      | Some p => Ok (w, p)
      end
  end.

Definition set_window (i : Z) (w : Window) (s : Session) : Session := with_windows (<[i := w]> (windows s)) s.

Definition drop_window (i : Z) (s : Session) : Session := with_windows (delete i (windows s)) s.

(** ** Swapping *)

(** The checks of [swap_panes] and [swap_panes_with_session]: both panes exist
    and neither window already has the other pane. *)
Definition swap_checks (source target : SessionPaneTarget) (ss ts : Session)
  : option (result (Window * PaneState * Window * PaneState) RmuxError) :=
  match pane_at source ss with
  | Err e => Some (Err e)
  | Ok (sw, sp) =>
      match pane_at target ts with
      | Err e => Some (Err e)
      | Ok (tw, tp) =>
          r ← validate_swap_destination tp (target_pane source) sw;
          match r with
          | Err e => Some (Err e)
          | Ok _ =>
              r ← validate_swap_destination sp (target_pane target) tw;
              Some (match r with Err e => Err e | Ok _ => Ok (sw, sp, tw, tp) end)
          end
      end
  end.

Definition session_swap_panes (source target : SessionPaneTarget) (o : PaneSwapOptions) (now : Z) (s : Session)
  : option (result unit RmuxError * Session) :=
  if window_index source =? window_index target then
    flatten (on_window (window_index source)
      (swap_panes_within_window (ses_name s) (window_index source) (target_pane source) (target_pane target) o now) s)
  else
    r ← swap_checks source target s s;
    match r with
    | Err e => Some (Err e, s)
    | Ok (sw, sp, tw, tp) =>
        '(r, sw, tw) ← apply_swap_between_windows sw (target_pane source) sp tw (target_pane target) tp o now;
        let s := drop_window (window_index target) (drop_window (window_index source) s) in
        Some (match r with
              | Err e => (Err e, s)
              | Ok _ => (Ok tt, set_window (window_index target) tw (set_window (window_index source) sw s))
              end)
    end.

Definition swap_panes_with_session (source target : SessionPaneTarget) (o : PaneSwapOptions) (now : Z) (s ts : Session)
  : option (result unit RmuxError * Session * Session) :=
  r ← swap_checks source target s ts;
  match r with
  | Err e => Some (Err e, s, ts)
  | Ok (sw, sp, tw, tp) =>
      '(r, sw, tw) ← apply_swap_between_windows sw (target_pane source) sp tw (target_pane target) tp o now;
      Some (r, set_window (window_index source) sw s, set_window (window_index target) tw ts)
  end.

(** ** Joining *)

Record JoinPlan := mkJoinPlan {
  join_position : nat;
  join_requested : option Z;
  join_transient : Z;
  join_active_before : Z;
  join_last_before : option Z;
}.

(** The checks of [join_pane] and [join_pane_from_session]. *)
Definition join_checks (source target : SessionPaneTarget) (o : PaneJoinOptions) (ss ts : Session)
  : option (result (Window * Window * JoinPlan) RmuxError) :=
  match pane_at source ss with
  | Err e => Some (Err e)
  | Ok (sw, sp) =>
      match windows ts !! window_index target with
      | None => Some (Err (invalid_window_target (ses_name ts) (window_index target)))
      | Some tw =>
          match pane_position (target_pane target) tw with
          | None => Some (Err (missing_pane (ses_name ts) (window_index target) (target_pane target)))
          | Some pos =>
              match join_requested_size tw (target_pane target) (join_direction o) (join_full_size o) (join_size o) with
              | Err e => Some (Err e)
              | Ok requested =>
                  match ensure_accepts_pane (set_index (transient_index tw) sp) None tw with
                  | Err e => Some (Err e)
                  | Ok _ =>
                      a ← pane_id <$> active tw;
                      let l := i ← last_pane tw; pane_id <$> pane i tw in
                      Some (Ok (sw, tw, mkJoinPlan pos requested (transient_index tw) a l))
                  end
              end
          end
      end
  end.

Definition insert_joined (moved : PaneState) (position : nat) (o : PaneJoinOptions) (w : Window)
  : option (result unit RmuxError * Window) :=
  if join_full_size o then insert_pane_full_size moved (join_direction o) (join_before o) w
  else insert_pane_at_position (if join_before o then position else S position) moved (join_direction o) w.

Definition resize_joined (requested : option Z) (i : Z) (o : PaneJoinOptions) (w : Window) : option Window :=
  match requested with
  | None => Some w
  | Some n =>
      snd <$> (if join_full_size o then window_resize_pane_to i (join_direction o) n w
               else resize_new_split_pane_to i (join_direction o) n (join_before o) w)
  end.

(** The pane leaves the source window and enters the target window. *)
Definition join_windows (source_pane : Z) (p : JoinPlan) (o : PaneJoinOptions) (now : Z) (sw tw : Window)
  : option (result Z RmuxError * Window * Window) :=
  sw ← unzoomed sw;
  tw ← unzoomed tw;
  '(moved, sw) ← extract_pane source_pane sw;
  moved ← moved;
  let id := pane_id moved in
  '(r, tw) ← insert_joined (set_index (join_transient p) moved) (join_position p) o tw;
  match r with
  | Err e => Some (Err e, sw, tw)
  | Ok _ =>
      let a := join_active_before p in
      tw ← (if join_detached o then renumber_panes_by_position a (join_last_before p) tw
            else renumber_panes_by_position_stamping id (if a =? id then None else Some a) (Some a) now tw);
      i ← pane_index_for_id id tw;
      tw ← resize_joined (join_requested p) i o tw;
      Some (Ok i, sw, tw)
  end.

Definition only_window (s : Session) : RmuxError :=
  Server (string_of (text_of "cannot kill the only window in session " ++ text_of (ses_name s))).

(** The source window lost its last pane. *)
Definition forget_source (i : Z) (s : Session) : option Session :=
  let s := with_flags (delete i (winlink_alert_flags s)) s in
  s ← (if active_window s =? i then
         a ← next_active_window_after_removal i s;
         Some (with_group_initial None (with_active_window a s))
       else Some s);
  Some (if bool_decide (last_window s = Some i) then with_last_window None s else s).

Definition join_pane (source target : SessionPaneTarget) (o : PaneJoinOptions) (now : Z) (s : Session)
  : option (result unit RmuxError * Session) :=
  if window_index source =? window_index target then
    flatten (on_window (window_index source)
      (join_pane_within_window (ses_name s) (window_index source) (target_pane source) (target_pane target) o now) s)
  else
    r ← join_checks source target o s s;
    match r with
    | Err e => Some (Err e, s)
    | Ok (sw, tw, plan) =>
        let s := drop_window (window_index target) (drop_window (window_index source) s) in
        '(r, sw, tw) ← join_windows (target_pane source) plan o now sw tw;
        match r with
        | Err e => Some (Err e, s)
        | Ok _ =>
            let s := set_window (window_index target) tw s in
            if (count sw =? 0)%nat && (size (windows s) =? 0)%nat then
              Some (Err (only_window s), set_window (window_index source) sw s)
            else
              s ← (if (count sw =? 0)%nat then forget_source (window_index source) s
                   else Some (set_window (window_index source) sw s));
              Some (if join_detached o then (Ok tt, s) else select_window (window_index target) s)
        end
    end.

(** [self] is the target session; the source session is the second one. *)
Definition join_pane_from_session (target source : SessionPaneTarget) (o : PaneJoinOptions) (now : Z) (s ss : Session)
  : option (result unit RmuxError * Session * Session) :=
  r ← join_checks source target o ss s;
  match r with
  | Err e => Some (Err e, s, ss)
  | Ok (sw, tw, plan) =>
      '(r, sw, tw) ← join_windows (target_pane source) plan o now sw tw;
      let ss := set_window (window_index source) sw ss in
      match r with
      | Err e => Some (Err e, set_window (window_index target) tw s, ss)
      | Ok i =>
          '(r, s) ←
            (if join_detached o then Some (Ok tt, set_window (window_index target) tw s)
             else
               '(_, tw) ← select_pane i now tw;
               Some (select_window (window_index target) (set_window (window_index target) tw s)));
          match r with
          | Err e => Some (Err e, s, ss)
          | Ok _ =>
              if (count sw =? 0)%nat then
                '(r, ss) ← remove_window_allowing_empty (window_index source) ss;
                Some (match r with Err e => Err e | Ok _ => Ok tt end, s, ss)
              else Some (Ok tt, s, ss)
          end
      end
  end.

(** ** Breaking panes out *)

Definition index_space_exhausted : RmuxError := Server "window index space exhausted".

Definition resolve_break_destination_index (target allowed : option Z) (s : Session) : result Z RmuxError :=
  match target with
  | Some i =>
      if bool_decide (is_Some (windows s !! i)) && negb (bool_decide (allowed = Some i)) then Err (index_exists i s) else Ok i
  | None => lowest_available_window_index_at_or_above 0 s
  end.

(** One round of the shift; the two maps move together. *)
Definition shift_one (i : Z) (s : Session) : option (result unit RmuxError * Session) :=
  if i =? u32_max then Some (Err index_space_exhausted, s)
  else
    w ← windows s !! i;
    let f := winlink_flags i s in
    let s := with_flags (delete i (winlink_alert_flags s)) (with_windows (delete i (windows s)) s) in
    Some (Ok tt, with_flags (<[i + 1 := f]> (winlink_alert_flags s)) (with_windows (<[i + 1 := w]> (windows s)) s)).

Fixpoint shift_loop (l : list Z) (s : Session) : option (result unit RmuxError * Session) :=
  match l with
  | [] => Some (Ok tt, s)
  | i :: l =>
      '(r, s) ← shift_one i s;
      match r with Err e => Some (Err e, s) | Ok _ => shift_loop l s end
  end.

Definition shift_windows_up_from (start : Z) (s : Session) : option (result unit RmuxError * Session) :=
  let keys := sorted_keys (windows s) in
  if bool_decide (last keys = Some u32_max) then Some (Err index_space_exhausted, s)
  else
    '(r, s) ← shift_loop (reverse (filter (fun k => start <= k) keys)) s;
    match r with
    | Err e => Some (Err e, s)
    | Ok _ =>
        let s := if start <=? active_window s then with_active_window (u32_sat_add (active_window s) 1) s else s in
        Some (Ok tt, match last_window s with
                     | Some l => if start <=? l then with_last_window (Some (u32_sat_add l 1)) s else s
                     | None => s
                     end)
    end.

(** Where the new window goes: [Ok] with its index, after making room there with
    [-a] and [-b]. *)
Definition prepare_break_destination (target : option Z) (allowed : option Z) (after before : bool) (s : Session)
  : option (result Z RmuxError * Session) :=
  if negb (after || before) then Some (resolve_break_destination_index target allowed s, s)
  else
    let anchor := default (active_window s) target in
    if bool_decide (is_Some target) && negb (bool_decide (is_Some (windows s !! anchor)))
    then Some (Err (invalid_window_target (ses_name s) anchor), s)
    else if negb before && (anchor =? u32_max) then Some (Err index_space_exhausted, s)
    else
      let i := if before then anchor else anchor + 1 in
      '(r, s) ← shift_windows_up_from i s;
      Some (match r with Err e => Err e | Ok _ => Ok i end, s).

(** Where the source window is after that, within one session. *)
Definition shifted_source (source destination : Z) (after before : bool) : result Z RmuxError :=
  if negb (after || before) then Ok source
  else if destination <=? source then
    if source =? u32_max then Err index_space_exhausted else Ok (source + 1)
  else Ok source.

Definition with_break_name (name : option string) (w : Window) : Window := match name with Some n => set_name n w | None => w end.

Definition break_pane (source : SessionPaneTarget) (o : BreakPaneOptions) (next now : Z) (s : Session)
  : option (result Z RmuxError * Z * Session) :=
  match pane_at source s with
  | Err e => Some (Err e, next, s)
  | Ok (original, _) =>
      '(r, s) ← prepare_break_destination (target_window_index o) (Some (window_index source)) (break_after o) (break_before o) s;
      match r with
      | Err e => Some (Err e, next, s)
      | Ok destination =>
          match shifted_source (window_index source) destination (break_after o) (break_before o) with
          | Err e => Some (Err e, next, s)
          | Ok source_index =>
              w ← windows s !! source_index;
              if (count original =? 1)%nat then
                w ← renumber_single_pane_to_zero w;
                '(r, s) ← move_window source_index destination false (negb (break_detached o)) (set_window source_index w s);
                match r with
                | Err e => Some (Err e, next, s)
                | Ok _ =>
                    match break_name o with
                    | None => Some (Ok destination, next, s)
                    | Some name =>
                        '(r, s) ← rename_window destination name s;
                        Some (match r with Err e => Err e | Ok _ => Ok destination end, next, s)
                    end
                end
              else
                let size := win_size w in
                w ← unzoomed w;
                '(moved, w) ← extract_pane (target_pane source) w;
                p ← moved;
                let s := set_window source_index w s in
                '(wid, next) ← allocate_window_id next;
                new ← window_new_with_initial_pane size (pane_id p) wid now;
                match insert_existing_window destination (with_break_name (break_name o) new) next s with
                | (Err e, next, s) => Some (Err e, next, s)
                | (Ok _, next, s) =>
                    if break_detached o then Some (Ok destination, next, s)
                    else
                      match select_window destination s with
                      | (Err e, s) => Some (Err e, next, s)
                      | (Ok _, s) => Some (Ok destination, next, s)
                      end
                end
          end
      end
  end.

Definition finish_break (detached : bool) (destination next : Z) (s ds : Session) : option (result Z RmuxError * Z * Session * Session) :=
  if detached then Some (Ok destination, next, s, ds)
  else
    match select_window destination ds with
    | (Err e, ds) => Some (Err e, next, s, ds)
    | (Ok _, ds) => Some (Ok destination, next, s, ds)
    end.

(** [self] is the source session. *)
Definition break_pane_to_session (source : SessionPaneTarget) (o : BreakPaneOptions) (next now : Z) (s ds : Session)
  : option (result Z RmuxError * Z * Session * Session) :=
  match pane_at source s with
  | Err e => Some (Err e, next, s, ds)
  | Ok (w, _) =>
      '(r, ds) ← prepare_break_destination (target_window_index o) None (break_after o) (break_before o) ds;
      match r with
      | Err e => Some (Err e, next, s, ds)
      | Ok destination =>
          if (count w =? 1)%nat then
            let flags := winlink_flags (window_index source) s in
            '(r, s) ← remove_window_allowing_empty (window_index source) s;
            match r with
            | Err e => Some (Err e, next, s, ds)
            | Ok moved =>
                moved ← renumber_single_pane_to_zero moved;
                match insert_existing_window destination moved next ds with
                | (Err e, next, ds) => Some (Err e, next, s, ds)
                | (Ok _, next, ds) =>
                    '(r, ds) ← match break_name o with Some name => rename_window destination name ds | None => Some (Ok tt, ds) end;
                    match r with
                    | Err e => Some (Err e, next, s, ds)
                    | Ok _ =>
                        let ds := snd (clear_all_winlink_alert_flags destination ds) in
                        let ds := if flags =? 0 then ds else snd (add_winlink_alert_flags destination flags ds) in
                        finish_break (break_detached o) destination next s ds
                    end
                end
            end
          else
            let size := win_size w in
            w ← unzoomed w;
            '(moved, w) ← extract_pane (target_pane source) w;
            p ← moved;
            let s := set_window (window_index source) w s in
            '(wid, next) ← allocate_window_id next;
            new ← window_new_with_initial_pane size (pane_id p) wid now;
            match insert_existing_window destination (with_break_name (break_name o) new) next ds with
            | (Err e, next, ds) => Some (Err e, next, s, ds)
            | (Ok _, next, ds) => finish_break (break_detached o) destination next s ds
            end
      end
  end.

(** ** A pane leaves one window and enters another *)

Lemma same_order_in_window i w w1 : same_order w w1 -> in_window i w1 = in_window i w.
Proof. intros Hs. unfold in_window. by rewrite (same_order_count _ _ Hs). Qed.

Section Kept.
Context {stale : bool}.
Local Notation window_ok := (window_ok_at stale).
Local Notation session_ok := (session_ok_at stale).
Local Notation safe := (@safe stale _).
Local Notation renumberable := (@renumberable stale).
Local Notation arrived := (@arrived stale).
Local Notation ok_but := (@ok_but stale).

(** Taking the only pane leaves an empty window. *)
Lemma extract_only_pane i w :
  window_ok w -> zoomed w = false -> in_window i w = true -> count w = 1%nat ->
  exists p w', extract_pane i w = Some (Some p, w') /\ ids w !! Z.to_nat i = Some (pane_id p) /\ count w' = 0%nat.
Proof.
  intros Hok Hz Hi Hc. pose proof (win_order _ Hok) as Ho. pose proof Hi as Hi'. unfold in_window in Hi. apply andb_true_iff in Hi as [H1%Z.leb_le H2%Z.ltb_lt].
  assert (i = 0) as -> by lia. unfold extract_pane. rewrite pane_position_ok by done. rewrite Hc. cbn [andb Z.leb Z.ltb Z.compare Z.of_nat Pos.of_succ_nat Pos.compare Pos.compare_cont].
  unfold unzoomed, auto_unzoom. rewrite Hz. cbn [fmap option_fmap option_map snd mbind option_bind].
  destruct (active_id_ok w Ho) as (pa & Ea & _). rewrite Ea. cbn [fmap option_fmap option_map].
  pose proof Hc as Hc'. unfold count in Hc. rewrite Hc. change (1 <? 1)%nat with false. rewrite andb_false_r. cbn [mbind option_bind].
  destruct (panes w) as [|p [|]] eqn:Ep; try done. change (Z.to_nat 0) with 0%nat. cbn [lookup list_lookup delete list_delete mbind option_bind].
  exists p. eexists. split; [done|]. split; [|done]. unfold ids. by rewrite Ep.
Qed.

(** What is left of the source window. *)
Definition source_left (i : Z) (sw sw' : Window) : Prop :=
  if (count sw =? 1)%nat then count sw' = 0%nat
  else window_ok sw' /\ ids sw' = delete (Z.to_nat i) (ids sw).

Lemma extract_leaves i w :
  window_ok w -> zoomed w = false -> in_window i w = true ->
  exists p w', extract_pane i w = Some (Some p, w') /\ ids w !! Z.to_nat i = Some (pane_id p) /\ source_left i w w'.
Proof.
  intros Hok Hz Hi. unfold source_left. destruct (Nat.eqb_spec (count w) 1) as [E|E]; [by apply extract_only_pane|].
  pose proof (proj1 (ok_count w (win_order _ Hok))).
  destruct (extract_pane_ok i w Hok Hi) as (p & w' & E' & Hw & Hp & Hd & _); [lia|]. by exists p, w'.
Qed.

(** The new order of the target window. *)
Definition joined_ids (position : nat) (id : Z) (o : PaneJoinOptions) (l : list Z) : list Z :=
  if join_full_size o then if join_before o then id :: l else l ++ [id]
  else let at_ := if join_before o then position else S position in take at_ l ++ id :: drop at_ l.

Lemma joined_ids_perm position id o l : joined_ids position id o l ≡ₚ id :: l.
Proof.
  unfold joined_ids. destruct (join_full_size o).
  - destruct (join_before o); [done|]. symmetry. apply Permutation_cons_append.
  - cbv zeta. rewrite <- Permutation_middle. by rewrite take_drop.
Qed.

Lemma insert_joined_ok p position o w :
  window_ok w -> Z.of_nat (S (count w)) <= u16_max -> (position < count w)%nat ->
  pane_id p ∉ ids w -> pane_index p ∉ indexes_of w ->
  exists w', insert_joined p position o w = Some (Ok tt, w') /\ arrived p (joined_ids position (pane_id p) o (ids w)) w'.
Proof.
  intros Hok Hroom Hpos Hid Hidx. unfold insert_joined, joined_ids. destruct (join_full_size o).
  - destruct (insert_full_size_ok p (join_direction o) (join_before o) w Hok Hroom) as (r & w' & -> & H).
    rewrite bool_decide_true in H by done. destruct H as [-> H]. by exists w'.
  - cbv zeta. destruct (insert_at_position_ok (if join_before o then position else S position) p (join_direction o) w Hok Hroom) as (r & w' & -> & H).
    rewrite (proj2 (Nat.leb_le _ _)), bool_decide_true in H by (done || destruct (join_before o); lia). destruct H as [-> H]. by exists w'.
Qed.

Lemma resize_joined_ok n i o w : window_ok w -> exists w', resize_joined n i o w = Some w' /\ window_ok w' /\ ids w' = ids w.
Proof.
  intros Hok. unfold resize_joined. destruct n as [n|]; [|by exists w]. destruct (join_full_size o).
  - destruct (window_resize_pane_to_ok i (join_direction o) n w Hok) as (b & w' & -> & H1 & H2). by exists w'.
  - destruct (resize_new_split_ok i (join_direction o) n (join_before o) w Hok) as (b & w' & -> & H1 & H2). by exists w'.
Qed.

Lemma join_windows_ok si position requested o now sw tw a l id :
  window_ok sw -> window_ok tw -> in_window si sw = true -> (position < count tw)%nat -> ids sw !! Z.to_nat si = Some id ->
  id ∉ ids tw -> Z.of_nat (S (count tw)) <= u16_max -> a ∈ ids tw ->
  exists i sw' tw',
    join_windows si (mkJoinPlan position requested (transient_index tw) a l) o now sw tw = Some (Ok i, sw', tw') /\
    source_left si sw sw' /\ window_ok tw' /\ ids tw' = joined_ids position id o (ids tw) /\ ids tw' !! Z.to_nat i = Some id /\ 0 <= i.
Proof.
  intros Hs Ht Hin Hpos Hid Hfresh Hroom Ha. unfold join_windows. cbn [join_transient join_active_before join_last_before join_position join_requested].
  destruct (unzoomed_window_ok sw Hs) as (sw1 & -> & Hs1 & Hz1 & Hso). cbn [mbind option_bind].
  destruct (unzoomed_window_ok tw Ht) as (tw1 & -> & Ht1 & Hzt & Hto). cbn [mbind option_bind].
  destruct (extract_leaves si sw1 Hs1 Hz1) as (p & sw2 & -> & Hp & Hleft); [by rewrite (same_order_in_window _ _ _ Hso)|]. cbn [mbind option_bind].
  rewrite (same_ids _ _ Hso) in Hp. assert (pane_id p = id) as Epid by congruence.
  assert (source_left si sw sw2) as Hleft' by (unfold source_left in *; by rewrite (same_order_count _ _ Hso), (same_ids _ _ Hso) in Hleft). clear Hleft.
  pose proof (transient_fresh tw Ht) as Htr.
  destruct (insert_joined_ok (set_index (transient_index tw) p) position o tw1) as (tw2 & -> & [Hi2 Hz2 Hren]); [done|..].
  - by rewrite (same_order_count _ _ Hto).
  - by rewrite (same_order_count _ _ Hto).
  - rewrite (same_ids _ _ Hto). change (pane_id p ∉ ids tw). by rewrite Epid.
  - by rewrite (same_indexes _ _ Hto).
  - change (pane_id (set_index (transient_index tw) p)) with (pane_id p) in Hi2. rewrite (same_ids _ _ Hto), Epid in Hi2. cbn [mbind option_bind].
    pose proof (joined_ids_perm position id o (ids tw)) as Hperm.
    assert (exists tw3, (if join_detached o then renumber_panes_by_position a l tw2
       else renumber_panes_by_position_stamping (pane_id p) (if a =? pane_id p then None else Some a) (Some a) now tw2) = Some tw3 /\
       window_ok tw3 /\ ids tw3 = ids tw2) as (tw3 & -> & Hw3 & Hi3).
    { destruct (join_detached o).
      - destruct (renumber_unzoomed a l tw2 Hren Hz2) as (w & -> & ? & ? & _); [rewrite Hi2, Hperm; set_solver|]. by exists w.
      - destruct (stamping_ok (pane_id p) (if a =? pane_id p then None else Some a) (Some a) now tw2 Hren Hz2) as (w & -> & ? & ? & _);
          [rewrite Hi2, Hperm, Epid; set_solver|]. by exists w. }
    cbn [mbind option_bind]. assert (id ∈ ids tw3) as Hin3 by (rewrite Hi3, Hi2, Hperm; set_solver).
    apply list_elem_of_lookup_1 in Hin3 as [k Hk]. rewrite Epid.
    rewrite (pane_index_for_id_ok id tw3) by apply (win_order _ Hw3). rewrite (id_position_lookup id _ k) by (done || apply (win_order _ Hw3)).
    cbn [fmap option_fmap option_map mbind option_bind].
    destruct (resize_joined_ok requested (Z.of_nat k) o tw3 Hw3) as (tw4 & -> & Hw4 & Hi4). cbn [mbind option_bind].
    exists (Z.of_nat k), sw2, tw4. split_and!; [done|done|done|congruence|rewrite Nat2Z.id; congruence|lia].
Qed.

(** ** Swapping keeps the session *)

Lemma pane_at_Ok t s w p : pane_at t s = Ok (w, p) -> windows s !! window_index t = Some w /\ pane (target_pane t) w = Some p.
Proof.
  unfold pane_at. destruct (windows s !! _) as [w0|]; [|done]. destruct (pane _ w0) as [p0|] eqn:E; [|done]. by intros [= <- <-].
Qed.

Lemma validate_swap_spec p i w q :
  order_ok w -> pane i w = Some q ->
  exists r, validate_swap_destination p i w = Some r /\ (r = Ok tt -> pane_id p ∉ delete (Z.to_nat i) (ids w)).
Proof.
  intros Ho Hq. unfold validate_swap_destination. rewrite pane_position_ok by done. fold (in_window i w). rewrite (pane_in_window i w q Ho Hq).
  cbn [mbind option_bind]. eexists. split; [done|]. destruct (existsb _ _) eqn:E; [done|]. intros _ Hin.
  unfold ids in Hin. rewrite <- (list_fmap_delete pane_id) in Hin. apply list_elem_of_fmap in Hin as (x & Ex & Hx).
  rewrite <- not_true_iff_false in E. apply E. apply existsb_exists. exists x. split; [by apply list_elem_of_In|lia].
Qed.

Lemma swap_checks_spec source target ss ts :
  session_ok ss -> session_ok ts ->
  exists r, swap_checks source target ss ts = Some r /\
    forall sw sp tw tp, r = Ok (sw, sp, tw, tp) ->
      windows ss !! window_index source = Some sw /\ windows ts !! window_index target = Some tw /\
      pane (target_pane source) sw = Some sp /\ pane (target_pane target) tw = Some tp /\
      pane_id tp ∉ delete (Z.to_nat (target_pane source)) (ids sw) /\ pane_id sp ∉ delete (Z.to_nat (target_pane target)) (ids tw).
Proof.
  intros Hs Ht. unfold swap_checks. destruct (pane_at source ss) as [[sw sp]|e] eqn:Es; [|by eexists].
  destruct (pane_at target ts) as [[tw tp]|e] eqn:Et; [|by eexists]. apply pane_at_Ok in Es as [Ws Ps], Et as [Wt Pt].
  pose proof (win_order _ (ses_windows _ Hs _ _ Ws)) as Os. pose proof (win_order _ (ses_windows _ Ht _ _ Wt)) as Ot.
  destruct (validate_swap_spec tp (target_pane source) sw sp Os Ps) as (r1 & -> & V1). cbn [mbind option_bind].
  destruct r1 as [[]|e]; [|by eexists]. destruct (validate_swap_spec sp (target_pane target) tw tp Ot Pt) as (r2 & -> & V2). cbn [mbind option_bind].
  eexists. split; [done|]. destruct r2 as [[]|e]; [|done]. intros ? ? ? ? [= <- <- <- <-]. split_and!; try done; [by apply V1|by apply V2].
Qed.

Lemma set_dropped i j a b s :
  i <> j -> windows (set_window j b (set_window i a (drop_window j (drop_window i s)))) = windows (set_window j b (set_window i a s)).
Proof.
  intros Hij. cbn. apply map_eq. intros k. destruct (decide (k = j)) as [->|]; [by rewrite !lookup_insert_eq|]. rewrite !(lookup_insert_ne _ j) by done.
  destruct (decide (k = i)) as [->|]; [by rewrite !lookup_insert_eq|]. by rewrite !lookup_insert_ne, !lookup_delete_ne by done.
Qed.

Lemma session_swap_safe source target o now s : session_ok s -> safe (session_swap_panes source target o now s).
Proof.
  intros Hok. unfold session_swap_panes. destruct (Z.eqb_spec (window_index source) (window_index target)) as [E|E].
  - apply flatten_safe, on_window_safe; [done|]. intros w _ Hw.
    destruct (swap_within_ok (ses_name s) (window_index source) (target_pane source) (target_pane target) o now w Hw) as (r & w' & -> & H & _). by eauto.
  - destruct (swap_checks_spec source target s s Hok Hok) as (r & -> & Hr). cbn [mbind option_bind].
    destruct r as [[[[sw sp] tw] tp]|e]; [|by apply safe_here]. destruct (Hr _ _ _ _ eq_refl) as (Ws & Wt & Ps & Pt & Is & It).
    pose proof (ses_windows _ Hok _ _ Ws) as Os. pose proof (ses_windows _ Hok _ _ Wt) as Ot.
    destruct (apply_swap_ok sw _ sp tw _ tp o now Os Ot Ps Pt Is It) as (sw' & tw' & -> & Hs' & Ht' & _). cbn [mbind option_bind].
    apply safe_here. apply (same_windows_ok (set_window (window_index target) tw' (set_window (window_index source) sw' s))); [|done|done|].
    + split; [by apply set_dropped|done].
    + apply update_window_ok; [apply update_window_ok; [done|by exists sw|done]| |done].
      unfold has_window. cbn. rewrite lookup_insert_ne by done. by exists tw.
Qed.

(** Both sessions survive an exchange between them. *)
Definition safe_pair {A} (r : option (A * Session * Session)) : Prop :=
  exists a s1 s2, r = Some (a, s1, s2) /\ session_ok s1 /\ session_ok s2.

Lemma session_swap_between_safe source target o now s ts :
  session_ok s -> session_ok ts -> safe_pair (swap_panes_with_session source target o now s ts).
Proof.
  intros Hok Hts. unfold swap_panes_with_session. destruct (swap_checks_spec source target s ts Hok Hts) as (r & -> & Hr). cbn [mbind option_bind].
  destruct r as [[[[sw sp] tw] tp]|e]; [|by eexists _, s, ts]. destruct (Hr _ _ _ _ eq_refl) as (Ws & Wt & Ps & Pt & Is & It).
  pose proof (ses_windows _ Hok _ _ Ws) as Os. pose proof (ses_windows _ Hts _ _ Wt) as Ot.
  destruct (apply_swap_ok sw _ sp tw _ tp o now Os Ot Ps Pt Is It) as (sw' & tw' & -> & Hs' & Ht' & _). cbn [mbind option_bind].
  eexists _, _, _. split_and!; [done| |]; (apply update_window_ok; [done|by eexists|done]).
Qed.

(** ** Joining keeps the session *)

Lemma join_checks_spec source target o ss ts :
  session_ok ss -> session_ok ts ->
  exists r, join_checks source target o ss ts = Some r /\
    forall sw tw p, r = Ok (sw, tw, p) ->
      windows ss !! window_index source = Some sw /\ windows ts !! window_index target = Some tw /\
      in_window (target_pane source) sw = true /\ (join_position p < count tw)%nat /\
      join_position p = Z.to_nat (target_pane target) /\
      join_transient p = transient_index tw /\ join_active_before p ∈ ids tw /\
      exists id, ids sw !! Z.to_nat (target_pane source) = Some id /\ id ∉ ids tw.
Proof.
  intros Hs Ht. unfold join_checks. destruct (pane_at source ss) as [[sw sp]|e] eqn:Es; [|by eexists]. apply pane_at_Ok in Es as [Ws Ps].
  destruct (windows ts !! window_index target) as [tw|] eqn:Wt; [|by eexists].
  pose proof (win_order _ (ses_windows _ Hs _ _ Ws)) as Os. pose proof (win_order _ (ses_windows _ Ht _ _ Wt)) as Ot.
  rewrite pane_position_ok by done. destruct (_ && _) eqn:Epos; [|by eexists]. apply andb_true_iff in Epos as [E1%Z.leb_le E2%Z.ltb_lt].
  destruct (join_requested_size _ _ _ _ _) as [req|e]; [|by eexists].
  destruct (ensure_accepts_pane _ _ tw) as [[]|e] eqn:Eacc; [|by eexists].
  destruct (active_id_ok tw Ot) as (pa & -> & Hpa). cbn [fmap option_fmap option_map mbind option_bind].
  eexists. split; [done|]. intros ? ? ? [= <- <- <-]. cbn. split_and!; try done.
  - by eapply pane_in_window.
  - lia.
  - by eapply list_elem_of_lookup_2.
  - exists (pane_id sp). pose proof (pane_in_window _ _ _ Os Ps) as Hin. destruct (in_window_pane _ _ Os Hin) as (q & Hq & Hl).
    assert (q = sp) as -> by congruence. split; [done|]. apply accepts_loop_spec in Eacc as [H _]. done.
Qed.

(** The target window has room for one more pane. *)
Definition join_room (target : SessionPaneTarget) (s : Session) : bool :=
  match windows s !! window_index target with Some tw => Z.of_nat (S (count tw)) <=? u16_max | None => true end.

(** Emptying the active window selects the last window without forgetting it, so
    it is active and last at once; selecting another target repairs that.  Nothing
    prevents such a join: it is the one way to a last window that is active. *)
Definition join_keeps_last (source target : SessionPaneTarget) (o : PaneJoinOptions) (s : Session) : bool :=
  bool_decide (count <$> windows s !! window_index source = Some 1%nat) && (active_window s =? window_index source) &&
  match last_window s with None => false | Some l => join_detached o || (l =? window_index target) end.

(** The session without the source window, before the target is selected. *)
Lemma forget_source_ok i j tw s :
  session_ok s -> has_window i s -> has_window j s -> i <> j -> window_ok tw ->
  exists s', forget_source i (set_window j tw (drop_window j (drop_window i s))) = Some s' /\
    windows s' = <[j := tw]> (delete i (windows s)) /\ has_window (active_window s') s' /\
    (forall k, is_Some (winlink_alert_flags s' !! k) <-> has_window k s') /\
    (forall l, last_window s' = Some l -> has_window l s') /\
    ((stale = false -> forall l, last_window s = Some l -> active_window s <> i) -> session_ok s') /\
    (forall l, stale = false -> active_window s = i -> last_window s = Some l -> active_window s' = l /\ last_window s' = Some l).
Proof.
  intros Hok Hi Hj Hij Htw. pose proof Hok as [H1 H2 H3 H4 H5]. unfold forget_source. cbv zeta.
  set (s1 := with_flags _ _).
  assert (windows s1 = <[j := tw]> (delete i (windows s))) as W1.
  { cbn. apply map_eq. intros k. destruct (decide (k = j)) as [->|]; [by rewrite !lookup_insert_eq|]. rewrite !lookup_insert_ne by done. by rewrite lookup_delete_ne. }
  assert (forall k, has_window k s1 <-> k <> i /\ has_window k s) as Hh.
  { intros k. unfold has_window. rewrite W1, lookup_insert_is_Some', lookup_delete_is_Some. destruct (decide (k = j)) as [->|]; [by naive_solver|]. naive_solver. }
  assert (forall k, is_Some (winlink_alert_flags s1 !! k) <-> has_window k s1) as F1.
  { intros k. rewrite Hh. cbn. rewrite lookup_delete_is_Some, H3. naive_solver. }
  assert (forall a l, has_window a s1 -> (forall k, l = Some k -> has_window k s1 /\ (stale = false -> k <> a)) -> forall s', same_windows s1 s' -> active_window s' = a -> last_window s' = l -> session_ok s') as Hfin.
  { intros a l Ha Hl s' [W F] Ea' El'. split; unfold has_window; rewrite ?W, ?Ea', ?El'.
    - intros k v. rewrite W1. intros [[<- <-]|[_ [_ Hv]%lookup_delete_Some]]%lookup_insert_Some; [done|by eapply H1].
    - intros k [_ Hk]%Hh. by apply H2.
    - intros k. by rewrite F, F1.
    - done.
    - intros k Hk. by apply Hl. }
  assert (forall l, last_window s = Some l -> l <> i -> has_window l s1) as Hl by (intros l Hl Hli; apply Hh; by destruct (H5 l Hl)).
  change (active_window s1) with (active_window s). destruct (Z.eqb_spec (active_window s) i) as [Ea|Ea].
  - destruct (next_active_after_removal_ok i s1 j) as (a & Na & Ha & Hai); [apply Hh; by split|done|]. rewrite Na. cbn [mbind option_bind].
    eexists. split; [done|]. change (last_window (with_group_initial None (with_active_window a s1))) with (last_window s).
    case_bool_decide as El; cbn [windows with_group_initial with_active_window with_last_window active_window last_window winlink_alert_flags];
      (split_and!; [exact W1|exact Ha|exact F1| | |]).
    + done.
    + intros _. by apply (Hfin a None).
    + intros l Hst _ El'. destruct (H5 i El) as [_ Hn]. specialize (Hn Hst). congruence.
    + intros l El'. change (last_window s = Some l) in El'. apply (Hl l El'). congruence.
    + intros Hno. apply (Hfin a (last_window s)); try done. intros k Hk. split; [apply (Hl k Hk); congruence|]. intros Hst. by destruct (Hno Hst k Hk).
    + intros l Hst _ El'. split; [|done]. unfold next_active_window_after_removal in Na.
      change (last_window s1) with (last_window s) in Na. rewrite El' in Na. cbn [mbind option_bind] in Na. rewrite (proj2 (Z.eqb_neq l i)) in Na by congruence.
      rewrite bool_decide_true in Na by (apply (Hl l El'); congruence). by injection Na.
  - cbn [mbind option_bind]. eexists. split; [done|]. change (last_window s1) with (last_window s).
    assert (has_window (active_window s) s1) as Ha by (apply Hh; by split).
    case_bool_decide as El.
    + split_and!; try done. intros _. by apply (Hfin (active_window s) None).
    + split_and!; try done; [intros l El'; change (last_window s = Some l) in El'; apply (Hl l El'); congruence|].
      intros _. apply (Hfin (active_window s) (last_window s)); try done. intros k Hk. destruct (H5 k Hk). split; [apply (Hl k Hk); congruence|done].
Qed.

Definition flags_match (s : Session) : Prop := forall k, is_Some (winlink_alert_flags s !! k) <-> has_window k s.

(** A join between windows of one session: one pane changes windows, and a
    window that has none left is gone. *)
Definition joined (source target : SessionPaneTarget) (o : PaneJoinOptions) (s s' : Session) : Prop :=
  exists sw tw tw' id,
    windows s !! window_index source = Some sw /\ windows s !! window_index target = Some tw /\
    ids sw !! Z.to_nat (target_pane source) = Some id /\
    windows s' !! window_index target = Some tw' /\ ids tw' = joined_ids (Z.to_nat (target_pane target)) id o (ids tw) /\
    (if (count sw =? 1)%nat then windows s' !! window_index source = None
     else exists sw', windows s' !! window_index source = Some sw' /\ ids sw' = delete (Z.to_nat (target_pane source)) (ids sw)) /\
    (join_detached o = false -> active_window s' = window_index target) /\
    forall k, k <> window_index source -> k <> window_index target -> windows s' !! k = windows s !! k.

(** The last two steps of a join: the windows are in place, the target is
    selected unless the join is detached. *)
Lemma select_joined_ok (detached : bool) i s :
  session_ok s -> has_window i s ->
  exists s', (if detached then (Ok tt, s) else select_window i s) = (Ok tt, s') /\ session_ok s' /\ windows s' = windows s /\
    (detached = false -> active_window s' = i).
Proof.
  intros Hok Hi. destruct detached; [by exists s|]. destruct (select_window_ok i s Hok Hi) as (s' & -> & H1 & H2 & H3 & _). by exists s'.
Qed.

(** The emptied window was active and there is a last window: only selecting a
    third one leaves the session consistent. *)
Lemma select_joined_repairs i j l tw s s' :
  session_ok s -> has_window j s -> window_ok tw -> windows s' = <[j := tw]> (delete i (windows s)) -> flags_match s' ->
  has_window (active_window s') s' -> active_window s' = l -> l <> j ->
  exists s2, select_window j s' = (Ok tt, s2) /\ session_ok s2 /\ windows s2 = windows s' /\ active_window s2 = j.
Proof.
  intros Hok Hj Htw W' F' Ha' A' Hlt. destruct (select_window_spec j s') as (s2 & -> & [W2 F2] & A2 & L2).
  { unfold has_window. rewrite W', lookup_insert_eq. by eexists. }
  exists s2. split; [done|]. split; [|by split]. rewrite A', (proj2 (Z.eqb_neq _ _)) in L2 by done. split; unfold has_window; rewrite ?W2, ?A2, ?L2.
  - intros k v. rewrite W'. intros [[<- <-]|[_ [_ Hv]%lookup_delete_Some]]%lookup_insert_Some; [done|by eapply (ses_windows _ Hok)].
  - intros k. rewrite W', lookup_insert_is_Some', lookup_delete_is_Some. intros [<-|[_ Hk]]; by apply (ses_indexes _ Hok).
  - intros k. rewrite F2. apply F'.
  - rewrite W', lookup_insert_eq. by eexists.
  - intros k [= <-]. split; [|done]. rewrite <- A'. apply Ha'.
Qed.

Lemma join_pane_spec source target o now s :
  session_ok s -> join_room target s = true -> (stale = false -> join_keeps_last source target o s = false) ->
  window_index source <> window_index target ->
  exists r s', join_pane source target o now s = Some (r, s') /\ session_ok s' /\
    match r with Err _ => s' = s | Ok _ => joined source target o s s' end.
Proof.
  intros Hok Hroom Hal E. unfold join_pane. rewrite (proj2 (Z.eqb_neq _ _) E).
  destruct (join_checks_spec source target o s s Hok Hok) as (r & -> & Hr). cbn [mbind option_bind].
  destruct r as [[[sw tw] p]|e]; [|by eexists _, s]. destruct (Hr _ _ _ eq_refl) as (Ws & Wt & Hin & Hpos & Epos & Htr & Hact & id & Hid & Hfr).
  unfold join_room in Hroom. rewrite Wt in Hroom. apply Z.leb_le in Hroom. unfold join_keeps_last in Hal. rewrite Ws in Hal.
  pose proof (ses_windows _ Hok _ _ Ws) as Os. pose proof (ses_windows _ Hok _ _ Wt) as Ot.
  destruct p as [pos req tr a l]. cbn in Htr, Hpos, Hact, Epos. subst tr pos.
  destruct (join_windows_ok (target_pane source) _ req o now sw tw a l id Os Ot Hin Hpos Hid Hfr Hroom Hact) as (i & sw' & tw' & -> & Hleft & Htw' & Hids & _).
  cbn [mbind option_bind]. rewrite (proj2 (Nat.eqb_neq (size _) 0)), andb_false_r.
  2: { intros Hz. apply map_size_empty_inv in Hz. apply (f_equal (lookup (window_index target))) in Hz. cbn in Hz. by rewrite lookup_insert_eq, lookup_empty in Hz. }
  unfold source_left in Hleft. destruct (Nat.eqb_spec (count sw) 1) as [Ec|Ec].
  - rewrite Hleft. change (0 =? 0)%nat with true. cbn iota.
    destruct (forget_source_ok (window_index source) (window_index target) tw' s Hok) as (s' & -> & W' & Ha' & F' & L' & Hsafe & Hlast);
      [by exists sw|by exists tw|done|done|]. cbn [mbind option_bind].
    rewrite bool_decide_true in Hal by (cbn; by rewrite Ec). cbn [andb] in Hal.
    assert (has_window (window_index target) s') as Ht' by (unfold has_window; rewrite W', lookup_insert_eq; by eexists).
    assert (exists s2, (if join_detached o then (Ok tt, s') else select_window (window_index target) s') = (Ok tt, s2) /\ session_ok s2 /\ windows s2 = windows s' /\
      (join_detached o = false -> active_window s2 = window_index target)) as (s2 & -> & Hs2 & W2 & A2).
    { destruct (decide (stale = false /\ active_window s = window_index source /\ is_Some (last_window s))) as [(Hst & Ea & [lw El])|Hno].
      - specialize (Hal Hst). rewrite Ea, Z.eqb_refl, El in Hal. cbn [andb] in Hal. apply orb_false_iff in Hal as [-> Hlt%Z.eqb_neq].
        destruct (Hlast lw Hst Ea El) as [A' _].
        destruct (select_joined_repairs (window_index source) (window_index target) lw tw' s s') as (s2 & ? & ? & ? & ?); try done; [by exists tw|by exists s2].
      - apply select_joined_ok; [|done]. apply Hsafe. intros Hst l' El Ea. apply Hno. split_and!; [done|done|by exists l']. }
    eexists _, s2. split_and!; [done|done|]. exists sw, tw, tw', id. rewrite W2, W', Ec, lookup_insert_eq. cbn. split_and!; try done.
    + by rewrite lookup_insert_ne, lookup_delete_eq by done.
    + intros k K1 K2. by rewrite lookup_insert_ne, lookup_delete_ne by done.
  - destruct Hleft as [Hsw' Hids']. assert (count sw' <> 0%nat) as Hne by (pose proof (proj1 (ok_count sw' (win_order _ Hsw'))); lia).
    rewrite (proj2 (Nat.eqb_neq _ 0)) by done. cbn [mbind option_bind].
    set (s' := set_window (window_index source) sw' (set_window (window_index target) tw' (drop_window (window_index target) (drop_window (window_index source) s)))).
    assert (windows s' = <[window_index source := sw']> (<[window_index target := tw']> (windows s))) as W'.
    { unfold s'. change (windows (set_window (window_index source) sw' (set_window (window_index target) tw' (drop_window (window_index target) (drop_window (window_index source) s)))) =
        windows (set_window (window_index source) sw' (set_window (window_index target) tw' s))).
      rewrite <- (set_dropped (window_index target) (window_index source) tw' sw' s) by done. cbn. by rewrite (delete_delete _ (window_index source)). }
    assert (session_ok s') as Hs'.
    { apply (same_windows_ok (set_window (window_index source) sw' (set_window (window_index target) tw' s))); [|done|done|].
      - split; [exact W'|done].
      - apply update_window_ok; [apply update_window_ok; [done|by exists tw|done]| |done]. unfold has_window. cbn. rewrite lookup_insert_ne by done. by exists sw. }
    destruct (select_joined_ok (join_detached o) (window_index target) s' Hs') as (s2 & -> & Hs2 & W2 & A2).
    { unfold has_window. rewrite W', lookup_insert_ne, lookup_insert_eq by done. by eexists. }
    eexists _, s2. split_and!; [done|done|]. exists sw, tw, tw', id. rewrite W2, W', (proj2 (Nat.eqb_neq _ 1)) by done. split_and!; try done.
    + by rewrite lookup_insert_ne, lookup_insert_eq by done.
    + exists sw'. by rewrite lookup_insert_eq.
    + intros k K1 K2. by rewrite !lookup_insert_ne by done.
Qed.

Lemma join_pane_safe source target o now s : session_ok s -> join_room target s = true ->
  (stale = false -> join_keeps_last source target o s = false) -> safe (join_pane source target o now s).
Proof.
  intros Hok Hroom Hal. destruct (decide (window_index source = window_index target)) as [E|E].
  - unfold join_pane. rewrite (proj2 (Z.eqb_eq _ _) E). apply flatten_safe, on_window_safe; [done|]. intros w _ Hw.
    destruct (join_within_ok (ses_name s) (window_index source) (target_pane source) (target_pane target) o now w Hw) as (r & w' & -> & H & _). by eauto.
  - destruct (join_pane_spec source target o now s Hok Hroom Hal E) as (r & s' & -> & H & _). by apply safe_here.
Qed.

(** ** Making room for a window *)

Lemma u32_sat_add_small a b : a + b <= u32_max -> u32_sat_add a b = a + b.
Proof. unfold u32_sat_add, sat_add. lia. Qed.

Lemma shift_one_spec i s :
  has_window i s -> i <> u32_max -> flags_match s ->
  exists s', shift_one i s = Some (Ok tt, s') /\ flags_match s' /\ active_window s' = active_window s /\ last_window s' = last_window s /\
    ses_name s' = ses_name s /\
    forall k, windows s' !! k = if decide (k = i + 1) then windows s !! i else if decide (k = i) then None else windows s !! k.
Proof.
  intros [w Hw] Hi Hf. unfold shift_one. rewrite (proj2 (Z.eqb_neq _ _)) by done. rewrite Hw. cbn [mbind option_bind].
  eexists. split; [done|]. set (s' := with_flags _ _).
  assert (forall k, windows s' !! k = if decide (k = i + 1) then windows s !! i else if decide (k = i) then None else windows s !! k) as W.
  { intros k. cbn. case_decide as E1; [subst; by rewrite lookup_insert_eq, Hw|]. rewrite lookup_insert_ne by done.
    case_decide as E2; [subst; by rewrite lookup_delete_eq|]. by rewrite lookup_delete_ne. }
  split_and!; [|done|done|done|by rewrite <- Hw]. intros k. unfold has_window. rewrite W. cbn. rewrite lookup_insert_is_Some', lookup_delete_is_Some, (Hf k).
  case_decide as E1; [subst; rewrite Hw; split; [by eauto|by left]|].
  case_decide as E2; [subst; split; [intros [?|[? _]]; [lia|done]|by intros []]|]. unfold has_window. naive_solver.
Qed.

Lemma shift_loop_spec l s :
  StronglySorted Z.gt l -> Forall (fun i => has_window i s /\ i <> u32_max) l -> flags_match s ->
  exists s', shift_loop l s = Some (Ok tt, s') /\ flags_match s' /\ active_window s' = active_window s /\ last_window s' = last_window s /\
    ses_name s' = ses_name s /\
    forall k, windows s' !! k = if decide (k - 1 ∈ l) then windows s !! (k - 1) else if decide (k ∈ l) then None else windows s !! k.
Proof.
  revert s. induction l as [|i l IH]; intros s Hs Hl Hf.
  { exists s. by split_and!. }
  apply StronglySorted_inv in Hs as [Hs Hi]. apply Forall_cons in Hl as [[Hw Hm] Hl]. rewrite Forall_forall in Hi. cbn [shift_loop].
  destruct (shift_one_spec i s Hw Hm Hf) as (s1 & -> & Hf1 & Ha1 & Hl1 & Hn1 & W1). cbn [mbind option_bind].
  destruct (IH s1 Hs) as (s2 & -> & Hf2 & Ha2 & Hl2 & Hn2 & W2); [|done|].
  { rewrite Forall_forall in Hl |- *. intros j Hj. destruct (Hl j Hj) as [Hj1 Hj2]. split; [|done]. specialize (Hi j Hj).
    unfold has_window in *. rewrite W1. rewrite !decide_False by lia. done. }
  exists s2. split_and!; try done; try congruence. intros k. rewrite W2. destruct (decide (k - 1 ∈ l)) as [K1|K1].
  - specialize (Hi _ K1). rewrite (decide_True _ _ (list_elem_of_further _ _ _ K1)), W1, !decide_False by lia. done.
  - destruct (decide (k ∈ l)) as [K2|K2].
    + specialize (Hi _ K2). rewrite decide_False by (rewrite elem_of_cons; intros [?|?]; [lia|done]). rewrite decide_True by (apply elem_of_cons; by right). done.
    + rewrite W1. destruct (decide (k = i + 1)) as [->|K3].
      * rewrite decide_True by (apply elem_of_cons; left; lia). f_equal. lia.
      * destruct (decide (k = i)) as [->|K4].
        -- rewrite decide_False by (rewrite elem_of_cons; intros [?|?]; [lia|done]). rewrite decide_True by apply list_elem_of_here. done.
        -- rewrite !decide_False by (rewrite elem_of_cons; intros [?|?]; [lia|done]). done.
Qed.

Lemma reverse_sorted l : StronglySorted Z.lt l -> StronglySorted Z.gt (reverse l).
Proof.
  induction 1 as [|x l Hs IH Hx]; [constructor|]. rewrite reverse_cons. rewrite Forall_forall in Hx.
  assert (forall y, y ∈ reverse l -> y > x) as Hgt by (intros y Hy; rewrite elem_of_reverse in Hy; specialize (Hx y Hy); lia).
  clear Hx Hs. induction IH as [|z m Hm IHm Hz]; cbn; [repeat constructor|]. constructor.
  - apply IHm. intros y Hy. apply Hgt. by apply list_elem_of_further.
  - apply Forall_app. split; [done|]. apply Forall_cons. split; [|done]. apply Hgt, list_elem_of_here.
Qed.

Lemma filter_sorted (P : Z -> Prop) `{!forall k, Decision (P k)} l : StronglySorted Z.lt l -> StronglySorted Z.lt (filter P l).
Proof.
  induction 1 as [|x l Hs IH Hx]; [constructor|]. rewrite filter_cons. case_decide; [|done]. constructor; [done|].
  rewrite Forall_forall in Hx |- *. intros y [_ Hy]%list_elem_of_filter. by apply Hx.
Qed.

Lemma last_is_max l m : StronglySorted Z.lt l -> last l <> Some m -> Forall (fun k => k <= m) l -> Forall (fun k => k < m) l.
Proof.
  intros Hs Hl Hm. rewrite Forall_forall in Hm |- *. intros k Hk. pose proof (Hm k Hk) as Hkm. assert (k <> m); [|lia]. intros ->. clear Hkm.
  apply Hl. clear Hl. induction Hs as [|x l Hs IH Hx]; [by apply not_elem_of_nil in Hk|]. apply elem_of_cons in Hk as [->|Hk].
  - destruct l as [|y l]; [done|]. apply Forall_cons in Hx as [Hx _]. assert (y <= x) by (apply Hm; set_solver). lia.
  - rewrite last_cons. rewrite IH; [done|by intros y Hy; apply Hm, list_elem_of_further|done].
Qed.

(** Every window from [start] on moves up by one; selection follows. *)
Lemma shift_windows_spec start s :
  session_ok s ->
  exists r s', shift_windows_up_from start s = Some (r, s') /\ session_ok s' /\
    match r with
    | Err _ => s' = s
    | Ok _ => ses_name s' = ses_name s /\
        (forall k, windows s' !! k = if k <? start then windows s !! k else if k =? start then None else windows s !! (k - 1)) /\
        active_window s' = (if start <=? active_window s then active_window s + 1 else active_window s) /\
        last_window s' = (l ← last_window s; Some (if start <=? l then l + 1 else l))
    end.
Proof.
  intros Hok. pose proof Hok as [H1 H2 H3 H4 H5]. unfold shift_windows_up_from. cbv zeta. set (keys := sorted_keys (windows s)).
  case_bool_decide as Hmax; [by eexists _, s|].
  pose proof (sorted_keys_strict (windows s)) as Hsorted. fold keys in Hsorted.
  assert (forall k, has_window k s -> 0 <= k < u32_max) as Hrange.
  { intros k Hk. split; [by apply (H2 k Hk)|]. pose proof (last_is_max keys u32_max Hsorted Hmax) as Hlt. rewrite !Forall_forall in Hlt.
    apply Hlt; [intros j Hj%elem_of_sorted_keys; by apply (H2 j Hj)|by apply elem_of_sorted_keys]. }
  set (l := reverse (filter (fun k => start <= k) keys)).
  assert (forall k, k ∈ l <-> start <= k /\ has_window k s) as Hl.
  { intros k. unfold l. rewrite elem_of_reverse, list_elem_of_filter. unfold keys. by rewrite elem_of_sorted_keys. }
  destruct (shift_loop_spec l s) as (s1 & -> & F1 & A1 & L1 & N1 & W1); [by apply reverse_sorted, filter_sorted| |done|].
  { apply Forall_forall. intros k [_ Hk]%Hl. split; [done|]. specialize (Hrange k Hk). lia. }
  cbn [mbind option_bind]. rewrite A1.
  assert (forall k, windows s1 !! k = if k <? start then windows s !! k else if k =? start then None else windows s !! (k - 1)) as W.
  { intros k. rewrite W1. destruct (Z.ltb_spec k start) as [K|K].
    - rewrite !decide_False; [done|rewrite Hl; lia|rewrite Hl; lia].
    - destruct (Z.eqb_spec k start) as [->|K2].
      + rewrite decide_False by (rewrite Hl; lia). destruct (decide (start ∈ l)) as [|Hn]; [done|].
        apply eq_None_not_Some. intros Hk. apply Hn, Hl. done.
      + destruct (decide (k - 1 ∈ l)) as [|Hn]; [done|]. assert (windows s !! (k - 1) = None) as -> by (apply eq_None_not_Some; intros Hk; apply Hn, Hl; split; [lia|done]).
        destruct (decide (k ∈ l)) as [|Hn2]; [done|]. apply eq_None_not_Some. intros Hk. apply Hn2, Hl. split; [lia|done]. }
  assert (forall k, has_window k s -> has_window (if start <=? k then k + 1 else k) s1) as Hmove.
  { intros k Hk. unfold has_window. rewrite W. destruct (Z.leb_spec start k).
    - rewrite (proj2 (Z.ltb_ge _ _)), (proj2 (Z.eqb_neq _ _)) by lia. by replace (k + 1 - 1) with k by lia.
    - by rewrite (proj2 (Z.ltb_lt _ _)) by lia. }
  set (a' := if start <=? active_window s then active_window s + 1 else active_window s).
  set (l' := l ← last_window s; Some (if start <=? l then l + 1 else l)).
  match goal with |- context [Some (Ok tt, ?x)] => assert (exists s2, x = s2 /\ same_windows s1 s2 /\ active_window s2 = a' /\ last_window s2 = l' /\ ses_name s2 = ses_name s) as (s2 & -> & [Hw2 Hf2] & Ha2 & Hl2 & Hn2) end.
  { specialize (Hrange _ H4) as Hra. rewrite u32_sat_add_small by lia. unfold a', l'.
    destruct (start <=? active_window s); cbn [last_window with_active_window]; rewrite L1; destruct (last_window s) as [x|] eqn:El; cbn [mbind option_bind];
      try (by eexists; split_and!; [done|done|done|done|]).
    all: destruct (H5 x eq_refl) as [Hx _]; specialize (Hrange _ Hx); rewrite u32_sat_add_small by lia; destruct (start <=? x);
      by eexists; split_and!; [done|done|done|done|]. }
  exists (Ok tt), s2. split; [done|]. split; [|split_and!; [done| |done|done]; intros k; by rewrite Hw2].
  split; unfold has_window; rewrite ?Hw2, ?Ha2, ?Hl2.
  - intros k v. rewrite W. destruct (_ <? _); [apply H1|]. destruct (_ =? _); [done|apply H1].
  - intros k. rewrite W. destruct (_ <? _); [apply H2|]. destruct (_ =? _); [by intros []|]. intros Hk. specialize (Hrange _ Hk). unfold in_u32. lia.
  - intros k. rewrite Hf2. apply F1.
  - by apply Hmove.
  - intros k Hk. unfold l' in Hk. destruct (last_window s) as [x|]; [|done]. injection Hk as <-. destruct (H5 x eq_refl) as [Hx Hxa]. split; [by apply Hmove|].
    intros Hst. specialize (Hxa Hst). unfold a'. destruct (Z.leb_spec start x), (Z.leb_spec start (active_window s)); lia.
Qed.

(** ** Breaking panes out keeps the session *)

Lemma bump_same w next s : exists n, (bump_allocators_for_window w next s).2 = with_next_pane_id n s.
Proof. by eexists. Qed.

Lemma insert_existing_ok i w next s :
  session_ok s -> in_u32 i -> window_ok w ->
  exists r next' s', insert_existing_window i w next s = (r, next', s') /\ session_ok s' /\
    match r with Err _ => s' = s | Ok _ => ~ has_window i s /\ windows s' = <[i := w]> (windows s) end.
Proof.
  intros Hok Hi Hw. unfold insert_existing_window. destruct (windows s !! i) as [x|] eqn:E; [by eexists _, _, s|].
  destruct (bump_allocators_for_window w next s) as [n s1] eqn:Eb. destruct (bump_same w next s) as [m Hm]. rewrite Eb in Hm. cbn in Hm. subst s1.
  eexists _, _, _. split; [done|]. split; [by apply insert_slot_ok, Hw; [apply with_next_pane_id_ok|]|]. split; [|done]. unfold has_window. rewrite E. by intros [].
Qed.

Lemma rename_safe i name s : session_ok s -> safe (rename_window i name s).
Proof. intros Hok. apply on_window_safe; [done|]. intros w _ Hw. eexists _, _. split; [done|]. destruct Hw as [Ho Hl Hp]. split; [apply (same_order_ok w); [by split|done]|by apply (layout_ok_same w)|done]. Qed.

Lemma with_break_name_ok name w : window_ok w -> window_ok (with_break_name name w).
Proof. intros [Ho Hl Hp]. destruct name; [|done]. split; [apply (same_order_ok w); [by split|done]|by apply (layout_ok_same w)|done]. Qed.

Lemma prepare_break_spec target allowed (after before : bool) s :
  session_ok s -> (forall t, target = Some t -> in_u32 t) ->
  exists r s', prepare_break_destination target allowed after before s = Some (r, s') /\ session_ok s' /\ ses_name s' = ses_name s /\
    match r with
    | Err _ => s' = s
    | Ok i => in_u32 i /\
        if after || before then
          forall k, windows s' !! k = if k <? i then windows s !! k else if k =? i then None else windows s !! (k - 1)
        else s' = s /\ (has_window i s -> allowed = Some i)
    end.
Proof.
  intros Hok Ht. unfold prepare_break_destination. destruct (after || before) eqn:Eab; cbn [negb].
  - cbv zeta. destruct (bool_decide (is_Some target) && _) eqn:Emiss; [by eexists _, s|].
    assert (in_u32 (default (active_window s) target)) as Hanchor.
    { destruct target as [t|]; [by apply Ht|]. cbn. apply (ses_indexes s Hok), (ses_active s Hok). }
    destruct (negb before && _) eqn:Emax; [by eexists _, s|]. set (i := if before then _ else _).
    destruct (shift_windows_spec i s Hok) as (r & s' & -> & Hs' & Hr). cbn [mbind option_bind]. eexists _, s'. split; [done|]. split; [done|].
    destruct r as [[]|e]; [|by subst]. destruct Hr as (Hn & Hw & _). split; [done|]. split; [|done]. unfold i. destruct before; [done|].
    cbn in Emax. apply Z.eqb_neq in Emax. unfold in_u32 in *. lia.
  - eexists _, s. split; [done|]. split; [done|]. split; [done|]. unfold resolve_break_destination_index. destruct target as [t|].
    + destruct (bool_decide _ && _) eqn:E; [done|]. split; [by apply Ht|]. split; [done|]. intros Hw. rewrite bool_decide_true in E by done.
      cbn in E. apply negb_false_iff, bool_decide_eq_true in E. done.
    + pose proof (lowest_available_spec 0 s ltac:(done)) as Hl. destruct (lowest_available_window_index_at_or_above 0 s) as [i|e]; [|done].
      destruct Hl as (Hi & Hn & _). split; [done|]. split; [done|]. intros Hw. destruct Hn. by apply elem_of_sorted_keys.
Qed.

(** The window a break takes the pane from is where the shift put it. *)
Lemma shifted_source_spec i d (after before : bool) s s' w :
  windows s !! i = Some w -> in_u32 i -> session_ok s' ->
  (if after || before then forall k, windows s' !! k = if k <? d then windows s !! k else if k =? d then None else windows s !! (k - 1) else s' = s) ->
  exists j, shifted_source i d after before = Ok j /\ windows s' !! j = Some w.
Proof.
  intros Hw Hi Hs' Hs. unfold shifted_source. destruct (after || before); cbn [negb]; [|subst; by exists i].
  destruct (Z.leb_spec d i) as [E|E].
  - assert (windows s' !! (i + 1) = Some w) as Hw'.
    { rewrite Hs, (proj2 (Z.ltb_ge _ _)), (proj2 (Z.eqb_neq _ _)) by lia. by replace (i + 1 - 1) with i by lia. }
    pose proof (ses_indexes s' Hs' (i + 1) (mk_is_Some _ _ Hw')) as Hr. unfold in_u32 in Hr. rewrite (proj2 (Z.eqb_neq i u32_max)) by lia. by exists (i + 1).
  - exists i. split; [done|]. by rewrite Hs, (proj2 (Z.ltb_lt _ _)).
Qed.

(** The caller's side of a break: the destination is a [u32] and a window id is
    left. *)
Definition break_allowed (o : BreakPaneOptions) (next : Z) : bool :=
  match target_window_index o with Some t => (0 <=? t) && (t <=? u32_max) | None => true end && (0 <=? next) && (next <? u32_max).

Lemma break_allowed_true o next :
  break_allowed o next = true -> (forall t, target_window_index o = Some t -> in_u32 t) /\ next <> u32_max.
Proof.
  unfold break_allowed. intros [[H1 _]%andb_true_iff H3%Z.ltb_lt]%andb_true_iff. split; [|lia]. intros t Ht. rewrite Ht in H1.
  apply andb_true_iff in H1 as [?%Z.leb_le ?%Z.leb_le]. done.
Qed.

(** Splitting one pane off a window with several. *)
Lemma split_off_ok i w now next :
  window_ok w -> in_window i w = true -> (2 <= count w)%nat ->
  exists w1 p w2 new, unzoomed w = Some w1 /\ extract_pane i w1 = Some (Some p, w2) /\ window_ok w2 /\ ids w !! Z.to_nat i = Some (pane_id p) /\
    ids w2 = delete (Z.to_nat i) (ids w) /\ window_new_with_initial_pane (win_size w) (pane_id p) next now = Some new /\ window_ok new /\ ids new = [pane_id p].
Proof.
  intros Hok Hin H2. destruct (unzoomed_window_ok w Hok) as (w1 & E1 & Hw1 & Hz1 & Hs1).
  destruct (extract_pane_ok i w1 Hw1) as (p & w2 & E2 & Hw2 & Hp & Hd & _); [by rewrite (same_order_in_window _ _ _ Hs1)|by rewrite (same_order_count _ _ Hs1)|].
  destruct (window_new_ok (stale := stale) (win_size w) (pane_id p) next now) as (new & E3 & Hn & Hi & _).
  exists w1, p, w2, new. rewrite (same_ids _ _ Hs1) in Hp, Hd. by split_and!.
Qed.

Definition session_of {A B} (r : option (A * B * Session)) : option (A * Session) := '(a, _, s) ← r; Some (a, s).

Lemma break_pane_safe source o next now s :
  session_ok s -> break_allowed o next = true -> safe (session_of (break_pane source o next now s)).
Proof.
  intros Hok [Ht Hnext]%break_allowed_true. unfold break_pane. destruct (pane_at source s) as [[original q]|e] eqn:Ep; [|by apply safe_here].
  apply pane_at_Ok in Ep as [Hw Hq]. pose proof (ses_windows _ Hok _ _ Hw) as Hwin. pose proof (ses_indexes _ Hok _ (mk_is_Some _ _ Hw)) as Hi.
  destruct (prepare_break_spec (target_window_index o) (Some (window_index source)) (break_after o) (break_before o) s Hok Ht) as (r & s1 & -> & Hs1 & _ & Hr).
  cbn [mbind option_bind]. destruct r as [d|e]; [|by apply safe_here]. destruct Hr as [Hd Hr].
  destruct (shifted_source_spec (window_index source) d (break_after o) (break_before o) s s1 original Hw Hi Hs1) as (j & -> & Hj);
    [by destruct (break_after o || break_before o); [|destruct Hr as [-> _]]|].
  rewrite Hj. cbn [mbind option_bind]. destruct (Nat.eqb_spec (count original) 1) as [Ec|Ec].
  - destruct (renumber_single_ok (stale := stale) original Ec) as (w1 & -> & Hw1 & _). cbn [mbind option_bind].
    assert (session_ok (set_window j w1 s1)) as Hs2 by (apply update_window_ok; [done|by exists original|done]).
    destruct (move_window_ok j d false (negb (break_detached o)) _ Hs2 Hd) as (r2 & s2 & -> & Hs3 & _). cbn [mbind option_bind].
    destruct r2 as [x|e]; [|by apply safe_here]. destruct (break_name o) as [name|]; [|by apply safe_here].
    destruct (rename_safe d name s2 Hs3) as (r3 & s3 & -> & Hs4). cbn [mbind option_bind]. by apply safe_here.
  - pose proof (proj1 (ok_count original (win_order _ Hwin))).
    destruct (split_off_ok (target_pane source) original now next Hwin (pane_in_window _ _ _ (win_order _ Hwin) Hq)) as (w1 & p & w2 & new & -> & E2 & Hw2 & _ & _ & E3 & Hn & _); [lia|].
    cbn [mbind option_bind]. rewrite E2. cbn [mbind option_bind]. unfold allocate_window_id. rewrite (proj2 (Z.eqb_neq next _)) by done. cbn [mbind option_bind].
    rewrite E3. cbn [mbind option_bind].
    assert (session_ok (set_window j w2 s1)) as Hs2 by (apply update_window_ok; [done|by exists original|done]).
    destruct (insert_existing_ok d (with_break_name (break_name o) new) (next + 1) _ Hs2 Hd (with_break_name_ok _ _ Hn)) as (r3 & next' & s3 & -> & Hs3 & Hr3).
    destruct r3 as [[]|e]; [|by apply safe_here]. destruct (break_detached o); [by apply safe_here|]. destruct Hr3 as [_ W3].
    destruct (select_window_ok d s3 Hs3) as (s4 & -> & Hs4 & _); [unfold has_window; rewrite W3, lookup_insert_eq; by eexists|]. by apply safe_here.
Qed.

(** ** Between sessions *)

(** A session that gave its last window away has none; it is removed by the
    caller. *)
Definition ok_or_empty (s : Session) : Prop := session_ok s \/ windows s = ∅.

Lemma remove_leaves i s w :
  ok_but i s -> windows s !! i = Some w ->
  exists s', remove_window_allowing_empty i s = Some (Ok w, s') /\ ok_or_empty s'.
Proof.
  intros Hok Hw. destruct (decide (size (windows s) = 1%nat)) as [E|E].
  - destruct (remove_only_ok i s w Hw E) as (s' & H1 & H2). exists s'. split; [done|by right].
  - destruct (remove_but_ok i s w Hok Hw E) as (s' & H1 & H2 & _). exists s'. split; [done|by left].
Qed.

Lemma set_window_but i w s : session_ok s -> has_window i s -> ok_but i (set_window i w s).
Proof.
  intros [H1 H2 H3 H4 H5] Hi. split; unfold has_window; cbn.
  - intros k v Hk. rewrite lookup_insert_ne by done. apply H1.
  - intros k. rewrite is_Some_insert_present by done. apply H2.
  - intros k. by rewrite is_Some_insert_present by done.
  - by rewrite is_Some_insert_present by done.
  - intros l Hl. rewrite is_Some_insert_present by done. by apply H5.
Qed.

Definition target_has_room (t : SessionPaneTarget) (s : Session) : bool :=
  match windows s !! window_index t with Some tw => Z.of_nat (S (count tw)) <=? u16_max | None => true end.

Lemma join_from_session_safe target source o now s ss :
  session_ok s -> session_ok ss -> target_has_room target s = true ->
  exists r s' ss', join_pane_from_session target source o now s ss = Some (r, s', ss') /\ session_ok s' /\ ok_or_empty ss'.
Proof.
  intros Hok Hss Hroom. unfold join_pane_from_session. destruct (join_checks_spec source target o ss s Hss Hok) as (r & -> & Hr). cbn [mbind option_bind].
  destruct r as [[[sw tw] p]|e]; [|eexists _, s, ss; split_and!; [done|done|by left]].
  destruct (Hr _ _ _ eq_refl) as (Ws & Wt & Hin & Hpos & _ & Htr & Hact & id & Hid & Hfr). unfold target_has_room in Hroom. rewrite Wt in Hroom. apply Z.leb_le in Hroom.
  pose proof (ses_windows _ Hss _ _ Ws) as Os. pose proof (ses_windows _ Hok _ _ Wt) as Ot. destruct p as [pos req tr a l]. cbn in Htr, Hpos, Hact. subst tr.
  destruct (join_windows_ok (target_pane source) pos req o now sw tw a l id Os Ot Hin Hpos Hid Hfr Hroom Hact) as (i & sw' & tw' & -> & Hleft & Htw' & _).
  cbn [mbind option_bind].
  assert (exists s', (if join_detached o then Some (Ok tt, set_window (window_index target) tw' s) else
      '(_, tw2) ← select_pane i now tw'; Some (select_window (window_index target) (set_window (window_index target) tw2 s))) = Some (Ok tt, s') /\ session_ok s') as (s' & -> & Hs').
  { destruct (join_detached o); [eexists; split; [done|]; apply update_window_ok; [done|by exists tw|done]|].
    destruct (select_pane_ok i now tw' Htw') as (tw2 & -> & Htw2 & _). cbn [mbind option_bind].
    assert (session_ok (set_window (window_index target) tw2 s)) as H2 by (apply update_window_ok; [done|by exists tw|done]).
    destruct (select_window_ok (window_index target) _ H2) as (s' & -> & H3 & _); [unfold has_window; cbn; rewrite lookup_insert_eq; by eexists|]. by exists s'. }
  cbn [mbind option_bind]. unfold source_left in Hleft. destruct (Nat.eqb_spec (count sw) 1) as [Ec|Ec].
  - rewrite Hleft. change (0 =? 0)%nat with true. cbn iota.
    destruct (remove_leaves (window_index source) (set_window (window_index source) sw' ss) sw') as (ss' & -> & Hss');
      [apply set_window_but; [done|by exists sw]|cbn; by rewrite lookup_insert_eq|]. cbn [mbind option_bind]. by eexists _, s', ss'.
  - destruct Hleft as [Hsw' _]. rewrite (proj2 (Nat.eqb_neq _ 0)) by (pose proof (proj1 (ok_count sw' (win_order _ Hsw'))); lia).
    eexists _, s', _. split_and!; [done|done|]. left. apply update_window_ok; [done|by exists sw|done].
Qed.

Definition sessions_of {A B} (r : option (A * B * Session * Session)) : option (A * Session * Session) := '(a, _, s, t) ← r; Some (a, s, t).

Lemma finish_break_ok detached d next s ds :
  session_ok ds -> has_window d ds -> exists r ds', finish_break detached d next s ds = Some (r, next, s, ds') /\ session_ok ds'.
Proof.
  intros Hok Hd. unfold finish_break. destruct detached; [by eexists _, ds|]. destruct (select_window_ok d ds Hok Hd) as (ds' & -> & H & _). by eexists _, ds'.
Qed.

Lemma break_to_session_safe source o next now s ds :
  session_ok s -> session_ok ds -> break_allowed o next = true ->
  exists r s' ds', sessions_of (break_pane_to_session source o next now s ds) = Some (r, s', ds') /\ ok_or_empty s' /\ session_ok ds'.
Proof.
  intros Hok Hds [Ht Hnext]%break_allowed_true. unfold break_pane_to_session. destruct (pane_at source s) as [[w q]|e] eqn:Ep; [|eexists _, s, ds; split_and!; [done|by left|done]].
  apply pane_at_Ok in Ep as [Hw Hq]. pose proof (ses_windows _ Hok _ _ Hw) as Hwin.
  destruct (prepare_break_spec (target_window_index o) None (break_after o) (break_before o) ds Hds Ht) as (r & ds1 & -> & Hds1 & _ & Hr).
  cbn [mbind option_bind]. destruct r as [d|e]; [|eexists _, s, ds1; split_and!; [done|by left|done]]. destruct Hr as [Hd Hr].
  destruct (Nat.eqb_spec (count w) 1) as [Ec|Ec].
  - destruct (remove_leaves (window_index source) s w (session_ok_but _ _ Hok) Hw) as (s1 & -> & Hs1). cbn [mbind option_bind].
    destruct (renumber_single_ok (stale := stale) w Ec) as (w1 & -> & Hw1 & _). cbn [mbind option_bind].
    destruct (insert_existing_ok d w1 next ds1 Hds1 Hd Hw1) as (r2 & next2 & ds2 & -> & Hds2 & Hr2). destruct r2 as [[]|e]; [|by eexists _, s1, ds2].
    assert (has_window d ds2) as Hd2 by (destruct Hr2 as [_ W]; unfold has_window; rewrite W, lookup_insert_eq; by eexists).
    assert (exists r3 ds3, match break_name o with Some name => rename_window d name ds2 | None => Some (Ok tt, ds2) end = Some (r3, ds3) /\ session_ok ds3 /\ has_window d ds3) as (r3 & ds3 & -> & Hds3 & Hd3).
    { destruct (break_name o) as [name|]; [|by eexists _, ds2]. destruct (rename_safe d name ds2 Hds2) as (r3 & ds3 & E3 & H3). exists r3, ds3. split_and!; try done.
      revert E3. unfold rename_window, on_window. destruct Hd2 as [x Hx]. rewrite Hx. cbn. intros [= _ <-]. unfold has_window. cbn. rewrite lookup_insert_eq. by eexists. }
    cbn [mbind option_bind]. destruct r3 as [[]|e]; [|by eexists _, s1, ds3].
    match goal with |- context [finish_break _ _ _ _ ?x] => assert (session_ok x /\ has_window d x) as [Hx1 Hx2] end.
    { pose proof (clear_flags_keeps d WINLINK_ALERTFLAGS ds3 Hds3) as Hc. destruct (clear_flags_same d WINLINK_ALERTFLAGS ds3) as ([Wc _] & _).
      assert (has_window d (clear_winlink_alert_flags d WINLINK_ALERTFLAGS ds3).2) as Hdc by (unfold has_window; by rewrite Wc).
      destruct (_ =? 0); [done|]. split; [by apply add_flags_keeps|]. unfold add_winlink_alert_flags, clear_all_winlink_alert_flags. destruct Hdc as [x Hx]. rewrite Hx. by exists x. }
    destruct (finish_break_ok (break_detached o) d next2 s1 _ Hx1 Hx2) as (r4 & ds4 & -> & H4). by eexists _, s1, ds4.
  - pose proof (proj1 (ok_count w (win_order _ Hwin))).
    destruct (split_off_ok (target_pane source) w now next Hwin (pane_in_window _ _ _ (win_order _ Hwin) Hq)) as (w1 & p & w2 & new & -> & E2 & Hw2 & _ & _ & E3 & Hn & _); [lia|].
    cbn [mbind option_bind]. rewrite E2. cbn [mbind option_bind]. unfold allocate_window_id. rewrite (proj2 (Z.eqb_neq next _)) by done. cbn [mbind option_bind]. rewrite E3. cbn [mbind option_bind].
    assert (ok_or_empty (set_window (window_index source) w2 s)) as Hs1 by (left; apply update_window_ok; [done|by exists w|done]).
    destruct (insert_existing_ok d (with_break_name (break_name o) new) (next + 1) ds1 Hds1 Hd (with_break_name_ok _ _ Hn)) as (r3 & next' & ds3 & -> & Hds3 & Hr3).
    destruct r3 as [[]|e]; [|by eexists _, _, ds3].
    destruct (finish_break_ok (break_detached o) d next' (set_window (window_index source) w2 s) ds3 Hds3) as (r4 & ds4 & -> & H4);
      [destruct Hr3 as [_ W]; unfold has_window; rewrite W, lookup_insert_eq; by eexists|]. by eexists _, _, ds4.
Qed.

End Kept.
