(* ===== verification/SessionRun.v ===== *)
(** * Sessions, over whole runs

    The operations of a session as one step function, the sessions that
    sequences of them reach from a new one, and what holds of all of those.  Then
    the functional behaviour: which window an operation removes, moves or
    selects, which index and pane id is allocated; and two places where the code
    leaves the selection wrong. *)

From stdpp Require Import sorting.
From S2P Require Import Prelude Panes Text Errors LayoutCell LayoutTree LayoutNamed LayoutText.
From S2P Require Import LayoutShape Window WindowInv WindowOps WindowMove PaneTransfer WindowRun.
From S2P Require Import Session SessionInv SessionOps SessionTransfer.

(** ** Creating, linking and resizing keep the session *)

Definition at_fresh_id (next : Z) : bool := (0 <=? next) && (next <? u32_max).

Definition is_u32 (i : Z) : bool := (0 <=? i) && (i <=? u32_max).

Lemma is_u32_true i : is_u32 i = true -> in_u32 i.
Proof. unfold is_u32. intros [H1%Z.leb_le H2%Z.leb_le]%andb_true_iff. done. Qed.

Lemma pane_allocation_ok next : at_fresh_id next = true -> allocate_window_id next = Some (next, next + 1).
Proof. unfold at_fresh_id, allocate_window_id. intros [_ H%Z.ltb_lt]%andb_true_iff. by rewrite (proj2 (Z.eqb_neq _ _)) by lia. Qed.

Section Kept.
Context {stale : bool}.
Local Notation window_ok := (window_ok_at stale).
Local Notation session_ok := (session_ok_at stale).
Local Notation safe := (@safe stale _).

Lemma create_window_safe size minimum id next now s :
  session_ok s -> in_u32 minimum -> at_fresh_id next = true ->
  safe (session_of (create_window_at_or_above_with_pane_id size minimum id next now s)).
Proof.
  intros Hok Hm Hn. unfold create_window_at_or_above_with_pane_id. pose proof (lowest_available_spec minimum s (proj2 Hm)) as Hl.
  destruct (lowest_available_window_index_at_or_above minimum s) as [i|e]; [|by apply safe_here].
  rewrite pane_allocation_ok by done. cbn [mbind option_bind]. destruct (window_new_ok (stale := stale) size id next now) as (w & -> & Hw & _). cbn [mbind option_bind].
  apply safe_here, insert_slot_ok; [done| |done]. destruct Hl as ([? ?] & _). unfold in_u32 in *. lia.
Qed.

Lemma insert_window_safe i size id next now s :
  session_ok s -> in_u32 i -> at_fresh_id next = true -> safe (session_of (insert_window_with_initial_pane_with_id i size id next now s)).
Proof.
  intros Hok Hi Hn. unfold insert_window_with_initial_pane_with_id. destruct (windows s !! i); [by apply safe_here|].
  rewrite pane_allocation_ok by done. cbn [mbind option_bind]. destruct (window_new_ok (stale := stale) size id next now) as (w & -> & Hw & _). by apply safe_here, insert_slot_ok.
Qed.

Lemma replace_window_ok i w next s :
  session_ok s -> window_ok w -> exists r n s', replace_window i w next s = (r, n, s') /\ session_ok s' /\
    match r with Err _ => s' = s | Ok old => windows s !! i = Some old /\ windows s' = <[i := w]> (windows s) end.
Proof.
  intros Hok Hw. unfold replace_window. destruct (windows s !! i) as [old|] eqn:E; [|by eexists _, _, s].
  destruct (bump_allocators_for_window w next s) as [n s1] eqn:Eb. destruct (bump_same w next s) as [m Hm]. rewrite Eb in Hm. cbn in Hm. subst s1.
  eexists _, _, _. split; [done|]. split; [|done]. apply update_window_ok; [by apply with_next_pane_id_ok|by exists old|done].
Qed.

Lemma link_window_ok i w (kill sel : bool) next s :
  session_ok s -> in_u32 i -> window_ok w -> exists r n s', link_window i w kill sel next s = (r, n, s') /\ session_ok s'.
Proof.
  intros Hok Hi Hw. unfold link_window. cbv zeta. destruct (bool_decide _ && negb kill); [by eexists _, _, s|].
  assert (forall (removed : option Window) (n : Z) s1, session_ok s1 -> has_window i s1 -> exists (r : result (option Window) RmuxError) (n' : Z) s', (if sel then match select_window i s1 with (Err e, s) => (Err e, n, s)
    | (Ok _, s) => (Ok removed, n, s) end else (Ok removed, n, s1)) = (r, n', s') /\ session_ok s') as Hsel.
  { intros removed n s1 H1 Hi1. destruct sel; [|by eexists _, _, s1]. destruct (select_window_ok i s1 H1 Hi1) as (s2 & -> & H2 & _). by eexists _, _, s2. }
  destruct kill.
  - destruct (replace_window_ok i w next s Hok Hw) as (r & n & s1 & -> & Hs1 & Hr). destruct r as [old|e]; [|by eexists _, _, s1].
    apply Hsel; [by apply clear_flags_keeps|]. destruct (clear_flags_same i WINLINK_ALERTFLAGS s1) as ([Wc _] & _).
    unfold has_window, clear_all_winlink_alert_flags. rewrite Wc. destruct Hr as [_ ->]. rewrite lookup_insert_eq. by eexists.
  - destruct (insert_existing_ok i w next s Hok Hi Hw) as (r & n & s1 & -> & Hs1 & Hr). destruct r as [[]|e]; [|by eexists _, _, s1].
    apply Hsel; [done|]. unfold has_window. destruct Hr as [_ ->]. rewrite lookup_insert_eq. by eexists.
Qed.

Lemma resize_terminal_ok size s : session_ok s -> exists s', resize_terminal size s = Some s' /\ session_ok s'.
Proof.
  intros Hok. unfold resize_terminal. set (f := fun kw : Z * Window => w ← set_size size kw.2; Some (kw.1, w)).
  assert (forall l, Forall (fun kw => window_ok kw.2) l -> exists l', mapM f l = Some l' /\ map fst l' = map fst l /\ Forall (fun kw => window_ok kw.2) l') as Hmap.
  { induction l as [|[k w] l IH]; intros Hl; [by exists []|]. apply Forall_cons in Hl as [Hw Hl]. destruct (IH Hl) as (l' & E & Hk & Hf).
    destruct (set_size_ok size w Hw) as (w' & E' & Hw' & _). exists ((k, w') :: l').
    assert (f (k, w) = Some (k, w')) as Ef by (unfold f; cbn in *; by rewrite E'). cbn. rewrite Ef. cbn. rewrite E. cbn.
    split_and!; [done|by rewrite Hk|by constructor]. }
  destruct (Hmap (map_to_list (windows s))) as (l & -> & Hk & Hf).
  { apply Forall_forall. intros [k w] Hin%elem_of_map_to_list. by apply (ses_windows s Hok k). }
  cbn [mbind option_bind]. eexists. split; [done|].
  assert (NoDup l.*1) as Hn by (change (NoDup (map fst l)); rewrite Hk; apply NoDup_fst_map_to_list).
  set (s' := with_windows _ _).
  assert (forall k w, windows s' !! k = Some w <-> (k, w) ∈ l) as W by (intros k w; cbn; by rewrite elem_of_list_to_map).
  assert (forall k, has_window k s' <-> has_window k s) as Hh.
  { intros k. transitivity (k ∈ map fst l).
    - unfold has_window. rewrite list_elem_of_fmap. split; [intros [w Hw%W]; by exists (k, w)|]. intros ([k' w] & -> & Hw). exists w. by apply W.
    - rewrite Hk, list_elem_of_fmap. split; [intros ([k' w] & -> & Hw%elem_of_map_to_list); by exists w|]. intros [w Hw%elem_of_map_to_list]. by exists (k, w). }
  pose proof Hok as [H1 H2 H3 H4 H5]. rewrite Forall_forall in Hf. split.
  - intros k w Hw%W. by apply (Hf (k, w)).
  - intros k Hk'%Hh. by apply H2.
  - intros k. rewrite Hh. apply H3.
  - by apply Hh.
  - intros l' Hl'. destruct (H5 l' Hl'). by split; [apply Hh|].
Qed.

Lemma resize_active_ok terminal content s : session_ok s -> exists s', resize_active_window_geometry terminal content s = Some s' /\ session_ok s'.
Proof.
  intros Hok. unfold resize_active_window_geometry. pose proof (ses_active s Hok) as [w Hw]. rewrite Hw. cbn [mbind option_bind].
  destruct (set_size_ok content w (ses_windows s Hok _ _ Hw)) as (w' & -> & Hw' & _). cbn [mbind option_bind]. eexists. split; [done|].
  apply (update_window_ok (active_window s) w' (set_terminal_size terminal s)); [|by exists w|done]. by apply (same_windows_ok s).
Qed.

End Kept.

(** ** Operations *)

Inductive SessionOp :=
| CreateWindow (size : TerminalSize) (minimum id next : Z)
| InsertWindow (i : Z) (size : TerminalSize) (id next : Z)
| LinkWindow (i : Z) (w : Window) (kill sel : bool) (next : Z)
| RemoveWindow (i : Z)
| MoveWindow (source destination : Z) (kill sel : bool)
| MakeRoom (i : Z)
| SwapWindows (source destination : Z)
| Reindex (first : Z)
| SelectWindow (i : Z)
| StepWindow (forward alerts_only : bool)
| LastWindow
| RestoreLast
| AddFlags (i flags : Z)
| ClearFlags (i flags : Z)
| RenameWindow (i : Z) (name : string)
| AutomaticName (i : Z) (name : string)
| RotateWindow (i : Z) (d : RotateWindowDirection) (restore : bool)
| ResizeWindow (i : Z) (size : TerminalSize)
| RespawnWindow (i : Z)
| SelectLayout (i : Z) (name : LayoutName) (mw mh : option Z)
| CycleLayout (i : Z) (forward : bool) (mw mh : option Z)
| SelectCustomLayout (i : Z) (layout : text)
| ReapplyOldLayout (i : Z)
| SaveLayout (i : Z)
| Spread (i : Z)
| SplitPane (i p id : Z) (d : SplitDirection) (before detached full : bool)
| KillPane (i p : Z)
| KillOtherPanes (i p : Z)
| SelectPaneIn (i p : Z) (preserve : bool)
| SelectAdjacentIn (i p : Z) (d : SelectPaneDirection) (preserve : bool)
| LastPaneIn (i : Z) (preserve : bool)
| ResizePane (i p : Z) (adj : ResizePaneAdjustment)
| ZoomPane (i p : Z)
| ResizePaneTo (i p : Z) (d : SplitDirection) (n : Z)
| ResizeNewPane (i p : Z) (d : SplitDirection) (n : Z) (before : bool)
| SwapPanesOf (source target : SessionPaneTarget) (o : PaneSwapOptions)
| JoinPaneOf (source target : SessionPaneTarget) (o : PaneJoinOptions)
| BreakPaneOf (source : SessionPaneTarget) (o : BreakPaneOptions) (next : Z)
| ResizeTerminal (size : TerminalSize)
| ResizeActive (terminal content : TerminalSize).

Definition after {A} (r : option (A * Session)) : option Session := snd <$> r.

Definition run_session (now : Z) (op : SessionOp) (s : Session) : option Session :=
  match op with
  | CreateWindow size minimum id next => snd <$> create_window_at_or_above_with_pane_id size minimum id next now s
  | InsertWindow i size id next => snd <$> insert_window_with_initial_pane_with_id i size id next now s
  | LinkWindow i w kill sel next => Some (link_window i w kill sel next s).2
  | RemoveWindow i => after (remove_window i s)
  | MoveWindow source destination kill sel => after (move_window source destination kill sel s)
  | MakeRoom i => after (make_room_for_window i s)
  | SwapWindows source destination => Some (swap_windows source destination s).2
  | Reindex first => after (reindex_windows_from first s)
  | SelectWindow i => Some (select_window i s).2
  | StepWindow forward alerts_only => Some (step_window forward alerts_only s).2
  | LastWindow => Some (select_last_window s).2
  | RestoreLast => Some (restore_last_window_after_active_unlink s)
  | AddFlags i flags => Some (add_winlink_alert_flags i flags s).2
  | ClearFlags i flags => Some (clear_winlink_alert_flags i flags s).2
  | RenameWindow i name => after (rename_window i name s)
  | AutomaticName i name => after (set_automatic_window_name i name s)
  | RotateWindow i d restore => after (rotate_window_with_zoom i d restore now s)
  | ResizeWindow i size => after (resize_window i size s)
  | RespawnWindow i => after (respawn_window i now s)
  | SelectLayout i name mw mh => after (select_layout_in_window_with_main_pane_size i name mw mh s)
  | CycleLayout i forward mw mh =>
      after ((if forward then next_layout_in_window i mw mh else previous_layout_in_window i mw mh) s)
  | SelectCustomLayout i layout => after (select_custom_layout_in_window i layout s)
  | ReapplyOldLayout i => after (reapply_old_layout_in_window i s)
  | SaveLayout i => after (save_old_layout_in_window i s)
  | Spread i => after (spread_layout_in_window i s)
  | SplitPane i p id d before detached full =>
      after ((if full then split_pane_full_size else split_pane_in_window) i p id d before detached now s)
  | KillPane i p => after (kill_pane_in_window i p s)
  | KillOtherPanes i p => after (kill_other_panes_in_window i p now s)
  | SelectPaneIn i p preserve => after (select_pane_in_window_with_zoom i p preserve now s)
  | SelectAdjacentIn i p d preserve => after (select_adjacent_pane_in_window_with_zoom i p d preserve now s)
  | LastPaneIn i preserve => after (last_pane_in_window_with_zoom i preserve now s)
  | ResizePane i p adj => after (resize_pane_in_window i p adj now s)
  | ZoomPane i p => after (toggle_zoom_in_window i p now s)
  | ResizePaneTo i p d n => after (resize_pane_to_in_window i p d n s)
  | ResizeNewPane i p d n before => after (resize_new_split_pane_to_in_window i p d n before s)
  | SwapPanesOf source target o => after (session_swap_panes source target o now s)
  | JoinPaneOf source target o => after (join_pane source target o now s)
  | BreakPaneOf source o next => snd <$> break_pane source o next now s
  | ResizeTerminal size => resize_terminal size s
  | ResizeActive terminal content => resize_active_window_geometry terminal content s
  end.

(** What the callers guarantee: indexes are [u32] values, window ids are not
    used up, a linked window is one that window operations reach, a split or a
    join has room for the pane, and a split a fresh pane id. *)
Definition session_allowed (stale : bool) (op : SessionOp) (s : Session) : Prop :=
  match op with
  | CreateWindow _ minimum _ next => is_u32 minimum && at_fresh_id next = true
  | InsertWindow i _ _ next => is_u32 i && at_fresh_id next = true
  | LinkWindow i w _ _ _ => is_u32 i = true /\ window_reachable stale w
  | MoveWindow _ destination _ _ => is_u32 destination = true
  | MakeRoom i => is_u32 i = true
  | Reindex first => is_u32 first = true
  | SplitPane i _ id _ _ _ _ => match windows s !! i with Some w => room_for id w = true | None => True end
  | JoinPaneOf _ target _ => join_room target s = true
  | BreakPaneOf _ o next => break_allowed o next = true
  | _ => True
  end.

(** The operations that leave something behind, which nothing prevents: a custom,
    old or spread layout on a zoomed window leaves the zoom stale, and a join that
    empties the active window may leave the new active window as the last one. *)
Definition leaves_stale (op : SessionOp) (s : Session) : bool :=
  match op with
  | SelectCustomLayout i _ | ReapplyOldLayout i | Spread i => match windows s !! i with Some w => zoomed w | None => false end
  | JoinPaneOf source target o => join_keeps_last source target o s
  | _ => false
  end.

(** Steps between sessions, and the sessions runs reach: all of them when
    [stale], and otherwise those on whose way nothing was left behind. *)
Inductive session_step (stale : bool) : Session -> Session -> Prop :=
| session_step_op now op s s' :
    session_allowed stale op s -> (stale = false -> leaves_stale op s = false) -> run_session now op s = Some s' ->
    session_step stale s s'.

Inductive session_reachable (stale : bool) : Session -> Prop :=
| reach_session name size i id wid now token s :
    in_u32 i -> new_with_initial_window name size i id wid now token = Some s -> session_reachable stale s
| reach_session_step s s' : session_reachable stale s -> session_step stale s s' -> session_reachable stale s'.

Section Kept.
Context {stale : bool}.
Local Notation window_ok := (window_ok_at stale).
Local Notation session_ok := (session_ok_at stale).
Local Notation safe := (@safe stale _).

Lemma new_session_ok name size i id wid now token :
  in_u32 i -> exists s, new_with_initial_window name size i id wid now token = Some s /\ session_ok s.
Proof.
  intros Hi. unfold new_with_initial_window. destruct (window_new_ok (stale := stale) size id wid now) as (w & -> & Hw & _). cbn [mbind option_bind].
  eexists. split; [done|]. split; unfold has_window; cbn.
  - intros k v [<- <-]%lookup_singleton_Some. done.
  - intros k [v [<- _]%lookup_singleton_Some]. done.
  - intros k. split; intros [v [<- _]%lookup_singleton_Some]; rewrite lookup_singleton_eq; by eexists.
  - rewrite lookup_singleton_eq. by eexists.
  - done.
Qed.

(** ** Every operation keeps the invariant *)

Lemma after_safe {A} (r : option (A * Session)) : safe r -> exists s', after r = Some s' /\ session_ok s'.
Proof. intros (a & s & -> & H). by exists s. Qed.

Lemma snd_session_of {A B} (r : option (A * B * Session)) : safe (session_of r) -> exists s', snd <$> r = Some s' /\ session_ok s'.
Proof. destruct r as [[[a b] s]|]; intros (x & s' & [= _ <-] & H); by exists s. Qed.

Lemma pair_ok {A} {r : option (A * Window)} {P : A -> Window -> Prop} :
  (exists a w', r = Some (a, w') /\ window_ok w' /\ P a w') -> exists a w', r = Some (a, w') /\ window_ok w'.
Proof. intros (a & w' & H1 & H2 & _). eauto. Qed.

Lemma zoomed_at (i : Z) (s : Session) w :
  (stale = false -> match windows s !! i with Some w => zoomed w | None => false end = false) -> windows s !! i = Some w ->
  stale = false -> zoomed w = false.
Proof. intros H Hw. by rewrite Hw in H. Qed.

Ltac in_one_window Hok := apply on_window_safe; [exact Hok|]; intros w Hw Hwin.
Ltac in_one_pane Hok := apply on_pane_safe; [exact Hok|]; intros w q Hw Hwin Hq.

(** The operations of one window. *)
Lemma window_level_ok now op s :
  session_ok s -> session_allowed stale op s -> (stale = false -> leaves_stale op s = false) ->
  match op with
  | RenameWindow _ _ | AutomaticName _ _ | RotateWindow _ _ _ | ResizeWindow _ _ | RespawnWindow _ | SelectLayout _ _ _ _
  | CycleLayout _ _ _ _ | SelectCustomLayout _ _ | ReapplyOldLayout _ | SaveLayout _ | Spread _ =>
      exists s', run_session now op s = Some s' /\ session_ok s'
  | _ => True
  end.
Proof.
  intros Hok Hal Hst. destruct op; try exact I; cbn [run_session session_allowed leaves_stale] in *; apply after_safe.
  - by apply rename_safe.
  - in_one_window Hok. eexists _, _. split; [done|]. destruct (automatic_rename w); [|done]. destruct Hwin as [Ho Hl Hp].
    split; [apply (same_order_ok w); [by split|done]|by apply (layout_ok_same w)|done].
  - in_one_window Hok. apply unit_of_ok. destruct (rotate_ok d restore now w Hwin) as (w' & -> & H & _). eauto.
  - in_one_window Hok. apply unit_of_ok. destruct (set_size_ok size w Hwin) as (w' & -> & H & _). eauto.
  - unfold respawn_window. destruct (windows s !! i) as [w0|] eqn:Hw0; [|by apply safe_here]. destruct (head (panes w0)); [|by apply safe_here].
    in_one_window Hok. eexists _, _. split; [done|]. by apply respawn_ok.
  - in_one_window Hok. apply unit_of_ok. destruct (set_layout_ok name mw mh w Hwin) as (w' & -> & H & _). eauto.
  - destruct forward; in_one_window Hok.
    + destruct (next_layout_ok mw mh w Hwin) as (r & w' & -> & H & _). eauto.
    + destruct (previous_layout_ok mw mh w Hwin) as (r & w' & -> & H & _). eauto.
  - apply flatten_safe. in_one_window Hok. destruct (apply_custom_layout_ok layout w Hwin (zoomed_at _ _ _ Hst Hw)) as (r & w' & -> & H & _). eauto.
  - apply flatten_safe. in_one_window Hok. destruct (reapply_old_layout_ok w Hwin (zoomed_at _ _ _ Hst Hw)) as (r & w' & -> & H & _). eauto.
  - in_one_window Hok. eexists _, _. split; [done|]. by apply window_ok_old_layout.
  - in_one_window Hok. destruct (spread_layout_ok (active_pane w) w Hwin (zoomed_at _ _ _ Hst Hw)) as (r & w' & -> & H & _). eauto.
Qed.

(** The operations on panes. *)
Lemma pane_level_ok now op s :
  session_ok s -> session_allowed stale op s -> (stale = false -> leaves_stale op s = false) ->
  match op with
  | SplitPane _ _ _ _ _ _ _ | KillPane _ _ | KillOtherPanes _ _ | SelectPaneIn _ _ _ | SelectAdjacentIn _ _ _ _ | LastPaneIn _ _
  | ResizePane _ _ _ | ZoomPane _ _ | ResizePaneTo _ _ _ _ | ResizeNewPane _ _ _ _ _ | SwapPanesOf _ _ _ | JoinPaneOf _ _ _ =>
      exists s', run_session now op s = Some s' /\ session_ok s'
  | _ => True
  end.
Proof.
  intros Hok Hal Hst. destruct op; try exact I; cbn [run_session session_allowed leaves_stale] in *; apply after_safe.
  - destruct (windows s !! i) as [w|] eqn:Hw.
    + destruct full; [by eapply split_full_size_ok|by eapply split_pane_in_window_ok].
    + destruct full; [unfold split_pane_full_size|unfold split_pane_in_window]; unfold on_pane; rewrite Hw; by apply safe_here.
  - by apply kill_pane_ok.
  - by apply kill_others_ok.
  - in_one_pane Hok. apply ok_of_ok. exact (pair_ok (select_pane_with_zoom_ok p preserve now w Hwin)).
  - in_one_pane Hok. apply ok_of_ok. by eapply select_adjacent_with_zoom_ok.
  - apply flatten_safe. in_one_window Hok. destruct (last_pane_with_zoom_ok preserve now w Hwin) as (r & w' & -> & H & _). eauto.
  - in_one_pane Hok. apply ok_of_ok, unit_of_ok. by apply resize_adjustment_ok.
  - in_one_pane Hok. apply done_with_ok. exact (pair_ok (toggle_zoom_ok p now w Hwin)).
  - in_one_pane Hok. apply done_with_ok. exact (pair_ok (window_resize_pane_to_ok p d (Z.max n 1) w Hwin)).
  - in_one_pane Hok. apply done_with_ok. exact (pair_ok (resize_new_split_ok p d n before w Hwin)).
  - by apply session_swap_safe.
  - by apply join_pane_safe.
Qed.

Lemma session_op_ok now op s :
  session_ok s -> session_allowed stale op s -> (stale = false -> leaves_stale op s = false) -> exists s', run_session now op s = Some s' /\ session_ok s'.
Proof.
  intros Hok Hal Hst. pose proof (window_level_ok now op s Hok Hal Hst) as Hwl. pose proof (pane_level_ok now op s Hok Hal Hst) as Hpl.
  destruct op; try exact Hwl; try exact Hpl; clear Hwl Hpl; cbn [run_session session_allowed leaves_stale] in *.
  - apply andb_true_iff in Hal as [H1%is_u32_true H2]. by apply snd_session_of, create_window_safe.
  - apply andb_true_iff in Hal as [H1%is_u32_true H2]. by apply snd_session_of, insert_window_safe.
  - destruct Hal as [H1%is_u32_true H2%reachable_ok]. destruct (link_window_ok i w kill sel next s Hok H1 H2) as (r & n & s' & -> & H). by exists s'.
  - by apply after_safe, remove_window_ok.
  - apply is_u32_true in Hal. destruct (move_window_ok source destination kill sel s Hok Hal) as (r & s' & -> & H & _). by exists s'.
  - apply is_u32_true in Hal. by apply after_safe, make_room_ok.
  - destruct (swap_windows_ok source destination s Hok) as (r & s' & -> & H & _). by exists s'.
  - apply is_u32_true in Hal. destruct (reindex_ok first s Hok (proj1 Hal)) as (r & s' & -> & H & _). by exists s'.
  - eexists. split; [done|]. destruct (select_window i s) as [r s'] eqn:E. by eapply select_window_keeps.
  - eexists. split; [done|]. by apply step_window_ok.
  - eexists. split; [done|]. by apply select_last_ok.
  - eexists. split; [done|]. by apply restore_last_ok.
  - eexists. split; [done|]. by apply add_flags_keeps.
  - eexists. split; [done|]. by apply clear_flags_keeps.
  - by apply snd_session_of, break_pane_safe.
  - by apply resize_terminal_ok.
  - by apply resize_active_ok.
Qed.

Lemma session_reachable_ok s : session_reachable stale s -> session_ok s.
Proof.
  induction 1 as [name size i id wid now token s Hi E|s s' _ IH Hstep].
  - destruct (new_session_ok name size i id wid now token Hi) as (s0 & E0 & H). congruence.
  - destruct Hstep as [now op s s' Hal Hst E]. destruct (session_op_ok now op s IH Hal Hst) as (s0 & E0 & H). congruence.
Qed.

End Kept.

(** ** Sample sessions *)

Definition run_sample (ops : list SessionOp) : option Session :=
  fold_left (fun s op => s ← s; run_session 5 op s) ops (new_with_initial_window "main" demo_size 0 10 1 0 0).

Lemma run_sample_reachable stale ops s :
  run_sample ops = Some s ->
  (forall k s0, run_sample (take k ops) = Some s0 -> forall op, ops !! k = Some op ->
     session_allowed stale op s0 /\ (stale = false -> leaves_stale op s0 = false)) -> session_reachable stale s.
Proof.
  revert s. induction ops as [|op ops IH] using rev_ind; intros s E Hpre.
  - apply (reach_session _ "main" demo_size 0 10 1 0 0); [unfold in_u32, u32_max; lia|exact E].
  - unfold run_sample in E. rewrite fold_left_app in E. change ((u ← run_sample ops; run_session 5 op u) = Some s) in E.
    destruct (run_sample ops) as [s0|] eqn:E0; [|done]. cbn [mbind option_bind] in E.
    eapply reach_session_step.
    + apply IH; [done|]. intros k s1 E1 op1 Hk. apply (Hpre k s1); [|by apply lookup_app_l_Some].
      rewrite take_app_le; [done|]. apply lookup_lt_Some in Hk. lia.
    + destruct (Hpre (length ops) s0) with op as [H1 H2]; [by rewrite take_app_length|by rewrite lookup_app_r, Nat.sub_diag|].
      by econstructor; [| |exact E].
Qed.

(** Three windows with one pane each; window 1 is active and 0 was. *)
Definition three_ops : list SessionOp := [CreateWindow demo_size 0 11 2; CreateWindow demo_size 0 12 3; SelectWindow 1].

Definition no_session : Session := mkSession 0 "none" None demo_size ∅ ∅ 0 None None 0 0 0 None 0 None.

Definition sample (ops : list SessionOp) : Session := default no_session (run_sample ops).

Definition three_windows : Session := sample three_ops.

Lemma sample_runs ops : is_Some (run_sample ops) -> run_sample ops = Some (sample ops).
Proof. unfold sample. by intros [s ->]. Qed.

Lemma three_windows_run : run_sample three_ops = Some three_windows.
Proof. apply sample_runs. vm_compute. by eexists. Qed.

Lemma three_windows_reachable stale : session_reachable stale three_windows.
Proof. apply (run_sample_reachable _ _ _ three_windows_run). intros [|[|[|k]]] s0 _ op [= <-]; (split; [by vm_compute|done]). Qed.

Lemma three_windows_ok : session_ok three_windows.
Proof. apply session_reachable_ok, three_windows_reachable. Qed.

(** ** Properties *)

(** C4. No operation of a session panics, in whatever order operations are applied
    to a new session: in every session they reach all windows satisfy the window
    invariant, the active window and the last window exist, the indexes are [u32]
    values and exactly the windows have alert flags.  The code has two ways to
    leave something behind, a custom, old or spread layout on a zoomed window (its
    zoom goes stale) and a join that empties the active window (the new active
    window stays the last one).  With [stale = true] runs may do so and the
    invariant allows for exactly that; with [stale = false] they do not, no zoom is
    stale and the last window is never the active one.  The callers pass [u32]
    indexes, unused window ids, windows built by window operations, and a fresh id
    and room for a new pane. *)
Theorem session_operations_safe stale now op s :
  session_reachable stale s -> session_allowed stale op s -> (stale = false -> leaves_stale op s = false) ->
  session_ok_at stale s /\ exists s', run_session now op s = Some s' /\ session_ok_at stale s' /\ session_reachable stale s'.
Proof.
  intros Hr Hal Hst. pose proof (session_reachable_ok s Hr) as Hok. split; [done|].
  destruct (session_op_ok now op s Hok Hal Hst) as (s' & E & H). exists s'. split_and!; [done|done|].
  eapply reach_session_step; [exact Hr|]. by econstructor.
Qed.

Definition plain_join : PaneJoinOptions := mkJoinOptions Vertical true false false None.

(** A join that empties the active window. *)
Definition emptying_join : SessionOp := JoinPaneOf (mkPaneTarget 1 0) (mkPaneTarget 2 0) plain_join.

Lemma session_operations_safe_witness :
  (exists s', run_session 9 (MoveWindow 1 7 false true) three_windows = Some s' /\ session_ok s') /\
  leaves_stale emptying_join three_windows = true /\
  (exists s', run_session 9 emptying_join three_windows = Some s' /\ session_ok_at true s').
Proof.
  split; [|split; [vm_compute; reflexivity|]].
  - destruct (proj2 (session_operations_safe false 9 (MoveWindow 1 7 false true) three_windows (three_windows_reachable false) eq_refl (fun _ => eq_refl))) as (s' & E & H & _).
    exists s'. split; [exact E|exact H].
  - destruct (proj2 (session_operations_safe true 9 emptying_join three_windows (three_windows_reachable true)
      ltac:(vm_compute; reflexivity) ltac:(discriminate))) as (s' & E & H & _).
    exists s'. split; [exact E|exact H].
Defined.

(** Removing a window takes exactly that one out.  When it was active the
    last window becomes active, or else the initial window of the group, or else
    the nearest window below, or the highest one above; a last window that is
    gone or was active is forgotten.  The only window is not removed. *)
Theorem remove_window_selects i s w :
  session_ok s -> windows s !! i = Some w ->
  if (size (windows s) =? 1)%nat then exists e, remove_window i s = Some (Err e, s)
  else exists s', remove_window i s = Some (Ok w, s') /\ session_ok s' /\ windows s' = delete i (windows s) /\
    last_window s' = (if bool_decide (active_window s = i \/ last_window s = Some i) then None else last_window s) /\
    (active_window s <> i -> active_window s' = active_window s) /\
    (active_window s = i ->
      match last_window s with
      | Some l => active_window s' = l
      | None => group_initial_window_id s = None ->
          match last_below i (windows s) with
          | Some k => active_window s' = k
          | None => last_above i (windows s) = Some (active_window s')
          end
      end).
Proof.
  intros Hok Hw. unfold remove_window. rewrite Hw. destruct (Nat.eqb_spec (size (windows s)) 1) as [E|E]; [by eexists|].
  destruct (remove_allowing_empty_ok i s w Hok Hw E) as (s' & -> & Hs' & W & L & A). exists s'. split_and!; try done.
  - intros Ha. by rewrite (proj2 (Z.eqb_neq _ _)) in A.
  - intros Ha. rewrite (proj2 (Z.eqb_eq _ _) Ha) in A. unfold next_active_window_after_removal in A. destruct (last_window s) as [l|] eqn:El.
    + destruct (ses_last s Hok l El) as [Hl Hne]. specialize (Hne eq_refl). cbn in A. rewrite (proj2 (Z.eqb_neq l i)) in A by congruence. rewrite bool_decide_true in A by exact Hl. by injection A.
    + intros Hg. rewrite Hg in A. cbn in A. unfold cyclic_previous_window_index in A. destruct (last_below i (windows s)); [by injection A|done].
Qed.

Lemma remove_window_selects_witness :
  exists w s', windows three_windows !! 1 = Some w /\ remove_window 1 three_windows = Some (Ok w, s') /\ active_window s' = 0 /\
    windows s' !! 1 = None /\ last_window s' = None.
Proof.
  destruct (windows three_windows !! 1) as [w|] eqn:Hw; [|exfalso; by vm_compute in Hw].
  pose proof (remove_window_selects 1 three_windows w three_windows_ok Hw) as H.
  replace (size (windows three_windows) =? 1)%nat with false in H by (vm_compute; reflexivity).
  destruct H as (s' & E & _ & W & L & _ & A). exists w, s'. split; [reflexivity|]. split; [exact E|].
  split; [|split; [rewrite W; apply lookup_delete_eq|rewrite L; vm_compute; reflexivity]].
  apply A. vm_compute. reflexivity.
Defined.

(** Moving a window puts it, unchanged, at the destination and leaves every
    other window where it is; a window in the way is an error without [-k] and is
    replaced with it.  Selecting makes the destination active; otherwise the
    active window only changes when it is the one that moved. *)
Theorem move_window_relocates source destination (kill sel : bool) s w :
  session_ok s -> in_u32 destination -> windows s !! source = Some w -> source <> destination ->
  if bool_decide (is_Some (windows s !! destination)) && negb kill
  then exists e, move_window source destination kill sel s = Some (Err e, s)
  else exists s', move_window source destination kill sel s = Some (Ok (windows s !! destination), s') /\ session_ok s' /\
    windows s' !! destination = Some w /\ windows s' !! source = None /\
    (forall k, k <> source -> k <> destination -> windows s' !! k = windows s !! k) /\
    (sel = true -> active_window s' = destination) /\
    (sel = false -> active_window s <> source -> active_window s' = active_window s).
Proof.
  intros Hok Hd Hw Hne. destruct (move_window_ok source destination kill sel s Hok Hd) as (r & s' & E & Hs' & Hr).
  destruct (bool_decide _ && _) eqn:Eb.
  - unfold move_window. rewrite Hw, (proj2 (Z.eqb_neq _ _)), Eb by done. by eexists.
  - destruct r as [removed|e].
    + destruct Hr as (w' & Hw' & W & Hrest). rewrite (proj2 (Z.eqb_neq _ _)) in W by done. destruct (Hrest Hne) as (-> & Hsel & Hun).
      exists s'. assert (w' = w) as -> by congruence. rewrite W. split_and!; try done; [by rewrite lookup_insert_eq|by rewrite lookup_insert_ne, lookup_delete_eq|].
      intros k K1 K2. by rewrite lookup_insert_ne, lookup_delete_ne.
    + exfalso. subst s'. revert E. unfold move_window. rewrite Hw, (proj2 (Z.eqb_neq _ _)), Eb by done. cbv zeta.
      destruct (apply_move_tracking _ _ _ _ _ _) as [x|]; [|done]. cbn. done.
Qed.

Lemma move_window_relocates_witness :
  exists w s', windows three_windows !! 1 = Some w /\ move_window 1 7 false false three_windows = Some (Ok None, s') /\
    windows s' !! 7 = Some w /\ windows s' !! 1 = None.
Proof.
  destruct (windows three_windows !! 1) as [w|] eqn:Hw; [|exfalso; by vm_compute in Hw].
  pose proof (move_window_relocates 1 7 false false three_windows w three_windows_ok) as H.
  replace (windows three_windows !! 7) with (@None Window) in H by (vm_compute; reflexivity).
  destruct H as (s' & E & _ & W1 & W2 & _); [unfold in_u32, u32_max; lia|exact Hw|discriminate|].
  exists w, s'. split_and!; [reflexivity|exact E|exact W1|exact W2].
Defined.

(** Renumbering windows from an index keeps their order without gaps: the
    [k]-th window gets index [first + k].  The active and the last window stay the
    same windows.  It fails, changing nothing, when the indexes do not fit. *)
Theorem reindex_keeps_order first s :
  session_ok s -> 0 <= first ->
  if u32_max <? first + Z.of_nat (size (windows s)) - 1 then exists e, reindex_windows_from first s = Some (Err e, s)
  else exists m s', reindex_windows_from first s = Some (Ok m, s') /\ session_ok s' /\
    (forall k i, sorted_keys (windows s) !! k = Some i -> windows s' !! (first + Z.of_nat k) = windows s !! i) /\
    (forall j, has_window j s' <-> first <= j < first + Z.of_nat (size (windows s))) /\
    windows s' !! active_window s' = windows s !! active_window s /\
    match last_window s with
    | None => last_window s' = None
    | Some l => exists l', last_window s' = Some l' /\ windows s' !! l' = windows s !! l
    end.
Proof.
  intros Hok Hf. destruct (reindex_ok first s Hok Hf) as (r & s' & E & Hs' & Hr).
  pose proof (length_sorted_keys (windows s)) as Hlen. pose proof (size_pos _ _ (ses_active s Hok)) as Hpos.
  destruct r as [m|e].
  - destruct (Z.ltb_spec u32_max (first + Z.of_nat (size (windows s)) - 1)) as [Hb|Hb].
    { exfalso. revert E. unfold reindex_windows_from. cbv zeta. rewrite Hlen, (proj2 (Nat.eqb_neq _ 0)), (proj2 (Z.ltb_lt _ _)) by lia. done. }
    destruct Hr as (W & (ka & Hka & Ha) & Hl). exists m, s'.
    assert (forall k i, sorted_keys (windows s) !! k = Some i -> windows s' !! (first + Z.of_nat k) = windows s !! i) as Hmove.
    { intros k i Hk. assert (has_window i s) as [v Hv] by (apply elem_of_sorted_keys; by eapply list_elem_of_lookup_2). rewrite Hv. apply W. by exists k, i. }
    split_and!; try done.
    + intros j. split.
      * intros [v (k & i & Hk & -> & _)%W]. apply lookup_lt_Some in Hk. lia.
      * intros Hj. destruct (lookup_lt_is_Some_2 (sorted_keys (windows s)) (Z.to_nat (j - first))) as [i Hi]; [lia|].
        assert (has_window i s) as [v Hv] by (apply elem_of_sorted_keys; by eapply list_elem_of_lookup_2). exists v. apply W. exists (Z.to_nat (j - first)), i. split_and!; [done|lia|done].
    + rewrite Ha. by apply Hmove.
    + destruct (last_window s) as [l|]; [|done]. destruct Hl as (k & Hk & ->). eexists. split; [done|]. by apply Hmove.
  - destruct Hr as [-> Hb]. rewrite (proj2 (Z.ltb_lt _ _)) by lia. by eexists.
Qed.

Lemma reindex_keeps_order_witness :
  exists m s', reindex_windows_from 5 three_windows = Some (Ok m, s') /\ session_ok s' /\ windows s' !! 6 = windows three_windows !! 1.
Proof.
  pose proof (reindex_keeps_order 5 three_windows three_windows_ok) as H.
  replace (u32_max <? 5 + Z.of_nat (size (windows three_windows)) - 1) with false in H by (vm_compute; reflexivity).
  destruct H as (m & s' & E & Hs & Hm & _); [lia|]. exists m, s'. split; [exact E|]. split; [exact Hs|].
  apply (Hm 1%nat 1). vm_compute. reflexivity.
Defined.

(** Going to the next window and then to the previous one comes back, and the
    other way round; the window in between is the last window then. *)
Theorem navigation_roundtrip forward s :
  session_ok s -> (2 <= size (windows s))%nat ->
  exists k s1 s2, step_window forward false s = (Ok k, s1) /\ k <> active_window s /\ has_window k s /\
    step_window (negb forward) false s1 = (Ok (active_window s), s2) /\
    windows s2 = windows s /\ active_window s2 = active_window s /\ last_window s2 = Some k.
Proof.
  intros Hok H2. pose proof (length_sorted_keys (windows s)) as Hlen.
  destruct (sorted_key_position _ _ (ses_active s Hok)) as (ka & Hka). pose proof (lookup_lt_Some _ _ _ Hka) as Hlt. set (n := length (sorted_keys (windows s))) in *.
  destruct (head_ordered_after s _ ka forward Hka) as (k & rest & Hord & Hk); [lia|]. fold n in Hk.
  destruct (elem_of_ordered_after s (active_window s) forward k) as [Hkw Hne]; [rewrite Hord; apply list_elem_of_here|].
  destruct (select_window_ok k s Hok Hkw) as (s1 & E1 & Hs1 & W1 & A1 & L1).
  assert (sorted_keys (windows s1) = sorted_keys (windows s)) as K1 by (by rewrite W1).
  assert (sorted_keys (windows s1) !! steps_on forward ka n 1 = Some (active_window s1)) as Hk1 by (by rewrite K1, A1).
  destruct (head_ordered_after s1 _ _ (negb forward) Hk1) as (j & rest' & Hord' & Hj); [rewrite K1; lia|].
  rewrite K1 in Hj. fold n in Hj. rewrite steps_on_back in Hj by lia. assert (j = active_window s) as -> by congruence.
  destruct (select_window_ok (active_window s) s1 Hs1) as (s2 & E2 & Hs2 & W2 & A2 & L2); [unfold has_window; rewrite W1; apply (ses_active s Hok)|].
  exists k, s1, s2. unfold step_window. cbv zeta. rewrite W1, (proj2 (Nat.leb_gt _ 1)), A1, Hord by lia. rewrite A1 in Hord'. rewrite Hord'. cbn [List.find negb orb].
  rewrite E1, E2. split_and!; try done; [congruence|]. rewrite L2, A1. by rewrite (proj2 (Z.eqb_neq _ _)).
Qed.

Lemma navigation_roundtrip_witness :
  exists k s1 s2, step_window true false three_windows = (Ok k, s1) /\ step_window false false s1 = (Ok 1, s2) /\
    active_window s2 = 1 /\ last_window s2 = Some k.
Proof.
  destruct (navigation_roundtrip true three_windows three_windows_ok) as (k & s1 & s2 & E1 & _ & _ & E2 & _ & A & L); [vm_compute; lia|].
  exists k, s1, s2. split_and!; [exact E1|exact E2|exact A|exact L].
Defined.

(** C31. [lowest_available_window_index_at_or_above] returns the least free index
    that is at least the minimum, and fails exactly when there is none. *)
Theorem lowest_index_is_least minimum s :
  session_ok s -> in_u32 minimum ->
  match lowest_available_window_index_at_or_above minimum s with
  | Ok i => minimum <= i <= u32_max /\ ~ has_window i s /\ forall k, minimum <= k < i -> has_window k s
  | Err _ => forall k, minimum <= k <= u32_max -> has_window k s
  end.
Proof.
  intros Hok Hm. pose proof (lowest_available_spec minimum s (proj2 Hm)) as H.
  destruct (lowest_available_window_index_at_or_above minimum s) as [i|e]; cbn in H.
  - destruct H as (H1 & H2 & H3). split_and!; [lia|lia|by intros Hi%elem_of_sorted_keys|]. intros k Hk. by apply elem_of_sorted_keys, H3.
  - intros k Hk. by apply elem_of_sorted_keys, H.
Qed.

Lemma lowest_index_is_least_witness :
  lowest_available_window_index_at_or_above 1 three_windows = Ok 3 /\ ~ has_window 3 three_windows /\ has_window 2 three_windows.
Proof.
  assert (lowest_available_window_index_at_or_above 1 three_windows = Ok 3) as E by (vm_compute; reflexivity).
  pose proof (lowest_index_is_least 1 three_windows three_windows_ok) as H. rewrite E in H.
  destruct H as (_ & H1 & H2); [unfold in_u32, u32_max; lia|]. split; [exact E|]. split; [exact H1|]. apply H2. lia.
Defined.

(** ** Allocating pane ids *)

Definition all_pane_ids (s : Session) : list Z := concat (map (fun kw => ids kw.2) (map_to_list (windows s))).

Lemma elem_of_all_pane_ids id s : id ∈ all_pane_ids s <-> exists i w, windows s !! i = Some w /\ id ∈ ids w.
Proof.
  unfold all_pane_ids. rewrite list_elem_of_In, in_concat. split.
  - intros (l & Hl & Hid). apply in_map_iff in Hl as ([i w] & <- & Hw). apply list_elem_of_In, elem_of_map_to_list in Hw.
    exists i, w. split; [done|]. by apply list_elem_of_In.
  - intros (i & w & Hw & Hid). exists (ids w). split; [|by apply list_elem_of_In]. apply in_map_iff. exists (i, w). split; [done|].
    by apply list_elem_of_In, elem_of_map_to_list.
Qed.

Lemma contains_pane_id_true id s : contains_pane_id id s = true <-> id ∈ all_pane_ids s.
Proof.
  rewrite elem_of_all_pane_ids. unfold contains_pane_id, window_contains. rewrite existsb_exists. split.
  - intros ([i w] & Hw%list_elem_of_In%elem_of_map_to_list & Hc). apply existsb_exists in Hc as (p & Hp & Hid%Z.eqb_eq). exists i, w. split; [done|].
    unfold ids. subst id. apply list_elem_of_fmap_2. by apply list_elem_of_In.
  - intros (i & w & Hw & (p & -> & Hp)%list_elem_of_fmap). exists (i, w). split; [by apply list_elem_of_In, elem_of_map_to_list|].
    apply existsb_exists. exists p. split; [by apply list_elem_of_In|lia].
Qed.

Lemma length_all_pane_ids s : length (all_pane_ids s) = pane_total s.
Proof.
  unfold all_pane_ids, pane_total. induction (map_to_list (windows s)) as [|[i w] l IH]; [done|]. cbn. rewrite length_app, IH. unfold ids. by rewrite length_map.
Qed.

Lemma pane_allocation_spec fuel next s :
  match allocate_pane_loop fuel next s with
  | Some id => next <= id /\ id ∉ all_pane_ids s
  | None => exists n, (forall k, next <= k < next + Z.of_nat n -> k ∈ all_pane_ids s) /\ (n = fuel \/ next + Z.of_nat n = u32_max + 1)
  end.
Proof.
  revert next. induction fuel as [|fuel IH]; intros next; cbn [allocate_pane_loop]; [exists 0%nat; split; [lia|by left]|].
  destruct (contains_pane_id next s) eqn:Ec; cbn [negb].
  - apply contains_pane_id_true in Ec. destruct (Z.eqb_spec next u32_max) as [->|Hn].
    + exists 1%nat. split; [|right; lia]. intros k Hk. by replace k with u32_max by lia.
    + specialize (IH (next + 1)). destruct (allocate_pane_loop fuel (next + 1) s) as [id|]; [destruct IH; split; [lia|done]|].
      destruct IH as (n & Ha & Hn'). exists (S n). split; [|destruct Hn' as [->|Hn']; [by left|right; lia]].
      intros k Hk. destruct (decide (k = next)) as [->|]; [done|apply Ha; lia].
  - split; [lia|]. intros Hin%contains_pane_id_true. congruence.
Qed.

(** A run of ids that are all taken is no longer than the number of panes. *)
Lemma taken_run_bound next n s : (forall k, next <= k < next + Z.of_nat n -> k ∈ all_pane_ids s) -> (n <= pane_total s)%nat.
Proof.
  intros Ha. rewrite <- length_all_pane_ids. set (run := map (fun k => next + Z.of_nat k) (seq 0 n)).
  replace n with (length run) by (unfold run; by rewrite length_map, length_seq). apply NoDup_incl_length.
  - apply NoDup_ListNoDup, NoDup_fmap_2; [intros a b; lia|apply NoDup_seq].
  - intros k Hk. apply list_elem_of_In. apply in_map_iff in Hk as (j & <- & Hj%in_seq). apply Ha. lia.
Qed.

(** As long as the ids do not run out, [allocate_pane_id] returns an id that no
    pane of the session has, at least as large as the one announced, and moves the
    counter past it. *)
Theorem allocate_pane_id_fresh s :
  session_ok s -> next_pane_id s + Z.of_nat (pane_total s) <= u32_max ->
  exists id, allocate_pane_id s = Some (id, with_next_pane_id (u32_sat_add id 1) s) /\ next_pane_id s <= id /\
    forall i w, windows s !! i = Some w -> id ∉ ids w.
Proof.
  intros Hok Hn. unfold allocate_pane_id. pose proof (pane_allocation_spec (S (pane_total s)) (next_pane_id s) s) as H.
  destruct (allocate_pane_loop _ _ _) as [id|].
  - destruct H as [H1 H2]. exists id. split_and!; [done|done|]. intros i w Hw Hid. apply H2, elem_of_all_pane_ids. eauto.
  - exfalso. destruct H as (n & Ha & Hcase). pose proof (taken_run_bound _ _ _ Ha). destruct Hcase as [->|]; lia.
Qed.

Lemma allocate_pane_id_fresh_witness :
  exists id, allocate_pane_id three_windows = Some (id, with_next_pane_id (u32_sat_add id 1) three_windows) /\
    forall i w, windows three_windows !! i = Some w -> id ∉ ids w.
Proof.
  destruct (allocate_pane_id_fresh three_windows three_windows_ok) as (id & E & _ & H); [vm_compute; discriminate|].
  exists id. split; [exact E|exact H].
Defined.

(** ** Joining and breaking *)

(** C16. Joining a pane to another window of the session takes it out of its window
    and inserts it right before or after the target pane, or at the edge of the
    window with [-f].  No other window changes, a window that lost its last pane is
    gone, the target window is selected unless the join is detached, and a refused
    join changes nothing.  This holds of every join, in every session that
    operations reach ([stale = true]).  The session stays consistent in the strict
    sense ([stale = false]) unless the join empties the active window while there
    is a last window that is the target or is selected instead: that one remains
    the last window while it is active.  The target window has room for the pane. *)
Theorem join_moves_pane stale source target o now s :
  session_ok_at stale s -> join_room target s = true -> (stale = false -> join_keeps_last source target o s = false) ->
  window_index source <> window_index target ->
  exists r s', join_pane source target o now s = Some (r, s') /\ session_ok_at stale s' /\
    match r with Err _ => s' = s | Ok _ => joined source target o s s' end.
Proof. apply join_pane_spec. Qed.

Lemma join_moves_pane_witness :
  (exists s', join_pane (mkPaneTarget 2 0) (mkPaneTarget 0 0) plain_join 9 three_windows = Some (Ok tt, s') /\ session_ok s' /\
    windows s' !! 2 = None /\ (ids <$> windows s' !! 0) = Some [10; 12]) /\
  (exists r s', join_pane (mkPaneTarget 1 0) (mkPaneTarget 2 0) plain_join 9 three_windows = Some (r, s') /\ session_ok_at true s').
Proof.
  split.
  2: { destruct (join_moves_pane true (mkPaneTarget 1 0) (mkPaneTarget 2 0) plain_join 9 three_windows (session_ok_weaken _ three_windows_ok)) as (r & s' & E & Hs & _);
         [vm_compute; reflexivity|discriminate|discriminate|]. exists r, s'. split; [exact E|exact Hs]. }
  destruct (join_moves_pane false (mkPaneTarget 2 0) (mkPaneTarget 0 0) plain_join 9 three_windows three_windows_ok) as (r & s' & E & Hs & Hr);
    [vm_compute; reflexivity|intros _; vm_compute; reflexivity|discriminate|].
  assert (fst <$> join_pane (mkPaneTarget 2 0) (mkPaneTarget 0 0) plain_join 9 three_windows = Some (Ok tt)) as Er by (vm_compute; reflexivity).
  rewrite E in Er. cbn in Er. injection Er as ->. exists s'. split; [exact E|]. split; [exact Hs|].
  destruct Hr as (sw & tw & tw' & id & Hsw & Htw & Hid & Ht' & Hids & Hgone & _). cbn [window_index target_pane] in *.
  assert (ids <$> windows three_windows !! 2 = Some [12]) as I2 by (vm_compute; reflexivity). rewrite Hsw in I2. cbn in I2. injection I2 as I2.
  assert (ids <$> windows three_windows !! 0 = Some [10]) as I0 by (vm_compute; reflexivity). rewrite Htw in I0. cbn in I0. injection I0 as I0.
  rewrite count_ids, I2 in Hgone. rewrite I2 in Hid. cbn in Hid. injection Hid as <-. split; [exact Hgone|]. rewrite Ht'. cbn. rewrite Hids, I0. reflexivity.
Defined.

Lemma window_new_id size id wid now w : window_new_with_initial_pane size id wid now = Some w -> win_id w = wid.
Proof.
  unfold window_new_with_initial_pane, recalculate_geometry, apply_layout_tree. cbn [layout_tree win_size with_win_size with_layout_tree].
  destruct (apply_to_panes _ _); [|done]. cbn. by intros [= <-].
Qed.

Lemma shifted_source_value i d after before j :
  after || before = true -> shifted_source i d after before = Ok j -> j = if d <=? i then i + 1 else i.
Proof. unfold shifted_source. intros ->. cbn [negb]. destruct (d <=? i); [destruct (_ =? u32_max); [done|]|]; by intros [= <-]. Qed.

(** Making room keeps the selected window selected. *)
Lemma prepare_keeps_active target allowed (after before : bool) s d s' :
  session_ok s -> after || before = true -> prepare_break_destination target allowed after before s = Some (Ok d, s') ->
  active_window s' = if d <=? active_window s then active_window s + 1 else active_window s.
Proof.
  intros Hok Hab. unfold prepare_break_destination. rewrite Hab. cbn [negb]. cbv zeta. destruct (bool_decide _ && _); [done|]. destruct (negb _ && _); [done|].
  match goal with |- context [shift_windows_up_from ?j s] => destruct (shift_windows_spec j s Hok) as (r & s1' & -> & _ & Hsp) end. cbn [mbind option_bind].
  destruct r as [[]|]; [|done]. intros [= <- <-]. apply Hsp.
Qed.

(** ** Where the selection goes wrong *)

(** [make_room_for_window] shifts windows with [move_window] without
    selecting, so shifting the active window makes another one active: with
    windows 0, 1 and 2 and window 1 active, making room at index 1 moves window 1
    to index 2 and leaves window 0 active. *)
Theorem make_room_changes_selection :
  exists s', make_room_for_window 1 three_windows = Some (Ok [(1, 2); (2, 3)], s') /\
    active_window three_windows = 1 /\ (win_id <$> windows s' !! 2) = (win_id <$> windows three_windows !! 1) /\
    active_window s' = 0 /\ last_window s' = None.
Proof.
  destruct (make_room_for_window 1 three_windows) as [[r s']|] eqn:E; [|exfalso; by vm_compute in E].
  assert ((fun rs : result (list (Z * Z)) RmuxError * Session => (rs.1, win_id <$> windows rs.2 !! 2, active_window rs.2, last_window rs.2)) <$> make_room_for_window 1 three_windows =
    Some (Ok [(1, 2); (2, 3)], win_id <$> windows three_windows !! 1, 0, None)) as H by (vm_compute; reflexivity).
  rewrite E in H. cbn [fmap option_fmap option_map fst snd] in H. injection H as -> H1 H2 H3. exists s'.
  split_and!; [done|vm_compute; reflexivity|exact H1|exact H2|exact H3].
Qed.

(** When [join_pane] empties the active window it makes the last window
    active but keeps it as the last window too, so the active window is its own
    last window and [last-window] selects nothing else. *)
Theorem join_leaves_last_active :
  exists s', join_pane (mkPaneTarget 1 0) (mkPaneTarget 2 0) plain_join 9 three_windows = Some (Ok tt, s') /\
    active_window s' = 0 /\ last_window s' = Some 0 /\ select_last_window s' = (Ok 0, s') /\ ~ session_ok s'.
Proof.
  destruct (join_pane (mkPaneTarget 1 0) (mkPaneTarget 2 0) plain_join 9 three_windows) as [[r s']|] eqn:E; [|exfalso; by vm_compute in E].
  assert ((fun rs : result unit RmuxError * Session => (rs.1, bool_decide (is_Some (windows rs.2 !! 0)), active_window rs.2, last_window rs.2)) <$>
    join_pane (mkPaneTarget 1 0) (mkPaneTarget 2 0) plain_join 9 three_windows = Some (Ok tt, true, 0, Some 0)) as H by (vm_compute; reflexivity).
  rewrite E in H. cbn [fmap option_fmap option_map fst snd] in H. injection H as -> H0 H1 H2. apply bool_decide_eq_true in H0 as [w Hw]. exists s'.
  split_and!; [done|exact H1|exact H2| |].
  - unfold select_last_window, select_window. by rewrite H2, Hw, H1.
  - intros [_ _ _ _ H5]. destruct (H5 0 H2) as [_ H]. apply H; [done|congruence].
Qed.

(** Breaking a pane out of a window with several panes, with [-a] or [-b],
    opens a gap, moves the windows from there on up by one without changing which
    is selected, and puts the pane alone into a new window in the gap; the pane
    leaves its old window. *)
Theorem break_opens_window source o next now s w id :
  session_ok s -> break_allowed o next = true -> (break_after o || break_before o) = true -> break_detached o = true ->
  windows s !! window_index source = Some w -> ids w !! Z.to_nat (target_pane source) = Some id -> 0 <= target_pane source ->
  (2 <= count w)%nat ->
  exists r next' s', break_pane source o next now s = Some (r, next', s') /\ session_ok s' /\
    match r with
    | Err _ => s' = s
    | Ok d => exists new,
        windows s' !! d = Some new /\ ids new = [id] /\ win_id new = next /\
        (exists j w', windows s' !! j = Some w' /\ j = (if d <=? window_index source then window_index source + 1 else window_index source) /\
           ids w' = delete (Z.to_nat (target_pane source)) (ids w)) /\
        (forall k, k <> window_index source -> windows s' !! (if d <=? k then k + 1 else k) = windows s !! k) /\
        active_window s' = (if d <=? active_window s then active_window s + 1 else active_window s)
    end.
Proof.
  intros Hok Hal Hab Hdet Hw Hid H0 H2. apply break_allowed_true in Hal as [Ht Hnext]. pose proof (ses_windows _ Hok _ _ Hw) as Hwin.
  pose proof (ses_indexes _ Hok _ (mk_is_Some _ _ Hw)) as Hi.
  assert (in_window (target_pane source) w = true) as Hin.
  { apply lookup_lt_Some in Hid. rewrite <- count_ids in Hid. unfold in_window. apply andb_true_iff. split; [by apply Z.leb_le|apply Z.ltb_lt; lia]. }
  destruct (in_window_pane _ _ (win_order _ Hwin) Hin) as (q & Hq & _).
  unfold break_pane, pane_at. rewrite Hw, Hq.
  destruct (prepare_break_spec (target_window_index o) (Some (window_index source)) (break_after o) (break_before o) s Hok Ht) as (r & s1 & Ep & Hs1 & _ & Hr).
  rewrite Ep. cbn [mbind option_bind]. destruct r as [d|e]; [|subst s1; by eexists _, _, s]. destruct Hr as [Hd Hr]. rewrite Hab in Hr.
  pose proof (prepare_keeps_active _ _ _ _ _ _ _ Hok Hab Ep) as Ha1.
  destruct (shifted_source_spec (window_index source) d (break_after o) (break_before o) s s1 w Hw Hi Hs1) as (j & Ej & Hj); [by rewrite Hab|].
  pose proof (shifted_source_value _ _ _ _ _ Hab Ej) as Ejv. rewrite Ej. rewrite Hj. cbn [mbind option_bind]. rewrite (proj2 (Nat.eqb_neq _ 1)) by lia.
  destruct (split_off_ok (target_pane source) w now next Hwin Hin H2) as (w1 & p & w2 & new & -> & E2 & Hw2 & Hpid & Hids2 & E3 & Hn & Hnids). cbn [mbind option_bind].
  rewrite E2. cbn [mbind option_bind]. unfold allocate_window_id. rewrite (proj2 (Z.eqb_neq next _)) by done. cbn [mbind option_bind]. rewrite E3. cbn [mbind option_bind].
  assert (session_ok (set_window j w2 s1)) as Hs2 by (apply update_window_ok; [done|by exists w|done]).
  assert (windows s1 !! d = None) as Hfree by (rewrite Hr, (proj2 (Z.ltb_ge _ _)), Z.eqb_refl by lia; done).
  assert (j <> d) as Hjd by (intros ->; congruence).
  destruct (insert_existing_ok d (with_break_name (break_name o) new) (next + 1) _ Hs2 Hd (with_break_name_ok _ _ Hn)) as (r3 & next' & s3 & E4 & Hs3 & Hr3).
  rewrite E4, Hdet. destruct r3 as [[]|e]; cycle 1.
  { exfalso. revert E4. unfold insert_existing_window. cbn. rewrite lookup_insert_ne, Hfree by done. done. }
  destruct Hr3 as [_ W3]. cbn in W3. eexists _, _, s3. split; [done|]. split; [done|].
  exists (with_break_name (break_name o) new). split_and!.
  - by rewrite W3, lookup_insert_eq.
  - assert (pane_id p = id) as <- by congruence. by destruct (break_name o).
  - transitivity (win_id new); [by destruct (break_name o)|]. by apply window_new_id in E3.
  - exists j, w2. split_and!; [by rewrite W3, lookup_insert_ne, lookup_insert_eq by done|done|done].
  - intros k Hk. rewrite W3. assert (j <> if d <=? k then k + 1 else k) as Hj2.
    { rewrite Ejv. destruct (Z.leb_spec d k), (Z.leb_spec d (window_index source)); lia. }
    destruct (Z.leb_spec d k) as [Hdk|Hdk]; rewrite !lookup_insert_ne by (done || lia); rewrite Hr.
    + rewrite (proj2 (Z.ltb_ge _ _)), (proj2 (Z.eqb_neq _ _)) by lia. f_equal. lia.
    + by rewrite (proj2 (Z.ltb_lt _ _)) by lia.
  - revert E4. unfold insert_existing_window. cbn. rewrite lookup_insert_ne, Hfree by done. intros [= _ <-]. exact Ha1.
Qed.

(** Two windows, the first with panes 10 and 20. *)
Definition split_ops : list SessionOp := [CreateWindow demo_size 0 11 2; SplitPane 0 0 20 Vertical false false false].

Lemma split_session_reachable stale : session_reachable stale (sample split_ops).
Proof.
  apply (run_sample_reachable _ split_ops); [apply sample_runs; vm_compute; by eexists|].
  intros [|[|k]] s0 E op [= <-]; (split; [|done]); [by vm_compute|]. change (take 1 split_ops) with [CreateWindow demo_size 0 11 2] in E.
  rewrite (sample_runs [CreateWindow demo_size 0 11 2]) in E by (vm_compute; by eexists). injection E as <-. by vm_compute.
Qed.

Lemma break_opens_window_witness :
  exists r next' s' new, break_pane (mkPaneTarget 0 1) (mkBreakOptions (Some 0) None true false true) 7 9 (sample split_ops) = Some (r, next', s') /\
    r = Ok 0 /\ windows s' !! 0 = Some new /\ ids new = [20] /\ active_window s' = 1.
Proof.
  set (o := mkBreakOptions (Some 0) None true false true).
  destruct (windows (sample split_ops) !! 0) as [w|] eqn:Hw; [|exfalso; by vm_compute in Hw].
  assert (ids <$> windows (sample split_ops) !! 0 = Some [10; 20]) as Hids by (vm_compute; reflexivity). rewrite Hw in Hids. cbn in Hids. injection Hids as Hids.
  destruct (break_opens_window (mkPaneTarget 0 1) o 7 9 (sample split_ops) w 20) as (r & next' & s' & E & _ & Hr);
    [apply session_reachable_ok, split_session_reachable|vm_compute; reflexivity|reflexivity|reflexivity|exact Hw|rewrite Hids; reflexivity|vm_compute; discriminate|rewrite count_ids, Hids; cbn; lia|].
  assert ((fun x : result Z RmuxError * Z * Session => x.1.1) <$> break_pane (mkPaneTarget 0 1) o 7 9 (sample split_ops) = Some (Ok 0)) as Er by (vm_compute; reflexivity).
  rewrite E in Er. cbn in Er. injection Er as ->. destruct Hr as (new & Hn & Hi & _ & _ & _ & Ha).
  exists (Ok 0), next', s', new. split_and!; [exact E|reflexivity|exact Hn|exact Hi|]. rewrite Ha. vm_compute. reflexivity.
Defined.
