(* ===== verification/SessionGroups.v ===== *)
(** * Grouped sessions

    Sessions of one group share their windows; each keeps its own selection and
    alert flags.  [clone_as_group_member], the [synchronize_group_from] family and
    [remap_local_winlink_alert_flags] of [crates/rmux-core/src/session/accessors.rs]. *)

From stdpp Require Import sorting.
From S2P Require Import Prelude Panes Text Errors LayoutCell LayoutTree LayoutNamed LayoutText.
From S2P Require Import LayoutShape Window WindowInv WindowOps WindowMove PaneTransfer WindowRun.
From S2P Require Import Session SessionInv SessionOps SessionTransfer SessionRun.

(** ** Finding a window by its id *)

Definition id_at (m : gmap Z Window) (i : Z) : option Z := win_id <$> m !! i.

Definition has_id (m : gmap Z Window) (id i : Z) : bool := bool_decide (id_at m i = Some id).

(** The preferred index, or the only index with that id. *)
Definition window_index_for_id (m : gmap Z Window) (id preferred : Z) : option Z :=
  if has_id m id preferred then Some preferred
  else match filter (fun k => has_id m id k = true) (sorted_keys m) with [k] => Some k | _ => None end.

(** ** Alert flags *)

(** Which index of the source each own index becomes, and the indexes taken. *)
Record Assignment := mkAssignment { assigned : gmap Z Z; claimed : gset Z }.

Definition assign (previous next : Z) (a : Assignment) : Assignment :=
  mkAssignment (<[previous := next]> (assigned a)) ({[next]} ∪ claimed a).

(** First pass: what the map says, when it leads to the same window. *)
Definition assign_mapped (pw sw : gmap Z Window) (m : gmap Z Z) (i : Z) (a : Assignment) : Assignment :=
  match id_at pw i, m !! i with
  | Some id, Some next => if has_id sw id next && bool_decide (next ∉ claimed a) then assign i next a else a
  | _, _ => a
  end.

(** Second pass: windows that are still where they were. *)
Definition assign_exact (pw sw : gmap Z Window) (i : Z) (a : Assignment) : Assignment :=
  match assigned a !! i, id_at pw i with
  | None, Some id => if has_id sw id i && bool_decide (i ∉ claimed a) then assign i i a else a
  | _, _ => a
  end.

(** Third pass: the first free index with the same window. *)
Definition assign_by_id (pw sw : gmap Z Window) (i : Z) (a : Assignment) : Assignment :=
  match assigned a !! i, id_at pw i with
  | None, Some id =>
      match List.find (fun k => has_id sw id k && bool_decide (k ∉ claimed a)) (sorted_keys sw) with
      | Some next => assign i next a
      | None => a
      end
  | _, _ => a
  end.

Definition assign_pass (f : Z -> Assignment -> Assignment) (keys : list Z) (a : Assignment) : Assignment :=
  fold_left (fun a i => f i a) keys a.

Definition synchronized_indices (pw sw : gmap Z Window) (m : option (gmap Z Z)) : Assignment :=
  let keys := sorted_keys pw in
  let a := match m with Some m => assign_pass (assign_mapped pw sw m) keys (mkAssignment ∅ ∅) | None => mkAssignment ∅ ∅ end in
  let a := assign_pass (assign_exact pw sw) keys a in
  assign_pass (assign_by_id pw sw) keys a.

(** Own flags move with their windows; indexes without any get the source's. *)
Definition remap_local_winlink_alert_flags (pw : gmap Z Window) (pf : gmap Z Z) (sw : gmap Z Window) (sf : gmap Z Z)
    (m : option (gmap Z Z)) : gmap Z Z :=
  let a := synchronized_indices pw sw m in
  let moved : gmap Z Z :=
    fold_left (fun acc i => match pf !! i, assigned a !! i with Some f, Some next => <[next := f]> acc | _, _ => acc end)
      (sorted_keys pf) ∅ in
  fold_left (fun acc i => match acc !! i with Some _ => acc | None => <[i := default 0 (sf !! i)]> acc end) (sorted_keys sw) moved.

(** ** Synchronizing *)

Definition with_cwd (v : option string) (s : Session) : Session :=
  mkSession (ses_id s) (ses_name s) (group_name s) (terminal_size s) (windows s) (winlink_alert_flags s) (active_window s)
    (last_window s) (group_initial_window_id s) (next_pane_id s) (ses_created s) (ses_activity s)
    (last_attached_at s) (recency s) v.

Definition synchronize_group_windows (source : Session) (active : Z) (last : option Z) (m : option (gmap Z Z)) (s : Session) : Session :=
  let flags := remap_local_winlink_alert_flags (windows s) (winlink_alert_flags s) (windows source) (winlink_alert_flags source) m in
  with_last_window last
    (with_active_window active
       (with_cwd (cwd source)
          (with_next_pane_id (next_pane_id source) (with_flags flags (with_windows (windows source) s))))).

(** [synchronize_group_from] without a map, [..._with_winlink_alert_map] with one. *)
Definition synchronize_group_from (source : Session) (m : option (gmap Z Z)) (s : Session) : option Session :=
  let sw := windows source in
  active ←
    match (id ← id_at (windows s) (active_window s); window_index_for_id sw id (active_window s)) with
    | Some k => Some k
    | None => synchronized_active_window sw (active_window s) (last_window s)
    end;
  let by_id :=
    l ← last_window s;
    id ← id_at (windows s) l;
    k ← window_index_for_id sw id l;
    if negb (k =? active) then Some k else None in
  let last :=
    match by_id with
    | Some k => Some k
    | None =>
        if negb (active_window s =? active) && bool_decide (is_Some (sw !! active_window s)) then Some (active_window s) else None
    end in
  Some (synchronize_group_windows source active last m s).

Definition synchronize_group_from_with_window_selection_and_winlink_alert_maps (source : Session) (selection alerts : gmap Z Z) (s : Session)
  : option Session :=
  let sw := windows source in
  let wanted := default (active_window s) (selection !! active_window s) in
  active ←
    (if bool_decide (is_Some (sw !! wanted)) then Some wanted
     else synchronized_active_window sw (active_window s) (last_window s));
  let last :=
    l ← last_window s;
    let k := default l (selection !! l) in
    if negb (k =? active) && bool_decide (is_Some (sw !! k)) then Some k else None in
  Some (synchronize_group_windows source active last (Some alerts) s).

Definition synchronize_group_from_with_window_selection_map (source : Session) (index_map : gmap Z Z) : Session -> option Session :=
  synchronize_group_from_with_window_selection_and_winlink_alert_maps source index_map index_map.

(** A peer of the session: same windows, own identity, no attach history. *)
Definition clone_as_group_member (name group : string) (id now token : Z) (s : Session) : Session :=
  mkSession id name (Some group) (terminal_size s) (windows s) (winlink_alert_flags s) (active_window s) (last_window s)
    (k ← head (sorted_keys (windows s)); id_at (windows s) k) (next_pane_id s) now now None token (cwd s).

(** ** The assignment of indexes *)

Lemma has_id_true m id i : has_id m id i = true <-> id_at m i = Some id.
Proof. unfold has_id. apply bool_decide_eq_true. Qed.

Lemma id_at_has m i id : id_at m i = Some id -> is_Some (m !! i).
Proof. unfold id_at. destruct (m !! i); [by eauto|done]. Qed.

(** Each own window goes to an index of the source with the same window, and no
    two go to the same one. *)
Record assignment_ok (pw sw : gmap Z Window) (a : Assignment) : Prop := {
  as_same : forall i n, assigned a !! i = Some n -> exists id, id_at pw i = Some id /\ id_at sw n = Some id;
  as_claimed : forall i n, assigned a !! i = Some n -> n ∈ claimed a;
  as_injective : forall i j n, assigned a !! i = Some n -> assigned a !! j = Some n -> i = j;
}.

Lemma assign_ok pw sw i n id a :
  assignment_ok pw sw a -> id_at pw i = Some id -> id_at sw n = Some id -> n ∉ claimed a -> assignment_ok pw sw (assign i n a).
Proof.
  intros [H1 H2 H3] Hi Hn Hc. split; cbn.
  - intros j m [[<- <-]|[_ Hj]]%lookup_insert_Some; [by eauto|by apply H1].
  - intros j m [[<- <-]|[_ Hj]]%lookup_insert_Some; [set_solver|apply H2 in Hj; set_solver].
  - intros j k m. rewrite !lookup_insert_Some. intros [[<- <-]|[Hj1 Hj2]] [[<- Em]|[Hk1 Hk2]]; try done.
    + exfalso. by eapply Hc, H2.
    + exfalso. simplify_eq. by eapply Hc, H2.
    + by eapply H3.
Qed.

Lemma assign_pass_ok f pw sw keys a :
  (forall i a, assignment_ok pw sw a -> assignment_ok pw sw (f i a)) -> assignment_ok pw sw a -> assignment_ok pw sw (assign_pass f keys a).
Proof. intros Hf. unfold assign_pass. revert a. induction keys as [|k keys IH]; intros a Ha; cbn; [done|]. by apply IH, Hf. Qed.

Lemma assign_mapped_ok pw sw m i a : assignment_ok pw sw a -> assignment_ok pw sw (assign_mapped pw sw m i a).
Proof.
  intros Ha. unfold assign_mapped. destruct (id_at pw i) as [id|] eqn:E; [|done]. destruct (m !! i) as [n|]; [|done].
  destruct (_ && _) eqn:Eb; [|done]. apply andb_true_iff in Eb as [Eb%has_id_true Ec%bool_decide_eq_true]. by eapply assign_ok.
Qed.

Lemma assign_exact_ok pw sw i a : assignment_ok pw sw a -> assignment_ok pw sw (assign_exact pw sw i a).
Proof.
  intros Ha. unfold assign_exact. destruct (assigned a !! i); [done|]. destruct (id_at pw i) as [id|] eqn:E; [|done].
  destruct (_ && _) eqn:Eb; [|done]. apply andb_true_iff in Eb as [Eb%has_id_true Ec%bool_decide_eq_true]. by eapply assign_ok.
Qed.

Lemma assign_by_id_ok pw sw i a : assignment_ok pw sw a -> assignment_ok pw sw (assign_by_id pw sw i a).
Proof.
  intros Ha. unfold assign_by_id. destruct (assigned a !! i); [done|]. destruct (id_at pw i) as [id|] eqn:E; [|done].
  destruct (List.find _ _) as [n|] eqn:Ef; [|done]. apply List.find_some in Ef as [_ Eb].
  apply andb_true_iff in Eb as [Eb%has_id_true Ec%bool_decide_eq_true]. by eapply assign_ok.
Qed.

Lemma synchronized_indices_ok pw sw m : assignment_ok pw sw (synchronized_indices pw sw m).
Proof.
  unfold synchronized_indices. cbv zeta. apply assign_pass_ok; [by apply assign_by_id_ok|]. apply assign_pass_ok; [by apply assign_exact_ok|].
  assert (assignment_ok pw sw (mkAssignment ∅ ∅)) as H0 by (split; intros ? ?; cbn; rewrite lookup_empty; done).
  destruct m as [m|]; [|done]. apply assign_pass_ok; [by apply assign_mapped_ok|done].
Qed.

(** Without a map, a window that is still at its index keeps it. *)
Lemma exact_pass_keeps pw sw keys a i id :
  id_at pw i = Some id -> id_at sw i = Some id -> i ∈ keys -> NoDup keys ->
  (forall j n, assigned a !! j = Some n -> j = n) -> (forall n, n ∈ claimed a -> assigned a !! n = Some n) ->
  assigned (assign_pass (assign_exact pw sw) keys a) !! i = Some i.
Proof.
  intros Hp Hs. unfold assign_pass. revert a. induction keys as [|k keys IH]; intros a Hi Hn H1 H2; [by apply not_elem_of_nil in Hi|]. cbn [fold_left].
  apply NoDup_cons in Hn as [Hk Hn].
  assert ((forall j n, assigned (assign_exact pw sw k a) !! j = Some n -> j = n) /\ (forall n, n ∈ claimed (assign_exact pw sw k a) -> assigned (assign_exact pw sw k a) !! n = Some n)) as [G1 G2].
  { unfold assign_exact. destruct (assigned a !! k) eqn:Ek; [done|]. destruct (id_at pw k); [|done]. destruct (_ && _); [|done]. cbn. split.
    - intros j n [[<- <-]|[_ Hj]]%lookup_insert_Some; [done|by apply H1].
    - intros n Hn'. destruct (decide (n = k)) as [->|]; [by rewrite lookup_insert_eq|]. rewrite lookup_insert_ne by done. apply H2. set_solver. }
  apply elem_of_cons in Hi as [->|Hi]; [|by apply IH].
  assert (assigned (assign_exact pw sw k a) !! k = Some k) as Hkk.
  { unfold assign_exact. destruct (assigned a !! k) as [n|] eqn:Ek; [by rewrite Ek, <- (H1 _ _ Ek)|]. rewrite Hp. rewrite (proj2 (has_id_true _ _ _) Hs).
    cbn [andb]. rewrite bool_decide_true; [cbn; by rewrite lookup_insert_eq|]. intros Hc%H2. congruence. }
  clear IH Hk Hn H1 H2 G1 G2 Hp Hs. revert Hkk. generalize (assign_exact pw sw k a). induction keys as [|x keys IH]; intros b Hb; [done|]. cbn [fold_left]. apply IH.
  unfold assign_exact. destruct (assigned b !! x) eqn:Ex; [done|]. destruct (id_at pw x); [|done]. destruct (_ && _); [|done]. cbn.
  rewrite lookup_insert_ne; [done|]. intros ->. congruence.
Qed.

(** Later passes do not change what is assigned. *)
Lemma by_id_pass_keeps pw sw keys a i n :
  assigned a !! i = Some n -> assigned (assign_pass (assign_by_id pw sw) keys a) !! i = Some n.
Proof.
  unfold assign_pass. revert a. induction keys as [|x keys IH]; intros a Ha; [done|]. cbn [fold_left]. apply IH.
  unfold assign_by_id. destruct (assigned a !! x) eqn:Ex; [done|]. destruct (id_at pw x); [|done]. destruct (List.find _ _); [|done]. cbn.
  rewrite lookup_insert_ne; [done|]. intros ->. congruence.
Qed.

Lemma unmapped_exact pw sw i id :
  id_at pw i = Some id -> id_at sw i = Some id -> assigned (synchronized_indices pw sw None) !! i = Some i.
Proof.
  intros Hp Hs. unfold synchronized_indices. cbv zeta. apply by_id_pass_keeps. eapply exact_pass_keeps; try done.
  - apply elem_of_sorted_keys. by eapply id_at_has.
  - apply NoDup_sorted_keys.
Qed.

(** ** The flags after synchronizing *)

Definition move_flags (a : Assignment) (pf : gmap Z Z) (keys : list Z) (acc : gmap Z Z) : gmap Z Z :=
  fold_left (fun acc i => match pf !! i, assigned a !! i with Some f, Some next => <[next := f]> acc | _, _ => acc end) keys acc.

Definition fill_flags (sf : gmap Z Z) (keys : list Z) (acc : gmap Z Z) : gmap Z Z :=
  fold_left (fun acc i => match acc !! i with Some _ => acc | None => <[i := default 0 (sf !! i)]> acc end) keys acc.

Lemma move_flags_other a pf keys acc n :
  (forall i, i ∈ keys -> assigned a !! i <> Some n) -> move_flags a pf keys acc !! n = acc !! n.
Proof.
  unfold move_flags. revert acc. induction keys as [|k keys IH]; intros acc Hn; [done|]. cbn [fold_left]. rewrite IH by (intros i Hi; apply Hn; set_solver).
  destruct (pf !! k); [|done]. destruct (assigned a !! k) as [m|] eqn:E; [|done]. rewrite lookup_insert_ne; [done|]. intros ->. apply (Hn k); [set_solver|done].
Qed.

Lemma move_flags_moved a pf keys acc i n f :
  (forall i j n, assigned a !! i = Some n -> assigned a !! j = Some n -> i = j) -> NoDup keys ->
  i ∈ keys -> assigned a !! i = Some n -> pf !! i = Some f -> move_flags a pf keys acc !! n = Some f.
Proof.
  intros Hinj Hnd Hi Ha Hf. revert acc. induction keys as [|k keys IH]; intros acc; [by apply not_elem_of_nil in Hi|].
  apply NoDup_cons in Hnd as [Hk Hnd]. apply elem_of_cons in Hi as [->|Hi]; [|by apply IH].
  change (move_flags a pf keys (match pf !! k, assigned a !! k with Some f, Some next => <[next := f]> acc | _, _ => acc end) !! n = Some f).
  rewrite Hf, Ha. rewrite move_flags_other; [by rewrite lookup_insert_eq|]. intros j Hj Hjn. assert (j = k) as -> by (by eapply Hinj). done.
Qed.

Lemma fill_flags_lookup sf keys acc n :
  fill_flags sf keys acc !! n =
  match acc !! n with Some f => Some f | None => if bool_decide (n ∈ keys) then Some (default 0 (sf !! n)) else None end.
Proof.
  unfold fill_flags. revert acc. induction keys as [|k keys IH]; intros acc; cbn [fold_left].
  - rewrite bool_decide_false by apply not_elem_of_nil. by destruct (acc !! n).
  - rewrite IH. destruct (acc !! k) eqn:Ek.
    + destruct (acc !! n) eqn:En; [done|]. assert (n <> k) by congruence. rewrite (bool_decide_ext (n ∈ keys) (n ∈ k :: keys)); [done|]. rewrite elem_of_cons. naive_solver.
    + destruct (decide (n = k)) as [->|Hne].
      * rewrite lookup_insert_eq, Ek. by rewrite bool_decide_true by apply list_elem_of_here.
      * rewrite lookup_insert_ne by done. destruct (acc !! n); [done|]. rewrite (bool_decide_ext (n ∈ keys) (n ∈ k :: keys)); [done|]. rewrite elem_of_cons. naive_solver.
Qed.

(** Own flags follow their windows; what nobody claims takes the source's. *)
Lemma remap_spec pw pf sw sf m :
  (forall k, is_Some (pf !! k) <-> is_Some (pw !! k)) ->
  let a := synchronized_indices pw sw m in
  let flags := remap_local_winlink_alert_flags pw pf sw sf m in
  (forall i n, assigned a !! i = Some n -> flags !! n = pf !! i) /\
  (forall n, (forall i, assigned a !! i <> Some n) -> flags !! n = if bool_decide (is_Some (sw !! n)) then Some (default 0 (sf !! n)) else None) /\
  (forall k, is_Some (flags !! k) <-> is_Some (sw !! k)).
Proof.
  intros Hpf a flags. pose proof (synchronized_indices_ok pw sw m) as [A1 A2 A3]. fold a in A1, A2, A3.
  assert (forall n, flags !! n = match move_flags a pf (sorted_keys pf) ∅ !! n with Some f => Some f
    | None => if bool_decide (n ∈ sorted_keys sw) then Some (default 0 (sf !! n)) else None end) as Hflags by (intros n; apply fill_flags_lookup).
  assert (forall i n, assigned a !! i = Some n -> flags !! n = pf !! i /\ is_Some (pf !! i)) as Hmoved.
  { intros i n Hi. destruct (A1 i n Hi) as (id & Hp & _). apply id_at_has, Hpf in Hp as [f Hf].
    rewrite Hflags, (move_flags_moved a pf (sorted_keys pf) ∅ i n f); [by rewrite Hf; eauto|done|apply NoDup_sorted_keys|apply elem_of_sorted_keys; by exists f|done|done]. }
  assert (forall n, (forall i, assigned a !! i <> Some n) -> flags !! n = if bool_decide (is_Some (sw !! n)) then Some (default 0 (sf !! n)) else None) as Hrest.
  { intros n Hn. rewrite Hflags, move_flags_other by done. rewrite lookup_empty. by rewrite (bool_decide_ext _ _ (elem_of_sorted_keys n sw)). }
  split_and!; [intros i n Hi; by apply Hmoved|done|]. intros k.
  destruct (decide (Exists (fun i => assigned a !! i = Some k) (sorted_keys pw))) as [(i & _ & Hi)%Exists_exists|Hno].
  - destruct (Hmoved i k Hi) as [-> Hs]. destruct (A1 i k Hi) as (id & _ & Hid%id_at_has). done.
  - rewrite Hrest; [case_bool_decide; [split; [done|by intros _; eexists]|split; [by intros []|done]]|]. intros i Hi. apply Hno, Exists_exists. exists i. split; [|done].
    destruct (A1 i k Hi) as (id & Hp%id_at_has & _). by apply elem_of_sorted_keys.
Qed.

(** ** The selection after synchronizing *)

Lemma window_index_for_id_Some m id p k : window_index_for_id m id p = Some k -> id_at m k = Some id.
Proof.
  unfold window_index_for_id. destruct (has_id m id p) eqn:E; [intros [= <-]; by apply has_id_true|].
  destruct (filter _ (sorted_keys m)) as [|x [|y l]] eqn:Ef; try done. intros [= <-].
  assert (x ∈ filter (fun k => has_id m id k = true) (sorted_keys m)) as Hx by (rewrite Ef; apply list_elem_of_here).
  apply list_elem_of_filter in Hx as [Hx _]. by apply has_id_true.
Qed.

Lemma synchronized_active_ok m a l k :
  is_Some (m !! k) -> exists j, synchronized_active_window m a l = Some j /\ is_Some (m !! j).
Proof.
  intros Hk. unfold synchronized_active_window. case_bool_decide as Ha; [by eauto|]. fold (usable_last a m l). destruct (usable_last a m l) as [j|] eqn:E.
  - apply usable_last_Some in E as [E _]. by eauto.
  - destruct (cyclic_previous_ok m a k Hk) as (j & -> & Hj & _); [intros ->; done|]. by eauto.
Qed.

Lemma synchronize_windows_ok source active last m s :
  session_ok s -> session_ok source -> has_window active source ->
  (forall l, last = Some l -> has_window l source /\ l <> active) ->
  session_ok (synchronize_group_windows source active last m s).
Proof.
  intros Hok [H1 H2 H3 H4 H5] Ha Hl. unfold synchronize_group_windows. cbv zeta. set (flags := remap_local_winlink_alert_flags _ _ _ _ _).
  destruct (remap_spec (windows s) (winlink_alert_flags s) (windows source) (winlink_alert_flags source) m (ses_flags s Hok)) as (_ & _ & Hdom).
  fold flags in Hdom. split; try done. intros l El. by destruct (Hl l El).
Qed.

Lemma synchronize_group_from_spec source m s :
  session_ok s -> session_ok source ->
  exists s', synchronize_group_from source m s = Some s' /\ session_ok s' /\ windows s' = windows source /\
    winlink_alert_flags s' = remap_local_winlink_alert_flags (windows s) (winlink_alert_flags s) (windows source) (winlink_alert_flags source) m /\
    (forall id k, id_at (windows s) (active_window s) = Some id -> window_index_for_id (windows source) id (active_window s) = Some k ->
       active_window s' = k) /\
    (is_Some (windows source !! active_window s) ->
       (forall id, id_at (windows s) (active_window s) = Some id -> window_index_for_id (windows source) id (active_window s) = None) ->
       active_window s' = active_window s).
Proof.
  intros Hok Hsrc. unfold synchronize_group_from. cbv zeta.
  assert (exists active, match (id ← id_at (windows s) (active_window s); window_index_for_id (windows source) id (active_window s)) with
    | Some k => Some k | None => synchronized_active_window (windows source) (active_window s) (last_window s) end = Some active /\ has_window active source /\
    (forall id k, id_at (windows s) (active_window s) = Some id -> window_index_for_id (windows source) id (active_window s) = Some k -> active = k) /\
    (is_Some (windows source !! active_window s) ->
       (forall id, id_at (windows s) (active_window s) = Some id -> window_index_for_id (windows source) id (active_window s) = None) -> active = active_window s))
    as (active & -> & Hact & Hsame & Hstay).
  { pose proof (ses_active s Hok) as [w Hw]. unfold id_at. rewrite Hw. cbn [fmap option_fmap option_map mbind option_bind].
    destruct (window_index_for_id (windows source) (win_id w) (active_window s)) as [k|] eqn:E.
    - exists k. split_and!; [done|unfold has_window; eapply id_at_has; by eapply window_index_for_id_Some|intros id k' [= <-]; congruence|].
      intros _ Hno. specialize (Hno _ eq_refl). congruence.
    - destruct (synchronized_active_ok (windows source) (active_window s) (last_window s) (active_window source) (ses_active _ Hsrc)) as (j & Ej & Hj).
      exists j. split_and!; [done|done|intros id k [= <-]; congruence|]. intros Hs _. unfold synchronized_active_window in Ej. rewrite bool_decide_true in Ej by done. congruence. }
  cbn [mbind option_bind]. eexists. split; [done|]. match goal with |- context [synchronize_group_windows _ _ ?l _ _] => set (last := l) end.
  split_and!; try done. apply synchronize_windows_ok; [done|done|done|]. intros l. unfold last.
  destruct (l0 ← last_window s; id ← id_at (windows s) l0; k ← window_index_for_id (windows source) id l0; if negb (k =? active) then Some k else None) as [k|] eqn:Ek.
  - intros [= <-]. destruct (last_window s) as [l0|]; [|done]. cbn in Ek. destruct (id_at (windows s) l0) as [id|]; [|done]. cbn in Ek.
    destruct (window_index_for_id (windows source) id l0) as [k'|] eqn:Ew; [|done]. cbn in Ek. destruct (Z.eqb_spec k' active); [done|]. injection Ek as ->.
    split; [|done]. unfold has_window. eapply id_at_has. by eapply window_index_for_id_Some.
  - destruct (Z.eqb_spec (active_window s) active) as [|Hne]; [done|]. cbn [negb andb]. case_bool_decide; [|done]. by intros [= <-].
Qed.

Lemma synchronize_with_maps_ok source selection alerts s :
  session_ok s -> session_ok source ->
  exists s', synchronize_group_from_with_window_selection_and_winlink_alert_maps source selection alerts s = Some s' /\ session_ok s' /\
    windows s' = windows source.
Proof.
  intros Hok Hsrc. unfold synchronize_group_from_with_window_selection_and_winlink_alert_maps. cbv zeta.
  assert (exists active, (if bool_decide (is_Some (windows source !! default (active_window s) (selection !! active_window s)))
     then Some (default (active_window s) (selection !! active_window s))
     else synchronized_active_window (windows source) (active_window s) (last_window s)) = Some active /\ has_window active source) as (active & -> & Hact).
  { case_bool_decide; [by eauto|]. eapply synchronized_active_ok. apply (ses_active _ Hsrc). }
  cbn [mbind option_bind]. eexists. split; [done|]. split; [|done]. apply synchronize_windows_ok; [done|done|done|].
  intros l Hl. destruct (last_window s) as [x|]; [|done]. cbn in Hl. destruct (Z.eqb_spec (default x (selection !! x)) active); [done|]. cbn in Hl.
  case_bool_decide; [|done]. by injection Hl as <-.
Qed.

Lemma clone_ok name group id now token s : session_ok s -> session_ok (clone_as_group_member name group id now token s).
Proof. apply same_windows_ok; done. Qed.

Lemma unique_index m id p k :
  id_at m k = Some id -> (forall j, id_at m j = Some id -> j = k) -> window_index_for_id m id p = Some k.
Proof.
  intros Hk Hu. unfold window_index_for_id. destruct (has_id m id p) eqn:E; [apply has_id_true in E; by rewrite (Hu p E)|].
  assert (filter (fun k => has_id m id k = true) (sorted_keys m) = [k]) as ->; [|done].
  assert (forall x, x ∈ filter (fun k => has_id m id k = true) (sorted_keys m) <-> x = k) as Hin.
  { intros x. rewrite list_elem_of_filter, elem_of_sorted_keys, has_id_true. split; [intros [H _]; by apply Hu|]. intros ->. split; [done|by eapply id_at_has]. }
  pose proof (NoDup_filter (fun k => has_id m id k = true) _ (NoDup_sorted_keys m)) as Hn. revert Hin Hn.
  destruct (filter _ (sorted_keys m)) as [|x [|y l]]; intros Hin Hn.
  - exfalso. by apply (not_elem_of_nil k), Hin.
  - f_equal. apply Hin, list_elem_of_here.
  - exfalso. apply NoDup_cons in Hn as [Hx _]. apply Hx. rewrite (proj1 (Hin x)) by apply list_elem_of_here.
    rewrite (proj1 (Hin y)) by (apply list_elem_of_further, list_elem_of_here). apply list_elem_of_here.
Qed.

(** ** Properties *)

(** C25. Synchronizing a session with a member of its group takes over the group's
    windows and keeps the session consistent.  The session stays on its active
    window wherever the group has that window now, windows that did not move keep
    the session's own alert flags, and windows it did not have come with the
    flags of the source. *)
Theorem group_sync_follows_windows source s :
  session_ok s -> session_ok source ->
  exists s', synchronize_group_from source None s = Some s' /\ session_ok s' /\ windows s' = windows source /\
    (forall id k, id_at (windows s) (active_window s) = Some id -> id_at (windows source) k = Some id ->
       (forall j, id_at (windows source) j = Some id -> j = k) -> active_window s' = k) /\
    (forall i id, id_at (windows s) i = Some id -> id_at (windows source) i = Some id ->
       winlink_alert_flags s' !! i = winlink_alert_flags s !! i) /\
    (forall i id, id_at (windows source) i = Some id -> (forall j, id_at (windows s) j <> Some id) ->
       winlink_alert_flags s' !! i = Some (winlink_flags i source)).
Proof.
  intros Hok Hsrc. destruct (synchronize_group_from_spec source None s Hok Hsrc) as (s' & E & Hs' & W & F & A & _).
  destruct (remap_spec (windows s) (winlink_alert_flags s) (windows source) (winlink_alert_flags source) None (ses_flags s Hok)) as (R1 & R2 & _).
  exists s'. split_and!; try done.
  - intros id k Hid Hk Hu. eapply A; [done|]. by apply unique_index.
  - intros i id Hi Hj. rewrite F. apply R1. by eapply unmapped_exact.
  - intros i id Hi Hno. rewrite F, R2; [by rewrite bool_decide_true by (by eapply id_at_has)|]. intros j Hj.
    destruct (as_same _ _ _ (synchronized_indices_ok (windows s) (windows source) None) j i Hj) as (id' & H1 & H2). apply (Hno j). congruence.
Qed.

(** A peer that saw the three windows before window 1 moved to index 7. *)
Definition moved_windows : Session := sample (three_ops ++ [MoveWindow 1 7 false true]).

Lemma moved_windows_reachable : session_reachable false moved_windows.
Proof.
  apply (run_sample_reachable _ (three_ops ++ [MoveWindow 1 7 false true])); [apply sample_runs; vm_compute; by eexists|].
  intros [|[|[|[|k]]]] s0 _ op [= <-]; (split; [by vm_compute|done]).
Qed.

Lemma group_sync_follows_windows_witness :
  exists s', synchronize_group_from moved_windows None (clone_as_group_member "peer" "main" 1 9 1 three_windows) = Some s' /\
    active_window s' = 7 /\ winlink_alert_flags s' !! 0 = winlink_alert_flags three_windows !! 0.
Proof.
  destruct (group_sync_follows_windows moved_windows (clone_as_group_member "peer" "main" 1 9 1 three_windows)) as (s' & E & _ & _ & A & F & _).
  - apply clone_ok, three_windows_ok.
  - apply session_reachable_ok, moved_windows_reachable.
  - exists s'. split; [exact E|]. split.
    + eapply A; [vm_compute; reflexivity|vm_compute; reflexivity|]. intros j Hj. pose proof (id_at_has _ _ _ Hj) as Hk.
      apply elem_of_sorted_keys in Hk. assert (sorted_keys (windows moved_windows) = [0; 2; 7]) as Hkeys by (vm_compute; reflexivity).
      rewrite Hkeys in Hk. apply elem_of_cons in Hk as [->|Hk]; [vm_compute in Hj; congruence|]. apply elem_of_cons in Hk as [->|Hk]; [vm_compute in Hj; congruence|].
      by apply list_elem_of_singleton in Hk.
    + eapply (F 0); vm_compute; reflexivity.
Defined.
