(* ===== verification/SessionStore.v ===== *)
(** * The session store

    [SessionStore] of [crates/rmux-core/src/session/store.rs]: all sessions of the
    server by name, the counters for session, pane and window ids, and for each
    session group the session that owns the running panes.

    A [HashMap] is a [gmap]; where the code iterates over one it sorts, collects
    into a maximum or looks for a unique entry, so the order does not matter.  The
    clock and the recency tokens are arguments.  A panic is [None]. *)

From stdpp Require Import sorting strings.
From Stdlib Require Import Ascii.
From S2P Require Import Prelude Panes Text Errors Names LayoutCell LayoutTree LayoutNamed LayoutText.
From S2P Require Import LayoutShape Window WindowInv WindowOps WindowMove PaneTransfer WindowRun.
From S2P Require Import Session SessionInv SessionOps SessionTransfer SessionRun SessionGroups.

(** ** Order of names *)

Definition name_le (a b : string) : Prop := String.leb a b = true.

#[export] Instance name_le_dec a b : Decision (name_le a b).
Proof. unfold name_le. apply _. Defined.

(** ** Data *)

Record SessionStore := mkStore {
  sessions : gmap string Session;
  next_session_id : Z;
  store_next_pane_id : Z;
  next_window_id : Z;
  group_runtime_owners : gmap string string;
}.

Definition with_sessions (v : gmap string Session) (st : SessionStore) : SessionStore :=
  mkStore v (next_session_id st) (store_next_pane_id st) (next_window_id st) (group_runtime_owners st).

Definition with_next_session_id (v : Z) (st : SessionStore) : SessionStore :=
  mkStore (sessions st) v (store_next_pane_id st) (next_window_id st) (group_runtime_owners st).

Definition with_store_pane_id (v : Z) (st : SessionStore) : SessionStore :=
  mkStore (sessions st) (next_session_id st) v (next_window_id st) (group_runtime_owners st).

Definition with_next_window_id (v : Z) (st : SessionStore) : SessionStore :=
  mkStore (sessions st) (next_session_id st) (store_next_pane_id st) v (group_runtime_owners st).

Definition with_owners (v : gmap string string) (st : SessionStore) : SessionStore :=
  mkStore (sessions st) (next_session_id st) (store_next_pane_id st) (next_window_id st) v.

Definition store_new : SessionStore := mkStore ∅ 0 0 0 ∅.

(** Updates of one session. *)
Definition set_id (id : Z) (s : Session) : Session :=
  mkSession id (ses_name s) (group_name s) (terminal_size s) (windows s) (winlink_alert_flags s) (active_window s) (last_window s)
    (group_initial_window_id s) (next_pane_id s) (ses_created s) (ses_activity s) (last_attached_at s) (recency s) (cwd s).

Definition rename (name : string) (s : Session) : Session :=
  mkSession (ses_id s) name (group_name s) (terminal_size s) (windows s) (winlink_alert_flags s) (active_window s) (last_window s)
    (group_initial_window_id s) (next_pane_id s) (ses_created s) (ses_activity s) (last_attached_at s) (recency s) (cwd s).

Definition set_group_name (g : option string) (s : Session) : Session :=
  mkSession (ses_id s) (ses_name s) g (terminal_size s) (windows s) (winlink_alert_flags s) (active_window s) (last_window s)
    (group_initial_window_id s) (next_pane_id s) (ses_created s) (ses_activity s) (last_attached_at s) (recency s) (cwd s).

Definition renew_recency (token : Z) (s : Session) : Session :=
  mkSession (ses_id s) (ses_name s) (group_name s) (terminal_size s) (windows s) (winlink_alert_flags s) (active_window s) (last_window s)
    (group_initial_window_id s) (next_pane_id s) (ses_created s) (ses_activity s) (last_attached_at s) token (cwd s).

(** ** Looking up *)

Definition any_session (f : Session -> bool) (st : SessionStore) : bool := existsb (fun ns => f ns.2) (map_to_list (sessions st)).

Definition session_by_id (id : Z) (st : SessionStore) : option Session :=
  snd <$> List.find (fun ns => ses_id ns.2 =? id) (map_to_list (sessions st)).

Definition sessions_in_group (g : string) (st : SessionStore) : list string :=
  merge_sort name_le
    (omap (fun ns => if bool_decide (group_name ns.2 = Some g) then Some ns.1 else None) (map_to_list (sessions st))).

Definition session_group_name (name : string) (st : SessionStore) : option string := s ← sessions st !! name; group_name s.

Definition runtime_owner (name : string) (st : SessionStore) : option string :=
  s ← sessions st !! name;
  match group_name s with
  | Some g => group_runtime_owners st !! g
  | None => Some name
  end.

Definition runtime_owner_transfer_target (name : string) (st : SessionStore) : option string :=
  if negb (bool_decide (runtime_owner name st = Some name)) then None
  else
    g ← session_group_name name st;
    List.find (fun candidate => negb (bool_decide (candidate = name))) (sessions_in_group g st).

Definition session_group_members (name : string) (st : SessionStore) : list string :=
  match session_group_name name st with
  | None => [name]
  | Some g => sessions_in_group g st
  end.

Definition contains_group (g : string) (st : SessionStore) : bool :=
  bool_decide (is_Some (group_runtime_owners st !! g)) || any_session (fun s => bool_decide (group_name s = Some g)) st.

(** ** Allocating *)

(** The loop of [allocate_session_id]; one round more than there are sessions is
    enough. *)
Fixpoint allocate_session_loop (fuel : nat) (next : Z) (st : SessionStore) : option Z :=
  match fuel with
  | O => None
  | S fuel =>
      match session_by_id next st with
      | None => Some next
      | Some _ => if next =? u32_max then None else allocate_session_loop fuel (next + 1) st
      end
  end.

Definition allocate_session_id (st : SessionStore) : option (Z * SessionStore) :=
  id ← allocate_session_loop (S (size (sessions st))) (next_session_id st) st;
  Some (id, with_next_session_id (u32_sat_add id 1) st).

Definition store_allocate_pane_id (st : SessionStore) : Z * SessionStore :=
  (store_next_pane_id st, with_store_pane_id (u32_sat_add (store_next_pane_id st) 1) st).

Definition store_allocate_window_id (st : SessionStore) : option (Z * SessionStore) :=
  '(id, next) ← allocate_window_id (next_window_id st);
  Some (id, with_next_window_id next st).

(** [max().unwrap_or(..)] over a map's values. *)
Definition max_of (default : Z) (l : list Z) : Z :=
  match l with [] => default | x :: l => fold_left Z.max l x end.

Definition rebind_window_id_allocator (s : Session) (st : SessionStore) : SessionStore :=
  let next := max_of (next_window_id st) (map (fun kw => u32_sat_add (win_id kw.2) 1) (map_to_list (windows s))) in
  with_next_window_id (bump_window_ids next (next_window_id st)) st.

Definition bump_next_pane_id_from_session (s : Session) (st : SessionStore) : SessionStore :=
  let next := max_of (store_next_pane_id st)
                (map (fun id => u32_sat_add id 1) (concat (map (fun kw => map pane_id (panes kw.2)) (map_to_list (windows s))))) in
  with_store_pane_id (Z.max (store_next_pane_id st) next) st.

(** ** Names *)

Definition automatic_name (prefix : option string) (id : Z) : option string :=
  match session_name_new (string_of (match prefix with Some p => text_of p ++ text_of "-" | None => [] end ++ dec id)) with
  | Ok name => Some name
  | Err _ => None
  end.

Fixpoint automatic_loop (fuel : nat) (prefix : option string) (id : Z) (st : SessionStore) : option (string * Z) :=
  match fuel with
  | O => None
  | S fuel =>
      name ← automatic_name prefix id;
      match sessions st !! name with
      | None => Some (name, id)
      | Some _ => if id =? u32_max then None else automatic_loop fuel prefix (id + 1) st
      end
  end.

Definition next_automatic_session_identity (prefix : option string) (st : SessionStore) : option (string * Z) :=
  automatic_loop (S (size (sessions st))) prefix (next_session_id st) st.

Fixpoint grouped_name_loop (fuel : nat) (g : string) (suffix : Z) (st : SessionStore) : option string :=
  match fuel with
  | O => None
  | S fuel =>
      name ← automatic_name (Some g) suffix;
      match sessions st !! name with
      | None => Some name
      | Some _ => if suffix =? u32_max then None else grouped_name_loop fuel g (suffix + 1) st
      end
  end.

Definition next_grouped_session_name (g : string) (st : SessionStore) : option string :=
  grouped_name_loop (S (size (sessions st))) g 1 st.

(** ** Creating sessions *)

Definition id_exists (id : Z) : RmuxError := Server (string_of (text_of "session id " ++ dec id ++ text_of " already exists")).

Definition claim_session_id (id : Z) (st : SessionStore) : SessionStore :=
  with_next_session_id (Z.max (next_session_id st) (u32_sat_add id 1)) st.

(** A session with one new window and one new pane. *)
Definition fresh_session (name : string) (size : TerminalSize) (base_index id now token : Z) (st : SessionStore)
  : option (Session * SessionStore) :=
  let '(pid, st) := store_allocate_pane_id st in
  '(wid, st) ← store_allocate_window_id st;
  s ← new_with_initial_window name size base_index pid wid now token;
  let st := rebind_window_id_allocator s st in
  Some (set_id id s, claim_session_id id st).

Definition create_session_with_base_index_and_id (name : string) (size : TerminalSize) (base_index id now token : Z) (st : SessionStore)
  : option (result unit RmuxError * SessionStore) :=
  if bool_decide (is_Some (sessions st !! name)) then Some (Err (DuplicateSession name), st)
  else if bool_decide (is_Some (session_by_id id st)) then Some (Err (id_exists id), st)
  else
    '(s, st) ← fresh_session name size base_index id now token st;
    Some (Ok tt, with_sessions (<[name := s]> (sessions st)) st).

Definition create_session_with_base_index (name : string) (size : TerminalSize) (base_index now token : Z) (st : SessionStore)
  : option (result unit RmuxError * SessionStore) :=
  '(id, st) ← allocate_session_id st;
  create_session_with_base_index_and_id name size base_index id now token st.

Definition create_auto_named_session_with_base_index (size : TerminalSize) (base_index now token : Z) (st : SessionStore)
  : option (result string RmuxError * SessionStore) :=
  '(name, id) ← next_automatic_session_identity None st;
  '(r, st) ← create_session_with_base_index_and_id name size base_index id now token st;
  Some (match r with Err e => Err e | Ok _ => Ok name end, st).

Record GroupedSessionCreation := mkGroupedCreation {
  created_session : string;
  created_group : string;
  template_session : option string;
  created_owner : string;
}.

Inductive GroupTemplate :=
| ExistingTemplate (group template owner : string)
| StandaloneTemplate (group : string).

Definition no_template (g : string) : RmuxError :=
  Server (string_of (text_of "session group " ++ text_of g ++ text_of " has no template session")).

Definition group_template (target : string) (st : SessionStore) : result GroupTemplate RmuxError :=
  match sessions st !! target with
  | Some source =>
      let g := default target (group_name source) in
      Ok (ExistingTemplate g target (default target (group_runtime_owners st !! g)))
  | None =>
      match group_runtime_owners st !! target with
      | Some owner =>
          if bool_decide (is_Some (sessions st !! owner)) then Ok (ExistingTemplate target owner owner)
          else
            match head (sessions_in_group target st) with
            | Some template => Ok (ExistingTemplate target template owner)
            | None => Err (no_template target)
            end
      | None => Ok (StandaloneTemplate target)
      end
  end.

(** The first session of a group makes the group its own. *)
Definition adopt_template (g template : string) (st : SessionStore) : option SessionStore :=
  source ← sessions st !! template;
  match group_name source with
  | Some _ => Some st
  | None =>
      let st := with_sessions (<[template := set_group_name (Some g) source]> (sessions st)) st in
      Some (match group_runtime_owners st !! g with
            | Some _ => st
            | None => with_owners (<[g := template]> (group_runtime_owners st)) st
            end)
  end.

Definition create_grouped_session_with_base_index_and_id (name : string) (size : TerminalSize) (base_index : Z) (target : string)
    (id now token : Z) (st : SessionStore) : option (result GroupedSessionCreation RmuxError * SessionStore) :=
  if bool_decide (is_Some (sessions st !! name)) then Some (Err (DuplicateSession name), st)
  else if bool_decide (is_Some (session_by_id id st)) then Some (Err (id_exists id), st)
  else
    match group_template target st with
    | Err e => Some (Err e, st)
    | Ok (ExistingTemplate g template owner) =>
        st ← adopt_template g template st;
        source ← sessions st !! template;
        let peer := clone_as_group_member name g id now token source in
        Some (Ok (mkGroupedCreation name g (Some template) owner),
              claim_session_id id (with_sessions (<[name := peer]> (sessions st)) st))
    | Ok (StandaloneTemplate g) =>
        '(s, st) ← fresh_session name size base_index id now token st;
        Some (Ok (mkGroupedCreation name g None name),
              with_owners (<[g := name]> (group_runtime_owners st))
                (with_sessions (<[name := set_group_name (Some g) s]> (sessions st)) st))
    end.

Definition create_grouped_session_with_base_index (name : string) (size : TerminalSize) (base_index : Z) (target : string)
    (now token : Z) (st : SessionStore) : option (result GroupedSessionCreation RmuxError * SessionStore) :=
  '(id, st) ← allocate_session_id st;
  create_grouped_session_with_base_index_and_id name size base_index target id now token st.

Definition create_auto_grouped_session_with_base_index (size : TerminalSize) (base_index : Z) (target : string) (now token : Z)
    (st : SessionStore) : option (result GroupedSessionCreation RmuxError * SessionStore) :=
  let g := default target (s ← sessions st !! target; group_name s) in
  '(name, id) ← next_automatic_session_identity (Some g) st;
  create_grouped_session_with_base_index_and_id name size base_index target id now token st.

(** ** Removing, renaming and handing back *)

Definition repair_group_runtime_owner (g : option string) (st : SessionStore) : option SessionStore :=
  match g with
  | None => Some st
  | Some g =>
      let members := sessions_in_group g st in
      match members with
      | [] => Some (with_owners (delete g (group_runtime_owners st)) st)
      | first :: _ =>
          let owner :=
            match (o ← group_runtime_owners st !! g; if bool_decide (o ∈ members) then Some o else None) with
            | Some o => o
            | None => first
            end in
          Some (with_owners (<[g := owner]> (group_runtime_owners st)) st)
      end
  end.

Definition remove_session (name : string) (st : SessionStore) : option (result Session RmuxError * SessionStore) :=
  match sessions st !! name with
  | None => Some (Err (SessionNotFound name), st)
  | Some removed =>
      st ← repair_group_runtime_owner (group_name removed) (with_sessions (delete name (sessions st)) st);
      Some (Ok removed, st)
  end.

Definition with_extracted_session_pair {T} (first second : string) (mutate : Session -> Session -> option (T * Session * Session))
    (st : SessionStore) : option (result T RmuxError * SessionStore) :=
  if bool_decide (first = second) then Some (Err (Server "paired session mutation requires distinct sessions"), st)
  else
    match sessions st !! first, sessions st !! second with
    | None, _ => Some (Err (SessionNotFound first), st)
    | _, None => Some (Err (SessionNotFound second), st)
    | Some a, Some b =>
        '(r, a, b) ← mutate a b;
        Some (Ok r, with_sessions (<[second := b]> (<[first := a]> (delete second (delete first (sessions st))))) st)
    end.

Definition insert_existing_session (s : Session) (token : Z) (st : SessionStore) : option (result unit RmuxError * SessionStore) :=
  let name := ses_name s in
  if bool_decide (is_Some (sessions st !! name)) then Some (Err (DuplicateSession name), st)
  else
    '(s, st) ←
      (if any_session (fun e => ses_id e =? ses_id s) st then '(id, st) ← allocate_session_id st; Some (set_id id s, st)
       else Some (s, st));
    let s := if any_session (fun e => recency e =? recency s) st then renew_recency token s else s in
    let st := bump_next_pane_id_from_session s (claim_session_id (ses_id s) (rebind_window_id_allocator s st)) in
    let st :=
      match group_name s with
      | None => st
      | Some g =>
          let keep :=
            match group_runtime_owners st !! g with
            | Some owner => bool_decide (is_Some (sessions st !! owner)) || bool_decide (owner = name)
            | None => false
            end in
          if keep then st else with_owners (<[g := name]> (group_runtime_owners st)) st
      end in
    Some (Ok tt, with_sessions (<[name := s]> (sessions st)) st).

Definition rename_session (name new_name : string) (st : SessionStore) : option (result unit RmuxError * SessionStore) :=
  match sessions st !! name with
  | None => Some (Err (SessionNotFound name), st)
  | Some s =>
      if bool_decide (is_Some (sessions st !! new_name)) then Some (Err (DuplicateSession new_name), st)
      else
        let owners :=
          match group_name s with
          | Some g => if bool_decide (group_runtime_owners st !! g = Some name) then <[g := new_name]> (group_runtime_owners st) else group_runtime_owners st
          | None => group_runtime_owners st
          end in
        Some (Ok tt, with_owners owners (with_sessions (<[new_name := rename new_name s]> (delete name (sessions st))) st))
  end.

(** ** The order of names is total *)

Lemma ascii_compare_eq a b : Ascii.compare a b = Eq -> a = b.
Proof. unfold Ascii.compare. intros H%N.compare_eq. by rewrite <- (ascii_N_embedding a), H, ascii_N_embedding. Qed.

Lemma string_compare_refl a : String.compare a a = Eq.
Proof. induction a as [|x a IH]; cbn; [done|]. unfold Ascii.compare. by rewrite N.compare_refl. Qed.

Lemma name_lt_trans a b c : String.compare a b = Lt -> String.compare b c = Lt -> String.compare a c = Lt.
Proof.
  revert b c. induction a as [|x a IH]; intros [|y b] [|z c]; cbn; try done.
  destruct (Ascii.compare x y) eqn:Exy; try done; destruct (Ascii.compare y z) eqn:Eyz; try done; intros H1 H2.
  - apply ascii_compare_eq in Exy, Eyz. subst. unfold Ascii.compare. rewrite N.compare_refl. by eapply IH.
  - apply ascii_compare_eq in Exy. subst. by rewrite Eyz.
  - apply ascii_compare_eq in Eyz. subst. by rewrite Exy.
  - unfold Ascii.compare in *. rewrite N.compare_lt_iff in Exy, Eyz. rewrite (proj2 (N.compare_lt_iff _ _)); [done|lia].
Qed.

#[export] Instance name_le_total_order : TotalOrder name_le.
Proof.
  assert (forall a b, name_le a b <-> a = b \/ String.compare a b = Lt) as Hle.
  { intros a b. unfold name_le, String.leb. destruct (String.compare a b) eqn:E; split; try naive_solver.
    - intros _. left. by apply String.compare_eq_iff.
    - intros [->|?]; [|done]. by rewrite string_compare_refl in E. }
  split; [split; [split|]|].
  - intros a. apply Hle. by left.
  - intros a b c [->|H1]%Hle [->|H2]%Hle; apply Hle; [by left|by right|by right|right; by eapply name_lt_trans].
  - intros a b. apply String.leb_antisym.
  - intros a b. destruct (String.compare a b) eqn:E.
    + right. left. by apply String.compare_eq_iff.
    + left. split; [apply Hle; by right|]. intros [->|H]%Hle; [by rewrite string_compare_refl in E|]. by rewrite String.compare_antisym, E in H.
    + right. right. rewrite String.compare_antisym in E. destruct (String.compare b a) eqn:E'; try done.
      split; [apply Hle; by right|]. intros [->|H]%Hle; [by rewrite string_compare_refl in E'|]. by rewrite String.compare_antisym, E' in H.
Qed.

(** ** Members of a group *)

Definition in_group (g name : string) (st : SessionStore) : Prop := exists s, sessions st !! name = Some s /\ group_name s = Some g.

Lemma elem_of_group g name st : name ∈ sessions_in_group g st <-> in_group g name st.
Proof.
  unfold sessions_in_group, in_group. rewrite (merge_sort_Permutation name_le), list_elem_of_omap. split.
  - intros ([n s] & Hs%elem_of_map_to_list & H). cbn in H. case_bool_decide; [|done]. injection H as ->. by eauto.
  - intros (s & Hs & Hg). exists (name, s). split; [by apply elem_of_map_to_list|]. cbn. by rewrite bool_decide_true.
Qed.

Lemma group_sorted g st : Sorted name_le (sessions_in_group g st).
Proof. apply (Sorted_merge_sort name_le). Qed.

Lemma NoDup_group g st : NoDup (sessions_in_group g st).
Proof.
  unfold sessions_in_group. rewrite (merge_sort_Permutation name_le). pose proof (NoDup_fst_map_to_list (sessions st)) as Hn.
  induction (map_to_list (sessions st)) as [|[n s] l IH]; [constructor|]. cbn in Hn. apply NoDup_cons in Hn as [Hx Hn]. cbn [omap list_omap fst snd].
  case_bool_decide; [|by apply IH]. constructor; [|by apply IH]. contradict Hx. apply list_elem_of_omap in Hx as ([m t] & Ht & H'). cbn in H'.
  case_bool_decide; [|done]. injection H' as ->. apply list_elem_of_fmap. by exists (n, t).
Qed.

(** ** The invariant *)

Record store_ok (st : SessionStore) : Prop := {
  st_names : forall n s, sessions st !! n = Some s -> ses_name s = n;
  st_sessions : forall n s, sessions st !! n = Some s -> session_ok s;
  st_ids : forall n1 n2 s1 s2, sessions st !! n1 = Some s1 -> sessions st !! n2 = Some s2 -> ses_id s1 = ses_id s2 -> n1 = n2;
  st_recency : forall n1 n2 s1 s2, sessions st !! n1 = Some s1 -> sessions st !! n2 = Some s2 -> recency s1 = recency s2 -> n1 = n2;
  st_owner : forall g o, group_runtime_owners st !! g = Some o -> in_group g o st;
  st_grouped : forall g n, in_group g n st -> is_Some (group_runtime_owners st !! g);
}.

Lemma session_by_id_None id st : session_by_id id st = None <-> forall n s, sessions st !! n = Some s -> ses_id s <> id.
Proof.
  unfold session_by_id. destruct (List.find _ _) as [[n s]|] eqn:E; cbn; split; try done.
  - apply List.find_some in E as [Hin%list_elem_of_In%elem_of_map_to_list Hid%Z.eqb_eq]. intros H. by apply H in Hin.
  - intros _ n s Hs Hid. eapply List.find_none in E; [|by apply list_elem_of_In, elem_of_map_to_list, Hs]. cbn in E. lia.
Qed.

Lemma any_session_false f st : any_session f st = false <-> forall n s, sessions st !! n = Some s -> f s = false.
Proof.
  unfold any_session. rewrite <- not_true_iff_false, existsb_exists. split.
  - intros H n s Hs. apply not_true_iff_false. intros Hf. apply H. exists (n, s). split; [by apply list_elem_of_In, elem_of_map_to_list|done].
  - intros H ([n s] & Hs%list_elem_of_In%elem_of_map_to_list & Hf). cbn in Hf. by rewrite (H n s Hs) in Hf.
Qed.

(** Only the map of sessions and the owners matter. *)
Lemma store_ok_same st st' :
  sessions st' = sessions st -> group_runtime_owners st' = group_runtime_owners st -> store_ok st -> store_ok st'.
Proof.
  intros Es Eo [H1 H2 H3 H4 H5 H6]. split; unfold in_group in *; rewrite ?Es, ?Eo; done.
Qed.

(** A session with a new name, id and token joins. *)
Definition joins (name : string) (s : Session) (st : SessionStore) : Prop :=
  sessions st !! name = None /\ ses_name s = name /\ session_ok s /\
  (forall n s', sessions st !! n = Some s' -> ses_id s' <> ses_id s /\ recency s' <> recency s).

Lemma in_group_insert g n name s st :
  sessions st !! name = None ->
  in_group g n (with_sessions (<[name := s]> (sessions st)) st) <-> (n = name /\ group_name s = Some g) \/ in_group g n st.
Proof.
  intros Hn. unfold in_group. cbn. split.
  - intros (s' & [[<- <-]|[Hne Hs]]%lookup_insert_Some & Hg); [by left|right; by eauto].
  - intros [[-> Hg]|(s' & Hs & Hg)]; [exists s; by rewrite lookup_insert_eq|]. exists s'. split; [|done]. rewrite lookup_insert_ne; [done|congruence].
Qed.

Lemma insert_ok name s owners st :
  store_ok st -> joins name s st ->
  (forall g o, owners !! g = Some o -> in_group g o (with_sessions (<[name := s]> (sessions st)) st)) ->
  (forall g, is_Some (group_runtime_owners st !! g) \/ group_name s = Some g -> is_Some (owners !! g)) ->
  store_ok (with_owners owners (with_sessions (<[name := s]> (sessions st)) st)).
Proof.
  intros [H1 H2 H3 H4 H5 H6] (J1 & J2 & J3 & J4) Ho Hg. split; cbn.
  - intros n s' [[<- <-]|[_ Hs]]%lookup_insert_Some; [done|by apply H1].
  - intros n s' [[<- <-]|[_ Hs]]%lookup_insert_Some; [done|by eapply H2].
  - intros n1 n2 s1 s2 [[<- <-]|[N1 S1]]%lookup_insert_Some [[<- <-]|[N2 S2]]%lookup_insert_Some E; [done| | |by eapply H3].
    + by destruct (J4 n2 s2 S2) as [? _].
    + by destruct (J4 n1 s1 S1) as [? _].
  - intros n1 n2 s1 s2 [[<- <-]|[N1 S1]]%lookup_insert_Some [[<- <-]|[N2 S2]]%lookup_insert_Some E; [done| | |by eapply H4].
    + by destruct (J4 n2 s2 S2) as [_ ?].
    + by destruct (J4 n1 s1 S1) as [_ ?].
  - intros g o Hgo. exact (Ho g o Hgo).
  - intros g n Hn. apply Hg. apply in_group_insert in Hn as [[_ Hgn]|Hn]; [by right|left; by eapply H6|done].
Qed.

(** ** Allocating ids *)

Lemma allocate_session_spec st :
  next_session_id st + Z.of_nat (size (sessions st)) <= u32_max ->
  exists id, allocate_session_id st = Some (id, with_next_session_id (u32_sat_add id 1) st) /\ session_by_id id st = None /\ next_session_id st <= id.
Proof.
  intros Hn. unfold allocate_session_id.
  assert (forall fuel next, match allocate_session_loop fuel next st with
    | Some id => next <= id /\ session_by_id id st = None
    | None => exists n, (forall k, next <= k < next + Z.of_nat n -> exists m s, sessions st !! m = Some s /\ ses_id s = k) /\ (n = fuel \/ next + Z.of_nat n = u32_max + 1) end) as Hloop.
  { induction fuel as [|fuel IH]; intros next; cbn [allocate_session_loop]; [exists 0%nat; split; [lia|by left]|].
    destruct (session_by_id next st) as [s|] eqn:E; [|split; [lia|done]].
    assert (exists m s, sessions st !! m = Some s /\ ses_id s = next) as Htaken.
    { unfold session_by_id in E. destruct (List.find _ _) as [[m t]|] eqn:Ef; [|done]. apply List.find_some in Ef as [Hin%list_elem_of_In%elem_of_map_to_list Hid%Z.eqb_eq]. by exists m, t. }
    destruct (Z.eqb_spec next u32_max) as [->|Hne].
    - exists 1%nat. split; [|right; lia]. intros k Hk. by replace k with u32_max by lia.
    - specialize (IH (next + 1)). destruct (allocate_session_loop fuel (next + 1) st) as [id|]; [destruct IH; split; [lia|done]|].
      destruct IH as (n & Ha & Hn'). exists (S n). split; [|destruct Hn' as [->|Hn']; [by left|right; lia]].
      intros k Hk. destruct (decide (k = next)) as [->|]; [done|apply Ha; lia]. }
  specialize (Hloop (S (size (sessions st))) (next_session_id st)). destruct (allocate_session_loop _ _ _) as [id|].
  - exists id. cbn. by destruct Hloop.
  - exfalso. destruct Hloop as (n & Ha & Hcase).
    assert (n <= size (sessions st))%nat as Hbound; [|destruct Hcase as [->|]; lia].
    rewrite <- length_map_to_list, <- (length_map (fun ns => ses_id ns.2)). set (run := map (fun k => next_session_id st + Z.of_nat k) (seq 0 n)).
    replace n with (length run) by (unfold run; by rewrite length_map, length_seq). apply NoDup_incl_length.
    + apply NoDup_ListNoDup, NoDup_fmap_2; [intros a b; lia|apply NoDup_seq].
    + intros k Hk. apply in_map_iff in Hk as (j & <- & Hj%in_seq). destruct (Ha (next_session_id st + Z.of_nat j)) as (m & s & Hs & Hid); [lia|].
      apply in_map_iff. exists (m, s). split; [done|]. by apply list_elem_of_In, elem_of_map_to_list.
Qed.

(** ** Automatic names *)

Definition dash : text := text_of "-".

Definition name_prefix (prefix : option string) : text :=
  match prefix with Some p => sanitize_session_name (text_of p) ++ dash | None => [] end.

Lemma dash_inert : Forall inert dash.
Proof. repeat constructor; vm_compute; congruence. Qed.

Lemma dec_inert n : 0 <= n <= u32_max -> Forall inert (dec n).
Proof.
  intros Hn. destruct (dec_spec n) as (_ & Hd & _); [unfold u32_max, u64_max in *; lia|]. eapply Forall_impl; [exact Hd|]. apply digit_inert.
Qed.

(** The prefix is rewritten once more, the id is appended as it is. *)
Lemma automatic_name_eq prefix id :
  0 <= id <= u32_max -> automatic_name prefix id = Some (string_of (name_prefix prefix ++ dec id)).
Proof.
  intros Hid. unfold automatic_name, session_name_new. rewrite text_of_string_of. pose proof (dec_inert id Hid) as Hd.
  destruct (dec_spec id) as (Hne & _ & _); [unfold u32_max, u64_max in *; lia|].
  rewrite bool_decide_false by (intros [_ ?]%app_eq_nil; done). do 2 f_equal. unfold sanitize_session_name, name_prefix. destruct prefix as [p|].
  - unfold sanitize_session_name. fold dash. rewrite <- !app_assoc. rewrite sanitize_app; [done|apply Forall_app; split; [apply dash_inert|done]|lia].
  - cbn [app]. by apply sanitize_inert.
Qed.

Lemma automatic_name_inj prefix a b :
  0 <= a <= u32_max -> 0 <= b <= u32_max -> automatic_name prefix a = automatic_name prefix b -> a = b.
Proof.
  intros Ha Hb. rewrite !automatic_name_eq by done. intros [= H]. apply (f_equal text_of) in H. rewrite !text_of_string_of in H. apply app_inv_head in H.
  destruct (dec_spec a) as (_ & _ & <-); [unfold u32_max, u64_max in *; lia|]. destruct (dec_spec b) as (_ & _ & <-); [unfold u32_max, u64_max in *; lia|]. by rewrite H.
Qed.

Lemma automatic_loop_spec fuel prefix id st :
  0 <= id <= u32_max ->
  match automatic_loop fuel prefix id st with
  | Some (name, k) => id <= k <= u32_max /\ automatic_name prefix k = Some name /\ sessions st !! name = None
  | None => exists n, (forall k, id <= k < id + Z.of_nat n -> k <= u32_max /\ exists name, automatic_name prefix k = Some name /\ is_Some (sessions st !! name)) /\
      (n = fuel \/ id + Z.of_nat n = u32_max + 1)
  end.
Proof.
  revert id. induction fuel as [|fuel IH]; intros id Hid; cbn [automatic_loop]; [exists 0%nat; split; [lia|by left]|].
  rewrite (automatic_name_eq prefix id Hid). cbn [mbind option_bind]. set (name := string_of _).
  destruct (sessions st !! name) as [s|] eqn:Es; [|split_and!; [lia|lia|by apply automatic_name_eq|done]].
  assert (exists name, automatic_name prefix id = Some name /\ is_Some (sessions st !! name)) as Htaken by (exists name; split; [by apply automatic_name_eq|by exists s]).
  destruct (Z.eqb_spec id u32_max) as [->|Hne].
  - exists 1%nat. split; [|right; lia]. intros k Hk. replace k with u32_max by lia. split; [lia|done].
  - specialize (IH (id + 1) ltac:(lia)). destruct (automatic_loop fuel prefix (id + 1) st) as [[nm k]|]; [destruct IH as [? ?]; split; [lia|done]|].
    destruct IH as (n & Ha & Hn). exists (S n). split; [|destruct Hn as [->|Hn]; [by left|right; lia]].
    intros k Hk. destruct (decide (k = id)) as [->|]; [split; [lia|done]|apply Ha; lia].
Qed.

Lemma length_le_size {A} (l : list string) (m : gmap string A) : NoDup l -> (forall x, x ∈ l -> is_Some (m !! x)) -> (length l <= size m)%nat.
Proof.
  intros Hn Hl. rewrite <- size_dom. rewrite <- (size_list_to_set (C := gset string) l Hn). apply subseteq_size. intros x Hx%elem_of_list_to_set.
  by apply elem_of_dom, Hl.
Qed.

(** The search for an unused automatic name ends. *)
Lemma automatic_identity_spec prefix st :
  0 <= next_session_id st -> next_session_id st + Z.of_nat (size (sessions st)) <= u32_max ->
  exists name id, next_automatic_session_identity prefix st = Some (name, id) /\ next_session_id st <= id <= u32_max /\
    name = string_of (name_prefix prefix ++ dec id) /\ sessions st !! name = None.
Proof.
  intros H0 Hn. unfold next_automatic_session_identity. pose proof (automatic_loop_spec (S (size (sessions st))) prefix (next_session_id st) st ltac:(lia)) as H.
  destruct (automatic_loop _ _ _ _) as [[name id]|].
  - destruct H as (Hid & Hname & Hfree). exists name, id. split_and!; [done|lia|lia| |done]. rewrite automatic_name_eq in Hname by lia. congruence.
  - exfalso. destruct H as (n & Ha & Hcase). assert (n <= size (sessions st))%nat; [|destruct Hcase as [->|]; lia].
    set (f := fun k : nat => string_of (name_prefix prefix ++ dec (next_session_id st + Z.of_nat k))).
    replace n with (length (map f (seq 0 n))) by (by rewrite length_map, length_seq). apply length_le_size.
    + apply NoDup_ListNoDup, List.NoDup_map_NoDup_ForallPairs; [|apply NoDup_ListNoDup, NoDup_seq].
      intros a b Ha' Hb'. apply in_seq in Ha', Hb'. destruct (Ha (next_session_id st + Z.of_nat a)) as [La _]; [lia|]. destruct (Ha (next_session_id st + Z.of_nat b)) as [Lb _]; [lia|].
      intros E. assert (next_session_id st + Z.of_nat a = next_session_id st + Z.of_nat b); [|lia]. apply (automatic_name_inj prefix); [lia|lia|].
      rewrite !automatic_name_eq by lia. apply (f_equal Some). exact E.
    + intros x (k & -> & Hk)%list_elem_of_fmap. apply elem_of_seq in Hk. destruct (Ha (next_session_id st + Z.of_nat k)) as (Lk & name & E & Hs); [lia|].
      rewrite automatic_name_eq in E by lia. apply (inj Some) in E. rewrite <- E in Hs. exact Hs.
Qed.

(** ** Every operation keeps the store *)

Definition token_fresh (token : Z) (st : SessionStore) : Prop := forall n s, sessions st !! n = Some s -> recency s <> token.

Lemma fresh_session_ok name size base id now token st :
  in_u32 base -> at_fresh_id (next_window_id st) = true ->
  exists s st', fresh_session name size base id now token st = Some (s, st') /\ session_ok s /\ ses_name s = name /\ ses_id s = id /\
    recency s = token /\ group_name s = None /\ sessions st' = sessions st /\ group_runtime_owners st' = group_runtime_owners st.
Proof.
  intros Hb Hw. unfold fresh_session, store_allocate_pane_id, store_allocate_window_id. cbn [next_window_id with_store_pane_id].
  rewrite pane_allocation_ok by done. cbn [mbind option_bind]. unfold new_with_initial_window.
  destruct (new_session_ok (stale := false) name size base (store_next_pane_id st) (next_window_id st) now token Hb) as (s & E & Hs). unfold new_with_initial_window in E.
  destruct (window_new_with_initial_pane _ _ _ _) as [w|]; [|done]. cbn [mbind option_bind] in *. injection E as <-.
  eexists _, _. split; [done|]. split_and!; try done. by eapply same_windows_ok; [| | |exact Hs].
Qed.

Lemma with_owners_same st : with_owners (group_runtime_owners st) st = st.
Proof. by destruct st. Qed.

(** A session without a group leaves the groups alone. *)
Lemma insert_ungrouped_ok name s st :
  store_ok st -> joins name s st -> group_name s = None -> store_ok (with_sessions (<[name := s]> (sessions st)) st).
Proof.
  intros Hok HJ Hg. rewrite <- (with_owners_same (with_sessions _ st)). apply (insert_ok name s (group_runtime_owners st) st Hok HJ).
  - intros g o Ho. apply in_group_insert; [apply HJ|]. right. by apply (st_owner st Hok).
  - intros g [H|H]; [done|congruence].
Qed.

(** One that joins a group with an owner keeps the owner. *)
Lemma insert_peer_ok name s g st :
  store_ok st -> joins name s st -> group_name s = Some g -> is_Some (group_runtime_owners st !! g) ->
  store_ok (with_sessions (<[name := s]> (sessions st)) st).
Proof.
  intros Hok HJ Hg Ho. rewrite <- (with_owners_same (with_sessions _ st)). apply (insert_ok name s (group_runtime_owners st) st Hok HJ).
  - intros g' o Ho'. apply in_group_insert; [apply HJ|]. right. by apply (st_owner st Hok).
  - intros g' [H|H]; [done|congruence].
Qed.

(** One that starts or takes over a group owns it. *)
Lemma insert_owner_ok name s g st :
  store_ok st -> joins name s st -> group_name s = Some g ->
  store_ok (with_owners (<[g := name]> (group_runtime_owners st)) (with_sessions (<[name := s]> (sessions st)) st)).
Proof.
  intros Hok HJ Hg. apply (insert_ok name s _ st Hok HJ).
  - intros g' o [[<- <-]|[_ Ho']]%lookup_insert_Some; apply in_group_insert; try apply HJ; [by left|]. right. by apply (st_owner st Hok).
  - intros g' H. rewrite lookup_insert_is_Some'. destruct H as [H|H]; [by right|left; congruence].
Qed.

Lemma create_with_id_ok name size base id now token st :
  store_ok st -> in_u32 base -> at_fresh_id (next_window_id st) = true -> token_fresh token st ->
  exists r st', create_session_with_base_index_and_id name size base id now token st = Some (r, st') /\ store_ok st'.
Proof.
  intros Hok Hb Hw Ht. unfold create_session_with_base_index_and_id. case_bool_decide as En; [by eauto|]. case_bool_decide as Ei; [by eauto|].
  destruct (fresh_session_ok name size base id now token st Hb Hw) as (s & st1 & -> & Hs & N & I & R & G & E1 & E2). cbn [mbind option_bind].
  eexists _, _. split; [done|]. apply insert_ungrouped_ok; [by apply (store_ok_same st)| |done]. unfold joins. rewrite E1. split_and!; [by apply eq_None_not_Some|done|done|].
  intros n s' Hs'. split; [|rewrite R; by eapply Ht]. rewrite I. apply eq_None_not_Some in Ei. by eapply (proj1 (session_by_id_None id st)).
Qed.

Lemma group_template_ok target st g template owner :
  store_ok st -> group_template target st = Ok (ExistingTemplate g template owner) ->
  exists st' source', adopt_template g template st = Some st' /\ store_ok st' /\ sessions st' !! template = Some source' /\
    group_name source' = Some g /\ next_window_id st' = next_window_id st /\
    (forall n s', sessions st' !! n = Some s' -> exists s0, sessions st !! n = Some s0 /\ ses_id s' = ses_id s0 /\ recency s' = recency s0).
Proof.
  intros Hok. pose proof Hok as [H1 H2 H3 H4 H5 H6]. unfold group_template. destruct (sessions st !! target) as [source|] eqn:Es.
  - intros [= <- <- <-]. unfold adopt_template. rewrite Es. cbn [mbind option_bind]. destruct (group_name source) as [g|] eqn:Eg.
    { exists st, source. split_and!; try done. by eauto. }
    cbn [default]. set (st1 := with_sessions _ st).
    assert (forall g n, in_group g n st1 <-> (n = target /\ g = target) \/ in_group g n st) as Hin.
    { intros g n. unfold in_group, st1. cbn. split.
      - intros (s & [[<- <-]|[_ Hs]]%lookup_insert_Some & Hg); [left; cbn in Hg; naive_solver|right; by eauto].
      - intros [[-> ->]|(s & Hs & Hg)]; [eexists; by rewrite lookup_insert_eq|]. exists s. split; [|done]. rewrite lookup_insert_ne; [done|]. intros <-. congruence. }
    assert (forall n s', sessions st1 !! n = Some s' -> exists s0, sessions st !! n = Some s0 /\ ses_id s' = ses_id s0 /\ recency s' = recency s0 /\ ses_name s' = ses_name s0 /\ (session_ok s0 -> session_ok s')) as Hback.
    { unfold st1. cbn. intros n s' [[<- <-]|[_ Hs]]%lookup_insert_Some; [exists source; split_and!; try done; by apply same_windows_ok|exists s'; by split_and!]. }
    assert (forall owners, (forall g o, owners !! g = Some o -> in_group g o st1) -> (forall g, is_Some (group_runtime_owners st !! g) \/ g = target -> is_Some (owners !! g)) ->
      store_ok (with_owners owners st1)) as Hbuild.
    { intros owners Ho Hg. split.
      - intros n s (s0 & Hs0 & _ & _ & -> & _)%Hback. by apply H1.
      - intros n s (s0 & Hs0 & _ & _ & _ & Hk)%Hback. by eapply Hk, H2.
      - intros n1 n2 s1 s2 (x & X & -> & _)%Hback (y & Y & -> & _)%Hback E. by eapply H3.
      - intros n1 n2 s1 s2 (x & X & _ & -> & _)%Hback (y & Y & _ & -> & _)%Hback E. by eapply H4.
      - intros g o Hgo. exact (Ho g o Hgo).
      - intros g n [[-> ->]|Hn]%Hin; apply Hg; [by right|left; by eapply H6]. }
    destruct (group_runtime_owners st1 !! target) as [o|] eqn:Eo.
    + exists st1, (set_group_name (Some target) source). split_and!; try done; [| |].
      * rewrite <- (with_owners_same st1). apply Hbuild; [intros g o' Ho'; apply Hin; right; by apply H5|]. intros g [?| ->]; [done|by exists o].
      * unfold st1. cbn. by rewrite lookup_insert_eq.
      * intros n s' (s0 & ? & ? & ? & _)%Hback. by eauto.
    + eexists _, (set_group_name (Some target) source). split; [done|]. split_and!; try done.
      * apply Hbuild.
        -- intros g o [[<- <-]|[_ Ho]]%lookup_insert_Some; apply Hin; [by left|right; by apply H5].
        -- intros g Hg. rewrite lookup_insert_is_Some'. destruct Hg as [?| ->]; [by right|by left].
      * unfold st1. cbn. by rewrite lookup_insert_eq.
      * intros n s' (s0 & ? & ? & ? & _)%Hback. by eauto.
  - destruct (group_runtime_owners st !! target) as [o|] eqn:Eo; [|done]. destruct (H5 _ _ Eo) as (s & Hs & Hg).
    rewrite bool_decide_true by (by exists s). intros [= <- <- <-]. unfold adopt_template. rewrite Hs. cbn [mbind option_bind]. rewrite Hg.
    exists st, s. split_and!; try done. by eauto.
Qed.

Lemma create_grouped_with_id_ok name size base target id now token st :
  store_ok st -> in_u32 base -> at_fresh_id (next_window_id st) = true -> token_fresh token st ->
  exists r st', create_grouped_session_with_base_index_and_id name size base target id now token st = Some (r, st') /\ store_ok st'.
Proof.
  intros Hok Hb Hw Ht. unfold create_grouped_session_with_base_index_and_id. case_bool_decide as En; [by eauto|]. case_bool_decide as Ei; [by eauto|].
  apply eq_None_not_Some in En, Ei. pose proof (proj1 (session_by_id_None id st) Ei) as Hid.
  destruct (group_template target st) as [[g template owner|g]|e] eqn:Eg; [| |by eauto].
  - destruct (group_template_ok target st g template owner Hok Eg) as (st1 & source & -> & Hst1 & Hsrc & Hgrp & _ & Hback). cbn [mbind option_bind]. rewrite Hsrc. cbn [mbind option_bind].
    eexists _, _. split; [done|]. set (peer := clone_as_group_member _ _ _ _ _ _).
    apply (store_ok_same (with_sessions (<[name := peer]> (sessions st1)) st1)); [done|done|].
    apply (insert_peer_ok name peer g); [done| |done|].
    + split_and!; [|done|by apply clone_ok, (st_sessions st1 Hst1 template)|].
      * destruct (sessions st1 !! name) as [s'|] eqn:Es'; [|done]. destruct (Hback name s' Es') as (s0 & H0 & _). congruence.
      * intros n s' (s0 & H0 & -> & ->)%Hback. split; [by eapply Hid|by eapply Ht].
    + apply (st_grouped st1 Hst1 g template). by exists source.
  - destruct (fresh_session_ok name size base id now token st Hb Hw) as (s & st1 & -> & Hs & N & I & R & G & E1 & E2). cbn [mbind option_bind].
    eexists _, _. split; [done|]. apply insert_owner_ok; [by apply (store_ok_same st)| |done].
    unfold joins. rewrite E1. split_and!; [done|done|by apply (same_windows_ok s)|]. intros n s' Hs'. cbn. rewrite I, R. split; [by eapply Hid|by eapply Ht].
Qed.

(** *** Removing *)

Lemma in_group_delete g n name st :
  in_group g n (with_sessions (delete name (sessions st)) st) <-> n <> name /\ in_group g n st.
Proof. unfold in_group. cbn. setoid_rewrite lookup_delete_Some. naive_solver. Qed.

(** The owner after a removal: the same one, or the first member left. *)
Lemma repair_spec g st :
  exists st', repair_group_runtime_owner (Some g) st = Some st' /\ sessions st' = sessions st /\
    (forall g', g' <> g -> group_runtime_owners st' !! g' = group_runtime_owners st !! g') /\
    match sessions_in_group g st with
    | [] => group_runtime_owners st' !! g = None
    | first :: _ => exists o, group_runtime_owners st' !! g = Some o /\ in_group g o st /\
        (forall o', group_runtime_owners st !! g = Some o' -> in_group g o' st -> o = o') /\
        ((forall o', group_runtime_owners st !! g = Some o' -> ~ in_group g o' st) -> o = first)
    end.
Proof.
  unfold repair_group_runtime_owner. cbv zeta. pose proof (elem_of_group g) as Hel. destruct (sessions_in_group g st) as [|first rest] eqn:Em.
  - eexists. split; [done|]. split_and!; [done|intros g' Hg'; cbn; by rewrite lookup_delete_ne|cbn; by rewrite lookup_delete_eq].
  - eexists. split; [done|]. split_and!; [done|intros g' Hg'; cbn; by rewrite lookup_insert_ne|]. cbn. rewrite lookup_insert_eq. eexists. split; [done|].
    rewrite <- Em. destruct (group_runtime_owners st !! g) as [o'|] eqn:Eo; cbn [mbind option_bind].
    + case_bool_decide as Hin.
      * split_and!; [by apply Hel|by intros ? [= <-]|]. intros Hno. exfalso. eapply Hno; [done|]. by apply Hel.
      * split_and!; [apply Hel; rewrite Em; apply list_elem_of_here|intros ? [= <-] Hg; by apply Hel in Hg|done].
    + split_and!; [apply Hel; rewrite Em; apply list_elem_of_here|done|done].
Qed.

Lemma remove_session_ok name st : store_ok st -> exists r st', remove_session name st = Some (r, st') /\ store_ok st' /\
  match r with Err _ => st' = st /\ sessions st !! name = None | Ok s => sessions st !! name = Some s /\ sessions st' = delete name (sessions st) end.
Proof.
  intros Hok. pose proof Hok as [H1 H2 H3 H4 H5 H6]. unfold remove_session. destruct (sessions st !! name) as [s|] eqn:Es; [|by eexists _, st].
  set (st1 := with_sessions (delete name (sessions st)) st).
  assert (forall st', sessions st' = sessions st1 -> (forall g o, group_runtime_owners st' !! g = Some o -> in_group g o st1) ->
    (forall g n, in_group g n st1 -> is_Some (group_runtime_owners st' !! g)) -> store_ok st') as Hbuild.
  { intros st' Es' Ho Hg. unfold in_group in *. split; unfold in_group; rewrite ?Es'; try done; unfold st1; cbn.
    - intros n s' [_ Hs]%lookup_delete_Some. by apply H1.
    - intros n s' [_ Hs]%lookup_delete_Some. by eapply H2.
    - intros n1 n2 s1 s2 [_ S1]%lookup_delete_Some [_ S2]%lookup_delete_Some. by apply H3.
    - intros n1 n2 s1 s2 [_ S1]%lookup_delete_Some [_ S2]%lookup_delete_Some. by apply H4. }
  destruct (group_name s) as [g|] eqn:Eg.
  - destruct (repair_spec g st1) as (st' & -> & E1 & E2 & E3). cbn [mbind option_bind]. eexists _, st'. split; [done|]. split; [|by rewrite E1].
    assert (forall g' n, g' <> g -> in_group g' n st -> in_group g' n st1) as Hother.
    { intros g' n Hne (s' & Hs' & Hg'). apply in_group_delete. split; [|by exists s']. intros ->. congruence. }
    apply Hbuild; [done| |].
    + intros g' o Ho. destruct (decide (g' = g)) as [->|Hne]; [|rewrite E2 in Ho by done; by apply Hother, H5].
      destruct (sessions_in_group g st1); [congruence|]. destruct E3 as (o' & Eo' & Hin & _). congruence.
    + intros g' n Hn. destruct (decide (g' = g)) as [->|Hne].
      * apply elem_of_group in Hn. destruct (sessions_in_group g st1); [by apply not_elem_of_nil in Hn|]. destruct E3 as (o' & -> & _). by eexists.
      * rewrite E2 by done. apply in_group_delete in Hn as [_ Hn]. by eapply H6.
  - cbn [repair_group_runtime_owner mbind option_bind]. eexists _, st1. split; [done|]. split; [|done]. apply Hbuild; [done| |].
    + intros g o Ho. apply in_group_delete. destruct (H5 g o Ho) as (s' & Hs' & Hg'). split; [intros ->; congruence|by exists s'].
    + intros g n [_ Hn]%in_group_delete. by eapply H6.
Qed.

(** *** Renaming *)

Lemma rename_session_ok name new_name st : store_ok st -> exists r st', rename_session name new_name st = Some (r, st') /\ store_ok st' /\
  match r with
  | Err _ => st' = st
  | Ok _ => exists s, sessions st !! name = Some s /\ sessions st !! new_name = None /\
      sessions st' = <[new_name := rename new_name s]> (delete name (sessions st)) /\
      forall g, group_runtime_owners st' !! g = (fun o => if bool_decide (o = name) then new_name else o) <$> group_runtime_owners st !! g
  end.
Proof.
  intros Hok. pose proof Hok as [H1 H2 H3 H4 H5 H6]. unfold rename_session. destruct (sessions st !! name) as [s|] eqn:Es; [|by eexists _, st].
  case_bool_decide as En; [by eexists _, st|]. apply eq_None_not_Some in En. cbv zeta. eexists _, _. split; [done|].
  match goal with |- context [with_owners ?o _] => set (owners := o) end.
  assert (forall g, owners !! g = (fun o => if bool_decide (o = name) then new_name else o) <$> group_runtime_owners st !! g) as Ho.
  { intros g. assert (forall g', group_runtime_owners st !! g' = Some name -> group_name s = Some g') as Hown.
    { intros g' Hg'. destruct (H5 _ _ Hg') as (s' & Hs' & Hgn). congruence. }
    unfold owners. destruct (group_name s) as [gs|] eqn:Egs.
    - case_bool_decide as Eo.
      + destruct (decide (g = gs)) as [->|Hne]; [rewrite lookup_insert_eq, Eo; cbn; by rewrite bool_decide_true|]. rewrite lookup_insert_ne by done.
        destruct (group_runtime_owners st !! g) as [o|] eqn:Eg; [|done]. cbn. rewrite bool_decide_false; [done|]. intros ->. specialize (Hown _ Eg). congruence.
      + destruct (group_runtime_owners st !! g) as [o|] eqn:Eg; [|done]. cbn. rewrite bool_decide_false; [done|]. intros ->. specialize (Hown _ Eg). congruence.
    - destruct (group_runtime_owners st !! g) as [o|] eqn:Eg; [|done]. cbn. rewrite bool_decide_false; [done|]. intros ->. specialize (Hown _ Eg). congruence. }
  split; [|by exists s].
  set (st' := with_owners owners _).
  assert (forall n s', sessions st' !! n = Some s' -> exists n0 s0, sessions st !! n0 = Some s0 /\ ses_id s' = ses_id s0 /\ recency s' = recency s0 /\
     group_name s' = group_name s0 /\ (session_ok s0 -> session_ok s') /\ ses_name s' = n /\ n = (if bool_decide (n0 = name) then new_name else n0) /\ n0 <> new_name) as Hback.
  { unfold st'. cbn. intros n s' [[<- <-]|[Hne [Hd Hs]%lookup_delete_Some]]%lookup_insert_Some.
    - exists name, s. rewrite bool_decide_true by done. split_and!; try done; [by apply same_windows_ok|congruence].
    - exists n, s'. rewrite bool_decide_false by congruence. split_and!; try done; by apply H1. }
  assert (forall n0 s0, sessions st !! n0 = Some s0 -> exists s', sessions st' !! (if bool_decide (n0 = name) then new_name else n0) = Some s' /\ group_name s' = group_name s0) as Hfwd.
  { intros n0 s0 Hs0. unfold st'. cbn. case_bool_decide as E0; [subst n0; rewrite lookup_insert_eq; eexists; split; [done|]; cbn; congruence|].
    exists s0. rewrite lookup_insert_ne, lookup_delete_ne by congruence. done. }
  split.
  - intros n s' Hs'. apply Hback in Hs'. naive_solver.
  - intros n s' Hs'. destruct (Hback n s' Hs') as (n0 & s0 & Hs0 & _ & _ & _ & Hk & _). by eapply Hk, H2.
  - intros n1 n2 s1 s2 S1 S2 E. destruct (Hback n1 s1 S1) as (m1 & t1 & T1 & I1 & _ & _ & _ & _ & N1 & _). destruct (Hback n2 s2 S2) as (m2 & t2 & T2 & I2 & _ & _ & _ & _ & N2 & _).
    assert (m1 = m2) as -> by (eapply H3; [done|done|congruence]). congruence.
  - intros n1 n2 s1 s2 S1 S2 E. destruct (Hback n1 s1 S1) as (m1 & t1 & T1 & _ & I1 & _ & _ & _ & N1 & _). destruct (Hback n2 s2 S2) as (m2 & t2 & T2 & _ & I2 & _ & _ & _ & N2 & _).
    assert (m1 = m2) as -> by (eapply H4; [done|done|congruence]). congruence.
  - intros g o Hgo. change (owners !! g = Some o) in Hgo. rewrite Ho in Hgo. destruct (group_runtime_owners st !! g) as [o0|] eqn:Eg; [|done]. injection Hgo as <-.
    destruct (H5 g o0 Eg) as (s0 & Hs0 & Hg0). destruct (Hfwd o0 s0 Hs0) as (s' & Hs' & Hg'). exists s'. split; [done|congruence].
  - intros g n (s' & Hs' & Hg'). destruct (Hback n s' Hs') as (n0 & s0 & Hs0 & _ & _ & Eg & _). change (is_Some (owners !! g)). rewrite Ho.
    destruct (H6 g n0) as [o Hgo]; [exists s0; split; [done|congruence]|]. rewrite Hgo. by eexists.
Qed.

(** *** Handing sessions back *)

(** A session changed in place: same identity, still consistent. *)
Definition same_identity (s s' : Session) : Prop :=
  ses_name s' = ses_name s /\ ses_id s' = ses_id s /\ recency s' = recency s /\ group_name s' = group_name s.

Lemma update_session_ok name s s' st :
  store_ok st -> sessions st !! name = Some s -> same_identity s s' -> session_ok s' ->
  store_ok (with_sessions (<[name := s']> (sessions st)) st).
Proof.
  intros [H1 H2 H3 H4 H5 H6] Hs (I1 & I2 & I3 & I4) Hok.
  assert (forall n x, <[name := s']> (sessions st) !! n = Some x -> exists x0, sessions st !! n = Some x0 /\ same_identity x0 x) as Hback.
  { intros n x [[<- <-]|[_ Hx]]%lookup_insert_Some; [exists s; by split|exists x; by split]. }
  assert (forall g n, in_group g n (with_sessions (<[name := s']> (sessions st)) st) <-> in_group g n st) as Hin.
  { intros g n. unfold in_group. cbn. split; [intros (x & (x0 & Hx0 & _ & _ & _ & Hg0)%Hback & Hg); exists x0; split; [done|congruence]|].
    intros (x & Hx & Hg). destruct (decide (n = name)) as [->|Hne]; [exists s'; rewrite lookup_insert_eq; split; [done|congruence]|exists x; by rewrite lookup_insert_ne]. }
  split; cbn.
  - intros n x (x0 & Hx0 & -> & _)%Hback. by apply H1.
  - intros n x [[<- <-]|[_ Hx]]%lookup_insert_Some; [done|by eapply H2].
  - intros n1 n2 s1 s2 (x & X & _ & -> & _)%Hback (y & Y & _ & -> & _)%Hback. by apply H3.
  - intros n1 n2 s1 s2 (x & X & _ & _ & -> & _)%Hback (y & Y & _ & _ & -> & _)%Hback. by apply H4.
  - intros g o Ho. apply Hin. by apply H5.
  - intros g n Hn%Hin. by eapply H6.
Qed.

Lemma insert_existing_session_ok s token st :
  store_ok st -> session_ok s -> token_fresh token st -> next_session_id st + Z.of_nat (size (sessions st)) <= u32_max ->
  exists r st', insert_existing_session s token st = Some (r, st') /\ store_ok st' /\
    match r with
    | Err e => e = DuplicateSession (ses_name s) /\ st' = st /\ is_Some (sessions st !! ses_name s)
    | Ok _ => exists s', sessions st' = <[ses_name s := s']> (sessions st) /\ windows s' = windows s /\ group_name s' = group_name s
    end.
Proof.
  intros Hok Hs Ht Hn. unfold insert_existing_session. cbv zeta. case_bool_decide as En; [by eexists _, st|]. apply eq_None_not_Some in En.
  assert (exists s1 st1, (if any_session (fun e => ses_id e =? ses_id s) st then '(id, st0) ← allocate_session_id st; Some (set_id id s, st0) else Some (s, st)) = Some (s1, st1) /\
    sessions st1 = sessions st /\ group_runtime_owners st1 = group_runtime_owners st /\ ses_name s1 = ses_name s /\ group_name s1 = group_name s /\ windows s1 = windows s /\ session_ok s1 /\
    (forall n x, sessions st !! n = Some x -> ses_id x <> ses_id s1)) as (s1 & st1 & -> & E1 & E2 & N1 & G1 & W1 & K1 & F1).
  { destruct (any_session _ st) eqn:Ea.
    - destruct (allocate_session_spec st Hn) as (id & -> & Hfree & _). cbn [mbind option_bind]. eexists _, _. split; [done|]. split_and!; try done; [by apply (same_windows_ok s)|].
      apply (session_by_id_None id st). done.
    - exists s, st. split_and!; try done. intros n x Hx. pose proof (proj1 (any_session_false _ _) Ea n x Hx) as Hx'. cbn in Hx'. lia. }
  cbn [mbind option_bind]. set (s2 := if any_session _ st1 then renew_recency token s1 else s1).
  assert (ses_name s2 = ses_name s /\ group_name s2 = group_name s /\ windows s2 = windows s /\ session_ok s2 /\ forall n x, sessions st !! n = Some x -> ses_id x <> ses_id s2 /\ recency x <> recency s2) as (N2 & G2 & W2 & K2 & F2).
  { unfold s2. destruct (any_session (fun e => recency e =? recency s1) st1) eqn:Ea.
    - split_and!; try done; [by apply (same_windows_ok s1)|]. intros n x Hx. split; [by eapply F1|by eapply Ht].
    - split_and!; try done. intros n x Hx. split; [by eapply F1|]. rewrite <- E1 in Hx. pose proof (proj1 (any_session_false _ _) Ea n x Hx) as Hx'. cbn in Hx'. lia. }
  clearbody s2. set (st2 := bump_next_pane_id_from_session s2 (claim_session_id (ses_id s2) (rebind_window_id_allocator s2 st1))).
  assert (store_ok st2) as Hst2 by (by apply (store_ok_same st)).
  assert (joins (ses_name s) s2 st2) as HJ.
  { split_and!; [change (sessions st1 !! ses_name s = None); by rewrite E1|done|done|]. intros n x Hx. apply (F2 n). rewrite <- E1. exact Hx. }
  eexists _, _. split; [done|]. split; [|exists s2; cbn; split; [|done]; repeat case_match; cbn; by rewrite E1].
  destruct (group_name s2) as [g|] eqn:Eg; [|by apply insert_ungrouped_ok].
  destruct (group_runtime_owners st2 !! g) as [o|] eqn:Eo.
  - destruct (bool_decide (is_Some (sessions st2 !! o)) || bool_decide (o = ses_name s)) eqn:Ek.
    + by apply (insert_peer_ok _ s2 g).
    + by apply (insert_owner_ok (ses_name s) s2 g st2).
  - by apply (insert_owner_ok (ses_name s) s2 g st2).
Qed.

Lemma extracted_pair_ok {T} first second (mutate : Session -> Session -> option (T * Session * Session)) st :
  store_ok st ->
  (forall a b, session_ok a -> session_ok b -> exists r a' b', mutate a b = Some (r, a', b') /\ same_identity a a' /\ same_identity b b' /\ session_ok a' /\ session_ok b') ->
  exists r st', with_extracted_session_pair first second mutate st = Some (r, st') /\ store_ok st'.
Proof.
  intros Hok Hm. unfold with_extracted_session_pair. case_bool_decide as Ene; [by eauto|]. destruct (sessions st !! first) as [a|] eqn:Ea; [|by eauto].
  destruct (sessions st !! second) as [b|] eqn:Eb; [|by eauto].
  destruct (Hm a b (st_sessions _ Hok _ _ Ea) (st_sessions _ Hok _ _ Eb)) as (r & a' & b' & -> & Ia & Ib & Ka & Kb). cbn [mbind option_bind].
  eexists _, _. split; [done|].
  set (st1 := with_sessions (<[first := a']> (sessions st)) st).
  apply (store_ok_same (with_sessions (<[second := b']> (sessions st1)) st1)); [|done|].
  - cbn. apply map_eq. intros k. destruct (decide (k = second)) as [->|]; [by rewrite !lookup_insert_eq|]. rewrite !(lookup_insert_ne _ second) by done.
    destruct (decide (k = first)) as [->|]; [by rewrite !lookup_insert_eq|]. by rewrite !lookup_insert_ne, !lookup_delete_ne by done.
  - apply (update_session_ok second b b' st1); [by eapply update_session_ok| |done|done].
    cbn. by rewrite lookup_insert_ne by done.
Qed.

(** ** Runs *)

Inductive StoreOp :=
| CreateSession (name : string) (size : TerminalSize) (base token : Z)
| CreateAutoNamed (size : TerminalSize) (base token : Z)
| CreateGrouped (name : string) (size : TerminalSize) (base : Z) (target : string) (token : Z)
| CreateAutoGrouped (size : TerminalSize) (base : Z) (target : string) (token : Z)
| RemoveSession (name : string)
| RenameSession (name new_name : string)
| InsertSession (s : Session) (token : Z)
| ChangeSession (name : string) (s : Session).

Definition store_after {A} (r : option (A * SessionStore)) : option SessionStore := snd <$> r.

Definition run_store (now : Z) (op : StoreOp) (st : SessionStore) : option SessionStore :=
  match op with
  | CreateSession name size base token => store_after (create_session_with_base_index name size base now token st)
  | CreateAutoNamed size base token => store_after (create_auto_named_session_with_base_index size base now token st)
  | CreateGrouped name size base target token => store_after (create_grouped_session_with_base_index name size base target now token st)
  | CreateAutoGrouped size base target token => store_after (create_auto_grouped_session_with_base_index size base target now token st)
  | RemoveSession name => store_after (remove_session name st)
  | RenameSession name new_name => store_after (rename_session name new_name st)
  | InsertSession s token => store_after (insert_existing_session s token st)
  | ChangeSession name s => Some (with_sessions (<[name := s]> (sessions st)) st)
  end.

(** Neither session nor window ids are used up. *)
Definition ids_left (st : SessionStore) : bool :=
  (0 <=? next_session_id st) && (next_session_id st + Z.of_nat (size (sessions st)) <=? u32_max) && at_fresh_id (next_window_id st).

(** What callers guarantee: ids are left, base indexes are [u32] values, tokens
    are new, and a session changed through [session_mut] keeps its identity and is
    consistent. *)
Definition store_allowed (op : StoreOp) (st : SessionStore) : Prop :=
  match op with
  | CreateSession _ _ base token | CreateAutoNamed _ base token | CreateGrouped _ _ base _ token | CreateAutoGrouped _ base _ token =>
      is_u32 base && ids_left st = true /\ token_fresh token st
  | InsertSession s token => session_ok s /\ ids_left st = true /\ token_fresh token st
  | ChangeSession name s => exists s0, sessions st !! name = Some s0 /\ same_identity s0 s /\ session_ok s
  | _ => True
  end.

Inductive store_reachable : SessionStore -> Prop :=
| reach_store_new : store_reachable store_new
| reach_store_step now op st st' : store_reachable st -> store_allowed op st -> run_store now op st = Some st' -> store_reachable st'.

Lemma empty_store_ok : store_ok store_new.
Proof.
  split; cbn.
  - intros n s. by rewrite lookup_empty.
  - intros n s. by rewrite lookup_empty.
  - intros n1 n2 s1 s2. by rewrite lookup_empty.
  - intros n1 n2 s1 s2. by rewrite lookup_empty.
  - intros g o. by rewrite lookup_empty.
  - intros g n (s & Hs & _). cbn in Hs. by rewrite lookup_empty in Hs.
Qed.

Lemma ids_left_true st :
  ids_left st = true -> 0 <= next_session_id st /\ next_session_id st + Z.of_nat (size (sessions st)) <= u32_max /\ at_fresh_id (next_window_id st) = true.
Proof. unfold ids_left. intros [[H1%Z.leb_le H2%Z.leb_le]%andb_true_iff H3]%andb_true_iff. done. Qed.

Lemma store_after_ok {A} (r : option (A * SessionStore)) :
  (exists a st', r = Some (a, st') /\ store_ok st') -> exists st', store_after r = Some st' /\ store_ok st'.
Proof. intros (a & st' & -> & H). by exists st'. Qed.

Lemma store_op_ok now op st :
  store_ok st -> store_allowed op st -> exists st', run_store now op st = Some st' /\ store_ok st'.
Proof.
  intros Hok Hal. destruct op; cbn [run_store store_allowed] in *.
  - destruct Hal as [[Hb%is_u32_true (I0 & I1 & I2)%ids_left_true]%andb_true_iff Ht]. apply store_after_ok. unfold create_session_with_base_index.
    destruct (allocate_session_spec st I1) as (id & -> & _). cbn [mbind option_bind]. apply create_with_id_ok; try done. by apply (store_ok_same st).
  - destruct Hal as [[Hb%is_u32_true (I0 & I1 & I2)%ids_left_true]%andb_true_iff Ht]. apply store_after_ok. unfold create_auto_named_session_with_base_index.
    destruct (automatic_identity_spec None st I0 I1) as (name & id & -> & _). cbn [mbind option_bind].
    destruct (create_with_id_ok name size base id now token st Hok Hb I2 Ht) as (r & st' & -> & H). cbn [mbind option_bind]. by eauto.
  - destruct Hal as [[Hb%is_u32_true (I0 & I1 & I2)%ids_left_true]%andb_true_iff Ht]. apply store_after_ok. unfold create_grouped_session_with_base_index.
    destruct (allocate_session_spec st I1) as (id & -> & _). cbn [mbind option_bind]. apply create_grouped_with_id_ok; try done. by apply (store_ok_same st).
  - destruct Hal as [[Hb%is_u32_true (I0 & I1 & I2)%ids_left_true]%andb_true_iff Ht]. apply store_after_ok. unfold create_auto_grouped_session_with_base_index. cbv zeta.
    match goal with |- context [next_automatic_session_identity ?p st] => destruct (automatic_identity_spec p st I0 I1) as (name & id & -> & _) end.
    cbn [mbind option_bind]. by apply create_grouped_with_id_ok.
  - destruct (remove_session_ok name st Hok) as (r & st' & -> & H & _). by exists st'.
  - destruct (rename_session_ok name new_name st Hok) as (r & st' & -> & H & _). by exists st'.
  - destruct Hal as (Hs & (I0 & I1 & I2)%ids_left_true & Ht). destruct (insert_existing_session_ok s token st Hok Hs Ht I1) as (r & st' & -> & H & _). by exists st'.
  - destruct Hal as (s0 & Hs0 & Hi & Hs). eexists. split; [done|]. by eapply update_session_ok.
Qed.

Lemma store_reachable_ok st : store_reachable st -> store_ok st.
Proof.
  induction 1 as [|now op st st' _ IH Hal E]; [apply empty_store_ok|]. destruct (store_op_ok now op st IH Hal) as (st0 & E0 & H). congruence.
Qed.

(** ** Handing a group over *)

Lemma filter_StronglySorted (P : string -> Prop) `{!forall x, Decision (P x)} l : StronglySorted name_le l -> StronglySorted name_le (filter P l).
Proof.
  induction 1 as [|x l Hs IH Hx]; [constructor|]. rewrite filter_cons. case_decide; [|done]. constructor; [done|].
  rewrite Forall_forall in Hx |- *. intros y [_ Hy]%list_elem_of_filter. by apply Hx.
Qed.

Lemma group_after_delete g name st :
  sessions_in_group g (with_sessions (delete name (sessions st)) st) = filter (fun n => n <> name) (sessions_in_group g st).
Proof.
  apply (Sorted_unique name_le).
  - apply group_sorted.
  - apply StronglySorted_Sorted, filter_StronglySorted, Sorted_StronglySorted, group_sorted. apply _.
  - apply NoDup_Permutation; [apply NoDup_group|apply NoDup_filter, NoDup_group|]. intros n.
    by rewrite list_elem_of_filter, !elem_of_group, in_group_delete.
Qed.

Lemma find_head_filter name (l : list string) :
  List.find (fun c => negb (bool_decide (c = name))) l = head (filter (fun n => n <> name) l).
Proof. induction l as [|x l IH]; [done|]. cbn [List.find]. rewrite filter_cons. case_bool_decide; case_decide; done. Qed.

(** ** Properties *)

(** C26. No operation of the store panics while ids are left, and in every store
    that operations reach from the empty one sessions are stored under their own
    name and are consistent, no two share an id or a recency token, and every
    group with members has one of them as its runtime owner, and no other group
    has one. *)
Theorem store_operations_safe now op st :
  store_reachable st -> store_allowed op st ->
  store_ok st /\ exists st', run_store now op st = Some st' /\ store_ok st' /\ store_reachable st'.
Proof.
  intros Hr Hal. pose proof (store_reachable_ok st Hr) as Hok. split; [done|].
  destruct (store_op_ok now op st Hok Hal) as (st' & E & H). exists st'. split_and!; [done|done|]. by eapply reach_store_step.
Qed.

Definition sample_store (ops : list StoreOp) : SessionStore := default store_new (fold_left (fun st op => st ← st; run_store 5 op st) ops (Some store_new)).

Definition group_ops : list StoreOp :=
  [CreateSession "main" demo_size 0 0; CreateGrouped "peer" demo_size 0 "main" 1; CreateGrouped "other" demo_size 0 "main" 2].

Lemma token_fresh_in token st (keys : list string) :
  (forall n s, sessions st !! n = Some s -> n ∈ keys) ->
  Forall (fun n => bool_decide (recency <$> sessions st !! n = Some token) = false) keys -> token_fresh token st.
Proof.
  intros Hk Hf n s Hs Ht. rewrite Forall_forall in Hf. specialize (Hf n (Hk n s Hs)). apply bool_decide_eq_false in Hf. apply Hf. rewrite Hs. cbn. congruence.
Qed.

Definition token_unused (token : Z) (st : SessionStore) : bool :=
  forallb (fun n => negb (bool_decide (recency <$> sessions st !! n = Some token))) (map fst (map_to_list (sessions st))).

Lemma token_unused_fresh token st : token_unused token st = true -> token_fresh token st.
Proof.
  intros H. apply (token_fresh_in token st (map fst (map_to_list (sessions st)))).
  - intros n s Hs. apply list_elem_of_fmap. exists (n, s). split; [done|by apply elem_of_map_to_list].
  - apply Forall_forall. intros n Hn. unfold token_unused in H. rewrite forallb_forall in H. specialize (H n (proj1 (list_elem_of_In _ _) Hn)).
    by apply negb_true_iff in H.
Qed.

Definition grouped_store : SessionStore := sample_store group_ops.

Lemma sample_store_step st op st' :
  store_reachable st -> is_u32 0 && ids_left st = true -> forall name size target token,
  (op = CreateSession name size 0 token \/ op = CreateGrouped name size 0 target token) -> token_unused token st = true ->
  run_store 5 op st = Some st' -> store_reachable st'.
Proof.
  intros Hr Hids name size target token Hop Ht E. eapply reach_store_step; [done| |exact E]. by destruct Hop as [-> | ->]; (split; [done|]; apply token_unused_fresh).
Qed.

Lemma grouped_store_reachable : store_reachable grouped_store.
Proof.
  set (st1 := sample_store (take 1 group_ops)). set (st2 := sample_store (take 2 group_ops)).
  assert (store_reachable st1) as H1.
  { eapply (sample_store_step store_new (CreateSession "main" demo_size 0 0) st1 reach_store_new); [vm_compute; reflexivity|by left|vm_compute; reflexivity|vm_compute; reflexivity]. }
  assert (store_reachable st2) as H2.
  { eapply (sample_store_step st1 (CreateGrouped "peer" demo_size 0 "main" 1) st2 H1); [vm_compute; reflexivity|by right|vm_compute; reflexivity|vm_compute; reflexivity]. }
  eapply (sample_store_step st2 (CreateGrouped "other" demo_size 0 "main" 2) grouped_store H2); [vm_compute; reflexivity|by right|vm_compute; reflexivity|vm_compute; reflexivity].
  Unshelve. all: exact "none"%string.
Qed.

Lemma store_operations_safe_witness : exists st', run_store 9 (RenameSession "main" "new") grouped_store = Some st' /\ store_ok st'.
Proof.
  destruct (proj2 (store_operations_safe 9 (RenameSession "main" "new") grouped_store grouped_store_reachable I)) as (st' & E & H & _).
  exists st'. split; [exact E|exact H].
Defined.

(** C27. When the session that owns its group's panes is removed, the session
    [runtime_owner_transfer_target] names beforehand, the first remaining member by
    name, owns them afterwards; it names none exactly when the group goes with its
    last member.  A session that does not own the group changes no owner. *)
Theorem owner_handover name st s g :
  store_ok st -> sessions st !! name = Some s -> group_name s = Some g ->
  exists st', remove_session name st = Some (Ok s, st') /\ store_ok st' /\ sessions st' = delete name (sessions st) /\
    if bool_decide (runtime_owner name st = Some name)
    then group_runtime_owners st' !! g = runtime_owner_transfer_target name st
    else group_runtime_owners st' !! g = runtime_owner name st /\ runtime_owner_transfer_target name st = None.
Proof.
  intros Hok Hs Hg. destruct (remove_session_ok name st Hok) as (r & st' & E & Hst' & Hr). destruct r as [s'|e]; [|destruct Hr; congruence].
  destruct Hr as [Hs' Hdel]. assert (s' = s) as -> by congruence. exists st'. split_and!; try done.
  assert (runtime_owner name st = group_runtime_owners st !! g) as Eown by (unfold runtime_owner; rewrite Hs; cbn; by rewrite Hg).
  unfold remove_session in E. rewrite Hs, Hg in E. set (st1 := with_sessions (delete name (sessions st)) st) in *.
  destruct (repair_spec g st1) as (st2 & E2 & _ & _ & H3). rewrite E2 in E. cbn [mbind option_bind] in E. injection E as <-.
  pose proof (group_after_delete g name st) as Hgd. fold st1 in Hgd. case_bool_decide as Eo.
  - unfold runtime_owner_transfer_target. rewrite bool_decide_true by done. cbn [negb]. unfold session_group_name. rewrite Hs. cbn [mbind option_bind]. rewrite Hg. cbn [mbind option_bind].
    rewrite find_head_filter, <- Hgd. rewrite Eown in Eo. destruct (sessions_in_group g st1) as [|first rest] eqn:Em; [done|].
    destruct H3 as (o & -> & _ & _ & Hfirst). cbn. f_equal. apply Hfirst. intros o' Ho' Hin. change (group_runtime_owners st !! g = Some o') in Ho'.
    assert (o' = name) as -> by congruence. by apply in_group_delete in Hin as [? _].
  - split; [|unfold runtime_owner_transfer_target; by rewrite bool_decide_false]. rewrite Eown in *.
    destruct (st_grouped st Hok g name) as [o Ho]; [by exists s|]. rewrite Ho in *. assert (o <> name) as Hne by congruence.
    assert (in_group g o st1) as Hin by (apply in_group_delete; split; [done|by apply (st_owner st Hok)]).
    pose proof (proj2 (elem_of_group g o st1) Hin) as Hel. destruct (sessions_in_group g st1) as [|first rest] eqn:Em; [by apply not_elem_of_nil in Hel|].
    destruct H3 as (o' & -> & _ & Hsame & _). f_equal. by apply Hsame.
Qed.

Lemma owner_handover_witness :
  exists s st', remove_session "main" grouped_store = Some (Ok s, st') /\ runtime_owner_transfer_target "main" grouped_store = Some "other"%string /\
    group_runtime_owners st' !! "main"%string = Some "other"%string.
Proof.
  destruct (sessions grouped_store !! "main"%string) as [s|] eqn:Hs; [|exfalso; by vm_compute in Hs].
  assert (group_name <$> sessions grouped_store !! "main"%string = Some (Some "main"%string)) as Hg by (vm_compute; reflexivity). rewrite Hs in Hg. cbn in Hg. injection Hg as Hg.
  destruct (owner_handover "main" grouped_store s "main" (store_reachable_ok _ grouped_store_reachable) Hs Hg) as (st' & E & _ & _ & H).
  rewrite bool_decide_true in H by (vm_compute; reflexivity).
  assert (runtime_owner_transfer_target "main" grouped_store = Some "other"%string) as Et by (vm_compute; reflexivity).
  exists s, st'. split; [exact E|]. split; [exact Et|]. rewrite H. exact Et.
Defined.

(** The search for an automatic name ends with the first unused one while ids
    are left: the id is at least the next session id, and the name is the id
    itself or the rewritten group name, a dash and the id. *)
Theorem automatic_name_found prefix st :
  0 <= next_session_id st -> next_session_id st + Z.of_nat (size (sessions st)) <= u32_max ->
  exists name id, next_automatic_session_identity prefix st = Some (name, id) /\ next_session_id st <= id <= u32_max /\
    name = string_of (name_prefix prefix ++ dec id) /\ sessions st !! name = None.
Proof. apply automatic_identity_spec. Qed.

Lemma automatic_name_found_witness :
  exists name id, next_automatic_session_identity (Some "main"%string) grouped_store = Some (name, id) /\ sessions grouped_store !! name = None.
Proof.
  destruct (automatic_name_found (Some "main"%string) grouped_store) as (name & id & E & _ & _ & H); [vm_compute; discriminate|vm_compute; discriminate|].
  exists name, id. split; [exact E|exact H].
Defined.
