(* ===== verification/Utf8.v ===== *)
(** * UTF-8

    Rust strings are UTF-8.  This file models what the sources use of the
    standard library's functions on them, with a string as its list of bytes:
    the check behind [str::from_utf8], the replacement of ill-formed parts in
    [String::from_utf8_lossy], [str::chars] and [char::encode_utf8], and proves
    that they fit together. *)

From S2P Require Import Prelude.

(** ** Scalar values and their encoding *)

Definition is_scalar (c : Z) : bool :=
  ((0 <=? c) && (c <? 55296)) || ((57344 <=? c) && (c <=? 1114111)).

Definition is_continuation (b : Z) : bool := (128 <=? b) && (b <=? 191).

(** [char::encode_utf8] *)
Definition encode_utf8 (c : Z) : list Z :=
  if c <? 128 then [c]
  else if c <? 2048 then [192 + c / 64; 128 + c mod 64]
  else if c <? 65536 then [224 + c / 4096; 128 + c / 64 mod 64; 128 + c mod 64]
  else [240 + c / 262144; 128 + c / 4096 mod 64; 128 + c / 64 mod 64; 128 + c mod 64].

(** U+FFFD *)
Definition replacement_character : Z := 65533.

(** ** Decoding *)

(** The number of bytes a first byte announces, 0 for a byte that starts nothing. *)
Definition utf8_char_width (b : Z) : nat :=
  if b <? 128 then 1
  else if (194 <=? b) && (b <=? 223) then 2
  else if (224 <=? b) && (b <=? 239) then 3
  else if (240 <=? b) && (b <=? 244) then 4
  else 0.

(** The second bytes a first byte of three or four bytes allows. *)
Definition second_byte_ok (b c : Z) : bool :=
  if b =? 224 then (160 <=? c) && (c <=? 191)
  else if b =? 237 then (128 <=? c) && (c <=? 159)
  else if b =? 240 then (144 <=? c) && (c <=? 191)
  else if b =? 244 then (128 <=? c) && (c <=? 143)
  else is_continuation c.

Definition next_ok (ok : Z -> bool) (bs : list Z) : bool :=
  match bs with [] => false | b :: _ => ok b end.

(** The first part of a non-empty string of bytes: whether it is a character,
    and how many bytes it has; an ill-formed part is as long as it could still
    have become a character. *)
Definition utf8_part (b : Z) (rest : list Z) : bool * nat :=
  match utf8_char_width b with
  | 1%nat => (true, 1%nat)
  | 2%nat => if next_ok is_continuation rest then (true, 2%nat) else (false, 1%nat)
  | 3%nat =>
      if negb (next_ok (second_byte_ok b) rest) then (false, 1%nat)
      else if next_ok is_continuation (drop 1 rest) then (true, 3%nat) else (false, 2%nat)
  | 4%nat =>
      if negb (next_ok (second_byte_ok b) rest) then (false, 1%nat)
      else if negb (next_ok is_continuation (drop 1 rest)) then (false, 2%nat)
      else if next_ok is_continuation (drop 2 rest) then (true, 4%nat) else (false, 3%nat)
  | _ => (false, 1%nat)
  end.

(** A string of bytes as its parts. *)
Fixpoint utf8_parts_loop (fuel : nat) (bs : list Z) : list (bool * list Z) :=
  match fuel, bs with
  | S fuel, b :: rest =>
      let '(ok, k) := utf8_part b rest in
      (ok, take k bs) :: utf8_parts_loop fuel (drop k bs)
  | _, _ => []
  end.

Definition utf8_parts (bs : list Z) : list (bool * list Z) := utf8_parts_loop (length bs) bs.

(** [str::from_utf8] succeeds *)
Definition from_utf8_ok (bs : list Z) : bool := forallb fst (utf8_parts bs).

(** [String::from_utf8_lossy] *)
Definition lossy_part (part : bool * list Z) : list Z :=
  if fst part then snd part else encode_utf8 replacement_character.

Definition from_utf8_lossy (bs : list Z) : list Z := concat (map lossy_part (utf8_parts bs)).

(** The character of a well-formed part. *)
Definition decode_part (bs : list Z) : Z :=
  match bs with
  | [b] => b
  | [b; c] => (b mod 32) * 64 + c mod 64
  | [b; c; d] => (b mod 16) * 4096 + (c mod 64) * 64 + d mod 64
  | [b; c; d; e] => (b mod 8) * 262144 + (c mod 64) * 4096 + (d mod 64) * 64 + e mod 64
  | _ => 0
  end.

(** [str::chars] of a valid string *)
Definition chars (bs : list Z) : list Z := map (fun part => decode_part (snd part)) (utf8_parts bs).

(** [char::is_control] *)
Definition is_control (c : Z) : bool := (c <? 32) || ((127 <=? c) && (c <=? 159)).

(** ** Parts *)

Lemma utf8_part_length b rest : (1 <= (utf8_part b rest).2 <= S (length rest))%nat.
Proof.
  unfold utf8_part, utf8_char_width, next_ok.
  destruct rest as [|? [|? [|? ?]]]; simpl; repeat case_match; simpl in *; simplify_eq; lia.
Qed.

Lemma utf8_parts_loop_fuel n m bs :
  (length bs <= n)%nat -> (length bs <= m)%nat -> utf8_parts_loop n bs = utf8_parts_loop m bs.
Proof.
  revert m bs. induction n as [|n IH]; intros [|m] [|b rest] Hn Hm; simpl in *; try lia; try done.
  pose proof (utf8_part_length b rest) as Hk. destruct (utf8_part b rest) as [ok k]. simpl in Hk.
  f_equal. apply IH; rewrite length_drop; simpl; lia.
Qed.

(** One part at a time. *)
Lemma utf8_parts_cons b rest :
  utf8_parts (b :: rest) =
  let '(ok, k) := utf8_part b rest in (ok, take k (b :: rest)) :: utf8_parts (drop k (b :: rest)).
Proof.
  unfold utf8_parts at 1. simpl. pose proof (utf8_part_length b rest) as Hk.
  destruct (utf8_part b rest) as [ok k]. simpl in Hk. f_equal.
  apply utf8_parts_loop_fuel; rewrite length_drop; simpl; lia.
Qed.

(** What follows does not matter once a part is a character. *)
Lemma utf8_part_app b rest more k :
  utf8_part b rest = (true, k) -> utf8_part b (rest ++ more) = (true, k).
Proof.
  unfold utf8_part, next_ok.
  destruct (utf8_char_width b) as [|[|[|[|[|?]]]]]; try done;
    destruct rest as [|? [|? [|? ?]]]; simpl; repeat case_match; simpl in *; by simplify_eq.
Qed.

Ltac part_ranges :=
  unfold utf8_part, utf8_char_width, next_ok, second_byte_ok, is_continuation; simpl;
  repeat (case_match; simpl in *; try done); exfalso; lia.

Lemma utf8_part_one b rest : b < 128 -> utf8_part b rest = (true, 1%nat).
Proof. intros. part_ranges. Qed.

Lemma utf8_part_two b c rest : 194 <= b <= 223 -> 128 <= c <= 191 -> utf8_part b (c :: rest) = (true, 2%nat).
Proof. intros. part_ranges. Qed.

Lemma utf8_part_three b c d rest :
  224 <= b <= 239 -> 128 <= c <= 191 -> (b = 224 -> 160 <= c) -> (b = 237 -> c <= 159) -> 128 <= d <= 191 ->
  utf8_part b (c :: d :: rest) = (true, 3%nat).
Proof. intros. part_ranges. Qed.

Lemma utf8_part_four b c d e rest :
  240 <= b <= 244 -> 128 <= c <= 191 -> (b = 240 -> 144 <= c) -> (b = 244 -> c <= 143) ->
  128 <= d <= 191 -> 128 <= e <= 191 ->
  utf8_part b (c :: d :: e :: rest) = (true, 4%nat).
Proof. intros. part_ranges. Qed.

(** The parts a first byte can start, read backwards. *)
Lemma utf8_part_inv b rest k :
  utf8_part b rest = (true, k) ->
  (b < 128 /\ k = 1%nat)
  \/ (exists c r, rest = c :: r /\ k = 2%nat /\ 194 <= b <= 223 /\ 128 <= c <= 191)
  \/ (exists c d r, rest = c :: d :: r /\ k = 3%nat /\ 224 <= b <= 239 /\ 128 <= c <= 191 /\ 128 <= d <= 191)
  \/ (exists c d e r, rest = c :: d :: e :: r /\ k = 4%nat /\ 240 <= b <= 244
        /\ 128 <= c <= 191 /\ 128 <= d <= 191 /\ 128 <= e <= 191).
Proof.
  unfold utf8_part, utf8_char_width, next_ok, second_byte_ok, is_continuation.
  destruct rest as [|c [|d [|e r]]]; simpl; intros H; repeat case_match; simpl in *; simplify_eq;
    try (left; split; [lia|done]); right;
    first [left; do 2 eexists; repeat split; lia | right; left; do 3 eexists; repeat split; lia
          | right; right; do 4 eexists; repeat split; lia].
Qed.

(** ** Encoding and decoding *)

Lemma encode_utf8_part c more :
  is_scalar c = true ->
  exists b rest, encode_utf8 c = b :: rest
    /\ utf8_part b (rest ++ more) = (true, S (length rest)) /\ decode_part (b :: rest) = c
    /\ Forall (fun x => 0 <= x <= 255) (b :: rest).
Proof.
  unfold is_scalar, encode_utf8. intros Hs.
  assert (0 <= c < 55296 \/ 57344 <= c <= 1114111) as Hc by lia. clear Hs.
  repeat case_match; eexists _, _; (split; [reflexivity|]); simpl;
    (split; [first [apply utf8_part_one | apply utf8_part_two | apply utf8_part_three | apply utf8_part_four];
             Z.to_euclidean_division_equations; lia|]);
    (split; [try done; Z.to_euclidean_division_equations; lia|]);
    repeat constructor; Z.to_euclidean_division_equations; lia.
Qed.

Lemma encode_utf8_parts c more :
  is_scalar c = true -> utf8_parts (encode_utf8 c ++ more) = (true, encode_utf8 c) :: utf8_parts more.
Proof.
  intros Hs. destruct (encode_utf8_part c more Hs) as (b & rest & -> & Hp & _ & _).
  rewrite <- app_comm_cons, utf8_parts_cons, Hp. simpl.
  by rewrite take_app_length, drop_app_length.
Qed.

(** The parts of the encoding of some text are its characters. *)
Lemma utf8_parts_encode cs :
  forallb is_scalar cs = true -> utf8_parts (concat (map encode_utf8 cs)) = map (fun c => (true, encode_utf8 c)) cs.
Proof.
  induction cs as [|c cs IH]; [done|]. simpl. intros [Hc Hcs]%andb_true_iff.
  by rewrite encode_utf8_parts, IH.
Qed.

Lemma decode_encode c : is_scalar c = true -> decode_part (encode_utf8 c) = c.
Proof. intros H. by destruct (encode_utf8_part c [] H) as (b & rest & -> & _ & ? & _). Qed.

(** Text survives being encoded and read back. *)
Lemma chars_encode cs : forallb is_scalar cs = true -> chars (concat (map encode_utf8 cs)) = cs.
Proof.
  intros Hcs. unfold chars. rewrite utf8_parts_encode by done. rewrite map_map.
  rewrite <- (map_id cs) at 2. apply map_ext_in. intros c Hin. simpl.
  apply decode_encode. rewrite forallb_forall in Hcs. by apply Hcs.
Qed.

(** ** Replacing ill-formed parts *)

(** Taking the parts of a string apart loses nothing. *)
Lemma utf8_parts_concat bs : concat (map snd (utf8_parts bs)) = bs.
Proof.
  remember (length bs) as n eqn:Hn. revert bs Hn.
  induction (lt_wf n) as [n _ IH]. intros [|b rest] Hn; [done|].
  rewrite utf8_parts_cons. pose proof (utf8_part_length b rest) as Hk.
  destruct (utf8_part b rest) as [ok k]. simpl in Hk |- *.
  rewrite (IH (length (drop k (b :: rest)))); [apply (take_drop k (b :: rest))| |done].
  rewrite length_drop. simpl in *. lia.
Qed.

Lemma from_utf8_lossy_valid bs : from_utf8_ok bs = true -> from_utf8_lossy bs = bs.
Proof.
  unfold from_utf8_ok, from_utf8_lossy. intros H. rewrite <- (utf8_parts_concat bs) at 2. f_equal.
  apply map_ext_in. intros p Hp. rewrite forallb_forall in H. unfold lossy_part. by rewrite (H p Hp).
Qed.

(** A string that is one character. *)
Definition one_character (bs : list Z) : Prop :=
  exists b rest, bs = b :: rest /\ utf8_part b rest = (true, length bs).

Lemma one_character_parts bs more : one_character bs -> utf8_parts (bs ++ more) = (true, bs) :: utf8_parts more.
Proof.
  intros (b & rest & -> & Hp). rewrite <- app_comm_cons, utf8_parts_cons, (utf8_part_app _ _ _ _ Hp). simpl.
  by rewrite take_app_length, drop_app_length.
Qed.

Lemma one_character_take b rest k : utf8_part b rest = (true, k) -> one_character (take k (b :: rest)).
Proof.
  intros H.
  destruct (utf8_part_inv _ _ _ H)
    as [[? ->]|[(c & r & -> & -> & ?)|[(c & d & r & -> & -> & ?)|(c & d & e & r & -> & -> & ?)]]];
    simpl; do 2 eexists; (split; [done|]); revert H;
    unfold utf8_part, next_ok; simpl; repeat case_match; simpl in *; by simplify_eq.
Qed.

Lemma one_character_encode c : is_scalar c = true -> one_character (encode_utf8 c).
Proof.
  intros Hs. destruct (encode_utf8_part c [] Hs) as (b & rest & -> & Hp & _).
  rewrite app_nil_r in Hp. by exists b, rest.
Qed.

Lemma utf8_parts_ok bs : Forall (fun part => fst part = true -> one_character (snd part)) (utf8_parts bs).
Proof.
  remember (length bs) as n eqn:Hn. revert bs Hn.
  induction (lt_wf n) as [n _ IH]. intros [|b rest] Hn; [constructor|].
  rewrite utf8_parts_cons. pose proof (utf8_part_length b rest) as Hk.
  destruct (utf8_part b rest) as [ok k] eqn:Hp. simpl in Hk. constructor.
  - simpl. intros ->. by apply one_character_take.
  - eapply IH; [|done]. rewrite length_drop. simpl in *. lia.
Qed.

Lemma utf8_parts_characters parts :
  Forall one_character parts -> utf8_parts (concat parts) = map (fun bs => (true, bs)) parts.
Proof. induction 1 as [|bs parts Hb _ IH]; [done|]. simpl. by rewrite one_character_parts, IH. Qed.

(** What [from_utf8_lossy] returns is valid, so reading it again changes nothing. *)
Lemma from_utf8_lossy_ok bs : from_utf8_ok (from_utf8_lossy bs) = true.
Proof.
  unfold from_utf8_ok, from_utf8_lossy. rewrite utf8_parts_characters.
  - apply forallb_forall. intros p [q [<- _]]%in_map_iff. done.
  - apply List.Forall_map. eapply Forall_impl; [apply utf8_parts_ok|]. intros [ok part] H. simpl in *.
    unfold lossy_part. simpl. destruct ok; [by apply H|]. by apply one_character_encode.
Qed.

Lemma one_character_bytes bs b :
  one_character bs -> b ∈ bs -> bs = [decode_part bs] /\ b = decode_part bs \/ 128 <= b.
Proof.
  intros (b' & rest & -> & Hp) Hin.
  destruct (utf8_part_inv _ _ _ Hp)
    as [[? Hk]|[(c & r & -> & Hk & ?)|[(c & d & r & -> & Hk & ?)|(c & d & e & r & -> & Hk & ?)]]];
    simpl in Hk.
  1: { destruct rest; [|done]. apply list_elem_of_singleton in Hin as ->. by left. }
  all: right; rewrite ?elem_of_cons in Hin; destruct r; try done; set_unfold; naive_solver lia.
Qed.

(** Valid text without control characters has no byte below 32. *)
Lemma no_control_bytes bs b :
  from_utf8_ok bs = true -> forallb (fun c => negb (is_control c)) (chars bs) = true -> b ∈ bs -> 32 <= b.
Proof.
  intros Hok Hc Hin. rewrite <- (utf8_parts_concat bs) in Hin.
  apply list_elem_of_In, in_concat in Hin as (part & Hpart & Hb).
  apply in_map_iff in Hpart as ([ok part'] & Heq & Hp). simpl in Heq. subst part'.
  unfold from_utf8_ok in Hok. rewrite forallb_forall in Hok. pose proof (Hok _ Hp) as Hok'. simpl in Hok'. subst ok.
  pose proof (utf8_parts_ok bs) as Hall. rewrite List.Forall_forall in Hall.
  pose proof (Hall _ Hp eq_refl) as H1. simpl in H1.
  rewrite forallb_forall in Hc. specialize (Hc (decode_part part)).
  destruct (one_character_bytes part b H1) as [[_ ->]|?]; [by apply list_elem_of_In| |lia].
  assert (negb (is_control (decode_part part)) = true) as Hn.
  { apply Hc. apply in_map_iff. by exists (true, part). }
  unfold is_control in Hn. lia.
Qed.
