(* ===== verification/InputCell.v ===== *)
(** * Parameters, cell attributes and SGR

    [crates/rmux-core/src/input/params.rs], [cell.rs], [colour.rs] and [sgr.rs]:
    splitting the parameter bytes of a control sequence, the attributes and
    colours the parser keeps for the next character, and the SGR sequence that
    changes them. *)

From S2P Require Import Prelude Utf8.

(** ** The standard library on strings of bytes *)

Definition is_digit (b : Z) : bool := (48 <=? b) && (b <=? 57).

Definition digits_value (ds : list Z) : Z := fold_left (fun v d => v * 10 + (d - 48)) ds 0.

(** A number without sign, if it is at most [bound]. *)
Definition parse_digits (bound : Z) (ds : list Z) : option Z :=
  match ds with
  | [] => None
  | _ => if forallb is_digit ds && (digits_value ds <=? bound) then Some (digits_value ds) else None
  end.

(** [str::parse::<i32>] *)
Definition parse_i32 (s : list Z) : option Z :=
  match s with
  | 43 :: ds => parse_digits i32_max ds
  | 45 :: ds => Z.opp <$> parse_digits (i32_max + 1) ds
  | ds => parse_digits i32_max ds
  end.

(** [str::split] at a one-byte character *)
Fixpoint split_on (sep : Z) (s : list Z) : list (list Z) :=
  match s with
  | [] => [[]]
  | b :: rest =>
      if b =? sep then [] :: split_on sep rest
      else match split_on sep rest with
           | [] => [[b]]
           | part :: parts => (b :: part) :: parts
           end
  end.

(** ** Parameters *)

Definition PARAM_LIST_MAX : nat := 24.
#[global] Arguments PARAM_LIST_MAX : simpl never.

Inductive ParamType : Type :=
| Missing
| Number (n : Z)
| Str (s : list Z).

#[global] Instance ParamType_eq_dec : EqDecision ParamType.
Proof. solve_decision. Defined.

(** The filled part of the array. *)
Definition ParamList : Type := list ParamType.

(** The parameter of one part; [None] makes the split fail. *)
Definition split_part (part : list Z) : option ParamType :=
  match part with
  | [] => Some Missing
  | _ =>
      if existsb (Z.eqb 58) part then Some (Str part)
      else match parse_i32 part with
           | Some n => if 0 <=? n then Some (Number n) else None
           | None => None
           end
  end.

Fixpoint split_parts (parts : list (list Z)) (list : ParamList) : bool * ParamList :=
  match parts with
  | [] => (true, list)
  | part :: parts =>
      if (PARAM_LIST_MAX <=? length list)%nat then (false, list)
      else match split_part part with
           | None => (false, list)
           | Some param => split_parts parts (list ++ [param])
           end
  end.

(** [ParamList::split] on the bytes collected; what was parsed before an error
    stays in the list. *)
Definition split (buf : list Z) : bool * ParamList :=
  match buf with
  | [] => (true, [])
  | _ => if from_utf8_ok buf then split_parts (split_on 59 buf) [] else (false, [])
  end.

Definition get (list : ParamList) (index : nat) (minval defval : Z) : Z :=
  match list !! index with
  | None => defval
  | Some Missing => defval
  | Some (Str _) => -1
  | Some (Number n) => if n <? minval then minval else n
  end.

(** ** Colours *)

Definition COLOUR_DEFAULT : Z := 8.
Definition COLOUR_FLAG_256 : Z := 16777216.
Definition COLOUR_FLAG_RGB : Z := 33554432.

Definition colour_join_rgb (r g b : Z) : Z :=
  Z.lor (Z.lor (Z.lor COLOUR_FLAG_RGB (Z.shiftl r 16)) (Z.shiftl g 8)) b.

(** ** Cells *)

Definition BRIGHT : Z := 1.
Definition DIM : Z := 2.
Definition UNDERSCORE : Z := 4.
Definition BLINK : Z := 8.
Definition REVERSE : Z := 16.
Definition HIDDEN : Z := 32.
Definition ITALICS : Z := 64.
Definition STRIKETHROUGH : Z := 256.
Definition UNDERSCORE_2 : Z := 512.
Definition UNDERSCORE_3 : Z := 1024.
Definition UNDERSCORE_4 : Z := 2048.
Definition UNDERSCORE_5 : Z := 4096.
Definition OVERLINE : Z := 8192.
Definition ALL_UNDERSCORE : Z :=
  Z.lor UNDERSCORE (Z.lor UNDERSCORE_2 (Z.lor UNDERSCORE_3 (Z.lor UNDERSCORE_4 UNDERSCORE_5))).

Record GridCell : Type := mkGridCell {
  attr : Z;
  fg : Z;
  bg : Z;
  us : Z;
  link : Z
}.

Definition default_cell : GridCell := mkGridCell 0 COLOUR_DEFAULT COLOUR_DEFAULT COLOUR_DEFAULT 0.

Definition with_attr (a : Z) (c : GridCell) : GridCell := mkGridCell a (fg c) (bg c) (us c) (link c).
Definition with_fg (v : Z) (c : GridCell) : GridCell := mkGridCell (attr c) v (bg c) (us c) (link c).
Definition with_bg (v : Z) (c : GridCell) : GridCell := mkGridCell (attr c) (fg c) v (us c) (link c).
Definition with_us (v : Z) (c : GridCell) : GridCell := mkGridCell (attr c) (fg c) (bg c) v (link c).
Definition with_link (l : Z) (c : GridCell) : GridCell := mkGridCell (attr c) (fg c) (bg c) (us c) l.

Record CellState : Type := mkCellState {
  cell : GridCell;
  set : Z;
  g0set : Z;
  g1set : Z
}.

Definition default_cell_state : CellState := mkCellState default_cell 0 0 0.

Definition reset (c : CellState) : CellState := default_cell_state.

Record SavedState : Type := mkSavedState {
  saved_cell : CellState;
  saved_cx : Z;
  saved_cy : Z;
  mode_origin : bool
}.

Definition default_saved_state : SavedState := mkSavedState default_cell_state 0 0 false.

(** ** SGR *)

Definition set_bits (bits : Z) (c : GridCell) : GridCell := with_attr (Z.lor (attr c) bits) c.
Definition clear_bits (bits : Z) (c : GridCell) : GridCell := with_attr (Z.ldiff (attr c) bits) c.

(** A colour for the slot that 38, 48 or 58 names. *)
Definition set_slot (n v : Z) (c : GridCell) : GridCell :=
  if n =? 38 then with_fg v c else if n =? 48 then with_bg v c else if n =? 58 then with_us v c else c.

Definition reset_keeping_link (c : GridCell) : GridCell := with_link (link c) default_cell.

(** The colours that are ranges of numbers. *)
Definition sgr_range (n : Z) (c : GridCell) : GridCell :=
  if (30 <=? n) && (n <=? 37) then with_fg (n - 30) c
  else if (40 <=? n) && (n <=? 47) then with_bg (n - 40) c
  else if (90 <=? n) && (n <=? 97) then with_fg n c
  else if (100 <=? n) && (n <=? 107) then with_bg (n - 10) c
  else c.

(** The rendition a single number selects. *)
Definition sgr_number (n : Z) (c : GridCell) : GridCell :=
  match n with
  | 0 => reset_keeping_link c
  | 1 => set_bits BRIGHT c
  | 2 => set_bits DIM c
  | 3 => set_bits ITALICS c
  | 4 => set_bits UNDERSCORE (clear_bits ALL_UNDERSCORE c)
  | 5 | 6 => set_bits BLINK c
  | 7 => set_bits REVERSE c
  | 8 => set_bits HIDDEN c
  | 9 => set_bits STRIKETHROUGH c
  | 21 => set_bits UNDERSCORE_2 (clear_bits ALL_UNDERSCORE c)
  | 22 => clear_bits (Z.lor BRIGHT DIM) c
  | 23 => clear_bits ITALICS c
  | 24 => clear_bits ALL_UNDERSCORE c
  | 25 => clear_bits BLINK c
  | 27 => clear_bits REVERSE c
  | 28 => clear_bits HIDDEN c
  | 29 => clear_bits STRIKETHROUGH c
  | 39 => with_fg COLOUR_DEFAULT c
  | 49 => with_bg COLOUR_DEFAULT c
  | 53 => set_bits OVERLINE c
  | 55 => clear_bits OVERLINE c
  | 59 => with_us COLOUR_DEFAULT c
  | _ => sgr_range n c
  end.

(** The parts of a colon form; [None] where the code returns. *)
Fixpoint colon_parts (room : nat) (parts : list (list Z)) {struct parts} : option (list (option Z)) :=
  match parts, room with
  | [], _ => Some []
  | _ :: _, O => None
  | [] :: parts, S room => rest ← colon_parts room parts; Some (None :: rest)
  | part :: parts, S room =>
      v ← parse_i32 part;
      if v <? 0 then None else rest ← colon_parts room parts; Some (Some v :: rest)
  end.

Definition present_at (parts : list (option Z)) (i : nat) : option Z :=
  match parts !! i with Some (Some v) => Some v | _ => None end.

Definition underscore_style (style : Z) (c : GridCell) : GridCell :=
  match style with
  | 1 => set_bits UNDERSCORE c
  | 2 => set_bits UNDERSCORE_2 c
  | 3 => set_bits UNDERSCORE_3 c
  | 4 => set_bits UNDERSCORE_4 c
  | 5 => set_bits UNDERSCORE_5 c
  | _ => c
  end.

(** The colour of [38:2:...] or [38:5:...]. *)
Definition colon_colour (parts : list (option Z)) : option Z :=
  let n := length parts in
  kind ← present_at parts 1;
  if kind =? 2 then
    if (n <? 3)%nat then None
    else
      let idx := if (n =? 5)%nat then 2%nat else 3%nat in
      if (n <? idx + 3)%nat then None
      else
        r ← present_at parts idx;
        g ← present_at parts (idx + 1);
        b ← present_at parts (idx + 2);
        if (255 <? r) || (255 <? g) || (255 <? b) then None else Some (colour_join_rgb r g b)
  else if kind =? 5 then
    if (n <? 3)%nat then None
    else c ← present_at parts 2; if 255 <? c then None else Some (Z.lor c COLOUR_FLAG_256)
  else None.

Definition dispatch_sgr_colon (s : list Z) (gc : GridCell) : GridCell :=
  match colon_parts 8 (split_on 58 s) with
  | None => gc
  | Some parts =>
      match present_at parts 0 with
      | Some 4 =>
          if negb (length parts =? 2)%nat then gc
          else match present_at parts 1 with
               | None => gc
               | Some style => underscore_style style (clear_bits ALL_UNDERSCORE gc)
               end
      | Some n =>
          if (length parts <? 2)%nat || negb ((n =? 38) || (n =? 48) || (n =? 58)) then gc
          else match colon_colour parts with
               | None => gc
               | Some c => set_slot n c gc
               end
      | None => gc
      end
  end.

(** 38, 48 or 58 followed by its colour in parameters of their own: the new
    cell and the index of the last parameter used. *)
Definition sgr_colour (list : ParamList) (n : Z) (i : nat) (gc : GridCell) : GridCell * nat :=
  match get list i 0 (-1) with
  | 2 =>
      let r := get list (i + 1) 0 (-1) in
      let g := get list (i + 2) 0 (-1) in
      let b := get list (i + 3) 0 (-1) in
      if negb (r =? -1) && (r <=? 255) && negb (g =? -1) && (g <=? 255) && negb (b =? -1) && (b <=? 255)
      then (set_slot n (colour_join_rgb r g b) gc, (i + 3)%nat)
      else (gc, i)
  | 5 =>
      let c := get list (i + 1) 0 (-1) in
      (if (c =? -1) || (255 <? c)
       then if n =? 38 then with_fg COLOUR_DEFAULT gc else if n =? 48 then with_bg COLOUR_DEFAULT gc else gc
       else set_slot n (Z.lor c COLOUR_FLAG_256) gc, (i + 1)%nat)
  | _ => (gc, i)
  end.

Fixpoint sgr_loop (fuel : nat) (list : ParamList) (i : nat) (gc : GridCell) : GridCell :=
  match fuel with
  | O => gc
  | S fuel =>
      match list !! i with
      | None => gc
      | Some (Str s) => sgr_loop fuel list (S i) (dispatch_sgr_colon s gc)
      | Some _ =>
          let n := get list i 0 0 in
          if n =? -1 then sgr_loop fuel list (S i) gc
          else if (n =? 38) || (n =? 48) || (n =? 58) then
            let '(gc, i) := sgr_colour list n (S i) gc in
            sgr_loop fuel list (S i) gc
          else sgr_loop fuel list (S i) (sgr_number n gc)
      end
  end.

Definition dispatch_sgr (list : ParamList) (gc : GridCell) : GridCell :=
  match list with
  | [] => reset_keeping_link gc
  | _ => sgr_loop (length list) list 0 gc
  end.
