(* ===== verification/Passthrough.v ===== *)
(** * Terminal passthrough events

    [crates/rmux-core/src/terminal_passthrough.rs] and [InputEndType] of
    [input/mod.rs]: what a pane asks the outer terminal to do, as bounded events.
    An [Arc<[u8]>] is its contents (it is never mutated). *)

From S2P Require Import Prelude Text Utf8 InputCell.

(** Which terminator ended a string. *)
Inductive InputEndType : Type :=
| St
| Bel.

#[global] Instance InputEndType_eq_dec : EqDecision InputEndType.
Proof. solve_decision. Defined.

(** Maximum payload size retained for one event. *)
Definition MAX_TERMINAL_PASSTHROUGH_PAYLOAD_BYTES : Z := 8388608.

Inductive TerminalPassthroughKind : Type :=
| Raw
| Clipboard
| PaletteQuery
| KittyGraphics
| Sixel.

Record TerminalClipboardQuery : Type := mkClipboardQuery {
  selection : option Z;
  terminator : InputEndType
}.

Record TerminalPassthrough : Type := mkPassthrough {
  passthrough_kind : TerminalPassthroughKind;
  passthrough_cursor_x : Z;
  passthrough_cursor_y : Z;
  palette_index : option Z;
  clipboard_query : option TerminalClipboardQuery;
  payload : list Z
}.

(** ["cpqs01234567"] *)
Definition VALID_SELECTIONS : list Z := [99; 112; 113; 115; 48; 49; 50; 51; 52; 53; 54; 55].

Definition clipboard_query_new (field : list Z) (end_ : InputEndType) : TerminalClipboardQuery :=
  mkClipboardQuery (List.find (fun b => existsb (Z.eqb b) VALID_SELECTIONS) field) end_.

(** Digits only, and at most 255. *)
Definition palette_index_parse (value : list Z) : option Z :=
  match value with
  | [] => None
  | _ => if forallb is_digit value then parse_digits u8_max value else None
  end.

Definition raw (x y : Z) (data : list Z) : TerminalPassthrough := mkPassthrough Raw x y None None data.
Definition kitty_graphics (x y : Z) (data : list Z) : TerminalPassthrough := mkPassthrough KittyGraphics x y None None data.
Definition sixel (x y : Z) (data : list Z) : TerminalPassthrough := mkPassthrough Sixel x y None None data.
Definition clipboard (data : list Z) : TerminalPassthrough := mkPassthrough Clipboard 0 0 None None data.

Definition clipboard_query_event (query : TerminalClipboardQuery) (data : list Z) : TerminalPassthrough :=
  mkPassthrough Clipboard 0 0 None (Some query) data.

(** [ESC ] 4 ; index ; ? ESC \ ] *)
Definition palette_query (index : Z) : TerminalPassthrough :=
  mkPassthrough PaletteQuery 0 0 (Some index) None ([27; 93; 52; 59] ++ map byte_of (dec index) ++ [59; 63; 27; 92]).

Definition render_sequence (p : TerminalPassthrough) : list Z :=
  match clipboard_query p with
  | Some _ => []
  | None =>
      match passthrough_kind p with
      | Raw | Clipboard | PaletteQuery => payload p
      | KittyGraphics => [27; 95] ++ payload p ++ [27; 92]
      | Sixel => [27; 80] ++ payload p ++ [27; 92]
      end
  end.
