(* ===== verification/OutputRing.v ===== *)
(** * Pane output: ring, recent bytes and cursors

    [crates/rmux-core/src/events/ring.rs] and [events/cursor.rs]: the bounded
    store of a pane's live output.  Every output event gets the next sequence
    number; the ring keeps the newest events within an event and a byte budget;
    independent cursors read them in order and are told how many they missed.

    Byte strings are lists of byte values; an [Arc<[u8]>] is its contents (it is
    never mutated).  [usize] and [u64] counters are [Z] with their saturation
    written out; [None] from [push] is the panic when the sequence space is
    exhausted. *)

From S2P Require Import Prelude Passthrough.
From Stdlib Require Import Sorted.

(** ** Data *)

Record OutputEvent := mkEvent {
  sequence : Z;
  bytes : list Z;
  passthroughs : list TerminalPassthrough;
}.

Record RecentLiveChunk := mkChunk {
  chunk_sequence : Z;
  chunk_bytes : list Z;
  chunk_start : nat;
  chunk_end : nat;
  starts_at_event_start : bool;
}.

Record RecentLiveBuffer := mkRecent {
  capacity : Z;
  recent_len : Z;
  chunks : list RecentLiveChunk;
}.

Record RecentOutputSnapshotChunk := mkSnapshotChunk {
  snap_sequence : Z;
  snap_start : nat;
  snap_starts_at_event_start : bool;
}.

Record RecentOutputSnapshot := mkSnapshot {
  snapshot_bytes : list Z;
  snapshot_oldest : option Z;
  snapshot_newest : option Z;
  snapshot_chunks : list RecentOutputSnapshotChunk;
}.

Record OutputRing := mkRing {
  event_capacity : nat;
  recent_byte_capacity : Z;
  retained_event_bytes : Z;
  next_sequence : Z;
  events : list OutputEvent;
  recent : RecentLiveBuffer;
}.

Record OutputCursor := mkCursor {
  cursor_next : Z;
  missed_events : Z;
}.

Record OutputGap := mkGap {
  expected_sequence : Z;
  resume_sequence : Z;
  gap_missed : Z;
  gap_newest : Z;
  gap_snapshot : RecentOutputSnapshot;
}.

Inductive OutputCursorItem :=
| Event (e : OutputEvent)
| Gap (g : OutputGap).

Definition blen (l : list Z) : Z := Z.of_nat (length l).

(** ** The recent-bytes buffer *)

Definition recent_new (cap : Z) : RecentLiveBuffer := mkRecent cap 0 [].

(** The bytes a chunk contributes. *)
Definition chunk_slice (c : RecentLiveChunk) : list Z :=
  take (chunk_end c - chunk_start c) (drop (chunk_start c) (chunk_bytes c)).

Definition chunk_len (c : RecentLiveChunk) : Z := Z.of_nat (chunk_end c - chunk_start c).

(** The [while len > capacity] loop: every round drops the front chunk or ends
    it. *)
Fixpoint trim_front (fuel : nat) (b : RecentLiveBuffer) : RecentLiveBuffer :=
  match fuel with
  | O => b
  | S fuel =>
      if capacity b <? recent_len b then
        let overflow := recent_len b - capacity b in
        match chunks b with
        | [] => mkRecent (capacity b) 0 []
        | front :: rest =>
            if chunk_len front <=? overflow then
              trim_front fuel (mkRecent (capacity b) (recent_len b - chunk_len front) rest)
            else
              let start := (chunk_start front + Z.to_nat overflow)%nat in
              let kept := take (chunk_end front - start) (drop start (chunk_bytes front)) in
              trim_front fuel
                (mkRecent (capacity b) (recent_len b - overflow)
                   (mkChunk (chunk_sequence front) kept 0 (length kept) false :: rest))
        end
      else b
  end.

Definition recent_push (seq : Z) (bs : list Z) (b : RecentLiveBuffer) : RecentLiveBuffer :=
  if (length bs =? 0)%nat then b
  else if capacity b <=? blen bs then
    let starts := blen bs =? capacity b in
    let bs := if starts then bs else drop (length bs - Z.to_nat (capacity b)) bs in
    mkRecent (capacity b) (capacity b) [mkChunk seq bs 0 (length bs) starts]
  else
    let chunks' := chunks b ++ [mkChunk seq bs 0 (length bs) true] in
    trim_front (S (length chunks'))
      (mkRecent (capacity b) (u64_sat_add (recent_len b) (blen bs)) chunks').

Definition recent_clear (b : RecentLiveBuffer) : RecentLiveBuffer := mkRecent (capacity b) 0 [].

(** The loop of [snapshot]: [acc] are the bytes so far. *)
Fixpoint snapshot_loop (acc : list Z) (cs : list RecentLiveChunk)
  : list Z * list RecentOutputSnapshotChunk :=
  match cs with
  | [] => (acc, [])
  | c :: rest =>
      let '(bs, snaps) := snapshot_loop (acc ++ chunk_slice c) rest in
      (bs, mkSnapshotChunk (chunk_sequence c) (length acc) (starts_at_event_start c) :: snaps)
  end.

Definition snapshot (b : RecentLiveBuffer) : RecentOutputSnapshot :=
  let '(bs, snaps) := snapshot_loop [] (chunks b) in
  mkSnapshot bs (chunk_sequence <$> head (chunks b)) (chunk_sequence <$> last (chunks b)) snaps.

(** Readers of a snapshot. *)
Definition first_chunk_from (min_sequence : Z) (s : RecentOutputSnapshot)
  : option RecentOutputSnapshotChunk :=
  List.find (fun c => min_sequence <=? snap_sequence c) (snapshot_chunks s).

Definition bytes_from_sequence (s : RecentOutputSnapshot) (min_sequence : Z) : list Z :=
  let start := match first_chunk_from min_sequence s with
               | Some c => snap_start c
               | None => length (snapshot_bytes s)
               end in
  drop start (snapshot_bytes s).

Definition oldest_sequence_at_or_after (s : RecentOutputSnapshot) (min_sequence : Z) : option Z :=
  snap_sequence <$> first_chunk_from min_sequence s.

Definition snapshot_starts_at_event_start (s : RecentOutputSnapshot) (seq : Z) : bool :=
  match List.find (fun c => snap_sequence c =? seq) (snapshot_chunks s) with
  | Some c => snap_starts_at_event_start c
  | None => false
  end.

(** ** The ring *)

Definition DEFAULT_OUTPUT_RING_CAPACITY : nat := 2048.
Definition DEFAULT_RECENT_LIVE_BUFFER_CAPACITY : Z := 256 * 1024.

(** [None] is the panic on a zero capacity. *)
Definition ring_new (event_cap : nat) (byte_cap : Z) : option OutputRing :=
  if (event_cap =? 0)%nat || (byte_cap =? 0) then None
  else Some (mkRing event_cap byte_cap 0 0 [] (recent_new byte_cap)).

Definition with_default_capacities : option OutputRing :=
  ring_new DEFAULT_OUTPUT_RING_CAPACITY DEFAULT_RECENT_LIVE_BUFFER_CAPACITY.

Definition pop_oldest_event (r : OutputRing) : OutputRing :=
  match events r with
  | [] => r
  | e :: rest =>
      mkRing (event_capacity r) (recent_byte_capacity r)
        (sat_sub (retained_event_bytes r) (blen (bytes e))) (next_sequence r) rest (recent r)
  end.

(** The two [while] loops of [push]; each round pops one event. *)
Fixpoint pop_while (keep : OutputRing -> bool) (fuel : nat) (r : OutputRing) : OutputRing :=
  match fuel with
  | O => r
  | S fuel => if keep r then r else pop_while keep fuel (pop_oldest_event r)
  end.

Definition within_events (r : OutputRing) : bool := (length (events r) <=? event_capacity r)%nat.

Definition within_bytes (r : OutputRing) : bool :=
  negb ((recent_byte_capacity r <? retained_event_bytes r) && (1 <? length (events r))%nat).

Definition push_shared_with_recent_retention (bs : list Z) (retain_recent : bool) (r : OutputRing)
  : option (Z * OutputRing) :=
  let seq := next_sequence r in
  if u64_max <? seq + 1 then None
  else
    let recent' := if retain_recent then recent_push seq bs (recent r) else recent r in
    let r1 := mkRing (event_capacity r) (recent_byte_capacity r)
                (u64_sat_add (retained_event_bytes r) (blen bs)) (seq + 1)
                (events r ++ [mkEvent seq bs []]) recent' in
    let r2 := pop_while within_events (length (events r1)) r1 in
    let r3 := pop_while within_bytes (length (events r2)) r2 in
    Some (seq, r3).

Definition ring_push (bs : list Z) (r : OutputRing) : option (Z * OutputRing) :=
  push_shared_with_recent_retention bs true r.

Definition clear_retained (r : OutputRing) : OutputRing :=
  mkRing (event_capacity r) (recent_byte_capacity r) 0 (next_sequence r) [] (recent_clear (recent r)).

Definition oldest_sequence (r : OutputRing) : Z :=
  match events r with [] => next_sequence r | e :: _ => sequence e end.

Definition newest_sequence (r : OutputRing) : Z := sat_sub (next_sequence r) 1.

(** ** Cursors *)

Definition cursor_new (next : Z) : OutputCursor := mkCursor next 0.
Definition cursor_from_oldest (r : OutputRing) : OutputCursor := cursor_new (oldest_sequence r).
Definition cursor_from_now (r : OutputRing) : OutputCursor := cursor_new (next_sequence r).

Definition advance_to (next : Z) (c : OutputCursor) : OutputCursor := mkCursor next (missed_events c).

Definition advance_past_sequence (seq : Z) (c : OutputCursor) : bool * OutputCursor :=
  if cursor_next c =? seq then (true, advance_to (wrap_u64 (seq + 1)) c) else (false, c).

Definition record_gap (missed resume : Z) (c : OutputCursor) : OutputCursor :=
  mkCursor resume (u64_sat_add (missed_events c) missed).

Definition poll_cursor (r : OutputRing) (c : OutputCursor) : option OutputCursorItem * OutputCursor :=
  let next := cursor_next c in
  let oldest := oldest_sequence r in
  if next <? oldest then
    let missed := sat_sub oldest next in
    (Some (Gap (mkGap next oldest missed (newest_sequence r) (snapshot (recent r)))),
     record_gap missed oldest c)
  else if next_sequence r <=? next then (None, c)
  else
    match events r !! Z.to_nat (sat_sub next oldest) with
    | None => (None, c)
    | Some e => (Some (Event e), advance_to (wrap_u64 (next + 1)) c)
    end.

Fixpoint poll_cursor_batch (r : OutputRing) (limit : nat) (c : OutputCursor)
  : list OutputCursorItem * OutputCursor :=
  match limit with
  | O => ([], c)
  | S limit =>
      match poll_cursor r c with
      | (None, c) => ([], c)
      | (Some (Gap g), c) => ([Gap g], c)
      | (Some (Event e), c) =>
          let '(items, c) := poll_cursor_batch r limit c in (Event e :: items, c)
      end
  end.

(** ** Recent bytes: the invariant

    Rust slices are no longer than [isize::MAX], and so are the capacities in
    use. *)
Definition isize_max : Z := 9223372036854775807.

Definition recent_bytes (b : RecentLiveBuffer) : list Z := concat (map chunk_slice (chunks b)).

(** The last [n] elements. *)
Definition last_bytes (n : Z) (l : list Z) : list Z := drop (length l - Z.to_nat n) l.

Definition chunk_ok (c : RecentLiveChunk) : Prop :=
  chunk_start c = 0%nat /\ chunk_end c = length (chunk_bytes c) /\ chunk_bytes c <> [].

Record recent_ok (b : RecentLiveBuffer) : Prop := {
  rok_capacity : 1 <= capacity b <= isize_max;
  rok_chunks : Forall chunk_ok (chunks b);
  rok_len : recent_len b = blen (recent_bytes b);
  rok_bound : recent_len b <= capacity b;
}.

Lemma chunk_ok_slice c : chunk_ok c -> chunk_slice c = chunk_bytes c /\ chunk_len c = blen (chunk_bytes c).
Proof.
  intros (H1 & H2 & _). unfold chunk_slice, chunk_len, blen. rewrite H1, H2, drop_0, Nat.sub_0_r.
  by rewrite firstn_all.
Qed.

Lemma blen_app l1 l2 : blen (l1 ++ l2) = blen l1 + blen l2.
Proof. unfold blen. rewrite length_app. lia. Qed.

Lemma last_bytes_all n l : blen l <= n -> last_bytes n l = l.
Proof. intros H. unfold last_bytes, blen in *. replace (_ - _)%nat with 0%nat by lia. apply drop_0. Qed.

Lemma last_bytes_app n l1 l2 : n <= blen l2 -> last_bytes n (l1 ++ l2) = last_bytes n l2.
Proof.
  intros H. unfold last_bytes, blen in *. rewrite length_app, drop_app.
  rewrite drop_ge by lia. simpl. f_equal. lia.
Qed.

Lemma blen_last_bytes n l : 0 <= n -> blen (last_bytes n l) = Z.min n (blen l).
Proof. intros H. unfold last_bytes, blen. rewrite length_drop. lia. Qed.

(** Keeping the last [n] bytes can be done in steps. *)
Lemma last_bytes_last n l1 l2 : 0 <= n -> last_bytes n (last_bytes n l1 ++ l2) = last_bytes n (l1 ++ l2).
Proof.
  intros Hn. destruct (Z.le_gt_cases (blen l1) n) as [H|H]; [by rewrite (last_bytes_all n l1)|].
  unfold last_bytes at 2. set (k := (length l1 - Z.to_nat n)%nat).
  rewrite <- (take_drop k l1) at 2. rewrite <- app_assoc. symmetry. apply last_bytes_app.
  rewrite blen_app. unfold blen in *. rewrite length_drop. lia.
Qed.

Lemma trim_front_fit fuel b : recent_len b <= capacity b -> trim_front fuel b = b.
Proof. intros H. destruct fuel; [done|]. simpl. by rewrite (proj2 (Z.ltb_ge _ _)). Qed.

Lemma trim_front_spec fuel b :
  1 <= capacity b -> Forall chunk_ok (chunks b) -> recent_len b = blen (recent_bytes b) ->
  (length (chunks b) < fuel)%nat ->
  let b' := trim_front fuel b in
  capacity b' = capacity b /\ Forall chunk_ok (chunks b') /\
  recent_len b' = blen (recent_bytes b') /\ recent_len b' <= capacity b /\
  recent_bytes b' = last_bytes (capacity b) (recent_bytes b).
Proof.
  revert b. induction fuel as [|fuel IH]; intros b Hcap Hok Hlen Hf; [lia|]. simpl.
  destruct (Z.ltb_spec (capacity b) (recent_len b)) as [Hover|Hfit].
  2:{ split_and!; try done. rewrite last_bytes_all; [done|]. lia. }
  destruct b as [cap len cs]. cbn [capacity recent_len chunks] in *. unfold recent_bytes in *.
  cbn [chunks] in *. destruct cs as [|front rest]; [simpl in Hlen; unfold blen in Hlen; simpl in Hlen; lia|].
  apply Forall_cons in Hok as [Hfront Hrest]. destruct (chunk_ok_slice _ Hfront) as [Hsl Hcl].
  cbn [map concat] in *. rewrite Hsl, blen_app in Hlen. rewrite Hsl, Hcl.
  destruct (Z.leb_spec (blen (chunk_bytes front)) (len - cap)) as [Hpop|Hcut].
  - destruct (IH (mkRecent cap (len - blen (chunk_bytes front)) rest)) as (I1 & I2 & I3 & I4 & I5);
      cbn [capacity recent_len chunks] in *; [done|done|unfold recent_bytes; simpl; lia|simpl in Hf; lia|].
    split_and!; try done. unfold recent_bytes in I5. rewrite I5. cbn [chunks]. symmetry.
    apply last_bytes_app. lia.
  - destruct Hfront as (S0 & E0 & N0). rewrite S0, E0. cbn [Nat.add].
    set (k := Z.to_nat (len - cap)).
    assert (take (length (chunk_bytes front) - k) (drop k (chunk_bytes front)) = drop k (chunk_bytes front))
      as -> by (apply firstn_all2; rewrite length_drop; lia).
    set (kept := drop k (chunk_bytes front)).
    assert (blen kept = blen (chunk_bytes front) - (len - cap)) as Hk
      by (unfold kept, blen in *; rewrite length_drop; lia).
    assert (chunk_slice (mkChunk (chunk_sequence front) kept 0 (length kept) false) = kept) as Hks.
    { unfold chunk_slice. simpl. rewrite Nat.sub_0_r. apply firstn_all. }
    assert (kept <> []) as Hkn by (intros E; rewrite E in Hk; unfold blen in *; simpl in Hk; lia).
    rewrite trim_front_fit by (simpl; lia). unfold recent_bytes. cbn [capacity recent_len chunks map concat].
    rewrite Hks, blen_app. split_and!; [done|by constructor|lia|lia|].
    rewrite <- (take_drop k (chunk_bytes front)), <- app_assoc. fold kept.
    rewrite last_bytes_app by (rewrite blen_app; lia). rewrite last_bytes_all; [done|].
    rewrite blen_app. lia.
Qed.

Lemma recent_push_ok seq bs b :
  recent_ok b -> blen bs <= isize_max ->
  let b' := recent_push seq bs b in
  recent_ok b' /\ capacity b' = capacity b /\
  recent_bytes b' = last_bytes (capacity b) (recent_bytes b ++ bs).
Proof.
  intros [Hcap Hok Hlen Hb] Hbs b'. unfold b', recent_push.
  destruct (Nat.eqb_spec (length bs) 0) as [E|E].
  { apply nil_length_inv in E. subst bs. rewrite app_nil_r. split; [by split|]. split; [done|].
    rewrite last_bytes_all; [done|]. lia. }
  destruct (Z.leb_spec (capacity b) (blen bs)) as [Hbig|Hsmall].
  - set (kept := if blen bs =? capacity b then bs else drop (length bs - Z.to_nat (capacity b)) bs).
    assert (kept = last_bytes (capacity b) bs) as Hkept.
    { unfold kept. destruct (Z.eqb_spec (blen bs) (capacity b)) as [Ec|]; [|done].
      rewrite last_bytes_all; [done|lia]. }
    assert (blen kept = capacity b) as Hkl by (rewrite Hkept, blen_last_bytes by lia; lia).
    assert (chunk_ok (mkChunk seq kept 0 (length kept) (blen bs =? capacity b))) as Hck.
    { split_and!; [done|done|]. simpl. intros En. rewrite En in Hkl. unfold blen in Hkl. simpl in Hkl. lia. }
    destruct (chunk_ok_slice _ Hck) as [Hsl _]. cbn [chunk_bytes] in Hsl.
    assert (recent_bytes (mkRecent (capacity b) (capacity b)
      [mkChunk seq kept 0 (length kept) (blen bs =? capacity b)]) = kept) as Hrb.
    { unfold recent_bytes. cbn [chunks map concat]. rewrite Hsl. apply app_nil_r. }
    split; [split; cbn [capacity recent_len chunks]; [done|by constructor|rewrite Hrb; lia|lia]|].
    split; [done|]. rewrite Hrb, Hkept. symmetry. apply last_bytes_app. lia.
  - set (c := mkChunk seq bs 0 (length bs) true).
    assert (chunk_ok c) as Hck.
    { split_and!; [done|done|]. simpl. intros ->. by simpl in E. }
    destruct (chunk_ok_slice _ Hck) as [Hsl _]. cbn [chunk_bytes] in Hsl.
    destruct (trim_front_spec (S (length (chunks b ++ [c])))
      (mkRecent (capacity b) (u64_sat_add (recent_len b) (blen bs)) (chunks b ++ [c])))
      as (T1 & T2 & T3 & T4 & T5); cbn [capacity recent_len chunks] in *.
    + lia.
    + apply Forall_app. split; [done|by constructor].
    + unfold recent_bytes. cbn [chunks]. rewrite map_app, concat_app. cbn [map concat].
      rewrite app_nil_r, Hsl, blen_app. fold (recent_bytes b). change (chunk_bytes c) with bs. unfold isize_max in *. machine.
    + lia.
    + split; [split; [by rewrite T1|done|done|by rewrite T1]|]. split; [done|]. rewrite T5.
      unfold recent_bytes at 1. cbn [chunks]. rewrite map_app, concat_app. cbn [map concat].
      rewrite app_nil_r, Hsl. done.
Qed.

(** ** The ring against its log

    The specification of a ring is the list of all byte strings ever pushed to
    it, whose positions are the sequence numbers.  The ring retains the part of
    the log from some position [k] on. *)

Definition events_from (log : list (list Z)) (k : nat) : list OutputEvent :=
  imap (fun i bs => mkEvent (Z.of_nat (k + i)) bs []) (drop k log).

Definition log_bytes (log : list (list Z)) (k : nat) : Z := sumZ (map blen (drop k log)).

Record ring_at (log : list (list Z)) (k : nat) (r : OutputRing) : Prop := {
  ra_next : next_sequence r = Z.of_nat (length log);
  ra_space : next_sequence r <= u64_max;
  ra_oldest : (k <= length log)%nat;
  ra_events : events r = events_from log k;
  ra_bytes : retained_event_bytes r = log_bytes log k;
  ra_event_cap : (1 <= event_capacity r)%nat;
  ra_byte_cap : 1 <= recent_byte_capacity r <= isize_max;
  ra_lens : Forall (fun bs => blen bs <= isize_max) log;
  ra_recent : recent_ok (recent r);
}.

(** The retention budgets. *)
Record ring_fits (r : OutputRing) : Prop := {
  fit_events : (length (events r) <= event_capacity r)%nat;
  fit_bytes : retained_event_bytes r <= recent_byte_capacity r \/ (length (events r) <= 1)%nat;
}.

Definition ring_ok (log : list (list Z)) (r : OutputRing) : Prop :=
  (exists k, ring_at log k r) /\ ring_fits r.

Lemma length_events_from log k : length (events_from log k) = (length log - k)%nat.
Proof. unfold events_from. by rewrite length_imap, length_drop. Qed.

Lemma events_from_cons log k bs :
  log !! k = Some bs -> events_from log k = mkEvent (Z.of_nat k) bs [] :: events_from log (S k).
Proof.
  intros Hk. unfold events_from. rewrite (drop_S _ _ _ Hk). cbn [imap]. f_equal.
  - f_equal. lia.
  - apply imap_ext. intros i x _. simpl. f_equal. lia.
Qed.

Lemma events_from_lookup log k i :
  (k <= i)%nat -> events_from log k !! (i - k)%nat = (fun bs => mkEvent (Z.of_nat i) bs []) <$> log !! i.
Proof.
  intros Hk. unfold events_from. rewrite list_lookup_imap, lookup_drop.
  replace (k + (i - k))%nat with i by lia. done.
Qed.

Lemma events_from_snoc log k bs :
  (k <= length log)%nat ->
  events_from (log ++ [bs]) k = events_from log k ++ [mkEvent (Z.of_nat (length log)) bs []].
Proof.
  intros Hk. unfold events_from. rewrite drop_app_le by done. rewrite imap_app. f_equal. cbn [imap].
  do 2 f_equal. rewrite length_drop. lia.
Qed.

Lemma log_bytes_cons log k bs : log !! k = Some bs -> log_bytes log k = blen bs + log_bytes log (S k).
Proof. intros Hk. unfold log_bytes. by rewrite (drop_S _ _ _ Hk). Qed.

Lemma log_bytes_snoc log k bs :
  (k <= length log)%nat -> log_bytes (log ++ [bs]) k = log_bytes log k + blen bs.
Proof.
  intros Hk. unfold log_bytes. rewrite drop_app_le by done. rewrite map_app, sumZ_app.
  unfold sumZ at 2. simpl. lia.
Qed.

Lemma log_bytes_nonneg log k : 0 <= log_bytes log k.
Proof. unfold log_bytes. apply sumZ_nonneg, Forall_map, Forall_true. intros x. simpl. unfold blen. lia. Qed.

Lemma pop_oldest_event_at log k r :
  ring_at log k r -> (k < length log)%nat -> ring_at log (S k) (pop_oldest_event r).
Proof.
  intros [H1 H2 H3 H4 H5 H6 H7 H8 H9] Hk. destruct (lookup_lt_is_Some_2 log k Hk) as [bs Hbs].
  rewrite (events_from_cons _ _ _ Hbs) in H4. unfold pop_oldest_event. rewrite H4.
  split; cbn; try done; try lia. rewrite H5, (log_bytes_cons _ _ _ Hbs).
  pose proof (log_bytes_nonneg log (S k)). machine.
Qed.

Lemma pop_oldest_event_caps r :
  event_capacity (pop_oldest_event r) = event_capacity r /\
  recent_byte_capacity (pop_oldest_event r) = recent_byte_capacity r /\
  recent (pop_oldest_event r) = recent r.
Proof. unfold pop_oldest_event. by destruct (events r). Qed.

(** The ring that retains the log from [j] on. *)
Definition retain_from (log : list (list Z)) (j : nat) (r : OutputRing) : OutputRing :=
  mkRing (event_capacity r) (recent_byte_capacity r) (log_bytes log j) (next_sequence r)
    (events_from log j) (recent r).

Lemma ring_at_retain log k r : ring_at log k r -> r = retain_from log k r.
Proof. intros []. destruct r. unfold retain_from. cbn in *. congruence. Qed.

(** A popping loop stops at the first position its condition accepts, and never
    pops the newest event. *)
Lemma pop_while_at keep fuel log k r :
  (forall r, (1 <= event_capacity r)%nat -> (length (events r) <= 1)%nat -> keep r = true) ->
  ring_at log k r -> (length log - k <= fuel)%nat ->
  exists k', let r' := pop_while keep fuel r in
    ring_at log k' r' /\ r' = retain_from log k' r /\ keep r' = true /\
    (k <= k')%nat /\ ((k < length log)%nat -> (k' < length log)%nat) /\
    (forall j, (k <= j < k')%nat -> keep (retain_from log j r) = false).
Proof.
  intros Hkeep. revert k r. induction fuel as [|fuel IH]; intros k r Hat Hf; simpl.
  { exists k. split_and!; try done; [by apply ring_at_retain| |intros; lia]. apply Hkeep; [apply Hat|].
    rewrite (ra_events _ _ _ Hat), length_events_from. lia. }
  destruct (keep r) eqn:Hk.
  { exists k. split_and!; try done; [by apply ring_at_retain|intros; lia]. }
  assert (S k < length log)%nat as Hlt.
  { destruct (decide (S k < length log)%nat) as [|Hge]; [done|]. exfalso.
    assert (keep r = true); [|congruence]. apply Hkeep; [apply Hat|].
    rewrite (ra_events _ _ _ Hat), length_events_from. lia. }
  destruct (IH (S k) (pop_oldest_event r)) as (k' & I1 & I2 & I3 & I4 & I5 & I6);
    [apply pop_oldest_event_at; [done|lia]|lia|].
  assert (forall j, retain_from log j (pop_oldest_event r) = retain_from log j r) as Hsame.
  { intros j. unfold pop_oldest_event. by destruct (events r). }
  exists k'. rewrite Hsame in I2. split_and!; try done; [lia|intros _; apply I5; lia|].
  intros j Hj. destruct (decide (j = k)) as [->|Hne].
  - by rewrite <- (ring_at_retain _ _ _ Hat).
  - rewrite <- Hsame. apply I6. lia.
Qed.

(** ** Properties of [push] *)

Section Push.
Context (log : list (list Z)) (k : nat) (r : OutputRing) (bs : list Z) (retain_recent : bool).
Context (Hat : ring_at log k r) (Hfit : ring_fits r) (Hbs : blen bs <= isize_max).
Context (Hspace : Z.of_nat (length log) < u64_max).

Let recent' := if retain_recent then recent_push (Z.of_nat (length log)) bs (recent r) else recent r.

(** The ring after appending, before anything is evicted. *)
Let appended := mkRing (event_capacity r) (recent_byte_capacity r)
  (u64_sat_add (retained_event_bytes r) (blen bs)) (Z.of_nat (length log) + 1)
  (events r ++ [mkEvent (Z.of_nat (length log)) bs []]) recent'.

Lemma recent'_ok :
  recent_ok recent' /\
  recent_bytes recent' =
  if retain_recent then last_bytes (capacity (recent r)) (recent_bytes (recent r) ++ bs)
  else recent_bytes (recent r).
Proof.
  unfold recent'. destruct retain_recent; [|split; [apply Hat|done]].
  destruct (recent_push_ok (Z.of_nat (length log)) bs (recent r)) as (H1 & _ & H2); [apply Hat|done|done].
Qed.

Lemma retained_small : 0 <= retained_event_bytes r <= isize_max.
Proof.
  rewrite (ra_bytes _ _ _ Hat). split; [apply log_bytes_nonneg|]. destruct Hfit as [_ [Hb|Hb]].
  - rewrite (ra_bytes _ _ _ Hat) in Hb. pose proof (ra_byte_cap _ _ _ Hat). lia.
  - rewrite (ra_events _ _ _ Hat), length_events_from in Hb. pose proof (ra_oldest _ _ _ Hat) as Ho.
    pose proof (ra_lens _ _ _ Hat) as Hl. destruct (decide (k < length log)%nat) as [Hk|Hk].
    + destruct (lookup_lt_is_Some_2 log k Hk) as [b Hbk]. rewrite (log_bytes_cons _ _ _ Hbk).
      unfold log_bytes. rewrite drop_ge by lia. rewrite Forall_forall in Hl.
      specialize (Hl b ltac:(by eapply list_elem_of_lookup_2)). unfold sumZ. simpl. lia.
    + unfold log_bytes. rewrite drop_ge by lia. done.
Qed.

Lemma appended_at : ring_at (log ++ [bs]) k appended.
Proof.
  destruct Hat as [H1 H2 H3 H4 H5 H6 H7 H8 H9]. pose proof retained_small as Hs.
  unfold appended. split; cbn.
  - rewrite length_app. simpl. lia.
  - lia.
  - rewrite length_app. lia.
  - by rewrite H4, events_from_snoc.
  - rewrite log_bytes_snoc by done. unfold isize_max in *. unfold blen in *. machine.
  - done.
  - done.
  - apply Forall_app. split; [done|by constructor].
  - apply recent'_ok.
Qed.

(** The position the ring retains from after the push. *)
Lemma push_spec :
  exists k' r',
    push_shared_with_recent_retention bs retain_recent r = Some (Z.of_nat (length log), r') /\
    ring_at (log ++ [bs]) k' r' /\ ring_fits r' /\ (k <= k' <= length log)%nat /\
    recent r' = recent' /\
    event_capacity r' = event_capacity r /\ recent_byte_capacity r' = recent_byte_capacity r /\
    (forall j, (k <= j < k')%nat ->
       (event_capacity r < S (length log) - j)%nat \/
       (recent_byte_capacity r < log_bytes (log ++ [bs]) j /\ (1 < S (length log) - j)%nat)).
Proof.
  pose proof appended_at as Hap. assert (length (log ++ [bs]) = S (length log)) as Hll
    by (rewrite length_app; simpl; lia).
  destruct (pop_while_at within_events (length (events appended)) (log ++ [bs]) k appended)
    as (k1 & A1 & A2 & A3 & A4 & A5 & A6).
  { intros r0 H1 H2. unfold within_events. apply Nat.leb_le. lia. }
  { done. }
  { rewrite (ra_events _ _ _ Hap), length_events_from. lia. }
  set (r1 := pop_while within_events _ appended) in *.
  destruct (pop_while_at within_bytes (length (events r1)) (log ++ [bs]) k1 r1)
    as (k2 & B1 & B2 & B3 & B4 & B5 & B6).
  { intros r0 H1 H2. unfold within_bytes. rewrite (proj2 (Nat.ltb_ge _ _)) by lia. by rewrite andb_false_r. }
  { done. }
  { rewrite (ra_events _ _ _ A1), length_events_from. lia. }
  set (r2 := pop_while within_bytes _ r1) in *.
  assert (k <= length log)%nat as Hk by apply Hat.
  assert (event_capacity r1 = event_capacity r /\ recent_byte_capacity r1 = recent_byte_capacity r /\
          recent r1 = recent') as (C1 & C2 & C3) by (by rewrite A2).
  exists k2, r2. split_and!; [|done| |lia|lia|by rewrite B2|by rewrite B2|by rewrite B2|].
  - unfold push_shared_with_recent_retention. rewrite (ra_next _ _ _ Hat).
    rewrite (proj2 (Z.ltb_ge _ _)) by lia. done.
  - split.
    + unfold within_events in A3. apply Nat.leb_le in A3. rewrite (ra_events _ _ _ A1), length_events_from in A3.
      rewrite (ra_events _ _ _ B1), length_events_from.
      assert (event_capacity r2 = event_capacity r1) as -> by (by rewrite B2). lia.
    + unfold within_bytes in B3. rewrite negb_true_iff, andb_false_iff in B3.
      destruct B3 as [B3|B3]; [left; by apply Z.ltb_ge|right; by apply Nat.ltb_ge].
  - intros j Hj. destruct (decide (j < k1)%nat) as [Hj1|Hj1].
    + left. specialize (A6 j ltac:(lia)). unfold within_events, retain_from in A6.
      cbn [events event_capacity appended] in A6. apply Nat.leb_gt in A6.
      rewrite length_events_from in A6. lia.
    + right. specialize (B6 j ltac:(lia)). unfold within_bytes, retain_from in B6.
      cbn [events retained_event_bytes recent_byte_capacity] in B6.
      rewrite negb_false_iff, andb_true_iff, Z.ltb_lt, Nat.ltb_lt, length_events_from in B6.
      rewrite C2 in B6. lia.
Qed.
End Push.

(** ** A ring, its log and one subscriber

    The steps a ring and one of its cursors go through, in any order: output is
    pushed, retained output is cleared, the subscriber polls.  [obs_log] and
    [obs_recent] are ghost: everything ever pushed, and the bytes pushed with
    recent retention since the last clear. *)

Record Observed := mkObserved {
  obs_log : list (list Z);
  obs_recent : list Z;
  obs_ring : OutputRing;
  obs_cursor : OutputCursor;
  obs_seen : list OutputEvent;
}.

Inductive observed_step : Observed -> Observed -> Prop :=
| step_push log rec r c seen bs retain_recent seq r' :
    blen bs <= isize_max ->
    push_shared_with_recent_retention bs retain_recent r = Some (seq, r') ->
    observed_step (mkObserved log rec r c seen)
      (mkObserved (log ++ [bs]) (if retain_recent then rec ++ bs else rec) r' c seen)
| step_clear log rec r c seen :
    observed_step (mkObserved log rec r c seen) (mkObserved log [] (clear_retained r) c seen)
| step_poll log rec r c seen item c' :
    poll_cursor r c = (item, c') ->
    observed_step (mkObserved log rec r c seen)
      (mkObserved log rec r c'
         match item with Some (Event e) => seen ++ [e] | _ => seen end).

(** A new ring with a cursor on it. *)
Definition observed_init (o : Observed) : Prop :=
  exists event_cap byte_cap r,
    1 <= byte_cap <= isize_max /\ ring_new event_cap byte_cap = Some r /\
    o = mkObserved [] [] r (cursor_from_now r) [].

Definition observed_reachable (o : Observed) : Prop := exists o0, observed_init o0 /\ rtc observed_step o0 o.

Record observed_ok (o : Observed) : Prop := {
  ook_ring : ring_ok (obs_log o) (obs_ring o);
  ook_recent : recent_bytes (recent (obs_ring o)) =
               last_bytes (capacity (recent (obs_ring o))) (obs_recent o);
  ook_next : 0 <= cursor_next (obs_cursor o) <= next_sequence (obs_ring o);
  ook_count : missed_events (obs_cursor o) + Z.of_nat (length (obs_seen o)) = cursor_next (obs_cursor o);
  ook_missed : 0 <= missed_events (obs_cursor o);
  ook_seen : Forall (fun e => 0 <= sequence e < cursor_next (obs_cursor o) /\
                              obs_log o !! Z.to_nat (sequence e) = Some (bytes e)) (obs_seen o);
  ook_order : StronglySorted Z.lt (map sequence (obs_seen o));
}.

Lemma clear_retained_at log k r : ring_at log k r -> ring_at log (length log) (clear_retained r).
Proof.
  intros [H1 H2 H3 H4 H5 H6 H7 H8 H9]. unfold clear_retained. split; cbn; try done.
  - unfold events_from. by rewrite drop_all.
  - unfold log_bytes. by rewrite drop_all.
  - destruct H9 as [R1 R2 R3 R4]. split; cbn; [done|constructor|done|lia].
Qed.

(** Every case of a poll on a ring that retains from [k]. *)
Lemma poll_cursor_spec log k r c :
  ring_at log k r -> 0 <= cursor_next c <= next_sequence r ->
  (exists g, poll_cursor r c = (Some (Gap g), record_gap (gap_missed g) (resume_sequence g) c) /\
     cursor_next c < Z.of_nat k /\ expected_sequence g = cursor_next c /\
     resume_sequence g = Z.of_nat k /\ gap_missed g = Z.of_nat k - cursor_next c /\
     gap_snapshot g = snapshot (recent r)) \/
  (cursor_next c = next_sequence r /\ poll_cursor r c = (None, c)) \/
  (exists bs, Z.of_nat k <= cursor_next c < next_sequence r /\
     log !! Z.to_nat (cursor_next c) = Some bs /\
     poll_cursor r c = (Some (Event (mkEvent (cursor_next c) bs [])), advance_to (cursor_next c + 1) c)).
Proof.
  intros Hat Hc. pose proof (ra_next _ _ _ Hat) as Hn. pose proof (ra_space _ _ _ Hat) as Hsp.
  pose proof (ra_oldest _ _ _ Hat) as Hk.
  assert (oldest_sequence r = Z.of_nat k) as Ho.
  { unfold oldest_sequence. rewrite (ra_events _ _ _ Hat).
    destruct (decide (k < length log)%nat) as [Hlt|Hge].
    - destruct (lookup_lt_is_Some_2 log k Hlt) as [bs Hbs]. by rewrite (events_from_cons _ _ _ Hbs).
    - unfold events_from. rewrite drop_ge by lia. simpl. lia. }
  unfold poll_cursor. rewrite Ho. destruct (Z.ltb_spec (cursor_next c) (Z.of_nat k)) as [Hlt|Hge].
  { left. exists (mkGap (cursor_next c) (Z.of_nat k) (sat_sub (Z.of_nat k) (cursor_next c))
                   (newest_sequence r) (snapshot (recent r))). split; [reflexivity|]. cbn. split_and!; try done. machine. }
  destruct (Z.leb_spec (next_sequence r) (cursor_next c)) as [Hend|Hin].
  { right. left. split; [lia|done]. }
  right. right. replace (Z.to_nat (sat_sub (cursor_next c) (Z.of_nat k)))
    with (Z.to_nat (cursor_next c) - k)%nat by (unfold sat_sub; lia).
  rewrite (ra_events _ _ _ Hat), events_from_lookup by lia.
  destruct (lookup_lt_is_Some_2 log (Z.to_nat (cursor_next c))) as [bs Hbs]; [lia|].
  rewrite Hbs. exists bs. split_and!; [lia|lia|done|]. cbn. rewrite Z2Nat.id by lia. do 2 f_equal.
  unfold wrap_u64. apply Z.mod_small. unfold u64_max in Hsp. lia.
Qed.

Lemma observed_init_ok o : observed_init o -> observed_ok o.
Proof.
  intros (ec & bc & r & Hbc & Hnew & ->). unfold ring_new in Hnew.
  destruct (Nat.eqb_spec ec 0); [done|]. destruct (Z.eqb_spec bc 0); [lia|]. cbn in Hnew. simplify_eq.
  assert (recent_ok (recent_new bc)) as Hrec by (split; cbn; [done|constructor|done|lia]).
  split; cbn; try done.
  - split; [exists 0%nat; split; cbn; try done; lia|split; cbn; lia].
  - constructor.
Qed.

Lemma StronglySorted_snoc l z :
  StronglySorted Z.lt l -> Forall (fun x => x < z) l -> StronglySorted Z.lt (l ++ [z]).
Proof.
  induction 1 as [|x l Hs IH Hx]; intros Hz; simpl; [by repeat constructor|].
  apply Forall_cons in Hz as [Hxz Hz]. constructor; [auto|]. apply Forall_app. split; [done|by constructor].
Qed.

Lemma observed_push_ok log rec r c seen bs retain_recent seq r' :
  observed_ok (mkObserved log rec r c seen) -> blen bs <= isize_max ->
  push_shared_with_recent_retention bs retain_recent r = Some (seq, r') ->
  observed_ok (mkObserved (log ++ [bs]) (if retain_recent then rec ++ bs else rec) r' c seen).
Proof.
  intros [[(k & Hat) Hfit] Hrec Hnext Hcount Hmissed Hseen Hord] Hbs Hpush.
  cbn [obs_log obs_recent obs_ring obs_cursor obs_seen] in *.
  pose proof (ra_next _ _ _ Hat) as Hn.
  assert (Z.of_nat (length log) < u64_max) as Hspace.
  { unfold push_shared_with_recent_retention in Hpush.
    destruct (Z.ltb_spec u64_max (next_sequence r + 1)); [done|]. lia. }
  destruct (push_spec log k r bs retain_recent Hat Hfit Hbs Hspace)
    as (k' & r'' & E & Hat' & Hfit' & Hk & Hr' & _).
  rewrite E in Hpush. injection Hpush as <- <-.
  destruct (recent'_ok log k r bs retain_recent Hat Hbs) as [Hok Hrb].
  pose proof (ra_recent _ _ _ Hat) as Hrok.
  split; cbn [obs_log obs_recent obs_ring obs_cursor obs_seen]; try done.
  - split; [by exists k'|done].
  - rewrite Hr'. destruct retain_recent; [|done]. rewrite Hrb.
    destruct (recent_push_ok (Z.of_nat (length log)) bs (recent r) Hrok Hbs) as (_ & -> & _).
    rewrite Hrec. apply last_bytes_last. pose proof (rok_capacity _ Hrok). lia.
  - rewrite (ra_next _ _ _ Hat'), length_app. simpl. lia.
  - eapply Forall_impl; [exact Hseen|]. intros e [H1 H2]. split; [done|]. by apply lookup_app_l_Some.
Qed.

Lemma observed_poll_ok log rec r c seen item c' :
  observed_ok (mkObserved log rec r c seen) -> poll_cursor r c = (item, c') ->
  observed_ok (mkObserved log rec r c'
    match item with Some (Event e) => seen ++ [e] | _ => seen end).
Proof.
  intros [[(k & Hat) Hfit] Hrec Hnext Hcount Hmissed Hseen Hord] Hpoll.
  cbn [obs_log obs_recent obs_ring obs_cursor obs_seen] in *.
  pose proof (ra_oldest _ _ _ Hat) as Ho. pose proof (ra_next _ _ _ Hat) as Hn.
  pose proof (ra_space _ _ _ Hat) as Hsp.
  assert (ring_ok log r) as Hok by (split; [by exists k|done]).
  destruct (poll_cursor_spec log k r c Hat Hnext) as
    [(g & E & Hlt & G1 & G2 & G3 & _)|[[Heq E]|(bs & Hin & Hl & E)]];
    rewrite E in Hpoll; injection Hpoll as <- <-.
  - split; cbn [obs_log obs_recent obs_ring obs_cursor obs_seen record_gap cursor_next missed_events];
      try done; [lia|rewrite G2, G3; machine|rewrite G3; machine|].
    eapply Forall_impl; [exact Hseen|]. cbn. intros x [??]. split; [lia|done].
  - by split.
  - split; cbn [obs_log obs_recent obs_ring obs_cursor obs_seen advance_to cursor_next missed_events];
      try done; [lia|rewrite length_app; simpl; lia| |].
    + apply Forall_app. split; [|constructor; [|constructor]].
      * eapply Forall_impl; [exact Hseen|]. cbn. intros x [??]. split; [lia|done].
      * cbn. split; [lia|done].
    + rewrite map_app. apply StronglySorted_snoc; [done|]. apply Forall_map.
      eapply Forall_impl; [exact Hseen|]. cbn. lia.
Qed.

Lemma observed_step_ok o o' : observed_step o o' -> observed_ok o -> observed_ok o'.
Proof.
  destruct 1 as [? ? ? ? ? ? ? ? ? Hbs Hp|log rec r c seen|? ? ? ? ? ? ? Hp]; intros Hok.
  - by eapply observed_push_ok.
  - destruct Hok as [[(k & Hat) Hfit] Hrec Hnext Hcount Hmissed Hseen Hord].
    cbn [obs_log obs_recent obs_ring obs_cursor obs_seen] in *.
    split; cbn [obs_log obs_recent obs_ring obs_cursor obs_seen]; try done.
    split; [exists (length log); by eapply clear_retained_at|split; cbn; lia].
  - by eapply observed_poll_ok.
Qed.

Lemma observed_reachable_ok o : observed_reachable o -> observed_ok o.
Proof.
  intros (o0 & Hinit & Hsteps). apply observed_init_ok in Hinit.
  induction Hsteps as [|x y z Hxy _ IH]; [done|]. apply IH. by eapply observed_step_ok.
Qed.

Lemma snapshot_loop_bytes acc cs : (snapshot_loop acc cs).1 = acc ++ concat (map chunk_slice cs).
Proof.
  revert acc. induction cs as [|c cs IH]; intros acc; simpl; [by rewrite app_nil_r|].
  specialize (IH (acc ++ chunk_slice c)). destruct (snapshot_loop (acc ++ chunk_slice c) cs). simpl in *.
  by rewrite IH, <- app_assoc.
Qed.

Lemma snapshot_recent_bytes b : snapshot_bytes (snapshot b) = recent_bytes b.
Proof.
  unfold snapshot. pose proof (snapshot_loop_bytes [] (chunks b)) as H.
  destruct (snapshot_loop [] (chunks b)). simpl in *. by rewrite H.
Qed.

(** ** Properties *)

(** C29. [push]: from a ring within its budgets that holds the log from some
    position on, a push hands out the next sequence number and leaves a ring
    within its budgets that holds the extended log from a position not before;
    the new event is always retained, and an older one is dropped only while the
    events exceed the event budget or more than one event exceeds the byte
    budget. *)
Theorem ring_push_correct log k r bs retain_recent :
  ring_at log k r -> ring_fits r -> blen bs <= isize_max -> Z.of_nat (length log) < u64_max ->
  exists k' r',
    push_shared_with_recent_retention bs retain_recent r = Some (Z.of_nat (length log), r') /\
    ring_at (log ++ [bs]) k' r' /\ ring_fits r' /\ (k <= k' <= length log)%nat /\
    last (events r') = Some (mkEvent (Z.of_nat (length log)) bs []) /\
    (forall j, (k <= j < k')%nat ->
       (event_capacity r < S (length log) - j)%nat \/
       (recent_byte_capacity r < log_bytes (log ++ [bs]) j /\ (1 < S (length log) - j)%nat)).
Proof.
  intros Hat Hfit Hbs Hsp.
  destruct (push_spec log k r bs retain_recent Hat Hfit Hbs Hsp)
    as (k' & r' & E & Hat' & Hfit' & Hk & _ & _ & _ & Hmin).
  exists k', r'. split_and!; try done; try lia.
  rewrite (ra_events _ _ _ Hat'), events_from_snoc by lia. apply last_snoc.
Qed.

(** A ring of two events and five bytes. *)
Definition example_ring : OutputRing := mkRing 2 5 0 0 [] (recent_new 5).

Lemma example_ring_at : ring_at [] 0 example_ring.
Proof.
  split; cbn; try done; try lia.
Qed.

Lemma ring_push_correct_witness :
  exists k' r', push_shared_with_recent_retention [104; 105] true example_ring = Some (0, r') /\
    ring_at [[104; 105]] k' r' /\ ring_fits r'.
Proof.
  destruct (ring_push_correct [] 0 example_ring [104; 105] true) as (k' & r' & H1 & H2 & H3 & _).
  - apply example_ring_at.
  - split; cbn; lia.
  - vm_compute. discriminate.
  - vm_compute. reflexivity.
  - exists k', r'. split; [exact H1|]. split; [exact H2|exact H3].
Defined.

(** C28. Exact accounting for a subscriber: whatever the order of pushes, clears
    and polls, the events it was given plus the events it was told it missed are
    exactly the events before its position; each event it got is the one the log
    has at that sequence number, and it got them in strictly increasing order. *)
Theorem cursor_accounting o :
  observed_reachable o ->
  missed_events (obs_cursor o) + Z.of_nat (length (obs_seen o)) = cursor_next (obs_cursor o) /\
  cursor_next (obs_cursor o) <= Z.of_nat (length (obs_log o)) /\
  Forall (fun e => sequence e < cursor_next (obs_cursor o) /\
                   obs_log o !! Z.to_nat (sequence e) = Some (bytes e)) (obs_seen o) /\
  StronglySorted Z.lt (map sequence (obs_seen o)).
Proof.
  intros [[(k & Hat) _] _ Hnext Hcount _ Hseen Hord]%observed_reachable_ok.
  split_and!; [done|rewrite <- (ra_next _ _ _ Hat); lia| |done].
  eapply Forall_impl; [exact Hseen|]. cbn. intros e [[_ ?] ?]. done.
Qed.

(** Three pushes into the two-event ring, then two polls: a gap of one event and
    the event after it. *)
Lemma cursor_accounting_witness :
  exists o, obs_seen o = [mkEvent 1 [2] []] /\
    missed_events (obs_cursor o) + Z.of_nat (length (obs_seen o)) = cursor_next (obs_cursor o).
Proof.
  destruct (ring_push [1] example_ring) as [[s1 r1]|] eqn:E1; [|discriminate E1].
  destruct (ring_push [2] r1) as [[s2 r2]|] eqn:E2;
    [|vm_compute in E1; injection E1 as <- <-; discriminate E2].
  destruct (ring_push [3] r2) as [[s3 r3]|] eqn:E3;
    [|vm_compute in E1; injection E1 as <- <-; vm_compute in E2; injection E2 as <- <-; discriminate E3].
  destruct (poll_cursor r3 (cursor_new 0)) as [i1 c1] eqn:P1.
  destruct (poll_cursor r3 c1) as [i2 c2] eqn:P2.
  exists (mkObserved ((([] ++ [[1]]) ++ [[2]]) ++ [[3]]) ((([] ++ [1]) ++ [2]) ++ [3]) r3 c2
    match i2 with
    | Some (Event e) => match i1 with Some (Event e1) => [] ++ [e1] | _ => [] end ++ [e]
    | _ => match i1 with Some (Event e1) => [] ++ [e1] | _ => [] end
    end).
  split.
  - vm_compute in E1. injection E1 as <- <-. vm_compute in E2. injection E2 as <- <-.
    vm_compute in E3. injection E3 as <- <-. vm_compute in P1. injection P1 as <- <-.
    vm_compute in P2. injection P2 as <- <-. reflexivity.
  - apply (cursor_accounting (mkObserved _ _ _ _ _)).
    exists (mkObserved [] [] example_ring (cursor_new 0) []). split.
    + exists 2%nat, 5, example_ring. split; [vm_compute; split; discriminate|]. split; reflexivity.
    + eapply rtc_l; [apply (step_push _ _ _ _ _ [1] true s1 r1); [vm_compute; discriminate|exact E1]|].
      eapply rtc_l; [apply (step_push _ _ _ _ _ [2] true s2 r2); [vm_compute; discriminate|exact E2]|].
      eapply rtc_l; [apply (step_push _ _ _ _ _ [3] true s3 r3); [vm_compute; discriminate|exact E3]|].
      eapply rtc_l; [apply (step_poll _ _ _ _ _ i1 c1 P1)|].
      eapply rtc_l; [apply (step_poll _ _ _ _ _ i2 c2 P2)|]. apply rtc_refl.
Defined.

(** The lag-recovery buffer is exact: at any time the snapshot of recent
    bytes is the last [capacity] bytes of everything pushed with retention since
    the last clear, and the stored length is its length. *)
Theorem recent_snapshot_is_suffix o :
  observed_reachable o ->
  let b := recent (obs_ring o) in
  snapshot_bytes (snapshot b) = last_bytes (capacity b) (obs_recent o) /\
  recent_len b = blen (snapshot_bytes (snapshot b)) /\ recent_len b <= capacity b.
Proof.
  intros [[(k & Hat) _] Hrec _ _ _ _ _]%observed_reachable_ok b. rewrite snapshot_recent_bytes.
  destruct (ra_recent _ _ _ Hat) as [_ _ H1 H2]. done.
Qed.

Lemma recent_snapshot_is_suffix_witness :
  exists r, ring_push [1; 2; 3; 4; 5; 6; 7] example_ring = Some (0, r) /\
    snapshot_bytes (snapshot (recent r)) = [3; 4; 5; 6; 7].
Proof.
  destruct (ring_push [1; 2; 3; 4; 5; 6; 7] example_ring) as [[s r]|] eqn:E; [|discriminate E].
  destruct (recent_snapshot_is_suffix
    (mkObserved ([] ++ [[1; 2; 3; 4; 5; 6; 7]]) ([] ++ [1; 2; 3; 4; 5; 6; 7]) r (cursor_new 0) []))
    as [H _].
  - exists (mkObserved [] [] example_ring (cursor_new 0) []). split.
    + exists 2%nat, 5, example_ring. split; [vm_compute; split; discriminate|]. split; reflexivity.
    + eapply rtc_l; [|apply rtc_refl].
      apply (step_push _ _ _ _ _ [1; 2; 3; 4; 5; 6; 7] true s r); [vm_compute; discriminate|exact E].
  - exists r. cbn [obs_ring obs_recent] in H. rewrite H.
    vm_compute in E. injection E as <- <-. split; reflexivity.
Defined.

(** Batches: a batch poll of a lagging cursor returns just its gap; otherwise
    it returns the next retained events in order, as many as the limit and the
    log allow, and moves the cursor past exactly those. *)
Theorem poll_cursor_batch_correct log k r limit c :
  ring_at log k r -> 0 <= cursor_next c <= next_sequence r -> (0 < limit)%nat ->
  if cursor_next c <? Z.of_nat k then
    exists g, poll_cursor_batch r limit c = ([Gap g], mkCursor (Z.of_nat k)
      (u64_sat_add (missed_events c) (Z.of_nat k - cursor_next c)))
  else
    let items := take limit (events_from log (Z.to_nat (cursor_next c))) in
    poll_cursor_batch r limit c =
    (map Event items, advance_to (cursor_next c + Z.of_nat (length items)) c).
Proof.
  intros Hat Hc Hl. destruct (Z.ltb_spec (cursor_next c) (Z.of_nat k)) as [Hlt|Hge].
  - destruct limit as [|limit]; [lia|]. cbn [poll_cursor_batch].
    destruct (poll_cursor_spec log k r c Hat Hc) as [(g & E & _ & _ & G2 & G3 & _)|[[? _]|(? & ? & _)]].
    + rewrite E. exists g. unfold record_gap. by rewrite G2, G3.
    + pose proof (ra_oldest _ _ _ Hat). pose proof (ra_next _ _ _ Hat). lia.
    + lia.
  - clear Hl. revert c Hc Hge. induction limit as [|limit IH]; intros c Hc Hge; cbn [poll_cursor_batch].
    { simpl. unfold advance_to. destruct c. cbn. by rewrite Z.add_0_r. }
    destruct (poll_cursor_spec log k r c Hat Hc) as [(? & _ & ? & _)|[[Heq E]|(bs & Hin & Hlk & E)]].
    + lia.
    + rewrite E. unfold events_from. rewrite drop_ge by (rewrite Heq, (ra_next _ _ _ Hat); lia).
      simpl. unfold advance_to. destruct c. cbn. by rewrite Z.add_0_r.
    + rewrite E. specialize (IH (advance_to (cursor_next c + 1) c)).
      cbn [cursor_next advance_to missed_events] in IH. rewrite IH by lia.
      rewrite (events_from_cons _ _ _ Hlk).
      replace (Z.to_nat (cursor_next c + 1)) with (S (Z.to_nat (cursor_next c))) by lia.
      cbn [firstn map length]. rewrite Nat2Z.inj_succ. f_equal.
      * do 3 f_equal. lia.
      * unfold advance_to. cbn. f_equal. lia.
Qed.

(** The ring after two pushes. *)
Definition example_ring2 : OutputRing :=
  mkRing 2 5 2 2 [mkEvent 0 [7] []; mkEvent 1 [8] []] (recent_new 5).

Lemma example_ring2_at : ring_at [[7]; [8]] 0 example_ring2.
Proof. split; cbn; try done; try lia. repeat constructor; vm_compute; discriminate. Qed.

Lemma poll_cursor_batch_correct_witness :
  poll_cursor_batch example_ring2 10 (cursor_new 1) = ([Event (mkEvent 1 [8] [])], mkCursor 2 0).
Proof.
  pose proof (poll_cursor_batch_correct [[7]; [8]] 0 example_ring2 10 (cursor_new 1) example_ring2_at) as H.
  rewrite H; [reflexivity| |].
  - vm_compute. split; discriminate.
  - lia.
Defined.
