(* ===== verification/Coalescer.v ===== *)
(** * Snapshot notification coalescing

    [crates/rmux-core/src/events/coalescing.rs]: the per-pane limiter of
    snapshot notifications, and its registry.  An [Instant] is a number of
    nanoseconds up to [instant_max] (a 64-bit number of seconds), a [Duration] a
    number of nanoseconds. *)

From S2P Require Import Prelude.

Definition instant_max : Z := 9223372036854775807 * 1000000000 + 999999999.
Definition duration_max : Z := u64_max * 1000000000 + 999999999.

(** ** One coalescer *)

Definition DEFAULT_MAX_SNAPSHOT_NOTIFICATIONS_PER_SECOND : Z := 60.

Definition min_interval_for_rate (rate : Z) : Z :=
  if rate =? 0 then duration_max else 1000000000 / rate.

Record EmittedRevision := mkEmitted { emitted_revision : Z; emitted_at : Z }.
Record PendingRevision := mkPending { pending_rev : Z; observed_at : Z }.

Record SnapshotCoalescer := mkCoalescer {
  max_per_second : Z;
  min_interval : Z;
  last_emitted : option EmittedRevision;
  pending : option PendingRevision;
}.

Definition coalescer_new (rate : Z) : SnapshotCoalescer :=
  mkCoalescer rate (min_interval_for_rate rate) None None.

Definition with_default_rate : SnapshotCoalescer :=
  coalescer_new DEFAULT_MAX_SNAPSHOT_NOTIFICATIONS_PER_SECOND.

(** [now.saturating_duration_since(at) >= min_interval] *)
Definition may_emit_at (now : Z) (c : SnapshotCoalescer) : bool :=
  match last_emitted c with
  | None => true
  | Some e => min_interval c <=? sat_sub now (emitted_at e)
  end.

Definition commit_emission (revision at_ : Z) (c : SnapshotCoalescer) : SnapshotCoalescer :=
  mkCoalescer (max_per_second c) (min_interval c) (Some (mkEmitted revision at_)) (pending c).

Definition set_pending (p : option PendingRevision) (c : SnapshotCoalescer) : SnapshotCoalescer :=
  mkCoalescer (max_per_second c) (min_interval c) (last_emitted c) p.

Definition observe (revision now : Z) (c : SnapshotCoalescer) : option Z * SnapshotCoalescer :=
  let duplicate :=
    match last_emitted c with Some e => emitted_revision e =? revision | None => false end in
  if duplicate then
    match pending c with
    | Some p => if pending_rev p =? revision then (None, set_pending None c) else (None, c)
    | None => (None, c)
    end
  else if may_emit_at now c then (Some revision, set_pending None (commit_emission revision now c))
  else (None, set_pending (Some (mkPending revision now)) c).

Definition poll (now : Z) (c : SnapshotCoalescer) : option Z * SnapshotCoalescer :=
  match pending c with
  | None => (None, c)
  | Some p =>
      if negb (may_emit_at now c) then (None, c)
      else
        let duplicate :=
          match last_emitted c with
          | Some e => emitted_revision e =? pending_rev p
          | None => false
          end in
        if duplicate then (None, set_pending None c)
        else (Some (pending_rev p), set_pending None (commit_emission (pending_rev p) now c))
  end.

(** [Instant::checked_add]. *)
Definition instant_checked_add (at_ d : Z) : option Z :=
  if at_ + d <=? instant_max then Some (at_ + d) else None.

Definition next_deadline (c : SnapshotCoalescer) : option Z :=
  match pending c with
  | None => None
  | Some p =>
      match last_emitted c with
      | None => Some (observed_at p)
      | Some e =>
          match instant_checked_add (emitted_at e) (min_interval c) with
          | Some earliest => Some (Z.max (observed_at p) earliest)
          | None => Some (observed_at p)
          end
      end
  end.

Definition last_emitted_revision (c : SnapshotCoalescer) : option Z := emitted_revision <$> last_emitted c.
Definition pending_revision (c : SnapshotCoalescer) : option Z := pending_rev <$> pending c.

(** ** The registry *)

Record PaneSnapshotCoalescerRegistry := mkRegistry {
  coalescers : gmap Z SnapshotCoalescer;
  registry_rate : Z;
}.

Definition registry_new (rate : Z) : PaneSnapshotCoalescerRegistry := mkRegistry ∅ rate.

(** [entry]: the coalescer of a pane, created on first use. *)
Definition registry_entry (pane_id : Z) (r : PaneSnapshotCoalescerRegistry) : SnapshotCoalescer :=
  match coalescers r !! pane_id with
  | Some c => c
  | None => coalescer_new (registry_rate r)
  end.

Definition registry_observe (pane_id revision now : Z) (r : PaneSnapshotCoalescerRegistry)
  : option Z * PaneSnapshotCoalescerRegistry :=
  let '(out, c) := observe revision now (registry_entry pane_id r) in
  (out, mkRegistry (<[pane_id := c]> (coalescers r)) (registry_rate r)).

Definition registry_poll (pane_id now : Z) (r : PaneSnapshotCoalescerRegistry)
  : option Z * PaneSnapshotCoalescerRegistry :=
  match coalescers r !! pane_id with
  | None => (None, r)
  | Some c =>
      let '(out, c) := poll now c in
      (out, mkRegistry (<[pane_id := c]> (coalescers r)) (registry_rate r))
  end.

Definition min_option (a b : option Z) : option Z :=
  match a, b with
  | Some x, Some y => Some (Z.min x y)
  | Some x, None => Some x
  | None, _ => b
  end.

Definition registry_next_deadline (r : PaneSnapshotCoalescerRegistry) : option Z :=
  map_fold (fun _ c acc => min_option (next_deadline c) acc) None (coalescers r).

Definition forget (pane_id : Z) (r : PaneSnapshotCoalescerRegistry)
  : option SnapshotCoalescer * PaneSnapshotCoalescerRegistry :=
  (coalescers r !! pane_id, mkRegistry (delete pane_id (coalescers r)) (registry_rate r)).

(** ** Runs of a coalescer

    The calls it sees, each with the time it is made at. *)

Inductive call := Observe (revision : Z) | Poll.

Definition run_call (now : Z) (i : call) (c : SnapshotCoalescer) : option Z * SnapshotCoalescer :=
  match i with Observe revision => observe revision now c | Poll => poll now c end.

(** The emissions of a run, with their times. *)
Fixpoint run (calls : list (Z * call)) (c : SnapshotCoalescer) : list (Z * Z) * SnapshotCoalescer :=
  match calls with
  | [] => ([], c)
  | (now, i) :: rest =>
      let '(out, c) := run_call now i c in
      let '(outs, c) := run rest c in
      (match out with Some revision => (now, revision) :: outs | None => outs end, c)
  end.

(** ** Invariant: nothing pending is already delivered *)

Definition coalescer_ok (c : SnapshotCoalescer) : Prop :=
  0 <= min_interval c /\
  match pending c with
  | None => True
  | Some p => exists e, last_emitted c = Some e /\ emitted_revision e <> pending_rev p
  end.

(** What a call does, in one place. *)
Lemma run_call_spec now i c :
  coalescer_ok c ->
  let '(out, c') := run_call now i c in
  coalescer_ok c' /\ min_interval c' = min_interval c /\ max_per_second c' = max_per_second c /\
  match out with
  | Some revision =>
      last_emitted c' = Some (mkEmitted revision now) /\ pending c' = None /\
      may_emit_at now c = true /\ last_emitted_revision c <> Some revision /\
      match i with Observe r => revision = r | Poll => pending_revision c = Some revision end
  | None => last_emitted c' = last_emitted c
  end.
Proof.
  intros [Hi Hp]. destruct i as [revision|]; cbn [run_call].
  - unfold observe, may_emit_at.
    destruct (last_emitted c) as [e|] eqn:He.
    + destruct (Z.eqb_spec (emitted_revision e) revision) as [Heq|Hne].
      * destruct (pending c) as [p|] eqn:Hpe; [|split; [split; [done|by rewrite Hpe]|done]].
        destruct (Z.eqb_spec (pending_rev p) revision); cbn; (split; [split; [done|]|done]);
          [done|by rewrite Hpe, He].
      * destruct (Z.leb_spec (min_interval c) (sat_sub now (emitted_at e))); cbn.
        -- split; [split; done|]. split_and!; try done. unfold last_emitted_revision. rewrite He.
           cbn. congruence.
        -- split; [split; [done|]|done]. cbn. exists e. done.
    + cbn. split; [split; done|]. split_and!; try done. unfold last_emitted_revision. by rewrite He.
  - unfold poll. destruct (pending c) as [p|] eqn:Hpe; [|split; [split; [done|by rewrite Hpe]|done]].
    destruct Hp as (e & He & Hne). rewrite He.
    destruct (may_emit_at now c) eqn:Hm; cbn.
    + rewrite (proj2 (Z.eqb_neq _ _) Hne). cbn. split; [split; done|]. split_and!; try done.
      * unfold last_emitted_revision. rewrite He. cbn. congruence.
      * unfold pending_revision. by rewrite Hpe.
    + split; [split; [done|]|done]. rewrite Hpe. exists e. done.
Qed.

(** Emission times at least [d] apart, the first at [from] or later. *)
Fixpoint spaced (d : Z) (from : option Z) (outs : list (Z * Z)) : Prop :=
  match outs with
  | [] => True
  | (now, _) :: rest =>
      match from with Some t => t + d <= now | None => True end /\ spaced d (Some now) rest
  end.

Lemma run_spaced calls c :
  coalescer_ok c -> 0 < min_interval c ->
  spaced (min_interval c) (emitted_at <$> last_emitted c) (run calls c).1 /\ coalescer_ok (run calls c).2.
Proof.
  revert c. induction calls as [|[now i] calls IH]; intros c Hok Hpos; [done|]. cbn [run].
  pose proof (run_call_spec now i c Hok) as Hc. destruct (run_call now i c) as [out c1].
  destruct Hc as (Hok1 & Hi & _ & Hout). rewrite <- Hi in Hpos. specialize (IH c1 Hok1 Hpos).
  destruct (run calls c1) as [outs c2]. cbn [fst snd] in *. rewrite Hi in IH. destruct out as [rev|].
  - destruct Hout as (He & _ & Hm & _). rewrite He in IH. cbn in *. split; [|apply IH]. split; [|apply IH].
    unfold may_emit_at in Hm. destruct (last_emitted c) as [e|]; [|done]. cbn.
    apply Z.leb_le in Hm. unfold sat_sub in Hm. lia.
  - rewrite Hout in IH. done.
Qed.

(** Consecutive emissions are never of the same revision. *)
Fixpoint alternating (prev : option Z) (outs : list (Z * Z)) : Prop :=
  match outs with
  | [] => True
  | (_, revision) :: rest => prev <> Some revision /\ alternating (Some revision) rest
  end.

Lemma run_alternating calls c :
  coalescer_ok c -> alternating (last_emitted_revision c) (run calls c).1.
Proof.
  revert c. induction calls as [|[now i] calls IH]; intros c Hok; [done|]. cbn [run].
  pose proof (run_call_spec now i c Hok) as Hc. destruct (run_call now i c) as [out c1].
  destruct Hc as (Hok1 & _ & _ & Hout). specialize (IH c1 Hok1).
  destruct (run calls c1) as [outs c2]. cbn [fst snd] in *. unfold last_emitted_revision in *.
  destruct out as [rev|].
  - destruct Hout as (He & _ & _ & Hne & _). rewrite He in IH. done.
  - by rewrite Hout in IH.
Qed.

Lemma new_ok rate : 0 <= rate -> coalescer_ok (coalescer_new rate).
Proof.
  intros H. split; [|done]. cbn. unfold min_interval_for_rate. destruct (Z.eqb_spec rate 0).
  - unfold duration_max, u64_max. lia.
  - apply Z.div_pos; lia.
Qed.

(** Emissions before [limit] that are [d] apart are few. *)
Lemma spaced_count d t outs limit :
  0 < d -> spaced d (Some t) outs -> Forall (fun o => o.1 <= limit) outs -> t <= limit ->
  Z.of_nat (length outs) * d <= limit - t.
Proof.
  intros Hd. revert t. induction outs as [|[now rev] outs IH]; intros t Hs Hl Ht; simpl; [lia|].
  destruct Hs as [H1 H2]. apply Forall_cons in Hl as [Hl1 Hl2]. cbn in Hl1.
  specialize (IH now H2 Hl2 Hl1). lia.
Qed.

(** ** Properties *)

(** C38. The rate limit, for a rate of 1 to 10^9 per second (above that the
    interval is zero nanoseconds and nothing is limited, and rate 0 is a case of
    its own): in any run of observations and polls, whatever revisions arrive and
    at whatever times, any two consecutive emissions are at least [min_interval]
    apart, so within any [window] nanoseconds after the first emission there are
    at most [window / min_interval] further ones; and no revision is emitted twice
    in a row.  Revisions need not increase. *)
Theorem emissions_rate_limited rate calls t rev outs limit :
  0 < rate <= 1000000000 ->
  (run calls (coalescer_new rate)).1 = (t, rev) :: outs ->
  Forall (fun o => o.1 <= limit) outs -> t <= limit ->
  spaced (min_interval_for_rate rate) None ((t, rev) :: outs) /\
  alternating None ((t, rev) :: outs) /\
  Z.of_nat (length outs) <= (limit - t) / min_interval_for_rate rate.
Proof.
  intros Hr Hrun Hl Ht. pose proof (new_ok rate ltac:(lia)) as Hok.
  assert (0 < min_interval (coalescer_new rate)) as Hpos.
  { cbn. unfold min_interval_for_rate. rewrite (proj2 (Z.eqb_neq rate 0)) by lia.
    apply Z.div_str_pos. lia. }
  destruct (run_spaced calls (coalescer_new rate) Hok Hpos) as [Hs _].
  pose proof (run_alternating calls (coalescer_new rate) Hok) as Ha. rewrite Hrun in Hs, Ha.
  cbn [min_interval coalescer_new last_emitted] in *. split_and!; [exact Hs|exact Ha|].
  destruct Hs as [_ Hs]. apply Z.div_le_lower_bound; [done|].
  pose proof (spaced_count _ t outs limit Hpos Hs Hl Ht). lia.
Qed.

Lemma emissions_rate_limited_witness :
  let calls := [(5, Observe 1); (6, Observe 2); (7, Observe 3); (20000000, Poll)] in
  (run calls (coalescer_new 60)).1 = [(5, 1); (20000000, 3)] /\
  1 <= (20000000 - 5) / min_interval_for_rate 60.
Proof.
  intros calls. split; [reflexivity|].
  apply (emissions_rate_limited 60 calls 5 1 [(20000000, 3)] 20000000).
  - lia.
  - reflexivity.
  - repeat constructor. cbn. lia.
  - lia.
Defined.

(** C39. No lost update: after an observation the observed revision is the last
    delivered one or it is pending, and never both.  A pending revision is delivered
    by any poll once the interval since the last emission has passed, and by none
    before that.  The announced deadline is at or after that time, so a poll at the
    deadline delivers, provided the end of the interval is a representable instant:
    with rate 0, whose interval is the longest duration, it is not. *)
Theorem observed_revision_is_delivered revision now c :
  coalescer_ok c ->
  (let '(out, c') := observe revision now c in
   coalescer_ok c' /\ (last_emitted_revision c' = Some revision \/ pending_revision c' = Some revision) /\
   (pending_revision c' = Some revision -> last_emitted_revision c' <> Some revision)) /\
  (forall p, pending_revision c = Some p -> exists e, last_emitted c = Some e /\
     (emitted_at e + min_interval c <= now -> (poll now c).1 = Some p) /\
     (0 < min_interval c -> now < emitted_at e + min_interval c -> poll now c = (None, c)) /\
     (emitted_at e + min_interval c <= instant_max ->
        exists deadline, next_deadline c = Some deadline /\ (deadline <= now -> (poll now c).1 = Some p))).
Proof.
  intros Hok. split.
  - pose proof (run_call_spec now (Observe revision) c Hok) as H. cbn [run_call] in H.
    destruct (observe revision now c) as [out c'] eqn:Hobs. destruct H as (H1 & _ & _ & H2).
    split; [done|]. split; [destruct out as [rev|]|].
    + destruct H2 as (He & _ & _ & _ & ->). left. unfold last_emitted_revision. by rewrite He.
    + unfold observe in Hobs. destruct (last_emitted c) as [e|] eqn:He.
      * destruct (Z.eqb_spec (emitted_revision e) revision) as [Heq|Hne].
        -- left. unfold last_emitted_revision. rewrite H2. cbn. by rewrite Heq.
        -- destruct (may_emit_at now c); [done|]. right. by simplify_eq.
      * unfold may_emit_at in Hobs. by rewrite He in Hobs.
    + destruct H1 as [_ Hp]. unfold pending_revision, last_emitted_revision. destruct (pending c') as [q|]; [|done].
      destruct Hp as (e & -> & Hne). cbn. congruence.
  - intros p Hp. pose proof Hok as [_ Hpend]. unfold pending_revision in Hp. destruct (pending c) as [q|] eqn:Eq; [|done].
    cbn in Hp. simplify_eq. destruct Hpend as (e & He & Hne). exists e. split; [done|].
    assert (emitted_at e + min_interval c <= now -> (poll now c).1 = Some (pending_rev q)) as Hdel.
    { intros Ht. unfold poll, may_emit_at. rewrite Eq, He, (proj2 (Z.leb_le _ _)) by (unfold sat_sub; lia). cbn.
      by rewrite (proj2 (Z.eqb_neq _ _) Hne). }
    split_and!; [done| |].
    + intros Hpos Ht. unfold poll, may_emit_at. rewrite Eq, He, (proj2 (Z.leb_gt _ _)) by (unfold sat_sub; lia). done.
    + intros Hb. unfold next_deadline, instant_checked_add. rewrite Eq, He, (proj2 (Z.leb_le _ _)) by done.
      eexists. split; [done|]. intros Ht. apply Hdel. lia.
Qed.

Definition example_coalescer : SnapshotCoalescer :=
  mkCoalescer 60 (min_interval_for_rate 60) (Some (mkEmitted 1 100)) (Some (mkPending 2 200)).

Lemma observed_revision_is_delivered_witness :
  next_deadline example_coalescer = Some 16666766 /\ (poll 16666766 example_coalescer).1 = Some 2 /\
  poll 16666765 example_coalescer = (None, example_coalescer).
Proof.
  assert (coalescer_ok example_coalescer) as Hok.
  { split; [vm_compute; discriminate|]. exists (mkEmitted 1 100). split; [reflexivity|]. vm_compute. discriminate. }
  split; [reflexivity|]. split.
  - destruct (observed_revision_is_delivered 3 16666766 example_coalescer Hok) as [_ H].
    destruct (H 2 eq_refl) as (e & He & H1 & _). apply H1. injection He as <-. vm_compute. discriminate.
  - destruct (observed_revision_is_delivered 3 16666765 example_coalescer Hok) as [_ H].
    destruct (H 2 eq_refl) as (e & He & _ & H2 & _). injection He as <-. apply H2; vm_compute; reflexivity.
Defined.

(** The documented "cap is strictly honored across any 1-second window" is
    off by one: at the default rate of 60 the floored interval admits 61
    emissions at 0, 16666666, ..., 999999960 nanoseconds, all within one
    second. *)
Theorem default_rate_admits_61_per_second :
  let calls := map (fun k => (Z.of_nat k * 16666666, Observe (Z.of_nat k))) (seq 0 61) in
  length (run calls with_default_rate).1 = 61%nat /\
  Forall (fun o => 0 <= o.1 < 1000000000) (run calls with_default_rate).1.
Proof.
  intros calls. split; [vm_compute; reflexivity|].
  assert (forallb (fun o => (0 <=? o.1) && (o.1 <? 1000000000)) (run calls with_default_rate).1 = true) as H
    by (vm_compute; reflexivity).
  apply Forall_forall. intros o Hin. rewrite List.forallb_forall in H.
  apply list_elem_of_In, H in Hin. apply andb_true_iff in Hin as [H1%Z.leb_le H2%Z.ltb_lt]. lia.
Qed.

(** With rate 0, documented as "never emit", the first observation is still
    emitted; a later one stays pending for ever although [next_deadline] names a
    time that has passed. *)
Lemma rate_zero_emits_once_then_stalls :
  exists c1 c2, observe 1 10 (coalescer_new 0) = (Some 1, c1) /\ observe 2 20 c1 = (None, c2) /\
    next_deadline c2 = Some 20 /\ forall now, now <= instant_max -> (poll now c2).1 = None.
Proof.
  exists (mkCoalescer 0 duration_max (Some (mkEmitted 1 10)) None).
  exists (mkCoalescer 0 duration_max (Some (mkEmitted 1 10)) (Some (mkPending 2 20))).
  split; [vm_compute; reflexivity|]. split; [vm_compute; reflexivity|].
  split; [vm_compute; reflexivity|]. intros now Hnow.
  assert (forall c e, last_emitted c = Some e -> emitted_at e = 10 -> min_interval c = duration_max ->
    (poll now c).1 = None) as Hstall; [|by eapply Hstall].
  intros c e He Ht Hi. unfold poll, may_emit_at. destruct (pending c); [|done]. rewrite He, Ht, Hi.
  rewrite (proj2 (Z.leb_gt _ _)); [done|]. unfold duration_max, instant_max, sat_sub, u64_max in *. lia.
Qed.
