(* ===== verification/IndexMap.v ===== *)
(** * Secondary indexes

    The registries of [crates/rmux-core/src/events] keep a map of records and,
    per field, a [HashMap<Key, HashSet<Id>>] that lists the records with that
    field value.  This file has the operations the code performs on such an
    index and what they do to the map it indexes. *)

From S2P Require Import Prelude.

Section Index.
Context {K Id : Type} `{Countable K, Countable Id}.
Implicit Types (m : gmap K (gset Id)) (g : gmap Id K) (k : K) (id : Id).

(** The ids under a key: [get(&key).map_or(empty, ..)]. *)
Definition idx_get (k : K) (m : gmap K (gset Id)) : gset Id := default ∅ (m !! k).

(** [entry(key).or_default().insert(id)] *)
Definition idx_insert (k : K) (id : Id) (m : gmap K (gset Id)) : gmap K (gset Id) :=
  <[k := {[id]} ∪ idx_get k m]> m.

(** Remove an id, and the key when nothing is left under it. *)
Definition idx_remove (k : K) (id : Id) (m : gmap K (gset Id)) : gmap K (gset Id) :=
  match m !! k with
  | None => m
  | Some ids =>
      let ids := ids ∖ {[id]} in
      if decide (ids = ∅) then delete k m else <[k := ids]> m
  end.

(** [m] lists, under every key, exactly the ids that [g] maps to it, and has no
    empty entry. *)
Record indexes (m : gmap K (gset Id)) (g : gmap Id K) : Prop := {
  idx_spec : forall k id, id ∈ idx_get k m <-> g !! id = Some k;
  idx_nonempty : forall k, m !! k <> Some ∅;
}.

Lemma idx_get_empty k : idx_get k (∅ : gmap K (gset Id)) = ∅.
Proof. unfold idx_get. by rewrite lookup_empty. Qed.

Lemma idx_get_insert k k' s m : idx_get k (<[k' := s]> m) = if decide (k = k') then s else idx_get k m.
Proof.
  unfold idx_get. destruct (decide (k = k')) as [->|Hne].
  - by rewrite lookup_insert_eq.
  - by rewrite lookup_insert_ne.
Qed.

Lemma idx_get_delete k k' m : idx_get k (delete k' m) = if decide (k = k') then ∅ else idx_get k m.
Proof.
  unfold idx_get. destruct (decide (k = k')) as [->|Hne].
  - by rewrite lookup_delete_eq.
  - by rewrite lookup_delete_ne.
Qed.

Lemma indexes_empty : indexes ∅ ∅.
Proof. split; [set_solver|]. intros k. by rewrite lookup_empty. Qed.

Lemma indexes_insert k id m g :
  indexes m g -> g !! id = None -> indexes (idx_insert k id m) (<[id := k]> g).
Proof.
  intros [Hs Hn] Hid. unfold idx_insert. split.
  - intros k' id'. rewrite idx_get_insert. destruct (decide (k' = k)) as [->|Hk].
    + rewrite elem_of_union, elem_of_singleton, Hs. destruct (decide (id' = id)) as [->|Hi].
      * rewrite lookup_insert_eq. split; [done|auto].
      * rewrite lookup_insert_ne by done. split; [by intros [?|?]|auto].
    + rewrite Hs. destruct (decide (id' = id)) as [->|Hi].
      * rewrite lookup_insert_eq. split; intros; congruence.
      * by rewrite lookup_insert_ne.
  - intros k'. destruct (decide (k' = k)) as [->|Hk].
    + rewrite lookup_insert_eq. intros [=E]. set_solver.
    + by rewrite lookup_insert_ne.
Qed.

Lemma idx_get_remove k k' id m :
  idx_get k' (idx_remove k id m) = if decide (k' = k) then idx_get k m ∖ {[id]} else idx_get k' m.
Proof.
  unfold idx_remove. destruct (m !! k) as [ids|] eqn:Hk.
  - assert (idx_get k m = ids) as Hg by (unfold idx_get; by rewrite Hk).
    destruct (decide (ids ∖ {[id]} = ∅)) as [He|He].
    + rewrite idx_get_delete. destruct (decide (k' = k)); [|done]. rewrite Hg. symmetry. exact He.
    + rewrite idx_get_insert. destruct (decide (k' = k)); [|done]. by rewrite Hg.
  - destruct (decide (k' = k)) as [->|]; [|done]. unfold idx_get. rewrite Hk. simpl. set_solver.
Qed.

(** Removing an id under its key, or one that is not there. *)
Lemma indexes_remove k id m g :
  indexes m g -> g !! id = None \/ g !! id = Some k -> indexes (idx_remove k id m) (delete id g).
Proof.
  intros [Hs Hn] Hid. split.
  - intros k' id'. rewrite idx_get_remove. destruct (decide (id' = id)) as [->|Hi].
    + rewrite lookup_delete_eq. split; [|done]. destruct (decide (k' = k)) as [->|Hk]; [set_solver|].
      rewrite Hs. intros E. destruct Hid; congruence.
    + rewrite lookup_delete_ne by done. rewrite <- Hs. destruct (decide (k' = k)) as [->|Hk]; set_solver.
  - intros k'. unfold idx_remove. destruct (m !! k) as [ids|] eqn:Hk; [|apply Hn].
    destruct (decide (ids ∖ {[id]} = ∅)) as [He|He].
    + destruct (decide (k' = k)) as [->|]; [by rewrite lookup_delete_eq|by rewrite lookup_delete_ne].
    + destruct (decide (k' = k)) as [->|]; [rewrite lookup_insert_eq; congruence|by rewrite lookup_insert_ne].
Qed.

(** Dropping a whole key. *)
Lemma indexes_delete k m g : indexes m g -> indexes (delete k m) (filter (fun p => p.2 <> k) g).
Proof.
  intros [Hs Hn]. split.
  - intros k' id. rewrite idx_get_delete, map_lookup_filter_Some. cbn.
    destruct (decide (k' = k)) as [->|Hk]; [set_solver|]. rewrite Hs. split; [|by intros [? _]]. intros E. split; [done|congruence].
  - intros k'. destruct (decide (k' = k)) as [->|]; [by rewrite lookup_delete_eq|by rewrite lookup_delete_ne].
Qed.

(** Moving everything under one key to another. *)
Lemma indexes_rekey k k' ids m g :
  indexes m g -> k <> k' -> m !! k = Some ids ->
  indexes (<[k' := idx_get k' (delete k m) ∪ ids]> (delete k m))
    ((fun x => if decide (x = k) then k' else x) <$> g).
Proof.
  intros [Hs Hn] Hne Hk.
  assert (forall id, id ∈ ids <-> g !! id = Some k) as Hids by (intros id; rewrite <- Hs; unfold idx_get; by rewrite Hk).
  split.
  - intros q id. rewrite idx_get_insert, !idx_get_delete, lookup_fmap. rewrite (decide_False (P := k' = k)) by congruence.
    specialize (Hs q id) as Hq. specialize (Hs k' id) as Hk'. specialize (Hids id).
    destruct (decide (q = k')) as [->|Hq'].
    + rewrite elem_of_union, Hk', Hids. destruct (g !! id) as [x|]; cbn; [|naive_solver].
      destruct (decide (x = k)); naive_solver.
    + destruct (decide (q = k)) as [->|Hqk].
      * split; [set_solver|]. destruct (g !! id) as [x|]; cbn; [|done]. destruct (decide (x = k)); naive_solver.
      * rewrite Hq. destruct (g !! id) as [x|]; cbn; [|done]. destruct (decide (x = k)); naive_solver.
  - intros q. destruct (decide (q = k')) as [->|Hq].
    + rewrite lookup_insert_eq. intros [=E]. apply (Hn k). rewrite Hk. f_equal. set_solver.
    + rewrite lookup_insert_ne by done. destruct (decide (q = k)) as [->|]; [by rewrite lookup_delete_eq|].
      by rewrite lookup_delete_ne.
Qed.

(** An entry has as many ids as the map has entries with that value. *)
Lemma idx_count k m g :
  indexes m g -> size (idx_get k m) = size (filter (fun p => p.2 = k) g).
Proof.
  intros [Hs _]. rewrite <- size_dom. f_equal. apply set_eq. intros id. rewrite Hs, elem_of_dom. split.
  - intros E. exists k. by apply map_lookup_filter_Some.
  - intros [x Hx]. apply map_lookup_filter_Some in Hx as [? <-]. done.
Qed.

(** Size of an entry. *)
Lemma size_idx_remove k k' id m : (size (idx_get k' (idx_remove k id m)) <= size (idx_get k' m))%nat.
Proof. rewrite idx_get_remove. destruct (decide (k' = k)) as [->|]; [|done]. apply subseteq_size. set_solver. Qed.

Lemma size_idx_insert k k' id m :
  (size (idx_get k' (idx_insert k id m)) <=
   if decide (k' = k) then S (size (idx_get k m)) else size (idx_get k' m))%nat.
Proof.
  unfold idx_insert. rewrite idx_get_insert. destruct (decide (k' = k)) as [->|]; [|done].
  destruct (decide (id ∈ idx_get k m)).
  - rewrite subseteq_union_1_L by set_solver. lia.
  - rewrite size_union by set_solver. rewrite size_singleton. lia.
Qed.
End Index.
