(* ===== verification/Subscriptions.v ===== *)
(** * Pane-output subscriptions

    [SubscriptionRegistry] of [crates/rmux-core/src/events/registry.rs]: live
    subscriptions with their per-connection and per-pane indexes, caps and stale
    cleanup.  Times and durations are nanoseconds; the iteration order of a hash
    set is that of [elements].  [None] from [subscribe] is the panic when the id
    space is exhausted. *)

From S2P Require Import Prelude IndexMap.

(** ** Data *)

(** [PaneOutputSubscriptionKey]: runtime session name and pane id. *)
Definition PaneOutputSubscriptionKey : Type := string * Z.

Record SubscriptionLimits := mkLimits {
  max_per_connection : nat;
  max_per_pane : nat;
  batch_events : nat;
  stale_ttl : Z;
}.

Definition default_limits : SubscriptionLimits := mkLimits 16 64 64 (300 * 1000000000).

Inductive SubscriptionLimitError :=
| PerConnection (limit : nat)
| PerPane (limit : nat).

Record OutputSubscriptionRecord := mkRecord {
  sub_id : Z;
  connection_id : Z;
  sub_pane : PaneOutputSubscriptionKey;
  created_at : Z;
  last_seen : Z;
}.

Record SubscriptionRegistry := mkRegistry {
  limits : SubscriptionLimits;
  next_id : Z;
  records : gmap Z OutputSubscriptionRecord;
  by_connection : gmap Z (gset Z);
  by_pane : gmap PaneOutputSubscriptionKey (gset Z);
}.

Definition registry_new (l : SubscriptionLimits) : SubscriptionRegistry := mkRegistry l 1 ∅ ∅ ∅.

(** ** Operations *)

Definition remove_indexes (rec : OutputSubscriptionRecord) (r : SubscriptionRegistry)
  : SubscriptionRegistry :=
  mkRegistry (limits r) (next_id r) (records r)
    (idx_remove (connection_id rec) (sub_id rec) (by_connection r))
    (idx_remove (sub_pane rec) (sub_id rec) (by_pane r)).

Definition delete_record (id : Z) (r : SubscriptionRegistry) : SubscriptionRegistry :=
  mkRegistry (limits r) (next_id r) (delete id (records r)) (by_connection r) (by_pane r).

Definition unsubscribe (id : Z) (r : SubscriptionRegistry)
  : option OutputSubscriptionRecord * SubscriptionRegistry :=
  match records r !! id with
  | None => (None, r)
  | Some rec => (Some rec, remove_indexes rec (delete_record id r))
  end.

Fixpoint remove_ids (ids : list Z) (r : SubscriptionRegistry)
  : list OutputSubscriptionRecord * SubscriptionRegistry :=
  match ids with
  | [] => ([], r)
  | id :: rest =>
      let '(rec, r) := unsubscribe id r in
      let '(removed, r) := remove_ids rest r in
      (match rec with Some rec => rec :: removed | None => removed end, r)
  end.

Definition remove_connection (c : Z) (r : SubscriptionRegistry)
  : list OutputSubscriptionRecord * SubscriptionRegistry :=
  let ids := elements (idx_get c (by_connection r)) in
  remove_ids ids
    (mkRegistry (limits r) (next_id r) (records r) (delete c (by_connection r)) (by_pane r)).

Definition remove_pane (p : PaneOutputSubscriptionKey) (r : SubscriptionRegistry)
  : list OutputSubscriptionRecord * SubscriptionRegistry :=
  let ids := elements (idx_get p (by_pane r)) in
  remove_ids ids
    (mkRegistry (limits r) (next_id r) (records r) (by_connection r) (delete p (by_pane r))).

Definition is_stale (ttl now : Z) (rec : OutputSubscriptionRecord) : bool :=
  ttl <=? sat_sub now (last_seen rec).

Definition cleanup_stale (now : Z) (r : SubscriptionRegistry)
  : list OutputSubscriptionRecord * SubscriptionRegistry :=
  let stale := filter (fun p => is_stale (stale_ttl (limits r)) now p.2 = true) (records r) in
  remove_ids (map fst (map_to_list stale)) r.

Definition subscribe (c : Z) (p : PaneOutputSubscriptionKey) (now : Z) (r : SubscriptionRegistry)
  : option (result OutputSubscriptionRecord SubscriptionLimitError * SubscriptionRegistry) :=
  let '(_, r) := cleanup_stale now r in
  if (max_per_connection (limits r) <=? size (idx_get c (by_connection r)))%nat then
    Some (Err (PerConnection (max_per_connection (limits r))), r)
  else if (max_per_pane (limits r) <=? size (idx_get p (by_pane r)))%nat then
    Some (Err (PerPane (max_per_pane (limits r))), r)
  else
    let id := next_id r in
    if u64_max <? id + 1 then None
    else
      let rec := mkRecord id c p now now in
      Some (Ok rec,
            mkRegistry (limits r) (id + 1) (<[id := rec]> (records r))
              (idx_insert c id (by_connection r)) (idx_insert p id (by_pane r))).

Definition set_last_seen (now : Z) (rec : OutputSubscriptionRecord) : OutputSubscriptionRecord :=
  mkRecord (sub_id rec) (connection_id rec) (sub_pane rec) (created_at rec) now.

Definition touch (id now : Z) (r : SubscriptionRegistry)
  : option OutputSubscriptionRecord * SubscriptionRegistry :=
  let '(_, r) := cleanup_stale now r in
  match records r !! id with
  | None => (None, r)
  | Some rec =>
      (Some (set_last_seen now rec),
       mkRegistry (limits r) (next_id r) (<[id := set_last_seen now rec]> (records r))
         (by_connection r) (by_pane r))
  end.

Definition set_pane (p : PaneOutputSubscriptionKey) (rec : OutputSubscriptionRecord)
  : OutputSubscriptionRecord :=
  mkRecord (sub_id rec) (connection_id rec) p (created_at rec) (last_seen rec).

Definition rekey_pane (previous current : PaneOutputSubscriptionKey) (r : SubscriptionRegistry)
  : nat * SubscriptionRegistry :=
  if decide (previous = current) then (size (idx_get previous (by_pane r)), r)
  else
    match by_pane r !! previous with
    | None => (0%nat, r)
    | Some ids =>
        let records' := foldr (fun id recs => alter (set_pane current) id recs) (records r) (elements ids) in
        let by_pane' := delete previous (by_pane r) in
        (size ids,
         mkRegistry (limits r) (next_id r) records' (by_connection r)
           (<[current := idx_get current by_pane' ∪ ids]> by_pane'))
    end.

Definition contains_pane (p : PaneOutputSubscriptionKey) (r : SubscriptionRegistry) : bool :=
  bool_decide (idx_get p (by_pane r) <> ∅).

Definition ids_for_pane (p : PaneOutputSubscriptionKey) (r : SubscriptionRegistry) : list Z :=
  elements (idx_get p (by_pane r)).

(** ** Invariant *)

Record registry_ok (r : SubscriptionRegistry) : Prop := {
  reg_connections : indexes (by_connection r) (connection_id <$> records r);
  reg_panes : indexes (by_pane r) (sub_pane <$> records r);
  reg_ids : forall id rec, records r !! id = Some rec -> sub_id rec = id /\ 1 <= id < next_id r;
  reg_next : 1 <= next_id r <= u64_max;
  reg_cap : forall c, (size (idx_get c (by_connection r)) <= max_per_connection (limits r))%nat;
}.

Lemma registry_new_ok l : registry_ok (registry_new l).
Proof.
  split; cbn; try rewrite fmap_empty; [apply indexes_empty..|done|done|]. intros c.
  rewrite idx_get_empty, size_empty. lia.
Qed.

(** *** Removing ids *)

(** The state while a whole key is being removed: the indexes already lack the
    ids that are still to go. *)
Record removing (r : SubscriptionRegistry) (gc : gmap Z Z) (gp : gmap Z PaneOutputSubscriptionKey)
  : Prop := {
  rem_connections : indexes (by_connection r) gc;
  rem_panes : indexes (by_pane r) gp;
  rem_ids : forall id rec, records r !! id = Some rec -> sub_id rec = id;
  rem_gc : forall id rec, records r !! id = Some rec -> gc !! id = None \/ gc !! id = Some (connection_id rec);
  rem_gp : forall id rec, records r !! id = Some rec -> gp !! id = None \/ gp !! id = Some (sub_pane rec);
  rem_dom : forall id, records r !! id = None -> gc !! id = None /\ gp !! id = None;
}.

Lemma unsubscribe_removing id r gc gp :
  removing r gc gp ->
  let '(rec, r') := unsubscribe id r in
  removing r' (delete id gc) (delete id gp) /\ rec = records r !! id /\
  records r' = delete id (records r) /\ limits r' = limits r /\ next_id r' = next_id r /\
  forall c, (size (idx_get c (by_connection r')) <= size (idx_get c (by_connection r)))%nat.
Proof.
  intros [H1 H2 H3 H4 H5 H6]. unfold unsubscribe. destruct (records r !! id) as [rec|] eqn:Hid.
  - pose proof (H3 id rec Hid) as E. cbn. split; [|split_and!; try done].
    + split; cbn.
      * rewrite E. apply indexes_remove; [done|by apply H4].
      * rewrite E. apply indexes_remove; [done|by apply H5].
      * intros id' rec'. rewrite lookup_delete_Some. intros [_ ?]. by apply H3.
      * intros id' rec'. rewrite lookup_delete_Some. intros [? ?]. rewrite lookup_delete_ne by done. by apply H4.
      * intros id' rec'. rewrite lookup_delete_Some. intros [? ?]. rewrite lookup_delete_ne by done. by apply H5.
      * intros id'. destruct (decide (id' = id)) as [->|Hne]; [by rewrite !lookup_delete_eq|].
        rewrite !lookup_delete_ne by done. apply H6.
    + intros c. apply size_idx_remove.
  - destruct (H6 id Hid) as [G1 G2]. rewrite !delete_id by done. split_and!; try done. 
Qed.

Lemma remove_ids_removing ids r gc gp :
  removing r gc gp ->
  let '(_, r') := remove_ids ids r in
  removing r' (foldr delete gc (reverse ids)) (foldr delete gp (reverse ids)) /\
  records r' = foldr delete (records r) (reverse ids) /\ limits r' = limits r /\ next_id r' = next_id r /\
  forall c, (size (idx_get c (by_connection r')) <= size (idx_get c (by_connection r)))%nat.
Proof.
  revert r gc gp. induction ids as [|id ids IH]; intros r gc gp Hrem; cbn [remove_ids]; [by split_and!|].
  pose proof (unsubscribe_removing id r gc gp Hrem) as Hu. destruct (unsubscribe id r) as [rec r1].
  destruct Hu as (U1 & _ & U2 & U3 & U4 & U5). specialize (IH r1 _ _ U1).
  destruct (remove_ids ids r1) as [removed r2]. destruct IH as (I1 & I2 & I3 & I4 & I5).
  rewrite reverse_cons, !foldr_app. cbn [foldr]. rewrite U2 in I2.
  split_and!; [done|done|congruence|congruence|]. intros c. specialize (U5 c). specialize (I5 c). lia.
Qed.

(** The records left when [ids] are gone. *)
Definition without (ids : list Z) (recs : gmap Z OutputSubscriptionRecord)
  : gmap Z OutputSubscriptionRecord := filter (fun p => p.1 ∉ ids) recs.

Lemma foldr_delete_without ids recs : foldr delete recs (reverse ids) = without ids recs.
Proof.
  apply map_eq. intros id. rewrite lookup_foldr_delete. unfold without.
  destruct (decide (id ∈ reverse ids)) as [Hin|Hin]; rewrite elem_of_reverse in Hin.
  - symmetry. apply map_lookup_filter_None. right. intros x _. cbn. by intros ?.
  - destruct (recs !! id) as [rec|] eqn:Hid; symmetry.
    + by apply map_lookup_filter_Some.
    + apply map_lookup_filter_None. by left.
Qed.

(** [remove_ids] from a state whose indexes lack at most ids that go. *)
Lemma remove_ids_ok ids r gc gp :
  removing r gc gp ->
  foldr delete gc (reverse ids) = connection_id <$> without ids (records r) ->
  foldr delete gp (reverse ids) = sub_pane <$> without ids (records r) ->
  (forall id rec, records r !! id = Some rec -> sub_id rec = id /\ 1 <= id < next_id r) ->
  1 <= next_id r <= u64_max ->
  (forall c, (size (idx_get c (by_connection r)) <= max_per_connection (limits r))%nat) ->
  let '(_, r') := remove_ids ids r in
  registry_ok r' /\ records r' = without ids (records r) /\ limits r' = limits r /\ next_id r' = next_id r.
Proof.
  intros Hrem Hgc Hgp Hids Hnext Hcap. pose proof (remove_ids_removing ids r gc gp Hrem) as H.
  destruct (remove_ids ids r) as [removed r']. destruct H as ([R1 R2 R3 _ _ _] & E & L & N & S).
  rewrite foldr_delete_without in E. split_and!; try done. split.
  - by rewrite E, <- Hgc.
  - by rewrite E, <- Hgp.
  - intros id rec. rewrite E, N. unfold without. rewrite map_lookup_filter_Some. intros [Hid _]. by apply Hids.
  - by rewrite N.
  - intros c. rewrite L. specialize (S c). specialize (Hcap c). lia.
Qed.

Lemma lookup_without ids recs id :
  without ids recs !! id = if decide (id ∈ ids) then None else recs !! id.
Proof.
  unfold without. destruct (decide (id ∈ ids)) as [Hin|Hin].
  - apply map_lookup_filter_None. right. intros x _. cbn. by intros ?.
  - destruct (recs !! id) as [rec|] eqn:Hid.
    + by apply map_lookup_filter_Some.
    + apply map_lookup_filter_None. by left.
Qed.

Lemma fmap_without {A} (f : OutputSubscriptionRecord -> A) ids recs :
  foldr delete (f <$> recs) (reverse ids) = f <$> without ids recs.
Proof.
  apply map_eq. intros id. rewrite lookup_reverse_delete, !lookup_fmap, lookup_without.
  by destruct (decide (id ∈ ids)).
Qed.

(** Dropping a key's entries from the field map, then its ids. *)
Lemma filter_without {A} `{EqDecision A} (f : OutputSubscriptionRecord -> A) (k : A) ids recs :
  (forall id rec, recs !! id = Some rec -> f rec = k -> id ∈ ids) ->
  foldr delete (filter (fun p => p.2 <> k) (f <$> recs)) (reverse ids) = f <$> without ids recs.
Proof.
  intros Hk. apply map_eq. intros id. rewrite lookup_reverse_delete, lookup_fmap, lookup_without.
  destruct (decide (id ∈ ids)) as [|Hin]; [done|].
  destruct (recs !! id) as [rec|] eqn:Hid; cbn.
  - apply map_lookup_filter_Some. rewrite lookup_fmap, Hid. split; [done|]. cbn. intros E. eauto.
  - apply map_lookup_filter_None. left. by rewrite lookup_fmap, Hid.
Qed.

(** The ids of a field value: what the index of that field lists. *)
Lemma indexed_ids {A} `{Countable A} (f : OutputSubscriptionRecord -> A) (k : A)
    (m : gmap A (gset Z)) (recs : gmap Z OutputSubscriptionRecord) id :
  indexes m (f <$> recs) ->
  id ∈ elements (idx_get k m) <-> exists rec, recs !! id = Some rec /\ f rec = k.
Proof.
  intros Hm. rewrite elem_of_elements, (idx_spec _ _ Hm), lookup_fmap.
  destruct (recs !! id) as [rec|]; cbn; split.
  - intros [=]. eauto.
  - intros (? & [=<-] & <-). done.
  - done.
  - by intros (? & ? & _).
Qed.

(** Removing exactly those ids is filtering on the field. *)
Lemma without_field {A} `{EqDecision A} (f : OutputSubscriptionRecord -> A) (k : A) ids recs :
  (forall id, id ∈ ids <-> exists rec, recs !! id = Some rec /\ f rec = k) ->
  without ids recs = filter (fun p => f p.2 <> k) recs.
Proof.
  intros Hids. apply map_eq. intros id. rewrite lookup_without. destruct (decide (id ∈ ids)) as [Hin|Hin].
  - apply Hids in Hin as (rec & Hid & Hc). symmetry. apply map_lookup_filter_None. right.
    intros x Hx. cbn. rewrite Hid in Hx. injection Hx as <-. by intros ?.
  - destruct (recs !! id) as [rec|] eqn:Hid; symmetry.
    + apply map_lookup_filter_Some. split; [done|]. cbn. intros Hc. apply Hin, Hids. eauto.
    + apply map_lookup_filter_None. by left.
Qed.

(** What a dropped key leaves of the field map. *)
Lemma dropped_field {A} `{EqDecision A} (f : OutputSubscriptionRecord -> A) (k : A)
    (recs : gmap Z OutputSubscriptionRecord) id rec :
  recs !! id = Some rec ->
  filter (fun p => p.2 <> k) (f <$> recs) !! id = None \/
  filter (fun p => p.2 <> k) (f <$> recs) !! id = Some (f rec).
Proof.
  intros Hid. destruct (decide (f rec = k)) as [Ec|Ec].
  - left. apply map_lookup_filter_None. right. intros x. rewrite lookup_fmap, Hid. intros [=<-]. cbn. by intros ?.
  - right. apply map_lookup_filter_Some. by rewrite lookup_fmap, Hid.
Qed.

Lemma dropped_none {A} `{EqDecision A} (f : OutputSubscriptionRecord -> A) (k : A)
    (recs : gmap Z OutputSubscriptionRecord) id :
  recs !! id = None -> filter (fun p => p.2 <> k) (f <$> recs) !! id = None.
Proof. intros Hid. apply map_lookup_filter_None. left. by rewrite lookup_fmap, Hid. Qed.

Lemma ok_removing r :
  registry_ok r -> removing r (connection_id <$> records r) (sub_pane <$> records r).
Proof.
  intros [H1 H2 H3 _ _]. split; try done.
  - intros id rec Hid. by apply H3.
  - intros id rec Hid. right. by rewrite lookup_fmap, Hid.
  - intros id rec Hid. right. by rewrite lookup_fmap, Hid.
  - intros id Hid. by rewrite !lookup_fmap, Hid.
Qed.

Lemma remove_ids_from_ok ids r :
  registry_ok r ->
  let '(_, r') := remove_ids ids r in
  registry_ok r' /\ records r' = without ids (records r) /\ limits r' = limits r /\ next_id r' = next_id r.
Proof.
  intros Hok. eapply remove_ids_ok; [by apply ok_removing|apply fmap_without..|apply Hok|apply Hok|apply Hok].
Qed.

(** The removed records are the ones that were there. *)
Lemma remove_ids_returned ids r :
  NoDup ids -> (remove_ids ids r).1 = omap (fun id => records r !! id) ids.
Proof.
  revert r. induction ids as [|id ids IH]; intros r Hnd; [done|]. apply NoDup_cons in Hnd as [Hni Hnd].
  cbn [remove_ids omap list_omap]. destruct (unsubscribe id r) as [rec r1] eqn:Hu.
  specialize (IH r1 Hnd). destruct (remove_ids ids r1) as [removed r2]. cbn [fst] in *.
  assert (rec = records r !! id /\ forall id', id' <> id -> records r1 !! id' = records r !! id') as [-> Hr].
  { unfold unsubscribe in Hu. destruct (records r !! id); simplify_eq; [|done]. split; [done|].
    intros id' Hne. cbn. by rewrite lookup_delete_ne. }
  rewrite IH. assert (omap (fun id => records r1 !! id) ids = omap (fun id => records r !! id) ids) as ->.
  { clear -Hni Hr. induction ids as [|i ids IH]; [done|]. apply not_elem_of_cons in Hni as [? ?].
    cbn. rewrite Hr by done. destruct (records r !! i); [f_equal|]; auto. }
  by destruct (records r !! id).
Qed.

(** *** Whole-key removal *)

Lemma remove_connection_ok c r :
  registry_ok r ->
  let '(_, r') := remove_connection c r in
  registry_ok r' /\ records r' = filter (fun p => connection_id p.2 <> c) (records r) /\
  limits r' = limits r /\ next_id r' = next_id r.
Proof.
  intros Hok. pose proof Hok as [H1 H2 H3 H4 H5]. unfold remove_connection.
  set (ids := elements (idx_get c (by_connection r))). set (r0 := mkRegistry _ _ _ _ _).
  pose proof (fun id => indexed_ids connection_id c _ _ id H1) as Hids.
  pose proof (ok_removing r Hok) as [R1 R2 R3 R4 R5 R6].
  pose proof (remove_ids_ok ids r0 (filter (fun p => p.2 <> c) (connection_id <$> records r))
    (sub_pane <$> records r)) as Hrem.
  destruct (remove_ids ids r0) as [removed r']. destruct Hrem as (O & E & L & N).
  - split; cbn; try done.
    + by apply indexes_delete.
    + intros id rec Hid. by apply dropped_field.
    + intros id Hid. split; [by apply dropped_none|by rewrite lookup_fmap, Hid].
  - apply filter_without. intros id rec Hid Hc. apply Hids. eauto.
  - apply fmap_without.
  - done.
  - done.
  - intros c'. cbn. rewrite idx_get_delete. destruct (decide (c' = c)); [rewrite size_empty; lia|done].
  - split_and!; try done. rewrite E. by apply without_field.
Qed.

Lemma remove_pane_ok p r :
  registry_ok r ->
  let '(_, r') := remove_pane p r in
  registry_ok r' /\ records r' = filter (fun q => sub_pane q.2 <> p) (records r) /\
  limits r' = limits r /\ next_id r' = next_id r.
Proof.
  intros Hok. pose proof Hok as [H1 H2 H3 H4 H5]. unfold remove_pane.
  set (ids := elements (idx_get p (by_pane r))). set (r0 := mkRegistry _ _ _ _ _).
  pose proof (fun id => indexed_ids sub_pane p _ _ id H2) as Hids.
  pose proof (ok_removing r Hok) as [R1 R2 R3 R4 R5 R6].
  pose proof (remove_ids_ok ids r0 (connection_id <$> records r)
    (filter (fun q => q.2 <> p) (sub_pane <$> records r))) as Hrem.
  destruct (remove_ids ids r0) as [removed r']. destruct Hrem as (O & E & L & N).
  - split; cbn; try done.
    + by apply indexes_delete.
    + intros id rec Hid. by apply dropped_field.
    + intros id Hid. split; [by rewrite lookup_fmap, Hid|by apply dropped_none].
  - apply fmap_without.
  - apply filter_without. intros id rec Hid Hc. apply Hids. eauto.
  - done.
  - done.
  - done.
  - split_and!; try done. rewrite E. by apply without_field.
Qed.

Lemma unsubscribe_ok id r :
  registry_ok r ->
  let '(rec, r') := unsubscribe id r in
  registry_ok r' /\ rec = records r !! id /\ records r' = delete id (records r) /\
  limits r' = limits r /\ next_id r' = next_id r.
Proof.
  intros Hok. pose proof (unsubscribe_removing id r _ _ (ok_removing r Hok)) as H.
  destruct (unsubscribe id r) as [rec r']. destruct H as ([R1 R2 R3 _ _ _] & -> & E & L & N & S).
  destruct Hok as [H1 H2 H3 H4 H5]. split_and!; try done. split; rewrite ?N.
  - by rewrite E, fmap_delete.
  - by rewrite E, fmap_delete.
  - intros i rec. rewrite E, lookup_delete_Some. intros [_ Hi]. by apply H3.
  - done.
  - intros c. rewrite L. specialize (S c). specialize (H5 c). lia.
Qed.

(** *** Stale cleanup *)

Definition live (r : SubscriptionRegistry) (now : Z) : gmap Z OutputSubscriptionRecord :=
  filter (fun p => is_stale (stale_ttl (limits r)) now p.2 = false) (records r).

Lemma elem_of_stale_ids now r id :
  id ∈ map fst (map_to_list (filter (fun p => is_stale (stale_ttl (limits r)) now p.2 = true) (records r)))
  <-> exists rec, records r !! id = Some rec /\ is_stale (stale_ttl (limits r)) now rec = true.
Proof.
  change (map fst) with (fmap (M:=list) (@fst Z OutputSubscriptionRecord)).
  rewrite list_elem_of_fmap. split.
  - intros ([i rec] & -> & Hin). apply elem_of_map_to_list in Hin. apply map_lookup_filter_Some in Hin. eauto.
  - intros (rec & Hid & Hs). exists (id, rec). split; [done|]. apply elem_of_map_to_list.
    by apply map_lookup_filter_Some.
Qed.

Lemma cleanup_stale_ok now r :
  registry_ok r ->
  let '(_, r') := cleanup_stale now r in
  registry_ok r' /\ records r' = live r now /\ limits r' = limits r /\ next_id r' = next_id r.
Proof.
  intros Hok. unfold cleanup_stale. set (ids := map fst _).
  pose proof (remove_ids_from_ok ids r Hok) as H. destruct (remove_ids ids r) as [removed r'].
  destruct H as (O & E & L & N). split_and!; try done. rewrite E.
  rewrite (without_field (fun rec => is_stale (stale_ttl (limits r)) now rec) true).
  - apply map_filter_ext. intros i rec _. cbn. by rewrite not_true_iff_false.
  - intros id. apply elem_of_stale_ids.
Qed.

(** *** Counting and re-keying *)

Definition count_by {A} `{EqDecision A} (f : OutputSubscriptionRecord -> A) (k : A)
    (recs : gmap Z OutputSubscriptionRecord) : nat :=
  size (filter (fun p => f p.2 = k) recs).

Lemma index_count_by {A} `{Countable A} (f : OutputSubscriptionRecord -> A) (k : A)
    (m : gmap A (gset Z)) (recs : gmap Z OutputSubscriptionRecord) :
  indexes m (f <$> recs) -> size (idx_get k m) = count_by f k recs.
Proof.
  intros Hm. rewrite (idx_count _ _ _ Hm). unfold count_by. rewrite map_filter_fmap, map_size_fmap. done.
Qed.

Lemma lookup_foldr_alter {A} (f : A -> A) (m : gmap Z A) ids id :
  NoDup ids ->
  foldr (fun i recs => alter f i recs) m ids !! id = if decide (id ∈ ids) then f <$> m !! id else m !! id.
Proof.
  induction 1 as [|i ids Hni Hnd IH]; cbn [foldr]; [by rewrite decide_False by set_solver|].
  destruct (decide (id = i)) as [->|Hne].
  - rewrite lookup_alter_eq, IH, (decide_False (P := i ∈ ids)) by done. by rewrite decide_True by set_solver.
  - rewrite lookup_alter_ne, IH by done. destruct (decide (id ∈ ids)).
    + by rewrite decide_True by set_solver.
    + by rewrite decide_False by set_solver.
Qed.

(** What re-keying does to one record. *)
Definition rekeyed (previous current : PaneOutputSubscriptionKey) (rec : OutputSubscriptionRecord)
  : OutputSubscriptionRecord :=
  if decide (sub_pane rec = previous) then set_pane current rec else rec.

Lemma rekeyed_same p rec : rekeyed p p rec = rec.
Proof. unfold rekeyed. destruct (decide _) as [<-|]; [by destruct rec|done]. Qed.

Lemma rekey_records_eq previous current ids r :
  registry_ok r -> by_pane r !! previous = Some ids ->
  foldr (fun id recs => alter (set_pane current) id recs) (records r) (elements ids)
  = rekeyed previous current <$> records r.
Proof.
  intros [_ H2 _ _ _] Hids. apply map_eq. intros id.
  rewrite lookup_foldr_alter, lookup_fmap by apply NoDup_elements.
  pose proof (indexed_ids sub_pane previous _ _ id H2) as Hin. unfold idx_get in Hin. rewrite Hids in Hin.
  cbn in Hin. destruct (decide (id ∈ elements ids)) as [Hi|Hi].
  - apply Hin in Hi as (rec & -> & Hp). cbn. unfold rekeyed. by rewrite decide_True.
  - destruct (records r !! id) as [rec|]; [|done]. cbn. unfold rekeyed. rewrite decide_False; [done|].
    intros Hp. apply Hi, Hin. eauto.
Qed.

Lemma rekey_pane_ok previous current r :
  registry_ok r ->
  let '(n, r') := rekey_pane previous current r in
  registry_ok r' /\ n = count_by sub_pane previous (records r) /\
  records r' = rekeyed previous current <$> records r /\ limits r' = limits r /\ next_id r' = next_id r.
Proof.
  intros Hok. pose proof Hok as [H1 H2 H3 H4 H5]. unfold rekey_pane.
  destruct (decide (previous = current)) as [->|Hne].
  { split_and!; try done; [by apply index_count_by|]. rewrite <- (map_fmap_id (records r)) at 1.
    apply map_fmap_ext. intros. by rewrite rekeyed_same. }
  rewrite <- (index_count_by sub_pane previous _ _ H2).
  destruct (by_pane r !! previous) as [ids|] eqn:Hids; cbn.
  - rewrite (rekey_records_eq previous current ids r Hok Hids).
    split_and!; try done; [|by (unfold idx_get; rewrite Hids)]. split; cbn; try done.
    + rewrite <- map_fmap_compose. erewrite map_fmap_ext; [exact H1|].
      intros i rec _. cbn. unfold rekeyed. by destruct (decide _).
    + rewrite <- map_fmap_compose.
      replace (sub_pane ∘ rekeyed previous current <$> records r)
        with ((fun x => if decide (x = previous) then current else x) <$> (sub_pane <$> records r)).
      * by apply indexes_rekey.
      * rewrite <- map_fmap_compose. apply map_fmap_ext. intros i rec _. cbn. unfold rekeyed.
        by destruct (decide _).
    + intros id rec'. rewrite lookup_fmap. destruct (records r !! id) as [rec|] eqn:Hid; [|done].
      cbn. intros [=<-]. destruct (H3 id rec Hid). unfold rekeyed. by destruct (decide _).
  - split_and!; try done; [by (unfold idx_get; rewrite Hids)|].
    rewrite <- (map_fmap_id (records r)) at 1. apply map_fmap_ext. intros id rec Hid. unfold rekeyed. rewrite decide_False; [done|]. intros Hp.
    assert (id ∈ idx_get previous (by_pane r)) as Hin.
    { apply (idx_spec _ _ H2). rewrite lookup_fmap, Hid. cbn. by rewrite Hp. }
    unfold idx_get in Hin. rewrite Hids in Hin. set_solver.
Qed.

(** *** Subscribing and touching *)

Lemma registry_insert_ok r c p now :
  registry_ok r -> next_id r + 1 <= u64_max ->
  (size (idx_get c (by_connection r)) < max_per_connection (limits r))%nat ->
  registry_ok
    (mkRegistry (limits r) (next_id r + 1) (<[next_id r := mkRecord (next_id r) c p now now]> (records r))
       (idx_insert c (next_id r) (by_connection r)) (idx_insert p (next_id r) (by_pane r))).
Proof.
  intros [H1 H2 H3 H4 H5] Hmax Hcap.
  assert (records r !! next_id r = None) as Hfresh.
  { destruct (records r !! next_id r) as [rec|] eqn:E; [|done]. destruct (H3 _ _ E). lia. }
  split; cbn.
  - rewrite fmap_insert. apply indexes_insert; [done|]. by rewrite lookup_fmap, Hfresh.
  - rewrite fmap_insert. apply indexes_insert; [done|]. by rewrite lookup_fmap, Hfresh.
  - intros id rec Hid. apply lookup_insert_Some in Hid as [[<- <-]|[Hne Hid]]; [cbn; lia|].
    destruct (H3 id rec Hid). split; [done|lia].
  - lia.
  - intros c'. pose proof (size_idx_insert c c' (next_id r) (by_connection r)) as Hs. specialize (H5 c').
    destruct (decide (c' = c)) as [->|]; lia.
Qed.

Lemma registry_touch_ok r id rec now :
  registry_ok r -> records r !! id = Some rec ->
  registry_ok
    (mkRegistry (limits r) (next_id r) (<[id := set_last_seen now rec]> (records r))
       (by_connection r) (by_pane r)).
Proof.
  intros [H1 H2 H3 H4 H5] Hid.
  assert (forall A (f : OutputSubscriptionRecord -> A), f (set_last_seen now rec) = f rec ->
            f <$> <[id := set_last_seen now rec]> (records r) = f <$> records r) as Hf.
  { intros A f E. rewrite fmap_insert, E. apply insert_id. by rewrite lookup_fmap, Hid. }
  split; cbn; rewrite ?Hf; try done.
  intros id' rec' Hid'. apply lookup_insert_Some in Hid' as [[<- <-]|[Hne Hid']]; [|by apply H3].
  by apply (H3 id rec).
Qed.

(** ** The specification: a map of records

    What the registry promises, with no index: the records by id, the next id
    and the limits.  A field's count is the number of records that have it. *)

Record spec_state := mkSpec {
  sp_limits : SubscriptionLimits;
  sp_next : Z;
  sp_records : gmap Z OutputSubscriptionRecord;
}.

Inductive sub_op :=
| OpSubscribe (c : Z) (p : PaneOutputSubscriptionKey) (now : Z)
| OpTouch (id now : Z)
| OpUnsubscribe (id : Z)
| OpRemoveConnection (c : Z)
| OpRemovePane (p : PaneOutputSubscriptionKey)
| OpRekey (previous current : PaneOutputSubscriptionKey)
| OpCleanup (now : Z).

Inductive sub_out :=
| OutSubscribed (res : result OutputSubscriptionRecord SubscriptionLimitError)
| OutRecord (rec : option OutputSubscriptionRecord)
| OutRemoved (recs : list OutputSubscriptionRecord)
| OutCount (n : nat).

(** One call on the registry; [None] is the panic. *)
Definition run_op (op : sub_op) (r : SubscriptionRegistry) : option (sub_out * SubscriptionRegistry) :=
  match op with
  | OpSubscribe c p now => '(out, r) ← subscribe c p now r; Some (OutSubscribed out, r)
  | OpTouch id now => let '(out, r) := touch id now r in Some (OutRecord out, r)
  | OpUnsubscribe id => let '(out, r) := unsubscribe id r in Some (OutRecord out, r)
  | OpRemoveConnection c => let '(out, r) := remove_connection c r in Some (OutRemoved out, r)
  | OpRemovePane p => let '(out, r) := remove_pane p r in Some (OutRemoved out, r)
  | OpRekey previous current => let '(n, r) := rekey_pane previous current r in Some (OutCount n, r)
  | OpCleanup now => let '(out, r) := cleanup_stale now r in Some (OutRemoved out, r)
  end.

Definition sp_live (now : Z) (s : spec_state) : spec_state :=
  mkSpec (sp_limits s) (sp_next s)
    (filter (fun p => is_stale (stale_ttl (sp_limits s)) now p.2 = false) (sp_records s)).

(** Keep the records that satisfy [P], return the others. *)
Definition sp_split (P : OutputSubscriptionRecord -> bool) (s : spec_state) : sub_out * spec_state :=
  (OutRemoved (map snd (map_to_list (filter (fun p => P p.2 = false) (sp_records s)))),
   mkSpec (sp_limits s) (sp_next s) (filter (fun p => P p.2 = true) (sp_records s))).

Definition spec_op (op : sub_op) (s : spec_state) : option (sub_out * spec_state) :=
  match op with
  | OpSubscribe c p now =>
      let s := sp_live now s in
      if decide (max_per_connection (sp_limits s) <= count_by connection_id c (sp_records s))%nat then
        Some (OutSubscribed (Err (PerConnection (max_per_connection (sp_limits s)))), s)
      else if decide (max_per_pane (sp_limits s) <= count_by sub_pane p (sp_records s))%nat then
        Some (OutSubscribed (Err (PerPane (max_per_pane (sp_limits s)))), s)
      else if decide (u64_max <= sp_next s) then None
      else
        let rec := mkRecord (sp_next s) c p now now in
        Some (OutSubscribed (Ok rec),
              mkSpec (sp_limits s) (sp_next s + 1) (<[sp_next s := rec]> (sp_records s)))
  | OpTouch id now =>
      let s := sp_live now s in
      Some (OutRecord (set_last_seen now <$> sp_records s !! id),
            mkSpec (sp_limits s) (sp_next s) (alter (set_last_seen now) id (sp_records s)))
  | OpUnsubscribe id =>
      Some (OutRecord (sp_records s !! id), mkSpec (sp_limits s) (sp_next s) (delete id (sp_records s)))
  | OpRemoveConnection c => Some (sp_split (fun rec => bool_decide (connection_id rec <> c)) s)
  | OpRemovePane p => Some (sp_split (fun rec => bool_decide (sub_pane rec <> p)) s)
  | OpRekey previous current =>
      Some (OutCount (count_by sub_pane previous (sp_records s)),
            mkSpec (sp_limits s) (sp_next s) (rekeyed previous current <$> sp_records s))
  | OpCleanup now => Some (sp_split (fun rec => negb (is_stale (stale_ttl (sp_limits s)) now rec)) s)
  end.

(** Results agree; a list of removed records in any order. *)
Inductive out_agree : sub_out -> sub_out -> Prop :=
| agree_same o : out_agree o o
| agree_removed l1 l2 : l1 ≡ₚ l2 -> out_agree (OutRemoved l1) (OutRemoved l2).

Definition abstract (r : SubscriptionRegistry) : spec_state := mkSpec (limits r) (next_id r) (records r).

(** The removed records, in some order. *)
Lemma removed_records (P : OutputSubscriptionRecord -> bool) ids (recs : gmap Z OutputSubscriptionRecord) :
  NoDup ids ->
  (forall id, id ∈ ids <-> exists rec, recs !! id = Some rec /\ P rec = false) ->
  omap (fun id => recs !! id) ids ≡ₚ map snd (map_to_list (filter (fun p => P p.2 = false) recs)).
Proof.
  intros Hnd Hids. set (m := filter _ recs).
  assert (ids ≡ₚ (map_to_list m).*1) as Hp.
  { apply NoDup_Permutation; [done|apply NoDup_fst_map_to_list|]. intros id. rewrite Hids, list_elem_of_fmap. split.
    - intros (rec & Hid & Hs). exists (id, rec). split; [done|]. apply elem_of_map_to_list.
      by apply map_lookup_filter_Some.
    - intros ([i rec] & -> & Hin). apply elem_of_map_to_list, map_lookup_filter_Some in Hin. eauto. }
  rewrite Hp. assert (forall l, (forall i x, (i, x) ∈ l -> recs !! i = Some x) ->
    omap (fun id => recs !! id) l.*1 = map snd l) as Hl.
  { induction l as [|[i x] l IH]; intros Hin; [done|]. cbn. rewrite (Hin i x) by set_solver.
    f_equal. apply IH. set_solver. }
  rewrite Hl; [done|]. intros i x Hin. apply elem_of_map_to_list, map_lookup_filter_Some in Hin. tauto.
Qed.

(** A removal that returns and drops the records outside [P]. *)
Lemma split_agree (P : OutputSubscriptionRecord -> bool) ids r0 r r' :
  NoDup ids -> records r0 = records r ->
  (forall id, id ∈ ids <-> exists rec, records r !! id = Some rec /\ P rec = false) ->
  records r' = filter (fun p => P p.2 = true) (records r) -> limits r' = limits r -> next_id r' = next_id r ->
  out_agree (OutRemoved (remove_ids ids r0).1) (sp_split P (abstract r)).1 /\
  abstract r' = (sp_split P (abstract r)).2.
Proof.
  intros Hnd E0 Hids E L N. split.
  - apply agree_removed. rewrite remove_ids_returned, E0 by done. by apply removed_records.
  - unfold abstract, sp_split. cbn. by rewrite E, L, N.
Qed.

Lemma is_stale_live now r r' :
  records r' = live r now -> limits r' = limits r -> next_id r' = next_id r ->
  abstract r' = sp_live now (abstract r).
Proof. intros E L N. unfold abstract, sp_live. cbn. by rewrite E, L, N. Qed.

(** *** The removal calls refine their specification *)

Definition refines (op : sub_op) (r : SubscriptionRegistry) : Prop :=
  match run_op op r, spec_op op (abstract r) with
  | Some (out, r'), Some (out', s') => registry_ok r' /\ out_agree out out' /\ abstract r' = s'
  | None, None => True
  | _, _ => False
  end.

Lemma remove_connection_refines c r : registry_ok r -> refines (OpRemoveConnection c) r.
Proof.
  intros Hok. unfold refines. cbn. pose proof (remove_connection_ok c r Hok) as H.
  unfold remove_connection in *. set (ids := elements _) in *. set (r0 := mkRegistry _ _ _ _ _) in *.
  pose proof (split_agree (fun rec => bool_decide (connection_id rec <> c)) ids r0 r) as Hs.
  destruct (remove_ids ids r0) as [removed r']. destruct H as (O & E & L & N).
  split; [done|]. apply Hs; try done.
  - apply NoDup_elements.
  - intros id. unfold ids. rewrite (indexed_ids connection_id c _ _ id (reg_connections _ Hok)).
    setoid_rewrite bool_decide_eq_false. split; intros (rec & ? & Hc); exists rec; split; try done; [auto|].
    by apply dec_stable.
  - rewrite E. apply map_filter_ext. intros i rec _. cbn. by rewrite bool_decide_eq_true.
Qed.

Lemma remove_pane_refines p r : registry_ok r -> refines (OpRemovePane p) r.
Proof.
  intros Hok. unfold refines. cbn. pose proof (remove_pane_ok p r Hok) as H.
  unfold remove_pane in *. set (ids := elements _) in *. set (r0 := mkRegistry _ _ _ _ _) in *.
  pose proof (split_agree (fun rec => bool_decide (sub_pane rec <> p)) ids r0 r) as Hs.
  destruct (remove_ids ids r0) as [removed r']. destruct H as (O & E & L & N).
  split; [done|]. apply Hs; try done.
  - apply NoDup_elements.
  - intros id. unfold ids. rewrite (indexed_ids sub_pane p _ _ id (reg_panes _ Hok)).
    setoid_rewrite bool_decide_eq_false. split; intros (rec & ? & Hc); exists rec; split; try done; [auto|].
    by apply dec_stable.
  - rewrite E. apply map_filter_ext. intros i rec _. cbn. by rewrite bool_decide_eq_true.
Qed.

Lemma cleanup_refines now r : registry_ok r -> refines (OpCleanup now) r.
Proof.
  intros Hok. unfold refines. cbn. pose proof (cleanup_stale_ok now r Hok) as H.
  unfold cleanup_stale in *. set (ids := map fst _) in *.
  pose proof (split_agree (fun rec => negb (is_stale (stale_ttl (limits r)) now rec)) ids r r) as Hs.
  destruct (remove_ids ids r) as [removed r']. destruct H as (O & E & L & N).
  split; [done|]. apply Hs; try done.
  - apply NoDup_fst_map_to_list.
  - intros id. unfold ids. rewrite elem_of_stale_ids. by setoid_rewrite negb_false_iff.
  - rewrite E. apply map_filter_ext. intros i rec _. cbn. by rewrite negb_true_iff.
Qed.

Lemma touch_refines id now r : registry_ok r -> refines (OpTouch id now) r.
Proof.
  intros Hok. unfold refines. cbn. unfold touch. pose proof (cleanup_stale_ok now r Hok) as H.
  destruct (cleanup_stale now r) as [removed r1]. destruct H as (O & E & L & N).
  unfold live in E. rewrite <- E. destruct (records r1 !! id) as [rec|] eqn:Hid; cbn.
  - split_and!; [by apply registry_touch_ok|constructor|]. unfold abstract. cbn. rewrite L, N. f_equal.
    symmetry. apply map_eq. intros i. destruct (decide (i = id)) as [->|Hne].
    + by rewrite lookup_alter_eq, lookup_insert_eq, Hid.
    + by rewrite lookup_alter_ne, lookup_insert_ne.
  - split_and!; [done|constructor|]. unfold abstract. rewrite L, N. f_equal. symmetry.
    apply map_eq. intros i. destruct (decide (i = id)) as [->|Hne].
    + by rewrite lookup_alter_eq, Hid.
    + by rewrite lookup_alter_ne.
Qed.

Lemma subscribe_refines c p now r : registry_ok r -> refines (OpSubscribe c p now) r.
Proof.
  intros Hok. unfold refines. cbn. unfold subscribe. pose proof (cleanup_stale_ok now r Hok) as H.
  destruct (cleanup_stale now r) as [removed r1]. destruct H as (O & E & L & N).
  unfold live in E. rewrite <- E, <- L, <- N.
  rewrite (index_count_by connection_id c _ _ (reg_connections _ O)).
  rewrite (index_count_by sub_pane p _ _ (reg_panes _ O)).
  destruct (Nat.leb_spec (max_per_connection (limits r1)) (count_by connection_id c (records r1))).
  { rewrite decide_True by done. cbn. split_and!; [done|constructor|]. unfold sp_live, abstract. cbn. by rewrite L, N, E. }
  rewrite decide_False by lia.
  destruct (Nat.leb_spec (max_per_pane (limits r1)) (count_by sub_pane p (records r1))).
  { rewrite decide_True by done. cbn. split_and!; [done|constructor|]. unfold sp_live, abstract. cbn. by rewrite L, N, E. }
  rewrite decide_False by lia.
  destruct (Z.ltb_spec u64_max (next_id r1 + 1)); [by rewrite decide_True by lia|].
  rewrite decide_False by lia. cbn. split_and!; [|constructor|done].
  apply registry_insert_ok; [done|done|]. by rewrite (index_count_by connection_id c _ _ (reg_connections _ O)).
Qed.

Lemma unsubscribe_refines id r : registry_ok r -> refines (OpUnsubscribe id) r.
Proof.
  intros Hok. unfold refines. cbn. pose proof (unsubscribe_ok id r Hok) as H.
  destruct (unsubscribe id r) as [rec r']. destruct H as (O & -> & E & L & N).
  split_and!; [done|constructor|]. unfold abstract. by rewrite E, L, N.
Qed.

Lemma rekey_refines previous current r : registry_ok r -> refines (OpRekey previous current) r.
Proof.
  intros Hok. unfold refines. cbn. pose proof (rekey_pane_ok previous current r Hok) as H.
  destruct (rekey_pane previous current r) as [n r']. destruct H as (O & -> & E & L & N).
  split_and!; [done|constructor|]. unfold abstract. by rewrite E, L, N.
Qed.

Lemma op_refines op r : registry_ok r -> refines op r.
Proof.
  destruct op; [apply subscribe_refines|apply touch_refines|apply unsubscribe_refines
    |apply remove_connection_refines|apply remove_pane_refines|apply rekey_refines|apply cleanup_refines].
Qed.

(** ** Reachable registries *)

Inductive reach (l : SubscriptionLimits) : SubscriptionRegistry -> Prop :=
| reach_new : reach l (registry_new l)
| reach_op op r out r' : reach l r -> run_op op r = Some (out, r') -> reach l r'.

Lemma run_op_ok op r out r' : registry_ok r -> run_op op r = Some (out, r') -> registry_ok r' /\ limits r' = limits r.
Proof.
  intros Hok Hrun. pose proof (op_refines op r Hok) as H. unfold refines in H. rewrite Hrun in H.
  destruct (spec_op op (abstract r)) as [[out' s']|] eqn:Hs; [|done]. destruct H as (O & _ & E).
  split; [done|]. transitivity (sp_limits s'); [by rewrite <- E|]. clear -Hs.
  destruct op; cbn in Hs; repeat case_decide; try discriminate Hs; by injection Hs as _ <-.
Qed.

Lemma reach_ok l r : reach l r -> registry_ok r /\ limits r = l.
Proof.
  induction 1 as [|op r out r' _ [IH1 IH2] Hrun]; [split; [apply registry_new_ok|done]|].
  destruct (run_op_ok op r out r' IH1 Hrun) as [? E]. split; [done|congruence].
Qed.

(** ** Properties *)

(** C32. On any registry whose indexes agree with its records, every call
    ([subscribe], [touch], [unsubscribe], [remove_connection], [remove_pane],
    [rekey_pane], [cleanup_stale]) does what it would do on a plain map of
    records: the same result (the removed records in some order), the same
    records, the same next id, and a panic in the same case; and the indexes
    agree with the records afterwards. *)
Theorem registry_refines_map (op : sub_op) (r : SubscriptionRegistry) :
  registry_ok r ->
  match run_op op r, spec_op op (abstract r) with
  | Some (out, r'), Some (out', s') => registry_ok r' /\ out_agree out out' /\ abstract r' = s'
  | None, None => True
  | _, _ => False
  end.
Proof. apply op_refines. Qed.

Lemma registry_refines_map_witness :
  match run_op (OpSubscribe 7 ("alpha"%string, 1) 0) (registry_new default_limits),
        spec_op (OpSubscribe 7 ("alpha"%string, 1) 0) (abstract (registry_new default_limits)) with
  | Some (out, r'), Some (out', s') => registry_ok r' /\ out_agree out out' /\ abstract r' = s'
  | None, None => True
  | _, _ => False
  end.
Proof. apply (registry_refines_map (OpSubscribe 7 ("alpha"%string, 1) 0)). apply registry_new_ok. Defined.

(** However calls are ordered, a connection never owns more live
    subscriptions than its cap, the number counted against it is the number of
    its records, a pane has listed ids exactly when [contains_pane] says so,
    and every listed id is the id of a live record of that connection or
    pane. *)
Theorem reachable_registry_accounting (l : SubscriptionLimits) (r : SubscriptionRegistry) :
  reach l r ->
  (forall c, size (idx_get c (by_connection r)) = count_by connection_id c (records r) /\
             (count_by connection_id c (records r) <= max_per_connection l)%nat) /\
  (forall p id, id ∈ ids_for_pane p r <-> exists rec, records r !! id = Some rec /\ sub_pane rec = p /\ sub_id rec = id) /\
  (forall p, contains_pane p r = true <-> exists id rec, records r !! id = Some rec /\ sub_pane rec = p).
Proof.
  intros Hr. destruct (reach_ok l r Hr) as [Hok <-]. pose proof Hok as [H1 H2 H3 H4 H5]. split_and!.
  - intros c. rewrite <- (index_count_by connection_id c _ _ H1). split; [done|apply H5].
  - intros p id. unfold ids_for_pane. rewrite (indexed_ids sub_pane p _ _ id H2). split.
    + intros (rec & Hid & Hp). exists rec. split_and!; [done|done|]. by apply (H3 id rec).
    + intros (rec & Hid & Hp & _). eauto.
  - intros p. unfold contains_pane. rewrite bool_decide_eq_true. split.
    + intros Hne. apply set_choose_L in Hne as [id Hin].
      apply elem_of_elements, (indexed_ids sub_pane p _ _ id H2) in Hin. eauto.
    + intros (id & rec & Hid) E. assert (id ∈ elements (idx_get p (by_pane r))) as Hin
      by (apply (indexed_ids sub_pane p _ _ id H2); eauto).
      rewrite E in Hin. set_solver.
Qed.

(** Two subscriptions with caps of one: the second is refused. *)
Definition tiny_limits : SubscriptionLimits := mkLimits 1 1 64 10.

Lemma tiny_reach out r' :
  run_op (OpSubscribe 7 ("alpha"%string, 1) 0) (registry_new tiny_limits) = Some (out, r') -> reach tiny_limits r'.
Proof. intros H. eapply reach_op; [apply reach_new|exact H]. Qed.

Lemma reachable_registry_accounting_witness :
  exists r, count_by connection_id 7 (records r) = 1%nat /\
    size (idx_get 7 (by_connection r)) = count_by connection_id 7 (records r).
Proof.
  destruct (run_op (OpSubscribe 7 ("alpha"%string, 1) 0) (registry_new tiny_limits)) as [[out r]|] eqn:E; [|done].
  exists r. split.
  - vm_compute in E. injection E as <- <-. vm_compute. reflexivity.
  - apply (reachable_registry_accounting tiny_limits r (tiny_reach out r E)).
Defined.

(** Re-keying does not enforce the per-pane cap: two panes of one subscription
    each, merged. *)
Example rekey_ignores_pane_cap :
  exists r, reach (mkLimits 2 1 64 10) r /\ count_by sub_pane ("b"%string, 1) (records r) = 2%nat.
Proof.
  set (l := mkLimits 2 1 64 10).
  destruct (run_op (OpSubscribe 7 ("a"%string, 1) 0) (registry_new l)) as [[o1 r1]|] eqn:E1; [|done].
  assert (reach l r1) as R1 by (eapply reach_op; [apply reach_new|exact E1]).
  vm_compute in E1. injection E1 as _ E1.
  destruct (run_op (OpSubscribe 8 ("b"%string, 1) 0) r1) as [[o2 r2]|] eqn:E2.
  2:{ by rewrite <- E1 in E2; vm_compute in E2. }
  assert (reach l r2) as R2 by (eapply reach_op; [exact R1|exact E2]).
  rewrite <- E1 in E2. vm_compute in E2. injection E2 as _ E2.
  destruct (run_op (OpRekey ("a"%string, 1) ("b"%string, 1)) r2) as [[o3 r3]|] eqn:E3.
  2:{ by rewrite <- E2 in E3; vm_compute in E3. }
  exists r3. split; [eapply reach_op; [exact R2|exact E3]|].
  rewrite <- E2 in E3. vm_compute in E3. injection E3 as _ E3. rewrite <- E3. vm_compute. reflexivity.
Qed.
