(* ===== verification/Waits.v ===== *)
(** * SDK waits

    [SdkWaitRegistry] of [crates/rmux-core/src/events/wait.rs]: the live waits
    of SDK clients, their per-owner ids and the per-connection index used at
    teardown.  [None] from [allocate_id] is the panic when an owner's id space
    is exhausted. *)

From S2P Require Import Prelude IndexMap.

(** ** Data *)

(** [SdkWaitKey]: owner id and per-owner wait id. *)
Definition SdkWaitKey : Type := Z * Z.

Record SdkWaitRecord := mkWait {
  wait_key : SdkWaitKey;
  wait_connection : Z;
}.

Record SdkWaitRegistry := mkWaits {
  next_id_by_owner : gmap Z Z;
  waits : gmap SdkWaitKey SdkWaitRecord;
  waits_by_connection : gmap Z (gset SdkWaitKey);
}.

Definition waits_new : SdkWaitRegistry := mkWaits ∅ ∅ ∅.

(** ** Operations *)

Definition allocate_id (owner : Z) (r : SdkWaitRegistry) : option (Z * SdkWaitRegistry) :=
  let next := default 1 (next_id_by_owner r !! owner) in
  if u64_max <? next + 1 then None
  else Some (next, mkWaits (<[owner := next + 1]> (next_id_by_owner r)) (waits r) (waits_by_connection r)).

Definition register (connection owner wait : Z) (r : SdkWaitRegistry) : bool * SdkWaitRegistry :=
  let key := (owner, wait) in
  match waits r !! key with
  | Some _ => (false, r)
  | None =>
      (true,
       mkWaits (next_id_by_owner r) (<[key := mkWait key connection]> (waits r))
         (idx_insert connection key (waits_by_connection r)))
  end.

Definition remove_key (key : SdkWaitKey) (r : SdkWaitRegistry) : option SdkWaitRecord * SdkWaitRegistry :=
  match waits r !! key with
  | None => (None, r)
  | Some rec =>
      (Some rec,
       mkWaits (next_id_by_owner r) (delete key (waits r))
         (idx_remove (wait_connection rec) key (waits_by_connection r)))
  end.

Definition remove_wait (owner wait : Z) (r : SdkWaitRegistry) : option SdkWaitRecord * SdkWaitRegistry :=
  remove_key (owner, wait) r.

Definition remove_record_without_connection_index (key : SdkWaitKey) (r : SdkWaitRegistry)
  : option SdkWaitRecord * SdkWaitRegistry :=
  (waits r !! key, mkWaits (next_id_by_owner r) (delete key (waits r)) (waits_by_connection r)).

Fixpoint remove_keys (keys : list SdkWaitKey) (r : SdkWaitRegistry) : list SdkWaitRecord * SdkWaitRegistry :=
  match keys with
  | [] => ([], r)
  | key :: rest =>
      let '(rec, r) := remove_record_without_connection_index key r in
      let '(removed, r) := remove_keys rest r in
      (match rec with Some rec => rec :: removed | None => removed end, r)
  end.

Definition remove_wait_connection (c : Z) (r : SdkWaitRegistry) : list SdkWaitRecord * SdkWaitRegistry :=
  let keys := elements (idx_get c (waits_by_connection r)) in
  remove_keys keys (mkWaits (next_id_by_owner r) (waits r) (delete c (waits_by_connection r))).

Definition get_wait (owner wait : Z) (r : SdkWaitRegistry) : option SdkWaitRecord := waits r !! (owner, wait).

(** ** Invariant *)

Record waits_ok (r : SdkWaitRegistry) : Prop := {
  waits_index : indexes (waits_by_connection r) (wait_connection <$> waits r);
  waits_keys : forall key rec, waits r !! key = Some rec -> wait_key rec = key;
  waits_next : forall owner n, next_id_by_owner r !! owner = Some n -> 2 <= n <= u64_max;
}.

Lemma waits_new_ok : waits_ok waits_new.
Proof. split; cbn; [rewrite fmap_empty; apply indexes_empty|done|done]. Qed.

Lemma allocate_id_ok owner r id r' : waits_ok r -> allocate_id owner r = Some (id, r') -> waits_ok r'.
Proof.
  unfold allocate_id. intros [H1 H2 H3]. case_Zbool; intros [=<- <-]. split; cbn; [done|done|].
  intros o n. rewrite lookup_insert_Some. intros [[<- <-]|[_ Hn]]; [|by apply (H3 o)].
  destruct (next_id_by_owner r !! owner) as [m|] eqn:E; cbn in *; [specialize (H3 _ _ E)|]; machine.
Qed.

Lemma register_ok c owner wait r : waits_ok r -> waits_ok (register c owner wait r).2.
Proof.
  intros [H1 H2 H3]. unfold register. destruct (waits r !! (owner, wait)) eqn:E; cbn; [done|]. split; cbn; [| |done].
  - rewrite fmap_insert. apply indexes_insert; [done|]. rewrite lookup_fmap. by apply fmap_None.
  - intros key rec. rewrite lookup_insert_Some. intros [[<- <-]|[_ ?]]; [done|by apply H2].
Qed.

Lemma remove_key_ok key r :
  waits_ok r ->
  let '(rec, r') := remove_key key r in
  waits_ok r' /\ rec = waits r !! key /\ waits r' = delete key (waits r).
Proof.
  intros [H1 H2 H3]. unfold remove_key. destruct (waits r !! key) as [rec|] eqn:E.
  - split_and!; [|done|done]. split; cbn; [| |done].
    + rewrite fmap_delete. apply indexes_remove; [done|]. right. by rewrite lookup_fmap, E.
    + intros k rec'. rewrite lookup_delete_Some. intros [_ ?]. by apply H2.
  - split_and!; [done|done|]. by rewrite delete_id.
Qed.

Lemma remove_keys_eq keys r :
  NoDup keys ->
  remove_keys keys r =
  (omap (fun key => waits r !! key) keys,
   mkWaits (next_id_by_owner r) (filter (fun p => p.1 ∉ keys) (waits r)) (waits_by_connection r)).
Proof.
  intros Hnd. revert r. induction Hnd as [|key keys Hni Hnd IH]; intros r; cbn [remove_keys].
  - destruct r as [n w b]. cbn. do 2 f_equal. symmetry. apply map_filter_id. intros i x _. cbn. set_solver.
  - cbn. rewrite IH. cbn. f_equal.
    + assert (omap (fun k => delete key (waits r) !! k) keys = omap (fun k => waits r !! k) keys) as ->.
      { clear -Hni. induction keys as [|k keys IH]; [done|]. apply not_elem_of_cons in Hni as [Hk ?]. cbn.
        rewrite lookup_delete_ne by done. destruct (waits r !! k); [f_equal|]; auto. }
      by destruct (waits r !! key).
    + f_equal. apply map_eq. intros k. apply option_eq. intros x.
      rewrite !map_lookup_filter_Some, lookup_delete_Some. cbn. rewrite not_elem_of_cons. naive_solver.
Qed.

(** Teardown of a connection removes its waits and nothing else. *)
Lemma remove_wait_connection_eq c r :
  waits_ok r ->
  let '(removed, r') := remove_wait_connection c r in
  waits_ok r' /\ waits r' = filter (fun p => wait_connection p.2 <> c) (waits r) /\
  next_id_by_owner r' = next_id_by_owner r /\
  forall rec, rec ∈ removed <-> exists key, waits r !! key = Some rec /\ wait_connection rec = c.
Proof.
  intros [H1 H2 H3]. unfold remove_wait_connection. rewrite remove_keys_eq by apply NoDup_elements.
  set (keys := elements _). cbn [waits].
  assert (forall key, key ∈ keys <-> exists rec, waits r !! key = Some rec /\ wait_connection rec = c) as Hk.
  { intros key. unfold keys. rewrite elem_of_elements, (idx_spec _ _ H1), lookup_fmap, fmap_Some. naive_solver. }
  assert (filter (fun p => p.1 ∉ keys) (waits r) = filter (fun p => wait_connection p.2 <> c) (waits r)) as ->.
  { apply map_filter_ext. intros key rec E. cbn. rewrite Hk. split; [|by intros Hc (? & ? & ?); simplify_eq].
    intros Hn Hc. apply Hn. eauto. }
  split_and!; [|done|done|].
  - split; cbn; [|by intros key rec [? _]%map_lookup_filter_Some; apply H2|done].
    replace (wait_connection <$> filter (fun p => wait_connection p.2 <> c) (waits r))
      with (filter (fun p => p.2 <> c) (wait_connection <$> waits r)) by by rewrite map_filter_fmap.
    by apply indexes_delete.
  - intros rec. rewrite list_elem_of_omap. setoid_rewrite Hk. naive_solver.
Qed.

(** ** Reachable registries *)

Inductive wait_op :=
| WaitAllocate (owner : Z)
| WaitRegister (c owner wait : Z)
| WaitRemove (owner wait : Z)
| WaitRemoveConnection (c : Z).

(** One call: the id it allocated, if it was an allocation. *)
Definition run_wait (op : wait_op) (r : SdkWaitRegistry) : option (option (Z * Z) * SdkWaitRegistry) :=
  match op with
  | WaitAllocate owner => '(id, r) ← allocate_id owner r; Some (Some (owner, id), r)
  | WaitRegister c owner wait => Some (None, (register c owner wait r).2)
  | WaitRemove owner wait => Some (None, (remove_wait owner wait r).2)
  | WaitRemoveConnection c => Some (None, (remove_wait_connection c r).2)
  end.

(** [wait_reach r ids]: [r] is reached by calls that allocated [ids]. *)
Inductive wait_reach : SdkWaitRegistry -> list (Z * Z) -> Prop :=
| wait_reach_new : wait_reach waits_new []
| wait_reach_op op r ids out r' :
    wait_reach r ids -> run_wait op r = Some (out, r') ->
    wait_reach r' (match out with Some id => id :: ids | None => ids end).

Lemma run_wait_ok op r out r' : waits_ok r -> run_wait op r = Some (out, r') -> waits_ok r'.
Proof.
  intros Hok. destruct op as [owner|c owner wait|owner wait|c]; cbn.
  - destruct (allocate_id owner r) as [[id r1]|] eqn:E; cbn; [|done]. intros [=_ <-]. by eapply allocate_id_ok.
  - intros [=_ <-]. by apply register_ok.
  - intros [=_ <-]. pose proof (remove_key_ok (owner, wait) r Hok) as H. unfold remove_wait.
    by destruct (remove_key (owner, wait) r) as [? ?]; destruct H.
  - intros [=_ <-]. pose proof (remove_wait_connection_eq c r Hok) as H.
    by destruct (remove_wait_connection c r) as [? ?]; destruct H.
Qed.

Lemma run_wait_next op r out r' :
  waits_ok r -> run_wait op r = Some (out, r') ->
  match out with
  | Some (owner, id) =>
      id = default 1 (next_id_by_owner r !! owner) /\
      next_id_by_owner r' = <[owner := id + 1]> (next_id_by_owner r)
  | None => next_id_by_owner r' = next_id_by_owner r
  end.
Proof.
  intros Hok. destruct op as [owner|c owner wait|owner wait|c]; cbn.
  - unfold allocate_id. case_Zbool; cbn; [done|]. by intros [=<- <-].
  - intros [=<- <-]. unfold register. by destruct (waits r !! _).
  - intros [=<- <-]. unfold remove_wait, remove_key. by destruct (waits r !! _).
  - intros [=<- <-]. pose proof (remove_wait_connection_eq c r Hok) as H.
    destruct (remove_wait_connection c r). by destruct H as (_ & _ & ? & _).
Qed.

Lemma wait_reach_ok r ids :
  wait_reach r ids ->
  waits_ok r /\ NoDup ids /\
  forall owner id, (owner, id) ∈ ids -> 1 <= id < default 1 (next_id_by_owner r !! owner).
Proof.
  induction 1 as [|op r ids out r' _ (IH1 & IH2 & IH3) Hrun].
  { split_and!; [apply waits_new_ok|constructor|]. intros owner id Hin. by apply elem_of_nil in Hin. }
  pose proof (run_wait_next op r out r' IH1 Hrun) as Hn. split; [by eapply run_wait_ok|].
  destruct out as [[owner id]|]; [|by rewrite Hn]. destruct Hn as [Hid Hn]. split.
  - constructor; [|done]. intros Hin. specialize (IH3 _ _ Hin). lia.
  - intros o i Hin. rewrite Hn. destruct (decide (o = owner)) as [->|Ho].
    + rewrite lookup_insert_eq. cbn. apply elem_of_cons in Hin as [[=->]|Hin]; [|specialize (IH3 _ _ Hin); lia].
      destruct (next_id_by_owner r !! owner) as [n|] eqn:E; cbn in Hid; [pose proof (waits_next _ IH1 _ _ E)|]; lia.
    + rewrite lookup_insert_ne by done. apply elem_of_cons in Hin as [[=]|Hin]; [done|by apply IH3].
Qed.

(** ** Properties *)

(** However calls are ordered, no (owner, id) pair is allocated twice and
    ids start at one; teardown of a connection returns exactly that
    connection's live waits and leaves every other wait as it was; cancelling a
    wait twice finds nothing the second time. *)
Theorem waits_accounting (r : SdkWaitRegistry) (ids : list (Z * Z)) (c : Z) :
  wait_reach r ids ->
  NoDup ids /\ (forall owner id, (owner, id) ∈ ids -> 1 <= id) /\
  (let '(removed, r') := remove_wait_connection c r in
   (forall rec, rec ∈ removed <-> get_wait (wait_key rec).1 (wait_key rec).2 r = Some rec /\ wait_connection rec = c) /\
   (forall owner wait, get_wait owner wait r' =
      match get_wait owner wait r with
      | Some rec => if decide (wait_connection rec = c) then None else Some rec
      | None => None
      end) /\
   (remove_wait_connection c r').1 = []) /\
  (forall owner wait, (remove_wait owner wait (remove_wait owner wait r).2).1 = None).
Proof.
  intros Hr. destruct (wait_reach_ok r ids Hr) as (Hok & Hnd & Hids). split_and!; [done| | |].
  - intros owner id Hin. specialize (Hids owner id Hin). lia.
  - pose proof (remove_wait_connection_eq c r Hok) as H. destruct (remove_wait_connection c r) as [removed r'].
    destruct H as (Hok' & E & _ & Hrem). split_and!.
    + intros rec. rewrite Hrem. unfold get_wait. rewrite <- surjective_pairing. split.
      * intros (key & Hkey & Hc). pose proof (waits_keys _ Hok _ _ Hkey) as ->. done.
      * intros [? ?]. eauto.
    + intros owner wait. unfold get_wait. rewrite E. destruct (waits r !! (owner, wait)) as [rec|] eqn:Hw.
      * destruct (decide (wait_connection rec = c)) as [Hc|Hc].
        -- apply map_lookup_filter_None. right. intros x Hx. simplify_eq. cbn. by intros ?.
        -- by apply map_lookup_filter_Some.
      * apply map_lookup_filter_None. by left.
    + pose proof (remove_wait_connection_eq c r' Hok') as H. destruct (remove_wait_connection c r') as [removed' r''].
      destruct H as (_ & _ & _ & Hrem'). cbn. destruct removed' as [|rec l]; [done|].
      destruct (proj1 (Hrem' rec)) as (key & Hkey & Hc); [set_solver|]. rewrite E in Hkey.
      apply map_lookup_filter_Some in Hkey as [_ Hne]. done.
  - intros owner wait. unfold remove_wait. pose proof (remove_key_ok (owner, wait) r Hok) as H.
    destruct (remove_key (owner, wait) r) as [rec r']. destruct H as (_ & _ & E). cbn. unfold remove_key.
    by rewrite E, lookup_delete_eq.
Qed.

Lemma waits_accounting_witness :
  exists r, wait_reach r [(10, 2); (10, 1)] /\ NoDup [(10, 2); (10, 1)] /\
    (remove_wait 10 1 (remove_wait 10 1 r).2).1 = None.
Proof.
  exists (mkWaits {[10 := 3]} ∅ ∅).
  assert (wait_reach (mkWaits {[10 := 3]} ∅ ∅) [(10, 2); (10, 1)]) as Hr.
  { refine (wait_reach_op (WaitAllocate 10) (mkWaits {[10 := 2]} ∅ ∅) [(10, 1)] (Some (10, 2)) _ _ _).
    - refine (wait_reach_op (WaitAllocate 10) waits_new [] (Some (10, 1)) _ _ _).
      + apply wait_reach_new.
      + vm_compute. reflexivity.
    - vm_compute. reflexivity. }
  destruct (waits_accounting _ _ 1 Hr) as (Hnd & _ & _ & Hc). split; [exact Hr|]. split; [exact Hnd|]. apply Hc.
Defined.
