(* ===== verification/Varint.v ===== *)
(** * Wire-version varints

    [encode_varint_u32] and [decode_varint_u32] of
    [crates/rmux-proto/src/envelope.rs]: unsigned LEB128 at [u32].  Bytes are
    integers in the range of [u8]. *)

From S2P Require Import Prelude Errors.

(** ** Definitions *)

(** The loop of [encode_varint_u32]; a [u32] has at most five groups of seven
    bits ([varint_fuel] below). *)
Fixpoint encode_varint_loop (fuel : nat) (value : Z) : list Z :=
  match fuel with
  | O => []
  | S fuel =>
      let byte := Z.land value 127 in
      let value := Z.shiftr value 7 in
      if value =? 0 then [byte] else Z.lor byte 128 :: encode_varint_loop fuel value
  end.

Definition encode_varint_u32 (value : Z) : list Z := encode_varint_loop 5 value.

(** The loop of [decode_varint_u32] over [bytes.take(5)]; [None] when it ends
    without a return. *)
Fixpoint decode_varint_loop (fuel index : nat) (value shift : Z) (bytes : list Z)
  : option (result (Z * nat) RmuxError) :=
  match fuel, bytes with
  | S fuel, byte :: rest =>
      let payload := Z.land byte 127 in
      if (index =? 4)%nat && (15 <? payload) then
        Some (Err (Decode "wire-version varint overflows u32"))
      else
        let value := Z.lor value (wrap_u32 (Z.shiftl payload shift)) in
        if Z.land byte 128 =? 0 then
          if (0 <? index)%nat && (payload =? 0) then
            Some (Err (Decode "wire-version varint is not minimally encoded"))
          else Some (Ok (value, S index))
        else decode_varint_loop fuel (S index) value (shift + 7) rest
  | _, _ => None
  end.

Definition decode_varint_u32 (bytes : list Z) : result (option (Z * nat)) RmuxError :=
  match decode_varint_loop 5 0 0 0 bytes with
  | Some (Ok r) => Ok (Some r)
  | Some (Err e) => Err e
  | None =>
      if (length bytes <? 5)%nat then Ok None
      else Err (Decode "wire-version varint exceeds u32 length")
  end.

(** ** Bit operations as arithmetic *)

Lemma land_127 z : Z.land z 127 = z mod 128.
Proof. apply (Z.land_ones z 7). lia. Qed.

Lemma shiftr_7 z : Z.shiftr z 7 = z / 128.
Proof. apply (Z.shiftr_div_pow2 z 7). lia. Qed.

(** [or] of a small number and a shifted one adds them. *)
Lemma lor_shiftl_add a b n :
  0 <= n -> 0 <= a < 2 ^ n -> Z.lor a (Z.shiftl b n) = a + b * 2 ^ n.
Proof.
  intros Hn Ha.
  assert (Z.land a (Z.shiftl b n) = 0) as Hl.
  { apply Z.bits_inj'. intros i Hi. rewrite Z.land_spec, Z.bits_0. destruct (decide (i < n)).
    - rewrite (Z.shiftl_spec_low b n i) by lia. apply andb_false_r.
    - destruct (decide (a = 0)) as [->|]; [by rewrite Z.bits_0|].
      rewrite (Z.bits_above_log2 a i); [done|lia|]. apply Z.log2_lt_pow2; [lia|].
      apply Z.lt_le_trans with (2 ^ n); [lia|]. apply Z.pow_le_mono_r; lia. }
  pose proof (Z.add_lor_land a (Z.shiftl b n)) as H. rewrite Hl in H.
  rewrite Z.shiftl_mul_pow2 in * by lia. lia.
Qed.

Lemma lor_128 z : 0 <= z < 128 -> Z.lor z 128 = z + 128.
Proof. intros H. exact (lor_shiftl_add z 1 7 ltac:(lia) ltac:(lia)). Qed.

(** A fact about bytes that holds of each of the 256 of them. *)
Lemma forall_u8 (P : Z -> bool) :
  forallb (fun n => P (Z.of_nat n)) (seq 0 256) = true -> forall z, in_u8 z -> P z = true.
Proof.
  intros H z Hz. rewrite forallb_forall in H. rewrite <- (Z2Nat.id z) by machine. apply H, in_seq. machine.
Qed.

Lemma land_128 z : in_u8 z -> (Z.land z 128 =? 0) = (z <? 128).
Proof.
  intros H. apply eqb_prop. revert z H.
  apply (forall_u8 (fun z => eqb (Z.land z 128 =? 0) (z <? 128))). vm_compute. reflexivity.
Qed.

(** The encoding in arithmetic. *)
Lemma encode_varint_S fuel value :
  encode_varint_loop (S fuel) value =
  if value / 128 =? 0 then [value mod 128]
  else (value mod 128 + 128) :: encode_varint_loop fuel (value / 128).
Proof.
  cbn [encode_varint_loop]. rewrite land_127, shiftr_7. pose proof (Z.mod_pos_bound value 128 ltac:(lia)).
  by rewrite lor_128.
Qed.

(** Each byte of the encoding is a byte. *)
Lemma encode_varint_u8 fuel value : Forall in_u8 (encode_varint_loop fuel value).
Proof.
  revert value. induction fuel as [|fuel IH]; intros value; [constructor|].
  rewrite encode_varint_S. pose proof (Z.mod_pos_bound value 128 ltac:(lia)).
  destruct (value / 128 =? 0); repeat constructor; try machine. apply IH.
Qed.

(** One step of the decoder in arithmetic. *)
Lemma decode_varint_S fuel index value byte rest :
  in_u8 byte -> (index + S fuel = 5)%nat -> 0 <= value < 2 ^ (7 * Z.of_nat index) ->
  decode_varint_loop (S fuel) index value (7 * Z.of_nat index) (byte :: rest) =
  (let payload := byte mod 128 in
   if (index =? 4)%nat && (15 <? payload) then Some (Err (Decode "wire-version varint overflows u32"))
   else
     let value := value + payload * 2 ^ (7 * Z.of_nat index) in
     if byte <? 128 then
       if (0 <? index)%nat && (payload =? 0) then
         Some (Err (Decode "wire-version varint is not minimally encoded"))
       else Some (Ok (value, S index))
     else decode_varint_loop fuel (S index) value (7 * Z.of_nat (S index)) rest).
Proof.
  intros Hb Hi Hv. cbn [decode_varint_loop]. rewrite land_127, land_128 by done.
  pose proof (Z.mod_pos_bound byte 128 ltac:(lia)) as Hp. cbv zeta.
  destruct ((index =? 4)%nat && (15 <? byte mod 128)) eqn:Hov; [done|].
  assert (Z.lor value (wrap_u32 (Z.shiftl (byte mod 128) (7 * Z.of_nat index))) =
          value + byte mod 128 * 2 ^ (7 * Z.of_nat index)) as ->.
  { rewrite wrap_u32_small; [apply lor_shiftl_add; lia|]. rewrite Z.shiftl_mul_pow2 by lia.
    apply andb_false_iff in Hov. assert (byte mod 128 <= 15 \/ (index < 4)%nat) as Hc.
    { destruct Hov as [Hov|Hov]; [right; apply Nat.eqb_neq in Hov; lia|left; lia]. }
    assert (index = 0 \/ index = 1 \/ index = 2 \/ index = 3 \/ index = 4)%nat as Hcases by lia.
    destruct Hcases as [->|[->|[->|[->| ->]]]]; cbn in *; machine. }
  by replace (7 * Z.of_nat index + 7) with (7 * Z.of_nat (S index)) by lia.
Qed.

Lemma pow_7S (n : nat) : 2 ^ (7 * Z.of_nat (S n)) = 128 * 2 ^ (7 * Z.of_nat n).
Proof. replace (7 * Z.of_nat (S n)) with (7 + 7 * Z.of_nat n) by lia. rewrite Z.pow_add_r by lia. done. Qed.

(** ** Round trip *)

Lemma pow_32_S (i fuel : nat) : (i + S fuel = 5)%nat -> 2 ^ (32 - 7 * Z.of_nat i) <= 128 * 2 ^ (32 - 7 * Z.of_nat (S i)) \/ i = 4%nat.
Proof.
  intros Hi. assert (i = 0 \/ i = 1 \/ i = 2 \/ i = 3 \/ i = 4)%nat as [->|[->|[->|[->| ->]]]] by lia; cbn; lia.
Qed.

Lemma decode_encode_loop fuel index value v rest :
  (index + fuel = 5)%nat -> 0 <= value < 2 ^ (7 * Z.of_nat index) ->
  0 <= v < 2 ^ (32 - 7 * Z.of_nat index) -> ((0 < index)%nat -> 0 < v) ->
  decode_varint_loop fuel index value (7 * Z.of_nat index) (encode_varint_loop fuel v ++ rest) =
  Some (Ok (value + v * 2 ^ (7 * Z.of_nat index), (index + length (encode_varint_loop fuel v))%nat)).
Proof.
  revert index value v. induction fuel as [|fuel IH]; intros index value v Hi Hval Hv Hmin.
  { assert (index = 5)%nat as -> by lia. cbn in Hv. lia. }
  pose proof (encode_varint_u8 (S fuel) v) as Hu8. rewrite encode_varint_S in *.
  pose proof (Z.div_mod v 128 ltac:(lia)) as Hdm. pose proof (Z.mod_pos_bound v 128 ltac:(lia)) as Hm.
  destruct (Z.eqb_spec (v / 128) 0) as [Hd|Hd]; cbn [app]; rewrite decode_varint_S; try done.
  - cbv zeta. rewrite (Z.mod_small (v mod 128) 128) by lia.
    assert (v mod 128 = v) as -> by lia.
    assert ((index =? 4)%nat && (15 <? v) = false) as ->.
    { destruct (Nat.eqb_spec index 4) as [->|]; [|done]. cbn in Hv. cbn. case_Zbool; lia. }
    rewrite (proj2 (Z.ltb_lt v 128)) by lia.
    assert ((0 <? index)%nat && (v =? 0) = false) as ->.
    { destruct (Nat.ltb_spec 0 index); [|done]. cbn. case_Zbool; lia. }
    cbn. by replace (index + 1)%nat with (S index) by lia.
  - inversion Hu8; subst. done.
  - cbv zeta. assert ((v mod 128 + 128) mod 128 = v mod 128) as ->.
    { rewrite <- Zplus_mod_idemp_r, Z_mod_same_full, Z.add_0_r. apply Z.mod_mod. lia. }
    destruct (pow_32_S index fuel Hi) as [Hle| ->]; [|cbn in Hv; lia].
    assert ((index =? 4)%nat = false) as ->.
    { apply Nat.eqb_neq. intros ->. cbn in Hv. lia. }
    cbn [andb]. rewrite (proj2 (Z.ltb_ge (v mod 128 + 128) 128)) by lia.
    rewrite IH.
    + rewrite pow_7S. do 3 f_equal; [|cbn; lia].
      transitivity (value + (128 * (v / 128) + v mod 128) * 2 ^ (7 * Z.of_nat index)); [ring|by rewrite <- Hdm].
    + lia.
    + rewrite pow_7S. nia.
    + lia.
    + lia.
  - inversion Hu8; subst. done.
Qed.

Lemma decode_loop_sound fuel index value bytes w n :
  Forall in_u8 bytes -> (index + fuel = 5)%nat -> 0 <= value < 2 ^ (7 * Z.of_nat index) ->
  decode_varint_loop fuel index value (7 * Z.of_nat index) bytes = Some (Ok (w, n)) ->
  exists v rest, bytes = encode_varint_loop fuel v ++ rest /\ w = value + v * 2 ^ (7 * Z.of_nat index) /\
    0 <= v < 2 ^ (32 - 7 * Z.of_nat index) /\ ((0 < index)%nat -> 0 < v) /\
    n = (index + length (encode_varint_loop fuel v))%nat.
Proof.
  revert index value bytes. induction fuel as [|fuel IH]; intros index value bytes Hu8 Hi Hval; [done|].
  destruct Hu8 as [|byte rest Hb Hu8]; [done|]. rewrite decode_varint_S by done. cbv zeta.
  pose proof (Z.div_mod byte 128 ltac:(lia)) as Hdm. pose proof (Z.mod_pos_bound byte 128 ltac:(lia)) as Hm.
  destruct ((index =? 4)%nat && (15 <? byte mod 128)) eqn:Hov; [done|].
  destruct (Z.ltb_spec byte 128).
  - destruct ((0 <? index)%nat && (byte mod 128 =? 0)) eqn:Hz; [done|]. intros [=<- <-].
    assert (byte mod 128 = byte) as Eb by (apply Z.mod_small; machine). rewrite Eb in *.
    exists byte, rest. rewrite encode_varint_S, Z.div_small, Eb by lia. cbn.
    split_and!; try done; try lia.
    + assert (index = 0 \/ index = 1 \/ index = 2 \/ index = 3 \/ index = 4)%nat
        as [->|[->|[->|[->| ->]]]] by lia; cbn in *; case_Zbool; lia.
    + intros Hpos. destruct (Nat.ltb_spec 0 index); [|lia]. cbn in Hz. case_Zbool; lia.
  - intros Hdec. apply IH in Hdec as (v & rest' & -> & -> & Hv & Hvmin & ->); [|done|lia|].
    2:{ rewrite pow_7S. nia. }
    assert (byte / 128 = 1) as Hd.
    { assert (1 <= byte / 128) by (apply Z.div_le_lower_bound; lia).
      assert (byte / 128 < 2) by (apply Z.div_lt_upper_bound; machine). lia. }
    assert (byte = byte mod 128 + 128) as Eb by lia.
    assert ((byte mod 128 + 128 * v) / 128 = v) as Ed.
    { rewrite Z.mul_comm, Z.div_add, Z.div_small by lia. done. }
    assert ((byte mod 128 + 128 * v) mod 128 = byte mod 128) as Em.
    { rewrite Z.mul_comm, Z.mod_add by lia. apply Z.mod_mod. lia. }
    exists (byte mod 128 + 128 * v), rest'. rewrite encode_varint_S, Ed, Em.
    destruct (Z.eqb_spec v 0); [lia|]. cbn [app length]. rewrite <- Eb. split_and!; try done; try lia.
    + rewrite pow_7S. ring.
    + assert (2 ^ (32 - 7 * Z.of_nat index) = 128 * 2 ^ (32 - 7 * Z.of_nat (S index))) as ->.
      { assert (index = 0 \/ index = 1 \/ index = 2 \/ index = 3 \/ index = 4)%nat
          as [->|[->|[->|[->| ->]]]] by lia; cbn in *; lia. }
      lia.
Qed.

(** More bytes do not change an answer. *)
Lemma decode_loop_app fuel index value shift bytes more r :
  decode_varint_loop fuel index value shift bytes = Some r ->
  decode_varint_loop fuel index value shift (bytes ++ more) = Some r.
Proof.
  revert index value shift bytes. induction fuel as [|fuel IH]; intros index value shift bytes; [done|].
  destruct bytes as [|byte rest]; [done|]. cbn [decode_varint_loop app].
  repeat case_match; try done. apply IH.
Qed.

Lemma decode_varint_u32_app bytes more :
  decode_varint_u32 bytes <> Ok None -> decode_varint_u32 (bytes ++ more) = decode_varint_u32 bytes.
Proof.
  unfold decode_varint_u32. destruct (decode_varint_loop 5 0 0 0 bytes) as [r|] eqn:E.
  - by rewrite (decode_loop_app _ _ _ _ _ more _ E).
  - destruct (Nat.ltb_spec (length bytes) 5) as [|Hlen]; [done|]. intros _.
    assert (decode_varint_loop 5 0 0 0 (bytes ++ more) = None) as ->.
    { clear -E Hlen. do 5 (destruct bytes as [|? bytes]; [cbn in Hlen; lia|]).
      cbn [decode_varint_loop app] in *. repeat case_match; done. }
    rewrite length_app. by destruct (Nat.ltb_spec (length bytes + length more) 5); [lia|].
Qed.

Lemma decode_varint_incomplete bytes : decode_varint_u32 bytes = Ok None -> (length bytes < 5)%nat.
Proof.
  unfold decode_varint_u32. destruct (decode_varint_loop _ _ _ _ _) as [[]|]; [done..|].
  by destruct (Nat.ltb_spec (length bytes) 5).
Qed.

Lemma decode_varint_encode v rest :
  in_u32 v -> decode_varint_u32 (encode_varint_u32 v ++ rest) = Ok (Some (v, length (encode_varint_u32 v))).
Proof.
  intros Hv. unfold decode_varint_u32, encode_varint_u32.
  pose proof (decode_encode_loop 5 0 0 v rest) as H. change (7 * Z.of_nat 0) with 0 in H.
  rewrite H; [|done|done|change (2 ^ (32 - 0)) with 4294967296; machine|lia].
  do 3 f_equal. change (2 ^ 0) with 1. lia.
Qed.

(** ** Properties *)

(** The version varint is a bijection between [u32] values and accepted
    encodings, whatever bytes follow: the encoding of a value decodes to that
    value and its length, and every byte string that decodes to a value starts
    with the encoding of that value and nothing else does. *)
Theorem varint_canonical (v : Z) (n : nat) (bytes : list Z) :
  Forall in_u8 bytes ->
  decode_varint_u32 bytes = Ok (Some (v, n)) <->
  in_u32 v /\ n = length (encode_varint_u32 v) /\ exists rest, bytes = encode_varint_u32 v ++ rest.
Proof.
  intros Hu8. split.
  - unfold decode_varint_u32. destruct (decode_varint_loop 5 0 0 0 bytes) as [[[w k]|]|] eqn:E;
      [|done|by case_match]. intros [=<- <-].
    apply (decode_loop_sound 5 0 0 bytes) in E as (v & rest & -> & -> & Hv & _ & ->); [|done|done|done].
    change (2 ^ (32 - 7 * Z.of_nat 0)) with 4294967296 in Hv. change (2 ^ (7 * Z.of_nat 0)) with 1. replace (0 + v * 1) with v by lia.
    split_and!; [machine|done|by exists rest].
  - intros (Hv & -> & rest & ->). by apply decode_varint_encode.
Qed.

Lemma varint_canonical_witness :
  Forall in_u8 [128; 128; 1; 7] /\ decode_varint_u32 [128; 128; 1; 7] = Ok (Some (16384, 3%nat)).
Proof.
  assert (Forall in_u8 [128; 128; 1; 7]) as H by (repeat constructor; machine). split; [exact H|].
  apply (varint_canonical 16384 3 [128; 128; 1; 7] H). split_and!; [machine|reflexivity|by exists [7]].
Defined.
