(* ===== verification/Frames.v ===== *)
(** * Detached RPC frames

    [encode_frame], [decode_frame] and the incremental [FrameDecoder] of
    [crates/rmux-proto/src/codec.rs].  The payload codec is the [bincode]
    library: [serialize] and [deserialize] are parameters, and what the theorems
    need of them is a hypothesis of the section that uses it. *)

From S2P Require Import Prelude Errors Varint.

Definition RMUX_FRAME_MAGIC : Z := 82.
Definition RMUX_WIRE_VERSION : Z := 8.
Definition DEFAULT_MAX_FRAME_LENGTH : Z := 1024 * 1024.
Definition DEFAULT_MAX_DETACHED_FRAME_LENGTH : Z := 8 * DEFAULT_MAX_FRAME_LENGTH.

(** Vector lengths, as the integers the code computes with. *)
Definition len {A} (l : list A) : Z := Z.of_nat (length l).

Lemma len_app {A} (l1 l2 : list A) : len (l1 ++ l2) = len l1 + len l2.
Proof. unfold len. rewrite length_app. lia. Qed.

Lemma len_nonneg {A} (l : list A) : 0 <= len l.
Proof. unfold len. lia. Qed.

(** [u32::to_le_bytes] and [u32::from_le_bytes]. *)
Definition to_le_bytes (n : Z) : list Z :=
  [n mod 256; n / 256 mod 256; n / 65536 mod 256; n / 16777216 mod 256].

Definition from_le_bytes (b0 b1 b2 b3 : Z) : Z := b0 + 256 * b1 + 65536 * b2 + 16777216 * b3.

Definition ensure_supported_version (version : Z) : result unit RmuxError :=
  if (RMUX_WIRE_VERSION <=? version) && (version <=? RMUX_WIRE_VERSION) then Ok tt
  else Err (UnsupportedWireVersion version RMUX_WIRE_VERSION RMUX_WIRE_VERSION).

Definition frame_length (buffer : list Z) : result Z RmuxError :=
  match buffer with
  | b0 :: b1 :: b2 :: b3 :: _ => Ok (from_le_bytes b0 b1 b2 b3)
  | _ => Err (IncompleteFrame 4 (len buffer))
  end.

Record FrameDecoder := mkDecoder {
  max_frame_length : Z;
  buffer : list Z;
}.

Definition with_max_frame_length (maximum : Z) : FrameDecoder := mkDecoder maximum [].
Definition decoder_new : FrameDecoder := with_max_frame_length DEFAULT_MAX_DETACHED_FRAME_LENGTH.

Definition push_bytes (bytes : list Z) (d : FrameDecoder) : FrameDecoder :=
  mkDecoder (max_frame_length d) (buffer d ++ bytes).

Definition decoder_clear (d : FrameDecoder) : FrameDecoder := mkDecoder (max_frame_length d) [].

(** [buffer.drain(..n)] *)
Definition decoder_drain (n : Z) (d : FrameDecoder) : FrameDecoder :=
  mkDecoder (max_frame_length d) (drop (Z.to_nat n) (buffer d)).

(** [&bytes[lo..hi]] *)
Definition slice (lo hi : Z) (bytes : list Z) : list Z :=
  take (Z.to_nat (hi - lo)) (drop (Z.to_nat lo) bytes).

Section Codec.
Context {T : Type} (serialize : T -> result (list Z) string) (deserialize : list Z -> result T string).

Definition decode_payload (payload : list Z) : result T RmuxError :=
  match deserialize payload with
  | Ok value => Ok value
  | Err error => Err (Decode error)
  end.

Definition encode_frame (value : T) : result (list Z) RmuxError :=
  match serialize value with
  | Err error => Err (Encode error)
  | Ok payload =>
      if len payload =? 0 then Err EmptyFrame
      else if DEFAULT_MAX_DETACHED_FRAME_LENGTH <? len payload then
        Err (FrameTooLarge (len payload) DEFAULT_MAX_DETACHED_FRAME_LENGTH)
      else if u32_max <? len payload then Err (FrameTooLarge (len payload) u32_max)
      else
        Ok ([RMUX_FRAME_MAGIC] ++ encode_varint_u32 RMUX_WIRE_VERSION ++
            to_le_bytes (len payload) ++ payload)
  end.

Definition decode_frame (frame : list Z) : result T RmuxError :=
  match frame with
  | [] => Err (IncompleteFrame 1 (len frame))
  | magic :: rest =>
      if negb (magic =? RMUX_FRAME_MAGIC) then Err (BadFrameMagic magic)
      else
        let? version := decode_varint_u32 rest in
        match version with
        | None => Err (IncompleteFrame 2 (len frame))
        | Some (version, version_len) =>
            let? _ := ensure_supported_version version in
            let header_start := 1 + Z.of_nat version_len in
            if len frame <? header_start + 4 then Err (IncompleteFrame (header_start + 4) (len frame))
            else
              let? length := frame_length (drop (Z.to_nat header_start) frame) in
              if length =? 0 then Err EmptyFrame
              else if DEFAULT_MAX_DETACHED_FRAME_LENGTH <? length then
                Err (FrameTooLarge length DEFAULT_MAX_DETACHED_FRAME_LENGTH)
              else
                let required := header_start + 4 + length in
                if len frame <? required then
                  Err (IncompleteFrame length (len frame - header_start - 4))
                else if required <? len frame then
                  Err (Decode "trailing bytes remain after the first frame")
                else decode_payload (slice (header_start + 4) required frame)
        end
  end.

Definition next_frame (d : FrameDecoder) : result (option T) RmuxError * FrameDecoder :=
  match buffer d with
  | [] => (Ok None, d)
  | magic :: rest =>
      if negb (magic =? RMUX_FRAME_MAGIC) then (Err (BadFrameMagic magic), decoder_clear d)
      else
        match decode_varint_u32 rest with
        | Err error => (Err error, decoder_clear d)
        | Ok None => (Ok None, d)
        | Ok (Some (version, version_len)) =>
            match ensure_supported_version version with
            | Err error => (Err error, decoder_clear d)
            | Ok _ =>
                let header_start := 1 + Z.of_nat version_len in
                if len (buffer d) <? header_start + 4 then (Ok None, d)
                else
                  match frame_length (drop (Z.to_nat header_start) (buffer d)) with
                  | Err error => (Err error, d)
                  | Ok length =>
                      if length =? 0 then (Err EmptyFrame, decoder_drain (header_start + 4) d)
                      else if max_frame_length d <? length then
                        (Err (FrameTooLarge length (max_frame_length d)), decoder_clear d)
                      else
                        let required := header_start + 4 + length in
                        if len (buffer d) <? required then (Ok None, d)
                        else
                          match decode_payload (slice (header_start + 4) required (buffer d)) with
                          | Ok decoded => (Ok (Some decoded), decoder_drain required d)
                          | Err (Decode error) => (Err (Decode error), decoder_clear d)
                          | Err error => (Err error, d)
                          end
                  end
            end
        end
  end.

(** ** The frame header *)

(** The supported version is one byte long. *)
Lemma header_version rest : decode_varint_u32 (RMUX_WIRE_VERSION :: rest) = Ok (Some (RMUX_WIRE_VERSION, 1%nat)).
Proof. exact (decode_varint_encode RMUX_WIRE_VERSION rest ltac:(unfold RMUX_WIRE_VERSION; machine)). Qed.

Lemma supported_version version u : ensure_supported_version version = Ok u -> version = RMUX_WIRE_VERSION.
Proof. unfold ensure_supported_version. case_Zbool; cbn; try done. lia. Qed.

Lemma supported_version_bytes bytes version n u :
  Forall in_u8 bytes -> decode_varint_u32 bytes = Ok (Some (version, n)) ->
  ensure_supported_version version = Ok u ->
  n = 1%nat /\ exists rest, bytes = RMUX_WIRE_VERSION :: rest.
Proof.
  intros Hu8 Hdec ->%supported_version.
  unfold decode_varint_u32 in Hdec. destruct (decode_varint_loop 5 0 0 0 bytes) as [[[w k]|]|] eqn:E;
    [|done|by case_match]. injection Hdec as -> ->.
  apply (decode_loop_sound 5 0 0 bytes) in E as (v & rest & -> & Hw & Hv & _ & ->); [|done|done|done].
  assert (v = 8) as -> by (change (2 ^ (7 * Z.of_nat 0)) with 1 in Hw; unfold RMUX_WIRE_VERSION in Hw; lia).
  split; [done|]. by exists rest.
Qed.

Lemma le_bytes_roundtrip n rest :
  0 <= n <= u32_max -> frame_length (to_le_bytes n ++ rest) = Ok n.
Proof.
  intros Hn. cbn. unfold from_le_bytes. f_equal.
  replace (n / 65536) with (n / 256 / 256) by (rewrite Z.div_div by lia; done).
  replace (n / 16777216) with (n / 256 / 256 / 256) by (rewrite !Z.div_div by lia; done).
  assert (n / 256 / 256 / 256 < 256).
  { rewrite !Z.div_div by lia. apply Z.div_lt_upper_bound; machine. }
  assert (0 <= n / 256 / 256 / 256) by (rewrite !Z.div_div by lia; apply Z.div_pos; lia).
  rewrite (Z.mod_small (n / 256 / 256 / 256)) by lia.
  pose proof (Z.div_mod n 256). pose proof (Z.div_mod (n / 256) 256). pose proof (Z.div_mod (n / 256 / 256) 256). lia.
Qed.

Lemma le_bytes_of b0 b1 b2 b3 :
  in_u8 b0 -> in_u8 b1 -> in_u8 b2 -> in_u8 b3 ->
  to_le_bytes (from_le_bytes b0 b1 b2 b3) = [b0; b1; b2; b3] /\ 0 <= from_le_bytes b0 b1 b2 b3 <= u32_max.
Proof.
  intros H0 H1 H2 H3. split; [|unfold from_le_bytes; machine]. unfold to_le_bytes, from_le_bytes.
  assert (forall a b, in_u8 a -> (a + 256 * b) mod 256 = a /\ (a + 256 * b) / 256 = b) as Hs.
  { intros a b Ha. rewrite (Z.mul_comm 256 b), Z.mod_add, Z.div_add by lia.
    rewrite Z.mod_small, Z.div_small by machine. lia. }
  set (n := b0 + 256 * b1 + 65536 * b2 + 16777216 * b3).
  assert (n = b0 + 256 * (b1 + 256 * (b2 + 256 * b3))) as -> by (unfold n; lia).
  replace 65536 with (256 * 256) by lia. replace 16777216 with (256 * 256 * 256) by lia.
  rewrite <- !Z.div_div by lia.
  rewrite (proj1 (Hs b0 _ H0)), (proj2 (Hs b0 _ H0)), (proj1 (Hs b1 _ H1)), (proj2 (Hs b1 _ H1)),
    (proj1 (Hs b2 _ H2)), (proj2 (Hs b2 _ H2)). rewrite (Z.mod_small b3) by machine. done.
Qed.

(** ** A frame's bytes *)

(** What a frame with this payload looks like on the wire. *)
Definition frame_bytes (payload : list Z) : list Z :=
  RMUX_FRAME_MAGIC :: RMUX_WIRE_VERSION :: to_le_bytes (len payload) ++ payload.

Lemma encode_frame_Ok value frame :
  encode_frame value = Ok frame <->
  exists payload, serialize value = Ok payload /\ 0 < len payload <= DEFAULT_MAX_DETACHED_FRAME_LENGTH /\
    frame = frame_bytes payload.
Proof.
  unfold encode_frame. destruct (serialize value) as [payload|e]; [|split; [done|by intros (? & ? & _)]].
  pose proof (len_nonneg payload).
  assert (DEFAULT_MAX_DETACHED_FRAME_LENGTH <= u32_max) by (vm_compute; done).
  case_Zbool; split; try done; try (intros (? & [=<-] & ? & _); lia).
  - intros [=<-]. exists payload. split_and!; [done|lia|lia|done].
  - intros (? & [=<-] & _ & ->). done.
Qed.

(** An announced length is a [u32], and the four bytes are its encoding. *)
Lemma frame_length_Ok body n :
  Forall in_u8 body -> frame_length body = Ok n ->
  0 <= n <= u32_max /\ exists rest, body = to_le_bytes n ++ rest.
Proof.
  unfold frame_length. intros Hu8. destruct body as [|b0 [|b1 [|b2 [|b3 rest]]]]; try done. intros [=<-].
  apply Forall_cons in Hu8 as [H0 [H1 [H2 [H3 _]%Forall_cons]%Forall_cons]%Forall_cons].
  destruct (le_bytes_of b0 b1 b2 b3) as [E ?]; try done. split; [done|]. rewrite E. by exists rest.
Qed.

(** [next_frame] past the magic and version bytes. *)
Lemma next_frame_header maximum body :
  Forall in_u8 body ->
  let d := mkDecoder maximum (RMUX_FRAME_MAGIC :: RMUX_WIRE_VERSION :: body) in
  next_frame d =
  if len body <? 4 then (Ok None, d)
  else
    match frame_length body with
    | Err error => (Err error, d)
    | Ok n =>
        if n =? 0 then (Err EmptyFrame, mkDecoder maximum (drop 4 body))
        else if maximum <? n then (Err (FrameTooLarge n maximum), mkDecoder maximum [])
        else if len body <? 4 + n then (Ok None, d)
        else
          match decode_payload (slice 4 (4 + n) body) with
          | Ok decoded => (Ok (Some decoded), mkDecoder maximum (drop (Z.to_nat (4 + n)) body))
          | Err (Decode error) => (Err (Decode error), mkDecoder maximum [])
          | Err error => (Err error, d)
          end
    end.
Proof.
  intros Hu8. cbv zeta. unfold next_frame. cbn [buffer max_frame_length]. rewrite Z.eqb_refl. cbn [negb].
  rewrite header_version. unfold ensure_supported_version. rewrite !Z.leb_refl. cbn [andb].
  change (1 + Z.of_nat 1) with 2. change (drop (Z.to_nat 2) (_ :: _ :: body)) with body.
  assert (forall n, (len (RMUX_FRAME_MAGIC :: RMUX_WIRE_VERSION :: body) <? 2 + n) = (len body <? n)) as Hl.
  { intros n. unfold len. cbn [length]. case_Zbool; lia. }
  rewrite Hl. destruct (Z.ltb_spec (len body) 4) as [|Hlen]; [done|].
  assert (0 <= 4) as H4 by lia.
  destruct (frame_length body) as [n|e] eqn:Hn; [|done]. destruct (Z.eqb_spec n 0); [done|].
  destruct (maximum <? n); [done|]. rewrite <- Z.add_assoc, Hl. destruct (Z.ltb_spec (len body) (4 + n)); [done|].
  unfold slice. replace (2 + (4 + n) - (2 + 4)) with (4 + n - 4) by lia.
  change (drop (Z.to_nat (2 + 4)) (_ :: _ :: body)) with (drop (Z.to_nat 4) body).
  unfold decoder_drain. cbn [buffer max_frame_length].
  destruct (frame_length_Ok body n Hu8 Hn) as [Hpos _].
  by replace (Z.to_nat (2 + (4 + n))) with (S (S (Z.to_nat (4 + n)))) by lia.
Qed.

Lemma slice_prefix n (payload rest : list Z) :
  n = len payload -> slice 4 (4 + n) (to_le_bytes n ++ payload ++ rest) = payload.
Proof.
  intros ->. unfold slice. replace (Z.to_nat (4 + len payload - 4)) with (length payload) by (unfold len; lia).
  change (drop (Z.to_nat 4) (to_le_bytes (len payload) ++ payload ++ rest)) with (payload ++ rest).
  apply take_app_length.
Qed.

Lemma to_le_bytes_u8 n : Forall in_u8 (to_le_bytes n).
Proof.
  assert (forall z, in_u8 (z mod 256)) as H by (intros z; pose proof (Z.mod_pos_bound z 256); machine).
  repeat constructor; apply H.
Qed.

(** A whole frame at the front of the buffer is decoded and drained. *)
Lemma next_frame_complete maximum payload rest value :
  deserialize payload = Ok value -> 0 < len payload <= maximum -> len payload <= u32_max ->
  Forall in_u8 payload -> Forall in_u8 rest ->
  next_frame (mkDecoder maximum (frame_bytes payload ++ rest)) = (Ok (Some value), mkDecoder maximum rest).
Proof.
  intros Hdes Hlen Hmax Hp Hr.
  change (frame_bytes payload ++ rest) with
    (RMUX_FRAME_MAGIC :: RMUX_WIRE_VERSION :: (to_le_bytes (len payload) ++ payload) ++ rest).
  rewrite next_frame_header, <- app_assoc by (rewrite !Forall_app; auto using to_le_bytes_u8).
  rewrite !len_app. change (len (to_le_bytes (len payload))) with 4.
  pose proof (len_nonneg rest). pose proof (len_nonneg payload).
  rewrite le_bytes_roundtrip by lia. rewrite slice_prefix by done. unfold decode_payload. rewrite Hdes.
  case_Zbool; try lia. do 2 f_equal.
  replace (Z.to_nat (4 + len payload)) with (4 + length payload)%nat by (unfold len; lia).
  change (drop (4 + length payload) (to_le_bytes (len payload) ++ payload ++ rest))
    with (drop (length payload) (payload ++ rest)). apply drop_app_length.
Qed.

(** Part of a frame is left in the buffer. *)
Lemma next_frame_partial maximum payload p q :
  p ++ q = frame_bytes payload -> q <> [] -> 0 < len payload <= maximum -> len payload <= u32_max ->
  Forall in_u8 payload ->
  next_frame (mkDecoder maximum p) = (Ok None, mkDecoder maximum p).
Proof.
  intros Hpq Hq Hlen Hmax Hu8. unfold frame_bytes in Hpq.
  destruct p as [|m [|v body]]; [done|by injection Hpq as -> _|]. injection Hpq as -> -> Hpq.
  assert (Forall in_u8 (body ++ q)) as Hb.
  { rewrite Hpq. change (Forall in_u8 (to_le_bytes (len payload) ++ payload)).
    rewrite Forall_app. auto using to_le_bytes_u8. }
  apply Forall_app in Hb as [Hb _]. rewrite next_frame_header by done.
  destruct (Z.ltb_spec (len body) 4) as [|H4]; [done|].
  destruct body as [|b0 [|b1 [|b2 [|b3 rest]]]]; try (unfold len in H4; cbn in H4; lia).
  change (to_le_bytes (len payload) ++ payload) with
    ([len payload mod 256; len payload / 256 mod 256; len payload / 65536 mod 256;
      len payload / 16777216 mod 256] ++ payload) in Hpq.
  injection Hpq as E0 E1 E2 E3 Epl.
  assert (frame_length (b0 :: b1 :: b2 :: b3 :: rest) = Ok (len payload)) as ->.
  { rewrite E0, E1, E2, E3. exact (le_bytes_roundtrip (len payload) rest ltac:(lia)). }
  assert (0 < len q) by (destruct q; [done|unfold len; cbn; lia]).
  assert (len payload = len rest + len q) as El by (by rewrite <- Epl, len_app).
  assert (len (b0 :: b1 :: b2 :: b3 :: rest) = 4 + len rest) as E4 by (unfold len; cbn [length]; lia).
  rewrite E4. case_Zbool; try done; lia.
Qed.

(** ** Draining a decoder

    A reader calls [next_frame] until it has no more: the frames, the error
    that stopped it, if any, and the decoder left.  Every frame takes bytes, so
    one more call than there are bytes is enough. *)

Fixpoint drain_loop (fuel : nat) (d : FrameDecoder) : list T * option RmuxError * FrameDecoder :=
  match fuel with
  | O => ([], None, d)
  | S fuel =>
      match next_frame d with
      | (Ok None, d) => ([], None, d)
      | (Err error, d) => ([], Some error, d)
      | (Ok (Some value), d) =>
          let '(values, error, d) := drain_loop fuel d in (value :: values, error, d)
      end
  end.

Definition drain (d : FrameDecoder) : list T * option RmuxError * FrameDecoder :=
  drain_loop (S (length (buffer d))) d.

(** Reads arrive in chunks; after each, the reader drains the decoder. *)
Fixpoint receive (chunks : list (list Z)) (d : FrameDecoder) : list T * option RmuxError * FrameDecoder :=
  match chunks with
  | [] => ([], None, d)
  | chunk :: rest =>
      match drain (push_bytes chunk d) with
      | (values, Some error, d) => (values, Some error, d)
      | (values, None, d) =>
          let '(more, error, d) := receive rest d in (values ++ more, error, d)
      end
  end.

(** A payload the decoder accepts as [value]. *)
Record carries (maximum : Z) (payload : list Z) (value : T) : Prop := {
  carries_value : deserialize payload = Ok value;
  carries_len : 0 < len payload <= maximum /\ len payload <= u32_max;
  carries_u8 : Forall in_u8 payload;
}.

Definition stream (payloads : list (list Z)) : list Z := concat (map frame_bytes payloads).

Lemma frame_bytes_u8 payload : Forall in_u8 payload -> Forall in_u8 (frame_bytes payload).
Proof.
  intros H. unfold frame_bytes. unfold RMUX_FRAME_MAGIC, RMUX_WIRE_VERSION.
  do 2 (constructor; [machine|]). rewrite Forall_app. auto using to_le_bytes_u8.
Qed.

Lemma stream_u8 maximum payloads values :
  Forall2 (carries maximum) payloads values -> Forall in_u8 (stream payloads).
Proof.
  induction 1 as [|p v ps vs Hc _ IH]; [constructor|].
  change (Forall in_u8 (frame_bytes p ++ stream ps)). apply Forall_app. split; [|done].
  apply frame_bytes_u8, Hc.
Qed.

(** Draining a prefix of a stream yields its complete frames. *)
Lemma drain_loop_prefix maximum fuel payloads values p q :
  Forall2 (carries maximum) payloads values -> p ++ q = stream payloads -> (length p < fuel)%nat ->
  exists k p', drain_loop fuel (mkDecoder maximum p) = (take k values, None, mkDecoder maximum p') /\
    p' ++ q = stream (drop k payloads) /\ (q = [] -> p' = [] /\ take k values = values).
Proof.
  intros Hps. revert fuel p. induction Hps as [|payload value payloads values Hc Hps IH]; intros fuel p Hpq Hf.
  { apply app_nil in Hpq as [-> ->]. destruct fuel as [|fuel]; [lia|]. exists 0%nat, []. done. }
  destruct fuel as [|fuel]; [lia|]. pose proof (stream_u8 _ _ _ Hps) as Hu8.
  destruct Hc as [C1 [C2 C3] C4]. change (stream (payload :: payloads)) with
    (frame_bytes payload ++ stream payloads) in Hpq.
  destruct (decide (length (frame_bytes payload) <= length p)%nat) as [Hle|Hlt].
  - assert (exists rest, p = frame_bytes payload ++ rest) as [rest ->].
    { exists (drop (length (frame_bytes payload)) p). 
      pose proof (f_equal (take (length (frame_bytes payload))) Hpq) as E.
      rewrite take_app_le, take_app_length in E by done. rewrite <- E at 1. by rewrite take_drop. }
    rewrite <- app_assoc in Hpq. apply app_inv_head in Hpq.
    assert (Forall in_u8 rest) as Hr by (rewrite <- Hpq in Hu8; by apply Forall_app in Hu8 as [? _]).
    destruct (IH fuel rest Hpq) as (k & p' & E & Hp' & Hq).
    { rewrite length_app in Hf. unfold frame_bytes in Hf. cbn [length] in Hf. lia. }
    exists (S k), p'. cbn [drain_loop]. rewrite (next_frame_complete maximum payload rest value) by done.
    rewrite E. split_and!; [done|done|]. intros Hnil. destruct (Hq Hnil) as [? Hk]. split; [done|]. cbn. by rewrite Hk.
  - assert (exists r, p ++ r = frame_bytes payload /\ q = r ++ stream payloads /\ r <> []) as (r & Er & -> & Hr).
    { exists (drop (length p) (frame_bytes payload)).
      pose proof (f_equal (take (length p)) Hpq) as E1. pose proof (f_equal (drop (length p)) Hpq) as E2.
      rewrite take_app_length, take_app_le in E1 by lia. rewrite drop_app_length, drop_app_le in E2 by lia.
      split_and!; [rewrite E1 at 1; apply take_drop|done|]. intros Hn.
      pose proof (length_drop (frame_bytes payload) (length p)) as Hd. rewrite Hn in Hd. change (@length Z []) with 0%nat in Hd. lia. }
    exists 0%nat, p. cbn [drain_loop]. rewrite (next_frame_partial maximum payload p r) by done.
    split_and!; [done|done|]. intros Hn. by apply app_nil in Hn as [? _].
Qed.

Lemma receive_stream maximum chunks payloads values p :
  Forall2 (carries maximum) payloads values -> p ++ concat chunks = stream payloads -> 
  (chunks = [] -> p = [] /\ payloads = []) ->
  receive chunks (mkDecoder maximum p) = (values, None, mkDecoder maximum []).
Proof.
  revert payloads values p. induction chunks as [|chunk chunks IH]; intros payloads values p Hps Hst Hend.
  { destruct (Hend eq_refl) as [-> ->]. by inversion Hps. }
  cbn [receive]. unfold push_bytes, drain. cbn [max_frame_length buffer]. cbn [concat] in Hst. rewrite app_assoc in Hst.
  destruct (drain_loop_prefix maximum (S (length (p ++ chunk))) payloads values _ _ Hps Hst) as (k & p' & E & Hp' & Hq); [lia|].
  rewrite E. rewrite (IH (drop k payloads) (drop k values) p'); [by rewrite take_drop|by apply Forall2_drop|done|].
  intros ->. destruct (Hq eq_refl) as [-> Hk]. split; [done|].
  assert (length payloads <= k)%nat; [|by apply drop_ge].
  apply (f_equal length) in Hk. rewrite length_take in Hk. apply Forall2_length in Hps. lia.
Qed.

(** ** One-shot decoding *)

Lemma decode_frame_header body :
  decode_frame (RMUX_FRAME_MAGIC :: RMUX_WIRE_VERSION :: body) =
  if len body <? 4 then Err (IncompleteFrame 6 (2 + len body))
  else
    let? n := frame_length body in
    if n =? 0 then Err EmptyFrame
    else if DEFAULT_MAX_DETACHED_FRAME_LENGTH <? n then
      Err (FrameTooLarge n DEFAULT_MAX_DETACHED_FRAME_LENGTH)
    else if len body <? 4 + n then Err (IncompleteFrame n (len body - 4))
    else if 4 + n <? len body then Err (Decode "trailing bytes remain after the first frame")
    else decode_payload (slice 4 (4 + n) body).
Proof.
  unfold decode_frame. rewrite Z.eqb_refl. cbn [negb]. rewrite header_version.
  unfold ensure_supported_version. rewrite !Z.leb_refl. cbn [andb].
  change (1 + Z.of_nat 1) with 2. change (drop (Z.to_nat 2) (_ :: _ :: body)) with body.
  assert (len (RMUX_FRAME_MAGIC :: RMUX_WIRE_VERSION :: body) = 2 + len body) as -> by (unfold len; cbn [length]; lia).
  assert (forall a b, (2 + a <? 2 + b) = (a <? b)) as Hl by (intros; case_Zbool; lia).
  rewrite Hl. change (2 + 4) with 6. destruct (len body <? 4); [done|].
  destruct (frame_length body) as [n|e]; [|done]. destruct (n =? 0); [done|].
  destruct (DEFAULT_MAX_DETACHED_FRAME_LENGTH <? n); [done|].
  replace (6 + n) with (2 + (4 + n)) by lia. rewrite !Hl.
  replace (2 + len body - 2 - 4) with (len body - 4) by lia.
  destruct (len body <? 4 + n); [done|]. destruct (4 + n <? len body); [done|].
  unfold slice. by replace (2 + (4 + n) - 6) with (4 + n - 4) by lia.
Qed.

Lemma decode_frame_Ok frame value :
  Forall in_u8 frame ->
  decode_frame frame = Ok value <->
  exists payload, deserialize payload = Ok value /\
    0 < len payload <= DEFAULT_MAX_DETACHED_FRAME_LENGTH /\ frame = frame_bytes payload.
Proof.
  intros Hu8. assert (DEFAULT_MAX_DETACHED_FRAME_LENGTH <= u32_max) as Hmax by (vm_compute; done). split.
  - intros Hdec. assert (exists body, frame = RMUX_FRAME_MAGIC :: RMUX_WIRE_VERSION :: body) as [body ->].
    { destruct frame as [|m rest]; [done|]. cbn [decode_frame] in Hdec.
      destruct (Z.eqb_spec m RMUX_FRAME_MAGIC) as [->|]; [cbn [negb] in Hdec|done].
      apply Forall_cons in Hu8 as [_ Hu8].
      destruct (decode_varint_u32 rest) as [[[v n]|]|] eqn:Hv; [|done|done].
      destruct (ensure_supported_version v) eqn:Hs; [|done].
      destruct (supported_version_bytes _ _ _ _ Hu8 Hv Hs) as [_ [body ->]]. by exists body. }
    apply Forall_cons in Hu8 as [_ [_ Hu8]%Forall_cons]. rewrite decode_frame_header in Hdec.
    destruct (len body <? 4); [done|]. destruct (frame_length body) as [n|] eqn:Hn; [|done].
    destruct (frame_length_Ok body n Hu8 Hn) as [Hr [payload ->]].
    rewrite len_app in Hdec. change (len (to_le_bytes n)) with 4 in Hdec.
    revert Hdec. case_Zbool; try done. intros Hdec. assert (n = len payload) as -> by lia.
    pose proof (slice_prefix (len payload) payload [] eq_refl) as Hs. rewrite app_nil_r in Hs. rewrite Hs in Hdec.
    unfold decode_payload in Hdec. destruct (deserialize payload) as [v|] eqn:Hd; [|done]. injection Hdec as ->.
    exists payload. split_and!; [done|lia|lia|done].
  - intros (payload & Hdes & Hlen & ->). unfold frame_bytes. rewrite decode_frame_header.
    rewrite len_app. change (len (to_le_bytes (len payload))) with 4.
    rewrite le_bytes_roundtrip by lia. pose proof (slice_prefix (len payload) payload [] eq_refl) as Hs.
    rewrite app_nil_r in Hs. rewrite Hs. unfold decode_payload. rewrite Hdes. case_Zbool; try lia. done.
Qed.

(** ** Progress *)

(** A call that returns a frame or an error consumes bytes; one that asks for
    more leaves the buffer as it is, short of one maximal frame. *)
Lemma next_frame_steps d :
  Forall in_u8 (buffer d) -> 0 <= max_frame_length d ->
  match next_frame d with
  | (Ok None, d') => d' = d /\ len (buffer d) < 6 + max_frame_length d
  | (Ok (Some _), d') | (Err _, d') =>
      (length (buffer d') < length (buffer d))%nat /\ max_frame_length d' = max_frame_length d /\
      Forall in_u8 (buffer d')
  end.
Proof.
  destruct d as [maximum [|m rest]]; cbn [buffer max_frame_length]; intros Hu8 Hmax; [split; [done|change (len (@nil Z)) with 0; lia]|].
  destruct (Z.eqb_spec m RMUX_FRAME_MAGIC) as [->|Hm].
  2:{ unfold next_frame. cbn [buffer]. rewrite (proj2 (Z.eqb_neq _ _) Hm). cbn. split_and!; [lia|done|constructor]. }
  pose proof Hu8 as Hu8'. apply Forall_cons in Hu8' as [_ Hrest].
  destruct (decode_varint_u32 rest) as [[[v n]|]|e] eqn:Hv.
  - destruct (ensure_supported_version v) as [u|e] eqn:Hs.
    + destruct (supported_version_bytes _ _ _ _ Hrest Hv Hs) as [_ [body ->]].
      apply Forall_cons in Hrest as [_ Hbody]. rewrite next_frame_header by done.
      assert (len (RMUX_FRAME_MAGIC :: RMUX_WIRE_VERSION :: body) = 2 + len body) as El by (unfold len; cbn [length]; lia).
      destruct (Z.ltb_spec (len body) 4); [split; [done|lia]|].
      destruct (frame_length body) as [k|e] eqn:Hk.
      2:{ exfalso. destruct body as [|? [|? [|? [|? ?]]]]; try done; unfold len in *; cbn in *; lia. }
      destruct (frame_length_Ok body k Hbody Hk) as [Hkr _].
      destruct (k =? 0); [cbn [buffer max_frame_length]; rewrite length_drop; cbn [length]; auto using Forall_drop with lia|].
      destruct (Z.ltb_spec maximum k); [cbn [buffer max_frame_length length]; auto with lia|].
      destruct (Z.ltb_spec (len body) (4 + k)); [split; [done|lia]|].
      unfold decode_payload. destruct (deserialize _) as [val|e]; cbn [buffer max_frame_length];
        rewrite ?length_drop; cbn [length]; auto using Forall_drop with lia.
    + unfold next_frame. cbn [buffer]. rewrite Z.eqb_refl, Hv, Hs. cbn. split_and!; [lia|done|constructor].
  - unfold next_frame. cbn [buffer]. rewrite Z.eqb_refl, Hv. cbn [negb]. split; [done|].
    apply decode_varint_incomplete in Hv. unfold len. cbn [length]. lia.
  - unfold next_frame. cbn [buffer]. rewrite Z.eqb_refl, Hv. cbn. split_and!; [lia|done|constructor].
Qed.

Lemma drain_loop_complete fuel d :
  Forall in_u8 (buffer d) -> 0 <= max_frame_length d -> (length (buffer d) < fuel)%nat ->
  let '(_, error, d') := drain_loop fuel d in
  Forall in_u8 (buffer d') /\ max_frame_length d' = max_frame_length d /\
  (error = None -> next_frame d' = (Ok None, d') /\ len (buffer d') < 6 + max_frame_length d').
Proof.
  revert d. induction fuel as [|fuel IH]; intros d Hu8 Hmax Hf; [lia|]. cbn [drain_loop].
  pose proof (next_frame_steps d Hu8 Hmax) as Hn. destruct (next_frame d) as [[[value|]|e] d'] eqn:E.
  - destruct Hn as (Hlt & Em & Hu8'). specialize (IH d' Hu8' ltac:(lia) ltac:(lia)).
    destruct (drain_loop fuel d') as [[values error] d'']. destruct IH as (? & ? & ?). split_and!; [done|lia|done].
  - destruct Hn as [-> ?]. split_and!; done.
  - destruct Hn as (? & ? & ?). split_and!; done.
Qed.
End Codec.

(** ** Properties *)

Section Properties.
Context {T : Type} (serialize : T -> result (list Z) string) (deserialize : list Z -> result T string).

(** [bincode]: what it serializes it reads back, and it produces bytes. *)
Definition bincode_roundtrip : Prop :=
  forall value payload, serialize value = Ok payload -> deserialize payload = Ok value /\ Forall in_u8 payload.

(** A frame the encoder produces decodes to the value it was made from, and
    decoding is exact: a byte string decodes to a value only if it is the magic
    byte, the version, the little-endian payload length and a payload within
    the limit that deserializes to that value, with nothing after it. *)
Theorem frame_roundtrip (value : T) (frame : list Z) :
  bincode_roundtrip -> Forall in_u8 frame ->
  (encode_frame serialize value = Ok frame -> decode_frame deserialize frame = Ok value) /\
  (decode_frame deserialize frame = Ok value <->
   exists payload, deserialize payload = Ok value /\
     0 < len payload <= DEFAULT_MAX_DETACHED_FRAME_LENGTH /\
     frame = [RMUX_FRAME_MAGIC; RMUX_WIRE_VERSION] ++ to_le_bytes (len payload) ++ payload).
Proof.
  intros Hb Hu8. pose proof (decode_frame_Ok deserialize frame value Hu8) as Hd. split; [|exact Hd].
  intros (payload & Hs & Hlen & ->)%encode_frame_Ok. apply Hd. exists payload.
  destruct (Hb value payload Hs). done.
Qed.

(** C20. However a stream of encoded frames is cut into reads, a reader that
    drains a new [FrameDecoder] after each read gets exactly the values that
    were sent, in order, without an error, and the decoder ends empty. *)
Theorem frame_stream_roundtrip (values : list T) (frames chunks : list (list Z)) :
  bincode_roundtrip ->
  Forall2 (fun value frame => encode_frame serialize value = Ok frame) values frames ->
  concat chunks = concat frames ->
  receive deserialize chunks decoder_new = (values, None, decoder_new).
Proof.
  intros Hb Hf Hc.
  assert (exists payloads, frames = map frame_bytes payloads /\
    Forall2 (carries deserialize DEFAULT_MAX_DETACHED_FRAME_LENGTH) payloads values) as (payloads & -> & Hp).
  { clear Hc. induction Hf as [|value frame values frames Henc _ (payloads & -> & IH)]; [exists []; by split|].
    apply encode_frame_Ok in Henc as (payload & Hs & Hlen & ->). exists (payload :: payloads). split; [done|].
    destruct (Hb value payload Hs). constructor; [|done]. split; [done| |done]. split; [done|].
    assert (DEFAULT_MAX_DETACHED_FRAME_LENGTH <= u32_max) by (vm_compute; done). lia. }
  apply (receive_stream deserialize _ chunks payloads); [done|done|]. intros ->. split; [done|].
  destruct payloads; [done|]. discriminate Hc.
Qed.

(** C33. On any bytes at all, a call of [next_frame] that returns a frame or an
    error consumes at least one byte, a call that asks for more leaves the
    buffer as it was, and then the buffer holds less than a header and one
    maximal payload; so a reader's drain loop ends after at most one call per
    buffered byte, in such a state or with an error. *)
Theorem next_frame_progress (d : FrameDecoder) :
  Forall in_u8 (buffer d) -> 0 <= max_frame_length d ->
  (match next_frame deserialize d with
   | (Ok None, d') => d' = d /\ len (buffer d) < 6 + max_frame_length d
   | (Ok (Some _), d') | (Err _, d') => (length (buffer d') < length (buffer d))%nat
   end) /\
  (let '(_, error, d') := drain deserialize d in
   error = None -> next_frame deserialize d' = (Ok None, d') /\ len (buffer d') < 6 + max_frame_length d').
Proof.
  intros Hu8 Hmax. split.
  - pose proof (next_frame_steps deserialize d Hu8 Hmax) as H.
    by destruct (next_frame deserialize d) as [[[]|] d']; [destruct H as [? _]|..|destruct H as [? _]].
  - unfold drain. pose proof (drain_loop_complete deserialize (S (length (buffer d))) d Hu8 Hmax ltac:(lia)) as H.
    destruct (drain_loop deserialize (S (length (buffer d))) d) as [[values error] d'].
    destruct H as (_ & _ & H). exact H.
Qed.
End Properties.

(** A payload codec for the witnesses: a byte is its own one-byte payload. *)
Definition byte_serialize (value : Z) : result (list Z) string :=
  if (0 <=? value) && (value <=? u8_max) then Ok [value] else Err "not a byte"%string.
Definition byte_deserialize (payload : list Z) : result Z string :=
  match payload with [value] => Ok value | _ => Err "length"%string end.

Lemma byte_codec_roundtrip : bincode_roundtrip byte_serialize byte_deserialize.
Proof.
  intros value payload. unfold byte_serialize. case_Zbool; cbn; try done. intros [=<-]. split; [done|].
  repeat constructor; machine.
Qed.

Lemma frame_roundtrip_witness : decode_frame byte_deserialize [82; 8; 1; 0; 0; 0; 77] = Ok 77.
Proof.
  refine (proj1 (frame_roundtrip byte_serialize byte_deserialize 77 [82; 8; 1; 0; 0; 0; 77] byte_codec_roundtrip _) _).
  - repeat constructor; machine.
  - reflexivity.
Defined.

Lemma frame_stream_roundtrip_witness :
  receive byte_deserialize [[82; 8; 1]; [0; 0; 0; 77; 82]; []; [8; 1; 0; 0; 0; 78]] decoder_new
  = ([77; 78], None, decoder_new).
Proof.
  apply (frame_stream_roundtrip byte_serialize byte_deserialize [77; 78]
    [[82; 8; 1; 0; 0; 0; 77]; [82; 8; 1; 0; 0; 0; 78]]).
  - exact byte_codec_roundtrip.
  - repeat constructor.
  - reflexivity.
Defined.

Lemma next_frame_progress_witness :
  let '(_, error, d') := drain byte_deserialize (mkDecoder 4 [82; 8; 1; 0; 0; 0; 77; 82]) in
  error = None -> next_frame byte_deserialize d' = (Ok None, d') /\ len (buffer d') < 6 + max_frame_length d'.
Proof.
  apply (next_frame_progress byte_deserialize (mkDecoder 4 [82; 8; 1; 0; 0; 0; 77; 82])).
  - repeat constructor; machine.
  - cbn. lia.
Defined.
