(* ===== verification/CommandQueue.v ===== *)
(** * The command queue

    [CommandQueue] of [crates/rmux-core/src/command_queue.rs]: parsed commands
    with the group each was given, so that an error can skip the rest of its
    group.  The parsed commands are the data of
    [crates/rmux-core/src/command_parser.rs].  [None] from [assign_groups] is
    the panic of its [expect]; [assign_groups_total] shows that it is never
    reached. *)

From S2P Require Import Prelude.

(** ** Data *)

Inductive CommandGrouping := ByLine | OneGroup.

Record EnvironmentAssignment := mkAssignment {
  assign_name : string;
  assign_value : string;
  assign_hidden : bool;
}.

Inductive CommandArgument :=
| ArgString (value : string)
| ArgCommands (commands : ParsedCommands)
with ParsedCommands :=
| mkCommands (commands : list ParsedCommand) (assignments : list EnvironmentAssignment) (grouping : CommandGrouping)
with ParsedCommand :=
| mkCommand (name : string) (arguments : list CommandArgument) (start_line line : nat).

Definition line (c : ParsedCommand) : nat := match c with mkCommand _ _ _ l => l end.
Definition into_commands (cs : ParsedCommands) : list ParsedCommand := match cs with mkCommands l _ _ => l end.
Definition grouping (cs : ParsedCommands) : CommandGrouping := match cs with mkCommands _ _ g => g end.

Record QueuedCommand := mkQueued {
  command : ParsedCommand;
  group : Z;
}.

Record CommandQueue := mkQueue {
  items : list QueuedCommand;
  next_group_id : Z;
}.

Definition queue_new : CommandQueue := mkQueue [] 1.

(** ** Operations *)

(** [self.next_group()]: the id handed out and the counter after it. *)
Definition next_group (next : Z) : Z * Z := (next, wrap_u64 (next + 1)).

(** The loop of [assign_groups]. *)
Fixpoint assign_loop (g : CommandGrouping) (commands : list ParsedCommand)
    (current_line : option nat) (current_group : option Z) (next : Z)
  : option (list QueuedCommand * Z) :=
  match commands with
  | [] => Some ([], next)
  | c :: rest =>
      step ←
        match g with
        | OneGroup =>
            match current_group with
            | Some id => Some (id, current_line, current_group, next)
            | None => let '(id, next) := next_group next in Some (id, current_line, Some id, next)
            end
        | ByLine =>
            if decide (current_line = Some (line c)) then
              id ← current_group; Some (id, current_line, current_group, next)
            else let '(id, next) := next_group next in Some (id, Some (line c), Some id, next)
        end;
      let '(id, current_line, current_group, next) := step in
      '(assigned, next) ← assign_loop g rest current_line current_group next;
      Some (mkQueued c id :: assigned, next)
  end.

Definition assign_groups (cs : ParsedCommands) (q : CommandQueue) : option (list QueuedCommand * Z) :=
  assign_loop (grouping cs) (into_commands cs) None None (next_group_id q).

Definition append_parsed (cs : ParsedCommands) (q : CommandQueue) : option CommandQueue :=
  '(assigned, next) ← assign_groups cs q;
  Some (mkQueue (items q ++ assigned) next).

(** [for item in items.into_iter().rev() { push_front(item) }] *)
Definition push_all_front (assigned : list QueuedCommand) (l : list QueuedCommand) : list QueuedCommand :=
  fold_left (fun l item => item :: l) (reverse assigned) l.

Definition insert_after_current (cs : ParsedCommands) (q : CommandQueue) : option CommandQueue :=
  '(assigned, next) ← assign_groups cs q;
  Some (mkQueue (push_all_front assigned (items q)) next).

Definition from_parsed (cs : ParsedCommands) : option CommandQueue := append_parsed cs queue_new.

Definition pop_front (q : CommandQueue) : option QueuedCommand * CommandQueue :=
  match items q with
  | [] => (None, q)
  | item :: rest => (Some item, mkQueue rest (next_group_id q))
  end.

Definition remove_group (g : Z) (q : CommandQueue) : nat * CommandQueue :=
  let kept := filter (fun item => group item <> g) (items q) in
  ((length (items q) - length kept)%nat, mkQueue kept (next_group_id q)).

(** ** Which group each command gets *)

(** Whether a command starts a new group after one on line [previous]. *)
Definition starts_group (g : CommandGrouping) (previous : option nat) (c : ParsedCommand) : bool :=
  match g, previous with
  | OneGroup, Some _ => false
  | ByLine, Some l => negb (l =? line c)%nat
  | _, None => true
  end.

(** The group numbers of a list: one more at each start. *)
Fixpoint group_numbers (g : CommandGrouping) (previous : option nat) (last : Z) (cs : list ParsedCommand)
  : list Z :=
  match cs with
  | [] => []
  | c :: rest =>
      let id := if starts_group g previous c then last + 1 else last in
      id :: group_numbers g (Some (line c)) id rest
  end.

(** The last number handed out. *)
Fixpoint last_number (g : CommandGrouping) (previous : option nat) (last : Z) (cs : list ParsedCommand) : Z :=
  match cs with
  | [] => last
  | c :: rest => last_number g (Some (line c)) (if starts_group g previous c then last + 1 else last) rest
  end.

(** The loop state after [previous] was the last command. *)
Definition loop_line (g : CommandGrouping) (previous : option nat) : option nat :=
  match g with ByLine => previous | OneGroup => None end.
Definition loop_group (previous : option nat) (last : Z) : option Z :=
  match previous with None => None | Some _ => Some last end.

Lemma assign_loop_eq g cs previous last :
  0 <= last -> last + Z.of_nat (length cs) < u64_max ->
  assign_loop g cs (loop_line g previous) (loop_group previous last) (last + 1) =
  Some (zip_with mkQueued cs (group_numbers g previous last cs), last_number g previous last cs + 1).
Proof.
  revert previous last. induction cs as [|c cs IH]; intros previous last H0 Hmax; [done|].
  cbn [length] in Hmax. cbn [assign_loop group_numbers last_number zip_with].
  assert (wrap_u64 (last + 1 + 1) = last + 1 + 1) as Hw by (apply Z.mod_small; machine).
  pose proof (IH (Some (line c)) last) as IH1. pose proof (IH (Some (line c)) (last + 1)) as IH2.
  destruct g, previous as [l|]; cbn [loop_line loop_group starts_group] in *; cbn.
  - destruct (Nat.eqb_spec l (line c)) as [->|Hne]; cbn.
    + rewrite decide_True by done. cbn. by rewrite IH1 by lia.
    + rewrite decide_False by congruence. cbn. by rewrite Hw, IH2 by lia.
  - rewrite decide_False by done. cbn. by rewrite Hw, IH2 by lia.
  - by rewrite IH1 by lia.
  - by rewrite Hw, IH2 by lia.
Qed.

Lemma group_numbers_length g previous last cs : length (group_numbers g previous last cs) = length cs.
Proof. revert previous last. induction cs as [|c cs IH]; intros previous last; cbn; [done|]. by rewrite IH. Qed.

(** Numbers start at the next free one and never pass the last. *)
Lemma group_numbers_range g previous last cs :
  last <= last_number g previous last cs <= last + Z.of_nat (length cs) /\
  Forall (fun id => (if previous then last else last + 1) <= id <= last_number g previous last cs)
    (group_numbers g previous last cs).
Proof.
  revert previous last. induction cs as [|c cs IH]; intros previous last; cbn [group_numbers last_number length]; [split; [lia|constructor]|].
  set (id := if starts_group g previous c then last + 1 else last).
  assert ((if previous then last else last + 1) <= id <= last + 1) as Hid.
  { unfold id, starts_group. destruct g, previous; try case_match; lia. }
  assert (last <= id) by (unfold id; case_match; lia).
  destruct (IH (Some (line c)) id) as [Hr Hall]. split; [lia|]. constructor; [lia|].
  eapply Forall_impl; [exact Hall|]. cbn. lia.
Qed.

Lemma zip_queued_command cs ids : length ids = length cs -> map command (zip_with mkQueued cs ids) = cs.
Proof. revert ids. induction cs as [|c cs IH]; intros [|id ids]; cbn; try done. intros [=]. f_equal. auto. Qed.

Lemma zip_queued_group cs ids : length ids = length cs -> map group (zip_with mkQueued cs ids) = ids.
Proof. revert ids. induction cs as [|c cs IH]; intros [|id ids]; cbn; try done. intros [=]. f_equal. auto. Qed.

Lemma push_all_front_eq assigned l : push_all_front assigned l = assigned ++ l.
Proof.
  unfold push_all_front. rewrite <- (reverse_involutive assigned) at 2.
  generalize (reverse assigned) as r. intros r. revert l. induction r as [|x r IH]; intros l; [done|].
  cbn [fold_left]. rewrite IH, reverse_cons, <- app_assoc. done.
Qed.

(** ** Invariant: handed-out groups are below the counter *)

Record queue_ok (q : CommandQueue) : Prop := {
  queue_next : 1 <= next_group_id q;
  queue_groups : Forall (fun item => 1 <= group item < next_group_id q) (items q);
}.

(** The counter has room for every command of the list. *)
Definition has_room (cs : ParsedCommands) (q : CommandQueue) : Prop :=
  next_group_id q + Z.of_nat (length (into_commands cs)) <= u64_max.

(** The items a list contributes, from the counter of [q]. *)
Definition assigned_items (cs : ParsedCommands) (q : CommandQueue) : list QueuedCommand :=
  zip_with mkQueued (into_commands cs)
    (group_numbers (grouping cs) None (next_group_id q - 1) (into_commands cs)).

Lemma assign_groups_total cs q :
  1 <= next_group_id q -> has_room cs q ->
  exists next, assign_groups cs q = Some (assigned_items cs q, next) /\ next_group_id q <= next /\
    Forall (fun item => next_group_id q <= group item < next) (assigned_items cs q) /\
    map command (assigned_items cs q) = into_commands cs.
Proof.
  intros H1 Hroom. unfold has_room in Hroom. set (last := next_group_id q - 1).
  pose proof (assign_loop_eq (grouping cs) (into_commands cs) None last) as H.
  assert (loop_line (grouping cs) None = None) as E by (by destruct (grouping cs)). rewrite E in H.
  cbn [loop_group] in H. replace (last + 1) with (next_group_id q) in H by (unfold last; lia).
  exists (last_number (grouping cs) None last (into_commands cs) + 1).
  destruct (group_numbers_range (grouping cs) None last (into_commands cs)) as [Hr Hall].
  split_and!.
  - apply H; unfold last; lia.
  - unfold last in *. lia.
  - assert (Forall (fun id => next_group_id q <= id < last_number (grouping cs) None last (into_commands cs) + 1)
      (map group (assigned_items cs q))) as Hg.
    { unfold assigned_items. rewrite zip_queued_group by apply group_numbers_length.
      eapply Forall_impl; [exact Hall|]. cbn. unfold last in *. lia. }
    by rewrite Forall_map in Hg.
  - unfold assigned_items. apply zip_queued_command, group_numbers_length.
Qed.

Lemma append_parsed_ok cs q :
  queue_ok q -> has_room cs q ->
  exists q', append_parsed cs q = Some q' /\ queue_ok q' /\ items q' = items q ++ assigned_items cs q /\
    Forall (fun item => next_group_id q <= group item) (assigned_items cs q).
Proof.
  intros [H1 H2] Hroom. destruct (assign_groups_total cs q H1 Hroom) as (next & E & Hn & Hg & _).
  unfold append_parsed. rewrite E. cbn. eexists. split_and!; [done| |done|eapply Forall_impl; [exact Hg|cbn; lia]].
  split; cbn; [lia|]. apply Forall_app. split; (eapply Forall_impl; [eassumption|cbn; lia]).
Qed.

Lemma insert_after_current_ok cs q :
  queue_ok q -> has_room cs q ->
  exists q', insert_after_current cs q = Some q' /\ queue_ok q' /\ items q' = assigned_items cs q ++ items q /\
    Forall (fun item => next_group_id q <= group item) (assigned_items cs q).
Proof.
  intros [H1 H2] Hroom. destruct (assign_groups_total cs q H1 Hroom) as (next & E & Hn & Hg & _).
  unfold insert_after_current. rewrite E. cbn. rewrite push_all_front_eq.
  eexists. split_and!; [done| |done|eapply Forall_impl; [exact Hg|cbn; lia]].
  split; cbn; [lia|]. apply Forall_app. split; (eapply Forall_impl; [eassumption|cbn; lia]).
Qed.

Lemma filter_fresh g (l : list QueuedCommand) :
  Forall (fun item => group item <> g) l -> filter (fun item => group item <> g) l = l.
Proof. induction 1 as [|x l Hx _ IH]; [done|]. rewrite filter_cons_True, IH by done. done. Qed.

(** ** Runs *)

Inductive queue_reach : CommandQueue -> Prop :=
| reach_queue_new : queue_reach queue_new
| reach_append cs q q' :
    queue_reach q -> has_room cs q -> append_parsed cs q = Some q' -> queue_reach q'
| reach_insert cs q q' :
    queue_reach q -> has_room cs q -> insert_after_current cs q = Some q' -> queue_reach q'
| reach_pop q : queue_reach q -> queue_reach (pop_front q).2
| reach_remove g q : queue_reach q -> queue_reach (remove_group g q).2.

Lemma pop_front_ok q : queue_ok q -> queue_ok (pop_front q).2.
Proof.
  intros [H1 H2]. unfold pop_front. destruct (items q) as [|item rest] eqn:E; cbn.
  - split; [done|by rewrite E].
  - apply Forall_cons in H2 as [_ H2]. by split.
Qed.

Lemma remove_group_ok g q : queue_ok q -> queue_ok (remove_group g q).2.
Proof.
  intros [H1 H2]. split; cbn; [done|]. apply Forall_forall. intros x [_ Hx]%list_elem_of_filter.
  by apply (proj1 (Forall_forall _ _) H2).
Qed.

Lemma reach_queue_ok q : queue_reach q -> queue_ok q.
Proof.
  induction 1 as [|cs q q' _ IH Hroom E|cs q q' _ IH Hroom E|q _ IH|g q _ IH].
  - split; cbn; [lia|constructor].
  - destruct (append_parsed_ok cs q IH Hroom) as (? & E' & ? & _). by simplify_eq.
  - destruct (insert_after_current_ok cs q IH Hroom) as (? & E' & ? & _). by simplify_eq.
  - by apply pop_front_ok.
  - by apply remove_group_ok.
Qed.

(** ** Adjacent commands *)

Definition same_group (g : CommandGrouping) (a b : ParsedCommand) : bool :=
  match g with OneGroup => true | ByLine => (line a =? line b)%nat end.

Lemma group_numbers_head g last cs n : group_numbers g None last cs !! 0%nat = Some n -> n = last + 1.
Proof. destruct cs; cbn; [done|]. by destruct g; intros [=]. Qed.

Lemma group_numbers_adjacent g previous last cs i a b m n :
  cs !! i = Some a -> cs !! S i = Some b ->
  group_numbers g previous last cs !! i = Some m -> group_numbers g previous last cs !! S i = Some n ->
  n = if same_group g a b then m else m + 1.
Proof.
  revert previous last i. induction cs as [|c cs IH]; intros previous last i; [done|].
  cbn [group_numbers]. destruct i as [|i]; cbn [lookup list_lookup].
  - intros [=<-] Hb [=<-]. destruct cs as [|c' cs]; [done|]. injection Hb as <-. cbn. intros [=<-].
    unfold same_group. destruct g; [|done]. cbn. by destruct (line c =? line c')%nat.
  - intros Ha Hb Hm Hn. by eapply IH.
Qed.

(** ** Properties *)

(** Queueing a parsed list ([append_parsed], [insert_after_current]) never
    reaches the panic of [assign_groups]; it keeps the commands and their order,
    at the back or right in front of what was queued; the first command gets a
    group no queued command has; and of two adjacent commands the second is in
    the group of the first when the list is one group or they are on the same
    line, and in the next new group otherwise. *)
Theorem queue_groups_by_line (q : CommandQueue) (cs : ParsedCommands) :
  queue_reach q -> has_room cs q ->
  exists assigned q1 q2,
    append_parsed cs q = Some q1 /\ items q1 = items q ++ assigned /\
    insert_after_current cs q = Some q2 /\ items q2 = assigned ++ items q /\
    map command assigned = into_commands cs /\
    (forall a, assigned !! 0%nat = Some a -> Forall (fun item => group item < group a) (items q)) /\
    (forall i a b, assigned !! i = Some a -> assigned !! S i = Some b ->
       group b = if same_group (grouping cs) (command a) (command b) then group a else group a + 1).
Proof.
  intros Hq Hroom. pose proof (reach_queue_ok q Hq) as Hok. pose proof Hok as [H1 H2].
  destruct (append_parsed_ok cs q Hok Hroom) as (q1 & E1 & _ & I1 & _).
  destruct (insert_after_current_ok cs q Hok Hroom) as (q2 & E2 & _ & I2 & _).
  destruct (assign_groups_total cs q H1 Hroom) as (next & _ & _ & _ & Hcmd).
  exists (assigned_items cs q), q1, q2. split_and!; try done.
  - intros a Ha. unfold assigned_items in Ha. apply lookup_zip_with_Some in Ha as (c & n & -> & _ & Hn).
    apply group_numbers_head in Hn as ->. eapply Forall_impl; [exact H2|]. cbn. lia.
  - intros i a b Ha Hb. unfold assigned_items in Ha, Hb.
    apply lookup_zip_with_Some in Ha as (ca & m & -> & Hca & Hm).
    apply lookup_zip_with_Some in Hb as (cb & n & -> & Hcb & Hn). cbn. by eapply group_numbers_adjacent.
Qed.

Definition demo_command (name : string) (l : nat) : ParsedCommand := mkCommand name [] l l.
Definition demo_commands : ParsedCommands :=
  mkCommands [demo_command "a" 1; demo_command "b" 1; demo_command "c" 2] [] ByLine.

Lemma queue_groups_by_line_witness :
  exists q1, append_parsed demo_commands queue_new = Some q1 /\ map command (items q1) = into_commands demo_commands.
Proof.
  destruct (queue_groups_by_line queue_new demo_commands) as (assigned & q1 & q2 & E1 & I1 & _ & _ & Hc & _).
  - constructor.
  - vm_compute. intros ?. discriminate.
  - exists q1. split; [exact E1|]. rewrite I1. exact Hc.
Defined.

(** C35. When a command fires, queues a list after itself and then fails, the
    abort of its group removes exactly the commands of its group that were
    already queued: the commands it inserted stay, in front and in order, and
    so do all commands of other groups; the count returned is the number
    removed. *)
Theorem abort_spares_inserted (q q1 q2 : CommandQueue) (item : QueuedCommand) (cs : ParsedCommands) :
  queue_reach q -> pop_front q = (Some item, q1) -> has_room cs q1 -> insert_after_current cs q1 = Some q2 ->
  exists assigned,
    map command assigned = into_commands cs /\
    items (remove_group (group item) q2).2 = assigned ++ filter (fun i => group i <> group item) (items q1) /\
    (remove_group (group item) q2).1 = length (filter (fun i => group i = group item) (items q1)).
Proof.
  intros Hq Hpop Hroom Hins. pose proof (reach_queue_ok q Hq) as Hok.
  assert (queue_ok q1) as Hok1 by (pose proof (pop_front_ok q Hok) as H; by rewrite Hpop in H).
  assert (group item < next_group_id q1) as Hlt.
  { unfold pop_front in Hpop. destruct Hok as [_ Hg]. destruct (items q) as [|x rest]; simplify_eq.
    apply Forall_cons in Hg as [? _]. cbn. lia. }
  destruct (insert_after_current_ok cs q1 Hok1 Hroom) as (? & E & _ & I & Hf). simplify_eq.
  destruct (assign_groups_total cs q1 (queue_next _ Hok1) Hroom) as (_ & _ & _ & _ & Hcmd).
  exists (assigned_items cs q1). unfold remove_group. cbn. rewrite I, filter_app, filter_fresh.
  2:{ eapply Forall_impl; [exact Hf|]. cbn. lia. }
  split_and!; [done|done|]. rewrite !length_app.
  assert (forall l : list QueuedCommand, (length (filter (fun i => group i = group item) l) +
    length (filter (fun i => group i <> group item) l))%nat = length l) as Hsplit.
  { induction l as [|x l IH]; [done|]. rewrite !filter_cons. destruct (decide (group x = group item)).
    - rewrite decide_False by auto. cbn [length]. lia.
    - rewrite decide_True by done. cbn [length]. lia. }
  specialize (Hsplit (items q1)). lia.
Qed.

(** The name of a command. *)
Definition cmd_name (c : ParsedCommand) : string := match c with mkCommand name _ _ _ => name end.

(** The first command of the list fires, queues the list [x; y] and fails. *)
Definition demo_queue : CommandQueue := default queue_new (append_parsed demo_commands queue_new).
Definition demo_inserted : ParsedCommands := mkCommands [demo_command "x" 1; demo_command "y" 1] [] ByLine.

Lemma abort_spares_inserted_witness :
  exists item q1 q2,
    pop_front demo_queue = (Some item, q1) /\ cmd_name (command item) = "a"%string /\
    insert_after_current demo_inserted q1 = Some q2 /\
    map (fun i => cmd_name (command i)) (items q2) = ["x"; "y"; "b"; "c"]%string /\
    map (fun i => cmd_name (command i)) (items (remove_group (group item) q2).2) = ["x"; "y"; "c"]%string /\
    (remove_group (group item) q2).1 = 1%nat.
Proof.
  assert (queue_reach demo_queue) as Hq.
  { apply (reach_append demo_commands queue_new); [constructor|vm_compute; intros ?; discriminate|vm_compute; reflexivity]. }
  destruct (pop_front demo_queue) as [[item|] q1] eqn:Hp; [|exfalso; vm_compute in Hp; discriminate].
  destruct (insert_after_current demo_inserted q1) as [q2|] eqn:Hi.
  2:{ exfalso. vm_compute in Hp. injection Hp as _ <-. vm_compute in Hi. discriminate. }
  destruct (abort_spares_inserted demo_queue q1 q2 item demo_inserted Hq Hp) as (assigned & H1 & H2 & H3); [|exact Hi|].
  { vm_compute in Hp. injection Hp as _ <-. vm_compute. intros ?. discriminate. }
  exists item, q1, q2. split; [reflexivity|]. vm_compute in Hp. injection Hp as <- <-. split; [reflexivity|]. split; [exact Hi|].
  split; [vm_compute in Hi; injection Hi as <-; reflexivity|]. split; [|rewrite H3; vm_compute; reflexivity].
  rewrite H2, map_app, <- (map_map command cmd_name), H1. vm_compute. reflexivity.
Defined.
