(* ===== verification/Buffers.v ===== *)
(** * Paste buffers

    [BufferStore] of [crates/rmux-core/src/buffers.rs].  The [BTreeMap] of
    buffers is a finite map; no two buffers have the same order
    ([store_orders]), so no result depends on the order the code visits names
    in.  The wall-clock time of [set] is an argument. *)

From stdpp Require Import sorting.
From Stdlib Require String.
From S2P Require Import Prelude Text Errors.

#[local] Open Scope Z_scope.

(** ** Data *)

Record BufferEntry := mkEntry {
  content : list Z;
  order : Z;
  created : Z;
  unnamed : bool;
}.

Record BufferStore := mkStore {
  buffers : gmap string BufferEntry;
  next_unnamed_id : Z;
  next_order : Z;
}.

Record SetBufferOutcome := mkSetOutcome {
  buffer_name : option string;
  evicted : list string;
}.

Record RenameBufferOutcome := mkRenameOutcome {
  old_name : string;
  new_name : string;
  replaced : bool;
  changed : bool;
}.

Definition store_new : BufferStore := mkStore ∅ 0 0.

(** ** Queries *)

(** [max_by_key(order)]: the last of the largest. *)
Definition max_by_order (l : list (string * BufferEntry)) : option (string * BufferEntry) :=
  fold_left
    (fun best x =>
       match best with
       | None => Some x
       | Some b => if order b.2 <=? order x.2 then Some x else Some b
       end) l None.


Definition unnamed_list (m : gmap string BufferEntry) : list (string * BufferEntry) :=
  filter (fun p => unnamed p.2 = true) (map_to_list m).

Definition top_unnamed (s : BufferStore) : option string := fst <$> max_by_order (unnamed_list (buffers s)).

Definition get (name : string) (s : BufferStore) : option (list Z) := content <$> buffers s !! name.

Definition no_buffer (name : string) : RmuxError := Server (String.append "no buffer " name).

(** [show_with_order]; its [expect] is never reached: the name was found. *)
Definition show_with_order (name : option string) (s : BufferStore)
  : result (string * list Z * Z) RmuxError :=
  let? resolved :=
    match name with
    | Some name => if decide (is_Some (buffers s !! name)) then Ok name else Err (no_buffer name)
    | None => match top_unnamed s with Some name => Ok name | None => Err (Server "no buffers") end
    end in
  match buffers s !! resolved with
  | Some e => Ok (resolved, content e, order e)
  | None => Err (no_buffer resolved)
  end.

(** ** Updates *)

Definition validate_buffer_name (name : string) : result unit RmuxError :=
  if decide (name = ""%string) then Err (Server "buffer name must not be empty") else Ok tt.

Definition auto_name (id : Z) : string := String.append "buffer" (string_of (dec id)).

(** The loop of [allocate_unnamed_name]: the name and the counter after it, or
    the counter and the exhaustion error.  [alloc_fuel] iterations always
    suffice: a name is taken at most once per buffer. *)
Fixpoint allocate_loop (fuel : nat) (m : gmap string BufferEntry) (next : Z) : result string RmuxError * Z :=
  match fuel with
  | O => (Err (Server "out of fuel"), next)
  | S fuel =>
      let id := next in
      if u32_max <? next + 1 then (Err (Server "unnamed buffer sequence exhausted"), next)
      else
        let name := auto_name id in
        if decide (is_Some (m !! name)) then allocate_loop fuel m (next + 1) else (Ok name, next + 1)
  end.

Definition alloc_fuel (m : gmap string BufferEntry) : nat := S (size m).

Definition allocate_unnamed_name (s : BufferStore) : result string RmuxError * BufferStore :=
  let '(res, next) := allocate_loop (alloc_fuel (buffers s)) (buffers s) (next_unnamed_id s) in
  (res, mkStore (buffers s) next (next_order s)).

Definition insert_entry (name : string) (e : BufferEntry) (s : BufferStore) : BufferStore :=
  mkStore (<[name := e]> (buffers s)) (next_unnamed_id s) (next_order s).

(** [unnamed_by_order.sort_by_key(order)] and its first [to_evict] names. *)
Definition older : relation (string * BufferEntry) := fun x y => order x.2 <= order y.2.
#[global] Instance older_dec : RelDecision older := fun x y => Z_le_dec (order x.2) (order y.2).

Definition evict_names (limit : nat) (m : gmap string BufferEntry) : list string :=
  let count := length (unnamed_list m) in
  if (limit <? count)%nat then map fst (take (count - limit) (merge_sort older (unnamed_list m))) else [].

(** The eviction of [set] after a new unnamed buffer. *)
Definition evict (limit : nat) (s : BufferStore) : list string * BufferStore :=
  if (0 <? limit)%nat then
    let names := evict_names limit (buffers s) in
    (names, mkStore (foldr delete (buffers s) (reverse names)) (next_unnamed_id s) (next_order s))
  else ([], s).

Definition set (name : option string) (bytes : list Z) (buffer_limit : nat) (now : Z) (s : BufferStore)
  : result SetBufferOutcome RmuxError * BufferStore :=
  match (match name with Some name => validate_buffer_name name | None => Ok tt end) with
  | Err e => (Err e, s)
  | Ok _ =>
      match bytes with
      | [] => (Ok (mkSetOutcome None []), s)
      | _ =>
          let o := next_order s in
          let s := mkStore (buffers s) (next_unnamed_id s) (wrap_u64 (o + 1)) in
          match name with
          | Some name =>
              (Ok (mkSetOutcome (Some name) []), insert_entry name (mkEntry bytes o now false) s)
          | None =>
              let '(res, s) := allocate_unnamed_name s in
              match res with
              | Err e => (Err e, s)
              | Ok name =>
                  let '(names, s) := evict buffer_limit (insert_entry name (mkEntry bytes o now true) s) in
                  (Ok (mkSetOutcome (Some name) names), s)
              end
          end
      end
  end.

Definition set_named (e : BufferEntry) : BufferEntry := mkEntry (content e) (order e) (created e) false.

(** [rename]; its [expect] is the last [None] and is never reached: the source
    name was found and is not the destination. *)
Definition rename (old : option string) (new : string) (s : BufferStore)
  : option (result RenameBufferOutcome RmuxError * BufferStore) :=
  match validate_buffer_name new with
  | Err e => Some (Err e, s)
  | Ok _ =>
      match
        (match old with
         | Some name => if decide (is_Some (buffers s !! name)) then Ok name else Err (no_buffer name)
         | None => match top_unnamed s with Some name => Ok name | None => Err (Server "no buffer") end
         end)
      with
      | Err e => Some (Err e, s)
      | Ok old =>
          if decide (old = new) then Some (Ok (mkRenameOutcome old new false false), s)
          else
            let was := bool_decide (is_Some (buffers s !! new)) in
            let m := delete new (buffers s) in
            match m !! old with
            | None => None
            | Some e =>
                Some (Ok (mkRenameOutcome old new was true),
                      mkStore (<[new := set_named e]> (delete old m)) (next_unnamed_id s) (next_order s))
            end
      end
  end.

Definition delete_buffer (name : option string) (s : BufferStore) : result string RmuxError * BufferStore :=
  match
    (match name with
     | Some name => Ok name
     | None => match top_unnamed s with Some name => Ok name | None => Err (Server "no buffer") end
     end)
  with
  | Err e => (Err e, s)
  | Ok target =>
      match buffers s !! target with
      | None => (Err (no_buffer target), s)
      | Some _ => (Ok target, mkStore (delete target (buffers s)) (next_unnamed_id s) (next_order s))
      end
  end.

Definition delete_if_order_matches (name : string) (o : Z) (s : BufferStore) : bool * BufferStore :=
  match buffers s !! name with
  | Some e =>
      if order e =? o then (true, mkStore (delete name (buffers s)) (next_unnamed_id s) (next_order s))
      else (false, s)
  | None => (false, s)
  end.

(** ** Automatic names *)

Lemma string_of_inj a b : string_of a = string_of b -> a = b.
Proof.
  intros H. apply (f_equal String.list_ascii_of_string) in H. unfold string_of in H.
  by rewrite !String.list_ascii_of_string_of_list_ascii in H.
Qed.

Lemma auto_name_inj i j : in_u32 i -> in_u32 j -> auto_name i = auto_name j -> i = j.
Proof.
  intros Hi Hj H. unfold auto_name in H. cbn [String.append] in H. injection H as H. apply string_of_inj in H.
  destruct (dec_spec i) as (_ & _ & <-); [machine|]. destruct (dec_spec j) as (_ & _ & <-); [machine|]. by rewrite H.
Qed.

Definition taken (m : gmap string BufferEntry) (id : Z) : Prop := is_Some (m !! auto_name id).

(** Every id looked at before the answer was taken. *)
Lemma allocate_loop_spec fuel m next :
  0 <= next <= u32_max ->
  let '(res, next') := allocate_loop fuel m next in
  (forall j, next <= j < (match res with Ok _ => next' - 1 | Err _ => next' end) -> taken m j) /\
  next <= next' <= u32_max /\
  match res with
  | Ok name => next < next' /\ name = auto_name (next' - 1) /\ m !! name = None
  | Err _ => next' = u32_max \/ next' = next + Z.of_nat fuel
  end.
Proof.
  revert next. induction fuel as [|fuel IH]; intros next Hn; cbn [allocate_loop].
  { split_and!; [lia|lia|lia|]. right. lia. }
  destruct (Z.ltb_spec u32_max (next + 1)) as [|Hlt]; [split_and!; [lia|lia|lia|]; left; lia|].
  destruct (decide (is_Some (m !! auto_name next))) as [Ht|Ht].
  - specialize (IH (next + 1) ltac:(lia)). destruct (allocate_loop fuel m (next + 1)) as [res next'].
    destruct IH as (I1 & I2 & I3). split_and!.
    + intros j Hj. destruct (decide (j = next)) as [->|]; [done|]. apply I1. lia.
    + lia.
    + lia.
    + destruct res; [destruct I3 as (? & ? & ?); split_and!; [lia|done|done]|]. destruct I3; [by left|right; lia].
  - cbn. split_and!; [lia|lia|lia|lia| |].
    + f_equal. lia.
    + by apply eq_None_not_Some.
Qed.

(** More ids than buffers cannot all be taken. *)
Lemma taken_bound (m : gmap string BufferEntry) next (n : nat) :
  0 <= next -> next + Z.of_nat n <= u32_max ->
  (forall j, next <= j < next + Z.of_nat n -> taken m j) -> (n <= size m)%nat.
Proof.
  intros Hn Hmax Ht. set (names := map (fun i => auto_name (next + Z.of_nat i)) (seq 0 n)).
  assert (NoDup names) as Hnd.
  { apply NoDup_ListNoDup. apply List.NoDup_map_NoDup_ForallPairs; [|apply List.seq_NoDup].
    intros i j Hi Hj E. apply List.in_seq in Hi, Hj. apply auto_name_inj in E; [|machine..]. lia. }
  assert (list_to_set names ⊆ (dom m : gset string)) as Hsub.
  { intros x Hx. apply elem_of_list_to_set, list_elem_of_In, List.in_map_iff in Hx as (i & <- & Hi).
    apply List.in_seq in Hi. apply elem_of_dom. apply Ht. lia. }
  apply subseteq_size in Hsub. rewrite size_dom, size_list_to_set in Hsub by done.
  unfold names in Hsub. by rewrite length_map, length_seq in Hsub.
Qed.

(** The loop ends within [alloc_fuel]: it finds the first free automatic name,
    or every automatic name from the counter on is taken. *)
Lemma allocate_total m next :
  0 <= next <= u32_max ->
  match allocate_loop (alloc_fuel m) m next with
  | (Ok name, next') =>
      exists id, name = auto_name id /\ next <= id /\ next' = id + 1 /\ next' <= u32_max /\ m !! name = None /\
        forall j, next <= j < id -> taken m j
  | (Err _, next') => next' = u32_max /\ forall j, next <= j < u32_max -> taken m j
  end.
Proof.
  intros Hn. pose proof (allocate_loop_spec (alloc_fuel m) m next Hn) as H.
  destruct (allocate_loop (alloc_fuel m) m next) as [[name|e] next']; destruct H as (H1 & H2 & H3).
  - destruct H3 as (? & -> & ?). exists (next' - 1). split_and!; try done; lia.
  - destruct H3 as [->| ->]; [done|]. exfalso. unfold alloc_fuel in *.
    apply taken_bound in H1; lia.
Qed.

(** ** Orders *)

Lemma max_by_order_spec l :
  match max_by_order l with
  | None => l = []
  | Some x => x ∈ l /\ forall y, y ∈ l -> order y.2 <= order x.2
  end.
Proof.
  unfold max_by_order. set (f := fun best x => _).
  assert (forall l best,
    match fold_left f l (Some best) with
    | None => False
    | Some x => (x = best \/ x ∈ l) /\ order best.2 <= order x.2 /\ forall y, y ∈ l -> order y.2 <= order x.2
    end) as H.
  { clear l. induction l as [|a l IH]; intros best; cbn [fold_left].
    - split_and!; [by left|lia|]. intros y Hy. by apply elem_of_nil in Hy.
    - unfold f at 2. destruct (Z.leb_spec (order best.2) (order a.2)) as [Hle|Hlt].
      + specialize (IH a). destruct (fold_left f l (Some a)) as [x|]; [|done]. destruct IH as (I1 & I2 & I3).
        split_and!; [right; set_solver|lia|]. intros y [->|Hy]%elem_of_cons; [lia|by apply I3].
      + specialize (IH best). destruct (fold_left f l (Some best)) as [x|]; [|done]. destruct IH as (I1 & I2 & I3).
        split_and!; [set_solver|lia|]. intros y [->|Hy]%elem_of_cons; [lia|by apply I3]. }
  destruct l as [|a l]; [done|]. cbn [fold_left]. change (f None a) with (Some a). specialize (H l a).
  destruct (fold_left f l (Some a)) as [x|]; [|done]. destruct H as (H1 & H2 & H3). split; [set_solver|].
  intros y [->|Hy]%elem_of_cons; [lia|by apply H3].
Qed.

Definition unique_orders (m : gmap string BufferEntry) : Prop :=
  forall n1 n2 e1 e2, m !! n1 = Some e1 -> m !! n2 = Some e2 -> order e1 = order e2 -> n1 = n2.

(** The newest entry among those that satisfy [P]. *)
Definition newest (P : BufferEntry -> bool) (m : gmap string BufferEntry) (name : string) : Prop :=
  exists e, m !! name = Some e /\ P e = true /\
    forall n' e', m !! n' = Some e' -> P e' = true -> order e' <= order e.


Lemma elem_of_unnamed_list m name e :
  (name, e) ∈ unnamed_list m <-> m !! name = Some e /\ unnamed e = true.
Proof. unfold unnamed_list. rewrite list_elem_of_filter, elem_of_map_to_list. cbn. tauto. Qed.

Lemma top_unnamed_newest s name : top_unnamed s = Some name -> newest unnamed (buffers s) name.
Proof.
  unfold top_unnamed. pose proof (max_by_order_spec (unnamed_list (buffers s))) as H.
  destruct (max_by_order _) as [[n e]|]; cbn; [|done]. intros [=<-]. destruct H as [Hin Hmax].
  apply elem_of_unnamed_list in Hin as [Hn Hu]. exists e. split_and!; [done|done|]. intros n' e' Hn' Hu'.
  by apply (Hmax (n', e')), elem_of_unnamed_list.
Qed.

Lemma top_unnamed_None s : top_unnamed s = None -> forall n e, buffers s !! n = Some e -> unnamed e = false.
Proof.
  unfold top_unnamed. pose proof (max_by_order_spec (unnamed_list (buffers s))) as H.
  destruct (max_by_order _) as [[n e]|]; cbn; [done|]. intros _ n e Hn. apply not_true_iff_false. intros Hu.
  assert ((n, e) ∈ unnamed_list (buffers s)) as Hin by (by apply elem_of_unnamed_list).
  rewrite H in Hin. by apply elem_of_nil in Hin.
Qed.



(** ** Eviction *)

#[global] Instance older_total : Total older.
Proof. intros x y. unfold older. lia. Qed.
#[global] Instance older_trans : Transitive older.
Proof. intros x y z. unfold older. lia. Qed.





(** ** Invariant *)

Record store_ok (s : BufferStore) : Prop := {
  store_orders : unique_orders (buffers s);
  store_below : forall n e, buffers s !! n = Some e -> 0 <= order e < next_order s;
  store_next : 0 <= next_order s;
  store_ids : 0 <= next_unnamed_id s <= u32_max;
}.

Lemma store_new_ok : store_ok store_new.
Proof. split; cbn; [by intros ???? E|by intros ?? E|lia|machine]. Qed.

(** A new entry at the next order. *)
Lemma insert_newest_ok name bytes now un m next id :
  unique_orders m -> (forall n e, m !! n = Some e -> 0 <= order e < next) -> 0 <= next ->
  0 <= id <= u32_max ->
  store_ok (mkStore (<[name := mkEntry bytes next now un]> m) id (next + 1)).
Proof.
  intros Hu Hb Hn Hid. split; cbn; [|intros n e; rewrite lookup_insert_Some; intros [[<- <-]|[_ He]]; cbn; [lia|]|lia|lia].
  - intros n1 n2 e1 e2. rewrite !lookup_insert_Some. intros [[<- <-]|[H1 E1]] [[<- <-]|[H2 E2]] E; cbn in *; try done.
    + specialize (Hb _ _ E2). lia.
    + specialize (Hb _ _ E1). lia.
    + by apply (Hu n1 n2 e1 e2).
  - specialize (Hb _ _ He). lia.
Qed.

(** A sub-map of a good store is good. *)
Lemma store_ok_sub m s :
  store_ok s -> m ⊆ buffers s -> store_ok (mkStore m (next_unnamed_id s) (next_order s)).
Proof.
  intros [H1 H2 H3 H4] Hsub. split; cbn; [|by intros n e E; apply (H2 n); eapply lookup_weaken|done|done].
  intros n1 n2 e1 e2 E1 E2. apply H1; by eapply lookup_weaken.
Qed.

Lemma evict_store_ok limit s : store_ok s -> store_ok (evict limit s).2.
Proof.
  intros Hok. unfold evict. destruct (0 <? limit)%nat; [|done]. cbn. apply store_ok_sub; [done|].
  apply map_subseteq_spec. intros n e. rewrite lookup_reverse_delete. by destruct (decide _).
Qed.


Lemma set_store_ok name bytes limit now s :
  store_ok s -> next_order s < u64_max -> store_ok (set name bytes limit now s).2.
Proof.
  intros Hok Hn. pose proof Hok as [H1 H2 H3 H4].
  assert (wrap_u64 (next_order s + 1) = next_order s + 1) as Hw by (apply Z.mod_small; machine).
  unfold set. destruct (match name with Some name => validate_buffer_name name | None => Ok tt end); [|done].
  destruct bytes as [|b bytes]; [done|]. rewrite Hw. destruct name as [name|].
  { cbn. unfold insert_entry. cbn. by apply insert_newest_ok. }
  pose proof (allocate_total (buffers s) (next_unnamed_id s) H4) as Ha. unfold allocate_unnamed_name.
  cbn [buffers next_unnamed_id next_order].
  destruct (allocate_loop _ _ _) as [[name|e] next'] eqn:E.
  - destruct Ha as (id & -> & Hid & -> & Hmax & _). unfold insert_entry. cbn [buffers next_unnamed_id next_order].
    set (s1 := mkStore _ _ _). pose proof (evict_store_ok limit s1) as He.
    destruct (evict limit s1) as [names s']. apply He. unfold s1. apply insert_newest_ok; try done. lia.
  - destruct Ha as [-> _]. cbn. split; cbn; [done|intros n e' Hne; specialize (H2 _ _ Hne); lia|lia|machine].
Qed.

(** Looking a name up, or the newest unnamed one. *)
Lemma rename_store_ok old new s :
  store_ok s ->
  exists res s', rename old new s = Some (res, s') /\ store_ok s' /\
    match res with
    | Ok out =>
        (exists e, buffers s !! old_name out = Some e /\ new_name out = new /\ new <> ""%string /\
         (old = Some (old_name out) \/ old = None /\ newest unnamed (buffers s) (old_name out)) /\
         if changed out then
           old_name out <> new /\ replaced out = bool_decide (is_Some (buffers s !! new)) /\
           buffers s' = <[new := set_named e]> (delete (old_name out) (buffers s))
         else old_name out = new /\ s' = s)
    | Err _ => s' = s
    end.
Proof.
  intros Hok. unfold rename. unfold validate_buffer_name. destruct (decide (new = ""%string)) as [|Hnew].
  { eexists _, s. by split_and!. }
  set (resolved := match old with Some name => _ | None => _ end).
  assert (match resolved with
          | Ok n => is_Some (buffers s !! n) /\ (old = Some n \/ old = None /\ newest unnamed (buffers s) n)
          | Err _ => True end) as Hres.
  { unfold resolved. destruct old as [name|].
    - destruct (decide (is_Some (buffers s !! name))); [|done]. auto.
    - destruct (top_unnamed s) as [n|] eqn:Et; [|done]. apply top_unnamed_newest in Et.
      split; [|by right]. destruct Et as (e & He & _). by exists e. }
  destruct resolved as [n|e]; [|by eexists _, s]. destruct Hres as [[e He] Hold].
  destruct (decide (n = new)) as [->|Hne].
  { eexists _, s. split_and!; [done|done|]. exists e. by split_and!. }
  rewrite lookup_delete_ne, He by done. eexists _, _. split_and!; [done| |].
  - cbn. destruct Hok as [H1 H2 H3 H4]. split; cbn; [| |done|done].
    + assert (forall m e', <[new := set_named e]> (delete n (delete new (buffers s))) !! m = Some e' ->
        exists m' e'', buffers s !! m' = Some e'' /\ order e'' = order e' /\ (m = new /\ m' = n \/ m <> new /\ m' = m /\ m <> n)) as Hback.
      { intros m e'. rewrite lookup_insert_Some, !lookup_delete_Some. intros [[<- <-]|(? & ? & ? & ?)].
        - exists n, e. auto.
        - exists m, e'. split_and!; try done. right. auto. }
      intros n1 n2 e1 e2 E1 E2 E. apply Hback in E1 as (m1 & f1 & F1 & O1 & C1). apply Hback in E2 as (m2 & f2 & F2 & O2 & C2).
      assert (m1 = m2) by (apply (H1 _ _ f1 f2); [done|done|congruence]).
      destruct C1 as [[-> ->]|(? & -> & ?)], C2 as [[-> ->]|(? & -> & ?)]; congruence.
    + intros m e'. rewrite lookup_insert_Some, !lookup_delete_Some. intros [[<- <-]|(? & ? & ? & ?)]; [exact (H2 n e He)|by apply (H2 m)].
  - exists e. split_and!; try done. cbn. split_and!; try done. apply map_eq. intros m.
    destruct (decide (m = new)) as [->|]; [by rewrite !lookup_insert_eq|]. rewrite !lookup_insert_ne by done.
    destruct (decide (m = n)) as [->|]; [by rewrite !lookup_delete_eq|]. by rewrite !lookup_delete_ne by done.
Qed.

Lemma delete_store_ok name s : store_ok s -> store_ok (delete_buffer name s).2.
Proof.
  intros Hok. unfold delete_buffer. destruct (match name with Some n => _ | None => _ end) as [t|]; [|done].
  destruct (buffers s !! t); [|done]. cbn. apply store_ok_sub; [done|]. apply delete_subseteq.
Qed.

Lemma delete_if_order_ok name o s : store_ok s -> store_ok (delete_if_order_matches name o s).2.
Proof.
  intros Hok. unfold delete_if_order_matches. destruct (buffers s !! name) as [e|]; [|done].
  destruct (order e =? o); [|done]. cbn. apply store_ok_sub; [done|]. apply delete_subseteq.
Qed.

(** ** Reachable stores *)

Inductive store_reach : BufferStore -> Prop :=
| reach_store_new : store_reach store_new
| reach_set name bytes limit now s :
    store_reach s -> next_order s < u64_max -> store_reach (set name bytes limit now s).2
| reach_rename old new s res s' : store_reach s -> rename old new s = Some (res, s') -> store_reach s'
| reach_delete name s : store_reach s -> store_reach (delete_buffer name s).2
| reach_delete_order name o s : store_reach s -> store_reach (delete_if_order_matches name o s).2.

Lemma reach_store_ok s : store_reach s -> store_ok s.
Proof.
  induction 1 as [|name bytes limit now s _ IH Hn|old new s res s' _ IH E|name s _ IH|name o s _ IH].
  - apply store_new_ok.
  - by apply set_store_ok.
  - destruct (rename_store_ok old new s IH) as (res' & s1 & E' & ? & _). by simplify_eq.
  - by apply delete_store_ok.
  - by apply delete_if_order_ok.
Qed.

(** ** A new unnamed buffer *)




(** ** Properties *)



(** In a reachable store no two buffers have the same order; asking without
    a name ([show_with_order], [delete], [rename]) means the newest unnamed
    buffer and is an error exactly when there is none; renaming never reaches
    its panic, moves exactly the chosen entry, marks it named so that it is
    never evicted, and replaces what was under the new name; and a deletion
    conditional on an order removes exactly the entry that has it. *)
Theorem store_operations_correct (s : BufferStore) (old : option string) (new name : string) (o : Z) :
  store_reach s ->
  unique_orders (buffers s) /\
  (match show_with_order None s with
   | Ok (n, bytes, _) => newest unnamed (buffers s) n /\ get n s = Some bytes
   | Err _ => forall n e, buffers s !! n = Some e -> unnamed e = false
   end) /\
  (match delete_buffer None s with
   | (Ok n, s') => newest unnamed (buffers s) n /\ buffers s' = delete n (buffers s)
   | (Err _, s') => s' = s /\ forall n e, buffers s !! n = Some e -> unnamed e = false
   end) /\
  (exists res s', rename old new s = Some (res, s') /\
    match res with
    | Ok out =>
        (exists e, buffers s !! old_name out = Some e /\ new_name out = new /\ new <> ""%string /\
         (old = Some (old_name out) \/ old = None /\ newest unnamed (buffers s) (old_name out)) /\
         if changed out then
           old_name out <> new /\ replaced out = bool_decide (is_Some (buffers s !! new)) /\
           buffers s' = <[new := set_named e]> (delete (old_name out) (buffers s))
         else old_name out = new /\ s' = s)
    | Err _ => s' = s
    end) /\
  (forall n, buffers (delete_if_order_matches name o s).2 !! n =
     match buffers s !! n with
     | Some e => if bool_decide (n = name) && (order e =? o) then None else Some e
     | None => None
     end).
Proof.
  intros Hr. pose proof (reach_store_ok s Hr) as Hok. split_and!.
  - apply Hok.
  - unfold show_with_order. destruct (top_unnamed s) as [n|] eqn:E; [|by apply top_unnamed_None].
    apply top_unnamed_newest in E. pose proof E as (e & He & _). rewrite He. split; [done|]. unfold get. by rewrite He.
  - unfold delete_buffer. destruct (top_unnamed s) as [n|] eqn:E; [|split; [done|by apply top_unnamed_None]].
    apply top_unnamed_newest in E. pose proof E as (e & He & _). by rewrite He.
  - destruct (rename_store_ok old new s Hok) as (res & s' & E & _ & H). eauto.
  - intros n. unfold delete_if_order_matches. destruct (buffers s !! name) as [e|] eqn:E.
    + destruct (Z.eqb_spec (order e) o) as [<-|Hne]; cbn.
      * destruct (decide (n = name)) as [->|Hn].
        -- rewrite lookup_delete_eq, E, bool_decide_eq_true_2, Z.eqb_refl by done. done.
        -- rewrite lookup_delete_ne by done. rewrite bool_decide_eq_false_2 by done. by destruct (buffers s !! n).
      * destruct (buffers s !! n) as [e'|] eqn:E'; [|done]. destruct (decide (n = name)) as [->|Hn].
        -- assert (e' = e) as -> by congruence. rewrite (proj2 (Z.eqb_neq _ _) Hne). by rewrite andb_false_r.
        -- by rewrite bool_decide_eq_false_2.
    + cbn. destruct (buffers s !! n) as [e'|] eqn:E'; [|done]. rewrite bool_decide_eq_false_2; [done|].
      intros ->. congruence.
Qed.

Lemma store_operations_correct_witness :
  exists s, store_reach s /\ unique_orders (buffers s) /\ top_unnamed s = Some "buffer0"%string.
Proof.
  set (s := (set None [66] 1 0 store_new).2).
  assert (store_reach s) as Hr by (apply reach_set; [constructor|vm_compute; reflexivity]).
  exists s. split; [exact Hr|]. split; [|vm_compute; reflexivity].
  exact (proj1 (store_operations_correct s None "x" "y" 0 Hr)).
Defined.
