(* ===== verification/InputStates.v ===== *)
(** * The parser's states and transition tables

    [crates/rmux-core/src/input/states.rs]: the seventeen states of the terminal
    parser, a table of byte ranges per state, and the lookup table built from
    them.  The last section shows that the tables leave no byte undefined and
    overlap nowhere, so the lookup table is the tables. *)

From S2P Require Import Prelude.

Inductive InputState : Type :=
| Ground
| EscEnter
| EscIntermediate
| CsiEnter
| CsiParameter
| CsiIntermediate
| CsiIgnore
| DcsEnter
| DcsParameter
| DcsIntermediate
| DcsHandler
| DcsEscape
| DcsIgnore
| OscString
| ApcString
| RenameString
| ConsumeSt.

#[global] Instance InputState_eq_dec : EqDecision InputState.
Proof. solve_decision. Defined.

(** The handler a transition runs. *)
Inductive Handler : Type :=
| HNone
| HPrint
| HC0Dispatch
| HEscDispatch
| HCsiDispatch
| HDcsDispatch
| HIntermediate
| HParameter
| HInput
| HTopBitSet
| HEndBel.

#[global] Instance Handler_eq_dec : EqDecision Handler.
Proof. solve_decision. Defined.

Record TransitionEntry : Type := mkEntry {
  entry_first : Z;
  entry_last : Z;
  entry_handler : Handler;
  entry_next : option InputState
}.

Record Transition : Type := mkTransition {
  transition_handler : Handler;
  next_state : option InputState
}.

#[global] Instance Transition_eq_dec : EqDecision Transition.
Proof. solve_decision. Defined.

Definition ALL : list InputState :=
  [Ground; EscEnter; EscIntermediate; CsiEnter; CsiParameter; CsiIntermediate; CsiIgnore; DcsEnter; DcsParameter; DcsIntermediate; DcsHandler; DcsEscape; DcsIgnore; OscString; ApcString; RenameString; ConsumeSt].

Notation e := mkEntry (only parsing).

Definition GROUND_TABLE : list TransitionEntry :=
  [e 24 24 HC0Dispatch (Some Ground);
   e 26 26 HC0Dispatch (Some Ground);
   e 27 27 HNone (Some EscEnter);
   e 0 23 HC0Dispatch None;
   e 25 25 HC0Dispatch None;
   e 28 31 HC0Dispatch None;
   e 32 126 HPrint None;
   e 127 127 HNone None;
   e 128 255 HTopBitSet None].

Definition ESC_ENTER_TABLE : list TransitionEntry :=
  [e 24 24 HC0Dispatch (Some Ground);
   e 26 26 HC0Dispatch (Some Ground);
   e 27 27 HNone (Some EscEnter);
   e 0 23 HC0Dispatch None;
   e 25 25 HC0Dispatch None;
   e 28 31 HC0Dispatch None;
   e 32 47 HIntermediate (Some EscIntermediate);
   e 48 79 HEscDispatch (Some Ground);
   e 80 80 HNone (Some DcsEnter);
   e 81 87 HEscDispatch (Some Ground);
   e 88 88 HNone (Some ConsumeSt);
   e 89 90 HEscDispatch (Some Ground);
   e 91 91 HNone (Some CsiEnter);
   e 92 92 HEscDispatch (Some Ground);
   e 93 93 HNone (Some OscString);
   e 94 94 HNone (Some ConsumeSt);
   e 95 95 HNone (Some ApcString);
   e 96 106 HEscDispatch (Some Ground);
   e 107 107 HNone (Some RenameString);
   e 108 126 HEscDispatch (Some Ground);
   e 127 255 HNone None].

Definition ESC_INTERMEDIATE_TABLE : list TransitionEntry :=
  [e 24 24 HC0Dispatch (Some Ground);
   e 26 26 HC0Dispatch (Some Ground);
   e 27 27 HNone (Some EscEnter);
   e 0 23 HC0Dispatch None;
   e 25 25 HC0Dispatch None;
   e 28 31 HC0Dispatch None;
   e 32 47 HIntermediate None;
   e 48 126 HEscDispatch (Some Ground);
   e 127 255 HNone None].

Definition CSI_ENTER_TABLE : list TransitionEntry :=
  [e 24 24 HC0Dispatch (Some Ground);
   e 26 26 HC0Dispatch (Some Ground);
   e 27 27 HNone (Some EscEnter);
   e 0 23 HC0Dispatch None;
   e 25 25 HC0Dispatch None;
   e 28 31 HC0Dispatch None;
   e 32 47 HIntermediate (Some CsiIntermediate);
   e 48 57 HParameter (Some CsiParameter);
   e 58 58 HParameter (Some CsiParameter);
   e 59 59 HParameter (Some CsiParameter);
   e 60 63 HIntermediate (Some CsiParameter);
   e 64 126 HCsiDispatch (Some Ground);
   e 127 255 HNone None].

Definition CSI_PARAMETER_TABLE : list TransitionEntry :=
  [e 24 24 HC0Dispatch (Some Ground);
   e 26 26 HC0Dispatch (Some Ground);
   e 27 27 HNone (Some EscEnter);
   e 0 23 HC0Dispatch None;
   e 25 25 HC0Dispatch None;
   e 28 31 HC0Dispatch None;
   e 32 47 HIntermediate (Some CsiIntermediate);
   e 48 57 HParameter None;
   e 58 58 HParameter None;
   e 59 59 HParameter None;
   e 60 63 HNone (Some CsiIgnore);
   e 64 126 HCsiDispatch (Some Ground);
   e 127 255 HNone None].

Definition CSI_INTERMEDIATE_TABLE : list TransitionEntry :=
  [e 24 24 HC0Dispatch (Some Ground);
   e 26 26 HC0Dispatch (Some Ground);
   e 27 27 HNone (Some EscEnter);
   e 0 23 HC0Dispatch None;
   e 25 25 HC0Dispatch None;
   e 28 31 HC0Dispatch None;
   e 32 47 HIntermediate None;
   e 48 63 HNone (Some CsiIgnore);
   e 64 126 HCsiDispatch (Some Ground);
   e 127 255 HNone None].

Definition CSI_IGNORE_TABLE : list TransitionEntry :=
  [e 24 24 HC0Dispatch (Some Ground);
   e 26 26 HC0Dispatch (Some Ground);
   e 27 27 HNone (Some EscEnter);
   e 0 23 HC0Dispatch None;
   e 25 25 HC0Dispatch None;
   e 28 31 HC0Dispatch None;
   e 32 63 HNone None;
   e 64 126 HNone (Some Ground);
   e 127 255 HNone None].

Definition DCS_ENTER_TABLE : list TransitionEntry :=
  [e 24 24 HC0Dispatch (Some Ground);
   e 26 26 HC0Dispatch (Some Ground);
   e 27 27 HNone (Some EscEnter);
   e 0 23 HNone None;
   e 25 25 HNone None;
   e 28 31 HNone None;
   e 32 47 HIntermediate (Some DcsIntermediate);
   e 48 57 HParameter (Some DcsParameter);
   e 58 58 HNone (Some DcsIgnore);
   e 59 59 HParameter (Some DcsParameter);
   e 60 63 HIntermediate (Some DcsParameter);
   e 64 126 HInput (Some DcsHandler);
   e 127 255 HNone None].

Definition DCS_PARAMETER_TABLE : list TransitionEntry :=
  [e 24 24 HC0Dispatch (Some Ground);
   e 26 26 HC0Dispatch (Some Ground);
   e 27 27 HNone (Some EscEnter);
   e 0 23 HNone None;
   e 25 25 HNone None;
   e 28 31 HNone None;
   e 32 47 HIntermediate (Some DcsIntermediate);
   e 48 57 HParameter None;
   e 58 58 HNone (Some DcsIgnore);
   e 59 59 HParameter None;
   e 60 63 HNone (Some DcsIgnore);
   e 64 126 HInput (Some DcsHandler);
   e 127 255 HNone None].

Definition DCS_INTERMEDIATE_TABLE : list TransitionEntry :=
  [e 24 24 HC0Dispatch (Some Ground);
   e 26 26 HC0Dispatch (Some Ground);
   e 27 27 HNone (Some EscEnter);
   e 0 23 HNone None;
   e 25 25 HNone None;
   e 28 31 HNone None;
   e 32 47 HIntermediate None;
   e 48 63 HNone (Some DcsIgnore);
   e 64 126 HInput (Some DcsHandler);
   e 127 255 HNone None].

Definition DCS_HANDLER_TABLE : list TransitionEntry :=
  [e 0 26 HInput None;
   e 27 27 HNone (Some DcsEscape);
   e 28 255 HInput None].

Definition DCS_ESCAPE_TABLE : list TransitionEntry :=
  [e 0 91 HInput (Some DcsHandler);
   e 92 92 HDcsDispatch (Some Ground);
   e 93 255 HInput (Some DcsHandler)].

Definition DCS_IGNORE_TABLE : list TransitionEntry :=
  [e 24 24 HC0Dispatch (Some Ground);
   e 26 26 HC0Dispatch (Some Ground);
   e 27 27 HNone (Some EscEnter);
   e 0 23 HNone None;
   e 25 25 HNone None;
   e 28 31 HNone None;
   e 32 255 HNone None].

Definition OSC_STRING_TABLE : list TransitionEntry :=
  [e 24 24 HC0Dispatch (Some Ground);
   e 26 26 HC0Dispatch (Some Ground);
   e 27 27 HNone (Some EscEnter);
   e 0 6 HNone None;
   e 7 7 HEndBel (Some Ground);
   e 8 23 HNone None;
   e 25 25 HNone None;
   e 28 31 HNone None;
   e 32 255 HInput None].

Definition APC_STRING_TABLE : list TransitionEntry :=
  [e 24 24 HC0Dispatch (Some Ground);
   e 26 26 HC0Dispatch (Some Ground);
   e 27 27 HNone (Some EscEnter);
   e 0 23 HNone None;
   e 25 25 HNone None;
   e 28 31 HNone None;
   e 32 255 HInput None].

Definition RENAME_STRING_TABLE : list TransitionEntry :=
  [e 24 24 HC0Dispatch (Some Ground);
   e 26 26 HC0Dispatch (Some Ground);
   e 27 27 HNone (Some EscEnter);
   e 0 23 HNone None;
   e 25 25 HNone None;
   e 28 31 HNone None;
   e 32 255 HInput None].

Definition CONSUME_ST_TABLE : list TransitionEntry :=
  [e 24 24 HC0Dispatch (Some Ground);
   e 26 26 HC0Dispatch (Some Ground);
   e 27 27 HNone (Some EscEnter);
   e 0 23 HNone None;
   e 25 25 HNone None;
   e 28 31 HNone None;
   e 32 255 HNone None].

Definition transition_table (s : InputState) : list TransitionEntry :=
  match s with
  | Ground => GROUND_TABLE
  | EscEnter => ESC_ENTER_TABLE
  | EscIntermediate => ESC_INTERMEDIATE_TABLE
  | CsiEnter => CSI_ENTER_TABLE
  | CsiParameter => CSI_PARAMETER_TABLE
  | CsiIntermediate => CSI_INTERMEDIATE_TABLE
  | CsiIgnore => CSI_IGNORE_TABLE
  | DcsEnter => DCS_ENTER_TABLE
  | DcsParameter => DCS_PARAMETER_TABLE
  | DcsIntermediate => DCS_INTERMEDIATE_TABLE
  | DcsHandler => DCS_HANDLER_TABLE
  | DcsEscape => DCS_ESCAPE_TABLE
  | DcsIgnore => DCS_IGNORE_TABLE
  | OscString => OSC_STRING_TABLE
  | ApcString => APC_STRING_TABLE
  | RenameString => RENAME_STRING_TABLE
  | ConsumeSt => CONSUME_ST_TABLE
  end.

Definition index (s : InputState) : nat :=
  match s with
  | Ground => 0
  | EscEnter => 1
  | EscIntermediate => 2
  | CsiEnter => 3
  | CsiParameter => 4
  | CsiIntermediate => 5
  | CsiIgnore => 6
  | DcsEnter => 7
  | DcsParameter => 8
  | DcsIntermediate => 9
  | DcsHandler => 10
  | DcsEscape => 11
  | DcsIgnore => 12
  | OscString => 13
  | ApcString => 14
  | RenameString => 15
  | ConsumeSt => 16
  end.

(** ** The lookup table *)

Definition fallback : Transition := mkTransition HNone None.

(** The bytes from [first] to [last]. *)
Definition entry_bytes (x : TransitionEntry) : list nat :=
  seq (Z.to_nat (entry_first x)) (Z.to_nat (entry_last x - entry_first x + 1)).

Definition fill_entry (row : list Transition) (x : TransitionEntry) : list Transition :=
  fold_left (fun row b => <[b := mkTransition (entry_handler x) (entry_next x)]> row) (entry_bytes x) row.

Definition fill_row (row : list Transition) (s : InputState) : list Transition :=
  fold_left fill_entry (transition_table s) row.

Definition build_transition_lut : list (list Transition) :=
  fold_left (fun lut s => alter (fun row => fill_row row s) (index s) lut) ALL
    (replicate 17 (replicate 256 fallback)).

Definition TRANSITION_LUT : list (list Transition) := Eval vm_compute in build_transition_lut.

(** An index outside the table would be a panic. *)
Definition transition_for_byte (s : InputState) (byte : Z) : option Transition :=
  row ← TRANSITION_LUT !! index s; row !! Z.to_nat byte.

(** ** What the table holds *)

Definition covers (byte : Z) (x : TransitionEntry) : bool := (entry_first x <=? byte) && (byte <=? entry_last x).

Definition entry_transition (x : TransitionEntry) : Transition := mkTransition (entry_handler x) (entry_next x).

(** All 256 bytes. *)
Definition all_bytes : list Z := map Z.of_nat (seq 0 256).

Lemma all_bytes_complete b : 0 <= b <= 255 -> b ∈ all_bytes.
Proof.
  intros. apply list_elem_of_In, in_map_iff. exists (Z.to_nat b). split; [lia|]. apply in_seq. lia.
Qed.

Lemma ALL_complete s : s ∈ ALL.
Proof. destruct s; unfold ALL; set_solver. Qed.

(** A statement about every state and byte is checked by running through them. *)
Lemma by_table (P : InputState -> Z -> bool) :
  forallb (fun s => forallb (P s) all_bytes) ALL = true ->
  forall s b, 0 <= b <= 255 -> P s b = true.
Proof.
  rewrite forallb_forall. intros H s b Hb. specialize (H s). rewrite forallb_forall in H.
  apply H; apply list_elem_of_In; [apply ALL_complete|by apply all_bytes_complete].
Qed.

(** Every byte is in exactly one range of every state's table, and the lookup
    table holds that range's transition. *)
Lemma transition_unique s b :
  0 <= b <= 255 ->
  exists x, filter (fun x => covers b x = true) (transition_table s) = [x]
    /\ transition_for_byte s b = Some (entry_transition x).
Proof.
  intros Hb.
  pose (P := fun s b => match filter (fun x => covers b x = true) (transition_table s) with
                        | [x] => bool_decide (transition_for_byte s b = Some (entry_transition x))
                        | _ => false
                        end).
  assert (P s b = true) as HP by (revert s b Hb; apply by_table; vm_compute; reflexivity).
  unfold P in HP. destruct (filter _ _) as [|x [|? ?]]; try done.
  exists x. split; [done|]. by apply bool_decide_eq_true in HP.
Qed.
