(* ===== verification/ScreenWriter.v ===== *)
(** * The screen the parser writes to

    [crates/rmux-core/src/input/writer.rs]: the trait [ScreenWriter] as a class
    over the type of the screen.  A method that changes the screen is a
    constructor of [WriterCall], interpreted by [write]; the methods that read it
    are operations of their own.  A screen may take a run of ASCII characters at
    once; [by_characters] is the body the trait gives that method, its characters
    one by one, and [expand] says the same of a list of calls.  Two screens
    implement the class here: [Recorder], which keeps the calls, and [defaults],
    whose methods are the trait's own bodies; [Screen.v] has the third. *)

From S2P Require Import Prelude InputCell Passthrough.

(** The methods that take [&mut self]. *)
Inductive WriterCall : Type :=
| collect_add (ch : Z) (cell : CellState)
| collect_add_with_charset (ch : Z) (cell : CellState) (acs : bool)
| collect_add_ascii_run (bytes : list Z) (cell : CellState) (acs : bool)
| collect_end
| cursor_up (n : Z)
| cursor_down (n : Z)
| cursor_left (n : Z)
| cursor_right (n : Z)
| cursor_move (col : Z) (row : Z) (origin_mode : bool)
| insert_line (n : Z) (bg : Z)
| delete_line (n : Z) (bg : Z)
| scroll_up (n : Z) (bg : Z)
| scroll_down (n : Z) (bg : Z)
| linefeed (wrapped : bool) (bg : Z)
| reverse_index (bg : Z)
| carriage_return
| backspace
| insert_character (n : Z) (bg : Z)
| delete_character (n : Z) (bg : Z)
| clear_character (n : Z) (bg : Z)
| clear_end_of_screen (bg : Z)
| clear_start_of_screen (bg : Z)
| clear_screen (bg : Z)
| clear_history
| clear_end_of_line (bg : Z)
| clear_start_of_line (bg : Z)
| clear_line (bg : Z)
| mode_set (mode : Z)
| mode_clear (mode : Z)
| set_scroll_region (top : Z) (bottom : Z)
| alternate_on (bg : Z) (save_cursor : bool)
| alternate_off (bg : Z) (restore_cursor : bool)
| reset_attributes
| tab
| cursor_backward_tab (n : Z)
| set_tab_stop
| clear_tab_stop
| clear_all_tab_stops
| set_title (title : list Z)
| set_window_name (name : list Z)
| set_path (path : list Z)
| save_cursor
| restore_cursor
| alignment_test
| full_reset
| start_sync
| stop_sync
| set_cursor_style (n : Z)
| osc_palette (data : list Z) (terminator : InputEndType)
| osc_hyperlink (data : list Z)
| osc_notification (data : list Z)
| osc_fg_colour (data : list Z) (terminator : InputEndType)
| osc_bg_colour (data : list Z) (terminator : InputEndType)
| osc_cursor_colour (data : list Z) (terminator : InputEndType)
| osc_clipboard (data : list Z) (terminator : InputEndType)
| osc_reset_palette (data : list Z)
| osc_reset_fg
| osc_reset_bg
| osc_reset_cursor
| osc_shell_integration (data : list Z)
| dcs_passthrough (data : list Z)
| sixel_passthrough (data : list Z)
| apc_passthrough (data : list Z)
| bell
| push_title
| pop_title
| notify_pane_title_changed.

Class ScreenWriter (W : Type) : Type := {
  write : WriterCall -> W -> W;
  current_hyperlink_id : W -> Z;
  screen_size_x : W -> Z;
  screen_size_y : W -> Z;
  cursor_x : W -> Z;
  cursor_y : W -> Z;
  current_mode : W -> Z
}.

(** A run of ASCII characters as its characters, one by one. *)
Definition expand_call (c : WriterCall) : list WriterCall :=
  match c with
  | collect_add_ascii_run bytes cell acs => map (fun b => collect_add_with_charset b cell acs) bytes
  | c => [c]
  end.

Definition expand (cs : list WriterCall) : list WriterCall := concat (map expand_call cs).

(** Calls made one after the other. *)
Definition run_calls {W : Type} `{ScreenWriter W} (cs : list WriterCall) (w : W) : W :=
  fold_left (fun w c => write c w) cs w.

(** The screen [w] with the body the trait gives [collect_add_ascii_run]: the
    characters of a run are added one by one. *)
Definition by_characters {W : Type} (SW : ScreenWriter W) : ScreenWriter W := {|
  write c w := fold_left (fun w c => write c w) (expand_call c) w;
  current_hyperlink_id := current_hyperlink_id;
  screen_size_x := screen_size_x;
  screen_size_y := screen_size_y;
  cursor_x := cursor_x;
  cursor_y := cursor_y;
  current_mode := current_mode
|}.

(** ** Mode bits, [input/mode.rs] *)

Definition MODE_CURSOR : Z := 1.
Definition MODE_INSERT : Z := 2.
Definition MODE_KCURSOR : Z := 4.
Definition MODE_KKEYPAD : Z := 8.
Definition MODE_WRAP : Z := 16.
Definition MODE_MOUSE_STANDARD : Z := 32.
Definition MODE_MOUSE_BUTTON : Z := 64.
Definition MODE_CURSOR_BLINKING : Z := 128.
Definition MODE_MOUSE_UTF8 : Z := 256.
Definition MODE_MOUSE_SGR : Z := 512.
Definition MODE_BRACKETPASTE : Z := 1024.
Definition MODE_FOCUSON : Z := 2048.
Definition MODE_MOUSE_ALL : Z := 4096.
Definition MODE_ORIGIN : Z := 8192.
Definition MODE_CRLF : Z := 16384.
Definition MODE_KEYS_EXTENDED : Z := 32768.
Definition MODE_CURSOR_VERY_VISIBLE : Z := 65536.
Definition MODE_CURSOR_BLINKING_SET : Z := 131072.
Definition MODE_KEYS_EXTENDED_2 : Z := 262144.
Definition MODE_THEME_UPDATES : Z := 524288.
Definition MODE_SYNC : Z := 1048576.
Definition MODE_KEYS_KITTY : Z := 2097152.
Definition ALL_MOUSE_MODES : Z := Z.lor (Z.lor MODE_MOUSE_STANDARD MODE_MOUSE_BUTTON) MODE_MOUSE_ALL.
Definition EXTENDED_KEY_MODES : Z := Z.lor (Z.lor MODE_KEYS_EXTENDED MODE_KEYS_EXTENDED_2) MODE_KEYS_KITTY.

Definition has_mode (mode bits : Z) : bool := negb (Z.land mode bits =? 0).

(** ** A screen that records what it is told *)

(** The calls so far, a run as its characters, and what the reading methods answer. *)
Record Recorder : Type := mkRecorder {
  calls : list WriterCall;
  columns : Z;
  rows : Z;
  column : Z;
  row : Z;
  modes : Z
}.

Definition record (c : WriterCall) (r : Recorder) : Recorder :=
  mkRecorder (calls r ++ expand_call c) (columns r) (rows r) (column r) (row r) (modes r).

#[global] Instance Recorder_writer : ScreenWriter Recorder := {
  write := record;
  current_hyperlink_id _ := 0;
  screen_size_x := columns;
  screen_size_y := rows;
  cursor_x := column;
  cursor_y := row;
  current_mode := modes
}.

(** An empty screen of 80 columns and 24 rows. *)
Definition screen : Recorder := mkRecorder [] 80 24 0 0 0.

(** ** The trait's default methods *)

(** A type that implements the trait only supplies [collect_add]; every other
    method keeps its default body. *)
Definition default_write {W : Type} (add : Z -> CellState -> W -> W) (c : WriterCall) (w : W) : W :=
  match c with
  | collect_add ch cell => add ch cell w
  | collect_add_with_charset ch cell _ => add ch cell w
  | collect_add_ascii_run bytes cell _ => fold_left (fun w byte => add byte cell w) bytes w
  | _ => w
  end.

Definition defaults {W : Type} (add : Z -> CellState -> W -> W) : ScreenWriter W := {|
  write := default_write add;
  current_hyperlink_id _ := 0;
  screen_size_x _ := 80;
  screen_size_y _ := 24;
  cursor_x _ := 0;
  cursor_y _ := 0;
  current_mode _ := 0
|}.
