(* ===== verification/InputTables.v ===== *)
(** * Commands and their tables

    [crates/rmux-core/src/input/commands.rs] and [tables.rs]: the commands of
    escape and control sequences, found by the final character and the
    intermediate bytes. *)

From S2P Require Import Prelude.

Inductive EscCommand : Type :=
| Scsg0On
| Scsg1On
| Decsc
| Decrc
| Decaln
| Deckpam
| Deckpnm
| Scsg0Off
| Scsg1Off
| Ind
| Nel
| Hts
| Ri
| St_cmd
| Ris.

#[global] Instance EscCommand_eq_dec : EqDecision EscCommand.
Proof. solve_decision. Defined.

Inductive CsiCommand : Type :=
| Ich
| Cuu
| Cud
| Cuf
| Cub
| Cnl
| Cpl
| Hpa
| Cup
| Ed
| El
| Il
| Dl
| Dch
| Su
| SmGraphics
| Sd
| Ech
| Cbt
| Rep
| Da
| DaTwo
| Vpa
| Tbc
| Sm
| SmPrivate
| Rm
| RmPrivate
| Sgr
| Modset
| KittyKeyboardSet
| KittyKeyboardPush
| KittyKeyboardPop
| KittyKeyboardQuery
| Dsr
| Modoff
| DsrPrivate
| QueryPrivate
| Decscusr
| Xda
| Decstbm
| Scp
| Winops
| Rcp.

#[global] Instance CsiCommand_eq_dec : EqDecision CsiCommand.
Proof. solve_decision. Defined.

Record TableEntry (T : Type) : Type := mkTableEntry {
  entry_ch : Z;
  entry_interm : list Z;
  entry_cmd : T
}.
Arguments mkTableEntry {T}.
Arguments entry_ch {T}.
Arguments entry_interm {T}.
Arguments entry_cmd {T}.

Definition ESC_TABLE : list (TableEntry EscCommand) :=
  [mkTableEntry 48 [40] Scsg0On;
   mkTableEntry 48 [41] Scsg1On;
   mkTableEntry 55 [] Decsc;
   mkTableEntry 56 [] Decrc;
   mkTableEntry 56 [35] Decaln;
   mkTableEntry 61 [] Deckpam;
   mkTableEntry 62 [] Deckpnm;
   mkTableEntry 66 [40] Scsg0Off;
   mkTableEntry 66 [41] Scsg1Off;
   mkTableEntry 68 [] Ind;
   mkTableEntry 69 [] Nel;
   mkTableEntry 72 [] Hts;
   mkTableEntry 77 [] Ri;
   mkTableEntry 92 [] St_cmd;
   mkTableEntry 99 [] Ris].

Definition CSI_TABLE : list (TableEntry CsiCommand) :=
  [mkTableEntry 64 [] Ich;
   mkTableEntry 65 [] Cuu;
   mkTableEntry 66 [] Cud;
   mkTableEntry 67 [] Cuf;
   mkTableEntry 68 [] Cub;
   mkTableEntry 69 [] Cnl;
   mkTableEntry 70 [] Cpl;
   mkTableEntry 71 [] Hpa;
   mkTableEntry 72 [] Cup;
   mkTableEntry 74 [] Ed;
   mkTableEntry 75 [] El;
   mkTableEntry 76 [] Il;
   mkTableEntry 77 [] Dl;
   mkTableEntry 80 [] Dch;
   mkTableEntry 83 [] Su;
   mkTableEntry 83 [63] SmGraphics;
   mkTableEntry 84 [] Sd;
   mkTableEntry 88 [] Ech;
   mkTableEntry 90 [] Cbt;
   mkTableEntry 96 [] Hpa;
   mkTableEntry 98 [] Rep;
   mkTableEntry 99 [] Da;
   mkTableEntry 99 [62] DaTwo;
   mkTableEntry 100 [] Vpa;
   mkTableEntry 102 [] Cup;
   mkTableEntry 103 [] Tbc;
   mkTableEntry 104 [] Sm;
   mkTableEntry 104 [63] SmPrivate;
   mkTableEntry 108 [] Rm;
   mkTableEntry 108 [63] RmPrivate;
   mkTableEntry 109 [] Sgr;
   mkTableEntry 109 [62] Modset;
   mkTableEntry 110 [] Dsr;
   mkTableEntry 110 [62] Modoff;
   mkTableEntry 110 [63] DsrPrivate;
   mkTableEntry 112 [63; 36] QueryPrivate;
   mkTableEntry 113 [32] Decscusr;
   mkTableEntry 113 [62] Xda;
   mkTableEntry 114 [] Decstbm;
   mkTableEntry 115 [] Scp;
   mkTableEntry 116 [] Winops;
   mkTableEntry 117 [60] KittyKeyboardPop;
   mkTableEntry 117 [61] KittyKeyboardSet;
   mkTableEntry 117 [62] KittyKeyboardPush;
   mkTableEntry 117 [63] KittyKeyboardQuery;
   mkTableEntry 117 [] Rcp].

(** The first entry with the character and the intermediates. *)
Definition lookup {T : Type} (table : list (TableEntry T)) (ch : Z) (interm : list Z) : option T :=
  entry_cmd <$> List.find (fun x => (entry_ch x =? ch) && bool_decide (entry_interm x = interm)) table.

Definition lookup_csi (ch : Z) (interm : list Z) : option CsiCommand := lookup CSI_TABLE ch interm.

Definition lookup_esc (ch : Z) (interm : list Z) : option EscCommand := lookup ESC_TABLE ch interm.

(** ** The tables name each sequence once *)

Definition keys {T : Type} (table : list (TableEntry T)) : list (Z * list Z) :=
  map (fun x => (entry_ch x, entry_interm x)) table.

Lemma lookup_unique {T : Type} (table : list (TableEntry T)) x :
  NoDup (keys table) -> x ∈ table -> lookup table (entry_ch x) (entry_interm x) = Some (entry_cmd x).
Proof.
  unfold lookup. induction table as [|y table IH]; intros Hnd Hin; [by apply elem_of_nil in Hin|].
  simpl in *. apply NoDup_cons in Hnd as [Hy Hnd].
  apply elem_of_cons in Hin as [->|Hin].
  - rewrite Z.eqb_refl, bool_decide_true by done. done.
  - case_match eqn:Hm; [|by apply IH].
    apply andb_true_iff in Hm as [Hc%Z.eqb_eq Hi%bool_decide_eq_true]. exfalso. apply Hy.
    apply list_elem_of_In, in_map_iff. exists x. rewrite Hc, Hi. split; [done|]. by apply list_elem_of_In.
Qed.

Lemma ESC_TABLE_unique : NoDup (keys ESC_TABLE).
Proof. apply (bool_decide_unpack _). vm_compute. exact I. Qed.

Lemma CSI_TABLE_unique : NoDup (keys CSI_TABLE).
Proof. apply (bool_decide_unpack _). vm_compute. exact I. Qed.
