(* ===== verification/InputParser.v ===== *)
(** * The terminal parser

    [crates/rmux-core/src/input/mod.rs], [dispatch.rs], [csi_helpers.rs],
    [passthrough.rs] and [recovery.rs]: the parser of a pane's output.  It keeps
    its state in an [InputParser], reads bytes through the transition tables and
    calls the screen, any type with a [ScreenWriter] instance.

    The fixed arrays of intermediate, parameter and UTF-8 bytes are the lists of
    their first bytes in use; writing past their end is a panic.  The handlers all
    return [false] (the state transition is never skipped), so they return
    nothing here.  [input_grown] says whether the string buffer was reallocated
    since it was created with room for [INPUT_BUF_START] bytes, which is what its
    capacity is looked at for. *)

From S2P Require Import Prelude Text Utf8 InputStates InputCell Passthrough ScreenWriter InputTables.

Definition INTERM_BUF_MAX : nat := 4.
Definition INPUT_BUF_START : Z := 32.
Definition INPUT_BUF_MAX : Z := 1048576.
Definition PARAM_BUF_MAX : nat := 64.
Definition INPUT_DISCARD : Z := 1.
Definition INPUT_LAST : Z := 2.
#[global] Arguments INTERM_BUF_MAX : simpl never.
#[global] Arguments PARAM_BUF_MAX : simpl never.

Inductive OscColourSlot : Type :=
| Foreground
| Background
| Cursor.

#[global] Instance OscColourSlot_eq_dec : EqDecision OscColourSlot.
Proof. solve_decision. Defined.

Definition osc_number (s : OscColourSlot) : Z :=
  match s with Foreground => 10 | Background => 11 | Cursor => 12 end.

Definition slot_index (s : OscColourSlot) : nat :=
  match s with Foreground => 0 | Background => 1 | Cursor => 2 end.

Record InputParser : Type := mkParser {
  state : InputState;
  flags : Z;
  ch : Z;
  interm : list Z;
  param : list Z;
  input_buf : list Z;
  input_grown : bool;
  input_buf_max : Z;
  input_end : InputEndType;
  param_list : ParamList;
  pcell : CellState;
  saved : SavedState;
  utf8_buf : list Z;
  utf8_expected : Z;
  utf8_started : bool;
  last_char : option Z;
  printed_in_current_parse : bool;
  recovery_rebase_required : bool;
  since_ground : list Z;
  ground_timer_active : bool;
  reply_buf : list Z;
  passthrough_dropped : Z;
  osc_colours : list (option (list Z))
}.

Definition with_state (v : InputState) (p : InputParser) : InputParser :=
  mkParser v (flags p) (ch p) (interm p) (param p) (input_buf p) (input_grown p) (input_buf_max p) (input_end p) (param_list p) (pcell p) (saved p) (utf8_buf p) (utf8_expected p) (utf8_started p) (last_char p) (printed_in_current_parse p) (recovery_rebase_required p) (since_ground p) (ground_timer_active p) (reply_buf p) (passthrough_dropped p) (osc_colours p).
Definition with_flags (v : Z) (p : InputParser) : InputParser :=
  mkParser (state p) v (ch p) (interm p) (param p) (input_buf p) (input_grown p) (input_buf_max p) (input_end p) (param_list p) (pcell p) (saved p) (utf8_buf p) (utf8_expected p) (utf8_started p) (last_char p) (printed_in_current_parse p) (recovery_rebase_required p) (since_ground p) (ground_timer_active p) (reply_buf p) (passthrough_dropped p) (osc_colours p).
Definition with_ch (v : Z) (p : InputParser) : InputParser :=
  mkParser (state p) (flags p) v (interm p) (param p) (input_buf p) (input_grown p) (input_buf_max p) (input_end p) (param_list p) (pcell p) (saved p) (utf8_buf p) (utf8_expected p) (utf8_started p) (last_char p) (printed_in_current_parse p) (recovery_rebase_required p) (since_ground p) (ground_timer_active p) (reply_buf p) (passthrough_dropped p) (osc_colours p).
Definition with_interm (v : list Z) (p : InputParser) : InputParser :=
  mkParser (state p) (flags p) (ch p) v (param p) (input_buf p) (input_grown p) (input_buf_max p) (input_end p) (param_list p) (pcell p) (saved p) (utf8_buf p) (utf8_expected p) (utf8_started p) (last_char p) (printed_in_current_parse p) (recovery_rebase_required p) (since_ground p) (ground_timer_active p) (reply_buf p) (passthrough_dropped p) (osc_colours p).
Definition with_param (v : list Z) (p : InputParser) : InputParser :=
  mkParser (state p) (flags p) (ch p) (interm p) v (input_buf p) (input_grown p) (input_buf_max p) (input_end p) (param_list p) (pcell p) (saved p) (utf8_buf p) (utf8_expected p) (utf8_started p) (last_char p) (printed_in_current_parse p) (recovery_rebase_required p) (since_ground p) (ground_timer_active p) (reply_buf p) (passthrough_dropped p) (osc_colours p).
Definition with_input_buf (v : list Z) (p : InputParser) : InputParser :=
  mkParser (state p) (flags p) (ch p) (interm p) (param p) v (input_grown p) (input_buf_max p) (input_end p) (param_list p) (pcell p) (saved p) (utf8_buf p) (utf8_expected p) (utf8_started p) (last_char p) (printed_in_current_parse p) (recovery_rebase_required p) (since_ground p) (ground_timer_active p) (reply_buf p) (passthrough_dropped p) (osc_colours p).
Definition with_input_grown (v : bool) (p : InputParser) : InputParser :=
  mkParser (state p) (flags p) (ch p) (interm p) (param p) (input_buf p) v (input_buf_max p) (input_end p) (param_list p) (pcell p) (saved p) (utf8_buf p) (utf8_expected p) (utf8_started p) (last_char p) (printed_in_current_parse p) (recovery_rebase_required p) (since_ground p) (ground_timer_active p) (reply_buf p) (passthrough_dropped p) (osc_colours p).
Definition with_input_buf_max (v : Z) (p : InputParser) : InputParser :=
  mkParser (state p) (flags p) (ch p) (interm p) (param p) (input_buf p) (input_grown p) v (input_end p) (param_list p) (pcell p) (saved p) (utf8_buf p) (utf8_expected p) (utf8_started p) (last_char p) (printed_in_current_parse p) (recovery_rebase_required p) (since_ground p) (ground_timer_active p) (reply_buf p) (passthrough_dropped p) (osc_colours p).
Definition with_input_end (v : InputEndType) (p : InputParser) : InputParser :=
  mkParser (state p) (flags p) (ch p) (interm p) (param p) (input_buf p) (input_grown p) (input_buf_max p) v (param_list p) (pcell p) (saved p) (utf8_buf p) (utf8_expected p) (utf8_started p) (last_char p) (printed_in_current_parse p) (recovery_rebase_required p) (since_ground p) (ground_timer_active p) (reply_buf p) (passthrough_dropped p) (osc_colours p).
Definition with_param_list (v : ParamList) (p : InputParser) : InputParser :=
  mkParser (state p) (flags p) (ch p) (interm p) (param p) (input_buf p) (input_grown p) (input_buf_max p) (input_end p) v (pcell p) (saved p) (utf8_buf p) (utf8_expected p) (utf8_started p) (last_char p) (printed_in_current_parse p) (recovery_rebase_required p) (since_ground p) (ground_timer_active p) (reply_buf p) (passthrough_dropped p) (osc_colours p).
Definition with_pcell (v : CellState) (p : InputParser) : InputParser :=
  mkParser (state p) (flags p) (ch p) (interm p) (param p) (input_buf p) (input_grown p) (input_buf_max p) (input_end p) (param_list p) v (saved p) (utf8_buf p) (utf8_expected p) (utf8_started p) (last_char p) (printed_in_current_parse p) (recovery_rebase_required p) (since_ground p) (ground_timer_active p) (reply_buf p) (passthrough_dropped p) (osc_colours p).
Definition with_saved (v : SavedState) (p : InputParser) : InputParser :=
  mkParser (state p) (flags p) (ch p) (interm p) (param p) (input_buf p) (input_grown p) (input_buf_max p) (input_end p) (param_list p) (pcell p) v (utf8_buf p) (utf8_expected p) (utf8_started p) (last_char p) (printed_in_current_parse p) (recovery_rebase_required p) (since_ground p) (ground_timer_active p) (reply_buf p) (passthrough_dropped p) (osc_colours p).
Definition with_utf8_buf (v : list Z) (p : InputParser) : InputParser :=
  mkParser (state p) (flags p) (ch p) (interm p) (param p) (input_buf p) (input_grown p) (input_buf_max p) (input_end p) (param_list p) (pcell p) (saved p) v (utf8_expected p) (utf8_started p) (last_char p) (printed_in_current_parse p) (recovery_rebase_required p) (since_ground p) (ground_timer_active p) (reply_buf p) (passthrough_dropped p) (osc_colours p).
Definition with_utf8_expected (v : Z) (p : InputParser) : InputParser :=
  mkParser (state p) (flags p) (ch p) (interm p) (param p) (input_buf p) (input_grown p) (input_buf_max p) (input_end p) (param_list p) (pcell p) (saved p) (utf8_buf p) v (utf8_started p) (last_char p) (printed_in_current_parse p) (recovery_rebase_required p) (since_ground p) (ground_timer_active p) (reply_buf p) (passthrough_dropped p) (osc_colours p).
Definition with_utf8_started (v : bool) (p : InputParser) : InputParser :=
  mkParser (state p) (flags p) (ch p) (interm p) (param p) (input_buf p) (input_grown p) (input_buf_max p) (input_end p) (param_list p) (pcell p) (saved p) (utf8_buf p) (utf8_expected p) v (last_char p) (printed_in_current_parse p) (recovery_rebase_required p) (since_ground p) (ground_timer_active p) (reply_buf p) (passthrough_dropped p) (osc_colours p).
Definition with_last_char (v : option Z) (p : InputParser) : InputParser :=
  mkParser (state p) (flags p) (ch p) (interm p) (param p) (input_buf p) (input_grown p) (input_buf_max p) (input_end p) (param_list p) (pcell p) (saved p) (utf8_buf p) (utf8_expected p) (utf8_started p) v (printed_in_current_parse p) (recovery_rebase_required p) (since_ground p) (ground_timer_active p) (reply_buf p) (passthrough_dropped p) (osc_colours p).
Definition with_printed_in_current_parse (v : bool) (p : InputParser) : InputParser :=
  mkParser (state p) (flags p) (ch p) (interm p) (param p) (input_buf p) (input_grown p) (input_buf_max p) (input_end p) (param_list p) (pcell p) (saved p) (utf8_buf p) (utf8_expected p) (utf8_started p) (last_char p) v (recovery_rebase_required p) (since_ground p) (ground_timer_active p) (reply_buf p) (passthrough_dropped p) (osc_colours p).
Definition with_recovery_rebase_required (v : bool) (p : InputParser) : InputParser :=
  mkParser (state p) (flags p) (ch p) (interm p) (param p) (input_buf p) (input_grown p) (input_buf_max p) (input_end p) (param_list p) (pcell p) (saved p) (utf8_buf p) (utf8_expected p) (utf8_started p) (last_char p) (printed_in_current_parse p) v (since_ground p) (ground_timer_active p) (reply_buf p) (passthrough_dropped p) (osc_colours p).
Definition with_since_ground (v : list Z) (p : InputParser) : InputParser :=
  mkParser (state p) (flags p) (ch p) (interm p) (param p) (input_buf p) (input_grown p) (input_buf_max p) (input_end p) (param_list p) (pcell p) (saved p) (utf8_buf p) (utf8_expected p) (utf8_started p) (last_char p) (printed_in_current_parse p) (recovery_rebase_required p) v (ground_timer_active p) (reply_buf p) (passthrough_dropped p) (osc_colours p).
Definition with_ground_timer_active (v : bool) (p : InputParser) : InputParser :=
  mkParser (state p) (flags p) (ch p) (interm p) (param p) (input_buf p) (input_grown p) (input_buf_max p) (input_end p) (param_list p) (pcell p) (saved p) (utf8_buf p) (utf8_expected p) (utf8_started p) (last_char p) (printed_in_current_parse p) (recovery_rebase_required p) (since_ground p) v (reply_buf p) (passthrough_dropped p) (osc_colours p).
Definition with_reply_buf (v : list Z) (p : InputParser) : InputParser :=
  mkParser (state p) (flags p) (ch p) (interm p) (param p) (input_buf p) (input_grown p) (input_buf_max p) (input_end p) (param_list p) (pcell p) (saved p) (utf8_buf p) (utf8_expected p) (utf8_started p) (last_char p) (printed_in_current_parse p) (recovery_rebase_required p) (since_ground p) (ground_timer_active p) v (passthrough_dropped p) (osc_colours p).
Definition with_passthrough_dropped (v : Z) (p : InputParser) : InputParser :=
  mkParser (state p) (flags p) (ch p) (interm p) (param p) (input_buf p) (input_grown p) (input_buf_max p) (input_end p) (param_list p) (pcell p) (saved p) (utf8_buf p) (utf8_expected p) (utf8_started p) (last_char p) (printed_in_current_parse p) (recovery_rebase_required p) (since_ground p) (ground_timer_active p) (reply_buf p) v (osc_colours p).
Definition with_osc_colours (v : list (option (list Z))) (p : InputParser) : InputParser :=
  mkParser (state p) (flags p) (ch p) (interm p) (param p) (input_buf p) (input_grown p) (input_buf_max p) (input_end p) (param_list p) (pcell p) (saved p) (utf8_buf p) (utf8_expected p) (utf8_started p) (last_char p) (printed_in_current_parse p) (recovery_rebase_required p) (since_ground p) (ground_timer_active p) (reply_buf p) (passthrough_dropped p) v.

Definition new_parser : InputParser :=
  mkParser Ground 0 0 [] [] [] false INPUT_BUF_MAX St [] default_cell_state default_saved_state [] 0 false None
    false false [] false [] 0 [None; None; None].

Definition has_flag (p : InputParser) (flag : Z) : bool := negb (Z.land (flags p) flag =? 0).
Definition set_flag (flag : Z) (p : InputParser) : InputParser := with_flags (Z.lor (flags p) flag) p.
Definition clear_flag (flag : Z) (p : InputParser) : InputParser := with_flags (Z.ldiff (flags p) flag) p.

(** Text as its bytes. *)
Definition bytes (s : string) : list Z := map byte_of (text_of s).
Definition number (n : Z) : list Z := map byte_of (dec n).

(** ** Small operations *)

Definition osc_colour (p : InputParser) (slot : OscColourSlot) : option (list Z) :=
  mjoin (osc_colours p !! slot_index slot).

Definition OSC_COLOUR_MAX_LEN : nat := 64.
#[global] Arguments OSC_COLOUR_MAX_LEN : simpl never.

Definition set_osc_colour (slot : OscColourSlot) (value : list Z) (p : InputParser) : InputParser :=
  if (OSC_COLOUR_MAX_LEN <? length value)%nat then p
  else with_osc_colours (<[slot_index slot := Some value]> (osc_colours p)) p.

Definition reset_osc_colour (slot : OscColourSlot) (p : InputParser) : InputParser :=
  with_osc_colours (<[slot_index slot := None]> (osc_colours p)) p.

Definition set_input_buffer_limit (limit : Z) (p : InputParser) : InputParser :=
  with_input_buf_max (Z.max limit INPUT_BUF_START) p.

Definition take_replies (p : InputParser) : list Z * InputParser := (reply_buf p, with_reply_buf [] p).

Definition take_passthrough_dropped (p : InputParser) : Z * InputParser :=
  (passthrough_dropped p, with_passthrough_dropped 0 p).

Definition take_since_ground (p : InputParser) : list Z * InputParser := (since_ground p, with_since_ground [] p).

Definition take_recovery_rebase_required (p : InputParser) : bool * InputParser :=
  (recovery_rebase_required p, with_recovery_rebase_required false p).

Definition pending_bytes (p : InputParser) : list Z :=
  if bool_decide (state p <> Ground) then since_ground p
  else if utf8_started p then utf8_buf p else [].

Definition reply (s : list Z) (p : InputParser) : InputParser := with_reply_buf (reply_buf p ++ s) p.

Definition note_effective_rep (p : InputParser) : InputParser :=
  if negb (printed_in_current_parse p) then with_recovery_rebase_required true p else p.

(** [Vec::push] on the string buffer *)
Definition push_input (b : Z) (p : InputParser) : InputParser :=
  let buf := input_buf p ++ [b] in
  with_input_grown (input_grown p || (INPUT_BUF_START <? Z.of_nat (length buf))) (with_input_buf buf p).

Definition is_kitty_graphics_apc (payload : list Z) : bool := bool_decide (head payload = Some 71).

Definition starts_with (prefix buf : list Z) : bool := bool_decide (take (length prefix) buf = prefix).

(** The character set in use is the line-drawing one. *)
Definition acs (p : InputParser) : bool :=
  negb ((if set (pcell p) =? 0 then g0set (pcell p) else g1set (pcell p)) =? 0).

(** ** States *)

Definition clear (p : InputParser) : InputParser :=
  let p := with_ground_timer_active false p in
  let p := with_interm [] p in
  let p := with_param [] p in
  let p := with_input_buf [] p in
  let p := with_input_end St p in
  clear_flag INPUT_DISCARD p.

Definition enter_ground (p : InputParser) : InputParser :=
  let p := with_since_ground [] (with_ground_timer_active false p) in
  if input_grown p then with_input_grown false (with_input_buf [] p) else p.

(** [enter_dcs], [enter_osc], [enter_apc] and [enter_rename] have the same body. *)
Definition enter_string (p : InputParser) : InputParser :=
  clear_flag INPUT_LAST (with_ground_timer_active true (clear p)).

Definition enter_state (p : InputParser) : InputParser :=
  match state p with
  | Ground => enter_ground p
  | EscEnter => clear p
  | CsiEnter => clear p
  | DcsEnter | OscString | ApcString | RenameString | ConsumeSt => enter_string p
  | _ => p
  end.

Definition reset_to_ground (p : InputParser) : InputParser :=
  enter_ground (with_flags 0 (with_state Ground (clear p))).

Definition ground_timer_expired (p : InputParser) : InputParser := reset_to_ground p.

(** ** Collecting bytes *)

(** A write into a fixed array, [None] for the panic of an index past its end. *)
Definition write_array (capacity : nat) (bs : list Z) (b : Z) : option (list Z) :=
  if (length bs <? capacity)%nat then Some (bs ++ [b]) else None.

Definition handle_intermediate (p : InputParser) : option InputParser :=
  if (INTERM_BUF_MAX - 1 <=? length (interm p))%nat then Some (set_flag INPUT_DISCARD p)
  else i ← write_array INTERM_BUF_MAX (interm p) (ch p); Some (with_interm i p).

Definition handle_parameter (p : InputParser) : option InputParser :=
  if (PARAM_BUF_MAX - 1 <=? length (param p))%nat then Some (set_flag INPUT_DISCARD p)
  else i ← write_array PARAM_BUF_MAX (param p) (ch p); Some (with_param i p).

Definition is_terminal_passthrough_string (p : InputParser) : bool :=
  (bool_decide (state p = ApcString) && is_kitty_graphics_apc (input_buf p))
  || (bool_decide (state p = DcsHandler \/ state p = DcsEscape)
      && (length (interm p) =? 0)%nat
      && (bool_decide (head (input_buf p) = Some 113) || starts_with (bytes "tmux;") (input_buf p))).

Definition input_buffer_limit (p : InputParser) : Z :=
  if is_terminal_passthrough_string p then MAX_TERMINAL_PASSTHROUGH_PAYLOAD_BYTES else input_buf_max p.

Definition handle_input (p : InputParser) : InputParser :=
  let escaped_dcs_byte := bool_decide (state p = DcsEscape) in
  let bytes_to_push := if escaped_dcs_byte && negb (ch p =? 27) then 2 else 1 in
  if input_buffer_limit p <=? Z.of_nat (length (input_buf p)) + bytes_to_push then
    let p :=
      if negb (has_flag p INPUT_DISCARD) && is_terminal_passthrough_string p
      then with_passthrough_dropped (u64_sat_add (passthrough_dropped p) 1) p else p in
    set_flag INPUT_DISCARD p
  else if escaped_dcs_byte && (ch p =? 27) then push_input 27 p
  else if escaped_dcs_byte then push_input (ch p) (push_input 27 p)
  else push_input (ch p) p.

Definition should_recover_tmux_passthrough_osc_bel (p : InputParser) : bool :=
  if bool_decide (state p <> DcsHandler) || negb (ch p =? 7) || negb (length (interm p) =? 0)%nat then false
  else
    starts_with (bytes "tmux;") (input_buf p)
    && (let payload := drop 5 (input_buf p) in
        starts_with [27; 93] payload || bool_decide (head payload = Some 157)).

Definition handle_end_bel (p : InputParser) : InputParser := with_input_end Bel p.

(** ** Dispatch *)

Section Dispatch.

Context {W : Type} `{ScreenWriter W}.

Implicit Types (p : InputParser) (w : W).

Definition dispatch_c0 (p : InputParser) (w : W) : InputParser * W :=
  match ch p with
  | 7 => (p, write bell w)
  | 8 => (p, write backspace w)
  | 9 => (p, write tab w)
  | 10 | 11 | 12 =>
      let w := write (linefeed false (bg (cell (pcell p)))) w in
      (p, if has_mode (current_mode w) MODE_CRLF then write carriage_return w else w)
  | 13 => (p, write carriage_return w)
  | 14 => (with_pcell (mkCellState (cell (pcell p)) 1 (g0set (pcell p)) (g1set (pcell p))) p, w)
  | 15 => (with_pcell (mkCellState (cell (pcell p)) 0 (g0set (pcell p)) (g1set (pcell p))) p, w)
  | _ => (p, w)
  end.

(** DECSC and SCP *)
Definition save_state (p : InputParser) (w : W) : InputParser :=
  with_saved (mkSavedState (pcell p) (cursor_x w) (cursor_y w) (has_mode (current_mode w) MODE_ORIGIN)) p.

(** DECRC and RCP *)
Definition restore_state (p : InputParser) (w : W) : InputParser * W :=
  let p := with_pcell (saved_cell (saved p)) p in
  let w := if mode_origin (saved p) then write (mode_set MODE_ORIGIN) w else write (mode_clear MODE_ORIGIN) w in
  (p, write (cursor_move (as_i32 (saved_cx (saved p))) (as_i32 (saved_cy (saved p))) false) w).

Definition dispatch_esc_command (cmd : EscCommand) (p : InputParser) (w : W) : InputParser * W :=
  let c := pcell p in
  let bg := bg (cell c) in
  match cmd with
  | Ris => (with_pcell (reset c) p, write full_reset w)
  | Ind => (p, write (linefeed false bg) w)
  | Nel => (p, write (linefeed false bg) (write carriage_return w))
  | Hts => (p, write set_tab_stop w)
  | Ri => (p, write (reverse_index bg) w)
  | Deckpam => (p, write (mode_set MODE_KKEYPAD) w)
  | Deckpnm => (p, write (mode_clear MODE_KKEYPAD) w)
  | Decsc => (save_state p w, w)
  | Decrc => restore_state p w
  | Decaln => (p, write alignment_test w)
  | Scsg0On => (with_pcell (mkCellState (cell c) (set c) 1 (g1set c)) p, w)
  | Scsg0Off => (with_pcell (mkCellState (cell c) (set c) 0 (g1set c)) p, w)
  | Scsg1On => (with_pcell (mkCellState (cell c) (set c) (g0set c) 1) p, w)
  | Scsg1Off => (with_pcell (mkCellState (cell c) (set c) (g0set c) 0) p, w)
  | St_cmd => (p, w)
  end.

Definition dispatch_esc (p : InputParser) (w : W) : InputParser * W :=
  match lookup_esc (ch p) (interm p) with
  | Some cmd => dispatch_esc_command cmd p w
  | None => (p, w)
  end.

(** What [get i 0 (-1)] gives for each parameter. *)
Definition mode_params (params : ParamList) : list Z :=
  map (fun i => get params i 0 (-1)) (seq 0 (length params)).

Definition sm_param (w : W) (n : Z) : W :=
  match n with
  | 4 => write (mode_set MODE_INSERT) w
  | 34 => write (mode_clear MODE_CURSOR_VERY_VISIBLE) w
  | _ => w
  end.

Definition rm_param (w : W) (n : Z) : W :=
  match n with
  | 4 => write (mode_clear MODE_INSERT) w
  | 34 => write (mode_set MODE_CURSOR_VERY_VISIBLE) w
  | _ => w
  end.

Definition dispatch_sm (p : InputParser) (w : W) : W := fold_left sm_param (mode_params (param_list p)) w.
Definition dispatch_rm (p : InputParser) (w : W) : W := fold_left rm_param (mode_params (param_list p)) w.

Definition sm_private_param (bg : Z) (w : W) (n : Z) : W :=
  match n with
  | 1 => write (mode_set MODE_KCURSOR) w
  | 3 => write (clear_screen bg) (write (cursor_move 0 0 true) w)
  | 6 => write (cursor_move 0 0 true) (write (mode_set MODE_ORIGIN) w)
  | 7 => write (mode_set MODE_WRAP) w
  | 12 => write (mode_set MODE_CURSOR_BLINKING_SET) (write (mode_set MODE_CURSOR_BLINKING) w)
  | 25 => write (mode_set MODE_CURSOR) w
  | 1000 => write (mode_set MODE_MOUSE_STANDARD) (write (mode_clear ALL_MOUSE_MODES) w)
  | 1002 => write (mode_set MODE_MOUSE_BUTTON) (write (mode_clear ALL_MOUSE_MODES) w)
  | 1003 => write (mode_set MODE_MOUSE_ALL) (write (mode_clear ALL_MOUSE_MODES) w)
  | 1004 => write (mode_set MODE_FOCUSON) w
  | 1005 => write (mode_set MODE_MOUSE_UTF8) w
  | 1006 => write (mode_set MODE_MOUSE_SGR) w
  | 47 | 1047 => write (alternate_on bg false) w
  | 1049 => write (alternate_on bg true) w
  | 2004 => write (mode_set MODE_BRACKETPASTE) w
  | 2026 => write start_sync w
  | 2031 => write (mode_set MODE_THEME_UPDATES) w
  | _ => w
  end.

Definition rm_private_param (bg : Z) (w : W) (n : Z) : W :=
  match n with
  | 1 => write (mode_clear MODE_KCURSOR) w
  | 3 => write (clear_screen bg) (write (cursor_move 0 0 true) w)
  | 6 => write (cursor_move 0 0 true) (write (mode_clear MODE_ORIGIN) w)
  | 7 => write (mode_clear MODE_WRAP) w
  | 12 => write (mode_set MODE_CURSOR_BLINKING_SET) (write (mode_clear MODE_CURSOR_BLINKING) w)
  | 25 => write (mode_clear MODE_CURSOR) w
  | 1000 | 1001 | 1002 | 1003 => write (mode_clear ALL_MOUSE_MODES) w
  | 1004 => write (mode_clear MODE_FOCUSON) w
  | 1005 => write (mode_clear MODE_MOUSE_UTF8) w
  | 1006 => write (mode_clear MODE_MOUSE_SGR) w
  | 47 | 1047 => write (alternate_off bg false) w
  | 1049 => write (alternate_off bg true) w
  | 2004 => write (mode_clear MODE_BRACKETPASTE) w
  | 2026 => write stop_sync w
  | 2031 => write (mode_clear MODE_THEME_UPDATES) w
  | _ => w
  end.

Definition dispatch_sm_private (p : InputParser) (w : W) : W :=
  fold_left (sm_private_param (bg (cell (pcell p)))) (mode_params (param_list p)) w.

Definition dispatch_rm_private (p : InputParser) (w : W) : W :=
  fold_left (rm_private_param (bg (cell (pcell p)))) (mode_params (param_list p)) w.

(** ESC [ kind ; rows ; columns t *)
Definition size_report (kind sx sy : Z) : list Z :=
  [27; 91] ++ number kind ++ [59] ++ number sy ++ [59] ++ number sx ++ [116].

Fixpoint winops_loop (fuel : nat) (sx sy : Z) (m : nat) (p : InputParser) (w : W) : InputParser * W :=
  match fuel with
  | O => (p, w)
  | S fuel =>
      let arg i := get (param_list p) i 0 (-1) in
      let n := arg m in
      if n =? -1 then (p, w)
      else
        match n with
        | 3 | 4 | 8 =>
            if arg (m + 1)%nat =? -1 then (p, w)
            else if arg (m + 2)%nat =? -1 then (p, w)
            else winops_loop fuel sx sy (m + 3) p w
        | 9 | 10 => if arg (m + 1)%nat =? -1 then (p, w) else winops_loop fuel sx sy (m + 2) p w
        | 18 => winops_loop fuel sx sy (m + 1) (reply (size_report 8 sx sy) p) w
        | 19 => winops_loop fuel sx sy (m + 1) (reply (size_report 9 sx sy) p) w
        | 22 =>
            match arg (m + 1)%nat with
            | -1 => (p, w)
            | 0 | 2 => winops_loop fuel sx sy (m + 2) p (write push_title w)
            | _ => winops_loop fuel sx sy (m + 2) p w
            end
        | 23 =>
            match arg (m + 1)%nat with
            | -1 => (p, w)
            | 0 | 2 => winops_loop fuel sx sy (m + 2) p (write notify_pane_title_changed (write pop_title w))
            | _ => winops_loop fuel sx sy (m + 2) p w
            end
        | _ => winops_loop fuel sx sy (m + 1) p w
        end
  end.

Definition dispatch_winops (p : InputParser) (w : W) : InputParser * W :=
  winops_loop (S (length (param_list p))) (screen_size_x w) (screen_size_y w) 0 p w.

Definition XTVERSION_REPLY : list Z := [27] ++ bytes "P>|rmux 0.10.0" ++ [27; 92].

(** The reply to a DECRPM query, if the mode is one that is answered. *)
Definition query_reply (param mode : Z) : option (list Z) :=
  let answer bits := [27; 91; 63] ++ number param ++ [59] ++ number (if has_mode mode bits then 1 else 2) ++ [36; 121] in
  match param with
  | 1004 => Some (answer MODE_FOCUSON)
  | 1006 => Some (answer MODE_MOUSE_SGR)
  | 2004 => Some (answer MODE_BRACKETPASTE)
  | 2026 => Some (answer MODE_SYNC)
  | 2031 => Some ([27] ++ bytes "[?2031;2$y")
  | _ => None
  end.

(** REP: how often the last character is repeated. *)
Definition repeat_char (n c : Z) (p : InputParser) (w : W) : InputParser * W :=
  let p := note_effective_rep p in
  let remaining := sat_sub (screen_size_x w) (cursor_x w) in
  let count := Z.min n remaining in
  (p, Nat.iter (Z.to_nat count) (fun w => write (collect_add_with_charset c (pcell p) (acs p)) w) w).

Definition dispatch_csi_command (cmd : CsiCommand) (p : InputParser) (w : W) : InputParser * W :=
  let bg := bg (cell (pcell p)) in
  let arg i minval defval := get (param_list p) i minval defval in
  let n := arg 0%nat 1 1 in
  let counted call := (p, if n =? -1 then w else write (call n) w) in
  match cmd with
  | Ich => counted (fun n => insert_character n bg)
  | Cuu => counted cursor_up
  | Cud => counted cursor_down
  | Cuf => counted cursor_right
  | Cub => counted cursor_left
  | Cnl => (p, if n =? -1 then w else write (cursor_down n) (write carriage_return w))
  | Cpl => (p, if n =? -1 then w else write (cursor_up n) (write carriage_return w))
  | Cup =>
      let m := arg 1%nat 1 1 in
      (p, if negb (n =? -1) && negb (m =? -1) then write (cursor_move (m - 1) (n - 1) true) w else w)
  | Hpa => counted (fun n => cursor_move (n - 1) (-1) true)
  | Vpa => counted (fun n => cursor_move (-1) (n - 1) true)
  | Ed =>
      (p, match arg 0%nat 0 0 with
          | 0 => write (clear_end_of_screen bg) w
          | 1 => write (clear_start_of_screen bg) w
          | 2 => write (clear_screen bg) w
          | 3 => if arg 1%nat 0 0 =? 0 then write clear_history w else w
          | _ => w
          end)
  | El =>
      (p, match arg 0%nat 0 0 with
          | 0 => write (clear_end_of_line bg) w
          | 1 => write (clear_start_of_line bg) w
          | 2 => write (clear_line bg) w
          | _ => w
          end)
  | Il => counted (fun n => insert_line n bg)
  | Dl => counted (fun n => delete_line n bg)
  | Dch => counted (fun n => delete_character n bg)
  | Ech => counted (fun n => clear_character n bg)
  | Su => counted (fun n => scroll_up n bg)
  | Sd => counted (fun n => scroll_down n bg)
  | Cbt => counted cursor_backward_tab
  | Rep =>
      if (n =? -1) || negb (has_flag p INPUT_LAST) then (p, w)
      else match last_char p with Some c => repeat_char n c p w | None => (p, w) end
  | Da => (if arg 0%nat 0 0 =? 0 then reply ([27] ++ bytes "[?1;2c") p else p, w)
  | DaTwo => (if arg 0%nat 0 0 =? 0 then reply ([27] ++ bytes "[>84;0;0c") p else p, w)
  | Dsr =>
      (match arg 0%nat 0 0 with
       | 5 => reply ([27] ++ bytes "[0n") p
       | 6 => reply ([27; 91] ++ number (u32_add (cursor_y w) 1) ++ [59] ++ number (u32_add (cursor_x w) 1) ++ [82]) p
       | _ => p
       end, w)
  | QueryPrivate =>
      (match query_reply (arg 0%nat 0 0) (current_mode w) with Some s => reply s p | None => p end, w)
  | Decstbm =>
      let m := arg 1%nat 1 (as_i32 (screen_size_y w)) in
      (p, if negb (n =? -1) && negb (m =? -1)
          then write (set_scroll_region (wrap_u32 (n - 1)) (wrap_u32 (m - 1))) w else w)
  | Tbc =>
      (p, match arg 0%nat 0 0 with
          | 0 => write clear_tab_stop w
          | 3 => write clear_all_tab_stops w
          | _ => w
          end)
  | Sm => (p, dispatch_sm p w)
  | SmPrivate => (p, dispatch_sm_private p w)
  | Rm => (p, dispatch_rm p w)
  | RmPrivate => (p, dispatch_rm_private p w)
  | Sgr =>
      let c := pcell p in
      (with_pcell (mkCellState (dispatch_sgr (param_list p) (cell c)) (set c) (g0set c) (g1set c)) p, w)
  | Modset =>
      if negb (arg 0%nat 0 0 =? 4) then (p, w)
      else
        let w := write (mode_clear EXTENDED_KEY_MODES) w in
        (p, match arg 1%nat 0 0 with
            | 2 => write (mode_set MODE_KEYS_EXTENDED_2) w
            | 1 => write (mode_set MODE_KEYS_EXTENDED) w
            | _ => w
            end)
  | Modoff => (p, if arg 0%nat 0 0 =? 4 then write (mode_clear EXTENDED_KEY_MODES) w else w)
  | Scp => (save_state p w, w)
  | Rcp => restore_state p w
  | Decscusr =>
      let n := arg 0%nat 0 0 in
      (p, if n =? -1 then w
          else
            let w := write (set_cursor_style n) w in
            if n =? 0 then write (mode_clear MODE_CURSOR_BLINKING_SET) w else w)
  | Xda => (if arg 0%nat 0 0 =? 0 then reply XTVERSION_REPLY p else p, w)
  | Winops => dispatch_winops p w
  | SmGraphics | DsrPrivate | KittyKeyboardSet | KittyKeyboardPush | KittyKeyboardPop | KittyKeyboardQuery => (p, w)
  end.

Definition dispatch_csi (p : InputParser) (w : W) : InputParser * W :=
  let '(ok, params) := split (param p) in
  let p := with_param_list params p in
  if negb ok then (p, w)
  else match lookup_csi (ch p) (interm p) with
       | Some cmd => dispatch_csi_command cmd p w
       | None => (p, w)
       end.

(** The decimal number at the start, saturating. *)
Fixpoint osc_option (acc : Z) (buf : list Z) : Z * list Z :=
  match buf with
  | b :: rest =>
      if is_digit b then osc_option (u32_sat_add (u32_sat_mul acc 10) (b - 48)) rest else (acc, buf)
  | [] => (acc, [])
  end.

Definition terminator_bytes (end_ : InputEndType) : list Z :=
  match end_ with Bel => [7] | St => [27; 92] end.

(** The answer to a query for a colour. *)
Definition colour_reply (slot : OscColourSlot) (colour : list Z) (end_ : InputEndType) : list Z :=
  [27; 93] ++ number (osc_number slot) ++ [59] ++ colour ++ terminator_bytes end_.

Definition answer_osc_colour_query (slot : OscColourSlot) (data : list Z) (end_ : InputEndType) (p : InputParser)
  : bool * InputParser :=
  if negb (bool_decide (data = [63])) then (false, p)
  else
    (true, match osc_colour p slot with
           | Some colour => reply (colour_reply slot colour end_) p
           | None => p
           end).

(** OSC 10, 11 and 12 *)
Definition osc_colour_command (slot : OscColourSlot) (call : list Z -> InputEndType -> WriterCall) (data : list Z)
    (p : InputParser) (w : W) : InputParser * W :=
  let '(answered, p) := answer_osc_colour_query slot data (input_end p) p in
  if answered then (p, w) else (set_osc_colour slot data p, write (call data (input_end p)) w).

Definition osc_command (option : Z) (data : list Z) (p : InputParser) (w : W) : InputParser * W :=
  match option with
  | 0 | 2 => (p, write (set_title data) w)
  | 4 => (p, write (osc_palette data (input_end p)) w)
  | 7 => (p, write (set_path data) w)
  | 8 =>
      let w := write (osc_hyperlink data) w in
      let c := pcell p in
      (with_pcell (mkCellState (with_link (current_hyperlink_id w) (cell c)) (set c) (g0set c) (g1set c)) p, w)
  | 9 => (p, write (osc_notification data) w)
  | 10 => osc_colour_command Foreground osc_fg_colour data p w
  | 11 => osc_colour_command Background osc_bg_colour data p w
  | 12 => osc_colour_command Cursor osc_cursor_colour data p w
  | 52 => (p, write (osc_clipboard data (input_end p)) w)
  | 104 => (p, write (osc_reset_palette data) w)
  | 110 => (reset_osc_colour Foreground p, write osc_reset_fg w)
  | 111 => (reset_osc_colour Background p, write osc_reset_bg w)
  | 112 => (reset_osc_colour Cursor p, write osc_reset_cursor w)
  | 133 => (p, write (osc_shell_integration data) w)
  | _ => (p, w)
  end.

Definition dispatch_osc (p : InputParser) (w : W) : InputParser * W :=
  match input_buf p with
  | [] => (p, w)
  | b :: _ =>
      if negb (is_digit b) then (p, w)
      else
        let '(option, rest) := osc_option 0 (input_buf p) in
        match rest with
        | [] => osc_command option [] p w
        | c :: data =>
            if negb (c =? 59) && negb (c =? 0) then (p, w)
            else osc_command option (from_utf8_lossy (if c =? 59 then data else rest)) p w
        end
  end.

Definition dispatch_dcs (p : InputParser) (w : W) : InputParser * W :=
  let buf := input_buf p in
  if bool_decide (interm p = [36]) && bool_decide (head buf = Some 113)
  then (reply ([27] ++ bytes "P0$r" ++ [27; 92]) p, w)
  else if starts_with (bytes "tmux;") buf then (p, write (dcs_passthrough (drop 5 buf)) w)
  else if (length (interm p) =? 0)%nat && bool_decide (head buf = Some 113)
  then (p, write (sixel_passthrough (param p ++ buf)) w)
  else (p, w).

End Dispatch.

(** ** The parser's loop *)

Section Parse.

Context {W : Type} `{ScreenWriter W}.

Definition exit_state (p : InputParser) (w : W) : InputParser * W :=
  if has_flag p INPUT_DISCARD then (p, w)
  else
    match state p with
    | OscString => dispatch_osc p w
    | ApcString =>
        (p, if is_kitty_graphics_apc (input_buf p) then write (apc_passthrough (input_buf p)) w
            else write (set_title (from_utf8_lossy (input_buf p))) w)
    | RenameString => (p, write (set_window_name (from_utf8_lossy (input_buf p))) w)
    | _ => (p, w)
    end.

Definition set_state (next : InputState) (p : InputParser) (w : W) : InputParser * W :=
  let '(p, w) := exit_state p w in
  (enter_state (with_state next p), w).

Definition stop_utf8 (p : InputParser) (w : W) : InputParser * W :=
  if utf8_started p then
    (with_utf8_expected 0 (with_utf8_buf [] (with_utf8_started false p)),
     write (collect_add replacement_character (pcell p)) w)
  else (p, w).

(** What the parser remembers of a printed character. *)
Definition printed (c : Z) (p : InputParser) : InputParser :=
  set_flag INPUT_LAST (with_printed_in_current_parse true (with_last_char (Some c) p)).

Definition handle_print (p : InputParser) (w : W) : InputParser * W :=
  let '(p, w) := stop_utf8 p w in
  (printed (ch p) p, write (collect_add_with_charset (ch p) (pcell p) (acs p)) w).

(** The first byte of a sequence. *)
Definition start_utf8 (p : InputParser) (w : W) : option (InputParser * W) :=
  let p := with_utf8_buf [] (with_utf8_started true p) in
  let begin expected :=
    buf ← write_array 4 [] (ch p);
    Some (with_utf8_buf buf (with_utf8_expected expected p), w) in
  if Z.land (ch p) 224 =? 192 then begin 2
  else if Z.land (ch p) 240 =? 224 then begin 3
  else if Z.land (ch p) 248 =? 240 then begin 4
  else Some (stop_utf8 p w).

(** All bytes of a sequence are there. *)
Definition complete_utf8 (p : InputParser) (w : W) : InputParser * W :=
  let p := with_utf8_started false p in
  if from_utf8_ok (utf8_buf p) then
    match chars (utf8_buf p) with
    | c :: _ => (printed c p, write (collect_add c (pcell p)) w)
    | [] => (p, write (collect_add replacement_character (pcell p)) w)
    end
  else (p, write (collect_add replacement_character (pcell p)) w).

Definition handle_top_bit_set (p : InputParser) (w : W) : option (InputParser * W) :=
  let p := clear_flag INPUT_LAST p in
  if negb (utf8_started p) then start_utf8 p w
  else if negb (Z.land (ch p) 192 =? 128) then
    let '(p, w) := stop_utf8 p w in
    if 128 <=? ch p then start_utf8 (clear_flag INPUT_LAST p) w else Some (p, w)
  else
    buf ← write_array 4 (utf8_buf p) (ch p);
    let p := with_utf8_buf buf p in
    if Z.of_nat (length buf) <? utf8_expected p then Some (p, w) else Some (complete_utf8 p w).

Definition handle_c0_dispatch (p : InputParser) (w : W) : InputParser * W :=
  let '(p, w) := stop_utf8 p w in
  let '(p, w) := dispatch_c0 p w in
  (clear_flag INPUT_LAST p, w).

Definition handle_esc_dispatch (p : InputParser) (w : W) : InputParser * W :=
  if has_flag p INPUT_DISCARD then (p, w)
  else let '(p, w) := dispatch_esc p w in (clear_flag INPUT_LAST p, w).

Definition handle_csi_dispatch (p : InputParser) (w : W) : InputParser * W :=
  if has_flag p INPUT_DISCARD then (p, w)
  else let '(p, w) := dispatch_csi p w in (clear_flag INPUT_LAST p, w).

Definition handle_dcs_dispatch (p : InputParser) (w : W) : InputParser * W :=
  if has_flag p INPUT_DISCARD then (p, w) else dispatch_dcs p w.

Definition run_handler (h : Handler) (p : InputParser) (w : W) : option (InputParser * W) :=
  match h with
  | HNone => Some (p, w)
  | HPrint => Some (handle_print p w)
  | HC0Dispatch => Some (handle_c0_dispatch p w)
  | HEscDispatch => Some (handle_esc_dispatch p w)
  | HCsiDispatch => Some (handle_csi_dispatch p w)
  | HDcsDispatch => Some (handle_dcs_dispatch p w)
  | HIntermediate => p ← handle_intermediate p; Some (p, w)
  | HParameter => p ← handle_parameter p; Some (p, w)
  | HInput => Some (handle_input p, w)
  | HTopBitSet => handle_top_bit_set p w
  | HEndBel => Some (handle_end_bel p, w)
  end.

(** Bytes outside the ground state are kept for [take_since_ground]. *)
Definition save_since_ground (p : InputParser) : InputParser :=
  if bool_decide (state p <> Ground) && (Z.of_nat (length (since_ground p)) <? input_buf_max p)
  then with_since_ground (since_ground p ++ [ch p]) p else p.

(** Anything but printing ends the collection of characters. *)
Definition end_collection (h : Handler) (w : W) : W :=
  match h with
  | HPrint | HTopBitSet => w
  | _ => write collect_end w
  end.

Definition execute_transition (t : Transition) (p : InputParser) (w : W) : option (InputParser * W) :=
  '(p, w) ← run_handler (transition_handler t) p (end_collection (transition_handler t) w);
  if should_recover_tmux_passthrough_osc_bel p then
    let '(p, w) := handle_dcs_dispatch (with_input_end Bel p) w in
    Some (set_state Ground p w)
  else
    let '(p, w) := match next_state t with Some next => set_state next p w | None => (p, w) end in
    Some (save_since_ground p, w).

(** One byte through the tables. *)
Definition parse_byte (byte : Z) (p : InputParser) (w : W) : option (InputParser * W) :=
  let p := with_ch byte p in
  t ← transition_for_byte (state p) (ch p);
  execute_transition t p w.

Definition is_printable (b : Z) : bool := (32 <=? b) && (b <=? 126).

Fixpoint printable_run (buf : list Z) : list Z * list Z :=
  match buf with
  | b :: rest =>
      if is_printable b then let '(run, rest) := printable_run rest in (b :: run, rest) else ([], buf)
  | [] => ([], [])
  end.

Definition handle_printable_ascii_run (run : list Z) (p : InputParser) (w : W) : InputParser * W :=
  let w := write (collect_add_ascii_run run (pcell p) (acs p)) w in
  let p :=
    match last run with
    | Some b => with_printed_in_current_parse true (with_last_char (Some b) p)
    | None => p
    end in
  (set_flag INPUT_LAST p, w).

(** [None] where the fast path does not apply. *)
Definition handle_ground_c0_fast_path (byte : Z) (p : InputParser) (w : W) : option (InputParser * W) :=
  if (10 <=? byte) && (byte <=? 12) then
    let w := write (linefeed false (bg (cell (pcell p)))) (write collect_end w) in
    let w := if has_mode (current_mode w) MODE_CRLF then write carriage_return w else w in
    Some (clear_flag INPUT_LAST p, w)
  else if byte =? 13 then Some (clear_flag INPUT_LAST p, write carriage_return (write collect_end w))
  else None.

(** One turn of the loop consumes at least a byte, so the length of the buffer
    is enough fuel. *)
Fixpoint parse_loop (fuel : nat) (buf : list Z) (p : InputParser) (w : W) : option (InputParser * W) :=
  match buf, fuel with
  | [], _ => Some (p, w)
  | _ :: _, O => None
  | byte :: rest, S fuel =>
      if bool_decide (state p = Ground) && negb (utf8_started p) then
        match printable_run buf with
        | (run, after) =>
            match run with
            | _ :: _ =>
                let '(p, w) := handle_printable_ascii_run run p w in parse_loop fuel after p w
            | [] =>
                match handle_ground_c0_fast_path byte p w with
                | Some (p, w) => parse_loop fuel rest p w
                | None => '(p, w) ← parse_byte byte p w; parse_loop fuel rest p w
                end
            end
        end
      else '(p, w) ← parse_byte byte p w; parse_loop fuel rest p w
  end.

Definition parse (buf : list Z) (p : InputParser) (w : W) : option (InputParser * W) :=
  parse_loop (length buf) buf (with_printed_in_current_parse false p) w.

End Parse.

(** ** Serializing the colours *)

(** One colour as the sequence that sets it again; colours with control
    characters are left out. *)
Definition colour_ansi (p : InputParser) (slot : OscColourSlot) : list Z :=
  match osc_colour p slot with
  | Some value => if existsb is_control (chars value) then [] else colour_reply slot value St
  | None => []
  end.

Definition recovery_dynamic_colours_ansi (p : InputParser) : list Z :=
  ([27] ++ bytes "]110" ++ [27; 92] ++ [27] ++ bytes "]111" ++ [27; 92] ++ [27] ++ bytes "]112" ++ [27; 92])
  ++ concat (map (colour_ansi p) [Foreground; Background; Cursor]).

(** The parser and the screen after some output. *)
Example parse_example :
  option_map (fun r => (state (fst r), attr (cell (pcell (fst r))), calls (snd r)))
    (parse ([27; 91; 49; 109] ++ [195; 169] ++ [27; 91; 51; 59; 53; 72] ++ bytes "x") new_parser
       (mkRecorder [] 80 24 0 0 0))
  = Some (Ground, 1,
      let c := mkCellState (mkGridCell 1 8 8 8 0) 0 0 0 in
      [collect_end; collect_end; collect_end; collect_end; collect_add 233 c; collect_end; collect_end; collect_end;
       collect_end; collect_end; collect_end; cursor_move 4 2 true; collect_add_with_charset 120 c false]).
Proof. vm_compute. reflexivity. Qed.
