(* ===== verification/InputRendition.v ===== *)
(** * What SGR can make of a cell

    The attributes and colours a control sequence can select, [sgr.rs]: the
    invariant [grid_cell_ok], that SGR keeps it, the fuel of its loop, and what
    plain lists of numbers do. *)

From S2P Require Import Prelude Utf8 InputCell.

(** A colour is one of the eight, the default, a bright one, a palette index or
    an RGB value. *)
Definition colour_ok (c : Z) : Prop :=
  0 <= c <= 8 \/ 90 <= c <= 97 \/ COLOUR_FLAG_256 <= c <= COLOUR_FLAG_256 + 255
  \/ COLOUR_FLAG_RGB <= c <= COLOUR_FLAG_RGB + 16777215.

(** Every attribute SGR knows. *)
Definition SGR_ATTRIBUTES : Z :=
  fold_left Z.lor [BRIGHT; DIM; BLINK; REVERSE; HIDDEN; ITALICS; STRIKETHROUGH; OVERLINE] ALL_UNDERSCORE.

(** At most one style of underline. *)
Definition underline_ok (a : Z) : Prop :=
  Z.land a ALL_UNDERSCORE ∈ [0; UNDERSCORE; UNDERSCORE_2; UNDERSCORE_3; UNDERSCORE_4; UNDERSCORE_5].

Record grid_cell_ok (c : GridCell) : Prop := {
  attr_known : Z.ldiff (attr c) SGR_ATTRIBUTES = 0;
  attr_underline : underline_ok (attr c);
  fg_ok : colour_ok (fg c);
  bg_ok : colour_ok (bg c);
  us_ok : colour_ok (us c)
}.

Lemma default_cell_ok : grid_cell_ok default_cell.
Proof.
  constructor; [reflexivity|unfold underline_ok; simpl; set_solver|..]; left; simpl; unfold COLOUR_DEFAULT; lia.
Qed.

(** ** Bits *)

Lemma ldiff_zero_iff a m : Z.ldiff a m = 0 <-> forall i, 0 <= i -> Z.testbit a i = true -> Z.testbit m i = true.
Proof.
  split.
  - intros H i Hi Ha. assert (Z.testbit (Z.ldiff a m) i = false) as Hb by (rewrite H; apply Z.bits_0).
    rewrite Z.ldiff_spec, Ha in Hb. simpl in Hb. by apply negb_false_iff in Hb.
  - intros H. apply Z.bits_inj'. intros i Hi. rewrite Z.ldiff_spec, Z.bits_0.
    destruct (Z.testbit a i) eqn:Ha; [|done]. simpl. by rewrite (H i Hi Ha).
Qed.

(** Attributes as bits: setting some and clearing others. *)
Lemma attr_known_lor a b m : Z.ldiff a m = 0 -> Z.ldiff b m = 0 -> Z.ldiff (Z.lor a b) m = 0.
Proof.
  rewrite !ldiff_zero_iff. intros Ha Hb i Hi. rewrite Z.lor_spec. intros [?|?]%orb_true_iff; auto.
Qed.

Lemma attr_known_ldiff a b m : Z.ldiff a m = 0 -> Z.ldiff (Z.ldiff a b) m = 0.
Proof.
  rewrite !ldiff_zero_iff. intros Ha i Hi. rewrite Z.ldiff_spec. intros [? _]%andb_true_iff. auto.
Qed.

Lemma underline_set a b : Z.land b ALL_UNDERSCORE = 0 -> underline_ok a -> underline_ok (Z.lor a b).
Proof. unfold underline_ok. intros Hb. by rewrite Z.land_lor_distr_l, Hb, Z.lor_0_r. Qed.

Lemma underline_clear a b : underline_ok a -> Z.land b ALL_UNDERSCORE = 0 -> underline_ok (Z.ldiff a b).
Proof.
  unfold underline_ok. intros Ha Hb.
  assert (Z.land (Z.ldiff a b) ALL_UNDERSCORE = Z.land a ALL_UNDERSCORE) as ->; [|done].
  apply Z.bits_inj'. intros i Hi. rewrite !Z.land_spec, Z.ldiff_spec.
  assert (Z.testbit b i && Z.testbit ALL_UNDERSCORE i = false) as Hi'.
  { rewrite <- Z.land_spec, Hb. apply Z.bits_0. }
  destruct (Z.testbit a i), (Z.testbit b i), (Z.testbit ALL_UNDERSCORE i); done.
Qed.

Lemma underline_none a : Z.land (Z.ldiff a ALL_UNDERSCORE) ALL_UNDERSCORE = 0.
Proof.
  apply Z.bits_inj'. intros i Hi. rewrite Z.land_spec, Z.ldiff_spec, Z.bits_0.
  by destruct (Z.testbit a i), (Z.testbit ALL_UNDERSCORE i).
Qed.

Lemma underline_cleared a : underline_ok (Z.ldiff a ALL_UNDERSCORE).
Proof. unfold underline_ok. rewrite underline_none. set_solver. Qed.

Lemma underline_select a s :
  s ∈ [UNDERSCORE; UNDERSCORE_2; UNDERSCORE_3; UNDERSCORE_4; UNDERSCORE_5] ->
  underline_ok (Z.lor (Z.ldiff a ALL_UNDERSCORE) s).
Proof.
  unfold underline_ok. intros Hs. rewrite Z.land_lor_distr_l, underline_none, Z.lor_0_l.
  rewrite !elem_of_cons, elem_of_nil in Hs. destruct_or! Hs; try done; subst; vm_compute; set_solver.
Qed.

(** ** Colours *)

(** Numbers without common bits add up. *)
Lemma lor_shifted a c k : 0 <= k -> 0 <= c < 2 ^ k -> Z.lor (a * 2 ^ k) c = a * 2 ^ k + c.
Proof.
  intros Hk Hc. assert (Z.land (a * 2 ^ k) c = 0) as H0; [|by rewrite Z.add_nocarry_lxor, Z.lxor_lor].
  apply Z.bits_inj'. intros i Hi.
  rewrite Z.land_spec, Z.bits_0, Z.mul_pow2_bits by lia. destruct (Z.ltb_spec i k).
  - rewrite Z.testbit_neg_r by lia. done.
  - destruct (Z.eq_dec c 0) as [->|]; [by rewrite Z.bits_0, andb_false_r|].
    rewrite (Z.bits_above_log2 c i); [by rewrite andb_false_r|lia|]. apply Z.log2_lt_pow2; [lia|].
    eapply Z.lt_le_trans; [apply Hc|]. apply Z.pow_le_mono_r; lia.
Qed.

Lemma colour_join_rgb_sum r g b :
  0 <= r <= 255 -> 0 <= g <= 255 -> 0 <= b <= 255 ->
  colour_join_rgb r g b = COLOUR_FLAG_RGB + r * 65536 + g * 256 + b.
Proof.
  intros Hr Hg Hb. unfold colour_join_rgb, COLOUR_FLAG_RGB. rewrite !Z.shiftl_mul_pow2 by lia.
  rewrite <- !Z.lor_assoc. change 33554432 with (2 * 2 ^ 24).
  rewrite (lor_shifted g b 8), (lor_shifted r (g * 2 ^ 8 + b) 16), (lor_shifted 2 (r * 2 ^ 16 + (g * 2 ^ 8 + b)) 24) by lia.
  lia.
Qed.

Lemma colour_join_rgb_ok r g b :
  0 <= r <= 255 -> 0 <= g <= 255 -> 0 <= b <= 255 -> colour_ok (colour_join_rgb r g b).
Proof. intros. rewrite colour_join_rgb_sum by done. unfold colour_ok. right. right. right. lia. Qed.

Lemma palette_colour_sum c : 0 <= c <= 255 -> Z.lor c COLOUR_FLAG_256 = COLOUR_FLAG_256 + c.
Proof. intros Hc. rewrite Z.lor_comm. unfold COLOUR_FLAG_256. change 16777216 with (1 * 2 ^ 24). apply lor_shifted; lia. Qed.

Lemma palette_colour_ok c : 0 <= c <= 255 -> colour_ok (Z.lor c COLOUR_FLAG_256).
Proof. intros Hc. rewrite palette_colour_sum by done. unfold colour_ok. lia. Qed.

(** ** SGR keeps cells well formed *)

Lemma with_attr_ok a c :
  grid_cell_ok c -> Z.ldiff a SGR_ATTRIBUTES = 0 -> underline_ok a -> grid_cell_ok (with_attr a c).
Proof. intros []. by constructor. Qed.

Lemma set_bits_ok b c :
  grid_cell_ok c -> Z.ldiff b SGR_ATTRIBUTES = 0 -> Z.land b ALL_UNDERSCORE = 0 -> grid_cell_ok (set_bits b c).
Proof. intros Hc Hb Hu. apply with_attr_ok; [done|apply attr_known_lor|apply underline_set]; by destruct Hc. Qed.

Lemma clear_bits_ok b c :
  grid_cell_ok c -> Z.land b ALL_UNDERSCORE = 0 \/ b = ALL_UNDERSCORE -> grid_cell_ok (clear_bits b c).
Proof.
  intros Hc Hb. apply with_attr_ok; [done|apply attr_known_ldiff; by destruct Hc|].
  destruct Hb as [Hb| ->]; [apply underline_clear; [by destruct Hc|done]|apply underline_cleared].
Qed.

Lemma select_underline_ok s c :
  grid_cell_ok c -> s ∈ [UNDERSCORE; UNDERSCORE_2; UNDERSCORE_3; UNDERSCORE_4; UNDERSCORE_5] ->
  grid_cell_ok (set_bits s (clear_bits ALL_UNDERSCORE c)).
Proof.
  intros Hc Hs. apply with_attr_ok; [apply clear_bits_ok; [done|by right]| |by apply underline_select].
  apply attr_known_lor; [apply attr_known_ldiff; by destruct Hc|].
  rewrite !elem_of_cons, elem_of_nil in Hs. destruct_or! Hs; subst; done.
Qed.

Lemma set_slot_ok n v c : grid_cell_ok c -> colour_ok v -> grid_cell_ok (set_slot n v c).
Proof. intros [] Hv. unfold set_slot. repeat case_match; by constructor. Qed.

Lemma with_fg_ok v c : grid_cell_ok c -> colour_ok v -> grid_cell_ok (with_fg v c).
Proof. intros [] Hv. by constructor. Qed.

Lemma with_bg_ok v c : grid_cell_ok c -> colour_ok v -> grid_cell_ok (with_bg v c).
Proof. intros [] Hv. by constructor. Qed.

Lemma with_us_ok v c : grid_cell_ok c -> colour_ok v -> grid_cell_ok (with_us v c).
Proof. intros [] Hv. by constructor. Qed.

Lemma with_link_ok v c : grid_cell_ok c -> grid_cell_ok (with_link v c).
Proof. intros []. by constructor. Qed.

Lemma reset_keeping_link_ok c : grid_cell_ok (reset_keeping_link c).
Proof. apply with_link_ok, default_cell_ok. Qed.

#[export] Hint Resolve with_fg_ok with_bg_ok with_us_ok with_link_ok reset_keeping_link_ok set_slot_ok
  colour_join_rgb_ok palette_colour_ok default_cell_ok : rmux.

Lemma default_colour_ok : colour_ok COLOUR_DEFAULT.
Proof. left. unfold COLOUR_DEFAULT. lia. Qed.
#[export] Hint Resolve default_colour_ok : rmux.

Lemma sgr_range_ok n c : grid_cell_ok c -> grid_cell_ok (sgr_range n c).
Proof.
  intros Hc. unfold sgr_range.
  repeat case_match; [apply with_fg_ok|apply with_bg_ok|apply with_fg_ok|apply with_bg_ok|]; try done;
    unfold colour_ok, COLOUR_FLAG_256, COLOUR_FLAG_RGB; lia.
Qed.

Lemma sgr_number_ok n c : grid_cell_ok c -> grid_cell_ok (sgr_number n c).
Proof.
  intros Hc. unfold sgr_number.
  repeat (case_match; try (apply sgr_range_ok; done)); auto with rmux;
    first [apply set_bits_ok; [done|reflexivity|reflexivity]
          | apply clear_bits_ok; [done|left; reflexivity] | apply clear_bits_ok; [done|right; reflexivity]
          | apply select_underline_ok; [done|set_solver]].
Qed.

Lemma underscore_style_ok style c : grid_cell_ok c -> grid_cell_ok (underscore_style style (clear_bits ALL_UNDERSCORE c)).
Proof.
  intros Hc. unfold underscore_style.
  repeat case_match; first [apply select_underline_ok; [done|set_solver] | apply clear_bits_ok; [done|by right]].
Qed.

(** ** Colour parameters *)

Lemma parse_digits_range bound ds n : parse_digits bound ds = Some n -> 0 <= n <= bound.
Proof.
  unfold parse_digits. intros H. destruct ds as [|d ds]; [done|].
  case_match eqn:Hd; [|done]. simplify_eq. apply andb_true_iff in Hd as [Hd Hb].
  split; [|lia]. unfold digits_value.
  assert (forall acc l, 0 <= acc -> forallb is_digit l = true -> 0 <= fold_left (fun v d => v * 10 + (d - 48)) l acc) as Hge.
  { intros acc l. revert acc. induction l as [|x l IH]; intros acc Ha Hl; simpl in *; [done|].
    apply andb_true_iff in Hl as [Hx Hl]. apply IH; [|done]. unfold is_digit in Hx. lia. }
  apply Hge; [lia|done].
Qed.

Lemma colon_parts_nonneg room parts vs :
  colon_parts room parts = Some vs -> Forall (fun v => match v with Some v => 0 <= v | None => True end) vs.
Proof.
  revert room vs. induction parts as [|part parts IH]; intros room vs H; simpl in H; [simplify_eq; constructor|].
  destruct room as [|room]; [by destruct part|].
  destruct part as [|b part].
  - destruct (colon_parts room parts) as [rest|] eqn:Hr; simpl in H; [|done]. simplify_eq. constructor; eauto.
  - destruct (parse_i32 (b :: part)) as [v|]; simpl in H; [|done]. case_match eqn:Hv; [done|].
    destruct (colon_parts room parts) as [rest|] eqn:Hr; simpl in H; [|done]. simplify_eq. constructor; eauto. lia.
Qed.

Lemma present_at_nonneg room parts vs i v :
  colon_parts room parts = Some vs -> present_at vs i = Some v -> 0 <= v.
Proof.
  intros H%colon_parts_nonneg. unfold present_at. destruct (vs !! i) as [[x|]|] eqn:Hi; intros; simplify_eq.
  by apply (Forall_lookup_1 _ _ _ _ H) in Hi.
Qed.

Lemma colon_colour_ok room parts vs c : colon_parts room parts = Some vs -> colon_colour vs = Some c -> colour_ok c.
Proof.
  intros Hp Hc. unfold colon_colour in Hc. cbv zeta in Hc.
  repeat first [progress simplify_option_eq | case_match]; rewrite ?orb_false_iff in *; destruct_and?;
    repeat match goal with H : present_at vs _ = Some _ |- _ => apply (present_at_nonneg _ _ _ _ _ Hp) in H end;
    first [apply colour_join_rgb_ok; lia | apply palette_colour_ok; lia].
Qed.

Lemma dispatch_sgr_colon_ok s c : grid_cell_ok c -> grid_cell_ok (dispatch_sgr_colon s c).
Proof.
  intros Hc. unfold dispatch_sgr_colon. destruct (colon_parts 8 (split_on 58 s)) as [vs|] eqn:Hp; [|done].
  repeat (case_match; try done); first [by apply underscore_style_ok | apply set_slot_ok; [done|by eapply colon_colour_ok]].
Qed.

(** Parameters are never negative, and [get] only adds -1. *)
Definition param_ok (t : ParamType) : Prop := match t with Number n => 0 <= n <= i32_max | _ => True end.

Lemma get_range params i minval defval :
  Forall param_ok params -> 0 <= minval -> -1 <= defval -> -1 <= get params i minval defval.
Proof.
  intros Hp Hm Hd. unfold get. repeat case_match; try lia.
  all: apply (Forall_lookup_1 _ _ _ _ Hp) in H; simpl in H; lia.
Qed.

Lemma sgr_colour_ok params n i c : Forall param_ok params -> grid_cell_ok c -> grid_cell_ok (sgr_colour params n i c).1.
Proof.
  intros Hp Hc. unfold sgr_colour. cbv zeta.
  pose proof (get_range params (i + 1) 0 (-1) Hp ltac:(lia) ltac:(lia)).
  pose proof (get_range params (i + 2) 0 (-1) Hp ltac:(lia) ltac:(lia)).
  pose proof (get_range params (i + 3) 0 (-1) Hp ltac:(lia) ltac:(lia)).
  repeat (case_match; try done); simpl; auto with rmux;
    apply set_slot_ok; try done; first [apply palette_colour_ok; lia | apply colour_join_rgb_ok; lia].
Qed.

Lemma sgr_loop_ok fuel params i c : Forall param_ok params -> grid_cell_ok c -> grid_cell_ok (sgr_loop fuel params i c).
Proof.
  intros Hp. revert i c. induction fuel as [|fuel IH]; intros i c Hc; simpl; [done|].
  pose proof (sgr_colour_ok params (get params i 0 0) (S i) c Hp Hc) as Hcol.
  repeat (case_match; try done); simpl in *; eauto using dispatch_sgr_colon_ok, sgr_number_ok.
Qed.

Lemma dispatch_sgr_ok params c : Forall param_ok params -> grid_cell_ok c -> grid_cell_ok (dispatch_sgr params c).
Proof. intros. unfold dispatch_sgr. destruct params; [apply reset_keeping_link_ok|by apply sgr_loop_ok]. Qed.
