(* ===== verification/InputEquiv.v ===== *)
(** * Reading output in pieces

    The parser has a fast path for printable characters and line ends and is
    called with whatever a read returned.  Here: the fast path does what the
    tables do, and cutting the output differently changes nothing but the
    bookkeeping of REP across calls.  The parsers compared agree up to [ch], the
    byte looked at last, which every use sets first, and up to the two flags that
    tell whether a character was printed in the current call. *)

From S2P Require Import Prelude Text Utf8 InputStates InputCell Passthrough ScreenWriter InputTables InputParser.

(** ** Parsers that behave the same *)

Definition mark (printed rebase : bool) (p : InputParser) : InputParser :=
  with_printed_in_current_parse printed (with_recovery_rebase_required rebase p).

(** Equal up to the two flags. *)
Definition same_marks (p q : InputParser) : Prop := mark false false p = mark false false q.

(** Equal up to the flags and the last byte. *)
#[global] Instance parser_equiv : Equiv InputParser := fun p q => same_marks (with_ch 0 p) (with_ch 0 q).

#[global] Instance same_marks_equivalence : Equivalence same_marks.
Proof. split; unfold same_marks; [done|by intros ???|by intros ??? -> ->]. Qed.

#[global] Instance parser_equivalence : Equivalence (≡@{InputParser}).
Proof.
  split; unfold equiv, parser_equiv; [done|by intros ???|].
  intros p q r Hpq Hqr. by etrans.
Qed.

Lemma same_marks_iff p q : same_marks p q <-> exists a b, q = mark a b p.
Proof.
  unfold same_marks. split.
  - intros H. exists (printed_in_current_parse q), (recovery_rebase_required q).
    destruct p, q. unfold mark, with_printed_in_current_parse, with_recovery_rebase_required in *. cbn in *.
    injection H. intros. subst. reflexivity.
  - by intros (a & b & ->).
Qed.

Lemma same_marks_mark a b p : same_marks p (mark a b p).
Proof. done. Qed.

Lemma same_marks_equiv p q : same_marks p q -> p ≡ q.
Proof. intros (a & b & ->)%same_marks_iff. done. Qed.

Lemma equiv_with_ch byte p q : p ≡ q -> same_marks (with_ch byte p) (with_ch byte q).
Proof.
  unfold equiv, parser_equiv, same_marks. intros H.
  change (with_ch byte (mark false false (with_ch 0 p)) = with_ch byte (mark false false (with_ch 0 q))).
  by rewrite H.
Qed.

(** Results of an operation that may panic. *)
Definition same_result {W : Type} : relation (InputParser * W) := prod_relation same_marks (=).
Definition equiv_result {W : Type} : relation (InputParser * W) := prod_relation (≡) (=).

Lemma same_result_equiv {W : Type} (r r' : option (InputParser * W)) :
  option_Forall2 same_result r r' -> option_Forall2 equiv_result r r'.
Proof.
  destruct 1 as [[p w] [q v] [Hpq Hwv]|]; constructor.
  split; [by apply same_marks_equiv|done].
Qed.

(** ** No handler looks at the flags *)

Section Marks.

Context {W : Type} `{ScreenWriter W}.

(** An operation that does the same on parsers that differ in the flags. *)
Definition ignores_marks (h : InputParser -> W -> InputParser * W) : Prop :=
  forall a b p w, same_result (h p w) (h (mark a b p) w).

Lemma ignores_marks_proper h p q w : ignores_marks h -> same_marks p q -> same_result (h p w) (h q w).
Proof. intros Hh (a & b & ->)%same_marks_iff. apply Hh. Qed.

(** The fields a handler looks at are the same in both parsers. *)
Ltac unmark :=
  repeat match goal with
  | |- context [?f (mark ?a ?b ?p)] =>
      match f with
      | ch => change (ch (mark a b p)) with (ch p)
      | state => change (state (mark a b p)) with (state p)
      | interm => change (interm (mark a b p)) with (interm p)
      | param => change (param (mark a b p)) with (param p)
      | pcell => change (pcell (mark a b p)) with (pcell p)
      | saved => change (saved (mark a b p)) with (saved p)
      | param_list => change (param_list (mark a b p)) with (param_list p)
      | input_buf => change (input_buf (mark a b p)) with (input_buf p)
      | input_end => change (input_end (mark a b p)) with (input_end p)
      | last_char => change (last_char (mark a b p)) with (last_char p)
      | utf8_started => change (utf8_started (mark a b p)) with (utf8_started p)
      | utf8_buf => change (utf8_buf (mark a b p)) with (utf8_buf p)
      | utf8_expected => change (utf8_expected (mark a b p)) with (utf8_expected p)
      | osc_colours => change (osc_colours (mark a b p)) with (osc_colours p)
      end
  | |- context [has_flag (mark ?a ?b ?p) ?f] => change (has_flag (mark a b p) f) with (has_flag p f)
  | |- context [osc_colour (mark ?a ?b ?p) ?f] => change (osc_colour (mark a b p) f) with (osc_colour p f)
  | |- context [acs (mark ?a ?b ?p)] => change (acs (mark a b p)) with (acs p)
  end.

Lemma dispatch_c0_marks : ignores_marks dispatch_c0.
Proof. intros a b p w. unfold dispatch_c0. unmark. repeat case_match; done. Qed.

Lemma save_state_marks a b p w : same_marks (save_state p w) (save_state (mark a b p) w).
Proof. done. Qed.

Lemma dispatch_esc_marks : ignores_marks dispatch_esc.
Proof.
  intros a b p w. unfold dispatch_esc. change (ch (mark a b p)) with (ch p). change (interm (mark a b p)) with (interm p).
  destruct (lookup_esc (ch p) (interm p)) as [cmd|]; [|done].
  unfold dispatch_esc_command, restore_state. destruct cmd; split; try done; by destruct p as [].
Qed.

Lemma dispatch_winops_marks : ignores_marks dispatch_winops.
Proof.
  intros a b p w. unfold dispatch_winops. change (param_list (mark a b p)) with (param_list p).
  generalize (S (length (param_list p))), (screen_size_x w), (screen_size_y w), 0%nat. intros fuel sx sy m.
  revert m p w. induction fuel as [|fuel IH]; intros m p w; [done|]. simpl.
  change (param_list (mark a b p)) with (param_list p).
  change (reply ?s (mark a b p)) with (mark a b (reply s p)).
  repeat case_match; first [apply IH | done].
Qed.

Lemma repeat_char_marks n c : ignores_marks (repeat_char n c).
Proof. intros a b p w. unfold repeat_char, note_effective_rep. destruct p. cbn. repeat case_match; done. Qed.

Lemma dispatch_csi_command_marks cmd : ignores_marks (dispatch_csi_command cmd).
Proof.
  intros a b p w. unfold dispatch_csi_command. cbv zeta. unmark.
  destruct cmd; try apply dispatch_winops_marks; try done; repeat case_match; first [apply repeat_char_marks | done].
Qed.

Lemma dispatch_csi_marks : ignores_marks dispatch_csi.
Proof.
  intros a b p w. unfold dispatch_csi. unmark. destruct (split (param p)) as [ok params]. cbv zeta.
  change (with_param_list params (mark a b p)) with (mark a b (with_param_list params p)). unmark.
  repeat case_match; [done|apply dispatch_csi_command_marks|done].
Qed.

Lemma osc_colour_command_marks slot call data : ignores_marks (osc_colour_command slot call data).
Proof.
  intros a b p w. unfold osc_colour_command, answer_osc_colour_query. unmark.
  repeat case_match; simplify_eq; try done. unfold set_osc_colour. case_match; done.
Qed.

Lemma osc_command_marks option data : ignores_marks (osc_command option data).
Proof. intros a b p w. unfold osc_command. unmark. repeat case_match; first [apply osc_colour_command_marks | done]. Qed.

Lemma dispatch_osc_marks : ignores_marks dispatch_osc.
Proof.
  intros a b p w. unfold dispatch_osc. unmark.
  repeat case_match; first [apply osc_command_marks | done].
Qed.

Lemma dispatch_dcs_marks : ignores_marks dispatch_dcs.
Proof. intros a b p w. unfold dispatch_dcs. unmark. repeat case_match; done. Qed.

(** Operations on the parser alone. *)
Definition keeps_marks (f : InputParser -> InputParser) : Prop := forall a b p, same_marks (f p) (f (mark a b p)).

Lemma enter_state_marks : keeps_marks enter_state.
Proof.
  intros a b p. unfold enter_state. unmark. destruct (state p); try done.
  unfold enter_ground. by destruct p as [? ? ? ? ? ? []].
Qed.

Lemma handle_input_marks : keeps_marks handle_input.
Proof.
  intros a b p. unfold handle_input, push_input.
  change (input_buffer_limit (mark a b p)) with (input_buffer_limit p).
  change (is_terminal_passthrough_string (mark a b p)) with (is_terminal_passthrough_string p).
  unmark. repeat case_match; done.
Qed.

Lemma save_since_ground_marks : keeps_marks save_since_ground.
Proof.
  intros a b p. unfold save_since_ground. unmark.
  change (since_ground (mark a b p)) with (since_ground p). change (input_buf_max (mark a b p)) with (input_buf_max p).
  case_match; done.
Qed.

Lemma exit_state_marks : ignores_marks exit_state.
Proof. intros a b p w. unfold exit_state. unmark. repeat case_match; first [apply dispatch_osc_marks | done]. Qed.

(** Composition: what follows an operation sees parsers that agree again. *)
Lemma same_result_bind {B : Type} (R : relation B) (r r' : InputParser * W) (k k' : InputParser -> W -> B) :
  same_result r r' ->
  (forall a b p w, R (k p w) (k' (mark a b p) w)) ->
  R (let '(p, w) := r in k p w) (let '(p, w) := r' in k' p w).
Proof.
  destruct r as [p w], r' as [q v]. intros [(a & b & Hq)%same_marks_iff Hw] Hk. simpl in *. subst. apply Hk.
Qed.

Lemma set_state_marks next : ignores_marks (set_state next).
Proof.
  intros a b p w. unfold set_state. apply same_result_bind; [apply exit_state_marks|].
  intros a' b' p' w'. split; [|done]. simpl. apply (enter_state_marks a' b' (with_state next p')).
Qed.

Lemma stop_utf8_marks : ignores_marks stop_utf8.
Proof. intros a b p w. unfold stop_utf8. unmark. case_match; done. Qed.

Lemma handle_print_marks : ignores_marks handle_print.
Proof. intros a b p w. unfold handle_print. apply same_result_bind; [apply stop_utf8_marks|]. done. Qed.

Lemma handle_c0_dispatch_marks : ignores_marks handle_c0_dispatch.
Proof.
  intros a b p w. unfold handle_c0_dispatch. apply same_result_bind; [apply stop_utf8_marks|].
  intros a' b' p' w'. apply same_result_bind; [apply dispatch_c0_marks|]. done.
Qed.

Lemma handle_dispatch_marks (d : InputParser -> W -> InputParser * W) (after : InputParser -> InputParser) :
  ignores_marks d -> keeps_marks after ->
  ignores_marks (fun p w => if has_flag p INPUT_DISCARD then (p, w) else let '(p, w) := d p w in (after p, w)).
Proof.
  intros Hd Ha a b p w. unmark. case_match; [done|].
  apply same_result_bind; [apply Hd|]. intros a' b' p' w'. split; [apply Ha|done].
Qed.

Lemma handle_dcs_dispatch_marks : ignores_marks handle_dcs_dispatch.
Proof. intros a b p w. unfold handle_dcs_dispatch. unmark. case_match; [done|apply dispatch_dcs_marks]. Qed.

Lemma start_utf8_marks a b p w : option_Forall2 same_result (start_utf8 p w) (start_utf8 (mark a b p) w).
Proof.
  unfold start_utf8. cbv zeta.
  change (with_utf8_buf [] (with_utf8_started true (mark a b p)))
    with (mark a b (with_utf8_buf [] (with_utf8_started true p))).
  unmark. repeat case_match; simpl; constructor; done.
Qed.

Lemma complete_utf8_marks : ignores_marks complete_utf8.
Proof.
  intros a b p w. unfold complete_utf8.
  change (with_utf8_started false (mark a b p)) with (mark a b (with_utf8_started false p)).
  unmark. repeat case_match; done.
Qed.

Lemma handle_top_bit_set_marks a b p w :
  option_Forall2 same_result (handle_top_bit_set p w) (handle_top_bit_set (mark a b p) w).
Proof.
  unfold handle_top_bit_set. cbv zeta.
  change (clear_flag INPUT_LAST (mark a b p)) with (mark a b (clear_flag INPUT_LAST p)). unmark.
  case_match; [apply start_utf8_marks|]. case_match.
  - apply same_result_bind; [apply stop_utf8_marks|]. intros a' b' p' w'. unmark.
    case_match; [apply (start_utf8_marks a' b' (clear_flag INPUT_LAST p'))|by constructor].
  - destruct (write_array _ _ _) as [buf|]; simpl; [|constructor].
    change (with_utf8_buf buf (mark a b ?q)) with (mark a b (with_utf8_buf buf q)). unmark.
    case_match; constructor; [done|apply complete_utf8_marks].
Qed.

Lemma run_handler_marks h a b p w :
  option_Forall2 same_result (run_handler h p w) (run_handler h (mark a b p) w).
Proof.
  destruct h; simpl.
  - by constructor.
  - constructor. apply handle_print_marks.
  - constructor. apply handle_c0_dispatch_marks.
  - constructor. apply (handle_dispatch_marks dispatch_esc (clear_flag INPUT_LAST)); [apply dispatch_esc_marks|done].
  - constructor. apply (handle_dispatch_marks dispatch_csi (clear_flag INPUT_LAST)); [apply dispatch_csi_marks|done].
  - constructor. apply handle_dcs_dispatch_marks.
  - unfold handle_intermediate. unmark. case_match; [by constructor|].
    destruct (write_array _ _ _); simpl; by constructor.
  - unfold handle_parameter. unmark. case_match; [by constructor|].
    destruct (write_array _ _ _); simpl; by constructor.
  - constructor. split; [apply handle_input_marks|done].
  - apply handle_top_bit_set_marks.
  - by constructor.
Qed.

Lemma execute_transition_marks t a b p w :
  option_Forall2 same_result (execute_transition t p w) (execute_transition t (mark a b p) w).
Proof.
  unfold execute_transition. generalize (end_collection (transition_handler t) w). intros w0.
  destruct (run_handler_marks (transition_handler t) a b p w0) as [[p1 w1] [q1 v1] [Hp Hw]|]; simpl; [|constructor].
  simpl in Hp, Hw. subst v1. apply same_marks_iff in Hp as (a1 & b1 & ->).
  change (should_recover_tmux_passthrough_osc_bel (mark a1 b1 p1)) with (should_recover_tmux_passthrough_osc_bel p1).
  case_match.
  - change (with_input_end Bel (mark a1 b1 p1)) with (mark a1 b1 (with_input_end Bel p1)).
    apply same_result_bind; [apply handle_dcs_dispatch_marks|].
    intros. constructor. apply set_state_marks.
  - apply same_result_bind; [case_match; [apply set_state_marks|done]|].
    intros. constructor. split; [apply save_since_ground_marks|done].
Qed.

(** A byte has the same effect on equivalent parsers. *)
Lemma parse_byte_equiv byte p q w :
  p ≡ q -> option_Forall2 same_result (parse_byte byte p w) (parse_byte byte q w).
Proof.
  intros Hpq. unfold parse_byte. cbv zeta.
  destruct (proj1 (same_marks_iff _ _) (equiv_with_ch byte p q Hpq)) as (a & b & ->).
  change (state (mark a b ?r)) with (state r). change (ch (mark a b ?r)) with (ch r).
  destruct (transition_for_byte _ _); simpl; [|constructor]. apply execute_transition_marks.
Qed.

End Marks.

(** ** The tables alone *)

Section Reference.

Context {W : Type} `{ScreenWriter W}.

(** Every byte through the tables, without the fast path. *)
Fixpoint parse_bytes (buf : list Z) (p : InputParser) (w : W) : option (InputParser * W) :=
  match buf with
  | [] => Some (p, w)
  | byte :: rest => '(p, w) ← parse_byte byte p w; parse_bytes rest p w
  end.

#[local] Notation "r ~~ r'" := (option_Forall2 equiv_result r r') (at level 70).

#[local] Instance equiv_result_equivalence : Equivalence (@equiv_result W).
Proof. unfold equiv_result. apply _. Qed.

#[local] Instance results_equivalence : Equivalence (option_Forall2 (@equiv_result W)).
Proof. apply _. Qed.

Lemma parse_bytes_app buf buf' p w :
  parse_bytes (buf ++ buf') p w = '(p, w) ← parse_bytes buf p w; parse_bytes buf' p w.
Proof.
  revert p w. induction buf as [|b buf IH]; intros p w; [done|]. simpl.
  destruct (parse_byte b p w) as [[p' w']|]; [|done]. simpl. apply IH.
Qed.

Lemma parse_bytes_equiv buf p q w : p ≡ q -> parse_bytes buf p w ~~ parse_bytes buf q w.
Proof.
  revert p q w. induction buf as [|b buf IH]; intros p q w Hpq; simpl; [by constructor|].
  destruct (parse_byte_equiv b p q w Hpq) as [[p' w'] [q' v'] [Hp Hw]|]; simpl in *; [|constructor].
  subst. apply IH. by apply same_marks_equiv.
Qed.

(** ** The fast path *)

Lemma printable_run_spec buf run after :
  printable_run buf = (run, after) -> buf = run ++ after /\ forallb is_printable run = true.
Proof.
  revert run after. induction buf as [|b buf IH]; intros run after Heq; simpl in Heq; [by simplify_eq|].
  destruct (is_printable b) eqn:Hb; [|by simplify_eq].
  destruct (printable_run buf) as [run' after'] eqn:Hr. simplify_eq.
  destruct (IH _ _ eq_refl) as [-> Hall]. simpl. by rewrite Hb.
Qed.

Lemma ground_transition_printable b : is_printable b = true -> transition_for_byte Ground b = Some (mkTransition HPrint None).
Proof.
  intros Hb.
  pose (P := fun (_ : InputState) b =>
    negb (is_printable b) || bool_decide (transition_for_byte Ground b = Some (mkTransition HPrint None))).
  assert (P Ground b = true) as HP.
  { apply by_table; [vm_compute; reflexivity|]. unfold is_printable in Hb. lia. }
  unfold P in HP. rewrite Hb in HP. by apply bool_decide_eq_true in HP.
Qed.

Lemma ground_transition_newline b : 10 <= b <= 13 -> transition_for_byte Ground b = Some (mkTransition HC0Dispatch None).
Proof. intros Hb. assert (b = 10 \/ b = 11 \/ b = 12 \/ b = 13) as [->|[->|[->| ->]]] by lia; reflexivity. Qed.

Lemma not_recovering p : state p <> DcsHandler -> should_recover_tmux_passthrough_osc_bel p = false.
Proof. intros Hs. unfold should_recover_tmux_passthrough_osc_bel. by rewrite bool_decide_true. Qed.

Lemma save_since_ground_id p : state p = Ground -> save_since_ground p = p.
Proof. intros Hs. unfold save_since_ground. by rewrite Hs. Qed.

Lemma parse_byte_printable b p w :
  state p = Ground -> utf8_started p = false -> is_printable b = true ->
  parse_byte b p w = Some (printed b (with_ch b p), write (collect_add_with_charset b (pcell p) (acs p)) w).
Proof.
  intros Hs Hu Hb. unfold parse_byte. cbv zeta.
  change (state (with_ch b p)) with (state p). change (ch (with_ch b p)) with b.
  rewrite Hs, ground_transition_printable by done. simpl.
  unfold execute_transition. simpl. unfold handle_print, stop_utf8.
  change (utf8_started (with_ch b p)) with (utf8_started p). rewrite Hu.
  change (ch (with_ch b p)) with b. simpl.
  rewrite not_recovering, save_since_ground_id by (simpl; congruence). done.
Qed.

Lemma parse_bytes_printable run p w :
  state p = Ground -> utf8_started p = false -> forallb is_printable run = true ->
  parse_bytes run p w =
  Some (fold_left (fun p b => printed b (with_ch b p)) run p,
        fold_left (fun w b => write (collect_add_with_charset b (pcell p) (acs p)) w) run w).
Proof.
  revert p w. induction run as [|b run IH]; intros p w Hs Hu Hall; [done|]. simpl in *.
  apply andb_true_iff in Hall as [Hb Hall]. rewrite parse_byte_printable by done. simpl.
  rewrite IH by done. done.
Qed.

Lemma printed_all run b p :
  fold_left (fun p b => printed b (with_ch b p)) (run ++ [b]) p ≡ printed b p.
Proof.
  rewrite fold_left_app. simpl. induction run as [|c run IH] using rev_ind; [done|].
  rewrite fold_left_app. simpl.
  set (q := fold_left (fun p b => printed b (with_ch b p)) run p) in *.
  etrans; [|exact IH]. unfold printed, set_flag. unfold equiv, parser_equiv, same_marks. simpl.
  by rewrite <- Z.lor_assoc, Z.lor_diag.
Qed.

Lemma equiv_ground p q :
  p ≡ q -> state p = state q /\ utf8_started p = utf8_started q /\ pcell p = pcell q /\ acs p = acs q.
Proof.
  unfold equiv, parser_equiv, same_marks. intros H0.
  split; [exact (f_equal state H0)|]. split; [exact (f_equal utf8_started H0)|].
  split; [exact (f_equal pcell H0)|exact (f_equal acs H0)].
Qed.

Lemma c0_fast_path_equiv b p w r :
  state p = Ground -> utf8_started p = false -> handle_ground_c0_fast_path b p w = Some r -> Some r ~~ parse_byte b p w.
Proof.
  intros Hs Hu Hf. unfold handle_ground_c0_fast_path in Hf.
  assert (10 <= b <= 13) as Hb by (destruct ((10 <=? b) && (b <=? 12)) eqn:?; [lia|]; destruct (b =? 13) eqn:?; [lia|done]).
  unfold parse_byte. cbv zeta. change (state (with_ch b p)) with (state p). change (ch (with_ch b p)) with b.
  rewrite Hs, ground_transition_newline by done. simpl. unfold execute_transition. simpl.
  unfold handle_c0_dispatch, stop_utf8. change (utf8_started (with_ch b p)) with (utf8_started p). rewrite Hu.
  unfold dispatch_c0. change (ch (with_ch b p)) with b.
  assert (b = 10 \/ b = 11 \/ b = 12 \/ b = 13) as [->|[->|[->| ->]]] by lia; simpl in *;
    rewrite not_recovering, save_since_ground_id by (simpl; congruence); simplify_eq; constructor; done.
Qed.

(** The parser after a run. *)
Lemma run_parser run p w :
  run <> [] -> (handle_printable_ascii_run run p w).1 ≡ fold_left (fun p b => printed b (with_ch b p)) run p.
Proof. intros Hne. destruct run as [|b run] using rev_ind; [done|]. unfold handle_printable_ascii_run. rewrite last_snoc. symmetry. apply printed_all. Qed.

(** ** Readings

    Reading bytes through the tables, where any run of printable characters in
    the ground state may reach the screen as one call. *)
Inductive reads : list Z -> InputParser -> W -> InputParser -> W -> Prop :=
| reads_end p w : reads [] p w p w
| reads_byte b buf p w p1 w1 p' w' :
    parse_byte b p w = Some (p1, w1) -> reads buf p1 w1 p' w' -> reads (b :: buf) p w p' w'
| reads_run run buf p w p' w' :
    state p = Ground -> utf8_started p = false -> run <> [] -> forallb is_printable run = true ->
    reads buf (fold_left (fun p b => printed b (with_ch b p)) run p) (write (collect_add_ascii_run run (pcell p) (acs p)) w) p' w' ->
    reads (run ++ buf) p w p' w'.

Lemma reads_app a b p w p1 w1 p' w' : reads a p w p1 w1 -> reads b p1 w1 p' w' -> reads (a ++ b) p w p' w'.
Proof.
  induction 1 as [| |run buf p w p1 w1 Hs Hu Hne Hall Hr IH]; intros Hb; [done|simpl; by eapply reads_byte; auto|].
  rewrite <- app_assoc. apply reads_run; auto.
Qed.

Lemma printed_equiv b p q : p ≡ q -> printed b (with_ch b p) ≡ printed b (with_ch b q).
Proof.
  intros (x & y & Hq)%(equiv_with_ch b)%same_marks_iff. rewrite Hq. done.
Qed.

Lemma reads_equiv buf p w p' w' q :
  reads buf p w p' w' -> p ≡ q -> exists q', reads buf q w q' w' /\ p' ≡ q'.
Proof.
  intros Hr. revert q. induction Hr as [|b buf p w p1 w1 p' w' H1 Hr IH|run buf p w p' w' Hs Hu Hne Hall Hr IH]; intros q Hpq.
  - exists q. split; [constructor|done].
  - pose proof (parse_byte_equiv b p q w Hpq) as He. rewrite H1 in He. inversion He as [? [q1 v1] [Hp Hw] E1 E2|]; subst.
    simpl in Hp, Hw. subst v1. destruct (IH q1) as (q' & Hq & He'); [by apply same_marks_equiv|].
    exists q'. split; [by eapply reads_byte; eauto|done].
  - destruct (equiv_ground p q Hpq) as (E1 & E2 & E3 & E4).
    destruct (IH (fold_left (fun p b => printed b (with_ch b p)) run q)) as (q' & Hq & He').
    { clear -Hpq. revert p q Hpq. induction run as [|b run IH]; intros p q Hpq; [done|]. apply IH, printed_equiv, Hpq. }
    exists q'. split; [|done]. apply reads_run; [congruence|congruence|done|done|]. by rewrite <- E3, <- E4.
Qed.

(** What the parser does is a reading. *)
Lemma parse_loop_reads fuel buf p w p' w' :
  parse_loop fuel buf p w = Some (p', w') -> exists p1, reads buf p w p1 w' /\ p' ≡ p1.
Proof.
  assert (forall buf p q w p1 w1, q ≡ p -> reads buf p w p1 w1 -> forall r, r ≡ p1 -> exists q1, reads buf q w q1 w1 /\ r ≡ q1) as Hmove.
  { intros buf0 p0 q0 w0 p1 w1 Hqp Hr r Hrp. destruct (reads_equiv _ _ _ _ _ q0 Hr) as (q1 & H1 & H2); [by symmetry|].
    exists q1. split; [done|]. by etrans. }
  revert buf p w. induction fuel as [|fuel IH]; intros [|b buf] p w Hp; try done; try (injection Hp as <- <-; exists p; split; [constructor|done]).
  cbn [parse_loop] in Hp.
  assert (('(p, w) ← parse_byte b p w; parse_loop fuel buf p w) = Some (p', w') -> exists p1, reads (b :: buf) p w p1 w' /\ p' ≡ p1) as Hslow.
  { destruct (parse_byte b p w) as [[p1 w1]|] eqn:H1; simpl; [|done]. intros (p2 & Hr & He)%IH.
    exists p2. split; [by eapply reads_byte; eauto|done]. }
  case_match eqn:Hfast; [|by apply Hslow]. apply andb_true_iff in Hfast as [Hs%bool_decide_eq_true Hu%negb_true_iff].
  destruct (printable_run (b :: buf)) as [run after] eqn:Hrun. destruct (printable_run_spec _ _ _ Hrun) as [Hsplit Hall].
  destruct run as [|b' run].
  - destruct (handle_ground_c0_fast_path b p w) as [[p0 w0]|] eqn:Hc0; [|by apply Hslow].
    pose proof (c0_fast_path_equiv b p w _ Hs Hu Hc0) as Heq. apply IH in Hp as (p2 & Hr & He).
    destruct (parse_byte b p w) as [[p1 w1]|] eqn:H1; [|by inversion Heq].
    inversion Heq as [? ? [Hp Hw]|]; subst. simpl in Hp, Hw. subst.
    destruct (Hmove _ _ p1 _ _ _ (symmetry Hp) Hr _ He) as (q1 & Hq & Hq'). exists q1. split; [by eapply reads_byte; eauto|done].
  - pose proof (run_parser (b' :: run) p w ltac:(done)) as Hpar.
    destruct (handle_printable_ascii_run (b' :: run) p w) as [p0 w0] eqn:Hh. apply IH in Hp as (p2 & Hr & He). simpl in Hpar.
    destruct (Hmove _ _ _ _ _ _ (symmetry Hpar) Hr _ He) as (q1 & Hq & Hq'). exists q1. split; [|done].
    rewrite Hsplit. apply reads_run; [done|done|done|done|]. assert (w0 = write (collect_add_ascii_run (b' :: run) (pcell p) (acs p)) w) as <-; [|done].
    unfold handle_printable_ascii_run in Hh. congruence.
Qed.

Lemma parse_reads buf p w p' w' : parse buf p w = Some (p', w') -> exists p1, reads buf p w p1 w' /\ p' ≡ p1.
Proof.
  intros (p1 & Hr & He)%parse_loop_reads. destruct (reads_equiv _ _ _ _ _ p Hr) as (q & Hq & He'); [done|].
  exists q. split; [done|]. by etrans.
Qed.

(** One call after the other. *)
Fixpoint parse_all (chunks : list (list Z)) (p : InputParser) (w : W) : option (InputParser * W) :=
  match chunks with
  | [] => Some (p, w)
  | chunk :: chunks => '(p, w) ← parse chunk p w; parse_all chunks p w
  end.

Lemma parse_all_reads chunks p w p' w' :
  parse_all chunks p w = Some (p', w') -> exists p1, reads (concat chunks) p w p1 w' /\ p' ≡ p1.
Proof.
  revert p w. induction chunks as [|chunk chunks IH]; intros p w Hp; [injection Hp as <- <-; exists p; split; [constructor|done]|].
  simpl in *. destruct (parse chunk p w) as [[p1 w1]|] eqn:H1; [|done]. apply parse_reads in H1 as (q1 & Hr1 & He1).
  apply IH in Hp as (p2 & Hr2 & He2). destruct (reads_equiv _ _ _ _ _ q1 Hr2 He1) as (q2 & Hr3 & He3).
  exists q2. split; [by eapply reads_app|]. by etrans.
Qed.

End Reference.

(** ** Screens that take a run character by character *)

Section Characters.

Context {W : Type} (SW : ScreenWriter W).

#[local] Instance one_by_one : ScreenWriter W := by_characters SW.

#[local] Notation "r ~~ r'" := (option_Forall2 equiv_result r r') (at level 70).

#[local] Instance equiv_result_equivalence' : Equivalence (@equiv_result W).
Proof. unfold equiv_result. apply _. Qed.

#[local] Instance results_equivalence' : Equivalence (option_Forall2 (@equiv_result W)).
Proof. apply _. Qed.

(** A run at once is the run byte by byte. *)
Lemma printable_run_equiv run p w :
  state p = Ground -> utf8_started p = false -> forallb is_printable run = true -> run <> [] ->
  Some (handle_printable_ascii_run run p w) ~~ parse_bytes run p w.
Proof.
  intros Hs Hu Hall Hne. rewrite parse_bytes_printable by done. constructor. split; [exact (run_parser run p w Hne)|]. simpl.
  clear. generalize w. induction run as [|b run IH]; intros v; [done|]. apply IH.
Qed.

Lemma parse_loop_equiv fuel buf p w : (length buf <= fuel)%nat -> parse_loop fuel buf p w ~~ parse_bytes buf p w.
Proof.
  revert buf p w. induction fuel as [|fuel IH]; intros [|b buf] p w Hfuel; simpl in Hfuel; try lia; try (by constructor).
  assert (('(p, w) ← parse_byte b p w; parse_loop fuel buf p w) ~~ parse_bytes (b :: buf) p w) as Hslow.
  { simpl. destruct (parse_byte b p w) as [[p' w']|]; simpl; [apply IH; lia|constructor]. }
  cbn [parse_loop]. case_match eqn:Hfast; [|exact Hslow].
  apply andb_true_iff in Hfast as [Hs%bool_decide_eq_true Hu%negb_true_iff].
  destruct (printable_run (b :: buf)) as [run after] eqn:Hrun.
  destruct (printable_run_spec _ _ _ Hrun) as [Hsplit Hall].
  destruct run as [|b' run]; [|].
  - destruct (handle_ground_c0_fast_path b p w) as [[p' w']|] eqn:Hc0; [|exact Hslow].
    pose proof (c0_fast_path_equiv b p w _ Hs Hu Hc0) as Heq. simpl.
    inversion Heq as [? [q v] [Hp Hw] |]; subst. simpl in *. subst.
    etrans; [apply IH; lia|]. by apply parse_bytes_equiv.
  - rewrite Hsplit, parse_bytes_app.
    pose proof (printable_run_equiv (b' :: run) p w Hs Hu Hall ltac:(done)) as Heq.
    destruct (handle_printable_ascii_run (b' :: run) p w) as [p' w'].
    destruct (parse_bytes (b' :: run) p w) as [[q v]|]; [|by inversion Heq].
    inversion Heq as [? ? [Hp Hw] |]; subst. simpl in Hp, Hw. subst.
    cbn -[parse_bytes]. etrans; [apply IH|by apply parse_bytes_equiv].
    apply (f_equal length) in Hsplit. rewrite length_app in Hsplit. simpl in *. lia.
Qed.

Lemma parse_equiv buf p w : parse buf p w ~~ parse_bytes buf p w.
Proof. unfold parse. etrans; [by apply parse_loop_equiv|]. by apply parse_bytes_equiv. Qed.

Lemma parse_all_equiv chunks p w : parse_all chunks p w ~~ parse_bytes (concat chunks) p w.
Proof.
  revert p w. induction chunks as [|chunk chunks IH]; intros p w; [by constructor|]. simpl.
  rewrite parse_bytes_app.
  destruct (parse_equiv chunk p w) as [[p' w'] [q v] [Hp Hw]|]; simpl in *; [|constructor].
  subst. etrans; [apply IH|]. by apply parse_bytes_equiv.
Qed.

Lemma parse_all_at_once chunks p w : parse_all chunks p w ~~ parse (concat chunks) p w.
Proof. etrans; [apply parse_all_equiv|]. symmetry. apply parse_equiv. Qed.

End Characters.


