(* ===== verification/InputInv.v ===== *)
(** * The parser never fails

    The invariant of the terminal parser and that every operation keeps it: the
    buffers stay within their arrays and limits whatever a pane prints, so no
    write is out of range and the memory a pane can claim is bounded; the
    attributes and colours are ones the screen knows; a colour kept for OSC
    queries is short, valid text and not itself a query. *)

From S2P Require Import Prelude Text Utf8 InputStates InputCell Passthrough ScreenWriter InputTables InputParser InputRendition InputEquiv.

(** ** Parameters *)

Lemma parse_i32_range s n : parse_i32 s = Some n -> - (i32_max + 1) <= n <= i32_max.
Proof.
  assert (forall ds, parse_digits i32_max ds = Some n -> - (i32_max + 1) <= n <= i32_max) as Hpos.
  { intros ds Hd%parse_digits_range. machine. }
  unfold parse_i32. repeat (case_match; eauto).
  rewrite fmap_Some. intros (m & Hm%parse_digits_range & ->). machine.
Qed.

Lemma split_part_ok part t : split_part part = Some t -> param_ok t.
Proof.
  unfold split_part. destruct part; [by intros [= <-]|].
  case_match; [by intros [= <-]|]. destruct (parse_i32 _) as [n|] eqn:Hn; [|done].
  apply parse_i32_range in Hn. case_match; [|done]. intros [= <-]. simpl. lia.
Qed.

Lemma split_parts_ok parts l :
  (length l <= PARAM_LIST_MAX)%nat -> Forall param_ok l ->
  (length (split_parts parts l).2 <= PARAM_LIST_MAX)%nat /\ Forall param_ok (split_parts parts l).2.
Proof.
  revert l. induction parts as [|part parts IH]; intros l Hlen Hok; cbn [split_parts]; [done|].
  case_match eqn:Hfull; [done|]. apply Nat.leb_gt in Hfull.
  destruct (split_part part) as [t|] eqn:Ht; [|done]. apply IH.
  - rewrite length_app. simpl. lia.
  - apply Forall_app. split; [done|]. constructor; [|constructor]. by eapply split_part_ok.
Qed.

Lemma split_ok buf : (length (split buf).2 <= PARAM_LIST_MAX)%nat /\ Forall param_ok (split buf).2.
Proof.
  unfold split. destruct buf; [split; [simpl; unfold PARAM_LIST_MAX; lia|constructor]|].
  case_match; [|split; [simpl; unfold PARAM_LIST_MAX; lia|constructor]].
  apply split_parts_ok; [simpl; lia|constructor].
Qed.

(** ** The invariant *)

Record cell_state_ok (c : CellState) : Prop := {
  cell_grid : grid_cell_ok (cell c);
  cell_set : set c = 0 \/ set c = 1;
  cell_g0 : g0set c = 0 \/ g0set c = 1;
  cell_g1 : g1set c = 0 \/ g1set c = 1
}.

(** A colour that is kept. *)
Definition stored_colour_ok (c : option (list Z)) : Prop :=
  match c with
  | Some v => (length v <= OSC_COLOUR_MAX_LEN)%nat /\ from_utf8_ok v = true /\ v <> [63]
  | None => True
  end.

(** [limit] is the largest limit that was ever configured, or the one for
    passthrough payloads. *)
Record parser_ok (limit : Z) (p : InputParser) : Prop := {
  ok_limit : MAX_TERMINAL_PASSTHROUGH_PAYLOAD_BYTES <= limit;
  ok_max : INPUT_BUF_START <= input_buf_max p <= limit;
  ok_interm : (length (interm p) <= INTERM_BUF_MAX - 1)%nat;
  ok_param : (length (param p) <= PARAM_BUF_MAX - 1)%nat;
  ok_params : (length (param_list p) <= PARAM_LIST_MAX)%nat /\ Forall param_ok (param_list p);
  ok_utf8 : utf8_started p = true -> 0 < Z.of_nat (length (utf8_buf p)) < utf8_expected p /\ utf8_expected p <= 4;
  ok_input : Z.of_nat (length (input_buf p)) < limit;
  ok_grown : input_grown p = false -> Z.of_nat (length (input_buf p)) <= INPUT_BUF_START;
  ok_since : Z.of_nat (length (since_ground p)) <= limit;
  ok_ground : state p = Ground -> since_ground p = [];
  ok_cell : cell_state_ok (pcell p);
  ok_saved : cell_state_ok (saved_cell (saved p));
  ok_colours : length (osc_colours p) = 3%nat /\ Forall stored_colour_ok (osc_colours p)
}.

Lemma default_cell_state_ok : cell_state_ok default_cell_state.
Proof. constructor; [apply default_cell_ok|by left..]. Qed.

Lemma new_parser_ok limit : MAX_TERMINAL_PASSTHROUGH_PAYLOAD_BYTES <= limit -> parser_ok limit new_parser.
Proof.
  intros Hl. unfold MAX_TERMINAL_PASSTHROUGH_PAYLOAD_BYTES in *.
  constructor; simpl; try done; unfold INPUT_BUF_START, INPUT_BUF_MAX, MAX_TERMINAL_PASSTHROUGH_PAYLOAD_BYTES; try lia;
    try apply default_cell_state_ok; repeat split; try lia; repeat constructor.
Qed.

(** ** Operations on the parser *)

(** An operation that changes none of the fields the invariant is about. *)
Ltac keeps := intros []; constructor; simpl in *; try done.

Lemma with_reply_buf_ok limit v p : parser_ok limit p -> parser_ok limit (with_reply_buf v p).
Proof. keeps. Qed.

Lemma reply_ok limit s p : parser_ok limit p -> parser_ok limit (reply s p).
Proof. apply with_reply_buf_ok. Qed.

Lemma with_flags_ok limit v p : parser_ok limit p -> parser_ok limit (with_flags v p).
Proof. keeps. Qed.

Lemma set_flag_ok limit f p : parser_ok limit p -> parser_ok limit (set_flag f p).
Proof. apply with_flags_ok. Qed.

Lemma clear_flag_ok limit f p : parser_ok limit p -> parser_ok limit (clear_flag f p).
Proof. apply with_flags_ok. Qed.

Lemma with_pcell_ok limit c p : parser_ok limit p -> cell_state_ok c -> parser_ok limit (with_pcell c p).
Proof. keeps. Qed.

Lemma with_ch_ok limit b p : parser_ok limit p -> parser_ok limit (with_ch b p).
Proof. keeps. Qed.

Lemma with_input_end_ok limit e p : parser_ok limit p -> parser_ok limit (with_input_end e p).
Proof. keeps. Qed.

Lemma note_effective_rep_ok limit p : parser_ok limit p -> parser_ok limit (note_effective_rep p).
Proof. unfold note_effective_rep. case_match; [keeps|done]. Qed.

Lemma printed_ok limit c p : parser_ok limit p -> parser_ok limit (printed c p).
Proof. intros Hp. apply set_flag_ok. revert Hp. keeps. Qed.

Lemma with_printed_ok limit b p : parser_ok limit p -> parser_ok limit (with_printed_in_current_parse b p).
Proof. keeps. Qed.

Lemma with_dropped_ok limit b p : parser_ok limit p -> parser_ok limit (with_passthrough_dropped b p).
Proof. keeps. Qed.

Lemma osc_colours_ok limit slot v p :
  parser_ok limit p -> stored_colour_ok v -> parser_ok limit (with_osc_colours (<[slot_index slot := v]> (osc_colours p)) p).
Proof.
  intros [] Hv. constructor; simpl; try done. rewrite length_insert. split; [tauto|].
  apply Forall_insert; [tauto|done].
Qed.

Lemma set_osc_colour_ok limit slot v p :
  parser_ok limit p -> from_utf8_ok v = true -> v <> [63] -> parser_ok limit (set_osc_colour slot v p).
Proof.
  intros Hp Hv Hq. unfold set_osc_colour. case_match eqn:Hl; [done|]. apply Nat.ltb_ge in Hl. by apply osc_colours_ok.
Qed.

Lemma reset_osc_colour_ok limit slot p : parser_ok limit p -> parser_ok limit (reset_osc_colour slot p).
Proof. intros. by apply osc_colours_ok. Qed.

Lemma clear_ok limit p : parser_ok limit p -> parser_ok limit (clear p).
Proof.
  intros []. unfold MAX_TERMINAL_PASSTHROUGH_PAYLOAD_BYTES in *.
  constructor; simpl; try done; unfold MAX_TERMINAL_PASSTHROUGH_PAYLOAD_BYTES, INPUT_BUF_START; lia.
Qed.

#[export] Hint Resolve reply_ok set_flag_ok clear_flag_ok with_pcell_ok with_ch_ok with_input_end_ok note_effective_rep_ok
  printed_ok with_printed_ok set_osc_colour_ok reset_osc_colour_ok clear_ok with_flags_ok with_dropped_ok : rmux.

(** Entering a state clears what the new state starts from; only the ground
    state forgets the bytes since then. *)
Lemma with_state_ok limit next p : next <> Ground -> parser_ok limit p -> parser_ok limit (with_state next p).
Proof. intros Hn. keeps. Qed.

Lemma enter_ground_ok limit p : parser_ok limit p -> parser_ok limit (enter_ground p).
Proof.
  intros []. unfold enter_ground, MAX_TERMINAL_PASSTHROUGH_PAYLOAD_BYTES in *. simpl.
  case_match; constructor; simpl; try done; unfold MAX_TERMINAL_PASSTHROUGH_PAYLOAD_BYTES, INPUT_BUF_START in *; lia.
Qed.

Lemma enter_ground_state_ok limit p : parser_ok limit p -> parser_ok limit (enter_ground (with_state Ground p)).
Proof.
  intros Hp. pose proof (enter_ground_ok limit p Hp) as Hg. unfold enter_ground in *. simpl in *.
  case_match; destruct Hg; by constructor.
Qed.

Lemma enter_string_ok limit p : parser_ok limit p -> parser_ok limit (enter_string p).
Proof. intros Hp. apply clear_flag_ok. destruct (clear_ok limit p Hp). by constructor. Qed.

#[export] Hint Resolve with_state_ok enter_ground_state_ok enter_string_ok : rmux.

Lemma enter_state_ok limit next p : parser_ok limit p -> parser_ok limit (enter_state (with_state next p)).
Proof. intros Hp. unfold enter_state. simpl. destruct next; auto with rmux. Qed.

Lemma reset_to_ground_ok limit p : parser_ok limit p -> parser_ok limit (reset_to_ground p).
Proof.
  intros Hp. unfold reset_to_ground.
  change (parser_ok limit (enter_ground (with_state Ground (with_flags 0 (clear p))))). auto with rmux.
Qed.

Lemma set_input_buffer_limit_ok limit n p :
  parser_ok limit p -> n <= limit -> parser_ok limit (set_input_buffer_limit n p).
Proof.
  intros [] Hn. constructor; simpl; try done. unfold INPUT_BUF_START, MAX_TERMINAL_PASSTHROUGH_PAYLOAD_BYTES in *. lia.
Qed.

(** ** Collecting bytes *)

Lemma write_array_room capacity bs b : (length bs < capacity)%nat -> write_array capacity bs b = Some (bs ++ [b]).
Proof. intros Hl. unfold write_array. by rewrite (proj2 (Nat.ltb_lt _ _) Hl). Qed.

Lemma handle_intermediate_ok limit p :
  parser_ok limit p -> exists p', handle_intermediate p = Some p' /\ parser_ok limit p'.
Proof.
  intros Hp. unfold handle_intermediate. case_match eqn:Hl; [eexists; split; [done|auto with rmux]|].
  apply Nat.leb_gt in Hl. unfold INTERM_BUF_MAX in *. rewrite write_array_room by lia. simpl.
  eexists. split; [done|]. destruct Hp. constructor; simpl; try done. rewrite length_app. unfold INTERM_BUF_MAX. simpl in *. lia.
Qed.

Lemma handle_parameter_ok limit p :
  parser_ok limit p -> exists p', handle_parameter p = Some p' /\ parser_ok limit p'.
Proof.
  intros Hp. unfold handle_parameter. case_match eqn:Hl; [eexists; split; [done|auto with rmux]|].
  apply Nat.leb_gt in Hl. unfold PARAM_BUF_MAX in *. rewrite write_array_room by lia. simpl.
  eexists. split; [done|]. destruct Hp. constructor; simpl; try done. rewrite length_app. unfold PARAM_BUF_MAX. simpl in *. lia.
Qed.

Lemma push_input_ok limit b p :
  parser_ok limit p -> Z.of_nat (length (input_buf p)) + 1 < limit -> parser_ok limit (push_input b p).
Proof.
  intros [] Hl. unfold push_input. constructor; simpl; try done; rewrite length_app; simpl; [lia|].
  intros [Hg Hs%Z.ltb_ge]%orb_false_iff. exact Hs.
Qed.

Lemma input_buffer_limit_le limit p : parser_ok limit p -> input_buffer_limit p <= limit.
Proof. intros []. unfold input_buffer_limit. case_match; lia. Qed.

Lemma handle_input_ok limit p : parser_ok limit p -> parser_ok limit (handle_input p).
Proof.
  intros Hp. pose proof (input_buffer_limit_le limit p Hp) as Hl. unfold handle_input. cbv zeta.
  destruct (input_buffer_limit p <=? _) eqn:Hfull.
  { apply set_flag_ok. clear Hfull. case_match; auto with rmux. }
  apply Z.leb_gt in Hfull.
  destruct (bool_decide (state p = DcsEscape)); simpl in *; [|apply push_input_ok; [done|lia]].
  destruct (ch p =? 27); simpl in *; [apply push_input_ok; [done|lia]|].
  apply push_input_ok; [apply push_input_ok; [done|lia]|]. simpl. rewrite length_app. simpl. lia.
Qed.

Lemma save_since_ground_ok limit p : parser_ok limit p -> parser_ok limit (save_since_ground p).
Proof.
  intros Hp. unfold save_since_ground. case_match eqn:Hs; [|done].
  apply andb_true_iff in Hs as [Hs%bool_decide_eq_true Hl]. destruct Hp.
  constructor; simpl; try done. rewrite length_app. simpl. lia.
Qed.

#[export] Hint Resolve enter_state_ok handle_input_ok save_since_ground_ok : rmux.

(** ** Dispatch *)

Section Dispatch.

Context {W : Type} `{ScreenWriter W} (limit : Z).

(** An operation keeps the invariant whatever the screen is. *)
Definition keeps_ok (h : InputParser -> W -> InputParser * W) : Prop :=
  forall p w, parser_ok limit p -> parser_ok limit (h p w).1.

Lemma cell_state_with_cell c g :
  cell_state_ok c -> grid_cell_ok g -> cell_state_ok (mkCellState g (InputCell.set c) (g0set c) (g1set c)).
Proof. intros [] Hg. by constructor. Qed.

Lemma dispatch_c0_ok : keeps_ok dispatch_c0.
Proof.
  intros p w Hp. unfold dispatch_c0. destruct (ok_cell _ _ Hp).
  repeat case_match; simpl; try done; apply with_pcell_ok; try done; constructor; simpl; tauto.
Qed.

Lemma save_state_ok p w : parser_ok limit p -> parser_ok limit (save_state p w).
Proof. intros []. by constructor. Qed.

Lemma restore_state_ok : keeps_ok restore_state.
Proof. intros p w Hp. simpl. apply with_pcell_ok; [done|by destruct Hp]. Qed.

Lemma dispatch_esc_ok : keeps_ok dispatch_esc.
Proof.
  intros p w Hp. unfold dispatch_esc. destruct (lookup_esc _ _) as [cmd|]; [|done].
  destruct (ok_cell _ _ Hp) as [Hg ? ? ?].
  destruct cmd; try (by apply (restore_state_ok p w)); simpl; try done; try (by apply save_state_ok); apply with_pcell_ok; try done;
    try (constructor; simpl; tauto). apply default_cell_state_ok.
Qed.

Lemma winops_loop_ok fuel sx sy m : keeps_ok (winops_loop fuel sx sy m).
Proof.
  revert m. induction fuel as [|fuel IH]; intros m p w Hp; [done|]. simpl.
  repeat case_match; try done; apply IH; auto with rmux.
Qed.

Lemma repeat_char_ok n c : keeps_ok (repeat_char n c).
Proof. intros p w Hp. by apply note_effective_rep_ok. Qed.

Lemma dispatch_csi_command_ok cmd : keeps_ok (dispatch_csi_command cmd).
Proof.
  intros p w Hp. destruct (ok_params _ _ Hp) as [_ Hps]. pose proof (ok_cell _ _ Hp) as Hc.
  assert (forall (b : bool) s, parser_ok limit (if b then reply s p else p)) as Hreply by (intros [] s; auto with rmux).
  destruct cmd; try exact Hp; unfold dispatch_csi_command; cbv zeta; cbn [fst]; try apply Hreply.
  - destruct (_ || _); [done|]. destruct (last_char p); [by apply repeat_char_ok|done].
  - apply with_pcell_ok; [done|]. apply cell_state_with_cell; [done|]. apply dispatch_sgr_ok; [done|by destruct Hc].
  - by destruct (negb _).
  - generalize (get (param_list p) 0 0 0). intros n. repeat case_match; auto with rmux.
  - destruct (query_reply _ _); auto with rmux.
  - by apply save_state_ok.
  - by apply winops_loop_ok.
  - by apply (restore_state_ok p w).
Qed.

Lemma dispatch_csi_ok : keeps_ok dispatch_csi.
Proof.
  intros p w Hp. unfold dispatch_csi. pose proof (split_ok (param p)) as Hs.
  destruct (split (param p)) as [ok params]. cbv zeta.
  assert (parser_ok limit (with_param_list params p)) as Hp' by (destruct Hp; by constructor).
  repeat case_match; try done. by apply dispatch_csi_command_ok.
Qed.

Lemma osc_colour_command_ok slot call data :
  from_utf8_ok data = true -> keeps_ok (osc_colour_command slot call data).
Proof.
  intros Hd p w Hp. unfold osc_colour_command, answer_osc_colour_query.
  destruct (bool_decide (data = [63])) eqn:Hq; simpl.
  - destruct (osc_colour p slot); simpl; auto with rmux.
  - apply bool_decide_eq_false in Hq. by apply set_osc_colour_ok.
Qed.

Lemma osc_command_ok option data : from_utf8_ok data = true -> keeps_ok (osc_command option data).
Proof.
  intros Hd p w Hp. unfold osc_command.
  repeat (case_match; try done; try (apply osc_colour_command_ok; done); try (apply reset_osc_colour_ok; done)).
  all: simpl; apply with_pcell_ok; [done|]; apply cell_state_with_cell; [by destruct Hp|]; apply with_link_ok;
    by destruct Hp as [? ? ? ? ? ? ? ? ? ? [] ? ?].
Qed.

Lemma dispatch_osc_ok : keeps_ok dispatch_osc.
Proof.
  intros p w Hp. unfold dispatch_osc. repeat (case_match; try done).
  all: apply osc_command_ok; try done; apply from_utf8_lossy_ok.
Qed.

Lemma dispatch_dcs_ok : keeps_ok dispatch_dcs.
Proof. intros p w Hp. unfold dispatch_dcs. repeat case_match; simpl; auto with rmux. Qed.

(** ** Bytes *)

Lemma exit_state_ok : keeps_ok exit_state.
Proof. intros p w Hp. unfold exit_state. repeat case_match; try done. by apply dispatch_osc_ok. Qed.

Lemma set_state_ok next : keeps_ok (set_state next).
Proof.
  intros p w Hp. unfold set_state. pose proof (exit_state_ok p w Hp). destruct (exit_state p w). simpl. auto with rmux.
Qed.

Lemma stop_utf8_ok : keeps_ok stop_utf8.
Proof. intros p w Hp. unfold stop_utf8. case_match; [|done]. destruct Hp. by constructor. Qed.

Lemma stop_utf8_stopped p w : utf8_started (stop_utf8 p w).1 = false.
Proof. unfold stop_utf8. by case_match. Qed.

(** Starting a character, with or without one that is unfinished. *)
Lemma start_utf8_ok p w :
  parser_ok limit p -> exists p' w', start_utf8 p w = Some (p', w') /\ parser_ok limit p'.
Proof.
  intros []. unfold start_utf8. cbv zeta. rewrite write_array_room by (simpl; lia).
  repeat case_match; simpl; do 2 eexists; (split; [done|]); constructor; simpl; try done; lia.
Qed.

Lemma complete_utf8_ok p w :
  parser_ok limit (with_utf8_started false p) -> parser_ok limit (complete_utf8 p w).1.
Proof. intros Hp. unfold complete_utf8. repeat case_match; simpl; auto with rmux. Qed.

Lemma handle_top_bit_set_ok p w :
  parser_ok limit p -> exists p' w', handle_top_bit_set p w = Some (p', w') /\ parser_ok limit p'.
Proof.
  intros Hp. unfold handle_top_bit_set. cbv zeta. pose proof (clear_flag_ok _ INPUT_LAST _ Hp) as Hc.
  destruct (utf8_started (clear_flag INPUT_LAST p)) eqn:Hu; cbn [negb]; [|by apply start_utf8_ok].
  destruct (negb (Z.land _ _ =? _)).
  - pose proof (stop_utf8_ok (clear_flag INPUT_LAST p) w Hc) as Hs.
    destruct (stop_utf8 (clear_flag INPUT_LAST p) w) as [p1 w1]. simpl in Hs.
    destruct (128 <=? ch p1); [apply start_utf8_ok; auto with rmux|eauto].
  - destruct (ok_utf8 _ _ Hc Hu) as [Hl He].
    rewrite write_array_room by lia. simpl. case_match eqn:Hmore; do 2 eexists; (split; [by rewrite <- surjective_pairing|]).
    + destruct Hc. constructor; simpl; try done. intros _. simpl in *. rewrite length_app in *. simpl in *. apply Z.ltb_lt in Hmore. lia.
    + apply complete_utf8_ok. destruct Hc. by constructor.
Qed.

Lemma handle_print_ok : keeps_ok handle_print.
Proof.
  intros p w Hp. unfold handle_print. pose proof (stop_utf8_ok p w Hp). destruct (stop_utf8 p w). simpl. auto with rmux.
Qed.

Lemma handle_c0_dispatch_ok : keeps_ok handle_c0_dispatch.
Proof.
  intros p w Hp. unfold handle_c0_dispatch. pose proof (stop_utf8_ok p w Hp) as Hs.
  destruct (stop_utf8 p w) as [p1 w1]. pose proof (dispatch_c0_ok p1 w1 Hs). destruct (dispatch_c0 p1 w1).
  simpl. auto with rmux.
Qed.

Lemma handle_esc_dispatch_ok : keeps_ok handle_esc_dispatch.
Proof.
  intros p w Hp. unfold handle_esc_dispatch. pose proof (dispatch_esc_ok p w Hp). destruct (dispatch_esc p w).
  case_match; simpl; auto with rmux.
Qed.

Lemma handle_csi_dispatch_ok : keeps_ok handle_csi_dispatch.
Proof.
  intros p w Hp. unfold handle_csi_dispatch. pose proof (dispatch_csi_ok p w Hp). destruct (dispatch_csi p w).
  case_match; simpl; auto with rmux.
Qed.

Lemma handle_dcs_dispatch_ok : keeps_ok handle_dcs_dispatch.
Proof. intros p w Hp. unfold handle_dcs_dispatch. case_match; [done|by apply dispatch_dcs_ok]. Qed.

(** The result exists and is well formed. *)
Definition total_ok (r : option (InputParser * W)) : Prop := exists p w, r = Some (p, w) /\ parser_ok limit p.

Lemma total_ok_pair r : parser_ok limit r.1 -> total_ok (Some r).
Proof. destruct r as [p w]. by exists p, w. Qed.

Lemma run_handler_ok h p w : parser_ok limit p -> total_ok (run_handler h p w).
Proof.
  intros Hp. destruct h; simpl.
  - by apply total_ok_pair.
  - by apply total_ok_pair, handle_print_ok.
  - by apply total_ok_pair, handle_c0_dispatch_ok.
  - by apply total_ok_pair, handle_esc_dispatch_ok.
  - by apply total_ok_pair, handle_csi_dispatch_ok.
  - by apply total_ok_pair, handle_dcs_dispatch_ok.
  - destruct (handle_intermediate_ok limit p Hp) as (p' & -> & Hp'). by apply total_ok_pair.
  - destruct (handle_parameter_ok limit p Hp) as (p' & -> & Hp'). by apply total_ok_pair.
  - apply total_ok_pair. simpl. auto with rmux.
  - by apply handle_top_bit_set_ok.
  - apply total_ok_pair. simpl. unfold handle_end_bel. auto with rmux.
Qed.

Lemma execute_transition_ok t p w : parser_ok limit p -> total_ok (execute_transition t p w).
Proof.
  intros Hp. unfold execute_transition.
  destruct (run_handler_ok (transition_handler t) p (end_collection (transition_handler t) w) Hp) as (p1 & w1 & -> & Hp1).
  simpl. case_match.
  - pose proof (handle_dcs_dispatch_ok (with_input_end Bel p1) w1 ltac:(auto with rmux)) as Hd.
    destruct (handle_dcs_dispatch _ _) as [p2 w2]. by apply total_ok_pair, set_state_ok.
  - destruct (next_state t) as [next|]; [|apply total_ok_pair; simpl; auto with rmux].
    pose proof (set_state_ok next p1 w1 Hp1). destruct (set_state next p1 w1).
    apply total_ok_pair. simpl. auto with rmux.
Qed.

Lemma parse_byte_ok b p w : 0 <= b <= 255 -> parser_ok limit p -> total_ok (parse_byte b p w).
Proof.
  intros Hb Hp. unfold parse_byte. cbv zeta. destruct (transition_unique (state p) b Hb) as (x & _ & Ht).
  change (state (with_ch b p)) with (state p). change (ch (with_ch b p)) with b. rewrite Ht. simpl.
  apply execute_transition_ok. auto with rmux.
Qed.

Lemma handle_printable_ascii_run_ok run : keeps_ok (handle_printable_ascii_run run).
Proof.
  intros p w Hp. unfold handle_printable_ascii_run. apply set_flag_ok. case_match; [|done]. destruct Hp. by constructor.
Qed.

Lemma handle_ground_c0_ok b p w r : parser_ok limit p -> handle_ground_c0_fast_path b p w = Some r -> parser_ok limit r.1.
Proof. intros Hp. unfold handle_ground_c0_fast_path. repeat case_match; intros [= <-]; simpl; auto with rmux. Qed.

Lemma parse_loop_ok fuel buf p w :
  Forall in_u8 buf -> (length buf <= fuel)%nat -> parser_ok limit p -> total_ok (parse_loop fuel buf p w).
Proof.
  revert buf p w. induction fuel as [|fuel IH]; intros [|b buf] p w Hbuf Hfuel Hp; simpl in Hfuel; try lia;
    try (by apply total_ok_pair).
  apply Forall_cons in Hbuf as Hbuf'. destruct Hbuf' as [Hb Hrest].
  assert (total_ok ('(p, w) ← parse_byte b p w; parse_loop fuel buf p w)) as Hslow.
  { destruct (parse_byte_ok b p w Hb Hp) as (p1 & w1 & -> & Hp1). apply IH; [done|lia|done]. }
  cbn [parse_loop]. case_match; [|exact Hslow].
  destruct (printable_run (b :: buf)) as [run after] eqn:Hrun. destruct run as [|c run].
  - destruct (handle_ground_c0_fast_path b p w) as [[p1 w1]|] eqn:Hc0; [|exact Hslow].
    apply IH; [done|lia|]. by apply (handle_ground_c0_ok b p w (p1, w1)).
  - apply printable_run_spec in Hrun as [Hrun _]. pose proof (handle_printable_ascii_run_ok (c :: run) p w Hp) as Hp1.
    destruct (handle_printable_ascii_run (c :: run) p w) as [p1 w1]. rewrite Hrun in Hbuf.
    apply Forall_app in Hbuf as [_ Hafter]. apply IH; [done| |done].
    apply (f_equal length) in Hrun. rewrite length_app in Hrun. simpl in Hrun. lia.
Qed.

Lemma parse_ok buf p w : Forall in_u8 buf -> parser_ok limit p -> total_ok (parse buf p w).
Proof. intros. unfold parse. apply parse_loop_ok; auto with rmux. Qed.

End Dispatch.

(** ** Everything the server does with a parser *)

Inductive ParserOp : Type :=
| Feed (buf : list Z)
| Limit (n : Z)
| Timer
| TakeReplies
| TakeDropped
| TakeSinceGround
| TakeRebase.

Definition parser_op {W : Type} `{ScreenWriter W} (o : ParserOp) (p : InputParser) (w : W) : option (InputParser * W) :=
  match o with
  | Feed buf => parse buf p w
  | Limit n => Some (set_input_buffer_limit n p, w)
  | Timer => Some (ground_timer_expired p, w)
  | TakeReplies => Some ((take_replies p).2, w)
  | TakeDropped => Some ((take_passthrough_dropped p).2, w)
  | TakeSinceGround => Some ((take_since_ground p).2, w)
  | TakeRebase => Some ((take_recovery_rebase_required p).2, w)
  end.

Fixpoint parser_run {W : Type} `{ScreenWriter W} (ops : list ParserOp) (p : InputParser) (w : W)
  : option (InputParser * W) :=
  match ops with
  | [] => Some (p, w)
  | o :: ops => '(p, w) ← parser_op o p w; parser_run ops p w
  end.

(** Bytes are bytes, and limits stay below the bound. *)
Definition op_ok (limit : Z) (o : ParserOp) : Prop :=
  match o with
  | Feed buf => Forall in_u8 buf
  | Limit n => n <= limit
  | _ => True
  end.

Lemma take_since_ground_ok limit p : parser_ok limit p -> parser_ok limit (take_since_ground p).2.
Proof. intros []. unfold MAX_TERMINAL_PASSTHROUGH_PAYLOAD_BYTES in *. constructor; simpl; try done. lia. Qed.

Lemma parser_op_ok {W : Type} `{ScreenWriter W} limit o p (w : W) :
  op_ok limit o -> parser_ok limit p -> total_ok limit (parser_op o p w).
Proof.
  intros Ho Hp. destruct o; simpl in *.
  - by apply parse_ok.
  - by apply total_ok_pair, set_input_buffer_limit_ok.
  - by apply total_ok_pair, reset_to_ground_ok.
  - by apply total_ok_pair, with_reply_buf_ok.
  - by apply total_ok_pair, with_dropped_ok.
  - by apply total_ok_pair, take_since_ground_ok.
  - apply total_ok_pair. destruct Hp. by constructor.
Qed.

Lemma parser_run_ok {W : Type} `{ScreenWriter W} limit ops p (w : W) :
  Forall (op_ok limit) ops -> parser_ok limit p -> total_ok limit (parser_run ops p w).
Proof.
  revert p w. induction ops as [|o ops IH]; intros p w Hops Hp; [by apply total_ok_pair|].
  apply Forall_cons in Hops as [Ho Hops]. simpl.
  destruct (parser_op_ok limit o p w Ho Hp) as (p1 & w1 & -> & Hp1). by apply IH.
Qed.

(** C3. The parser copes with every byte stream: whatever is fed to a new parser,
    in whatever pieces and with whatever limits and timeouts in between, no array
    is written out of range and no table looked up outside, and the parser stays
    well formed. It holds at most three intermediate and 63 parameter bytes and 24
    parameters, its string buffer and the bytes since the ground state stay below
    the largest limit configured, an unfinished character is shorter than it
    announced, the attributes name at most one underline style and valid colours,
    and a colour kept for queries is valid text of at most 64 bytes. *)
Theorem parser_never_fails {W : Type} `{ScreenWriter W} limit ops (w : W) :
  MAX_TERMINAL_PASSTHROUGH_PAYLOAD_BYTES <= limit -> Forall (op_ok limit) ops ->
  exists p w', parser_run ops new_parser w = Some (p, w') /\ parser_ok limit p.
Proof. intros Hl Hops. apply parser_run_ok; [done|by apply new_parser_ok]. Qed.

Lemma parser_never_fails_witness :
  let w := mkRecorder [] 80 24 0 0 0 in
  let ops := [Feed [27; 93; 49; 48; 59; 114; 101; 100]; Limit 40; Feed [27; 92; 240; 159; 27; 91]; Timer; Feed [255; 65]] in
  (exists p w', parser_run ops new_parser w = Some (p, w') /\ parser_ok 8388608 p)
  /\ (fun r => (state (fst r), osc_colour (fst r) Foreground, last_char (fst r), length (calls (snd r)))) <$> parser_run ops new_parser w
     = Some (Ground, Some [114; 101; 100], Some 65, 16%nat).
Proof.
  split; [|vm_compute; reflexivity].
  apply parser_never_fails; [unfold MAX_TERMINAL_PASSTHROUGH_PAYLOAD_BYTES; lia|].
  repeat constructor; simpl; unfold_machine; lia.
Defined.
