(* ===== verification/InputReplay.v ===== *)
(** * Which sequence the parser is in

    The bytes collected for the sequence the parser is reading, its core, depend
    on the bytes read and not on the screen or on the attributes.  So the bytes
    kept since the ground state, which a client that attaches in the middle of a
    sequence is sent first, bring another parser into the middle of the same
    sequence, and two string terminators end any sequence. *)

From S2P Require Import Prelude Text Utf8 InputStates InputCell Passthrough ScreenWriter InputTables InputParser InputRendition InputEquiv InputInv.

(** ** Flags *)

Lemma land_ldiff_disjoint f a b : Z.land a b = 0 -> Z.land (Z.ldiff f a) b = Z.land f b.
Proof.
  intros Hab. apply Z.bits_inj'. intros i Hi. rewrite !Z.land_spec, Z.ldiff_spec.
  assert (Z.testbit a i && Z.testbit b i = false) as H0 by (rewrite <- Z.land_spec, Hab; apply Z.bits_0).
  destruct (Z.testbit f i), (Z.testbit a i), (Z.testbit b i); done.
Qed.

Lemma land_lor_disjoint f a b : Z.land a b = 0 -> Z.land (Z.lor f a) b = Z.land f b.
Proof. intros Hab. by rewrite Z.land_lor_distr_l, Hab, Z.lor_0_r. Qed.

Lemma land_ldiff_self f a : Z.land (Z.ldiff f a) a = 0.
Proof.
  apply Z.bits_inj'. intros i Hi. rewrite Z.land_spec, Z.ldiff_spec, Z.bits_0.
  by destruct (Z.testbit f i), (Z.testbit a i).
Qed.

Lemma clear_last_discard p : has_flag (clear_flag INPUT_LAST p) INPUT_DISCARD = has_flag p INPUT_DISCARD.
Proof. unfold has_flag. simpl. by rewrite land_ldiff_disjoint. Qed.

Lemma set_last_discard p : has_flag (set_flag INPUT_LAST p) INPUT_DISCARD = has_flag p INPUT_DISCARD.
Proof. unfold has_flag. simpl. by rewrite land_lor_disjoint. Qed.

Lemma set_discard p : has_flag (set_flag INPUT_DISCARD p) INPUT_DISCARD = true.
Proof.
  unfold has_flag. simpl. rewrite Z.land_lor_distr_l, Z.land_diag.
  destruct (Z.eqb_spec (Z.lor (Z.land (flags p) INPUT_DISCARD) INPUT_DISCARD) 0) as [H|]; [|done].
  apply Z.lor_eq_0_iff in H as [_ H]. done.
Qed.

(** ** The core *)

Definition core (p : InputParser) : list Z * Z * InputState * Z * list Z * list Z * list Z * bool * InputEndType :=
  (since_ground p, ch p, state p, input_buf_max p, interm p, param p, input_buf p, has_flag p INPUT_DISCARD, input_end p).

Lemma core_clear_last p : core (clear_flag INPUT_LAST p) = core p.
Proof. unfold core. by rewrite clear_last_discard. Qed.

Lemma core_printed c p : core (printed c p) = core p.
Proof. unfold core, printed. by rewrite set_last_discard. Qed.

Section Core.

Context {W : Type} `{ScreenWriter W}.

Definition keeps_core (h : InputParser -> W -> InputParser * W) : Prop := forall p w, core (h p w).1 = core p.

Lemma dispatch_c0_core : keeps_core dispatch_c0.
Proof. intros p w. unfold dispatch_c0. repeat case_match; done. Qed.

Lemma dispatch_esc_core : keeps_core dispatch_esc.
Proof. intros p w. unfold dispatch_esc. destruct (lookup_esc _ _) as [[]|]; done. Qed.

Lemma winops_loop_core fuel sx sy m : keeps_core (winops_loop fuel sx sy m).
Proof.
  revert m. induction fuel as [|fuel IH]; intros m p w; [done|]. simpl.
  assert (forall m s, core (winops_loop fuel sx sy m (reply s p) w).1 = core p) as Hr by (intros; by rewrite IH).
  repeat case_match; try done; first [apply IH | apply Hr].
Qed.

Lemma repeat_char_core n c : keeps_core (repeat_char n c).
Proof. intros p w. unfold repeat_char, note_effective_rep. simpl. by case_match. Qed.

Lemma dispatch_csi_command_core cmd : keeps_core (dispatch_csi_command cmd).
Proof.
  intros p w.
  assert (forall (b : bool) s, core (if b then reply s p else p) = core p) as Hreply by (by intros []).
  destruct cmd; try reflexivity; unfold dispatch_csi_command; cbv zeta; cbn [fst]; try apply Hreply.
  - destruct (_ || _); [done|]. destruct (last_char p); [by apply repeat_char_core|done].
  - by destruct (negb _).
  - generalize (get (param_list p) 0 0 0). intros n. repeat case_match; done.
  - by destruct (query_reply _ _).
  - apply winops_loop_core.
Qed.

Lemma dispatch_csi_core : keeps_core dispatch_csi.
Proof.
  intros p w. unfold dispatch_csi. destruct (split (param p)) as [ok params]. cbv zeta.
  repeat case_match; try done. apply (dispatch_csi_command_core _ (with_param_list params p)).
Qed.

Lemma osc_colour_command_core slot call data : keeps_core (osc_colour_command slot call data).
Proof.
  intros p w. unfold osc_colour_command, answer_osc_colour_query.
  repeat case_match; simplify_eq; try done; simpl; unfold set_osc_colour; by case_match.
Qed.

Lemma osc_command_core option data : keeps_core (osc_command option data).
Proof. intros p w. unfold osc_command. repeat (case_match; try done; try apply osc_colour_command_core). Qed.

Lemma dispatch_osc_core : keeps_core dispatch_osc.
Proof. intros p w. unfold dispatch_osc. repeat (case_match; try done; try apply osc_command_core). Qed.

Lemma dispatch_dcs_core : keeps_core dispatch_dcs.
Proof. intros p w. unfold dispatch_dcs. repeat case_match; done. Qed.

Lemma exit_state_core : keeps_core exit_state.
Proof. intros p w. unfold exit_state. repeat case_match; try done. apply dispatch_osc_core. Qed.

Lemma stop_utf8_core : keeps_core stop_utf8.
Proof. intros p w. unfold stop_utf8. by case_match. Qed.

Lemma handle_print_core : keeps_core handle_print.
Proof.
  intros p w. unfold handle_print. pose proof (stop_utf8_core p w) as Hs. destruct (stop_utf8 p w). simpl in *.
  by rewrite core_printed.
Qed.

Lemma handle_c0_dispatch_core : keeps_core handle_c0_dispatch.
Proof.
  intros p w. unfold handle_c0_dispatch. pose proof (stop_utf8_core p w) as Hs. destruct (stop_utf8 p w) as [p1 w1].
  pose proof (dispatch_c0_core p1 w1) as Hd. destruct (dispatch_c0 p1 w1). simpl in *. rewrite core_clear_last. by etrans.
Qed.

Lemma handle_esc_dispatch_core : keeps_core handle_esc_dispatch.
Proof.
  intros p w. unfold handle_esc_dispatch. pose proof (dispatch_esc_core p w) as Hd. destruct (dispatch_esc p w).
  case_match; [done|]. simpl in *. by rewrite core_clear_last.
Qed.

Lemma handle_csi_dispatch_core : keeps_core handle_csi_dispatch.
Proof.
  intros p w. unfold handle_csi_dispatch. pose proof (dispatch_csi_core p w) as Hd. destruct (dispatch_csi p w).
  case_match; [done|]. simpl in *. by rewrite core_clear_last.
Qed.

Lemma handle_dcs_dispatch_core : keeps_core handle_dcs_dispatch.
Proof. intros p w. unfold handle_dcs_dispatch. case_match; [done|]. apply dispatch_dcs_core. Qed.

Lemma start_utf8_core p w r : start_utf8 p w = Some r -> core r.1 = core p.
Proof.
  unfold start_utf8. cbv zeta. rewrite write_array_room by (simpl; lia). simpl.
  repeat case_match; intros [= <-]; try done.
Qed.

Lemma complete_utf8_core : keeps_core complete_utf8.
Proof. intros p w. unfold complete_utf8. repeat case_match; simpl; rewrite ?core_printed; done. Qed.

Lemma handle_top_bit_set_core p w r : handle_top_bit_set p w = Some r -> core r.1 = core p.
Proof.
  unfold handle_top_bit_set. cbv zeta. rewrite <- (core_clear_last p). set (q := clear_flag INPUT_LAST p).
  destruct (negb (utf8_started q)); [apply start_utf8_core|]. destruct (negb (Z.land _ _ =? _)).
  - pose proof (stop_utf8_core q w) as Hs. destruct (stop_utf8 q w) as [p1 w1]. simpl in Hs.
    case_match; [|by intros [= <-]].
    intros Hr%start_utf8_core. by rewrite Hr, core_clear_last.
  - destruct (write_array _ _ _) as [buf|]; simpl; [|done]. case_match; intros [= <-]; [done|].
    apply (complete_utf8_core (with_utf8_buf buf q)).
Qed.

(** ** The core after a byte *)

Definition collects (h : Handler) : bool :=
  match h with HIntermediate | HParameter | HInput | HEndBel => true | _ => false end.

Lemma run_handler_keeps h p w r : collects h = false -> run_handler h p w = Some r -> core r.1 = core p.
Proof.
  intros Hh Hr. destruct h; try done; simpl in Hr; [..|by apply handle_top_bit_set_core in Hr]; injection Hr as <-.
  - done.
  - apply handle_print_core.
  - apply handle_c0_dispatch_core.
  - apply handle_esc_dispatch_core.
  - apply handle_csi_dispatch_core.
  - apply handle_dcs_dispatch_core.
Qed.

(** Fields from equal cores. *)
Lemma core_fields p q :
  core p = core q <->
  since_ground p = since_ground q /\ ch p = ch q /\ state p = state q /\ input_buf_max p = input_buf_max q /\ interm p = interm q /\ param p = param q
  /\ input_buf p = input_buf q /\ has_flag p INPUT_DISCARD = has_flag q INPUT_DISCARD /\ input_end p = input_end q.
Proof. unfold core. split; [by intros [= -> -> -> -> -> -> -> -> ->]|by intros (-> & -> & -> & -> & -> & -> & -> & -> & ->)]. Qed.

Lemma core_set_discard p q : core p = core q -> core (set_flag INPUT_DISCARD p) = core (set_flag INPUT_DISCARD q).
Proof. rewrite !core_fields. intros (?&?&?&?&?&?&?&?&?). by rewrite !set_discard. Qed.

Lemma passthrough_core p q : core p = core q -> is_terminal_passthrough_string p = is_terminal_passthrough_string q.
Proof. rewrite core_fields. intros (?&?&Hs&?&Hi&?&Hb&?&?). unfold is_terminal_passthrough_string. by rewrite Hs, Hi, Hb. Qed.

Lemma push_input_core b p q : core p = core q -> core (push_input b p) = core (push_input b q).
Proof. rewrite !core_fields. intros (?&?&?&?&?&?&Hb&?&?). simpl. by rewrite Hb. Qed.

Lemma handle_input_core p q : core p = core q -> core (handle_input p) = core (handle_input q).
Proof.
  intros Hc. unfold handle_input, input_buffer_limit. cbv zeta. rewrite (passthrough_core p q Hc).
  destruct (proj1 (core_fields p q) Hc) as (_ & Hch & Hs & Hm & _ & _ & Hb & Hd & _). rewrite Hs, Hb, Hm, Hch, Hd.
  repeat case_match; auto using push_input_core, core_set_discard.
Qed.

Lemma run_handler_core h p q w v p' w' q' v' :
  core p = core q ->
  run_handler h p w = Some (p', w') -> run_handler h q v = Some (q', v') -> core p' = core q'.
Proof.
  intros Hc Hp Hq. destruct (collects h) eqn:Hh.
  - destruct (proj1 (core_fields p q) Hc) as (Hg & Hch & Hs & Hm & Hi & Hpa & Hb & Hd & He).
    destruct h; try done; simpl in Hp, Hq.
    + unfold handle_intermediate in *. rewrite Hi, Hch in Hp. revert Hp Hq. case_match; simpl; [intros [= <- <-] [= <- <-]; by apply core_set_discard|].
      destruct (write_array _ _ _); simpl; [|done]. intros [= <- <-] [= <- <-]. apply core_fields. repeat split; simpl; congruence || exact Hd.
    + unfold handle_parameter in *. rewrite Hpa, Hch in Hp. revert Hp Hq. case_match; simpl; [intros [= <- <-] [= <- <-]; by apply core_set_discard|].
      destruct (write_array _ _ _); simpl; [|done]. intros [= <- <-] [= <- <-]. apply core_fields. repeat split; simpl; congruence || exact Hd.
    + injection Hp as <- _. injection Hq as <- _. by apply handle_input_core.
    + injection Hp as <- _. injection Hq as <- _. apply core_fields. repeat split; simpl; congruence || exact Hd.
  - apply run_handler_keeps in Hp, Hq; [|done..]. simpl in *. by rewrite Hp, Hq.
Qed.

Lemma recover_core p q :
  core p = core q -> should_recover_tmux_passthrough_osc_bel p = should_recover_tmux_passthrough_osc_bel q.
Proof.
  rewrite core_fields. intros (?&Hch&Hs&?&Hi&?&Hb&?&?).
  unfold should_recover_tmux_passthrough_osc_bel. by rewrite Hch, Hs, Hi, Hb.
Qed.

Lemma clear_core p q : core p = core q -> core (clear p) = core (clear q).
Proof.
  rewrite !core_fields. intros (?&?&?&?&?&?&?&?&?). repeat split; try done; simpl; try congruence.
  unfold has_flag. simpl. by rewrite !land_ldiff_self.
Qed.

Lemma enter_string_core p q : core p = core q -> core (enter_string p) = core (enter_string q).
Proof.
  intros Hc. unfold enter_string. rewrite !core_clear_last.
  change (core (with_ground_timer_active true ?r)) with (core r). by apply clear_core.
Qed.

Lemma enter_state_core p q : core p = core q -> state p <> Ground -> core (enter_state p) = core (enter_state q).
Proof.
  intros Hc Hn. unfold enter_state.
  assert (state q = state p) as -> by (apply core_fields in Hc; symmetry; tauto).
  pose proof (clear_core p q Hc) as H1. pose proof (enter_string_core p q Hc) as H2.
  destruct (state p); assumption || (by destruct Hn).
Qed.

Lemma set_state_core next p q w v :
  core p = core q -> next <> Ground -> core (set_state next p w).1 = core (set_state next q v).1.
Proof.
  intros Hc Hn. unfold set_state. pose proof (exit_state_core p w) as Hp. pose proof (exit_state_core q v) as Hq.
  destruct (exit_state p w) as [p1 w1], (exit_state q v) as [q1 v1]. cbn [fst] in *.
  apply enter_state_core; [|exact Hn]. apply core_fields.
  assert (core p1 = core q1) as (?&?&?&?&?&?&?&?&?)%core_fields by congruence. repeat split; assumption.
Qed.

Lemma set_state_state next p w : state (set_state next p w).1 = next.
Proof.
  unfold set_state. destruct (exit_state p w) as [p1 w1]. simpl. unfold enter_state. simpl.
  destruct next; try done. unfold enter_ground. simpl. by case_match.
Qed.

Lemma save_since_ground_state p : state (save_since_ground p) = state p.
Proof. unfold save_since_ground. by case_match. Qed.

Lemma save_since_ground_core p q : core p = core q -> core (save_since_ground p) = core (save_since_ground q).
Proof.
  intros Hc. destruct (proj1 (core_fields p q) Hc) as (Hg&Hch&Hs&Hm&_). unfold save_since_ground.
  rewrite Hg, Hch, Hs, Hm. case_match; [|done]. revert Hc. rewrite !core_fields. simpl. tauto.
Qed.

(** Parsers in the same sequence stay in the same sequence, or both leave it. *)
Lemma execute_transition_core t p q w v p' w' q' v' :
  core p = core q ->
  execute_transition t p w = Some (p', w') -> execute_transition t q v = Some (q', v') ->
  state p' = state q' /\ (state p' <> Ground -> core p' = core q').
Proof.
  intros Hc Hp Hq. unfold execute_transition in *.
  destruct (run_handler (transition_handler t) p _) as [[p1 w1]|] eqn:Hrp; [|done].
  destruct (run_handler (transition_handler t) q _) as [[q1 v1]|] eqn:Hrq; [|done]. simpl in *.
  pose proof (run_handler_core _ _ _ _ _ _ _ _ _ Hc Hrp Hrq) as H1.
  rewrite <- (recover_core p1 q1 H1) in Hq. destruct (should_recover_tmux_passthrough_osc_bel p1).
  - destruct (handle_dcs_dispatch (with_input_end Bel p1) w1) as [p2 w2],
      (handle_dcs_dispatch (with_input_end Bel q1) v1) as [q2 v2].
    pose proof (set_state_state Ground p2 w2). pose proof (set_state_state Ground q2 v2).
    destruct (set_state Ground p2 w2), (set_state Ground q2 v2).
    injection Hp as <- <-. injection Hq as <- <-. simpl in *. split; congruence.
  - destruct (next_state t) as [next|].
    + pose proof (set_state_state next p1 w1) as Hsp. pose proof (set_state_state next q1 v1) as Hsq.
      pose proof (set_state_core next p1 q1 w1 v1 H1) as Hset.
      destruct (set_state next p1 w1) as [p2 w2], (set_state next q1 v1) as [q2 v2].
      injection Hp as <- <-. injection Hq as <- <-. simpl in *. rewrite !save_since_ground_state.
      split; [congruence|]. intros Hn. apply save_since_ground_core, Hset. congruence.
    + injection Hp as <- <-. injection Hq as <- <-. rewrite !save_since_ground_state.
      split; [apply core_fields in H1; tauto|]. intros _. by apply save_since_ground_core.
Qed.

Lemma parse_byte_core b p q w v p' w' q' v' :
  core p = core q ->
  parse_byte b p w = Some (p', w') -> parse_byte b q v = Some (q', v') ->
  state p' = state q' /\ (state p' <> Ground -> core p' = core q').
Proof.
  intros Hc. unfold parse_byte. cbv zeta.
  assert (core (with_ch b p) = core (with_ch b q)) as Hb by (revert Hc; rewrite !core_fields; simpl; tauto).
  assert (state (with_ch b q) = state (with_ch b p)) as -> by (apply core_fields in Hb; symmetry; tauto).
  change (ch (with_ch b p)) with b. change (ch (with_ch b q)) with b.
  destruct (transition_for_byte _ b) as [t|]; simpl; [|done]. by apply execute_transition_core.
Qed.

(** ** Leaving the ground state *)

(** Only ESC leaves it. *)
Lemma ground_transition b t :
  0 <= b <= 255 -> transition_for_byte Ground b = Some t ->
  (b = 27 /\ t = mkTransition HNone (Some EscEnter))
  \/ (b <> 27 /\ collects (transition_handler t) = false /\ (next_state t = None \/ next_state t = Some Ground)).
Proof.
  intros Hb Ht.
  pose (P := fun (_ : InputState) b =>
    match transition_for_byte Ground b with
    | Some t =>
        if b =? 27 then bool_decide (t = mkTransition HNone (Some EscEnter))
        else negb (collects (transition_handler t)) && bool_decide (next_state t = None \/ next_state t = Some Ground)
    | None => false
    end).
  assert (P Ground b = true) as HP by (apply by_table; [vm_compute; reflexivity|done]).
  unfold P in HP. rewrite Ht in HP. destruct (Z.eqb_spec b 27) as [->|Hne].
  - left. split; [done|]. by apply bool_decide_eq_true in HP.
  - right. apply andb_true_iff in HP as [Hc%negb_true_iff Hn%bool_decide_eq_true]. done.
Qed.

Lemma parse_byte_ground b p w p' w' :
  0 <= b <= 255 -> b <> 27 -> state p = Ground -> parse_byte b p w = Some (p', w') -> state p' = Ground.
Proof.
  intros Hb Hne Hs. unfold parse_byte. cbv zeta. change (state (with_ch b p)) with (state p).
  change (ch (with_ch b p)) with b. rewrite Hs.
  destruct (transition_for_byte Ground b) as [t|] eqn:Ht; simpl; [|done].
  destruct (ground_transition b t Hb Ht) as [[-> _]|(_ & Hc & Hn)]; [done|].
  unfold execute_transition. destruct (run_handler _ _ _) as [[p1 w1]|] eqn:Hr; simpl; [|done].
  apply run_handler_keeps in Hr; [|done]. simpl in Hr.
  assert (state p1 = Ground) as H1 by (apply core_fields in Hr; simpl in Hr; destruct Hr as (_&_&->&_); done).
  rewrite not_recovering by (rewrite H1; done). destruct Hn as [-> | ->].
  - intros [= <- <-]. by rewrite save_since_ground_state.
  - pose proof (set_state_state Ground p1 w1) as Hg. destruct (set_state Ground p1 w1).
    intros [= <- <-]. simpl in Hg. by rewrite save_since_ground_state.
Qed.

(** ESC forgets what was collected before. *)
Lemma parse_byte_escape p w limit :
  parser_ok limit p -> state p = Ground ->
  exists p' w', parse_byte 27 p w = Some (p', w')
    /\ core p' = ([27], 27, EscEnter, input_buf_max p, [], [], [], false, St).
Proof.
  intros Hok Hs. unfold parse_byte. cbv zeta. change (state (with_ch 27 p)) with (state p).
  change (ch (with_ch 27 p)) with 27. rewrite Hs. change (transition_for_byte Ground 27) with (Some (mkTransition HNone (Some EscEnter))).
  simpl. unfold execute_transition. simpl. rewrite not_recovering by (simpl; congruence).
  unfold set_state, exit_state. simpl. rewrite Hs.
  destruct (has_flag (with_ch 27 p) INPUT_DISCARD); do 2 eexists; (split; [reflexivity|]);
    unfold save_since_ground; simpl; pose proof (ok_max _ _ Hok) as Hm; unfold INPUT_BUF_START in Hm;
    rewrite (ok_ground _ _ Hok Hs), (proj2 (Z.ltb_lt 0 _)) by (simpl; lia); unfold core; simpl;
    unfold has_flag; simpl; by rewrite land_ldiff_self.
Qed.

(** ** The bytes since the ground state *)

(** The fields a handler never touches. *)
Definition context (p : InputParser) : list Z * Z * Z := (since_ground p, ch p, input_buf_max p).

Lemma core_context p q : core p = core q -> context p = context q.
Proof. intros (Hg & Hc & _ & Hm & _)%core_fields. unfold context. by rewrite Hg, Hc, Hm. Qed.

Lemma run_handler_context h p w r : run_handler h p w = Some r -> context r.1 = context p.
Proof.
  intros Hr. destruct (collects h) eqn:Hh; [|by apply core_context, (run_handler_keeps h p w)].
  destruct h; try done; simpl in Hr.
  - unfold handle_intermediate in Hr. case_match; [by injection Hr as <-|].
    destruct (write_array _ _ _); [by injection Hr as <-|done].
  - unfold handle_parameter in Hr. case_match; [by injection Hr as <-|].
    destruct (write_array _ _ _); [by injection Hr as <-|done].
  - injection Hr as <-. simpl. unfold handle_input, push_input. repeat case_match; done.
  - by injection Hr as <-.
Qed.

Lemma set_state_context next p w : next <> Ground -> context (set_state next p w).1 = context p.
Proof.
  intros Hn. unfold set_state. pose proof (core_context _ _ (exit_state_core p w)) as Hx.
  destruct (exit_state p w) as [p1 w1]. simpl in *. by destruct next.
Qed.

Lemma parse_byte_since b p w p' w' :
  parse_byte b p w = Some (p', w') -> state p' <> Ground ->
  input_buf_max p' = input_buf_max p
  /\ since_ground p' =
     (if Z.of_nat (length (since_ground p)) <? input_buf_max p then since_ground p ++ [b] else since_ground p).
Proof.
  unfold parse_byte. cbv zeta. destruct (transition_for_byte _ _) as [t|]; simpl; [|done].
  unfold execute_transition. destruct (run_handler _ _ _) as [[p1 w1]|] eqn:Hr; simpl; [|done].
  apply run_handler_context in Hr. simpl in Hr.
  assert (forall p2 : InputParser, context p2 = context (with_ch b p) -> state (save_since_ground p2) <> Ground ->
    input_buf_max (save_since_ground p2) = input_buf_max p
    /\ since_ground (save_since_ground p2) =
       (if Z.of_nat (length (since_ground p)) <? input_buf_max p then since_ground p ++ [b] else since_ground p)) as Hsave.
  { intros p2 [= Hg Hch Hm]. rewrite save_since_ground_state. intros Hs. unfold save_since_ground.
    rewrite bool_decide_true by done. rewrite Hg, Hm, Hch. simpl. case_match; done. }
  destruct (should_recover_tmux_passthrough_osc_bel p1).
  - destruct (handle_dcs_dispatch _ _) as [p2 w2]. pose proof (set_state_state Ground p2 w2) as Hs.
    destruct (set_state Ground p2 w2). intros [= <- <-]. simpl in Hs. congruence.
  - destruct (next_state t) as [next|]; [|intros [= <- <-]; by apply Hsave].
    pose proof (set_state_state next p1 w1) as Hs. pose proof (set_state_context next p1 w1) as Hc.
    destruct (set_state next p1 w1) as [p2 w2]. simpl in *. intros [= <- <-] Hn. apply Hsave; [|done].
    rewrite <- Hr. apply Hc. by rewrite save_since_ground_state, Hs in Hn.
Qed.

(** A parser in the middle of a sequence, all of whose bytes were kept. *)
Definition replayable (p : InputParser) : Prop :=
  state p <> Ground -> Z.of_nat (length (since_ground p)) < input_buf_max p ->
  forall limit q (v : W), parser_ok limit q -> state q = Ground -> input_buf_max q = input_buf_max p ->
  exists q' v', parse_bytes (since_ground p) q v = Some (q', v') /\ core q' = core p /\ parser_ok limit q'.

Lemma parse_byte_replayable b p w p' w' limit :
  0 <= b <= 255 -> parser_ok limit p -> replayable p -> parse_byte b p w = Some (p', w') -> replayable p'.
Proof.
  intros Hb Hok Hrep Hp Hs' Hlen limit' q v Hq Hsq Hmax.
  destruct (parse_byte_since _ _ _ _ _ Hp Hs') as [Hm Hsince]. rewrite Hm in Hlen, Hmax.
  destruct (decide (state p = Ground)) as [Hs|Hs].
  - destruct (decide (b = 27)) as [->|Hne]; [|by destruct (parse_byte_ground _ _ _ _ _ Hb Hne Hs Hp)].
    destruct (parse_byte_escape p w limit Hok Hs) as (p1 & w1 & H1 & Hc1). rewrite Hp in H1. injection H1 as <- <-.
    destruct (parse_byte_escape q v limit' Hq Hsq) as (q1 & v1 & H2 & Hc2).
    destruct (parse_byte_ok limit' 27 q v Hb Hq) as (q2 & v2 & H3 & Hok2). rewrite H2 in H3. injection H3 as <- <-.
    assert (since_ground p' = [27]) as -> by (unfold core in Hc1; congruence).
    exists q1, v1. simpl. rewrite H2. split; [done|]. split; [|done]. by rewrite Hc1, Hc2, Hmax.
  - assert (Z.of_nat (length (since_ground p)) < input_buf_max p) as Hroom.
    { destruct (Z.ltb_spec (Z.of_nat (length (since_ground p))) (input_buf_max p)); [done|]. rewrite Hsince in Hlen. lia. }
    rewrite (proj2 (Z.ltb_lt _ _) Hroom) in Hsince.
    destruct (Hrep Hs Hroom limit' q v Hq Hsq Hmax) as (q1 & v1 & H1 & Hc1 & Hok1).
    destruct (parse_byte_ok limit' b q1 v1 Hb Hok1) as (q2 & v2 & H2 & Hok2).
    exists q2, v2. rewrite Hsince, parse_bytes_app, H1. simpl. rewrite H2. split; [done|]. split; [|done].
    destruct (parse_byte_core b p q1 w v1 p' w' q2 v2 (eq_sym Hc1) Hp H2) as [_ Hc]. symmetry. by apply Hc.
Qed.

Lemma parse_bytes_replayable buf p w p' w' limit :
  Forall in_u8 buf -> parser_ok limit p -> replayable p -> parse_bytes buf p w = Some (p', w') -> replayable p'.
Proof.
  revert p w. induction buf as [|b buf IH]; intros p w Hbuf Hok Hrep; simpl; [by intros [= <- <-]|].
  apply Forall_cons in Hbuf as [Hb Hbuf].
  destruct (parse_byte_ok limit b p w Hb Hok) as (p1 & w1 & H1 & Hok1). rewrite H1. simpl.
  apply IH; [done|done|]. exact (parse_byte_replayable b p w p1 w1 limit Hb Hok Hrep H1).
Qed.

(** Equivalent parsers are in the same sequence. *)
Lemma equiv_fields p q :
  p ≡ q ->
  since_ground p = since_ground q /\ state p = state q /\ input_buf_max p = input_buf_max q /\ interm p = interm q
  /\ param p = param q /\ input_buf p = input_buf q /\ has_flag p INPUT_DISCARD = has_flag q INPUT_DISCARD.
Proof.
  unfold equiv, parser_equiv, same_marks. intros Hpq.
  split; [exact (f_equal since_ground Hpq)|]. split; [exact (f_equal state Hpq)|].
  split; [exact (f_equal input_buf_max Hpq)|]. split; [exact (f_equal interm Hpq)|].
  split; [exact (f_equal param Hpq)|]. split; [exact (f_equal input_buf Hpq)|].
  exact (f_equal (fun p => has_flag p INPUT_DISCARD) Hpq).
Qed.

Lemma parse_bytes_ok limit buf p w : Forall in_u8 buf -> parser_ok limit p -> total_ok limit (parse_bytes buf p w).
Proof.
  revert p w. induction buf as [|b buf IH]; intros p w Hbuf Hok; [by apply total_ok_pair|].
  apply Forall_cons in Hbuf as [Hb Hbuf]. simpl.
  destruct (parse_byte_ok limit b p w Hb Hok) as (p1 & w1 & -> & Hok1). by apply IH.
Qed.

Lemma enter_state_max p : input_buf_max (enter_state p) = input_buf_max p.
Proof. unfold enter_state. destruct (state p); try done; unfold enter_ground; simpl; by case_match. Qed.

Lemma parse_byte_max b p w p' w' : parse_byte b p w = Some (p', w') -> input_buf_max p' = input_buf_max p.
Proof.
  unfold parse_byte. cbv zeta. destruct (transition_for_byte _ _) as [t|]; simpl; [|done].
  unfold execute_transition. destruct (run_handler _ _ _) as [[p1 w1]|] eqn:Hr; simpl; [|done].
  apply run_handler_context in Hr. injection Hr as _ _ Hm.
  assert (forall p2 : InputParser, input_buf_max (save_since_ground p2) = input_buf_max p2) as Hsave
    by (intros p2; unfold save_since_ground; by case_match).
  assert (forall next p2 w2, input_buf_max (set_state next p2 w2).1 = input_buf_max p2) as Hset.
  { intros next p2 w2. unfold set_state. pose proof (exit_state_core p2 w2) as Hx. destruct (exit_state p2 w2) as [p3 w3].
    simpl in *. rewrite enter_state_max. simpl. apply core_fields in Hx. tauto. }
  destruct (should_recover_tmux_passthrough_osc_bel p1).
  - pose proof (handle_dcs_dispatch_core (with_input_end Bel p1) w1) as Hd. destruct (handle_dcs_dispatch _ _) as [p2 w2]. specialize (Hset Ground p2 w2).
    destruct (set_state Ground p2 w2). intros [= <- <-]. simpl in *. apply core_fields in Hd. simpl in Hd. intuition congruence.
  - destruct (next_state t) as [next|]; [|intros [= <- <-]; by rewrite Hsave].
    specialize (Hset next p1 w1). destruct (set_state next p1 w1). intros [= <- <-]. simpl in Hset. rewrite Hsave. congruence.
Qed.

(** ** Screens do not matter for where a parser is *)

(** In the same place of the output: between sequences, or in the same one. *)
Record aligned (p q : InputParser) : Prop := {
  aligned_state : state p = state q;
  aligned_core : state p <> Ground -> core p = core q;
  aligned_max : input_buf_max p = input_buf_max q
}.

Lemma aligned_refl p : aligned p p.
Proof. by constructor. Qed.

Lemma parse_bytes_ground buf p w p' w' :
  Forall in_u8 buf -> Forall (fun b => b <> 27) buf -> state p = Ground -> parse_bytes buf p w = Some (p', w') ->
  state p' = Ground /\ input_buf_max p' = input_buf_max p.
Proof.
  revert p w. induction buf as [|b buf IH]; intros p w Hbuf Hne Hs Hp; [by injection Hp as <- <-|].
  apply Forall_cons in Hbuf as [Hb Hbuf]. apply Forall_cons in Hne as [Hn Hne]. simpl in Hp.
  destruct (parse_byte b p w) as [[p1 w1]|] eqn:H1; [|done]. simpl in Hp.
  pose proof (parse_byte_ground _ _ _ _ _ Hb Hn Hs H1) as Hs1. rewrite <- (parse_byte_max _ _ _ _ _ H1). by apply (IH p1 w1).
Qed.

Lemma printable_bytes run : forallb is_printable run = true -> Forall in_u8 run /\ Forall (fun b => b <> 27) run.
Proof.
  intros Hall. split; apply List.Forall_forall; intros b Hb; rewrite forallb_forall in Hall; apply Hall in Hb;
    unfold is_printable in Hb; unfold_machine; lia.
Qed.

(** A reading, on whatever screen, follows the tables on any other. *)
Lemma reads_aligned limit buf p w p' w' :
  reads buf p w p' w' -> Forall in_u8 buf -> parser_ok limit p ->
  forall limit' q v q' v', parser_ok limit' q -> aligned p q -> parse_bytes buf q v = Some (q', v') -> aligned p' q'.
Proof.
  induction 1 as [p w|b buf p w p1 w1 p' w' H1 Hr IH|run buf p w p' w' Hs Hu Hne Hall Hr IH];
    intros Hbuf Hok limit' q v q' v' Hokq [Hst Hc Hm] Hq.
  - by injection Hq as <- <-.
  - apply Forall_cons in Hbuf as [Hb Hbuf]. simpl in Hq. destruct (parse_byte b q v) as [[q1 v1]|] eqn:H2; [|done]. simpl in Hq.
    destruct (parse_byte_ok limit b p w Hb Hok) as (x & y & E & Hok1). rewrite H1 in E. injection E as <- <-.
    destruct (parse_byte_ok limit' b q v Hb Hokq) as (x & y & E & Hokq1). rewrite H2 in E. injection E as <- <-.
    assert (input_buf_max p1 = input_buf_max q1) as Hm1
      by (rewrite (parse_byte_max _ _ _ _ _ H1), (parse_byte_max _ _ _ _ _ H2); done).
    apply (IH Hbuf Hok1 limit' q1 v1 q' v' Hokq1); [|done]. destruct (decide (state p = Ground)) as [Hg|Hg].
    + assert (state q = Ground) as Hgq by congruence. destruct (decide (b = 27)) as [->|Hn].
      * destruct (parse_byte_escape p w limit Hok Hg) as (x & y & E & C1). rewrite H1 in E. injection E as <- <-.
        destruct (parse_byte_escape q v limit' Hokq Hgq) as (x & y & E & C2). rewrite H2 in E. injection E as <- <-.
        assert (core p1 = core q1) as Hcore by congruence. constructor; [|done|done]. apply core_fields in Hcore. tauto.
      * pose proof (parse_byte_ground _ _ _ _ _ Hb Hn Hg H1). pose proof (parse_byte_ground _ _ _ _ _ Hb Hn Hgq H2).
        constructor; [congruence|congruence|done].
    + destruct (parse_byte_core b p q w v p1 w1 q1 v1 (Hc Hg) H1 H2) as [E1 E2]. by constructor.
  - apply List.Forall_app in Hbuf as [Hrun Hbuf]. destruct (printable_bytes run Hall) as [_ H27].
    rewrite parse_bytes_app in Hq. destruct (parse_bytes run q v) as [[q1 v1]|] eqn:H2; [|done]. simpl in Hq.
    destruct (parse_bytes_ok limit' run q v Hrun Hokq) as (x & y & E & Hokq1). rewrite H2 in E. injection E as <- <-.
    pose proof (parse_bytes_printable run p w Hs Hu Hall) as H1.
    destruct (parse_bytes_ok limit run p w Hrun Hok) as (x & y & E & Hok1). rewrite H1 in E. injection E as <- <-.
    destruct (parse_bytes_ground run p w _ _ Hrun H27 Hs H1) as [G1 M1].
    assert (state q = Ground) as Hgq by congruence. destruct (parse_bytes_ground run q v _ _ Hrun H27 Hgq H2) as [G2 M2].
    apply (IH Hbuf Hok1 limit' q1 v1 q' v' Hokq1); [|done]. constructor; [congruence|intros Hn; by destruct Hn|congruence].
Qed.

Lemma equiv_aligned p q r : p ≡ q -> aligned q r -> state p = state r /\ input_buf_max p = input_buf_max r
  /\ (state p <> Ground -> since_ground p = since_ground r /\ interm p = interm r /\ param p = param r
      /\ input_buf p = input_buf r /\ has_flag p INPUT_DISCARD = has_flag r INPUT_DISCARD).
Proof.
  intros (E1 & E2 & E3 & E4 & E5 & E6 & E7)%equiv_fields [Hs Hc Hm].
  split; [congruence|]. split; [congruence|]. intros Hn. rewrite E2 in Hn. apply Hc in Hn. apply core_fields in Hn.
  intuition congruence.
Qed.

(** The sequence a parser is in. *)
Definition same_place (p q : InputParser) : Prop :=
  state p = state q /\ input_buf_max p = input_buf_max q
  /\ (state p <> Ground -> since_ground p = since_ground q /\ interm p = interm q /\ param p = param q
      /\ input_buf p = input_buf q /\ has_flag p INPUT_DISCARD = has_flag q INPUT_DISCARD).

Lemma parse_all_place limit chunks p w p' w' :
  Forall in_u8 (concat chunks) -> parser_ok limit p -> parse_all chunks p w = Some (p', w') ->
  exists p1 w1, parse_bytes (concat chunks) p w = Some (p1, w1) /\ same_place p' p1.
Proof.
  intros Hbuf Hok (p2 & Hr & He)%parse_all_reads. destruct (parse_bytes_ok limit _ p w Hbuf Hok) as (p1 & w1 & H1 & _).
  exists p1, w1. split; [done|]. apply (equiv_aligned p' p2); [done|].
  exact (reads_aligned limit _ _ _ _ _ Hr Hbuf Hok limit p w p1 w1 Hok (aligned_refl p) H1).
Qed.

Lemma parse_place limit buf p w p' w' :
  Forall in_u8 buf -> parser_ok limit p -> parse buf p w = Some (p', w') ->
  exists p1 w1, parse_bytes buf p w = Some (p1, w1) /\ same_place p' p1.
Proof.
  intros Hbuf Hok Hp. destruct (parse_all_place limit [buf] p w p' w') as (p1 & w1 & H1 & Hs).
  - simpl. by rewrite app_nil_r.
  - done.
  - simpl. by rewrite Hp.
  - simpl in H1. rewrite app_nil_r in H1. by exists p1, w1.
Qed.



Lemma parse_bytes_since_u8 limit buf p w p' w' :
  Forall in_u8 buf -> parser_ok limit p -> Forall in_u8 (since_ground p) -> parse_bytes buf p w = Some (p', w') ->
  Forall in_u8 (since_ground p').
Proof.
  revert p w. induction buf as [|b buf IH]; intros p w Hbuf Hok Hp; simpl; [by intros [= <- <-]|].
  apply Forall_cons in Hbuf as [Hb Hbuf].
  destruct (parse_byte_ok limit b p w Hb Hok) as (p1 & w1 & H1 & Hok1). rewrite H1. simpl. apply IH; [done|done|].
  destruct (decide (state p1 = Ground)) as [Hg|Hg]; [by rewrite (ok_ground _ _ Hok1 Hg)|].
  destruct (parse_byte_since _ _ _ _ _ H1 Hg) as [_ ->]. case_match; [|done]. apply List.Forall_app. by split; [|constructor].
Qed.

(** C21. A client can join in the middle of a sequence: the bytes a parser reports as
    pending, read by any other parser in the ground state, bring it into the same
    state with the same intermediate, parameter and string bytes collected, so both
    continue alike. This holds for every output read since the ground state, as
    long as the sequence is shorter than the limit on what is kept. *)
Theorem pending_bytes_replay buf p w p' w' limit q v :
  Forall in_u8 buf -> parser_ok limit p -> state p = Ground -> parse buf p w = Some (p', w') ->
  state p' <> Ground -> Z.of_nat (length (since_ground p')) < input_buf_max p' ->
  parser_ok limit q -> state q = Ground -> input_buf_max q = input_buf_max p' ->
  exists q' v', parse (pending_bytes p') q v = Some (q', v')
    /\ state q' = state p' /\ interm q' = interm p' /\ param q' = param p' /\ input_buf q' = input_buf p'
    /\ has_flag q' INPUT_DISCARD = has_flag p' INPUT_DISCARD /\ since_ground q' = since_ground p'.
Proof.
  intros Hbuf Hok Hs Hp Hs' Hlen Hq Hsq Hmax.
  destruct (parse_place limit buf p w p' w' Hbuf Hok Hp) as (p1 & w1 & Hp1 & (Hst & Hm & Hcol)).
  destruct (Hcol Hs') as (Hg & Hi & Hpa & Hb & Hd).
  assert (replayable p1) as Hrep.
  { apply (parse_bytes_replayable buf p w p1 w1 limit Hbuf Hok); [by intros Hng|done]. }
  destruct (Hrep ltac:(congruence) ltac:(congruence) limit q v Hq Hsq ltac:(congruence)) as (q1 & v1 & H1 & Hc1 & _).
  apply core_fields in Hc1.
  assert (Forall in_u8 (since_ground p1)) as Hsince.
  { apply (parse_bytes_since_u8 limit buf p w p1 w1); try done. by rewrite (ok_ground _ _ Hok Hs). }
  unfold pending_bytes. rewrite bool_decide_true by done. rewrite Hg.
  destruct (parse_ok limit _ q v Hsince Hq) as (q' & v' & Hpq & _).
  destruct (parse_place limit _ q v q' v' Hsince Hq Hpq) as (q2 & v2 & H2 & (Hst' & _ & Hcol')).
  rewrite H1 in H2. injection H2 as <- <-.
  exists q', v'. split; [done|]. destruct Hcol' as (? & ? & ? & ? & ?); [destruct Hc1 as (_ & _ & ? & _); congruence|].
  intuition congruence.
Qed.

(** ** Getting back to the ground state *)

Lemma run_handler_state h p w r : run_handler h p w = Some r -> state r.1 = state p.
Proof.
  intros Hr. destruct (collects h) eqn:Hh.
  - destruct h; try done; simpl in Hr.
    + unfold handle_intermediate in Hr. case_match; [by injection Hr as <-|].
      destruct (write_array _ _ _); [by injection Hr as <-|done].
    + unfold handle_parameter in Hr. case_match; [by injection Hr as <-|].
      destruct (write_array _ _ _); [by injection Hr as <-|done].
    + injection Hr as <-. simpl. unfold handle_input, push_input. repeat case_match; done.
    + by injection Hr as <-.
  - apply run_handler_keeps, core_fields in Hr; [|done]. tauto.
Qed.

(** The next state is the table's, but for the BEL that ends a wrapped OSC. *)
Lemma parse_byte_state b p w p' w' :
  b <> 7 -> parse_byte b p w = Some (p', w') ->
  state p' = default (state p) (t ← transition_for_byte (state p) b; next_state t).
Proof.
  intros Hb. unfold parse_byte. cbv zeta. change (state (with_ch b p)) with (state p). change (ch (with_ch b p)) with b.
  destruct (transition_for_byte (state p) b) as [t|]; simpl; [|done].
  unfold execute_transition. destruct (run_handler _ _ _) as [[p1 w1]|] eqn:Hr; simpl; [|done].
  apply run_handler_context in Hr as Hc. apply run_handler_state in Hr as Hs. simpl in Hs, Hc.
  assert (should_recover_tmux_passthrough_osc_bel p1 = false) as ->.
  { unfold should_recover_tmux_passthrough_osc_bel. injection Hc as _ -> _. simpl.
    rewrite (proj2 (Z.eqb_neq b 7) Hb). simpl. by rewrite orb_true_r. }
  destruct (next_state t) as [next|].
  - pose proof (set_state_state next p1 w1) as Hn. destruct (set_state next p1 w1). intros [= <- <-].
    by rewrite save_since_ground_state.
  - intros [= <- <-]. by rewrite save_since_ground_state.
Qed.

(** The state after some bytes without BEL. *)
Definition table_state (s : InputState) (buf : list Z) : InputState :=
  fold_left (fun s b => default s (t ← transition_for_byte s b; next_state t)) buf s.

Lemma parse_bytes_state buf p w p' w' :
  Forall (fun b => b <> 7) buf -> parse_bytes buf p w = Some (p', w') -> state p' = table_state (state p) buf.
Proof.
  revert p w. induction buf as [|b buf IH]; intros p w Hbuf; simpl; [by intros [= <- <-]|].
  apply Forall_cons in Hbuf as [Hb Hbuf]. destruct (parse_byte b p w) as [[p1 w1]|] eqn:H1; simpl; [|done].
  intros Hp. rewrite (IH _ _ Hbuf Hp), (parse_byte_state _ _ _ _ _ Hb H1). done.
Qed.

Lemma parse_state buf limit p w :
  Forall in_u8 buf -> Forall (fun b => b <> 7) buf -> parser_ok limit p ->
  exists p' w', parse buf p w = Some (p', w') /\ state p' = table_state (state p) buf.
Proof.
  intros Hbuf Hbel Hok. destruct (parse_ok limit buf p w Hbuf Hok) as (p' & w' & Hp & _). exists p', w'. split; [done|].
  destruct (parse_place limit buf p w p' w' Hbuf Hok Hp) as (p1 & w1 & H1 & Hs & _). rewrite Hs. by eapply parse_bytes_state.
Qed.

(** C22. The parser always gets back: whatever sequence it is in, two string
    terminators return it to the ground state, and outside a DCS string one CAN
    or SUB does. *)
Theorem parser_resynchronises limit p w :
  parser_ok limit p ->
  (exists p' w', parse [27; 92; 27; 92] p w = Some (p', w') /\ state p' = Ground)
  /\ (forall b, b = 24 \/ b = 26 -> state p <> DcsHandler -> state p <> DcsEscape ->
      exists p' w', parse [b] p w = Some (p', w') /\ state p' = Ground).
Proof.
  intros Hok. split.
  - destruct (parse_state [27; 92; 27; 92] limit p w) as (p' & w' & Hp & Hs); [repeat constructor; unfold_machine; lia| |done|].
    + repeat constructor; lia.
    + exists p', w'. split; [done|]. rewrite Hs. by destruct (state p).
  - intros b Hb Hh He. destruct (parse_state [b] limit p w) as (p' & w' & Hp & Hs);
      [repeat constructor; unfold_machine; lia|repeat constructor; lia|done|].
    exists p', w'. split; [done|]. rewrite Hs. by destruct Hb as [-> | ->], (state p).
Qed.

End Core.

Definition bold_parser : InputParser := with_pcell (mkCellState (set_bits BRIGHT default_cell) 0 0 0) new_parser.

Lemma fresh_parser_ok : parser_ok 8388608 new_parser.
Proof. apply new_parser_ok. unfold MAX_TERMINAL_PASSTHROUGH_PAYLOAD_BYTES. lia. Qed.

Lemma bold_parser_ok : parser_ok 8388608 bold_parser.
Proof.
  apply with_pcell_ok; [apply fresh_parser_ok|]. constructor; simpl; try tauto.
  apply set_bits_ok; try reflexivity. apply default_cell_ok.
Qed.


Lemma pending_bytes_replay_witness :
  exists p' w' q' v', parse [65; 27; 91; 51; 49; 59] bold_parser screen = Some (p', w')
    /\ pending_bytes p' = [27; 91; 51; 49; 59] /\ state p' = CsiParameter /\ param p' = [51; 49; 59]
    /\ parse (pending_bytes p') new_parser screen = Some (q', v') /\ state q' = state p' /\ param q' = param p'.
Proof.
  destruct (parse [65; 27; 91; 51; 49; 59] bold_parser screen) as [[p' w']|] eqn:Hp; [|vm_compute in Hp; discriminate Hp].
  assert (Forall in_u8 [65; 27; 91; 51; 49; 59]) as Hu by (repeat constructor; unfold_machine; lia).
  pose proof (pending_bytes_replay [65; 27; 91; 51; 49; 59] bold_parser screen p' w' 8388608 new_parser screen
                Hu bold_parser_ok eq_refl Hp) as Hr.
  vm_compute in Hp. injection Hp as <- <-.
  destruct (Hr ltac:(done) ltac:(done) fresh_parser_ok eq_refl eq_refl) as (q' & v' & Hq & Hs & _ & Hpa & _).
  do 2 eexists. exists q', v'. split; [vm_compute; reflexivity|]. do 3 (split; [reflexivity|]).
  split; [exact Hq|]. split; [exact Hs|exact Hpa].
Defined.

Lemma parser_resynchronises_witness :
  let p := with_state DcsEscape new_parser in
  (exists p' w', parse [27; 92; 27; 92] p screen = Some (p', w') /\ state p' = Ground)
  /\ (fun r => state (fst r)) <$> parse [27; 92] p screen = Some DcsHandler.
Proof.
  split; [|vm_compute; reflexivity].
  apply (parser_resynchronises 8388608). apply with_state_ok; [done|]. apply fresh_parser_ok.
Defined.
