(* ===== verification/InputText.v ===== *)
(** * What output means

    Printed text, control sequences and colour settings from their bytes to
    their effect: text reaches the screen character by character, a control
    sequence is dispatched with the parameters it was written with, and the
    colours a parser serializes for another one arrive there. *)

From S2P Require Import Prelude Text Utf8 InputStates InputCell Passthrough ScreenWriter InputTables InputParser InputRendition InputEquiv InputInv InputReplay.

(** ** Kinds of bytes *)

(** The masks the parser tests bytes with, as ranges. *)
Lemma byte_masks b :
  0 <= b <= 255 ->
  (Z.land b 224 =? 192) = ((192 <=? b) && (b <=? 223))
  /\ (Z.land b 240 =? 224) = ((224 <=? b) && (b <=? 239))
  /\ (Z.land b 248 =? 240) = ((240 <=? b) && (b <=? 247))
  /\ (Z.land b 192 =? 128) = is_continuation b.
Proof.
  intros Hb.
  pose (P := fun (_ : InputState) b =>
    Bool.eqb (Z.land b 224 =? 192) ((192 <=? b) && (b <=? 223))
    && (Bool.eqb (Z.land b 240 =? 224) ((224 <=? b) && (b <=? 239))
    && (Bool.eqb (Z.land b 248 =? 240) ((240 <=? b) && (b <=? 247))
    && Bool.eqb (Z.land b 192 =? 128) (is_continuation b)))).
  assert (P Ground b = true) as HP by (apply by_table; [vm_compute; reflexivity|done]).
  unfold P in HP. apply andb_true_iff in HP as [H1%eqb_prop HP]. apply andb_true_iff in HP as [H2%eqb_prop HP].
  apply andb_true_iff in HP as [H3%eqb_prop H4%eqb_prop]. done.
Qed.

Lemma ground_transition_high b :
  128 <= b <= 255 -> transition_for_byte Ground b = Some (mkTransition HTopBitSet None).
Proof.
  intros Hb.
  pose (P := fun (_ : InputState) b =>
    (b <? 128) || bool_decide (transition_for_byte Ground b = Some (mkTransition HTopBitSet None))).
  assert (P Ground b = true) as HP by (apply by_table; [vm_compute; reflexivity|lia]).
  unfold P in HP. rewrite (proj2 (Z.ltb_ge b 128)) in HP by lia. by apply bool_decide_eq_true in HP.
Qed.

(** ** Numbers and parameters as bytes *)

Lemma number_spec n :
  0 <= n <= u64_max -> number n <> [] /\ forallb is_digit (number n) = true /\ digits_value (number n) = n.
Proof.
  intros Hn. destruct (dec_spec n Hn) as (Hne & Hd & Hv). unfold number. repeat split.
  - by intros ?%map_eq_nil.
  - apply forallb_forall. intros b (c & <- & Hc)%in_map_iff. rewrite List.Forall_forall in Hd. by apply Hd in Hc.
  - rewrite <- Hv at 2. unfold digits_value, decimal_value. generalize 0. generalize (dec n) as l.
    induction l as [|c l IH]; intros z; [done|]. simpl. apply IH.
Qed.

Lemma digits_first b l : forallb is_digit (b :: l) = true -> parse_i32 (b :: l) = parse_digits i32_max (b :: l).
Proof.
  intros Hd. cbn [forallb] in Hd. apply andb_true_iff in Hd as [Hb _]. unfold parse_i32, is_digit in *.
  repeat case_match; subst; done.
Qed.

Lemma parse_i32_number n : 0 <= n <= i32_max -> parse_i32 (number n) = Some n.
Proof.
  intros Hn. destruct (number_spec n) as (Hne & Hd & Hv); [unfold u64_max, i32_max in *; lia|].
  destruct (number n) as [|b l] eqn:Heq; [done|]. rewrite digits_first by done. unfold parse_digits.
  rewrite Hd, Hv, (proj2 (Z.leb_le _ _)) by lia. done.
Qed.

(** Numbers separated by semicolons. *)
Fixpoint param_text (ps : list Z) : list Z :=
  match ps with
  | [] => []
  | [n] => number n
  | n :: ps => number n ++ 59 :: param_text ps
  end.

(** ESC [ parameters final *)
Definition csi_sequence (ps : list Z) (final : Z) : list Z := [27; 91] ++ param_text ps ++ [final].

(** Bytes of parameters: digits, colons and semicolons. *)
Definition is_param (b : Z) : bool := is_digit b || (b =? 58) || (b =? 59).

Lemma digits_params l : forallb is_digit l = true -> forallb is_param l = true.
Proof. rewrite !forallb_forall. intros Hd b Hb. unfold is_param. by rewrite (Hd b Hb). Qed.

Definition param_number (n : Z) : Prop := 0 <= n <= i32_max.

Lemma param_text_params ps : Forall param_number ps -> forallb is_param (param_text ps) = true.
Proof.
  assert (forall n, param_number n -> forallb is_param (number n) = true) as Hn.
  { intros n Hn. apply digits_params, number_spec. unfold param_number, u64_max, i32_max in *. lia. }
  induction 1 as [|n ps Hnum Hps IH]; [done|]. destruct ps as [|m ps]; [by apply Hn|].
  change (param_text (n :: m :: ps)) with (number n ++ 59 :: param_text (m :: ps)).
  rewrite forallb_app, (Hn n Hnum). exact IH.
Qed.

Lemma split_on_digits l rest :
  forallb is_digit l = true -> split_on 59 (l ++ 59 :: rest) = l :: split_on 59 rest /\ split_on 59 l = [l].
Proof.
  induction l as [|b l IH]; intros Hd; [split; reflexivity|]. cbn [forallb] in Hd. apply andb_true_iff in Hd as [Hb Hd].
  destruct (IH Hd) as [H1 H2]. simpl. rewrite H1, H2.
  assert (b =? 59 = false) as -> by (unfold is_digit in Hb; apply Z.eqb_neq; lia). done.
Qed.

Lemma split_on_params ps : Forall param_number ps -> ps <> [] -> split_on 59 (param_text ps) = map number ps.
Proof.
  induction 1 as [|n ps Hn Hps IH]; intros Hne; [done|].
  destruct (number_spec n) as (_ & Hd & _); [unfold param_number, u64_max, i32_max in *; lia|].
  destruct ps as [|m ps]; [exact (proj2 (split_on_digits (number n) [] Hd))|].
  change (param_text (n :: m :: ps)) with (number n ++ 59 :: param_text (m :: ps)).
  destruct (split_on_digits (number n) (param_text (m :: ps)) Hd) as [-> _].
  rewrite IH by done. done.
Qed.

Lemma split_part_number n : param_number n -> split_part (number n) = Some (Number n).
Proof.
  intros Hn. destruct (number_spec n) as (Hne & Hd & _); [unfold param_number, u64_max, i32_max in *; lia|].
  pose proof (parse_i32_number n Hn) as Hp. unfold split_part. destruct (number n) as [|b l] eqn:Heq; [done|].
  assert (existsb (Z.eqb 58) (b :: l) = false) as ->.
  { destruct (existsb (Z.eqb 58) (b :: l)) eqn:He; [|done]. apply existsb_exists in He as (x & Hx & Hx'%Z.eqb_eq). subst.
    rewrite forallb_forall in Hd. apply Hd in Hx. done. }
  rewrite Hp. unfold param_number in Hn. by rewrite (proj2 (Z.leb_le 0 n)) by lia.
Qed.

Lemma split_parts_numbers ps l :
  Forall param_number ps -> (length l + length ps <= PARAM_LIST_MAX)%nat ->
  split_parts (map number ps) l = (true, l ++ map Number ps).
Proof.
  intros Hps. revert l. induction Hps as [|n ps Hn Hps IH]; intros l Hlen; [by rewrite app_nil_r|].
  cbn [map split_parts]. simpl in Hlen. rewrite (proj2 (Nat.leb_gt _ _)) by lia. rewrite split_part_number by done.
  rewrite IH by (rewrite length_app; simpl; lia). by rewrite <- app_assoc.
Qed.

Lemma ascii_valid bs : Forall (fun b => 0 <= b < 128) bs -> from_utf8_ok bs = true.
Proof.
  intros Hbs. assert (bs = concat (map (fun b => [b]) bs)) as Heq.
  { clear Hbs. induction bs as [|b bs IH]; [done|]. simpl. by f_equal. }
  rewrite Heq. unfold from_utf8_ok. rewrite utf8_parts_characters.
  - apply forallb_forall. by intros x (y & <- & _)%in_map_iff.
  - apply List.Forall_map. eapply Forall_impl; [exact Hbs|]. intros b Hb. exists b, []. split; [done|].
    simpl in Hb. apply utf8_part_one. lia.
Qed.

Lemma split_param_text ps :
  Forall param_number ps -> (length ps <= PARAM_LIST_MAX)%nat -> split (param_text ps) = (true, map Number ps).
Proof.
  intros Hps Hlen. destruct ps as [|n ps]; [done|].
  pose proof (param_text_params (n :: ps) Hps) as Hp.
  pose proof (split_on_params (n :: ps) Hps ltac:(done)) as Hs.
  unfold split. destruct (param_text (n :: ps)) as [|b l] eqn:Heq.
  { apply Forall_cons in Hps as [Hn _]. destruct (number_spec n) as [Hne _];
      [unfold param_number, u64_max, i32_max in *; lia|]. injection Hs as Hs. congruence. }
  rewrite ascii_valid.
  - rewrite Hs. by apply (split_parts_numbers (n :: ps) []).
  - apply List.Forall_forall. intros x Hx. rewrite forallb_forall in Hp. apply Hp in Hx.
    unfold is_param, is_digit in Hx. lia.
Qed.

Section Effects.

Context {W : Type} `{ScreenWriter W}.

(** ** Text *)

Lemma parse_byte_high b p w :
  128 <= b <= 255 -> state p = Ground -> parse_byte b p w = handle_top_bit_set (with_ch b p) w.
Proof.
  intros Hb Hs. unfold parse_byte. cbv zeta. change (state (with_ch b p)) with (state p).
  change (ch (with_ch b p)) with b. rewrite Hs, ground_transition_high by done. simpl.
  unfold execute_transition. simpl. destruct (handle_top_bit_set (with_ch b p) w) as [[p1 w1]|] eqn:Ht; [|done].
  apply handle_top_bit_set_core, core_fields in Ht as (_ & _ & H1 & _). simpl in *.
  rewrite not_recovering, save_since_ground_id by congruence. done.
Qed.

(** In the middle of a character of [k] bytes. *)
Definition in_character (p0 p : InputParser) (bs : list Z) (k : Z) : Prop :=
  state p = Ground /\ utf8_started p = true /\ utf8_buf p = bs /\ utf8_expected p = k /\ pcell p = pcell p0.

(** Between characters. *)
Definition between (p0 p : InputParser) (last : option Z) : Prop :=
  state p = Ground /\ utf8_started p = false /\ pcell p = pcell p0 /\ last_char p = last.

Lemma first_byte b p w k :
  state p = Ground -> utf8_started p = false -> 194 <= b <= 244 -> k = Z.of_nat (utf8_char_width b) ->
  exists p', parse_byte b p w = Some (p', w) /\ in_character p p' [b] k.
Proof.
  intros Hs Hu Hb ->. rewrite parse_byte_high by (done || lia).
  unfold handle_top_bit_set. cbv zeta. simpl utf8_started. rewrite Hu. simpl negb. cbv iota.
  unfold start_utf8. cbv zeta. simpl ch. destruct (byte_masks b ltac:(lia)) as (-> & -> & -> & _).
  rewrite write_array_room by (simpl; lia). unfold utf8_char_width. simpl.
  rewrite (proj2 (Z.ltb_ge b 128)), (proj2 (Z.leb_le 194 b)), (proj2 (Z.leb_le 192 b)) by lia. simpl.
  destruct (Z.leb_spec b 223); [eexists; split; [done|]; by repeat split|].
  rewrite (proj2 (Z.leb_le 224 b)) by lia. simpl.
  destruct (Z.leb_spec b 239); [eexists; split; [done|]; by repeat split|].
  rewrite (proj2 (Z.leb_le 240 b)), (proj2 (Z.leb_le b 244)), (proj2 (Z.leb_le b 247)) by lia. simpl.
  eexists. split; [done|]. by repeat split.
Qed.

(** A byte that continues a character. *)
Lemma next_byte b p0 p w bs k :
  in_character p0 p bs k -> 128 <= b <= 191 -> Z.of_nat (length bs) < 4 ->
  exists p', parse_byte b p w =
      (if Z.of_nat (length (bs ++ [b])) <? k then Some (p', w) else Some (complete_utf8 p' w))
    /\ in_character p0 p' (bs ++ [b]) k.
Proof.
  intros (Hs & Hu & Hbs & Hk & Hc) Hb Hlen. rewrite parse_byte_high by (done || lia).
  unfold handle_top_bit_set. cbv zeta. simpl utf8_started. rewrite Hu. simpl negb. cbv iota. simpl ch.
  destruct (byte_masks b ltac:(lia)) as (_ & _ & _ & ->). unfold is_continuation.
  rewrite (proj2 (Z.leb_le 128 b)), (proj2 (Z.leb_le b 191)) by lia. simpl. rewrite Hbs.
  rewrite write_array_room by lia. simpl. rewrite Hk. eexists. split; [done|]. by repeat split.
Qed.

Lemma complete_character c p0 p w k :
  is_scalar c = true -> in_character p0 p (encode_utf8 c) k ->
  exists p', complete_utf8 p w = (p', write (collect_add c (pcell p0)) w) /\ between p0 p' (Some c).
Proof.
  intros Hc (Hs & Hu & Hbs & _ & Hcell). unfold complete_utf8. cbv zeta. simpl utf8_buf. rewrite Hbs.
  assert (utf8_parts (encode_utf8 c) = [(true, encode_utf8 c)]) as Hparts.
  { rewrite <- (app_nil_r (encode_utf8 c)) at 1. by rewrite encode_utf8_parts. }
  unfold from_utf8_ok, chars. rewrite Hparts. simpl. rewrite decode_encode by done. rewrite Hcell.
  eexists. split; [done|]. by repeat split.
Qed.

Lemma remaining_bytes c p0 p w bs rest k :
  is_scalar c = true -> bs ++ rest = encode_utf8 c -> rest <> [] -> Forall (fun b => 128 <= b <= 191) rest ->
  Z.of_nat (length (encode_utf8 c)) = k -> k <= 4 -> in_character p0 p bs k ->
  exists p', parse_bytes rest p w = Some (p', write (collect_add c (pcell p0)) w) /\ between p0 p' (Some c).
Proof.
  intros Hc Henc Hne Hrest Hk Hk4. revert p bs Henc Hne. induction Hrest as [|b rest Hb Hrest IH]; intros p bs Henc Hne Hin; [done|].
  assert (Z.of_nat (length bs) + Z.of_nat (length rest) + 1 = k) as Hlen.
  { rewrite <- Hk, <- Henc, length_app. simpl. lia. }
  destruct (next_byte b p0 p w bs k Hin Hb ltac:(lia)) as (p1 & H1 & Hin1). rewrite length_app in H1. simpl in H1.
  simpl. rewrite H1. destruct rest as [|b' rest].
  - rewrite (proj2 (Z.ltb_ge _ _)) by (simpl in Hlen; lia). simpl.
    rewrite Henc in Hin1. destruct (complete_character c p0 p1 w k Hc Hin1) as (p' & -> & Hb'). by exists p'.
  - rewrite (proj2 (Z.ltb_lt _ _)) by (simpl in Hlen; lia). simpl. apply (IH p1 (bs ++ [b])); [|done|done].
    by rewrite <- app_assoc.
Qed.

Lemma parse_character c p w :
  is_scalar c = true -> 128 <= c -> state p = Ground -> utf8_started p = false ->
  exists p', parse_bytes (encode_utf8 c) p w = Some (p', write (collect_add c (pcell p)) w) /\ between p p' (Some c).
Proof.
  intros Hc Hge Hs Hu. destruct (encode_utf8_part c [] Hc) as (b & rest & Henc & Hpart & Hdec & _).
  rewrite app_nil_r in Hpart.
  assert (194 <= b <= 244 /\ rest <> [] /\ Forall (fun b => 128 <= b <= 191) rest
          /\ Z.of_nat (utf8_char_width b) = Z.of_nat (S (length rest)) /\ (length rest < 4)%nat) as (Hb & Hne & Hr & Hw & Hl).
  { destruct (utf8_part_inv _ _ _ Hpart)
      as [[? Hk]|[(x & r & -> & Hk & ?)|[(x & y & r & -> & Hk & ?)|(x & y & z & r & -> & Hk & ?)]]]; simpl in Hk.
    1: { destruct rest; [|done]. simpl in Hdec. lia. }
    all: destruct r; try done; repeat split; try lia; try done; repeat constructor; try lia;
      unfold utf8_char_width; repeat (case_match; try lia; try done). }
  destruct (first_byte b p w _ Hs Hu Hb eq_refl) as (p1 & H1 & Hin). rewrite Henc. simpl. rewrite H1. simpl.
  apply (remaining_bytes c p p1 w [b] rest (Z.of_nat (utf8_char_width b))); try done.
  - rewrite Henc. simpl. by rewrite Hw.
  - lia.
Qed.

(** Characters the parser prints. *)
Definition text_char (c : Z) : bool := is_printable c || (is_scalar c && (128 <=? c)).

(** ** Control sequences *)

(** The part of a parser that commands read and change. *)
Definition rendition (p : InputParser) : CellState * SavedState * option Z * list Z * list (option (list Z)) * bool * bool :=
  (pcell p, saved p, last_char p, reply_buf p, osc_colours p, has_flag p INPUT_LAST, utf8_started p).

(** Outside the table lookup a byte that is only collected changes nothing else. *)
Lemma parse_byte_collect b h next p w p1 :
  transition_for_byte (state p) b = Some (mkTransition h next) ->
  h <> HPrint -> h <> HTopBitSet -> state p <> DcsHandler ->
  run_handler h (with_ch b p) (write collect_end w) = Some (p1, write collect_end w) ->
  state p1 = state p ->
  parse_byte b p w =
  let '(p2, w2) := match next with Some next => set_state next p1 (write collect_end w) | None => (p1, write collect_end w) end in
  Some (save_since_ground p2, w2).
Proof.
  intros Ht Hh1 Hh2 Hs Hr Hs1. unfold parse_byte. cbv zeta. change (state (with_ch b p)) with (state p).
  change (ch (with_ch b p)) with b. rewrite Ht. simpl. unfold execute_transition. simpl.
  assert (end_collection h w = write collect_end w) as -> by (by destruct h).
  rewrite Hr. simpl. rewrite not_recovering by congruence. done.
Qed.

(** Collecting the parameters of a control sequence. *)
Definition in_csi (p0 p : InputParser) (params : list Z) : Prop :=
  (state p = CsiEnter /\ params = [] \/ state p = CsiParameter)
  /\ param p = params /\ interm p = [] /\ has_flag p INPUT_DISCARD = false /\ rendition p = rendition p0.

Lemma csi_transition_param b s :
  is_param b = true -> s = CsiEnter \/ s = CsiParameter ->
  transition_for_byte s b = Some (mkTransition HParameter (if decide (s = CsiEnter) then Some CsiParameter else None)).
Proof.
  intros Hb Hs.
  pose (P := fun s b =>
    negb (is_param b) || negb (bool_decide (s = CsiEnter \/ s = CsiParameter))
    || bool_decide (transition_for_byte s b
                    = Some (mkTransition HParameter (if decide (s = CsiEnter) then Some CsiParameter else None)))).
  assert (P s b = true) as HP.
  { apply by_table; [vm_compute; reflexivity|]. unfold is_param, is_digit in Hb. lia. }
  unfold P in HP. rewrite Hb, (bool_decide_true _ Hs) in HP. by apply bool_decide_eq_true in HP.
Qed.

Lemma param_byte b p0 p w params :
  in_csi p0 p params -> is_param b = true -> (length params < 63)%nat ->
  exists p', parse_byte b p w = Some (p', write collect_end w) /\ in_csi p0 p' (params ++ [b]).
Proof.
  intros (Hs & Hpa & Hi & Hd & Hr) Hb Hlen.
  assert (state p = CsiEnter \/ state p = CsiParameter) as Hs' by tauto.
  assert (run_handler HParameter (with_ch b p) (write collect_end w)
          = Some (with_param (params ++ [b]) (with_ch b p), write collect_end w)) as Hrun.
  { simpl. unfold handle_parameter. simpl param. rewrite Hpa. unfold PARAM_BUF_MAX.
    rewrite (proj2 (Nat.leb_gt _ _)), write_array_room by (simpl; lia). done. }
  pose proof (csi_transition_param b (state p) Hb Hs') as Ht.
  rewrite (parse_byte_collect b _ _ p w _ Ht ltac:(done) ltac:(done) ltac:(destruct Hs' as [-> | ->]; done) Hrun eq_refl).
  assert (forall q, core q = core (with_state CsiParameter (with_param (params ++ [b]) (with_ch b p))) ->
            rendition q = rendition p0 -> in_csi p0 (save_since_ground q) (params ++ [b])) as Hfin.
  { intros q (_ & _ & Hs1 & _ & Hi1 & Hp1 & _ & Hd1 & _)%core_fields Hr1.
    assert (has_flag q INPUT_DISCARD = false) as Hd2 by (rewrite Hd1; exact Hd).
    assert (interm q = []) as Hi2 by (rewrite Hi1; exact Hi).
    unfold in_csi, save_since_ground. destruct (bool_decide (state q <> Ground) && _); (split; [right; exact Hs1|]); done. }
  destruct (decide (state p = CsiEnter)) as [He|Hne].
  - unfold set_state, exit_state. simpl. rewrite He.
    destruct (has_flag (with_param (params ++ [b]) (with_ch b p)) INPUT_DISCARD); eexists; (split; [done|]);
      apply Hfin; done.
  - destruct Hs' as [?|Hs']; [done|]. eexists. split; [done|]. apply Hfin; [|done]. apply core_fields. simpl. rewrite Hs'. done.
Qed.

Lemma param_bytes bs p0 p w params :
  in_csi p0 p params -> forallb is_param bs = true -> (length params + length bs <= 63)%nat ->
  exists p', parse_bytes bs p w = Some (p', Nat.iter (length bs) (write collect_end) w) /\ in_csi p0 p' (params ++ bs).
Proof.
  revert p w params. induction bs as [|b bs IH]; intros p w params Hin Hbs Hlen.
  - exists p. rewrite app_nil_r. done.
  - cbn [forallb] in Hbs. apply andb_true_iff in Hbs as [Hb Hbs]. simpl in Hlen.
    destruct (param_byte b p0 p w params Hin Hb ltac:(lia)) as (p1 & H1 & Hin1). simpl. rewrite H1. simpl.
    destruct (IH p1 (write collect_end w) (params ++ [b]) Hin1 Hbs) as (p2 & H2 & Hin2); [rewrite length_app; simpl; lia|].
    exists p2. rewrite H2, <- Nat.iter_succ_r. split; [done|]. by rewrite <- app_assoc in Hin2.
Qed.

(** Characters that end a control sequence. *)
Lemma lookup_csi_final b cmd : lookup_csi b [] = Some cmd -> 64 <= b <= 126.
Proof.
  unfold lookup_csi, lookup. intros Hl. apply fmap_Some in Hl as (x & Hx & _).
  apply List.find_some in Hx as [Hin Hb%andb_true_iff]. destruct Hb as [<-%Z.eqb_eq _].
  assert (forallb (fun x => (64 <=? entry_ch x) && (entry_ch x <=? 126)) CSI_TABLE = true) as Hall by reflexivity.
  rewrite forallb_forall in Hall. apply Hall in Hin. lia.
Qed.

Lemma csi_transition_final b s :
  64 <= b <= 126 -> s = CsiEnter \/ s = CsiParameter ->
  transition_for_byte s b = Some (mkTransition HCsiDispatch (Some Ground)).
Proof.
  intros Hb Hs.
  pose (P := fun s b =>
    negb ((64 <=? b) && (b <=? 126)) || negb (bool_decide (s = CsiEnter \/ s = CsiParameter))
    || bool_decide (transition_for_byte s b = Some (mkTransition HCsiDispatch (Some Ground)))).
  assert (P s b = true) as HP by (apply by_table; [vm_compute; reflexivity|lia]).
  unfold P in HP. rewrite (bool_decide_true _ Hs), (proj2 (Z.leb_le 64 b)), (proj2 (Z.leb_le b 126)) in HP by lia.
  by apply bool_decide_eq_true in HP.
Qed.

(** States whose end does nothing. *)
Lemma set_state_plain next p w :
  state p <> OscString -> state p <> ApcString -> state p <> RenameString ->
  set_state next p w = (enter_state (with_state next p), w).
Proof. intros H1 H2 H3. unfold set_state, exit_state. destruct (has_flag p INPUT_DISCARD); [done|]. by destruct (state p). Qed.

Lemma clear_discard p : has_flag (clear p) INPUT_DISCARD = false.
Proof. unfold has_flag. simpl. by rewrite land_ldiff_self. Qed.

Lemma clear_rendition p : rendition (clear p) = rendition p.
Proof. unfold rendition, has_flag. simpl. by rewrite land_ldiff_disjoint. Qed.

Lemma save_since_ground_rendition p : rendition (save_since_ground p) = rendition p.
Proof. unfold save_since_ground. by case_match. Qed.

Lemma save_since_ground_collected p :
  interm (save_since_ground p) = interm p /\ param (save_since_ground p) = param p
  /\ input_buf (save_since_ground p) = input_buf p
  /\ has_flag (save_since_ground p) INPUT_DISCARD = has_flag p INPUT_DISCARD.
Proof. unfold save_since_ground. by case_match. Qed.

Lemma save_since_ground_osc p :
  input_end (save_since_ground p) = input_end p /\ input_buf_max (save_since_ground p) = input_buf_max p
  /\ osc_colours (save_since_ground p) = osc_colours p.
Proof. unfold save_since_ground. by case_match. Qed.

(** A byte that leads to a state that starts afresh. *)
Lemma fresh_state_byte b next p w :
  transition_for_byte (state p) b = Some (mkTransition HNone (Some next)) -> next = EscEnter \/ next = CsiEnter ->
  state p <> OscString -> state p <> ApcString -> state p <> RenameString -> state p <> DcsHandler ->
  exists p', parse_byte b p w = Some (p', write collect_end w) /\ state p' = next /\ param p' = [] /\ interm p' = []
    /\ has_flag p' INPUT_DISCARD = false /\ rendition p' = rendition p /\ input_buf_max p' = input_buf_max p.
Proof.
  intros Ht Hnext H1 H2 H3 H4.
  rewrite (parse_byte_collect b HNone (Some next) p w (with_ch b p)) by done. cbv iota.
  rewrite set_state_plain by done. eexists. split; [done|]. rewrite save_since_ground_state, save_since_ground_rendition.
  destruct (save_since_ground_collected (enter_state (with_state next (with_ch b p)))) as (-> & -> & _ & ->).
  assert (enter_state (with_state next (with_ch b p)) = clear (with_state next (with_ch b p))) as -> by (by destruct Hnext as [-> | ->]).
  rewrite clear_discard, clear_rendition, (proj1 (proj2 (save_since_ground_osc _))).
  do 4 (split; [done|]). split; done.
Qed.

Lemma csi_introducer p w :
  state p = Ground ->
  exists p', parse_bytes [27; 91] p w = Some (p', Nat.iter 2 (write collect_end) w) /\ in_csi p p' [].
Proof.
  intros Hs. destruct (fresh_state_byte 27 EscEnter p w) as (p1 & H1 & Hs1 & _ & _ & _ & Hr1 & _);
    try (by rewrite Hs); [by left|].
  destruct (fresh_state_byte 91 CsiEnter p1 (write collect_end w)) as (p2 & H2 & Hs2 & Hp2 & Hi2 & Hd2 & Hr2 & _);
    try (by rewrite Hs1); [by right|].
  exists p2. cbn [parse_bytes]. rewrite H1. simpl. rewrite H2. simpl. split; [done|].
  unfold in_csi. split; [by left|]. rewrite Hr2, Hr1. done.
Qed.

Lemma enter_ground_rendition p : rendition (enter_ground p) = rendition p.
Proof. unfold enter_ground. simpl. by case_match. Qed.

(** The final character runs the command. *)
Lemma csi_final b cmd p0 p w bs params :
  in_csi p0 p bs -> lookup_csi b [] = Some cmd -> split bs = (true, params) ->
  exists q p', rendition q = rendition p0 /\ param_list q = params
    /\ parse_byte b p w = Some (p', (dispatch_csi_command cmd q (write collect_end w)).2)
    /\ state p' = Ground
    /\ rendition p' = rendition (clear_flag INPUT_LAST (dispatch_csi_command cmd q (write collect_end w)).1).
Proof.
  intros (Hs & Hpa & Hi & Hd & Hr) Hl Hsplit. assert (state p = CsiEnter \/ state p = CsiParameter) as Hs' by tauto.
  set (q := with_param_list params (with_ch b p)).
  unfold parse_byte. cbv zeta. change (state (with_ch b p)) with (state p). change (ch (with_ch b p)) with b.
  rewrite (csi_transition_final b (state p) (lookup_csi_final b cmd Hl) Hs'). simpl.
  unfold execute_transition. simpl. unfold handle_csi_dispatch.
  change (has_flag (with_ch b p) INPUT_DISCARD) with (has_flag p INPUT_DISCARD). rewrite Hd.
  unfold dispatch_csi. change (param (with_ch b p)) with (param p). rewrite Hpa, Hsplit.
  cbv zeta. change (negb true) with false. cbv iota. change (ch (with_param_list _ (with_ch b p))) with b.
  change (interm (with_param_list _ (with_ch b p))) with (interm p). rewrite Hi, Hl. fold q.
  pose proof (dispatch_csi_command_core cmd q (write collect_end w)) as Hc.
  destruct (dispatch_csi_command cmd q (write collect_end w)) as [q2 w2] eqn:Hq. simpl in Hc.
  assert (state (clear_flag INPUT_LAST q2) = state p) as Hs2 by (apply core_fields in Hc; tauto).
  rewrite not_recovering by (rewrite Hs2; destruct Hs' as [-> | ->]; done).
  rewrite set_state_plain by (rewrite Hs2; destruct Hs' as [-> | ->]; done).
  exists q, (enter_ground (with_state Ground (clear_flag INPUT_LAST q2))). rewrite Hq. simpl.
  split; [done|]. split; [done|].
  assert (state (enter_ground (with_state Ground (clear_flag INPUT_LAST q2))) = Ground) as Hg.
  { unfold enter_ground. simpl. by destruct (input_grown q2). }
  change (enter_state (with_state Ground (clear_flag INPUT_LAST q2)))
    with (enter_ground (with_state Ground (clear_flag INPUT_LAST q2))).
  rewrite save_since_ground_id by done. split; [done|]. split; [done|]. by rewrite enter_ground_rendition.
Qed.

(** A control sequence with the parameter bytes [bs], which read as [params]. *)
Lemma parse_bytes_raw_csi bs params b cmd p w :
  state p = Ground -> forallb is_param bs = true -> (length bs <= 63)%nat -> split bs = (true, params) ->
  lookup_csi b [] = Some cmd ->
  exists q p', rendition q = rendition p /\ param_list q = params
    /\ (let '(q', w') := dispatch_csi_command cmd q (Nat.iter (3 + length bs) (write collect_end) w) in
        parse_bytes ([27; 91] ++ bs ++ [b]) p w = Some (p', w') /\ state p' = Ground
        /\ rendition p' = rendition (clear_flag INPUT_LAST q')).
Proof.
  intros Hs Hbs Hlen Hsplit Hl. destruct (csi_introducer p w Hs) as (p1 & H1 & Hin1).
  destruct (param_bytes bs p p1 (Nat.iter 2 (write collect_end) w) [] Hin1 Hbs) as (p2 & H2 & Hin2); [simpl; lia|].
  rewrite app_nil_l in Hin2.
  destruct (csi_final b cmd p p2 (Nat.iter (length bs) (write collect_end) (Nat.iter 2 (write collect_end) w)) bs params Hin2 Hl Hsplit)
    as (q & p' & Hq & Hpl & H3 & Hs3 & Hr3).
  exists q, p'. split; [done|]. split; [done|].
  assert (write collect_end (Nat.iter (length bs) (write collect_end) (Nat.iter 2 (write collect_end) w))
          = Nat.iter (3 + length bs) (write collect_end) w) as Hw.
  { rewrite <- Nat.iter_add. rewrite <- Nat.iter_succ. f_equal. lia. }
  rewrite Hw in *. destruct (dispatch_csi_command cmd q _) as [q' w']. cbn [fst snd] in *.
  rewrite parse_bytes_app, H1. cbn [mbind option_bind]. rewrite parse_bytes_app, H2. cbn [mbind option_bind].
  cbn [parse_bytes]. rewrite H3. done.
Qed.

Lemma parse_bytes_csi ps b cmd p w :
  state p = Ground -> Forall param_number ps -> (length ps <= PARAM_LIST_MAX)%nat -> (length (param_text ps) <= 63)%nat ->
  lookup_csi b [] = Some cmd ->
  exists q p', rendition q = rendition p /\ param_list q = map Number ps
    /\ (let '(q', w') := dispatch_csi_command cmd q (Nat.iter (3 + length (param_text ps)) (write collect_end) w) in
        parse_bytes (csi_sequence ps b) p w = Some (p', w') /\ state p' = Ground
        /\ rendition p' = rendition (clear_flag INPUT_LAST q')).
Proof.
  intros Hs Hps Hlen Htext Hl.
  apply parse_bytes_raw_csi; [done|by apply param_text_params|done|by apply split_param_text|done].
Qed.

(** ** Strings *)

(** Collecting an OSC string. *)
Definition in_osc (p0 p : InputParser) (data : list Z) : Prop :=
  state p = OscString /\ input_buf p = data /\ has_flag p INPUT_DISCARD = false /\ input_end p = St
  /\ input_buf_max p = input_buf_max p0 /\ osc_colours p = osc_colours p0.

Lemma osc_transition_input b : 32 <= b <= 255 -> transition_for_byte OscString b = Some (mkTransition HInput None).
Proof.
  intros Hb.
  pose (P := fun (_ : InputState) b =>
    (b <? 32) || bool_decide (transition_for_byte OscString b = Some (mkTransition HInput None))).
  assert (P Ground b = true) as HP by (apply by_table; [vm_compute; reflexivity|lia]).
  unfold P in HP. rewrite (proj2 (Z.ltb_ge b 32)) in HP by lia. by apply bool_decide_eq_true in HP.
Qed.

Lemma in_osc_save p0 p data : in_osc p0 p data -> in_osc p0 (save_since_ground p) data.
Proof.
  intros (Hs & Hb & Hd & He & Hm & Hc). unfold in_osc. rewrite save_since_ground_state.
  destruct (save_since_ground_collected p) as (_ & _ & -> & ->), (save_since_ground_osc p) as (-> & -> & ->). done.
Qed.

Lemma osc_byte b p0 p w data :
  in_osc p0 p data -> 32 <= b <= 255 -> Z.of_nat (length data) + 1 < input_buf_max p0 ->
  exists p', parse_byte b p w = Some (p', write collect_end w) /\ in_osc p0 p' (data ++ [b]).
Proof.
  intros (Hs & Hbuf & Hd & He & Hm & Hc) Hb Hlen.
  assert (transition_for_byte (state p) b = Some (mkTransition HInput None)) as Ht by (rewrite Hs; by apply osc_transition_input).
  assert (handle_input (with_ch b p) = push_input b (with_ch b p)) as Hin.
  { unfold handle_input, input_buffer_limit, is_terminal_passthrough_string. simpl. rewrite Hs. simpl.
    rewrite Hbuf, Hm, (proj2 (Z.leb_gt _ _)) by lia. done. }
  rewrite (parse_byte_collect b HInput None p w (push_input b (with_ch b p)) Ht); try done;
    [|by rewrite Hs|simpl; by rewrite Hin].
  eexists. split; [done|]. apply in_osc_save. unfold in_osc. simpl. rewrite Hbuf. done.
Qed.

Lemma osc_bytes bs p0 p w data :
  in_osc p0 p data -> Forall (fun b => 32 <= b <= 255) bs -> Z.of_nat (length data + length bs) < input_buf_max p0 ->
  exists p', parse_bytes bs p w = Some (p', Nat.iter (length bs) (write collect_end) w) /\ in_osc p0 p' (data ++ bs).
Proof.
  intros Hin Hbs. revert p w data Hin. induction Hbs as [|b bs Hb Hbs IH]; intros p w data Hin Hlen.
  - exists p. by rewrite app_nil_r.
  - simpl in Hlen. destruct (osc_byte b p0 p w data Hin Hb ltac:(lia)) as (p1 & H1 & Hin1). simpl. rewrite H1. simpl.
    destruct (IH p1 (write collect_end w) (data ++ [b]) Hin1) as (p2 & H2 & Hin2); [rewrite length_app; simpl; lia|].
    exists p2. rewrite H2, <- Nat.iter_succ_r. split; [done|]. by rewrite <- app_assoc in Hin2.
Qed.

Lemma clear_osc p : input_buf_max (clear p) = input_buf_max p /\ osc_colours (clear p) = osc_colours p.
Proof. split; reflexivity. Qed.

(** A string starts empty. *)
Lemma enter_string_osc p :
  state p = OscString ->
  state (enter_string p) = OscString /\ input_buf (enter_string p) = [] /\ has_flag (enter_string p) INPUT_DISCARD = false
  /\ input_end (enter_string p) = St /\ input_buf_max (enter_string p) = input_buf_max p
  /\ osc_colours (enter_string p) = osc_colours p.
Proof.
  intros Hs. unfold enter_string. rewrite clear_last_discard. repeat split; [exact Hs|].
  exact (clear_discard p).
Qed.

(** ESC ] data ESC \ *)
Definition osc_sequence (data : list Z) : list Z := [27; 93] ++ data ++ [27; 92].

(** An idle parser with some colours. *)
Definition idle (p : InputParser) (limit : Z) (colours : list (option (list Z))) : Prop :=
  state p = Ground /\ input_buf_max p = limit /\ osc_colours p = colours.

Lemma osc_string_byte p w :
  state p = EscEnter -> exists p', parse_byte 93 p w = Some (p', write collect_end w) /\ in_osc p p' [].
Proof.
  intros Hs.
  rewrite (parse_byte_collect 93 HNone (Some OscString) p w (with_ch 93 p)); try done; try (by rewrite Hs).
  rewrite set_state_plain by (simpl; by rewrite Hs).
  eexists. split; [reflexivity|]. apply in_osc_save.
  destruct (enter_string_osc (with_state OscString (with_ch 93 p)) eq_refl) as (E1 & E2 & E3 & E4 & E5 & E6).
  by split_and!.
Qed.

Lemma osc_introducer p w :
  state p = Ground ->
  exists p', parse_bytes [27; 93] p w = Some (p', Nat.iter 2 (write collect_end) w) /\ in_osc p p' [].
Proof.
  intros Hs. destruct (fresh_state_byte 27 EscEnter p w) as (p1 & H1 & Hs1 & _ & _ & _ & Hr1 & Hm1);
    try (by rewrite Hs); [by left|].
  destruct (osc_string_byte p1 (write collect_end w) Hs1) as (p2 & H2 & Hin).
  exists p2. cbn [parse_bytes]. rewrite H1. cbn [mbind option_bind]. rewrite H2. split; [done|].
  destruct Hin as (? & ? & ? & ? & Hm & Hc). unfold rendition in Hr1. unfold in_osc. split_and!; try done; congruence.
Qed.

(** The terminator runs the command. *)
Lemma osc_end_byte p0 p w data :
  in_osc p0 p data ->
  exists q p' w', input_buf q = data /\ input_end q = St /\ osc_colours q = osc_colours p0
    /\ parse_byte 27 p w = Some (p', w') /\ state p' = EscEnter /\ interm p' = [] /\ has_flag p' INPUT_DISCARD = false
    /\ input_buf_max p' = input_buf_max p0 /\ osc_colours p' = osc_colours (dispatch_osc q (write collect_end w)).1.
Proof.
  intros (Hs & Hbuf & Hd & He & Hm & Hc).
  rewrite (parse_byte_collect 27 HNone (Some EscEnter) p w (with_ch 27 p)); try done; try (by rewrite Hs).
  unfold set_state, exit_state. change (has_flag (with_ch 27 p) INPUT_DISCARD) with (has_flag p INPUT_DISCARD).
  rewrite Hd. change (state (with_ch 27 p)) with (state p). rewrite Hs.
  pose proof (dispatch_osc_core (with_ch 27 p) (write collect_end w)) as Hcore.
  exists (with_ch 27 p). destruct (dispatch_osc (with_ch 27 p) (write collect_end w)) as [q1 w1]. cbn [fst] in *.
  assert (input_buf_max q1 = input_buf_max p) as Hm1 by (apply core_fields in Hcore; tauto).
  do 2 eexists. do 3 (split; [done|]). split; [reflexivity|].
  rewrite save_since_ground_state. change (enter_state (with_state EscEnter q1)) with (clear (with_state EscEnter q1)).
  destruct (save_since_ground_osc (clear (with_state EscEnter q1))) as (_ & -> & ->).
  destruct (save_since_ground_collected (clear (with_state EscEnter q1))) as (-> & _ & _ & ->).
  rewrite clear_discard. do 3 (split; [done|]). split; [etrans; [exact Hm1|done]|done].
Qed.

Lemma string_terminator p w :
  state p = EscEnter -> interm p = [] -> has_flag p INPUT_DISCARD = false ->
  exists p' w', parse_byte 92 p w = Some (p', w') /\ idle p' (input_buf_max p) (osc_colours p).
Proof.
  intros Hs Hi Hd.
  unfold parse_byte. cbv zeta. change (state (with_ch 92 p)) with (state p). change (ch (with_ch 92 p)) with 92.
  rewrite Hs. change (transition_for_byte EscEnter 92) with (Some (mkTransition HEscDispatch (Some Ground))).
  cbn [mbind option_bind]. unfold execute_transition. cbn [transition_handler next_state run_handler mbind option_bind].
  unfold handle_esc_dispatch. change (has_flag (with_ch 92 p) INPUT_DISCARD) with (has_flag p INPUT_DISCARD). rewrite Hd.
  unfold dispatch_esc. change (ch (with_ch 92 p)) with 92. change (interm (with_ch 92 p)) with (interm p). rewrite Hi.
  change (lookup_esc 92 []) with (Some St_cmd). cbn [dispatch_esc_command].
  rewrite not_recovering by (simpl; by rewrite Hs). rewrite set_state_plain by (simpl; by rewrite Hs).
  do 2 eexists. split; [reflexivity|]. unfold idle. rewrite save_since_ground_state.
  destruct (save_since_ground_osc (enter_state (with_state Ground (clear_flag INPUT_LAST (with_ch 92 p))))) as (_ & -> & ->).
  unfold enter_state. cbn [state with_state]. unfold enter_ground. cbv zeta.
  destruct (input_grown _); done.
Qed.

Lemma osc_terminator p0 p w data :
  in_osc p0 p data ->
  exists q p' w', input_buf q = data /\ input_end q = St /\ osc_colours q = osc_colours p0
    /\ parse_bytes [27; 92] p w = Some (p', w')
    /\ idle p' (input_buf_max p0) (osc_colours (dispatch_osc q (write collect_end w)).1).
Proof.
  intros Hin. destruct (osc_end_byte p0 p w data Hin) as (q & p1 & w1 & Hb & He & Hc & H1 & Hs1 & Hi1 & Hd1 & Hm1 & Hc1).
  destruct (string_terminator p1 w1 Hs1 Hi1 Hd1) as (p2 & w2 & H2 & Hid).
  exists q, p2, w2. do 3 (split; [done|]). cbn [parse_bytes]. rewrite H1. cbn [mbind option_bind]. rewrite H2.
  split; [done|]. by rewrite <- Hm1, <- Hc1.
Qed.

Lemma parse_osc data p w limit colours :
  idle p limit colours -> Forall (fun b => 32 <= b <= 255) data -> Z.of_nat (length data) < limit ->
  exists q p' w' v, input_buf q = data /\ input_end q = St /\ osc_colours q = colours
    /\ parse_bytes (osc_sequence data) p w = Some (p', w') /\ idle p' limit (osc_colours (dispatch_osc q v).1).
Proof.
  intros (Hs & Hm & Hc) Hdata Hlen. unfold osc_sequence.
  destruct (osc_introducer p w Hs) as (p1 & H1 & Hin1).
  destruct (osc_bytes data p p1 (Nat.iter 2 (write collect_end) w) [] Hin1 Hdata) as (p2 & H2 & Hin2); [simpl; lia|].
  rewrite app_nil_l in Hin2.
  destruct (osc_terminator p p2 (Nat.iter (length data) (write collect_end) (Nat.iter 2 (write collect_end) w)) data Hin2)
    as (q & p' & w' & Hq1 & Hq2 & Hq3 & H3 & Hid).
  eexists q, p', w', _. split; [done|]. split; [done|]. split; [congruence|]. split; [|rewrite <- Hm; exact Hid].
  rewrite parse_bytes_app, H1. cbn [mbind option_bind]. rewrite parse_bytes_app, H2. cbn [mbind option_bind]. exact H3.
Qed.

(** ** Colours *)

Lemma reset_colour_sequence slot p w limit colours :
  idle p limit colours -> 3 < limit ->
  exists p' w', parse_bytes (osc_sequence (number (100 + osc_number slot))) p w = Some (p', w')
    /\ idle p' limit (<[slot_index slot := None]> colours).
Proof.
  intros Hid Hl.
  destruct (parse_osc (number (100 + osc_number slot)) p w limit colours Hid) as (q & p' & w' & v & Hb & He & Hc & Hp & Hid').
  - destruct slot; vm_compute; repeat constructor; done.
  - destruct slot; exact Hl.
  - exists p', w'. split; [done|]. rewrite <- Hc. revert Hid'. unfold dispatch_osc. rewrite Hb. by destruct slot.
Qed.

Lemma set_colour_sequence slot value p w limit colours :
  idle p limit colours -> stored_colour_ok (Some value) -> Forall (fun b => 32 <= b <= 255) value ->
  Z.of_nat (length value) + 3 < limit ->
  exists p' w', parse_bytes (osc_sequence (number (osc_number slot) ++ 59 :: value)) p w = Some (p', w')
    /\ idle p' limit (<[slot_index slot := Some value]> colours).
Proof.
  intros Hid (Hlen & Hutf & Hq) Hbytes Hl.
  destruct (parse_osc (number (osc_number slot) ++ 59 :: value) p w limit colours Hid) as (q & p' & w' & v & Hb & He & Hc & Hp & Hid').
  - apply Forall_app. split; [destruct slot; vm_compute; repeat constructor; done|]. constructor; [lia|done].
  - rewrite length_app. destruct slot; cbn [length]; change (length (number _)) with 2%nat; lia.
  - exists p', w'. split; [done|]. revert Hid'. unfold dispatch_osc. rewrite Hb.
    assert (forall call, osc_colours (osc_colour_command slot call (from_utf8_lossy value) q v).1
              = <[slot_index slot := Some value]> colours) as Hset.
    { intros call. rewrite from_utf8_lossy_valid by done. unfold osc_colour_command, answer_osc_colour_query. rewrite bool_decide_false by done. simpl.
      unfold set_osc_colour. rewrite (proj2 (Nat.ltb_ge _ _) Hlen). simpl. by rewrite Hc. }
    intros Hid'. destruct slot; [rewrite <- (Hset osc_fg_colour)|rewrite <- (Hset osc_bg_colour)|rewrite <- (Hset osc_cursor_colour)]; exact Hid'.
Qed.

(** What the serialization keeps of a colour. *)
Definition restorable (c : option (list Z)) : option (list Z) :=
  match c with
  | Some v => if existsb is_control (chars v) then None else Some v
  | None => None
  end.

Lemma restorable_bytes value :
  stored_colour_ok (Some value) -> Forall in_u8 value -> existsb is_control (chars value) = false ->
  Forall (fun b => 32 <= b <= 255) value.
Proof.
  intros (Hlen & Hutf & Hq) Hu8 Hctl. apply List.Forall_forall. intros b Hb. rewrite List.Forall_forall in Hu8.
  split; [|by apply Hu8]. apply (no_control_bytes value); [done| |by apply list_elem_of_In].
  apply forallb_forall. intros x Hx. apply negb_true_iff. destruct (is_control x) eqn:Hx'; [|done].
  assert (existsb is_control (chars value) = true) by (apply existsb_exists; eauto). congruence.
Qed.

Lemma colour_ansi_replay slot (c : option (list Z)) p0 p w limit colours :
  osc_colour p0 slot = c -> stored_colour_ok c -> (forall v, c = Some v -> Forall in_u8 v) -> 67 < limit ->
  idle p limit colours -> colours !! slot_index slot = Some None ->
  exists p' w', parse_bytes (colour_ansi p0 slot) p w = Some (p', w') /\ idle p' limit (<[slot_index slot := restorable c]> colours).
Proof.
  intros Hc Hok Hu8 Hl Hid Hnone. unfold colour_ansi, restorable. rewrite Hc.
  assert (<[slot_index slot := None]> colours = colours) as Hsame by (by apply list_insert_id).
  destruct c as [value|]; [|exists p, w; by rewrite Hsame].
  destruct (existsb is_control (chars value)) eqn:Hctl; [exists p, w; by rewrite Hsame|].
  assert (colour_reply slot value St = osc_sequence (number (osc_number slot) ++ 59 :: value)) as ->.
  { unfold colour_reply, osc_sequence. rewrite <- !app_assoc. done. }
  pose proof (restorable_bytes value Hok (Hu8 value eq_refl) Hctl) as Hbytes.
  apply set_colour_sequence; try done. destruct Hok as (Hlen & _). unfold OSC_COLOUR_MAX_LEN in Hlen. lia.
Qed.

Lemma parse_bytes_recovery p0 p w limit a b c :
  osc_colours p0 = [a; b; c] -> Forall stored_colour_ok [a; b; c] ->
  (forall v, Some v ∈ [a; b; c] -> Forall in_u8 v) ->
  state p = Ground -> length (osc_colours p) = 3%nat -> input_buf_max p = limit -> 67 < limit ->
  exists p' w', parse_bytes (recovery_dynamic_colours_ansi p0) p w = Some (p', w')
    /\ idle p' limit (map restorable [a; b; c]).
Proof.
  intros Hc Hok Hu8 Hs Hlen Hm Hl. apply Forall_cons in Hok as [Ha Hok]. apply Forall_cons in Hok as [Hb Hok].
  apply Forall_cons in Hok as [Hc' _].
  destruct (osc_colours p) as [|x [|y [|z [|]]]] eqn:Hcols; try done.
  assert (idle p limit [x; y; z]) as H0 by done.
  destruct (reset_colour_sequence Foreground p w limit _ H0 ltac:(lia)) as (p1 & w1 & R1 & I1).
  destruct (reset_colour_sequence Background p1 w1 limit _ I1 ltac:(lia)) as (p2 & w2 & R2 & I2).
  destruct (reset_colour_sequence Cursor p2 w2 limit _ I2 ltac:(lia)) as (p3 & w3 & R3 & I3). simpl in I3.
  assert (forall s, osc_colour p0 s = mjoin ([a; b; c] !! slot_index s)) as Hcol by (intros s'; unfold osc_colour; by rewrite Hc).
  destruct (colour_ansi_replay Foreground a p0 p3 w3 limit [None; None; None] (Hcol Foreground) Ha) as (p4 & w4 & R4 & I4);
    [intros v ->; apply Hu8; set_solver|done|exact I3|done|].
  destruct (colour_ansi_replay Background b p0 p4 w4 limit [restorable a; None; None] (Hcol Background) Hb) as (p5 & w5 & R5 & I5);
    [intros v ->; apply Hu8; set_solver|done|exact I4|done|].
  destruct (colour_ansi_replay Cursor c p0 p5 w5 limit [restorable a; restorable b; None] (Hcol Cursor) Hc') as (p6 & w6 & R6 & I6);
    [intros v ->; apply Hu8; set_solver|done|exact I5|done|].
  exists p6, w6. split; [|exact I6]. unfold recovery_dynamic_colours_ansi. cbn [map concat]. rewrite app_nil_r.
  change ([27] ++ bytes "]110" ++ [27; 92] ++ [27] ++ bytes "]111" ++ [27; 92] ++ [27] ++ bytes "]112" ++ [27; 92])
    with (osc_sequence (number 110) ++ osc_sequence (number 111) ++ osc_sequence (number 112)).
  rewrite <- !app_assoc.
  change (100 + osc_number Foreground) with 110 in R1. change (100 + osc_number Background) with 111 in R2.
  change (100 + osc_number Cursor) with 112 in R3.
  rewrite parse_bytes_app, R1. cbn [mbind option_bind]. rewrite parse_bytes_app, R2. cbn [mbind option_bind].
  rewrite parse_bytes_app, R3. cbn [mbind option_bind]. rewrite parse_bytes_app, R4. cbn [mbind option_bind].
  rewrite parse_bytes_app, R5. cbn [mbind option_bind]. exact R6.
Qed.

(** ** The loop of [parse]

    Bytes the loop sends through the tables one at a time: those read outside the
    ground state, ESC, and the bytes of characters beyond ASCII. *)

Lemma parse_loop_fuel fuel buf p w : (length buf <= fuel)%nat -> parse_loop fuel buf p w = parse_loop (length buf) buf p w.
Proof.
  revert buf p w. induction fuel as [fuel IH] using lt_wf_ind. intros buf p w Hlen.
  destruct buf as [|b buf]; [by destruct fuel|]. destruct fuel as [|fuel]; [simpl in Hlen; lia|]. cbn [length parse_loop].
  simpl in Hlen.
  assert (forall m buf' p w, (length buf' <= length buf)%nat -> (length buf <= m)%nat -> (m <= fuel)%nat ->
    parse_loop m buf' p w = parse_loop (length buf') buf' p w) as Hm by (intros; apply IH; lia).
  destruct (bool_decide (state p = Ground) && negb (utf8_started p)).
  - destruct (printable_run (b :: buf)) as [run after] eqn:Hr. destruct (printable_run_spec _ _ _ Hr) as [Hs _].
    destruct run as [|b' run].
    + destruct (handle_ground_c0_fast_path b p w) as [[p1 w1]|]; [by rewrite (Hm fuel) by lia|].
      destruct (parse_byte b p w) as [[p1 w1]|]; [|done]. simpl. by rewrite (Hm fuel) by lia.
    + destruct (handle_printable_ascii_run (b' :: run) p w) as [p1 w1].
      assert (length after <= length buf)%nat by (apply (f_equal length) in Hs; rewrite length_app in Hs; simpl in Hs; lia).
      by rewrite (Hm fuel), (Hm (length buf)) by lia.
  - destruct (parse_byte b p w) as [[p1 w1]|]; [|done]. simpl. by rewrite (Hm fuel) by lia.
Qed.

(** The loop with the fuel it is given. *)
Definition parse_rest (buf : list Z) (p : InputParser) (w : W) : option (InputParser * W) := parse_loop (length buf) buf p w.

Definition slow (b : Z) (p : InputParser) : Prop := state p <> Ground \/ b = 27 \/ 128 <= b.

Lemma parse_rest_slow b buf p w :
  slow b p -> parse_rest (b :: buf) p w = '(p, w) ← parse_byte b p w; parse_rest buf p w.
Proof.
  intros Hb. unfold parse_rest. cbn [length parse_loop].
  destruct (bool_decide (state p = Ground) && negb (utf8_started p)) eqn:Hf; [|done].
  apply andb_true_iff in Hf as [Hs%bool_decide_eq_true _]. destruct Hb as [?|Hb]; [done|].
  assert (is_printable b = false) as Hp by (unfold is_printable; lia). cbn [printable_run]. rewrite Hp.
  unfold handle_ground_c0_fast_path.
  assert ((10 <=? b) && (b <=? 12) = false) as -> by lia. assert (b =? 13 = false) as -> by lia. done.
Qed.

(** Every byte of [bs], read from state [s], takes that way. *)
Fixpoint by_tables (s : InputState) (bs : list Z) : bool :=
  match bs with
  | [] => true
  | b :: bs => (bool_decide (s <> Ground) || (b =? 27) || (128 <=? b)) && negb (b =? 7) && by_tables (table_state s [b]) bs
  end.

Lemma by_tables_app s a b : by_tables s (a ++ b) = by_tables s a && by_tables (table_state s a) b.
Proof.
  revert s. induction a as [|x a IH]; intros s; [done|]. cbn [app by_tables]. rewrite IH.
  change (table_state s (x :: a)) with (table_state (table_state s [x]) a). by rewrite !andb_assoc.
Qed.

Lemma parse_rest_tables bs buf p w :
  by_tables (state p) bs = true -> parse_rest (bs ++ buf) p w = '(p, w) ← parse_bytes bs p w; parse_rest buf p w.
Proof.
  revert p w. induction bs as [|b bs IH]; intros p w Hb; [done|]. cbn [by_tables] in Hb.
  apply andb_true_iff in Hb as [[Hb H7]%andb_true_iff Hbs]. cbn [app]. rewrite parse_rest_slow.
  - cbn [parse_bytes]. destruct (parse_byte b p w) as [[p1 w1]|] eqn:H1; [|done]. simpl. apply IH.
    rewrite (parse_byte_state b p w p1 w1) by (done || lia). exact Hbs.
  - unfold slow. rewrite !orb_true_iff, bool_decide_eq_true, Z.eqb_eq, Z.leb_le in Hb. tauto.
Qed.

Lemma parse_parse_rest buf p w : parse buf p w = parse_rest buf (with_printed_in_current_parse false p) w.
Proof. done. Qed.

Lemma equiv_rendition p q : p ≡ q -> rendition p = rendition q /\ utf8_started p = utf8_started q.
Proof.
  unfold equiv, parser_equiv, same_marks. intros Hpq.
  split; [exact (f_equal rendition Hpq)|exact (f_equal utf8_started Hpq)].
Qed.

(** From the tables to the parser. *)
Lemma parse_of_bytes buf p w p1 w1 :
  by_tables (state p) buf = true -> parse_bytes buf p w = Some (p1, w1) ->
  exists p', parse buf p w = Some (p', w1) /\ p' ≡ p1.
Proof.
  intros Hb H1. pose proof (parse_rest_tables buf [] (with_printed_in_current_parse false p) w Hb) as Hp.
  rewrite app_nil_r in Hp. rewrite parse_parse_rest, Hp. clear Hp.
  pose proof (parse_bytes_equiv buf p (with_printed_in_current_parse false p) w ltac:(done)) as He. rewrite H1 in He.
  inversion He as [? [p' w'] [Heq Hw] E1 E2|]; subst. simpl in *. subst. exists p'. split; [done|]. by symmetry.
Qed.

Lemma table_state_app s a b : table_state s (a ++ b) = table_state (table_state s a) b.
Proof. apply fold_left_app. Qed.

Lemma csi_by_tables bs b :
  forallb is_param bs = true -> 64 <= b <= 126 ->
  by_tables Ground ([27; 91] ++ bs ++ [b]) = true /\ table_state Ground ([27; 91] ++ bs ++ [b]) = Ground.
Proof.
  intros Hbs Hb.
  assert (forall s bs, s = CsiEnter \/ s = CsiParameter -> forallb is_param bs = true ->
    by_tables s (bs ++ [b]) = true /\ table_state s (bs ++ [b]) = Ground) as Hin.
  { clear bs Hbs. intros s bs. revert s. induction bs as [|x bs IH]; intros s Hs Hbs.
    - cbn [app by_tables]. rewrite bool_decide_true by (destruct Hs as [-> | ->]; done).
      rewrite (proj2 (Z.eqb_neq b 7)) by lia. split; [done|]. unfold table_state. cbn [fold_left].
      by rewrite csi_transition_final.
    - cbn [forallb] in Hbs. apply andb_true_iff in Hbs as [Hx Hbs]. cbn [app by_tables].
      rewrite bool_decide_true by (destruct Hs as [-> | ->]; done).
      assert (x =? 7 = false) as -> by (unfold is_param, is_digit in Hx; lia).
      change (table_state s (x :: bs ++ [b])) with (table_state (table_state s [x]) (bs ++ [b])). simpl orb. simpl andb.
      apply IH; [|done]. unfold table_state. cbn [fold_left]. rewrite csi_transition_param by done. simpl.
      destruct (decide (s = CsiEnter)); [by right|simpl; tauto]. }
  rewrite by_tables_app, table_state_app. change (by_tables Ground [27; 91]) with true.
  change (table_state Ground [27; 91]) with CsiEnter. simpl andb. apply Hin; [by left|done].
Qed.

Lemma osc_by_tables data :
  Forall (fun b => 32 <= b <= 255) data ->
  by_tables Ground (osc_sequence data) = true /\ table_state Ground (osc_sequence data) = Ground.
Proof.
  intros Hd. unfold osc_sequence.
  assert (by_tables OscString data = true /\ table_state OscString data = OscString) as [H1 H2].
  { induction Hd as [|b data Hb Hd IH]; [done|]. cbn [by_tables].
    assert (table_state OscString [b] = OscString) as E by (unfold table_state; cbn [fold_left]; by rewrite osc_transition_input).
    change (table_state OscString (b :: data)) with (table_state (table_state OscString [b]) data). rewrite E.
    rewrite bool_decide_true by done. rewrite (proj2 (Z.eqb_neq b 7)) by lia. exact IH. }
  rewrite !by_tables_app, !table_state_app. change (table_state Ground [27; 93]) with OscString. rewrite H1, H2. done.
Qed.

Lemma recovery_by_tables p0 a b c :
  osc_colours p0 = [a; b; c] -> Forall stored_colour_ok [a; b; c] -> (forall v, Some v ∈ [a; b; c] -> Forall in_u8 v) ->
  by_tables Ground (recovery_dynamic_colours_ansi p0) = true.
Proof.
  intros Hc Hok Hu8. unfold recovery_dynamic_colours_ansi. rewrite by_tables_app.
  match goal with |- by_tables Ground ?x && by_tables (table_state Ground ?x) ?y = true =>
    change (by_tables Ground y = true) end.
  assert (forall slot, by_tables Ground (colour_ansi p0 slot) = true /\ table_state Ground (colour_ansi p0 slot) = Ground) as Hs.
  { intros slot. unfold colour_ansi. destruct (osc_colour p0 slot) as [value|] eqn:Ho; [|done].
    destruct (existsb is_control (chars value)) eqn:Hctl; [done|].
    assert (Some value ∈ [a; b; c]) as Hin.
    { unfold osc_colour in Ho. rewrite Hc in Ho. destruct slot; simpl in Ho; rewrite Ho; set_solver. }
    assert (colour_reply slot value St = osc_sequence (number (osc_number slot) ++ 59 :: value)) as ->.
    { unfold colour_reply, osc_sequence. rewrite <- !app_assoc. done. }
    apply osc_by_tables. apply Forall_app. split; [destruct slot; vm_compute; repeat constructor; done|]. constructor; [lia|].
    apply restorable_bytes; [|by apply Hu8|done]. rewrite List.Forall_forall in Hok. apply Hok. by apply list_elem_of_In. }
  cbn [map concat]. rewrite app_nil_r, !by_tables_app.
  destruct (Hs Foreground) as [-> ->], (Hs Background) as [-> ->], (Hs Cursor) as [-> _]. done.
Qed.

(** ** Characters and control sequences in turn *)

(** The cell [c] with the style [gc]. *)
Definition with_style (gc : GridCell) (c : CellState) : CellState := mkCellState gc (set c) (g0set c) (g1set c).

(** Between characters, in the style [gc] and otherwise the cell [base]. *)
Definition in_style (p : InputParser) (base : CellState) (gc : GridCell) (last : option Z) : Prop :=
  state p = Ground /\ utf8_started p = false /\ pcell p = with_style gc base /\ last_char p = last.

(** Reading [bs] only ends collections, [n] times, and selects the style [gc]. *)
Definition selects (bs : list Z) (base : CellState) (gc0 gc : GridCell) (n : nat) : Prop :=
  forall p (w : W) last, in_style p base gc0 last ->
  exists p', parse_bytes bs p w = Some (p', run_calls (replicate n collect_end) w) /\ in_style p' base gc last.

(** What the screen is told for a character. *)
Definition char_call (cell : CellState) (acs : bool) (c : Z) : WriterCall :=
  if c <? 128 then collect_add_with_charset c cell acs else collect_add c cell.

Definition base_acs (base : CellState) : bool := negb ((if set base =? 0 then g0set base else g1set base) =? 0).

Inductive item : Type := Glyph (c : Z) | Control (bs : list Z).

Definition item_bytes (i : item) : list Z := match i with Glyph c => encode_utf8 c | Control bs => bs end.
Definition items_bytes (its : list item) : list Z := concat (map item_bytes its).

(** What the items tell the screen, from one style to another. *)
Inductive shows (base : CellState) : list item -> GridCell -> list WriterCall -> GridCell -> Prop :=
| shows_end gc : shows base [] gc [] gc
| shows_glyph c its gc calls gc' :
    text_char c = true -> shows base its gc calls gc' ->
    shows base (Glyph c :: its) gc (char_call (with_style gc base) (base_acs base) c :: calls) gc'
| shows_control bs n its gc gc1 calls gc' :
    by_tables Ground (27 :: bs) = true -> table_state Ground (27 :: bs) = Ground -> selects (27 :: bs) base gc gc1 n ->
    shows base its gc1 calls gc' -> shows base (Control (27 :: bs) :: its) gc (replicate n collect_end ++ calls) gc'.

Lemma expand_app a b : expand (a ++ b) = expand a ++ expand b.
Proof. unfold expand. by rewrite map_app, concat_app. Qed.

Lemma expand_ends n : expand (replicate n collect_end) = replicate n collect_end.
Proof. induction n as [|n IH]; [done|]. unfold expand in *. simpl. by rewrite IH. Qed.

Lemma run_calls_app a b (w : W) : run_calls (a ++ b) w = run_calls b (run_calls a w).
Proof. apply fold_left_app. Qed.

Definition last_glyph (its : list item) (last : option Z) : option Z :=
  fold_left (fun l i => match i with Glyph c => Some c | Control _ => l end) its last.

(** Reading the rest of a buffer draws [calls]. *)
Definition rest_draws (buf : list Z) (base : CellState) (gc : GridCell) (last : option Z) (calls : list WriterCall)
    (gc' : GridCell) (last' : option Z) : Prop :=
  forall p w, in_style p base gc last ->
  exists p' cs, parse_rest buf p w = Some (p', run_calls cs w) /\ expand cs = calls /\ in_style p' base gc' last'.

(** A maximal run of ASCII characters. *)
Lemma printable_run_glyphs its gc calls gc' base :
  shows base its gc calls gc' ->
  exists run its2 calls2, its = map Glyph run ++ its2 /\ printable_run (items_bytes its) = (run, items_bytes its2)
    /\ shows base its2 gc calls2 gc'
    /\ calls = map (fun b => collect_add_with_charset b (with_style gc base) (base_acs base)) run ++ calls2.
Proof.
  induction 1 as [gc|c its gc calls gc' Hc Hs IH|bs n its gc gc1 calls gc' Hb Hg Hsel Hs IH].
  - exists [], [], []. split; [done|]. split; [done|]. split; [constructor|done].
  - destruct (is_printable c) eqn:Hp.
    + destruct IH as (run & its2 & calls2 & -> & Hr & Hs2 & ->). exists (c :: run), its2, calls2.
      assert (c < 128) as Hlt by (unfold is_printable in Hp; lia).
      split; [done|]. split; [|split; [done|]].
      * unfold items_bytes in *. cbn [map concat item_bytes]. unfold encode_utf8. rewrite (proj2 (Z.ltb_lt c 128)) by done.
        cbn [app printable_run]. by rewrite Hp, Hr.
      * unfold char_call. by rewrite (proj2 (Z.ltb_lt c 128)) by done.
    + exists [], (Glyph c :: its), (char_call (with_style gc base) (base_acs base) c :: calls).
      split; [done|]. split; [|split; [by constructor|done]].
      unfold text_char in Hc. rewrite Hp in Hc. apply andb_true_iff in Hc as [Hsc Hge%Z.leb_le].
      destruct (encode_utf8_part c [] Hsc) as (b & rest & Henc & Hpart & Hdec & _).
      unfold items_bytes. cbn [map concat item_bytes]. rewrite Henc. cbn [app printable_run].
      assert (is_printable b = false) as ->; [|done].
      destruct (is_printable b) eqn:Hpb; [|done]. exfalso. unfold is_printable in Hpb.
      rewrite app_nil_r in Hpart. destruct (utf8_part_inv _ _ _ Hpart)
        as [[? Hk]|[(x & r & -> & Hk & ?)|[(x & y & r & -> & Hk & ?)|(x & y & z & r & -> & Hk & ?)]]]; try lia.
      destruct rest; [|done]. simpl in Hdec. lia.
  - exists [], (Control (27 :: bs) :: its), (replicate n collect_end ++ calls). split; [done|]. split; [done|]. split; [by econstructor|done].
Qed.

Lemma in_style_acs p base gc last : in_style p base gc last -> acs p = base_acs base.
Proof. intros (_ & _ & Hc & _). unfold acs, base_acs. by rewrite Hc. Qed.

Lemma in_style_rest p base gc last : in_style p base gc last -> in_style (with_printed_in_current_parse false p) base gc last.
Proof. done. Qed.

(** A run goes to the screen at once. *)
Lemma run_draws run buf base gc last calls gc' last' :
  run <> [] -> printable_run (run ++ buf) = (run, buf) ->
  rest_draws buf base gc (List.last (map Some run) None) calls gc' last' ->
  rest_draws (run ++ buf) base gc last
    (map (fun b => collect_add_with_charset b (with_style gc base) (base_acs base)) run ++ calls) gc' last'.
Proof.
  intros Hne Hrun Hbuf p w Hp. pose proof (in_style_acs _ _ _ _ Hp) as Ha. destruct Hp as (Hs & Hu & Hc & Hl).
  unfold parse_rest. destruct run as [|b run]; [done|]. cbn [app length parse_loop].
  rewrite bool_decide_true by done. rewrite Hu. cbn [negb andb]. change (b :: run ++ buf) with ((b :: run) ++ buf). rewrite Hrun.
  destruct (handle_printable_ascii_run (b :: run) p w) as [p1 w1] eqn:Hh. unfold handle_printable_ascii_run in Hh.
  rewrite Ha, Hc in Hh.
  assert (w1 = write (collect_add_ascii_run (b :: run) (with_style gc base) (base_acs base)) w) as -> by congruence.
  destruct (Hbuf p1 (write (collect_add_ascii_run (b :: run) (with_style gc base) (base_acs base)) w)) as (p' & cs & E & D & Hp').
  { injection Hh as <-. destruct (exists_last Hne) as (l & x & E). rewrite E, last_snoc, map_app. simpl map.
    rewrite List.last_last. done. }
  exists p', (collect_add_ascii_run (b :: run) (with_style gc base) (base_acs base) :: cs).
  rewrite parse_loop_fuel by (rewrite length_app; lia). split; [exact E|]. split; [|done].
  change (?c :: cs) with ([c] ++ cs). rewrite expand_app, D. unfold expand. simpl. by rewrite app_nil_r.
Qed.

(** A character beyond ASCII goes through the tables. *)
Lemma encode_utf8_high c : is_scalar c = true -> 128 <= c -> Forall (fun b => 128 <= b) (encode_utf8 c).
Proof.
  intros Hsc Hge. destruct (encode_utf8_part c [] Hsc) as (b & rest & Henc & Hpart & Hdec & _). rewrite Henc.
  rewrite app_nil_r in Hpart. destruct (utf8_part_inv _ _ _ Hpart)
    as [[? Hk]|[(x & r & -> & Hk & ?)|[(x & y & r & -> & Hk & ?)|(x & y & z & r & -> & Hk & ?)]]]; simpl in Hk.
  1: { destruct rest; [|done]. simpl in Hdec. lia. }
  all: destruct r; try done; repeat constructor; lia.
Qed.

Lemma high_by_tables s bs : Forall (fun b => 128 <= b) bs -> by_tables s bs = true.
Proof.
  intros Hbs. revert s. induction Hbs as [|b bs Hb Hbs IH]; intros s; [done|]. cbn [by_tables]. rewrite IH.
  rewrite (proj2 (Z.leb_le 128 b)), (proj2 (Z.eqb_neq b 7)) by lia. by rewrite orb_true_r.
Qed.

Lemma glyph_draws c buf base gc last calls gc' last' :
  is_scalar c = true -> 128 <= c -> rest_draws buf base gc (Some c) calls gc' last' ->
  rest_draws (encode_utf8 c ++ buf) base gc last (collect_add c (with_style gc base) :: calls) gc' last'.
Proof.
  intros Hsc Hge Hbuf p w (Hs & Hu & Hc & Hl).
  destruct (parse_character c p w Hsc Hge Hs Hu) as (p1 & H1 & Hs1 & Hu1 & Hc1 & Hl1).
  rewrite parse_rest_tables by (by apply high_by_tables, encode_utf8_high). rewrite H1. simpl.
  destruct (Hbuf p1 (write (collect_add c (pcell p)) w)) as (p' & cs & E & D & Hp').
  { split; [done|]. split; [done|]. split; [congruence|done]. }
  exists p', (collect_add c (pcell p) :: cs). split; [exact E|]. split; [|done].
  change (?c :: cs) with ([c] ++ cs). rewrite expand_app, D, Hc. done.
Qed.

Lemma control_draws bs n buf base gc gc1 last calls gc' last' :
  by_tables Ground bs = true -> selects bs base gc gc1 n -> rest_draws buf base gc1 last calls gc' last' ->
  rest_draws (bs ++ buf) base gc last (replicate n collect_end ++ calls) gc' last'.
Proof.
  intros Hb Hsel Hbuf p w Hp. destruct (Hsel p w last Hp) as (p1 & H1 & Hp1). destruct Hp as (Hs & _).
  rewrite parse_rest_tables by (by rewrite Hs). rewrite H1. simpl.
  destruct (Hbuf p1 (run_calls (replicate n collect_end) w) Hp1) as (p' & cs & E & D & Hp').
  exists p', (replicate n collect_end ++ cs). split; [by rewrite run_calls_app|]. split; [|done].
  by rewrite expand_app, expand_ends, D.
Qed.

(** Any sequence of characters and control sequences. *)
Lemma items_draw base its gc calls gc' last :
  shows base its gc calls gc' -> rest_draws (items_bytes its) base gc last calls gc' (last_glyph its last).
Proof.
  remember (length its) as n eqn:Hn. revert its gc calls gc' last Hn. induction n as [n IH] using lt_wf_ind.
  intros its gc calls gc' last Hn Hs. destruct (printable_run_glyphs _ _ _ _ _ Hs) as (run & its2 & calls2 & E & Hr & Hs2 & Hc).
  destruct run as [|b run].
  - simpl in E, Hc. subst its2 calls2. clear Hs2. destruct Hs as [gc|c its gc calls gc' Ht Hs|bs m its gc gc1 calls gc' Hb Hg Hsel Hs].
    + intros p w Hp. exists p, []. done.
    + unfold items_bytes. cbn [map concat item_bytes]. fold (items_bytes its). unfold last_glyph. cbn [fold_left].
      fold (last_glyph its (Some c)). simpl in Hn. pose proof (IH (length its) ltac:(lia) its gc calls gc' (Some c) eq_refl Hs) as Hrest.
      unfold text_char in Ht. unfold char_call. destruct (Z.ltb_spec c 128) as [Hlt|Hge].
      * assert (is_printable c = true) as Hp.
        { apply orb_true_iff in Ht as [?|Ht]; [done|]. apply andb_true_iff in Ht as [_ Ht%Z.leb_le]. lia. }
        exfalso. unfold items_bytes in Hr. cbn [map concat item_bytes] in Hr. unfold encode_utf8 in Hr.
        rewrite (proj2 (Z.ltb_lt c 128)) in Hr by done. cbn [app printable_run] in Hr. rewrite Hp in Hr.
        by destruct (printable_run _).
      * apply glyph_draws; [|done|done]. apply orb_true_iff in Ht as [Ht|Ht]; [unfold is_printable in Ht; lia|].
        by apply andb_true_iff in Ht as [? _].
    + unfold items_bytes. cbn [map concat item_bytes]. fold (items_bytes its). simpl in Hn.
      apply (control_draws _ _ _ _ _ gc1); [done|done|]. exact (IH (length its) ltac:(lia) its gc1 calls gc' last eq_refl Hs).
  - subst its calls. assert (items_bytes (map Glyph (b :: run) ++ its2) = (b :: run) ++ items_bytes its2) as Eb.
    { apply printable_run_spec in Hr as [-> _]. done. }
    rewrite Eb in *. apply run_draws; [done|done|].
    assert (last_glyph (map Glyph (b :: run) ++ its2) last = last_glyph its2 (List.last (map Some (b :: run)) None)) as ->.
    { unfold last_glyph. rewrite fold_left_app. f_equal. clear. revert b last. induction run as [|x run IH]; intros b last; [done|].
      cbn [map fold_left]. exact (IH x (Some b)). }
    rewrite length_app, length_map in Hn. simpl in Hn. exact (IH (length its2) ltac:(lia) its2 gc calls2 gc' _ eq_refl Hs2).
Qed.

(** ** The theorems about [parse] *)

(** C9. Printed text reaches the screen, on every screen: the UTF-8 encoding of any
    text without control characters, read in the ground state, makes exactly the
    calls that add its characters in order, with the current attributes, ASCII
    through the selected character set, where neighbouring ASCII characters may
    be one call with a run ([expand] lists them one by one); the parser is back
    between characters with its attributes as before, and remembers the last
    character for REP. *)
Theorem text_reaches_screen cs p w :
  forallb text_char cs = true -> state p = Ground -> utf8_started p = false ->
  exists p' calls, parse (concat (map encode_utf8 cs)) p w = Some (p', run_calls calls w)
    /\ expand calls = map (char_call (pcell p) (acs p)) cs
    /\ state p' = Ground /\ utf8_started p' = false /\ pcell p' = pcell p
    /\ last_char p' = match last cs with Some c => Some c | None => last_char p end.
Proof.
  intros Hcs Hs Hu.
  assert (with_style (cell (pcell p)) (pcell p) = pcell p) as Hself by (by destruct (pcell p)).
  assert (shows (pcell p) (map Glyph cs) (cell (pcell p)) (map (char_call (pcell p) (acs p)) cs) (cell (pcell p))) as Hsh.
  { induction cs as [|c cs IH]; [constructor|]. cbn [forallb map] in *. apply andb_true_iff in Hcs as [Hc Hcs].
    rewrite <- Hself at 3. apply shows_glyph; auto. }
  destruct (items_draw _ _ _ _ _ (last_char p) Hsh (with_printed_in_current_parse false p) w) as (p' & calls & E & D & Hs' & Hu' & Hc' & Hl').
  { split; [done|]. split; [done|]. split; [by rewrite Hself|done]. }
  exists p', calls. unfold items_bytes in E. rewrite map_map in E. split; [exact E|]. split; [done|]. split; [done|]. split; [done|].
  split; [by rewrite Hc', Hself|]. rewrite Hl'. clear. revert p. unfold last_glyph. intros p. generalize (last_char p) as l.
  induction cs as [|c cs IH]; intros l; [done|]. cbn [map fold_left]. rewrite IH, last_cons. by destruct (last cs).
Qed.

(** C10. A control sequence does what it says, on every screen: ESC [, numbers
    separated by semicolons and a final character the table knows run that command, once, with exactly
    those numbers as parameters and the attributes, saved state, last character
    and colours as they were; the parser returns to the ground state with what the
    command left. The bounds are the parser's own: 24 parameters of at most 63
    bytes, each a non-negative i32. *)
Theorem csi_sequence_dispatched ps b cmd p w :
  state p = Ground -> Forall param_number ps -> (length ps <= PARAM_LIST_MAX)%nat -> (length (param_text ps) <= 63)%nat ->
  lookup_csi b [] = Some cmd ->
  exists q p', rendition q = rendition p /\ param_list q = map Number ps
    /\ (let '(q', w') := dispatch_csi_command cmd q (Nat.iter (3 + length (param_text ps)) (write collect_end) w) in
        parse (csi_sequence ps b) p w = Some (p', w') /\ state p' = Ground
        /\ pcell p' = pcell q' /\ saved p' = saved q' /\ reply_buf p' = reply_buf q').
Proof.
  intros Hs Hps Hlen Htext Hl. destruct (parse_bytes_csi ps b cmd p w Hs Hps Hlen Htext Hl) as (q & p1 & Hq & Hpl & Hd).
  destruct (dispatch_csi_command cmd q _) as [q' w'] eqn:Hcmd. destruct Hd as (H1 & Hs1 & Hr1).
  assert (by_tables (state p) (csi_sequence ps b) = true) as Ht.
  { rewrite Hs. apply (csi_by_tables (param_text ps)); [by apply param_text_params|by apply (lookup_csi_final b cmd)]. }
  destruct (parse_of_bytes _ _ _ _ _ Ht H1) as (p' & Hp & Heq). exists q, p'. rewrite Hcmd. split; [done|]. split; [done|].
  apply equiv_fields in Heq as Hf. apply equiv_rendition in Heq as [Hr _]. unfold rendition in Hr, Hr1. simpl in Hr1.
  split; [done|]. split_and!; intuition congruence.
Qed.

(** Dynamic colours survive recovery: what a parser serializes of the colours set
    with OSC 10, 11 and 12, read by another parser in the ground state whose limit
    is not below 68 bytes, leaves it with exactly those colours, whatever it had
    before; only colours with control characters, which are not serialized, are
    unknown afterwards. *)
Theorem recovery_restores_colours p0 limit0 p w :
  parser_ok limit0 p0 -> (forall v, Some v ∈ osc_colours p0 -> Forall in_u8 v) ->
  state p = Ground -> length (osc_colours p) = 3%nat -> 67 < input_buf_max p ->
  exists p' w', parse (recovery_dynamic_colours_ansi p0) p w = Some (p', w')
    /\ state p' = Ground /\ osc_colours p' = map restorable (osc_colours p0).
Proof.
  intros Hok Hu8 Hs Hlen Hl. destruct (ok_colours _ _ Hok) as [Hlen0 Hst].
  destruct (osc_colours p0) as [|a [|b [|c [|]]]] eqn:Hc; try done.
  destruct (parse_bytes_recovery p0 p w _ a b c Hc Hst Hu8 Hs Hlen eq_refl Hl) as (p1 & w1 & H1 & Hs1 & _ & Hc1).
  assert (by_tables (state p) (recovery_dynamic_colours_ansi p0) = true) as Ht by (rewrite Hs; by apply (recovery_by_tables p0 a b c)).
  destruct (parse_of_bytes _ _ _ _ _ Ht H1) as (p' & Hp & Heq). exists p', w1. split; [done|].
  apply equiv_fields in Heq as Hf. apply equiv_rendition in Heq as [Hr _]. unfold rendition in Hr.
  split; [intuition congruence|]. congruence.
Qed.

End Effects.

(** ** Witnesses *)

Lemma text_reaches_screen_witness :
  exists p' calls, parse (concat (map encode_utf8 [104; 105; 233; 8364; 128512])) new_parser screen = Some (p', run_calls calls screen)
    /\ expand calls = map (char_call default_cell_state false) [104; 105; 233; 8364; 128512]
    /\ state p' = Ground /\ utf8_started p' = false /\ pcell p' = default_cell_state /\ last_char p' = Some 128512.
Proof. apply (text_reaches_screen [104; 105; 233; 8364; 128512] new_parser screen); reflexivity. Defined.

Lemma csi_sequence_dispatched_witness :
  exists p' w', parse (csi_sequence [12; 40] 72) new_parser screen = Some (p', w')
    /\ state p' = Ground /\ last (calls w') = Some (cursor_move 39 11 true).
Proof.
  destruct (csi_sequence_dispatched [12; 40] 72 Cup new_parser screen) as (q & p' & Hq & Hpl & Hd);
    [done|repeat constructor; unfold_machine; lia|unfold PARAM_LIST_MAX; simpl; lia|vm_compute; lia|reflexivity|].
  revert Hd. cbn [dispatch_csi_command]. cbv zeta. rewrite Hpl. intros (Hp & Hs & _).
  eexists p', _. split; [exact Hp|]. split; [exact Hs|]. vm_compute. reflexivity.
Defined.

Lemma recovery_restores_colours_witness :
  let p0 := set_osc_colour Cursor [114; 101; 100] new_parser in
  exists p' w', parse (recovery_dynamic_colours_ansi p0) bold_parser screen = Some (p', w')
    /\ state p' = Ground /\ osc_colours p' = [None; None; Some [114; 101; 100]].
Proof.
  apply (recovery_restores_colours (set_osc_colour Cursor [114; 101; 100] new_parser) 8388608 bold_parser screen).
  - apply set_osc_colour_ok; [apply fresh_parser_ok|reflexivity|done].
  - intros v Hv. vm_compute in Hv. set_unfold in Hv. destruct Hv as [|[|[[= ->]|]]]; try done. repeat constructor; done.
  - reflexivity.
  - reflexivity.
  - vm_compute. reflexivity.
Defined.
