(* ===== verification/GridCell.v ===== *)
(** * Grid cells

    [crates/rmux-core/src/grid/cell.rs], the first half: the flags of a cell and
    of a line, the text of a cell (one character kept inline, anything longer
    boxed) and the cell with its style.  A string is the list of its bytes, so
    [inline] is the used part of the array [inline[..inline_len]]. *)

From S2P Require Import Prelude Utf8 InputCell.

(** ** Flags *)

Definition PADDING : Z := 1.
Definition CLEARED : Z := 2.
Definition TAB : Z := 4.
Definition SELECTED : Z := 16.
Definition REFLOW_GAP : Z := 64.

Definition WRAPPED : Z := 1.

(** [GridCellFlags] and [GridLineFlags] wrap a [u8]. *)
Definition flags_contains (flags other : Z) : bool := Z.land flags other =? other.
Definition flags_insert (flags other : Z) : Z := Z.lor flags other.
Definition flags_remove (flags other : Z) : Z := Z.ldiff flags other.

(** ** Text *)

Record CellText : Type := mkCellText {
  inline : list Z;
  extended : option (list Z)
}.

#[global] Instance CellText_eq_dec : EqDecision CellText.
Proof. solve_decision. Defined.

Definition text_from_char (ch : Z) : CellText := mkCellText (encode_utf8 ch) None.
Definition text_from_ascii_byte (byte : Z) : CellText := mkCellText [byte] None.

Definition text_new (text : list Z) : CellText :=
  match chars text with
  | [ch] => text_from_char ch
  | _ => mkCellText [] (Some text)
  end.

Definition as_str (t : CellText) : list Z :=
  match extended t with
  | Some text => text
  | None => inline t
  end.

Definition is_single_space (t : CellText) : bool :=
  bool_decide (extended t = None) && bool_decide (inline t = [32]).

(** ** Cells *)

Record GridCell : Type := mkCell {
  cell_text : CellText;
  cell_width : nat;
  cell_flags : Z;
  cell_attr : Z;
  cell_fg : Z;
  cell_bg : Z;
  cell_us : Z;
  cell_link : Z
}.

#[global] Instance GridCell_eq_dec : EqDecision GridCell.
Proof. solve_decision. Defined.

Definition blank_with_bg (bg : Z) : GridCell :=
  mkCell (text_from_char 32) 1 CLEARED 0 COLOUR_DEFAULT bg COLOUR_DEFAULT 0.

Definition default_cell : GridCell := blank_with_bg COLOUR_DEFAULT.

(** A printable cell in the parser's rendition. *)
Definition from_state (ch : Z) (width : nat) (state : InputCell.CellState) (flags : Z) : GridCell :=
  let c := InputCell.cell state in
  mkCell (text_from_char ch) width (flags_remove flags CLEARED)
    (InputCell.attr c) (InputCell.fg c) (InputCell.bg c) (InputCell.us c) (InputCell.link c).

Definition from_plain_ascii (byte : Z) : GridCell :=
  mkCell (text_from_ascii_byte byte) 1 0 0 COLOUR_DEFAULT COLOUR_DEFAULT COLOUR_DEFAULT 0.

Definition set_plain_ascii (byte : Z) (c : GridCell) : GridCell := from_plain_ascii byte.

Definition is_padding (c : GridCell) : bool := flags_contains (cell_flags c) PADDING.
Definition is_reflow_gap (c : GridCell) : bool := flags_contains (cell_flags c) REFLOW_GAP.

Definition has_default_style (c : GridCell) : bool :=
  (cell_attr c =? 0) && (cell_fg c =? COLOUR_DEFAULT) && (cell_bg c =? COLOUR_DEFAULT)
  && (cell_us c =? COLOUR_DEFAULT) && (cell_link c =? 0).

Definition has_non_default_style (c : GridCell) : bool := negb (has_default_style c).

Definition is_blank (c : GridCell) : bool :=
  flags_contains (cell_flags c) CLEARED && negb (flags_contains (cell_flags c) PADDING)
  && (cell_width c =? 1)%nat && is_single_space (cell_text c)
  && (cell_attr c =? 0) && (cell_fg c =? COLOUR_DEFAULT) && (cell_bg c =? COLOUR_DEFAULT)
  && (cell_us c =? COLOUR_DEFAULT) && (cell_link c =? 0).

Definition is_explicit_default_space (c : GridCell) : bool :=
  negb (flags_contains (cell_flags c) CLEARED) && negb (flags_contains (cell_flags c) PADDING)
  && (cell_width c =? 1)%nat && is_single_space (cell_text c) && has_default_style c.

Definition is_ascii (s : list Z) : bool := forallb (fun b => b <? 128) s.

Definition is_plain_default_ascii (c : GridCell) : bool :=
  (cell_width c =? 1)%nat && (cell_flags c =? 0)
  && (cell_attr c =? 0) && (cell_fg c =? COLOUR_DEFAULT) && (cell_bg c =? COLOUR_DEFAULT)
  && (cell_us c =? COLOUR_DEFAULT) && (cell_link c =? 0)
  && is_ascii (as_str (cell_text c)) && (length (as_str (cell_text c)) =? 1)%nat.

Definition set_text (text : list Z) (c : GridCell) : GridCell :=
  mkCell (text_new text) (cell_width c) (cell_flags c) (cell_attr c) (cell_fg c) (cell_bg c) (cell_us c) (cell_link c).
Definition set_width (width : nat) (c : GridCell) : GridCell :=
  mkCell (cell_text c) width (cell_flags c) (cell_attr c) (cell_fg c) (cell_bg c) (cell_us c) (cell_link c).
Definition set_flags (flags : Z) (c : GridCell) : GridCell :=
  mkCell (cell_text c) (cell_width c) flags (cell_attr c) (cell_fg c) (cell_bg c) (cell_us c) (cell_link c).
Definition set_attr (attr : Z) (c : GridCell) : GridCell :=
  mkCell (cell_text c) (cell_width c) (cell_flags c) attr (cell_fg c) (cell_bg c) (cell_us c) (cell_link c).
Definition set_fg (fg : Z) (c : GridCell) : GridCell :=
  mkCell (cell_text c) (cell_width c) (cell_flags c) (cell_attr c) fg (cell_bg c) (cell_us c) (cell_link c).
Definition set_bg (bg : Z) (c : GridCell) : GridCell :=
  mkCell (cell_text c) (cell_width c) (cell_flags c) (cell_attr c) (cell_fg c) bg (cell_us c) (cell_link c).
Definition set_us (us : Z) (c : GridCell) : GridCell :=
  mkCell (cell_text c) (cell_width c) (cell_flags c) (cell_attr c) (cell_fg c) (cell_bg c) us (cell_link c).

(** The column a wide character covers beside its own, as
    [reflow_logical_line_remapping_cursor] and [combine_char] make it. *)
Definition padding_of (c : GridCell) : GridCell := set_flags PADDING (set_width 0 (set_text [32] c)).

Definition add_flag (flag : Z) (c : GridCell) : GridCell := set_flags (flags_insert (cell_flags c) flag) c.
Definition drop_flag (flag : Z) (c : GridCell) : GridCell := set_flags (flags_remove (cell_flags c) flag) c.

(** ** Flags that are single bits *)

Lemma flags_contains_pow2 flags n : 0 <= n -> flags_contains flags (2 ^ n) = Z.testbit flags n.
Proof.
  intros Hn. unfold flags_contains. destruct (Z.testbit flags n) eqn:E.
  - apply Z.eqb_eq. apply Z.bits_inj'. intros m Hm. rewrite Z.land_spec, Z.pow2_bits_eqb by done.
    destruct (Z.eqb_spec n m) as [<-|]; [by rewrite E|by rewrite andb_false_r].
  - apply Z.eqb_neq. intros H. apply (f_equal (fun z => Z.testbit z n)) in H.
    rewrite Z.land_spec, Z.pow2_bits_true, E in H by done. done.
Qed.

Lemma contains_insert flags n m : 0 <= n -> 0 <= m ->
  flags_contains (flags_insert flags (2 ^ m)) (2 ^ n) = flags_contains flags (2 ^ n) || (n =? m).
Proof.
  intros Hn Hm. rewrite !flags_contains_pow2 by done. unfold flags_insert.
  rewrite Z.lor_spec, Z.pow2_bits_eqb by done. by rewrite (Z.eqb_sym m n).
Qed.

Lemma contains_remove flags n m : 0 <= n -> 0 <= m ->
  flags_contains (flags_remove flags (2 ^ m)) (2 ^ n) = flags_contains flags (2 ^ n) && negb (n =? m).
Proof.
  intros Hn Hm. rewrite !flags_contains_pow2 by done. unfold flags_remove.
  rewrite Z.ldiff_spec, Z.pow2_bits_eqb by done. by rewrite (Z.eqb_sym m n).
Qed.

(** ** Blank cells *)

Lemma is_blank_text c : is_blank c = true -> as_str (cell_text c) = [32] /\ is_padding c = false.
Proof.
  unfold is_blank, is_single_space, as_str, is_padding. intros H.
  repeat (apply andb_prop in H as [H ?]).
  repeat match goal with
  | H : bool_decide _ = true |- _ => apply bool_decide_eq_true in H
  | H : _ && _ = true |- _ => apply andb_prop in H as [? ?]
  end. split.
  - match goal with H : extended _ = None |- _ => rewrite H end. done.
  - by apply negb_true_iff.
Qed.

Lemma default_cell_blank : is_blank default_cell = true.
Proof. reflexivity. Qed.

Lemma from_plain_ascii_not_blank b : is_blank (from_plain_ascii b) = false.
Proof. reflexivity. Qed.

Lemma plain_default_ascii_text c :
  is_plain_default_ascii c = true -> exists b, as_str (cell_text c) = [b] /\ b < 128 /\ is_padding c = false.
Proof.
  unfold is_plain_default_ascii, is_padding. intros H. repeat (apply andb_prop in H as [H ?]).
  destruct (as_str (cell_text c)) as [|b [|b' bs]]; try done. exists b. split; [done|]. split.
  - match goal with H : is_ascii _ = true |- _ => apply andb_prop in H as [H _] end. by apply Z.ltb_lt.
  - match goal with H : (cell_flags c =? 0) = true |- _ => apply Z.eqb_eq in H; rewrite H end. done.
Qed.
