(* ===== verification/GridLine.v ===== *)
(** * Grid lines

    [crates/rmux-core/src/grid/cell.rs], [GridLine]: a row of cells, or, while
    the row only holds default single-column ASCII, its text in compact form.
    Columns are [nat].  Of [revision] only the low half is modelled, the count of
    changes that [touch] advances; the high half is the identity of the line,
    drawn from a process-wide atomic counter and never read by this code. *)

From S2P Require Import Prelude Utf8 InputCell GridCell.

#[local] Open Scope nat_scope.

Definition u16_limit : nat := Z.to_nat u16_max.
#[global] Arguments u16_limit : simpl never.

(** [u16::try_from(n).unwrap_or(u16::MAX)] *)
Definition u16_saturated (n : nat) : nat := n `min` u16_limit.

Definition LINE_REVISION_GENERATION_MASK : Z := 4294967295.

Record GridLine : Type := mkLine {
  cells : list GridCell;
  plain_text : option (list Z);
  line_width : nat;
  plain_text_data_end : nat;
  line_flags : Z;
  line_time : Z;
  revision : Z
}.

#[global] Instance GridLine_eq_dec : EqDecision GridLine.
Proof. solve_decision. Defined.

(** The part of a line that stores its contents. *)
Definition with_contents (cs : list GridCell) (text : option (list Z)) (width data_end : nat) (l : GridLine) : GridLine :=
  mkLine cs text width data_end (line_flags l) (line_time l) (revision l).
Definition with_cells (cs : list GridCell) (l : GridLine) : GridLine :=
  with_contents cs (plain_text l) (line_width l) (plain_text_data_end l) l.
Definition with_line_flags (f : Z) (l : GridLine) : GridLine :=
  mkLine (cells l) (plain_text l) (line_width l) (plain_text_data_end l) f (line_time l) (revision l).

(** ** Strings of bytes *)

(** [trim_end_matches(' ')], and the loop that pops trailing spaces *)
Fixpoint trim_end (s : list Z) : list Z :=
  match s with
  | [] => []
  | b :: rest =>
      match trim_end rest with
      | [] => if (b =? 32)%Z then [] else [b]
      | trimmed => b :: trimmed
      end
  end.

(** ** Making lines *)

Definition line_new (width : nat) : GridLine := mkLine [] (Some []) width 0 0 0 0.

Definition line_blank_with_bg (width : nat) (bg : Z) : GridLine :=
  if (bg =? COLOUR_DEFAULT)%Z then line_new width
  else mkLine (replicate width (blank_with_bg bg)) None width 0 0 0 0.

Definition from_plain_ascii_text (width : nat) (flags : Z) (text : list Z) : GridLine :=
  mkLine [] (Some text) width (u16_saturated (length text)) flags 0 0.

(** ** Marks *)

Definition touch (l : GridLine) : GridLine :=
  mkLine (cells l) (plain_text l) (line_width l) (plain_text_data_end l) (line_flags l) (line_time l)
    (Z.min (revision l + 1)%Z LINE_REVISION_GENERATION_MASK).

Definition touch_if (b : bool) (l : GridLine) : GridLine := if b then touch l else l.

Definition stamp_for_history_at (timestamp : Z) (l : GridLine) : GridLine :=
  if negb (line_time l =? 0)%Z then l
  else mkLine (cells l) (plain_text l) (line_width l) (plain_text_data_end l) (line_flags l) timestamp (revision l).

Definition is_wrapped (l : GridLine) : bool := flags_contains (line_flags l) WRAPPED.

Definition set_wrapped (wrapped : bool) (l : GridLine) : GridLine :=
  let was_wrapped := is_wrapped l in
  let l' := with_line_flags
    (if wrapped then flags_insert (line_flags l) WRAPPED else flags_remove (line_flags l) WRAPPED) l in
  touch_if (negb (Bool.eqb was_wrapped wrapped)) l'.

(** ** From the compact form to cells *)

Definition materialize_plain_text (width : nat) (l : GridLine) : GridLine :=
  match plain_text l with
  | None => l
  | Some text =>
      let cs := map from_plain_ascii text in
      let data_end := plain_text_data_end l `min` width in
      let cs := resize data_end (from_plain_ascii 32) cs in
      let cs := take width cs in
      let cs := if (length cs <? width) then resize width default_cell cs else cs in
      with_contents cs None width 0 l
  end.

Definition materialize_for_cell_mutation (l : GridLine) : GridLine :=
  match plain_text l with
  | Some _ => materialize_plain_text (line_width l) l
  | None => l
  end.

(** A write through [cell_mut(x)]: the line is materialized also when the column
    does not exist. *)
Definition cell_mut (x : nat) (f : GridCell -> GridCell) (l : GridLine) : GridLine :=
  let l := materialize_for_cell_mutation l in
  with_cells (alter f x (cells l)) l.

(** ** Reading *)

Definition cell_at (l : GridLine) (x : nat) : option GridCell :=
  if (line_width l <=? x) then None
  else match plain_text l with
       | Some text =>
           match text !! x with
           | Some byte => Some (from_plain_ascii byte)
           | None => Some (if (x <? plain_text_data_end l) then from_plain_ascii 32 else default_cell)
           end
       | None => cells l !! x
       end.

Definition is_padding_cell (l : GridLine) (x : nat) : bool :=
  match plain_text l with
  | Some _ => false
  | None => match cells l !! x with Some c => is_padding c | None => false end
  end.

(** The loop of [owning_cell_x]: to the left of column [x], from [owner]. *)
Fixpoint owner_loop (l : GridLine) (x owner : nat) : option nat :=
  match owner with
  | O => None
  | S owner =>
      c ← cell_at l owner;
      if is_padding c then owner_loop l x owner
      else if (x <? owner + (cell_width c `max` 1)) then Some owner else None
  end.

Definition owning_cell_x (l : GridLine) (x : nat) : option nat :=
  match plain_text l with
  | Some _ => if (x <? line_width l) then Some x else None
  | None => c ← cell_at l x; if is_padding c then owner_loop l x x else Some x
  end.

(** One past the last cell that is not blank. *)
Fixpoint used_cells (cs : list GridCell) : nat :=
  match cs with
  | [] => 0
  | c :: rest =>
      match used_cells rest with
      | O => if is_blank c then 0 else 1
      | n => S n
      end
  end.

Definition used_end (l : GridLine) : nat :=
  match plain_text l with
  | Some text => length text
  | None => used_cells (cells l)
  end.

(** ** Moving cells *)

(** [slice::rotate_left] and [rotate_right] *)
Definition rotate_left {A} (n : nat) (xs : list A) : list A := drop n xs ++ take n xs.
Definition rotate_right {A} (n : nat) (xs : list A) : list A :=
  drop (length xs - n) xs ++ take (length xs - n) xs.

Definition materialize_reflow_gaps (cs : list GridCell) : list GridCell :=
  map (fun c => if flags_contains (cell_flags c) REFLOW_GAP then drop_flag REFLOW_GAP c else c) cs.

Definition restore_trailing_reflow_gaps (count : nat) (cs : list GridCell) : list GridCell :=
  let cs := materialize_reflow_gaps cs in
  take (length cs - count) cs ++ map (add_flag REFLOW_GAP) (drop (length cs - count) cs).

Definition reflow_gaps (cs : list GridCell) : nat := length (filter (fun c => is_reflow_gap c = true) cs).

Definition insert_cells (start count : nat) (blank : GridCell) (l : GridLine) : GridLine :=
  let l := materialize_for_cell_mutation l in
  let cs := cells l in
  if (length cs <=? start) then l
  else
    let count := count `min` (length cs - start) in
    if (count =? 0) then l
    else
      let cs' := take start cs ++ replicate count blank ++ drop count (rotate_right count (drop start cs)) in
      with_cells (if (start + 1 =? length cs) then restore_trailing_reflow_gaps (reflow_gaps cs) cs'
                  else materialize_reflow_gaps cs') l.

Definition delete_cells (start count : nat) (blank : GridCell) (l : GridLine) : GridLine :=
  let l := materialize_for_cell_mutation l in
  let cs := cells l in
  if (length cs <=? start) then l
  else
    let count := count `min` (length cs - start) in
    if (count =? 0) then l
    else
      let cs' := take (length cs - count) (take start cs ++ rotate_left count (drop start cs)) ++ replicate count blank in
      with_cells (restore_trailing_reflow_gaps (reflow_gaps cs `min` count) cs') l.

(** ** Runs of plain characters *)

(** The text after [bytes] was written at [start]. *)
Definition splice_text (text : list Z) (start : nat) (bytes : list Z) : list Z :=
  let text := if (length text <? start) then resize start 32%Z text else text in
  let stop := (start + length bytes) in
  if (length text <? stop) then take start text ++ bytes
  else take start text ++ bytes ++ drop stop text.

Definition update_plain_text_cache (start : nat) (bytes : list Z) (l : GridLine) : GridLine :=
  let text := trim_end (splice_text (default [] (plain_text l)) start bytes) in
  let data_end := (plain_text_data_end l `max` (start + length bytes)) `max` length text in
  with_contents (cells l) (Some text) (line_width l) (u16_saturated data_end) l.

Definition can_cache_plain_ascii_run (start : nat) (l : GridLine) : bool :=
  match plain_text l with
  | Some _ => true
  | None => (start =? 0) && forallb is_blank (cells l)
  end.

(** [None] when the line refuses the run. *)
Definition write_plain_ascii_run (start : nat) (bytes : list Z) (l : GridLine) : option GridLine :=
  match bytes with
  | [] => Some l
  | _ =>
      let stop := (start + length bytes) in
      if (line_width l <? stop) then None
      else if bool_decide (is_Some (plain_text l)) && bool_decide (cells l = [])
      then Some (touch (update_plain_text_cache start bytes l))
      else if (length (cells l) <? stop) then None
      else if existsb (fun c => negb (cell_width c =? 1) || is_padding c) (take (stop - start) (drop start (cells l)))
      then None
      else if match cells l !! stop with Some c => is_padding c | None => false end then None
      else
        let cs := take start (cells l) ++ map from_plain_ascii bytes ++ drop stop (cells l) in
        Some (touch (if can_cache_plain_ascii_run start l
                     then update_plain_text_cache start bytes (with_cells cs l)
                     else with_contents cs None (line_width l) 0 l))
  end.

(** ** Clearing, resizing, compaction *)

Definition line_clear (bg : Z) (l : GridLine) : GridLine :=
  let l' :=
    if (bg =? COLOUR_DEFAULT)%Z then with_contents [] (Some []) (line_width l) 0 l
    else with_contents (replicate (line_width l) (blank_with_bg bg)) None (line_width l) 0 l in
  touch (with_line_flags 0 l').

Definition resize_width_internal (width : nat) (bg : Z) (preserve_wrap : bool) (l : GridLine) : GridLine :=
  let unwrap l := if preserve_wrap then l else with_line_flags (flags_remove (line_flags l) WRAPPED) l in
  match plain_text l with
  | Some text =>
      if (bg =? COLOUR_DEFAULT)%Z then
        let l' := with_contents (cells l) (Some (take width text)) width
                    (plain_text_data_end l `min` u16_saturated width) l in
        touch_if (negb (line_width l =? width) || (is_wrapped l && negb preserve_wrap)) (unwrap l')
      else
        let l' := materialize_plain_text width l in
        touch_if (is_wrapped l' && negb preserve_wrap) (unwrap l')
  | None =>
      let resized := negb (length (cells l) =? width) in
      let l' := if resized then with_contents (resize width (blank_with_bg bg) (cells l)) None width (plain_text_data_end l) l
                else l in
      touch_if (resized || (is_wrapped l' && negb preserve_wrap)) (unwrap l')
  end.

Definition resize_width_preserving_wrap (width : nat) (bg : Z) (l : GridLine) : GridLine :=
  resize_width_internal width bg true l.

Definition compacted_plain_text_clone (l : GridLine) : option GridLine :=
  match plain_text l with
  | Some text => Some (with_contents [] (Some text) (line_width l) (plain_text_data_end l) l)
  | None =>
      if existsb is_reflow_gap (cells l) then None
      else
        let used := used_end l in
        if (used =? 0) then Some (with_contents [] (Some []) (line_width l) 0 l)
        else
          let cs := take used (cells l) in
          if forallb is_plain_default_ascii cs
          then Some (with_contents [] (Some (concat (map (fun c => as_str (cell_text c)) cs))) (line_width l)
                       (u16_saturated used) l)
          else None
  end.

Definition try_compact_plain_text (l : GridLine) : bool * GridLine :=
  match plain_text l with
  | Some _ => (true, with_cells [] l)
  | None =>
      match compacted_plain_text_clone l with
      | Some compacted => (true, compacted)
      | None => (false, l)
      end
  end.

Definition compact_for_history (l : GridLine) : GridLine :=
  let '(compacted, l) := try_compact_plain_text l in
  if compacted then l
  else if is_wrapped l then l
  else if (used_end l <? length (cells l)) then with_cells (take (used_end l) (cells l)) l
  else l.

(** ** Reflow gaps *)

Definition mark_reflow_gap (start : nat) (l : GridLine) : GridLine :=
  let l := materialize_for_cell_mutation l in
  with_cells (take start (cells l) ++ map (add_flag REFLOW_GAP) (drop start (cells l))) l.

Definition mark_unused_suffix_as_reflow_gap (start : nat) (l : GridLine) : GridLine :=
  if (used_end l <=? start) then mark_reflow_gap start l else l.

(** [take_while] from the end *)
Definition trailing_reflow_gap (l : GridLine) : nat :=
  let fix go (cs : list GridCell) : nat :=
    match cs with
    | [] => 0%nat
    | c :: cs => if is_reflow_gap c then S (go cs) else 0%nat
    end in
  go (reverse (take (line_width l) (cells l))).

Definition reflow_logical_width (l : GridLine) : nat :=
  (line_width l - reflow_gaps (take (line_width l) (cells l))).

Definition reflow_logical_column (l : GridLine) (physical_column : nat) : nat :=
  let physical_column := (physical_column `min` line_width l) in
  (physical_column - reflow_gaps (take physical_column (cells l))).

(** ** The text of a line *)

(** The text of the cells, padding left out, as [render_text] concatenates it. *)
Definition cells_text (cs : list GridCell) : list Z :=
  concat (map (fun c => if flags_contains (cell_flags c) PADDING then [] else as_str (cell_text c)) cs).

Definition render_text (l : GridLine) : list Z :=
  match plain_text l with
  | Some text => trim_end text
  | None => trim_end (cells_text (cells l))
  end.

(** The loop of [rendered_text_len]: bytes so far, and how many of them up to the
    last that is not a space. *)
Definition text_len_step (acc : nat * nat) (c : GridCell) : nat * nat :=
  let '(total, trimmed) := acc in
  if flags_contains (cell_flags c) PADDING then acc
  else
    let text := as_str (cell_text c) in
    let total := (total + length text) in
    let without_trailing_spaces := length (trim_end text) in
    (total, if (0 <? without_trailing_spaces) then (total - (length text - without_trailing_spaces)) else trimmed).

Definition rendered_text_len (l : GridLine) : nat :=
  match plain_text l with
  | Some text => length (trim_end text)
  | None => snd (fold_left text_len_step (cells l) (0, 0))
  end.

Definition extended_cell_count (l : GridLine) : nat :=
  match plain_text l with
  | Some text => length text
  | None => length (filter (fun c => negb (is_blank c) && negb (is_padding c) = true) (take (used_end l) (cells l)))
  end.

Definition tmux_cell_capacity (l : GridLine) (width : nat) : nat :=
  if (used_end l =? 0) then 0
  else
    let bucket_used := extended_cell_count l `max` 1 in
    let quarter := (width / 4) `max` 1 in
    let half := (width / 2) `max` quarter in
    if (bucket_used <? quarter) then quarter
    else if (bucket_used <? half) then half
    else width.
