(* ===== verification/GridLineInv.v ===== *)
(** * What the two forms of a line have in common

    [view] is the row of cells a line stands for; the compact form and the cells
    it is expanded to have the same view and the same text.  [line_ok] is the
    invariant of a stored line and [cols_ok n] says that it has at least [n]
    columns; every operation of [GridLine] keeps them. *)

From S2P Require Import Prelude Utf8 InputCell GridCell GridLine.

#[local] Open Scope nat_scope.

Definition view (l : GridLine) : list GridCell :=
  match plain_text l with
  | Some text =>
      map from_plain_ascii text
      ++ replicate (plain_text_data_end l - length text) (from_plain_ascii 32)
      ++ replicate (line_width l - plain_text_data_end l) default_cell
  | None => cells l
  end.

Record line_ok (l : GridLine) : Prop := {
  line_ok_width : line_width l <= u16_limit;
  line_ok_contents :
    match plain_text l with
    | Some text => length text <= plain_text_data_end l <= line_width l /\ is_ascii text = true
    | None => length (cells l) <= line_width l /\ plain_text_data_end l = 0
    end
}.

(** At least [n] columns. *)
Definition cols_ok (n : nat) (l : GridLine) : Prop :=
  match plain_text l with
  | Some _ => n <= line_width l
  | None => n <= length (cells l)
  end.

(** A row of a screen with [n] columns. *)
Definition row_ok (n : nat) (l : GridLine) : Prop := line_ok l /\ cols_ok n l.

(** ** Trailing spaces *)

Lemma trim_end_app a b :
  trim_end (a ++ b) = match trim_end b with [] => trim_end a | t => a ++ t end.
Proof.
  induction a as [|x a IH]; simpl; [by destruct (trim_end b)|]. rewrite IH.
  destruct (trim_end b) as [|y t]; [done|]. by destruct a.
Qed.

Lemma trim_end_spaces n : trim_end (replicate n 32%Z) = [].
Proof. induction n as [|n IH]; simpl; [done|]. by rewrite IH. Qed.

Lemma trim_end_app_spaces a n : trim_end (a ++ replicate n 32%Z) = trim_end a.
Proof. by rewrite trim_end_app, trim_end_spaces. Qed.

Lemma trim_end_idemp s : trim_end (trim_end s) = trim_end s.
Proof.
  induction s as [|b s IH]; simpl; [done|]. destruct (trim_end s) as [|c t] eqn:E.
  - destruct (Z.eqb_spec b 32) as [|Hb]; [done|]. simpl. by destruct (Z.eqb_spec b 32).
  - change (trim_end (b :: c :: t) = b :: c :: t). cbn [trim_end] in *. by rewrite IH.
Qed.

Lemma trim_end_length s : length (trim_end s) <= length s.
Proof.
  induction s as [|b s IH]; simpl; [done|]. destruct (trim_end s) as [|c t]; simpl in *; [case_Zbool; simpl; lia|lia].
Qed.

Lemma is_ascii_trim s : is_ascii s = true -> is_ascii (trim_end s) = true.
Proof.
  induction s as [|b s IH]; simpl; [done|]. intros [Hb Hs]%andb_prop. specialize (IH Hs).
  destruct (trim_end s) as [|c t].
  - destruct (Z.eqb_spec b 32); simpl; [done|]. by rewrite Hb.
  - simpl. by rewrite Hb.
Qed.

Lemma trim_end_prefix s : exists n, s = trim_end s ++ replicate n 32%Z.
Proof.
  induction s as [|b s [n IH]]; [by exists 0|]. simpl. destruct (trim_end s) as [|c t].
  - destruct (Z.eqb_spec b 32) as [->|]; [exists (S n); simpl in *; by rewrite IH at 1|].
    exists n. simpl in *. by rewrite IH at 1.
  - exists n. simpl in *. by rewrite IH at 1.
Qed.

Lemma is_ascii_app a b : is_ascii (a ++ b) = is_ascii a && is_ascii b.
Proof. apply forallb_app. Qed.

Lemma is_ascii_take n s : is_ascii s = true -> is_ascii (take n s) = true.
Proof. rewrite <- (take_drop n s) at 1. rewrite is_ascii_app. by intros [? _]%andb_prop. Qed.

Lemma is_ascii_drop n s : is_ascii s = true -> is_ascii (drop n s) = true.
Proof. rewrite <- (take_drop n s) at 1. rewrite is_ascii_app. by intros [_ ?]%andb_prop. Qed.

Lemma is_ascii_spaces n : is_ascii (replicate n 32%Z) = true.
Proof. by induction n. Qed.

(** ** Used cells *)

Lemma used_cells_le cs : used_cells cs <= length cs.
Proof. induction cs as [|c cs IH]; simpl; [done|]. destruct (used_cells cs); [destruct (is_blank c); simpl; lia|lia]. Qed.

Lemma used_cells_blank cs : Forall (fun c => is_blank c = true) (drop (used_cells cs) cs).
Proof.
  induction cs as [|c cs IH]; simpl; [done|]. destruct (used_cells cs) as [|n] eqn:E.
  - destruct (is_blank c) eqn:Hc; simpl; [by constructor|]. done.
  - done.
Qed.

Lemma used_cells_app_blank cs n : used_cells (cs ++ replicate n default_cell) = used_cells cs.
Proof.
  induction cs as [|c cs IH]; simpl; [|by rewrite IH].
  induction n as [|n IH]; simpl; [done|]. by rewrite IH.
Qed.

Lemma used_cells_last cs n : used_cells cs = S n -> exists c, cs !! n = Some c /\ is_blank c = false.
Proof.
  revert n. induction cs as [|c cs IH]; simpl; intros n Hn; [done|].
  destruct (used_cells cs) as [|m].
  - destruct (is_blank c) eqn:Hc; simplify_eq. by exists c.
  - simplify_eq. destruct (IH m eq_refl) as (d & ? & ?). by exists d.
Qed.

(** ** Text of cells *)

Lemma cells_text_app a b : cells_text (a ++ b) = cells_text a ++ cells_text b.
Proof. unfold cells_text. by rewrite map_app, concat_app. Qed.

Lemma cells_text_plain s : cells_text (map from_plain_ascii s) = s.
Proof. induction s as [|b s IH]; [done|]. change (b :: cells_text (map from_plain_ascii s) = b :: s). by rewrite IH. Qed.

Lemma cells_text_blank cs : Forall (fun c => is_blank c = true) cs -> cells_text cs = replicate (length cs) 32%Z.
Proof.
  induction 1 as [|c cs Hc Hcs IH]; [done|]. apply is_blank_text in Hc as [Ht Hp].
  unfold cells_text in *. simpl. unfold is_padding in Hp. by rewrite Hp, Ht, IH.
Qed.

Lemma cells_text_default n : cells_text (replicate n default_cell) = replicate n 32%Z.
Proof. rewrite cells_text_blank, length_replicate; [done|]. by apply Forall_replicate. Qed.

Lemma cells_text_spaces n : cells_text (replicate n (from_plain_ascii 32)) = replicate n 32%Z.
Proof. rewrite <- (cells_text_plain (replicate n 32%Z)). f_equal. induction n as [|n IH]; simpl; [done|]. by rewrite IH. Qed.

Lemma trim_used cs : trim_end (cells_text (take (used_cells cs) cs)) = trim_end (cells_text cs).
Proof.
  rewrite <- (take_drop (used_cells cs) cs) at 3. rewrite cells_text_app.
  rewrite (cells_text_blank (drop _ _)) by apply used_cells_blank. by rewrite trim_end_app_spaces.
Qed.

Lemma cells_text_ascii cs :
  forallb is_plain_default_ascii cs = true -> cells_text cs = concat (map (fun c => as_str (cell_text c)) cs).
Proof.
  induction cs as [|c cs IH]; [done|]. intros [Hc Hcs]%andb_prop. unfold cells_text in *. simpl.
  destruct (plain_default_ascii_text c Hc) as (b & _ & _ & Hp). unfold is_padding in Hp. by rewrite Hp, IH.
Qed.

Lemma ascii_cells_text cs :
  forallb is_plain_default_ascii cs = true ->
  length (concat (map (fun c => as_str (cell_text c)) cs)) = length cs
  /\ is_ascii (concat (map (fun c => as_str (cell_text c)) cs)) = true.
Proof.
  induction cs as [|c cs IH]; [done|]. intros [Hc Hcs]%andb_prop. destruct (IH Hcs) as [IHl IHa].
  destruct (plain_default_ascii_text c Hc) as (b & Hb & Hlt & _). simpl. rewrite Hb. simpl.
  split; [by rewrite IHl|]. rewrite IHa. by apply Z.ltb_lt in Hlt as ->.
Qed.

(** ** The length of the text *)

Lemma text_len_fold cs total trimmed :
  fold_left text_len_step cs (total, trimmed)
  = (total + length (cells_text cs),
     match trim_end (cells_text cs) with [] => trimmed | t => total + length t end).
Proof.
  revert total trimmed. induction cs as [|c cs IH]; intros total trimmed; simpl; [by rewrite Nat.add_0_r|].
  change (cells_text (c :: cs)) with (cells_text ([c] ++ cs)). rewrite cells_text_app.
  replace (cells_text [c]) with (if flags_contains (cell_flags c) PADDING then [] else as_str (cell_text c))
    by (unfold cells_text; simpl; by rewrite app_nil_r).
  destruct (flags_contains (cell_flags c) PADDING); [done|]. rewrite IH, trim_end_app, length_app.
  pose proof (trim_end_length (as_str (cell_text c))) as Hle.
  f_equal; [lia|]. destruct (trim_end (cells_text cs)) as [|x t].
  - destruct (trim_end (as_str (cell_text c))) as [|y u]; simpl in *; [done|lia].
  - destruct (as_str (cell_text c)) as [|y u]; simpl; rewrite ?length_app; simpl; lia.
Qed.

Lemma rendered_text_len_eq l : rendered_text_len l = length (render_text l).
Proof.
  unfold rendered_text_len, render_text. destruct (plain_text l) as [text|]; [done|].
  rewrite text_len_fold. simpl. by destruct (trim_end (cells_text (cells l))).
Qed.

(** ** Both forms of a line *)

Lemma view_length l : line_ok l ->
  length (view l) = match plain_text l with Some _ => line_width l | None => length (cells l) end.
Proof.
  intros [_ H]. unfold view. destruct (plain_text l) as [text|]; [|done].
  rewrite !length_app, length_map, !length_replicate. lia.
Qed.

Lemma cell_at_view l x : line_ok l -> cell_at l x = view l !! x.
Proof.
  intros Hok. pose proof (view_length l Hok) as Hlen. destruct Hok as [_ Hok]. unfold cell_at.
  destruct (Nat.leb_spec (line_width l) x) as [Hx|Hx].
  - symmetry. apply lookup_ge_None. rewrite Hlen. destruct (plain_text l); lia.
  - clear Hlen. unfold view. destruct (plain_text l) as [text|]; [|done]. destruct Hok as [Hle _].
    destruct (text !! x) as [b|] eqn:Ht.
    + rewrite lookup_app_l by (rewrite length_map; by eapply lookup_lt_Some). by rewrite list_lookup_fmap, Ht.
    + apply lookup_ge_None in Ht. rewrite lookup_app_r by (by rewrite length_map). rewrite length_map.
      destruct (Nat.ltb_spec x (plain_text_data_end l)) as [Hd|Hd].
      * rewrite lookup_app_l by (rewrite length_replicate; lia). symmetry. apply lookup_replicate. split; [done|lia].
      * rewrite lookup_app_r by (rewrite length_replicate; lia). rewrite length_replicate.
        symmetry. apply lookup_replicate. split; [done|lia].
Qed.

Lemma materialize_cells l : line_ok l ->
  cells (materialize_for_cell_mutation l) = view l /\ plain_text (materialize_for_cell_mutation l) = None
  /\ line_width (materialize_for_cell_mutation l) = line_width l.
Proof.
  intros [_ Hok]. unfold materialize_for_cell_mutation, materialize_plain_text, view.
  destruct (plain_text l) as [text|] eqn:E; [|done]. destruct Hok as [[Hle Hle'] _]. simpl. split; [|done].
  rewrite (Nat.min_l _ (line_width l)) by done. rewrite (resize_ge (map from_plain_ascii text)) by (rewrite length_map; lia).
  rewrite length_map. rewrite take_ge by (rewrite length_app, length_map, length_replicate; lia).
  rewrite app_assoc. rewrite length_app, length_map, length_replicate.
  destruct (Nat.ltb_spec (length text + (plain_text_data_end l - length text)) (line_width l)) as [Hlt|Hge].
  - rewrite resize_ge by (rewrite length_app, length_map, length_replicate; lia).
    rewrite length_app, length_map, length_replicate. do 2 f_equal. lia.
  - replace (line_width l - plain_text_data_end l) with 0 by lia. by rewrite app_nil_r.
Qed.

Lemma view_text l : trim_end (cells_text (view l)) = render_text l.
Proof.
  unfold view, render_text. destruct (plain_text l) as [text|]; [|done].
  rewrite !cells_text_app, cells_text_plain, cells_text_spaces, cells_text_default.
  by rewrite app_assoc, !trim_end_app_spaces.
Qed.

(** ** Every operation keeps a stored line well formed *)

Lemma u16_saturated_small n : n <= u16_limit -> u16_saturated n = n.
Proof. unfold u16_saturated. lia. Qed.

Lemma line_new_ok n : n <= u16_limit -> row_ok n (line_new n).
Proof. intros Hn. split; [|unfold cols_ok; simpl; lia]. constructor; [done|]. simpl. split; [lia|done]. Qed.

Lemma line_blank_ok n bg : n <= u16_limit -> row_ok n (line_blank_with_bg n bg).
Proof.
  intros Hn. unfold line_blank_with_bg. destruct (Z.eqb_spec bg COLOUR_DEFAULT); [by apply line_new_ok|].
  split; [constructor|]; simpl; unfold cols_ok; simpl; rewrite ?length_replicate; lia.
Qed.

Lemma from_plain_ascii_text_ok n f text :
  n <= u16_limit -> length text <= n -> is_ascii text = true -> row_ok n (from_plain_ascii_text n f text).
Proof.
  intros Hn Hl Ha. split; [|unfold cols_ok; simpl; lia]. constructor; [done|]. simpl. rewrite u16_saturated_small by lia. split; [lia|done].
Qed.

Lemma touch_ok n l : row_ok n l -> row_ok n (touch l).
Proof. intros [[? ?] ?]. split; [by constructor|done]. Qed.

Lemma touch_if_ok n b l : row_ok n l -> row_ok n (touch_if b l).
Proof. destruct b; [apply touch_ok|done]. Qed.

Lemma with_line_flags_ok n f l : row_ok n l -> row_ok n (with_line_flags f l).
Proof. intros [[? ?] ?]. split; [by constructor|done]. Qed.

Lemma set_wrapped_ok n b l : row_ok n l -> row_ok n (set_wrapped b l).
Proof. intros H. unfold set_wrapped. by apply touch_if_ok, with_line_flags_ok. Qed.

Lemma stamp_ok n t l : row_ok n l -> row_ok n (stamp_for_history_at t l).
Proof. intros [[? ?] ?]. unfold stamp_for_history_at. destruct (negb _); split; try done; by constructor. Qed.

(** The cells of a materialized line are replaced by as many. *)
Lemma with_cells_ok n cs l :
  row_ok n l -> plain_text l = None -> length cs = length (cells l) -> row_ok n (with_cells cs l).
Proof.
  intros [[Hw Hc] Hn] Hp Hl. unfold cols_ok in Hn. rewrite Hp in Hc, Hn.
  split; [constructor|unfold cols_ok]; simpl; rewrite ?Hp; try lia.
Qed.

Lemma materialize_ok n l : row_ok n l -> row_ok n (materialize_for_cell_mutation l).
Proof.
  intros [Hok Hn]. destruct (materialize_cells l Hok) as (Hc & Hp & Hw). pose proof (view_length l Hok) as Hl.
  unfold cols_ok in Hn. destruct Hok as [Hlim Hok]. split; [constructor|unfold cols_ok]; rewrite ?Hp, ?Hw, ?Hc, ?Hl; try done.
  - unfold materialize_for_cell_mutation, materialize_plain_text. destruct (plain_text l); simpl; lia.
  - destruct (plain_text l); lia.
Qed.

Lemma cell_mut_ok n x f l : row_ok n l -> row_ok n (cell_mut x f l).
Proof.
  intros H. unfold cell_mut. destruct (materialize_cells l (proj1 H)) as (_ & Hp & _).
  apply with_cells_ok; [by apply materialize_ok|done|by rewrite length_alter].
Qed.

Lemma length_materialize_gaps cs : length (materialize_reflow_gaps cs) = length cs.
Proof. apply length_map. Qed.

Lemma length_restore_gaps k cs : length (restore_trailing_reflow_gaps k cs) = length cs.
Proof.
  unfold restore_trailing_reflow_gaps. rewrite length_app, length_map, length_take, length_drop, length_materialize_gaps. lia.
Qed.

Lemma length_rotate_right {A} k (xs : list A) : length (rotate_right k xs) = length xs.
Proof. unfold rotate_right. rewrite length_app, length_take, length_drop. lia. Qed.

Lemma length_rotate_left {A} k (xs : list A) : length (rotate_left k xs) = length xs.
Proof. unfold rotate_left. rewrite length_app, length_take, length_drop. lia. Qed.

#[export] Hint Rewrite @length_app @length_map @length_take @length_drop @length_replicate @length_rotate_right
  @length_rotate_left length_materialize_gaps length_restore_gaps @length_alter @length_resize : row_length.

Lemma insert_cells_ok n start count blank l : row_ok n l -> row_ok n (insert_cells start count blank l).
Proof.
  intros H. unfold insert_cells. destruct (materialize_cells l (proj1 H)) as (_ & Hp & _).
  apply materialize_ok in H. destruct (Nat.leb_spec (length (cells (materialize_for_cell_mutation l))) start); [done|].
  destruct (Nat.eqb_spec (count `min` (length (cells (materialize_for_cell_mutation l)) - start)) 0); [done|].
  apply with_cells_ok; [done|done|]. destruct (_ =? _); autorewrite with row_length; lia.
Qed.

Lemma delete_cells_ok n start count blank l : row_ok n l -> row_ok n (delete_cells start count blank l).
Proof.
  intros H. unfold delete_cells. destruct (materialize_cells l (proj1 H)) as (_ & Hp & _).
  apply materialize_ok in H. destruct (Nat.leb_spec (length (cells (materialize_for_cell_mutation l))) start); [done|].
  destruct (Nat.eqb_spec (count `min` (length (cells (materialize_for_cell_mutation l)) - start)) 0); [done|].
  apply with_cells_ok; [done|done|]. autorewrite with row_length. lia.
Qed.

Lemma splice_text_length text start bs :
  length (splice_text text start bs) = length text `max` (start + length bs).
Proof.
  unfold splice_text. destruct (Nat.ltb_spec (length text) start) as [H|H]; autorewrite with row_length.
  - destruct (Nat.ltb_spec start (start + length bs)); autorewrite with row_length; lia.
  - destruct (Nat.ltb_spec (length text) (start + length bs)); autorewrite with row_length; lia.
Qed.

Lemma is_ascii_resize n s : is_ascii s = true -> is_ascii (resize n 32%Z s) = true.
Proof.
  intros H. destruct (decide (n <= length s)).
  - rewrite resize_le by lia. by apply is_ascii_take.
  - rewrite resize_ge by lia. rewrite is_ascii_app, H, is_ascii_spaces. done.
Qed.

Lemma splice_text_ascii text start bs :
  is_ascii text = true -> is_ascii bs = true -> is_ascii (splice_text text start bs) = true.
Proof.
  intros Ht Hb. unfold splice_text. destruct (_ <? start); destruct (_ <? start + _);
    rewrite !is_ascii_app, ?Hb; rewrite ?is_ascii_take, ?is_ascii_drop; auto using is_ascii_resize.
Qed.

Lemma update_cache_ok n start bs l :
  row_ok n l -> start + length bs <= line_width l -> is_ascii bs = true ->
  row_ok n (update_plain_text_cache start bs l).
Proof.
  intros [[Hlim Hok] Hn] Hle Ha. unfold update_plain_text_cache.
  pose proof (trim_end_length (splice_text (default [] (plain_text l)) start bs)) as Ht. rewrite splice_text_length in Ht.
  unfold cols_ok in Hn. assert (length (default [] (plain_text l)) <= line_width l /\ plain_text_data_end l <= line_width l
    /\ is_ascii (default [] (plain_text l)) = true /\ n <= line_width l) as (? & ? & ? & ?).
  { destruct (plain_text l); simpl; [destruct Hok; repeat split; [lia..|done|lia]|]. repeat split; lia. }
  split; [constructor|]; [done| |done]. simpl. rewrite u16_saturated_small by lia. split; [lia|].
  apply is_ascii_trim, splice_text_ascii; auto.
Qed.

Lemma write_plain_ascii_run_ok n start bs l l' :
  row_ok n l -> is_ascii bs = true ->
  write_plain_ascii_run start bs l = Some l' -> row_ok n l'.
Proof.
  intros H Ha Hw. unfold write_plain_ascii_run in Hw. destruct bs as [|b bs]; [by simplify_eq|].
  set (run := b :: bs) in *. destruct (Nat.ltb_spec (line_width l) (start + length run)); [done|].
  destruct (_ && _) eqn:Ec.
  - injection Hw as <-. apply touch_ok, update_cache_ok; auto.
  - destruct (Nat.ltb_spec (length (cells l)) (start + length run)); [done|].
    destruct (existsb _ _); [done|]. destruct (match cells l !! _ with Some c => _ | None => _ end); [done|].
    injection Hw as <-. apply touch_ok. destruct H as [[Hlim Hok] Hn]. unfold cols_ok in Hn.
    destruct (can_cache_plain_ascii_run start l) eqn:Ecc.
    + apply update_cache_ok; [|done..].
      split; [constructor|unfold cols_ok]; simpl; destruct (plain_text l);
        rewrite ?length_app, ?length_cons, ?length_app, ?length_map, ?length_take, ?length_drop; (done || (simpl in *; lia)).
    + unfold can_cache_plain_ascii_run in Ecc. destruct (plain_text l); [done|].
      split; [constructor|unfold cols_ok]; simpl;
        rewrite ?length_app, ?length_cons, ?length_app, ?length_map, ?length_take, ?length_drop; simpl in *; lia.
Qed.

Lemma line_clear_ok n bg l : row_ok n l -> row_ok n (line_clear bg l).
Proof.
  intros [[Hlim Hok] Hn]. unfold line_clear. apply touch_ok, with_line_flags_ok. unfold cols_ok in Hn.
  assert (n <= line_width l) by (destruct (plain_text l); lia).
  destruct (Z.eqb_spec bg COLOUR_DEFAULT); (split; [constructor|unfold cols_ok]); simpl; rewrite ?length_replicate;
    done || lia || (split; [lia|done]).
Qed.

(** After a resize the line has the columns asked for, whatever it had. *)
Lemma resize_width_ok width bg keep l : line_ok l -> width <= u16_limit -> row_ok width (resize_width_internal width bg keep l).
Proof.
  intros [Hlim Hok] Hw. unfold resize_width_internal. destruct (plain_text l) as [text|] eqn:Hp.
  - destruct Hok as [Hle Ha]. destruct (Z.eqb_spec bg COLOUR_DEFAULT).
    + apply touch_if_ok. assert (row_ok width (with_contents (cells l) (Some (take width text)) width
        (plain_text_data_end l `min` u16_saturated width) l)) as H.
      { rewrite u16_saturated_small by done. split; [constructor|unfold cols_ok]; simpl; [done| |done].
        rewrite length_take. split; [lia|by apply is_ascii_take]. }
      destruct keep; [done|by apply with_line_flags_ok].
    + apply touch_if_ok. assert (row_ok width (materialize_plain_text width l)) as H.
      { unfold materialize_plain_text. rewrite Hp.
        destruct (Nat.ltb_spec (length (take width (resize (plain_text_data_end l `min` width) (from_plain_ascii 32)
          (map from_plain_ascii text)))) width) as [Hlt|Hge];
        autorewrite with row_length in *; (split; [constructor|unfold cols_ok]); simpl; autorewrite with row_length; lia. }
      destruct keep; [done|by apply with_line_flags_ok].
  - apply touch_if_ok. assert (row_ok width (if negb (length (cells l) =? width)
      then with_contents (resize width (blank_with_bg bg) (cells l)) None width (plain_text_data_end l) l else l)) as H.
    { destruct (Nat.eqb_spec (length (cells l)) width); simpl.
      - split; [constructor|unfold cols_ok]; rewrite ?Hp; [done|done|lia].
      - split; [constructor|unfold cols_ok]; simpl; rewrite ?length_resize; [done|lia|lia]. }
    destruct keep; [done|by apply with_line_flags_ok].
Qed.

Lemma resize_preserving_ok width bg l :
  line_ok l -> width <= u16_limit -> row_ok width (resize_width_preserving_wrap width bg l).
Proof. apply resize_width_ok. Qed.

Lemma compact_ok l : line_ok l -> line_ok (compact_for_history l).
Proof.
  intros [Hlim Hok]. unfold compact_for_history, try_compact_plain_text, compacted_plain_text_clone, used_end.
  destruct (plain_text l) as [text|] eqn:Hp.
  - constructor; simpl; [done|]. by rewrite Hp.
  - pose proof (used_cells_le (cells l)) as Hu.
    assert (line_ok (if is_wrapped l then l else if used_cells (cells l) <? length (cells l)
      then with_cells (take (used_cells (cells l)) (cells l)) l else l)) as Hrest.
    { destruct (is_wrapped l); [constructor; [done|by rewrite Hp]|].
      destruct (_ <? _); constructor; simpl; rewrite ?Hp, ?length_take; [done|lia|done|lia]. }
    destruct (existsb is_reflow_gap (cells l)); [by rewrite Hp|].
    destruct (Nat.eqb_spec (used_cells (cells l)) 0).
    + constructor; simpl; [done|]. split; [lia|done].
    + destruct (forallb _ _) eqn:Ha; [|by rewrite Hp]. apply ascii_cells_text in Ha as [Hl Ha].
      rewrite length_take in Hl. constructor; simpl; [done|]. rewrite u16_saturated_small by lia. split; [lia|done].
Qed.

Lemma mark_reflow_gap_ok n start l : row_ok n l -> row_ok n (mark_reflow_gap start l).
Proof.
  intros H. unfold mark_reflow_gap. destruct (materialize_cells l (proj1 H)) as (_ & Hp & _).
  apply with_cells_ok; [by apply materialize_ok|done|]. autorewrite with row_length. lia.
Qed.

Lemma mark_unused_ok n start l : row_ok n l -> row_ok n (mark_unused_suffix_as_reflow_gap start l).
Proof. intros H. unfold mark_unused_suffix_as_reflow_gap. destruct (_ <=? _); [by apply mark_reflow_gap_ok|done]. Qed.

(** Fewer columns are there if more are. *)
Lemma row_ok_le n m l : n <= m -> row_ok m l -> row_ok n l.
Proof. intros Hle [Hok Hm]. split; [done|]. unfold cols_ok in *. destruct (plain_text l); lia. Qed.

Lemma row_ok_line n l : row_ok n l -> line_ok l.
Proof. by intros [? _]. Qed.

#[export] Hint Resolve line_new_ok line_blank_ok touch_ok touch_if_ok with_line_flags_ok set_wrapped_ok stamp_ok
  cell_mut_ok insert_cells_ok delete_cells_ok line_clear_ok resize_preserving_ok compact_ok mark_reflow_gap_ok
  mark_unused_ok row_ok_line : rmux.

(** ** Compaction keeps the text *)

Lemma compact_render_text l : render_text (compact_for_history l) = render_text l.
Proof.
  unfold compact_for_history, try_compact_plain_text, compacted_plain_text_clone, render_text, used_end.
  destruct (plain_text l) as [text|] eqn:Hp; simpl; [by rewrite Hp|].
  assert (trim_end (cells_text (take (used_cells (cells l)) (cells l))) = trim_end (cells_text (cells l))) as Hu
    by apply trim_used.
  assert (forall l', l' = (if is_wrapped l then l else if used_cells (cells l) <? length (cells l)
      then with_cells (take (used_cells (cells l)) (cells l)) l else l) ->
    match plain_text l' with Some text => trim_end text | None => trim_end (cells_text (cells l')) end
    = trim_end (cells_text (cells l))) as Hrest.
  { intros l' ->. destruct (is_wrapped l); [by rewrite Hp|]. destruct (_ <? _); simpl; by rewrite Hp. }
  destruct (existsb is_reflow_gap (cells l)); [apply Hrest; by rewrite Hp|].
  destruct (Nat.eqb_spec (used_cells (cells l)) 0) as [H0|H0]; simpl.
  - rewrite <- Hu, H0. done.
  - destruct (forallb _ _) eqn:Ha; simpl; [|apply Hrest; by rewrite Hp]. by rewrite <- cells_text_ascii, Hu.
Qed.

Lemma compact_is_wrapped l : is_wrapped (compact_for_history l) = is_wrapped l.
Proof.
  unfold compact_for_history, try_compact_plain_text, compacted_plain_text_clone.
  destruct (plain_text l); [done|]. destruct (existsb _ _); [|destruct (_ =? 0); [done|destruct (forallb _ _); [done|]]];
    destruct (is_wrapped l) eqn:E; try done; destruct (_ <? _); done.
Qed.

Lemma set_wrapped_render_text b l : render_text (set_wrapped b l) = render_text l.
Proof. unfold set_wrapped, touch_if. by destruct (negb _). Qed.

Lemma set_wrapped_wrapped b l : is_wrapped (set_wrapped b l) = b.
Proof.
  unfold set_wrapped, touch_if, is_wrapped.
  assert (flags_contains (if b then flags_insert (line_flags l) WRAPPED else flags_remove (line_flags l) WRAPPED) WRAPPED = b) as H.
  { destruct b.
    - change WRAPPED with (2 ^ 0)%Z. rewrite contains_insert by lia. apply orb_true_r.
    - change WRAPPED with (2 ^ 0)%Z. rewrite contains_remove by lia. apply andb_false_r. }
  by destruct (negb _).
Qed.

Lemma stamp_render_text t l : render_text (stamp_for_history_at t l) = render_text l.
Proof. unfold stamp_for_history_at. by destruct (negb _). Qed.

Lemma line_new_render_text n : render_text (line_new n) = [].
Proof. done. Qed.

Lemma materialize_render_text l : line_ok l -> render_text (materialize_for_cell_mutation l) = render_text l.
Proof.
  intros Hok. destruct (materialize_cells l Hok) as (Hc & Hp & _). rewrite <- (view_text l).
  unfold render_text. by rewrite Hp, Hc.
Qed.
