(* ===== verification/GridReflow.v ===== *)
(** * Reflow

    [crates/rmux-core/src/grid.rs]: laying the logical lines of a grid (rows
    joined by the wrap flag) out again at another width, with the position of the
    cursor.  A logical line of plain ASCII is cut into rows directly; any other
    goes cell by cell, wide characters moving to the next row as a whole. *)

From S2P Require Import Prelude Utf8 InputCell GridCell GridLine.

#[local] Open Scope nat_scope.

(** [logical_start_y] is a [usize] that may be [usize::MAX], no row. *)
Record GridLogicalCursor : Type := mkLogicalCursor {
  logical_start_y : Z;
  offset : nat
}.

Record GridPhysicalCursor : Type := mkPhysicalCursor {
  absolute_y : nat;
  physical_x : nat;
  physical_pending_wrap : bool
}.

(** [x.min(width.saturating_sub(1))] *)
Definition in_width (width x : nat) : nat := x `min` (width - 1).

(** The row of an empty logical line. *)
Definition blank_row (first_flags : Z) (width : nat) (bg : Z) (cursor_offset : option nat)
  : list GridLine * option GridPhysicalCursor :=
  ([with_line_flags first_flags (line_blank_with_bg width bg)],
   (fun o => mkPhysicalCursor 0 (in_width width o) false) <$> cursor_offset).

(** ** Plain ASCII *)

(** The rows of the text; [fuel] is its length. *)
Fixpoint plain_rows (fuel : nat) (text : list Z) (flags : Z) (width : nat) : list GridLine :=
  match fuel, text with
  | S fuel, _ :: _ =>
      let rest := drop width text in
      let line := from_plain_ascii_text width flags (take width text) in
      (if bool_decide (rest = []) then line else set_wrapped true line) :: plain_rows fuel rest 0 width
  | _, _ => []
  end.

Definition plain_cursor (content_len rows width o : nat) : GridPhysicalCursor :=
  if (o =? content_len) && (0 <? content_len) && (content_len mod width =? 0)
  then mkPhysicalCursor ((content_len + width - 1) / width - 1) (width - 1) true
  else if o <=? content_len then mkPhysicalCursor (o / width) (o mod width) false
  else mkPhysicalCursor (rows - 1) (in_width width o) false.

Definition reflow_plain_ascii_line_remapping_cursor (text : list Z) (first_flags : Z) (width : nat) (bg : Z)
    (cursor_offset : option nat) : list GridLine * option GridPhysicalCursor :=
  let width := width `max` 1 in
  if bool_decide (text = []) || negb (bg =? COLOUR_DEFAULT)%Z then blank_row first_flags width bg cursor_offset
  else
    let output := plain_rows (length text) text first_flags width in
    (output, plain_cursor (length text) (length output) width <$> cursor_offset).

(** ** Cells *)

Record ReflowState : Type := mkReflow {
  rs_output : list GridLine;
  rs_current : GridLine;
  rs_x : nat;
  rs_offset : nat;
  rs_cursor : option GridPhysicalCursor
}.

(** The cursor, if it is on the cell that comes next. *)
Definition cursor_on_cell (width cell_width source_width : nat) (cursor_offset : option nat) (s : ReflowState)
  : option GridPhysicalCursor :=
  match rs_cursor s, cursor_offset with
  | None, Some o =>
      if (rs_offset s <=? o) && (o <? rs_offset s + source_width) then
        let physical_offset := (o - rs_offset s) `min` cell_width in
        Some (if (physical_offset =? cell_width) && (rs_x s + cell_width =? width)
              then mkPhysicalCursor (length (rs_output s)) (width - 1) true
              else mkPhysicalCursor (length (rs_output s)) (in_width width (rs_x s + physical_offset)) false)
      else None
  | c, _ => c
  end.

(** The cell and the padding of a wide one. *)
Definition put_cell (x cell_width : nat) (c : GridCell) (l : GridLine) : GridLine :=
  fold_left (fun l o => cell_mut (x + o) (fun _ => padding_of c) l) (seq 1 (cell_width - 1)) (cell_mut x (fun _ => c) l).

Definition reflow_step (width : nat) (bg : Z) (cursor_offset : option nat) (s : ReflowState) (c : GridCell) : ReflowState :=
  let source_width := cell_width c `max` 1 in
  let '(cell_width, c) := if width <? source_width then (1, set_width 1 c) else (source_width, c) in
  let s :=
    if (0 <? rs_x s) && (width <? rs_x s + cell_width)
    then mkReflow (rs_output s ++ [set_wrapped true (mark_reflow_gap (rs_x s) (rs_current s))])
           (line_blank_with_bg width bg) 0 (rs_offset s) (rs_cursor s)
    else s in
  mkReflow (rs_output s) (touch (put_cell (rs_x s) cell_width c (rs_current s))) (rs_x s + cell_width)
    (rs_offset s + source_width) (cursor_on_cell width cell_width source_width cursor_offset s).

(** The cursor behind the last cell. *)
Definition cursor_after_cells (width : nat) (cursor_offset : option nat) (s : ReflowState) : option GridPhysicalCursor :=
  match rs_cursor s, cursor_offset with
  | None, Some o =>
      if o =? rs_offset s then
        Some (if rs_x s =? width then mkPhysicalCursor (length (rs_output s)) (width - 1) true
              else mkPhysicalCursor (length (rs_output s)) (rs_x s) false)
      else if rs_offset s <? o then Some (mkPhysicalCursor (length (rs_output s)) (in_width width o) false)
      else None
  | c, _ => c
  end.

Definition reflow_logical_line_remapping_cursor (cs : list GridCell) (first_flags : Z) (width : nat) (bg : Z)
    (cursor_offset : option nat) : list GridLine * option GridPhysicalCursor :=
  let width := width `max` 1 in
  match cs with
  | [] => blank_row first_flags width bg cursor_offset
  | _ =>
      let s := fold_left (reflow_step width bg cursor_offset) cs
        (mkReflow [] (with_line_flags first_flags (line_blank_with_bg width bg)) 0 0 None) in
      (rs_output s ++ [rs_current s], cursor_after_cells width cursor_offset s)
  end.

(** ** All the rows of a grid *)

Record WrappedState : Type := mkWrapped {
  ws_output : list GridLine;
  logical_cells : list GridCell;
  logical_plain_text : option (list Z);
  logical_flags : option Z;
  ws_start_y : nat;
  mapped_cursor : option GridPhysicalCursor
}.

(** The end of a logical line. *)
Definition flush_line (width : nat) (bg : Z) (cursor : GridLogicalCursor) (s : WrappedState) : WrappedState :=
  let flags := default 0%Z (logical_flags s) in
  let cursor_offset := if (Z.of_nat (ws_start_y s) =? logical_start_y cursor)%Z then Some (offset cursor) else None in
  let '(reflowed, relative) :=
    match logical_plain_text s with
    | Some text => reflow_plain_ascii_line_remapping_cursor text flags width bg cursor_offset
    | None => reflow_logical_line_remapping_cursor (logical_cells s) flags width bg cursor_offset
    end in
  let mapped :=
    match relative with
    | Some p => Some (mkPhysicalCursor (absolute_y p + length (ws_output s)) (physical_x p) (physical_pending_wrap p))
    | None => mapped_cursor s
    end in
  mkWrapped (ws_output s ++ reflowed) [] None None (ws_start_y s) mapped.

(** The columns of a row that belong to its logical line. *)
Definition row_end (l : GridLine) : nat := if is_wrapped l then line_width l else used_end l.

(** A row joins the logical line. *)
Definition join_row (l : GridLine) (s : WrappedState) : WrappedState :=
  match logical_plain_text s, plain_text l with
  | Some logical_text, Some text =>
      mkWrapped (ws_output s) (logical_cells s) (Some (logical_text ++ resize (row_end l) 32%Z text)) (logical_flags s)
        (ws_start_y s) (mapped_cursor s)
  | logical_text, text =>
      let cs := logical_cells s ++ map from_plain_ascii (default [] logical_text) in
      let row :=
        match text with
        | Some text => map from_plain_ascii (resize (row_end l) 32%Z text)
        | None => filter (fun c => negb (is_padding c) && negb (is_reflow_gap c) = true) (take (row_end l) (cells l))
        end in
      mkWrapped (ws_output s) (cs ++ row) None (logical_flags s) (ws_start_y s) (mapped_cursor s)
  end.

Definition start_line (bg : Z) (y : nat) (l : GridLine) (s : WrappedState) : WrappedState :=
  match logical_flags s with
  | Some _ => s
  | None =>
      mkWrapped (ws_output s) (logical_cells s) (if (bg =? COLOUR_DEFAULT)%Z then Some [] else None)
        (Some (flags_remove (line_flags l) WRAPPED)) y (mapped_cursor s)
  end.

Fixpoint reflow_rows (width : nat) (bg : Z) (cursor : GridLogicalCursor) (y : nat) (lines : list GridLine) (s : WrappedState)
  : WrappedState :=
  match lines with
  | [] => s
  | l :: lines =>
      let s := join_row l (start_line bg y l s) in
      let s := if is_wrapped l then s else flush_line width bg cursor s in
      reflow_rows width bg cursor (S y) lines s
  end.

Definition reflow_wrapped_lines_remapping_cursor (lines : list GridLine) (width : nat) (bg : Z) (cursor : GridLogicalCursor)
  : list GridLine * option GridPhysicalCursor :=
  let s := reflow_rows width bg cursor 0 lines (mkWrapped [] [] None None 0 None) in
  let s :=
    if bool_decide (is_Some (logical_flags s)) || negb (bool_decide (logical_cells s = []))
       || bool_decide (is_Some (logical_plain_text s))
    then flush_line width bg cursor s else s in
  (ws_output s, mapped_cursor s).

(** ** The alternate screen *)

(** The rows of each logical line. *)
Fixpoint source_groups (lines : list GridLine) (current : list GridLine) : list (list GridLine) :=
  match lines with
  | [] => match current with [] => [] | _ => [current] end
  | l :: lines =>
      let current := current ++ [l] in
      if is_wrapped l then source_groups lines current else current :: source_groups lines []
  end.

Definition blank_group (group : list GridLine) : bool :=
  forallb (fun l => (used_end l =? 0) && (line_flags l =? 0)%Z) group.

(** [take_while] from the end *)
Fixpoint drop_trailing_blank (groups : list (list GridLine)) : list (list GridLine) :=
  match groups with
  | [] => []
  | g :: groups =>
      match drop_trailing_blank groups with
      | [] => if blank_group g then [] else [g]
      | kept => g :: kept
      end
  end.

(** Rows beyond those a group had go to the first groups that want them. *)
Fixpoint allocate_extra (remaining : nat) (groups : list (nat * list GridLine)) : list nat :=
  match groups with
  | [] => []
  | (source_rows, rows) :: groups =>
      let allocation := source_rows `min` length rows in
      let extra := (length rows - allocation) `min` remaining in
      (allocation + extra) :: allocate_extra (remaining - extra) groups
  end.

Definition truncate_group (rows : list GridLine) (allocation : nat) : list GridLine :=
  let kept := take allocation rows in
  if allocation <? length rows then alter (set_wrapped false) (length kept - 1) kept else kept.

Definition reflow_alternate_visible_lines (lines : list GridLine) (width : nat) (bg : Z) (visible_rows : nat) : list GridLine :=
  let groups := map (fun group => (length group,
      (reflow_wrapped_lines_remapping_cursor group width bg (mkLogicalCursor u64_max 0)).1))
    (drop_trailing_blank (source_groups lines [])) in
  let allocated := list_sum (map (fun g => fst g `min` length (snd g)) groups) in
  let allocations := allocate_extra (visible_rows - allocated) groups in
  let visible := concat (zip_with (fun g a => truncate_group (snd g) a) groups allocations) in
  let visible := take visible_rows visible in
  visible ++ replicate (visible_rows - length visible) (line_blank_with_bg width bg).
