(* ===== verification/GridReflowText.v ===== *)
(** * Reflow keeps the text

    A logical line reads as the cells of its rows, the padding of wide
    characters and the gaps before wrapped ones left out, and is compared up to
    trailing spaces.  Laying the lines out at any width leaves what every logical
    line reads unchanged, and the cursor lands on one of the new rows. *)

From S2P Require Import Prelude Utf8 InputCell GridCell GridLine GridLineInv GridReflow.

#[local] Open Scope nat_scope.

Definition kept (c : GridCell) : bool := negb (is_padding c) && negb (is_reflow_gap c).

Definition kept_cells (cs : list GridCell) : list GridCell := filter (fun c => kept c = true) cs.

(** What a row adds to its logical line. *)
Definition row_cells (l : GridLine) : list GridCell :=
  match plain_text l with
  | Some text => map from_plain_ascii (resize (row_end l) 32%Z text)
  | None => kept_cells (take (row_end l) (cells l))
  end.

Definition group_cells (rows : list GridLine) : list GridCell := concat (map row_cells rows).

Definition group_text (rows : list GridLine) : list Z := trim_end (cells_text (group_cells rows)).

(** What the logical lines of a list of rows read. *)
Definition logical_texts (lines : list GridLine) : list (list Z) := map group_text (source_groups lines []).

(** ** Trailing spaces of a concatenation *)

Lemma trim_end_app_congr a b b' : trim_end b = trim_end b' -> trim_end (a ++ b) = trim_end (a ++ b').
Proof. intros H. by rewrite !trim_end_app, H. Qed.

(** ** Placing cells *)

Lemma view_cell_mut x f l : line_ok l -> view (cell_mut x f l) = alter f x (view l).
Proof.
  intros Hok. destruct (materialize_cells l Hok) as (Hc & Hp & _). unfold cell_mut, view at 1. simpl. by rewrite Hp, Hc.
Qed.

Lemma cell_mut_width x f l : line_ok l -> line_width (cell_mut x f l) = line_width l.
Proof. intros Hok. by destruct (materialize_cells l Hok) as (_ & _ & Hw). Qed.

Lemma cell_mut_flags x f l : line_flags (cell_mut x f l) = line_flags l.
Proof.
  unfold cell_mut, materialize_for_cell_mutation, materialize_plain_text.
  destruct (plain_text l) eqn:E; simpl; [|done]. by rewrite ?E.
Qed.

Lemma alter_middle {A} (f : A -> A) xs y ys : alter f (length xs) (xs ++ y :: ys) = xs ++ f y :: ys.
Proof. induction xs as [|x xs IH]; simpl; [done|]. f_equal. apply IH. Qed.

Lemma put_padding n p l start m :
  row_ok n l ->
  forall pre blanks, view l = pre ++ blanks -> length pre = start -> m <= length blanks ->
  let l' := fold_left (fun l o => cell_mut o (fun _ => p) l) (seq start m) l in
  row_ok n l' /\ view l' = pre ++ replicate m p ++ drop m blanks /\ line_width l' = line_width l /\ line_flags l' = line_flags l.
Proof.
  revert l start. induction m as [|m IH]; intros l start Hok pre blanks Hv Hl Hm; simpl; [done|].
  destruct blanks as [|b blanks]; simpl in Hm; [lia|].
  assert (view (cell_mut start (fun _ => p) l) = (pre ++ [p]) ++ blanks) as Hv'.
  { rewrite view_cell_mut, Hv by (by apply Hok). rewrite <- Hl, alter_middle. by rewrite <- app_assoc. }
  destruct (IH (cell_mut start (fun _ => p) l) (S start) (cell_mut_ok _ _ _ _ Hok) _ _ Hv') as (H1 & H2 & H3 & H4).
  { rewrite length_app. simpl. lia. }
  { lia. }
  split; [done|]. split; [by rewrite H2, <- app_assoc|]. split; [rewrite H3; apply cell_mut_width, Hok|].
  by rewrite H4, cell_mut_flags.
Qed.

Lemma fold_seq_shift (x m : nat) (f : GridLine -> nat -> GridLine) l start :
  fold_left (fun l o => f l (x + o)) (seq start m) l = fold_left f (seq (x + start) m) l.
Proof.
  revert l start. induction m as [|m IH]; intros l start; simpl; [done|]. rewrite IH. by rewrite Nat.add_succ_r.
Qed.

Lemma put_cell_spec n x cw c l placed blanks :
  row_ok n l -> view l = placed ++ blanks -> length placed = x -> 1 <= cw <= length blanks ->
  let l' := put_cell x cw c l in
  row_ok n l' /\ view l' = placed ++ (c :: replicate (cw - 1) (padding_of c)) ++ drop cw blanks
  /\ line_width l' = line_width l /\ line_flags l' = line_flags l.
Proof.
  intros Hok Hv Hl Hcw. unfold put_cell. destruct blanks as [|b blanks]; simpl in Hcw; [lia|].
  rewrite (fold_seq_shift x _ (fun l o => cell_mut o (fun _ => padding_of c) l)).
  assert (view (cell_mut x (fun _ => c) l) = (placed ++ [c]) ++ blanks) as Hv'.
  { rewrite view_cell_mut, Hv by (by apply Hok). rewrite <- Hl, alter_middle. by rewrite <- app_assoc. }
  destruct (put_padding n (padding_of c) _ (x + 1) (cw - 1) (cell_mut_ok _ x (fun _ => c) _ Hok) _ _ Hv') as (H1 & H2 & H3 & H4).
  { rewrite length_app. simpl. lia. }
  { lia. }
  split; [done|]. split.
  - rewrite H2. rewrite <- app_assoc. simpl. do 3 f_equal. destruct cw; [lia|]. simpl. by rewrite Nat.sub_0_r.
  - split; [rewrite H3; apply cell_mut_width, Hok|]. by rewrite H4, cell_mut_flags.
Qed.

(** ** The loop over the cells *)

Lemma kept_cells_app a b : kept_cells (a ++ b) = kept_cells a ++ kept_cells b.
Proof. apply filter_app. Qed.

Lemma kept_padding m c : kept_cells (replicate m (padding_of c)) = [].
Proof. induction m as [|m IH]; [done|]. simpl. done. Qed.

Lemma kept_gaps cs : kept_cells (map (add_flag REFLOW_GAP) cs) = [].
Proof.
  induction cs as [|c cs IH]; [done|]. unfold kept_cells in *. cbn [map]. rewrite filter_cons_False; [done|].
  unfold kept, is_reflow_gap, add_flag. simpl. change REFLOW_GAP with (2 ^ 6)%Z. rewrite contains_insert by lia.
  by rewrite orb_true_r, andb_false_r.
Qed.

Lemma mark_reflow_gap_row x l placed m :
  line_ok l -> view l = placed ++ replicate m default_cell -> length placed = x ->
  cells (mark_reflow_gap x l) = placed ++ map (add_flag REFLOW_GAP) (replicate m default_cell)
  /\ plain_text (mark_reflow_gap x l) = None /\ line_width (mark_reflow_gap x l) = line_width l.
Proof.
  intros Hok Hv Hl. unfold mark_reflow_gap. destruct (materialize_cells l Hok) as (Hc & Hp & Hw). simpl.
  rewrite Hc, Hv, <- Hl, take_app_length, drop_app_length. done.
Qed.

Lemma set_wrapped_contents b l :
  plain_text (set_wrapped b l) = plain_text l /\ cells (set_wrapped b l) = cells l /\ line_width (set_wrapped b l) = line_width l.
Proof. unfold set_wrapped, touch_if. by destruct (negb _). Qed.

(** A row of exactly [width] columns. *)
Definition exact_row (width : nat) (l : GridLine) : Prop := row_ok width l /\ line_width l = width.

(** Cells that are neither padding nor a gap. *)
Definition all_kept (cs : list GridCell) : Prop := Forall (fun c => kept c = true) cs.

Record reflow_inv (width : nat) (done : list GridCell) (s : ReflowState) : Prop := {
  inv_output : Forall (fun l => exact_row width l /\ is_wrapped l = true) (rs_output s);
  inv_current : row_ok width (rs_current s);
  inv_width : line_width (rs_current s) = width;
  inv_unwrapped : is_wrapped (rs_current s) = false;
  inv_x : rs_x s <= width;
  inv_placed : exists placed, view (rs_current s) = placed ++ replicate (width - rs_x s) default_cell
    /\ length placed = rs_x s
    /\ cells_text (group_cells (rs_output s)) ++ cells_text (kept_cells placed) = cells_text done
}.

Lemma set_width_text w c : cells_text [set_width w c] = cells_text [c].
Proof. done. Qed.

Lemma kept_set_width w c : kept (set_width w c) = kept c.
Proof. done. Qed.

(** One cell into the current row. *)
Lemma place_inv width cw c done output current x off off' cur cur' :
  reflow_inv width done (mkReflow output current x off cur) -> kept c = true -> 1 <= cw -> x + cw <= width ->
  reflow_inv width (done ++ [c]) (mkReflow output (touch (put_cell x cw c current)) (x + cw) off' cur').
Proof.
  intros [Ho Hc Hw Hu Hx (placed & Hv & Hl & Ht)] Hk Hcw Hfit. simpl in *.
  destruct (put_cell_spec width x cw c current placed _ Hc Hv Hl) as (H1 & H2 & H3 & H4).
  { rewrite length_replicate. lia. }
  constructor; simpl; [done|by apply touch_ok| by rewrite H3| |lia|].
  { unfold is_wrapped in *. simpl. by rewrite H4. }
  exists (placed ++ c :: replicate (cw - 1) (padding_of c)). split; [|split].
  - change (view (touch (put_cell x cw c current))) with (view (put_cell x cw c current)). rewrite H2, drop_replicate.
    rewrite <- app_assoc. do 3 f_equal. lia.
  - rewrite length_app. simpl. rewrite length_replicate. lia.
  - rewrite kept_cells_app. change (c :: replicate (cw - 1) (padding_of c)) with ([c] ++ replicate (cw - 1) (padding_of c)).
    rewrite kept_cells_app, kept_padding, app_nil_r. rewrite cells_text_app, app_assoc, Ht.
    unfold kept_cells. rewrite filter_cons_True by done. by rewrite cells_text_app.
Qed.

(** The current row is full. *)
Lemma wrap_inv width bg done output current x off cur :
  bg = COLOUR_DEFAULT -> width <= u16_limit -> reflow_inv width done (mkReflow output current x off cur) ->
  reflow_inv width done (mkReflow (output ++ [set_wrapped true (mark_reflow_gap x current)]) (line_blank_with_bg width bg) 0 off cur).
Proof.
  intros -> Hlim [Ho Hc Hw Hu Hx (placed & Hv & Hl & Ht)]. simpl in *.
  destruct (mark_reflow_gap_row x current placed _ (row_ok_line _ _ Hc) Hv Hl) as (H1 & H2 & H3).
  constructor; simpl.
  - apply Forall_app. split; [done|]. constructor; [|done]. split; [|apply set_wrapped_wrapped].
    split; [auto with rmux|]. destruct (set_wrapped_contents true (mark_reflow_gap x current)) as (_ & _ & ->). congruence.
  - apply line_new_ok. lia.
  - done.
  - done.
  - lia.
  - exists []. simpl. split; [unfold view; simpl; by rewrite Nat.sub_0_r|]. split; [done|].
    unfold group_cells in *. rewrite map_app, concat_app, cells_text_app, app_nil_r. simpl. rewrite app_nil_r. rewrite <- Ht. f_equal.
    assert (row_cells (set_wrapped true (mark_reflow_gap x current)) = kept_cells placed) as ->; [|done].
    unfold row_cells, row_end. rewrite set_wrapped_wrapped.
    destruct (set_wrapped_contents true (mark_reflow_gap x current)) as (-> & -> & ->). rewrite H2, H3, Hw, H1.
    rewrite take_ge by (rewrite length_app, length_map, length_replicate; lia).
    by rewrite kept_cells_app, kept_gaps, app_nil_r.
Qed.

Lemma reflow_step_inv width bg co done s c :
  bg = COLOUR_DEFAULT -> 1 <= width <= u16_limit -> reflow_inv width done s -> kept c = true ->
  reflow_inv width (done ++ [c]) (reflow_step width bg co s c).
Proof.
  intros Hbg Hw Hinv Hk. unfold reflow_step.
  assert (forall cw c', 1 <= cw <= width -> kept c' = true -> cells_text [c'] = cells_text [c] ->
    reflow_inv width (done ++ [c])
      (let s' := if (0 <? rs_x s) && (width <? rs_x s + cw)
         then mkReflow (rs_output s ++ [set_wrapped true (mark_reflow_gap (rs_x s) (rs_current s))])
                (line_blank_with_bg width bg) 0 (rs_offset s) (rs_cursor s)
         else s in
       mkReflow (rs_output s') (touch (put_cell (rs_x s') cw c' (rs_current s'))) (rs_x s' + cw)
         (rs_offset s' + (cell_width c `max` 1)) (cursor_on_cell width cw (cell_width c `max` 1) co s'))) as Hgen.
  { intros cw c' Hcw Hk' Ht. cbv zeta. destruct s as [output current x off cur].
    assert (forall l cur', reflow_inv width (done ++ [c']) l -> l = cur' -> reflow_inv width (done ++ [c]) cur') as Htext.
    { intros l cur' [A B C D E (pl & F1 & F2 & F3)] <-. constructor; try done. exists pl. split; [done|]. split; [done|].
      by rewrite F3, !cells_text_app, Ht. }
    simpl. destruct ((0 <? x) && (width <? x + cw)) eqn:E; simpl.
    - eapply Htext; [|reflexivity]. eapply (place_inv _ _ _ _ _ _ 0); [eapply wrap_inv; [done|lia|done]|done|lia|lia].
    - eapply Htext; [|reflexivity]. eapply place_inv; [done|done|lia|].
      pose proof (inv_x _ _ _ Hinv) as Hx. simpl in Hx. apply andb_false_iff in E as [E|E].
      + apply Nat.ltb_ge in E. lia.
      + apply Nat.ltb_ge in E. lia. }
  destruct (Nat.ltb_spec width (cell_width c `max` 1)).
  - apply (Hgen 1 (set_width 1 c)); [lia|by rewrite (kept_set_width 1 c)|by rewrite (set_width_text 1 c)].
  - apply (Hgen (cell_width c `max` 1) c); [lia|done|done].
Qed.

(** ** Rows that form one logical line *)

Record is_group (width : nat) (rows : list GridLine) : Prop := {
  group_rows : Forall (exact_row width) rows;
  group_shape : exists init lastrow, rows = init ++ [lastrow]
    /\ Forall (fun l => is_wrapped l = true) init /\ is_wrapped lastrow = false
}.

Lemma source_groups_wrapped init more current :
  Forall (fun l => is_wrapped l = true) init -> source_groups (init ++ more) current = source_groups more (current ++ init).
Proof.
  intros H. revert current. induction H as [|l init Hl Hi IH]; intros current; simpl; [by rewrite app_nil_r|].
  rewrite Hl, IH. by rewrite <- app_assoc.
Qed.

Lemma source_groups_group width rows more : is_group width rows -> source_groups (rows ++ more) [] = rows :: source_groups more [].
Proof.
  intros [_ (init & lastrow & -> & Hi & Hl)]. rewrite <- app_assoc, source_groups_wrapped by done. simpl. by rewrite Hl.
Qed.

Lemma kept_blank_text cs : Forall (fun c => is_blank c = true) cs -> exists k, cells_text (kept_cells cs) = replicate k 32%Z.
Proof.
  intros H. exists (length (kept_cells cs)). apply cells_text_blank. unfold kept_cells.
  apply Forall_forall. intros c [_ Hc]%list_elem_of_filter. by eapply Forall_forall in H.
Qed.

Lemma kept_plain s : kept_cells (map from_plain_ascii s) = map from_plain_ascii s.
Proof. induction s as [|b s IH]; [done|]. unfold kept_cells in *. cbn [map]. by rewrite filter_cons_True, IH. Qed.

Lemma map_plain_spaces n : map from_plain_ascii (replicate n 32%Z) = replicate n (from_plain_ascii 32).
Proof. induction n as [|n IH]; simpl; [done|]. by rewrite IH. Qed.

(** The last row of a logical line. *)
Lemma row_text_unwrapped l :
  is_wrapped l = false -> trim_end (cells_text (row_cells l)) = trim_end (cells_text (kept_cells (view l))).
Proof.
  intros Hu. unfold row_cells, view, row_end. rewrite Hu. unfold used_end. destruct (plain_text l) as [text|].
  - rewrite resize_all_alt by done. rewrite <- map_plain_spaces, !kept_cells_app, !kept_plain, !cells_text_app.
    destruct (kept_blank_text (replicate (line_width l - plain_text_data_end l) default_cell)) as [k ->];
      [by apply Forall_replicate|]. by rewrite !cells_text_plain, app_assoc, !trim_end_app_spaces.
  - rewrite <- (take_drop (used_cells (cells l)) (cells l)) at 3. rewrite kept_cells_app, cells_text_app.
    destruct (kept_blank_text _ (used_cells_blank (cells l))) as [k ->]. by rewrite trim_end_app_spaces.
Qed.

Lemma blank_row_spec flags width bg co :
  bg = COLOUR_DEFAULT -> width <= u16_limit -> flags_contains flags WRAPPED = false ->
  is_group width (blank_row flags width bg co).1 /\ group_text (blank_row flags width bg co).1 = [].
Proof.
  intros -> Hw Hf. simpl. split; [split|].
  - constructor; [|done]. split; [|done]. apply with_line_flags_ok, line_new_ok. lia.
  - by exists [], (with_line_flags flags (line_new width)).
  - unfold group_text, group_cells. simpl. unfold row_cells, row_end, is_wrapped. simpl. by rewrite Hf.
Qed.

Lemma reflow_cells_inv width bg co cs :
  bg = COLOUR_DEFAULT -> 1 <= width <= u16_limit -> forall seen s, reflow_inv width seen s -> all_kept cs ->
  reflow_inv width (seen ++ cs) (fold_left (reflow_step width bg co) cs s).
Proof.
  intros Hbg Hw. induction cs as [|c cs IH]; intros seen s Hs Hk; simpl; [by rewrite app_nil_r|].
  apply Forall_cons in Hk as [Hc Hk]. change (c :: cs) with ([c] ++ cs). rewrite app_assoc.
  apply IH; [by apply reflow_step_inv|done].
Qed.

Lemma reflow_logical_spec cs flags width bg co :
  bg = COLOUR_DEFAULT -> width <= u16_limit -> flags_contains flags WRAPPED = false -> all_kept cs ->
  let rows := (reflow_logical_line_remapping_cursor cs flags width bg co).1 in
  is_group (width `max` 1) rows /\ group_text rows = trim_end (cells_text cs).
Proof.
  intros Hbg Hw Hf Hk. unfold reflow_logical_line_remapping_cursor.
  assert (1 <= width `max` 1 <= u16_limit) as Hw1 by (assert (u16_limit = Z.to_nat 65535) by done; lia).
  destruct cs as [|c cs]; [apply blank_row_spec; try done; lia|]. set (all := c :: cs) in *. cbv zeta. cbn [fst].
  assert (reflow_inv (width `max` 1) all (fold_left (reflow_step (width `max` 1) bg co) all
    (mkReflow [] (with_line_flags flags (line_blank_with_bg (width `max` 1) bg)) 0 0 None))) as Hinv.
  { apply (reflow_cells_inv _ _ _ _ Hbg Hw1 []); [|done]. subst bg. constructor; simpl; try done.
    - apply with_line_flags_ok, line_new_ok. lia.
    - lia.
    - exists []. split; [unfold view; simpl; by rewrite Nat.sub_0_r|done]. }
  revert Hinv. generalize (fold_left (reflow_step (width `max` 1) bg co) all
    (mkReflow [] (with_line_flags flags (line_blank_with_bg (width `max` 1) bg)) 0 0 None)) as s.
  intros s [Ho Hc Hcw Hu _ (placed & Hv & _ & Ht)]. split; [split|].
  - apply Forall_app. split; [|by constructor; [split|]]. eapply Forall_impl; [exact Ho|]. by intros l [? _].
  - eexists _, _. split; [done|]. split; [|done]. eapply Forall_impl; [exact Ho|]. by intros l [_ ?].
  - unfold group_text, group_cells in *. rewrite map_app, concat_app, cells_text_app. simpl. rewrite app_nil_r.
    erewrite trim_end_app_congr by (by apply row_text_unwrapped). rewrite Hv, kept_cells_app, cells_text_app, app_assoc, Ht.
    destruct (kept_blank_text (replicate (width `max` 1 - rs_x s) default_cell)) as [k ->];
      [by apply Forall_replicate|]. apply trim_end_app_spaces.
Qed.

(** ** Plain ASCII *)

Lemma plain_rows_spec fuel text flags width :
  length text <= fuel -> text <> [] -> 1 <= width <= u16_limit -> is_ascii text = true -> flags_contains flags WRAPPED = false ->
  is_group width (plain_rows fuel text flags width)
  /\ cells_text (group_cells (plain_rows fuel text flags width)) = text.
Proof.
  intros Hfuel Hne Hw. revert text flags Hfuel Hne. induction fuel as [|fuel IH]; intros text flags Hfuel Hne Ha Hf.
  { destruct text; simpl in Hfuel; [done|lia]. }
  destruct text as [|b text]; [done|]. set (all := b :: text) in *. simpl.
  assert (exact_row width (from_plain_ascii_text width flags (take width all))) as Hrow.
  { split; [|done]. apply from_plain_ascii_text_ok; [lia|rewrite length_take; lia|by apply is_ascii_take]. }
  destruct (bool_decide (drop width all = [])) eqn:E.
  - apply bool_decide_eq_true in E. assert (take width all = all) as Htake.
    { rewrite <- (take_drop width all) at 2. by rewrite E, app_nil_r. }
    assert (plain_rows fuel (drop width all) 0 width = []) as -> by (rewrite E; by destruct fuel). split; [split|].
    + by constructor.
    + by exists [], (from_plain_ascii_text width flags (take width all)).
    + unfold group_cells. simpl. rewrite app_nil_r. unfold row_cells, row_end, is_wrapped. simpl. rewrite Hf. unfold used_end. simpl.
      by rewrite resize_all_alt, cells_text_plain, Htake.
  - apply bool_decide_eq_false in E. destruct (IH (drop width all) 0%Z) as [[Hr (init & lastrow & Hrows & Hi & Hl)] Ht].
    { rewrite length_drop. simpl in *. lia. }
    { done. }
    { by apply is_ascii_drop. }
    { done. }
    assert (width < length all) as Hlt by (apply Nat.nle_gt; intros ?; by apply E, drop_ge). split; [split|].
    + constructor; [|done]. destruct Hrow. split; [by apply set_wrapped_ok|].
      by destruct (set_wrapped_contents true (from_plain_ascii_text width flags (take width all))) as (_ & _ & ->).
    + exists (set_wrapped true (from_plain_ascii_text width flags (take width all)) :: init), lastrow.
      split; [by rewrite Hrows|]. split; [|done]. constructor; [apply set_wrapped_wrapped|done].
    + unfold group_cells in *. simpl. rewrite cells_text_app, Ht.
      assert (row_cells (set_wrapped true (from_plain_ascii_text width flags (take width all)))
        = map from_plain_ascii (take width all)) as ->.
      { unfold row_cells, row_end. rewrite set_wrapped_wrapped. unfold set_wrapped, touch_if.
        destruct (negb _); simpl; rewrite resize_all_alt by (rewrite length_take; lia); done. }
      by rewrite cells_text_plain, take_drop.
Qed.

Lemma reflow_plain_spec text flags width bg co :
  bg = COLOUR_DEFAULT -> width <= u16_limit -> flags_contains flags WRAPPED = false -> is_ascii text = true ->
  let rows := (reflow_plain_ascii_line_remapping_cursor text flags width bg co).1 in
  is_group (width `max` 1) rows /\ group_text rows = trim_end text.
Proof.
  intros Hbg Hw Hf Ha. unfold reflow_plain_ascii_line_remapping_cursor.
  assert (1 <= width `max` 1 <= u16_limit) as Hw1 by (assert (u16_limit = Z.to_nat 65535) by done; lia).
  destruct (bool_decide (text = [])) eqn:E; simpl.
  - apply bool_decide_eq_true in E as ->. apply (blank_row_spec flags (width `max` 1) bg co); try done; lia.
  - apply bool_decide_eq_false in E. subst bg. simpl.
    destruct (plain_rows_spec (length text) text flags (width `max` 1)) as [Hg Ht]; [lia|done|done|done|done|].
    split; [done|]. unfold group_text. by rewrite Ht.
Qed.

(** ** The loop over the rows *)

Lemma source_groups_concat width groups : Forall (is_group width) groups -> source_groups (concat groups) [] = groups.
Proof. induction 1 as [|g groups Hg Hgs IH]; simpl; [done|]. by rewrite (source_groups_group width), IH. Qed.

(** What is collected of the current logical line. *)
Record pending_inv (pending : list GridLine) (s : WrappedState) : Prop := {
  pending_flags : match logical_flags s with
    | Some f => pending <> [] /\ flags_contains f WRAPPED = false
    | None => pending = [] /\ logical_cells s = [] /\ logical_plain_text s = None
    end;
  pending_text : match logical_plain_text s with
    | Some t => is_ascii t = true /\ logical_cells s = [] /\ t = cells_text (group_cells pending)
    | None => all_kept (logical_cells s) /\ cells_text (logical_cells s) = cells_text (group_cells pending)
    end
}.

Record rows_inv (width : nat) (texts : list (list Z)) (pending : list GridLine) (s : WrappedState) : Prop := {
  rows_output : exists groups, ws_output s = concat groups /\ Forall (is_group width) groups /\ map group_text groups = texts;
  rows_pending : pending_inv pending s
}.

Lemma flush_inv width bg cursor texts pending s :
  bg = COLOUR_DEFAULT -> width <= u16_limit -> pending <> [] -> rows_inv (width `max` 1) texts pending s ->
  rows_inv (width `max` 1) (texts ++ [group_text pending]) [] (flush_line width bg cursor s).
Proof.
  intros Hbg Hw Hne [(groups & Ho & Hg & Ht) [Hf Hp]]. unfold flush_line.
  assert (flags_contains (default 0%Z (logical_flags s)) WRAPPED = false) as Hflags.
  { destruct (logical_flags s); simpl; [by destruct Hf|done]. }
  generalize (if (Z.of_nat (ws_start_y s) =? logical_start_y cursor)%Z then Some (offset cursor) else None) as co. intros co.
  assert (is_group (width `max` 1) (match logical_plain_text s with
      | Some text => reflow_plain_ascii_line_remapping_cursor text (default 0%Z (logical_flags s)) width bg co
      | None => reflow_logical_line_remapping_cursor (logical_cells s) (default 0%Z (logical_flags s)) width bg co
      end).1 /\ group_text (match logical_plain_text s with
      | Some text => reflow_plain_ascii_line_remapping_cursor text (default 0%Z (logical_flags s)) width bg co
      | None => reflow_logical_line_remapping_cursor (logical_cells s) (default 0%Z (logical_flags s)) width bg co
      end).1 = group_text pending) as Hrows.
  { destruct (logical_plain_text s) as [t|].
    - destruct Hp as (Ha & _ & Heq). destruct (reflow_plain_spec t _ width bg co Hbg Hw Hflags Ha) as [H1 H2].
      split; [done|]. rewrite H2. unfold group_text. by rewrite Heq.
    - destruct Hp as (Hk & Heq). destruct (reflow_logical_spec _ _ width bg co Hbg Hw Hflags Hk) as [H1 H2].
      split; [done|]. rewrite H2. unfold group_text. by rewrite Heq. }
  revert Hrows. generalize (match logical_plain_text s with
      | Some text => reflow_plain_ascii_line_remapping_cursor text (default 0%Z (logical_flags s)) width bg co
      | None => reflow_logical_line_remapping_cursor (logical_cells s) (default 0%Z (logical_flags s)) width bg co
      end) as r. intros [rows relative] [Hrg Hrt]. simpl in *. constructor; simpl.
  - exists (groups ++ [rows]). rewrite concat_app, Ho. simpl. rewrite app_nil_r. split; [done|]. split.
    + apply Forall_app. split; [done|by constructor].
    + rewrite map_app, Ht. simpl. by rewrite Hrt.
  - constructor; simpl; [done|]. split; [by constructor|done].
Qed.

Lemma row_cells_kept l : all_kept (row_cells l).
Proof.
  unfold row_cells, all_kept. destruct (plain_text l) as [text|].
  - apply Forall_forall. intros c (b & -> & _)%list_elem_of_fmap. done.
  - unfold kept_cells. apply Forall_forall. by intros c [? _]%list_elem_of_filter.
Qed.

Lemma join_row_inv width texts pending bg y l s :
  bg = COLOUR_DEFAULT -> line_ok l -> rows_inv width texts pending s ->
  rows_inv width texts (pending ++ [l]) (join_row l (start_line bg y l s)).
Proof.
  intros -> Hok [Ho Hpend].
  assert (exists f, logical_flags (start_line COLOUR_DEFAULT y l s) = Some f /\ flags_contains f WRAPPED = false
    /\ match logical_plain_text (start_line COLOUR_DEFAULT y l s) with
       | Some t => is_ascii t = true /\ logical_cells (start_line COLOUR_DEFAULT y l s) = [] /\ t = cells_text (group_cells pending)
       | None => all_kept (logical_cells (start_line COLOUR_DEFAULT y l s))
                 /\ cells_text (logical_cells (start_line COLOUR_DEFAULT y l s)) = cells_text (group_cells pending)
       end) as (f & Hf & Hfw & Hp).
  { destruct Hpend as [Hf Hp]. unfold start_line. destruct (logical_flags s) as [f|] eqn:E.
    - exists f. destruct Hf as [_ Hf]. done.
    - destruct Hf as (-> & Hc & _). eexists. split; [done|]. split.
      + change WRAPPED with (2 ^ 0)%Z. rewrite contains_remove by lia. apply andb_false_r.
      + simpl. done. }
  assert (ws_output (start_line COLOUR_DEFAULT y l s) = ws_output s) as Hout by (unfold start_line; by destruct (logical_flags s)).
  revert Hf Hp Hout. generalize (start_line COLOUR_DEFAULT y l s) as s'. intros s' Hf Hp Hout.
  assert (group_cells (pending ++ [l]) = group_cells pending ++ row_cells l) as Hgc.
  { unfold group_cells. rewrite map_app, concat_app. simpl. by rewrite app_nil_r. }
  assert (forall cs t, match t with
      | Some t => is_ascii t = true /\ cs = [] /\ t = cells_text (group_cells (pending ++ [l]))
      | None => all_kept cs /\ cells_text cs = cells_text (group_cells (pending ++ [l])) end ->
    rows_inv width texts (pending ++ [l]) (mkWrapped (ws_output s') cs t (logical_flags s') (ws_start_y s') (mapped_cursor s'))) as Hdone.
  { intros cs t Ht. constructor; simpl; [by rewrite Hout|]. constructor; simpl; [|done]. rewrite Hf. split; [by destruct pending|done]. }
  unfold join_row. pose proof (row_cells_kept l) as Hk. rewrite Hgc in Hdone. unfold row_cells, kept_cells, kept in Hk, Hdone.
  destruct (logical_plain_text s') as [lt|] eqn:Elt; destruct (plain_text l) as [text|] eqn:Et.
  - apply Hdone. destruct Hp as (Ha & Hc & Heq). destruct Hok as [_ Hl]. rewrite Et in Hl. split.
    + rewrite is_ascii_app, Ha. apply is_ascii_resize. by destruct Hl.
    + split; [done|]. by rewrite cells_text_app, cells_text_plain, <- Heq.
  - apply Hdone. destruct Hp as (Ha & Hc & Heq). rewrite Hc. simpl. split.
    + apply Forall_app. split; [|done]. apply Forall_forall. by intros c (b & -> & _)%list_elem_of_fmap.
    + by rewrite !cells_text_app, cells_text_plain, Heq.
  - apply Hdone. destruct Hp as (Ha & Heq). simpl. rewrite app_nil_r. split; [by apply Forall_app|].
    by rewrite !cells_text_app, Heq.
  - apply Hdone. destruct Hp as (Ha & Heq). simpl. rewrite app_nil_r. split; [by apply Forall_app|].
    by rewrite !cells_text_app, Heq.
Qed.

Lemma reflow_rows_inv width bg cursor lines :
  bg = COLOUR_DEFAULT -> width <= u16_limit -> forall y texts pending s,
  Forall line_ok lines -> rows_inv (width `max` 1) texts pending s ->
  exists texts' pending', rows_inv (width `max` 1) texts' pending' (reflow_rows width bg cursor y lines s)
  /\ texts ++ map group_text (source_groups lines pending)
     = texts' ++ match pending' with [] => [] | _ => [group_text pending'] end.
Proof.
  intros Hbg Hw. induction lines as [|l lines IH]; intros y texts pending s Hok Hs; simpl.
  - exists texts, pending. split; [done|]. by destruct pending.
  - apply Forall_cons in Hok as [Hl Hok]. assert (Hj := join_row_inv _ _ _ bg y l s Hbg Hl Hs).
    destruct (is_wrapped l).
    + apply IH; done.
    + destruct (IH (S y) (texts ++ [group_text (pending ++ [l])]) [] (flush_line width bg cursor (join_row l (start_line bg y l s))) Hok)
        as (texts' & pending' & H1 & H2); [apply flush_inv; try done; by destruct pending|].
      exists texts', pending'. split; [done|]. rewrite <- H2. simpl. by rewrite <- app_assoc.
Qed.

Lemma reflow_wrapped_spec lines width bg cursor :
  bg = COLOUR_DEFAULT -> width <= u16_limit -> Forall line_ok lines ->
  let rows := (reflow_wrapped_lines_remapping_cursor lines width bg cursor).1 in
  Forall (exact_row (width `max` 1)) rows /\ logical_texts rows = logical_texts lines.
Proof.
  intros Hbg Hw Hok. unfold reflow_wrapped_lines_remapping_cursor.
  destruct (reflow_rows_inv width bg cursor lines Hbg Hw 0 [] [] (mkWrapped [] [] None None 0 None) Hok)
    as (texts & pending & Hs & Ht).
  { constructor; [by exists []|]. constructor; simpl; [done|]. split; [constructor|done]. }
  revert Hs. generalize (reflow_rows width bg cursor 0 lines (mkWrapped [] [] None None 0 None)) as s. intros s Hs.
  cbv zeta. cbn [fst].
  assert (exists texts', rows_inv (width `max` 1) texts' [] (if bool_decide (is_Some (logical_flags s))
      || negb (bool_decide (logical_cells s = [])) || bool_decide (is_Some (logical_plain_text s))
      then flush_line width bg cursor s else s) /\ texts' = map group_text (source_groups lines [])) as (texts' & Hs' & ->).
  { destruct Hs as [Ho [Hf Hp]]. destruct (logical_flags s) as [f|] eqn:Ef.
    - destruct Hf as [Hne Hf]. rewrite bool_decide_eq_true_2 by done. simpl. exists (texts ++ [group_text pending]). split.
      + apply flush_inv; try done. constructor; [done|]. constructor; [by rewrite Ef|done].
      + simpl in Ht. rewrite Ht. by destruct pending.
    - destruct Hf as (-> & Hc & Hpt). rewrite Hc, Hpt. rewrite bool_decide_eq_false_2 by (by intros [? ?]). simpl.
      exists texts. split; [|simpl in Ht; by rewrite Ht, app_nil_r]. constructor; [done|]. constructor; rewrite ?Ef; done. }
  destruct Hs' as [(groups & Ho & Hg & Hgt) _]. rewrite Ho. split.
  - apply Forall_concat. eapply Forall_impl; [exact Hg|]. by intros g [? _].
  - unfold logical_texts. rewrite (source_groups_concat _ _ Hg). done.
Qed.
