(* ===== verification/Grid.v ===== *)
(** * The grid

    [crates/rmux-core/src/grid.rs], [Grid]: the rows on the screen, the rows that
    scrolled off it, and how both change when the screen scrolls or is resized.
    [now] is what the clock reads during a call.  [None] is the panic of a slice
    or index out of range.  Bytes and rows are counted in [nat]: they measure data
    that is in memory. *)

From S2P Require Import Prelude Utf8 InputCell GridCell GridLine GridReflow.

#[local] Open Scope nat_scope.

Definition HISTORY_STAMP_REFRESH_LINES : nat := 256.
#[global] Arguments HISTORY_STAMP_REFRESH_LINES : simpl never.

Record Grid : Type := mkGrid {
  sx : nat;
  sy : nat;
  hlimit : nat;
  reflow_history_capacity : nat;
  hscrolled : nat;
  history_enabled : bool;
  history_stamp : Z;
  history_stamp_remaining : nat;
  history : list GridLine;
  history_content_bytes : nat;
  visible : list GridLine
}.

Definition with_visible (v : list GridLine) (g : Grid) : Grid :=
  mkGrid (sx g) (sy g) (hlimit g) (reflow_history_capacity g) (hscrolled g) (history_enabled g) (history_stamp g)
    (history_stamp_remaining g) (history g) (history_content_bytes g) v.
Definition with_size (w h : nat) (g : Grid) : Grid :=
  mkGrid w h (hlimit g) (reflow_history_capacity g) (hscrolled g) (history_enabled g) (history_stamp g)
    (history_stamp_remaining g) (history g) (history_content_bytes g) (visible g).
Definition with_history (h : list GridLine) (bytes : nat) (g : Grid) : Grid :=
  mkGrid (sx g) (sy g) (hlimit g) (reflow_history_capacity g) (hscrolled g) (history_enabled g) (history_stamp g)
    (history_stamp_remaining g) h bytes (visible g).
Definition with_capacity (c : nat) (g : Grid) : Grid :=
  mkGrid (sx g) (sy g) (hlimit g) c (hscrolled g) (history_enabled g) (history_stamp g)
    (history_stamp_remaining g) (history g) (history_content_bytes g) (visible g).
Definition with_hscrolled (n : nat) (g : Grid) : Grid :=
  mkGrid (sx g) (sy g) (hlimit g) (reflow_history_capacity g) n (history_enabled g) (history_stamp g)
    (history_stamp_remaining g) (history g) (history_content_bytes g) (visible g).

Definition grid_new (cols rows limit : nat) : Grid :=
  let w := cols `max` 1 in
  let h := rows `max` 1 in
  mkGrid w h limit 0 0 true 0 0 [] 0 (replicate h (line_new w)).

(** [TerminalSize] of the grid: columns and rows as [u16]. *)
Definition grid_size (g : Grid) : nat * nat := (u16_saturated (sx g), u16_saturated (sy g)).

(** ** History *)

Definition history_line_content_bytes (l : GridLine) : nat := rendered_text_len l + 1.

Definition content_bytes (lines : list GridLine) : nat := list_sum (map history_line_content_bytes lines).

Definition recompute_history_content_bytes (g : Grid) : Grid := with_history (history g) (content_bytes (history g)) g.

Definition effective_history_capacity (g : Grid) : nat := hlimit g `max` reflow_history_capacity g.

Definition pop_history_front (g : Grid) : Grid :=
  match history g with
  | [] => g
  | line :: rest => with_history rest (history_content_bytes g - history_line_content_bytes line) g
  end.

Definition pop_history_back (g : Grid) : option (GridLine * Grid) :=
  match last (history g) with
  | None => None
  | Some line =>
      Some (line, with_history (take (length (history g) - 1) (history g))
                    (history_content_bytes g - history_line_content_bytes line) g)
  end.

Definition set_hlimit (limit : nat) (g : Grid) : Grid :=
  let g := mkGrid (sx g) (sy g) limit 0 (hscrolled g) (history_enabled g) (history_stamp g)
             (history_stamp_remaining g) (history g) (history_content_bytes g) (visible g) in
  let g := Nat.iter (length (history g) - limit) pop_history_front g in
  with_hscrolled (hscrolled g `min` length (history g)) g.

Definition set_history_enabled (b : bool) (g : Grid) : Grid :=
  mkGrid (sx g) (sy g) (hlimit g) (reflow_history_capacity g) (hscrolled g) b (history_stamp g)
    (history_stamp_remaining g) (history g) (history_content_bytes g) (visible g).

Definition grid_clear_history (g : Grid) : Grid := with_hscrolled 0 (with_capacity 0 (with_history [] 0 g)).

Definition compacted_history (lines : list GridLine) : list GridLine := map compact_for_history lines.

(** ** Lines by absolute row: the history, then the screen *)

Definition all_lines (g : Grid) : list GridLine := history g ++ visible g.

Definition absolute_line (g : Grid) (y : nat) : option GridLine :=
  if y <? length (history g) then history g !! y else visible g !! (y - length (history g)).

Definition total_line_count (g : Grid) : nat := length (history g) + length (visible g).

Definition absolute_line_wrapped (g : Grid) (y : nat) : option bool := is_wrapped <$> absolute_line g y.

Definition visible_line_mut (y : nat) (f : GridLine -> GridLine) (g : Grid) : Grid :=
  with_visible (alter f y (visible g)) g.

Definition break_wrap_before_visible_line (y : nat) (g : Grid) : Grid :=
  match y with
  | O =>
      if history_enabled g
      then with_history (alter (set_wrapped false) (length (history g) - 1) (history g)) (history_content_bytes g) g
      else g
  | S y => visible_line_mut y (set_wrapped false) g
  end.

Definition remove_absolute_line (y : nat) (g : Grid) : bool * Grid :=
  if y <? length (history g) then
    let bytes :=
      match history g !! y with
      | Some line => history_content_bytes g - history_line_content_bytes line
      | None => history_content_bytes g
      end in
    let g := with_history (delete y (history g)) bytes g in
    let g := with_capacity (reflow_history_capacity g - 1) g in
    (true, with_hscrolled (hscrolled g `min` length (history g)) g)
  else
    let index := y - length (history g) in
    if length (visible g) <=? index then (false, g)
    else (true, with_visible (delete index (visible g) ++ [line_new (sx g)]) g).

Definition truncate_after_absolute_line (y : nat) (g : Grid) : bool * Grid :=
  if total_line_count g <=? y then (false, g)
  else
    let lines := take (y + 1) (all_lines g) in
    let lines := lines ++ replicate (sy g - length lines) (line_new (sx g)) in
    let start := length lines - sy g in
    let rows := map (resize_width_preserving_wrap (sx g) COLOUR_DEFAULT) (drop start lines) in
    let kept := compacted_history (take start lines) in
    let kept := drop (length kept - effective_history_capacity g) kept in
    (true, with_hscrolled (length kept) (with_visible rows (with_history kept (content_bytes kept) g))).

Definition clear_visible (bg : Z) (g : Grid) : Grid := with_visible (map (line_clear bg) (visible g)) g.

Definition replace_visible (lines : list GridLine) (g : Grid) : Grid :=
  with_visible (map (resize_width_preserving_wrap (sx g) COLOUR_DEFAULT) lines) (with_size (sx g) (length lines) g).

(** The rows cut or filled up to [rows]. *)
Definition fit_rows (rows width : nat) (bg : Z) (lines : list GridLine) : list GridLine :=
  take rows lines ++ replicate (rows - length lines) (line_blank_with_bg width bg).

Definition restore_visible_at_size (cols rows : nat) (lines : list GridLine) (bg : Z) (g : Grid) : Grid :=
  let w := cols `max` 1 in
  let h := rows `max` 1 in
  with_visible (map (resize_width_preserving_wrap w bg) (fit_rows h w bg lines)) (with_size w h g).

Section Clock.

Context (now : Z).

Definition next_history_stamp (g : Grid) : Z * Grid :=
  let '(stamp, remaining) :=
    if history_stamp_remaining g =? 0 then (now, HISTORY_STAMP_REFRESH_LINES)
    else (history_stamp g, history_stamp_remaining g) in
  (stamp, mkGrid (sx g) (sy g) (hlimit g) (reflow_history_capacity g) (hscrolled g) (history_enabled g) stamp
            (remaining - 1) (history g) (history_content_bytes g) (visible g)).

Definition push_history_with_effective_capacity (line : GridLine) (g : Grid) : Grid :=
  let capacity := effective_history_capacity g in
  if capacity =? 0 then g
  else
    let '(stamp, g) := next_history_stamp g in
    let line := compact_for_history (stamp_for_history_at stamp line) in
    let g := if capacity <=? length (history g) then pop_history_front g else g in
    let g := with_history (history g ++ [line]) (history_content_bytes g + history_line_content_bytes line) g in
    with_hscrolled ((hscrolled g + 1) `min` length (history g)) g.

Definition push_history_preserving_reflow_capacity (line : GridLine) (g : Grid) : Grid :=
  if hlimit g =? 0 then g else push_history_with_effective_capacity line g.

Definition push_history (line : GridLine) (g : Grid) : Grid :=
  if hlimit g =? 0 then g
  else
    let g :=
      if 0 <? reflow_history_capacity g
      then with_capacity (if hlimit g <? length (history g) then length (history g) else 0) g
      else g in
    push_history_with_effective_capacity line g.

(** The rows up to the last one in use. *)
Fixpoint used_rows (lines : list GridLine) : nat :=
  match lines with
  | [] => 0
  | l :: lines =>
      match used_rows lines with
      | O => if 0 <? used_end l then 1 else 0
      | n => S n
      end
  end.

Definition clear_visible_to_history (bg : Z) (g : Grid) : Grid :=
  let g :=
    if history_enabled g
    then fold_left (fun g line => push_history line g) (take (used_rows (visible g)) (visible g)) g
    else g in
  clear_visible bg g.

(** ** Scrolling *)

Definition valid_region (upper lower : nat) (g : Grid) : bool :=
  (upper <? sy g) && (lower <? sy g) && (upper <=? lower).

Definition prepare_wrapped_line_move (destination source count : nat) (g : Grid) : Grid :=
  if (count =? 0) || (source =? destination) then g
  else
    let g := break_wrap_before_visible_line destination g in
    if (source <? destination) || (destination + count <=? source) then break_wrap_before_visible_line source g else g.

(** [f] on the slice [visible[upper..=lower]] *)
Definition on_region (upper lower : nat) (f : list GridLine -> list GridLine) (g : Grid) : option Grid :=
  if (upper <=? lower + 1) && (lower <? length (visible g))
  then Some (with_visible (take upper (visible g) ++ f (take (lower + 1 - upper) (drop upper (visible g)))
                           ++ drop (lower + 1) (visible g)) g)
  else None.

Definition scroll_region_up_one (upper lower : nat) (bg : Z) (to_history : bool) (g : Grid) : option Grid :=
  if (upper =? 0) && (lower + 1 =? length (visible g)) then
    match visible g with
    | [] => Some g
    | removed :: rest =>
        if to_history && history_enabled g
        then let g := push_history removed (with_visible rest g) in
             Some (with_visible (visible g ++ [line_blank_with_bg (sx g) bg]) g)
        else Some (with_visible (rest ++ [line_clear bg removed]) g)
    end
  else
    g ← (if to_history && history_enabled g
         then removed ← visible g !! upper;
              Some (push_history removed (visible_line_mut upper (fun _ => line_blank_with_bg (sx g) bg) g))
         else Some g);
    g ← on_region upper lower (rotate_left 1) g;
    Some (visible_line_mut lower (line_clear bg) g).

Definition scroll_region_up (upper lower : nat) (bg : Z) (to_history : bool) (g : Grid) : option Grid :=
  if negb (valid_region upper lower g) then Some g
  else
    let g := if to_history && history_enabled g then g else prepare_wrapped_line_move upper (upper + 1) (lower - upper) g in
    scroll_region_up_one upper lower bg to_history g.

Definition scroll_region_down_one (upper lower : nat) (bg : Z) (g : Grid) : option Grid :=
  if (upper =? 0) && (lower + 1 =? length (visible g)) then
    match last (visible g) with
    | None => Some g
    | Some removed => Some (with_visible (line_clear bg removed :: take (length (visible g) - 1) (visible g)) g)
    end
  else
    g ← on_region upper lower (rotate_right 1) g;
    Some (visible_line_mut upper (line_clear bg) g).

Definition scroll_region_down (upper lower : nat) (bg : Z) (g : Grid) : option Grid :=
  if negb (valid_region upper lower g) then Some g
  else scroll_region_down_one upper lower bg (prepare_wrapped_line_move (upper + 1) upper (lower - upper) g).

Definition insert_lines (upper lower count : nat) (bg : Z) (g : Grid) : option Grid :=
  if negb (valid_region upper lower g) then Some g
  else
    let region_lines := lower - upper + 1 in
    let count := (count `max` 1) `min` region_lines in
    let moved_lines := region_lines - count in
    let g := if moved_lines =? 0 then break_wrap_before_visible_line upper g
             else prepare_wrapped_line_move (upper + count) upper moved_lines g in
    g ← Nat.iter count (fun g => g ≫= scroll_region_down_one upper lower bg) (Some g);
    Some (if count =? moved_lines then g else break_wrap_before_visible_line (upper + moved_lines) g).

(** ** Resizing *)

(** Back to the first row of the logical line. *)
Fixpoint start_loop (g : Grid) (start : nat) : nat :=
  match start with
  | O => O
  | S before => if default false (absolute_line_wrapped g before) then start_loop g before else start
  end.

Definition grid_logical_start_y (g : Grid) (y : nat) : nat := start_loop g (y `min` (total_line_count g - 1)).

Definition logical_cursor (visible_y cursor_x : nat) (pending_wrap : bool) (g : Grid) : GridLogicalCursor :=
  let total := total_line_count g in
  if total =? 0 then mkLogicalCursor 0 0
  else
    let y := (length (history g) + visible_y) `min` (total - 1) in
    let start := grid_logical_start_y g y in
    let before := list_sum (map reflow_logical_width (take (y - start) (drop start (all_lines g)))) in
    let column := if pending_wrap then sx g else in_width (sx g) cursor_x in
    let cursor_column := match absolute_line g y with Some l => reflow_logical_column l column | None => column end in
    mkLogicalCursor (Z.of_nat start) (before + cursor_column).

(** Rows up to the first that is not wrapped. *)
Fixpoint logical_rows (lines : list GridLine) : list GridLine :=
  match lines with
  | [] => []
  | l :: lines => if is_wrapped l then l :: logical_rows lines else [l]
  end.

Definition locate_cursor_from_logical (cursor : GridLogicalCursor) (g : Grid) : GridPhysicalCursor :=
  let total := total_line_count g in
  if total =? 0 then mkPhysicalCursor 0 0 false
  else
    let start := Z.to_nat (logical_start_y cursor) `min` (total - 1) in
    let lines := logical_rows (drop start (all_lines g)) in
    match lines with
    | [l] =>
        let used := used_end l in
        let at_new_edge := (0 <? used) && (offset cursor =? used) && (used =? sx g) in
        mkPhysicalCursor start (if at_new_edge then sx g - 1 else in_width (sx g) (offset cursor)) at_new_edge
    | _ =>
        let relative := (reflow_wrapped_lines_remapping_cursor lines (sx g) COLOUR_DEFAULT (mkLogicalCursor 0 (offset cursor))).2 in
        let relative := default (mkPhysicalCursor 0 0 false) relative in
        mkPhysicalCursor (start + absolute_y relative) (physical_x relative) (physical_pending_wrap relative)
    end.

Definition can_resize_width_without_reflow (width : nat) (g : Grid) : bool :=
  forallb (fun l => negb (is_wrapped l) && (used_end l <=? width)) (all_lines g).

(** [take_while] from the end *)
Fixpoint trailing_empty_rows (lines : list GridLine) : nat :=
  match lines with
  | [] => 0
  | l :: rest =>
      let n := trailing_empty_rows rest in
      if (n =? length rest) && (used_end l =? 0) && negb (is_wrapped l) then S n else n
  end.

Definition resize_width_remapping_cursor (width : nat) (bg : Z) (cursor : GridLogicalCursor) (g : Grid)
  : GridPhysicalCursor * Grid :=
  let width := width `max` 1 in
  if width =? sx g then (locate_cursor_from_logical cursor g, g)
  else if can_resize_width_without_reflow width g then
    let resized := map (resize_width_preserving_wrap width bg) in
    let g := with_visible (resized (visible g)) (with_history (resized (history g)) (history_content_bytes g) g) in
    let g := recompute_history_content_bytes (with_size width (sy g) g) in
    (locate_cursor_from_logical cursor g, g)
  else
    let rows := sy g in
    let '(reflowed, reflow_cursor) := reflow_wrapped_lines_remapping_cursor (all_lines g) width bg cursor in
    let reflowed := reflowed ++ replicate (rows - length reflowed) (line_blank_with_bg width bg) in
    let default_history_rows := length reflowed - rows in
    let mapped := default (mkPhysicalCursor (length reflowed - 1) (width - 1) false) reflow_cursor in
    let cursor_shift := default_history_rows - absolute_y mapped in
    let history_rows := default_history_rows - cursor_shift `min` trailing_empty_rows reflowed in
    let mapped := if absolute_y mapped <? history_rows then mkPhysicalCursor history_rows 0 false else mapped in
    let remaining := fit_rows rows width bg (drop history_rows reflowed) in
    let kept := compacted_history (take history_rows reflowed) in
    let g' := mkGrid width rows (hlimit g) (if hlimit g <? length kept then length kept else 0)
                (if hlimit g =? 0 then 0 else length kept) (history_enabled g) (history_stamp g)
                (history_stamp_remaining g) kept (content_bytes kept)
                (map (resize_width_preserving_wrap width bg) remaining) in
    (mapped, g').

Definition resize_visible_width_preserving_cursor (width : nat) (bg : Z) (visible_y cursor_x : nat) (pending_wrap : bool) (g : Grid)
  : GridPhysicalCursor * Grid :=
  let source_width := sx g `max` 1 in
  let target_width := width `max` 1 in
  let rows := reflow_alternate_visible_lines (visible g) target_width bg (sy g) in
  let g' := with_visible rows (with_size target_width (sy g) g) in
  let physical := if pending_wrap then source_width else cursor_x in
  let '(x, wrap) := if target_width <=? physical then (target_width - 1, true) else (physical, false) in
  (mkPhysicalCursor (length (history g) + visible_y `min` (sy g - 1)) x wrap, g').

(** The last [n] rows of the history, oldest first. *)
Fixpoint pull_history (n : nat) (restored : list GridLine) (g : Grid) : list GridLine * Grid :=
  match n with
  | O => (restored, g)
  | S n =>
      match pop_history_back g with
      | Some (line, g) => pull_history n (line :: restored) g
      | None => pull_history n restored g
      end
  end.

(** The rows pushed off the top of a smaller screen. *)
Fixpoint push_top (n : nat) (g : Grid) : Grid :=
  match n with
  | O => g
  | S n =>
      match visible g with
      | [] => g
      | line :: rest => push_top n (push_history_preserving_reflow_capacity line (with_visible rest g))
      end
  end.

Definition shrink_height (rows cursor_y : nat) (g : Grid) : Grid * nat :=
  let needed := sy g - rows in
  let remove_bottom := (sy g - 1 - cursor_y) `min` needed in
  let g := with_visible (take (length (visible g) - remove_bottom) (visible g)) g in
  let needed := needed - remove_bottom in
  if history_enabled g then (push_top needed g, cursor_y)
  else
    let remove_top := cursor_y `min` needed in
    (with_visible (drop remove_top (visible g)) g, cursor_y - remove_top).

Definition grow_height (rows cursor_y : nat) (bg : Z) (g : Grid) : Grid * nat :=
  let needed := rows - sy g in
  let pull := (hscrolled g `min` needed) `min` length (history g) in
  let '(g, cursor_y, needed) :=
    if history_enabled g && (0 <? pull) then
      let '(restored, g) := pull_history pull [] g in
      let g := with_visible (map (resize_width_preserving_wrap (sx g) bg) restored ++ visible g) g in
      (with_hscrolled (hscrolled g - pull) g, (cursor_y + pull) `min` (rows - 1), needed - pull)
    else (g, cursor_y, needed) in
  (with_visible (visible g ++ replicate needed (line_blank_with_bg (sx g) bg)) g, cursor_y).

Definition resize_height (rows cursor_y : nat) (bg : Z) (g : Grid) : Grid * nat :=
  let rows := rows `max` 1 in
  let '(g, cursor_y) :=
    if rows <? sy g then shrink_height rows cursor_y g
    else if sy g <? rows then grow_height rows cursor_y bg g
    else (g, cursor_y) in
  let lines := map (resize_width_preserving_wrap (sx g) bg) (fit_rows rows (sx g) bg (visible g)) in
  (with_visible lines (with_size (sx g) rows g), cursor_y `min` (rows - 1)).

End Clock.

(** ** Counters *)

Definition TMUX_GRID_LINE_BYTES : nat := 40.
Definition TMUX_GRID_CELL_BYTES : nat := 5.
Definition TMUX_EXTENDED_CELL_BYTES : nat := 23.

Definition tmux_history_byte_counts (g : Grid) : list nat :=
  let line_count := length (all_lines g) in
  let cell_count := list_sum (map (fun l => tmux_cell_capacity l (sx g)) (all_lines g)) in
  let extended_count := list_sum (map extended_cell_count (all_lines g)) in
  [line_count; line_count * TMUX_GRID_LINE_BYTES; cell_count; cell_count * TMUX_GRID_CELL_BYTES;
   extended_count; extended_count * TMUX_EXTENDED_CELL_BYTES].
