(* ===== verification/GridInv.v ===== *)
(** * The invariant of the grid

    The screen has as many rows as it says, each with all its columns; the
    history holds no more rows than its capacity, [hscrolled] of them may be
    pulled back, and the byte counter is what counting the bytes anew would give.
    Every operation keeps this, and the operations on a region, which index the
    rows, do not panic. *)

From S2P Require Import Prelude Utf8 InputCell GridCell GridLine GridLineInv GridReflow GridReflowText Grid.

#[local] Open Scope nat_scope.

Record grid_ok (g : Grid) : Prop := {
  ok_sx : 1 <= sx g <= u16_limit;
  ok_sy : 1 <= sy g <= u16_limit;
  ok_rows : length (visible g) = sy g;
  ok_visible : Forall (row_ok (sx g)) (visible g);
  ok_history : Forall line_ok (history g);
  ok_hscrolled : hscrolled g <= length (history g);
  ok_capacity : length (history g) <= effective_history_capacity g;
  ok_bytes : history_content_bytes g = content_bytes (history g)
}.

(** What scrolling and writing leave alone. *)
Record same_frame (g g' : Grid) : Prop := {
  frame_sx : sx g' = sx g;
  frame_sy : sy g' = sy g;
  frame_hlimit : hlimit g' = hlimit g;
  frame_enabled : history_enabled g' = history_enabled g
}.

#[export] Instance same_frame_preorder : PreOrder same_frame.
Proof.
  split; [by constructor|]. intros a b c [? ? ? ?] [? ? ? ?]. constructor; congruence.
Qed.

(** A grid reached from [g] without changing its frame. *)
Definition grid_step (g g' : Grid) : Prop := grid_ok g' /\ same_frame g g'.

(** An operation that does not panic. *)
Definition grid_safe (g : Grid) (m : option Grid) : Prop := exists g', m = Some g' /\ grid_step g g'.

Lemma grid_step_trans a b c : grid_step a b -> grid_step b c -> grid_step a c.
Proof. intros [? ?] [? ?]. split; [done|]. by etransitivity. Qed.

Lemma grid_safe_ret g : grid_ok g -> grid_safe g (Some g).
Proof. intros H. exists g. split; [done|]. split; [done|reflexivity]. Qed.

Lemma grid_safe_step g g' : grid_step g g' -> grid_safe g (Some g').
Proof. intros H. by exists g'. Qed.

Lemma grid_safe_from a b m : same_frame a b -> grid_safe b m -> grid_safe a m.
Proof. intros Hab (c & -> & Hc & Hbc). exists c. split; [done|]. split; [done|]. by etransitivity. Qed.

Lemma grid_safe_bind g m k : grid_safe g m -> (forall g', grid_step g g' -> grid_safe g (k g')) -> grid_safe g (m ≫= k).
Proof. intros (g' & -> & Hg') Hk. by apply Hk. Qed.

(** ** Bytes of the history *)

Lemma content_bytes_app a b : content_bytes (a ++ b) = content_bytes a + content_bytes b.
Proof. unfold content_bytes. by rewrite map_app, list_sum_app. Qed.

Lemma content_bytes_cons l lines : content_bytes (l :: lines) = history_line_content_bytes l + content_bytes lines.
Proof. done. Qed.

Lemma content_bytes_alter f i lines :
  (forall l, render_text (f l) = render_text l) -> content_bytes (alter f i lines) = content_bytes lines.
Proof.
  intros Hf. revert i. induction lines as [|l lines IH]; intros [|i]; simpl; try done.
  - rewrite !content_bytes_cons. unfold history_line_content_bytes. by rewrite !rendered_text_len_eq, Hf.
  - rewrite !content_bytes_cons. f_equal. apply IH.
Qed.

Lemma content_bytes_delete i lines l :
  lines !! i = Some l -> content_bytes (delete i lines) = content_bytes lines - history_line_content_bytes l.
Proof.
  revert i. induction lines as [|x lines IH]; intros [|i] Hl; simpl in *; simplify_eq.
  - rewrite content_bytes_cons. lia.
  - rewrite !content_bytes_cons. rewrite (IH i) by done. rewrite <- (take_drop_middle _ _ _ Hl).
    rewrite content_bytes_app, content_bytes_cons. lia.
Qed.

(** ** The rows *)

Lemma Forall_alter_row {A} (P : A -> Prop) f i l : Forall P l -> (forall x, P x -> P (f x)) -> Forall P (alter f i l).
Proof. intros Hl Hf. apply Forall_alter; [done|]. intros x _. apply Hf. Qed.

Lemma Forall_map_row {A B} (P : A -> Prop) (Q : B -> Prop) (f : A -> B) l :
  Forall P l -> (forall x, P x -> Q (f x)) -> Forall Q (map f l).
Proof. intros Hl Hf. apply Forall_fmap. eapply Forall_impl; [exact Hl|]. exact Hf. Qed.

Lemma with_visible_step g v :
  grid_ok g -> length v = sy g -> Forall (row_ok (sx g)) v -> grid_step g (with_visible v g).
Proof. intros [? ? ? ? ? ? ? ?] Hl Hv. split; [by constructor|by constructor]. Qed.

Lemma visible_line_mut_step y f g :
  grid_ok g -> (forall l, row_ok (sx g) l -> row_ok (sx g) (f l)) -> grid_step g (visible_line_mut y f g).
Proof.
  intros Hg Hf. apply with_visible_step; [done|by rewrite length_alter, (ok_rows g Hg)|].
  apply Forall_alter_row; [apply Hg|done].
Qed.

Lemma break_wrap_step y g : grid_ok g -> grid_step g (break_wrap_before_visible_line y g).
Proof.
  intros Hg. destruct y as [|y]; simpl.
  - destruct (history_enabled g) eqn:E; [|by split].
    destruct Hg as [? ? ? ? Hh ? ? Hb]. split; constructor; simpl; rewrite ?length_alter; try done.
    + apply Forall_alter_row; [done|]. intros l [Hl1 Hl2].
      unfold set_wrapped, touch_if. destruct (negb _); by constructor.
    + rewrite Hb. symmetry. apply content_bytes_alter. intros l. apply set_wrapped_render_text.
  - apply visible_line_mut_step; [done|]. intros l. apply set_wrapped_ok.
Qed.

Lemma prepare_move_step d s n g : grid_ok g -> grid_step g (prepare_wrapped_line_move d s n g).
Proof.
  intros Hg. unfold prepare_wrapped_line_move. destruct (_ || _); [by split|].
  assert (Hb := break_wrap_step d g Hg). destruct (_ || _); [|done].
  eapply grid_step_trans; [done|]. apply break_wrap_step, Hb.
Qed.

(** ** Pushing a row into the history *)

(** All of the invariant that does not speak of the rows on the screen. *)
Record history_ok (g : Grid) : Prop := {
  hist_lines : Forall line_ok (history g);
  hist_hscrolled : hscrolled g <= length (history g);
  hist_capacity : length (history g) <= effective_history_capacity g;
  hist_bytes : history_content_bytes g = content_bytes (history g)
}.

Lemma grid_history_ok g : grid_ok g -> history_ok g.
Proof. intros [? ? ? ? ? ? ? ?]. by constructor. Qed.

Lemma grid_ok_intro g : 1 <= sx g <= u16_limit -> 1 <= sy g <= u16_limit -> length (visible g) = sy g ->
  Forall (row_ok (sx g)) (visible g) -> history_ok g -> grid_ok g.
Proof. intros ? ? ? ? [? ? ? ?]. by constructor. Qed.

Lemma pop_front_bytes g : history_content_bytes g = content_bytes (history g) ->
  history_content_bytes (pop_history_front g) = content_bytes (history (pop_history_front g)).
Proof.
  intros Hb. unfold pop_history_front. destruct (history g) as [|l rest] eqn:E; simpl; [by rewrite E|].
  rewrite Hb, content_bytes_cons. lia.
Qed.

(** The new row, compacted and stamped. *)
Definition stored_row (now : Z) (g : Grid) (line : GridLine) : GridLine :=
  compact_for_history (stamp_for_history_at (next_history_stamp now g).1 line).

Lemma stored_row_text now g line : render_text (stored_row now g line) = render_text line.
Proof. unfold stored_row. by rewrite compact_render_text, stamp_render_text. Qed.

Lemma stored_row_ok now g line : line_ok line -> line_ok (stored_row now g line).
Proof.
  intros H. apply compact_ok. unfold stamp_for_history_at. destruct (negb _); [done|]. destruct H. by constructor.
Qed.

Lemma next_history_stamp_spec now g :
  let g1 := (next_history_stamp now g).2 in
  history g1 = history g /\ history_content_bytes g1 = history_content_bytes g /\ hscrolled g1 = hscrolled g
  /\ visible g1 = visible g /\ hlimit g1 = hlimit g /\ reflow_history_capacity g1 = reflow_history_capacity g /\ same_frame g g1.
Proof. unfold next_history_stamp. destruct (_ =? 0); repeat split. Qed.

(** The history is a queue of bounded length. *)
Lemma push_effective_spec now line g :
  history_ok g -> line_ok line -> 1 <= effective_history_capacity g ->
  let g' := push_history_with_effective_capacity now line g in
  history_ok g' /\ visible g' = visible g /\ same_frame g g'
  /\ history g' = drop (length (history g) + 1 - effective_history_capacity g) (history g ++ [stored_row now g line]).
Proof.
  intros [Hl Hs Hc Hb] Hline Hcap. unfold push_history_with_effective_capacity.
  destruct (Nat.eqb_spec (effective_history_capacity g) 0) as [H0|H0]; [lia|].
  pose proof (stored_row_ok now g line Hline) as Hstored. unfold stored_row in *.
  destruct (next_history_stamp_spec now g) as (E1 & E2 & E3 & E4 & E5 & E6 & [F1 F2 F3 F4]).
  destruct (next_history_stamp now g) as [stamp g1]. cbn [fst snd] in *.
  set (line' := compact_for_history (stamp_for_history_at stamp line)) in *.
  unfold effective_history_capacity in *. rewrite E1.
  destruct (Nat.leb_spec (hlimit g `max` reflow_history_capacity g) (length (history g))) as [Hfull|Hroom].
  - unfold pop_history_front. rewrite E1. destruct (history g) as [|l0 rest] eqn:Eh; simpl in *; [lia|].
    apply Forall_cons in Hl as [_ Hl].
    replace (S (length rest + 1) - hlimit g `max` reflow_history_capacity g) with 1 by lia. cbn [drop].
    split; [constructor; simpl|split; [done|split; [by constructor|done]]].
    + apply Forall_app. split; [done|by constructor].
    + lia.
    + unfold effective_history_capacity. simpl. rewrite length_app, E5, E6. simpl. lia.
    + rewrite E2, Hb, content_bytes_app, !content_bytes_cons. unfold content_bytes at 3. simpl. lia.
  - replace (length (history g) + 1 - hlimit g `max` reflow_history_capacity g) with 0 by lia.
    split; [constructor; simpl|split; [done|split; [by constructor|by rewrite E1]]]; rewrite E1.
    + apply Forall_app. split; [done|by constructor].
    + lia.
    + unfold effective_history_capacity. simpl. rewrite length_app, E5, E6. simpl. lia.
    + rewrite E2, Hb, content_bytes_app, content_bytes_cons. unfold content_bytes at 3. simpl. lia.
Qed.

(** Only the history changes. *)
Definition history_step (g g' : Grid) : Prop := history_ok g' /\ visible g' = visible g /\ same_frame g g'.

Lemma history_step_trans a b c : history_step a b -> history_step b c -> history_step a c.
Proof. intros (? & Hv & ?) (? & Hv' & ?). split; [done|]. split; [by rewrite Hv'|]. by etransitivity. Qed.

Lemma history_step_refl g : history_ok g -> history_step g g.
Proof. intros. split; [done|]. split; [done|reflexivity]. Qed.

Lemma push_preserving_step now line g :
  history_ok g -> line_ok line -> history_step g (push_history_preserving_reflow_capacity now line g).
Proof.
  intros Hg Hl. unfold push_history_preserving_reflow_capacity. destruct (Nat.eqb_spec (hlimit g) 0); [by apply history_step_refl|].
  destruct (push_effective_spec now line g Hg Hl) as (? & ? & ? & _); [unfold effective_history_capacity; lia|]. done.
Qed.

Lemma push_history_step now line g : history_ok g -> line_ok line -> history_step g (push_history now line g).
Proof.
  intros Hg Hl. unfold push_history. destruct (Nat.eqb_spec (hlimit g) 0); [by apply history_step_refl|].
  set (g1 := if 0 <? reflow_history_capacity g then _ else g).
  assert (history_step g g1 /\ hlimit g1 = hlimit g) as [H1 H2].
  { unfold g1. destruct (0 <? reflow_history_capacity g); [|split; [by apply history_step_refl|done]].
    destruct Hg as [? ? Hc ?]. split; [|done]. split; [|by split]. constructor; simpl; try done.
    unfold effective_history_capacity in *. simpl. destruct (Nat.ltb_spec (hlimit g) (length (history g))); lia. }
  eapply history_step_trans; [done|].
  destruct (push_effective_spec now line g1 (proj1 H1) Hl) as (? & ? & ? & _); [unfold effective_history_capacity; lia|]. done.
Qed.

Lemma push_lines_step now lines g :
  history_ok g -> Forall line_ok lines -> history_step g (fold_left (fun g line => push_history now line g) lines g).
Proof.
  intros Hg Hl. revert g Hg. induction Hl as [|l lines Hl Hls IH]; intros g Hg; simpl; [by apply history_step_refl|].
  eapply history_step_trans; [by apply push_history_step|]. apply IH, push_history_step; done.
Qed.

Lemma history_step_grid g g' : grid_ok g -> history_step g g' -> grid_step g g'.
Proof.
  intros [? ? ? ? ? ? ? ?] (Hh & Hv & Hf). split; [|done]. destruct Hf. apply grid_ok_intro; rewrite ?Hv; congruence.
Qed.

(** ** Clearing *)

Lemma clear_visible_step bg g : grid_ok g -> grid_step g (clear_visible bg g).
Proof.
  intros Hg. apply with_visible_step; [done|by rewrite length_map, (ok_rows g Hg)|].
  eapply Forall_map_row; [apply Hg|]. intros l. apply line_clear_ok.
Qed.

Lemma clear_to_history_step now bg g : grid_ok g -> grid_step g (clear_visible_to_history now bg g).
Proof.
  intros Hg. unfold clear_visible_to_history. destruct (history_enabled g); [|by apply clear_visible_step].
  assert (grid_step g (fold_left (fun g line => push_history now line g) (take (used_rows (visible g)) (visible g)) g)) as Hs.
  { apply history_step_grid; [done|]. apply push_lines_step; [by apply grid_history_ok|].
    apply Forall_take. eapply Forall_impl; [apply Hg|]. apply row_ok_line. }
  eapply grid_step_trans; [exact Hs|]. apply clear_visible_step, Hs.
Qed.

Lemma clear_history_step g : grid_ok g -> grid_step g (grid_clear_history g).
Proof. intros [? ? ? ? ? ? ? ?]. split; constructor; simpl; try done; lia. Qed.

Lemma set_history_enabled_ok b g : grid_ok g -> grid_ok (set_history_enabled b g).
Proof. intros [? ? ? ? ? ? ? ?]. by constructor. Qed.

(** ** Regions *)

Lemma on_region_step upper lower f g :
  grid_ok g -> upper <= lower -> lower < sy g ->
  (forall rows, length (f rows) = length rows) -> (forall P rows, Forall P rows -> Forall P (f rows)) ->
  grid_safe g (on_region upper lower f g).
Proof.
  intros Hg Hu Hlow Hlen HP. unfold on_region. pose proof (ok_rows g Hg) as Hr.
  destruct (Nat.leb_spec upper (lower + 1)); [|lia]. destruct (Nat.ltb_spec lower (length (visible g))); [|lia].
  apply grid_safe_step, with_visible_step; [done| |].
  - rewrite !length_app, Hlen, !length_take, !length_drop. lia.
  - pose proof (ok_visible g Hg) as Hv. rewrite !Forall_app. split; [by apply Forall_take|]. split; [|by apply Forall_drop].
    by apply HP, Forall_take, Forall_drop.
Qed.

Lemma Forall_rotate_left {A} (P : A -> Prop) n l : Forall P l -> Forall P (rotate_left n l).
Proof. intros H. apply Forall_app. split; [by apply Forall_drop|by apply Forall_take]. Qed.

Lemma Forall_rotate_right {A} (P : A -> Prop) n l : Forall P l -> Forall P (rotate_right n l).
Proof. intros H. apply Forall_app. split; [by apply Forall_drop|by apply Forall_take]. Qed.

Lemma scroll_up_one_safe now upper lower bg to_history g :
  grid_ok g -> upper <= lower -> lower < sy g -> grid_safe g (scroll_region_up_one now upper lower bg to_history g).
Proof.
  intros Hg Hu Hl. unfold scroll_region_up_one. pose proof (ok_rows g Hg) as Hr. pose proof (ok_visible g Hg) as Hv.
  pose proof (ok_sx g Hg) as Hsx. pose proof (ok_sy g Hg) as Hsy.
  destruct ((upper =? 0) && (lower + 1 =? length (visible g))) eqn:E.
  - destruct (visible g) as [|removed rest] eqn:Ev; [by apply grid_safe_ret|].
    apply Forall_cons in Hv as [Hrem Hrest]. simpl in Hr. destruct (to_history && history_enabled g).
    + destruct (push_history_step now removed (with_visible rest g)) as (Hh & Hvis & Hf);
        [destruct (grid_history_ok g Hg); by constructor|by eapply row_ok_line|].
      apply grid_safe_step. destruct Hf as [F1 F2 F3 F4]. simpl in *. split.
      * apply grid_ok_intro; simpl; rewrite ?F1, ?F2, ?Hvis; simpl; rewrite ?length_app; simpl; try done; try lia.
        -- apply Forall_app. split; [done|]. constructor; [|done]. apply line_blank_ok. lia.
        -- destruct Hh. by constructor.
      * constructor; simpl; congruence.
    + apply grid_safe_step, with_visible_step; [done|rewrite length_app; simpl; lia|].
      apply Forall_app. split; [done|]. constructor; [by apply line_clear_ok|done].
  - clear E. apply grid_safe_bind.
    + destruct (to_history && history_enabled g); [|by apply grid_safe_ret].
      destruct (lookup_lt_is_Some_2 (visible g) upper) as [removed Hrem]; [lia|]. rewrite Hrem. simpl. apply grid_safe_step.
      assert (Hmut : grid_step g (visible_line_mut upper (fun _ => line_blank_with_bg (sx g) bg) g)).
      { apply visible_line_mut_step; [done|]. intros _ _. apply line_blank_ok. lia. }
      eapply grid_step_trans; [exact Hmut|]. apply history_step_grid; [apply Hmut|].
      apply push_history_step; [apply grid_history_ok, Hmut|]. eapply row_ok_line, Forall_lookup_1; done.
    + intros g1 [Hg1 Hf1]. pose proof (frame_sy _ _ Hf1) as Hsy1. eapply grid_safe_from; [exact Hf1|].
      apply grid_safe_bind.
      * apply on_region_step; [done|done|lia|apply length_rotate_left|intros; by apply Forall_rotate_left].
      * intros g2 [Hg2 Hf2]. apply grid_safe_step. eapply grid_step_trans; [by split|].
        apply visible_line_mut_step; [done|]. intros l. apply line_clear_ok.
Qed.

Lemma valid_region_true upper lower g : valid_region upper lower g = true -> upper <= lower /\ lower < sy g.
Proof.
  unfold valid_region. intros [[?%Nat.ltb_lt ?%Nat.ltb_lt]%andb_prop ?%Nat.leb_le]%andb_prop. lia.
Qed.

Lemma scroll_up_safe now upper lower bg to_history g :
  grid_ok g -> grid_safe g (scroll_region_up now upper lower bg to_history g).
Proof.
  intros Hg. unfold scroll_region_up. destruct (valid_region upper lower g) eqn:E; simpl; [|by apply grid_safe_ret].
  apply valid_region_true in E as [Hu Hl].
  destruct (to_history && history_enabled g); [by apply scroll_up_one_safe|].
  destruct (prepare_move_step upper (upper + 1) (lower - upper) g Hg) as [Hp Hf]. eapply grid_safe_from; [exact Hf|].
  apply scroll_up_one_safe; [done|done|]. by rewrite (frame_sy _ _ Hf).
Qed.

Lemma scroll_down_one_safe upper lower bg g :
  grid_ok g -> upper <= lower -> lower < sy g -> grid_safe g (scroll_region_down_one upper lower bg g).
Proof.
  intros Hg Hu Hl. unfold scroll_region_down_one. pose proof (ok_rows g Hg) as Hr. pose proof (ok_visible g Hg) as Hv.
  destruct ((upper =? 0) && (lower + 1 =? length (visible g))) eqn:E.
  - destruct (last (visible g)) as [removed|] eqn:El; [|by apply grid_safe_ret].
    apply grid_safe_step, with_visible_step; [done|simpl; rewrite length_take; lia|].
    constructor; [|by apply Forall_take]. apply line_clear_ok. apply last_Some in El as [pre El]. rewrite El in Hv.
    apply Forall_app in Hv as [_ Hv]. by apply Forall_cons in Hv as [? _].
  - clear E. apply grid_safe_bind.
    + apply on_region_step; [done|done|lia|apply length_rotate_right|intros; by apply Forall_rotate_right].
    + intros g1 [Hg1 Hf1]. apply grid_safe_step. eapply grid_step_trans; [by split|].
      apply visible_line_mut_step; [done|]. intros l. apply line_clear_ok.
Qed.

Lemma scroll_down_safe upper lower bg g : grid_ok g -> grid_safe g (scroll_region_down upper lower bg g).
Proof.
  intros Hg. unfold scroll_region_down. destruct (valid_region upper lower g) eqn:E; simpl; [|by apply grid_safe_ret].
  apply valid_region_true in E as [Hu Hl].
  destruct (prepare_move_step (upper + 1) upper (lower - upper) g Hg) as [Hp Hf]. eapply grid_safe_from; [exact Hf|].
  apply scroll_down_one_safe; [done|done|]. by rewrite (frame_sy _ _ Hf).
Qed.

(** Repeating an operation. *)
Lemma grid_safe_iter n g f :
  grid_ok g -> (forall g', grid_step g g' -> grid_safe g' (f g')) -> grid_safe g (Nat.iter n (fun m => m ≫= f) (Some g)).
Proof.
  intros Hg Hf. induction n as [|n IH]; simpl; [by apply grid_safe_ret|].
  apply grid_safe_bind; [done|]. intros g' Hg'. eapply grid_safe_from; [apply Hg'|]. by apply Hf.
Qed.

Lemma insert_lines_safe upper lower count bg g : grid_ok g -> grid_safe g (insert_lines upper lower count bg g).
Proof.
  intros Hg. unfold insert_lines. destruct (valid_region upper lower g) eqn:E; simpl; [|by apply grid_safe_ret].
  apply valid_region_true in E as [Hu Hl].
  set (n := (count `max` 1) `min` (lower - upper + 1)). set (moved := lower - upper + 1 - n).
  assert (grid_step g (if moved =? 0 then break_wrap_before_visible_line upper g
    else prepare_wrapped_line_move (upper + n) upper moved g)) as [Hp Hf].
  { destruct (_ =? 0); [by apply break_wrap_step|by apply prepare_move_step]. }
  eapply grid_safe_from; [exact Hf|]. apply grid_safe_bind.
  - apply grid_safe_iter; [done|]. intros g' [Hg' Hf']. apply scroll_down_one_safe; [done|done|].
    by rewrite (frame_sy _ _ Hf'), (frame_sy _ _ Hf).
  - intros g' [Hg' Hf']. apply grid_safe_step. destruct (n =? moved); [by split|].
    eapply grid_step_trans; [by split|]. by apply break_wrap_step.
Qed.
