(* ===== verification/GridResize.v ===== *)
(** * Resizing the grid

    Changing the history limit, the width and the height, and dropping lines,
    keep the invariant of the grid; a change of width keeps the text of every
    logical line, up to blank lines at the end. *)

From S2P Require Import Prelude Utf8 InputCell GridCell GridLine GridLineInv GridReflow GridReflowText Grid GridInv.

#[local] Open Scope nat_scope.

(** ** The history *)

Lemma pop_front_history_ok g :
  Forall line_ok (history g) -> history_content_bytes g = content_bytes (history g) ->
  Forall line_ok (history (pop_history_front g)) /\ length (history (pop_history_front g)) = length (history g) - 1
  /\ history_content_bytes (pop_history_front g) = content_bytes (history (pop_history_front g)).
Proof.
  intros Hl Hb. split; [|split; [|by apply pop_front_bytes]].
  - unfold pop_history_front. destruct (history g) eqn:E; simpl; [by rewrite E|]. by inversion Hl.
  - unfold pop_history_front. destruct (history g) eqn:E; simpl; [by rewrite E|]. lia.
Qed.

Lemma pop_front_frame g :
  visible (pop_history_front g) = visible g /\ sx (pop_history_front g) = sx g /\ sy (pop_history_front g) = sy g
  /\ hlimit (pop_history_front g) = hlimit g /\ history_enabled (pop_history_front g) = history_enabled g
  /\ reflow_history_capacity (pop_history_front g) = reflow_history_capacity g /\ hscrolled (pop_history_front g) = hscrolled g.
Proof. unfold pop_history_front. by destruct (history g). Qed.

Lemma set_hlimit_ok limit g : grid_ok g -> grid_ok (set_hlimit limit g) /\ sx (set_hlimit limit g) = sx g
  /\ sy (set_hlimit limit g) = sy g /\ visible (set_hlimit limit g) = visible g.
Proof.
  intros [? ? ? ? Hl Hs Hc Hb]. unfold set_hlimit.
  set (g0 := mkGrid (sx g) (sy g) limit 0 (hscrolled g) (history_enabled g) (history_stamp g)
             (history_stamp_remaining g) (history g) (history_content_bytes g) (visible g)).
  assert (forall n, let g1 := Nat.iter n pop_history_front g0 in
    Forall line_ok (history g1) /\ length (history g1) = length (history g) - n
    /\ history_content_bytes g1 = content_bytes (history g1)
    /\ visible g1 = visible g /\ sx g1 = sx g /\ sy g1 = sy g /\ hlimit g1 = limit) as Hiter.
  { induction n as [|n IH]; simpl; [repeat split; try done; lia|]. destruct IH as (I1 & I2 & I3 & I4 & I5 & I6 & I7).
    destruct (pop_front_history_ok _ I1 I3) as (P1 & P2 & P3).
    destruct (pop_front_frame (Nat.iter n pop_history_front g0)) as (Q1 & Q2 & Q3 & Q4 & _).
    repeat split; try congruence. lia. }
  destruct (Hiter (length (history g0) - limit)) as (I1 & I2 & I3 & I4 & I5 & I6 & I7).
  revert I1 I2 I3 I4 I5 I6 I7. generalize (Nat.iter (length (history g0) - limit) pop_history_front g0) as g1.
  intros g1 I1 I2 I3 I4 I5 I6 I7. simpl in I2. split; [|done].
  constructor; simpl; rewrite ?I4, ?I5, ?I6; try done; [lia|].
  unfold effective_history_capacity. simpl. rewrite I7, I2. lia.
Qed.

Lemma remove_absolute_line_step y g : grid_ok g -> grid_step g (remove_absolute_line y g).2.
Proof.
  intros Hg. unfold remove_absolute_line. destruct (Nat.ltb_spec y (length (history g))) as [Hy|Hy].
  - destruct Hg as [? ? ? ? Hl Hs Hc Hb]. destruct (lookup_lt_is_Some_2 _ _ Hy) as [l Hln]. rewrite Hln.
    split; constructor; simpl; try done.
    + by apply Forall_delete.
    + lia.
    + rewrite length_delete by done. unfold effective_history_capacity in *. simpl. lia.
    + rewrite Hb. symmetry. by apply content_bytes_delete.
  - destruct (Nat.leb_spec (length (visible g)) (y - length (history g))) as [Hi|Hi]; simpl; [by split|].
    pose proof (ok_rows g Hg). pose proof (ok_sx g Hg). apply with_visible_step; [done| |].
    + rewrite length_app, length_delete by (by apply lookup_lt_is_Some_2). simpl. lia.
    + apply Forall_app. split; [by apply Forall_delete, Hg|]. constructor; [|done]. apply line_new_ok. lia.
Qed.

Lemma grid_lines_ok g : grid_ok g -> Forall line_ok (all_lines g).
Proof.
  intros Hg. apply Forall_app. split; [apply Hg|]. eapply Forall_impl; [apply Hg|]. apply row_ok_line.
Qed.

Lemma Forall_resized width bg lines :
  width <= u16_limit -> Forall line_ok lines -> Forall (row_ok width) (map (resize_width_preserving_wrap width bg) lines).
Proof. intros Hw Hl. eapply Forall_map_row; [exact Hl|]. intros l Hok. by apply resize_preserving_ok. Qed.

Lemma Forall_compacted lines : Forall line_ok lines -> Forall line_ok (compacted_history lines).
Proof. intros Hl. eapply Forall_map_row; [exact Hl|]. apply compact_ok. Qed.

Lemma line_new_line_ok n : n <= u16_limit -> line_ok (line_new n).
Proof. intros Hn. by apply (line_new_ok n Hn). Qed.

Lemma line_blank_line_ok n bg : n <= u16_limit -> line_ok (line_blank_with_bg n bg).
Proof. intros Hn. by apply (line_blank_ok n bg Hn). Qed.

Lemma truncate_after_step y g : grid_ok g -> grid_step g (truncate_after_absolute_line y g).2.
Proof.
  intros Hg. unfold truncate_after_absolute_line. destruct (_ <=? y); [by split|]. cbv zeta. cbn [snd].
  pose proof (grid_lines_ok g Hg) as Hl. destruct Hg as [Hsx Hsy Hr Hv Hh Hs Hc Hb].
  set (lines := take (y + 1) (all_lines g)). set (filled := lines ++ replicate (sy g - length lines) (line_new (sx g))).
  assert (Forall line_ok filled) as Hf.
  { apply Forall_app. split; [by apply Forall_take|]. apply Forall_replicate, line_new_line_ok. lia. }
  assert (sy g <= length filled) as Hlen by (unfold filled; rewrite length_app, length_replicate; lia).
  set (kept := drop _ (compacted_history (take (length filled - sy g) filled))).
  assert (length kept <= effective_history_capacity g) as Hk.
  { unfold kept. rewrite length_drop. lia. }
  split; constructor; simpl; try done.
  - rewrite length_map, length_drop. lia.
  - apply Forall_resized; [lia|]. by apply Forall_drop.
  - apply Forall_drop, Forall_compacted. by apply Forall_take.
Qed.

(** ** Rows on the screen *)

Lemma fit_rows_ok rows width bg lines :
  width <= u16_limit -> Forall line_ok lines ->
  length (fit_rows rows width bg lines) = rows /\ Forall line_ok (fit_rows rows width bg lines).
Proof.
  intros Hw Hl. unfold fit_rows. split; [rewrite length_app, length_take, length_replicate; lia|].
  apply Forall_app. split; [by apply Forall_take|]. by apply Forall_replicate, line_blank_line_ok.
Qed.

(** A grid with the same history and new rows of a new size. *)
Lemma resized_grid_ok g w h v :
  grid_ok g -> 1 <= w <= u16_limit -> 1 <= h <= u16_limit -> length v = h -> Forall (row_ok w) v ->
  grid_ok (with_visible v (with_size w h g)).
Proof. intros [? ? ? ? ? ? ? ?] Hw Hh Hl Hv. by constructor. Qed.

Lemma u16_limit_pos : 1 <= u16_limit.
Proof. assert (u16_limit = Z.to_nat 65535) by done. lia. Qed.

Lemma grid_new_ok cols rows limit : cols <= u16_limit -> rows <= u16_limit -> grid_ok (grid_new cols rows limit).
Proof.
  intros Hc Hr. pose proof u16_limit_pos. constructor; simpl; try lia.
  - by rewrite length_replicate.
  - apply Forall_replicate, line_new_ok. lia.
  - done.
  - done.
Qed.

Lemma replace_visible_ok lines g :
  grid_ok g -> 1 <= length lines <= u16_limit -> Forall line_ok lines -> grid_ok (replace_visible lines g).
Proof.
  intros Hg Hn Hl. pose proof (ok_sx g Hg). unfold replace_visible.
  apply resized_grid_ok; [done|lia|done|by rewrite length_map|]. apply Forall_resized; [lia|done].
Qed.

Lemma restore_visible_ok cols rows lines bg g :
  grid_ok g -> cols <= u16_limit -> rows <= u16_limit -> Forall line_ok lines ->
  grid_ok (restore_visible_at_size cols rows lines bg g).
Proof.
  intros Hg Hc Hr Hl. pose proof u16_limit_pos. unfold restore_visible_at_size.
  destruct (fit_rows_ok (rows `max` 1) (cols `max` 1) bg lines) as [H1 H2]; [lia|done|].
  apply resized_grid_ok; [done|lia|lia|by rewrite length_map|]. apply Forall_resized; [lia|done].
Qed.

(** ** Width *)

Lemma allocate_extra_length remaining groups : length (allocate_extra remaining groups) = length groups.
Proof. revert remaining. induction groups as [|[n rows] groups IH]; intros r; simpl; [done|]. by rewrite IH. Qed.

Lemma truncate_group_ok width rows n : Forall (row_ok width) rows -> Forall (row_ok width) (truncate_group rows n).
Proof.
  intros H. unfold truncate_group. destruct (_ <? _); [|by apply Forall_take].
  apply Forall_alter_row; [by apply Forall_take|]. intros l. apply set_wrapped_ok.
Qed.

Lemma source_groups_lines P lines current : Forall P lines -> Forall P current -> Forall (Forall P) (source_groups lines current).
Proof.
  intros Hl. revert current. induction Hl as [|l lines Hl Hls IH]; intros current Hc; simpl.
  - destruct current; [done|]. by constructor.
  - assert (Forall P (current ++ [l])) by (apply Forall_app; split; [done|by constructor]).
    destruct (is_wrapped l); [by apply IH|]. constructor; [done|]. by apply IH.
Qed.

Lemma drop_trailing_blank_lines (P : list GridLine -> Prop) groups : Forall P groups -> Forall P (drop_trailing_blank groups).
Proof.
  induction 1 as [|g groups Hg Hgs IH]; simpl; [done|]. destruct (drop_trailing_blank groups); [destruct (blank_group g); [done|by constructor]|by constructor].
Qed.

Lemma reflow_alternate_ok lines width bg rows :
  bg = COLOUR_DEFAULT -> 1 <= width <= u16_limit -> Forall line_ok lines ->
  length (reflow_alternate_visible_lines lines width bg rows) = rows
  /\ Forall (row_ok width) (reflow_alternate_visible_lines lines width bg rows).
Proof.
  intros Hbg Hw Hl. unfold reflow_alternate_visible_lines.
  set (groups := map _ _). assert (Forall (fun g => Forall (row_ok width) g.2) groups) as Hg.
  { unfold groups. eapply Forall_map_row; [apply drop_trailing_blank_lines, (source_groups_lines line_ok); [done|by constructor]|].
    intros g Hg. simpl. destruct (reflow_wrapped_spec g width bg (mkLogicalCursor u64_max 0)) as [Hrows _]; [done|lia|done|].
    rewrite Nat.max_l in Hrows by lia. eapply Forall_impl; [exact Hrows|]. by intros l [? _]. }
  set (all := concat _). assert (Forall (row_ok width) all) as Ha.
  { unfold all. apply Forall_concat. clear all Hl. generalize (rows - list_sum (map (λ g : nat * list GridLine, g.1 `min` length g.2) groups)) as r.
    induction Hg as [|[n g] groups Hg Hgs IH]; intros r; simpl; [done|]. constructor; [by apply truncate_group_ok|]. apply IH. }
  split; [rewrite length_app, length_replicate, length_take; lia|].
  apply Forall_app. split; [by apply Forall_take|]. apply Forall_replicate, line_blank_ok. lia.
Qed.

Lemma resize_visible_width_ok width bg vy cx pw g :
  grid_ok g -> bg = COLOUR_DEFAULT -> width <= u16_limit ->
  let g' := (resize_visible_width_preserving_cursor width bg vy cx pw g).2 in
  grid_ok g' /\ sx g' = width `max` 1 /\ sy g' = sy g /\ history g' = history g /\ history_enabled g' = history_enabled g
  /\ hlimit g' = hlimit g.
Proof.
  intros Hg Hbg Hw. pose proof u16_limit_pos. unfold resize_visible_width_preserving_cursor.
  destruct (reflow_alternate_ok (visible g) (width `max` 1) bg (sy g)) as [H1 H2]; [done|lia| |].
  { eapply Forall_impl; [apply Hg|]. apply row_ok_line. }
  destruct (_ <=? _); simpl; (split; [|done]); (apply resized_grid_ok; [done|lia|apply Hg|done|done]).
Qed.

Lemma resize_width_remapping_ok width bg cursor g :
  grid_ok g -> bg = COLOUR_DEFAULT -> width <= u16_limit ->
  let g' := (resize_width_remapping_cursor width bg cursor g).2 in
  grid_ok g' /\ sx g' = width `max` 1 /\ sy g' = sy g /\ history_enabled g' = history_enabled g /\ hlimit g' = hlimit g.
Proof.
  intros Hg Hbg Hw. pose proof u16_limit_pos. unfold resize_width_remapping_cursor.
  destruct (Nat.eqb_spec (width `max` 1) (sx g)) as [He|He]; [simpl; split; [done|]; split; [congruence|done]|].
  pose proof (grid_lines_ok g Hg) as Hlines.
  destruct (can_resize_width_without_reflow (width `max` 1) g).
  - simpl. split; [|done]. destruct Hg as [? ? Hr Hv Hh ? Hc ?]. constructor; simpl; try done; try lia.
    + by rewrite length_map.
    + apply Forall_resized; [lia|]. eapply Forall_impl; [exact Hv|]. apply row_ok_line.
    + eapply Forall_impl; [apply Forall_resized; [|exact Hh]; lia|]. apply row_ok_line.
    + by rewrite length_map.
    + unfold effective_history_capacity in *. simpl. by rewrite length_map.
  - destruct (reflow_wrapped_spec (all_lines g) (width `max` 1) bg cursor) as [Hrows _]; [done|lia|done|].
    destruct (reflow_wrapped_lines_remapping_cursor (all_lines g) (width `max` 1) bg cursor) as [reflowed rc].
    simpl in Hrows. cbv zeta. cbn [snd sx sy hlimit history_enabled].
    set (filled := reflowed ++ replicate (sy g - length reflowed) (line_blank_with_bg (width `max` 1) bg)). assert (Forall line_ok filled) as Hf.
    { apply Forall_app. split; [|apply Forall_replicate, line_blank_line_ok; lia].
      eapply Forall_impl; [exact Hrows|]. intros l [Hl _]. by eapply row_ok_line. }
    generalize (length filled - sy g - (length filled - sy g - absolute_y (default (mkPhysicalCursor (length filled - 1)
      (width `max` 1 - 1) false) rc)) `min` trailing_empty_rows filled) as hrows. intros hrows.
    destruct (fit_rows_ok (sy g) (width `max` 1) bg (drop hrows filled)) as [F1 F2]; [lia|by apply Forall_drop|].
    split; [|done]. constructor; simpl; try done; try lia.
    + apply Hg.
    + by rewrite length_map.
    + apply Forall_resized; [lia|done].
    + apply Forall_compacted. by apply Forall_take.
    + destruct (_ =? 0); lia.
    + unfold effective_history_capacity. simpl. destruct (Nat.ltb_spec (hlimit g) (length (compacted_history (take hrows filled)))); lia.
Qed.

(** ** Height *)

Lemma pop_back_spec g line g' :
  Forall line_ok (history g) -> history_content_bytes g = content_bytes (history g) ->
  pop_history_back g = Some (line, g') ->
  history g = history g' ++ [line] /\ line_ok line /\ Forall line_ok (history g')
  /\ history_content_bytes g' = content_bytes (history g') /\ visible g' = visible g /\ same_frame g g'
  /\ hscrolled g' = hscrolled g /\ reflow_history_capacity g' = reflow_history_capacity g.
Proof.
  intros Hl Hb Hpop. unfold pop_history_back in Hpop. destruct (last (history g)) as [l|] eqn:E; [|done].
  injection Hpop as <- <-. apply last_Some in E as [pre E]. rewrite E in *. simpl.
  replace (length (pre ++ [l]) - 1) with (length pre) by (rewrite length_app; simpl; lia). rewrite take_app_length.
  apply Forall_app in Hl as [Hpre Hl]. apply Forall_cons in Hl as [Hl _].
  rewrite content_bytes_app in Hb. unfold content_bytes at 2 in Hb. simpl in Hb.
  split_and!; try done. lia.
Qed.

Lemma pull_history_spec n restored g :
  n <= length (history g) -> Forall line_ok (history g) -> Forall line_ok restored ->
  history_content_bytes g = content_bytes (history g) ->
  let '(lines, g') := pull_history n restored g in
  history g ++ restored = history g' ++ lines /\ length (history g') = length (history g) - n
  /\ Forall line_ok lines /\ Forall line_ok (history g') /\ history_content_bytes g' = content_bytes (history g')
  /\ visible g' = visible g /\ same_frame g g' /\ hscrolled g' = hscrolled g
  /\ reflow_history_capacity g' = reflow_history_capacity g.
Proof.
  revert restored g. induction n as [|n IH]; intros restored g Hn Hl Hr Hb; simpl; [split_and!; try done; lia|].
  destruct (pop_history_back g) as [[line g1]|] eqn:E.
  - destruct (pop_back_spec g line g1 Hl Hb E) as (E1 & E2 & E3 & E4 & E5 & E6 & E7 & E8).
    specialize (IH (line :: restored) g1). assert (length (history g) = length (history g1) + 1) as Hlen
      by (rewrite E1, length_app; simpl; lia).
    destruct (pull_history n (line :: restored) g1) as [lines g'].
    destruct IH as (I1 & I2 & I3 & I4 & I5 & I6 & I7 & I8 & I9); [lia|done|by constructor|done|].
    split_and!; try congruence; try done.
    + rewrite <- I1, E1. by rewrite <- app_assoc.
    + lia.
    + by etransitivity.
  - unfold pop_history_back in E. destruct (last (history g)) eqn:El; [done|]. apply last_None in El.
    rewrite El in Hn. simpl in Hn. lia.
Qed.

Lemma push_top_spec now n g :
  history_ok g -> Forall (row_ok (sx g)) (visible g) ->
  history_ok (push_top now n g) /\ Forall (row_ok (sx g)) (visible (push_top now n g))
  /\ same_frame g (push_top now n g).
Proof.
  revert g. induction n as [|n IH]; intros g Hh Hv; simpl; [done|].
  destruct (visible g) as [|line rest] eqn:Ev; [rewrite Ev; done|]. apply Forall_cons in Hv as [Hl Hv].
  destruct (push_preserving_step now line (with_visible rest g)) as (H1 & H2 & H3);
    [destruct Hh; by constructor|by eapply row_ok_line|].
  destruct H3 as [F1 F2 F3 F4]. simpl in *.
  destruct (IH (push_history_preserving_reflow_capacity now line (with_visible rest g))) as (I1 & I2 & [G1 G2 G3 G4]);
    [done|by rewrite F1, H2|]. rewrite F1 in I2. split_and!; try done. constructor; congruence.
Qed.

Lemma shrink_height_spec now rows cy g :
  grid_ok g -> let '(g', cy') := shrink_height now rows cy g in
  history_ok g' /\ Forall (row_ok (sx g)) (visible g') /\ same_frame g g'.
Proof.
  intros Hg. unfold shrink_height. set (g1 := with_visible _ g).
  assert (history_ok g1 /\ Forall (row_ok (sx g1)) (visible g1)) as [H1 H2].
  { destruct (grid_history_ok g Hg). split; [by constructor|]. by apply Forall_take, Hg. }
  destruct (history_enabled g1).
  - destruct (push_top_spec now (sy g - rows - (sy g - 1 - cy) `min` (sy g - rows)) g1 H1 H2) as (P1 & P2 & [F1 F2 F3 F4]).
    split; [done|]. split; [done|by constructor].
  - split; [destruct H1; by constructor|]. split; [by apply Forall_drop|]. by constructor.
Qed.

Lemma grow_height_spec rows cy bg g :
  grid_ok g -> let '(g', cy') := grow_height rows cy bg g in
  history_ok g' /\ Forall (row_ok (sx g)) (visible g') /\ same_frame g g'.
Proof.
  intros Hg. pose proof (ok_sx g Hg) as Hsx. pose proof (ok_hscrolled g Hg) as Hs. unfold grow_height.
  set (needed := rows - sy g). set (pull := (hscrolled g `min` needed) `min` length (history g)).
  destruct (history_enabled g && (0 <? pull)).
  - destruct Hg as [? ? Hr Hv Hl ? Hc Hb].
    pose proof (pull_history_spec pull [] g) as Hp. destruct (pull_history pull [] g) as [restored g1].
    destruct Hp as (P1 & P2 & P3 & P4 & P5 & P6 & [F1 F2 F3 F4] & P8 & P9); [lia|done|done|done|].
    cbn [fst snd visible sx]. split; [|split; [|by constructor]].
    + constructor; simpl; try done; [lia|]. unfold effective_history_capacity in *. simpl. rewrite F3, P9. lia.
    + simpl. rewrite F1, P6. rewrite !Forall_app. split; [split; [apply Forall_resized; [lia|done]|done]|].
      apply Forall_replicate, line_blank_ok. lia.
  - cbn [fst snd visible sx]. split; [|split; [|by constructor]].
    + destruct (grid_history_ok g Hg). by constructor.
    + apply Forall_app. split; [apply Hg|]. apply Forall_replicate, line_blank_ok. lia.
Qed.

Lemma resize_height_ok now rows cy bg g :
  grid_ok g -> rows <= u16_limit -> let '(g', cy') := resize_height now rows cy bg g in
  grid_ok g' /\ sx g' = sx g /\ sy g' = rows `max` 1 /\ cy' <= rows `max` 1 - 1 /\ hlimit g' = hlimit g
  /\ history_enabled g' = history_enabled g.
Proof.
  intros Hg Hrows. pose proof u16_limit_pos. pose proof (ok_sx g Hg) as Hsx. unfold resize_height.
  assert (let '(g', cy') := if rows `max` 1 <? sy g then shrink_height now (rows `max` 1) cy g
     else if sy g <? rows `max` 1 then grow_height (rows `max` 1) cy bg g else (g, cy) in
     history_ok g' /\ Forall (row_ok (sx g)) (visible g') /\ same_frame g g') as Hs.
  { destruct (_ <? sy g); [by apply shrink_height_spec|]. destruct (sy g <? _); [by apply grow_height_spec|].
    split; [by apply grid_history_ok|]. split; [apply Hg|reflexivity]. }
  destruct (if rows `max` 1 <? sy g then shrink_height now (rows `max` 1) cy g
     else if sy g <? rows `max` 1 then grow_height (rows `max` 1) cy bg g else (g, cy)) as [g1 cy1].
  destruct Hs as ([? ? ? ?] & Hv & [F1 F2 F3 F4]).
  destruct (fit_rows_ok (rows `max` 1) (sx g1) bg (visible g1)) as [R1 R2]; [lia| |].
  { eapply Forall_impl; [exact Hv|]. apply row_ok_line. }
  split; [|simpl; repeat split; try congruence; lia].
  constructor; simpl; try done; try lia.
  - by rewrite length_map.
  - apply Forall_resized; [lia|done].
Qed.
