(* ===== verification/GridText.v ===== *)
(** * The text of the grid

    What the logical lines of a grid read, history first, blank lines at the end
    left out.  Changing the width keeps it: every character of the screen and of
    the history is still there, in its logical line. *)

From S2P Require Import Prelude Utf8 InputCell GridCell GridLine GridLineInv GridReflow GridReflowText Grid GridInv GridResize.

#[local] Open Scope nat_scope.

Fixpoint trim_blank (texts : list (list Z)) : list (list Z) :=
  match texts with
  | [] => []
  | t :: texts =>
      match trim_blank texts with
      | [] => match t with [] => [] | _ => [t] end
      | kept => t :: kept
      end
  end.

Definition grid_text (g : Grid) : list (list Z) := trim_blank (logical_texts (all_lines g)).

(** ** Rows that read the same *)

(** A wrapped row is compared with its trailing spaces, which are in the middle
    of its logical line. *)
Record same_row (l l' : GridLine) : Prop := {
  same_wrapped : is_wrapped l' = is_wrapped l;
  same_cells : if is_wrapped l then cells_text (row_cells l') = cells_text (row_cells l)
               else trim_end (cells_text (row_cells l')) = trim_end (cells_text (row_cells l))
}.

(** The rows collected so far read the same, and so does what follows. *)
Lemma same_groups lines lines' :
  Forall2 same_row lines lines' -> forall current current',
  cells_text (group_cells current) = cells_text (group_cells current') -> (current = [] <-> current' = []) ->
  map group_text (source_groups lines current) = map group_text (source_groups lines' current').
Proof.
  assert (forall current l, cells_text (group_cells (current ++ [l])) = cells_text (group_cells current) ++ cells_text (row_cells l)) as Hg.
  { intros current l. unfold group_cells. rewrite map_app, concat_app, cells_text_app. simpl. by rewrite app_nil_r. }
  induction 1 as [|l l' lines lines' [Hw Hc] Hls IH]; intros current current' Ht Hnil; simpl.
  - destruct current as [|a current], current' as [|a' current']; try done.
    + by pose proof (proj1 Hnil eq_refl).
    + by pose proof (proj2 Hnil eq_refl).
    + simpl. unfold group_text. by rewrite Ht.
  - rewrite Hw. destruct (is_wrapped l).
    + apply IH; [by rewrite !Hg, Ht, Hc|]. split; intros [_ ?]%app_nil; done.
    + simpl. f_equal; [|by apply IH]. unfold group_text. rewrite !Hg, Ht. by apply trim_end_app_congr.
Qed.

Lemma same_rows_text lines lines' : Forall2 same_row lines lines' -> logical_texts lines' = logical_texts lines.
Proof. intros H. unfold logical_texts. symmetry. by apply same_groups. Qed.

Lemma same_row_refl l : same_row l l.
Proof. constructor; [done|]. by destruct (is_wrapped l). Qed.

(** ** Empty rows at the end *)

Definition empty_row (l : GridLine) : Prop := used_end l = 0 /\ is_wrapped l = false.

Lemma empty_row_cells l : empty_row l -> row_cells l = [].
Proof.
  intros [Hu Hw]. unfold row_cells, row_end. rewrite Hw, Hu. unfold used_end in Hu. destruct (plain_text l) as [t|]; [|done].
  destruct t; [done|]. simpl in Hu. lia.
Qed.

Lemma trim_blank_nil n : trim_blank (replicate n []) = [].
Proof. induction n as [|n IH]; simpl; [done|]. by rewrite IH. Qed.

Lemma empty_groups lines : Forall empty_row lines -> map group_text (source_groups lines []) = replicate (length lines) [].
Proof.
  induction 1 as [|l lines Hl Hls IH]; simpl; [done|]. destruct (Hl) as [_ Hw]. rewrite Hw. simpl. rewrite IH. f_equal.
  unfold group_text, group_cells. simpl. by rewrite (empty_row_cells l Hl).
Qed.

Lemma empty_rows_blank lines empties :
  Forall empty_row empties -> forall current,
  trim_blank (map group_text (source_groups (lines ++ empties) current)) = trim_blank (map group_text (source_groups lines current)).
Proof.
  intros He. induction lines as [|l lines IH]; intros current; simpl.
  - destruct He as [|e empties He Hes]; simpl; [done|]. destruct (He) as [_ Hw]. rewrite Hw. simpl.
    rewrite empty_groups, trim_blank_nil by done.
    assert (group_text (current ++ [e]) = group_text current) as Hgt.
    { unfold group_text, group_cells. rewrite map_app, concat_app. simpl. by rewrite (empty_row_cells e He), !app_nil_r. }
    rewrite Hgt. destruct current; [done|]. done.
  - destruct (is_wrapped l); [apply IH|]. simpl. by rewrite IH.
Qed.

Lemma empty_rows_text lines empties :
  Forall empty_row empties -> trim_blank (logical_texts (lines ++ empties)) = trim_blank (logical_texts lines).
Proof. intros He. by apply empty_rows_blank. Qed.

Lemma line_new_empty n : empty_row (line_new n).
Proof. done. Qed.

Lemma trailing_empty_rows_le lines : trailing_empty_rows lines <= length lines.
Proof. induction lines as [|l lines IH]; simpl; [done|]. destruct (_ && _ && _); lia. Qed.

Lemma trailing_empty_rows_spec lines n : n <= trailing_empty_rows lines -> Forall empty_row (drop (length lines - n) lines).
Proof.
  revert n. induction lines as [|l lines IH]; intros n Hn; simpl in *; [done|].
  pose proof (trailing_empty_rows_le lines) as Hle.
  destruct ((trailing_empty_rows lines =? length lines) && (used_end l =? 0) && negb (is_wrapped l)) eqn:E.
  - apply andb_prop in E as [[E1%Nat.eqb_eq E2%Nat.eqb_eq]%andb_prop E3%negb_true_iff].
    destruct (decide (n = S (length lines))) as [->|].
    + replace (S (length lines) - S (length lines)) with 0 by lia. constructor; [done|].
      specialize (IH (length lines)). rewrite Nat.sub_diag in IH. apply IH. lia.
    + replace (S (length lines) - n) with (S (length lines - n)) by lia. apply IH. lia.
  - replace (S (length lines) - n) with (S (length lines - n)) by lia. by apply IH.
Qed.

(** ** Compaction and resizing *)

Lemma ascii_kept cs : forallb is_plain_default_ascii cs = true -> kept_cells cs = cs.
Proof.
  induction cs as [|c cs IH]; [done|]. intros [Hc Hcs]%andb_prop. unfold kept_cells in *.
  rewrite filter_cons_True; [by rewrite IH|]. unfold kept, is_padding, is_reflow_gap.
  unfold is_plain_default_ascii in Hc. repeat (apply andb_prop in Hc as [Hc ?]).
  match goal with H : (cell_flags c =? 0)%Z = true |- _ => apply Z.eqb_eq in H; by rewrite H end.
Qed.

Lemma blank_kept cs : Forall (fun c => is_blank c = true) cs -> existsb is_reflow_gap cs = false -> kept_cells cs = cs.
Proof.
  induction 1 as [|c cs Hc Hcs IH]; [done|]. simpl. intros [Hg Hgs]%orb_false_iff. unfold kept_cells in *.
  rewrite filter_cons_True; [by rewrite IH|]. apply is_blank_text in Hc as [_ Hp]. unfold kept. by rewrite Hp, Hg.
Qed.

(** What compaction makes of a row of cells. *)
Lemma compact_cases l : line_ok l -> plain_text l = None ->
  compact_for_history l = l
  \/ (is_wrapped l = false /\ compact_for_history l = with_cells (take (used_cells (cells l)) (cells l)) l)
  \/ (exists t, plain_text (compact_for_history l) = Some t /\ line_width (compact_for_history l) = line_width l
      /\ length t = used_cells (cells l)
      /\ cells_text (kept_cells (cells l)) = t ++ replicate (length (cells l) - used_cells (cells l)) 32%Z).
Proof.
  intros [_ Hok] Hp. rewrite Hp in Hok. unfold compact_for_history, try_compact_plain_text, compacted_plain_text_clone, used_end.
  rewrite Hp. pose proof (used_cells_blank (cells l)) as Hb. pose proof (used_cells_le (cells l)) as Hu.
  assert (existsb is_reflow_gap (cells l) = false -> kept_cells (drop (used_cells (cells l)) (cells l))
    = drop (used_cells (cells l)) (cells l)) as Hrest.
  { intros Hg. apply blank_kept; [done|]. rewrite <- (take_drop (used_cells (cells l)) (cells l)), existsb_app in Hg.
    by apply orb_false_iff in Hg as [_ ?]. }
  assert (forall r, r = (if is_wrapped l then l else if used_cells (cells l) <? length (cells l)
      then with_cells (take (used_cells (cells l)) (cells l)) l else l) ->
    r = l \/ (is_wrapped l = false /\ r = with_cells (take (used_cells (cells l)) (cells l)) l)) as Hcut.
  { intros r ->. destruct (is_wrapped l); [by left|]. destruct (_ <? _); [right|left]; done. }
  destruct (existsb is_reflow_gap (cells l)) eqn:Eg; [rewrite Hp; destruct (Hcut _ eq_refl); auto|].
  destruct (Nat.eqb_spec (used_cells (cells l)) 0) as [H0|H0]; simpl.
  - right; right. exists []. split_and!; try done. specialize (Hrest eq_refl). rewrite H0 in *. change (drop 0 (cells l)) with (cells l) in Hrest, Hb. rewrite Hrest.
    rewrite cells_text_blank by done. by rewrite Nat.sub_0_r.
  - destruct (forallb is_plain_default_ascii (take (used_cells (cells l)) (cells l))) eqn:Ha;
      [|rewrite Hp; destruct (Hcut _ eq_refl); auto].
    right; right. eexists. split; [done|]. split; [done|]. destruct (ascii_cells_text _ Ha) as [Hl _].
    rewrite Hl, length_take. split; [lia|]. rewrite <- cells_text_ascii by done.
    rewrite <- (take_drop (used_cells (cells l)) (cells l)) at 1. rewrite kept_cells_app, cells_text_app.
    rewrite (ascii_kept _ Ha), Hrest by done. f_equal. rewrite cells_text_blank by done. by rewrite length_drop.
Qed.

Lemma used_cells_take n cs : used_cells cs <= n -> used_cells (take n cs) = used_cells cs.
Proof.
  revert n. induction cs as [|c cs IH]; intros [|n] Hn; simpl in *; try done.
  - destruct (used_cells cs); [destruct (is_blank c); [done|lia]|lia].
  - rewrite IH; [done|]. destruct (used_cells cs); [destruct (is_blank c)|]; lia.
Qed.

Lemma take_used_row l : is_wrapped l = false -> plain_text l = None -> row_cells l = kept_cells (take (used_cells (cells l)) (cells l)).
Proof. intros Hu Hp. unfold row_cells, row_end, used_end. by rewrite Hu, Hp. Qed.

Lemma compact_same_row width l : exact_row width l -> same_row l (compact_for_history l).
Proof.
  intros [[Hok Hcols] Hw]. constructor; [apply compact_is_wrapped|]. pose proof (compact_is_wrapped l) as Hcw.
  destruct (plain_text l) as [t|] eqn:Hp.
  { assert (row_cells (compact_for_history l) = row_cells l) as ->; [|by destruct (is_wrapped l)].
    unfold row_cells, row_end, used_end. rewrite Hcw. unfold compact_for_history, try_compact_plain_text. rewrite Hp. simpl. by rewrite Hp. }
  destruct (compact_cases l Hok Hp) as [->|[[Hu ->]|(t & Ht & Hwid & Hlen & Htext)]].
  - by destruct (is_wrapped l).
  - rewrite Hu. rewrite !take_used_row by done. simpl. rewrite used_cells_take by done. by rewrite take_take, Nat.min_id.
  - unfold cols_ok in Hcols. rewrite Hp in Hcols. destruct Hok as [_ Hok]. rewrite Hp in Hok.
    destruct (is_wrapped l) eqn:Hu.
    + unfold row_cells, row_end. rewrite Hcw, Ht, Hp, Hu, Hwid. rewrite take_ge, Htext, cells_text_plain by lia.
      pose proof (used_cells_le (cells l)). rewrite resize_ge by lia. do 2 f_equal. lia.
    + rewrite (row_text_unwrapped l Hu). unfold view. rewrite Hp, Htext, trim_end_app_spaces.
      unfold row_cells, row_end, used_end. rewrite Hcw, Ht. rewrite resize_all_alt by done. by rewrite cells_text_plain.
Qed.

(** Resizing a row to the width it has. *)
Lemma resize_same_row width l : exact_row width l -> same_row l (resize_width_preserving_wrap width COLOUR_DEFAULT l).
Proof.
  intros [[[Hlim Hok] Hcols] Hw]. unfold cols_ok in Hcols.
  assert (is_wrapped (resize_width_preserving_wrap width COLOUR_DEFAULT l) = is_wrapped l
    /\ row_cells (resize_width_preserving_wrap width COLOUR_DEFAULT l) = row_cells l) as [H1 H2].
  { unfold resize_width_preserving_wrap, resize_width_internal. destruct (plain_text l) as [t|] eqn:Hp.
    - destruct Hok as [? _]. rewrite Z.eqb_refl. rewrite take_ge by lia.
      assert (forall b, is_wrapped (touch_if b (with_contents (cells l) (Some t) width (plain_text_data_end l `min` u16_saturated width) l))
        = is_wrapped l) as Hwr by (by intros []). split; [apply Hwr|].
      unfold row_cells, row_end. rewrite Hwr. destruct (negb _ || _); simpl; unfold used_end; simpl; rewrite Hp, Hw; done.
    - destruct (Nat.eqb_spec (length (cells l)) width); [|lia]. simpl.
      assert (is_wrapped l && false = false) as -> by apply andb_false_r. done. }
  constructor; [done|]. rewrite H2. by destruct (is_wrapped l).
Qed.

(** Resizing a row whose contents fit. *)
Lemma resize_fitting_row width l :
  line_ok l -> is_wrapped l = false -> used_end l <= width -> same_row l (resize_width_preserving_wrap width COLOUR_DEFAULT l).
Proof.
  intros [_ Hok] Hu Hle.
  assert (is_wrapped (resize_width_preserving_wrap width COLOUR_DEFAULT l) = false) as Hw.
  { unfold resize_width_preserving_wrap, resize_width_internal. destruct (plain_text l).
    - simpl. by destruct (_ || _).
    - destruct (negb _); simpl; rewrite ?andb_false_r; done. }
  constructor; [by rewrite Hw|]. rewrite Hu.
  assert (row_cells (resize_width_preserving_wrap width COLOUR_DEFAULT l) = row_cells l) as ->; [|done].
  unfold used_end in Hle. destruct (plain_text l) as [t|] eqn:Hp.
  - unfold row_cells, row_end, used_end. rewrite Hw, Hu, Hp. unfold resize_width_preserving_wrap, resize_width_internal. rewrite Hp. simpl.
    rewrite take_ge by done. by destruct (_ || _).
  - rewrite (take_used_row l) by done.
    assert (plain_text (resize_width_preserving_wrap width COLOUR_DEFAULT l) = None
      /\ cells (resize_width_preserving_wrap width COLOUR_DEFAULT l) = resize width default_cell (cells l)) as [Hn Hc].
    { unfold resize_width_preserving_wrap, resize_width_internal. rewrite Hp. rewrite andb_false_r, orb_false_r.
      destruct (Nat.eqb_spec (length (cells l)) width); simpl; [|done]. split; [done|]. by rewrite resize_all_alt. }
    rewrite take_used_row, Hc by done. f_equal. destruct (decide (width <= length (cells l))).
    + rewrite resize_le by done. rewrite used_cells_take, take_take by done. f_equal. lia.
    + rewrite resize_ge by lia. rewrite used_cells_app_blank. rewrite take_app_le; [done|]. apply used_cells_le.
Qed.

(** ** A change of width *)

Lemma Forall2_map_r {A} (R : A -> A -> Prop) (P : A -> Prop) f l : Forall P l -> (forall x, P x -> R x (f x)) -> Forall2 R l (map f l).
Proof. intros Hl Hf. induction Hl; simpl; constructor; auto. Qed.

Lemma exact_blank width : width <= u16_limit -> exact_row width (line_blank_with_bg width COLOUR_DEFAULT).
Proof. intros Hw. split; [by apply line_blank_ok|done]. Qed.

(** The rows after a reflow, divided into history and screen. *)
Lemma divided_text width filled h rows :
  width <= u16_limit -> Forall (exact_row width) filled -> h + rows <= length filled ->
  length filled - (h + rows) <= trailing_empty_rows filled ->
  trim_blank (logical_texts (compacted_history (take h filled)
    ++ map (resize_width_preserving_wrap width COLOUR_DEFAULT) (fit_rows rows width COLOUR_DEFAULT (drop h filled))))
  = trim_blank (logical_texts filled).
Proof.
  intros Hw Hf Hle Htrail.
  set (blanks := replicate (rows - length (drop h filled)) (line_blank_with_bg width COLOUR_DEFAULT)).
  assert (Forall (exact_row width) blanks) as Hb by (by apply Forall_replicate, exact_blank).
  rewrite (same_rows_text (take (h + rows) filled ++ blanks)).
  - rewrite (empty_rows_text _ blanks) by (by apply Forall_replicate).
    rewrite <- (take_drop (h + rows) filled) at 2. symmetry. apply empty_rows_text.
    replace (h + rows) with (length filled - (length filled - (h + rows))) by lia. by apply trailing_empty_rows_spec.
  - replace (take (h + rows) filled) with (take h filled ++ take rows (drop h filled)) by (by rewrite take_take_drop).
    rewrite <- app_assoc. apply Forall2_app.
    + eapply Forall2_map_r; [by apply Forall_take|]. apply compact_same_row.
    + unfold fit_rows. eapply Forall2_map_r; [|apply resize_same_row]. apply Forall_app.
      split; [by apply Forall_take, Forall_drop|done].
Qed.

Lemma resize_width_text width cursor g :
  grid_ok g -> width <= u16_limit ->
  grid_text (resize_width_remapping_cursor width COLOUR_DEFAULT cursor g).2 = grid_text g.
Proof.
  intros Hg Hw. pose proof u16_limit_pos. pose proof (grid_lines_ok g Hg) as Hlines. unfold resize_width_remapping_cursor.
  destruct (Nat.eqb_spec (width `max` 1) (sx g)) as [He|He]; [done|].
  destruct (can_resize_width_without_reflow (width `max` 1) g) eqn:Ecan.
  - unfold grid_text. f_equal. cbn [snd]. unfold all_lines. simpl. rewrite <- map_app.
    unfold can_resize_width_without_reflow in Ecan. apply same_rows_text. rewrite forallb_forall in Ecan.
    apply Forall2_map_r with (P := fun l => line_ok l /\ is_wrapped l = false /\ used_end l <= width `max` 1).
    + apply Forall_forall. intros l Hl. split; [by eapply Forall_forall in Hlines|].
      apply list_elem_of_In in Hl. specialize (Ecan l Hl). apply andb_prop in Ecan as [H1%negb_true_iff H2%Nat.leb_le]. done.
    + intros l (? & ? & ?). by apply resize_fitting_row.
  - destruct (reflow_wrapped_spec (all_lines g) (width `max` 1) COLOUR_DEFAULT cursor) as [Hrows Htext]; [done|lia|done|].
    destruct (reflow_wrapped_lines_remapping_cursor (all_lines g) (width `max` 1) COLOUR_DEFAULT cursor) as [reflowed rc].
    cbn [fst] in Hrows, Htext. rewrite (Nat.max_l (width `max` 1) 1) in Hrows by lia. cbv zeta. cbn [snd].
    set (blanks := replicate (sy g - length reflowed) (line_blank_with_bg (width `max` 1) COLOUR_DEFAULT)).
    set (filled := reflowed ++ blanks).
    assert (Forall (exact_row (width `max` 1)) filled) as Hf.
    { apply Forall_app. split; [done|]. apply Forall_replicate, exact_blank. lia. }
    assert (sy g <= length filled) as Hlen by (unfold filled, blanks; rewrite length_app, length_replicate; lia).
    generalize (length filled - sy g - absolute_y (default (mkPhysicalCursor (length filled - 1) (width `max` 1 - 1) false) rc)) as shift.
    intros shift. unfold grid_text, all_lines. cbn [history visible].
    rewrite divided_text; [|lia|done|lia|lia].
    unfold filled. rewrite empty_rows_text by (by apply Forall_replicate). by rewrite Htext.
Qed.

(** C11. Changing the width of the screen loses no text.  After a resize to any
    width, the logical lines of the history and the screen, that is the rows joined
    where they wrapped, read the same as before, up to blank lines at the end; wide
    characters and the gaps they leave at the right edge included.  The grid is
    well formed and has the new width. *)
Theorem width_change_keeps_text width cursor g :
  grid_ok g -> width <= u16_limit ->
  let g' := (resize_width_remapping_cursor width COLOUR_DEFAULT cursor g).2 in
  grid_text g' = grid_text g /\ grid_ok g' /\ sx g' = width `max` 1 /\ sy g' = sy g.
Proof.
  intros Hg Hw. split; [by apply resize_width_text|].
  destruct (resize_width_remapping_ok width COLOUR_DEFAULT cursor g Hg eq_refl Hw) as (? & ? & ? & _). done.
Qed.

(** Two rows of four columns that wrapped, at width three. *)
Lemma width_change_keeps_text_witness :
  let line text wrapped := set_wrapped wrapped (default (line_new 4) (write_plain_ascii_run 0 text (line_new 4))) in
  let g := with_visible [line [97; 98; 99; 100]%Z true; line [101; 102]%Z false] (grid_new 4 2 10) in
  let cursor := mkLogicalCursor 0 6 in
  let g' := (resize_width_remapping_cursor 3 COLOUR_DEFAULT cursor g).2 in
  (grid_text g' = grid_text g /\ grid_ok g' /\ sx g' = 3 `max` 1 /\ sy g' = sy g)
  /\ map render_text (all_lines g') = [[97; 98; 99]; [100; 101; 102]]%Z.
Proof.
  intros line g cursor g'. split; [|vm_compute; reflexivity]. apply width_change_keeps_text.
  - assert (u16_limit = Z.to_nat 65535) by done. apply with_visible_step; [apply grid_new_ok; lia|reflexivity|].
    assert (forall text w, is_ascii text = true -> row_ok 4 (line text w)) as Hline.
    { intros text w Ha. apply set_wrapped_ok. destruct (write_plain_ascii_run 0 text (line_new 4)) eqn:E; simpl; [|apply line_new_ok; lia].
      eapply write_plain_ascii_run_ok; [|exact Ha|exact E]. apply line_new_ok. lia. }
    repeat (apply Forall_cons; split); [by apply Hline|by apply Hline|done].
  - assert (u16_limit = Z.to_nat 65535) by done. lia.
Defined.
