(* ===== verification/Utf8Width.v ===== *)
(** * Character widths and combining

    [crates/rmux-core/src/utf8.rs]: how many columns a character takes and when
    it joins the character before it (zero-width joiners, variation selectors,
    regional indicators, skin tones, Hangul jamo).  [unicode_width] stands for
    [UnicodeWidthChar::width] of the [unicode-width] crate: the columns of a
    character, [None] for a control character. *)

From S2P Require Import Prelude Utf8 InputCell GridCell GridLine.

Definition UTF8_ZWJ : Z := 8205.
Definition UTF8_VS16 : Z := 65039.
Definition HANGUL_FILLER : Z := 12644.
Definition MAX_COMBINED_BYTES : nat := 21.

Record WidthOverride : Type := mkOverride {
  override_start : Z;
  override_end : Z;
  override_width : nat
}.

Definition override_contains (o : WidthOverride) (codepoint : Z) : bool :=
  (override_start o <=? codepoint) && (codepoint <=? override_end o).

Definition override_single (codepoint : Z) (width : nat) : WidthOverride := mkOverride codepoint codepoint width.

Definition DEFAULT_WIDTH_OVERRIDES : list WidthOverride :=
  [override_single 0x261D 2; override_single 0x26F9 2; mkOverride 0x270A 0x270D 2; mkOverride 0x1F1E6 0x1F1FF 1;
   override_single 0x1F385 2; mkOverride 0x1F3C2 0x1F3C4 2; override_single 0x1F3C7 2; mkOverride 0x1F3CA 0x1F3CC 2;
   mkOverride 0x1F3FB 0x1F3FF 2; mkOverride 0x1F442 0x1F443 2; mkOverride 0x1F446 0x1F450 2;
   mkOverride 0x1F466 0x1F469 2; mkOverride 0x1F46B 0x1F46E 2; mkOverride 0x1F470 0x1F478 2; override_single 0x1F47C 2;
   mkOverride 0x1F481 0x1F483 2; mkOverride 0x1F485 0x1F487 2; override_single 0x1F48F 2; override_single 0x1F491 2;
   override_single 0x1F4AA 2; mkOverride 0x1F574 0x1F575 2; override_single 0x1F57A 2; override_single 0x1F590 2;
   mkOverride 0x1F595 0x1F596 2; mkOverride 0x1F645 0x1F647 2; mkOverride 0x1F64B 0x1F64F 2; override_single 0x1F6A3 2;
   mkOverride 0x1F6B4 0x1F6B6 2; override_single 0x1F6C0 2; override_single 0x1F6CC 2; override_single 0x1F90C 2;
   override_single 0x1F90F 2; mkOverride 0x1F918 0x1F91F 2; override_single 0x1F926 2; mkOverride 0x1F930 0x1F939 2;
   mkOverride 0x1F93D 0x1F93E 2; override_single 0x1F977 2; mkOverride 0x1F9B5 0x1F9B6 2; mkOverride 0x1F9B8 0x1F9B9 2;
   override_single 0x1F9BB 2; mkOverride 0x1F9CD 0x1F9CF 2; mkOverride 0x1F9D1 0x1F9DD 2; mkOverride 0x1FAC3 0x1FAC5 2;
   mkOverride 0x1FAF0 0x1FAF8 2].

Record Utf8Config : Type := mkUtf8Config {
  variation_selector_always_wide : bool;
  overrides : list WidthOverride
}.

Definition default_utf8_config : Utf8Config := mkUtf8Config true DEFAULT_WIDTH_OVERRIDES.

Definition ascii_is_identity_width (c : Utf8Config) : bool :=
  negb (existsb (fun o => (override_start o <=? 127) && (1 <=? override_end o)) (overrides c)).

(** ** Hangul jamo *)

Inductive HangulJamoClass : Type :=
| NotHangulJamo
| Choseong
| Jungseong
| Jongseong.

#[global] Instance HangulJamoClass_eq_dec : EqDecision HangulJamoClass.
Proof. solve_decision. Defined.

Inductive HangulJamoState : Type :=
| StateNotComposable
| StateChoseong
| StateComposable
| StateNotHangulJamo.

Definition between (lo hi c : Z) : bool := (lo <=? c) && (c <=? hi).

Definition hanguljamo_class (ch : Z) : HangulJamoClass :=
  if between 0x1100 0x115E ch || (ch =? 0x115F) || between 0xA960 0xA97C ch then Choseong
  else if (ch =? 0x1160) || between 0x1161 0x11A7 ch || between 0xD7B0 0xD7C6 ch then Jungseong
  else if between 0x11A8 0x11FF ch || between 0xD7CB 0xD7FB ch then Jongseong
  else NotHangulJamo.

Definition len_utf8 (ch : Z) : nat := length (encode_utf8 ch).

(** The class of the last character, if it takes three bytes. *)
Definition last_class (text : list Z) : option HangulJamoClass :=
  ch ← last (chars text);
  if (len_utf8 ch =? 3)%nat then Some (hanguljamo_class ch) else None.

Definition hanguljamo_check_state (previous_text : list Z) (ch : Z) : HangulJamoState :=
  if negb (len_utf8 ch =? 3)%nat then StateNotHangulJamo
  else
    match hanguljamo_class ch with
    | Choseong => StateChoseong
    | Jungseong => if bool_decide (last_class previous_text = Some Choseong) then StateComposable else StateNotComposable
    | Jongseong => if bool_decide (last_class previous_text = Some Jungseong) then StateComposable else StateNotComposable
    | NotHangulJamo => StateNotHangulJamo
    end.

(** ** Emoji *)

Definition is_regional_indicator (c : Z) : bool := between 0x1F1E6 0x1F1FF c.
Definition is_skin_tone_modifier (c : Z) : bool := between 0x1F3FB 0x1F3FF c.

(** The code points of the match, those that follow each other as ranges. *)
Definition emoji_accepts_skin_tone (c : Z) : bool :=
  between 0x1F44B 0x1F450 c || between 0x1F466 0x1F469 c || (c =? 0x1F46E) || between 0x1F470 0x1F478 c
  || (c =? 0x1F47C) || between 0x1F481 0x1F483 c || between 0x1F485 0x1F487 c || (c =? 0x1F4AA) || (c =? 0x1F575)
  || (c =? 0x1F57A) || (c =? 0x1F590) || between 0x1F595 0x1F596 c || between 0x1F645 0x1F647 c
  || between 0x1F64B 0x1F64F c || between 0x1F6B4 0x1F6B6 c || (c =? 0x1F926) || between 0x1F937 0x1F939 c
  || between 0x1F93D 0x1F93E c || between 0x1F9B5 0x1F9B6 c || between 0x1F9B8 0x1F9B9 c || between 0x1F9CD 0x1F9CF c
  || between 0x1F9D1 0x1F9DF c.

Definition utf8_should_combine (with_ add : Z) : bool :=
  (is_regional_indicator add && is_regional_indicator with_) || (emoji_accepts_skin_tone with_ && is_skin_tone_modifier add).

Definition single_codepoint (text : list Z) : option Z :=
  match chars text with
  | [ch] => Some ch
  | _ => None
  end.

Definition utf8_has_zwj (text : list Z) : bool := bool_decide (last (chars text) = Some UTF8_ZWJ).

(** ** Combining *)

Inductive CombineResult : Type :=
| Standalone (width : nat)
| Combined (text : list Z) (width : nat)
| Discard.

Section Width.

Context (unicode_width : Z -> option nat).

Definition is_c1_control (ch : Z) : bool := between 128 159 ch.

Definition fallback_width (ch : Z) : nat :=
  if bool_decide (hanguljamo_class ch = NotHangulJamo) then
    match unicode_width ch with
    | Some width => if (width <=? 255)%nat then width else 1
    | None => if is_c1_control ch then 0 else 1
    end
  else 2.

Definition char_width (config : Utf8Config) (ch : Z) : nat :=
  match List.find (fun o => override_contains o ch) (reverse (overrides config)) with
  | Some o => override_width o
  | None => fallback_width ch
  end.

(** Without a character to join. *)
Definition alone (zero_width : bool) (width : nat) : CombineResult := if zero_width then Discard else Standalone width.

(** The character joins the text before it. *)
Definition join_text (previous_text : list Z) (previous_width width : nat) (force_wide : bool) (ch : Z) : CombineResult :=
  if (MAX_COMBINED_BYTES <? length previous_text + len_utf8 ch)%nat then Standalone width
  else Combined (previous_text ++ encode_utf8 ch) (if (previous_width =? 1)%nat && force_wide then 2 else previous_width).

Definition combine_char (previous : option (list Z * nat)) (ch : Z) (config : Utf8Config) : CombineResult :=
  if ch =? HANGUL_FILLER then Discard
  else
    let width := char_width config ch in
    let zero_width := (ch =? UTF8_ZWJ) || (ch =? UTF8_VS16) || (width =? 0)%nat in
    if (len_utf8 ch <? 2)%nat then Standalone width
    else
      match previous with
      | None => alone zero_width width
      | Some (previous_text, previous_width) =>
          if (previous_width =? 0)%nat || bool_decide (previous_text = []) then alone zero_width width
          else if negb zero_width then
            match hanguljamo_check_state previous_text ch with
            | StateNotComposable => Discard
            | StateChoseong => Standalone width
            | StateComposable => join_text previous_text previous_width width false ch
            | StateNotHangulJamo =>
                let should_force_wide :=
                  match single_codepoint previous_text with
                  | Some previous_ch => utf8_should_combine previous_ch ch
                  | None => false
                  end in
                if should_force_wide then join_text previous_text previous_width width true ch
                else if negb (utf8_has_zwj previous_text) then Standalone width
                else join_text previous_text previous_width width false ch
            end
          else join_text previous_text previous_width width ((ch =? UTF8_VS16) && variation_selector_always_wide config) ch
      end.

(** ** Strings *)

Record TextCell : Type := mkTextCell {
  text_cell_text : list Z;
  text_cell_width : nat
}.

Definition fold_text_step (config : Utf8Config) (cells : list TextCell) (ch : Z) : list TextCell :=
  let previous := (fun c => (text_cell_text c, text_cell_width c)) <$> last cells in
  match combine_char previous ch config with
  | Standalone width => cells ++ [mkTextCell (encode_utf8 ch) width]
  | Combined text width => alter (fun _ => mkTextCell text width) (length cells - 1)%nat cells
  | Discard => cells
  end.

Definition fold_text_cells (value : list Z) (config : Utf8Config) : list TextCell :=
  fold_left (fold_text_step config) (chars value) [].

Definition text_width (value : list Z) (config : Utf8Config) : nat :=
  if is_ascii value && ascii_is_identity_width config then length value
  else list_sum (map text_cell_width (fold_text_cells value config)).

(** The cells that fit, from the left. *)
Fixpoint fitting_cells (width used : nat) (cells : list TextCell) : list TextCell :=
  match cells with
  | [] => []
  | c :: cells =>
      if negb (text_cell_width c =? 0)%nat && (width <? used + text_cell_width c)%nat then []
      else c :: fitting_cells width (used + text_cell_width c) cells
  end.

Definition truncate_to_width (value : list Z) (width : nat) (config : Utf8Config) : list Z :=
  if is_ascii value && ascii_is_identity_width config then take width value
  else concat (map text_cell_text (fitting_cells width 0 (fold_text_cells value config))).

Definition truncate_right_to_width (value : list Z) (width : nat) (config : Utf8Config) : list Z :=
  if is_ascii value && ascii_is_identity_width config then drop (length value - width)%nat value
  else concat (map text_cell_text (reverse (fitting_cells width 0 (reverse (fold_text_cells value config))))).

(** ** Strings of one-column characters *)

(** What [unicode_width] answers for ASCII other than NUL: one column for a
    printable character, nothing for a control character. *)
Definition ascii_one_column : Prop := forall ch, 1 <= ch <= 127 -> unicode_width ch = Some 1%nat \/ unicode_width ch = None.

Definition plain_bytes (value : list Z) : Prop := Forall (fun b => 1 <= b <= 127) value.

Lemma chars_ascii value : plain_bytes value -> chars value = value.
Proof.
  intros H. rewrite <- (chars_encode value) at 2.
  - f_equal. induction H as [|b value Hb Hv IH]; [done|]. simpl. rewrite <- IH. unfold encode_utf8.
    by destruct (Z.ltb_spec b 128); [|lia].
  - apply forallb_forall. intros b Hb%list_elem_of_In. eapply Forall_forall in H; [|exact Hb].
    unfold is_scalar. repeat (apply andb_true_intro; split || apply orb_true_intro); case_Zbool; simpl; auto; lia.
Qed.

Context (Hascii : ascii_one_column) (config : Utf8Config) (Hconfig : ascii_is_identity_width config = true).

Lemma char_width_ascii ch : 1 <= ch <= 127 -> char_width config ch = 1%nat.
Proof.
  intros Hch. unfold char_width. destruct (List.find _ _) as [o|] eqn:E.
  - exfalso. apply List.find_some in E as [Hin Ho]. apply negb_true_iff in Hconfig.
    assert (existsb (fun o => (override_start o <=? 127) && (1 <=? override_end o)) (overrides config) = true) as Hex; [|congruence].
    apply existsb_exists. exists o. split; [apply list_elem_of_In; rewrite <- elem_of_reverse; by apply list_elem_of_In|].
    apply andb_prop in Ho as [H1%Z.leb_le H2%Z.leb_le]. apply andb_true_intro. split; apply Z.leb_le; lia.
  - unfold fallback_width. assert (hanguljamo_class ch = NotHangulJamo) as Hj.
    { unfold hanguljamo_class, between. repeat (match goal with |- context [?a <=? ?b] => destruct (Z.leb_spec a b); try lia end; simpl).
      repeat (match goal with |- context [?a =? ?b] => destruct (Z.eqb_spec a b); try lia end; simpl). done. }
    rewrite bool_decide_eq_true_2 by done. destruct (Hascii ch Hch) as [->| ->]; [done|].
    unfold is_c1_control, between. destruct (Z.leb_spec 128 ch); [lia|done].
Qed.

Lemma combine_ascii previous ch : 1 <= ch <= 127 -> combine_char previous ch config = Standalone 1.
Proof.
  intros Hch. unfold combine_char. destruct (Z.eqb_spec ch HANGUL_FILLER) as [->|]; [unfold HANGUL_FILLER in Hch; lia|].
  assert (len_utf8 ch = 1%nat) as -> by (unfold len_utf8, encode_utf8; by destruct (Z.ltb_spec ch 128); [|lia]).
  by rewrite char_width_ascii.
Qed.

Lemma fold_ascii_cells value cells :
  plain_bytes value -> fold_left (fold_text_step config) value cells = cells ++ map (fun b => mkTextCell [b] 1) value.
Proof.
  intros H. revert cells. induction H as [|b value Hb Hv IH]; intros cells; simpl; [by rewrite app_nil_r|].
  unfold fold_text_step at 2. rewrite combine_ascii by done. rewrite IH, <- app_assoc. simpl. do 3 f_equal.
  unfold encode_utf8. by destruct (Z.ltb_spec b 128); [|lia].
Qed.

Lemma fold_text_cells_ascii value : plain_bytes value -> fold_text_cells value config = map (fun b => mkTextCell [b] 1) value.
Proof. intros H. unfold fold_text_cells. rewrite chars_ascii by done. by apply fold_ascii_cells. Qed.

End Width.

Lemma fitting_units width used value :
  (used <= width)%nat ->
  fitting_cells width used (map (fun b => mkTextCell [b] 1) value) = map (fun b => mkTextCell [b] 1) (take (width - used) value).
Proof.
  revert used. induction value as [|b value IH]; intros used Hu; simpl; [by rewrite take_nil|].
  destruct (Nat.ltb_spec width (used + 1)).
  - replace (width - used)%nat with 0%nat by lia. done.
  - replace (width - used)%nat with (S (width - (used + 1))) by lia. simpl. by rewrite IH by lia.
Qed.

Lemma unit_texts value : concat (map text_cell_text (map (fun b => mkTextCell [b] 1) value)) = value.
Proof. induction value as [|b value IH]; simpl; [done|]. by rewrite IH. Qed.

Lemma unit_widths value : list_sum (map text_cell_width (map (fun b => mkTextCell [b] 1) value)) = length value.
Proof. induction value as [|b value IH]; simpl; [done|]. by rewrite IH. Qed.

(** C37. The shortcuts for ASCII are exact: on a string of ASCII characters other
    than NUL, when no width is overridden for them, the width and both
    truncations are what cutting the string into cells character by character
    gives. *)
Theorem ascii_shortcuts_exact unicode_width config value width :
  ascii_one_column unicode_width -> ascii_is_identity_width config = true -> plain_bytes value ->
  let cells := fold_text_cells unicode_width value config in
  text_width unicode_width value config = list_sum (map text_cell_width cells)
  /\ truncate_to_width unicode_width value width config = concat (map text_cell_text (fitting_cells width 0 cells))
  /\ truncate_right_to_width unicode_width value width config
     = concat (map text_cell_text (reverse (fitting_cells width 0 (reverse cells)))).
Proof.
  intros Ha Hc Hv cells. unfold text_width, truncate_to_width, truncate_right_to_width. fold cells.
  assert (is_ascii value = true) as ->.
  { apply forallb_forall. intros b Hb%list_elem_of_In. eapply Forall_forall in Hv; [|exact Hb]. apply Z.ltb_lt. lia. }
  rewrite Hc. simpl. unfold cells. rewrite fold_text_cells_ascii by done.
  rewrite unit_widths. split; [done|].
  rewrite (fitting_units width 0) by lia. rewrite Nat.sub_0_r, unit_texts. split; [done|].
  replace (reverse (map (fun b => mkTextCell [b] 1) value)) with (map (fun b => mkTextCell [b] 1) (reverse value))
    by (apply (fmap_reverse (fun b => mkTextCell [b] 1))).
  rewrite (fitting_units width 0) by lia. rewrite Nat.sub_0_r.
  replace (reverse (map (fun b => mkTextCell [b] 1) (take width (reverse value))))
    with (map (fun b => mkTextCell [b] 1) (reverse (take width (reverse value))))
    by (apply (fmap_reverse (fun b => mkTextCell [b] 1))).
  by rewrite unit_texts, take_reverse, reverse_involutive.
Qed.

Definition one_column_each (ch : Z) : option nat := if ch <? 32 then None else Some 1%nat.

Lemma ascii_shortcuts_exact_witness :
  truncate_right_to_width one_column_each [97; 98; 99; 100] 2 default_utf8_config = [99; 100]
  /\ text_width one_column_each [97; 98; 99; 100] default_utf8_config = 4%nat.
Proof.
  destruct (ascii_shortcuts_exact one_column_each default_utf8_config [97; 98; 99; 100] 2) as (H1 & _ & H3).
  - intros ch Hch. unfold one_column_each. destruct (ch <? 32); [by right|by left].
  - reflexivity.
  - repeat constructor; lia.
  - rewrite H1, H3. split; vm_compute; reflexivity.
Defined.
