(* ===== verification/Vis.v ===== *)
(** * Escaping for display

    [crates/rmux-core/src/vis.rs]: the [vis]-style escapes.  Strings are byte
    lists; the encoder only emits ASCII except where it keeps a byte raw. *)

From S2P Require Import Prelude.

Record VisFlags : Type := mkVisFlags {
  vis_octal : bool;
  vis_cstyle : bool;
  vis_tab : bool;
  vis_newline : bool;
  vis_safe : bool;
  vis_noslash : bool
}.

Definition printable (b : Z) : bool := (32 <=? b) && (b <=? 126).

Definition should_keep_raw (byte : Z) (flags : VisFlags) : bool :=
  if (byte =? 92) && negb (vis_noslash flags) then false
  else if vis_safe flags then printable byte
  else if byte =? 9 then negb (vis_tab flags)
  else if byte =? 10 then negb (vis_newline flags)
  else printable byte.

Definition octal_escape (byte : Z) : list Z :=
  [92; 48 + Z.land (Z.shiftr byte 6) 7; 48 + Z.land (Z.shiftr byte 3) 7; 48 + Z.land byte 7].

(** The letter of a C escape. *)
Definition cstyle_letter (byte : Z) : option Z :=
  match byte with
  | 7 => Some 97
  | 8 => Some 98
  | 9 => Some 116
  | 10 => Some 110
  | 11 => Some 118
  | 12 => Some 102
  | 13 => Some 114
  | _ => None
  end.

Definition encode_byte (byte : Z) (flags : VisFlags) : list Z :=
  if should_keep_raw byte flags then [byte]
  else
    let cstyle :=
      if vis_cstyle flags then
        match cstyle_letter byte with
        | Some letter => Some [92; letter]
        | None => if byte =? 0 then Some [92; 48; 48; 48]
                  else if (byte =? 92) && negb (vis_noslash flags) then Some [92; 92] else None
        end
      else None in
    match cstyle with
    | Some escape => escape
    | None =>
        if (byte =? 92) && negb (vis_noslash flags) then [92; 92]
        else if vis_octal flags || vis_safe flags || vis_cstyle flags then octal_escape byte
        else [byte]
    end.

Definition encode_bytes (input : list Z) (flags : VisFlags) : list Z := concat (map (fun b => encode_byte b flags) input).

Definition encode_str (input : list Z) (flags : VisFlags) : list Z := encode_bytes input flags.

Definition SAMPLE_WIDTH : nat := 200.
#[global] Arguments SAMPLE_WIDTH : simpl never.

Definition sample_flags : VisFlags := mkVisFlags true true true true false false.

(** The escapes are ASCII, so every byte is a character boundary. *)
Definition encode_buffer_sample (input : list Z) : list Z :=
  let encoded := encode_bytes (take SAMPLE_WIDTH input) sample_flags in
  if (SAMPLE_WIDTH <? length input)%nat || (SAMPLE_WIDTH <? length encoded)%nat
  then take SAMPLE_WIDTH encoded ++ [46; 46; 46]
  else encoded.

Definition encode_paste_byte (byte : Z) : list Z :=
  if printable byte || (128 <=? byte) then [byte]
  else
    match cstyle_letter byte with
    | Some letter => [92; letter]
    | None => if byte =? 0 then [92; 48; 48; 48] else octal_escape byte
    end.

Definition encode_paste_bytes (input : list Z) : list Z := concat (map encode_paste_byte input).

(** ** Reading the escapes back

    The program only writes the escapes.  To show that they lose nothing, here is
    a reader for them. *)












