(* ===== verification/Hyperlinks.v ===== *)
(** * Hyperlinks

    [crates/rmux-core/src/hyperlinks.rs]: the OSC 8 links of a screen.  A link is
    known by the number the cells store; links that carry an id are shared by
    the same id and address; the oldest links are dropped beyond 5000. *)

From S2P Require Import Prelude Vis.

Definition MAX_HYPERLINKS : nat := Z.to_nat 5000.
#[global] Arguments MAX_HYPERLINKS : simpl never.

Record HyperlinkEntry : Type := mkEntry {
  inner_id : Z;
  internal_id : list Z;
  external_id : list Z;
  uri : list Z
}.

Record Hyperlinks : Type := mkHyperlinks {
  next_inner : Z;
  next_external : Z;
  order : list Z;
  by_inner : gmap Z HyperlinkEntry;
  by_uri : gmap (list Z * list Z) Z
}.

Definition hyperlinks_new : Hyperlinks := mkHyperlinks 1 1 [] ∅ ∅.

(** Upper-case hexadecimal digits, [{:X}] *)
Fixpoint hex_upper (fuel : nat) (n : Z) (acc : list Z) : list Z :=
  match fuel with
  | O => acc
  | S fuel =>
      let d := n mod 16 in
      let acc := (if d <? 10 then 48 + d else 55 + d) :: acc in
      if n / 16 =? 0 then acc else hex_upper fuel (n / 16) acc
  end.

Definition external_name (n : Z) : list Z := [116; 109; 117; 120] ++ hex_upper 16 n [].

Definition link_flags : VisFlags := mkVisFlags true true false false false false.

(** The oldest links, until no more than the limit are left; [fuel] is the
    length of the queue. *)
Fixpoint enforce_limit_loop (fuel : nat) (h : Hyperlinks) : Hyperlinks :=
  match fuel with
  | O => h
  | S fuel =>
      if (length (order h) <=? MAX_HYPERLINKS)%nat then h
      else
        match order h with
        | [] => h
        | oldest :: rest =>
            match by_inner h !! oldest with
            | None => enforce_limit_loop fuel (mkHyperlinks (next_inner h) (next_external h) rest (by_inner h) (by_uri h))
            | Some entry =>
                let uris := match internal_id entry with
                            | [] => by_uri h
                            | _ => delete (internal_id entry, uri entry) (by_uri h)
                            end in
                enforce_limit_loop fuel
                  (mkHyperlinks (next_inner h) (next_external h) rest (delete oldest (by_inner h)) uris)
            end
        end
  end.

Definition enforce_limit (h : Hyperlinks) : Hyperlinks := enforce_limit_loop (length (order h)) h.

(** A new link. *)
Definition insert_link (encoded_uri encoded_id : list Z) (h : Hyperlinks) : Z * Hyperlinks :=
  let id := next_inner h in
  let entry := mkEntry id encoded_id (external_name (next_external h)) encoded_uri in
  let uris := match encoded_id with [] => by_uri h | _ => <[(encoded_id, encoded_uri) := id]> (by_uri h) end in
  (id, enforce_limit (mkHyperlinks (u32_sat_add (next_inner h) 1) (u64_sat_add (next_external h) 1)
                        (order h ++ [id]) (<[id := entry]> (by_inner h)) uris)).

Definition put (address : list Z) (id : option (list Z)) (h : Hyperlinks) : Z * Hyperlinks :=
  let encoded_uri := encode_str address link_flags in
  let encoded_id := encode_str (default [] id) link_flags in
  match encoded_id with
  | [] => insert_link encoded_uri encoded_id h
  | _ =>
      match by_uri h !! (encoded_id, encoded_uri) with
      | Some inner => (inner, h)
      | None => insert_link encoded_uri encoded_id h
      end
  end.

Definition get_link (id : Z) (h : Hyperlinks) : option HyperlinkEntry := by_inner h !! id.

Definition hyperlinks_reset (h : Hyperlinks) : Hyperlinks := mkHyperlinks (next_inner h) (next_external h) [] ∅ ∅.

Definition entry_bytes (e : HyperlinkEntry) : nat := length (internal_id e) + length (external_id e) + length (uri e).

Definition entry_fits (id : Z) (max_bytes : nat) (h : Hyperlinks) : bool :=
  match get_link id h with
  | None => true
  | Some e => (entry_bytes e <=? max_bytes)%nat
  end.

(** One link of the copy: the table so far, its bytes and whether all fitted. *)
Definition clone_step (max_entry max_total : nat) (h : Hyperlinks) (acc : Hyperlinks * nat * bool) (id : Z)
  : Hyperlinks * nat * bool :=
  let '(bounded, retained, complete) := acc in
  match by_inner h !! id with
  | None => acc
  | Some e =>
      let total := (retained + entry_bytes e)%nat in
      if (max_entry <? entry_bytes e)%nat || (max_total <? total)%nat then (bounded, retained, false)
      else
        let uris := match internal_id e with
                    | [] => by_uri bounded
                    | _ => <[(internal_id e, uri e) := inner_id e]> (by_uri bounded)
                    end in
        (mkHyperlinks (next_inner bounded) (next_external bounded) (order bounded ++ [inner_id e])
           (<[inner_id e := e]> (by_inner bounded)) uris, total, complete)
  end.

Definition clone_bounded (max_entry max_total : nat) (h : Hyperlinks) : Hyperlinks * bool :=
  let '(bounded, _, complete) :=
    fold_left (clone_step max_entry max_total h) (order h)
      (mkHyperlinks (next_inner h) (next_external h) [] ∅ ∅, 0%nat, true) in
  (bounded, complete).

(** ** Invariant *)

Record links_wf (h : Hyperlinks) : Prop := {
  wf_order : NoDup (order h);
  wf_inner : forall id, id ∈ order h <-> is_Some (by_inner h !! id);
  wf_id : forall id e, by_inner h !! id = Some e -> inner_id e = id /\ 0 < id < next_inner h;
  wf_uri : forall iid u id, by_uri h !! (iid, u) = Some id ->
    iid <> [] /\ exists e, by_inner h !! id = Some e /\ internal_id e = iid /\ uri e = u;
  wf_key : forall id e, by_inner h !! id = Some e -> internal_id e <> [] -> by_uri h !! (internal_id e, uri e) = Some id
}.

Lemma drop_oldest_wf h oldest rest e :
  links_wf h -> order h = oldest :: rest -> by_inner h !! oldest = Some e ->
  links_wf (mkHyperlinks (next_inner h) (next_external h) rest (delete oldest (by_inner h))
    (match internal_id e with [] => by_uri h | _ => delete (internal_id e, uri e) (by_uri h) end)).
Proof.
  intros [Hnd Hin Hid Huri Hkey] Ho He. rewrite Ho in Hnd. apply NoDup_cons in Hnd as [Hnot Hnd].
  constructor; simpl; [done| | | |].
  - intros id. destruct (decide (id = oldest)) as [->|Hne].
    + rewrite lookup_delete_eq. split; [done|by intros [? ?]].
    + rewrite lookup_delete_ne by done. rewrite <- Hin, Ho. set_solver.
  - intros id e' [_ H]%lookup_delete_Some. by apply Hid.
  - intros iid u id Hl.
    assert (by_uri h !! (iid, u) = Some id /\ (internal_id e <> [] -> (iid, u) <> (internal_id e, uri e))) as [Hl' Hne].
    { destruct (internal_id e) as [|x xs] eqn:Ei; [by split|]. rewrite lookup_delete_Some in Hl. naive_solver. }
    destruct (Huri _ _ _ Hl') as (Hiid & e' & H1 & H2 & H3). split; [done|]. exists e'. split; [|done].
    apply lookup_delete_Some. split; [|done]. intros <-. assert (e' = e) as -> by congruence. subst. by apply Hne.
  - intros id e' [Hne H]%lookup_delete_Some Hi. pose proof (Hkey _ _ H Hi) as Hk'.
    destruct (internal_id e) as [|x xs] eqn:Ei; [done|]. apply lookup_delete_Some. split; [|done].
    intros Heq. injection Heq as H1 H2.
    assert (by_uri h !! (internal_id e, uri e) = Some oldest) as Hk by (apply Hkey; [done|by rewrite Ei]).
    rewrite Ei, H1, H2 in Hk. congruence.
Qed.

(** No more links than the limit. *)
Definition links_ok (h : Hyperlinks) : Prop := links_wf h /\ (length (order h) <= MAX_HYPERLINKS)%nat.

Lemma enforce_limit_loop_spec fuel h :
  links_wf h -> (length (order h) <= fuel)%nat ->
  let h' := enforce_limit_loop fuel h in
  links_ok h' /\ next_inner h' = next_inner h /\ order h' = drop (length (order h) - MAX_HYPERLINKS) (order h)
  /\ (forall id, id ∈ order h' -> by_inner h' !! id = by_inner h !! id).
Proof.
  revert h. induction fuel as [|fuel IH]; intros h Hwf Hle; simpl.
  - destruct (order h) eqn:E; [|simpl in Hle; lia]. split_and!; try done. split; [done|]. rewrite E. simpl. lia.
  - destruct (Nat.leb_spec (length (order h)) MAX_HYPERLINKS) as [Hm|Hm].
    + replace (length (order h) - MAX_HYPERLINKS)%nat with 0%nat by lia. by split_and!.
    + destruct (order h) as [|oldest rest] eqn:Eo; [simpl in Hm; lia|].
      destruct (by_inner h !! oldest) as [e|] eqn:Ee.
      2: { assert (is_Some (by_inner h !! oldest)) as [? ?] by (apply (wf_inner h Hwf); rewrite Eo; set_solver). congruence. }
      destruct (IH _ (drop_oldest_wf h oldest rest e Hwf Eo Ee)) as (I1 & I2 & I3 & I4); [simpl in *; lia|].
      split; [done|]. split; [done|]. split.
      * rewrite I3. cbn [order length] in *. replace (S (length rest) - MAX_HYPERLINKS)%nat with (S (length rest - MAX_HYPERLINKS)) by lia. reflexivity.
      * intros id Hid. rewrite I4 by done. simpl. apply lookup_delete_ne. intros <-.
        rewrite I3 in Hid. simpl in Hid. pose proof (wf_order h Hwf) as Hnd. rewrite Eo in Hnd. apply NoDup_cons in Hnd as [Hnot _].
        apply Hnot. apply list_elem_of_lookup in Hid as [i Hi]. rewrite lookup_drop in Hi. by eapply list_elem_of_lookup_2.
Qed.

Lemma hyperlinks_new_ok : links_ok hyperlinks_new.
Proof. split; [|simpl; lia]. constructor; simpl; try done; [constructor|]. intros id. split; [by intros ?%elem_of_nil|by intros [? ?]]. Qed.

Lemma hyperlinks_reset_ok h : links_ok h -> links_ok (hyperlinks_reset h).
Proof. intros _. split; [|simpl; lia]. constructor; simpl; try done; [constructor|]. intros id. split; [by intros ?%elem_of_nil|by intros [? ?]]. Qed.

(** A link under a number that is not in use. *)
Lemma insert_wf iid u ext h :
  links_wf h -> 0 < next_inner h < u32_max -> (iid <> [] -> by_uri h !! (iid, u) = None) ->
  links_wf (mkHyperlinks (u32_sat_add (next_inner h) 1) ext (order h ++ [next_inner h])
    (<[next_inner h := mkEntry (next_inner h) iid (external_name (next_external h)) u]> (by_inner h))
    (match iid with [] => by_uri h | _ => <[(iid, u) := next_inner h]> (by_uri h) end)).
Proof.
  intros [Hnd Hin Hid Huri Hkey] Hn Hfree.
  assert (u32_sat_add (next_inner h) 1 = next_inner h + 1) as Hs by machine.
  assert (by_inner h !! next_inner h = None) as Hnone.
  { destruct (by_inner h !! next_inner h) as [e|] eqn:E; [|done]. destruct (Hid _ _ E). lia. }
  assert (next_inner h ∉ order h) as Hnotin by (rewrite Hin, Hnone; by intros [? ?]).
  assert (forall k id, (match iid with [] => by_uri h | _ => <[(iid, u) := next_inner h]> (by_uri h) end) !! k = Some id ->
    (iid <> [] /\ k = (iid, u) /\ id = next_inner h) \/ by_uri h !! k = Some id) as Hlook.
  { intros k id Hl. destruct iid as [|x xs]; [by right|]. apply lookup_insert_Some in Hl as [[<- <-]|[_ ?]]; [by left|by right]. }
  constructor; simpl.
  - apply NoDup_app. split; [done|]. split; [set_solver|apply NoDup_singleton].
  - intros id. rewrite elem_of_app, list_elem_of_singleton, Hin. destruct (decide (id = next_inner h)) as [->|Hne].
    + rewrite lookup_insert_eq. split; [by eexists|by right].
    + rewrite lookup_insert_ne by done. naive_solver.
  - intros id e [[<- <-]|[_ H]]%lookup_insert_Some; simpl; [split; [done|lia]|]. destruct (Hid _ _ H). split; [done|lia].
  - intros iid' u' id Hl. destruct (Hlook _ _ Hl) as [(Hi & Hk & ->)|Hold].
    + injection Hk as -> ->. split; [done|]. eexists. by rewrite lookup_insert_eq.
    + destruct (Huri _ _ _ Hold) as (H1 & e & H2 & H3). split; [done|]. exists e. split; [|done].
      rewrite lookup_insert_ne; [done|]. intros <-. congruence.
  - intros id e [[<- <-]|[Hne H]]%lookup_insert_Some Hi; simpl in *.
    + destruct iid; [done|]. by rewrite lookup_insert_eq.
    + specialize (Hkey _ _ H Hi). destruct iid as [|x xs]; [done|]. rewrite lookup_insert_ne; [done|].
      intros Heq. rewrite <- Heq, Hfree in Hkey; done.
Qed.

Lemma insert_link_spec u iid h :
  links_ok h -> 0 < next_inner h < u32_max -> (iid <> [] -> by_uri h !! (iid, u) = None) ->
  let '(id, h') := insert_link u iid h in
  links_ok h' /\ next_inner h' = next_inner h + 1
  /\ exists e, get_link id h' = Some e /\ uri e = u /\ internal_id e = iid.
Proof.
  intros [Hwf Hb] Hn Hfree. unfold insert_link.
  set (h1 := mkHyperlinks _ _ _ _ _).
  assert (links_wf h1) as Hwf1 by (by apply insert_wf).
  destruct (enforce_limit_loop_spec (length (order h1)) h1 Hwf1) as (I1 & I2 & I3 & I4); [lia|].
  fold (enforce_limit h1) in I1, I2, I3, I4. split; [done|]. split; [rewrite I2; simpl; machine|].
  exists (mkEntry (next_inner h) iid (external_name (next_external h)) u). split; [|by split]. unfold get_link. rewrite I4; [apply lookup_insert_eq|].
  rewrite I3. simpl. rewrite drop_app_le; [set_solver|]. rewrite length_app. simpl.
  assert (MAX_HYPERLINKS = Z.to_nat 5000) by done. lia.
Qed.

(** Opening a hyperlink returns a number under which exactly that address (and
    id) is stored, reusing the number of an open link with the same id and
    address; the table stays consistent and holds at most 5000 links. *)
Theorem put_stores_link address id h :
  links_ok h -> 0 < next_inner h < u32_max ->
  let '(n, h') := put address id h in
  links_ok h' /\ next_inner h <= next_inner h' <= next_inner h + 1
  /\ exists e, get_link n h' = Some e /\ uri e = encode_str address link_flags
      /\ internal_id e = encode_str (default [] id) link_flags.
Proof.
  intros Hok Hn. unfold put. set (iid := encode_str (default [] id) link_flags). set (u := encode_str address link_flags).
  assert (forall r, r = insert_link u iid h -> (iid <> [] -> by_uri h !! (iid, u) = None) ->
    let '(n, h') := r in links_ok h' /\ next_inner h <= next_inner h' <= next_inner h + 1
      /\ exists e, get_link n h' = Some e /\ uri e = u /\ internal_id e = iid) as Hnew.
  { intros r -> Hfree. pose proof (insert_link_spec u iid h Hok Hn Hfree) as Hi. destruct (insert_link u iid h) as [n h'].
    destruct Hi as (H1 & H2 & H3). split; [done|]. split; [lia|done]. }
  destruct iid as [|x xs] eqn:Ei; [by apply Hnew|].
  destruct (by_uri h !! (x :: xs, u)) as [n|] eqn:El; [|by apply Hnew].
  split; [done|]. split; [lia|]. destruct (wf_uri h (proj1 Hok) _ _ _ El) as (_ & e & H1 & H2 & H3). by exists e.
Qed.

Lemma put_stores_link_witness :
  let '(n, h) := put [120] (Some [97]) (snd (put [120] (Some [97]) hyperlinks_new)) in
  n = 1 /\ exists e, get_link n h = Some e /\ uri e = [120].
Proof.
  pose proof (put_stores_link [120] (Some [97]) (snd (put [120] (Some [97]) hyperlinks_new))) as H.
  assert (links_ok (snd (put [120] (Some [97]) hyperlinks_new))) as Hok.
  { pose proof (put_stores_link [120] (Some [97]) hyperlinks_new hyperlinks_new_ok) as H0.
    destruct (put [120] (Some [97]) hyperlinks_new) as [n h]. apply H0. simpl. machine. }
  specialize (H Hok). destruct (put [120] (Some [97]) (snd (put [120] (Some [97]) hyperlinks_new))) as [n h] eqn:E.
  destruct H as (_ & _ & e & H1 & H2 & _); [vm_compute; split; reflexivity|].
  split; [|by exists e]. apply (f_equal fst) in E. vm_compute in E. by symmetry.
Defined.

