(* ===== verification/Screen.v ===== *)
(** * The screen

    [crates/rmux-core/src/screen.rs], [screen/writer.rs], [screen/selection.rs]
    and [screen/acs.rs]: the terminal a pane draws on.  [write_screen] is the
    [ScreenWriter] implementation: every method the parser calls, on the grid,
    the cursor, the modes and the rest of the state.  [None] is a panic (a slice
    or an index out of range), which the screen of a pane stays in; columns and
    rows are [nat], so the counts a control sequence carries are [Z.to_nat] of
    their value. *)

From S2P Require Import Prelude Utf8 InputCell Passthrough ScreenWriter GridCell GridLine GridReflow Grid Utf8Width Vis Hyperlinks.

#[local] Open Scope nat_scope.

Definition MAX_TERMINAL_PASSTHROUGH_EVENTS : nat := 256.
Definition TITLE_STACK_MAX : nat := 100.
#[global] Arguments MAX_TERMINAL_PASSTHROUGH_EVENTS : simpl never.
#[global] Arguments TITLE_STACK_MAX : simpl never.

Record SavedGrid : Type := mkSavedGrid {
  sg_grid : Grid;
  sg_history_enabled : bool
}.

Record Screen : Type := mkScreen {
  s_grid : Grid;
  s_cursor_x : nat;
  s_cursor_y : nat;
  s_pending_wrap : bool;
  saved_cursor_x : option nat;
  saved_cursor_y : option nat;
  saved_cursor_pending_wrap : bool;
  s_saved_state : SavedState;
  saved_grid : option SavedGrid;
  rupper : nat;
  rlower : nat;
  s_mode : Z;
  cursor_style : Z;
  title : list Z;
  window_name : list Z;
  path : list Z;
  title_stack : list (list Z);
  title_rename_enabled : bool;
  tabs : list bool;
  hyperlinks : Hyperlinks;
  active_hyperlink : Z;
  metadata_revision : Z;
  bell_count : Z;
  terminal_passthrough : list TerminalPassthrough;
  dropped_terminal_passthrough_count : Z;
  has_selected_cells : bool;
  utf8_config : Utf8Config;
  alternate_screen_enabled : bool;
  preserve_alternate_screen_cursor : bool
}.

Definition with_grid (v : Grid) (s : Screen) : Screen :=
  mkScreen v (s_cursor_x s) (s_cursor_y s) (s_pending_wrap s) (saved_cursor_x s) (saved_cursor_y s)
    (saved_cursor_pending_wrap s) (s_saved_state s) (saved_grid s) (rupper s) (rlower s) (s_mode s)
    (cursor_style s) (title s) (window_name s) (path s) (title_stack s) (title_rename_enabled s) (tabs s)
    (hyperlinks s) (active_hyperlink s) (metadata_revision s) (bell_count s) (terminal_passthrough s)
    (dropped_terminal_passthrough_count s) (has_selected_cells s) (utf8_config s) (alternate_screen_enabled s)
    (preserve_alternate_screen_cursor s).
Definition with_cursor (x y : nat) (wrap : bool) (s : Screen) : Screen :=
  mkScreen (s_grid s) x y wrap (saved_cursor_x s) (saved_cursor_y s) (saved_cursor_pending_wrap s) (s_saved_state s)
    (saved_grid s) (rupper s) (rlower s) (s_mode s) (cursor_style s) (title s) (window_name s) (path s)
    (title_stack s) (title_rename_enabled s) (tabs s) (hyperlinks s) (active_hyperlink s) (metadata_revision s)
    (bell_count s) (terminal_passthrough s) (dropped_terminal_passthrough_count s) (has_selected_cells s)
    (utf8_config s) (alternate_screen_enabled s) (preserve_alternate_screen_cursor s).
Definition with_saved_cursor (x y : option nat) (wrap : bool) (s : Screen) : Screen :=
  mkScreen (s_grid s) (s_cursor_x s) (s_cursor_y s) (s_pending_wrap s) x y wrap (s_saved_state s) (saved_grid s)
    (rupper s) (rlower s) (s_mode s) (cursor_style s) (title s) (window_name s) (path s) (title_stack s)
    (title_rename_enabled s) (tabs s) (hyperlinks s) (active_hyperlink s) (metadata_revision s) (bell_count s)
    (terminal_passthrough s) (dropped_terminal_passthrough_count s) (has_selected_cells s) (utf8_config s)
    (alternate_screen_enabled s) (preserve_alternate_screen_cursor s).
Definition with_screen_saved_state (v : SavedState) (s : Screen) : Screen :=
  mkScreen (s_grid s) (s_cursor_x s) (s_cursor_y s) (s_pending_wrap s) (saved_cursor_x s) (saved_cursor_y s)
    (saved_cursor_pending_wrap s) v (saved_grid s) (rupper s) (rlower s) (s_mode s) (cursor_style s) (title s)
    (window_name s) (path s) (title_stack s) (title_rename_enabled s) (tabs s) (hyperlinks s) (active_hyperlink s)
    (metadata_revision s) (bell_count s) (terminal_passthrough s) (dropped_terminal_passthrough_count s)
    (has_selected_cells s) (utf8_config s) (alternate_screen_enabled s) (preserve_alternate_screen_cursor s).
Definition with_saved_grid (v : option SavedGrid) (s : Screen) : Screen :=
  mkScreen (s_grid s) (s_cursor_x s) (s_cursor_y s) (s_pending_wrap s) (saved_cursor_x s) (saved_cursor_y s)
    (saved_cursor_pending_wrap s) (s_saved_state s) v (rupper s) (rlower s) (s_mode s) (cursor_style s) (title s)
    (window_name s) (path s) (title_stack s) (title_rename_enabled s) (tabs s) (hyperlinks s) (active_hyperlink s)
    (metadata_revision s) (bell_count s) (terminal_passthrough s) (dropped_terminal_passthrough_count s)
    (has_selected_cells s) (utf8_config s) (alternate_screen_enabled s) (preserve_alternate_screen_cursor s).
Definition with_region (upper lower : nat) (s : Screen) : Screen :=
  mkScreen (s_grid s) (s_cursor_x s) (s_cursor_y s) (s_pending_wrap s) (saved_cursor_x s) (saved_cursor_y s)
    (saved_cursor_pending_wrap s) (s_saved_state s) (saved_grid s) upper lower (s_mode s) (cursor_style s)
    (title s) (window_name s) (path s) (title_stack s) (title_rename_enabled s) (tabs s) (hyperlinks s)
    (active_hyperlink s) (metadata_revision s) (bell_count s) (terminal_passthrough s)
    (dropped_terminal_passthrough_count s) (has_selected_cells s) (utf8_config s) (alternate_screen_enabled s)
    (preserve_alternate_screen_cursor s).
Definition with_mode (v : Z) (s : Screen) : Screen :=
  mkScreen (s_grid s) (s_cursor_x s) (s_cursor_y s) (s_pending_wrap s) (saved_cursor_x s) (saved_cursor_y s)
    (saved_cursor_pending_wrap s) (s_saved_state s) (saved_grid s) (rupper s) (rlower s) v (cursor_style s)
    (title s) (window_name s) (path s) (title_stack s) (title_rename_enabled s) (tabs s) (hyperlinks s)
    (active_hyperlink s) (metadata_revision s) (bell_count s) (terminal_passthrough s)
    (dropped_terminal_passthrough_count s) (has_selected_cells s) (utf8_config s) (alternate_screen_enabled s)
    (preserve_alternate_screen_cursor s).
Definition with_cursor_style (v : Z) (s : Screen) : Screen :=
  mkScreen (s_grid s) (s_cursor_x s) (s_cursor_y s) (s_pending_wrap s) (saved_cursor_x s) (saved_cursor_y s)
    (saved_cursor_pending_wrap s) (s_saved_state s) (saved_grid s) (rupper s) (rlower s) (s_mode s) v (title s)
    (window_name s) (path s) (title_stack s) (title_rename_enabled s) (tabs s) (hyperlinks s) (active_hyperlink s)
    (metadata_revision s) (bell_count s) (terminal_passthrough s) (dropped_terminal_passthrough_count s)
    (has_selected_cells s) (utf8_config s) (alternate_screen_enabled s) (preserve_alternate_screen_cursor s).
Definition with_title (v : list Z) (s : Screen) : Screen :=
  mkScreen (s_grid s) (s_cursor_x s) (s_cursor_y s) (s_pending_wrap s) (saved_cursor_x s) (saved_cursor_y s)
    (saved_cursor_pending_wrap s) (s_saved_state s) (saved_grid s) (rupper s) (rlower s) (s_mode s)
    (cursor_style s) v (window_name s) (path s) (title_stack s) (title_rename_enabled s) (tabs s) (hyperlinks s)
    (active_hyperlink s) (metadata_revision s) (bell_count s) (terminal_passthrough s)
    (dropped_terminal_passthrough_count s) (has_selected_cells s) (utf8_config s) (alternate_screen_enabled s)
    (preserve_alternate_screen_cursor s).
Definition with_window_name (v : list Z) (s : Screen) : Screen :=
  mkScreen (s_grid s) (s_cursor_x s) (s_cursor_y s) (s_pending_wrap s) (saved_cursor_x s) (saved_cursor_y s)
    (saved_cursor_pending_wrap s) (s_saved_state s) (saved_grid s) (rupper s) (rlower s) (s_mode s)
    (cursor_style s) (title s) v (path s) (title_stack s) (title_rename_enabled s) (tabs s) (hyperlinks s)
    (active_hyperlink s) (metadata_revision s) (bell_count s) (terminal_passthrough s)
    (dropped_terminal_passthrough_count s) (has_selected_cells s) (utf8_config s) (alternate_screen_enabled s)
    (preserve_alternate_screen_cursor s).
Definition with_path (v : list Z) (s : Screen) : Screen :=
  mkScreen (s_grid s) (s_cursor_x s) (s_cursor_y s) (s_pending_wrap s) (saved_cursor_x s) (saved_cursor_y s)
    (saved_cursor_pending_wrap s) (s_saved_state s) (saved_grid s) (rupper s) (rlower s) (s_mode s)
    (cursor_style s) (title s) (window_name s) v (title_stack s) (title_rename_enabled s) (tabs s) (hyperlinks s)
    (active_hyperlink s) (metadata_revision s) (bell_count s) (terminal_passthrough s)
    (dropped_terminal_passthrough_count s) (has_selected_cells s) (utf8_config s) (alternate_screen_enabled s)
    (preserve_alternate_screen_cursor s).
Definition with_title_stack (v : list (list Z)) (s : Screen) : Screen :=
  mkScreen (s_grid s) (s_cursor_x s) (s_cursor_y s) (s_pending_wrap s) (saved_cursor_x s) (saved_cursor_y s)
    (saved_cursor_pending_wrap s) (s_saved_state s) (saved_grid s) (rupper s) (rlower s) (s_mode s)
    (cursor_style s) (title s) (window_name s) (path s) v (title_rename_enabled s) (tabs s) (hyperlinks s)
    (active_hyperlink s) (metadata_revision s) (bell_count s) (terminal_passthrough s)
    (dropped_terminal_passthrough_count s) (has_selected_cells s) (utf8_config s) (alternate_screen_enabled s)
    (preserve_alternate_screen_cursor s).
Definition with_tabs (v : list bool) (s : Screen) : Screen :=
  mkScreen (s_grid s) (s_cursor_x s) (s_cursor_y s) (s_pending_wrap s) (saved_cursor_x s) (saved_cursor_y s)
    (saved_cursor_pending_wrap s) (s_saved_state s) (saved_grid s) (rupper s) (rlower s) (s_mode s)
    (cursor_style s) (title s) (window_name s) (path s) (title_stack s) (title_rename_enabled s) v (hyperlinks s)
    (active_hyperlink s) (metadata_revision s) (bell_count s) (terminal_passthrough s)
    (dropped_terminal_passthrough_count s) (has_selected_cells s) (utf8_config s) (alternate_screen_enabled s)
    (preserve_alternate_screen_cursor s).
Definition with_links (v : Hyperlinks) (active : Z) (s : Screen) : Screen :=
  mkScreen (s_grid s) (s_cursor_x s) (s_cursor_y s) (s_pending_wrap s) (saved_cursor_x s) (saved_cursor_y s)
    (saved_cursor_pending_wrap s) (s_saved_state s) (saved_grid s) (rupper s) (rlower s) (s_mode s)
    (cursor_style s) (title s) (window_name s) (path s) (title_stack s) (title_rename_enabled s) (tabs s) v active
    (metadata_revision s) (bell_count s) (terminal_passthrough s) (dropped_terminal_passthrough_count s)
    (has_selected_cells s) (utf8_config s) (alternate_screen_enabled s) (preserve_alternate_screen_cursor s).
Definition with_metadata_revision (v : Z) (s : Screen) : Screen :=
  mkScreen (s_grid s) (s_cursor_x s) (s_cursor_y s) (s_pending_wrap s) (saved_cursor_x s) (saved_cursor_y s)
    (saved_cursor_pending_wrap s) (s_saved_state s) (saved_grid s) (rupper s) (rlower s) (s_mode s)
    (cursor_style s) (title s) (window_name s) (path s) (title_stack s) (title_rename_enabled s) (tabs s)
    (hyperlinks s) (active_hyperlink s) v (bell_count s) (terminal_passthrough s)
    (dropped_terminal_passthrough_count s) (has_selected_cells s) (utf8_config s) (alternate_screen_enabled s)
    (preserve_alternate_screen_cursor s).
Definition with_bell_count (v : Z) (s : Screen) : Screen :=
  mkScreen (s_grid s) (s_cursor_x s) (s_cursor_y s) (s_pending_wrap s) (saved_cursor_x s) (saved_cursor_y s)
    (saved_cursor_pending_wrap s) (s_saved_state s) (saved_grid s) (rupper s) (rlower s) (s_mode s)
    (cursor_style s) (title s) (window_name s) (path s) (title_stack s) (title_rename_enabled s) (tabs s)
    (hyperlinks s) (active_hyperlink s) (metadata_revision s) v (terminal_passthrough s)
    (dropped_terminal_passthrough_count s) (has_selected_cells s) (utf8_config s) (alternate_screen_enabled s)
    (preserve_alternate_screen_cursor s).
Definition with_passthrough (v : list TerminalPassthrough) (dropped : Z) (s : Screen) : Screen :=
  mkScreen (s_grid s) (s_cursor_x s) (s_cursor_y s) (s_pending_wrap s) (saved_cursor_x s) (saved_cursor_y s)
    (saved_cursor_pending_wrap s) (s_saved_state s) (saved_grid s) (rupper s) (rlower s) (s_mode s)
    (cursor_style s) (title s) (window_name s) (path s) (title_stack s) (title_rename_enabled s) (tabs s)
    (hyperlinks s) (active_hyperlink s) (metadata_revision s) (bell_count s) v dropped (has_selected_cells s)
    (utf8_config s) (alternate_screen_enabled s) (preserve_alternate_screen_cursor s).
Definition with_selected (v : bool) (s : Screen) : Screen :=
  mkScreen (s_grid s) (s_cursor_x s) (s_cursor_y s) (s_pending_wrap s) (saved_cursor_x s) (saved_cursor_y s)
    (saved_cursor_pending_wrap s) (s_saved_state s) (saved_grid s) (rupper s) (rlower s) (s_mode s)
    (cursor_style s) (title s) (window_name s) (path s) (title_stack s) (title_rename_enabled s) (tabs s)
    (hyperlinks s) (active_hyperlink s) (metadata_revision s) (bell_count s) (terminal_passthrough s)
    (dropped_terminal_passthrough_count s) v (utf8_config s) (alternate_screen_enabled s)
    (preserve_alternate_screen_cursor s).
Definition with_utf8_config (v : Utf8Config) (s : Screen) : Screen :=
  mkScreen (s_grid s) (s_cursor_x s) (s_cursor_y s) (s_pending_wrap s) (saved_cursor_x s) (saved_cursor_y s)
    (saved_cursor_pending_wrap s) (s_saved_state s) (saved_grid s) (rupper s) (rlower s) (s_mode s)
    (cursor_style s) (title s) (window_name s) (path s) (title_stack s) (title_rename_enabled s) (tabs s)
    (hyperlinks s) (active_hyperlink s) (metadata_revision s) (bell_count s) (terminal_passthrough s)
    (dropped_terminal_passthrough_count s) (has_selected_cells s) v (alternate_screen_enabled s)
    (preserve_alternate_screen_cursor s).
Definition with_options (rename alternate preserve : bool) (s : Screen) : Screen :=
  mkScreen (s_grid s) (s_cursor_x s) (s_cursor_y s) (s_pending_wrap s) (saved_cursor_x s) (saved_cursor_y s)
    (saved_cursor_pending_wrap s) (s_saved_state s) (saved_grid s) (rupper s) (rlower s) (s_mode s)
    (cursor_style s) (title s) (window_name s) (path s) (title_stack s) rename (tabs s) (hyperlinks s)
    (active_hyperlink s) (metadata_revision s) (bell_count s) (terminal_passthrough s)
    (dropped_terminal_passthrough_count s) (has_selected_cells s) (utf8_config s) alternate preserve.

Definition with_pending_wrap (wrap : bool) (s : Screen) : Screen := with_cursor (s_cursor_x s) (s_cursor_y s) wrap s.
Definition with_x (x : nat) (s : Screen) : Screen := with_cursor x (s_cursor_y s) (s_pending_wrap s) s.
Definition with_y (y : nat) (s : Screen) : Screen := with_cursor (s_cursor_x s) y (s_pending_wrap s) s.

Definition screen_sx (s : Screen) : nat := sx (s_grid s).
Definition screen_sy (s : Screen) : nat := sy (s_grid s).

Definition on_grid (f : Grid -> Grid) (s : Screen) : Screen := with_grid (f (s_grid s)) s.

(** An operation of the grid that may panic. *)
Definition on_grid_checked (f : Grid -> option Grid) (s : Screen) : option Screen :=
  g ← f (s_grid s); Some (with_grid g s).

(** ** Making a screen *)

(** Every eighth column. *)
Definition default_tabs (width : nat) : list bool :=
  map (fun column => (0 <? column) && (column mod 8 =? 0)) (seq 0 width).

Definition reset_tabs (s : Screen) : Screen := with_tabs (default_tabs (screen_sx s)) s.

Definition screen_new (cols rows history_limit : nat) : Screen :=
  reset_tabs
    (mkScreen (grid_new cols rows history_limit) 0 0 false None None false default_saved_state None 0 (rows `max` 1 - 1)
       (Z.lor MODE_CURSOR MODE_WRAP) 0 [] [] [] [] true [] hyperlinks_new 0 0 0 [] 0 false default_utf8_config true false).

Definition bump_metadata_revision (s : Screen) : Screen := with_metadata_revision (u64_sat_add (metadata_revision s) 1) s.

Definition screen_set_title (t : list Z) (s : Screen) : Screen :=
  if bool_decide (title s = t) then s else bump_metadata_revision (with_title t s).

Definition is_alternate (s : Screen) : bool := bool_decide (is_Some (saved_grid s)).

Definition max_cursor_x (s : Screen) : nat := screen_sx s - 1.

Definition cursor_column (s : Screen) : nat := s_cursor_x s `min` max_cursor_x s.

Definition wrap_mode (s : Screen) : bool := has_mode (s_mode s) MODE_WRAP.

Definition clear_pending_wrap (s : Screen) : Screen := with_pending_wrap false s.

Definition restore_cursor_position (x y : nat) (wrap : bool) (s : Screen) : Screen :=
  let x := x `min` max_cursor_x s in
  let y := y `min` (screen_sy s - 1) in
  with_cursor x y (wrap && wrap_mode s && (x =? max_cursor_x s)) s.

Definition apply_grid_cursor (c : GridPhysicalCursor) (s : Screen) : Screen :=
  let x := physical_x c `min` max_cursor_x s in
  let y := (absolute_y c - length (history (s_grid s))) `min` (screen_sy s - 1) in
  with_cursor x y (physical_pending_wrap c && wrap_mode s && (x =? max_cursor_x s)) s.

(** ** Selection *)

Definition deselect_cell (acc : bool * GridLine) (x : nat) : bool * GridLine :=
  let '(touched, l) := acc in
  let l := materialize_for_cell_mutation l in
  match cells l !! x with
  | Some c => if flags_contains (cell_flags c) SELECTED then (true, cell_mut x (drop_flag SELECTED) l) else (touched, l)
  | None => (touched, l)
  end.

Definition deselect_line (width : nat) (l : GridLine) : GridLine :=
  let '(touched, l) := fold_left deselect_cell (seq 0 width) (false, l) in touch_if touched l.

Definition clear_selected_cells (s : Screen) : Screen :=
  if negb (has_selected_cells s) then s
  else
    let rows := fold_left (fun g y => visible_line_mut y (deselect_line (screen_sx s)) g) (seq 0 (screen_sy s)) (s_grid s) in
    with_selected false (with_grid rows s).

(** The cells of the character in column [owner]. *)
Definition select_cells (owner width : nat) (l : GridLine) : bool * GridLine :=
  fold_left (fun '(touched, l) o =>
    let l := materialize_for_cell_mutation l in
    match cells l !! (owner + o) with
    | Some _ => (true, cell_mut (owner + o) (add_flag SELECTED) l)
    | None => (touched, l)
    end) (seq 0 width) (false, l).

(** The loop of [mark_selected_row_range]; [fuel] is the number of columns. *)
Fixpoint select_loop (fuel stop x : nat) (touched : bool) (l : GridLine) : bool * GridLine :=
  match fuel with
  | O => (touched, l)
  | S fuel =>
      if stop <? x then (touched, l)
      else
        let owner := default x (owning_cell_x l x) in
        let width := match cell_at l owner with Some c => cell_width c `max` 1 | None => 1 end in
        let '(t, l) := select_cells owner width l in
        select_loop fuel stop (owner + width `max` 1) (touched || t) l
  end.

Definition mark_selected_row_range (row start stop : nat) (s : Screen) : Screen :=
  let width := screen_sx s in
  if (screen_sy s <=? row) || (width =? 0) then s
  else
    match visible (s_grid s) !! row with
    | None => s
    | Some l =>
        let start := start `min` (width - 1) in
        let stop := stop `min` (width - 1) in
        if stop <? start then s
        else
          let start := default start (owning_cell_x l start) in
          let stop := default stop (owning_cell_x l stop) in
          let '(touched, l) := select_loop (stop + 1) stop start false l in
          with_selected (has_selected_cells s || touched) (on_grid (visible_line_mut row (fun _ => touch_if touched l)) s)
    end.

(** ** Wide characters *)

(** [offset] columns right of [x] there is padding of the character in [x]. *)
Definition padding_valid (l : GridLine) (x o : nat) : bool :=
  match cell_at l (x + o) with Some c => is_padding c | None => false end
  && bool_decide (owning_cell_x l (x + o) = Some x).

(** The loop of [repair_wide_cells_on_line]; every round moves right, so [fuel]
    is the number of columns. *)
Fixpoint repair_loop (fuel width : nat) (blank : GridCell) (x : nat) (changed : bool) (l : GridLine) : bool * GridLine :=
  match fuel with
  | O => (changed, l)
  | S fuel =>
      if width <=? x then (changed, l)
      else
        match cell_at l x with
        | None => repair_loop fuel width blank (x + 1) changed l
        | Some c =>
            if is_padding c then
              match owning_cell_x l x with
              | None => repair_loop fuel width blank (x + 1) true (cell_mut x (fun _ => blank) l)
              | Some _ => repair_loop fuel width blank (x + 1) changed l
              end
            else if cell_width c <=? 1 then repair_loop fuel width blank (x + 1) changed l
            else if (x + cell_width c <=? width) && forallb (padding_valid l x) (seq 1 (cell_width c - 1))
            then repair_loop fuel width blank (x + cell_width c) changed l
            else repair_loop fuel width blank (x + 1) true (cell_mut x (fun _ => blank) l)
        end
  end.

Definition repair_wide_cells_on_line (width : nat) (bg : Z) (l : GridLine) : GridLine :=
  let '(changed, l) := repair_loop width width (blank_with_bg bg) 0 false l in touch_if changed l.

(** Padding to the right of the columns written; [fuel] is the number of columns. *)
Fixpoint clear_padding_loop (fuel width x : nat) (l : GridLine) : GridLine :=
  match fuel with
  | O => l
  | S fuel =>
      if (x <? width) && is_padding_cell l x
      then clear_padding_loop fuel width (x + 1) (cell_mut x (fun _ => default_cell) l)
      else l
  end.

Definition overwrite_line (columns x width : nat) (l : GridLine) : GridLine :=
  let l :=
    if is_padding_cell l x then
      match owning_cell_x l x with
      | Some owner => if owner =? x then l else cell_mut owner (fun _ => default_cell) l
      | None => l
      end
    else l in
  let clear_following_padding :=
    negb (width =? 1)
    || match cell_at l x with Some c => negb (cell_width c =? 1) || is_padding c | None => false end in
  touch (if clear_following_padding then clear_padding_loop columns columns (x + width) l else l).

Definition current_line_mut (f : GridLine -> GridLine) (s : Screen) : Screen :=
  on_grid (visible_line_mut (s_cursor_y s) f) s.

Definition overwrite_for_write (x width : nat) (s : Screen) : Screen :=
  current_line_mut (overwrite_line (screen_sx s) x width) s.

Definition logical_insert_column (s : Screen) : nat :=
  let x := cursor_column s in
  match visible (s_grid s) !! s_cursor_y s with
  | None => x
  | Some l =>
      match owning_cell_x l x with
      | Some owner =>
          if owner =? x then x
          else owner + match cell_at l owner with Some c => cell_width c `max` 1 | None => 1 end
      | None => x
      end
  end.

(** ** Erasing *)

Definition blank_columns (start stop : nat) (bg : Z) (l : GridLine) : GridLine :=
  fold_left (fun l x => cell_mut x (fun _ => blank_with_bg bg) l) (seq start (stop + 1 - start)) l.

Definition clear_line_range (y start end_inclusive : nat) (bg : Z) (s : Screen) : Screen :=
  let s := clear_selected_cells s in
  let width := screen_sx s in
  let stop := end_inclusive `min` (width - 1) in
  let whole := (start =? 0) && (stop =? width - 1) in
  let s := if whole then on_grid (break_wrap_before_visible_line y) s else s in
  on_grid (visible_line_mut y (fun l =>
    let l := repair_wide_cells_on_line width bg (blank_columns (start `min` width) stop bg l) in
    touch (if whole then set_wrapped false l else l))) s.

Definition clear_screen_region (start_y end_y_inclusive : nat) (bg : Z) (s : Screen) : Screen :=
  let s := clear_selected_cells s in
  let stop := end_y_inclusive `min` (screen_sy s - 1) in
  on_grid (fun g => fold_left (fun g y => visible_line_mut y (line_clear bg) (break_wrap_before_visible_line y g))
                      (seq start_y (stop + 1 - start_y)) g) s.

Definition break_previous_wrapped_line (s : Screen) : Screen :=
  match s_cursor_y s with
  | O => s
  | S y => on_grid (visible_line_mut y (set_wrapped false)) s
  end.

(** ** Line drawing characters *)

Definition translate_acs (ch : Z) : Z :=
  match ch with
  | 106 => 9496
  | 107 => 9488
  | 108 => 9484
  | 109 => 9492
  | 110 => 9532
  | 113 => 9472
  | 116 => 9500
  | 117 => 9508
  | 118 => 9524
  | 119 => 9516
  | 120 => 9474
  | _ => ch
  end%Z.

(** ** Passthrough *)

Definition push_terminal_passthrough (p : TerminalPassthrough) (s : Screen) : Screen :=
  if (MAX_TERMINAL_PASSTHROUGH_PAYLOAD_BYTES <? Z.of_nat (length (payload p)))%Z
  then with_passthrough (terminal_passthrough s) (u64_sat_add (dropped_terminal_passthrough_count s) 1) s
  else
    let overflow := length (terminal_passthrough s) + 1 - MAX_TERMINAL_PASSTHROUGH_EVENTS in
    with_passthrough (drop overflow (terminal_passthrough s) ++ [p])
      (if 0 <? overflow then u64_sat_add (dropped_terminal_passthrough_count s) (Z.of_nat overflow)
       else dropped_terminal_passthrough_count s) s.

Section Writer.

Context (now : Z) (unicode_width : Z -> option nat).

(** ** Lines *)

Definition do_linefeed (wrapped : bool) (bg : Z) (s : Screen) : option Screen :=
  let s := with_pending_wrap false s in
  let s := if wrapped then current_line_mut (set_wrapped true) s else s in
  if s_cursor_y s =? rlower s then
    let s := clear_selected_cells s in
    on_grid_checked (scroll_region_up now (rupper s) (rlower s) bg (rupper s =? 0)) s
  else if s_cursor_y s <? screen_sy s - 1 then Some (with_y (s_cursor_y s + 1) s)
  else Some s.

(** To the first column of the next line. *)
Definition wrap_to_next_line (s : Screen) : option Screen := s ← do_linefeed false COLOUR_DEFAULT s; Some (with_x 0 s).

Definition apply_pending_wrap (s : Screen) : option Screen :=
  if negb (s_pending_wrap s) || negb (wrap_mode s) then Some (with_pending_wrap false s)
  else wrap_to_next_line (with_pending_wrap false (current_line_mut (set_wrapped true) s)).

(** [n.max(1).min(bound)] *)
Definition count_upto (n : Z) (bound : nat) : nat := (Z.to_nat n `max` 1) `min` bound.

Definition do_insert_line (n bg : Z) (s : Screen) : option Screen :=
  let s := clear_pending_wrap s in
  if (s_cursor_y s <? rupper s) || (rlower s <? s_cursor_y s) then Some s
  else
    let s := clear_selected_cells s in
    on_grid_checked (insert_lines (s_cursor_y s) (rlower s) (count_upto n (rlower s - s_cursor_y s + 1)) bg) s.

(** [op] [n] times. *)
Definition repeat_grid (n : nat) (op : Grid -> option Grid) (s : Screen) : option Screen :=
  on_grid_checked (fun g => Nat.iter n (fun m => m ≫= op) (Some g)) s.

Definition do_delete_line (n bg : Z) (s : Screen) : option Screen :=
  let s := clear_pending_wrap s in
  if (s_cursor_y s <? rupper s) || (rlower s <? s_cursor_y s) then Some s
  else
    let s := clear_selected_cells s in
    repeat_grid (count_upto n (rlower s - s_cursor_y s + 1)) (scroll_region_up now (s_cursor_y s) (rlower s) bg false) s.

Definition do_scroll_up (n bg : Z) (s : Screen) : option Screen :=
  let s := clear_selected_cells (clear_pending_wrap s) in
  repeat_grid (count_upto n (rlower s - rupper s + 1)) (scroll_region_up now (rupper s) (rlower s) bg (rupper s =? 0)) s.

Definition do_scroll_down (n bg : Z) (s : Screen) : option Screen :=
  let s := clear_selected_cells (clear_pending_wrap s) in
  repeat_grid (count_upto n (rlower s - rupper s + 1)) (scroll_region_down (rupper s) (rlower s) bg) s.

Definition do_reverse_index (bg : Z) (s : Screen) : option Screen :=
  let s := clear_pending_wrap s in
  if s_cursor_y s =? rupper s
  then on_grid_checked (scroll_region_down (rupper s) (rlower s) bg) (clear_selected_cells s)
  else if 0 <? s_cursor_y s then Some (with_y (s_cursor_y s - 1) s)
  else Some s.

(** ** Characters in a line *)

Definition do_insert_character (n bg : Z) (s : Screen) : Screen :=
  let s := clear_selected_cells (clear_pending_wrap s) in
  let width := screen_sx s in
  let x := logical_insert_column s in
  if width <=? x then with_pending_wrap (wrap_mode s) s
  else
    let s := with_x x s in
    current_line_mut (fun l =>
      touch (repair_wide_cells_on_line width bg (insert_cells x (count_upto n (width - x)) (blank_with_bg bg) l))) s.

Definition do_delete_character (n bg : Z) (s : Screen) : Screen :=
  let s := clear_selected_cells (clear_pending_wrap s) in
  let x := cursor_column s in
  let width := screen_sx s in
  let count := count_upto n (width - x) in
  let whole := (x =? 0) && (count =? width) in
  let s := if whole then on_grid (break_wrap_before_visible_line (s_cursor_y s)) s else s in
  current_line_mut (fun l =>
    let l := repair_wide_cells_on_line width bg (delete_cells x count (blank_with_bg bg) l) in
    touch (if whole then set_wrapped false l else l)) s.

Definition do_clear_character (n bg : Z) (s : Screen) : Screen :=
  let s := clear_pending_wrap s in
  let x := cursor_column s in
  clear_line_range (s_cursor_y s) x ((x + Z.to_nat n `max` 1 - 1) `min` (screen_sx s - 1)) bg s.

(** A character joins the one before the cursor; [true] when nothing is left to
    write. *)
Definition screen_combine_char (ch : Z) (s : Screen) : bool * Screen :=
  let discarded := match combine_char unicode_width None ch (utf8_config s) with Discard => true | _ => false end in
  let x := cursor_column s in
  if negb (s_pending_wrap s) && (x =? 0) then (discarded, s)
  else
    let x := if s_pending_wrap s then max_cursor_x s else x - 1 in
    match visible (s_grid s) !! s_cursor_y s with
    | None => (discarded, s)
    | Some l =>
        let target := default x (owning_cell_x l x) in
        let previous := (fun c => (as_str (cell_text c), cell_width c)) <$> cell_at l target in
        match combine_char unicode_width previous ch (utf8_config s) with
        | Standalone _ => (false, s)
        | Discard => (true, s)
        | Combined text width =>
            let previous_width := match previous with Some (_, w) => w | None => 0 end in
            let available := (screen_sx s - target) `max` 1 in
            let width := width `min` (available `min` 255) in
            let s := if width =? previous_width then s else overwrite_for_write target width s in
            let s := current_line_mut (fun l =>
              let l := materialize_for_cell_mutation l in
              match cells l !! target with
              | None => l
              | Some c =>
                  let c := set_width width (set_text text c) in
                  let l := cell_mut target (fun _ => c) l in
                  touch (if width =? 2 then cell_mut (target + 1) (fun _ => padding_of c) l else l)
              end) s in
            (true,
             if (previous_width =? 1) && (width =? 2) && negb (s_pending_wrap s) then
               if screen_sx s <=? target + 2 then with_cursor (max_cursor_x s) (s_cursor_y s) (wrap_mode s) s
               else with_x (target + 2) s
             else s)
        end
    end.

(** The cursor after [width] columns from [x]. *)
Definition advance (x width : nat) (s : Screen) : Screen :=
  if wrap_mode s && (screen_sx s <=? x + width) then with_cursor (max_cursor_x s) (s_cursor_y s) true s
  else with_cursor ((x + width) `min` max_cursor_x s) (s_cursor_y s) false s.

(** The character in its columns. *)
Definition put_char (x width : nat) (ch : Z) (cell : CellState) (l : GridLine) : GridLine :=
  let l := cell_mut x (fun _ => from_state ch (if width <=? 255 then width else 1) cell 0) l in
  touch (fold_left (fun l o => cell_mut (x + o) (fun _ => from_state 32 0 cell PADDING) l) (seq 1 (width - 1)) l).

(** The last part of [write_char]: the cell, then the cursor. *)
Definition write_at_cursor (width : nat) (ch : Z) (cell : CellState) (continuation : bool) (s : Screen) : Screen :=
  if (screen_sy s <=? s_cursor_y s) || (screen_sx s - width <? cursor_column s) then s
  else
    let x := cursor_column s in
    let s := if (x =? 0) && negb continuation then break_previous_wrapped_line s else s in
    advance x width (current_line_mut (put_char x width ch cell) (overwrite_for_write x width s)).

(** Insert mode moves to the column of the character the cursor is in; [None] in
    the pair when nothing is written. *)
Definition insert_mode_column (s : Screen) (continuation : bool) : option (option (Screen * bool)) :=
  if negb (has_mode (s_mode s) MODE_INSERT) then Some (Some (s, continuation))
  else
    let x := logical_insert_column s in
    if screen_sx s <=? x then
      if negb (wrap_mode s) then Some None
      else s ← wrap_to_next_line (current_line_mut (set_wrapped true) s); Some (Some (s, true))
    else Some (Some (with_x x s, continuation)).

Definition write_char (ch : Z) (cell : CellState) (acs : bool) (s : Screen) : option Screen :=
  if (screen_sx s =? 0) || (screen_sy s =? 0) then Some s
  else
    let s := clear_selected_cells s in
    let ch := if acs then translate_acs ch else ch in
    let requested := char_width unicode_width (utf8_config s) ch in
    let '(combined, s) := screen_combine_char ch s in
    if combined then Some s
    else
      let width := (requested `max` 1) `min` screen_sx s in
      let continuation := s_pending_wrap s && wrap_mode s in
      s ← apply_pending_wrap s;
      m ← insert_mode_column s continuation;
      match m with
      | None => Some s
      | Some (s, continuation) =>
          let crosses := (screen_sx s <? width) || (screen_sx s - width <? s_cursor_x s) in
          if negb (wrap_mode s) && (1 <? width) && crosses then Some s
          else
            let s := if has_mode (s_mode s) MODE_INSERT
                     then do_insert_character (Z.of_nat width) (bg (InputCell.cell cell)) s else s in
            if wrap_mode s && crosses then
              let gap_start := cursor_column s in
              let s := current_line_mut (fun l => set_wrapped true (mark_unused_suffix_as_reflow_gap gap_start l)) s in
              s ← wrap_to_next_line s;
              Some (write_at_cursor width ch cell true s)
            else Some (write_at_cursor width ch cell continuation s)
      end.

Definition write_ascii_run_slow (bytes : list Z) (cell : CellState) (acs : bool) (s : Screen) : option Screen :=
  fold_left (fun m byte => s ← m; write_char byte cell acs s) bytes (Some s).

Definition default_rendition (cell : CellState) : bool :=
  let c := InputCell.cell cell in
  ((attr c =? 0) && (fg c =? COLOUR_DEFAULT) && (bg c =? COLOUR_DEFAULT) && (us c =? COLOUR_DEFAULT) && (link c =? 0))%Z.

(** The loop of [write_plain_ascii_run]; every round writes a character, so
    [fuel] is the length of the run. *)
Fixpoint plain_run_loop (fuel : nat) (bytes : list Z) (cell : CellState) (s : Screen) : option Screen :=
  match fuel, bytes with
  | S fuel, _ :: _ =>
      let continuation := s_pending_wrap s && wrap_mode s in
      s ← apply_pending_wrap s;
      if screen_sy s <=? s_cursor_y s then write_ascii_run_slow bytes cell false s
      else
        let x := cursor_column s in
        let s := if (x =? 0) && negb continuation then break_previous_wrapped_line s else s in
        let writable := screen_sx s - x in
        if negb (wrap_mode s) && (writable <? length bytes) then write_ascii_run_slow bytes cell false s
        else if writable =? 0 then write_ascii_run_slow bytes cell false s
        else
          let chunk := take writable bytes in
          match (l ← visible (s_grid s) !! s_cursor_y s; write_plain_ascii_run x chunk l) with
          | None => write_ascii_run_slow bytes cell false s
          | Some l =>
              plain_run_loop fuel (drop writable bytes) cell
                (advance x (length chunk) (current_line_mut (fun _ => l) s))
          end
  | _, _ => Some s
  end.

Definition do_ascii_run (bytes : list Z) (cell : CellState) (acs : bool) (s : Screen) : option Screen :=
  match bytes with
  | [] => Some s
  | _ =>
      if acs || has_mode (s_mode s) MODE_INSERT || negb (default_rendition cell) || (screen_sx s =? 0) || (screen_sy s =? 0)
      then write_ascii_run_slow bytes cell acs s
      else plain_run_loop (length bytes) bytes cell (clear_selected_cells s)
  end.

(** ** Resizing and the alternate screen *)

Definition screen_resize (cols rows : nat) (s : Screen) : Screen :=
  let s := clear_selected_cells s in
  let cols := cols `max` 1 in
  let rows := rows `max` 1 in
  let s :=
    if cols =? screen_sx s then s
    else
      let '(remapped, g) :=
        if is_alternate s
        then resize_visible_width_preserving_cursor cols COLOUR_DEFAULT (s_cursor_y s) (s_cursor_x s) (s_pending_wrap s) (s_grid s)
        else resize_width_remapping_cursor cols COLOUR_DEFAULT
               (logical_cursor (s_cursor_y s) (s_cursor_x s) (s_pending_wrap s) (s_grid s)) (s_grid s) in
      reset_tabs (apply_grid_cursor remapped (with_grid g s)) in
  let s :=
    if rows =? screen_sy s then s
    else let '(g, y) := resize_height now rows (s_cursor_y s) COLOUR_DEFAULT (s_grid s) in with_y y (with_grid g s) in
  let s := with_region 0 (rows - 1) s in
  let s := with_x (s_cursor_x s `min` max_cursor_x s) s in
  with_pending_wrap (s_pending_wrap s && wrap_mode s && (s_cursor_x s =? max_cursor_x s)) s.

Definition do_alternate_on (bg : Z) (save_cursor : bool) (s : Screen) : Screen :=
  if negb (alternate_screen_enabled s) || is_alternate s then s
  else
    let s := clear_selected_cells s in
    let '(cols, rows) := grid_size (s_grid s) in
    let copy := replace_visible (visible (s_grid s)) (grid_new cols rows 0) in
    let s := with_saved_grid (Some (mkSavedGrid copy (history_enabled (s_grid s)))) s in
    let s :=
      if save_cursor then
        let s := with_saved_cursor (Some (s_cursor_x s)) (Some (s_cursor_y s)) (s_pending_wrap s) s in
        with_screen_saved_state (mkSavedState (saved_cell (s_saved_state s)) (Z.of_nat (cursor_column s))
          (Z.of_nat (s_cursor_y s)) (mode_origin (s_saved_state s))) s
      else s in
    let s := on_grid (fun g => set_history_enabled false (clear_visible bg g)) s in
    let s := with_pending_wrap false s in
    if negb save_cursor || negb (preserve_alternate_screen_cursor s) then with_cursor 0 0 false s else s.

Definition do_alternate_off (restore : bool) (s : Screen) : Screen :=
  let s := clear_selected_cells s in
  let saved_cursor :=
    if restore then
      match saved_cursor_x s, saved_cursor_y s with
      | Some x, Some y => Some (x, y, saved_cursor_pending_wrap s)
      | _, _ => None
      end
    else None in
  match saved_grid s with
  | None =>
      match saved_cursor with
      | Some (x, y, wrap) => restore_cursor_position x y wrap s
      | None => s
      end
  | Some saved =>
      let s := with_saved_grid None s in
      let '(cols, rows) := grid_size (s_grid s) in
      let '(saved_cols, saved_rows) := grid_size (sg_grid saved) in
      let '(x, y, wrap) := default (s_cursor_x s, s_cursor_y s, s_pending_wrap s) saved_cursor in
      let s := on_grid (fun g => set_history_enabled (sg_history_enabled saved)
                 (restore_visible_at_size saved_cols saved_rows (visible (sg_grid saved)) COLOUR_DEFAULT g)) s in
      screen_resize cols rows (restore_cursor_position x y wrap s)
  end.

(** ** Tabs *)

(** The first tab stop from column [x] on. *)
Fixpoint next_tab (stops : list bool) (x : nat) : option nat :=
  match stops with
  | [] => None
  | stop :: stops => if stop then Some x else next_tab stops (x + 1)
  end.

Definition do_tab (s : Screen) : Screen :=
  let s := clear_pending_wrap s in
  let start := cursor_column s + 1 in
  with_x (default (screen_sx s - 1) (next_tab (drop start (tabs s)) start)) s.

(** The last tab stop before column [x]. *)
Fixpoint previous_tab (stops : list bool) (x : nat) : nat :=
  match x with
  | O => 0
  | S x => if default false (stops !! x) then x else previous_tab stops x
  end.

(** [self.tabs[index]] for the columns left of the cursor *)
Fixpoint backward_tabs (n : nat) (stops : list bool) (current : nat) : option nat :=
  match n with
  | O => Some current
  | S n =>
      if current =? 0 then Some 0
      else if length stops <? current then None
      else backward_tabs n stops (previous_tab stops current)
  end.

Definition cursor_backward_tab_steps (n : Z) (current : nat) : nat := count_upto n (current + 1).

Definition do_cursor_backward_tab (n : Z) (s : Screen) : option Screen :=
  let s := clear_pending_wrap s in
  let current := cursor_column s in
  x ← backward_tabs (cursor_backward_tab_steps n current) (tabs s) current;
  Some (with_x x s).

(** ** Cursor *)

Definition do_cursor_up (n : Z) (s : Screen) : Screen :=
  let s := clear_pending_wrap s in
  let minimum := if rupper s <=? s_cursor_y s then rupper s else 0 in
  with_y ((s_cursor_y s - Z.to_nat n) `max` minimum) s.

Definition do_cursor_down (n : Z) (s : Screen) : Screen :=
  let s := clear_pending_wrap s in
  let maximum := if s_cursor_y s <=? rlower s then rlower s else screen_sy s - 1 in
  with_y ((s_cursor_y s + Z.to_nat n) `min` maximum) s.

Definition do_cursor_move (col row : Z) (origin_mode : bool) (s : Screen) : Screen :=
  let s := clear_pending_wrap s in
  let '(min_y, max_y) :=
    if origin_mode && has_mode (s_mode s) MODE_ORIGIN then (rupper s, rlower s) else (0, screen_sy s - 1) in
  let s := if (0 <=? col)%Z then with_x (Z.to_nat col `min` (screen_sx s - 1)) s else s in
  if (0 <=? row)%Z then with_y ((min_y + Z.to_nat row) `min` max_y) s else s.

Definition do_backspace (s : Screen) : Screen :=
  let s := clear_pending_wrap s in
  let x := cursor_column s in
  if 0 <? x then with_x (x - 1) s
  else
    match s_cursor_y s with
    | O => s
    | S y =>
        match visible (s_grid s) !! y with
        | Some l => if is_wrapped l then with_cursor (max_cursor_x s) y (s_pending_wrap s) s else s
        | None => s
        end
    end.

Definition do_set_scroll_region (top bottom : Z) (s : Screen) : Screen :=
  let max_y := screen_sy s - 1 in
  let top := Z.to_nat top `min` max_y in
  let bottom := Z.to_nat bottom `min` max_y in
  if bottom <=? top then s else with_region top bottom (with_cursor 0 0 false s).

(** ** Erasing *)

Definition do_clear_end_of_screen (bg : Z) (s : Screen) : Screen :=
  if (s_cursor_y s =? 0) && (cursor_column s =? 0)
  then on_grid (clear_visible_to_history now COLOUR_DEFAULT) (clear_selected_cells s)
  else
    let x := cursor_column s in
    let s := if s_cursor_y s <? screen_sy s then clear_line_range (s_cursor_y s) x (screen_sx s - 1) bg s else s in
    if s_cursor_y s + 1 <? screen_sy s
    then clear_screen_region (s_cursor_y s + 1) (screen_sy s - 1) COLOUR_DEFAULT s else s.

Definition do_clear_start_of_screen (bg : Z) (s : Screen) : Screen :=
  let s := match s_cursor_y s with O => s | S y => clear_screen_region 0 y COLOUR_DEFAULT s end in
  clear_line_range (s_cursor_y s) 0 (cursor_column s) bg s.

Definition do_alignment_test (s : Screen) : Screen :=
  let s := with_region 0 (screen_sy s - 1) (clear_selected_cells s) in
  let fill l :=
    touch (set_wrapped false
      (fold_left (fun l x => cell_mut x (fun _ => from_state 69 1 default_cell_state 0) l) (seq 0 (screen_sx s)) l)) in
  on_grid (fun g => fold_left (fun g y => visible_line_mut y fill g) (seq 0 (screen_sy s)) g) s.

Definition do_full_reset (s : Screen) : Screen :=
  let s := clear_selected_cells s in
  let s := if is_alternate s then do_alternate_off false s else s in
  let s := with_cursor 0 0 false s in
  let s := with_region 0 (screen_sy s - 1) s in
  let s := with_mode (Z.lor (Z.lor MODE_CURSOR MODE_WRAP) (Z.land (s_mode s) MODE_CRLF)) s in
  let s := reset_tabs (on_grid (clear_visible COLOUR_DEFAULT) s) in
  let s := with_links (hyperlinks_reset (hyperlinks s)) 0 (with_title_stack [] s) in
  bump_metadata_revision s.

(** ** Operating system commands *)

(** [str::split_once] at a one-byte character *)
Fixpoint split_once (sep : Z) (data : list Z) : option (list Z * list Z) :=
  match data with
  | [] => None
  | b :: rest =>
      if (b =? sep)%Z then Some ([], rest)
      else '(before, after) ← split_once sep rest; Some (b :: before, after)
  end.

Definition strip_prefix (prefix data : list Z) : option (list Z) :=
  if bool_decide (take (length prefix) data = prefix) then Some (drop (length prefix) data) else None.

(** The id, from the last [id=] parameter, and the address. *)
Definition parse_hyperlink (data : list Z) : option (list Z) * list Z :=
  let '(params, address) := default (data, []) (split_once 59 data) in
  (fold_left (fun id part => match strip_prefix [105; 100; 61]%Z part with Some value => Some value | None => id end)
     (split_on 58 params) None, address).

Definition do_osc_hyperlink (data : list Z) (s : Screen) : Screen :=
  let '(id, address) := parse_hyperlink data in
  match address with
  | [] => bump_metadata_revision (with_links (hyperlinks s) 0 s)
  | _ => let '(n, links) := put address id (hyperlinks s) in bump_metadata_revision (with_links links n s)
  end.

(** Index and value, two fields at a time. *)
Fixpoint osc_palette_loop (fields : list (list Z)) (s : Screen) : Screen :=
  match fields with
  | index :: value :: fields =>
      let s :=
        if bool_decide (value = [63]%Z) then
          match palette_index_parse index with
          | Some n => push_terminal_passthrough (palette_query n) s
          | None => s
          end
        else s in
      osc_palette_loop fields s
  | _ => s
  end.

Definition do_osc_clipboard (data : list Z) (end_ : InputEndType) (s : Screen) : Screen :=
  let sequence := ([27; 93; 53; 50; 59] ++ data ++ match end_ with Bel => [7] | St => [27; 92] end)%Z in
  match split_once 59 data with
  | Some (field, [63%Z]) => push_terminal_passthrough (clipboard_query_event (clipboard_query_new field end_) sequence) s
  | _ => push_terminal_passthrough (clipboard sequence) s
  end.

Definition do_push_title (s : Screen) : Screen :=
  if negb (title_rename_enabled s) then s
  else
    let stack := drop (length (title_stack s) + 1 - TITLE_STACK_MAX) (title_stack s) in
    bump_metadata_revision (with_title_stack (stack ++ [title s]) s).

Definition do_pop_title (s : Screen) : Screen :=
  if negb (title_rename_enabled s) then s
  else
    match last (title_stack s) with
    | Some t => bump_metadata_revision (with_title_stack (take (length (title_stack s) - 1) (title_stack s)) (with_title t s))
    | None => s
    end.

(** ** The [ScreenWriter] methods *)

Definition write_screen (c : WriterCall) (s : Screen) : option Screen :=
  match c with
  | collect_add ch cell => write_char ch cell false s
  | collect_add_with_charset ch cell acs => write_char ch cell acs s
  | collect_add_ascii_run bytes cell acs => do_ascii_run bytes cell acs s
  | cursor_up n => Some (do_cursor_up n s)
  | cursor_down n => Some (do_cursor_down n s)
  | cursor_left n => let s := clear_pending_wrap s in Some (with_x (cursor_column s - Z.to_nat n) s)
  | cursor_right n => let s := clear_pending_wrap s in Some (with_x ((cursor_column s + Z.to_nat n) `min` max_cursor_x s) s)
  | cursor_move col row origin_mode => Some (do_cursor_move col row origin_mode s)
  | insert_line n bg => do_insert_line n bg s
  | delete_line n bg => do_delete_line n bg s
  | scroll_up n bg => do_scroll_up n bg s
  | scroll_down n bg => do_scroll_down n bg s
  | linefeed wrapped bg => do_linefeed wrapped bg s
  | reverse_index bg => do_reverse_index bg s
  | carriage_return => Some (with_cursor 0 (s_cursor_y s) false s)
  | backspace => Some (do_backspace s)
  | insert_character n bg => Some (do_insert_character n bg s)
  | delete_character n bg => Some (do_delete_character n bg s)
  | clear_character n bg => Some (do_clear_character n bg s)
  | clear_end_of_screen bg => Some (do_clear_end_of_screen bg s)
  | clear_start_of_screen bg => Some (do_clear_start_of_screen bg s)
  | clear_screen _ => Some (on_grid (clear_visible_to_history now COLOUR_DEFAULT) (clear_selected_cells s))
  | clear_history => Some (on_grid grid_clear_history (clear_selected_cells s))
  | clear_end_of_line bg => Some (clear_line_range (s_cursor_y s) (cursor_column s) (screen_sx s - 1) bg s)
  | clear_start_of_line bg => Some (clear_line_range (s_cursor_y s) 0 (cursor_column s) bg s)
  | clear_line bg => Some (clear_line_range (s_cursor_y s) 0 (screen_sx s - 1) bg s)
  | mode_set bits => Some (with_mode (Z.lor (s_mode s) bits) s)
  | mode_clear bits =>
      let s := with_mode (Z.ldiff (s_mode s) bits) s in
      Some (if wrap_mode s then s else clear_pending_wrap s)
  | set_scroll_region top bottom => Some (do_set_scroll_region top bottom s)
  | alternate_on bg save => Some (do_alternate_on bg save s)
  | alternate_off _ restore => Some (do_alternate_off restore s)
  | tab => Some (do_tab s)
  | cursor_backward_tab n => do_cursor_backward_tab n s
  | set_tab_stop => Some (with_tabs (alter (fun _ => true) (cursor_column s) (tabs s)) s)
  | clear_tab_stop => Some (with_tabs (alter (fun _ => false) (cursor_column s) (tabs s)) s)
  | clear_all_tab_stops => Some (with_tabs (map (fun _ => false) (tabs s)) s)
  | set_title t => Some (if title_rename_enabled s then screen_set_title t s else s)
  | set_window_name name =>
      Some (if title_rename_enabled s && negb (bool_decide (window_name s = name))
            then bump_metadata_revision (with_window_name name s) else s)
  | set_path p => Some (if bool_decide (path s = p) then s else bump_metadata_revision (with_path p s))
  | save_cursor => Some (with_saved_cursor (Some (s_cursor_x s)) (Some (s_cursor_y s)) (s_pending_wrap s) s)
  | restore_cursor =>
      Some (match saved_cursor_x s, saved_cursor_y s with
            | Some x, Some y => restore_cursor_position x y (saved_cursor_pending_wrap s) s
            | _, _ => s
            end)
  | alignment_test => Some (do_alignment_test s)
  | full_reset => Some (do_full_reset s)
  | start_sync => Some (with_mode (Z.lor (s_mode s) MODE_SYNC) s)
  | stop_sync => Some (with_mode (Z.ldiff (s_mode s) MODE_SYNC) s)
  | set_cursor_style n => Some (with_cursor_style n s)
  | osc_hyperlink data => Some (do_osc_hyperlink data s)
  | bell => Some (with_bell_count (u64_sat_add (bell_count s) 1) s)
  | apc_passthrough data =>
      Some (push_terminal_passthrough (kitty_graphics (Z.of_nat (s_cursor_x s)) (Z.of_nat (s_cursor_y s)) data) s)
  | dcs_passthrough data => Some (push_terminal_passthrough (raw (Z.of_nat (s_cursor_x s)) (Z.of_nat (s_cursor_y s)) data) s)
  | sixel_passthrough data => Some (push_terminal_passthrough (sixel (Z.of_nat (s_cursor_x s)) (Z.of_nat (s_cursor_y s)) data) s)
  | push_title => Some (do_push_title s)
  | pop_title => Some (do_pop_title s)
  | osc_palette data _ => Some (osc_palette_loop (split_on 59 data) s)
  | osc_clipboard data end_ => Some (do_osc_clipboard data end_ s)
  | collect_end | reset_attributes | osc_notification _ | osc_fg_colour _ _ | osc_bg_colour _ _ | osc_cursor_colour _ _
  | osc_reset_palette _ | osc_reset_fg | osc_reset_bg | osc_reset_cursor | osc_shell_integration _
  | notify_pane_title_changed => Some s
  end.

(** What the screen answers; a screen that panicked answers nothing that is read. *)
Definition read {A} (f : Screen -> A) (d : A) (m : option Screen) : A := match m with Some s => f s | None => d end.

Definition Screen_writer : ScreenWriter (option Screen) := {|
  write c m := s ← m; write_screen c s;
  current_hyperlink_id := read active_hyperlink 0%Z;
  screen_size_x := read (fun s => Z.of_nat (screen_sx s)) 0%Z;
  screen_size_y := read (fun s => Z.of_nat (screen_sy s)) 0%Z;
  cursor_x := read (fun s => Z.of_nat (s_cursor_x s)) 0%Z;
  cursor_y := read (fun s => Z.of_nat (s_cursor_y s)) 0%Z;
  current_mode := read s_mode 0%Z
|}.

(** ** The other public operations *)

Definition delete_visible_line (y : nat) (s : Screen) : option (bool * Screen) :=
  if screen_sy s <=? y then Some (false, s)
  else
    let '(x, cy, upper, lower) := (s_cursor_x s, s_cursor_y s, rupper s, rlower s) in
    let s := with_region 0 (screen_sy s - 1) (with_cursor 0 y false s) in
    s ← do_delete_line 1 COLOUR_DEFAULT s;
    let cy := (if y <? cy then cy - 1 else cy) `min` (screen_sy s - 1) in
    Some (true, with_region upper lower (with_cursor (x `min` (screen_sx s - 1)) cy false s)).

Definition delete_absolute_line (y : nat) (s : Screen) : bool * Screen :=
  let history_size := length (history (s_grid s)) in
  let '(removed, g) := remove_absolute_line y (s_grid s) in
  if negb removed then (false, s)
  else
    let s := with_grid g s in
    let cy := if (history_size <=? y) && (y - history_size <? s_cursor_y s) then s_cursor_y s - 1 else s_cursor_y s in
    (true, with_cursor (s_cursor_x s) cy false s).

Definition trim_below_cursor (s : Screen) : bool * Screen :=
  let cursor_absolute_y := length (history (s_grid s)) + s_cursor_y s in
  let '(done, g) := truncate_after_absolute_line cursor_absolute_y (s_grid s) in
  if negb done then (false, s)
  else
    let s := with_grid g s in
    let cy := (cursor_absolute_y - length (history (s_grid s))) `min` (screen_sy s - 1) in
    (true, with_cursor (s_cursor_x s `min` max_cursor_x s) cy false s).

Definition take_bell_count (s : Screen) : Z * Screen := (bell_count s, with_bell_count 0 s).

Definition take_terminal_passthrough (s : Screen) : list TerminalPassthrough * Screen :=
  (terminal_passthrough s, with_passthrough [] (dropped_terminal_passthrough_count s) s).

Definition take_terminal_passthrough_dropped_count (s : Screen) : Z * Screen :=
  (dropped_terminal_passthrough_count s, with_passthrough (terminal_passthrough s) 0 s).

Definition set_history_limit (limit : nat) (s : Screen) : Screen := on_grid (set_hlimit limit) s.

Definition clear_history_and_hyperlinks (reset_links : bool) (s : Screen) : Screen :=
  let s := on_grid grid_clear_history (clear_selected_cells s) in
  if reset_links then bump_metadata_revision (with_links (hyperlinks_reset (hyperlinks s)) (active_hyperlink s) s) else s.

Definition clone_recovery_state (s : Screen) : Screen := with_selected false (with_passthrough [] 0 (with_bell_count 0 s)).

Definition plain_output_forwarding_safe (s : Screen) : bool :=
  negb (s_pending_wrap s) && wrap_mode s
  && negb (has_mode (s_mode s) (Z.lor (Z.lor MODE_INSERT MODE_CRLF) MODE_SYNC))
  && (rupper s =? 0) && (rlower s =? screen_sy s - 1).

End Writer.
