(* ===== verification/ScreenInv.v ===== *)
(** * The invariant of the screen

    The cursor is on the screen, the scroll region is a range of its rows, there
    is a tab stop flag per column, and the grid, the saved grid and the queues
    are within their bounds.  Every method of [ScreenWriter] and every other
    operation keeps this and does not panic. *)

From S2P Require Import Prelude Utf8 InputCell Passthrough ScreenWriter GridCell GridLine GridLineInv GridReflow GridReflowText Grid GridInv GridResize Utf8Width Vis Hyperlinks Screen.

#[local] Open Scope nat_scope.

(** What a screen keeps while another program has the alternate screen: its size,
    the grid it came from and the cursor it will return to. *)
Record ScreenFrame : Type := mkFrame {
  frame_cols : nat;
  frame_rows : nat;
  frame_saved : option SavedGrid;
  frame_cursor : option nat * option nat * bool
}.

Definition screen_frame (s : Screen) : ScreenFrame :=
  mkFrame (screen_sx s) (screen_sy s) (saved_grid s) (saved_cursor_x s, saved_cursor_y s, saved_cursor_pending_wrap s).

(** [F] is the frame the screen has, where that is known. *)
Record screen_ok_at (F : option ScreenFrame) (s : Screen) : Prop := {
  so_grid : grid_ok (s_grid s);
  so_x : s_cursor_x s < screen_sx s;
  so_y : s_cursor_y s < screen_sy s;
  so_region : rupper s <= rlower s /\ rlower s < screen_sy s;
  so_tabs : length (tabs s) = screen_sx s;
  so_stack : length (title_stack s) <= TITLE_STACK_MAX;
  so_passthrough : length (terminal_passthrough s) <= MAX_TERMINAL_PASSTHROUGH_EVENTS;
  so_saved : match saved_grid s with
    | Some saved => grid_ok (sg_grid saved) /\ history_enabled (s_grid s) = false
    | None => True
    end;
  so_frame : match F with Some f => screen_frame s = f | None => True end
}.

#[global] Arguments so_grid {F} s _.
#[global] Arguments so_x {F} s _.
#[global] Arguments so_y {F} s _.
#[global] Arguments so_region {F} s _.
#[global] Arguments so_tabs {F} s _.
#[global] Arguments so_stack {F} s _.
#[global] Arguments so_passthrough {F} s _.
#[global] Arguments so_saved {F} s _.
#[global] Arguments so_frame {F} s _.

(** The invariant, whatever the frame is. *)
Notation screen_is_ok := (screen_ok_at None).

(** An operation that does not panic. *)
Definition safe_at (F : option ScreenFrame) (m : option Screen) : Prop := exists s, m = Some s /\ screen_ok_at F s.

Lemma screen_ok_frame F s : screen_ok_at F s -> screen_ok_at (Some (screen_frame s)) s.
Proof. intros []. by constructor. Qed.

Lemma screen_ok_weaken F s : screen_ok_at F s -> screen_is_ok s.
Proof. intros []. by constructor. Qed.

(** ** Lines *)

Lemma row_ok_fold {A} n (f : GridLine -> A -> GridLine) (xs : list A) l :
  (forall l x, row_ok n l -> row_ok n (f l x)) -> row_ok n l -> row_ok n (fold_left f xs l).
Proof. intros Hf. revert l. induction xs as [|x xs IH]; intros l Hl; simpl; [done|]. by apply IH, Hf. Qed.

Lemma row_ok_fold_pair {A B} n (f : B * GridLine -> A -> B * GridLine) (xs : list A) p :
  (forall p x, row_ok n p.2 -> row_ok n (f p x).2) -> row_ok n p.2 -> row_ok n (fold_left f xs p).2.
Proof. intros Hf. revert p. induction xs as [|x xs IH]; intros p Hp; simpl; [done|]. by apply IH, Hf. Qed.

Lemma deselect_line_ok n width l : row_ok n l -> row_ok n (deselect_line width l).
Proof.
  intros Hl. unfold deselect_line.
  assert (row_ok n (fold_left deselect_cell (seq 0 width) (false, l)).2) as H.
  { apply row_ok_fold_pair; [|done]. intros [t l'] x Hl'. simpl in *. apply materialize_ok in Hl'.
    destruct (cells _ !! x) as [c|]; [|done]. destruct (flags_contains _ _); simpl; [by apply cell_mut_ok|done]. }
  destruct (fold_left deselect_cell (seq 0 width) (false, l)) as [t l']. by apply touch_if_ok.
Qed.

Lemma select_cells_ok n owner width l : row_ok n l -> row_ok n (select_cells owner width l).2.
Proof.
  intros Hl. unfold select_cells. apply (row_ok_fold_pair n); [|done]. intros [t l'] x Hl'. simpl in *. apply materialize_ok in Hl'.
  destruct (cells _ !! _); simpl; [by apply cell_mut_ok|done].
Qed.

Lemma select_loop_ok n fuel stop x t l : row_ok n l -> row_ok n (select_loop fuel stop x t l).2.
Proof.
  revert x t l. induction fuel as [|fuel IH]; intros x t l Hl; simpl; [done|]. destruct (stop <? x); [done|].
  pose proof (select_cells_ok n (default x (owning_cell_x l x))
    (match cell_at l (default x (owning_cell_x l x)) with Some c => cell_width c `max` 1 | None => 1 end) l Hl) as Hs.
  destruct (select_cells _ _ l) as [t' l']. by apply IH.
Qed.

Lemma repair_loop_ok n fuel width blank x changed l : row_ok n l -> row_ok n (repair_loop fuel width blank x changed l).2.
Proof.
  revert x changed l. induction fuel as [|fuel IH]; intros x changed l Hl; simpl; [done|]. destruct (width <=? x); [done|].
  destruct (cell_at l x) as [c|]; [|by apply IH]. destruct (is_padding c).
  - destruct (owning_cell_x l x); [by apply IH|]. by apply IH, cell_mut_ok.
  - destruct (_ <=? 1); [by apply IH|]. destruct (_ && _); [by apply IH|]. by apply IH, cell_mut_ok.
Qed.

Lemma repair_ok n width bg l : row_ok n l -> row_ok n (repair_wide_cells_on_line width bg l).
Proof.
  intros Hl. unfold repair_wide_cells_on_line. pose proof (repair_loop_ok n width width (blank_with_bg bg) 0 false l Hl) as H.
  destruct (repair_loop _ _ _ _ _ _) as [c l']. by apply touch_if_ok.
Qed.

Lemma clear_padding_ok n fuel width x l : row_ok n l -> row_ok n (clear_padding_loop fuel width x l).
Proof.
  revert x l. induction fuel as [|fuel IH]; intros x l Hl; simpl; [done|]. destruct (_ && _); [|done]. by apply IH, cell_mut_ok.
Qed.

Lemma overwrite_line_ok n columns x width l : row_ok n l -> row_ok n (overwrite_line columns x width l).
Proof.
  intros Hl. unfold overwrite_line. apply touch_ok.
  set (l1 := if is_padding_cell l x then _ else l). assert (row_ok n l1) as H1.
  { unfold l1. destruct (is_padding_cell l x); [|done]. destruct (owning_cell_x l x) as [o|]; [|done].
    destruct (o =? x); [done|by apply cell_mut_ok]. }
  destruct (_ || _); [by apply clear_padding_ok|done].
Qed.

Lemma blank_columns_ok n start stop bg l : row_ok n l -> row_ok n (blank_columns start stop bg l).
Proof. intros Hl. apply row_ok_fold; [|done]. intros l' x. apply cell_mut_ok. Qed.

Lemma put_char_ok n x width ch cell l : row_ok n l -> row_ok n (put_char x width ch cell l).
Proof.
  intros Hl. unfold put_char. apply touch_ok, row_ok_fold; [|by apply cell_mut_ok]. intros l' o. apply cell_mut_ok.
Qed.

#[export] Hint Resolve deselect_line_ok repair_ok overwrite_line_ok blank_columns_ok put_char_ok materialize_ok : rmux.

Section Frame.

Context {F : option ScreenFrame}.

Notation screen_ok := (screen_ok_at F).
Notation safe := (safe_at F).

Lemma safe_ret s : screen_ok s -> safe (Some s).
Proof. intros H. by exists s. Qed.

Lemma safe_bind (m : option Screen) (k : Screen -> option Screen) :
  safe m -> (forall s, screen_ok s -> safe (k s)) -> safe (m ≫= k).
Proof. intros (s & -> & Hs) Hk. by apply Hk. Qed.

(** ** The grid of a screen *)

Lemma with_grid_ok g s : screen_ok s -> grid_step (s_grid s) g -> screen_ok (with_grid g s).
Proof.
  intros [Hg Hx Hy Hr Ht Hst Hp Hs Hf] [Hok [F1 F2 F3 F4]]. unfold screen_frame, screen_sx, screen_sy in *.
  constructor; unfold screen_frame, screen_sx, screen_sy; simpl; rewrite ?F1, ?F2; try done.
  destruct (saved_grid s); [|done]. by rewrite F4.
Qed.

Lemma on_grid_ok f s : screen_ok s -> (forall g, grid_ok g -> grid_step g (f g)) -> screen_ok (on_grid f s).
Proof. intros Hs Hf. apply with_grid_ok; [done|]. apply Hf, Hs. Qed.

Lemma on_grid_checked_safe f s : screen_ok s -> grid_safe (s_grid s) (f (s_grid s)) -> safe (on_grid_checked f s).
Proof. intros Hs (g & Hf & Hg). unfold on_grid_checked. rewrite Hf. simpl. by apply safe_ret, with_grid_ok. Qed.

Lemma fold_rows_step (f : nat -> Grid -> Grid) ys g :
  grid_ok g -> (forall y g', grid_ok g' -> sx g' = sx g -> grid_step g' (f y g')) ->
  grid_step g (fold_left (fun g y => f y g) ys g).
Proof.
  intros Hg Hf. assert (forall g', grid_step g g' -> grid_step g (fold_left (fun g y => f y g) ys g')) as H.
  { induction ys as [|y ys IH]; intros g' Hg'; simpl; [done|]. apply IH. eapply grid_step_trans; [done|].
    apply Hf; [apply Hg'|]. by destruct Hg' as [_ [? _ _ _]]. }
  apply H. by split.
Qed.

Lemma visible_line_step y f g : grid_ok g -> (forall n l, row_ok n l -> row_ok n (f l)) -> grid_step g (visible_line_mut y f g).
Proof. intros Hg Hf. apply visible_line_mut_step; [done|]. intros l. apply Hf. Qed.

Lemma current_line_mut_ok f s : screen_ok s -> (forall n l, row_ok n l -> row_ok n (f l)) -> screen_ok (current_line_mut f s).
Proof. intros Hs Hf. apply on_grid_ok; [done|]. intros g Hg. by apply visible_line_step. Qed.

(** A change of anything but the grid, the cursor and the bounded parts. *)
Ltac screen_record :=
  let H := fresh in intros H; destruct H; constructor; unfold screen_frame, screen_sx, screen_sy in *; simpl; try done.

Lemma with_cursor_ok x y wrap s : screen_ok s -> x < screen_sx s -> y < screen_sy s -> screen_ok (with_cursor x y wrap s).
Proof. screen_record. Qed.

Lemma with_region_ok upper lower s : screen_ok s -> upper <= lower -> lower < screen_sy s -> screen_ok (with_region upper lower s).
Proof. screen_record. Qed.

Lemma with_tabs_ok v s : screen_ok s -> length v = screen_sx s -> screen_ok (with_tabs v s).
Proof. screen_record. Qed.

Lemma with_saved_cursor_ok x y w s : F = None -> screen_ok s -> screen_ok (with_saved_cursor x y w s).
Proof. intros HF. screen_record. by rewrite HF. Qed.
Lemma with_screen_saved_state_ok v s : screen_ok s -> screen_ok (with_screen_saved_state v s).
Proof. screen_record. Qed.
Lemma with_mode_ok v s : screen_ok s -> screen_ok (with_mode v s).
Proof. screen_record. Qed.
Lemma with_cursor_style_ok v s : screen_ok s -> screen_ok (with_cursor_style v s).
Proof. screen_record. Qed.
Lemma with_title_ok v s : screen_ok s -> screen_ok (with_title v s).
Proof. screen_record. Qed.
Lemma with_window_name_ok v s : screen_ok s -> screen_ok (with_window_name v s).
Proof. screen_record. Qed.
Lemma with_path_ok v s : screen_ok s -> screen_ok (with_path v s).
Proof. screen_record. Qed.
Lemma with_links_ok v a s : screen_ok s -> screen_ok (with_links v a s).
Proof. screen_record. Qed.
Lemma with_metadata_revision_ok v s : screen_ok s -> screen_ok (with_metadata_revision v s).
Proof. screen_record. Qed.
Lemma with_bell_count_ok v s : screen_ok s -> screen_ok (with_bell_count v s).
Proof. screen_record. Qed.
Lemma with_selected_ok v s : screen_ok s -> screen_ok (with_selected v s).
Proof. screen_record. Qed.
Lemma with_title_stack_ok v s : screen_ok s -> length v <= TITLE_STACK_MAX -> screen_ok (with_title_stack v s).
Proof. screen_record. Qed.
Lemma with_passthrough_ok v d s : screen_ok s -> length v <= MAX_TERMINAL_PASSTHROUGH_EVENTS -> screen_ok (with_passthrough v d s).
Proof. screen_record. Qed.
Lemma with_utf8_config_ok v s : screen_ok s -> screen_ok (with_utf8_config v s).
Proof. screen_record. Qed.
Lemma with_options_ok a b c s : screen_ok s -> screen_ok (with_options a b c s).
Proof. screen_record. Qed.

Lemma with_pending_wrap_ok w s : screen_ok s -> screen_ok (with_pending_wrap w s).
Proof. intros Hs. apply with_cursor_ok; [done|apply Hs|apply Hs]. Qed.

Lemma with_x_ok x s : screen_ok s -> x < screen_sx s -> screen_ok (with_x x s).
Proof. intros Hs Hx. apply with_cursor_ok; [done|done|apply Hs]. Qed.

Lemma with_y_ok y s : screen_ok s -> y < screen_sy s -> screen_ok (with_y y s).
Proof. intros Hs Hy. apply with_cursor_ok; [done|apply Hs|done]. Qed.

Lemma screen_size_pos s : screen_ok s -> 1 <= screen_sx s /\ 1 <= screen_sy s.
Proof. intros Hs. pose proof (ok_sx _ (so_grid s Hs)). pose proof (ok_sy _ (so_grid s Hs)). unfold screen_sx, screen_sy. lia. Qed.

Lemma cursor_column_lt s : screen_ok s -> cursor_column s < screen_sx s.
Proof. intros Hs. pose proof (screen_size_pos s Hs). unfold cursor_column, max_cursor_x. lia. Qed.

Lemma max_cursor_x_lt s : screen_ok s -> max_cursor_x s < screen_sx s.
Proof. intros Hs. pose proof (screen_size_pos s Hs). unfold max_cursor_x. lia. Qed.

Lemma clear_selected_ok s : screen_ok s -> screen_ok (clear_selected_cells s).
Proof.
  intros Hs. unfold clear_selected_cells. destruct (negb _); [done|]. apply with_selected_ok, with_grid_ok; [done|].
  apply (fold_rows_step (fun y => visible_line_mut y (deselect_line (screen_sx s)))); [apply Hs|].
  intros y g Hg _. apply visible_line_step; [done|]. intros n l. apply deselect_line_ok.
Qed.

(** Clearing the selection changes cells only. *)
Lemma clear_selected_frame s :
  s_cursor_x (clear_selected_cells s) = s_cursor_x s /\ s_cursor_y (clear_selected_cells s) = s_cursor_y s
  /\ s_pending_wrap (clear_selected_cells s) = s_pending_wrap s /\ rupper (clear_selected_cells s) = rupper s
  /\ rlower (clear_selected_cells s) = rlower s /\ saved_grid (clear_selected_cells s) = saved_grid s
  /\ s_mode (clear_selected_cells s) = s_mode s.
Proof. unfold clear_selected_cells. by destruct (negb _). Qed.

End Frame.

#[export] Hint Resolve with_saved_cursor_ok with_screen_saved_state_ok with_mode_ok with_cursor_style_ok with_title_ok
  with_window_name_ok with_path_ok with_links_ok with_metadata_revision_ok with_bell_count_ok with_selected_ok
  with_utf8_config_ok with_options_ok with_pending_wrap_ok clear_selected_ok : rmux.
