(* ===== verification/ScreenSafe.v ===== *)
(** * The screen does not panic

    Every method of [ScreenWriter] that the screen implements, and every other
    operation of [screen.rs], returns a screen that satisfies [screen_ok]. *)

From S2P Require Import Prelude Utf8 InputCell Passthrough ScreenWriter GridCell GridLine GridLineInv GridReflow GridReflowText Grid GridInv GridResize Utf8Width Vis Hyperlinks Screen ScreenInv.

#[local] Open Scope nat_scope.

Section Frame.

Context {F : option ScreenFrame}.

Notation screen_ok := (screen_ok_at F).
Notation safe := (safe_at F).

Lemma clear_pending_wrap_ok s : screen_ok s -> screen_ok (clear_pending_wrap s).
Proof. apply with_pending_wrap_ok. Qed.

Lemma set_wrapped_line_ok b s : screen_ok s -> screen_ok (current_line_mut (set_wrapped b) s).
Proof. intros Hs. apply current_line_mut_ok; [done|]. intros n l. apply set_wrapped_ok. Qed.

Lemma bump_ok s : screen_ok s -> screen_ok (bump_metadata_revision s).
Proof. apply with_metadata_revision_ok. Qed.

Lemma screen_set_title_ok t s : screen_ok s -> screen_ok (screen_set_title t s).
Proof. intros Hs. unfold screen_set_title. destruct (bool_decide _); [done|]. by apply bump_ok, with_title_ok. Qed.

Lemma reset_tabs_ok s : screen_ok s -> screen_ok (reset_tabs s).
Proof. intros Hs. apply with_tabs_ok; [done|]. unfold default_tabs. by rewrite length_map, length_seq. Qed.

Lemma restore_position_ok x y wrap s : screen_ok s -> screen_ok (restore_cursor_position x y wrap s).
Proof.
  intros Hs. pose proof (screen_size_pos s Hs). apply with_cursor_ok; [done| |lia]. pose proof (max_cursor_x_lt s Hs). lia.
Qed.

Lemma push_passthrough_ok p s : screen_ok s -> screen_ok (push_terminal_passthrough p s).
Proof.
  intros Hs. unfold push_terminal_passthrough. destruct (_ <? _)%Z; [apply with_passthrough_ok; [done|apply Hs]|].
  apply with_passthrough_ok; [done|]. pose proof (so_passthrough s Hs) as Hp. rewrite length_app, length_drop. simpl.
  assert (1 <= MAX_TERMINAL_PASSTHROUGH_EVENTS) by (unfold MAX_TERMINAL_PASSTHROUGH_EVENTS; lia). lia.
Qed.

Lemma break_previous_ok s : screen_ok s -> screen_ok (break_previous_wrapped_line s).
Proof.
  intros Hs. unfold break_previous_wrapped_line. destruct (s_cursor_y s) as [|y]; [done|]. apply on_grid_ok; [done|].
  intros g Hg. apply visible_line_step; [done|]. intros n l. apply set_wrapped_ok.
Qed.

Lemma overwrite_for_write_ok x width s : screen_ok s -> screen_ok (overwrite_for_write x width s).
Proof. intros Hs. apply current_line_mut_ok; [done|]. intros n l. apply overwrite_line_ok. Qed.

Lemma clear_line_range_ok y start stop bg s : screen_ok s -> screen_ok (clear_line_range y start stop bg s).
Proof.
  intros Hs. unfold clear_line_range. apply clear_selected_ok in Hs. revert Hs. generalize (clear_selected_cells s). clear s.
  intros s Hs. set (whole := (start =? 0) && _). set (s1 := if whole then _ else s).
  assert (screen_ok s1) as H1.
  { unfold s1. destruct whole; [|done]. apply on_grid_ok; [done|]. intros g. apply break_wrap_step. }
  apply on_grid_ok; [done|]. intros g Hg. apply visible_line_step; [done|]. intros n l Hl.
  apply touch_ok. destruct whole; [apply set_wrapped_ok|]; by apply repair_ok, blank_columns_ok.
Qed.

Lemma clear_region_ok a b bg s : screen_ok s -> screen_ok (clear_screen_region a b bg s).
Proof.
  intros Hs. apply clear_selected_ok in Hs. unfold clear_screen_region. apply on_grid_ok; [done|]. intros g Hg.
  apply (fold_rows_step (fun y g => visible_line_mut y (line_clear bg) (break_wrap_before_visible_line y g))); [done|].
  intros y g' Hg' _. eapply grid_step_trans; [by apply break_wrap_step|].
  apply visible_line_step; [by apply break_wrap_step|]. intros n l. apply line_clear_ok.
Qed.

End Frame.

#[export] Hint Resolve clear_pending_wrap_ok set_wrapped_line_ok bump_ok screen_set_title_ok reset_tabs_ok restore_position_ok
  push_passthrough_ok break_previous_ok overwrite_for_write_ok clear_line_range_ok clear_region_ok : rmux.

Section Writer.

Context {F : option ScreenFrame} (now : Z) (unicode_width : Z -> option nat).

Notation screen_ok := (screen_ok_at F).
Notation safe := (safe_at F).

(** ** Lines *)

Lemma linefeed_safe wrapped bg s : screen_ok s -> safe (do_linefeed now wrapped bg s).
Proof.
  intros Hs. unfold do_linefeed. apply (with_pending_wrap_ok false) in Hs. revert Hs. generalize (with_pending_wrap false s).
  clear s. intros s Hs. set (s1 := if wrapped then _ else s). assert (screen_ok s1) as H1.
  { unfold s1. destruct wrapped; auto with rmux. }
  destruct (_ =? rlower s1); [|destruct (Nat.ltb_spec (s_cursor_y s1) (screen_sy s1 - 1))].
  - apply clear_selected_ok in H1. apply on_grid_checked_safe; [done|]. apply scroll_up_safe, H1.
  - apply safe_ret, with_y_ok; [done|lia].
  - by apply safe_ret.
Qed.

Lemma wrap_to_next_line_safe s : screen_ok s -> safe (wrap_to_next_line now s).
Proof.
  intros Hs. apply safe_bind; [by apply linefeed_safe|]. intros s' Hs'. apply safe_ret, with_x_ok; [done|].
  pose proof (screen_size_pos s' Hs'). lia.
Qed.

Lemma apply_pending_wrap_safe s : screen_ok s -> safe (apply_pending_wrap now s).
Proof.
  intros Hs. unfold apply_pending_wrap. destruct (_ || _); [by apply safe_ret, with_pending_wrap_ok|].
  by apply wrap_to_next_line_safe, with_pending_wrap_ok, set_wrapped_line_ok.
Qed.

Lemma repeat_grid_safe n op s :
  screen_ok s -> (forall g, grid_ok g -> grid_safe g (op g)) -> safe (repeat_grid n op s).
Proof.
  intros Hs Hop. apply on_grid_checked_safe; [done|]. apply grid_safe_iter; [apply Hs|]. intros g Hg. apply Hop, Hg.
Qed.

Lemma insert_line_safe n bg s : screen_ok s -> safe (do_insert_line n bg s).
Proof.
  intros Hs. unfold do_insert_line. apply clear_pending_wrap_ok in Hs. destruct (_ || _); [by apply safe_ret|].
  apply clear_selected_ok in Hs. apply on_grid_checked_safe; [done|]. apply insert_lines_safe, Hs.
Qed.

Lemma delete_line_safe n bg s : screen_ok s -> safe (do_delete_line now n bg s).
Proof.
  intros Hs. unfold do_delete_line. apply clear_pending_wrap_ok in Hs. destruct (_ || _); [by apply safe_ret|].
  apply repeat_grid_safe; [by apply clear_selected_ok|]. intros g. apply scroll_up_safe.
Qed.

Lemma scroll_up_screen_safe n bg s : screen_ok s -> safe (do_scroll_up now n bg s).
Proof. intros Hs. apply repeat_grid_safe; [by apply clear_selected_ok, clear_pending_wrap_ok|]. intros g. apply scroll_up_safe. Qed.

Lemma scroll_down_screen_safe n bg s : screen_ok s -> safe (do_scroll_down n bg s).
Proof. intros Hs. apply repeat_grid_safe; [by apply clear_selected_ok, clear_pending_wrap_ok|]. intros g. apply scroll_down_safe. Qed.

Lemma reverse_index_safe bg s : screen_ok s -> safe (do_reverse_index bg s).
Proof.
  intros Hs. unfold do_reverse_index. apply clear_pending_wrap_ok in Hs. revert Hs. generalize (clear_pending_wrap s). clear s.
  intros s Hs. destruct (_ =? _).
  - apply clear_selected_ok in Hs. apply on_grid_checked_safe; [done|]. apply scroll_down_safe, Hs.
  - destruct (0 <? _); [|by apply safe_ret]. apply safe_ret, with_y_ok; [done|]. pose proof (so_y s Hs). lia.
Qed.

(** ** Characters *)

Lemma insert_character_ok n bg s : screen_ok s -> screen_ok (do_insert_character n bg s).
Proof.
  intros Hs. unfold do_insert_character. apply clear_pending_wrap_ok, clear_selected_ok in Hs. revert Hs.
  generalize (clear_selected_cells (clear_pending_wrap s)). clear s. intros s Hs.
  destruct (Nat.leb_spec (screen_sx s) (logical_insert_column s)); [by apply with_pending_wrap_ok|].
  apply current_line_mut_ok; [by apply with_x_ok|]. intros m l Hl. by apply touch_ok, repair_ok, insert_cells_ok.
Qed.

Lemma delete_character_ok n bg s : screen_ok s -> screen_ok (do_delete_character n bg s).
Proof.
  intros Hs. unfold do_delete_character. apply clear_pending_wrap_ok, clear_selected_ok in Hs. revert Hs.
  generalize (clear_selected_cells (clear_pending_wrap s)). clear s. intros s Hs.
  set (whole := (cursor_column s =? 0) && _). set (s1 := if whole then _ else s). assert (screen_ok s1) as H1.
  { unfold s1. destruct whole; [|done]. apply on_grid_ok; [done|]. intros g. apply break_wrap_step. }
  apply current_line_mut_ok; [done|]. intros m l Hl. apply touch_ok.
  destruct whole; [apply set_wrapped_ok|]; by apply repair_ok, delete_cells_ok.
Qed.

Lemma combined_line_ok n target text width l :
  row_ok n l ->
  row_ok n (let l := materialize_for_cell_mutation l in
            match cells l !! target with
            | None => l
            | Some c =>
                let c := set_width width (set_text text c) in
                let l := cell_mut target (fun _ => c) l in
                touch (if width =? 2 then cell_mut (target + 1) (fun _ => padding_of c) l else l)
            end).
Proof.
  intros Hl. apply materialize_ok in Hl. cbv zeta. destruct (cells _ !! target) as [c|]; [|done].
  apply touch_ok. destruct (width =? 2); [apply cell_mut_ok|]; by apply cell_mut_ok.
Qed.

Lemma combine_char_ok ch s : screen_ok s -> screen_ok (screen_combine_char unicode_width ch s).2.
Proof.
  intros Hs. unfold screen_combine_char. destruct (_ && _); [done|]. cbv zeta.
  destruct (visible (s_grid s) !! s_cursor_y s) as [l|]; [|done].
  set (target := default _ _). set (previous := _ <$> cell_at l target).
  destruct (combine_char _ previous ch _) as [w0|text width|]; [done| |done]. cbn [snd].
  set (w := width `min` _). set (s1 := if w =? _ then s else _).
  assert (screen_ok s1) as H1 by (unfold s1; destruct (w =? _); auto with rmux).
  set (s2 := current_line_mut _ s1). assert (screen_ok s2) as H2.
  { apply current_line_mut_ok; [done|]. intros n l'. apply combined_line_ok. }
  destruct (_ && negb _); [|done]. destruct (Nat.leb_spec (screen_sx s2) (target + 2)).
  - apply with_cursor_ok; [done|by eapply max_cursor_x_lt|apply H2].
  - by apply with_x_ok.
Qed.

Lemma advance_ok x width s : screen_ok s -> screen_ok (advance x width s).
Proof.
  intros Hs. pose proof (max_cursor_x_lt s Hs). unfold advance. destruct (_ && _); apply with_cursor_ok; try done; try apply Hs. lia.
Qed.

Lemma write_at_cursor_ok width ch cell cont s : screen_ok s -> screen_ok (write_at_cursor width ch cell cont s).
Proof.
  intros Hs. unfold write_at_cursor. destruct (_ || _); [done|]. cbv zeta.
  apply advance_ok, current_line_mut_ok; [|intros n l; apply put_char_ok]. apply overwrite_for_write_ok.
  destruct (_ && _); auto with rmux.
Qed.

Lemma insert_mode_column_ok s cont :
  screen_ok s -> exists m, insert_mode_column now s cont = Some m /\ match m with Some (s', _) => screen_ok s' | None => True end.
Proof.
  intros Hs. unfold insert_mode_column. destruct (negb (has_mode _ _)); [by eexists|]. cbv zeta.
  destruct (Nat.leb_spec (screen_sx s) (logical_insert_column s)).
  - destruct (negb (wrap_mode s)); [by eexists|].
    destruct (wrap_to_next_line_safe (current_line_mut (set_wrapped true) s)) as (s' & Hw & Hs'); [auto with rmux|].
    rewrite Hw. by eexists.
  - eexists. split; [done|]. by apply with_x_ok.
Qed.

Lemma write_char_safe ch cell acs s : screen_ok s -> safe (write_char now unicode_width ch cell acs s).
Proof.
  intros Hs. unfold write_char. destruct (_ || _); [by apply safe_ret|]. apply clear_selected_ok in Hs. revert Hs.
  generalize (clear_selected_cells s). clear s. intros s Hs. cbv zeta. set (c := if acs then _ else ch).
  pose proof (combine_char_ok c s Hs) as Hc. destruct (screen_combine_char _ c s) as [combined s1]. cbn [snd] in Hc.
  destruct combined; [by apply safe_ret|]. set (width := _ `min` screen_sx s1).
  apply safe_bind; [by apply apply_pending_wrap_safe|]. intros s2 H2.
  destruct (insert_mode_column_ok s2 (s_pending_wrap s1 && wrap_mode s1) H2) as (m & -> & Hm). simpl.
  destruct m as [[s3 cont]|]; [|by apply safe_ret]. set (crosses := _ || _).
  destruct (_ && crosses); [by apply safe_ret|]. set (s4 := if has_mode _ _ then _ else s3).
  assert (screen_ok s4) as H4 by (unfold s4; destruct (has_mode _ _); [by apply insert_character_ok|done]).
  destruct (wrap_mode s4 && crosses); [|by apply safe_ret, write_at_cursor_ok].
  apply safe_bind; [apply wrap_to_next_line_safe, current_line_mut_ok; [done|]|].
  - intros n l Hl. by apply set_wrapped_ok, mark_unused_ok.
  - intros s5 H5. by apply safe_ret, write_at_cursor_ok.
Qed.

Lemma slow_run_safe bytes cell acs s : screen_ok s -> safe (write_ascii_run_slow now unicode_width bytes cell acs s).
Proof.
  intros Hs. unfold write_ascii_run_slow. apply safe_ret in Hs. revert Hs. generalize (Some s). clear s.
  induction bytes as [|b bytes IH]; intros m Hm; simpl; [done|]. apply IH, safe_bind; [done|]. intros s. apply write_char_safe.
Qed.

Lemma plain_line_ok y x chunk l l' g :
  grid_ok g -> visible g !! y = Some l -> is_ascii chunk = true -> write_plain_ascii_run x chunk l = Some l' ->
  grid_step g (visible_line_mut y (fun _ => l') g).
Proof.
  intros Hg Hl Ha Hw. apply visible_line_mut_step; [done|]. intros _ _. eapply write_plain_ascii_run_ok; [|done|done].
  by apply (Forall_lookup_1 _ _ y l (ok_visible g Hg)).
Qed.

Lemma plain_run_safe fuel bytes cell s :
  screen_ok s -> is_ascii bytes = true -> safe (plain_run_loop now unicode_width fuel bytes cell s).
Proof.
  revert bytes s. induction fuel as [|fuel IH]; intros bytes s Hs Ha; cbn [plain_run_loop]; [by apply safe_ret|].
  destruct bytes as [|b bytes']; [by apply safe_ret|]. revert Ha. generalize (b :: bytes'). intros bytes Ha.
  cbv zeta. generalize (s_pending_wrap s && wrap_mode s). intros cont.
  apply safe_bind; [by apply apply_pending_wrap_safe|]. clear s Hs. intros s Hs.
  destruct (_ <=? _); [by apply slow_run_safe|]. set (x := cursor_column s).
  set (s1 := if (x =? 0) && _ then _ else s). assert (screen_ok s1) as H1 by (unfold s1; destruct (_ && _); auto with rmux).
  clearbody s1. destruct (_ && _); [by apply slow_run_safe|]. destruct (_ =? 0); [by apply slow_run_safe|].
  destruct (visible (s_grid s1) !! s_cursor_y s1) as [l|] eqn:El; [|by apply slow_run_safe]. simpl.
  destruct (write_plain_ascii_run _ _ _) as [l'|] eqn:Ew; [|by apply slow_run_safe].
  apply IH; [|by apply is_ascii_drop]. apply advance_ok. unfold current_line_mut, on_grid.
  apply with_grid_ok; [done|]. eapply plain_line_ok; [apply H1|done| |exact Ew]. by apply is_ascii_take.
Qed.

Lemma ascii_run_safe bytes cell acs s :
  screen_ok s -> is_ascii bytes = true -> safe (do_ascii_run now unicode_width bytes cell acs s).
Proof.
  intros Hs Ha. unfold do_ascii_run. destruct bytes as [|b bytes']; [by apply safe_ret|].
  destruct (_ || _); [by apply slow_run_safe|]. apply plain_run_safe; [by apply clear_selected_ok|done].
Qed.

(** ** Resizing and the alternate screen *)

Lemma with_resized_grid_ok g x y wrap s :
  F = None -> screen_ok s -> grid_ok g -> sy g = screen_sy s -> history_enabled g = history_enabled (s_grid s) ->
  x < sx g -> y < sy g -> screen_ok (reset_tabs (with_cursor x y wrap (with_grid g s))).
Proof.
  intros HF [Hg Hx Hy Hr Ht Hst Hp Hs _] Hok Hsy He Hx' Hy'. unfold screen_sx, screen_sy in *.
  constructor; unfold screen_sx, screen_sy; simpl; rewrite ?Hsy; try done; try lia.
  - unfold default_tabs. by rewrite length_map, length_seq.
  - destruct (saved_grid s); [|done]. by rewrite He.
  - by rewrite HF.
Qed.

(** A grid of another height needs a new scroll region. *)
Lemma with_height_ok g y s :
  F = None -> screen_ok s -> grid_ok g -> sx g = screen_sx s -> history_enabled g = history_enabled (s_grid s) ->
  y < sy g -> screen_ok (with_region 0 (sy g - 1) (with_y y (with_grid g s))).
Proof.
  intros HF [Hg Hx Hy Hr Ht Hst Hp Hs _] Hok Hsx He Hy'. unfold screen_sx, screen_sy in *.
  constructor; unfold screen_sx, screen_sy; simpl; rewrite ?Hsx; try done; try lia.
  - destruct (saved_grid s); [|done]. by rewrite He.
  - by rewrite HF.
Qed.

Lemma resize_width_part_ok cols s :
  F = None -> screen_ok s -> 1 <= cols <= u16_limit ->
  let '(remapped, g) :=
    if is_alternate s
    then resize_visible_width_preserving_cursor cols COLOUR_DEFAULT (s_cursor_y s) (s_cursor_x s) (s_pending_wrap s) (s_grid s)
    else resize_width_remapping_cursor cols COLOUR_DEFAULT
           (logical_cursor (s_cursor_y s) (s_cursor_x s) (s_pending_wrap s) (s_grid s)) (s_grid s) in
  let s' := reset_tabs (apply_grid_cursor remapped (with_grid g s)) in
  screen_ok s' /\ screen_sx s' = cols.
Proof.
  intros HF Hs Hc. set (m := if is_alternate s then _ else _).
  assert (grid_ok m.2 /\ sx m.2 = cols /\ sy m.2 = screen_sy s /\ history_enabled m.2 = history_enabled (s_grid s)) as (H1 & H2 & H3 & H4).
  { unfold m. destruct (is_alternate s).
    - destruct (resize_visible_width_ok cols COLOUR_DEFAULT (s_cursor_y s) (s_cursor_x s) (s_pending_wrap s) (s_grid s))
        as (? & Hw & ? & _ & ? & _); [apply Hs|done|lia|]. rewrite Hw. split_and!; [done|lia|done|done].
    - destruct (resize_width_remapping_ok cols COLOUR_DEFAULT
        (logical_cursor (s_cursor_y s) (s_cursor_x s) (s_pending_wrap s) (s_grid s)) (s_grid s))
        as (? & Hw & ? & ? & _); [apply Hs|done|lia|]. rewrite Hw. split_and!; [done|lia|done|done]. }
  destruct m as [remapped g]. cbn [snd] in *. cbv zeta. split; [|done]. unfold apply_grid_cursor.
  pose proof (screen_size_pos s Hs).
  apply with_resized_grid_ok; try done; unfold max_cursor_x, screen_sx, screen_sy in *; simpl; lia.
Qed.

Lemma screen_resize_ok cols rows s :
  F = None -> screen_ok s -> cols <= u16_limit -> rows <= u16_limit ->
  screen_ok (screen_resize now cols rows s) /\ screen_sx (screen_resize now cols rows s) = cols `max` 1
  /\ screen_sy (screen_resize now cols rows s) = rows `max` 1.
Proof.
  intros HF Hs Hc Hr. pose proof u16_limit_pos. unfold screen_resize. apply clear_selected_ok in Hs. revert Hs.
  generalize (clear_selected_cells s). clear s. intros s Hs. cbv zeta.
  assert (1 <= cols `max` 1 <= u16_limit) as Hc' by lia. assert (1 <= rows `max` 1 <= u16_limit) as Hr' by lia.
  revert Hc' Hr'. clear Hc Hr. generalize (cols `max` 1) (rows `max` 1). clear cols rows. intros cols rows Hc Hr.
  set (s1 := if cols =? screen_sx s then s else _).
  assert (screen_ok s1 /\ screen_sx s1 = cols) as [H1 Hx1].
  { unfold s1. destruct (Nat.eqb_spec cols (screen_sx s)); [done|]. pose proof (resize_width_part_ok cols s HF Hs Hc) as Hw.
    destruct (if is_alternate s then _ else _) as [remapped g]. exact Hw. }
  clearbody s1. set (s2 := with_region 0 (rows - 1) _).
  assert (screen_ok s2 /\ screen_sx s2 = cols /\ screen_sy s2 = rows) as (H2 & Hx2 & Hy2).
  { unfold s2. destruct (Nat.eqb_spec rows (screen_sy s1)) as [->|Hne].
    - split; [|done]. apply with_region_ok; [done|lia|lia].
    - pose proof (resize_height_ok now rows (s_cursor_y s1) COLOUR_DEFAULT (s_grid s1) (so_grid s1 H1)) as Hh.
      destruct (resize_height _ _ _ _ _) as [g y]. destruct Hh as (Hg & Hx & Hy & Hcy & _ & He); [lia|].
      assert (sy g = rows) as Hy' by lia. split; [|split; [simpl; unfold screen_sx in *; simpl; congruence|done]].
      rewrite <- Hy'. apply with_height_ok; [done|done|done|done|done|lia]. }
  clearbody s2. split; [|done]. apply with_pending_wrap_ok, with_x_ok; [done|]. pose proof (max_cursor_x_lt s2 H2). lia.
Qed.

(** The saved grid of a screen that is entering the alternate screen. *)
Lemma enter_alternate_ok saved bg s :
  F = None -> screen_ok s -> grid_ok (sg_grid saved) ->
  screen_ok (on_grid (fun g => set_history_enabled false (clear_visible bg g)) (with_saved_grid (Some saved) s)).
Proof.
  intros HF [Hg Hx Hy Hr Ht Hst Hp Hs _] Hsaved. constructor; try done; [|by rewrite HF]. by apply set_history_enabled_ok, clear_visible_step.
Qed.

Lemma grid_size_ok g : grid_ok g -> grid_size g = (sx g, sy g).
Proof. intros Hg. pose proof (ok_sx g Hg). pose proof (ok_sy g Hg). unfold grid_size. rewrite !u16_saturated_small by lia. done. Qed.

Lemma visible_copy_ok g : grid_ok g -> grid_ok (replace_visible (visible g) (grid_new (sx g) (sy g) 0)).
Proof.
  intros Hg. pose proof (ok_sx g Hg). pose proof (ok_sy g Hg). pose proof (ok_rows g Hg) as Hr.
  apply replace_visible_ok; [apply grid_new_ok; lia|rewrite Hr; lia|]. eapply Forall_impl; [apply Hg|]. apply row_ok_line.
Qed.

Lemma alternate_on_ok bg save s : F = None -> screen_ok s -> screen_ok (do_alternate_on bg save s).
Proof.
  intros HF Hs. unfold do_alternate_on. destruct (_ || _); [done|]. apply clear_selected_ok in Hs. revert Hs.
  generalize (clear_selected_cells s). clear s. intros s Hs. pose proof (visible_copy_ok (s_grid s) (so_grid s Hs)) as Hc.
  rewrite (grid_size_ok _ (so_grid s Hs)). cbv zeta.
  set (saved := mkSavedGrid _ _). assert (grid_ok (sg_grid saved)) as Hsaved by exact Hc. clearbody saved.
  set (s1 := on_grid _ _). assert (screen_ok s1) as H1.
  { unfold s1. destruct save; [|by apply enter_alternate_ok].
    apply (enter_alternate_ok saved bg (with_screen_saved_state _ (with_saved_cursor _ _ _ s))); [done| |done]. auto with rmux. }
  clearbody s1. destruct (_ || _); [|by apply with_pending_wrap_ok]. pose proof (screen_size_pos s1 H1).
  apply with_cursor_ok; [by apply with_pending_wrap_ok|unfold screen_sx in *; simpl; lia|unfold screen_sy in *; simpl; lia].
Qed.

(** A screen whose grid was exchanged: the scroll region and the tab stops are
    those of the old size until the screen is resized. *)
Definition refit (s : Screen) : Screen :=
  with_tabs (if length (tabs s) =? screen_sx s then tabs s else default_tabs (screen_sx s)) (with_region 0 (screen_sy s - 1) s).

Lemma clear_selected_off s : has_selected_cells s = false -> clear_selected_cells s = s.
Proof. intros H. unfold clear_selected_cells. by rewrite H. Qed.

Lemma clear_selected_unselected s : has_selected_cells (clear_selected_cells s) = false.
Proof. unfold clear_selected_cells. by destruct (has_selected_cells s) eqn:E. Qed.

Lemma clear_selected_size s :
  screen_ok s -> screen_sx (clear_selected_cells s) = screen_sx s /\ screen_sy (clear_selected_cells s) = screen_sy s.
Proof.
  intros Hs. unfold clear_selected_cells. destruct (negb _); [done|]. unfold screen_sx, screen_sy. simpl.
  destruct (fold_rows_step (fun y => visible_line_mut y (deselect_line (sx (s_grid s)))) (seq 0 (sy (s_grid s))) (s_grid s)) as [_ []];
    [apply Hs| |done]. intros y g Hg _. apply visible_line_step; [done|]. intros n l. apply deselect_line_ok.
Qed.

Lemma screen_resize_refit cols rows s :
  has_selected_cells s = false -> (screen_sx s = cols `max` 1 -> length (tabs s) = screen_sx s) ->
  screen_resize now cols rows s = screen_resize now cols rows (refit s).
Proof.
  intros Hsel Ht. unfold screen_resize. rewrite (clear_selected_off (refit s)), (clear_selected_off s) by done. cbv zeta.
  change (screen_sx (refit s)) with (screen_sx s). change (is_alternate (refit s)) with (is_alternate s).
  change (s_grid (refit s)) with (s_grid s). change (s_cursor_y (refit s)) with (s_cursor_y s).
  change (s_cursor_x (refit s)) with (s_cursor_x s). change (s_pending_wrap (refit s)) with (s_pending_wrap s).
  destruct (Nat.eqb_spec (cols `max` 1) (screen_sx s)) as [He|He].
  - assert (tabs (refit s) = tabs s) as Htabs by (unfold refit; simpl; rewrite Ht by done; by rewrite Nat.eqb_refl).
    unfold refit in *. simpl in Htabs. rewrite Htabs. change (screen_sy (with_tabs _ _)) with (screen_sy s).
    destruct (rows `max` 1 =? screen_sy s); [done|]. by destruct (resize_height _ _ _ _ _).
  - destruct (if is_alternate s then _ else _) as [remapped g].
    change (screen_sy (reset_tabs (apply_grid_cursor _ (with_grid g _)))) with (sy g).
    destruct (rows `max` 1 =? sy g); [done|]. change (s_grid (reset_tabs (apply_grid_cursor _ (with_grid g _)))) with g.
    change (s_cursor_y (reset_tabs (apply_grid_cursor remapped (with_grid g (refit s)))))
      with (s_cursor_y (reset_tabs (apply_grid_cursor remapped (with_grid g s)))).
    by destruct (resize_height _ _ _ _ _).
Qed.

Lemma refit_ok g x y wrap s :
  F = None -> screen_ok s -> saved_grid s = None -> grid_ok g -> x < sx g -> y < sy g ->
  screen_ok (refit (with_cursor x y wrap (with_grid g s))).
Proof.
  intros HF [Hg Hx Hy Hr Ht Hst Hp Hs _] Hn Hok Hx' Hy'. pose proof (ok_sy g Hok).
  constructor; unfold screen_sx, screen_sy; simpl; try done; try lia.
  - unfold screen_sy. simpl. lia.
  - unfold screen_sx. simpl. destruct (Nat.eqb_spec (length (tabs s)) (sx g)) as [->|_]; [done|].
    unfold default_tabs. by rewrite length_map, length_seq.
  - by rewrite Hn.
  - by rewrite HF.
Qed.

Lemma leave_alternate_ok s : F = None -> screen_ok s -> screen_ok (with_saved_grid None s).
Proof. intros HF []. constructor; try done. by rewrite HF. Qed.

(** The saved rows come back at their size, then the screen is resized to the
    size it has now. *)
Lemma alternate_off_ok restore s :
  F = None -> screen_ok s ->
  screen_ok (do_alternate_off now restore s) /\ screen_sx (do_alternate_off now restore s) = screen_sx s
  /\ screen_sy (do_alternate_off now restore s) = screen_sy s.
Proof.
  intros HF Hs. unfold do_alternate_off. pose proof (clear_selected_unselected s) as Hsel. 
  destruct (clear_selected_size s Hs) as [<- <-].
  apply clear_selected_ok in Hs. revert Hs Hsel. generalize (clear_selected_cells s). clear s.
  intros s Hs Hsel. cbv zeta. set (cur := if restore then _ else None). clearbody cur.
  destruct (saved_grid s) as [saved|] eqn:Es; [|destruct cur as [[[x y] wrap]|]; auto with rmux].
  pose proof (so_saved s Hs) as Hsaved. rewrite Es in Hsaved. destruct Hsaved as [Hsaved _].
  pose proof (ok_sx _ (so_grid s Hs)) as Hsx. pose proof (ok_sy _ (so_grid s Hs)) as Hsy.
  change (s_grid (with_saved_grid None s)) with (s_grid s). rewrite (grid_size_ok _ (so_grid s Hs)), (grid_size_ok _ Hsaved).
  destruct (default _ cur) as [[x y] wrap].
  unfold on_grid. cbv beta. set (g := set_history_enabled (sg_history_enabled saved) _).
  assert (grid_ok g /\ sx g = sx (sg_grid saved) `max` 1 /\ sy g = sy (sg_grid saved) `max` 1) as (Hg & Hgx & Hgy).
  { split; [|done]. pose proof (ok_sx _ Hsaved). pose proof (ok_sy _ Hsaved).
    apply set_history_enabled_ok, restore_visible_ok; [apply Hs|lia|lia|]. eapply Forall_impl; [apply Hsaved|]. apply row_ok_line. }
  rewrite screen_resize_refit; [|done|].
  - destruct (screen_resize_ok (sx (s_grid s)) (sy (s_grid s))
      (refit (restore_cursor_position x y wrap (with_grid g (with_saved_grid None s))))) as (H1 & H2 & H3); [done| |lia|lia|].
    + apply refit_ok; [done|by apply leave_alternate_ok|done|done| |]; unfold max_cursor_x, screen_sx, screen_sy; simpl.
      * pose proof (ok_sx g Hg). lia.
      * pose proof (ok_sy g Hg). lia.
    + split; [exact H1|]. unfold screen_sx, screen_sy in *. split; [rewrite H2; lia|rewrite H3; lia].
  - intros Heq. pose proof (so_tabs s Hs). rewrite Heq. simpl. unfold screen_sx in *. lia.
Qed.

(** ** Tabs and the cursor *)

Lemma next_tab_lt stops x t : next_tab stops x = Some t -> x <= t < x + length stops.
Proof.
  revert x. induction stops as [|[] stops IH]; intros x Ht; simpl in *; [done| |].
  - simplify_eq. lia.
  - apply IH in Ht. lia.
Qed.

Lemma tab_ok s : screen_ok s -> screen_ok (do_tab s).
Proof.
  intros Hs. unfold do_tab. apply clear_pending_wrap_ok in Hs. revert Hs. generalize (clear_pending_wrap s). clear s.
  intros s Hs. pose proof (screen_size_pos s Hs). apply with_x_ok; [done|].
  destruct (next_tab _ _) as [t|] eqn:E; simpl; [|lia]. apply next_tab_lt in E. rewrite length_drop, (so_tabs s Hs) in E. lia.
Qed.

Lemma previous_tab_le stops x : previous_tab stops x <= x.
Proof. induction x as [|x IH]; simpl; [done|]. destruct (default _ _); lia. Qed.

Lemma backward_tabs_spec n stops x : x <= length stops -> exists x', backward_tabs n stops x = Some x' /\ x' <= x.
Proof.
  revert x. induction n as [|n IH]; intros x Hx; simpl; [by exists x|]. destruct (Nat.eqb_spec x 0); [exists 0; split; [done|lia]|].
  destruct (Nat.ltb_spec (length stops) x); [lia|]. pose proof (previous_tab_le stops x).
  destruct (IH (previous_tab stops x)) as (x' & -> & Hx'); [lia|]. exists x'. split; [done|lia].
Qed.

Lemma backward_tab_safe n s : screen_ok s -> safe (do_cursor_backward_tab n s).
Proof.
  intros Hs. unfold do_cursor_backward_tab. apply clear_pending_wrap_ok in Hs. revert Hs. generalize (clear_pending_wrap s). clear s.
  intros s Hs. pose proof (cursor_column_lt s Hs).
  destruct (backward_tabs_spec (cursor_backward_tab_steps n (cursor_column s)) (tabs s) (cursor_column s)) as (x & -> & Hx);
    [rewrite (so_tabs s Hs); lia|]. simpl. apply safe_ret, with_x_ok; [done|lia].
Qed.

Lemma cursor_up_ok n s : screen_ok s -> screen_ok (do_cursor_up n s).
Proof.
  intros Hs. apply clear_pending_wrap_ok in Hs as H1. pose proof (so_y s Hs). pose proof (so_region s Hs).
  apply with_y_ok; [done|]. change (screen_sy (clear_pending_wrap s)) with (screen_sy s). simpl. destruct (_ <=? _); lia.
Qed.

Lemma cursor_down_ok n s : screen_ok s -> screen_ok (do_cursor_down n s).
Proof.
  intros Hs. apply clear_pending_wrap_ok in Hs as H1. pose proof (screen_size_pos s Hs). pose proof (so_region s Hs).
  apply with_y_ok; [done|]. change (screen_sy (clear_pending_wrap s)) with (screen_sy s). simpl. destruct (_ <=? _); lia.
Qed.

Lemma cursor_move_ok col row origin s : screen_ok s -> screen_ok (do_cursor_move col row origin s).
Proof.
  intros Hs. unfold do_cursor_move. apply clear_pending_wrap_ok in Hs. revert Hs. generalize (clear_pending_wrap s). clear s.
  intros s Hs. pose proof (screen_size_pos s Hs). pose proof (so_region s Hs). cbv zeta.
  set (bounds := if origin && _ then _ else _). assert (bounds.2 < screen_sy s) as Hb.
  { unfold bounds. destruct (_ && _); simpl; lia. }
  destruct bounds as [min_y max_y]. simpl in Hb. set (s1 := if (0 <=? col)%Z then _ else s).
  assert (screen_ok s1 /\ screen_sy s1 = screen_sy s) as [H1 H2].
  { unfold s1. destruct (_ <=? col)%Z; [|done]. split; [|done]. apply with_x_ok; [done|lia]. }
  destruct (0 <=? row)%Z; [|done]. apply with_y_ok; [done|lia].
Qed.

Lemma backspace_ok s : screen_ok s -> screen_ok (do_backspace s).
Proof.
  intros Hs. unfold do_backspace. apply clear_pending_wrap_ok in Hs. revert Hs. generalize (clear_pending_wrap s). clear s.
  intros s Hs. pose proof (cursor_column_lt s Hs). pose proof (so_y s Hs) as Hy. cbv zeta.
  destruct (0 <? cursor_column s); [apply with_x_ok; [done|lia]|]. destruct (s_cursor_y s) as [|y] eqn:E; [done|].
  destruct (visible _ !! y) as [l|]; [|done]. destruct (is_wrapped l); [|done].
  apply with_cursor_ok; [done|by eapply max_cursor_x_lt|lia].
Qed.

Lemma set_scroll_region_ok top bottom s : screen_ok s -> screen_ok (do_set_scroll_region top bottom s).
Proof.
  intros Hs. unfold do_set_scroll_region. pose proof (screen_size_pos s Hs). cbv zeta.
  destruct (Nat.leb_spec (Z.to_nat bottom `min` (screen_sy s - 1)) (Z.to_nat top `min` (screen_sy s - 1))); [done|].
  apply with_region_ok; [|lia|unfold screen_sy in *; simpl; lia]. apply with_cursor_ok; [done|lia|lia].
Qed.

(** ** Erasing *)

Lemma clear_to_history_ok bg s : screen_ok s -> screen_ok (on_grid (clear_visible_to_history now bg) (clear_selected_cells s)).
Proof. intros Hs. apply on_grid_ok; [by apply clear_selected_ok|]. intros g. apply clear_to_history_step. Qed.

Lemma clear_end_of_screen_ok bg s : screen_ok s -> screen_ok (do_clear_end_of_screen now bg s).
Proof.
  intros Hs. unfold do_clear_end_of_screen. destruct (_ && _); [by apply clear_to_history_ok|]. cbv zeta.
  set (s1 := if _ <? _ then _ else s). assert (screen_ok s1) as H1 by (unfold s1; destruct (_ <? _); auto with rmux).
  clearbody s1. destruct (_ <? _); auto with rmux.
Qed.

Lemma clear_start_of_screen_ok bg s : screen_ok s -> screen_ok (do_clear_start_of_screen bg s).
Proof.
  intros Hs. unfold do_clear_start_of_screen. cbv zeta. apply clear_line_range_ok. destruct (s_cursor_y s); auto with rmux.
Qed.

Lemma alignment_test_ok s : screen_ok s -> screen_ok (do_alignment_test s).
Proof.
  intros Hs. unfold do_alignment_test. apply clear_selected_ok in Hs as H1. pose proof (screen_size_pos _ H1).
  cbv zeta. apply on_grid_ok.
  - apply with_region_ok; [done|lia|]. destruct (clear_selected_size s Hs). lia.
  - intros g Hg. set (fill := fun l : GridLine => touch _). apply (fold_rows_step (fun y => visible_line_mut y fill)); [done|].
    intros y g' Hg' _. apply visible_line_step; [done|]. intros n l Hl.
    apply touch_ok, set_wrapped_ok, row_ok_fold; [|done]. intros l' x. apply cell_mut_ok.
Qed.

Lemma full_reset_ok s : F = None -> screen_ok s -> screen_ok (do_full_reset now s).
Proof.
  intros HF Hs. unfold do_full_reset. apply clear_selected_ok in Hs. revert Hs. generalize (clear_selected_cells s). clear s.
  intros s Hs. cbv zeta. set (s1 := if is_alternate s then _ else s).
  assert (screen_ok s1) as H1 by (unfold s1; destruct (is_alternate s); [by apply alternate_off_ok|done]). clearbody s1.
  pose proof (screen_size_pos s1 H1) as [? ?]. apply bump_ok, with_links_ok, with_title_stack_ok; [|simpl; lia].
  apply reset_tabs_ok, on_grid_ok; [|intros g; apply clear_visible_step]. apply with_mode_ok.
  apply with_region_ok; [by apply with_cursor_ok|lia|unfold screen_sy in *; simpl; lia].
Qed.

(** ** Operating system commands *)

Lemma hyperlink_ok data s : screen_ok s -> screen_ok (do_osc_hyperlink data s).
Proof.
  intros Hs. unfold do_osc_hyperlink. destruct (parse_hyperlink data) as [id [|b address]]; [auto with rmux|].
  destruct (put _ _ _). auto with rmux.
Qed.

Lemma palette_loop_ok fields s : screen_ok s -> screen_ok (osc_palette_loop fields s).
Proof.
  revert s. remember (length fields) as n eqn:En. revert fields En. induction n as [n IH] using lt_wf_ind.
  intros [|a [|b fields]] En s Hs; [done|done|]. simpl. eapply IH; [|reflexivity|]; [simpl in En; lia|].
  destruct (bool_decide _); [|done]. destruct (palette_index_parse a); auto with rmux.
Qed.

Lemma osc_clipboard_ok data e s : screen_ok s -> screen_ok (do_osc_clipboard data e s).
Proof. intros Hs. unfold do_osc_clipboard. repeat case_match; auto with rmux. Qed.

Lemma push_title_ok s : screen_ok s -> screen_ok (do_push_title s).
Proof.
  intros Hs. unfold do_push_title. destruct (negb _); [done|]. apply bump_ok, with_title_stack_ok; [done|].
  pose proof (so_stack s Hs). assert (1 <= TITLE_STACK_MAX) by (unfold TITLE_STACK_MAX; lia).
  rewrite length_app, length_drop. simpl. lia.
Qed.

Lemma pop_title_ok s : screen_ok s -> screen_ok (do_pop_title s).
Proof.
  intros Hs. unfold do_pop_title. destruct (negb _); [done|]. destruct (last _); [|done].
  apply bump_ok, with_title_stack_ok; [auto with rmux|]. pose proof (so_stack s Hs). rewrite length_take. lia.
Qed.

End Writer.

#[export] Hint Resolve cursor_up_ok cursor_down_ok cursor_move_ok backspace_ok insert_character_ok delete_character_ok
  clear_to_history_ok clear_end_of_screen_ok clear_start_of_screen_ok set_scroll_region_ok alternate_on_ok tab_ok
  alignment_test_ok full_reset_ok hyperlink_ok palette_loop_ok osc_clipboard_ok push_title_ok pop_title_ok : rmux.
#[export] Hint Resolve write_char_safe insert_line_safe delete_line_safe scroll_up_screen_safe scroll_down_screen_safe
  linefeed_safe reverse_index_safe backward_tab_safe safe_ret : rmux.

(** The bytes of a run are ASCII: the parser only collects those. *)
Definition call_ok (c : WriterCall) : Prop :=
  match c with collect_add_ascii_run bytes _ _ => is_ascii bytes = true | _ => True end.

(** Calls that leave the frame of the screen alone. *)
Definition keeps_frame (c : WriterCall) : bool :=
  match c with alternate_on _ _ | alternate_off _ _ | full_reset | save_cursor => false | _ => true end.

Lemma write_screen_safe_at F now unicode_width c s :
  screen_ok_at F s -> call_ok c -> F = None \/ keeps_frame c = true -> safe_at F (write_screen now unicode_width c s).
Proof.
  intros Hs Hc HF. pose proof (screen_size_pos s Hs) as [? ?].
  destruct c; cbn [write_screen call_ok keeps_frame] in *; try (destruct HF as [HF|]; [|done]); eauto with rmux; try apply safe_ret.
  - by apply ascii_run_safe.
  - apply with_x_ok; [auto with rmux|]. pose proof (cursor_column_lt (clear_pending_wrap s) (clear_pending_wrap_ok s Hs)). lia.
  - apply with_x_ok; [auto with rmux|]. pose proof (max_cursor_x_lt (clear_pending_wrap s) (clear_pending_wrap_ok s Hs)). lia.
  - apply with_cursor_ok; [done|lia|apply Hs].
  - apply on_grid_ok; [auto with rmux|]. intros g. apply clear_history_step.
  - destruct (wrap_mode _); auto with rmux.
  - by apply alternate_off_ok.
  - apply with_tabs_ok; [done|]. rewrite length_alter. apply Hs.
  - apply with_tabs_ok; [done|]. rewrite length_alter. apply Hs.
  - apply with_tabs_ok; [done|]. rewrite length_map. apply Hs.
  - destruct (title_rename_enabled s); auto with rmux.
  - destruct (_ && _); auto with rmux.
  - destruct (bool_decide _); auto with rmux.
  - destruct (saved_cursor_x s), (saved_cursor_y s); auto with rmux.
Qed.

Lemma write_screen_safe now unicode_width c s :
  screen_is_ok s -> call_ok c -> safe_at None (write_screen now unicode_width c s).
Proof. intros. apply write_screen_safe_at; auto. Qed.

(** ** The other operations *)

#[local] Notation screen_ok := screen_is_ok.
#[local] Notation safe := (safe_at None).

Lemma screen_new_ok cols rows limit : cols <= u16_limit -> rows <= u16_limit -> screen_ok (screen_new cols rows limit).
Proof.
  intros Hc Hr. pose proof (grid_new_ok cols rows limit Hc Hr) as Hg.
  constructor; unfold screen_sx, screen_sy; cbn -[grid_new Nat.max]; try done; try (cbn; lia).
  - unfold default_tabs. by rewrite length_map, length_seq.
Qed.

Lemma mark_selected_ok row start stop s : screen_ok s -> screen_ok (mark_selected_row_range row start stop s).
Proof.
  intros Hs. unfold mark_selected_row_range. destruct (_ || _); [done|].
  destruct (visible (s_grid s) !! row) as [l|] eqn:El; [|done]. cbv zeta. destruct (_ <? _); [done|].
  pose proof (Forall_lookup_1 _ _ row l (ok_visible _ (so_grid s Hs)) El) as Hl.
  set (a := default (start `min` _) _). set (b := default (stop `min` _) _).
  pose proof (select_loop_ok (sx (s_grid s)) (b + 1) b a false l Hl) as H.
  destruct (select_loop _ _ _ _ _) as [t l']. apply with_selected_ok, with_grid_ok; [done|].
  apply visible_line_mut_step; [apply Hs|]. intros _ _. by apply touch_if_ok.
Qed.

Lemma set_hlimit_enabled limit g : history_enabled (set_hlimit limit g) = history_enabled g.
Proof.
  unfold set_hlimit. cbn [with_hscrolled history_enabled]. set (g0 := mkGrid _ _ _ _ _ _ _ _ _ _ _).
  enough (forall n, history_enabled (Nat.iter n pop_history_front g0) = history_enabled g0) as H by apply H.
  intros n. induction n as [|n IH]; [done|]. cbn [Nat.iter nat_rect]. rewrite <- IH. apply pop_front_frame.
Qed.

Lemma set_history_limit_ok limit s : screen_ok s -> screen_ok (set_history_limit limit s).
Proof.
  intros [Hg Hx Hy Hr Ht Hst Hp Hs _]. destruct (set_hlimit_ok limit (s_grid s) Hg) as (H1 & H2 & H3 & _).
  pose proof (set_hlimit_enabled limit (s_grid s)) as H4. unfold screen_sx, screen_sy in *.
  unfold set_history_limit, on_grid. revert H1 H2 H3 H4. generalize (set_hlimit limit (s_grid s)). intros g H1 H2 H3 H4.
  constructor; unfold screen_sx, screen_sy; simpl; rewrite ?H2, ?H3; try done.
  destruct (saved_grid s); [|done]. by rewrite H4.
Qed.

Lemma delete_line_size now n bg s s' :
  screen_ok s -> do_delete_line now n bg s = Some s' -> screen_sx s' = screen_sx s /\ screen_sy s' = screen_sy s.
Proof.
  intros Hs. unfold do_delete_line. destruct (_ || _); [by intros [= <-]|].
  apply clear_pending_wrap_ok in Hs as H0. pose proof (clear_selected_ok _ H0) as H1.
  destruct (clear_selected_size _ H0) as [E1 E2]. change (screen_sx (clear_pending_wrap s)) with (screen_sx s) in E1.
  change (screen_sy (clear_pending_wrap s)) with (screen_sy s) in E2. rewrite <- E1, <- E2.
  revert H1. generalize (clear_selected_cells (clear_pending_wrap s)). intros s1 H1. unfold repeat_grid, on_grid_checked.
  destruct (grid_safe_iter (count_upto n (rlower s1 - s_cursor_y s1 + 1)) (s_grid s1)
    (scroll_region_up now (s_cursor_y s1) (rlower s1) bg false)) as (g & Hg & _ & [F1 F2 _ _]); [apply H1| |].
  - intros g Hg. apply scroll_up_safe, Hg.
  - rewrite Hg. intros [= <-]. done.
Qed.

Lemma delete_visible_line_safe now y s :
  screen_ok s -> exists deleted s', delete_visible_line now y s = Some (deleted, s') /\ screen_ok s'.
Proof.
  intros Hs. unfold delete_visible_line. destruct (Nat.leb_spec (screen_sy s) y) as [Hy|Hy]; [by eexists _, _|].
  pose proof (screen_size_pos s Hs) as [Hx1 Hy1]. pose proof (so_region s Hs) as Hr.
  set (s1 := with_region 0 (screen_sy s - 1) (with_cursor 0 y false s)).
  assert (screen_ok s1) as H1.
  { apply with_region_ok; [by apply with_cursor_ok|lia|]. change (screen_sy (with_cursor 0 y false s)) with (screen_sy s). lia. }
  destruct (delete_line_safe now 1 COLOUR_DEFAULT s1 H1) as (s2 & E2 & H2).
  destruct (delete_line_size now 1 COLOUR_DEFAULT s1 s2 H1 E2) as [Ex Ey]. rewrite E2. cbn. eexists _, _. split; [done|].
  change (screen_sx s1) with (screen_sx s) in Ex. change (screen_sy s1) with (screen_sy s) in Ey.
  apply with_region_ok; [|lia|change (rlower s < screen_sy s2); lia]. apply with_cursor_ok; [done|lia|lia].
Qed.

Lemma delete_absolute_line_ok y s : screen_ok s -> screen_ok (delete_absolute_line y s).2.
Proof.
  intros Hs. unfold delete_absolute_line. cbv zeta. pose proof (remove_absolute_line_step y (s_grid s) (so_grid s Hs)) as Hg.
  destruct (remove_absolute_line y (s_grid s)) as [[] g]; [|done]. cbn [negb snd] in *.
  pose proof (with_grid_ok g s Hs Hg) as H1. pose proof (so_y _ H1) as Hy. pose proof (so_x _ H1).
  apply with_cursor_ok; [done|done|]. simpl in *. destruct (_ && _); lia.
Qed.

Lemma trim_below_cursor_ok s : screen_ok s -> screen_ok (trim_below_cursor s).2.
Proof.
  intros Hs. unfold trim_below_cursor. cbv zeta. pose proof (truncate_after_step (length (history (s_grid s)) + s_cursor_y s) _ (so_grid s Hs)) as Hg.
  destruct (truncate_after_absolute_line _ _) as [[] g]; [|done]. cbn [negb snd] in *.
  pose proof (with_grid_ok g s Hs Hg) as H1. pose proof (screen_size_pos _ H1). pose proof (max_cursor_x_lt _ H1).
  apply with_cursor_ok; [done|lia|lia].
Qed.
