(* ===== verification/Terminal.v ===== *)
(** * The terminal of a pane

    [crates/rmux-core/src/terminal/mod.rs] and [terminal_screen.rs]: the parser
    and the screen as one state, fed with the bytes a pane prints.  The parser
    calls the screen through [ScreenWriter]; what it keeps of the screen it keeps
    whatever the bytes are, so the invariant of the screen and that of the parser
    hold of the pair. *)

From S2P Require Import Prelude Text Utf8 InputStates InputCell Passthrough ScreenWriter InputTables InputParser InputRendition InputEquiv InputInv GridCell GridLine GridLineInv Grid GridInv GridResize Utf8Width Vis Hyperlinks Screen ScreenInv ScreenSafe.

#[local] Notation screen_ok := screen_is_ok.
#[local] Notation safe := (safe_at None).

(** ** What the parser keeps of a screen *)

Section Keeps.

Context {W : Type} `{ScreenWriter W} (P : W -> Prop).

Hypothesis write_keeps : forall c w, call_ok c -> P w -> P (write c w).

Definition keeps_screen (h : InputParser -> W -> InputParser * W) : Prop := forall p w, P w -> P (h p w).2.

(** A call that is not a run of characters. *)
Local Ltac calls := repeat first [done | apply write_keeps; [exact I|]].

Lemma dispatch_c0_keeps : keeps_screen dispatch_c0.
Proof. intros p w Hw. unfold dispatch_c0. repeat case_match; cbn [snd]; calls. Qed.

Lemma restore_state_keeps : keeps_screen restore_state.
Proof. intros p w Hw. unfold restore_state. cbv zeta. cbn [snd]. case_match; calls. Qed.

Lemma dispatch_esc_keeps : keeps_screen dispatch_esc.
Proof.
  intros p w Hw. unfold dispatch_esc. destruct (lookup_esc _ _) as [cmd|]; [|done].
  destruct cmd; try (by apply (restore_state_keeps p w)); unfold dispatch_esc_command; cbv zeta; cbn [snd]; calls.
Qed.

Lemma fold_param_keeps (f : W -> Z -> W) ns w : (forall w n, P w -> P (f w n)) -> P w -> P (fold_left f ns w).
Proof. intros Hf. revert w. induction ns as [|n ns IH]; intros w Hw; simpl; [done|]. by apply IH, Hf. Qed.

Lemma winops_loop_keeps fuel sx sy m : keeps_screen (winops_loop fuel sx sy m).
Proof.
  revert m. induction fuel as [|fuel IH]; intros m p w Hw; [done|]. cbn [winops_loop].
  repeat case_match; cbn [snd]; try done; apply IH; calls.
Qed.

Lemma repeat_char_keeps n c : keeps_screen (repeat_char n c).
Proof.
  intros p w Hw. unfold repeat_char. cbv zeta. cbn [snd]. generalize (Z.to_nat (Z.min n (sat_sub (screen_size_x w) (cursor_x w)))).
  intros k. induction k as [|k IH]; [done|]. cbn [Nat.iter nat_rect]. calls.
Qed.

Lemma dispatch_csi_command_keeps cmd : keeps_screen (dispatch_csi_command cmd).
Proof.
  intros p w Hw. unfold dispatch_csi_command. cbv zeta.
  destruct cmd; cbn [snd]; calls; try (by destruct (_ =? -1); calls);
    try (apply fold_param_keeps; [|done]; intros w' n Hw'; unfold sm_private_param, rm_private_param, sm_param, rm_param;
         clear -Hw' write_keeps; repeat (case_match; calls)).
  - destruct (_ && _); calls.
  - repeat (case_match; calls).
  - repeat (case_match; calls).
  - destruct (_ || _); [done|]. destruct (last_char p); [by apply repeat_char_keeps|done].
  - repeat (case_match; calls).
  - destruct (negb _); [done|]. cbn [snd]. repeat (case_match; calls).
  - destruct (_ =? 4); calls.
  - destruct (_ =? -1); [done|]. destruct (_ =? 0); calls.
  - destruct (_ && _); calls.
  - by apply winops_loop_keeps.
  - case_match; calls.
Qed.

Lemma dispatch_csi_keeps : keeps_screen dispatch_csi.
Proof.
  intros p w Hw. unfold dispatch_csi. destruct (split (param p)) as [ok params]. cbv zeta.
  destruct (negb ok); [done|]. destruct (lookup_csi _ _); [by apply dispatch_csi_command_keeps|done].
Qed.

Lemma osc_colour_command_keeps slot call data : (forall e, call_ok (call data e)) -> keeps_screen (osc_colour_command slot call data).
Proof.
  intros Hc p w Hw. unfold osc_colour_command. destruct (answer_osc_colour_query _ _ _ _) as [[] p']; [done|].
  cbn [snd]. by apply write_keeps.
Qed.

Lemma osc_command_keeps option data : keeps_screen (osc_command option data).
Proof.
  intros p w Hw. unfold osc_command.
  repeat (case_match; try (cbn [snd]; calls; fail); try (apply osc_colour_command_keeps; done)).
Qed.

Lemma dispatch_osc_keeps : keeps_screen dispatch_osc.
Proof. intros p w Hw. unfold dispatch_osc. repeat (case_match; try done); by apply osc_command_keeps. Qed.

Lemma dispatch_dcs_keeps : keeps_screen dispatch_dcs.
Proof. intros p w Hw. unfold dispatch_dcs. repeat (case_match; cbn [snd]; calls). Qed.

Lemma exit_state_keeps : keeps_screen exit_state.
Proof.
  intros p w Hw. unfold exit_state. destruct (has_flag _ _); [done|].
  destruct (state p); try done; cbn [snd]; [by apply dispatch_osc_keeps|destruct (is_kitty_graphics_apc _); calls|calls].
Qed.

Lemma set_state_keeps next : keeps_screen (set_state next).
Proof. intros p w Hw. unfold set_state. pose proof (exit_state_keeps p w Hw). by destruct (exit_state p w). Qed.

Lemma stop_utf8_keeps : keeps_screen stop_utf8.
Proof. intros p w Hw. unfold stop_utf8. case_match; cbn [snd]; calls. Qed.

Lemma complete_utf8_keeps : keeps_screen complete_utf8.
Proof. intros p w Hw. unfold complete_utf8. cbv zeta. repeat (case_match; cbn [snd]; calls). Qed.

Lemma handle_print_keeps : keeps_screen handle_print.
Proof.
  intros p w Hw. unfold handle_print. pose proof (stop_utf8_keeps p w Hw). destruct (stop_utf8 p w). cbn [snd] in *. calls.
Qed.

Lemma handle_c0_dispatch_keeps : keeps_screen handle_c0_dispatch.
Proof.
  intros p w Hw. unfold handle_c0_dispatch. pose proof (stop_utf8_keeps p w Hw) as Hs. destruct (stop_utf8 p w) as [p1 w1].
  pose proof (dispatch_c0_keeps p1 w1 Hs). by destruct (dispatch_c0 p1 w1).
Qed.

(** A handler that can fail keeps the screen when it does not. *)
Definition keeps_result (r : option (InputParser * W)) : Prop := forall p w, r = Some (p, w) -> P w.

Lemma keeps_ret r : P r.2 -> keeps_result (Some r).
Proof. intros Hr p w [= ->]. done. Qed.

Lemma start_utf8_keeps p w : P w -> keeps_result (start_utf8 p w).
Proof.
  intros Hw. unfold start_utf8. cbv zeta.
  repeat (case_match; [by apply keeps_ret|]). by apply keeps_ret, stop_utf8_keeps.
Qed.

Lemma handle_top_bit_set_keeps p w : P w -> keeps_result (handle_top_bit_set p w).
Proof.
  intros Hw. unfold handle_top_bit_set. cbv zeta. destruct (negb (utf8_started _)); [by apply start_utf8_keeps|].
  destruct (negb (_ =? _)).
  - pose proof (stop_utf8_keeps (clear_flag INPUT_LAST p) w Hw). destruct (stop_utf8 _ w) as [p1 w1].
    destruct (_ <=? _); [by apply start_utf8_keeps|by apply keeps_ret].
  - destruct (write_array _ _ _) as [buf|]; simpl; [|by intros ? ?]. destruct (_ <? _); apply keeps_ret; [done|].
    by apply complete_utf8_keeps.
Qed.

Lemma dispatched_keeps (h : InputParser -> W -> InputParser * W) p w flag :
  keeps_screen h -> P w ->
  P (if has_flag p flag then (p, w) else let '(p', w') := h p w in (clear_flag INPUT_LAST p', w')).2.
Proof. intros Hh Hw. destruct (has_flag p flag); [done|]. specialize (Hh p w Hw). by destruct (h p w). Qed.

Lemma handle_dcs_dispatch_keeps : keeps_screen handle_dcs_dispatch.
Proof. intros p w Hw. unfold handle_dcs_dispatch. case_match; [done|by apply dispatch_dcs_keeps]. Qed.

Lemma run_handler_keeps_screen h p w : P w -> keeps_result (run_handler h p w).
Proof.
  intros Hw. destruct h; cbn [run_handler]; try (by apply keeps_ret).
  - by apply keeps_ret, handle_print_keeps.
  - by apply keeps_ret, handle_c0_dispatch_keeps.
  - by apply keeps_ret, dispatched_keeps; [apply dispatch_esc_keeps|].
  - by apply keeps_ret, dispatched_keeps; [apply dispatch_csi_keeps|].
  - by apply keeps_ret, handle_dcs_dispatch_keeps.
  - destruct (handle_intermediate p); [by apply keeps_ret|by intros ? ?].
  - destruct (handle_parameter p); [by apply keeps_ret|by intros ? ?].
  - by apply handle_top_bit_set_keeps.
Qed.

Lemma parse_byte_keeps b p w : P w -> keeps_result (parse_byte b p w).
Proof.
  intros Hw. unfold parse_byte. cbv zeta. destruct (transition_for_byte _ _) as [t|]; simpl; [|by intros ? ?].
  unfold execute_transition. set (w0 := end_collection _ w).
  assert (P w0) as H0 by (unfold w0, end_collection; destruct (transition_handler t); calls).
  pose proof (run_handler_keeps_screen (transition_handler t) (with_ch b p) w0 H0) as Hr.
  destruct (run_handler _ _ _) as [[p1 w1]|]; simpl; [|by intros ? ?]. specialize (Hr p1 w1 eq_refl).
  destruct (should_recover_tmux_passthrough_osc_bel p1).
  - pose proof (handle_dcs_dispatch_keeps (with_input_end Bel p1) w1 Hr). destruct (handle_dcs_dispatch _ _).
    by apply keeps_ret, set_state_keeps.
  - destruct (next_state t) as [next|]; [|by apply keeps_ret].
    pose proof (set_state_keeps next p1 w1 Hr). destruct (set_state next p1 w1). by apply keeps_ret.
Qed.

Lemma printable_ascii run : forallb is_printable run = true -> is_ascii run = true.
Proof.
  unfold is_ascii. induction run as [|b run IH]; simpl; [done|]. intros [Hb Hr]%andb_prop. rewrite IH by done.
  unfold is_printable in Hb. apply andb_prop in Hb as [_ Hb%Z.leb_le]. rewrite (proj2 (Z.ltb_lt b 128)) by lia. done.
Qed.

Lemma parse_loop_keeps fuel buf p w : P w -> keeps_result (parse_loop fuel buf p w).
Proof.
  revert buf p w. induction fuel as [|fuel IH]; intros [|b buf] p w Hw; try (by apply keeps_ret); [by intros ? ?|].
  assert (keeps_result ('(p, w) ← parse_byte b p w; parse_loop fuel buf p w)) as Hslow.
  { pose proof (parse_byte_keeps b p w Hw) as Hb. destruct (parse_byte b p w) as [[p1 w1]|]; [|by intros ? ?].
    apply IH. by apply (Hb p1 w1). }
  cbn [parse_loop]. destruct (_ && _); [|exact Hslow].
  destruct (printable_run (b :: buf)) as [[|c run] after] eqn:Hrun.
  - unfold handle_ground_c0_fast_path. repeat (case_match; simplify_eq; try exact Hslow); apply IH; calls.
  - apply printable_run_spec in Hrun as [_ Hrun]. unfold handle_printable_ascii_run. apply IH, write_keeps; [|done].
    by apply printable_ascii.
Qed.

Lemma parse_keeps buf p w : P w -> keeps_result (parse buf p w).
Proof. apply parse_loop_keeps. Qed.

End Keeps.

(** ** The parser and the screen *)

Inductive TerminalParserState : Type :=
| TGround
| TEscape
| TCsi
| TDcs
| TString
| TIgnore.

Definition terminal_state (s : InputState) : TerminalParserState :=
  match s with
  | Ground => TGround
  | EscEnter | EscIntermediate => TEscape
  | CsiEnter | CsiParameter | CsiIntermediate => TCsi
  | CsiIgnore | DcsIgnore => TIgnore
  | DcsEnter | DcsParameter | DcsIntermediate | DcsHandler | DcsEscape => TDcs
  | OscString | ApcString | RenameString | ConsumeSt => TString
  end.

Record TerminalParser : Type := mkTerminal {
  tp_parser : InputParser;
  tp_screen : Screen
}.

Definition on_parser (f : InputParser -> InputParser) (t : TerminalParser) : TerminalParser :=
  mkTerminal (f (tp_parser t)) (tp_screen t).
Definition on_screen (f : Screen -> Screen) (t : TerminalParser) : TerminalParser :=
  mkTerminal (tp_parser t) (f (tp_screen t)).

Definition terminal_new (cols rows history_limit : nat) : TerminalParser :=
  let s := screen_new cols rows history_limit in
  mkTerminal new_parser (with_options (title_rename_enabled s) (alternate_screen_enabled s) true s).

#[global] Instance rendition_eq_dec : EqDecision InputCell.GridCell.
Proof. solve_decision. Defined.
#[global] Instance CellState_eq_dec : EqDecision CellState.
Proof. solve_decision. Defined.

Definition parser_plain_output_forwarding_safe (p : InputParser) : bool :=
  bool_decide (state p = Ground) && negb (utf8_started p) && bool_decide (pcell p = default_cell_state).

Definition terminal_plain_output_forwarding_safe (t : TerminalParser) : bool :=
  parser_plain_output_forwarding_safe (tp_parser t) && plain_output_forwarding_safe (tp_screen t).

Definition set_utf8_config (config : Utf8Config) : TerminalParser -> TerminalParser := on_screen (with_utf8_config config).

Definition set_alternate_screen_enabled (enabled : bool) : TerminalParser -> TerminalParser :=
  on_screen (fun s => with_options (title_rename_enabled s) enabled (preserve_alternate_screen_cursor s) s).

Definition set_title_rename_enabled (enabled : bool) : TerminalParser -> TerminalParser :=
  on_screen (fun s => with_options enabled (alternate_screen_enabled s) (preserve_alternate_screen_cursor s) s).

Definition terminal_set_input_buffer_limit (limit : Z) : TerminalParser -> TerminalParser :=
  on_parser (set_input_buffer_limit limit).

Definition terminal_resize (now : Z) (cols rows : nat) : TerminalParser -> TerminalParser :=
  on_screen (screen_resize now cols rows).

(** Bytes of the pane; [None] is a panic of the parser or of the screen. *)
Definition feed (now : Z) (unicode_width : Z -> option nat) (bytes : list Z) (t : TerminalParser) : option TerminalParser :=
  '(p, m) ← @parse _ (Screen_writer now unicode_width) bytes (tp_parser t) (Some (tp_screen t));
  s ← m;
  Some (mkTerminal p s).

Definition terminal_take_replies (t : TerminalParser) : list Z * TerminalParser :=
  let '(replies, p) := take_replies (tp_parser t) in (replies, mkTerminal p (tp_screen t)).

Definition terminal_take_passthrough (t : TerminalParser) : list TerminalPassthrough * TerminalParser :=
  let '(events, s) := take_terminal_passthrough (tp_screen t) in (events, mkTerminal (tp_parser t) s).

(** Events dropped by the parser and by the screen. *)
Definition terminal_take_passthrough_dropped_count (t : TerminalParser) : Z * TerminalParser :=
  let '(a, p) := take_passthrough_dropped (tp_parser t) in
  let '(b, s) := take_terminal_passthrough_dropped_count (tp_screen t) in
  (u64_sat_add a b, mkTerminal p s).

Definition terminal_take_recovery_rebase_required (t : TerminalParser) : bool * TerminalParser :=
  let '(b, p) := take_recovery_rebase_required (tp_parser t) in (b, mkTerminal p (tp_screen t)).

Definition terminal_ground_timer_expired : TerminalParser -> TerminalParser := on_parser ground_timer_expired.
Definition terminal_reset_to_ground : TerminalParser -> TerminalParser := on_parser reset_to_ground.

(** A new parser with the configured limit. *)
Definition reset_parser : TerminalParser -> TerminalParser :=
  on_parser (fun p => set_input_buffer_limit (input_buf_max p) new_parser).

Definition saved_cursor_state (t : TerminalParser) : Z * Z * bool :=
  let s := saved (tp_parser t) in (saved_cx s, saved_cy s, mode_origin s).

(** The character sets of a cell as the sequences that select them. *)
Definition append_character_sets (c : CellState) : list Z :=
  (if g0set c =? 0 then [27; 40; 66] else [27; 40; 48])
  ++ (if g1set c =? 0 then [27; 41; 66] else [27; 41; 48])
  ++ [if InputCell.set c =? 0 then 15 else 14].

(** ** Everything the server does with a terminal *)

(** The operations of the screen that it does through [screen_mut]. *)
Inductive ScreenOp : Type :=
| SelectRow (row start stop : nat)
| Deselect
| HistoryLimit (limit : nat)
| ClearHistory (reset_links : bool)
| DeleteVisible (y : nat)
| DeleteAbsolute (y : nat)
| TrimBelow
| TakeBell
| SetTitle (t : list Z).

Definition screen_op (now : Z) (o : ScreenOp) (s : Screen) : option Screen :=
  match o with
  | SelectRow row start stop => Some (mark_selected_row_range row start stop s)
  | Deselect => Some (clear_selected_cells s)
  | HistoryLimit limit => Some (set_history_limit limit s)
  | ClearHistory reset_links => Some (clear_history_and_hyperlinks reset_links s)
  | DeleteVisible y => snd <$> delete_visible_line now y s
  | DeleteAbsolute y => Some (delete_absolute_line y s).2
  | TrimBelow => Some (trim_below_cursor s).2
  | TakeBell => Some (take_bell_count s).2
  | SetTitle t => Some (screen_set_title t s)
  end.

Inductive TerminalOp : Type :=
| TFeed (now : Z) (bytes : list Z)
| TResize (now : Z) (cols rows : nat)
| TUtf8Config (config : Utf8Config)
| TAlternateEnabled (enabled : bool)
| TTitleRename (enabled : bool)
| TInputLimit (limit : Z)
| TGroundTimer
| TResetToGround
| TResetParser
| TTakeReplies
| TTakePassthrough
| TTakeDropped
| TTakeRebase
| TScreen (now : Z) (o : ScreenOp).

Definition terminal_op (unicode_width : Z -> option nat) (o : TerminalOp) (t : TerminalParser) : option TerminalParser :=
  match o with
  | TFeed now bytes => feed now unicode_width bytes t
  | TResize now cols rows => Some (terminal_resize now cols rows t)
  | TUtf8Config config => Some (set_utf8_config config t)
  | TAlternateEnabled enabled => Some (set_alternate_screen_enabled enabled t)
  | TTitleRename enabled => Some (set_title_rename_enabled enabled t)
  | TInputLimit limit => Some (terminal_set_input_buffer_limit limit t)
  | TGroundTimer => Some (terminal_ground_timer_expired t)
  | TResetToGround => Some (terminal_reset_to_ground t)
  | TResetParser => Some (reset_parser t)
  | TTakeReplies => Some (terminal_take_replies t).2
  | TTakePassthrough => Some (terminal_take_passthrough t).2
  | TTakeDropped => Some (terminal_take_passthrough_dropped_count t).2
  | TTakeRebase => Some (terminal_take_recovery_rebase_required t).2
  | TScreen now o => mkTerminal (tp_parser t) <$> screen_op now o (tp_screen t)
  end.

Fixpoint terminal_run (unicode_width : Z -> option nat) (ops : list TerminalOp) (t : TerminalParser) : option TerminalParser :=
  match ops with
  | [] => Some t
  | o :: ops => t ← terminal_op unicode_width o t; terminal_run unicode_width ops t
  end.

(** Bytes are bytes, sizes are 16 bits wide, and limits stay below the bound. *)
Definition terminal_op_ok (limit : Z) (o : TerminalOp) : Prop :=
  match o with
  | TFeed _ bytes => Forall in_u8 bytes
  | TResize _ cols rows => (cols <= u16_limit)%nat /\ (rows <= u16_limit)%nat
  | TInputLimit n => n <= limit
  | _ => True
  end.

Record terminal_ok (limit : Z) (t : TerminalParser) : Prop := {
  tok_parser : parser_ok limit (tp_parser t);
  tok_screen : screen_ok (tp_screen t)
}.

Lemma on_parser_ok limit f t : terminal_ok limit t -> (forall p, parser_ok limit p -> parser_ok limit (f p)) -> terminal_ok limit (on_parser f t).
Proof. intros [Hp Hs] Hf. constructor; simpl; auto. Qed.

Lemma on_screen_ok limit f t : terminal_ok limit t -> (forall s, screen_ok s -> screen_ok (f s)) -> terminal_ok limit (on_screen f t).
Proof. intros [Hp Hs] Hf. constructor; simpl; auto. Qed.

Lemma terminal_new_ok limit cols rows history_limit :
  MAX_TERMINAL_PASSTHROUGH_PAYLOAD_BYTES <= limit -> (cols <= u16_limit)%nat -> (rows <= u16_limit)%nat ->
  terminal_ok limit (terminal_new cols rows history_limit).
Proof. intros Hl Hc Hr. constructor; [by apply new_parser_ok|]. by apply with_options_ok, screen_new_ok. Qed.

Lemma feed_ok limit now unicode_width bytes t :
  Forall in_u8 bytes -> terminal_ok limit t -> exists t', feed now unicode_width bytes t = Some t' /\ terminal_ok limit t'.
Proof.
  intros Hb [Hp Hs]. unfold feed.
  destruct (@parse_ok _ (Screen_writer now unicode_width) limit bytes (tp_parser t) (Some (tp_screen t)) Hb Hp) as (p & m & E & Hp').
  assert (safe m) as (s & -> & Hs').
  { eapply (@parse_keeps _ (Screen_writer now unicode_width) safe); [|by apply safe_ret|exact E].
    intros c w Hc Hw. simpl. apply safe_bind; [done|]. intros s Hs'. by apply write_screen_safe. }
  rewrite E. simpl. eexists. split; [done|]. by constructor.
Qed.

Lemma clear_history_links_ok b s : screen_ok s -> screen_ok (clear_history_and_hyperlinks b s).
Proof.
  intros Hs. unfold clear_history_and_hyperlinks. cbv zeta.
  assert (screen_ok (on_grid grid_clear_history (clear_selected_cells s))) as H1.
  { apply on_grid_ok; [auto with rmux|]. intros g. apply clear_history_step. }
  destruct b; auto with rmux.
Qed.

Lemma screen_op_safe now o s : screen_ok s -> safe (screen_op now o s).
Proof.
  intros Hs. destruct o; cbn [screen_op]; try apply safe_ret; auto with rmux.
  - by apply mark_selected_ok.
  - by apply set_history_limit_ok.
  - by apply clear_history_links_ok.
  - destruct (delete_visible_line_safe now y s Hs) as (d & s' & -> & Hs'). by exists s'.
  - by apply delete_absolute_line_ok.
  - by apply trim_below_cursor_ok.
  - by apply with_bell_count_ok.
Qed.

Lemma terminal_op_safe limit unicode_width o t :
  terminal_op_ok limit o -> terminal_ok limit t ->
  exists t', terminal_op unicode_width o t = Some t' /\ terminal_ok limit t'.
Proof.
  intros Ho Ht. destruct o; cbn [terminal_op]; [by apply feed_ok| | | | | | | | | | | | |].
  1-12: eexists; split; [reflexivity|].
  - apply on_screen_ok; [done|]. intros s Hs. by apply screen_resize_ok; [done|done|apply Ho..].
  - apply on_screen_ok; auto with rmux.
  - apply on_screen_ok; auto with rmux.
  - apply on_screen_ok; auto with rmux.
  - apply on_parser_ok; [done|]. intros p Hp. by apply set_input_buffer_limit_ok.
  - apply on_parser_ok; [done|]. intros p. apply reset_to_ground_ok.
  - apply on_parser_ok; [done|]. intros p. apply reset_to_ground_ok.
  - apply on_parser_ok; [done|]. intros p Hp. apply set_input_buffer_limit_ok; [apply new_parser_ok|]; apply Hp.
  - apply (on_parser_ok limit (fun p => (take_replies p).2)); [done|]. intros p. apply with_reply_buf_ok.
  - apply (on_screen_ok limit (fun s => (take_terminal_passthrough s).2)); [done|]. intros s Hs. apply with_passthrough_ok; [done|simpl; lia].
  - destruct Ht as [Hp Hs]. constructor; [by apply with_dropped_ok|]. apply with_passthrough_ok; [done|apply Hs].
  - destruct Ht as [Hp Hs]. constructor; [|done]. simpl. destruct Hp. by constructor.
  - destruct (screen_op_safe now o (tp_screen t) (tok_screen _ _ Ht)) as (s & -> & Hs). simpl. eexists. split; [done|].
    constructor; [apply Ht|done].
Qed.

(** C1. A terminal copes with everything a pane can print and the server can do to
    it.  From a new terminal of any size, whatever bytes are fed to it, in whatever
    pieces, with resizes, changes of options, timeouts, selections and deletions of
    lines in between, neither the parser nor the screen indexes out of range, and
    the result is well formed: the cursor is on the screen, the scroll region is a
    range of its rows, every row is as wide as the screen, the history is within
    its limit and its byte counter is exact, and the queues are within their
    bounds.  This holds for every table of character widths. *)
Theorem terminal_never_panics limit unicode_width cols rows history_limit ops :
  MAX_TERMINAL_PASSTHROUGH_PAYLOAD_BYTES <= limit -> (cols <= u16_limit)%nat -> (rows <= u16_limit)%nat ->
  Forall (terminal_op_ok limit) ops ->
  exists t, terminal_run unicode_width ops (terminal_new cols rows history_limit) = Some t /\ terminal_ok limit t.
Proof.
  intros Hl Hc Hr. generalize (terminal_new_ok limit cols rows history_limit Hl Hc Hr).
  generalize (terminal_new cols rows history_limit). induction ops as [|o ops IH]; intros t Ht Hops; [by exists t|].
  apply Forall_cons in Hops as [Ho Hops]. simpl.
  destruct (terminal_op_safe limit unicode_width o t Ho Ht) as (t' & -> & Ht'). simpl. by apply IH.
Qed.

Lemma terminal_never_panics_witness :
  let widths := fun c => if c <? 32 then None else if 4352 <=? c then Some 2%nat else Some 1%nat in
  let ops := [TFeed 1 [104; 105; 27; 91; 53; 71; 230; 151; 165; 13; 10; 120]; TResize 2 3 2; TFeed 3 [27; 91; 63; 49; 48; 52; 57; 104];
              TScreen 4 (SelectRow 0 0 2); TResize 5 9 4; TFeed 6 [27; 91; 63; 49; 48; 52; 57; 108]] in
  (exists t, terminal_run widths ops (terminal_new 6 2 10) = Some t /\ terminal_ok 8388608 t)
  /\ (fun t => (screen_sx (tp_screen t), map render_text (visible (s_grid (tp_screen t))))) <$> terminal_run widths ops (terminal_new 6 2 10)
     = Some (9%nat, [[104; 105; 32; 32; 230; 151; 165]; [120]; []; []]).
Proof.
  split; [|vm_compute; reflexivity].
  apply terminal_never_panics; [unfold MAX_TERMINAL_PASSTHROUGH_PAYLOAD_BYTES; lia| | |].
  1,2: assert (u16_limit = Z.to_nat 65535) by done; lia.
  repeat (apply Forall_cons; split); cbn [terminal_op_ok]; try exact I; try (by apply Forall_nil);
    try (assert (u16_limit = Z.to_nat 65535) by done; lia).
  all: repeat (apply Forall_cons; split); try (by apply Forall_nil); unfold_machine; lia.
Defined.
