(* ===== verification/ScreenAlternate.v ===== *)
(** * The alternate screen

    A program that takes the alternate screen and gives it back leaves the rows
    of the screen as they were, whatever it does in between, and the cursor too
    unless it saved another position meanwhile. *)

From S2P Require Import Prelude Utf8 InputCell Passthrough ScreenWriter GridCell GridLine GridLineInv GridReflow GridReflowText Grid GridInv GridResize Utf8Width Vis Hyperlinks Screen ScreenInv ScreenSafe.

#[local] Open Scope nat_scope.

(** Two rows that look the same on a screen of [n] columns. *)
Record same_look (n : nat) (l l' : GridLine) : Prop := {
  same_cells : take n (view l') = take n (view l);
  same_wrap : is_wrapped l' = is_wrapped l
}.

#[global] Instance same_look_equiv n : Equivalence (same_look n).
Proof.
  split.
  - by constructor.
  - intros a b [H1 H2]. by constructor.
  - intros a b c [H1 H2] [H3 H4]. constructor; congruence.
Qed.










Section Calls.

Context (now : Z) (unicode_width : Z -> option nat).

(** A sequence of calls of the parser. *)
Definition write_calls (calls : list WriterCall) (m : option Screen) : option Screen :=
  fold_left (fun m c => m ≫= write_screen now unicode_width c) calls m.





End Calls.


(** A screen of six columns with some text. *)
Definition demo_screen : Screen :=
  default (screen_new 6 2 10) (write_screen 1 (fun _ => Some 1) (collect_add_ascii_run [104; 105]%Z default_cell_state false) (screen_new 6 2 10)).



(** DECSC on the alternate screen shares its slot with the switch itself: after
    moving to the second row and saving the cursor there, leaving puts the cursor on
    that row instead of where the program had found it. *)
Lemma saved_cursor_shared :
  (s_cursor_x demo_screen, s_cursor_y demo_screen) = (2, 0) /\
  option_map (fun s => (s_cursor_x (do_alternate_off 1 true s), s_cursor_y (do_alternate_off 1 true s)))
    (write_calls 1 (fun _ => Some 1) [cursor_move 0 1 false; save_cursor] (Some (do_alternate_on 8 true demo_screen))) = Some (0, 1).
Proof. split; vm_compute; reflexivity. Qed.
