(* ===== verification/TerminalText.v ===== *)
(** * Text on the screen

    What a pane prints is what the screen shows: printable characters fed to a new
    terminal fill its rows from the left, row by row, whatever pieces they arrive
    in, and the cursor follows them. *)

From S2P Require Import Prelude Text Utf8 InputStates InputCell Passthrough ScreenWriter InputTables InputParser InputEquiv GridCell GridLine GridLineInv GridReflow GridReflowText Grid GridInv GridResize Utf8Width Vis Hyperlinks Screen ScreenInv ScreenSafe Terminal.

#[local] Open Scope nat_scope.

(** ** Rows of a text *)

(** Row [k] of a text on a screen of [cols] columns. *)
Definition row_text (cols : nat) (t : list Z) (k : nat) : list Z := take cols (drop (k * cols) t).

(** The rows of a screen show [t]; [wrapped] says which of them go on in the next. *)
Definition rows_show (cols rows : nat) (t : list Z) (wrapped : nat -> bool) (v : list GridLine) : Prop :=
  forall k, k < rows -> exists l, v !! k = Some l /\ plain_text l = Some (trim_end (row_text cols t k)) /\ cells l = []
    /\ line_width l = cols /\ is_wrapped l = wrapped k.

Lemma rows_show_ext cols rows t w w' v :
  rows_show cols rows t w v -> (forall k, k < rows -> w' k = w k) -> rows_show cols rows t w' v.
Proof. intros H Hw k Hk. destruct (H k Hk) as (l & ? & ? & ? & ? & ?). exists l. rewrite Hw by done. done. Qed.

Lemma rows_show_wrap cols rows t w y v :
  rows_show cols rows t w v -> rows_show cols rows t (fun k => (k =? y) || w k) (alter (set_wrapped true) y v).
Proof.
  intros H k Hk. destruct (H k Hk) as (l & Hl & ? & ? & ? & ?). destruct (Nat.eqb_spec k y) as [->|Hne].
  - exists (set_wrapped true l). destruct (set_wrapped_contents true l) as (-> & -> & ->).
    rewrite list_lookup_alter_eq, Hl. split_and!; try done. apply set_wrapped_wrapped.
  - exists l. rewrite list_lookup_alter_ne by done. done.
Qed.

(** Cutting the text written so far at row [y] and column [x]. *)
Lemma text_position cols (t : list Z) : 1 <= cols -> length t = length t / cols * cols + length t mod cols /\ length t mod cols < cols.
Proof. intros Hc. pose proof (Nat.div_mod_eq (length t) cols). pose proof (Nat.mod_upper_bound (length t) cols). lia. Qed.

Lemma row_text_app cols t c k :
  1 <= cols -> length t mod cols + length c <= cols ->
  row_text cols (t ++ c) k = if k =? length t / cols then drop (k * cols) t ++ c else row_text cols t k.
Proof.
  intros Hc Hle. destruct (text_position cols t Hc) as [Hn Hx]. revert Hn Hx Hle.
  generalize (length t / cols) (length t mod cols). intros y x Hn Hx Hle. unfold row_text. rewrite drop_app.
  destruct (Nat.eqb_spec k y) as [->|Hne].
  - rewrite take_app, length_drop. rewrite (take_ge (drop _ _)) by (rewrite length_drop; lia).
    replace (y * cols - length t) with 0 by lia. rewrite drop_0. rewrite (take_ge c) by lia. done.
  - destruct (decide (k < y)) as [Hlt|Hge].
    + assert ((k + 1) * cols <= y * cols) by nia. rewrite take_app_le by (rewrite length_drop; lia). done.
    + assert (y * cols + cols <= k * cols) by nia. rewrite (drop_ge t) by lia. rewrite (drop_ge c) by lia. done.
Qed.

(** A run written right after the text of a row. *)
Lemma splice_after c bs : splice_text (trim_end c) (length c) bs = c ++ bs.
Proof.
  destruct (trim_end_prefix c) as [n Hc]. unfold splice_text. pose proof (f_equal length Hc) as Hl.
  rewrite length_app, length_replicate in Hl.
  assert ((if length (trim_end c) <? length c then resize (length c) 32%Z (trim_end c) else trim_end c) = c) as ->.
  { destruct (Nat.ltb_spec (length (trim_end c)) (length c)) as [H|H].
    - rewrite resize_ge by lia. replace (length c - length (trim_end c)) with n by lia. by symmetry.
    - replace n with 0 in Hc by lia. rewrite app_nil_r in Hc. by symmetry. }
  rewrite (take_ge c) by lia. destruct (Nat.ltb_spec (length c) (length c + length bs)) as [H|H]; [done|].
  destruct bs as [|b bs]; [|simpl in H; lia]. rewrite drop_ge by (simpl; lia). done.
Qed.

(** ** A screen that shows a text *)

(** What stays the same while text is written. *)
Record plain_screen (cols rows : nat) (s : Screen) : Prop := {
  ps_ok : screen_is_ok s;
  ps_cols : screen_sx s = cols;
  ps_rows : screen_sy s = rows;
  ps_region : rupper s = 0 /\ rlower s = rows - 1;
  ps_wrap : wrap_mode s = true;
  ps_insert : has_mode (s_mode s) MODE_INSERT = false;
  ps_selected : has_selected_cells s = false;
  ps_history : history (s_grid s) = []
}.

Lemma plain_cursor cols rows x y wrap s :
  plain_screen cols rows s -> x < cols -> y < rows -> plain_screen cols rows (with_cursor x y wrap s).
Proof.
  intros Hp Hx Hy. pose proof (ps_ok _ _ _ Hp) as Hok. destruct Hp as [_ Hc Hr ? ? ? ? ?].
  constructor; try done. apply with_cursor_ok; [done|by rewrite Hc|by rewrite Hr].
Qed.

Lemma plain_line cols rows y f s :
  plain_screen cols rows s -> grid_step (s_grid s) (visible_line_mut y f (s_grid s)) ->
  plain_screen cols rows (on_grid (visible_line_mut y f) s).
Proof.
  intros Hp Hf. pose proof (ps_ok _ _ _ Hp) as Hok. destruct Hp as [_ ? ? ? ? ? ? ?].
  constructor; try done. by apply with_grid_ok.
Qed.

(** The cursor is after the text: at the start of a row, within it, or at its end
    with a wrap pending. *)
Record shows (cols rows : nat) (t : list Z) (s : Screen) : Prop := {
  sh_plain : plain_screen cols rows s;
  sh_rows : rows_show cols rows t (fun k => S k * cols <? length t) (visible (s_grid s));
  sh_cursor :
    if (0 <? length t) && (length t mod cols =? 0)
    then s_cursor_x s = cols - 1 /\ s_cursor_y s = length t / cols - 1 /\ s_pending_wrap s = true
    else s_cursor_x s = length t mod cols /\ s_cursor_y s = length t / cols /\ s_pending_wrap s = false
}.

(** Ready for the next character. *)
Record ready (cols rows : nat) (t : list Z) (s : Screen) : Prop := {
  rd_plain : plain_screen cols rows s;
  rd_rows : rows_show cols rows t (fun k => S k * cols <=? length t) (visible (s_grid s));
  rd_cursor : s_cursor_x s = length t mod cols /\ s_cursor_y s = length t / cols
}.

Section Run.

Context (now : Z) (unicode_width : Z -> option nat) (cols rows : nat).

Hypothesis cols_pos : 1 <= cols.

Lemma shows_ready t s :
  shows cols rows t s -> length t < cols * rows ->
  exists s', apply_pending_wrap now s = Some s' /\ ready cols rows t s'.
Proof.
  intros [Hp Hrows Hcur] Hlt. destruct (text_position cols t cols_pos) as [Hn Hx].
  assert (length t / cols < rows) as Hy by nia. unfold apply_pending_wrap. rewrite (ps_wrap _ _ _ Hp).
  destruct ((0 <? length t) && (length t mod cols =? 0)) eqn:E.
  - apply andb_prop in E as [E1%Nat.ltb_lt E2%Nat.eqb_eq]. destruct Hcur as (Hcx & Hcy & ->). cbn [negb orb].
    unfold wrap_to_next_line, do_linefeed. cbv zeta.
    set (s1 := with_pending_wrap false (with_pending_wrap false (current_line_mut (set_wrapped true) s))).
    assert (plain_screen cols rows s1) as H1.
    { unfold s1, current_line_mut. apply plain_cursor; simpl; [apply plain_cursor; simpl|..]; try lia.
      apply plain_line; [done|]. apply visible_line_step; [apply (ps_ok _ _ _ Hp)|]. intros n l. apply set_wrapped_ok. }
    change (s_cursor_y s1) with (s_cursor_y s). change (rlower s1) with (rlower s). change (screen_sy s1) with (screen_sy s).
    rewrite Hcy, (ps_rows _ _ _ Hp), (proj2 (ps_region _ _ _ Hp)).
    assert (1 <= length t / cols) by nia. destruct (Nat.eqb_spec (length t / cols - 1) (rows - 1)); [lia|].
    destruct (Nat.ltb_spec (length t / cols - 1) (rows - 1)); [|lia]. cbn [mbind option_bind].
    eexists. split; [reflexivity|]. constructor.
    + apply plain_cursor; [apply plain_cursor|..]; simpl; try done; lia.
    + change (visible (s_grid _)) with (alter (set_wrapped true) (s_cursor_y s) (visible (s_grid s))).
      eapply rows_show_ext; [by apply rows_show_wrap|]. intros k Hk. cbv beta. rewrite Hcy.
      destruct (Nat.eqb_spec k (length t / cols - 1)) as [->|Hne]; cbn [orb].
      * apply Nat.leb_le. assert (S (length t / cols - 1) = length t / cols) as -> by lia. lia.
      * destruct (Nat.leb_spec (S k * cols) (length t)), (Nat.ltb_spec (S k * cols) (length t)); try done; [|lia].
        exfalso. apply Hne. assert (S k * cols = length t / cols * cols) as Heq by lia. apply Nat.mul_cancel_r in Heq; lia.
    + simpl. split; [done|lia].
  - destruct Hcur as (Hcx & Hcy & ->). cbn [negb orb]. eexists. split; [reflexivity|]. constructor.
    + apply plain_cursor; simpl; [done|lia|lia].
    + eapply rows_show_ext; [done|]. intros k Hk. cbv beta.
      apply andb_false_iff in E.
      destruct (Nat.leb_spec (S k * cols) (length t)), (Nat.ltb_spec (S k * cols) (length t)); try done; [|lia].
      exfalso. assert (length t = S k * cols) as Heq by lia. destruct E as [E%Nat.ltb_ge|E%Nat.eqb_neq]; [nia|].
      apply E. rewrite Heq. by apply Nat.Div0.mod_mul.
    + done.
Qed.

(** A run that fits the row of the cursor. *)
Lemma ready_write t c s :
  ready cols rows t s -> length t < cols * rows -> c <> [] -> length t mod cols + length c <= cols -> is_ascii c = true ->
  exists l, (l ← visible (s_grid s) !! s_cursor_y s; write_plain_ascii_run (length t mod cols) c l) = Some l
  /\ rows_show cols rows (t ++ c) (fun k => S k * cols <=? length t) (alter (fun _ => l) (s_cursor_y s) (visible (s_grid s)))
  /\ plain_screen cols rows (current_line_mut (fun _ => l) s).
Proof.
  intros [Hp Hrows [Hcx Hcy]] Hlt Hc Hfit Ha. destruct (text_position cols t cols_pos) as [Hn Hx].
  assert (length t / cols < rows) as Hy by nia. destruct (Hrows _ Hy) as (l & Hl & Htext & Hcells & Hwidth & Hwrap).
  rewrite Hcy, Hl. cbn [mbind option_bind].
  assert (row_text cols t (length t / cols) = drop (length t / cols * cols) t) as Hrow.
  { unfold row_text. apply take_ge. rewrite length_drop. lia. }
  assert (length (row_text cols t (length t / cols)) = length t mod cols) as Hlen by (rewrite Hrow, length_drop; lia).
  set (l' := touch (update_plain_text_cache (length t mod cols) c l)).
  assert (write_plain_ascii_run (length t mod cols) c l = Some l') as Hw.
  { unfold write_plain_ascii_run. destruct c as [|b c']; [done|]. destruct (Nat.ltb_spec (line_width l) (length t mod cols + length (b :: c'))); [lia|].
    rewrite Htext, Hcells. done. }
  exists l'. split; [done|]. split.
  - intros k Hk. rewrite row_text_app by done. destruct (Nat.eqb_spec k (length t / cols)) as [->|Hne].
    + exists l'. rewrite list_lookup_alter_eq, Hl. split; [done|]. unfold l', update_plain_text_cache.
      rewrite Htext, <- Hlen. cbn [default from_option id]. rewrite splice_after, Hrow. split_and!; try done.
    + destruct (Hrows k Hk) as (lk & ? & ? & ? & ? & ?). exists lk. rewrite list_lookup_alter_ne by done. done.
  - unfold current_line_mut. apply plain_line; [done|]. rewrite Hcy. eapply plain_line_ok; [apply (ps_ok _ _ _ Hp)|exact Hl|exact Ha|exact Hw].
Qed.

Lemma advance_shows t c s :
  plain_screen cols rows s -> s_cursor_y s = length t / cols -> length t < cols * rows -> c <> [] ->
  length t mod cols + length c <= cols ->
  rows_show cols rows (t ++ c) (fun k => S k * cols <=? length t) (visible (s_grid s)) ->
  shows cols rows (t ++ c) (advance (length t mod cols) (length c) s).
Proof.
  intros Hp Hcy Hlt Hc Hfit Hrows. destruct (text_position cols t cols_pos) as [Hn Hx].
  assert (length t / cols < rows) as Hy by nia.
  assert (1 <= length c) as Hc1 by (destruct c; [done|simpl; lia]).
  assert (length (t ++ c) = length t + length c) as Hlen by apply length_app.
  assert (shown : rows_show cols rows (t ++ c) (fun k => S k * cols <? length (t ++ c)) (visible (s_grid s))).
  { eapply rows_show_ext; [done|]. intros k Hk. cbv beta. rewrite Hlen. 
    destruct (Nat.leb_spec (S k * cols) (length t)), (Nat.ltb_spec (S k * cols) (length t + length c)); try done; [lia|].
    exfalso. assert (S k <= length t / cols) by (apply Nat.lt_succ_r, (Nat.mul_lt_mono_pos_r cols); lia). nia. }
  unfold advance. rewrite (ps_wrap _ _ _ Hp), (ps_cols _ _ _ Hp). cbn [andb]. unfold max_cursor_x. rewrite (ps_cols _ _ _ Hp), Hcy.
  assert (length (t ++ c) = length t / cols * cols + (length t mod cols + length c)) as Hl by lia.
  destruct (Nat.leb_spec cols (length t mod cols + length c)) as [Hfull|Hpart].
  - assert (length (t ++ c) = S (length t / cols) * cols) as Hl' by lia.
    constructor; [apply plain_cursor; [done|lia|lia]|done|]. rewrite Hl', Nat.Div0.mod_mul, Nat.div_mul, Nat.eqb_refl by lia.
    destruct (Nat.ltb_spec 0 (S (length t / cols) * cols)); [|lia]. cbn [andb]. split_and!; [done|simpl; lia|done].
  - assert (length (t ++ c) mod cols = length t mod cols + length c) as Hm.
    { rewrite Hl, Nat.add_comm, Nat.Div0.mod_add. by apply Nat.mod_small. }
    assert (length (t ++ c) / cols = length t / cols) as Hd.
    { rewrite Hl, Nat.div_add_l by lia. rewrite (Nat.div_small (length t mod cols + length c)) by done. lia. }
    constructor; [apply plain_cursor; [done|lia|lia]|done|]. rewrite Hm, Hd.
    destruct (Nat.eqb_spec (length t mod cols + length c) 0); [lia|]. rewrite andb_false_r. split_and!; [simpl; lia|done|done].
Qed.

Lemma plain_run_shows fuel bytes cell t s :
  shows cols rows t s -> is_ascii bytes = true -> length t + length bytes <= cols * rows -> length bytes <= fuel ->
  exists s', plain_run_loop now unicode_width fuel bytes cell s = Some s' /\ shows cols rows (t ++ bytes) s'.
Proof.
  revert bytes t s. induction fuel as [|fuel IH]; intros bytes t s Hs Ha Hle Hfuel.
  - destruct bytes; [|simpl in Hfuel; lia]. exists s. by rewrite app_nil_r.
  - cbn [plain_run_loop]. destruct bytes as [|b bytes']; [exists s; by rewrite app_nil_r|].
    assert (length (b :: bytes') >= 1) as Hlb by (simpl; lia). revert Ha Hle Hfuel Hlb. generalize (b :: bytes'). clear b bytes'.
    intros bytes Ha Hle Hfuel Hlb. assert (length t < cols * rows) as Hlt by lia. destruct (text_position cols t cols_pos) as [Hn Hx].
    assert (length t / cols < rows) as Hy by nia. cbv zeta.
    assert (s_pending_wrap s && wrap_mode s = (0 <? length t) && (length t mod cols =? 0)) as Hcont.
    { pose proof (sh_cursor _ _ _ _ Hs) as Hcur. rewrite (ps_wrap _ _ _ (sh_plain _ _ _ _ Hs)), andb_true_r.
      destruct (_ && _); by destruct Hcur as (_ & _ & ->). }
    rewrite Hcont. destruct (shows_ready t s Hs Hlt) as (s1 & -> & Hr). cbn [mbind option_bind].
    pose proof (rd_plain _ _ _ _ Hr) as Hp. pose proof (rd_cursor _ _ _ _ Hr) as [Hcx Hcy].
    rewrite (ps_rows _ _ _ Hp), Hcy. destruct (Nat.leb_spec rows (length t / cols)); [lia|].
    assert (cursor_column s1 = length t mod cols) as Hcol.
    { unfold cursor_column, max_cursor_x. rewrite (ps_cols _ _ _ Hp). lia. }
    rewrite Hcol.
    set (s2 := if (length t mod cols =? 0) && _ then _ else s1).
    assert (s2 = s1) as ->.
    { unfold s2. destruct (Nat.eqb_spec (length t mod cols) 0) as [E|E]; [|done]. rewrite andb_true_r. cbn [andb].
      destruct (Nat.ltb_spec 0 (length t)); [done|]. cbn [negb]. unfold break_previous_wrapped_line.
      replace (s_cursor_y s1) with 0; [done|]. rewrite Hcy. replace (length t) with 0 by lia. symmetry. apply Nat.Div0.div_0_l. }
    rewrite (ps_cols _ _ _ Hp), (ps_wrap _ _ _ Hp). cbn [negb andb]. destruct (Nat.eqb_spec (cols - length t mod cols) 0); [lia|].
    set (w := cols - length t mod cols). assert (take w bytes <> []) as Hne.
    { intros E. apply (f_equal length) in E. rewrite length_take in E. simpl in E. lia. }
    assert (length t mod cols + length (take w bytes) <= cols) as Hfit by (rewrite length_take; lia).
    destruct (ready_write t (take w bytes) s1 Hr Hlt Hne Hfit (is_ascii_take _ _ Ha)) as (l & Hw & Hrows & Hp'). rewrite Hw.
    destruct (IH (drop w bytes) (t ++ take w bytes)
      (advance (length t mod cols) (length (take w bytes)) (current_line_mut (fun _ => l) s1))) as (s' & Hrun & Hs').
    + by apply advance_shows.
    + by apply is_ascii_drop.
    + rewrite length_app, length_take, length_drop. lia.
    + rewrite length_drop. lia.
    + exists s'. split; [exact Hrun|]. rewrite <- app_assoc, take_drop in Hs'. done.
Qed.

End Run.

(** ** Through the parser *)

Record plain_parser (p : InputParser) : Prop := {
  pp_state : state p = Ground;
  pp_utf8 : utf8_started p = false;
  pp_cell : pcell p = default_cell_state
}.

Lemma printable_run_full bytes : forallb is_printable bytes = true -> printable_run bytes = (bytes, []).
Proof. induction bytes as [|b bytes IH]; simpl; [done|]. intros [-> H]%andb_prop. by rewrite IH. Qed.

Lemma parse_printable {W} `{ScreenWriter W} bytes p (w : W) :
  plain_parser p -> forallb is_printable bytes = true ->
  exists p', parse bytes p w = Some (p', if bool_decide (bytes = []) then w else write (collect_add_ascii_run bytes default_cell_state false) w)
  /\ plain_parser p'.
Proof.
  intros [Hs Hu Hc] Hb. unfold parse. destruct bytes as [|b bytes]; [by eexists; split; [reflexivity|constructor]|].
  cbn [parse_loop length]. rewrite (printable_run_full (b :: bytes) Hb).
  change (state (with_printed_in_current_parse false p)) with (state p).
  change (utf8_started (with_printed_in_current_parse false p)) with (utf8_started p). rewrite Hs, Hu.
  unfold handle_printable_ascii_run, acs. change (pcell (with_printed_in_current_parse false p)) with (pcell p). rewrite Hc.
  cbn -[parse_loop last]. destruct (length bytes); (eexists; split; [reflexivity|]); destruct (last (b :: bytes)); by constructor.
Qed.

Lemma feed_shows now unicode_width cols rows bytes t term :
  1 <= cols -> plain_parser (tp_parser term) -> shows cols rows t (tp_screen term) ->
  forallb is_printable bytes = true -> length t + length bytes <= cols * rows ->
  exists term', feed now unicode_width bytes term = Some term' /\ plain_parser (tp_parser term')
  /\ shows cols rows (t ++ bytes) (tp_screen term').
Proof.
  intros Hcols Hpp Hs Hb Hle. unfold feed.
  destruct (@parse_printable _ (Screen_writer now unicode_width) bytes _ (Some (tp_screen term)) Hpp Hb) as (p' & -> & Hp').
  cbn [mbind option_bind]. destruct (bool_decide (bytes = [])) eqn:E.
  - apply bool_decide_eq_true in E as ->. eexists. split; [reflexivity|]. split; [done|]. by rewrite app_nil_r.
  - apply bool_decide_eq_false in E. cbn [Screen_writer write mbind option_bind write_screen].
    pose proof (sh_plain _ _ _ _ Hs) as Hp.
    destruct (plain_run_shows now unicode_width cols rows Hcols (length bytes) bytes default_cell_state t (tp_screen term))
      as (s' & Hrun & Hs'); [done|by apply printable_ascii|done|done|].
    assert (do_ascii_run now unicode_width bytes default_cell_state false (tp_screen term) = Some s') as ->.
    { unfold do_ascii_run. destruct bytes as [|b bytes']; [done|]. rewrite (ps_insert _ _ _ Hp), (clear_selected_off _ (ps_selected _ _ _ Hp)).
      pose proof (screen_size_pos _ (ps_ok _ _ _ Hp)).
      destruct (Nat.eqb_spec (screen_sx (tp_screen term)) 0); [lia|]. destruct (Nat.eqb_spec (screen_sy (tp_screen term)) 0); [lia|]. exact Hrun. }
    cbn [mbind option_bind]. by eexists.
Qed.

(** The reads of a pane, one after the other. *)
Definition feed_all (now : Z) (unicode_width : Z -> option nat) (reads : list (list Z)) (t : TerminalParser) : option TerminalParser :=
  fold_left (fun m bytes => m ≫= feed now unicode_width bytes) reads (Some t).

Lemma feed_all_shows now unicode_width cols rows reads t term :
  1 <= cols -> plain_parser (tp_parser term) -> shows cols rows t (tp_screen term) ->
  Forall (fun bytes => forallb is_printable bytes = true) reads -> length t + length (concat reads) <= cols * rows ->
  exists term', feed_all now unicode_width reads term = Some term' /\ shows cols rows (t ++ concat reads) (tp_screen term').
Proof.
  intros Hcols Hpp Hs Hb. revert t term Hpp Hs. unfold feed_all.
  induction Hb as [|bytes reads Hb Hbs IH]; intros t term Hpp Hs Hle; simpl in *.
  - exists term. by rewrite app_nil_r.
  - rewrite length_app in Hle. destruct (feed_shows now unicode_width cols rows bytes t term Hcols Hpp Hs Hb) as (term' & -> & Hpp' & Hs'); [lia|].
    rewrite app_assoc. apply IH; [done|done|]. rewrite length_app. lia.
Qed.

Lemma new_shows cols rows limit :
  1 <= cols <= u16_limit -> 1 <= rows <= u16_limit -> shows cols rows [] (tp_screen (terminal_new cols rows limit)).
Proof.
  intros Hc Hr. constructor.
  - constructor; try done; simpl; try (unfold screen_sx, screen_sy; simpl; lia).
    apply with_options_ok, screen_new_ok; lia.
  - intros k Hk. exists (line_new cols). simpl. rewrite (Nat.max_l cols), (Nat.max_l rows) by lia.
    split; [by apply lookup_replicate|]. unfold row_text. rewrite drop_nil, take_nil. done.
  - simpl. rewrite Nat.Div0.mod_0_l, Nat.Div0.div_0_l. done.
Qed.

Lemma shown_rows cols rows t w v :
  rows_show cols rows t w v -> length v = rows ->
  map render_text v = map (fun k => trim_end (row_text cols t k)) (seq 0 rows) /\ map is_wrapped v = map w (seq 0 rows).
Proof.
  intros H Hl. split; apply list_eq; intros k; rewrite !list_lookup_fmap;
    (destruct (decide (k < rows)) as [Hk|Hk]; [|rewrite (lookup_ge_None_2 v), lookup_seq_ge by lia; done]);
    destruct (H k Hk) as (l & -> & Ht & _ & _ & Hw); rewrite lookup_seq_lt by done; simpl; f_equal; [|done].
  unfold render_text. rewrite Ht. apply trim_end_idemp.
Qed.

(** C2. What a pane prints is what its screen shows.  Printable characters fed to a
    new terminal, in whatever reads they arrive, fill its rows from the left: row
    [k] reads the characters from [k * cols] on, up to spaces at its end, and is
    marked as wrapped exactly if the text goes on in the next row.  The cursor is
    after the last character, or on it with a wrap pending when the row is full,
    and nothing has gone to the history. *)
Theorem printed_text_shows now unicode_width cols rows limit reads :
  1 <= cols <= u16_limit -> 1 <= rows <= u16_limit ->
  Forall (fun bytes => forallb is_printable bytes = true) reads -> length (concat reads) <= cols * rows ->
  let t := concat reads in
  exists term, feed_all now unicode_width reads (terminal_new cols rows limit) = Some term
  /\ let s := tp_screen term in
  map render_text (visible (s_grid s)) = map (fun k => trim_end (row_text cols t k)) (seq 0 rows)
  /\ map is_wrapped (visible (s_grid s)) = map (fun k => S k * cols <? length t) (seq 0 rows)
  /\ history (s_grid s) = []
  /\ (s_cursor_x s, s_cursor_y s, s_pending_wrap s)
     = if (0 <? length t) && (length t mod cols =? 0) then (cols - 1, length t / cols - 1, true)
       else (length t mod cols, length t / cols, false).
Proof.
  intros Hc Hr Hb Hle t. destruct (feed_all_shows now unicode_width cols rows reads [] (terminal_new cols rows limit))
    as (term & -> & [Hp Hrows Hcur]); [lia|by constructor|by apply new_shows|done|done|].
  exists term. split; [done|]. cbv zeta. change ([] ++ concat reads) with t in *.
  destruct (shown_rows _ _ _ _ _ Hrows) as [H1 H2].
  { rewrite (ok_rows _ (so_grid _ (ps_ok _ _ _ Hp))). apply Hp. }
  split_and!; [done|done|apply Hp|]. destruct (_ && _); by destruct Hcur as (-> & -> & ->).
Qed.

Lemma printed_text_shows_witness :
  let reads := [[104; 101; 108]; [108; 111; 32; 119; 111]; [114; 108; 100]]%Z in
  let term := feed_all 0 (fun _ => None) reads (terminal_new 4 3 100) in
  (let t := concat reads in
   exists term, feed_all 0 (fun _ => None) reads (terminal_new 4 3 100) = Some term
   /\ let s := tp_screen term in
   map render_text (visible (s_grid s)) = map (fun k => trim_end (row_text 4 t k)) (seq 0 3)
   /\ map is_wrapped (visible (s_grid s)) = map (fun k => S k * 4 <? length t) (seq 0 3)
   /\ history (s_grid s) = []
   /\ (s_cursor_x s, s_cursor_y s, s_pending_wrap s)
      = if (0 <? length t) && (length t mod 4 =? 0) then (4 - 1, length t / 4 - 1, true)
        else (length t mod 4, length t / 4, false))
  /\ (fun term => map render_text (visible (s_grid (tp_screen term)))) <$> term
     = Some [[104; 101; 108; 108]; [111; 32; 119; 111]; [114; 108; 100]]%Z.
Proof.
  intros reads term. split; [|vm_compute; reflexivity]. assert (u16_limit = Z.to_nat 65535) by done.
  apply printed_text_shows; [lia|lia|repeat constructor|vm_compute; lia].
Defined.
