(* ===== verification/Divergences.v ===== *)
(** * Where the screen does not do what it means to

    Examples for behaviour of the screen that its own rules contradict. *)

From S2P Require Import Prelude Utf8 InputCell ScreenWriter GridCell GridLine Grid Utf8Width Hyperlinks Screen.

#[local] Open Scope nat_scope.

(** Every character is one column wide but [a], which the options make two wide. *)
Definition narrow (c : Z) : option nat := Some 1.
Definition wide_a : Utf8Config := mkUtf8Config true [override_single 97 2].

(** A run of ASCII characters ignores a width that the options give one of them:
    [a] takes two columns alone and one in a run, so what the screen shows
    depends on how the characters arrive. *)
Lemma ascii_run_ignores_overrides :
  let s := with_utf8_config wide_a (screen_new 8 1 0) in
  let cursor := option_map s_cursor_x in
  cursor (write_screen 0 narrow (collect_add 97 default_cell_state) s) = Some 2
  /\ cursor (write_screen 0 narrow (collect_add_ascii_run [97%Z] default_cell_state false) s) = Some 1.
Proof. split; vm_compute; reflexivity. Qed.

(** A row of the history whose cells were cut to the used ones keeps its old width
    when it is resized to exactly that many columns. *)
Lemma resize_leaves_stale_width :
  let l := mkLine (replicate 3 (blank_with_bg 1) ++ replicate 2 default_cell) None 5 0 0 0 0 in
  let l' := resize_width_preserving_wrap 3 COLOUR_DEFAULT (compact_for_history l) in
  length (cells l') = 3 /\ line_width l' = 5.
Proof. split; reflexivity. Qed.
