(* ===== verification/GridRender.v ===== *)
(** * Writing rows out again

    [crates/rmux-core/src/grid/render.rs], the rendering half of [grid/cell.rs]
    and [grid.rs]: a row as text with the control sequences that select the
    style of each cell.  A function that appends to an output string returns what
    it appends.  A [ColourCodes] is the list of its values in use. *)

From S2P Require Import Prelude Text Utf8 InputCell InputParser GridCell GridLine Grid Hyperlinks.

#[local] Open Scope Z_scope.

(** ** The codes of a style *)

Definition CHARSET : Z := 128.

Definition ATTR_CODES : list (Z * Z) :=
  [(BRIGHT, 1); (DIM, 2); (ITALICS, 3); (UNDERSCORE, 4); (BLINK, 5); (REVERSE, 7); (HIDDEN, 8); (STRIKETHROUGH, 9);
   (UNDERSCORE_2, 42); (UNDERSCORE_3, 43); (UNDERSCORE_4, 44); (UNDERSCORE_5, 45); (OVERLINE, 53)].

Definition split_rgb (colour : Z) : Z * Z * Z :=
  (Z.land (Z.shiftr colour 16) 255, Z.land (Z.shiftr colour 8) 255, Z.land colour 255).

(** The colours with a flag, in the slot that 38, 48 or 58 names. *)
Definition flagged_codes (slot colour : Z) : option (list Z) :=
  if negb (Z.land colour COLOUR_FLAG_256 =? 0) then Some [slot; 5; Z.land colour 255]
  else if negb (Z.land colour COLOUR_FLAG_RGB =? 0) then
    let '(r, g, b) := split_rgb colour in Some [slot; 2; r; g; b]
  else None.

Definition colour_codes_fg (colour : Z) : list Z :=
  match flagged_codes 38 colour with
  | Some codes => codes
  | None =>
      if (0 <=? colour) && (colour <=? 7) then [colour + 30]
      else if colour =? COLOUR_DEFAULT then [39]
      else if (90 <=? colour) && (colour <=? 97) then [colour]
      else []
  end.

Definition colour_codes_bg (colour : Z) : list Z :=
  match flagged_codes 48 colour with
  | Some codes => codes
  | None =>
      if (0 <=? colour) && (colour <=? 7) then [colour + 40]
      else if colour =? COLOUR_DEFAULT then [49]
      else if (90 <=? colour) && (colour <=? 97) then [colour + 10]
      else []
  end.

Definition colour_codes_us (colour : Z) : list Z := default [] (flagged_codes 58 colour).

Definition push_attr_code (code : Z) : list Z :=
  if code <? 10 then number code else number (code / 10) ++ 58 :: number (code mod 10).

(** Items separated by semicolons. *)
Fixpoint join_codes (items : list (list Z)) : list Z :=
  match items with
  | [] => []
  | [x] => x
  | x :: items => x ++ 59 :: join_codes items
  end.

Definition append_escape_prefix (escape_sequences : bool) (suffix : Z) : list Z :=
  (if escape_sequences then [92; 48; 51; 51] else [27]) ++ [suffix].

Definition append_colour_code (newc oldc : list Z) (reset escape_sequences : bool) : list Z :=
  if bool_decide (newc = []) then []
  else if negb reset && bool_decide (newc = oldc) then []
  else if reset && (bool_decide (head newc = Some 39) || bool_decide (head newc = Some 49)) then []
  else append_escape_prefix escape_sequences 91 ++ join_codes (map number newc) ++ [109].

Definition append_hyperlink (id uri : list Z) (escape_sequences : bool) : list Z :=
  append_escape_prefix escape_sequences 93 ++ [56; 59]
  ++ (if bool_decide (id = []) then [59] else [105; 100; 61] ++ id ++ [59])
  ++ uri ++ (if escape_sequences then [92; 48; 51; 51; 92; 92] else [27; 92]).

(** ** From the style of one cell to that of the next *)

Definition has_bit (attr mask : Z) : bool := negb (Z.land attr mask =? 0).

(** Whether the step needs a reset: an attribute or the underline colour ends. *)
Definition needs_reset (lastgc gc : GridCell) : bool :=
  existsb (fun '(mask, _) =>
      (negb (has_bit (cell_attr gc) mask) && has_bit (cell_attr lastgc) mask)
      || (negb (cell_us lastgc =? COLOUR_DEFAULT) && (cell_us gc =? COLOUR_DEFAULT)))
    ATTR_CODES.

(** The attributes left after the reset. *)
Definition lastattr (lastgc gc : GridCell) : Z :=
  if needs_reset lastgc gc then Z.land (cell_attr lastgc) CHARSET else cell_attr lastgc.

Definition attr_sgr (lastgc gc : GridCell) : list Z :=
  (if needs_reset lastgc gc then [0] else [])
  ++ map snd (filter (fun x => has_bit (cell_attr gc) x.1 && negb (has_bit (lastattr lastgc gc) x.1) = true) ATTR_CODES).

Definition same_style (lastgc gc : GridCell) : bool :=
  (cell_attr lastgc =? cell_attr gc) && (cell_fg lastgc =? cell_fg gc) && (cell_bg lastgc =? cell_bg gc)
  && (cell_us lastgc =? cell_us gc) && (cell_link lastgc =? cell_link gc).

Definition append_attrs (sgr : list Z) (escape_sequences : bool) : list Z :=
  match sgr with
  | [] => []
  | _ => append_escape_prefix escape_sequences 91 ++ join_codes (map push_attr_code sgr) ++ [109]
  end.

Definition append_charset (lastattr attr : Z) (escape_sequences : bool) : list Z :=
  (if has_bit attr CHARSET && negb (has_bit lastattr CHARSET)
   then if escape_sequences then [92; 48; 49; 54] else [14] else [])
  ++ (if negb (has_bit attr CHARSET) && has_bit lastattr CHARSET
      then if escape_sequences then [92; 48; 49; 55] else [15] else []).

Definition append_link (lastgc gc : GridCell) (escape_sequences : bool) (hyperlinks : option Hyperlinks) (has_link : bool)
    : list Z * bool :=
  match hyperlinks with
  | None => ([], has_link)
  | Some links =>
      if cell_link lastgc =? cell_link gc then ([], has_link)
      else match get_link (cell_link gc) links with
           | Some link => (append_hyperlink (internal_id link) (uri link) escape_sequences, true)
           | None => if has_link then (append_hyperlink [] [] escape_sequences, false) else ([], has_link)
           end
  end.

(** What is appended, and the flag that a link is open. *)
Definition append_grid_string_code (lastgc gc : GridCell) (escape_sequences : bool) (hyperlinks : option Hyperlinks)
    (has_link : bool) : list Z * bool :=
  if same_style lastgc gc then ([], has_link)
  else
    let sgr := attr_sgr lastgc gc in
    let reset := bool_decide (head sgr = Some 0) in
    let '(link_code, has_link) := append_link lastgc gc escape_sequences hyperlinks has_link in
    (append_attrs sgr escape_sequences
     ++ append_colour_code (colour_codes_fg (cell_fg gc)) (colour_codes_fg (cell_fg lastgc)) reset escape_sequences
     ++ append_colour_code (colour_codes_bg (cell_bg gc)) (colour_codes_bg (cell_bg lastgc)) reset escape_sequences
     ++ append_colour_code (colour_codes_us (cell_us gc)) (colour_codes_us (cell_us lastgc)) reset escape_sequences
     ++ append_charset (lastattr lastgc gc) (cell_attr gc) escape_sequences
     ++ link_code, has_link).

Definition render_cell_state_ansi (state : CellState) (hyperlinks : Hyperlinks) : list Z :=
  fst (append_grid_string_code (blank_with_bg COLOUR_DEFAULT) (from_state 32 1 state 0) false (Some hyperlinks) false).

(** ** The text of a cell *)

Definition is_printable_capture_byte (byte : Z) : bool := (32 <=? byte) && negb (byte =? 92) && negb (byte =? 127).

Definition push_octal_escape (byte : Z) : list Z :=
  [92; 48 + Z.land (Z.shiftr byte 6) 7; 48 + Z.land (Z.shiftr byte 3) 7; 48 + Z.land byte 7].

Definition append_cell_text (c : GridCell) (escape_sequences : bool) : list Z :=
  if flags_contains (cell_flags c) TAB then [9]
  else if negb escape_sequences then as_str (cell_text c)
  else match as_str (cell_text c) with
       | [byte] =>
           if byte =? 92 then [92; 92]
           else if is_printable_capture_byte byte then [byte]
           else push_octal_escape byte
       | text => text
       end.

(** ** Options and state *)

Record GridRenderOptions : Type := mkRenderOptions {
  join_wrapped : bool;
  with_sequences : bool;
  escape_sequences : bool;
  include_empty_cells : bool;
  use_tmux_cell_capacity : bool;
  trim_spaces : bool
}.

Definition default_render_options : GridRenderOptions := mkRenderOptions false false false true false true.

(** [GridStringState] is the cell written last. *)
Definition GridStringState : Type := GridCell.
Definition default_string_state : GridStringState := blank_with_bg COLOUR_DEFAULT.

(** The step to the default style, any link closed again. *)
Definition to_default_style (options : GridRenderOptions) (hyperlinks : option Hyperlinks) (state : GridStringState) : list Z :=
  let '(code, has_link) :=
    append_grid_string_code state (blank_with_bg COLOUR_DEFAULT) (escape_sequences options) hyperlinks false in
  code ++ (if has_link then append_hyperlink [] [] (escape_sequences options) else []).

(** The output and the state after it; also [append_plain_text_state_prefix]. *)
Definition reset_to_default_line_style (options : GridRenderOptions) (hyperlinks : option Hyperlinks) (state : GridStringState)
    : list Z * GridStringState :=
  if negb (with_sequences options) then ([], state)
  else (to_default_style options hyperlinks state, blank_with_bg COLOUR_DEFAULT).

Definition append_plain_text_state_prefix (options : GridRenderOptions) (hyperlinks : option Hyperlinks) (state : GridStringState)
    : list Z * GridStringState :=
  if negb (with_sequences options) then ([], state)
  else (to_default_style options hyperlinks state, blank_with_bg COLOUR_DEFAULT).

(** ** The columns a row paints *)

Record RenderedLineSpan : Type := mkSpan { span_columns : Z; leading_columns : Z }.

Definition default_span : RenderedLineSpan := mkSpan 0 0.
Definition leading_one (columns : Z) : RenderedLineSpan := mkSpan columns (if columns =? 0 then 0 else 1).

Definition span_push (width : Z) (s : RenderedLineSpan) : RenderedLineSpan :=
  mkSpan (u32_sat_add (span_columns s) width) (if span_columns s =? 0 then width else leading_columns s).

Definition pop_column (s : RenderedLineSpan) : RenderedLineSpan :=
  let columns := sat_sub (span_columns s) 1 in
  mkSpan columns (if columns =? 0 then 0 else leading_columns s).

(** ** Where a row ends *)

#[local] Open Scope nat_scope.

(** How many of the first [n] cells come before the spaces at their end. *)
Fixpoint before_default_spaces (cs : list GridCell) (n : nat) : nat :=
  match n with
  | O => O
  | S m => match cs !! m with
           | Some c => if is_explicit_default_space c then before_default_spaces cs m else n
           | None => n
           end
  end.

Definition ends_with_default_spaces_after_styled_cells (l : GridLine) (used : nat) : bool :=
  let first_trailing_space := before_default_spaces (cells l) used in
  (first_trailing_space <? used) && existsb has_non_default_style (take first_trailing_space (cells l)).

Definition tmux_capture_cell_end (l : GridLine) (width : nat) : nat :=
  let used := used_end l in
  if used =? 0 then 0
  else if ends_with_default_spaces_after_styled_cells l used then used
  else tmux_cell_capacity l width.

Definition render_cell_end (l : GridLine) (width : nat) (options : GridRenderOptions) : nat :=
  let used := used_end l in
  if trim_spaces options then if include_empty_cells options then used `min` width else used
  else if include_empty_cells options && use_tmux_cell_capacity options then tmux_capture_cell_end l width
  else if include_empty_cells options then width
  else used.

Definition plain_text_render_end (l : GridLine) (text_len : nat) (options : GridRenderOptions) : nat :=
  if join_wrapped options && negb (trim_spaces options) then plain_text_data_end l `max` text_len else text_len.

Definition plain_text_capture_end (used width : nat) (options : GridRenderOptions) : nat :=
  if trim_spaces options then if include_empty_cells options then used `min` width else used
  else if include_empty_cells options && use_tmux_cell_capacity options then
    if used =? 0 then 0
    else
      let bucket_used := used `max` 1 in
      let quarter := (width / 4) `max` 1 in
      let half := (width / 2) `max` quarter in
      if bucket_used <? quarter then quarter else if bucket_used <? half then half else width
  else if include_empty_cells options then width
  else used.

(** ** Rows in compact form *)

(** Also [append_plain_text_bytes_with_options], which is the same on bytes. *)
Definition append_plain_text_with_options (text : list Z) (used width : nat) (options : GridRenderOptions) : list Z :=
  let stop := plain_text_capture_end used width options in
  let copied := take (length text `min` stop) text in
  let output := copied ++ (if length text <? stop then replicate (stop - length text) 32%Z else []) in
  if trim_spaces options then trim_end output else output.

Definition append_plain_text_bytes_with_options (text : list Z) (used width : nat) (options : GridRenderOptions) : list Z :=
  append_plain_text_with_options text used width options.

(** [u32::try_from(n).unwrap_or(u32::MAX)] *)
Definition u32_saturated (n : nat) : Z := Z.min u32_max (Z.of_nat n).

(** ** Rows of cells *)

Record RenderState : Type := mkRenderState {
  rendered : list Z;
  open_link : bool;
  last_cell : GridStringState;
  span : RenderedLineSpan
}.

Definition render_cell (options : GridRenderOptions) (hyperlinks : option Hyperlinks) (s : RenderState) (c : GridCell) : RenderState :=
  if flags_contains (cell_flags c) PADDING then s
  else
    let '(code, has_link) :=
      if with_sequences options
      then append_grid_string_code (last_cell s) c (escape_sequences options) hyperlinks (open_link s)
      else ([], open_link s) in
    mkRenderState (rendered s ++ code ++ append_cell_text c (escape_sequences options)) has_link
      (if with_sequences options then c else last_cell s)
      (span_push (Z.of_nat (cell_width c `max` 1)) (span s)).

(** The output, the span and the state after the row. *)
Definition render_with_options_measured (l : GridLine) (width : nat) (options : GridRenderOptions) (hyperlinks : option Hyperlinks)
    (state : GridStringState) : list Z * RenderedLineSpan * GridStringState :=
  match plain_text l with
  | Some text =>
      let '(prefix, state) := append_plain_text_state_prefix options hyperlinks state in
      let used := plain_text_render_end l (length text) options in
      let output := append_plain_text_with_options text used width options in
      (prefix ++ output, leading_one (u32_saturated (length output)), state)
  | None =>
      let stop := render_cell_end l width options in
      let s := fold_left (render_cell options hyperlinks) (take stop (cells l)) (mkRenderState [] false state default_span) in
      let filled := if include_empty_cells options then stop - length (cells l) else 0 in
      let span := Nat.iter filled (span_push 1) (span s) in
      let output := rendered s ++ replicate filled 32%Z
        ++ (if open_link s then append_hyperlink [] [] (escape_sequences options) else []) in
      if trim_spaces options
      then (trim_end output, Nat.iter (length output - length (trim_end output)) pop_column span, last_cell s)
      else (output, span, last_cell s)
  end.

Definition render_with_options (l : GridLine) (width : nat) (options : GridRenderOptions) (hyperlinks : option Hyperlinks)
    (state : GridStringState) : list Z * GridStringState :=
  let '(output, _, state) := render_with_options_measured l width options hyperlinks state in (output, state).

(** [None] when the row must be rendered the other way. *)
Definition render_bytes_with_options (l : GridLine) (width : nat) (options : GridRenderOptions) : option (list Z) :=
  if with_sequences options || escape_sequences options then None
  else match plain_text l with
       | Some text =>
           let used := plain_text_render_end l (length text) options in
           Some (append_plain_text_bytes_with_options text used width options)
       | None =>
           let stop := render_cell_end l width options in
           let output :=
             concat (map (fun c =>
               if flags_contains (cell_flags c) PADDING then []
               else if flags_contains (cell_flags c) TAB then [9%Z]
               else as_str (cell_text c)) (take stop (cells l)))
             ++ (if include_empty_cells options && (length (cells l) <? stop)
                 then replicate (stop - length (cells l)) 32%Z else []) in
           Some (if trim_spaces options then trim_end output else output)
       end.

(** ** Rows of the grid *)

Definition render_absolute_line (g : Grid) (y : nat) (options : GridRenderOptions) (hyperlinks : option Hyperlinks)
    (state : GridStringState) : option (list Z * GridStringState) :=
  (fun l => render_with_options l (sx g) options hyperlinks state) <$> absolute_line g y.

Definition render_absolute_line_measured (g : Grid) (y : nat) (options : GridRenderOptions) (hyperlinks : option Hyperlinks)
    (state : GridStringState) : option (list Z * RenderedLineSpan * GridStringState) :=
  (fun l => render_with_options_measured l (sx g) options hyperlinks state) <$> absolute_line g y.

(** The output appended and the state after it. *)
Definition append_rendered_absolute_line (g : Grid) (y : nat) (options : GridRenderOptions) (hyperlinks : option Hyperlinks)
    (state : GridStringState) : option (list Z * GridStringState) :=
  l ← absolute_line g y;
  match render_bytes_with_options l (sx g) options with
  | Some output => Some (output, state)
  | None => Some (render_with_options l (sx g) options hyperlinks state)
  end.

Definition absolute_line_trailing_reflow_gap (g : Grid) (y : nat) : option nat := trailing_reflow_gap <$> absolute_line g y.

(** The options of [Grid::capture] when rows are joined. *)
Definition joined_options : GridRenderOptions := mkRenderOptions true false false false false false.

Definition capture_step (g : Grid) (acc : list (list Z) * list Z) (l : GridLine) : list (list Z) * list Z :=
  let '(lines, pending) := acc in
  let pending := pending ++ fst (render_with_options l (sx g) joined_options None default_string_state) in
  if is_wrapped l then (lines, pending) else (lines ++ [pending], []).

Definition grid_capture (g : Grid) (join_wrapped : bool) : list (list Z) :=
  if join_wrapped then
    let '(lines, pending) := fold_left (capture_step g) (all_lines g) ([], []) in
    if bool_decide (pending = []) then lines else lines ++ [pending]
  else map render_text (all_lines g).
