(* ===== verification/RenderReplay.v ===== *)
(** * Rendered rows replay

    The control sequences [append_grid_string_code] writes between two cells take
    a parser from the style of the first to that of the second, so a rendered row
    read by another parser draws the same characters in the same styles. *)

From S2P Require Import Prelude Text Utf8 InputStates InputCell Passthrough ScreenWriter InputTables InputParser InputRendition InputEquiv InputInv InputReplay InputText GridCell GridLine GridLineInv Grid Hyperlinks GridRender.

#[local] Open Scope Z_scope.

(** ** Colours as codes *)

(** A flag of a number whose part below it is known. *)
Lemma land_flag q r n : 0 <= n -> 0 <= r < 2 ^ n -> Z.land (q * 2 ^ n + r) (2 ^ n) = if Z.odd q then 2 ^ n else 0.
Proof.
  intros Hn Hr. apply Z.bits_inj'. intros i Hi. rewrite Z.land_spec, Z.pow2_bits_eqb by done.
  destruct (Z.eqb_spec n i) as [<-|Hne].
  - rewrite andb_true_r, <- (lor_shifted q r n) by done. rewrite Z.lor_spec, Z.mul_pow2_bits by lia.
    rewrite Z.sub_diag, Z.bit0_odd.
    assert (Z.testbit r n = false) as ->.
    { destruct (Z.eq_dec r 0) as [->|]; [apply Z.bits_0|]. apply Z.bits_above_log2; [lia|]. apply Z.log2_lt_pow2; lia. }
    rewrite orb_false_r. destruct (Z.odd q); [by rewrite Z.pow2_bits_true|by rewrite Z.bits_0].
  - rewrite andb_false_r. destruct (Z.odd q); [|by rewrite Z.bits_0]. rewrite Z.pow2_bits_eqb by done. by destruct (Z.eqb_spec n i).
Qed.

Lemma flags_of_small c : 0 <= c < 2 ^ 24 -> Z.land c COLOUR_FLAG_256 = 0 /\ Z.land c COLOUR_FLAG_RGB = 0.
Proof.
  intros Hc. split.
  - replace c with (0 * 2 ^ 24 + c) by lia. change COLOUR_FLAG_256 with (2 ^ 24). by rewrite land_flag by lia.
  - replace c with (0 * 2 ^ 25 + c) by lia. change COLOUR_FLAG_RGB with (2 ^ 25). by rewrite land_flag by lia.
Qed.

Lemma palette_flag c : COLOUR_FLAG_256 <= c <= COLOUR_FLAG_256 + 255 -> Z.land c COLOUR_FLAG_256 = COLOUR_FLAG_256.
Proof.
  unfold COLOUR_FLAG_256. intros Hc. replace c with (1 * 2 ^ 24 + (c - 16777216)) by lia.
  change 16777216 with (2 ^ 24). by rewrite land_flag by lia.
Qed.

Lemma rgb_flags c :
  COLOUR_FLAG_RGB <= c <= COLOUR_FLAG_RGB + 16777215 ->
  Z.land c COLOUR_FLAG_256 = 0 /\ Z.land c COLOUR_FLAG_RGB = COLOUR_FLAG_RGB.
Proof.
  unfold COLOUR_FLAG_RGB. intros Hc. split.
  - replace c with (2 * 2 ^ 24 + (c - 33554432)) by lia. change COLOUR_FLAG_256 with (2 ^ 24). by rewrite land_flag by lia.
  - replace c with (1 * 2 ^ 25 + (c - 33554432)) by lia. change 33554432 with (2 ^ 25). rewrite land_flag by lia. done.
Qed.

Lemma low_byte c : Z.land c 255 = c mod 256.
Proof. apply (Z.land_ones c 8). lia. Qed.

Lemma byte_at c k : 0 <= k -> Z.land (Z.shiftr c k) 255 = (c / 2 ^ k) mod 256.
Proof. intros Hk. by rewrite low_byte, Z.shiftr_div_pow2. Qed.

(** The colour after the 38, 48 or 58 of its codes. *)
Lemma flagged_codes_replay slot c :
  COLOUR_FLAG_256 <= c -> colour_ok c ->
  (flagged_codes slot c = Some [slot; 5; c - COLOUR_FLAG_256] /\ c <= COLOUR_FLAG_256 + 255)
  \/ exists r g b, flagged_codes slot c = Some [slot; 2; r; g; b]
       /\ 0 <= r <= 255 /\ 0 <= g <= 255 /\ 0 <= b <= 255 /\ colour_join_rgb r g b = c.
Proof.
  intros Hge [?|[?|[H256|Hrgb]]]; [unfold COLOUR_FLAG_256 in *; lia|unfold COLOUR_FLAG_256 in *; lia|left|right].
  - unfold flagged_codes. rewrite palette_flag by done. split; [|lia]. simpl. do 3 f_equal.
    rewrite low_byte. f_equal. unfold COLOUR_FLAG_256 in *.
    rewrite (Z.mod_unique c 256 65536 (c - 16777216)); lia.
  - unfold flagged_codes. destruct (rgb_flags c Hrgb) as [-> ->]. simpl. unfold split_rgb.
    rewrite !byte_at, low_byte by lia.
    eexists _, _, _. split; [reflexivity|].
    pose proof (Z.mod_pos_bound (c / 2 ^ 16) 256 ltac:(lia)). pose proof (Z.mod_pos_bound (c / 2 ^ 8) 256 ltac:(lia)).
    pose proof (Z.mod_pos_bound c 256 ltac:(lia)).
    split; [lia|]. split; [lia|]. split; [lia|]. rewrite colour_join_rgb_sum by lia. unfold COLOUR_FLAG_RGB in *.
    change (2 ^ 16) with (256 * 256). change (2 ^ 8) with 256. rewrite <- Z.div_div by lia.
    pose proof (Z.div_mod c 256 ltac:(lia)). pose proof (Z.div_mod (c / 256) 256 ltac:(lia)).
    pose proof (Z.div_mod (c / 256 / 256) 256 ltac:(lia)).
    assert (c / 256 / 256 / 256 = 2); [|lia]. rewrite !Z.div_div by lia.
    symmetry. apply (Z.div_unique c _ 2 (c - 33554432)); lia.
Qed.

Lemma get_number params i n d : params !! i = Some (Number n) -> 0 <= n -> get params i 0 d = n.
Proof. intros Hi Hn. unfold get. rewrite Hi. by rewrite (proj2 (Z.ltb_ge n 0)). Qed.

Definition is_slot (n : Z) : Prop := n = 38 \/ n = 48 \/ n = 58.

Lemma sgr_loop_end fuel params i gc : params !! i = None -> sgr_loop fuel params i gc = gc.
Proof. intros Hi. destruct fuel; [done|]. simpl. by rewrite Hi. Qed.

Lemma sgr_loop_slot fuel params i slot gc :
  is_slot slot -> params !! i = Some (Number slot) ->
  sgr_loop (S fuel) params i gc = let '(gc, i) := sgr_colour params slot (S i) gc in sgr_loop fuel params (S i) gc.
Proof.
  intros Hslot Hi. cbn [sgr_loop]. rewrite Hi. cbv zeta.
  rewrite (get_number _ i slot _ Hi) by (destruct Hslot as [|[]]; lia). by destruct Hslot as [->|[->| ->]].
Qed.

Lemma sgr_palette slot c gc :
  is_slot slot -> 0 <= c <= 255 -> dispatch_sgr [Number slot; Number 5; Number c] gc = set_slot slot (Z.lor c COLOUR_FLAG_256) gc.
Proof.
  intros Hslot Hc. unfold dispatch_sgr. cbn [length]. rewrite (sgr_loop_slot _ _ _ slot) by done.
  unfold sgr_colour. cbv zeta. cbn [Nat.add]. rewrite (get_number _ 1 5), (get_number _ 2 c) by (done || lia).
  rewrite (proj2 (Z.eqb_neq c (-1))), (proj2 (Z.ltb_ge 255 c)) by lia. done.
Qed.

Lemma sgr_rgb slot r g b gc :
  is_slot slot -> 0 <= r <= 255 -> 0 <= g <= 255 -> 0 <= b <= 255 ->
  dispatch_sgr [Number slot; Number 2; Number r; Number g; Number b] gc = set_slot slot (colour_join_rgb r g b) gc.
Proof.
  intros Hslot Hr Hg Hb. unfold dispatch_sgr. cbn [length]. rewrite (sgr_loop_slot _ _ _ slot) by done.
  unfold sgr_colour. cbv zeta. cbn [Nat.add].
  rewrite (get_number _ 1 2), (get_number _ 2 r), (get_number _ 3 g), (get_number _ 4 b) by (done || lia).
  rewrite !(proj2 (Z.eqb_neq _ (-1))), !(proj2 (Z.leb_le _ 255)) by lia. done.
Qed.

(** A colour with a flag. *)
Lemma sgr_flagged slot c codes gc :
  is_slot slot -> colour_ok c -> flagged_codes slot c = Some codes ->
  COLOUR_FLAG_256 <= c /\ dispatch_sgr (map Number codes) gc = set_slot slot c gc.
Proof.
  intros Hslot Hc Hcodes.
  assert (COLOUR_FLAG_256 <= c) as Hge.
  { destruct (Z.le_gt_cases COLOUR_FLAG_256 c); [done|]. unfold flagged_codes in Hcodes.
    destruct (flags_of_small c) as [E1 E2]; [|by rewrite E1, E2 in Hcodes].
    unfold colour_ok, COLOUR_FLAG_256, COLOUR_FLAG_RGB in *. lia. }
  split; [done|]. destruct (flagged_codes_replay slot c Hge Hc) as [[Hf Hle]|(r & g & b & Hf & ? & ? & ? & Hj)];
    rewrite Hf in Hcodes; injection Hcodes as <-.
  - simpl map. rewrite sgr_palette by (done || lia). rewrite palette_colour_sum by lia. f_equal. lia.
  - simpl map. rewrite sgr_rgb by done. by rewrite Hj.
Qed.

Lemma no_flagged_codes slot c : colour_ok c -> flagged_codes slot c = None -> 0 <= c <= 8 \/ 90 <= c <= 97.
Proof.
  intros Hc Hn. destruct (Z.le_gt_cases COLOUR_FLAG_256 c) as [Hge|Hlt].
  - destruct (flagged_codes_replay slot c Hge Hc) as [[Hf _]|(r & g & b & Hf & _)]; congruence.
  - unfold colour_ok, COLOUR_FLAG_256, COLOUR_FLAG_RGB in *. lia.
Qed.

(** Case analysis over a number in a small range. *)
Ltac enumerate v lo hi :=
  let rec go k := lazymatch k with
    | hi => assert (v = k) as -> by lia
    | _ => destruct (Z.eq_dec v k) as [->|]; [|let k' := eval vm_compute in (k + 1) in go k'] end in go lo.

Lemma fg_codes_replay c gc :
  colour_ok c -> colour_codes_fg c <> [] /\ dispatch_sgr (map Number (colour_codes_fg c)) gc = with_fg c gc.
Proof.
  intros Hc. unfold colour_codes_fg. destruct (flagged_codes 38 c) as [codes|] eqn:Hf.
  - destruct (sgr_flagged 38 c codes gc ltac:(by left) Hc Hf) as [Hge ->]. split; [|done].
    destruct (flagged_codes_replay 38 c Hge Hc) as [[Hf' _]|(r & g & b & Hf' & _)]; congruence.
  - destruct (no_flagged_codes 38 c Hc Hf) as [H|H]; clear Hc Hf; [enumerate c 0 8|enumerate c 90 97]; done.
Qed.

Lemma bg_codes_replay c gc :
  colour_ok c -> colour_codes_bg c <> [] /\ dispatch_sgr (map Number (colour_codes_bg c)) gc = with_bg c gc.
Proof.
  intros Hc. unfold colour_codes_bg. destruct (flagged_codes 48 c) as [codes|] eqn:Hf.
  - destruct (sgr_flagged 48 c codes gc ltac:(right; by left) Hc Hf) as [Hge ->]. split; [|done].
    destruct (flagged_codes_replay 48 c Hge Hc) as [[Hf' _]|(r & g & b & Hf' & _)]; congruence.
  - destruct (no_flagged_codes 48 c Hc Hf) as [H|H]; clear Hc Hf; [enumerate c 0 8|enumerate c 90 97]; done.
Qed.

(** The underline colours SGR can select. *)
Definition underline_colour (c : Z) : Prop := c = COLOUR_DEFAULT \/ COLOUR_FLAG_256 <= c.

Lemma us_codes_replay c gc :
  colour_ok c -> COLOUR_FLAG_256 <= c ->
  colour_codes_us c <> [] /\ dispatch_sgr (map Number (colour_codes_us c)) gc = with_us c gc.
Proof.
  intros Hc Hge. unfold colour_codes_us. destruct (flagged_codes 58 c) as [codes|] eqn:Hf; simpl.
  - destruct (sgr_flagged 58 c codes gc ltac:(right; by right) Hc Hf) as [_ ->]. split; [|done].
    destruct (flagged_codes_replay 58 c Hge Hc) as [[Hf' _]|(r & g & b & Hf' & _)]; congruence.
  - destruct (flagged_codes_replay 58 c Hge Hc) as [[Hf' _]|(r & g & b & Hf' & _)]; congruence.
Qed.

Lemma flagged_codes_small slot c codes :
  is_slot slot -> colour_ok c -> flagged_codes slot c = Some codes ->
  Forall (fun n => 0 <= n <= 255) codes /\ (length codes <= 5)%nat /\ head codes = Some slot.
Proof.
  intros Hslot Hc Hf. destruct (sgr_flagged slot c codes InputCell.default_cell Hslot Hc Hf) as [Hge _].
  assert (0 <= slot <= 255) by (destruct Hslot as [->|[->| ->]]; lia).
  destruct (flagged_codes_replay slot c Hge Hc) as [[Hf' ?]|(r & g & b & Hf' & ? & ? & ? & _)];
    rewrite Hf' in Hf; injection Hf as <-; (split; [repeat constructor; lia|split; [simpl; lia|done]]).
Qed.

(** The codes are short lists of small numbers, and only the default colour is
    left to a reset. *)
Lemma fg_codes_shape c :
  colour_ok c -> Forall (fun n => 0 <= n <= 255) (colour_codes_fg c) /\ (length (colour_codes_fg c) <= 5)%nat
    /\ (head (colour_codes_fg c) = Some 39 \/ head (colour_codes_fg c) = Some 49 -> c = COLOUR_DEFAULT).
Proof.
  intros Hc. unfold colour_codes_fg. destruct (flagged_codes 38 c) as [codes|] eqn:Hf.
  - destruct (flagged_codes_small 38 c codes ltac:(by left) Hc Hf) as (H1 & H2 & ->). split_and!; [done|done|]. by intros [].
  - destruct (no_flagged_codes 38 c Hc Hf) as [H|H]; clear Hc Hf; [enumerate c 0 8|enumerate c 90 97];
      (split; [repeat constructor; lia|split; [simpl; lia|]]); try done; by intros [].
Qed.

Lemma bg_codes_shape c :
  colour_ok c -> Forall (fun n => 0 <= n <= 255) (colour_codes_bg c) /\ (length (colour_codes_bg c) <= 5)%nat
    /\ (head (colour_codes_bg c) = Some 39 \/ head (colour_codes_bg c) = Some 49 -> c = COLOUR_DEFAULT).
Proof.
  intros Hc. unfold colour_codes_bg. destruct (flagged_codes 48 c) as [codes|] eqn:Hf.
  - destruct (flagged_codes_small 48 c codes ltac:(right; by left) Hc Hf) as (H1 & H2 & ->). split_and!; [done|done|]. by intros [].
  - destruct (no_flagged_codes 48 c Hc Hf) as [H|H]; clear Hc Hf; [enumerate c 0 8|enumerate c 90 97];
      (split; [repeat constructor; lia|split; [simpl; lia|]]); try done; by intros [].
Qed.

Lemma us_codes_shape c :
  colour_ok c -> Forall (fun n => 0 <= n <= 255) (colour_codes_us c) /\ (length (colour_codes_us c) <= 5)%nat
    /\ (colour_codes_us c = [] \/ head (colour_codes_us c) = Some 58 /\ COLOUR_FLAG_256 <= c).
Proof.
  intros Hc. unfold colour_codes_us. destruct (flagged_codes 58 c) as [codes|] eqn:Hf; simpl.
  - destruct (flagged_codes_small 58 c codes ltac:(right; by right) Hc Hf) as (H1 & H2 & H3).
    destruct (sgr_flagged 58 c codes InputCell.default_cell ltac:(right; by right) Hc Hf) as [? _]. auto.
  - split; [constructor|]. split; [lia|by left].
Qed.

(** Different colours have different codes. *)
Lemma fg_codes_inj c c' : colour_ok c -> colour_ok c' -> colour_codes_fg c = colour_codes_fg c' -> c = c'.
Proof.
  intros Hc Hc' E. destruct (fg_codes_replay c InputCell.default_cell Hc) as [_ H1].
  destruct (fg_codes_replay c' InputCell.default_cell Hc') as [_ H2]. rewrite E, H2 in H1. by injection H1.
Qed.

Lemma bg_codes_inj c c' : colour_ok c -> colour_ok c' -> colour_codes_bg c = colour_codes_bg c' -> c = c'.
Proof.
  intros Hc Hc' E. destruct (bg_codes_replay c InputCell.default_cell Hc) as [_ H1].
  destruct (bg_codes_replay c' InputCell.default_cell Hc') as [_ H2]. rewrite E, H2 in H1. by injection H1.
Qed.

Lemma us_codes_inj c c' : colour_ok c -> colour_ok c' -> colour_codes_us c <> [] -> colour_codes_us c = colour_codes_us c' -> c = c'.
Proof.
  intros Hc Hc' Hne E. destruct (us_codes_shape c Hc) as (_ & _ & [?|[_ Hg]]); [done|].
  destruct (us_codes_shape c' Hc') as (_ & _ & [?|[_ Hg']]); [congruence|].
  destruct (us_codes_replay c InputCell.default_cell Hc Hg) as [_ H1].
  destruct (us_codes_replay c' InputCell.default_cell Hc' Hg') as [_ H2]. rewrite E, H2 in H1. by injection H1.
Qed.

(** ** Attributes as codes *)

(** The codes that read back as what they were written for: all but the one for
    overlined text. *)
Definition replayed_codes : list (Z * Z) := List.filter (fun '(_, code) => negb (code =? 53)) ATTR_CODES.

(** What the parser reads a code as, and what that does. *)
Definition code_param (code : Z) : ParamType := if code <? 10 then Number code else Str (push_attr_code code).
Definition apply_code (gc : InputCell.GridCell) (code : Z) : InputCell.GridCell :=
  if code <? 10 then sgr_number code gc else dispatch_sgr_colon (push_attr_code code) gc.

Definition plain_code (code : Z) : Prop := In code (0 :: map snd replayed_codes).

Lemma plain_code_cases code (P : Z -> Prop) :
  plain_code code -> Forall P [0; 1; 2; 3; 4; 5; 7; 8; 9; 42; 43; 44; 45] -> P code.
Proof. intros Hc HP. rewrite List.Forall_forall in HP. apply HP. exact Hc. Qed.

Lemma code_text code :
  plain_code code ->
  split_part (push_attr_code code) = Some (code_param code)
  /\ forallb is_param (push_attr_code code) = true /\ existsb (Z.eqb 59) (push_attr_code code) = false
  /\ (1 <= length (push_attr_code code) <= 3)%nat.
Proof.
  intros Hc. pattern code. apply (plain_code_cases code _ Hc). repeat constructor; vm_compute; reflexivity || (repeat constructor).
Qed.

Lemma sgr_loop_code code fuel params i gc :
  plain_code code -> params !! i = Some (code_param code) ->
  sgr_loop (S fuel) params i gc = sgr_loop fuel params (S i) (apply_code gc code).
Proof.
  intros Hc. pattern code. apply (plain_code_cases code _ Hc).
  repeat constructor; intros Hi; cbn [sgr_loop]; rewrite Hi; try reflexivity; unfold get; rewrite Hi; reflexivity.
Qed.

Lemma sgr_loop_codes codes : forall fuel params i gc,
  Forall plain_code codes -> drop i params = map code_param codes -> (length codes <= fuel)%nat ->
  sgr_loop fuel params i gc = fold_left apply_code codes gc.
Proof.
  induction codes as [|code codes IH]; intros fuel params i gc Hcodes Hd Hfuel.
  - apply sgr_loop_end. apply lookup_ge_None. apply (f_equal length) in Hd. rewrite length_drop in Hd. simpl in Hd. lia.
  - destruct fuel as [|fuel]; [simpl in Hfuel; lia|]. apply Forall_cons in Hcodes as [Hc Hcodes].
    assert (params !! i = Some (code_param code)) as Hi.
    { rewrite <- (Nat.add_0_r i), <- lookup_drop, Hd. done. }
    assert (drop (S i) params = map code_param codes) as Hd'.
    { rewrite <- Nat.add_1_r, <- drop_drop, Hd. done. }
    assert (sgr_loop (S fuel) params i gc = sgr_loop fuel params (S i) (apply_code gc code)) as ->.
    { apply sgr_loop_code; done. }
    apply IH; [done|done|simpl in Hfuel; lia].
Qed.

Lemma dispatch_sgr_codes codes gc :
  codes <> [] -> Forall plain_code codes -> dispatch_sgr (map code_param codes) gc = fold_left apply_code codes gc.
Proof.
  intros Hne Hc. unfold dispatch_sgr. destruct codes as [|c codes]; [done|]. cbn [map].
  apply (sgr_loop_codes (c :: codes)); [done|done|]. simpl. rewrite length_map. lia.
Qed.

(** Attributes [a] with none outside [n]. *)
Definition within (a n : Z) : Prop := Z.ldiff a n = 0.

Lemma within_lor a b n : within a n -> within b n -> within (Z.lor a b) n.
Proof. apply attr_known_lor. Qed.

Lemma has_bit_testbit n k : 0 <= k -> has_bit n (2 ^ k) = Z.testbit n k.
Proof.
  intros Hk. unfold has_bit. destruct (Z.testbit n k) eqn:E.
  - apply negb_true_iff, Z.eqb_neq. intros H0. apply (f_equal (fun z => Z.testbit z k)) in H0.
    by rewrite Z.land_spec, Z.pow2_bits_true, E, Z.bits_0 in H0.
  - apply negb_false_iff, Z.eqb_eq. apply Z.bits_inj'. intros i Hi. rewrite Z.land_spec, Z.pow2_bits_eqb, Z.bits_0 by done.
    destruct (Z.eqb_spec k i) as [<-|]; [by rewrite E|by rewrite andb_false_r].
Qed.

Lemma within_bit n k : 0 <= k -> has_bit n (2 ^ k) = true -> within (2 ^ k) n.
Proof.
  intros Hk. rewrite has_bit_testbit by done. intros Hn. apply ldiff_zero_iff. intros i Hi.
  rewrite Z.pow2_bits_eqb by done. by intros <-%Z.eqb_eq.
Qed.

Lemma underline_of n mask :
  In mask [UNDERSCORE; UNDERSCORE_2; UNDERSCORE_3; UNDERSCORE_4; UNDERSCORE_5] -> underline_ok n -> has_bit n mask = true ->
  Z.land n ALL_UNDERSCORE = mask.
Proof.
  intros Hin Hok Hb. unfold underline_ok in Hok. unfold has_bit in Hb.
  assert (Z.land n mask = Z.land (Z.land n ALL_UNDERSCORE) mask) as E.
  { rewrite <- Z.land_assoc. f_equal. simpl in Hin. destruct_or! Hin; try done; subst; done. }
  rewrite E in Hb. set_unfold in Hok. simpl in Hin. clear E.
  destruct_or! Hok; rewrite Hok in Hb |- *; destruct_or! Hin; subst; try done.
Qed.

Lemma lor_ldiff_within a n m : within a n -> Z.lor (Z.ldiff a m) (Z.land n m) = Z.lor a (Z.land n m).
Proof.
  unfold within. rewrite ldiff_zero_iff. intros Ha. apply Z.bits_inj'. intros i Hi.
  rewrite !Z.lor_spec, Z.ldiff_spec, Z.land_spec. specialize (Ha i Hi).
  destruct (Z.testbit a i), (Z.testbit n i), (Z.testbit m i); try done; by discriminate Ha.
Qed.

(** Setting an attribute of a style that has at most one kind of underline. *)
Lemma apply_code_sets mask code gc n :
  In (mask, code) replayed_codes -> within (attr gc) n -> has_bit n mask = true -> underline_ok n ->
  apply_code gc code = with_attr (Z.lor (attr gc) mask) gc /\ within mask n.
Proof.
  intros Hin Hw Hb Hok.
  assert (exists k, 0 <= k /\ mask = 2 ^ k) as (k & Hk & Hmask).
  { simpl in Hin. destruct_or! Hin; try done; injection Hin as <- <-;
      [exists 0|exists 1|exists 6|exists 2|exists 3|exists 4|exists 5|exists 8|exists 9|exists 10|exists 11|exists 12]; done. }
  split; [|subst mask; by apply within_bit]. clear k Hk Hmask.
  assert (forall m, In m [UNDERSCORE; UNDERSCORE_2; UNDERSCORE_3; UNDERSCORE_4; UNDERSCORE_5] -> has_bit n m = true ->
    set_bits m (clear_bits ALL_UNDERSCORE gc) = with_attr (Z.lor (attr gc) m) gc) as Hu.
  { intros m Hm Hbm. unfold set_bits, clear_bits, with_attr. simpl. f_equal.
    rewrite <- (underline_of n m Hm Hok Hbm). by apply lor_ldiff_within. }
  simpl in Hin. destruct_or! Hin; try done; injection Hin as <- <-; try reflexivity.
  all: rewrite <- Hu by (done || (simpl; tauto)); reflexivity.
Qed.

(** The attributes a list of entries sets. *)
Lemma apply_codes_set entries n : forall gc,
  Forall (fun e => In e replayed_codes /\ has_bit n e.1 = true) entries -> within (attr gc) n -> underline_ok n ->
  fold_left apply_code (map snd entries) gc = with_attr (fold_left Z.lor (map fst entries) (attr gc)) gc
  /\ within (fold_left Z.lor (map fst entries) (attr gc)) n.
Proof.
  induction entries as [|[mask code] entries IH]; intros gc He Hw Hok; [by destruct gc|].
  apply Forall_cons in He as [[Hin Hb] He]. simpl in Hb.
  destruct (apply_code_sets mask code gc n Hin Hw Hb Hok) as [H1 H2]. cbn [map fold_left fst snd]. rewrite H1.
  destruct (IH (with_attr (Z.lor (attr gc) mask) gc) He) as [H3 H4]; [by apply within_lor|done|].
  simpl attr in *. rewrite H3. split; [by destruct gc|done].
Qed.

Lemma fold_lor_bits masks : forall a i,
  0 <= i -> Z.testbit (fold_left Z.lor masks a) i = Z.testbit a i || existsb (fun m => Z.testbit m i) masks.
Proof.
  induction masks as [|m masks IH]; intros a i Hi; simpl; [by rewrite orb_false_r|].
  rewrite IH by done. rewrite Z.lor_spec. by rewrite orb_assoc.
Qed.

(** ** From one style to the next *)

(** The style of a cell, with the hyperlink the parser is in. *)
Definition style_of (l : Z) (c : GridCell) : InputCell.GridCell :=
  InputCell.mkGridCell (cell_attr c) (cell_fg c) (cell_bg c) (cell_us c) l.

(** Styles that control sequences select, overlined text excepted. *)
Record replayable (c : GridCell) : Prop := {
  style_ok : grid_cell_ok (style_of 0 c);
  not_overlined : has_bit (cell_attr c) OVERLINE = false;
  us_selected : underline_colour (cell_us c)
}.

Lemma known_mask i : 0 <= i -> Z.testbit SGR_ATTRIBUTES i = true -> exists code, In (2 ^ i, code) ATTR_CODES.
Proof.
  intros Hi Hb. assert (i < 14) as Hlt.
  { destruct (Z.lt_ge_cases i 14); [done|]. rewrite Z.bits_above_log2 in Hb; [done|done|].
    eapply Z.lt_le_trans; [|eassumption]. done. }
  enumerate i 0 13; try (vm_compute in Hb; discriminate Hb); eexists; simpl; unfold OVERLINE; tauto.
Qed.

Lemma style_bit c i :
  grid_cell_ok (style_of 0 c) -> 0 <= i -> Z.testbit (cell_attr c) i = true ->
  exists code, In (2 ^ i, code) ATTR_CODES /\ has_bit (cell_attr c) (2 ^ i) = true.
Proof.
  intros Hok Hi Hb. destruct (known_mask i Hi) as [code Hin].
  { pose proof (attr_known _ Hok) as Hk. rewrite ldiff_zero_iff in Hk. by apply Hk. }
  exists code. by rewrite has_bit_testbit.
Qed.

Lemma no_charset c : grid_cell_ok (style_of 0 c) -> Z.land (cell_attr c) CHARSET = 0.
Proof.
  intros Hok. pose proof (attr_known _ Hok) as Hk. rewrite ldiff_zero_iff in Hk. simpl in Hk.
  apply Z.bits_inj'. intros i Hi. rewrite Z.land_spec, Z.bits_0. change CHARSET with (2 ^ 7).
  rewrite Z.pow2_bits_eqb by lia. destruct (Z.eqb_spec 7 i) as [<-|]; [|by rewrite andb_false_r].
  destruct (Z.testbit (cell_attr c) 7) eqn:E; [|done]. by apply Hk in E.
Qed.

Definition set_entries (n m : Z) : list (Z * Z) :=
  filter (fun x => has_bit n x.1 && negb (has_bit m x.1) = true) ATTR_CODES.

Lemma set_entries_replayed c m :
  replayable c -> Forall (fun e => In e replayed_codes /\ has_bit (cell_attr c) e.1 = true) (set_entries (cell_attr c) m).
Proof.
  intros [_ Hov _]. apply List.Forall_forall. intros [mask code] Hin.
  apply list_elem_of_In, list_elem_of_filter in Hin as [Hb Hin%list_elem_of_In]. cbn [fst] in *.
  apply andb_prop in Hb as [Hb _]. split; [|done]. apply List.filter_In. split; [done|].
  destruct (Z.eqb_spec code 53) as [->|]; [|done]. exfalso. simpl in Hin. destruct_or! Hin; try done; try congruence.
Qed.

(** The bits set on top of those already there. *)
Lemma set_entries_bits c m :
  grid_cell_ok (style_of 0 c) -> within m (cell_attr c) ->
  within (fold_left Z.lor (map fst (set_entries (cell_attr c) m)) m) (cell_attr c) ->
  fold_left Z.lor (map fst (set_entries (cell_attr c) m)) m = cell_attr c.
Proof.
  intros Hok Hm Hw. unfold within in Hw. rewrite ldiff_zero_iff in Hw. apply Z.bits_inj'. intros i Hi.
  apply eq_true_iff_eq. split; [by apply Hw|]. intros Hb. rewrite fold_lor_bits by done.
  destruct (Z.testbit m i) eqn:Hmi; [done|]. simpl.
  destruct (style_bit c i Hok Hi Hb) as (code & Hin & Hbit). apply existsb_exists. exists (2 ^ i).
  split; [|by apply Z.pow2_bits_true]. apply in_map_iff. exists (2 ^ i, code). split; [done|].
  apply list_elem_of_In, list_elem_of_filter. split; [|by apply list_elem_of_In].
  cbn [fst]. rewrite Hbit, has_bit_testbit, Hmi by done. done.
Qed.

Lemma no_reset_within lastgc gc :
  grid_cell_ok (style_of 0 lastgc) -> needs_reset lastgc gc = false -> within (cell_attr lastgc) (cell_attr gc).
Proof.
  intros Hok Hr. apply ldiff_zero_iff. intros i Hi Hb. destruct (style_bit lastgc i Hok Hi Hb) as (code & Hin & Hbit).
  unfold needs_reset in Hr. destruct (Z.testbit (cell_attr gc) i) eqn:E; [done|]. exfalso.
  assert (existsb (fun '(mask, _) =>
      (negb (has_bit (cell_attr gc) mask) && has_bit (cell_attr lastgc) mask)
      || (negb (cell_us lastgc =? COLOUR_DEFAULT) && (cell_us gc =? COLOUR_DEFAULT))) ATTR_CODES = true) as Ht; [|congruence].
  apply existsb_exists. exists (2 ^ i, code). split; [done|]. rewrite Hbit, has_bit_testbit, E by done. done.
Qed.

Lemma plain_codes lastgc gc : replayable gc -> Forall plain_code (attr_sgr lastgc gc).
Proof.
  intros Hr. unfold attr_sgr. apply Forall_app. split; [destruct (needs_reset _ _); repeat constructor; by left|].
  apply List.Forall_map. eapply Forall_impl; [apply (set_entries_replayed gc (lastattr lastgc gc) Hr)|].
  intros [m code] [Hin _]. right. apply in_map_iff. by exists (m, code).
Qed.

Lemma attr_sgr_head lastgc gc : replayable gc -> bool_decide (head (attr_sgr lastgc gc) = Some 0) = needs_reset lastgc gc.
Proof.
  intros Hr. unfold attr_sgr. destruct (needs_reset lastgc gc) eqn:E; [done|]. simpl app. apply bool_decide_eq_false.
  intros H0. pose proof (set_entries_replayed gc (lastattr lastgc gc) Hr) as Hf. unfold set_entries in Hf.
  destruct (filter _ ATTR_CODES) as [|[m code] rest]; [done|]. simpl in H0. injection H0 as ->.
  apply Forall_cons in Hf as [[Hin _] _]. simpl in Hin. destruct_or! Hin; congruence.
Qed.

(** The attributes after the codes: those of the next cell; a reset also resets
    the colours. *)
Lemma attr_sgr_replay lastgc gc l :
  grid_cell_ok (style_of 0 lastgc) -> replayable gc ->
  fold_left apply_code (attr_sgr lastgc gc) (style_of l lastgc) =
  with_attr (cell_attr gc) (if needs_reset lastgc gc then with_link l InputCell.default_cell else style_of l lastgc).
Proof.
  intros Hlast Hr. pose proof (style_ok _ Hr) as Hok. pose proof (attr_underline _ Hok) as Hu. simpl in Hu.
  assert (forall base, attr base = lastattr lastgc gc -> within (attr base) (cell_attr gc) ->
    fold_left apply_code (map snd (set_entries (cell_attr gc) (lastattr lastgc gc))) base = with_attr (cell_attr gc) base) as Hset.
  { intros base Ha Hw. destruct (apply_codes_set (set_entries (cell_attr gc) (lastattr lastgc gc)) (cell_attr gc) base) as [H1 H2];
      [by apply set_entries_replayed|done|done|]. rewrite H1. rewrite Ha in *. by rewrite set_entries_bits. }
  unfold attr_sgr, lastattr in *. destruct (needs_reset lastgc gc) eqn:E.
  - rewrite (no_charset _ Hlast) in *. cbn [app fold_left]. apply (Hset (with_link l InputCell.default_cell)); done.
  - apply (Hset (style_of l lastgc)); [done|]. by apply no_reset_within.
Qed.

(** ** Codes as bytes *)

Lemma split_on_no_sep l rest :
  existsb (Z.eqb 59) l = false -> split_on 59 (l ++ 59 :: rest) = l :: split_on 59 rest /\ split_on 59 l = [l].
Proof.
  induction l as [|b l IH]; intros Hd; [split; reflexivity|]. cbn [existsb] in Hd. apply orb_false_iff in Hd as [Hb Hd].
  destruct (IH Hd) as [H1 H2]. simpl. rewrite H1, H2, Z.eqb_sym, Hb. done.
Qed.

(** An item that reads as a parameter. *)
Definition reads_as (item : list Z) (t : ParamType) : Prop :=
  item <> [] /\ split_part item = Some t /\ forallb is_param item = true /\ existsb (Z.eqb 59) item = false.

Lemma split_on_join items params :
  Forall2 reads_as items params -> items <> [] -> split_on 59 (join_codes items) = items.
Proof.
  induction 1 as [|x t items params (Hne & _ & _ & Hx) Hr IH]; intros Hitems; [done|].
  destruct items as [|y items]; [apply (split_on_no_sep x [] Hx)|].
  change (join_codes (x :: y :: items)) with (x ++ 59 :: join_codes (y :: items)).
  rewrite (proj1 (split_on_no_sep x _ Hx)), IH; done.
Qed.

Lemma split_parts_items items params : forall l,
  Forall2 reads_as items params -> (length l + length items <= PARAM_LIST_MAX)%nat ->
  split_parts items l = (true, l ++ params).
Proof.
  intros l Hr. revert l. induction Hr as [|x t items params (_ & Hp & _) Hr IH]; intros l Hlen; [by rewrite app_nil_r|].
  cbn [split_parts]. simpl in Hlen. rewrite (proj2 (Nat.leb_gt _ _)) by lia. rewrite Hp.
  rewrite IH by (rewrite length_app; simpl; lia). by rewrite <- app_assoc.
Qed.

Lemma join_params items params : Forall2 reads_as items params -> forallb is_param (join_codes items) = true.
Proof.
  induction 1 as [|x t items params (_ & _ & Hx & _) Hr IH]; [done|]. destruct items as [|y items]; [done|].
  change (join_codes (x :: y :: items)) with (x ++ 59 :: join_codes (y :: items)). rewrite forallb_app, Hx. exact IH.
Qed.

Lemma split_join items params :
  Forall2 reads_as items params -> items <> [] -> (length items <= PARAM_LIST_MAX)%nat ->
  split (join_codes items) = (true, params).
Proof.
  intros Hr Hne Hlen. pose proof (split_on_join items params Hr Hne) as Hs. pose proof (join_params items params Hr) as Hp.
  unfold split. destruct (join_codes items) as [|b l] eqn:Hj.
  { destruct Hr as [|x t items params (Hx & _) Hr]; [done|]. simpl in Hs. injection Hs as Hs. congruence. }
  rewrite ascii_valid.
  - rewrite Hs. by apply (split_parts_items items params []).
  - apply List.Forall_forall. intros x Hx. rewrite forallb_forall in Hp. apply Hp in Hx. unfold is_param, is_digit in Hx. lia.
Qed.

Lemma join_length items k :
  Forall (fun x => (length x <= k)%nat) items -> (length (join_codes items) <= length items * (k + 1))%nat.
Proof.
  induction 1 as [|x items Hx Hi IH]; [done|]. destruct items as [|y items]; [simpl; lia|].
  change (join_codes (x :: y :: items)) with (x ++ 59 :: join_codes (y :: items)). rewrite length_app. simpl in *. lia.
Qed.

Lemma code_reads code : plain_code code -> reads_as (push_attr_code code) (code_param code).
Proof.
  intros (H1 & H2 & H3 & H4)%code_text. split; [|done]. intros E. rewrite E in H4. simpl in H4. lia.
Qed.

Lemma codes_read codes : Forall plain_code codes -> Forall2 reads_as (map push_attr_code codes) (map code_param codes).
Proof. induction 1; constructor; [by apply code_reads|done]. Qed.

Lemma number_reads n : param_number n -> reads_as (number n) (Number n).
Proof.
  intros Hn. destruct (number_spec n) as (Hne & Hd & _); [unfold param_number, u64_max, i32_max in *; lia|].
  split; [done|]. split; [by apply split_part_number|]. split; [by apply digits_params|].
  destruct (existsb (Z.eqb 59) (number n)) eqn:He; [|done]. apply existsb_exists in He as (x & Hx & Hx'%Z.eqb_eq). subst.
  rewrite forallb_forall in Hd. apply Hd in Hx. done.
Qed.

(** Numbers of colours have three digits. *)
Definition small (n : Z) : Prop := 0 <= n <= 255.

Lemma small_length n : small n -> (length (number n) <= 3)%nat.
Proof.
  intros [H0 H1]. assert (forallb (fun k => length (number (Z.of_nat k)) <=? 3)%nat (seq 0 256) = true) as Hall by (vm_compute; done).
  rewrite forallb_forall in Hall. specialize (Hall (Z.to_nat n)). rewrite in_seq, Z2Nat.id in Hall by lia.
  apply Nat.leb_le, Hall. lia.
Qed.

Lemma numbers_read ns : Forall small ns -> Forall2 reads_as (map number ns) (map Number ns).
Proof.
  induction 1 as [|n ns Hn Hns IH]; constructor; [|done]. apply number_reads. unfold small, param_number, i32_max in *. lia.
Qed.

(** ** The parser *)

Section Replay.

Context {W : Type} `{ScreenWriter W}.

Lemma iter_collect_end n w : Nat.iter n (write collect_end) w = run_calls (replicate n collect_end) w.
Proof.
  revert w. induction n as [|n IH]; intros w; [done|]. rewrite Nat.iter_succ_r. simpl. by rewrite IH.
Qed.

(** Reading [bs] selects the style [gc'] and does nothing else. *)
Record switches (bs : list Z) (base : CellState) (gc gc' : InputCell.GridCell) : Prop := {
  switch_selects : exists n, selects bs base gc gc' n;
  switch_tables : by_tables Ground bs = true /\ table_state Ground bs = Ground;
  switch_shape : (bs = [] /\ gc = gc') \/ exists rest, bs = 27 :: rest
}.

Lemma switches_nil base gc : switches [] base gc gc.
Proof. split; [|done|by left]. exists 0%nat. intros p w last Hp. by exists p. Qed.

Lemma switches_app bs bs' base g1 g2 g3 : switches bs base g1 g2 -> switches bs' base g2 g3 -> switches (bs ++ bs') base g1 g3.
Proof.
  intros [[n1 H1] [T1 G1] S1] [[n2 H2] [T2 G2] S2]. split.
  - exists (n1 + n2)%nat. intros p w last Hp. destruct (H1 p w last Hp) as (p1 & E1 & Hp1).
    destruct (H2 p1 (run_calls (replicate n1 collect_end) w) last Hp1) as (p2 & E2 & Hp2). exists p2.
    rewrite parse_bytes_app, E1. simpl. rewrite E2, replicate_add, run_calls_app. done.
  - rewrite by_tables_app, table_state_app, T1, G1. done.
  - destruct S1 as [[-> ->]|[r ->]]; [exact S2|]. right. by eexists.
Qed.

Lemma sgr_switches items params base gc :
  Forall2 reads_as items params -> items <> [] -> (length items <= PARAM_LIST_MAX)%nat -> (length (join_codes items) <= 63)%nat ->
  switches ([27; 91] ++ join_codes items ++ [109]) base gc (dispatch_sgr params gc).
Proof.
  intros Hr Hne Hlen Hbytes. split; [|apply csi_by_tables; [by apply (join_params items params)|lia]|right; by eexists].
  exists (3 + length (join_codes items))%nat. intros p w last (Hs & Hu & Hc & Hl).
  destruct (parse_bytes_raw_csi (join_codes items) params 109 Sgr p w Hs (join_params _ _ Hr) Hbytes
              (split_join _ _ Hr Hne Hlen) eq_refl) as (q & p' & Hq & Hpl & Hd).
  cbn [dispatch_csi_command] in Hd. cbv zeta in Hd. destruct Hd as (Hp & Hs' & Hr').
  exists p'. rewrite <- iter_collect_end. split; [exact Hp|].
  unfold rendition in Hq, Hr'. simpl in Hr'. rewrite Hpl in Hr'. injection Hq as Hc1 _ Hl1 _ _ _ Hu1.
  injection Hr' as Hc2 _ Hl2 _ _ _ Hu2.
  split; [done|]. split; [congruence|]. split; [|congruence]. rewrite Hc2, Hc1, Hc. done.
Qed.

Lemma colour_switches newc oldc reset base gc gc' :
  Forall small newc -> (length newc <= 5)%nat ->
  (append_colour_code newc oldc reset false = [] -> gc' = gc) ->
  (newc <> [] -> dispatch_sgr (map Number newc) gc = gc') ->
  switches (append_colour_code newc oldc reset false) base gc gc'.
Proof.
  intros Hs Hlen Hskip Heff. unfold append_colour_code in *.
  case_bool_decide as Hne; [rewrite Hskip by done; apply switches_nil|].
  destruct (negb reset && _); [rewrite Hskip by done; apply switches_nil|].
  destruct (reset && _); [rewrite Hskip by done; apply switches_nil|].
  rewrite <- Heff by done. change (append_escape_prefix false 91) with [27; 91].
  apply sgr_switches; [by apply numbers_read|by intros ?%map_eq_nil|rewrite length_map; unfold PARAM_LIST_MAX; lia|].
  pose proof (join_length (map number newc) 3) as Hj. rewrite length_map in Hj.
  enough (Forall (fun x => (length x <= 3)%nat) (map number newc)) as Hf by (specialize (Hj Hf); lia).
  apply List.Forall_map. eapply Forall_impl; [exact Hs|]. apply small_length.
Qed.

Lemma attrs_switch lastgc gc base l :
  grid_cell_ok (style_of 0 lastgc) -> replayable gc ->
  switches (append_attrs (attr_sgr lastgc gc) false) base (style_of l lastgc)
    (with_attr (cell_attr gc) (if needs_reset lastgc gc then with_link l InputCell.default_cell else style_of l lastgc)).
Proof.
  intros Hlast Hr. rewrite <- attr_sgr_replay by done. pose proof (plain_codes lastgc gc Hr) as Hplain.
  assert (length (attr_sgr lastgc gc) <= 14)%nat as Hlen.
  { unfold attr_sgr. rewrite length_app, length_map.
    pose proof (length_filter (fun x => has_bit (cell_attr gc) x.1 && negb (has_bit (lastattr lastgc gc) x.1) = true) ATTR_CODES).
    change (length ATTR_CODES) with 13%nat in *. destruct (needs_reset lastgc gc); simpl; lia. }
  unfold append_attrs. destruct (attr_sgr lastgc gc) as [|c codes] eqn:E; [apply switches_nil|]. rewrite <- E in *.
  assert (attr_sgr lastgc gc <> []) as Hne by congruence.
  rewrite <- dispatch_sgr_codes by done. change (append_escape_prefix false 91) with [27; 91].
  apply sgr_switches; [by apply codes_read|by intros ?%map_eq_nil|rewrite length_map; unfold PARAM_LIST_MAX; lia|].
  pose proof (join_length (map push_attr_code (attr_sgr lastgc gc)) 3) as Hj. rewrite length_map in Hj.
  enough (Forall (fun x => (length x <= 3)%nat) (map push_attr_code (attr_sgr lastgc gc))) as Hf by (specialize (Hj Hf); lia).
  apply List.Forall_map. eapply Forall_impl; [exact Hplain|]. intros code (_ & _ & _ & ?)%code_text. lia.
Qed.

(** When no colour is written, the colour is already right. *)
Lemma colour_skipped newc oldc reset :
  append_colour_code newc oldc reset false = [] ->
  newc = [] \/ reset = false /\ newc = oldc \/ reset = true /\ (head newc = Some 39 \/ head newc = Some 49).
Proof.
  unfold append_colour_code. case_bool_decide as Hne; [by left|].
  destruct reset; simpl; [|case_bool_decide; [by auto|done]].
  destruct (bool_decide (head newc = Some 39)) eqn:E1; simpl; [apply bool_decide_eq_true in E1; auto|].
  destruct (bool_decide (head newc = Some 49)) eqn:E2; simpl; [apply bool_decide_eq_true in E2; auto|done].
Qed.

Lemma fg_switches lastgc gc reset base g :
  colour_ok (cell_fg lastgc) -> colour_ok (cell_fg gc) -> fg g = (if reset : bool then COLOUR_DEFAULT else cell_fg lastgc) ->
  switches (append_colour_code (colour_codes_fg (cell_fg gc)) (colour_codes_fg (cell_fg lastgc)) reset false) base g
    (with_fg (cell_fg gc) g).
Proof.
  intros Hl Hc Hg. destruct (fg_codes_shape _ Hc) as (Hs & Hlen & Hd). destruct (fg_codes_replay (cell_fg gc) g Hc) as [Hne Heff].
  apply colour_switches; [done|done| |done].
  intros [?|[[-> E]|[-> E]]]%colour_skipped; [done| |].
  - apply fg_codes_inj in E; [|done|done]. destruct g. simpl in *. unfold with_fg. simpl. congruence.
  - apply Hd in E. destruct g. simpl in *. unfold with_fg. simpl. congruence.
Qed.

Lemma bg_switches lastgc gc reset base g :
  colour_ok (cell_bg lastgc) -> colour_ok (cell_bg gc) -> bg g = (if reset : bool then COLOUR_DEFAULT else cell_bg lastgc) ->
  switches (append_colour_code (colour_codes_bg (cell_bg gc)) (colour_codes_bg (cell_bg lastgc)) reset false) base g
    (with_bg (cell_bg gc) g).
Proof.
  intros Hl Hc Hg. destruct (bg_codes_shape _ Hc) as (Hs & Hlen & Hd). destruct (bg_codes_replay (cell_bg gc) g Hc) as [Hne Heff].
  apply colour_switches; [done|done| |done].
  intros [?|[[-> E]|[-> E]]]%colour_skipped; [done| |].
  - apply bg_codes_inj in E; [|done|done]. destruct g. simpl in *. unfold with_bg. simpl. congruence.
  - apply Hd in E. destruct g. simpl in *. unfold with_bg. simpl. congruence.
Qed.

Lemma us_switches lastgc gc reset base g :
  colour_ok (cell_us lastgc) -> colour_ok (cell_us gc) -> underline_colour (cell_us gc) ->
  (reset = false -> cell_us gc = COLOUR_DEFAULT -> cell_us lastgc = COLOUR_DEFAULT) ->
  us g = (if reset : bool then COLOUR_DEFAULT else cell_us lastgc) ->
  switches (append_colour_code (colour_codes_us (cell_us gc)) (colour_codes_us (cell_us lastgc)) reset false) base g
    (with_us (cell_us gc) g).
Proof.
  intros Hl Hc Hu Hend Hg. destruct (us_codes_shape _ Hc) as (Hs & Hlen & Hd).
  assert (colour_codes_us (cell_us gc) = [] -> cell_us gc = COLOUR_DEFAULT) as Hnil.
  { intros E. destruct Hu as [?|Hge]; [done|]. by destruct (us_codes_replay (cell_us gc) g Hc Hge). }
  assert (cell_us gc = us g -> with_us (cell_us gc) g = g) as Hsame by (intros ->; by destruct g).
  apply colour_switches; [done|done| |].
  - intros E. apply Hsame. apply colour_skipped in E as [E|[[-> E]|[-> E]]].
    + apply Hnil in E. rewrite Hg. destruct reset; [done|]. rewrite Hend; done.
    + destruct Hd as [Hd|[_ Hge]].
      * rewrite Hg, Hend; auto.
      * rewrite Hg. apply us_codes_inj; [done|done| |done]. by destruct (us_codes_replay (cell_us gc) g Hc Hge).
    + destruct Hd as [Hd|[Hd _]]; [by rewrite Hd in E; destruct E|]. rewrite Hd in E. by destruct E.
  - intros Hne. destruct Hd as [?|[_ Hge]]; [done|]. by apply us_codes_replay.
Qed.

(** The sequences between two cells. *)
Lemma grid_string_code_switches lastgc gc base l has_link :
  grid_cell_ok (style_of 0 lastgc) -> replayable gc ->
  switches (append_grid_string_code lastgc gc false None has_link).1 base (style_of l lastgc) (style_of l gc).
Proof.
  intros Hlast Hr. pose proof (style_ok _ Hr) as Hok. unfold append_grid_string_code.
  destruct (same_style lastgc gc) eqn:Hsame.
  { unfold same_style in Hsame. rewrite !andb_true_iff, !Z.eqb_eq in Hsame. destruct Hsame as ((((Ha & Hf) & Hb) & Hu) & _).
    unfold style_of. rewrite Ha, Hf, Hb, Hu. apply switches_nil. }
  cbv zeta. rewrite attr_sgr_head by done. cbn [append_link fst].
  unfold append_charset.
  assert (has_bit (lastattr lastgc gc) CHARSET = false) as ->.
  { unfold lastattr, has_bit. destruct (needs_reset lastgc gc); rewrite ?(no_charset _ Hlast); done. }
  assert (has_bit (cell_attr gc) CHARSET = false) as -> by (unfold has_bit; by rewrite (no_charset _ Hok)).
  cbn [negb andb app]. rewrite app_nil_r.
  set (g0 := with_attr (cell_attr gc) (if needs_reset lastgc gc then with_link l InputCell.default_cell else style_of l lastgc)).
  apply (switches_app _ _ _ _ g0); [by apply attrs_switch|].
  apply (switches_app _ _ _ _ (with_fg (cell_fg gc) g0)).
  { apply fg_switches; [by destruct Hlast|by destruct Hok|]. unfold g0. by destruct (needs_reset lastgc gc). }
  apply (switches_app _ _ _ _ (with_bg (cell_bg gc) (with_fg (cell_fg gc) g0))).
  { apply bg_switches; [by destruct Hlast|by destruct Hok|]. unfold g0. by destruct (needs_reset lastgc gc). }
  assert (style_of l gc = with_us (cell_us gc) (with_bg (cell_bg gc) (with_fg (cell_fg gc) g0))) as ->.
  { unfold g0. by destruct (needs_reset lastgc gc). }
  apply us_switches; [by destruct Hlast|by destruct Hok|by destruct Hr| |].
  - intros E Hd. destruct (Z.eq_dec (cell_us lastgc) COLOUR_DEFAULT) as [|Hne]; [done|].
    unfold needs_reset in E. simpl in E. rewrite Hd, (proj2 (Z.eqb_neq _ _) Hne) in E. simpl in E. by rewrite !orb_true_r in E.
  - unfold g0. by destruct (needs_reset lastgc gc).
Qed.

(** ** Rows *)

(** The characters of a cell. *)
Definition drawn (c : GridCell) : list Z := chars (as_str (cell_text c)).

(** A cell whose text is printed and whose style is selected as it is. *)
Definition replayable_cell (c : GridCell) : Prop :=
  is_padding c = true \/
  replayable c /\ flags_contains (cell_flags c) TAB = false
  /\ as_str (cell_text c) = concat (map encode_utf8 (drawn c)) /\ forallb text_char (drawn c) = true.

(** What the screen is told for a cell: its characters in its style. *)
Definition cell_calls (base : CellState) (acs : bool) (c : GridCell) : list WriterCall :=
  if is_padding c then []
  else map (char_call (with_style (style_of (link (cell base)) c) base) acs) (drawn c).

Definition is_collect_end (c : WriterCall) : bool := match c with collect_end => true | _ => false end.
(** The calls that draw. *)
Definition drawing (calls : list WriterCall) : list WriterCall := List.filter (fun c => negb (is_collect_end c)) calls.

Lemma drawing_app a b : drawing (a ++ b) = drawing a ++ drawing b.
Proof. apply List.filter_app. Qed.

Lemma drawing_ends n : drawing (replicate n collect_end) = [].
Proof. by induction n. Qed.

Lemma drawing_chars cell a cs : drawing (map (char_call cell a) cs) = map (char_call cell a) cs.
Proof. induction cs as [|c cs IH]; [done|]. simpl. rewrite IH. unfold char_call at 1. by destruct (c <? 128). Qed.

(** A cell as items: the sequences that select its style, then its characters. *)
Lemma glyphs_show base cs its gc calls gc' :
  forallb text_char cs = true -> shows base its gc calls gc' ->
  shows base (map Glyph cs ++ its) gc (map (char_call (with_style gc base) (base_acs base)) cs ++ calls) gc'.
Proof.
  intros Hcs Hs. induction cs as [|c cs IH]; [done|]. cbn [forallb map app] in *. apply andb_true_iff in Hcs as [Hc Hcs].
  apply shows_glyph; auto.
Qed.

Lemma code_shows bs base gc gc1 its calls gc' :
  switches bs base gc gc1 -> shows base its gc1 calls gc' ->
  exists its' calls', items_bytes its' = bs ++ items_bytes its /\ shows base its' gc calls' gc' /\ drawing calls' = drawing calls.
Proof.
  intros [[n Hn] [Ht Hg] [[-> ->]|[r ->]]] Hs; [by exists its, calls|].
  exists (Control (27 :: r) :: its), (replicate n collect_end ++ calls). split; [done|]. split; [by apply (shows_control _ _ _ _ _ gc1)|].
  by rewrite drawing_app, drawing_ends.
Qed.

Lemma cell_shows lastgc c base has_link its calls gc' :
  grid_cell_ok (style_of 0 lastgc) -> replayable_cell c -> is_padding c = false ->
  shows base its (style_of (link (cell base)) c) calls gc' ->
  exists its' calls',
    items_bytes its' = ((append_grid_string_code lastgc c false None has_link).1 ++ append_cell_text c false) ++ items_bytes its
    /\ shows base its' (style_of (link (cell base)) lastgc) calls' gc'
    /\ drawing calls' = cell_calls base (base_acs base) c ++ drawing calls.
Proof.
  intros Hlast [?|(Hr & Ht & Htext & Hchars)] Hpad Hs; [congruence|].
  destruct (code_shows _ _ _ _ _ _ _ (grid_string_code_switches lastgc c base (link (cell base)) has_link Hlast Hr)
              (glyphs_show base (drawn c) _ _ _ _ Hchars Hs)) as (its' & calls' & E & Hs' & D).
  exists its', calls'. split; [|split; [done|]].
  - rewrite E. unfold append_cell_text. rewrite Ht. cbn [negb]. unfold items_bytes. rewrite map_app, concat_app, map_map.
    by rewrite Htext, <- app_assoc.
  - rewrite D, drawing_app, drawing_chars. unfold cell_calls. by rewrite Hpad.
Qed.

Definition sequences (options : GridRenderOptions) : Prop :=
  with_sequences options = true /\ escape_sequences options = false /\ trim_spaces options = false.

Lemma cells_show options cs base : forall s,
  sequences options -> Forall replayable_cell cs -> grid_cell_ok (style_of 0 (last_cell s)) ->
  exists its calls,
    rendered (fold_left (render_cell options None) cs s) = rendered s ++ items_bytes its
    /\ shows base its (style_of (link (cell base)) (last_cell s)) calls
         (style_of (link (cell base)) (last_cell (fold_left (render_cell options None) cs s)))
    /\ drawing calls = concat (map (cell_calls base (base_acs base)) cs).
Proof.
  induction cs as [|c cs IH]; intros s Ho Hcs Hs.
  { exists [], []. rewrite app_nil_r. split; [done|]. split; [constructor|done]. }
  apply Forall_cons in Hcs as [Hc Hcs]. cbn [fold_left map concat]. unfold render_cell at 2 4.
  change (flags_contains (cell_flags c) PADDING) with (is_padding c). destruct Ho as (Hw & He & Ht). rewrite Hw, He.
  destruct (is_padding c) eqn:Hpad.
  { destruct (IH s) as (its & calls & E & Hd & D); [done|done|done|]. exists its, calls. split; [done|]. split; [done|].
    unfold cell_calls at 1. by rewrite Hpad. }
  destruct (append_grid_string_code (last_cell s) c false None (open_link s)) as [code has_link] eqn:Hcode.
  match goal with |- context [fold_left _ cs ?t] => destruct (IH t) as (its & calls & E & Hd & D) end; [done|done| |].
  { simpl. destruct Hc as [?|[[] _]]; [congruence|done]. }
  destruct (cell_shows (last_cell s) c base (open_link s) its calls _ Hs Hc Hpad Hd) as (its' & calls' & E' & Hs' & D').
  rewrite Hcode in E'. cbn [fst] in E'. exists its', calls'. split; [|split; [exact Hs'|congruence]].
  rewrite E, E'. simpl. by rewrite <- !app_assoc.
Qed.

(** No link is open without a table of links. *)
Lemma no_links options cs : forall s, open_link (fold_left (render_cell options None) cs s) = open_link s.
Proof.
  induction cs as [|c cs IH]; intros s; [done|]. cbn [fold_left]. rewrite IH. unfold render_cell.
  destruct (flags_contains _ _); [done|]. destruct (with_sequences options); [|done].
  unfold append_grid_string_code. destruct (same_style _ _); done.
Qed.

(** One past the last column of a row that is rendered. *)
Definition rendered_end (l : GridLine) (width : nat) (options : GridRenderOptions) : nat :=
  match plain_text l with
  | Some text => plain_text_capture_end (plain_text_render_end l (length text) options) width options
  | None => render_cell_end l width options
  end.

Definition cells_state : RenderState := mkRenderState [] false default_string_state default_span.

(** Cells of the default style take no sequences. *)
Lemma default_cells_rendered options cs : forall s,
  sequences options -> has_default_style (last_cell s) = true ->
  Forall (fun c => has_default_style c = true /\ is_padding c = false /\ flags_contains (cell_flags c) TAB = false) cs ->
  rendered (fold_left (render_cell options None) cs s) = rendered s ++ concat (map (fun c => as_str (cell_text c)) cs).
Proof.
  induction cs as [|c cs IH]; intros s Ho Hs Hcs; [by rewrite app_nil_r|].
  apply Forall_cons in Hcs as [(Hc & Hpad & Htab) Hcs]. cbn [fold_left map concat]. rewrite IH; [|done| |done].
  - unfold render_cell. change (flags_contains (cell_flags c) PADDING) with (is_padding c). destruct Ho as (-> & -> & _).
    rewrite Hpad. assert (same_style (last_cell s) c = true) as Hsame.
    { unfold has_default_style in *. unfold same_style. rewrite !andb_true_iff, !Z.eqb_eq in *. intuition congruence. }
    unfold append_grid_string_code. rewrite Hsame. unfold append_cell_text. rewrite Htab. simpl. by rewrite <- app_assoc.
  - unfold render_cell. destruct (flags_contains _ PADDING); [done|]. destruct Ho as (-> & -> & _).
    by destruct (append_grid_string_code _ _ _ _ _).
Qed.

Lemma view_plain l text :
  plain_text l = Some text ->
  Forall (fun c => has_default_style c = true /\ is_padding c = false /\ flags_contains (cell_flags c) TAB = false) (view l)
  /\ map (fun c => as_str (cell_text c)) (view l)
     = map (fun b => [b]) (text ++ replicate (plain_text_data_end l - length text + (line_width l - plain_text_data_end l)) 32).
Proof.
  intros Hp. unfold view. rewrite Hp. split.
  - rewrite !Forall_app. split_and!; [apply List.Forall_map, List.Forall_forall; done|by apply Forall_replicate|by apply Forall_replicate].
  - rewrite replicate_add, !map_app, !map_map, !fmap_replicate. done.
Qed.

Lemma take_text (text : list Z) n k :
  (n <= length text + k)%nat ->
  take n (text ++ replicate k 32) = take (length text `min` n) text ++ (if (length text <? n)%nat then replicate (n - length text) 32 else []).
Proof.
  intros Hn. rewrite take_app. destruct (Nat.ltb_spec (length text) n).
  - rewrite !(take_ge text) by lia. f_equal. rewrite take_replicate. f_equal. lia.
  - replace (n - length text)%nat with 0%nat by lia. rewrite Nat.min_r by lia. by rewrite take_0.
Qed.

(** Both forms of a row are rendered from the cells it stands for. *)
Lemma row_rendered l width options :
  sequences options -> (rendered_end l width options <= length (view l))%nat ->
  (render_with_options l width options None default_string_state).1
  = rendered (fold_left (render_cell options None) (take (rendered_end l width options) (view l)) cells_state).
Proof.
  intros Ho Hend. unfold render_with_options, render_with_options_measured. unfold rendered_end in *.
  destruct (plain_text l) as [text|] eqn:Hp.
  - destruct (view_plain l text Hp) as [Hv Ht]. rewrite default_cells_rendered; [|done|done|by apply Forall_take].
    assert (append_plain_text_state_prefix options None default_string_state = ([], default_string_state)) as ->.
    { unfold append_plain_text_state_prefix. destruct Ho as (-> & _). done. }
    cbn [fst rendered cells_state app]. unfold append_plain_text_with_options. destruct Ho as (_ & _ & ->).
    rewrite <- (take_text _ _ (plain_text_data_end l - length text + (line_width l - plain_text_data_end l))).
    + rewrite <- firstn_map, Ht, firstn_map. clear. generalize (take (plain_text_capture_end (plain_text_render_end l (length text) options) width options) (text ++ replicate (plain_text_data_end l - length text + (line_width l - plain_text_data_end l)) 32)).
      intros bs. induction bs as [|b bs IH]; [done|]. simpl. by rewrite <- IH.
    + apply (f_equal length) in Ht. rewrite !length_map, length_app, length_replicate in Ht. lia.
  - fold cells_state. assert (view l = cells l) as Hv by (unfold view; by rewrite Hp). rewrite Hv in *.
    rewrite no_links. destruct Ho as (_ & _ & ->). cbn [open_link cells_state fst].
    replace (if include_empty_cells options then (render_cell_end l width options - length (cells l))%nat else 0%nat) with 0%nat
      by (destruct (include_empty_cells options); lia).
    simpl. by rewrite app_nil_r.
Qed.

(** C40. A captured row replays, on every screen: a row rendered with its control
    sequences from a fresh state, read by a parser between characters in the
    default style, tells the screen exactly the characters of the row's cells, in
    order and each in the attributes and colours of its cell, neighbouring ASCII
    characters possibly as one call with a run; besides them only collections
    end, and the parser is back in the ground state.  The row is rendered without
    hyperlinks, escapes and trimming and is not longer than the cells it stores;
    its cells hold printable text in styles that control sequences select, but
    not overlined ones, whose code the parser does not read. *)
Theorem rendered_row_replays row width options p w :
  sequences options -> (rendered_end row width options <= length (view row))%nat ->
  Forall replayable_cell (take (rendered_end row width options) (view row)) ->
  state p = Ground -> utf8_started p = false -> cell (pcell p) = with_link (link (cell (pcell p))) InputCell.default_cell ->
  exists p' calls, parse (render_with_options row width options None default_string_state).1 p w = Some (p', run_calls calls w)
    /\ drawing (expand calls) = concat (map (cell_calls (pcell p) (acs p)) (take (rendered_end row width options) (view row)))
    /\ state p' = Ground.
Proof.
  intros Ho Hend Hcells Hs Hu Hstyle. rewrite row_rendered by done.
  destruct (cells_show options (take (rendered_end row width options) (view row)) (pcell p) cells_state) as (its & calls & E & Hsh & D);
    [done|done|apply default_cell_ok|].
  rewrite E. cbn [rendered cells_state app].
  destruct (items_draw _ _ _ _ _ (last_char p) Hsh (with_printed_in_current_parse false p) w) as (p' & cs & Hp & He & Hs' & _).
  { split; [done|]. split; [done|]. split; [|done]. cbn [last_cell cells_state]. destruct (pcell p) as [gc x y z] eqn:Hpc.
    cbn [cell] in Hstyle. change (pcell (with_printed_in_current_parse false p)) with (pcell p). rewrite Hpc.
    unfold with_style. cbn [cell set g0set g1set]. by rewrite Hstyle at 1. }
  exists p', cs. split; [exact Hp|]. split; [|done]. by rewrite He.
Qed.

End Replay.

(** ** Without sequences *)

Lemma cells_rendered_plain options links cs : forall s,
  with_sequences options = false -> escape_sequences options = false ->
  let t := fold_left (render_cell options links) cs s in
  rendered t = rendered s ++ concat (map (fun c =>
      if flags_contains (cell_flags c) PADDING then []
      else if flags_contains (cell_flags c) TAB then [9]
      else as_str (cell_text c)) cs)
  /\ last_cell t = last_cell s /\ open_link t = open_link s.
Proof.
  induction cs as [|c cs IH]; intros s Hw He; [by rewrite app_nil_r|]. cbn [fold_left map concat]. cbv zeta.
  destruct (IH (render_cell options links s c) Hw He) as (-> & -> & ->). unfold render_cell, append_cell_text. rewrite Hw, He.
  destruct (flags_contains (cell_flags c) PADDING); [done|]. simpl. rewrite <- app_assoc. done.
Qed.

(** The direct path for plain captures is exact: whatever the row and the
    options, when neither sequences nor escapes are asked for it yields the bytes
    the general renderer yields, for any table of links and any state, which the
    general renderer then leaves alone; otherwise it declines. *)
Theorem plain_capture_exact l width options links state :
  match render_bytes_with_options l width options with
  | Some output => render_with_options l width options links state = (output, state)
  | None => with_sequences options = true \/ escape_sequences options = true
  end.
Proof.
  unfold render_bytes_with_options, render_with_options, render_with_options_measured.
  destruct (with_sequences options) eqn:Hw; [by left|]. destruct (escape_sequences options) eqn:He; [by right|]. simpl.
  destruct (plain_text l) as [text|].
  - unfold append_plain_text_state_prefix. by rewrite Hw.
  - set (stop := render_cell_end l width options).
    destruct (cells_rendered_plain options links (take stop (cells l)) (mkRenderState [] false state default_span) Hw He) as (Hr & Hl & Ho).
    cbv zeta in *. rewrite Hr, Hl, Ho. simpl. rewrite app_nil_r.
    assert (replicate (if include_empty_cells options then stop - length (cells l) else 0)%nat 32
            = if include_empty_cells options && (length (cells l) <? stop)%nat then replicate (stop - length (cells l)) 32 else []) as ->.
    { destruct (include_empty_cells options); simpl; [|done]. destruct (Nat.ltb_spec (length (cells l)) stop); [done|].
      by replace (stop - length (cells l))%nat with 0%nat by lia. }
    by destruct (trim_spaces options).
Qed.

(** ** Where rendering does not replay *)

Definition overlined (ch : Z) : GridCell := set_attr OVERLINE (from_plain_ascii ch).

(** The code of overlined text, 53, is written as [5:3], which the parser takes
    for nothing. *)
Lemma overline_is_lost :
  exists p' w', parse (append_grid_string_code default_string_state (overlined 97) false None false).1 new_parser screen = Some (p', w')
    /\ attr (cell (pcell p')) = 0.
Proof. eexists _, _. split; [vm_compute; reflexivity|]. reflexivity. Qed.

Definition red_row : GridLine := mkLine [set_bg 1 (from_plain_ascii 97); default_cell; default_cell] None 3 0 0 0 0.
Definition full_rows : GridRenderOptions := mkRenderOptions false true false true false false.

(** A row in the history has lost its blank cells; asked for all columns, the
    renderer fills them in the style of the last cell instead of the default. *)
Lemma compaction_changes_rendering :
  (render_with_options red_row 3 full_rows None default_string_state).1
    <> (render_with_options (compact_for_history red_row) 3 full_rows None default_string_state).1
  /\ (render_with_options (compact_for_history red_row) 3 full_rows None default_string_state).1 = [27; 91; 52; 49; 109; 97; 32; 32].
Proof. split; [vm_compute; discriminate|vm_compute; reflexivity]. Qed.

(** ** Witnesses *)

(** A bold red wide character with its padding, a blank and an underlined one. *)
Definition sample_row : GridLine :=
  let c := set_fg 1 (set_attr BRIGHT (mkCell (text_from_char 28450) 2 0 0 8 8 8 0)) in
  mkLine [c; padding_of c; default_cell; set_us (COLOUR_FLAG_256 + 9) (set_attr UNDERSCORE_3 (from_plain_ascii 98))] None 4 0 0 0 0.

Lemma rendered_row_replays_witness :
  exists p' calls, parse (render_with_options sample_row 4 full_rows None default_string_state).1 new_parser screen
      = Some (p', run_calls calls screen)
    /\ drawing (expand calls) = concat (map (cell_calls default_cell_state false) (cells sample_row))
    /\ state p' = Ground.
Proof.
  apply (rendered_row_replays sample_row 4 full_rows new_parser screen); [done|apply Nat.leb_le; reflexivity| |done|done|done].
  assert (forall c, grid_cell_ok (style_of 0 c) -> has_bit (cell_attr c) OVERLINE = false -> underline_colour (cell_us c) ->
    flags_contains (cell_flags c) TAB = false -> as_str (cell_text c) = concat (map encode_utf8 (drawn c)) ->
    forallb text_char (drawn c) = true -> replayable_cell c) as Hcell by (intros; right; repeat split; try apply H; done).
  repeat apply List.Forall_cons; [apply Hcell|by left|apply Hcell|apply Hcell|constructor];
    try reflexivity; try (by left); try (right; vm_compute; discriminate);
    (constructor; [reflexivity|unfold underline_ok; vm_compute; set_solver|..]; unfold colour_ok; vm_compute; intuition congruence).
Defined.
