(* ===== verification/Capture.v ===== *)
(** * Captures of the screen

    [crates/rmux-core/src/transcript.rs] and [screen/capture.rs]: which rows a
    capture covers, the bytes it returns, the bounded transcript of a pane, and the
    rows a recovery sends.  A [RangeInclusive] is the pair of its ends. *)

From S2P Require Import Prelude Text Utf8 InputCell Passthrough ScreenWriter GridCell GridLine GridReflow Grid Utf8Width Vis Hyperlinks Screen GridRender RenderReplay.

#[local] Open Scope nat_scope.

(** ** Ranges of rows *)

Record ScreenCaptureRange : Type := mkCaptureRange {
  range_start : option Z;
  range_end : option Z;
  start_is_absolute : bool;
  end_is_absolute : bool
}.

Definition resolve_screen_bound (bound : option Z) (default history_size last_line : nat) : nat :=
  match bound with
  | None => default
  | Some bound =>
      if (0 <=? bound)%Z then (history_size + Z.to_nat bound) `min` last_line
      else
        let magnitude := Z.to_nat (Z.abs bound) in
        if history_size <? magnitude then 0 else (history_size - magnitude) `min` last_line
  end.

Definition resolve_screen_capture_range (range : ScreenCaptureRange) (history_size total_lines : nat) : option (nat * nat) :=
  if total_lines =? 0 then None
  else
    let last_line := total_lines - 1 in
    let default_top := history_size `min` last_line in
    let top := if start_is_absolute range then 0
               else resolve_screen_bound (range_start range) default_top history_size last_line in
    let bottom := if end_is_absolute range then last_line
                  else resolve_screen_bound (range_end range) last_line history_size last_line in
    Some (if bottom <? top then (bottom, top) else (top, bottom)).

(** The rows of a range, in order. *)
Definition range_rows (range : nat * nat) : list nat := seq (fst range) (snd range - fst range + 1).

Definition resolve_relative_bound (bound : option Z) (len default : nat) : nat :=
  match bound with
  | None => default
  | Some bound =>
      if (0 <=? bound)%Z then Z.to_nat bound `min` (len - 1)
      else
        let from_newest := Z.to_nat (Z.abs bound) in
        if len <? from_newest then 0 else len - from_newest
  end.

Definition resolve_relative_capture_range (start stop : option Z) (len : nat) : option (nat * nat) :=
  if len =? 0 then None
  else
    let start := resolve_relative_bound start len 0 in
    let stop := resolve_relative_bound stop len (len - 1) in
    Some (if stop <? start then (stop, start) else (start, stop)).

(** The loop that copies the lines of a range, each followed by a newline. *)
Fixpoint copy_lines (lines : list (list Z)) (index : nat) (range : nat * nat) : list Z :=
  match lines with
  | [] => []
  | line :: lines =>
      if index <? fst range then copy_lines lines (S index) range
      else if snd range <? index then []
      else line ++ 10%Z :: copy_lines lines (S index) range
  end.

Definition capture_screen_lines (lines : list (list Z)) (line_count history_size : nat) (range : ScreenCaptureRange) : list Z :=
  match resolve_screen_capture_range range history_size line_count with
  | None => []
  | Some range => copy_lines lines 0 range
  end.

(** ** The transcript of a pane *)

Module Transcript.

Record Transcript : Type := mkTranscript { lines : list (list Z); limit : nat }.

Definition new (limit : nat) : Transcript := mkTranscript [] limit.

Definition enforce_limit (t : Transcript) : Transcript := mkTranscript (drop (length (lines t) - limit t) (lines t)) (limit t).

Definition set_limit (n : nat) (t : Transcript) : Transcript := enforce_limit (mkTranscript (lines t) n).

Definition append_line (line : list Z) (t : Transcript) : Transcript :=
  if limit t =? 0 then t else enforce_limit (mkTranscript (lines t ++ [line]) (limit t)).

Definition capture (start stop : option Z) (t : Transcript) : list Z :=
  match resolve_relative_capture_range start stop (length (lines t)) with
  | None => []
  | Some range => copy_lines (lines t) 0 range
  end.

Definition byte_size (t : Transcript) : nat := list_sum (map (fun line => length line + 1) (lines t)).

End Transcript.

(** ** Captures of a grid *)

Inductive CaptureSurfaceBoundary : Type := Continuous | HistoryToAlternateViewport.

Definition separates_after (b : CaptureSurfaceBoundary) (absolute_y history_size capture_end : nat) : bool :=
  match b with
  | Continuous => false
  | HistoryToAlternateViewport =>
      (0 <? history_size) && (absolute_y + 1 =? history_size) && (history_size <=? capture_end)
  end.

Definition wrapped_at (g : Grid) (y : nat) : bool := default false (absolute_line_wrapped g y).

Definition grid_range (g : Grid) (range : ScreenCaptureRange) : option (nat * nat) :=
  resolve_screen_capture_range range (length (history g)) (length (history g) + sy g).

(** One row of [capture_grid_bytes]: the output so far and the cell written last. *)
Definition capture_row (g : Grid) (links : Hyperlinks) (options : GridRenderOptions) (boundary : CaptureSurfaceBoundary)
    (capture_end : nat) (acc : list Z * GridStringState) (y : nat) : list Z * GridStringState :=
  let '(output, state) := acc in
  match append_rendered_absolute_line g y options (Some links) state with
  | None => (output, state)
  | Some (row, state) =>
      if negb (join_wrapped options) || negb (wrapped_at g y) || separates_after boundary y (length (history g)) capture_end
      then let '(reset, state) := reset_to_default_line_style options (Some links) state in
           (output ++ row ++ reset ++ [10%Z], state)
      else (output ++ row, state)
  end.

Definition capture_grid_bytes (g : Grid) (links : Hyperlinks) (range : ScreenCaptureRange) (options : GridRenderOptions)
    (boundary : CaptureSurfaceBoundary) : list Z :=
  match grid_range g range with
  | None => []
  | Some range =>
      fst (fold_left (capture_row g links options boundary (snd range)) (range_rows range) ([], default_string_state))
  end.

(** Rows from fresh states, with their wrap flags; rows that do not exist are
    left out. *)
Definition capture_grid_absolute_rows_independent (g : Grid) (links : Hyperlinks) (rows : list nat) (options : GridRenderOptions)
    : list (list Z * bool) :=
  omap (fun y => (fun r => (fst r, wrapped_at g y)) <$> render_absolute_line g y options (Some links) default_string_state) rows.

Definition capture_grid_rows_independent (g : Grid) (links : Hyperlinks) (range : ScreenCaptureRange) (options : GridRenderOptions)
    : list (list Z * bool) :=
  match grid_range g range with
  | None => []
  | Some range => capture_grid_absolute_rows_independent g links (range_rows range) options
  end.

Definition capture_grid_line_format_flags (g : Grid) (range : ScreenCaptureRange) : list Z :=
  match grid_range g range with
  | None => []
  | Some range => omap (fun y => (fun _ => if wrapped_at g y then 87%Z else 45%Z) <$> absolute_line g y) (range_rows range)
  end.

Record RecoveryRow : Type := mkRecoveryRow {
  row_bytes : list Z;
  row_wrapped : bool;
  row_span : RenderedLineSpan;
  row_trailing_reflow_gap : nat
}.

Definition render_grid_row_independent (g : Grid) (links : Hyperlinks) (y : nat) (options : GridRenderOptions) : option RecoveryRow :=
  '(line, span, _) ← render_absolute_line_measured g y options (Some links) default_string_state;
  Some (mkRecoveryRow line (wrapped_at g y) span (default 0 (absolute_line_trailing_reflow_gap g y))).

(** ** Captures of a screen *)

Definition capture_transcript (range : ScreenCaptureRange) (options : GridRenderOptions) (s : Screen) : list Z :=
  capture_grid_bytes (s_grid s) (hyperlinks s) range options
    (if is_alternate s then HistoryToAlternateViewport else Continuous).

Definition capture_line_format_flags (range : ScreenCaptureRange) (s : Screen) : list Z :=
  capture_grid_line_format_flags (s_grid s) range.

Definition capture_transcript_rows_independent (range : ScreenCaptureRange) (options : GridRenderOptions) (s : Screen)
    : list (list Z * bool) := capture_grid_rows_independent (s_grid s) (hyperlinks s) range options.

Definition capture_transcript_lines_independent (range : ScreenCaptureRange) (options : GridRenderOptions) (s : Screen)
    : list (list Z) := map fst (capture_transcript_rows_independent range options s).

Definition render_visible_line_independent (row : nat) (options : GridRenderOptions) (s : Screen) : option (list Z) :=
  fst <$> render_absolute_line (s_grid s) (length (history (s_grid s)) + row) options (Some (hyperlinks s)) default_string_state.

Definition capture_saved_transcript (range : ScreenCaptureRange) (options : GridRenderOptions) (s : Screen) : option (list Z) :=
  (fun saved => capture_grid_bytes (sg_grid saved) (hyperlinks s) range options Continuous) <$> saved_grid s.

Definition capture_saved_transcript_rows_independent (range : ScreenCaptureRange) (options : GridRenderOptions) (s : Screen)
    : option (list (list Z * bool)) :=
  (fun saved => capture_grid_rows_independent (sg_grid saved) (hyperlinks s) range options) <$> saved_grid s.

Definition capture_saved_transcript_lines_independent (range : ScreenCaptureRange) (options : GridRenderOptions) (s : Screen)
    : option (list (list Z)) := map fst <$> capture_saved_transcript_rows_independent range options s.

Definition capture_saved_recovery_rows_independent (options : GridRenderOptions) (s : Screen) : option (list (list Z * bool)) :=
  saved ← saved_grid s;
  let live := s_grid s in
  let g := sg_grid saved in
  Some (capture_grid_absolute_rows_independent live (hyperlinks s) (seq 0 (length (history live))) options
        ++ capture_grid_absolute_rows_independent g (hyperlinks s) (seq (length (history g)) (sy g)) options).

Definition capture_saved_line_format_flags (range : ScreenCaptureRange) (s : Screen) : option (list Z) :=
  (fun saved => capture_grid_line_format_flags (sg_grid saved) range) <$> saved_grid s.

(** ** Recovery rows *)

Definition alternate_saved_cursor (s : Screen) : option (nat * nat * bool) :=
  x ← saved_cursor_x s;
  y ← saved_cursor_y s;
  Some (x, y, saved_cursor_pending_wrap s && has_mode (s_mode s) MODE_WRAP).

Definition recovery_saved_grid (now : Z) (s : Screen) : option Grid :=
  saved ← saved_grid s;
  let restore_cursor := bool_decide (is_Some (alternate_saved_cursor s)) in
  let restored := on_grid (fun g => set_hlimit (length (history g) + sy (sg_grid saved)) g) s in
  Some (s_grid (do_alternate_off now restore_cursor restored)).

Record RecoveryRowRenderer : Type := mkRowRenderer {
  renderer_screen : Screen;
  renderer_saved_grid : option Grid;
  renderer_links : Hyperlinks;
  metadata_complete : bool
}.

Definition recovery_row_renderer (now : Z) (max_entry max_total : nat) (s : Screen) : RecoveryRowRenderer :=
  let '(links, complete) := clone_bounded max_entry max_total (hyperlinks s) in
  mkRowRenderer s (recovery_saved_grid now s) links complete.

Definition renderer_grid (r : RecoveryRowRenderer) : Grid := default (s_grid (renderer_screen r)) (renderer_saved_grid r).

Definition active_row (r : RecoveryRowRenderer) (y : nat) (options : GridRenderOptions) : option RecoveryRow :=
  render_grid_row_independent (s_grid (renderer_screen r)) (renderer_links r) y options.

Definition recovery_history_row_wrapped (r : RecoveryRowRenderer) (y : nat) : option bool :=
  let g := renderer_grid r in if y <? length (history g) then absolute_line_wrapped g y else None.

Definition saved_row (r : RecoveryRowRenderer) (y : nat) (options : GridRenderOptions) : option RecoveryRow :=
  saved ← renderer_saved_grid r;
  render_grid_row_independent saved (renderer_links r) (length (history saved) + y) options.

Definition recovery_history_size (r : RecoveryRowRenderer) : nat := length (history (renderer_grid r)).

Definition recovery_history_row (r : RecoveryRowRenderer) (y : nat) (options : GridRenderOptions) : option RecoveryRow :=
  let g := renderer_grid r in
  if y <? length (history g) then render_grid_row_independent g (renderer_links r) y options else None.

(** ** What a capture returns *)

(** A resolved range is ordered and lies within the lines there are, so no
    capture reads past them. *)
Lemma capture_range_bounds range history_size total_lines a b :
  resolve_screen_capture_range range history_size total_lines = Some (a, b) -> a <= b /\ b < total_lines.
Proof.
  unfold resolve_screen_capture_range, resolve_screen_bound. destruct (Nat.eqb_spec total_lines 0); [done|]. cbv zeta.
  set (top := if start_is_absolute range then _ else _). set (bottom := if end_is_absolute range then _ else _).
  assert (top < total_lines /\ bottom < total_lines) as [Ht Hb].
  { unfold top, bottom. split; repeat case_match; lia. }
  destruct (Nat.ltb_spec bottom top); intros [= <- <-]; lia.
Qed.

Lemma relative_range_bounds start stop len a b : resolve_relative_capture_range start stop len = Some (a, b) -> a <= b /\ b < len.
Proof.
  unfold resolve_relative_capture_range, resolve_relative_bound. destruct (Nat.eqb_spec len 0); [done|]. cbv zeta.
  set (first := match start with Some _ => _ | None => _ end). set (final := match stop with Some _ => _ | None => _ end).
  assert (first < len /\ final < len) as [Hs He].
  { unfold first, final. split; repeat case_match; repeat match goal with H : (_ <? _) = false |- _ => apply Nat.ltb_ge in H
      | H : (_ <=? _)%Z = false |- _ => apply Z.leb_gt in H end; lia. }
  destruct (Nat.ltb_spec final first); intros [= <- <-]; lia.
Qed.

(** Lines with their newlines. *)
Definition terminated (ls : list (list Z)) : list Z := concat (map (fun line => line ++ [10%Z]) ls).

Lemma copy_lines_spec ls index range :
  fst range <= snd range ->
  copy_lines ls index range = terminated (drop (fst range - index) (take (S (snd range) - index) ls)).
Proof.
  intros Hr. revert index. induction ls as [|line ls IH]; intros index; [by rewrite take_nil, drop_nil|]. cbn [copy_lines].
  destruct (Nat.ltb_spec index (fst range)).
  - rewrite IH. replace (S (snd range) - index) with (S (S (snd range) - S index)) by lia.
    replace (fst range - index) with (S (fst range - S index)) by lia. done.
  - destruct (Nat.ltb_spec (snd range) index).
    + replace (S (snd range) - index) with 0 by lia. by rewrite take_0, drop_nil.
    + rewrite IH. replace (S (snd range) - index) with (S (S (snd range) - S index)) by lia.
      replace (fst range - index) with 0 by lia. replace (fst range - S index) with 0 by lia.
      unfold terminated. cbn [take drop map concat]. by rewrite <- app_assoc.
Qed.

(** A capture of the transcript is the lines of a range within it, in order, each
    with its newline; an empty transcript gives nothing. *)
Theorem transcript_capture start stop t :
  match resolve_relative_capture_range start stop (length (Transcript.lines t)) with
  | None => Transcript.lines t = [] /\ Transcript.capture start stop t = []
  | Some (a, b) => a <= b < length (Transcript.lines t) /\
      Transcript.capture start stop t = terminated (drop a (take (S b) (Transcript.lines t)))
  end.
Proof.
  unfold Transcript.capture. destruct (resolve_relative_capture_range _ _ _) as [[a b]|] eqn:E.
  - apply relative_range_bounds in E as [H1 H2]. split; [lia|]. rewrite copy_lines_spec by done. cbn [fst snd]. by rewrite !Nat.sub_0_r.
  - split; [|done]. unfold resolve_relative_capture_range in E. destruct (Nat.eqb_spec (length (Transcript.lines t)) 0) as [H|]; [|done].
    by apply nil_length_inv.
Qed.

(** The transcript keeps the newest lines up to its limit, in order. *)
Theorem transcript_keeps_newest limit ls :
  Transcript.lines (fold_left (fun t line => Transcript.append_line line t) ls (Transcript.new limit)) = drop (length ls - limit) ls.
Proof.
  set (run := fold_left _).
  assert (run ls (Transcript.new limit) = Transcript.mkTranscript (drop (length ls - limit) ls) limit) as ->; [|done].
  induction ls as [|line ls IH] using rev_ind; [done|]. unfold run in *. rewrite fold_left_app, IH. cbn [fold_left].
  unfold Transcript.append_line, Transcript.enforce_limit. cbn [Transcript.limit Transcript.lines]. rewrite length_app. cbn [length].
  destruct (Nat.eqb_spec limit 0) as [->|Hl].
  - f_equal. rewrite !drop_ge; [done|rewrite length_app; cbn; lia|lia].
  - f_equal. rewrite length_app, length_drop. cbn [length]. rewrite drop_app_le by (rewrite length_drop; lia). rewrite drop_drop.
    rewrite drop_app_le by lia. f_equal. f_equal. lia.
Qed.

(** Without sequences, escapes and joining, a capture is its rows as they are
    captured one by one, each with a newline: the path that copies bytes and the
    state carried from row to row make no difference. *)
Theorem plain_capture_rows g links range options boundary :
  with_sequences options = false -> escape_sequences options = false -> join_wrapped options = false ->
  capture_grid_bytes g links range options boundary = terminated (map fst (capture_grid_rows_independent g links range options)).
Proof.
  intros Hw He Hj. unfold capture_grid_bytes, capture_grid_rows_independent. destruct (grid_range g range) as [r|]; [|done].
  unfold capture_grid_absolute_rows_independent. set (row := fun y => _ <$> render_absolute_line _ _ _ _ _).
  assert (forall ys acc, fst (fold_left (capture_row g links options boundary (snd r)) ys (acc, default_string_state)) =
    acc ++ terminated (map fst (omap row ys))) as H; [|by rewrite H].
  induction ys as [|y ys IH]; intros acc; [by rewrite app_nil_r|]. cbn [fold_left omap list_omap].
  unfold capture_row at 2, append_rendered_absolute_line, row, render_absolute_line. destruct (absolute_line g y) as [l|]; cbn [mbind option_bind fmap option_fmap option_map].
  2: { rewrite IH. done. }
  pose proof (plain_capture_exact l (sx g) options (Some links) default_string_state) as Hx.
  destruct (render_bytes_with_options l (sx g) options) as [out|]; [|destruct Hx; congruence]. rewrite Hx, Hj. cbn [negb orb fst].
  unfold reset_to_default_line_style. rewrite Hw. cbn [negb app]. rewrite IH. unfold terminated. cbn [map concat fst]. by rewrite <- !app_assoc.
Qed.
